(* ===== verification/_CoqProject ===== *)
-Q . S2P
Prelude.v
CString.v
KState.v
Spinlock.v
Cprintf.v
Proc.v
Sock.v
SockConc.v
Exit.v
SockSpec.v
SockApi.v
SockSys.v
SockLive.v
SysArg.v
Kalloc.v
Pipe.v
Sleeplock.v
Bio.v
Log.v
LogCrash.v
Tx.v
Fs.v
Blocks.v
Inode.v
Content.v
Dir.v
Oper.v
Path.v
Mkfs.v
Vm.v
Paging.v
File.v
FileIO.v
SysFile.v
ProcLife.v
Fork.v
Reap.v
Grow.v
Exec.v
Load.v
Ide.v
Drivers.v
Boot.v
Mp.v
Cmos.v
Desc.v
Console.v
Kbd.v
Trap.v
Grep.v
Shell.v
ShellRun.v
Umalloc.v
User.v
ShellMain.v
Programs.v
