(* ===== verification/Prelude.v ===== *)
(** * A verification of the xv6 kernel with the local socket API

    ** The program

    xv6 is a Unix-like kernel for x86 machines with several processors, in C, here
    with a socket API for processes of one machine.  It boots from a disk image that
    the program mkfs builds (bootmain.c loads the kernel from it), finds its
    processors (mp.c), and runs user processes in address spaces of their own.  A
    process enters the kernel by a trap (trap.c), which hands out interrupts and
    dispatches the system calls (syscall.c): files (sysfile.c, over file.c, pipe.c and
    fs.c), processes (sysproc.c, over proc.c, exec.c and vm.c) and sockets (syssock.c,
    over sock.c).  fs.c works in transactions of log.c, which writes blocks through the
    buffer cache bio.c to a disk driver, ide.c or memide.c.  Spinlocks, which also turn
    interrupts off, guard what processors share; a process waits by [sleep] on a channel
    until a [wakeup].  The user programs are the shell, cat, wc, grep, ls and a few more.

    ** The model

    A kernel routine is a computation of the monad [M] below on the state [kstate]
    (KState), which gathers the global variables of the C files; [outcome] has the ways
    it can end: a return, a panic, a spin on a lock for ever, a switch to the scheduler
    with the rest of the routine, undefined behaviour of C, and a wait loop that used up
    its bound.  One Definition or Fixpoint stands for one C function, under its name,
    or for a loop of it.  Integers are [Z], with [uint32], [int32] and the like where C
    converts; memory is a function from addresses to bytes; a static array is a function
    on indices, and a pointer into it an index.  Specifications are [wp] (the routine
    returns without a sleep, and the postcondition holds), [sleeps], [panics], [runs]
    and the rely/guarantee predicate [post].

    ** Files and sources

    - Prelude: integers, the monad, its rules, tactics, hints and notation; scans and
      updates of arrays.
    - CString: string.c.  KState: param.h, proc.h, sock.h, spinlock.h, file.h, buf.h.
    - Spinlock: spinlock.c, and a machine of several processors that run it instruction
      by instruction ([Smp]).  Proc: the current process, [sched], [sleep], [wakeup].
      Exit: the end of [exit], from the closing of the sockets on.
    - Sock: sock.c.  SockSpec: its table as a map from ports.  SockConc: rely and
      guarantee of its operations.  SockApi: an abstract network and the refinement.
      SockSys: one processor, any number of processes and any schedule.  SockLive: waits
      end.  SysArg: argument fetching of syscall.c, and syssock.c.
    - Cprintf, Console, Kbd: console.c, uart.c, kbd.c.
    - Kalloc: kalloc.c.  Vm: vm.c.  Paging: what page tables map.
    - Pipe, Sleeplock, Bio, Log: pipe.c, sleeplock.c, bio.c with memide.c, log.c.
      LogCrash: the disk at every moment, and recovery.  Tx: blocks in a transaction.
    - Fs: fs.c.  Blocks, Inode, Content, Dir, Path: the theory of its blocks, inodes, file
      contents, directories and path names.  Oper: operations as transactions.
    - File, FileIO, SysFile: file.c with [pipealloc], its theory, sysfile.c.
    - ProcLife: proc.c.  Fork, Reap, Grow: the theory of [fork], of [freevm] and [wait],
      of [allocuvm] and [growproc].  Exec: exec.c.  Load: the theory of [exec], from the
      path to the first instruction.  Trap: sysproc.c, [syscall] and trap.c.
    - Ide: ide.c and ioapic.c.  Drivers: ide.c and memide.c compared.  Desc: descriptors
      of mmu.h, [seginit], [tvinit].  Boot: bootmain.c.  Mp: mp.c.  Cmos: the clock of
      lapic.c.  Mkfs: mkfs.c.
    - Grep: the matcher and loop of grep.c.  Shell, ShellRun, ShellMain: sh.c.  Umalloc:
      umalloc.c.  User: ulib.c and printf.c.  Programs: cat, wc, grep, ls, echo, kill, ln,
      mkdir, rm, zombie and init, as interaction trees over their system calls.

    ** What is shown

    Sockets: every interleaving of processes that call the API, yield and exit, on one
    processor, keeps the table sound and stops it nowhere; each operation implements an abstract network, what is sent is received,
    and a receiver that waits is woken.  The system calls check the arguments they use,
    with the exceptions the findings list.

    Disk: a commit is atomic and durable wherever the machine stops, and recovery can be
    repeated; a write to a file is durable and is what a read returns; blocks are
    allocated once; directories and path names implement lookup on a tree.  The driver
    ide.c stops nothing and completes requests in order, whatever errors the device
    reports, and where it reports none does what memide.c does.  The image of mkfs is sound and the kernel reads from it what the
    host's files held.

    Memory and processes: a page is allocated once; [fork] makes a child with equal bytes
    in pages of its own; [growproc] adds cleared pages; [exec] starts a program of the file
    system in an address space that holds its segments and its arguments; [wait] gives
    back every page of a dead child; spinlocks exclude each other; interrupt gates are well-formed and only the system call is open to
    programs; pipes are bounded queues.

    Console: characters edit the line, and a finished line wakes the readers.

    Start: the boot loader puts every segment in place; the processors found are those the
    table lists, and the walk over it ends exactly for known entries.

    Programs: grep's matcher decides its regular expressions; the shell's parser decides a
    grammar, and the evaluator runs what a specification of commands says; [malloc] and
    [free] keep their list; init starts shells as long as it can fork.

    ** Assumptions on other code

    Hardware is a class or a record whose fields state its documentation, and which an example
    meets: [Ports], [View] and [Ata] (the disk, which may fail any command but is not busy for
    ever, Ide), [clock] (Cmos).  So is what
    programs rely on in the kernel: [World], [Held], [Files], [FullReads] and [Procs]
    (Programs).  mkfs takes the host's files as an argument; [vectors], filled in by
    generated code, and [data], a symbol of the linker, are arguments too.

    ** Bounds and fuel

    Loops with a counter recurse on it.  A loop that waits ([acquiresleep], [pipewrite],
    [wait], [iderw] and the like) recurses on the wakeups it may still get: [k_wakeups] of
    the state, or an argument; theorems hold for every value, and say where a call sleeps
    instead of returning.  Other loops have fuel computed from their input (the bytes of a
    string, the pages of an address range, the blocks of a file), and the theorems show
    that they return, so it is enough.  [idewait] and [waitdisk] poll as often as the
    device's own bound on being busy asks for.  Where a loop may go on for ever the
    theorem says when it does not ([Mp.table_walk_ends]); init is an interaction tree.

    ** Not modelled

    - Assembly (bootasm.S, entry.S, entryother.S, initcode.S, swtch.S, trapasm.S, usys.S)
      and the generated vectors; a switch of context is the outcome [Asleep].
    - main.c: a fixed sequence of calls, and the start of the other processors.
    - lapic.c apart from the clock, picirq.c, [uartinit]: sequences of register writes
      that have their effect in the hardware alone.
    - [procdump] and [getcallerpcs], which only serve debugging ([consoleintr] returns
      whether it would call the first).
    - The bytes inside the blocks of [malloc]: a block is its header.
    - The task state segment [switchuvm] sets up; the instructions that load descriptor
      tables.
    - usertests.c, stressfs.c, forktest.c, socktest.c: tests. *)

From Stdlib Require Export ZArith Lia.
From stdpp Require Export base tactics gmap strings functions fin_maps.
From stdpp Require Export list.

#[global] Open Scope Z_scope.

(** ** Machine integers *)

(** The C types [uint] (types.h) and [int] of the target: 32 bits. *)
Definition W32 : Z := 4294967296.

(** The value an arithmetic result has once stored in a [uint]. *)
Definition uint32 (z : Z) : Z := z mod W32.

(** The value an arithmetic result has once stored in an [int]
    (two's complement, as gcc converts on this target). *)
Definition int32 (z : Z) : Z :=
  let u := z mod W32 in if u <? 2147483648 then u else u - W32.

(** The C types [ushort] and [short]: 16 bits. *)
Definition uint16 (z : Z) : Z := z mod 65536.
Definition int16 (z : Z) : Z := let u := z mod 65536 in if u <? 32768 then u else u - 65536.

(** A byte of memory; [char] is read unsigned where the code casts to [uchar]. *)
Definition byte8 (z : Z) : Z := z mod 256.

Lemma uint32_range z : 0 <= uint32 z < W32.
Proof. unfold uint32, W32. apply Z.mod_pos_bound. lia. Qed.

Lemma uint32_small z : 0 <= z < W32 -> uint32 z = z.
Proof. apply Z.mod_small. Qed.

Lemma int32_small z : - 2147483648 <= z < 2147483648 -> int32 z = z.
Proof.
  intros Hz. unfold int32, W32.
  destruct (Z_lt_dec z 0) as [Hn|Hn].
  - replace (z mod 4294967296) with (z + 4294967296).
    + destruct (Z.ltb_spec (z + 4294967296) 2147483648); lia.
    + rewrite <- (Z.mod_add z 1) by lia. symmetry. apply Z.mod_small. lia.
  - rewrite Z.mod_small by lia.
    destruct (Z.ltb_spec z 2147483648); lia.
Qed.

Lemma uint32_add_l a b : uint32 (uint32 a + b) = uint32 (a + b).
Proof. unfold uint32. apply Zplus_mod_idemp_l. Qed.

Lemma uint32_sub_l a b : uint32 (uint32 a - b) = uint32 (a - b).
Proof. unfold uint32. apply Zminus_mod_idemp_l. Qed.

(** ** fcntl.h: the modes of [open], shared by the kernel and the programs *)

Definition O_RDONLY : Z := 0.
Definition O_WRONLY : Z := 1.
Definition O_RDWR : Z := 2.
Definition O_CREATE : Z := 512.

(** ** The kernel monad

    A kernel routine is a function from the kernel's state to an outcome.
    [Done] is a return.  [Panic] is a call of [panic] (console.c), which never
    returns.  [Spin] is a CPU that turns in [acquire] for a lock another CPU
    holds.  [Asleep s k] is a process that gave up the CPU inside [sched]: [s]
    is the state it leaves to the scheduler and [k] the rest of the routine,
    which runs on the state the scheduler comes back with.  [Undef] is C
    undefined behaviour (an access outside its object).  [Stuck] ends a
    wait loop whose bound on wakeups (a field of the state) is used up. *)

Inductive outcome (S A : Type) : Type :=
| Done (a : A) (s : S)
| Panic (msg : string)
| Spin (s : S)
| Asleep (s : S) (k : S -> outcome S A)
| Undef (msg : string)
| Stuck (s : S).

Arguments Done {S A} a s.
Arguments Panic {S A} msg.
Arguments Spin {S A} s.
Arguments Asleep {S A} s k.
Arguments Undef {S A} msg.
Arguments Stuck {S A} s.

Definition M (S A : Type) : Type := S -> outcome S A.

Fixpoint obind {S A B} (f : A -> M S B) (o : outcome S A) : outcome S B :=
  match o with
  | Done a s => f a s
  | Panic msg => Panic msg
  | Spin s => Spin s
  | Asleep s k => Asleep s (fun s' => obind f (k s'))
  | Undef msg => Undef msg
  | Stuck s => Stuck s
  end.

#[global] Instance M_ret S : MRet (M S) := fun A a s => Done a s.
#[global] Instance M_bind S : MBind (M S) := fun A B f m s => obind f (m s).

(** The primitive computations of the monad. *)
Definition panic {S A} (msg : string) : M S A := fun _ => Panic msg.
Definition undef {S A} (msg : string) : M S A := fun _ => Undef msg.
Definition get {S} : M S S := fun s => Done s s.
Definition gets {S A} (f : S -> A) : M S A := fun s => Done (f s) s.
Definition put {S} (s : S) : M S unit := fun _ => Done tt s.
Definition modify {S} (f : S -> S) : M S unit := fun s => Done tt (f s).
Definition when {S} (b : bool) (m : M S unit) : M S unit :=
  if b then m else mret tt.

(** ** Reasoning about outcomes

    [post G R Q b o] is a rely/guarantee specification of the outcome [o] of a
    routine whose current uninterrupted run began in state [b].  The routine
    neither panics, spins for ever, gets stuck nor is undefined.  Where it sleeps in state
    [s], the run from [b] to [s] meets the guarantee [G b s], and from every
    state [s'] the rely [R s s'] allows the others to reach it goes on, its next
    run beginning in [s'].  Where it returns, [Q] relates the beginning of the
    last run, the value and the final state. *)

Fixpoint post {S A} (G R : S -> S -> Prop) (Q : S -> A -> S -> Prop) (b : S)
    (o : outcome S A) : Prop :=
  match o with
  | Done a s => Q b a s
  | Panic _ => False
  | Spin _ => False
  | Asleep s k => G b s /\ forall s', R s s' -> post G R Q s' (k s')
  | Undef _ => False
  | Stuck _ => False
  end.

(** Total correctness of a run in which the routine never sleeps. *)
Definition wp {S A} (m : M S A) (s : S) (Q : A -> S -> Prop) : Prop :=
  match m s with
  | Done a s' => Q a s'
  | _ => False
  end.

Lemma post_bind {S A B} G R (Q : S -> B -> S -> Prop) (f : A -> M S B) b o :
  post G R (fun b a s => post G R Q b (f a s)) b o -> post G R Q b (obind f o).
Proof.
  revert b. induction o as [a s|msg|s|s k IH|msg|s]; simpl; try done.
  intros b [HG Hk]. split; [done|]. intros s' HR. apply IH, Hk, HR.
Qed.

Lemma post_mono {S A} (G G' R R' : S -> S -> Prop) (Q Q' : S -> A -> S -> Prop) o : forall b,
  (forall s s', G s s' -> G' s s') -> (forall s s', R' s s' -> R s s') ->
  (forall b a s, Q b a s -> Q' b a s) ->
  post G R Q b o -> post G' R' Q' b o.
Proof.
  induction o as [a s|msg|s|s k IH|msg|s]; simpl; eauto.
  intros b HG HR HQ [HGs Hk]. split; [eauto|]. intros s' Hs'. eauto.
Qed.

Lemma wp_bind {S A B} (m : M S A) (f : A -> M S B) s Q :
  wp m s (fun a s' => wp (f a) s' Q) -> wp (m ≫= f) s Q.
Proof. unfold wp, mbind, M_bind. by destruct (m s). Qed.

Lemma wp_mono {S A} (m : M S A) s (Q Q' : A -> S -> Prop) :
  (forall a s', Q a s' -> Q' a s') -> wp m s Q -> wp m s Q'.
Proof. unfold wp. intros HQ. destruct (m s); auto. Qed.

Lemma wp_and {S A} (m : M S A) s (Q Q' : A -> S -> Prop) :
  wp m s Q -> wp m s Q' -> wp m s (fun a s' => Q a s' /\ Q' a s').
Proof. unfold wp. by destruct (m s). Qed.

Lemma wp_ret {S A} (a : A) (s : S) (Q : A -> S -> Prop) :
  Q a s -> wp (mret a) s Q.
Proof. done. Qed.

Lemma wp_Done {S A} (m : M S A) s Q :
  wp m s Q <-> exists a s', m s = Done a s' /\ Q a s'.
Proof.
  unfold wp. split.
  - destruct (m s) eqn:E; try done. eauto.
  - intros (a & s' & -> & HQ). done.
Qed.

Lemma wp_gets_bind {S A B} (f : S -> A) (k : A -> M S B) s Q :
  wp (k (f s)) s Q -> wp (gets f ≫= k) s Q.
Proof. done. Qed.

Lemma wp_modify_bind {S B} (f : S -> S) (k : unit -> M S B) s Q :
  wp (k tt) (f s) Q -> wp (modify f ≫= k) s Q.
Proof. done. Qed.

Lemma wp_ret_bind {S A B} (a : A) (k : A -> M S B) s Q :
  wp (k a) s Q -> wp (mret a ≫= k) s Q.
Proof. done. Qed.

Lemma wp_modify {S} (f : S -> S) s (Q : unit -> S -> Prop) : Q tt (f s) -> wp (modify f) s Q.
Proof. done. Qed.

(** A run that never sleeps meets every rely/guarantee specification with the
    same postcondition. *)
Lemma wp_post {S A} G R (m : M S A) s Q b : wp m s (Q b) -> post G R Q b (m s).
Proof. unfold wp. by destruct (m s). Qed.

Lemma post_bind_wp {S A B} G R (m : M S A) (f : A -> M S B) s (Q : S -> B -> S -> Prop) b :
  wp m s (fun a s' => post G R Q b (f a s')) -> post G R Q b ((m ≫= f) s).
Proof. intros H. apply post_bind. by apply wp_post. Qed.

(** The outcome is a sleep, and [P] holds of the state it leaves and of the rest
    of the routine. *)
Definition sleeps {S A} (o : outcome S A) (P : S -> M S A -> Prop) : Prop :=
  match o with
  | Asleep s k => P s k
  | _ => False
  end.

Lemma sleeps_bind {S A B} (f : A -> M S B) (o : outcome S A) P :
  sleeps o (fun s k => P s (k ≫= f)) -> sleeps (obind f o) P.
Proof. by destruct o. Qed.

Lemma sleeps_bind_wp {S A B} (m : M S A) (f : A -> M S B) s P :
  wp m s (fun a s' => sleeps (f a s') P) -> sleeps ((m ≫= f) s) P.
Proof. unfold wp, mbind, M_bind. by destruct (m s). Qed.

Lemma sleeps_mono {S A} (o : outcome S A) (P P' : S -> M S A -> Prop) :
  (forall s k, P s k -> P' s k) -> sleeps o P -> sleeps o P'.
Proof. destruct o; simpl; auto. Qed.

Lemma sleeps_post {S A} (G R : S -> S -> Prop) (Q : S -> A -> S -> Prop) b o :
  sleeps o (fun s k => G b s /\ forall s', R s s' -> post G R Q s' (k s')) ->
  post G R Q b o.
Proof. by destruct o. Qed.

(** The routine stops the kernel with [msg]. *)
Definition panics {S A} (m : M S A) (s : S) (msg : string) : Prop := m s = Panic msg.

Lemma panics_bind_wp {S A B} (m : M S A) (f : A -> M S B) s msg :
  wp m s (fun a s' => panics (f a) s' msg) -> panics (m ≫= f) s msg.
Proof. unfold wp, panics, mbind, M_bind. by destruct (m s). Qed.

Lemma panics_bind {S A B} (m : M S A) (f : A -> M S B) s msg :
  panics m s msg -> panics (m ≫= f) s msg.
Proof. unfold panics, mbind, M_bind. by intros ->. Qed.

(** [runs P F m s Q]: where the routine returns, [Q] holds; where it panics, [P]; it
    ends in another way only where [F] holds.  [wp] is the case that excludes
    both; with [P] true the routine may give up but must end, with [F] true
    only its panics are excluded. *)
Definition runs {S A} (P F : Prop) (m : M S A) (s : S) (Q : A -> S -> Prop) : Prop :=
  match m s with
  | Done a s' => Q a s'
  | Panic _ => P
  | _ => F
  end.

Lemma runs_bind {S A B} P F (m : M S A) (f : A -> M S B) s Q :
  runs P F m s (fun a s' => runs P F (f a) s' Q) -> runs P F (m ≫= f) s Q.
Proof. unfold runs, mbind, M_bind. by destruct (m s). Qed.

Lemma runs_mono {S A} P F (m : M S A) s (Q Q' : A -> S -> Prop) :
  (forall a s', Q a s' -> Q' a s') -> runs P F m s Q -> runs P F m s Q'.
Proof. unfold runs. intros HQ. destruct (m s); auto. Qed.

Lemma runs_wp {S A} P F P' F' (m : M S A) s Q Q' : (P -> ~ P') -> (F -> ~ F') -> runs P F m s Q -> runs P' F' m s Q' ->
  wp m s (fun a s' => Q a s' /\ Q' a s').
Proof. unfold runs, wp. intros HP HF. destruct (m s); tauto. Qed.

(** ** Scans of a table

    [for(i = 0; i < n; i++) if(P(i)) return i;] *)

Fixpoint find_from (P : nat -> bool) (i n : nat) : option nat :=
  match n with
  | O => None
  | S k => if P i then Some i else find_from P (S i) k
  end.

Definition find_idx (P : nat -> bool) (n : nat) : option nat := find_from P 0 n.

Lemma find_from_Some P n : forall i j,
  find_from P i n = Some j <->
  (i <= j < i + n)%nat /\ P j = true /\ forall k, (i <= k < j)%nat -> P k = false.
Proof.
  induction n as [|n IH]; intros i j; simpl; [split; [done|lia]|].
  destruct (P i) eqn:E.
  - split.
    + intros [= <-]. repeat split; lia || done.
    + intros (Hr & HP & Hf). f_equal. destruct (Nat.eq_dec i j); [done|].
      rewrite Hf in E; [done|lia].
  - rewrite IH. split; intros (Hr & HP & Hf).
    + repeat split; [lia|lia|done|]. intros k Hk.
      destruct (Nat.eq_dec k i) as [->|]; [done|]. apply Hf. lia.
    + assert (i <> j) by congruence. repeat split; [lia|lia|done|].
      intros k Hk. apply Hf. lia.
Qed.

Lemma find_from_None P n : forall i,
  find_from P i n = None <-> forall k, (i <= k < i + n)%nat -> P k = false.
Proof.
  induction n as [|n IH]; intros i; simpl; [split; [lia|done]|].
  destruct (P i) eqn:E.
  - split; [done|]. intros H. rewrite H in E; [done|lia].
  - rewrite IH. split; intros H k Hk.
    + destruct (Nat.eq_dec k i) as [->|]; [done|]. apply H. lia.
    + apply H. lia.
Qed.

Lemma find_idx_Some P n j :
  find_idx P n = Some j <->
  (j < n)%nat /\ P j = true /\ forall k, (k < j)%nat -> P k = false.
Proof.
  unfold find_idx. rewrite find_from_Some.
  split; intros (Hr & HP & Hf); repeat split; try done; try lia; intros k Hk; apply Hf; lia.
Qed.

Lemma find_idx_None P n :
  find_idx P n = None <-> forall k, (k < n)%nat -> P k = false.
Proof.
  unfold find_idx. rewrite find_from_None.
  split; intros H k Hk; apply H; lia.
Qed.

Lemma find_idx_ext P P' n :
  (forall k, (k < n)%nat -> P k = P' k) -> find_idx P n = find_idx P' n.
Proof.
  intros H. destruct (find_idx P' n) as [j|] eqn:E.
  - apply find_idx_Some in E as (Hj & HP & Hf). apply find_idx_Some.
    repeat split; [done|by rewrite H|]. intros k Hk. rewrite H by lia. auto.
  - apply find_idx_None. intros k Hk. rewrite H by done.
    by apply (proj1 (find_idx_None P' n)).
Qed.

(** ** Updates of an array

    A static array of the kernel is a total function on its indices; stdpp's
    [<[i := x]> f] is the array with entry [i] replaced. *)

Lemma fn_insert_eq `{EqDecision B} {A} (f : B -> A) i x : <[i := x]> f i = x.
Proof. unfold insert, fn_insert. by rewrite decide_True. Qed.

Lemma fn_insert_ne `{EqDecision B} {A} (f : B -> A) i j x : j <> i -> <[i := x]> f j = f j.
Proof. intros H. unfold insert, fn_insert. by rewrite decide_False. Qed.

Lemma fn_insert_case `{EqDecision B} {A} (f : B -> A) i x j :
  <[i := x]> f j = if decide (i = j) then x else f j.
Proof. done. Qed.

(** How many of the first [n] entries of an array satisfy [P]. *)
Fixpoint count_idx (P : nat -> bool) (n : nat) : Z :=
  match n with
  | O => 0
  | S k => count_idx P k + (if P k then 1 else 0)
  end.

Lemma count_idx_ext P P' n :
  (forall k, (k < n)%nat -> P k = P' k) -> count_idx P n = count_idx P' n.
Proof.
  induction n as [|n IH]; intros H; simpl; [done|].
  rewrite H by lia. rewrite IH; [done|]. intros k Hk. apply H. lia.
Qed.

Lemma count_idx_bounds P n : 0 <= count_idx P n <= Z.of_nat n.
Proof. induction n as [|n IH]; cbn [count_idx]; [lia|]. destruct (P n); lia. Qed.

(** Changing one entry moves the count by the change of that entry. *)
Lemma count_idx_change P P' n i :
  (i < n)%nat -> (forall k, k <> i -> P' k = P k) ->
  count_idx P' n = count_idx P n - (if P i then 1 else 0) + (if P' i then 1 else 0).
Proof.
  induction n as [|n IH]; intros Hi Hne; simpl; [lia|].
  destruct (Nat.eq_dec i n) as [->|Hin].
  - rewrite (count_idx_ext P' P) by (intros; apply Hne; lia). lia.
  - rewrite IH by (auto; lia). rewrite (Hne n) by lia. lia.
Qed.

Lemma count_idx_full P n :
  count_idx P n = Z.of_nat n <-> forall k, (k < n)%nat -> P k = true.
Proof.
  induction n as [|n IH]; cbn [count_idx]; [split; [lia|done]|].
  pose proof (count_idx_bounds P n) as Hb. split.
  - intros H. destruct (P n) eqn:E; [|lia]. intros k Hk.
    destruct (Nat.eq_dec k n) as [->|]; [done|]. apply IH; lia.
  - intros H. rewrite (H n) by lia. rewrite (proj2 IH); [lia|]. intros k Hk. apply H. lia.
Qed.

Lemma count_idx_zero P n :
  count_idx P n = 0 <-> forall k, (k < n)%nat -> P k = false.
Proof.
  induction n as [|n IH]; cbn [count_idx]; [split; [lia|done]|].
  pose proof (count_idx_bounds P n) as Hb. split.
  - intros H. destruct (P n) eqn:E; [lia|]. intros k Hk.
    destruct (Nat.eq_dec k n) as [->|]; [done|]. apply IH; lia.
  - intros H. rewrite (H n) by lia. rewrite (proj2 IH); [lia|]. intros k Hk. apply H. lia.
Qed.

#[global] Arguments count_idx : simpl never.
#[global] Arguments find_from : simpl never.
#[global] Arguments find_idx : simpl never.

(** One read, assignment or [mret] at the head of a computation. *)
Ltac wp1 :=
  first [ apply wp_gets_bind | apply wp_modify_bind | apply wp_ret_bind ]; cbv beta.

(** Enters the first computation of a bind. *)
Ltac wpb := apply wp_bind.

(** Statements about a routine read like a Hoare triple: the routine, the state it runs in, and what holds of its
    result and of the state it leaves. *)
Declare Scope kernel_scope.
Delimit Scope kernel_scope with kernel.
Notation "'WP' m @ s ⇓ r s' , Q" := (wp m s (fun r s' => Q))
  (at level 200, m at level 10, s at level 9, r name, s' name, Q at level 200, only parsing) : kernel_scope.

(** The steps [auto] takes through a computation, and the entries of an array after an update. *)
Create HintDb kernel.
#[export] Hint Resolve wp_ret wp_modify wp_gets_bind wp_modify_bind wp_ret_bind : kernel.
#[export] Hint Rewrite @fn_insert_eq : arrays.
#[export] Hint Rewrite @fn_insert_ne using (done || lia) : arrays.
