(* ===== verification/CString.v ===== *)
(** * string.c: the kernel's memory and string routines

    Memory is a total function from addresses to bytes.  A pointer is an
    address; a routine that writes returns the new memory.  The loops recurse
    on their counter; [strlen], whose loop has no counter, takes fuel and
    returns [None] when no NUL is met within it. *)

From S2P Require Import Prelude.

Definition mem : Type := Z -> Z.

Definition upd (m : mem) (a v : Z) : mem := fun x => if x =? a then v else m x.

(** ** x86.h: the string instructions memset is written with *)

Fixpoint stosb_loop (cnt : nat) (m : mem) (addr data : Z) : mem :=
  match cnt with
  | O => m
  | S k => stosb_loop k (upd m addr (byte8 data)) (addr + 1) data
  end.

Definition stosb (m : mem) (addr data cnt : Z) : mem :=
  stosb_loop (Z.to_nat cnt) m addr data.

(** One little-endian 32-bit store. *)
Definition store32 (m : mem) (a v : Z) : mem :=
  upd (upd (upd (upd m a (byte8 v)) (a + 1) (byte8 (Z.shiftr v 8)))
    (a + 2) (byte8 (Z.shiftr v 16))) (a + 3) (byte8 (Z.shiftr v 24)).

(** One little-endian 32-bit load. *)
Definition load32 (m : mem) (a : Z) : Z :=
  m a + 256 * m (a + 1) + 65536 * m (a + 2) + 16777216 * m (a + 3).

Fixpoint stosl_loop (cnt : nat) (m : mem) (addr data : Z) : mem :=
  match cnt with
  | O => m
  | S k => stosl_loop k (store32 m addr data) (addr + 4) data
  end.

Definition stosl (m : mem) (addr data cnt : Z) : mem :=
  stosl_loop (Z.to_nat cnt) m addr data.

(** ** string.c *)

Definition memset (m : mem) (dst c n : Z) : mem :=
  if (Z.rem dst 4 =? 0) && (n mod 4 =? 0) then
    let c := Z.land c 255 in
    stosl m dst
      (Z.lor (Z.lor (Z.lor (Z.shiftl c 24) (Z.shiftl c 16)) (Z.shiftl c 8)) c)
      (n / 4)
  else stosb m dst c n.

Fixpoint memcmp_loop (n : nat) (m1 : mem) (s1 : Z) (m2 : mem) (s2 : Z) : Z :=
  match n with
  | O => 0
  | S k =>
      if negb (m1 s1 =? m2 s2) then m1 s1 - m2 s2
      else memcmp_loop k m1 (s1 + 1) m2 (s2 + 1)
  end.

Definition memcmp (m1 : mem) (v1 : Z) (m2 : mem) (v2 n : Z) : Z :=
  memcmp_loop (Z.to_nat n) m1 v1 m2 v2.

(** The loop that copies from the end, [--d] and [--s] before each store. *)
Fixpoint copy_down (n : nat) (m : mem) (d s : Z) : mem :=
  match n with
  | O => m
  | S k => copy_down k (upd m (d - 1) (m (s - 1))) (d - 1) (s - 1)
  end.

(** The loop that copies from the start. *)
Fixpoint copy_up (n : nat) (m : mem) (d s : Z) : mem :=
  match n with
  | O => m
  | S k => copy_up k (upd m d (m s)) (d + 1) (s + 1)
  end.

Definition memmove (m : mem) (dst src n : Z) : mem :=
  if (src <? dst) && (src + n >? dst) then
    copy_down (Z.to_nat n) m (dst + n) (src + n)
  else copy_up (Z.to_nat n) m dst src.

Definition memcpy (m : mem) (dst src n : Z) : mem := memmove m dst src n.

Fixpoint strncmp_loop (n : nat) (mp : mem) (p : Z) (mq : mem) (q : Z) : Z :=
  match n with
  | O => 0
  | S k =>
      if negb (mp p =? 0) && (mp p =? mq q)
      then strncmp_loop k mp (p + 1) mq (q + 1)
      else byte8 (mp p) - byte8 (mq q)
  end.

Definition strncmp (mp : mem) (p : Z) (mq : mem) (q n : Z) : Z :=
  strncmp_loop (Z.to_nat n) mp p mq q.

Fixpoint zero_fill (n : nat) (m : mem) (s : Z) : mem :=
  match n with
  | O => m
  | S k => zero_fill k (upd m s 0) (s + 1)
  end.

(** The first loop of [strncpy]; when it stops on a NUL the second loop fills
    what is left of [n].  The source object does not overlap the destination
    (no call of the kernel overlaps them), so it is a memory of its own. *)
Fixpoint strncpy_loop (n : nat) (m : mem) (s : Z) (mt : mem) (t : Z) : mem :=
  match n with
  | O => m
  | S k =>
      let m' := upd m s (mt t) in
      if mt t =? 0 then zero_fill k m' (s + 1)
      else strncpy_loop k m' (s + 1) mt (t + 1)
  end.

Definition strncpy (m : mem) (s : Z) (mt : mem) (t n : Z) : mem :=
  strncpy_loop (Z.to_nat n) m s mt t.

(** The copying loop of [safestrcpy] and the final store of the NUL; [n] is
    the counter after the first [--n]. *)
Fixpoint safestrcpy_loop (n : nat) (m : mem) (s : Z) (mt : mem) (t : Z) : mem :=
  match n with
  | O => upd m s 0
  | S k =>
      let m' := upd m s (mt t) in
      if mt t =? 0 then upd m' (s + 1) 0
      else safestrcpy_loop k m' (s + 1) mt (t + 1)
  end.

Definition safestrcpy (m : mem) (s : Z) (mt : mem) (t n : Z) : mem :=
  if n <=? 0 then m else safestrcpy_loop (Z.to_nat (n - 1)) m s mt t.

Fixpoint strlen_loop (fuel : nat) (m : mem) (s n : Z) : option Z :=
  match fuel with
  | O => None
  | S k => if m (s + n) =? 0 then Some n else strlen_loop k m s (n + 1)
  end.

Definition strlen (fuel : nat) (m : mem) (s : Z) : option Z := strlen_loop fuel m s 0.

(** The bytes of a C string literal, with its NUL. *)
Definition cstr (s : string) : mem := fun a =>
  default 0 (map (fun c => Z.of_nat (Ascii.nat_of_ascii c)) (String.list_ascii_of_string s) !! Z.to_nat a).

(** [memmove] of [n] bytes between objects that cannot overlap. *)
Definition memcopy (m : mem) (dst : Z) (ms : mem) (src n : Z) : mem :=
  fun a => if (dst <=? a) && (a <? dst + n) then ms (src + (a - dst)) else m a.

(** 16-bit loads and stores. *)
Definition load16 (m : mem) (a : Z) : Z := m a + 256 * m (a + 1).
Definition store16 (m : mem) (a v : Z) : mem := upd (upd m a (byte8 v)) (a + 1) (byte8 (Z.shiftr v 8)).

(** The bytes of [l], then zeros. *)
Definition bytes_mem (l : list Z) : mem := fun a => default 0 (l !! Z.to_nat a).

(** ** What the loops compute *)

Lemma upd_eq m a v : upd m a v a = v.
Proof. unfold upd. by rewrite Z.eqb_refl. Qed.

Lemma upd_ne m a v x : x <> a -> upd m a v x = m x.
Proof. intros H. unfold upd. by rewrite (proj2 (Z.eqb_neq x a) H). Qed.

(** Splits every comparison of integers in the goal. *)
Ltac zcases :=
  repeat match goal with
    | |- context [?a =? ?b] => destruct (Z.eqb_spec a b)
    | |- context [?a <? ?b] => destruct (Z.ltb_spec a b)
    | |- context [?a <=? ?b] => destruct (Z.leb_spec a b)
    | |- context [?a >? ?b] => rewrite (Z.gtb_ltb a b)
    end; simpl; try lia.

(** [a] lies in the [n] bytes from [d]. *)
Definition inside (d n a : Z) : bool := (d <=? a) && (a <? d + n).

Lemma copy_up_spec n : forall m d s a,
  d <= s \/ s + Z.of_nat n <= d ->
  copy_up n m d s a = if inside d (Z.of_nat n) a then m (s + (a - d)) else m a.
Proof.
  induction n as [|n IH]; intros m d s a Hsep; simpl.
  - unfold inside. zcases.
  - rewrite IH by lia. unfold inside, upd. zcases; f_equal; lia.
Qed.

Lemma copy_down_spec n : forall m d s a,
  s <= d ->
  copy_down n m d s a =
  if inside (d - Z.of_nat n) (Z.of_nat n) a then m (s - (d - a)) else m a.
Proof.
  induction n as [|n IH]; intros m d s a Hsep; simpl.
  - unfold inside. zcases.
  - rewrite IH by lia. unfold inside, upd. zcases; f_equal; lia.
Qed.

Lemma memmove_spec m dst src n a :
  0 <= n ->
  memmove m dst src n a = if inside dst n a then m (src + (a - dst)) else m a.
Proof.
  intros Hn. unfold memmove.
  destruct ((src <? dst) && (src + n >? dst)) eqn:E.
  - apply andb_prop in E as [E1 E2].
    rewrite copy_down_spec by lia. rewrite Z2Nat.id by lia.
    replace (dst + n - n) with dst by lia.
    unfold inside. zcases; f_equal; lia.
  - apply andb_false_iff in E.
    rewrite copy_up_spec by (rewrite Z2Nat.id by lia; lia).
    by rewrite Z2Nat.id by lia.
Qed.

Lemma stosb_loop_spec n : forall m d c a,
  stosb_loop n m d c a = if inside d (Z.of_nat n) a then byte8 c else m a.
Proof.
  induction n as [|n IH]; intros m d c a; simpl.
  - unfold inside. zcases.
  - rewrite IH. unfold inside, upd. zcases.
Qed.

Lemma stosl_loop_spec n : forall m d v c a,
  byte8 v = c -> byte8 (Z.shiftr v 8) = c -> byte8 (Z.shiftr v 16) = c ->
  byte8 (Z.shiftr v 24) = c ->
  stosl_loop n m d v a = if inside d (4 * Z.of_nat n) a then c else m a.
Proof.
  induction n as [|n IH]; intros m d v c a H0 H1 H2 H3; simpl.
  - unfold inside. zcases.
  - rewrite (IH _ _ _ c) by done. unfold inside, store32, upd.
    rewrite H0, H1, H2, H3. zcases.
Qed.

Lemma memset_word c k :
  0 <= c < 256 -> In k [0; 8; 16; 24] ->
  byte8 (Z.shiftr (Z.lor (Z.lor (Z.lor (Z.shiftl c 24) (Z.shiftl c 16)) (Z.shiftl c 8)) c) k) = c.
Proof.
  intros Hc Hk.
  assert (Hall : forallb (fun c => forallb (fun k =>
      byte8 (Z.shiftr (Z.lor (Z.lor (Z.lor (Z.shiftl c 24) (Z.shiftl c 16)) (Z.shiftl c 8)) c) k)
        =? c) [0; 8; 16; 24]) (seqZ 0 256) = true) by (vm_compute; done).
  rewrite forallb_forall in Hall.
  specialize (Hall c). rewrite forallb_forall in Hall.
  apply Z.eqb_eq, Hall; [|done].
  apply list_elem_of_In, elem_of_seqZ. lia.
Qed.

Lemma memset_spec m dst c n a :
  0 <= n -> memset m dst c n a = if inside dst n a then byte8 c else m a.
Proof.
  intros Hn. unfold memset.
  destruct ((Z.rem dst 4 =? 0) && (n mod 4 =? 0)) eqn:E.
  - apply andb_prop in E as [_ E]. apply Z.eqb_eq in E.
    assert (Hc : Z.land c 255 = byte8 c) by (apply (Z.land_ones c 8); lia).
    rewrite Hc. unfold stosl.
    assert (Hb : 0 <= byte8 c < 256) by (apply Z.mod_pos_bound; lia).
    rewrite (stosl_loop_spec _ _ _ _ (byte8 c)).
    + assert (Hd : n = 4 * (n / 4)) by (rewrite (Z.div_mod n 4) at 1; lia).
      rewrite Z2Nat.id by (apply Z.div_pos; lia). by rewrite <- Hd.
    + rewrite <- (Z.shiftr_0_r (Z.lor _ _)). apply memset_word; simpl; auto.
    + apply memset_word; simpl; auto.
    + apply memset_word; simpl; auto.
    + apply memset_word; simpl; auto.
  - unfold stosb. rewrite stosb_loop_spec. by rewrite Z2Nat.id by lia.
Qed.

(** ** C strings *)

(** Byte [i] of the string at [t], seen as padded with NULs after its end. *)
Fixpoint padded (m : mem) (t : Z) (i : nat) : Z :=
  match i with
  | O => m t
  | S k => if m t =? 0 then 0 else padded m (t + 1) k
  end.

Lemma padded_nul m t i : m t = 0 -> padded m t i = 0.
Proof. intros H. destruct i; simpl; [done|]. by rewrite H. Qed.

Lemma padded_before m : forall i t,
  (forall j, (j < i)%nat -> m (t + Z.of_nat j) <> 0) -> padded m t i = m (t + Z.of_nat i).
Proof.
  induction i as [|i IH]; intros t Hne; simpl.
  - f_equal. lia.
  - destruct (Z.eqb_spec (m t) 0) as [E|E].
    + destruct (Hne 0%nat); [lia|]. by rewrite Z.add_0_r.
    + rewrite IH; [f_equal; lia|]. intros j Hj.
      replace (t + 1 + Z.of_nat j) with (t + Z.of_nat (S j)) by lia. apply Hne. lia.
Qed.

Lemma padded_after m : forall i k t,
  (k <= i)%nat -> m (t + Z.of_nat k) = 0 -> padded m t i = 0.
Proof.
  induction i as [|i IH]; intros k t Hk H0; simpl.
  - replace k with 0%nat in H0 by lia. by rewrite Z.add_0_r in H0.
  - destruct (Z.eqb_spec (m t) 0) as [E|E]; [done|].
    destruct k as [|k]; [by rewrite Z.add_0_r in H0|].
    apply (IH k); [lia|]. by replace (t + 1 + Z.of_nat k) with (t + Z.of_nat (S k)) by lia.
Qed.

Lemma zero_fill_spec n : forall m s a,
  zero_fill n m s a = if inside s (Z.of_nat n) a then 0 else m a.
Proof.
  induction n as [|n IH]; intros m s a; simpl.
  - unfold inside. zcases.
  - rewrite IH. unfold inside, upd. zcases.
Qed.

Lemma Z_to_nat_sub_S a s : s < a -> Z.to_nat (a - s) = S (Z.to_nat (a - (s + 1))).
Proof. lia. Qed.

Lemma strncpy_loop_spec n : forall m s mt t a,
  strncpy_loop n m s mt t a =
  if inside s (Z.of_nat n) a then padded mt t (Z.to_nat (a - s)) else m a.
Proof.
  induction n as [|n IH]; intros m s mt t a; simpl.
  - unfold inside. zcases.
  - destruct (Z.eqb_spec (mt t) 0) as [E|E].
    + rewrite zero_fill_spec, padded_nul by done. unfold inside, upd. zcases.
    + rewrite IH. unfold inside, upd. zcases; subst;
        rewrite ?Z.sub_diag, ?(Z_to_nat_sub_S a s) by lia; simpl; try done.
      by rewrite (proj2 (Z.eqb_neq _ _) E).
Qed.

(** [strncpy] writes exactly the [n] bytes of the padded source. *)
Lemma strncpy_spec m s mt t n a :
  strncpy m s mt t n a =
  if inside s n a then padded mt t (Z.to_nat (a - s)) else m a.
Proof.
  unfold strncpy. rewrite strncpy_loop_spec.
  destruct (Z_le_dec 0 n) as [Hn|Hn]; [by rewrite Z2Nat.id by lia|].
  replace (Z.to_nat n) with 0%nat by lia. unfold inside. zcases.
Qed.

Lemma strncmp_loop_spec n : forall mp p mq q,
  (forall a, 0 <= mp a < 256) -> (forall a, 0 <= mq a < 256) ->
  strncmp_loop n mp p mq q = 0 <->
  forall i, (i < n)%nat -> padded mp p i = padded mq q i.
Proof.
  induction n as [|n IH]; intros mp p mq q Hp Hq; simpl; [split; [lia|done]|].
  assert (Hsub : byte8 (mp p) - byte8 (mq q) = 0 <-> mp p = mq q).
  { unfold byte8. rewrite !Z.mod_small by auto. lia. }
  destruct (Z.eqb_spec (mp p) 0) as [E|E]; simpl;
    [|destruct (Z.eqb_spec (mp p) (mq q)) as [Eq|Ne]; simpl].
  - rewrite Hsub, E. split.
    + intros Hz i _. by rewrite !padded_nul.
    + intros H. specialize (H 0%nat). simpl in H. rewrite E in H. apply H. lia.
  - rewrite IH by done. split; intros H i Hi.
    + destruct i as [|i]; simpl; [done|]. rewrite <- Eq.
      rewrite (proj2 (Z.eqb_neq _ _) E). apply H. lia.
    + specialize (H (S i)). simpl in H. rewrite <- Eq in H.
      rewrite (proj2 (Z.eqb_neq _ _) E) in H. apply H. lia.
  - rewrite Hsub. split; [done|]. intros H. apply (H 0%nat). lia.
Qed.

Lemma strlen_loop_spec fuel : forall m s n k,
  strlen_loop fuel m s n = Some k <->
  n <= k < n + Z.of_nat fuel /\ m (s + k) = 0 /\ forall j, n <= j < k -> m (s + j) <> 0.
Proof.
  induction fuel as [|fuel IH]; intros m s n k; simpl; [split; [done|lia]|].
  destruct (Z.eqb_spec (m (s + n)) 0) as [E|E].
  - split.
    + intros [= <-]. repeat split; lia || done.
    + intros (Hr & H0 & Hne). f_equal. destruct (Z.eq_dec n k); [done|].
      destruct (Hne n); [lia|done].
  - rewrite IH. split; intros (Hr & H0 & Hne).
    + repeat split; [lia|lia|done|]. intros j Hj.
      destruct (Z.eq_dec j n); [by subst|]. apply Hne. lia.
    + destruct (Z.eq_dec n k) as [->|]; [done|].
      repeat split; [lia|lia|done|]. intros j Hj. apply Hne. lia.
Qed.

Lemma strlen_spec fuel m s k :
  strlen fuel m s = Some k <->
  0 <= k < Z.of_nat fuel /\ m (s + k) = 0 /\ forall j, 0 <= j < k -> m (s + j) <> 0.
Proof. apply strlen_loop_spec. Qed.

(** [strlen] finds an end when there is a NUL within reach. *)
Lemma strlen_None_no_nul fuel m s k :
  0 <= k < Z.of_nat fuel -> m (s + k) = 0 -> strlen fuel m s <> None.
Proof.
  unfold strlen. intros Hk Hz.
  assert (Hgen : forall fuel n, n <= k < n + Z.of_nat fuel -> strlen_loop fuel m s n <> None).
  { clear fuel Hk. induction fuel as [|fuel IH]; intros n Hn; simpl; [lia|].
    destruct (Z.eqb_spec (m (s + n)) 0); [done|]. apply IH.
    destruct (Z.eq_dec n k); [congruence|lia]. }
  apply Hgen. lia.
Qed.

(** Nothing outside the [n] bytes from [s] is written. *)
Lemma safestrcpy_loop_frame n : forall m s mt t a,
  inside s (Z.of_nat n + 1) a = false -> safestrcpy_loop n m s mt t a = m a.
Proof.
  induction n as [|n IH]; intros m s mt t a Ha; simpl.
  - revert Ha. unfold inside, upd. zcases.
  - destruct (Z.eqb_spec (mt t) 0) as [E|E].
    + revert Ha. unfold inside, upd. zcases.
    + rewrite IH; revert Ha; unfold inside, upd; zcases.
Qed.

(** What is read back as a string is the source cut to [n] bytes before the NUL. *)
Lemma safestrcpy_loop_spec n : forall m s mt t i,
  (i <= n)%nat ->
  padded (safestrcpy_loop n m s mt t) s i =
  if (i <? n)%nat then padded mt t i else 0.
Proof.
  induction n as [|n IH]; intros m s mt t i Hi; simpl.
  - replace i with 0%nat by lia. simpl. by rewrite upd_eq.
  - destruct (Z.eqb_spec (mt t) 0) as [E|E].
    + rewrite (padded_nul _ s), (padded_nul mt t) by (try done; rewrite upd_ne, upd_eq by lia; done).
      by destruct (_ <? _)%nat.
    + assert (Hs : safestrcpy_loop n (upd m s (mt t)) (s + 1) mt (t + 1) s = mt t).
      { rewrite safestrcpy_loop_frame by (unfold inside; zcases). apply upd_eq. }
      destruct i as [|i]; cbn [padded]; rewrite Hs; [by destruct (_ <? _)%nat eqn:?|].
      rewrite (proj2 (Z.eqb_neq _ _) E), IH by lia.
      destruct (Nat.ltb_spec i n), (Nat.ltb_spec (S i) (S n)); lia || done.
Qed.

(** ** Theorems *)

(** [memmove] copies correctly even when source and destination overlap:
    after it, every byte of the destination range is the byte the source range
    held before the call, and no other byte of memory changes.  [memcpy] is the
    same function. *)
Theorem memmove_correct (m : mem) (dst src n a : Z) :
  0 <= n ->
  (inside dst n a = true -> memmove m dst src n a = m (src + (a - dst))) /\
  (inside dst n a = false -> memmove m dst src n a = m a) /\
  memcpy m dst src n a = memmove m dst src n a.
Proof.
  intros Hn. split; [|split; [|done]]; rewrite memmove_spec by done; by intros ->.
Qed.

Lemma memmove_correct_witness :
  0 <= 3 /\ inside 2 3 4 = true /\ memmove (fun a => 10 * a) 2 1 3 4 = 30.
Proof.
  split; [lia|]. split; [done|].
  rewrite (proj1 (memmove_correct (fun a => 10 * a) 2 1 3 4 ltac:(lia))); done.
Defined.

(** [strncpy s t n] writes exactly [n] bytes: the source string up to its
    NUL, then NULs.  Read back as a string the result is the source, cut to [n]
    bytes (with no NUL of its own when the source is [n] bytes or longer). *)
Theorem strncpy_correct (m : mem) (s : Z) (mt : mem) (t n : Z) :
  (forall a, inside s n a = false -> strncpy m s mt t n a = m a) /\
  (forall i, 0 <= i < n -> strncpy m s mt t n (s + i) = padded mt t (Z.to_nat i)) /\
  (forall fuel k i, strlen fuel mt t = Some k -> 0 <= i < n ->
     strncpy m s mt t n (s + i) = if i <? k then mt (t + i) else 0).
Proof.
  split; [|split].
  - intros a Ha. by rewrite strncpy_spec, Ha.
  - intros i Hi. rewrite strncpy_spec. unfold inside. zcases. f_equal. lia.
  - intros fuel k i Hk Hi. apply strlen_spec in Hk as (Hk & H0 & Hne).
    rewrite strncpy_spec. unfold inside. zcases; replace (s + i - s) with i by lia.
    + rewrite padded_before; rewrite ?Z2Nat.id by lia; [done|]. intros j Hj. apply Hne. lia.
    + apply (padded_after _ _ (Z.to_nat k)); [lia|]. by rewrite Z2Nat.id by lia.
Qed.

(** [strncmp] returns 0 exactly when the two strings agree on their first
    [n] bytes, bytes after a NUL not counting. *)
Theorem strncmp_correct (mp : mem) (p : Z) (mq : mem) (q n : Z) :
  (forall a, 0 <= mp a < 256) -> (forall a, 0 <= mq a < 256) ->
  strncmp mp p mq q n = 0 <->
  forall i, (i < Z.to_nat n)%nat -> padded mp p i = padded mq q i.
Proof. intros. by apply strncmp_loop_spec. Qed.

Lemma strncmp_correct_witness :
  strncmp (cstr "local") 0 (cstr "localhost") 0 5 = 0 /\
  padded (cstr "local") 0 4 = padded (cstr "localhost") 0 4.
Proof.
  assert (Hb : forall x s, 0 <= cstr s x < 256).
  { intros x s. unfold cstr. rewrite list_lookup_fmap.
    destruct (_ !! _) as [c|]; simpl; [|lia].
    pose proof (Ascii.nat_ascii_bounded c). lia. }
  assert (H0 : strncmp (cstr "local") 0 (cstr "localhost") 0 5 = 0) by (vm_compute; done).
  split; [done|].
  apply (proj1 (strncmp_correct (cstr "local") 0 (cstr "localhost") 0 5
    (fun a => Hb a "local"%string) (fun a => Hb a "localhost"%string)) H0 4%nat).
  simpl. lia.
Defined.

(** [safestrcpy] with a buffer of [n > 0] bytes writes only inside it and
    always leaves a string there: the source cut to [n - 1] bytes. *)
Theorem safestrcpy_correct (m : mem) (s : Z) (mt : mem) (t n : Z) :
  0 < n ->
  (forall a, inside s n a = false -> safestrcpy m s mt t n a = m a) /\
  (forall i, (i < Z.to_nat n)%nat ->
     padded (safestrcpy m s mt t n) s i =
     if (i <? Z.to_nat (n - 1))%nat then padded mt t i else 0).
Proof.
  intros Hn. unfold safestrcpy. rewrite (proj2 (Z.leb_gt n 0) Hn). split.
  - intros a Ha. apply safestrcpy_loop_frame. rewrite Z2Nat.id by lia.
    by replace (n - 1 + 1) with n by lia.
  - intros i Hi. apply safestrcpy_loop_spec. lia.
Qed.

Lemma safestrcpy_correct_witness :
  0 < 3 /\ padded (safestrcpy (fun _ => 7) 0 (cstr "abcd") 0 3) 0 1 = 98.
Proof.
  split; [lia|].
  by rewrite (proj2 (safestrcpy_correct (fun _ => 7) 0 (cstr "abcd") 0 3 ltac:(lia)) 1%nat ltac:(simpl; lia)).
Defined.

(** ** Words *)

Lemma byte8_small z : 0 <= z < 256 -> byte8 z = z.
Proof. apply Z.mod_small. Qed.

Lemma store32_ne m a v x : (x < a \/ a + 4 <= x) -> store32 m a v x = m x.
Proof. intros H. unfold store32. by rewrite !upd_ne by lia. Qed.

Lemma load32_ext m m' a :
  (forall x, a <= x < a + 4 -> m' x = m x) -> load32 m' a = load32 m a.
Proof. intros H. unfold load32. by rewrite !H by lia. Qed.

Lemma word_bytes v :
  0 <= v < W32 ->
  byte8 v + 256 * byte8 (Z.shiftr v 8) + 65536 * byte8 (Z.shiftr v 16) +
  16777216 * byte8 (Z.shiftr v 24) = v.
Proof.
  intros Hv. unfold byte8. rewrite !Z.shiftr_div_pow2 by lia.
  change (2 ^ 8) with 256. change (2 ^ 16) with (256 * 256). change (2 ^ 24) with (256 * 256 * 256).
  rewrite <- !Z.div_div by lia. unfold W32 in Hv.
  pose proof (Z.div_mod v 256 ltac:(lia)). pose proof (Z.div_mod (v / 256) 256 ltac:(lia)).
  pose proof (Z.div_mod (v / 256 / 256) 256 ltac:(lia)).
  pose proof (Z.div_mod (v / 256 / 256 / 256) 256 ltac:(lia)).
  assert (v / 256 / 256 / 256 < 256).
  { rewrite !Z.div_div by lia. apply Z.div_lt_upper_bound; lia. }
  assert (0 <= v / 256 / 256 / 256) by (rewrite !Z.div_div by lia; apply Z.div_pos; lia).
  rewrite (Z.mod_small (v / 256 / 256 / 256)) by lia. lia.
Qed.

Lemma load32_store32 m a v : 0 <= v < W32 -> load32 (store32 m a v) a = v.
Proof.
  intros Hv. rewrite <- (word_bytes v Hv) at 2. unfold load32, store32.
  rewrite !upd_eq, !(upd_ne _ _ _ a), !(upd_ne _ _ _ (a + 1)), !(upd_ne _ _ _ (a + 2)), !upd_eq by lia.
  done.
Qed.

Lemma load32_store32_ne m a v x :
  (x + 4 <= a \/ a + 4 <= x) -> load32 (store32 m a v) x = load32 m x.
Proof. intros H. apply load32_ext. intros y Hy. apply store32_ne. lia. Qed.

(** ** The string at an address *)

(** The bytes at [a] before the first NUL, at most [n] of them. *)
Fixpoint cstring (n : nat) (m : mem) (a : Z) : list Z :=
  match n with
  | O => []
  | S k => if m a =? 0 then [] else m a :: cstring k m (a + 1)
  end.

(** [cstring] looks only at the bytes up to the NUL. *)
Lemma cstring_ext k : forall n1 n2 m1 a1 m2 a2,
  (k < n1)%nat -> (k < n2)%nat -> m1 (a1 + Z.of_nat k) = 0 ->
  (forall j, 0 <= j <= Z.of_nat k -> m2 (a2 + j) = m1 (a1 + j)) ->
  cstring n2 m2 a2 = cstring n1 m1 a1.
Proof.
  induction k as [|k IH]; intros [|n1] [|n2] m1 a1 m2 a2 H1 H2 Hz Heq; try lia; simpl.
  - pose proof (Heq 0 ltac:(lia)) as E. rewrite !Z.add_0_r in *. by rewrite E, Hz.
  - pose proof (Heq 0 ltac:(lia)) as E. rewrite !Z.add_0_r in E. rewrite E.
    destruct (m1 a1 =? 0); [done|]. f_equal. apply IH; [lia|lia| |].
    + by replace (a1 + 1 + Z.of_nat k) with (a1 + Z.of_nat (S k)) by lia.
    + intros j Hj. rewrite <- !Z.add_assoc. apply Heq. lia.
Qed.

(** [strncpy] of a string with room for its NUL copies the string. *)
Lemma strncpy_cstring f f' m d src a n k :
  strlen f src a = Some k -> k < n -> k < Z.of_nat f' ->
  cstring f' (strncpy m d src a n) d = cstring f src a.
Proof.
  intros (Hk & Hz & Hne)%strlen_spec Hn Hf.
  apply (cstring_ext (Z.to_nat k)); [lia|lia|by rewrite Z2Nat.id by lia|].
  intros j Hj. rewrite strncpy_spec. unfold inside. zcases.
  replace (d + j - d) with j by lia. rewrite padded_before.
  - by rewrite Z2Nat.id by lia.
  - intros i Hi. apply Hne. lia.
Qed.

Lemma strncpy_strlen f f' m d src a n k :
  strlen f src a = Some k -> k < n -> k < Z.of_nat f' ->
  strlen f' (strncpy m d src a n) d = Some k.
Proof.
  intros (Hk & Hz & Hne)%strlen_spec Hn Hf. apply strlen_spec.
  assert (H : forall j, 0 <= j <= k -> strncpy m d src a n (d + j) = src (a + j)).
  { intros j Hj. rewrite strncpy_spec. unfold inside. zcases.
    replace (d + j - d) with j by lia. rewrite padded_before; [by rewrite Z2Nat.id by lia|].
    intros i Hi. apply Hne. lia. }
  split_and!; [lia|done|by rewrite H by lia|]. intros j Hj. rewrite H by lia. by apply Hne.
Qed.

Lemma cstring_length f : forall m a k,
  strlen f m a = Some k -> Z.of_nat (length (cstring f m a)) = k.
Proof.
  induction f as [|f IH]; intros m a k H; pose proof H as (Hk & Hz & Hne)%strlen_spec; [lia|]. simpl.
  destruct (Z.eqb_spec (m a) 0) as [E|E].
  - destruct (Z.eq_dec k 0) as [->|]; [done|]. exfalso. apply (Hne 0); [lia|]. by rewrite Z.add_0_r.
  - assert (k <> 0) by (intros ->; rewrite Z.add_0_r in Hz; done).
    cbn [length]. rewrite (Nat2Z.inj_succ _), (IH m (a + 1) (k - 1)); [lia|]. apply strlen_spec.
    split_and!; [lia|lia| |].
    + by replace (a + 1 + (k - 1)) with (a + k) by lia.
    + intros j Hj. replace (a + 1 + j) with (a + (j + 1)) by lia. apply Hne. lia.
Qed.

Lemma strlen_S f m a k :
  strlen (S f) m a = Some k <-> (m a = 0 /\ k = 0) \/ (m a <> 0 /\ strlen f m (a + 1) = Some (k - 1)).
Proof.
  rewrite !strlen_spec. split.
  - intros (Hk & Hz & Hne). destruct (Z.eq_dec k 0) as [->|Hk0]; [left; rewrite Z.add_0_r in Hz; done|right].
    split; [rewrite <- (Z.add_0_r a); apply Hne; lia|]. split_and!; [lia|lia| |].
    + by replace (a + 1 + (k - 1)) with (a + k) by lia.
    + intros j Hj. replace (a + 1 + j) with (a + (j + 1)) by lia. apply Hne. lia.
  - intros [[Hz ->]|(Hnz & Hk & Hz & Hne)].
    + split_and!; [lia|lia|by rewrite Z.add_0_r|lia].
    + split_and!; [lia|lia|by replace (a + k) with (a + 1 + (k - 1)) by lia|].
      intros j Hj. destruct (Z.eq_dec j 0) as [->|]; [by rewrite Z.add_0_r|].
      replace (a + j) with (a + 1 + (j - 1)) by lia. apply Hne. lia.
Qed.

(** Comparing a string to its own length with another tests for a prefix. *)
Lemma strncmp_prefix f : forall mp p mq q g k k',
  (forall a, 0 <= mp a < 256) -> (forall a, 0 <= mq a < 256) ->
  strlen f mp p = Some k -> strlen g mq q = Some k' ->
  strncmp mp p mq q k = 0 <-> cstring f mp p `prefix_of` cstring g mq q.
Proof.
  induction f as [|f IH]; intros mp p mq q g k k' Bp Bq Hp Hq; [by apply strlen_spec in Hp as (? & _); lia|].
  apply strlen_S in Hp as [[Hz ->]|[Hnz Hp]]; simpl.
  - rewrite Hz. simpl. split; [|done]. intros _. apply prefix_nil.
  - pose proof (proj1 (strlen_spec _ _ _ _) Hp) as (Hk & _).
    unfold strncmp. replace (Z.to_nat k) with (S (Z.to_nat (k - 1))) by lia. simpl.
    rewrite (proj2 (Z.eqb_neq _ _) Hnz). simpl.
    destruct g as [|g]; [by apply strlen_spec in Hq as (? & _); lia|]. simpl.
    pose proof (Bp p). pose proof (Bq q). unfold byte8. rewrite !Z.mod_small by lia.
    apply strlen_S in Hq as [[Hz ->]|[Hnq Hq]].
    + rewrite Hz, (proj2 (Z.eqb_neq _ _) Hnz). simpl. split; [lia|].
      intros Hpre. by apply prefix_nil_not in Hpre.
    + rewrite (proj2 (Z.eqb_neq _ _) Hnq). destruct (Z.eqb_spec (mp p) (mq q)) as [E|E].
      * rewrite E. specialize (IH mp (p + 1) mq (q + 1) g _ _ Bp Bq Hp Hq). unfold strncmp in IH.
        rewrite IH. split; [apply prefix_cons|apply prefix_cons_inv_2].
      * split; [lia|]. intros Hpre%prefix_cons_inv_1. done.
Qed.

#[global] Arguments cstring : simpl never.
#[global] Arguments strlen : simpl never.
#[global] Arguments strncpy : simpl never.
#[global] Arguments strncmp : simpl never.
