(* ===== verification/KState.v ===== *)
(** * The kernel's data: param.h, proc.h, sock.h, spinlock.h, file.h

    The constants and structs of the headers, the global variables of the C
    files gathered in one record [kstate], and the functions that replace a
    group of them.  A static array is a total function on its indices (the code
    addresses only the first NPROC, NSOCK, ... of them); a pointer into one is
    its index, and a NULL pointer is [None]. *)

From S2P Require Import Prelude CString.

(** ** param.h, memlayout.h, mmu.h *)

Definition NPORT : Z := 128.
Definition NSOCK : nat := 32.
Definition SBUFFSIZE : Z := 128.
Definition NPROC : nat := 64.
Definition NCPU : nat := 8.
Definition NOFILE : nat := 16.
Definition NFILE : nat := 100.
Definition PGSIZE : Z := 4096.
Definition KERNBASE : Z := 2147483648.
Definition PHYSTOP : Z := 234881024.
Definition NINODE : nat := 50.
Definition NDEV : Z := 10.
Definition ROOTDEV : Z := 1.
Definition MAXARG : Z := 32.
Definition MAXOPBLOCKS : Z := 10.
Definition LOGSIZE : Z := MAXOPBLOCKS * 3.
Definition NBUF : nat := 30.
Definition BSIZE : Z := 512.
Definition NDIRECT : Z := 12.
Definition NINDIRECT : Z := BSIZE / 4.
Definition PIPESIZE : Z := 512.

Definition PGROUNDUP (sz : Z) : Z := Z.land (uint32 (sz + PGSIZE - 1)) (W32 - PGSIZE).
Definition PGROUNDDOWN (a : Z) : Z := Z.land a (W32 - PGSIZE).
Definition V2P (a : Z) : Z := uint32 (a - KERNBASE).

(** ** signalcodes.h *)

Definition E_MISSING_ARG : Z := -1.
Definition E_NOTFOUND : Z := -1025.
Definition E_ACCESS_DENIED : Z := -1026.
Definition E_WRONG_STATE : Z := -1027.
Definition E_FAIL : Z := -1028.
Definition E_INVALID_ARG : Z := -1029.
Definition E_CONNECTION_RESET_BY_REMOTE : Z := -1030.

(** ** Locks and channels

    A spinlock is named by the object that holds it, and a sleep channel by the
    object whose address the code passes to [sleep]; distinct objects have
    distinct addresses. *)

(** A sleep lock: of a buffer or of an inode. *)
Inductive slid : Type := SlBuf (i : nat) | SlInode (i : nat).

Inductive lockid : Type :=
| LkPtable | LkStable | LkFtable | LkKmem | LkTicks
| LkBcache | LkLog | LkIcache | LkCons
| LkPipe (a : Z)
| LkSleep (l : slid).

Inductive chan : Type :=
| ChSock (i : nat)
| ChProc (i : nat)
| ChNread (a : Z)
| ChNwrite (a : Z)
| ChTicks
| ChLog
| ChCons
| ChSleep (l : slid).

#[global] Instance slid_eq_dec : EqDecision slid.
Proof. solve_decision. Defined.

#[global] Instance lockid_eq_dec : EqDecision lockid.
Proof. solve_decision. Defined.

#[global] Instance chan_eq_dec : EqDecision chan.
Proof. solve_decision. Defined.

(** ** spinlock.h: [pcs], the call stack kept for debugging, is left out. *)

Record spinlock : Type := mkLock {
  lk_locked : Z;
  lk_name : string;
  lk_cpu : option nat
}.

(** ** proc.h *)

Record cpu : Type := mkCpu {
  c_apicid : Z;
  c_ncli : Z;
  c_intena : bool;
  c_proc : option nat
}.

Inductive procstate : Type :=
  UNUSED | EMBRYO | SLEEPING | RUNNABLE | RUNNING | ZOMBIE.

#[global] Instance procstate_eq_dec : EqDecision procstate.
Proof. solve_decision. Defined.

(** x86.h: struct trapframe. *)
Record trapframe : Type := mkTf {
  tf_edi : Z;
  tf_esi : Z;
  tf_ebp : Z;
  tf_oesp : Z;
  tf_ebx : Z;
  tf_edx : Z;
  tf_ecx : Z;
  tf_eax : Z;
  tf_gs : Z;
  tf_fs : Z;
  tf_es : Z;
  tf_ds : Z;
  tf_trapno : Z;
  tf_err : Z;
  tf_eip : Z;
  tf_cs : Z;
  tf_eflags : Z;
  tf_esp : Z;
  tf_ss : Z
}.

(** [p_umem] stands for the user memory that [pgdir] maps: what a load from a
    user virtual address gives while the process runs.  It is assigned where
    [pgdir] is, and where the kernel writes through a user address. *)
Record proc : Type := mkProc {
  p_sz : Z;
  p_umem : mem;
  p_kstack : Z;
  p_state : procstate;
  p_pid : Z;
  p_parent : option nat;
  p_tf : trapframe;
  p_chan : option chan;
  p_killed : bool;
  p_ofile : nat -> option nat;
  p_cwd : option nat;
  p_pgdir : Z;
  p_name : mem
}.

(** ** sock.h *)

Inductive sockstate : Type := CLOSED | OPENED | LISTENING | CONNECTED.

#[global] Instance sockstate_eq_dec : EqDecision sockstate.
Proof. solve_decision. Defined.

Record sock : Type := mkSock {
  sk_sid : Z;
  sk_state : sockstate;
  sk_owner : option nat;
  sk_recvbuffer : mem;
  sk_hasfullbuffer : bool;
  sk_lPort : Z;
  sk_rPort : Z
}.

Definition INV_PORT : Z := -1.

(** ** The global variables *)

(** The executing CPU: its LAPIC id and interrupt flag are registers of the
    hardware; [cpus], [ncpu] (proc.h, mp.c) and every spinlock are memory. *)
Record core : Type := mkCore {
  lapicid : Z;
  eflags_IF : bool;
  ncpu : nat;
  cpus : nat -> cpu;
  locks : lockid -> spinlock
}.

(** proc.c: [ptable], [nextpid], [initproc]. *)
Record ptab : Type := mkPtab {
  procs : nat -> proc;
  nextpid : Z;
  initproc : option nat
}.

(** sock.c: [stable], [countSock], [nextsid]. *)
Record stab : Type := mkStab {
  socks : nat -> sock;
  countSock : Z;
  nextsid : Z
}.

(** kalloc.c: [kmem]; the free pages are linked through [k_mem].  [km_end] is
    the address of [end], which the linker fixes. *)
Record kmem : Type := mkKmem {
  km_use_lock : bool;
  km_freelist : Z;
  km_end : Z
}.

(** pipe.c: struct pipe, in the page at its address. *)
Record pipe : Type := mkPipe {
  pi_data : mem;
  pi_nread : Z;
  pi_nwrite : Z;
  pi_readopen : bool;
  pi_writeopen : bool
}.

(** file.h: struct file; the entries of [ftable]. *)
Inductive filetype : Type := FD_NONE | FD_PIPE | FD_INODE.

#[global] Instance filetype_eq_dec : EqDecision filetype.
Proof. solve_decision. Defined.

Record file : Type := mkFile {
  f_type : filetype;
  f_ref : Z;
  f_readable : bool;
  f_writable : bool;
  f_pipe : Z;
  f_ip : option nat;
  f_off : Z
}.

(** sleeplock.h; the spinlock inside is [LkSleep]. *)
Record sleeplock : Type := mkSl {
  sl_locked : bool;
  sl_pid : Z
}.

(** buf.h: a buffer of [bcache]; [prev] and [next] are indices, NBUF being
    [bcache.head].  [qnext] belongs to ide.c. *)
Record buf : Type := mkBuf {
  b_flags : Z;
  b_dev : Z;
  b_blockno : Z;
  b_lock : sleeplock;
  b_refcnt : Z;
  b_prev : nat;
  b_next : nat;
  b_data : mem
}.

(** log.c: struct log; [lg_n] and [lg_block] are [log.lh]. *)
Record log : Type := mkLog {
  lg_start : Z;
  lg_size : Z;
  lg_outstanding : Z;
  lg_committing : bool;
  lg_dev : Z;
  lg_n : Z;
  lg_block : Z -> Z
}.

(** fs.h: struct superblock. *)
Record superblock : Type := mkSb {
  sb_size : Z;
  sb_nblocks : Z;
  sb_ninodes : Z;
  sb_nlog : Z;
  sb_logstart : Z;
  sb_inodestart : Z;
  sb_bmapstart : Z
}.

(** file.h: struct inode. *)
Record inode : Type := mkInode {
  i_dev : Z;
  i_inum : Z;
  i_ref : Z;
  i_lock : sleeplock;
  i_valid : bool;
  i_type : Z;
  i_major : Z;
  i_minor : Z;
  i_nlink : Z;
  i_size : Z;
  i_addrs : Z -> Z
}.

(** memide.c: [memdisk], by block, and [disksize]; and every block written to
    it, in order, since the machine started. *)
Record disk : Type := mkDisk {
  d_blocks : Z -> mem;
  d_size : Z;
  d_writes : list (Z * mem)
}.

(** The file system: disk, bio.c's [bcache], log.c's [log], fs.c's [sb] and
    [icache]. *)
Record fsst : Type := mkFs {
  fs_disk : disk;
  fs_buf : nat -> buf;
  fs_log : log;
  fs_sb : superblock;
  fs_inode : nat -> inode
}.

(** vm.c: [kpgdir]; the address [data], which the linker fixes; the register
    that holds the page table the CPU uses. *)
Record vmst : Type := mkVm {
  vm_kpgdir : Z;
  vm_data : Z;
  vm_cr3 : Z
}.

(** console.c: [cons.locking] and [input]; uart.c: [uart] and the bytes sent to
    the serial port, the latest first; the cells of the screen and the place of
    the cursor. *)
Record console : Type := mkCons {
  cn_locking : bool;
  cn_buf : mem;
  cn_r : Z;
  cn_w : Z;
  cn_e : Z;
  cn_uart : bool;
  cn_serial : list Z;
  cn_crt : Z -> Z;
  cn_pos : Z
}.

(** [k_first] is [first] of [forkret].  [k_wakeups] bounds how often a wait loop is followed after a wakeup.
    [k_mem] is the memory of the kernel, by kernel virtual address. *)
Record kstate : Type := mkK {
  k_core : core;
  k_ptab : ptab;
  k_stab : stab;
  k_wakeups : nat;
  k_mem : mem;
  k_kmem : kmem;
  k_file : nat -> file;
  k_pipe : Z -> pipe;
  k_fs : fsst;
  k_ticks : Z;
  k_vm : vmst;
  k_cons : console;
  k_first : bool
}.

Abbreviation K := (M kstate).

Definition set_core (x : core) (s : kstate) : kstate :=
  mkK x (k_ptab s) (k_stab s) (k_wakeups s) (k_mem s) (k_kmem s)
    (k_file s) (k_pipe s) (k_fs s) (k_ticks s) (k_vm s) (k_cons s) (k_first s).
Definition set_ptab (x : ptab) (s : kstate) : kstate :=
  mkK (k_core s) x (k_stab s) (k_wakeups s) (k_mem s) (k_kmem s)
    (k_file s) (k_pipe s) (k_fs s) (k_ticks s) (k_vm s) (k_cons s) (k_first s).
Definition set_stab (x : stab) (s : kstate) : kstate :=
  mkK (k_core s) (k_ptab s) x (k_wakeups s) (k_mem s) (k_kmem s)
    (k_file s) (k_pipe s) (k_fs s) (k_ticks s) (k_vm s) (k_cons s) (k_first s).
Definition set_wakeups (x : nat) (s : kstate) : kstate :=
  mkK (k_core s) (k_ptab s) (k_stab s) x (k_mem s) (k_kmem s)
    (k_file s) (k_pipe s) (k_fs s) (k_ticks s) (k_vm s) (k_cons s) (k_first s).
Definition set_mem (x : mem) (s : kstate) : kstate :=
  mkK (k_core s) (k_ptab s) (k_stab s) (k_wakeups s) x (k_kmem s)
    (k_file s) (k_pipe s) (k_fs s) (k_ticks s) (k_vm s) (k_cons s) (k_first s).
Definition set_kmem (x : kmem) (s : kstate) : kstate :=
  mkK (k_core s) (k_ptab s) (k_stab s) (k_wakeups s) (k_mem s) x
    (k_file s) (k_pipe s) (k_fs s) (k_ticks s) (k_vm s) (k_cons s) (k_first s).
Definition set_file (x : nat -> file) (s : kstate) : kstate :=
  mkK (k_core s) (k_ptab s) (k_stab s) (k_wakeups s) (k_mem s) (k_kmem s)
    x (k_pipe s) (k_fs s) (k_ticks s) (k_vm s) (k_cons s) (k_first s).
Definition set_pipe (x : Z -> pipe) (s : kstate) : kstate :=
  mkK (k_core s) (k_ptab s) (k_stab s) (k_wakeups s) (k_mem s) (k_kmem s)
    (k_file s) x (k_fs s) (k_ticks s) (k_vm s) (k_cons s) (k_first s).
Definition set_fs (x : fsst) (s : kstate) : kstate :=
  mkK (k_core s) (k_ptab s) (k_stab s) (k_wakeups s) (k_mem s) (k_kmem s)
    (k_file s) (k_pipe s) x (k_ticks s) (k_vm s) (k_cons s) (k_first s).
Definition set_ticks (x : Z) (s : kstate) : kstate :=
  mkK (k_core s) (k_ptab s) (k_stab s) (k_wakeups s) (k_mem s) (k_kmem s)
    (k_file s) (k_pipe s) (k_fs s) x (k_vm s) (k_cons s) (k_first s).
Definition set_vm (x : vmst) (s : kstate) : kstate :=
  mkK (k_core s) (k_ptab s) (k_stab s) (k_wakeups s) (k_mem s) (k_kmem s)
    (k_file s) (k_pipe s) (k_fs s) (k_ticks s) x (k_cons s) (k_first s).
Definition set_cons (x : console) (s : kstate) : kstate :=
  mkK (k_core s) (k_ptab s) (k_stab s) (k_wakeups s) (k_mem s) (k_kmem s)
    (k_file s) (k_pipe s) (k_fs s) (k_ticks s) (k_vm s) x (k_first s).
Definition set_first (x : bool) (s : kstate) : kstate :=
  mkK (k_core s) (k_ptab s) (k_stab s) (k_wakeups s) (k_mem s) (k_kmem s)
    (k_file s) (k_pipe s) (k_fs s) (k_ticks s) (k_vm s) (k_cons s) x.

(** ** Replacing one field *)

Definition cons_locking (x : bool) (k : console) : console :=
  mkCons x (cn_buf k) (cn_r k) (cn_w k) (cn_e k) (cn_uart k) (cn_serial k) (cn_crt k) (cn_pos k).
Definition cons_input (b : mem) (r w e : Z) (k : console) : console :=
  mkCons (cn_locking k) b r w e (cn_uart k) (cn_serial k) (cn_crt k) (cn_pos k).
Definition cons_serial (l : list Z) (k : console) : console :=
  mkCons (cn_locking k) (cn_buf k) (cn_r k) (cn_w k) (cn_e k) (cn_uart k) l (cn_crt k) (cn_pos k).
Definition cons_screen (crt : Z -> Z) (pos : Z) (k : console) : console :=
  mkCons (cn_locking k) (cn_buf k) (cn_r k) (cn_w k) (cn_e k) (cn_uart k) (cn_serial k) crt pos.

Definition with_cpus (f : nat -> cpu) (c : core) : core :=
  mkCore (lapicid c) (eflags_IF c) (ncpu c) f (locks c).
Definition with_IF (b : bool) (c : core) : core :=
  mkCore (lapicid c) b (ncpu c) (cpus c) (locks c).
Definition with_locks (f : lockid -> spinlock) (c : core) : core :=
  mkCore (lapicid c) (eflags_IF c) (ncpu c) (cpus c) f.

Definition cpu_ncli (n : Z) (c : cpu) : cpu := mkCpu (c_apicid c) n (c_intena c) (c_proc c).
Definition cpu_intena (b : bool) (c : cpu) : cpu := mkCpu (c_apicid c) (c_ncli c) b (c_proc c).
Definition cpu_proc (p : option nat) (c : cpu) : cpu :=
  mkCpu (c_apicid c) (c_ncli c) (c_intena c) p.

Definition with_procs (f : nat -> proc) (t : ptab) : ptab := mkPtab f (nextpid t) (initproc t).
Definition with_nextpid (n : Z) (t : ptab) : ptab := mkPtab (procs t) n (initproc t).

Definition proc_sz (x : Z) (p : proc) : proc :=
  mkProc x (p_umem p) (p_kstack p) (p_state p) (p_pid p) (p_parent p) (p_tf p) (p_chan p)
    (p_killed p) (p_ofile p) (p_cwd p) (p_pgdir p) (p_name p).
Definition proc_umem (x : mem) (p : proc) : proc :=
  mkProc (p_sz p) x (p_kstack p) (p_state p) (p_pid p) (p_parent p) (p_tf p) (p_chan p)
    (p_killed p) (p_ofile p) (p_cwd p) (p_pgdir p) (p_name p).
Definition proc_kstack (x : Z) (p : proc) : proc :=
  mkProc (p_sz p) (p_umem p) x (p_state p) (p_pid p) (p_parent p) (p_tf p) (p_chan p)
    (p_killed p) (p_ofile p) (p_cwd p) (p_pgdir p) (p_name p).
Definition proc_state (x : procstate) (p : proc) : proc :=
  mkProc (p_sz p) (p_umem p) (p_kstack p) x (p_pid p) (p_parent p) (p_tf p) (p_chan p)
    (p_killed p) (p_ofile p) (p_cwd p) (p_pgdir p) (p_name p).
Definition proc_pid (x : Z) (p : proc) : proc :=
  mkProc (p_sz p) (p_umem p) (p_kstack p) (p_state p) x (p_parent p) (p_tf p) (p_chan p)
    (p_killed p) (p_ofile p) (p_cwd p) (p_pgdir p) (p_name p).
Definition proc_parent (x : option nat) (p : proc) : proc :=
  mkProc (p_sz p) (p_umem p) (p_kstack p) (p_state p) (p_pid p) x (p_tf p) (p_chan p)
    (p_killed p) (p_ofile p) (p_cwd p) (p_pgdir p) (p_name p).
Definition proc_tf (x : trapframe) (p : proc) : proc :=
  mkProc (p_sz p) (p_umem p) (p_kstack p) (p_state p) (p_pid p) (p_parent p) x (p_chan p)
    (p_killed p) (p_ofile p) (p_cwd p) (p_pgdir p) (p_name p).
Definition tf_set_eax (x : Z) (t : trapframe) : trapframe :=
  mkTf (tf_edi t) (tf_esi t) (tf_ebp t) (tf_oesp t) (tf_ebx t) (tf_edx t) (tf_ecx t) x (tf_gs t)
    (tf_fs t) (tf_es t) (tf_ds t) (tf_trapno t) (tf_err t) (tf_eip t) (tf_cs t) (tf_eflags t)
    (tf_esp t) (tf_ss t).
Definition tf_set_entry (eip esp : Z) (t : trapframe) : trapframe :=
  mkTf (tf_edi t) (tf_esi t) (tf_ebp t) (tf_oesp t) (tf_ebx t) (tf_edx t) (tf_ecx t) (tf_eax t)
    (tf_gs t) (tf_fs t) (tf_es t) (tf_ds t) (tf_trapno t) (tf_err t) eip (tf_cs t) (tf_eflags t)
    esp (tf_ss t).
Definition proc_chan (x : option chan) (p : proc) : proc :=
  mkProc (p_sz p) (p_umem p) (p_kstack p) (p_state p) (p_pid p) (p_parent p) (p_tf p) x
    (p_killed p) (p_ofile p) (p_cwd p) (p_pgdir p) (p_name p).
Definition proc_killed (x : bool) (p : proc) : proc :=
  mkProc (p_sz p) (p_umem p) (p_kstack p) (p_state p) (p_pid p) (p_parent p) (p_tf p) (p_chan p)
    x (p_ofile p) (p_cwd p) (p_pgdir p) (p_name p).
Definition proc_ofile (x : nat -> option nat) (p : proc) : proc :=
  mkProc (p_sz p) (p_umem p) (p_kstack p) (p_state p) (p_pid p) (p_parent p) (p_tf p) (p_chan p)
    (p_killed p) x (p_cwd p) (p_pgdir p) (p_name p).
Definition proc_cwd (x : option nat) (p : proc) : proc :=
  mkProc (p_sz p) (p_umem p) (p_kstack p) (p_state p) (p_pid p) (p_parent p) (p_tf p) (p_chan p)
    (p_killed p) (p_ofile p) x (p_pgdir p) (p_name p).
Definition proc_pgdir (x : Z) (p : proc) : proc :=
  mkProc (p_sz p) (p_umem p) (p_kstack p) (p_state p) (p_pid p) (p_parent p) (p_tf p) (p_chan p)
    (p_killed p) (p_ofile p) (p_cwd p) x (p_name p).
Definition proc_name (x : mem) (p : proc) : proc :=
  mkProc (p_sz p) (p_umem p) (p_kstack p) (p_state p) (p_pid p) (p_parent p) (p_tf p) (p_chan p)
    (p_killed p) (p_ofile p) (p_cwd p) (p_pgdir p) x.

Definition sock_state (x : sockstate) (k : sock) : sock :=
  mkSock (sk_sid k) x (sk_owner k) (sk_recvbuffer k) (sk_hasfullbuffer k) (sk_lPort k) (sk_rPort k).
Definition sock_owner (x : option nat) (k : sock) : sock :=
  mkSock (sk_sid k) (sk_state k) x (sk_recvbuffer k) (sk_hasfullbuffer k) (sk_lPort k) (sk_rPort k).
Definition sock_buffer (x : mem) (k : sock) : sock :=
  mkSock (sk_sid k) (sk_state k) (sk_owner k) x (sk_hasfullbuffer k) (sk_lPort k) (sk_rPort k).
Definition sock_full (x : bool) (k : sock) : sock :=
  mkSock (sk_sid k) (sk_state k) (sk_owner k) (sk_recvbuffer k) x (sk_lPort k) (sk_rPort k).
Definition sock_lPort (x : Z) (k : sock) : sock :=
  mkSock (sk_sid k) (sk_state k) (sk_owner k) (sk_recvbuffer k) (sk_hasfullbuffer k) x (sk_rPort k).
Definition sock_rPort (x : Z) (k : sock) : sock :=
  mkSock (sk_sid k) (sk_state k) (sk_owner k) (sk_recvbuffer k) (sk_hasfullbuffer k) (sk_lPort k) x.
Definition sock_sid (x : Z) (k : sock) : sock :=
  mkSock x (sk_state k) (sk_owner k) (sk_recvbuffer k) (sk_hasfullbuffer k) (sk_lPort k) (sk_rPort k).

Definition with_disk (x : disk) (f : fsst) : fsst :=
  mkFs x (fs_buf f) (fs_log f) (fs_sb f) (fs_inode f).
Definition with_buf (x : nat -> buf) (f : fsst) : fsst :=
  mkFs (fs_disk f) x (fs_log f) (fs_sb f) (fs_inode f).
Definition with_log (x : log) (f : fsst) : fsst :=
  mkFs (fs_disk f) (fs_buf f) x (fs_sb f) (fs_inode f).
Definition with_sb (x : superblock) (f : fsst) : fsst :=
  mkFs (fs_disk f) (fs_buf f) (fs_log f) x (fs_inode f).
Definition with_inode (x : nat -> inode) (f : fsst) : fsst :=
  mkFs (fs_disk f) (fs_buf f) (fs_log f) (fs_sb f) x.

Definition buf_flags (x : Z) (b : buf) : buf :=
  mkBuf x (b_dev b) (b_blockno b) (b_lock b) (b_refcnt b) (b_prev b) (b_next b) (b_data b).
Definition buf_lock (x : sleeplock) (b : buf) : buf :=
  mkBuf (b_flags b) (b_dev b) (b_blockno b) x (b_refcnt b) (b_prev b) (b_next b) (b_data b).
Definition buf_refcnt (x : Z) (b : buf) : buf :=
  mkBuf (b_flags b) (b_dev b) (b_blockno b) (b_lock b) x (b_prev b) (b_next b) (b_data b).
Definition buf_prev (x : nat) (b : buf) : buf :=
  mkBuf (b_flags b) (b_dev b) (b_blockno b) (b_lock b) (b_refcnt b) x (b_next b) (b_data b).
Definition buf_next (x : nat) (b : buf) : buf :=
  mkBuf (b_flags b) (b_dev b) (b_blockno b) (b_lock b) (b_refcnt b) (b_prev b) x (b_data b).
Definition buf_data (x : mem) (b : buf) : buf :=
  mkBuf (b_flags b) (b_dev b) (b_blockno b) (b_lock b) (b_refcnt b) (b_prev b) (b_next b) x.

(** The fields of an inode that the disk has too, replaced together. *)
Definition inode_disk (type major minor nlink size : Z) (addrs : Z -> Z) (i : inode) : inode :=
  mkInode (i_dev i) (i_inum i) (i_ref i) (i_lock i) (i_valid i) type major minor nlink size addrs.
Definition inode_id (dev inum ref : Z) (valid : bool) (i : inode) : inode :=
  mkInode dev inum ref (i_lock i) valid (i_type i) (i_major i) (i_minor i) (i_nlink i) (i_size i) (i_addrs i).
Definition inode_ref (x : Z) (i : inode) : inode := inode_id (i_dev i) (i_inum i) x (i_valid i) i.
Definition inode_valid (x : bool) (i : inode) : inode := inode_id (i_dev i) (i_inum i) (i_ref i) x i.
Definition inode_type (x : Z) (i : inode) : inode :=
  inode_disk x (i_major i) (i_minor i) (i_nlink i) (i_size i) (i_addrs i) i.
Definition inode_dev (major minor : Z) (i : inode) : inode :=
  inode_disk (i_type i) major minor (i_nlink i) (i_size i) (i_addrs i) i.
Definition inode_nlink (x : Z) (i : inode) : inode :=
  inode_disk (i_type i) (i_major i) (i_minor i) x (i_size i) (i_addrs i) i.
Definition inode_size (x : Z) (i : inode) : inode :=
  inode_disk (i_type i) (i_major i) (i_minor i) (i_nlink i) x (i_addrs i) i.
Definition inode_addr (n x : Z) (i : inode) : inode :=
  inode_disk (i_type i) (i_major i) (i_minor i) (i_nlink i) (i_size i) (<[n := x]> (i_addrs i)) i.
Definition inode_lock (x : sleeplock) (i : inode) : inode :=
  mkInode (i_dev i) (i_inum i) (i_ref i) x (i_valid i) (i_type i) (i_major i) (i_minor i)
    (i_nlink i) (i_size i) (i_addrs i).

(** Short access to the tables, and the assignment [table[i].field = x]. *)
Definition proc_at (s : kstate) (i : nat) : proc := procs (k_ptab s) i.
Definition sock_at (s : kstate) (i : nat) : sock := socks (k_stab s) i.

Definition upd_proc (i : nat) (f : proc -> proc) : K unit :=
  modify (fun s => set_ptab (with_procs (<[i := f (proc_at s i)]> (procs (k_ptab s))) (k_ptab s)) s).
Definition upd_sock (i : nat) (f : sock -> sock) : K unit :=
  modify (fun s =>
    set_stab (mkStab (<[i := f (sock_at s i)]> (socks (k_stab s)))
      (countSock (k_stab s)) (nextsid (k_stab s))) s).

Lemma set_cons_id s : set_cons (k_cons s) s = s.
Proof. by destruct s. Qed.

(** The sizes of the tables are unfolded last, by conversion as by [simpl]. *)
#[global] Strategy 1000 [NSOCK NPROC NOFILE NFILE NBUF NINODE].
#[global] Arguments NSOCK : simpl never.
#[global] Arguments NPROC : simpl never.
#[global] Arguments NOFILE : simpl never.
#[global] Arguments NFILE : simpl never.
#[global] Arguments NBUF : simpl never.
#[global] Arguments NINODE : simpl never.

(** ** Rounding to pages *)

(** A mask of 32 bits whose lowest [k] bits are clear rounds down. *)
Lemma mask_low k x : 0 <= k <= 32 -> 0 <= x < W32 -> Z.land x (Z.shiftl (Z.ones (32 - k)) k) = x / 2 ^ k * 2 ^ k.
Proof.
  intros Hk Hx. rewrite <- Z.shiftr_div_pow2, <- Z.shiftl_mul_pow2 by lia.
  apply Z.bits_inj'. intros n Hn. rewrite Z.land_spec, !Z.shiftl_spec by lia.
  destruct (Z_lt_dec n k).
  - rewrite !(Z.testbit_neg_r _ (n - k)) by lia. apply andb_false_r.
  - rewrite Z.shiftr_spec by lia. replace (n - k + k) with n by lia.
    destruct (Z_lt_dec (n - k) (32 - k)).
    + rewrite Z.ones_spec_low by lia. apply andb_true_r.
    + rewrite Z.ones_spec_high by lia. rewrite andb_false_r. symmetry.
      destruct (Z.eq_dec x 0) as [->|]; [apply Z.testbit_0_l|].
      apply Z.bits_above_log2; [lia|]. apply Z.log2_lt_pow2; [lia|].
      apply Z.lt_le_trans with (2 ^ 32); [exact (proj2 Hx)|]. apply Z.pow_le_mono_r; lia.
Qed.

Lemma page_mask x : 0 <= x < W32 -> Z.land x (W32 - PGSIZE) = x / PGSIZE * PGSIZE.
Proof. intros Hx. exact (mask_low 12 x ltac:(lia) Hx). Qed.

Lemma PGROUNDDOWN_div a : 0 <= a < W32 -> PGROUNDDOWN a = a / PGSIZE * PGSIZE.
Proof. apply page_mask. Qed.

Lemma PGROUNDUP_div sz :
  0 <= sz < W32 - PGSIZE -> PGROUNDUP sz = (sz + PGSIZE - 1) / PGSIZE * PGSIZE.
Proof.
  intros H. unfold PGROUNDUP. rewrite uint32_small by (unfold PGSIZE, W32 in *; lia).
  apply page_mask. unfold PGSIZE, W32 in *; lia.
Qed.

Lemma PGROUNDUP_bounds sz : 0 <= sz < W32 - PGSIZE -> sz <= PGROUNDUP sz < sz + PGSIZE.
Proof.
  intros H. rewrite PGROUNDUP_div by done.
  pose proof (Z.div_mod (sz + PGSIZE - 1) PGSIZE ltac:(unfold PGSIZE; lia)) as E.
  pose proof (Z.mod_pos_bound (sz + PGSIZE - 1) PGSIZE ltac:(unfold PGSIZE; lia)). lia.
Qed.

(** ** The kernel's globals as the loader leaves them: zero *)

Definition zero_tf : trapframe := mkTf 0 0 0 0 0 0 0 0 0 0 0 0 0 0 0 0 0 0 0.
Definition zero_proc : proc :=
  mkProc 0 (fun _ => 0) 0 UNUSED 0 None zero_tf None false (fun _ => None) None 0
    (fun _ => 0).
Definition zero_sock : sock := mkSock 0 CLOSED None (fun _ => 0) false 0 0.

Definition zero_file : file := mkFile FD_NONE 0 false false 0 None 0.
Definition zero_pipe : pipe := mkPipe (fun _ => 0) 0 0 false false.
Definition zero_sl : sleeplock := mkSl false 0.
Definition zero_buf : buf := mkBuf 0 0 0 zero_sl 0 0 0 (fun _ => 0).
Definition zero_log : log := mkLog 0 0 0 false 0 0 (fun _ => 0).
Definition zero_inode : inode := mkInode 0 0 0 zero_sl false 0 0 0 0 0 (fun _ => 0).
Definition zero_cons : console := mkCons false (fun _ => 0) 0 0 0 false [] (fun _ => 0) 0.
Definition zero_fs : fsst :=
  mkFs (mkDisk (fun _ _ => 0) 0 []) (fun _ => zero_buf) zero_log (mkSb 0 0 0 0 0 0 0)
    (fun _ => zero_inode).

(** One CPU, with interrupts on; a process table and a socket table. *)
Definition one_cpu (p : option nat) : core :=
  mkCore 0 true 1 (fun _ => mkCpu 0 0 true p) (fun _ => mkLock 0 "" None).
Definition start (p : option nat) (f : nat -> proc) (t : stab) : kstate :=
  mkK (one_cpu p) (mkPtab f 1 None) t 0 (fun _ => 0) (mkKmem true 0 2148532224) (fun _ => zero_file)
    (fun _ => zero_pipe) zero_fs 0 (mkVm 0 2148532224 0) zero_cons true.
Definition empty_stab : stab := mkStab (fun _ => zero_sock) 0 0.

(** A process of two pages with memory [m]. *)
Definition user_process (st : procstate) (pid : Z) (m : mem) : proc :=
  mkProc 8192 m 0 st pid None zero_tf None false (fun _ => None) None 0
    (fun _ => 0).
