(* ===== verification/Spinlock.v ===== *)
(** * spinlock.c: interrupts off, mutual exclusion, and who holds which lock

    [pushcli], [popcli], [holding], [acquire] and [release] as computations on
    the kernel state; [mycpu] of proc.c, which they call.  The predicate
    [on_cpu] says which locks the executing CPU holds; the lemmas give, in its
    terms, what each routine does.  The last part is a machine of several CPUs
    that run [acquire] and [release] instruction by instruction. *)

From S2P Require Import Prelude CString KState.

(** ** proc.c: mycpu *)

Definition readeflags_IF : K bool := gets (fun s => eflags_IF (k_core s)).
Definition cli : K unit := modify (fun s => set_core (with_IF false (k_core s)) s).
Definition sti : K unit := modify (fun s => set_core (with_IF true (k_core s)) s).

Definition find_cpu (c : core) : option nat :=
  find_idx (fun i => c_apicid (cpus c i) =? lapicid c) (ncpu c).

Definition mycpu : K nat :=
  eif ← readeflags_IF;
  if (eif : bool) then panic "mycpu called with interrupts enabled"
  else
    c ← gets (fun s => find_cpu (k_core s));
    match c with
    | Some i => mret i
    | None => panic "unknown apicid"
    end.

(** [mycpu()->field] read and assigned. *)
Definition cpu_get {A} (f : cpu -> A) : K A :=
  i ← mycpu; gets (fun s => f (cpus (k_core s) i)).
Definition cpu_set (f : cpu -> cpu) : K unit :=
  i ← mycpu;
  modify (fun s =>
    set_core (with_cpus (<[i := f (cpus (k_core s) i)]> (cpus (k_core s))) (k_core s)) s).

(** ** spinlock.c *)

Definition pushcli : K unit :=
  eflags ← readeflags_IF;
  cli;;
  n ← cpu_get c_ncli;
  when (n =? 0) (cpu_set (cpu_intena eflags));;
  cpu_set (fun c => cpu_ncli (c_ncli c + 1) c).

Definition popcli : K unit :=
  eif ← readeflags_IF;
  if (eif : bool) then panic "popcli - interruptible"
  else
    cpu_set (fun c => cpu_ncli (c_ncli c - 1) c);;
    n ← cpu_get c_ncli;
    if n <? 0 then panic "popcli"
    else
      ie ← cpu_get c_intena;
      when ((n =? 0) && ie) sti.

Definition lock_get (lk : lockid) : K spinlock := gets (fun s => locks (k_core s) lk).
Definition lock_set (lk : lockid) (f : spinlock -> spinlock) : K unit :=
  modify (fun s =>
    set_core (with_locks (<[lk := f (locks (k_core s) lk)]> (locks (k_core s))) (k_core s)) s).

Definition initlock (lk : lockid) (name : string) : K unit :=
  lock_set lk (fun _ => mkLock 0 name None).

Definition holding (lk : lockid) : K bool :=
  pushcli;;
  l ← lock_get lk;
  i ← mycpu;
  popcli;;
  mret (negb (lk_locked l =? 0) && bool_decide (lk_cpu l = Some i)).

(** [while(xchg(&lk->locked, 1) != 0);]: with the lock taken the CPU turns
    until its holder, another CPU, lets it go. *)
Definition xchg_locked (lk : lockid) : K unit := fun s =>
  let l := locks (k_core s) lk in
  if lk_locked l =? 0 then lock_set lk (fun l => mkLock 1 (lk_name l) (lk_cpu l)) s
  else Spin s.

Definition acquire (lk : lockid) : K unit :=
  pushcli;;
  h ← holding lk;
  if (h : bool) then panic "acquire"
  else
    xchg_locked lk;;
    i ← mycpu;
    lock_set lk (fun l => mkLock (lk_locked l) (lk_name l) (Some i)).

Definition release (lk : lockid) : K unit :=
  h ← holding lk;
  if negb h then panic "release"
  else
    lock_set lk (fun l => mkLock (lk_locked l) (lk_name l) None);;
    lock_set lk (fun l => mkLock 0 (lk_name l) (lk_cpu l));;
    popcli.

(** ** Which locks the executing CPU holds

    [on_cpu L p c]: the CPU of the core state [c] runs process [p] and holds
    exactly the locks of [L]; the others are free.  Its [ncli] counts them,
    interrupts are on exactly when it holds none, and they will be on again
    once it has released them. *)

Definition free_lock (l : spinlock) : Prop := lk_locked l = 0.

Record on_cpu (L : list lockid) (p : option nat) (c : core) : Prop := mkOnCpu {
  oc_nodup : NoDup L;
  oc_here : exists i, find_cpu c = Some i /\ c_proc (cpus c i) = p /\
    c_ncli (cpus c i) = Z.of_nat (length L) /\ (L <> [] -> c_intena (cpus c i) = true) /\
    (forall lk, lk ∈ L -> lk_locked (locks c lk) = 1 /\ lk_cpu (locks c lk) = Some i);
  oc_IF : eflags_IF c = bool_decide (L = []);
  oc_free : forall lk, lk ∉ L -> free_lock (locks c lk)
}.

(** Updating a CPU's record keeps the identity of the CPUs. *)
Lemma find_cpu_insert c j x :
  c_apicid x = c_apicid (cpus c j) ->
  find_cpu (with_cpus (<[j := x]> (cpus c)) c) = find_cpu c.
Proof.
  intros Hx. unfold find_cpu. apply find_idx_ext. intros k Hk. simpl.
  rewrite fn_insert_case. case_decide; [subst; by rewrite Hx|done].
Qed.

(** What the executing CPU sees of the core state. *)
Record view (c : core) (i : nat) (n : Z) (ie : bool) (p : option nat) (b : bool)
    (lks : lockid -> spinlock) : Prop := mkView {
  v_here : find_cpu c = Some i;
  v_ncli : c_ncli (cpus c i) = n;
  v_intena : c_intena (cpus c i) = ie;
  v_proc : c_proc (cpus c i) = p;
  v_IF : eflags_IF c = b;
  v_locks : locks c = lks
}.

Lemma set_core_core c s : k_core (set_core c s) = c.
Proof. done. Qed.

Lemma set_core_set_core c c' s : set_core c (set_core c' s) = set_core c s.
Proof. done. Qed.

Lemma set_core_id s : set_core (k_core s) s = s.
Proof. by destruct s. Qed.

(** Steps through a bind whose first computation always returns. *)
Ltac wp_step := apply wp_bind; unfold wp, gets, modify; simpl.

Section views.
Context (i : nat) (p : option nat) (lks : lockid -> spinlock).

Lemma wp_mycpu s n ie (Q : nat -> kstate -> Prop) :
  view (k_core s) i n ie p false lks -> Q i s -> wp mycpu s Q.
Proof.
  intros [Hh _ _ _ HIF _] HQ. unfold mycpu.
  wp_step. rewrite HIF. wp_step. rewrite Hh. done.
Qed.

Lemma wp_cpu_get {A} (f : cpu -> A) s n ie (Q : A -> kstate -> Prop) :
  view (k_core s) i n ie p false lks -> Q (f (cpus (k_core s) i)) s -> wp (cpu_get f) s Q.
Proof. intros Hv HQ. apply wp_bind. by eapply wp_mycpu. Qed.

Lemma wp_cpu_set f s n ie (Q : unit -> kstate -> Prop) :
  view (k_core s) i n ie p false lks ->
  c_apicid (f (cpus (k_core s) i)) = c_apicid (cpus (k_core s) i) ->
  (forall c',
    view c' i (c_ncli (f (cpus (k_core s) i))) (c_intena (f (cpus (k_core s) i)))
      (c_proc (f (cpus (k_core s) i))) false lks -> Q tt (set_core c' s)) ->
  wp (cpu_set f) s Q.
Proof.
  intros Hv Hf HQ. apply wp_bind. eapply wp_mycpu; [done|]. apply HQ.
  destruct Hv as [Hh _ _ _ HIF Hl].
  split; simpl; rewrite ?fn_insert_eq; try done. by rewrite find_cpu_insert.
Qed.

Lemma wp_pushcli s n ie b (Q : unit -> kstate -> Prop) :
  view (k_core s) i n ie p b lks ->
  (forall c', view c' i (n + 1) (if n =? 0 then b else ie) p false lks -> Q tt (set_core c' s)) ->
  wp pushcli s Q.
Proof.
  intros [Hh Hn Hi Hp HIF Hl] HQ. unfold pushcli. do 2 wp_step. rewrite HIF.
  set (s1 := set_core _ s).
  assert (Hv1 : view (k_core s1) i n ie p false lks) by (split; done).
  apply wp_bind. eapply wp_cpu_get; [done|].
  assert (Hn1 : c_ncli (cpus (k_core s1) i) = n) by apply Hv1.
  rewrite Hn1. apply wp_bind. destruct (n =? 0); simpl.
  - eapply wp_cpu_set; [done..|]. intros c' Hc'.
    assert (Hc : view c' i n b p false lks)
      by (destruct Hv1, Hc'; split; simpl in *; congruence).
    eapply wp_cpu_set; [done..|]. intros c2 Hc2. rewrite set_core_set_core. apply HQ.
    destruct Hc, Hc2; split; simpl in *; congruence.
  - apply wp_ret. eapply wp_cpu_set; [done..|]. intros c2 Hc2. apply HQ.
    destruct Hv1, Hc2; split; simpl in *; congruence.
Qed.

Lemma wp_popcli s n ie (Q : unit -> kstate -> Prop) :
  view (k_core s) i n ie p false lks -> 0 < n ->
  (forall c', view c' i (n - 1) ie p ((n - 1 =? 0) && ie) lks -> Q tt (set_core c' s)) ->
  wp popcli s Q.
Proof.
  intros Hv Hn HQ. unfold popcli. wp_step. rewrite (v_IF _ _ _ _ _ _ _ Hv).
  apply wp_bind. eapply wp_cpu_set; [done..|]. intros c' Hc'.
  assert (Hc : view c' i (n - 1) ie p false lks)
    by (destruct Hv, Hc'; split; simpl in *; congruence).
  clear Hc'. apply wp_bind. eapply wp_cpu_get; [done|]. simpl.
  rewrite (v_ncli _ _ _ _ _ _ _ Hc). destruct (Z.ltb_spec (n - 1) 0); [lia|].
  apply wp_bind. eapply wp_cpu_get; [done|]. simpl. rewrite (v_intena _ _ _ _ _ _ _ Hc).
  destruct ((n - 1 =? 0) && ie) eqn:E; simpl.
  - unfold sti, wp, modify. simpl. rewrite set_core_set_core. apply HQ.
    destruct Hc; split; simpl; done.
  - by apply wp_ret, HQ.
Qed.

Lemma wp_holding lk s n ie b (Q : bool -> kstate -> Prop) :
  view (k_core s) i n ie p b lks -> 0 <= n -> (0 < n -> b = false) -> (n = 0 -> b = true) ->
  (forall c', view c' i n (if n =? 0 then b else ie) p b lks ->
    Q (negb (lk_locked (lks lk) =? 0) && bool_decide (lk_cpu (lks lk) = Some i)) (set_core c' s)) ->
  wp (holding lk) s Q.
Proof.
  intros Hv H0 Hb Hb' HQ. unfold holding. apply wp_bind. eapply wp_pushcli; [done|].
  intros c1 H1. wp_step. rewrite (v_locks _ _ _ _ _ _ _ H1).
  apply wp_bind. eapply wp_mycpu; [done|].
  apply wp_bind. eapply wp_popcli; [done|lia|]. intros c2 H2. apply wp_ret.
  rewrite set_core_set_core. apply HQ.
  replace (n + 1 - 1) with n in H2 by lia.
  destruct (Z.eqb_spec n 0) as [->|]; simpl in *; [by rewrite Hb' in * |].
  by rewrite Hb in * by lia.
Qed.
End views.

Section on_cpu.
Context (p : option nat).

Lemma on_cpu_view L c :
  on_cpu L p c ->
  exists i ie, view c i (Z.of_nat (length L)) ie p (bool_decide (L = [])) (locks c) /\
    (L <> [] -> ie = true) /\
    (forall lk, lk ∈ L -> lk_locked (locks c lk) = 1 /\ lk_cpu (locks c lk) = Some i).
Proof.
  intros [_ (i & Hh & Hp & Hn & Hi & Hl) HIF _].
  exists i, (c_intena (cpus c i)). split; [by split|done].
Qed.

Lemma bool_decide_nil {A} (L : list A) `{!Decision (L = [])} :
  (0 < Z.of_nat (length L) -> bool_decide (L = []) = false) /\
  (Z.of_nat (length L) = 0 -> bool_decide (L = []) = true).
Proof.
  destruct L; simpl; split; intros H; try lia.
  - by rewrite bool_decide_true.
  - by rewrite bool_decide_false.
Qed.

Lemma intena_after {A} (L : list A) `{!Decision (L = [])} ie :
  (L <> [] -> ie = true) ->
  (if Z.of_nat (length L) =? 0 then bool_decide (L = []) else ie) = true.
Proof.
  intros H. destruct L; simpl; [by rewrite bool_decide_true|by apply H].
Qed.

Lemma holding_locked L c i lk :
  NoDup L -> (forall lk, lk ∉ L -> free_lock (locks c lk)) ->
  (forall lk, lk ∈ L -> lk_locked (locks c lk) = 1 /\ lk_cpu (locks c lk) = Some i) ->
  negb (lk_locked (locks c lk) =? 0) && bool_decide (lk_cpu (locks c lk) = Some i) =
  bool_decide (lk ∈ L).
Proof.
  intros _ Hf Hl. destruct (decide (lk ∈ L)) as [Hin|Hin].
  - destruct (Hl _ Hin) as [-> ->]. simpl. rewrite !bool_decide_true; done.
  - rewrite (Hf _ Hin), (bool_decide_false (lk ∈ L)); done.
Qed.

Lemma wp_holding_on L lk s (Q : bool -> kstate -> Prop) :
  on_cpu L p (k_core s) ->
  (forall c', on_cpu L p c' -> Q (bool_decide (lk ∈ L)) (set_core c' s)) ->
  wp (holding lk) s Q.
Proof.
  intros Hc HQ. destruct (on_cpu_view _ _ Hc) as (i & ie & Hv & Hie & Hl).
  destruct (bool_decide_nil L) as [H1 H2].
  eapply wp_holding; [exact Hv|lia|exact H1|exact H2|]. intros c' Hc'.
  rewrite (holding_locked L) by (try apply Hc; done). apply HQ.
  rewrite (intena_after L ie) in Hc' by done. destruct Hc' as [Hh Hn Hi Hp HIF Hlk].
  split; [apply Hc| |done|intros x; rewrite Hlk; apply Hc].
  exists i. rewrite Hlk. repeat split; try done; by apply Hl.
Qed.

Lemma wp_acquire L lk s (Q : unit -> kstate -> Prop) :
  on_cpu L p (k_core s) -> lk ∉ L ->
  (forall c', on_cpu (lk :: L) p c' -> Q tt (set_core c' s)) ->
  wp (acquire lk) s Q.
Proof.
  intros Hc Hni HQ. destruct (on_cpu_view _ _ Hc) as (i & ie & Hv & Hie & Hl).
  unfold acquire. apply wp_bind. eapply wp_pushcli; [exact Hv|]. intros c1 H1.
  rewrite (intena_after L ie) in H1 by done.
  apply wp_bind. eapply wp_holding; [exact H1|lia|done|lia|]. intros c2 H2.
  rewrite (holding_locked L), bool_decide_false by (try apply Hc; done).
  rewrite set_core_set_core. apply wp_bind. unfold wp, xchg_locked. simpl.
  rewrite (v_locks _ _ _ _ _ _ _ H2), (oc_free _ _ _ Hc _ Hni). simpl.
  apply (wp_bind mycpu). eapply wp_mycpu.
  - simpl. destruct H2; split; try done; simpl; reflexivity.
  - unfold wp, lock_set, modify. simpl. apply HQ.
    destruct H2 as [Hh Hn Hi Hp HIF Hlk]. destruct (Z.eqb_spec (Z.of_nat (length L) + 1) 0); [lia|].
    split; [constructor; [done|apply Hc]| |by simpl; rewrite HIF|].
    + exists i. simpl. split_and!; try done; [rewrite Hn; lia|].
      intros x Hx. destruct (decide (x = lk)) as [->|Hne]; [by rewrite !fn_insert_eq|].
      rewrite !fn_insert_ne by done. rewrite Hlk. apply Hl.
      by apply elem_of_cons in Hx as [->|].
    + intros x Hx. rewrite elem_of_cons in Hx. simpl. rewrite !fn_insert_ne by tauto.
      rewrite Hlk. apply Hc. tauto.
Qed.

Lemma wp_release L L' lk s (Q : unit -> kstate -> Prop) :
  on_cpu L p (k_core s) -> L ≡ₚ lk :: L' ->
  (forall c', on_cpu L' p c' -> Q tt (set_core c' s)) ->
  wp (release lk) s Q.
Proof.
  intros Hc HL HQ. unfold release. apply wp_bind.
  eapply wp_holding_on; [exact Hc|]. intros c1 H1.
  rewrite bool_decide_true by (rewrite HL; set_solver). simpl. do 2 wp_step.
  destruct (on_cpu_view _ _ H1) as (i & ie & Hv & Hie & Hl).
  assert (Hne : L <> []) by (intros ->; by apply Permutation_nil_cons in HL).
  eapply wp_popcli.
  - rewrite bool_decide_false in Hv by done. destruct Hv; split; done.
  - rewrite HL. simpl. lia.
  - intros c' [Hh Hn Hi Hp HIF Hlk]. simpl in Hlk. rewrite (Hie Hne) in *. apply HQ.
    assert (Hlen : Z.of_nat (length L) - 1 = Z.of_nat (length L')) by (rewrite HL; simpl; lia).
    pose proof (oc_nodup _ _ _ H1) as Hnd. rewrite HL in Hnd. apply NoDup_cons in Hnd as [Hni Hnd].
    split; [done| | |].
    + exists i. rewrite Hn, Hlen, Hlk. split_and!; try done. intros x Hx.
      assert (x <> lk) by (intros ->; done). rewrite !fn_insert_ne by done.
      apply Hl. rewrite HL. by apply elem_of_cons; right.
    + rewrite HIF, Hlen. by destruct L'.
    + intros x Hx. rewrite Hlk. destruct (decide (x = lk)) as [->|Hxl].
      * by rewrite !fn_insert_eq.
      * rewrite !fn_insert_ne by done. apply H1. rewrite HL, elem_of_cons. tauto.
Qed.
End on_cpu.

(** [initlock] on a lock nobody holds. *)
Lemma wp_initlock L p lk name s (Q : unit -> kstate -> Prop) :
  on_cpu L p (k_core s) -> lk ∉ L ->
  (forall c, on_cpu L p c -> Q tt (set_core c s)) ->
  wp (initlock lk name) s Q.
Proof.
  intros [Hn (i & Hh & Hp & Hc & Hi & Hl) HIF Hf] Hni HQ. apply HQ. split; [done| |done|].
  - exists i. split_and!; try done. intros x Hx. simpl. rewrite fn_insert_ne by congruence. by apply Hl.
  - intros x Hx. simpl. destruct (decide (x = lk)) as [->|]; [by rewrite fn_insert_eq|].
    rewrite fn_insert_ne by done. by apply Hf.
Qed.

(** Taking a lock this CPU already holds stops the kernel. *)
Lemma acquire_held L p lk s :
  on_cpu L p (k_core s) -> lk ∈ L -> acquire lk s = Panic "acquire".
Proof.
  intros Hc Hin. destruct (on_cpu_view _ _ _ Hc) as (i & ie & Hv & Hie & Hl).
  set (P := fun o : outcome kstate unit => o = Panic "acquire").
  enough (wp pushcli s (fun a s' => P ((h ← holding lk; if (h : bool) then panic "acquire" else
    xchg_locked lk;; i ← mycpu; lock_set lk (fun l => mkLock (lk_locked l) (lk_name l) (Some i))) s'))) as H.
  { unfold acquire, mbind, M_bind. apply wp_Done in H as (a & s' & -> & H). exact H. }
  eapply wp_pushcli; [exact Hv|]. intros c1 H1. rewrite (intena_after L ie) in H1 by done.
  enough (wp (holding lk) (set_core c1 s) (fun h _ => h = true)) as H.
  { unfold P, mbind, M_bind. apply wp_Done in H as (a & s' & -> & ->). done. }
  eapply wp_holding; [exact H1|lia|done|lia|]. intros c2 H2.
  rewrite (holding_locked L) by (try apply Hc; done). by rewrite bool_decide_true.
Qed.

(** Releasing a lock this CPU does not hold stops the kernel. *)
Lemma release_not_held L p lk s :
  on_cpu L p (k_core s) -> lk ∉ L -> release lk s = Panic "release".
Proof.
  intros Hc Hin.
  enough (wp (holding lk) s (fun h _ => h = false)) as H.
  { unfold release, mbind, M_bind. apply wp_Done in H as (a & s' & -> & ->). done. }
  eapply wp_holding_on; [exact Hc|]. intros c' _. by rewrite bool_decide_false.
Qed.

(** ** Several CPUs and one lock

    Each CPU runs [acquire(lk)] and [release(lk)] in turn; a step is one access
    to the lock's words, and the CPUs interleave freely. *)

Module Smp.

(** Where a CPU is: outside; in [acquire], in its [holding] test
    (spinlock.c line 28), before the load of [locked] or before that of [cpu] (line 94),
    in the [xchg] loop (line 32), before [lk->cpu =
    mycpu()] (line 41); inside the critical section; in [release], in its
    [holding] test (line 49), before [lk->cpu = 0] (line 53), before the store
    of 0 (line 65); or stopped in [panic]. *)
Inductive pc : Type :=
  Outside | AcqTest | AcqTestCpu | AcqXchg | AcqOwner | Inside | RelTest | RelTestCpu | RelOwner | RelStore | Panicked.

Record smp : Type := mkSmp {
  m_locked : Z;
  m_cpu : option nat;
  m_pc : nat -> pc
}.

Definition init : smp := mkSmp 0 None (fun _ => Outside).

(** [holding]: the lock is taken and its owner field is this CPU. *)
Definition holds (m : smp) (i : nat) : bool :=
  negb (m_locked m =? 0) && bool_decide (m_cpu m = Some i).

Definition goto (m : smp) (i : nat) (l : pc) : smp := mkSmp (m_locked m) (m_cpu m) (<[i := l]> (m_pc m)).

Inductive step (i : nat) (m : smp) : smp -> Prop :=
| s_acquire : m_pc m i = Outside -> step i m (goto m i AcqTest)
| s_acq_test : m_pc m i = AcqTest ->
    step i m (goto m i (if m_locked m =? 0 then AcqXchg else AcqTestCpu))
| s_acq_test_cpu : m_pc m i = AcqTestCpu ->
    step i m (goto m i (if bool_decide (m_cpu m = Some i) then Panicked else AcqXchg))
| s_xchg_busy : m_pc m i = AcqXchg -> m_locked m <> 0 ->
    step i m (mkSmp 1 (m_cpu m) (m_pc m))
| s_xchg_free : m_pc m i = AcqXchg -> m_locked m = 0 ->
    step i m (mkSmp 1 (m_cpu m) (<[i := AcqOwner]> (m_pc m)))
| s_owner : m_pc m i = AcqOwner ->
    step i m (mkSmp (m_locked m) (Some i) (<[i := Inside]> (m_pc m)))
| s_release : m_pc m i = Inside -> step i m (goto m i RelTest)
| s_rel_test : m_pc m i = RelTest ->
    step i m (goto m i (if m_locked m =? 0 then Panicked else RelTestCpu))
| s_rel_test_cpu : m_pc m i = RelTestCpu ->
    step i m (goto m i (if bool_decide (m_cpu m = Some i) then RelOwner else Panicked))
| s_rel_owner : m_pc m i = RelOwner ->
    step i m (mkSmp (m_locked m) None (<[i := RelStore]> (m_pc m)))
| s_store : m_pc m i = RelStore ->
    step i m (mkSmp 0 (m_cpu m) (<[i := Outside]> (m_pc m))).

(** The states the CPUs reach from the lock [initlock] sets up. *)
Inductive reach : smp -> Prop :=
| reach_init : reach init
| reach_step i m m' : reach m -> step i m m' -> reach m'.

(** Past the successful [xchg] and before the store of 0. *)
Definition owns (l : pc) : bool :=
  match l with
  | AcqOwner | Inside | RelTest | RelTestCpu | RelOwner | RelStore => true
  | _ => false
  end.

(** What the owner field holds while CPU [i] owns the lock at [l]. *)
Definition owner_at (i : nat) (l : pc) : option nat :=
  match l with
  | Inside | RelTest | RelTestCpu | RelOwner => Some i
  | _ => None
  end.

(** [o] is the CPU that owns the lock, if any. *)
Record inv (o : option nat) (m : smp) : Prop := mkInv {
  i_owns : forall i, owns (m_pc m i) = bool_decide (o = Some i);
  i_locked : m_locked m = match o with Some _ => 1 | None => 0 end;
  i_cpu : m_cpu m = match o with Some i => owner_at i (m_pc m i) | None => None end;
  i_panic : forall i, m_pc m i <> Panicked
}.

Lemma inv_init : inv None init.
Proof. split; try done. Qed.

(** CPU [i] goes from a point outside to another one: the owner stays. *)
Lemma inv_move_out o m i l :
  inv o m -> owns (m_pc m i) = false -> owns l = false -> l <> Panicked -> inv o (goto m i l).
Proof.
  intros [Ho Hl Hc Hp] Hi Hown Hpan.
  assert (Hoi : o <> Some i) by (intros ->; rewrite Ho, bool_decide_true in Hi; done).
  split; simpl; [|done| |].
  - intros j. rewrite fn_insert_case. case_decide; [subst|done].
    by rewrite Hown, bool_decide_false.
  - rewrite Hc. destruct o as [k|]; [|done].
    rewrite fn_insert_ne; [done|congruence].
  - intros j. rewrite fn_insert_case. by case_decide.
Qed.

(** The owner goes on inside, setting the lock's words to [v] and [c]. *)
Lemma inv_move_in m i l c :
  inv (Some i) m -> owns l = true -> c = owner_at i l ->
  inv (Some i) (mkSmp (m_locked m) c (<[i := l]> (m_pc m))).
Proof.
  intros [Ho Hl Hc Hp] Hown ->. split; simpl; [|done| |].
  - intros j. rewrite fn_insert_case. case_decide; [subst|done].
    by rewrite Hown, bool_decide_true.
  - by rewrite fn_insert_eq.
  - intros j. rewrite fn_insert_case. case_decide; [|done]. by intros ->.
Qed.

Lemma inv_owner o m i : inv o m -> owns (m_pc m i) = true -> o = Some i.
Proof. intros [Ho _ _ _] Hi. rewrite Ho in Hi. by apply bool_decide_eq_true in Hi. Qed.

Lemma holds_owner o m i :
  inv o m -> holds m i = match m_pc m i with Inside | RelTest | RelTestCpu | RelOwner => true | _ => false end.
Proof.
  intros [Ho Hl Hc _]. unfold holds. rewrite Hl, Hc. specialize (Ho i).
  destruct o as [k|]; simpl.
  - destruct (decide (k = i)) as [->|Hne].
    + destruct (m_pc m i); simpl; first [done | by rewrite bool_decide_true].
    + rewrite (bool_decide_false (Some k = Some i)) in Ho by congruence.
      rewrite bool_decide_false by (unfold owner_at; destruct (m_pc m k); congruence).
      by destruct (m_pc m i).
  - rewrite bool_decide_false in Ho by done. by destruct (m_pc m i).
Qed.

(** The owner field names a CPU only while it is inside. *)
Lemma cpu_owner o m i : inv o m -> bool_decide (m_cpu m = Some i) = match m_pc m i with Inside | RelTest | RelTestCpu | RelOwner => true | _ => false end.
Proof.
  intros Hinv. rewrite <- (holds_owner o) by done. unfold holds. destruct Hinv as [_ Hl Hc _]. rewrite Hl, Hc.
  destruct o; [done|]. by rewrite bool_decide_false.
Qed.

Lemma inv_step o m i m' : inv o m -> step i m m' -> exists o', inv o' m'.
Proof.
  intros Hinv Hs. destruct Hs as [Hp|Hp|Hp|Hp Hb|Hp Hb|Hp|Hp|Hp|Hp|Hp|Hp].
  - exists o. apply inv_move_out; rewrite ?Hp; done.
  - exists o. apply inv_move_out; rewrite ?Hp; by destruct (m_locked m =? 0).
  - exists o. rewrite (cpu_owner o), Hp by done. apply inv_move_out; rewrite ?Hp; done.
  - exists o. destruct Hinv as [Ho Hl Hc Hpan]. split; simpl; try done.
    rewrite Hl in Hb. by destruct o.
  - exists (Some i). destruct Hinv as [Ho Hl Hc Hpan]. destruct o; [by rewrite Hl in Hb|].
    split; simpl; [|done|by rewrite fn_insert_eq, Hc|];
      intros j; rewrite fn_insert_case; case_decide; subst; try done.
    + by rewrite bool_decide_true.
    + rewrite Ho, !bool_decide_false by congruence. done.
  - exists (Some i). rewrite (inv_owner o m i) in Hinv by (rewrite ?Hp; done).
    by apply inv_move_in.
  - exists (Some i). rewrite (inv_owner o m i) in Hinv by (rewrite ?Hp; done).
    apply inv_move_in; [done..|]. by rewrite (i_cpu _ _ Hinv), Hp.
  - exists (Some i). rewrite (inv_owner o m i) in Hinv by (rewrite ?Hp; done). rewrite (i_locked _ _ Hinv).
    apply inv_move_in; [done..|]. by rewrite (i_cpu _ _ Hinv), Hp.
  - exists (Some i). rewrite (cpu_owner o), Hp by done.
    rewrite (inv_owner o m i) in Hinv by (rewrite ?Hp; done).
    apply inv_move_in; [done..|]. by rewrite (i_cpu _ _ Hinv), Hp.
  - exists (Some i). rewrite (inv_owner o m i) in Hinv by (rewrite ?Hp; done).
    by apply inv_move_in.
  - exists None. rewrite (inv_owner o m i) in Hinv by (rewrite ?Hp; done).
    destruct Hinv as [Ho Hl Hc Hpan]. split; simpl; [|done|by rewrite Hc, Hp|];
      intros j; rewrite fn_insert_case; case_decide; subst; try done.
    rewrite Ho, !bool_decide_false by congruence. done.
Qed.

Lemma reach_inv m : reach m -> exists o, inv o m.
Proof.
  induction 1 as [|i m m' _ [o IH] Hs]; [by exists None; apply inv_init|].
  by apply (inv_step o m i).
Qed.

(** C26: Mutual exclusion on several CPUs.  However the CPUs interleave their
    accesses to the lock, two CPUs are never inside the critical section at
    once, [holding] answers true exactly on the CPU inside, so that neither
    [acquire] nor [release] panics, and the lock word is 0 only when no CPU is
    between its successful [xchg] and its store of 0. *)
Theorem mutual_exclusion (m : smp) :
  reach m ->
  (forall i j, m_pc m i = Inside -> m_pc m j = Inside -> i = j) /\
  (forall i, m_pc m i = Inside -> holds m i = true /\ forall j, j <> i -> holds m j = false) /\
  (forall i, m_pc m i <> Panicked) /\
  (m_locked m = 0 <-> forall i, owns (m_pc m i) = false).
Proof.
  intros Hr. destruct (reach_inv m Hr) as [o Hinv]. split_and!.
  - intros i j Hi Hj.
    pose proof (inv_owner o m i Hinv ltac:(by rewrite Hi)).
    pose proof (inv_owner o m j Hinv ltac:(by rewrite Hj)). congruence.
  - intros i Hi. split; [by rewrite (holds_owner o), Hi|]. intros j Hj.
    rewrite (holds_owner o) by done.
    destruct (owns (m_pc m j)) eqn:E; [|by destruct (m_pc m j)].
    pose proof (inv_owner o m j Hinv E).
    pose proof (inv_owner o m i Hinv ltac:(by rewrite Hi)). congruence.
  - apply Hinv.
  - rewrite (i_locked _ _ Hinv). split.
    + intros H i. rewrite (i_owns _ _ Hinv). by destruct o.
    + intros H. destruct o as [k|]; [|done]. specialize (H k).
      rewrite (i_owns _ _ Hinv), bool_decide_true in H; done.
Qed.

(** CPU 0 takes the lock and is inside; then CPU 1 comes and turns in its loop. *)
Definition taken : smp :=
  let m2 := goto (goto init 0 AcqTest) 0 AcqXchg in
  mkSmp 1 (Some 0%nat) (<[0%nat := Inside]> (<[0%nat := AcqOwner]> (m_pc m2))).
Definition contended : smp := goto (goto (goto taken 1 AcqTest) 1 AcqTestCpu) 1 AcqXchg.

Lemma contended_reach : reach contended.
Proof.
  set (m1 := goto init 0 AcqTest). set (m2 := goto m1 0 AcqXchg).
  set (m3 := mkSmp 1 None (<[0%nat := AcqOwner]> (m_pc m2))).
  assert (H1 : reach m1) by exact (reach_step 0 init m1 reach_init (s_acquire 0 init eq_refl)).
  assert (H2 : reach m2) by exact (reach_step 0 m1 m2 H1 (s_acq_test 0 m1 eq_refl)).
  assert (H3 : reach m3) by exact (reach_step 0 m2 m3 H2 (s_xchg_free 0 m2 eq_refl eq_refl)).
  assert (H4 : reach taken) by exact (reach_step 0 m3 taken H3 (s_owner 0 m3 eq_refl)).
  assert (H5 : reach (goto taken 1 AcqTest))
    by exact (reach_step 1 taken _ H4 (s_acquire 1 taken eq_refl)).
  assert (H6 : reach (goto (goto taken 1 AcqTest) 1 AcqTestCpu))
    by exact (reach_step 1 _ _ H5 (s_acq_test 1 (goto taken 1 AcqTest) eq_refl)).
  exact (reach_step 1 _ contended H6 (s_acq_test_cpu 1 (goto (goto taken 1 AcqTest) 1 AcqTestCpu) eq_refl)).
Defined.

Lemma mutual_exclusion_witness :
  reach contended /\ m_pc contended 0 = Inside /\ holds contended 1 = false.
Proof.
  split; [exact contended_reach|]. split; [reflexivity|].
  apply (proj2 (proj1 (proj2 (mutual_exclusion contended contended_reach)) 0%nat eq_refl)).
  lia.
Defined.
End Smp.

(** ** Nested pushcli and popcli *)

Fixpoint times (n : nat) (m : K unit) : K unit :=
  match n with
  | O => mret tt
  | S k => m;; times k m
  end.

Lemma wp_times_pushcli i p lks n : forall s d ie b (Q : unit -> kstate -> Prop),
  view (k_core s) i d ie p b lks -> 0 <= d -> (0 < d -> b = false) ->
  (forall c', view c' i (d + Z.of_nat n) (if (0 <? Z.of_nat n) && (d =? 0) then b else ie) p
    (if (n =? 0)%nat then b else false) lks -> Q tt (set_core c' s)) ->
  wp (times n pushcli) s Q.
Proof.
  induction n as [|n IH]; intros s d ie b Q Hv Hd Hb HQ.
  - apply wp_ret. rewrite <- (set_core_id s). apply HQ. by rewrite Z.add_0_r.
  - apply wp_bind. eapply wp_pushcli; [exact Hv|]. intros c' Hc'.
    eapply IH; [exact Hc'|lia|done|]. intros c2 H2. rewrite set_core_set_core. apply HQ.
    replace (d + Z.of_nat (S n)) with (d + 1 + Z.of_nat n) by lia.
    destruct (Z.eqb_spec (d + 1) 0); [lia|]. rewrite andb_false_r in H2.
    replace (if (n =? 0)%nat then false else false) with false in H2 by by destruct (n =? 0)%nat.
    destruct (Z.ltb_spec 0 (Z.of_nat (S n))); [|lia]. done.
Qed.

Lemma wp_times_popcli i p lks n : forall s d ie (Q : unit -> kstate -> Prop),
  view (k_core s) i (d + Z.of_nat n) ie p false lks -> 0 <= d ->
  (forall c', view c' i d ie p ((0 <? Z.of_nat n) && (d =? 0) && ie) lks -> Q tt (set_core c' s)) ->
  wp (times n popcli) s Q.
Proof.
  induction n as [|n IH]; intros s d ie Q Hv Hd HQ.
  - apply wp_ret. rewrite <- (set_core_id s). apply HQ. by rewrite Z.add_0_r in Hv.
  - apply wp_bind. eapply wp_popcli; [exact Hv|lia|]. intros c' Hc'.
    replace (d + Z.of_nat (S n) - 1) with (d + Z.of_nat n) in Hc' by lia.
    destruct (Z.ltb_spec 0 (Z.of_nat (S n))); [|lia]. simpl in HQ.
    destruct n as [|n].
    + rewrite Z.add_0_r in Hc'. apply wp_ret. by apply HQ.
    + destruct (Z.eqb_spec (d + Z.of_nat (S n)) 0); [lia|]. simpl in Hc'.
      eapply IH; [exact Hc'|lia|]. intros c2 H2. rewrite set_core_set_core. apply HQ.
      destruct (Z.ltb_spec 0 (Z.of_nat (S n))); [|lia]. done.
Qed.

(** [pushcli] and [popcli] are matched: [n] [pushcli] followed by [n]
    [popcli] neither panics nor changes the interrupt flag, whatever it was and
    at whatever nesting depth; in between, interrupts are off. *)
Theorem pushcli_popcli_matched (n : nat) (s : kstate) (i : nat) (d : Z) (ie b : bool)
    (p : option nat) (lks : lockid -> spinlock) :
  view (k_core s) i d ie p b lks -> 0 <= d -> (0 < d -> b = false) ->
  wp (times (S n) pushcli) s (fun _ s1 =>
    eflags_IF (k_core s1) = false /\
    wp (times (S n) popcli) s1 (fun _ s2 =>
      eflags_IF (k_core s2) = b /\ c_ncli (cpus (k_core s2) i) = d /\
      exists c, s2 = set_core c s /\ locks c = lks)).
Proof.
  intros Hv Hd Hb. eapply wp_times_pushcli; [exact Hv|done..|]. intros c1 H1.
  split; [apply H1|]. eapply wp_times_popcli; [exact H1|done|]. intros c2 H2. simpl.
  split_and!; [|apply H2|].
  - rewrite (v_IF _ _ _ _ _ _ _ H2). simpl.
    destruct (Z.eqb_spec d 0) as [->|]; simpl; [done|]. rewrite Hb; [done|lia].
  - exists c2. split; [done|apply H2].
Qed.

(** The core state of a CPU that runs [p] and holds no lock. *)
Lemma one_cpu_on p : on_cpu [] p (one_cpu p).
Proof.
  split; [constructor| |done|done].
  exists 0%nat. split_and!; try done. intros lk H. by apply not_elem_of_nil in H.
Qed.

Lemma pushcli_popcli_matched_witness :
  wp (times 3 pushcli) (start None (fun _ => zero_proc) empty_stab) (fun _ s1 =>
    eflags_IF (k_core s1) = false /\
    wp (times 3 popcli) s1 (fun _ s2 => eflags_IF (k_core s2) = true)).
Proof.
  eapply wp_mono; [|apply (pushcli_popcli_matched 2 (start None (fun _ => zero_proc) empty_stab) 0 0
    true true None (locks (one_cpu None))); [by split| |]; lia].
  intros u s1 (H1 & H2). split; [exact H1|]. eapply wp_mono; [|exact H2]. intros u' s2 (H & _). exact H.
Defined.
