(* ===== verification/Cprintf.v ===== *)
(** * console.c, first part: output

    [cgaputc], [consputc], [printint] and [cprintf], and [uartputc] of uart.c.
    The screen is its 16-bit cells [cn_crt] and the cursor register [cn_pos];
    what goes to the serial port is appended to [cn_serial].  The variadic
    arguments of [cprintf] are a list.  The test of [panicked], with which
    another CPU's panic stops this one, is left out: a panic ends the run. *)

From S2P Require Import Prelude CString KState Spinlock.

Definition BACKSPACE : Z := 256.

Definition upd_cons (f : console -> console) : K unit :=
  modify (fun s => set_cons (f (k_cons s)) s).

(** ** Characters *)

(** One byte to the serial port, where there is one; the wait for the device is
    left out. *)
Definition uartputc (c : Z) : K unit :=
  upd_cons (fun k => if cn_uart k then cons_serial (byte8 c :: cn_serial k) k else k).

(** Where [cgaputc] puts the cursor, before scrolling. *)
Definition cga_pos (c pos : Z) : Z :=
  if c =? 10 then pos + (80 - pos mod 80)
  else if c =? BACKSPACE then (if 0 <? pos then pos - 1 else pos)
  else pos + 1.

Definition cga_cells (c pos : Z) (crt : Z -> Z) : Z -> Z :=
  if (c =? 10) || (c =? BACKSPACE) then crt
  else <[pos := Z.lor (Z.land c 255) 1792]> crt.

(** [memmove(crt, crt+80, sizeof(crt[0])*23*80)] and the [memset] of the rest. *)
Definition cga_scroll (pos : Z) (crt : Z -> Z) : Z -> Z := fun i =>
  if (pos <=? i) && (i <? 24 * 80) then 0
  else if (0 <=? i) && (i <? 23 * 80) then crt (i + 80)
  else crt i.

Definition cgaputc (c : Z) : K unit :=
  k ← gets k_cons;
  let pos := cga_pos c (cn_pos k) in
  let crt := cga_cells c (cn_pos k) (cn_crt k) in
  if (pos <? 0) || (25 * 80 <? pos) then panic "pos under/overflow"
  else
    let scroll := 24 <=? pos / 80 in
    let pos := if scroll then pos - 80 else pos in
    let crt := if scroll then cga_scroll pos crt else crt in
    upd_cons (cons_screen (<[pos := Z.lor 32 1792]> crt) pos).

Definition consputc (c : Z) : K unit :=
  (if c =? BACKSPACE then
     uartputc 8;;
     uartputc 32;;
     uartputc 8
   else uartputc c);;
  cgaputc c.

Fixpoint cputs (l : list Z) : K unit :=
  match l with
  | [] => mret tt
  | c :: r =>
      consputc c;;
      cputs r
  end.

(** ** Numbers *)

Definition digit (d : Z) : Z := if d <? 10 then 48 + d else 87 + d.

(** [buf], the digits from the least significant one on. *)
Fixpoint print_digits (fuel : nat) (x base : Z) : list Z :=
  match fuel with
  | O => []
  | S k => digit (x mod base) :: (if x / base =? 0 then [] else print_digits k (x / base) base)
  end.

(** The characters [printint] puts, in the order it puts them. *)
Definition int_chars (xx base : Z) (sign : bool) : list Z :=
  let neg := sign && (xx <? 0) in
  let x := if neg then uint32 (- xx) else uint32 xx in
  let buf := print_digits 32 x base in
  rev (if neg then buf ++ [45] else buf).

Definition printint (xx base : Z) (sign : bool) : K unit := cputs (int_chars xx base sign).

(** ** Formats *)

Definition chars (s : string) : list Z := map (fun c => Z.of_N (Ascii.N_of_ascii c)) (String.list_ascii_of_string s).

(** An argument: a word, or a string that may be NULL. *)
Inductive carg : Type := CInt (z : Z) | CStr (s : option (list Z)).

(** The loop over the format; an argument that is missing or of another type is
    undefined behaviour. *)
Fixpoint print_fmt (fmt : list Z) (args : list carg) : K unit :=
  match fmt with
  | [] => mret tt
  | c :: rest =>
      if negb (c =? 37) then
        consputc c;;
        print_fmt rest args
      else
        match rest with
        | [] => mret tt
        | c :: rest =>
            if c =? 100 then
              match args with
              | CInt z :: args =>
                  printint (int32 z) 10 true;;
                  print_fmt rest args
              | _ => undef "cprintf argument"
              end
            else if (c =? 120) || (c =? 112) then
              match args with
              | CInt z :: args =>
                  printint (int32 z) 16 false;;
                  print_fmt rest args
              | _ => undef "cprintf argument"
              end
            else if c =? 115 then
              match args with
              | CStr o :: args =>
                  cputs (default (chars "(null)") o);;
                  print_fmt rest args
              | _ => undef "cprintf argument"
              end
            else if c =? 37 then
              consputc 37;;
              print_fmt rest args
            else
              consputc 37;;
              consputc c;;
              print_fmt rest args
        end
  end.

(** No caller passes a NULL format. *)
Definition cprintf (fmt : list Z) (args : list carg) : K unit :=
  locking ← gets (fun s => cn_locking (k_cons s));
  when locking (acquire LkCons);;
  print_fmt fmt args;;
  when locking (release LkCons).

(** ** What is put on the console *)

(** The cursor is on the first 24 lines, as [cgaputc] leaves it. *)
Definition cons_ok (k : console) : Prop := 0 <= cn_pos k < 24 * 80.

(** The bytes a character sends to the serial port. *)
Definition serial_bytes (c : Z) : list Z := if c =? BACKSPACE then [8; 32; 8] else [byte8 c].

(** The console after the characters [l]. *)
Record cons_put (l : list Z) (k k' : console) : Prop := mkPut {
  cp_locking : cn_locking k' = cn_locking k;
  cp_input : cn_buf k' = cn_buf k /\ cn_r k' = cn_r k /\ cn_w k' = cn_w k /\ cn_e k' = cn_e k;
  cp_uart : cn_uart k' = cn_uart k;
  cp_serial : cn_serial k' =
    if cn_uart k then rev (concat (map serial_bytes l)) ++ cn_serial k else cn_serial k;
  cp_ok : cons_ok k'
}.

Lemma cons_put_nil k : cons_ok k -> cons_put [] k k.
Proof. intros H. split; try done. by destruct (cn_uart k). Qed.

Lemma cons_put_app l1 l2 k1 k2 k3 : cons_put l1 k1 k2 -> cons_put l2 k2 k3 -> cons_put (l1 ++ l2) k1 k3.
Proof.
  intros [L1 (B1 & R1 & W1 & E1) U1 S1 _] [L2 (B2 & R2 & W2 & E2) U2 S2 O2]. split; [congruence|split_and!; congruence|congruence| |done].
  rewrite S2, S1, U1. destruct (cn_uart k1); [|done].
  by rewrite map_app, concat_app, rev_app_distr, (assoc_L (++)).
Qed.

(** The cursor stays on the screen. *)
Lemma cga_pos_range c pos : 0 <= pos < 24 * 80 -> 0 <= cga_pos c pos <= 24 * 80.
Proof.
  intros H. unfold cga_pos. pose proof (Z.mod_pos_bound pos 80 ltac:(lia)).
  pose proof (Z.div_mod pos 80 ltac:(lia)).
  assert (pos / 80 < 24) by (apply Z.div_lt_upper_bound; lia).
  destruct (c =? 10); [lia|]. destruct (c =? BACKSPACE); [|lia]. destruct (Z.ltb_spec 0 pos); lia.
Qed.

Lemma wp_cgaputc c s (Q : unit -> kstate -> Prop) :
  cons_ok (k_cons s) ->
  (forall crt pos, 0 <= pos < 24 * 80 -> Q tt (set_cons (cons_screen crt pos (k_cons s)) s)) ->
  wp (cgaputc c) s Q.
Proof.
  intros Hok HQ. unfold cgaputc. apply wp_gets_bind. cbv beta zeta.
  pose proof (cga_pos_range c _ Hok) as Hp. set (pos := cga_pos c (cn_pos (k_cons s))) in *.
  destruct (Z.ltb_spec pos 0); [lia|]. destruct (Z.ltb_spec (25 * 80) pos); [lia|]. simpl orb. cbv iota.
  apply wp_modify, HQ. pose proof (Z.div_mod pos 80 ltac:(lia)).
  pose proof (Z.mod_pos_bound pos 80 ltac:(lia)). destruct (Z.leb_spec 24 (pos / 80)); lia.
Qed.

Lemma wp_uartputc c s (Q : unit -> kstate -> Prop) :
  Q tt (set_cons (if cn_uart (k_cons s) then cons_serial (byte8 c :: cn_serial (k_cons s)) (k_cons s) else k_cons s) s) ->
  wp (uartputc c) s Q.
Proof. intros H. by apply wp_modify. Qed.

Lemma wp_consputc c s (Q : unit -> kstate -> Prop) :
  cons_ok (k_cons s) ->
  (forall k, cons_put [c] (k_cons s) k -> Q tt (set_cons k s)) ->
  wp (consputc c) s Q.
Proof.
  intros Hok HQ. unfold consputc.
  assert (H : forall k, cn_locking k = cn_locking (k_cons s) ->
    cn_buf k = cn_buf (k_cons s) /\ cn_r k = cn_r (k_cons s) /\ cn_w k = cn_w (k_cons s) /\ cn_e k = cn_e (k_cons s) ->
    cn_uart k = cn_uart (k_cons s) -> cn_pos k = cn_pos (k_cons s) ->
    cn_serial k = (if cn_uart (k_cons s) then rev (serial_bytes c) ++ cn_serial (k_cons s) else cn_serial (k_cons s)) ->
    wp (cgaputc c) (set_cons k s) Q).
  { intros k H1 H2 H3 H4 H5. apply wp_cgaputc; [unfold cons_ok; simpl; by rewrite H4|].
    intros crt pos Hp. apply (HQ (cons_screen crt pos k)). split; simpl; try done.
    by rewrite app_nil_r. }
  unfold serial_bytes in H. destruct (c =? BACKSPACE).
  - wpb. do 2 (wpb; apply wp_uartputc). apply wp_uartputc. destruct (cn_uart (k_cons s)) eqn:E; repeat (simpl; rewrite ?E).
    + by apply (H (cons_serial (8 :: 32 :: 8 :: cn_serial (k_cons s)) (k_cons s))).
    + by apply (H (k_cons s)).
  - wpb. apply wp_uartputc. destruct (cn_uart (k_cons s)) eqn:E.
    + by apply H.
    + apply (H (k_cons s)); try done; by rewrite E.
Qed.

Lemma wp_cputs l : forall s (Q : unit -> kstate -> Prop),
  cons_ok (k_cons s) ->
  (forall k, cons_put l (k_cons s) k -> Q tt (set_cons k s)) ->
  wp (cputs l) s Q.
Proof.
  induction l as [|c l IH]; intros s Q Hok HQ; simpl.
  - apply wp_ret. rewrite <- (set_cons_id s). apply HQ. by apply cons_put_nil.
  - wpb. apply wp_consputc; [done|]. intros k Hk. apply IH; [apply Hk|]. intros k' Hk'.
    apply HQ. by apply (cons_put_app [c] l _ k).
Qed.

(** The characters [print_fmt] puts; [None] where an argument is missing or of
    another type. *)
Fixpoint fmt_chars (fmt : list Z) (args : list carg) : option (list Z) :=
  match fmt with
  | [] => Some []
  | c :: rest =>
      if negb (c =? 37) then (c ::.) <$> fmt_chars rest args
      else
        match rest with
        | [] => Some []
        | c :: rest =>
            if c =? 100 then
              match args with
              | CInt z :: args => (int_chars (int32 z) 10 true ++.) <$> fmt_chars rest args
              | _ => None
              end
            else if (c =? 120) || (c =? 112) then
              match args with
              | CInt z :: args => (int_chars (int32 z) 16 false ++.) <$> fmt_chars rest args
              | _ => None
              end
            else if c =? 115 then
              match args with
              | CStr o :: args => (default (chars "(null)") o ++.) <$> fmt_chars rest args
              | _ => None
              end
            else if c =? 37 then (37 ::.) <$> fmt_chars rest args
            else (fun l => 37 :: c :: l) <$> fmt_chars rest args
        end
  end.

(** [m] puts the characters [l]. *)
Definition puts (m : K unit) (l : list Z) : Prop := forall s (Q : unit -> kstate -> Prop),
  cons_ok (k_cons s) -> (forall k, cons_put l (k_cons s) k -> Q tt (set_cons k s)) -> wp m s Q.

Lemma puts_bind m1 m2 l1 l2 : puts m1 l1 -> puts m2 l2 -> puts (m1;; m2) (l1 ++ l2).
Proof.
  intros H1 H2 s Q Hok HQ. wpb. apply H1; [done|]. intros k Hk. apply H2; [apply Hk|].
  intros k' Hk'. apply HQ. by apply (cons_put_app l1 l2 _ k).
Qed.

Lemma puts_consputc c : puts (consputc c) [c].
Proof. intros s Q. apply wp_consputc. Qed.

Lemma puts_cputs l : puts (cputs l) l.
Proof. intros s Q. apply wp_cputs. Qed.

Lemma puts_print_fmt : forall n fmt args l, (length fmt <= n)%nat ->
  fmt_chars fmt args = Some l -> puts (print_fmt fmt args) l.
Proof.
  induction n as [|n IH]; intros fmt args l Hn; (destruct fmt as [|c rest]; simpl in Hn |- *; [|try lia]).
  1,2: intros [= <-]; apply (puts_cputs []).
  destruct (negb (c =? 37)).
  { intros (l' & E & ->)%fmap_Some. apply (puts_bind _ _ [c]); [apply puts_consputc|]. apply IH; [lia|done]. }
  destruct rest as [|d rest]; [intros [= <-]; apply (puts_cputs [])|]. simpl in Hn.
  repeat (case_match; try done); intros (l' & E & ->)%fmap_Some.
  all: try (apply puts_bind; [apply puts_cputs|apply IH; [lia|done]]).
  - apply (puts_bind _ _ [37]); [apply puts_consputc|]. apply IH; [lia|done].
  - apply (puts_bind _ _ [37]); [apply puts_consputc|].
    apply (puts_bind _ _ [d]); [apply puts_consputc|]. apply IH; [lia|done].
Qed.

Lemma wp_cprintf fmt args l L p s (Q : unit -> kstate -> Prop) :
  fmt_chars fmt args = Some l -> on_cpu L p (k_core s) -> LkCons ∉ L -> cons_ok (k_cons s) ->
  (forall c k, on_cpu L p c -> cons_put l (k_cons s) k -> Q tt (set_core c (set_cons k s))) ->
  wp (cprintf fmt args) s Q.
Proof.
  intros El Hc Hni Hok HQ. unfold cprintf. apply wp_gets_bind.
  pose proof (puts_print_fmt _ _ _ _ (le_n _) El) as Hp.
  destruct (cn_locking (k_cons s)); simpl when.
  - wpb. eapply wp_acquire; [exact Hc|done|]. intros c1 H1. wpb. apply Hp; [done|]. intros k Hk.
    eapply wp_release; [exact H1|reflexivity|]. intros c2 H2. by apply HQ.
  - apply wp_ret_bind. wpb. apply Hp; [done|]. intros k Hk. apply wp_ret.
    rewrite <- (set_core_id (set_cons k s)). by apply HQ.
Qed.

(** ** Numbers are printed right *)

Definition undigit (c : Z) : Z := if c <? 58 then c - 48 else c - 87.

(** The number a list of digits stands for, the most significant one first. *)
Definition value (base : Z) (l : list Z) : Z := fold_left (fun n c => n * base + undigit c) l 0.

(** The number a decimal literal with an optional sign stands for. *)
Definition decimal (l : list Z) : Z :=
  match l with
  | c :: r => if c =? 45 then - value 10 r else value 10 l
  | [] => 0
  end.

Lemma undigit_digit d : 0 <= d < 16 -> undigit (digit d) = d.
Proof. intros H. unfold undigit, digit. destruct (Z.ltb_spec d 10); case_match; lia. Qed.

Lemma value_snoc base l c : value base (l ++ [c]) = value base l * base + undigit c.
Proof. unfold value. by rewrite fold_left_app. Qed.

Lemma print_digits_value base fuel : forall x, 2 <= base <= 16 -> 0 <= x < base ^ Z.of_nat fuel -> 0 < Z.of_nat fuel ->
  value base (rev (print_digits fuel x base)) = x.
Proof.
  induction fuel as [|k IH]; intros x Hb Hx Hf; [lia|]. simpl.
  pose proof (Z.mod_pos_bound x base ltac:(lia)). pose proof (Z.div_mod x base ltac:(lia)).
  rewrite value_snoc, undigit_digit by lia.
  destruct (Z.eqb_spec (x / base) 0) as [E|E]; [change (value base (rev [])) with 0; lia|].
  assert (0 < x / base) by (pose proof (Z.div_pos x base ltac:(lia) ltac:(lia)); lia).
  rewrite Nat2Z.inj_succ, Z.pow_succ_r in Hx by lia.
  assert (Hd : x / base < base ^ Z.of_nat k) by (apply Z.div_lt_upper_bound; lia).
  destruct k as [|k]; [simpl in Hd; lia|]. rewrite IH; lia.
Qed.

Lemma print_digits_length base n : forall fuel x, 2 <= base -> 0 <= x < base ^ Z.of_nat n -> (0 < n)%nat ->
  (length (print_digits fuel x base) <= n)%nat.
Proof.
  induction n as [|n IH]; intros fuel x Hb Hx Hn; [lia|]. destruct fuel as [|fuel]; simpl; [lia|].
  destruct (Z.eqb_spec (x / base) 0) as [E|E]; simpl; [lia|].
  rewrite Nat2Z.inj_succ, Z.pow_succ_r in Hx by lia.
  pose proof (Z.div_pos x base ltac:(lia) ltac:(lia)).
  assert (Hd : x / base < base ^ Z.of_nat n) by (apply Z.div_lt_upper_bound; lia).
  destruct n as [|n]; [simpl in Hd; lia|]. specialize (IH fuel (x / base)). lia.
Qed.

Lemma digit_pos d : 0 <= d -> 48 <= digit d.
Proof. intros H. unfold digit. case_match; lia. Qed.

Lemma print_digits_pos base fuel : forall x, 0 < base ->
  forall c, c ∈ print_digits fuel x base -> 48 <= c.
Proof.
  induction fuel as [|k IH]; intros x Hb c; simpl; [by intros ?%elem_of_nil|].
  intros [->|Hc]%elem_of_cons.
  - apply digit_pos. apply Z.mod_pos_bound. lia.
  - destruct (x / base =? 0); [by apply elem_of_nil in Hc|]. by eapply IH.
Qed.

#[local] Arguments print_digits : simpl never.
#[local] Opaque print_digits.

Lemma decimal_digits x : 0 <= x < W32 -> decimal (rev (print_digits 32 x 10)) = x.
Proof.
  intros Hx. pose proof (print_digits_value 10 32 x ltac:(lia) ltac:(unfold W32 in *; lia) ltac:(lia)) as Hv.
  unfold decimal. destruct (rev (print_digits 32 x 10)) as [|c r] eqn:E; [exact Hv|].
  assert (48 <= c).
  { apply (print_digits_pos 10 32 x); [lia|]. apply list_elem_of_In, in_rev. rewrite E. by left. }
  destruct (Z.eqb_spec c 45); [lia|exact Hv].
Qed.

(** [printint] prints numbers right: the characters it puts for [xx] in base
    10 with a sign read back as [xx], those in base 16 without one as [xx] modulo
    2^32, and there are at most 11 of them, so that the 16 bytes of its buffer
    never overflow. *)
Theorem printint_roundtrip (xx : Z) :
  - 2147483648 <= xx < 2147483648 ->
  decimal (int_chars xx 10 true) = xx /\ value 16 (int_chars xx 16 false) = uint32 xx /\
  (length (int_chars xx 10 true) <= 11)%nat /\ (length (int_chars xx 16 false) <= 8)%nat.
Proof.
  intros H. pose proof (uint32_range xx) as Hu.
  unfold int_chars. simpl andb. cbv iota. rewrite !length_rev. split_and!.
  - destruct (Z.ltb_spec xx 0).
    + rewrite rev_app_distr. simpl rev at 1. rewrite uint32_small by (unfold W32; lia).
      unfold decimal. simpl. rewrite (print_digits_value 10 32) by lia. lia.
    + rewrite uint32_small by (unfold W32; lia). apply decimal_digits. unfold W32. lia.
  - apply (print_digits_value 16 32); unfold W32 in *; lia.
  - destruct (Z.ltb_spec xx 0).
    + rewrite length_app. simpl length at 2. rewrite uint32_small by (unfold W32; lia).
      pose proof (print_digits_length 10 10 32 (- xx) ltac:(lia) ltac:(lia) ltac:(lia)). lia.
    + rewrite uint32_small by (unfold W32; lia).
      pose proof (print_digits_length 10 10 32 xx ltac:(lia) ltac:(lia) ltac:(lia)). lia.
  - apply (print_digits_length 16 8); unfold W32 in *; lia.
Qed.

#[local] Transparent print_digits.

Lemma printint_roundtrip_witness :
  - 2147483648 <= -2147483648 < 2147483648 /\ decimal (int_chars (-2147483648) 10 true) = -2147483648.
Proof. split; [lia|]. apply (printint_roundtrip (-2147483648)). lia. Defined.
