(* ===== verification/Proc.v ===== *)
(** * proc.c, first part: the current process, sleep and wakeup

    [myproc], [sched], [yield], [sleep], [wakeup1] and [wakeup].  Giving up the
    CPU is the outcome [Asleep]: the state at the [swtch] into the scheduler
    and the rest of the routine, run on the state the scheduler switches back
    with. *)

From S2P Require Import Prelude CString KState Spinlock.

Definition myproc : K (option nat) :=
  pushcli;;
  i ← mycpu;
  p ← gets (fun s => c_proc (cpus (k_core s) i));
  popcli;;
  mret p.

(** [myproc()->field]: the current process and its record; with no process it is an
    access through NULL. *)
Definition curproc : K (nat * proc) :=
  p ← myproc;
  match p with
  | Some i => r ← gets (fun s => proc_at s i); mret (i, r)
  | None => undef "no current process"
  end.

(** [swtch(&p->context, mycpu()->scheduler)] *)
Definition swtch : K unit := fun s => Asleep s (fun s' => Done tt s').

Definition sched : K unit :=
  p ← myproc;
  h ← holding LkPtable;
  if negb h then panic "sched ptable.lock"
  else
    n ← cpu_get c_ncli;
    if negb (n =? 1) then panic "sched locks"
    else
      running ← gets (fun s =>
        match p with Some i => bool_decide (p_state (proc_at s i) = RUNNING) | None => false end);
      if (running : bool) then panic "sched running"
      else
        eif ← readeflags_IF;
        if (eif : bool) then panic "sched interruptible"
        else
          intena ← cpu_get c_intena;
          swtch;;
          cpu_set (cpu_intena intena).

Definition yield : K unit :=
  acquire LkPtable;;
  p ← myproc;
  match p with
  | Some i => upd_proc i (proc_state RUNNABLE)
  | None => undef "myproc()->state with no process"
  end;;
  sched;;
  release LkPtable.

Definition sleep (ch : chan) (lk : lockid) : K unit :=
  p ← myproc;
  match p with
  | None => panic "sleep"
  | Some i =>
      let other := bool_decide (lk <> LkPtable) in
      when other (acquire LkPtable;; release lk);;
      upd_proc i (fun p => proc_state SLEEPING (proc_chan (Some ch) p));;
      sched;;
      upd_proc i (proc_chan None);;
      when other (release LkPtable;; acquire lk)
  end.

(** What [wakeup1] makes of one entry of the process table. *)
Definition wake_proc (ch : chan) (p : proc) : proc :=
  if bool_decide (p_state p = SLEEPING) && bool_decide (p_chan p = Some ch)
  then proc_state RUNNABLE p else p.

Definition wake_tab (ch : chan) (t : ptab) : ptab :=
  with_procs (fun i =>
    if (i <? NPROC)%nat then wake_proc ch (procs t i) else procs t i) t.

Definition wakeup1 (ch : chan) : K unit :=
  modify (fun s => set_ptab (wake_tab ch (k_ptab s)) s).

Definition wakeup (ch : chan) : K unit :=
  acquire LkPtable;;
  wakeup1 ch;;
  release LkPtable.

(** ** Lemmas *)

(** A [popcli] that ends what a [pushcli] began. *)
Lemma on_cpu_popcli L p c c2 i ie :
  on_cpu L p c -> (L <> [] -> ie = true) ->
  (forall lk, lk ∈ L -> lk_locked (locks c lk) = 1 /\ lk_cpu (locks c lk) = Some i) ->
  view c2 i (Z.of_nat (length L) + 1 - 1) (if Z.of_nat (length L) =? 0 then bool_decide (L = []) else ie) p
    ((Z.of_nat (length L) + 1 - 1 =? 0) && (if Z.of_nat (length L) =? 0 then bool_decide (L = []) else ie)) (locks c) ->
  on_cpu L p c2.
Proof.
  intros Hc Hie Hl H2. replace (Z.of_nat (length L) + 1 - 1) with (Z.of_nat (length L)) in H2 by lia.
  rewrite (intena_after L ie) in H2 by done. destruct H2 as [Hh Hn Hi Hp HIF Hlk].
  split; [apply Hc| | |intros x; rewrite Hlk; apply Hc].
  - exists i. rewrite Hlk. split_and!; try done.
  - rewrite HIF. by destruct L.
Qed.

Lemma wp_myproc L p s (Q : option nat -> kstate -> Prop) :
  on_cpu L p (k_core s) ->
  (forall c', on_cpu L p c' -> Q p (set_core c' s)) ->
  wp myproc s Q.
Proof.
  intros Hc HQ. destruct (on_cpu_view _ _ _ Hc) as (i & ie & Hv & Hie & Hl).
  unfold myproc. apply wp_bind. eapply wp_pushcli; [exact Hv|]. intros c1 H1.
  apply wp_bind. eapply wp_mycpu; [exact H1|]. wp_step.
  rewrite (v_proc _ _ _ _ _ _ _ H1). apply wp_bind.
  eapply wp_popcli; [exact H1|lia|]. intros c2 H2. apply wp_ret.
  rewrite set_core_set_core. apply HQ. by eapply on_cpu_popcli.
Qed.

Lemma wp_curproc L p s (Q : nat * proc -> kstate -> Prop) :
  on_cpu L (Some p) (k_core s) ->
  (forall c, on_cpu L (Some p) c -> Q (p, proc_at s p) (set_core c s)) ->
  wp curproc s Q.
Proof.
  intros Hc HQ. apply wp_bind. eapply wp_myproc; [exact Hc|]. intros c Hc'. by apply HQ.
Qed.

(** The state at the [swtch] of a process [p] going to sleep on [ch]. *)
Definition asleep_proc (p : nat) (ch : chan) (t : ptab) : ptab :=
  with_procs (<[p := proc_state SLEEPING (proc_chan (Some ch) (procs t p))]> (procs t)) t.

(** The table once [p] has cleared its channel after a wakeup. *)
Definition woken_proc (p : nat) (t : ptab) : ptab :=
  with_procs (<[p := proc_chan None (procs t p)]> (procs t)) t.

Lemma upd_proc_run i f s :
  upd_proc i f s =
  Done tt (set_ptab (with_procs (<[i := f (proc_at s i)]> (procs (k_ptab s))) (k_ptab s)) s).
Proof. done. Qed.

(** [sched] gives up the CPU with ptable.lock held, and returns with it held. *)
Lemma sched_sleeps p s :
  on_cpu [LkPtable] (Some p) (k_core s) -> p_state (proc_at s p) <> RUNNING ->
  sleeps (sched s) (fun s1 k => exists c, s1 = set_core c s /\ on_cpu [LkPtable] (Some p) c /\
    forall s', on_cpu [LkPtable] (Some p) (k_core s') ->
      wp k s' (fun _ s2 => exists c2, s2 = set_core c2 s' /\ on_cpu [LkPtable] (Some p) c2)).
Proof.
  intros Hc Hst. unfold sched. apply sleeps_bind_wp. eapply wp_myproc; [exact Hc|].
  intros c1 H1. apply sleeps_bind_wp. eapply wp_holding_on; [exact H1|]. intros c2 H2.
  rewrite bool_decide_true by (apply elem_of_cons; by left). rewrite set_core_set_core. simpl negb. cbv iota.
  destruct (on_cpu_view _ _ _ H2) as (i & ie & Hv & Hie & Hl).
  apply sleeps_bind_wp. eapply wp_cpu_get; [exact Hv|].
  rewrite set_core_core, (v_ncli _ _ _ _ _ _ _ Hv). simpl length. simpl Z.of_nat. cbv beta.
  change (negb (1 =? 1)) with false. cbv iota.
  apply sleeps_bind_wp. unfold wp at 1, gets. simpl. rewrite bool_decide_false by done.
  apply sleeps_bind_wp. unfold wp at 1, readeflags_IF, gets. rewrite set_core_core, (v_IF _ _ _ _ _ _ _ Hv). simpl.
  apply sleeps_bind_wp. eapply wp_cpu_get; [exact Hv|].
  rewrite set_core_core, (v_intena _ _ _ _ _ _ _ Hv), Hie by done.
  exists c2. split_and!; [done..|]. intros s' H3.
  destruct (on_cpu_view _ _ _ H3) as (j & je & Hw & Hje & Hm).
  eapply wp_cpu_set; [exact Hw|done|]. intros c3 Hc3. exists c3. split; [done|].
  destruct Hw, Hc3 as [Ah An Ai Ap AIF Alk]. simpl in *. split; [apply H3| |done|].
  - exists j. rewrite Alk. split_and!; first [done | congruence | by rewrite An | exact Hm].
  - intros x. rewrite Alk. apply H3.
Qed.

(** [sleep] releases [lk] and ptable.lock is held when the process leaves the
    CPU asleep on [ch]; it returns holding [lk] alone. *)
Lemma sleep_sleeps p ch lk s :
  on_cpu [lk] (Some p) (k_core s) -> lk <> LkPtable ->
  sleeps (sleep ch lk s) (fun s1 k => exists c,
    s1 = set_core c (set_ptab (asleep_proc p ch (k_ptab s)) s) /\
    on_cpu [LkPtable] (Some p) c /\
    forall s', on_cpu [LkPtable] (Some p) (k_core s') ->
      wp k s' (fun _ s2 => exists c2,
        s2 = set_core c2 (set_ptab (woken_proc p (k_ptab s')) s') /\ on_cpu [lk] (Some p) c2)).
Proof.
  intros Hc Hlk. unfold sleep. apply sleeps_bind_wp. eapply wp_myproc; [exact Hc|].
  intros c1 H1. rewrite bool_decide_true by done. simpl when.
  apply sleeps_bind_wp, wp_bind. eapply wp_acquire; [exact H1| |].
  { intros Hin. apply list_elem_of_singleton in Hin. congruence. }
  intros c2 H2. eapply wp_release; [exact H2|apply Permutation_swap|]. intros c3 H3.
  apply sleeps_bind_wp. rewrite wp_Done. do 2 eexists. split; [apply upd_proc_run|].
  apply sleeps_bind. eapply sleeps_mono; [|eapply (sched_sleeps p); [exact H3|]].
  2: { unfold proc_at. simpl. by rewrite fn_insert_eq. }
  intros s1 k (c & -> & Hc4 & Hk). exists c. split_and!; [done..|]. intros s' H5.
  apply wp_bind. eapply wp_mono; [|by apply Hk]. intros _ s2 (c5 & -> & H7).
  apply wp_bind. rewrite wp_Done. do 2 eexists. split; [apply upd_proc_run|].
  apply wp_bind. eapply wp_release; [exact H7|reflexivity|]. intros c6 H8.
  eapply wp_acquire; [exact H8|by apply not_elem_of_nil|]. intros c7 H9. by exists c7.
Qed.

Lemma post_sched G R p b s (Q : kstate -> unit -> kstate -> Prop) :
  on_cpu [LkPtable] (Some p) (k_core s) -> p_state (proc_at s p) <> RUNNING ->
  (forall c', on_cpu [LkPtable] (Some p) c' ->
    G b (set_core c' s) /\
    forall s', R (set_core c' s) s' -> on_cpu [LkPtable] (Some p) (k_core s') /\
      forall c2, on_cpu [LkPtable] (Some p) c2 -> Q s' tt (set_core c2 s')) ->
  post G R Q b (sched s).
Proof.
  intros Hc Hst HQ. apply sleeps_post. eapply sleeps_mono; [|by apply (sched_sleeps p)].
  intros s1 k (c & -> & H1 & Hk). destruct (HQ c H1) as [HG HR]. split; [done|].
  intros s' Hs'. destruct (HR s' Hs') as [H2 H3]. apply wp_post.
  eapply wp_mono; [|by apply Hk]. intros [] s2 (c2 & -> & Hc2). by apply H3.
Qed.

Lemma post_sleep G R L p ch lk b s (Q : kstate -> unit -> kstate -> Prop) :
  on_cpu L (Some p) (k_core s) -> L = [lk] -> lk <> LkPtable ->
  (forall c', on_cpu [LkPtable] (Some p) c' ->
    G b (set_core c' (set_ptab (asleep_proc p ch (k_ptab s)) s)) /\
    forall s', R (set_core c' (set_ptab (asleep_proc p ch (k_ptab s)) s)) s' ->
      on_cpu [LkPtable] (Some p) (k_core s') /\
      forall c2, on_cpu [lk] (Some p) c2 ->
        Q s' tt (set_core c2 (set_ptab (woken_proc p (k_ptab s')) s'))) ->
  post G R Q b (sleep ch lk s).
Proof.
  intros Hc -> Hlk HQ. apply sleeps_post. eapply sleeps_mono; [|by apply (sleep_sleeps p)].
  intros s1 k (c & -> & H1 & Hk). destruct (HQ c H1) as [HG HR]. split; [done|].
  intros s' Hs'. destruct (HR s' Hs') as [H2 H3]. apply wp_post.
  eapply wp_mono; [|by apply Hk]. intros [] s2 (c2 & -> & Hc2). by apply H3.
Qed.

Lemma wp_wakeup L p ch s (Q : unit -> kstate -> Prop) :
  on_cpu L p (k_core s) -> LkPtable ∉ L ->
  (forall c', on_cpu L p c' -> Q tt (set_core c' (set_ptab (wake_tab ch (k_ptab s)) s))) ->
  wp (wakeup ch) s Q.
Proof.
  intros Hc Hni HQ. unfold wakeup. apply wp_bind. eapply wp_acquire; [exact Hc|done|].
  intros c1 H1. wp_step. eapply wp_release; [exact H1|done|]. intros c2 H2.
  by apply HQ.
Qed.

(** [wakeup] taken with ptable.lock held stops the kernel in [acquire]. *)
Lemma wakeup_holding_ptable L p ch s :
  on_cpu L p (k_core s) -> LkPtable ∈ L -> wakeup ch s = Panic "acquire".
Proof.
  intros Hc Hin. unfold wakeup, mbind, M_bind. by rewrite (acquire_held L p).
Qed.

(** The processes the tables [t] and [t'] differ in were only woken up. *)
Record only_woken (t t' : ptab) : Prop := mkOnlyWoken {
  ow_proc : forall i, procs t' i = procs t i \/
    (p_state (procs t i) = SLEEPING /\ procs t' i = proc_state RUNNABLE (procs t i));
  ow_nextpid : nextpid t' = nextpid t;
  ow_initproc : initproc t' = initproc t
}.

Lemma only_woken_refl t : only_woken t t.
Proof. split; auto. Qed.

Lemma only_woken_trans t1 t2 t3 : only_woken t1 t2 -> only_woken t2 t3 -> only_woken t1 t3.
Proof.
  intros [H1 Hn1 Hi1] [H2 Hn2 Hi2]. split; [|congruence..]. intros i.
  destruct (H1 i) as [E1|[S1 E1]], (H2 i) as [E2|[S2 E2]]; rewrite ?E1 in *; auto.
Qed.

Lemma only_woken_wake ch t : only_woken t (wake_tab ch t).
Proof.
  split; try done. intros i. simpl. destruct (i <? NPROC)%nat; [|by left].
  unfold wake_proc.
  destruct (decide (p_state (procs t i) = SLEEPING)) as [E|E].
  - destruct (bool_decide (p_chan (procs t i) = Some ch)) eqn:E2.
    + rewrite bool_decide_true by done. auto.
    + rewrite andb_false_r. by left.
  - rewrite (bool_decide_false (p_state _ = _)) by done. by left.
Qed.

#[export] Instance only_woken_preorder : PreOrder only_woken.
Proof. split; [exact only_woken_refl|exact only_woken_trans]. Qed.

(** [wakeup] makes exactly the processes asleep on the channel runnable. *)
Lemma wake_tab_state ch t i :
  (i < NPROC)%nat ->
  p_state (procs (wake_tab ch t) i) =
  if bool_decide (p_state (procs t i) = SLEEPING) && bool_decide (p_chan (procs t i) = Some ch)
  then RUNNABLE else p_state (procs t i).
Proof.
  intros Hi. simpl. rewrite (proj2 (Nat.ltb_lt i NPROC) Hi). unfold wake_proc.
  by destruct (_ && _).
Qed.

(** [t'] is [t] with the processes asleep on [ch] woken up, if [b]. *)
Record wakes (ch : chan) (b : bool) (t t' : ptab) : Prop := mkWakes {
  wk_procs : forall i, procs t' i = procs (if b then wake_tab ch t else t) i;
  wk_nextpid : nextpid t' = nextpid t;
  wk_init : initproc t' = initproc t
}.

Lemma wake_proc_twice ch x : wake_proc ch (wake_proc ch x) = wake_proc ch x.
Proof. unfold wake_proc at 2 3. destruct (_ && _) eqn:E; [done|]. unfold wake_proc. by rewrite E. Qed.

Lemma wakes_trans ch b1 b2 t1 t2 t3 : wakes ch b1 t1 t2 -> wakes ch b2 t2 t3 -> wakes ch (b1 || b2) t1 t3.
Proof.
  intros [A1 A2 A3] [B1 B2 B3]. split; [|congruence..]. intros i. rewrite B1. destruct b1, b2; simpl in *; rewrite A1; try done.
  destruct (i <? NPROC)%nat; [apply wake_proc_twice|done].
Qed.

Lemma wakes_only ch b t t' : wakes ch b t t' -> only_woken t t'.
Proof.
  intros [A1 A2 A3]. split; [|done..]. intros i. rewrite A1. destruct b; [apply only_woken_wake|by left].
Qed.
