(* ===== verification/Sock.v ===== *)
(** * sock.c: the socket table and the five socket operations

    Every operation is the C function, statement by statement, on the kernel
    state: its lock, its guards in order, its sleep.  User pointers ([host],
    [data]) are addresses in the memory of the running process. *)

From S2P Require Import Prelude CString KState Spinlock Proc.

(** ** Access to user memory *)

(** The process the executing CPU runs, whose page table is loaded. *)
Definition running (s : kstate) : option nat :=
  match find_cpu (k_core s) with
  | Some i => c_proc (cpus (k_core s) i)
  | None => None
  end.

(** The end of the pages mapped for a process of size [sz]; an access of the
    kernel to an unmapped user address traps, and [trap] panics (trap.c). *)
Definition mapped_end (p : proc) : Z := PGROUNDUP (p_sz p).

(** The running process's record, its memory for reading. *)
Definition user_proc : K proc := fun s =>
  match running s with
  | Some p => Done (proc_at s p) s
  | None => Undef "no user memory"
  end.

(** [strlen] of a user string: its loop runs into an unmapped page when no NUL
    comes first. *)
Definition user_strlen (a : Z) : K Z :=
  p ← user_proc;
  match strlen (Z.to_nat (mapped_end p - a)) (p_umem p) a with
  | Some n => mret n
  | None => panic "trap"
  end.

(** The user memory [strncpy] reads as its source: it reads up to the NUL or
    [n] bytes. *)
Definition user_source (a n : Z) : K mem :=
  p ← user_proc;
  match strlen (Z.to_nat (mapped_end p - a)) (p_umem p) a with
  | Some _ => mret (p_umem p)
  | None => if a + n <=? mapped_end p then mret (p_umem p) else panic "trap"
  end.

(** [strncpy] with a user destination: it writes [n] bytes from [a]. *)
Definition user_strncpy (a : Z) (src : mem) (n : Z) : K unit := fun s =>
  match running s with
  | Some p =>
      if (0 <? n) && (mapped_end (proc_at s p) <? a + n) then Panic "trap"
      else upd_proc p (fun r => proc_umem (strncpy (p_umem r) a src 0 n) r) s
  | None => Undef "no user memory"
  end.

(** ** Helper functions of sock.c *)

Definition is_open (k : sock) : bool := negb (bool_decide (sk_state k = CLOSED)).

Definition find_port (t : stab) (port : Z) : option nat :=
  if (0 <=? port) && (port <? NPORT) then
    find_idx (fun i => is_open (socks t i) && (sk_lPort (socks t i) =? port)) NSOCK
  else None.

Definition getsock (port : Z) : K (option nat) := gets (fun s => find_port (k_stab s) port).

Definition setsockvalue (socket : option nat) (sid : Z) (state : sockstate) (owner : option nat)
    (lPort rPort : Z) (hasfullbuffer : bool) (buff : mem) (overWriteToDef : bool) : K unit :=
  match socket with
  | None => mret tt
  | Some i =>
      if overWriteToDef then
        upd_sock i (fun k =>
          mkSock sid state owner (strncpy (sk_recvbuffer k) 0 buff 0 1) hasfullbuffer lPort rPort)
      else
        when (bool_decide (owner <> None)) (upd_sock i (sock_owner owner));;
        when (bool_decide (state <> CLOSED)) (upd_sock i (sock_state state));;
        when (negb (lPort =? INV_PORT)) (upd_sock i (sock_lPort lPort));;
        when (negb (rPort =? INV_PORT)) (upd_sock i (sock_rPort rPort));;
        when hasfullbuffer (upd_sock i (sock_full hasfullbuffer));;
        when (negb (sid =? -1)) (upd_sock i (sock_sid sid));;
        when (negb (strncmp buff 0 (cstr "") 0 1 =? 0))
          (upd_sock i (fun k => sock_buffer (strncpy (sk_recvbuffer k) 0 buff 0 1) k))
  end.

Definition resetsock (socket : option nat) : K unit :=
  setsockvalue socket (-1) CLOSED None INV_PORT INV_PORT false (cstr "") true.

Definition find_closed (t : stab) : option nat :=
  find_idx (fun i => bool_decide (sk_state (socks t i) = CLOSED)) NSOCK.

Definition allocsock (lport : Z) : K (option nat) :=
  g ← getsock lport;
  if (lport <? 0) || (lport >=? NPORT) || bool_decide (g <> None) then mret None
  else
    f ← gets (fun s => find_closed (k_stab s));
    match f with
    | None => mret None
    | Some i =>
        p ← myproc;
        nsid ← gets (fun s => nextsid (k_stab s));
        setsockvalue (Some i) nsid OPENED p lport INV_PORT false (cstr "") true;;
        modify (fun s => set_stab (mkStab (socks (k_stab s)) (countSock (k_stab s) + 1)
                                     (int32 (nextsid (k_stab s) + 1))) s);;
        mret (Some i)
    end.

(** [for (port = NPORT - 1; port; --port) if (getsock(port) == NULL) return port;] *)
Fixpoint free_port_from (t : stab) (port : nat) : Z :=
  match port with
  | O => INV_PORT
  | S k => match find_port t (Z.of_nat port) with
           | None => Z.of_nat port
           | Some _ => free_port_from t k
           end
  end.

Definition free_port (t : stab) : Z := free_port_from t (Z.to_nat (NPORT - 1)).

#[global] Arguments free_port : simpl never.

Definition getfreeport : K Z := gets (fun s => free_port (k_stab s)).

Definition removesock (socket : option nat) : K bool :=
  match socket with
  | None => mret false
  | Some i =>
      wakeup (ChSock i);;
      resetsock (Some i);;
      modify (fun s => set_stab (mkStab (socks (k_stab s)) (countSock (k_stab s) - 1)
                                   (nextsid (k_stab s))) s);;
      mret true
  end.

Definition retsockfunc (code : Z) : K Z := release LkStable;; mret code.

Definition find_owned (t : stab) (process : nat) : option nat :=
  find_idx (fun i => is_open (socks t i) && bool_decide (sk_owner (socks t i) = Some process)) NSOCK.

Definition getprocsock (process : nat) : K (option nat) :=
  gets (fun s => find_owned (k_stab s) process).

(** ** The operations *)

Definition sinit : K unit :=
  initlock LkStable "stable";;
  modify (fun s => set_stab (mkStab (socks (k_stab s)) 0 0) s).

(** The macro DISCARD_INV_PORT of sock.h. *)
Definition inv_port (port : Z) : bool := (port <? 0) || (port >=? NPORT).

Definition listen (lport : Z) : K Z :=
  if inv_port lport then mret E_INVALID_ARG
  else
    acquire LkStable;;
    count ← gets (fun s => countSock (k_stab s));
    if count =? Z.of_nat NSOCK then retsockfunc E_FAIL
    else
      s ← allocsock lport;
      match s with
      | None => retsockfunc E_ACCESS_DENIED
      | Some i =>
          upd_sock i (sock_state LISTENING);;
          sleep (ChSock i) LkStable;;
          retsockfunc 0
      end.

(** The assignments by which [connect] joins the local socket [l] and the
    remote socket [r] (sock.c lines 108 to 111). *)
Definition link_pair (l r : nat) : K unit :=
  upd_sock r (sock_state CONNECTED);;
  upd_sock l (sock_state CONNECTED);;
  rl ← gets (fun s => sk_lPort (sock_at s r));
  upd_sock l (sock_rPort rl);;
  ll ← gets (fun s => sk_lPort (sock_at s l));
  upd_sock r (sock_rPort ll);;
  upd_sock l (sock_full false);;
  upd_sock r (sock_full false).

(** [connect] from line 95 on, with stable.lock held. *)
Definition connect_locked (rport : Z) : K Z :=
  remote ← getsock rport;
  lport ← getfreeport;
  if lport =? INV_PORT then retsockfunc E_FAIL
  else
    match remote with
    | None => retsockfunc E_NOTFOUND
    | Some r =>
        rstate ← gets (fun s => sk_state (sock_at s r));
        if negb (bool_decide (rstate = LISTENING)) then retsockfunc E_WRONG_STATE
        else
          local ← allocsock lport;
          match local with
          | None => retsockfunc E_FAIL
          | Some l =>
              link_pair l r;;
              wakeup (ChSock r);;
              retsockfunc lport
          end
    end.

Definition connect (rport host : Z) : K Z :=
  if inv_port rport then mret E_INVALID_ARG
  else
    n ← user_strlen host;
    p ← user_proc;
    if negb (strncmp (p_umem p) host (cstr "localhost") 0 n =? 0) &&
       negb (strncmp (p_umem p) host (cstr "127.0.0.1") 0 n =? 0)
    then mret E_INVALID_ARG
    else
      acquire LkStable;;
      connect_locked rport.

(** The guards [send] and [recv] share: the local socket, checked, and the
    socket at its remote port, checked; otherwise an error code. *)
Definition connected_pair (lport : Z) : K (Z + nat * nat) :=
  local ← getsock lport;
  match local with
  | None => mret (inl E_NOTFOUND)
  | Some l =>
      p ← myproc;
      k ← gets (fun s => sock_at s l);
      if negb (bool_decide (sk_owner k = p)) then mret (inl E_ACCESS_DENIED)
      else if negb (bool_decide (sk_state k = CONNECTED)) then mret (inl E_WRONG_STATE)
      else
        remote ← getsock (sk_rPort k);
        match remote with
        | None => mret (inl E_NOTFOUND)
        | Some r =>
            rstate ← gets (fun s => sk_state (sock_at s r));
            if negb (bool_decide (rstate = CONNECTED)) then mret (inl E_WRONG_STATE)
            else mret (inr (l, r))
        end
  end.

(** [send] after its wait (line 137 on). *)
Definition send_rest (l r : nat) (data n : Z) : K Z :=
  rp ← gets (fun s => sk_rPort (sock_at s l));
  again ← getsock rp;
  match again with
  | None =>
      removesock (Some l);;
      retsockfunc E_CONNECTION_RESET_BY_REMOTE
  | Some _ =>
      src ← user_source data n;
      if n >? SBUFFSIZE then undef "strncpy past the end of recvbuffer"
      else
        upd_sock r (fun k => sock_buffer (strncpy (sk_recvbuffer k) 0 src data n) k);;
        upd_sock r (sock_full true);;
        wakeup (ChSock l);;
        retsockfunc 0
  end.

Definition send (lport data n : Z) : K Z :=
  if inv_port lport then mret E_INVALID_ARG
  else
    acquire LkStable;;
    pair ← connected_pair lport;
    match pair with
    | inl code => retsockfunc code
    | inr (l, r) =>
        full ← gets (fun s => sk_hasfullbuffer (sock_at s r));
        when full (sleep (ChSock r) LkStable);;
        send_rest l r data n
    end.

(** Whether [strncpy] of [n] bytes from a receive buffer stays inside it. *)
Definition buffer_readable (b : mem) (n : Z) : bool :=
  (n <=? SBUFFSIZE) || bool_decide (strlen (Z.to_nat SBUFFSIZE) b 0 <> None).

(** [recv] after its wait (line 169 on). *)
Definition recv_rest (l : nat) (data n : Z) : K Z :=
  buf ← gets (fun s => sk_recvbuffer (sock_at s l));
  if negb (buffer_readable buf n) then undef "strncpy past the end of recvbuffer"
  else
    user_strncpy data buf n;;
    upd_sock l (fun k => sock_buffer (upd (sk_recvbuffer k) 0 0) k);;
    upd_sock l (sock_full false);;
    wakeup (ChSock l);;
    rp ← gets (fun s => sk_rPort (sock_at s l));
    again ← getsock rp;
    match again with
    | None =>
        removesock (Some l);;
        retsockfunc E_CONNECTION_RESET_BY_REMOTE
    | Some _ => retsockfunc 0
    end.

Definition recv (lport data n : Z) : K Z :=
  if inv_port lport then mret E_INVALID_ARG
  else
    acquire LkStable;;
    pair ← connected_pair lport;
    match pair with
    | inl code => retsockfunc code
    | inr (l, r) =>
        full ← gets (fun s => sk_hasfullbuffer (sock_at s l));
        when (negb full) (sleep (ChSock r) LkStable);;
        recv_rest l data n
    end.

Definition disconnect (lport : Z) : K Z :=
  if inv_port lport then mret E_INVALID_ARG
  else
    acquire LkStable;;
    local ← getsock lport;
    match local with
    | None => retsockfunc E_NOTFOUND
    | Some l =>
        p ← myproc;
        owner ← gets (fun s => sk_owner (sock_at s l));
        if negb (bool_decide (owner = p)) then retsockfunc E_ACCESS_DENIED
        else
          removesock (Some l);;
          retsockfunc 0
    end.

(** The while loop of [closeprocsocks]; every turn closes a socket, so NSOCK
    turns are enough ([closeprocsocks_spec]). *)
Fixpoint close_loop (fuel : nat) (process : nat) : K unit :=
  match fuel with
  | O => fun s => Stuck s
  | S k =>
      s ← getprocsock process;
      match s with
      | None => mret tt
      | Some i => removesock (Some i);; close_loop k process
      end
  end.

Definition closeprocsocks (process : option nat) : K unit :=
  match process with
  | None => mret tt
  | Some p =>
      acquire LkStable;;
      close_loop (S NSOCK) p;;
      release LkStable
  end.

(** ** The table as a value

    What the helpers do to the table, without the locks: one function per
    helper, with the lemma that the helper computes it. *)

Definition st_put (i : nat) (k : sock) (t : stab) : stab :=
  mkStab (<[i := k]> (socks t)) (countSock t) (nextsid t).

Definition fresh_sock (sid : Z) (p : option nat) (lport : Z) (b : mem) : sock :=
  mkSock sid OPENED p (strncpy b 0 (cstr "") 0 1) false lport INV_PORT.

Definition closed_sock (b : mem) : sock :=
  mkSock (-1) CLOSED None (strncpy b 0 (cstr "") 0 1) false INV_PORT INV_PORT.

Definition st_alloc (i : nat) (p : option nat) (lport : Z) (t : stab) : stab :=
  mkStab (<[i := fresh_sock (nextsid t) p lport (sk_recvbuffer (socks t i))]> (socks t))
    (countSock t + 1) (int32 (nextsid t + 1)).

Definition st_remove (i : nat) (t : stab) : stab :=
  mkStab (<[i := closed_sock (sk_recvbuffer (socks t i))]> (socks t)) (countSock t - 1) (nextsid t).

(** The slot [allocsock] gives out. *)
Definition alloc_slot (t : stab) (lport : Z) : option nat :=
  if inv_port lport then None
  else match find_port t lport with
       | Some _ => None
       | None => find_closed t
       end.

Lemma upd_sock_run i f s :
  upd_sock i f s = Done tt (set_stab (st_put i (f (sock_at s i)) (k_stab s)) s).
Proof. done. Qed.

Section helpers.
Context (L : list lockid) (p : option nat).

Lemma wp_allocsock lport s (Q : option nat -> kstate -> Prop) :
  on_cpu L p (k_core s) ->
  match alloc_slot (k_stab s) lport with
  | None => Q None s
  | Some i => forall c', on_cpu L p c' ->
      Q (Some i) (set_core c' (set_stab (st_alloc i p lport (k_stab s)) s))
  end ->
  wp (allocsock lport) s Q.
Proof.
  intros Hc HQ. unfold allocsock. wp_step.
  unfold alloc_slot, inv_port in HQ.
  destruct ((lport <? 0) || (lport >=? NPORT)); [done|].
  destruct (find_port (k_stab s) lport); [done|].
  rewrite bool_decide_false by (intros H; by apply H). simpl. wp_step.
  destruct (find_closed (k_stab s)) as [i|]; [|done].
  apply wp_bind. eapply wp_myproc; [exact Hc|]. intros c' Hc'. wp_step.
  by apply HQ.
Qed.

Lemma wp_removesock i s (Q : bool -> kstate -> Prop) :
  on_cpu L p (k_core s) -> LkPtable ∉ L ->
  (forall c', on_cpu L p c' ->
    Q true (set_core c' (set_stab (st_remove i (k_stab s))
      (set_ptab (wake_tab (ChSock i) (k_ptab s)) s)))) ->
  wp (removesock (Some i)) s Q.
Proof.
  intros Hc Hni HQ. unfold removesock. apply wp_bind. eapply wp_wakeup; [exact Hc|done|].
  intros c' Hc'. wp_step. by apply HQ.
Qed.
End helpers.

Lemma wp_retsockfunc p code s (Q : Z -> kstate -> Prop) :
  on_cpu [LkStable] p (k_core s) ->
  (forall c', on_cpu [] p c' -> Q code (set_core c' s)) ->
  wp (retsockfunc code) s Q.
Proof.
  intros Hc HQ. apply wp_bind. eapply wp_release; [exact Hc|done|]. intros c' Hc'.
  by apply HQ.
Qed.

(** [connected_pair] as a function of the table. *)
Definition pair_of (t : stab) (p : option nat) (lport : Z) : Z + nat * nat :=
  match find_port t lport with
  | None => inl E_NOTFOUND
  | Some l =>
      let k := socks t l in
      if negb (bool_decide (sk_owner k = p)) then inl E_ACCESS_DENIED
      else if negb (bool_decide (sk_state k = CONNECTED)) then inl E_WRONG_STATE
      else match find_port t (sk_rPort k) with
           | None => inl E_NOTFOUND
           | Some r =>
               if negb (bool_decide (sk_state (socks t r) = CONNECTED)) then inl E_WRONG_STATE
               else inr (l, r)
           end
  end.

Lemma wp_connected_pair L p lport s (Q : Z + nat * nat -> kstate -> Prop) :
  on_cpu L p (k_core s) ->
  (forall c', on_cpu L p c' -> Q (pair_of (k_stab s) p lport) (set_core c' s)) ->
  wp (connected_pair lport) s Q.
Proof.
  intros Hc HQ. unfold connected_pair. wp_step. unfold pair_of in HQ.
  destruct (find_port (k_stab s) lport) as [l|].
  2: { rewrite <- (set_core_id s). by apply HQ. }
  apply wp_bind. eapply wp_myproc; [exact Hc|]. intros c' Hc'. specialize (HQ c' Hc'). wp_step.
  change (sock_at (set_core c' s) l) with (socks (k_stab s) l).
  destruct (bool_decide (sk_owner (socks (k_stab s) l) = p)); [|done]. simpl in HQ |- *.
  destruct (bool_decide (sk_state (socks (k_stab s) l) = CONNECTED)); [|done]. simpl in HQ |- *.
  wp_step. destruct (find_port (k_stab s) _) as [r|]; [|done].
  wp_step. change (sock_at (set_core c' s) r) with (socks (k_stab s) r).
  by destruct (bool_decide (sk_state (socks (k_stab s) r) = CONNECTED)).
Qed.

(** ** The table invariant *)

Record stable_ok (t : stab) : Prop := mkStableOk {
  so_count : countSock t = count_idx (fun i => is_open (socks t i)) NSOCK;
  so_port : forall i, (i < NSOCK)%nat -> is_open (socks t i) = true ->
    0 <= sk_lPort (socks t i) < NPORT;
  so_uniq : forall i j, (i < NSOCK)%nat -> (j < NSOCK)%nat ->
    is_open (socks t i) = true -> is_open (socks t j) = true ->
    sk_lPort (socks t i) = sk_lPort (socks t j) -> i = j;
  so_owner : forall i, (i < NSOCK)%nat -> is_open (socks t i) = true ->
    sk_owner (socks t i) <> None;
  so_term : forall i, (i < NSOCK)%nat -> sk_recvbuffer (socks t i) (SBUFFSIZE - 1) = 0
}.

Lemma is_open_closed k : is_open k = false <-> sk_state k = CLOSED.
Proof.
  unfold is_open. rewrite negb_false_iff, bool_decide_eq_true. done.
Qed.

Lemma find_port_Some t port i :
  stable_ok t ->
  find_port t port = Some i <->
  (i < NSOCK)%nat /\ is_open (socks t i) = true /\ sk_lPort (socks t i) = port.
Proof.
  intros Hok. unfold find_port. split.
  - destruct ((0 <=? port) && (port <? NPORT)); [|done]. intros H.
    apply find_idx_Some in H as (Hi & HP & _). apply andb_prop in HP as [Ho Hp]. by split_and!; [..|lia].
  - intros (Hi & Ho & Hp). pose proof (so_port _ Hok i Hi Ho) as Hr.
    replace ((0 <=? port) && (port <? NPORT)) with true by (unfold NPORT in *; zcases).
    apply find_idx_Some. split_and!; [done|by rewrite Ho, Hp, Z.eqb_refl|].
    intros k Hk. apply andb_false_iff. destruct (is_open (socks t k)) eqn:E; [right|by left].
    apply Z.eqb_neq. intros Heq.
    assert (k = i) by (apply (so_uniq _ Hok); [lia|done|done|done|congruence]). lia.
Qed.

Lemma find_port_None t port :
  inv_port port = false ->
  find_port t port = None <->
  forall i, (i < NSOCK)%nat -> is_open (socks t i) = true -> sk_lPort (socks t i) <> port.
Proof.
  unfold inv_port, find_port. intros Hp.
  replace ((0 <=? port) && (port <? NPORT)) with true by (unfold NPORT in *; zcases).
  rewrite find_idx_None. split; intros H i Hi.
  - intros Ho Heq. specialize (H i Hi). rewrite Ho, Heq, Z.eqb_refl in H. done.
  - destruct (is_open (socks t i)) eqn:E; [|done]. simpl. apply Z.eqb_neq. by apply H.
Qed.

Lemma find_port_range t port i : find_port t port = Some i -> inv_port port = false.
Proof.
  unfold find_port, inv_port. destruct ((0 <=? port) && (port <? NPORT)) eqn:E; [|done].
  intros _. unfold NPORT in *. lia.
Qed.

Definition open1 (k : sock) : Z := if is_open k then 1 else 0.

(** Replacing one entry of a good table. *)
Lemma ok_replace t i k cnt n :
  stable_ok t -> (i < NSOCK)%nat ->
  sk_recvbuffer k (SBUFFSIZE - 1) = 0 ->
  (is_open k = true -> 0 <= sk_lPort k < NPORT /\ sk_owner k <> None /\
    forall j, (j < NSOCK)%nat -> j <> i -> is_open (socks t j) = true ->
      sk_lPort (socks t j) <> sk_lPort k) ->
  cnt = countSock t - open1 (socks t i) + open1 k ->
  stable_ok (mkStab (<[i := k]> (socks t)) cnt n).
Proof.
  intros [Hc Hp Hu Ho Ht] Hi Hb Hk ->. split; simpl.
  - rewrite (count_idx_change (fun j => is_open (socks t j)) _ NSOCK i) by
      (try done; intros j Hj; by rewrite fn_insert_ne).
    rewrite fn_insert_eq, Hc. done.
  - intros j Hj. rewrite fn_insert_case. case_decide; [subst; intros; by apply Hk|by apply Hp].
  - intros j1 j2 Hj1 Hj2. rewrite !fn_insert_case.
    repeat case_decide; subst; intros H1 H2 Heq; try done.
    + by destruct (proj2 (proj2 (Hk H1)) j2 Hj2).
    + by destruct (proj2 (proj2 (Hk H2)) j1 Hj1).
    + by apply Hu.
  - intros j Hj. rewrite fn_insert_case. case_decide; [subst; intros; by apply Hk|by apply Ho].
  - intros j Hj. rewrite fn_insert_case. case_decide; [done|by apply Ht].
Qed.

(** Changing an entry in a way that keeps its port, its owner and whether it is
    open. *)
Lemma ok_put t i k :
  stable_ok t -> (i < NSOCK)%nat -> sk_recvbuffer k (SBUFFSIZE - 1) = 0 ->
  is_open k = is_open (socks t i) -> sk_lPort k = sk_lPort (socks t i) ->
  sk_owner k = sk_owner (socks t i) ->
  stable_ok (st_put i k t).
Proof.
  intros Hok Hi Hb Ho Hl Hw. apply ok_replace; try done.
  - rewrite Ho, Hl, Hw. intros Hop. split_and!; [by apply Hok..|].
    intros j Hj Hne Hoj Heq. apply Hne. by apply (so_uniq _ Hok).
  - unfold open1. rewrite Ho. lia.
Qed.

Lemma first_byte_term b src : strncpy b 0 src 0 1 (SBUFFSIZE - 1) = b (SBUFFSIZE - 1).
Proof. by rewrite strncpy_spec. Qed.

Lemma alloc_slot_Some t lport i :
  alloc_slot t lport = Some i ->
  (i < NSOCK)%nat /\ is_open (socks t i) = false /\ inv_port lport = false /\
  find_port t lport = None.
Proof.
  unfold alloc_slot. destruct (inv_port lport) eqn:Hp; [done|].
  destruct (find_port t lport); [done|]. intros H.
  apply find_idx_Some in H as (Hi & Hst & _). split_and!; try done.
  apply is_open_closed. by apply bool_decide_eq_true in Hst.
Qed.

Lemma ok_alloc t i p lport :
  stable_ok t -> alloc_slot t lport = Some i -> stable_ok (st_alloc i (Some p) lport t).
Proof.
  intros Hok Ha. destruct (alloc_slot_Some _ _ _ Ha) as (Hi & Hc & Hp & Hf).
  apply ok_replace; simpl; try done.
  - rewrite first_byte_term. by apply Hok.
  - intros _. unfold inv_port in Hp. split_and!; [unfold NPORT in *; lia|unfold NPORT in *; lia|done|].
    intros j Hj Hne. by apply (proj1 (find_port_None t lport Hp)).
  - unfold open1. rewrite Hc. simpl. lia.
Qed.

Lemma ok_remove t i :
  stable_ok t -> (i < NSOCK)%nat -> is_open (socks t i) = true -> stable_ok (st_remove i t).
Proof.
  intros Hok Hi Ho. apply ok_replace; simpl; try done.
  - rewrite first_byte_term. by apply Hok.
  - unfold open1. rewrite Ho. simpl. lia.
Qed.

(** ** The pair connect makes *)

Definition linked (k : sock) (rport : Z) : sock :=
  mkSock (sk_sid k) CONNECTED (sk_owner k) (sk_recvbuffer k) false (sk_lPort k) rport.

Definition st_connect (l r : nat) (t : stab) : stab :=
  st_put r (linked (socks t r) (sk_lPort (socks t l)))
    (st_put l (linked (socks t l) (sk_lPort (socks t r))) t).

(** Tables with the same entries. *)
Definition same_table (t t' : stab) : Prop :=
  (forall i, socks t i = socks t' i) /\ countSock t = countSock t' /\ nextsid t = nextsid t'.

Lemma link_pair_run l r s :
  l <> r ->
  exists t, link_pair l r s = Done tt (set_stab t s) /\ same_table t (st_connect l r (k_stab s)).
Proof.
  intros Hne. eexists. split; [reflexivity|]. split; [|done]. intros i. unfold sock_at.
  simpl. rewrite !fn_insert_case.
  repeat (case_decide; subst; simpl; try done).
Qed.

Lemma stable_ok_ext t t' : same_table t t' -> stable_ok t' -> stable_ok t.
Proof.
  intros (He & Hc & _) [H1 H2 H3 H4 H5]. split.
  - rewrite Hc, H1. apply count_idx_ext. intros k _. by rewrite He.
  - intros i. rewrite He. apply H2.
  - intros i j. rewrite !He. apply H3.
  - intros i. rewrite He. apply H4.
  - intros i. rewrite He. apply H5.
Qed.

Lemma ok_connect t l r :
  stable_ok t -> (l < NSOCK)%nat -> (r < NSOCK)%nat -> l <> r ->
  is_open (socks t l) = true -> is_open (socks t r) = true ->
  stable_ok (st_connect l r t).
Proof.
  intros Hok Hl Hr Hne Hol Hor.
  assert (H1 : stable_ok (st_put l (linked (socks t l) (sk_lPort (socks t r))) t)).
  { apply ok_put; try done. by apply Hok. }
  apply ok_put; try done; simpl; rewrite ?fn_insert_ne by done; try done. by apply Hok.
Qed.

(** ** getfreeport *)

Lemma free_port_from_spec t n :
  (Z.of_nat n < NPORT) ->
  let r := free_port_from t n in
  (r = INV_PORT /\ forall q, 1 <= q <= Z.of_nat n -> find_port t q <> None) \/
  (1 <= r <= Z.of_nat n /\ find_port t r = None /\
   forall q, r < q <= Z.of_nat n -> find_port t q <> None).
Proof.
  induction n as [|n IH]; intros Hn; cbn [free_port_from]; [left; split; [done|lia]|].
  destruct (find_port t (Z.of_nat (S n))) as [i|] eqn:E.
  - destruct IH as [[Hr Hall]|(Hr & Hf & Hall)]; [lia|left|right]; split_and!; try lia; try done;
      intros q Hq; (destruct (Z.eq_dec q (Z.of_nat (S n))) as [->|]; [by rewrite E|]); apply Hall; lia.
  - right. split_and!; [lia|lia|done|lia].
Qed.

(** 32 sockets cannot occupy 127 ports. *)
Lemma some_port_free t :
  stable_ok t -> exists q, 1 <= q <= NPORT - 1 /\ find_port t q = None.
Proof.
  intros Hok.
  destruct (free_port_from_spec t (Z.to_nat (NPORT - 1)) ltac:(unfold NPORT; lia))
    as [[_ Hall]|(Hr & Hf & _)]; [|by eexists; split; [|exact Hf]; unfold NPORT in *; lia].
  exfalso.
  set (slot := fun q => default 0%nat (find_port t q)).
  set (ports := seqZ 1 127).
  assert (Hslot : forall q, q ∈ ports -> find_port t q = Some (slot q)).
  { intros q Hq. apply elem_of_seqZ in Hq. unfold slot.
    destruct (find_port t q) eqn:E; [done|]. exfalso. apply (Hall q); [unfold NPORT; lia|done]. }
  assert (Hnd : NoDup (slot <$> ports)).
  { apply NoDup_fmap_2_strong; [|apply NoDup_seqZ]. intros q1 q2 H1 H2 Heq.
    apply Hslot, find_port_Some in H1 as (_ & _ & H1); [|done].
    apply Hslot, find_port_Some in H2 as (_ & _ & H2); [|done]. congruence. }
  assert (Hsub : slot <$> ports ⊆ seq 0 NSOCK).
  { intros i Hi. apply list_elem_of_fmap in Hi as (q & -> & Hq).
    apply Hslot, find_port_Some in Hq as (Hlt & _ & _); [|done]. apply elem_of_seq. lia. }
  pose proof (submseteq_length _ _ (NoDup_submseteq _ _ Hnd Hsub)) as Hlen.
  rewrite length_fmap, length_seq in Hlen. unfold ports in Hlen. rewrite length_seqZ in Hlen.
  unfold NSOCK in Hlen. lia.
Qed.

Lemma free_port_spec t :
  stable_ok t ->
  1 <= free_port t <= NPORT - 1 /\ find_port t (free_port t) = None /\
  forall q, free_port t < q <= NPORT - 1 -> find_port t q <> None.
Proof.
  intros Hok.
  destruct (free_port_from_spec t (Z.to_nat (NPORT - 1)) ltac:(unfold NPORT; lia))
    as [[_ Hall]|(Hr & Hf & Hmax)].
  - destruct (some_port_free t Hok) as (q & Hq & Hf). exfalso. apply (Hall q); [|done].
    unfold NPORT in *. lia.
  - unfold free_port. split_and!; [|unfold NPORT in *; lia|done|]; [lia|].
    intros q Hq. apply Hmax. unfold NPORT in *. lia.
Qed.

Lemma empty_stab_ok : stable_ok empty_stab.
Proof. split; done. Qed.
