(* ===== verification/SockConc.v ===== *)
(** * The socket operations under interleaving

    Rely/guarantee specifications of the operations of sock.c.  A process that
    sleeps in an operation relies on the others keeping its open sockets; the
    operation guarantees as much to the others.  From these, every interleaving
    of operations by any number of processes keeps the table invariant and
    never panics (SockSys). *)

From S2P Require Import Prelude CString KState Spinlock Proc Sock.

(** The open sockets of [q] are still open, [q]'s and at their port in [t'];
    the connected ones are still connected to the same port. *)
Definition keeps (q : nat) (t t' : stab) : Prop :=
  forall i, (i < NSOCK)%nat -> is_open (socks t i) = true -> sk_owner (socks t i) = Some q ->
  is_open (socks t' i) = true /\ sk_owner (socks t' i) = Some q /\
  sk_lPort (socks t' i) = sk_lPort (socks t i) /\
  (sk_state (socks t i) = CONNECTED ->
   sk_state (socks t' i) = CONNECTED /\ sk_rPort (socks t' i) = sk_rPort (socks t i)).

Lemma keeps_refl q t : keeps q t t.
Proof. intros i Hi Ho Hw. auto. Qed.

Lemma keeps_trans q t1 t2 t3 : keeps q t1 t2 -> keeps q t2 t3 -> keeps q t1 t3.
Proof.
  intros H1 H2 i Hi Ho Hw. destruct (H1 i Hi Ho Hw) as (Ho2 & Hw2 & Hl2 & Hc2).
  destruct (H2 i Hi Ho2 Hw2) as (Ho3 & Hw3 & Hl3 & Hc3). split_and!; try congruence.
  intros Hst. destruct (Hc2 Hst) as [Hs2 Hr2], (Hc3 (proj1 (Hc2 Hst))) as [Hs3 Hr3].
  split; congruence.
Qed.

#[export] Instance keeps_preorder q : PreOrder (keeps q).
Proof. split; [exact (keeps_refl q)|exact (keeps_trans q)]. Qed.

Definition others_keep (p : nat) (t t' : stab) : Prop := forall q, q <> p -> keeps q t t'.

(** Every process but [p] is as it was, or was woken up. *)
Definition others_woken (p : nat) (t t' : ptab) : Prop :=
  (forall q, q <> p -> procs t' q = procs t q \/
    (p_state (procs t q) = SLEEPING /\ procs t' q = proc_state RUNNABLE (procs t q))) /\
  nextpid t' = nextpid t /\ initproc t' = initproc t.

Lemma others_woken_trans p t1 t2 t3 :
  others_woken p t1 t2 -> others_woken p t2 t3 -> others_woken p t1 t3.
Proof.
  intros (H1 & Hn1 & Hi1) (H2 & Hn2 & Hi2). split_and!; [|congruence..]. intros q Hq.
  destruct (H1 q Hq) as [E1|[S1 E1]], (H2 q Hq) as [E2|[S2 E2]]; rewrite ?E1 in *; auto.
Qed.

Lemma only_woken_others p t t' : only_woken t t' -> others_woken p t t'.
Proof. intros [H Hn Hi]. split_and!; auto. Qed.

(** ** A point of an operation of process [p]

    [mid p L b s]: the uninterrupted run that began in [b] is in [s], holding
    the locks [L]. *)
Record mid (p : nat) (L : list lockid) (b s : kstate) : Prop := mkMid {
  md_ok : stable_ok (k_stab s);
  md_keep : others_keep p (k_stab b) (k_stab s);
  md_woken : others_woken p (k_ptab b) (k_ptab s);
  md_cpu : on_cpu L (Some p) (k_core s);
  md_run : p_state (proc_at s p) = RUNNING;
  md_sz : p_sz (proc_at s p) = p_sz (proc_at b p)
}.

(** Where an operation may start. *)
Definition ready (p : nat) (s : kstate) : Prop :=
  stable_ok (k_stab s) /\ on_cpu [] (Some p) (k_core s) /\ p_state (proc_at s p) = RUNNING.

Lemma ready_mid p s : ready p s -> mid p [] s s.
Proof.
  intros (Hok & Hc & Hr). split; try done; by apply only_woken_others.
Qed.

(** What an operation guarantees where it sleeps, and relies on. *)
Record guar (p : nat) (b s : kstate) : Prop := mkGuar {
  g_ok : stable_ok (k_stab s);
  g_keep : others_keep p (k_stab b) (k_stab s);
  g_woken : others_woken p (k_ptab b) (k_ptab s);
  g_cpu : on_cpu [LkPtable] (Some p) (k_core s);
  g_sleep : p_state (proc_at s p) = SLEEPING \/ p_state (proc_at s p) = RUNNABLE;
  g_sz : p_sz (proc_at s p) = p_sz (proc_at b p)
}.

(** The same size and contents of user memory. *)
Definition user_same (q q' : proc) : Prop := p_sz q' = p_sz q /\ p_umem q' = p_umem q.

Record rely (p : nat) (s s' : kstate) : Prop := mkRely {
  r_ok : stable_ok (k_stab s');
  r_keep : keeps p (k_stab s) (k_stab s');
  r_cpu : on_cpu [LkPtable] (Some p) (k_core s');
  r_run : p_state (proc_at s' p) = RUNNING;
  r_user : user_same (proc_at s p) (proc_at s' p)
}.

(** The specification of an operation. *)
Definition safe (p : nat) (b : kstate) (o : outcome kstate Z) : Prop :=
  post (guar p) (rely p) (fun b _ s => mid p [] b s) b o.

Section mid.
Context (p : nat) (b : kstate).

Lemma mid_core L L' s c :
  mid p L b s -> on_cpu L' (Some p) c -> mid p L' b (set_core c s).
Proof. intros [] Hc. by split. Qed.

Lemma mid_stab L s t :
  mid p L b s -> stable_ok t -> others_keep p (k_stab b) t -> mid p L b (set_stab t s).
Proof. intros [] Ht Hk. by split. Qed.

Lemma mid_wake L s ch :
  mid p L b s -> mid p L b (set_ptab (wake_tab ch (k_ptab s)) s).
Proof.
  intros [Hok Hk Hw Hc Hr Hsz]. split; try done.
  - eapply others_woken_trans; [exact Hw|]. apply only_woken_others, only_woken_wake.
  - unfold proc_at in *. simpl. destruct (p <? NPROC)%nat; [|done].
    unfold wake_proc. by rewrite Hr, bool_decide_false.
  - rewrite <- Hsz. unfold proc_at. simpl. destruct (p <? NPROC)%nat; [|done].
    unfold wake_proc. by destruct (_ && _).
Qed.

(** Changing the receive buffer of the running process's memory. *)
Lemma mid_umem L s m :
  mid p L b s ->
  mid p L b (set_ptab (with_procs (<[p := proc_umem m (proc_at s p)]> (procs (k_ptab s))) (k_ptab s)) s).
Proof.
  intros [Hok Hk Hw Hc Hr Hsz]. split; try done.
  - eapply others_woken_trans; [exact Hw|]. split_and!; try done. intros q Hq. left.
    simpl. by rewrite fn_insert_ne.
  - unfold proc_at. simpl. by rewrite fn_insert_eq.
  - rewrite <- Hsz. unfold proc_at. simpl. by rewrite fn_insert_eq.
Qed.

Lemma mid_running L s : mid p L b s -> running s = Some p.
Proof.
  intros [_ _ _ Hc _ _]. unfold running.
  by destruct (oc_here _ _ _ Hc) as (i & -> & -> & _).
Qed.
End mid.

(** ** What the changes of the table keep *)

Lemma keep_of p t t' :
  (forall q, q <> p -> keeps q t t') -> others_keep p t t'.
Proof. done. Qed.

(** An entry that is closed may be replaced. *)
Lemma keep_closed p b t i k cnt n :
  others_keep p b t -> is_open (socks b i) = false ->
  others_keep p b (mkStab (<[i := k]> (socks t)) cnt n).
Proof.
  intros H Hc q Hq j Hj Ho Hw. simpl. rewrite fn_insert_ne by congruence. by apply H.
Qed.

(** So may an entry of [p] itself. *)
Lemma keep_mine p b t i k cnt n :
  others_keep p b t -> (i < NSOCK)%nat -> is_open (socks b i) = true -> sk_owner (socks b i) = Some p ->
  others_keep p b (mkStab (<[i := k]> (socks t)) cnt n).
Proof.
  intros H Hi Ho Hp q Hq j Hj Hoj Hw. simpl. rewrite fn_insert_ne; [by apply H|]. congruence.
Qed.

(** Any entry may change its buffer and its buffer flag. *)
Lemma keep_put p b t i k :
  others_keep p b t -> is_open k = is_open (socks t i) -> sk_owner k = sk_owner (socks t i) ->
  sk_lPort k = sk_lPort (socks t i) -> sk_state k = sk_state (socks t i) ->
  sk_rPort k = sk_rPort (socks t i) ->
  others_keep p b (st_put i k t).
Proof.
  intros H Ho Hw Hl Hs Hr q Hq j Hj Hoj Hwj. simpl. rewrite fn_insert_case.
  case_decide; [subst j|by apply H]. rewrite Ho, Hw, Hl, Hs, Hr. by apply H.
Qed.

(** ** The steps of an operation, in terms of [mid] *)

Section steps.
Context (p : nat).

Lemma mid_acquire b s (Q : unit -> kstate -> Prop) :
  mid p [] b s ->
  (forall c, mid p [LkStable] b (set_core c s) -> Q tt (set_core c s)) ->
  wp (acquire LkStable) s Q.
Proof.
  intros Hm HQ. eapply wp_acquire; [apply Hm|by apply not_elem_of_nil|].
  intros c Hc. apply HQ. by eapply mid_core.
Qed.

Lemma mid_ret b s code :
  mid p [LkStable] b s -> wp (retsockfunc code) s (fun _ s' => mid p [] b s').
Proof.
  intros Hm. eapply wp_retsockfunc; [apply Hm|]. intros c Hc. by eapply mid_core.
Qed.

Lemma stable_not_ptable : LkPtable ∉ [LkStable].
Proof. intros H. by apply list_elem_of_singleton in H. Qed.

Lemma mid_wakeup b s ch (Q : unit -> kstate -> Prop) :
  mid p [LkStable] b s ->
  (forall s', mid p [LkStable] b s' -> k_stab s' = k_stab s -> Q tt s') ->
  wp (wakeup ch) s Q.
Proof.
  intros Hm HQ. eapply wp_wakeup; [apply Hm|apply stable_not_ptable|].
  intros c Hc. apply HQ; [|done]. eapply mid_core; [|done]. by apply mid_wake.
Qed.

(** [removesock] of an open socket the process owns since the run began. *)
Lemma mid_remove b s l (Q : bool -> kstate -> Prop) :
  mid p [LkStable] b s -> (l < NSOCK)%nat ->
  is_open (socks (k_stab s) l) = true ->
  is_open (socks (k_stab b) l) = true -> sk_owner (socks (k_stab b) l) = Some p ->
  (forall s', mid p [LkStable] b s' -> k_stab s' = st_remove l (k_stab s) -> Q true s') ->
  wp (removesock (Some l)) s Q.
Proof.
  intros Hm Hl Ho Hob Hw HQ. eapply wp_removesock; [apply Hm|apply stable_not_ptable|].
  intros c Hc. apply HQ; [|done]. eapply mid_core; [|done]. apply mid_stab.
  - by apply mid_wake.
  - apply ok_remove; [apply Hm|done|done].
  - apply keep_mine; [apply Hm|done..].
Qed.

Lemma mid_sleep b s ch (Q : kstate -> unit -> kstate -> Prop) :
  mid p [LkStable] b s ->
  (forall s' s2, keeps p (k_stab s) (k_stab s') -> mid p [LkStable] s' s2 ->
    k_stab s2 = k_stab s' -> user_same (proc_at s p) (proc_at s2 p) -> Q s' tt s2) ->
  post (guar p) (rely p) Q b (sleep ch LkStable s).
Proof.
  intros [Hok Hk Hw Hc Hr Hsz] HQ. eapply post_sleep; [exact Hc|done|done|]. intros c Hc'. split.
  - split; try done.
    + eapply others_woken_trans; [exact Hw|]. split_and!; try done. intros q Hq. left.
      simpl. by rewrite fn_insert_ne.
    + left. unfold proc_at. simpl. by rewrite fn_insert_eq.
    + rewrite <- Hsz. unfold proc_at. simpl. by rewrite fn_insert_eq.
  - intros s' [Rok Rk Rc Rr [Rsz Rum]]. split; [done|]. intros c2 Hc2. apply HQ; try done.
    + split; try done.
      * split_and!; try done. intros q Hq. left. simpl. by rewrite fn_insert_ne.
      * unfold proc_at. simpl. by rewrite fn_insert_eq.
      * unfold proc_at. simpl. by rewrite fn_insert_eq.
    + revert Rsz Rum. unfold user_same, proc_at. simpl. rewrite !fn_insert_eq. simpl. auto.
Qed.

(** Assignments to the fields of a socket that concern its buffer. *)
Lemma mid_buffer b s i (f : sock -> sock) :
  mid p [LkStable] b s -> (i < NSOCK)%nat ->
  (forall k, is_open (f k) = is_open k /\ sk_owner (f k) = sk_owner k /\ sk_lPort (f k) = sk_lPort k /\
    sk_state (f k) = sk_state k /\ sk_rPort (f k) = sk_rPort k) ->
  sk_recvbuffer (f (sock_at s i)) (SBUFFSIZE - 1) = 0 ->
  mid p [LkStable] b (set_stab (st_put i (f (sock_at s i)) (k_stab s)) s).
Proof.
  intros Hm Hi Hf Hb. destruct (Hf (sock_at s i)) as (Ho & Hw & Hl & Hs & Hr).
  apply mid_stab; [done|apply ok_put; try done; apply Hm|].
  apply keep_put; try done. apply Hm.
Qed.
End steps.

(** ** The operations are safe *)

Section safe.
Context (p : nat).

Lemma disconnect_safe lport s : ready p s -> safe p s (disconnect lport s).
Proof.
  intros Hr%ready_mid. apply (wp_post _ _ (disconnect lport)). unfold disconnect.
  destruct (inv_port lport); [by apply wp_ret|].
  apply wp_bind. eapply mid_acquire; [exact Hr|]. intros c Hm. wp_step.
  destruct (find_port (k_stab s) lport) as [l|] eqn:Hf; [|by apply mid_ret].
  apply wp_bind. eapply wp_myproc; [apply Hm|]. intros c2 Hc2.
  eapply mid_core in Hm; [|exact Hc2]. wp_step.
  apply find_port_Some in Hf as (Hl & Ho & Hp); [|apply Hr].
  change (sock_at (set_core c2 s) l) with (socks (k_stab s) l).
  destruct (decide (sk_owner (socks (k_stab s) l) = Some p)) as [Hw|Hw].
  - rewrite bool_decide_true by done. simpl. apply wp_bind.
    eapply mid_remove; [exact Hm|done..|]. intros s' Hm' _. by apply mid_ret.
  - rewrite bool_decide_false by done. simpl. by apply mid_ret.
Qed.

Lemma listen_safe lport s : ready p s -> safe p s (listen lport s).
Proof.
  intros Hr%ready_mid. unfold safe, listen.
  destruct (inv_port lport); [by apply (wp_post _ _ (mret _)), wp_ret|].
  apply post_bind_wp. eapply mid_acquire; [exact Hr|]. intros c Hm.
  apply post_bind_wp. unfold wp at 1, gets. simpl.
  destruct (countSock (k_stab s) =? Z.of_nat NSOCK); [by apply wp_post, mid_ret|].
  apply post_bind_wp. eapply wp_allocsock; [apply Hm|]. simpl.
  destruct (alloc_slot (k_stab s) lport) as [i|] eqn:Ha; [|by apply wp_post, mid_ret].
  intros c2 Hc2. destruct (alloc_slot_Some _ _ _ Ha) as (Hi & Hcl & _).
  assert (Hm2 : mid p [LkStable] s (set_core c2 (set_stab (st_alloc i (Some p) lport (k_stab s)) s))).
  { apply (mid_stab p s _ (set_core c2 s) (st_alloc i (Some p) lport (k_stab s))).
    - by eapply mid_core.
    - apply ok_alloc; [apply Hm|done].
    - by apply keep_closed. }
  apply post_bind_wp. rewrite wp_Done. do 2 eexists. split; [apply upd_sock_run|].
  apply post_bind. eapply (mid_sleep p s).
  - apply mid_stab; [exact Hm2| |apply keep_closed; [by apply keep_closed|done]].
    apply ok_put; [apply Hm2|done| |unfold sock_at; simpl; by rewrite fn_insert_eq..].
    apply Hm2. done.
  - intros s' s2 _ Hm3 _ _. by apply wp_post, mid_ret.
Qed.
(** The user string at [a] ends inside the mapped memory of process [q]. *)
Definition user_string (q : proc) (a : Z) : Prop :=
  strlen (Z.to_nat (mapped_end q - a)) (p_umem q) a <> None.

Lemma wp_user_proc b L s (Q : proc -> kstate -> Prop) :
  mid p L b s -> Q (proc_at s p) s -> wp user_proc s Q.
Proof. intros Hm HQ. unfold wp, user_proc. by rewrite (mid_running p b L s). Qed.

Lemma wp_user_strlen b L s a (Q : Z -> kstate -> Prop) :
  mid p L b s -> user_string (proc_at s p) a ->
  (forall n, strlen (Z.to_nat (mapped_end (proc_at s p) - a)) (p_umem (proc_at s p)) a = Some n ->
    Q n s) ->
  wp (user_strlen a) s Q.
Proof.
  intros Hm Hu HQ. apply wp_bind. eapply wp_user_proc; [exact Hm|].
  unfold user_string in Hu. destruct (strlen _ _ _) as [n|]; [|done]. by apply HQ.
Qed.

(** The accesses of [connect] to the table, once it has the lock. *)
Lemma connect_locked_safe b s rport :
  mid p [LkStable] b s -> k_stab s = k_stab b ->
  wp (connect_locked rport) s (fun _ s' => mid p [] b s').
Proof.
  intros Hm Hb. unfold connect_locked. wp_step. wp_step. destruct (_ =? INV_PORT); [by apply mid_ret|].
  destruct (find_port (k_stab s) rport) as [r|] eqn:Hf; [|by apply mid_ret].
  apply find_port_Some in Hf as (Hr & Hor & Hpr); [|apply Hm].
  wp_step. unfold sock_at. destruct (decide (sk_state (socks (k_stab s) r) = LISTENING)) as [Hls|];
    [|rewrite bool_decide_false by done; by apply mid_ret].
  rewrite bool_decide_true by done. simpl. apply wp_bind.
  eapply wp_allocsock; [apply Hm|].
  destruct (alloc_slot (k_stab s) _) as [l|] eqn:Ha; [|by apply mid_ret].
  intros c Hc. destruct (alloc_slot_Some _ _ _ Ha) as (Hl & Hcl & _).
  assert (Hne : l <> r) by congruence.
  set (t1 := st_alloc l (Some p) (free_port (k_stab s)) (k_stab s)) in *.
  set (s1 := set_core c (set_stab t1 s)).
  assert (Hm1 : mid p [LkStable] b s1).
  { apply (mid_stab p b _ (set_core c s) t1); [by eapply mid_core| |].
    - apply ok_alloc; [apply Hm|done].
    - apply keep_closed; [apply Hm|by rewrite <- Hb]. }
  apply wp_bind. destruct (link_pair_run l r s1 Hne) as (t & Hrun & Ht).
  rewrite wp_Done. do 2 eexists. split; [exact Hrun|].
  apply wp_bind. eapply (mid_wakeup p b); [|intros s' Hm' _; by apply mid_ret].
  assert (Hor1 : socks t1 r = socks (k_stab s) r) by (simpl; by rewrite fn_insert_ne).
  apply mid_stab; [done| |].
  - eapply stable_ok_ext; [exact Ht|]. apply ok_connect; try done; simpl.
    + apply Hm1.
    + by rewrite fn_insert_eq.
    + by rewrite fn_insert_ne.
  - intros q Hq j Hj Ho Hw. rewrite <- Hb in Ho, Hw |- *. destruct Ht as (Ht & _ & _). rewrite Ht.
    simpl. rewrite !fn_insert_case. repeat (case_decide; subst; simpl); try congruence; try done.
    rewrite Hls. done.
Qed.

Lemma connect_safe rport host s :
  ready p s -> user_string (proc_at s p) host -> safe p s (connect rport host s).
Proof.
  intros Hr%ready_mid Hh. apply (wp_post _ _ (connect rport host)). unfold connect.
  destruct (inv_port rport); [by apply wp_ret|].
  apply wp_bind. eapply wp_user_strlen; [exact Hr|done|]. intros n _.
  apply wp_bind. eapply wp_user_proc; [exact Hr|].
  destruct (_ && _); [by apply wp_ret|].
  apply wp_bind. eapply mid_acquire; [exact Hr|]. intros c Hm. by apply connect_locked_safe.
Qed.

(** What [send] may read: a string inside the mapped memory, or [n] bytes. *)
Definition user_readable (q : proc) (a n : Z) : Prop :=
  user_string q a \/ a + n <= mapped_end q.

Lemma user_readable_same q q' a n :
  user_same q q' -> user_readable q a n -> user_readable q' a n.
Proof. unfold user_same, user_readable, user_string, mapped_end. intros [-> ->]. done. Qed.

Lemma wp_user_source b L s a n (Q : mem -> kstate -> Prop) :
  mid p L b s -> user_readable (proc_at s p) a n -> Q (p_umem (proc_at s p)) s ->
  wp (user_source a n) s Q.
Proof.
  intros Hm Hu HQ. apply wp_bind. eapply wp_user_proc; [exact Hm|].
  unfold user_readable, user_string in Hu. destruct (strlen _ _ _) as [k|]; [done|].
  destruct (Z.leb_spec (a + n) (mapped_end (proc_at s p))); [done|]. destruct Hu; [done|lia].
Qed.

Lemma pair_of_inr t lport l r :
  stable_ok t -> pair_of t (Some p) lport = inr (l, r) ->
  (l < NSOCK)%nat /\ is_open (socks t l) = true /\ sk_owner (socks t l) = Some p /\
  sk_state (socks t l) = CONNECTED /\ (r < NSOCK)%nat /\
  sk_lPort (socks t l) = lport /\
  find_port t (sk_rPort (socks t l)) = Some r /\ sk_state (socks t r) = CONNECTED.
Proof.
  intros Hok. unfold pair_of. destruct (find_port t lport) as [l'|] eqn:Hl; [|done].
  apply find_port_Some in Hl as (Hl & Ho & Hp); [|done].
  destruct (decide (sk_owner (socks t l') = Some p)) as [Hw|];
    [rewrite bool_decide_true by done|by rewrite bool_decide_false by done].
  destruct (decide (sk_state (socks t l') = CONNECTED)) as [Hs|];
    [rewrite bool_decide_true by done|by rewrite bool_decide_false by done]. simpl.
  destruct (find_port t (sk_rPort (socks t l'))) as [r'|] eqn:Hr; [|done].
  destruct (decide (sk_state (socks t r') = CONNECTED)) as [Hrs|];
    [rewrite bool_decide_true by done|by rewrite bool_decide_false by done]. simpl.
  intros [= <- <-]. pose proof (proj1 (find_port_Some _ _ _ Hok) Hr) as (Hr' & _). done.
Qed.

(** [send] after its wait. *)
Lemma send_tail_safe b s l r data n :
  mid p [LkStable] b s -> k_stab s = k_stab b -> (l < NSOCK)%nat -> (r < NSOCK)%nat ->
  is_open (socks (k_stab b) l) = true -> sk_owner (socks (k_stab b) l) = Some p ->
  user_readable (proc_at s p) data n -> n <= SBUFFSIZE - 1 ->
  wp (send_rest l r data n) s (fun _ s' => mid p [] b s').
Proof.
  intros Hm Hb Hl Hr Ho Hw Hu Hn. unfold send_rest. wp_step. wp_step. unfold sock_at.
  destruct (find_port _ _) as [r2|].
  - apply wp_bind. eapply wp_user_source; [exact Hm|done|].
    destruct (n >? SBUFFSIZE) eqn:E; [unfold SBUFFSIZE in *; lia|]. clear E.
    apply wp_bind. rewrite wp_Done. do 2 eexists. split; [apply upd_sock_run|].
    assert (Hm1 : mid p [LkStable] b (set_stab (st_put r (sock_buffer
        (strncpy (sk_recvbuffer (sock_at s r)) 0 (p_umem (proc_at s p)) data n) (sock_at s r))
        (k_stab s)) s)).
    { apply (mid_buffer p b s r (fun k => sock_buffer
        (strncpy (sk_recvbuffer k) 0 (p_umem (proc_at s p)) data n) k)); try done.
      simpl. rewrite strncpy_spec. unfold inside. unfold SBUFFSIZE in *. zcases.
      by apply (md_ok _ _ _ _ Hm). }
    apply wp_bind. rewrite wp_Done. do 2 eexists. split; [apply upd_sock_run|].
    apply wp_bind. eapply (mid_wakeup p b); [|intros s' Hm' _; by apply mid_ret].
    apply (mid_buffer p b _ r (sock_full true)); try done. by apply (md_ok _ _ _ _ Hm1).
  - apply wp_bind. eapply mid_remove; [exact Hm|done| |done|done|].
    + by rewrite Hb.
    + intros s' Hm' _. by apply mid_ret.
Qed.

Lemma send_safe lport data n s :
  ready p s -> user_readable (proc_at s p) data n -> n <= SBUFFSIZE - 1 ->
  safe p s (send lport data n s).
Proof.
  intros Hr%ready_mid Hu Hn. unfold safe, send.
  destruct (inv_port lport); [by apply (wp_post _ _ (mret _)), wp_ret|].
  apply post_bind_wp. eapply mid_acquire; [exact Hr|]. intros c Hm.
  apply post_bind_wp. eapply wp_connected_pair; [apply Hm|]. intros c2 Hc2.
  eapply mid_core in Hm; [|exact Hc2]. rewrite set_core_set_core in *.
  change (k_stab (set_core c s)) with (k_stab s).
  destruct (pair_of (k_stab s) (Some p) lport) as [code|[l r]] eqn:Hp;
    [by apply wp_post, mid_ret|].
  apply pair_of_inr in Hp as (Hl & Ho & Hw & _ & Hrr & _); [|apply Hr].
  apply post_bind_wp. unfold wp at 1, gets, sock_at. simpl.
  destruct (sk_hasfullbuffer (socks (k_stab s) r)); simpl when.
  - apply post_bind. eapply mid_sleep; [exact Hm|]. intros s' s2 Hk Hm2 He Hus.
    destruct (Hk l Hl Ho Hw) as (Ho' & Hw' & _).
    apply wp_post, send_tail_safe; try done. by eapply user_readable_same.
  - apply post_bind_wp, wp_ret. by apply wp_post, send_tail_safe.
Qed.

(** [recv] after its wait. *)
Lemma recv_tail_safe b s l data n :
  mid p [LkStable] b s -> k_stab s = k_stab b -> (l < NSOCK)%nat ->
  is_open (socks (k_stab b) l) = true -> sk_owner (socks (k_stab b) l) = Some p ->
  data + n <= mapped_end (proc_at s p) ->
  wp (recv_rest l data n) s (fun _ s' => mid p [] b s').
Proof.
  intros Hm Hb Hl Ho Hw Hu. unfold recv_rest. wp_step. unfold sock_at.
  assert (Hread : buffer_readable (sk_recvbuffer (socks (k_stab s) l)) n = true).
  { apply orb_true_iff. right. apply bool_decide_eq_true.
    pose proof (so_term _ (md_ok _ _ _ _ Hm) l Hl) as Ht. intros Hnone.
    by apply (strlen_None_no_nul _ _ _ (SBUFFSIZE - 1)) in Hnone. }
  rewrite Hread. simpl negb. cbv iota. apply wp_bind.
  unfold wp, user_strncpy. rewrite (mid_running p b _ s Hm).
  replace (mapped_end (proc_at s p) <? data + n) with false by (symmetry; apply Z.ltb_ge; lia).
  rewrite andb_false_r, upd_proc_run.
  set (s1 := set_ptab _ s).
  assert (Hm1 : mid p [LkStable] b s1) by (by apply mid_umem).
  apply (wp_bind (upd_sock _ _)). rewrite wp_Done. do 2 eexists. split; [apply upd_sock_run|].
  set (s2 := set_stab _ s1).
  assert (Hm2 : mid p [LkStable] b s2).
  { apply (mid_buffer p b s1 l (fun k => sock_buffer (upd (sk_recvbuffer k) 0 0) k)); try done.
    by apply (md_ok _ _ _ _ Hm1). }
  apply wp_bind. rewrite wp_Done. do 2 eexists. split; [apply upd_sock_run|].
  apply wp_bind. eapply (mid_wakeup p b).
  { apply (mid_buffer p b s2 l (sock_full false)); try done. by apply (md_ok _ _ _ _ Hm2). }
  intros s3 Hm3 He. wp_step. wp_step. destruct (find_port _ _); [by apply mid_ret|].
  apply wp_bind. eapply mid_remove; [exact Hm3|done| |done|done|intros s' Hm' _; by apply mid_ret].
  rewrite He. unfold sock_at. simpl. rewrite !fn_insert_eq.
  change (is_open (socks (k_stab s) l) = true). by rewrite Hb.
Qed.

Lemma recv_safe lport data n s :
  ready p s -> data + n <= mapped_end (proc_at s p) ->
  safe p s (recv lport data n s).
Proof.
  intros Hr%ready_mid Hu. unfold safe, recv.
  destruct (inv_port lport); [by apply (wp_post _ _ (mret _)), wp_ret|].
  apply post_bind_wp. eapply mid_acquire; [exact Hr|]. intros c Hm.
  apply post_bind_wp. eapply wp_connected_pair; [apply Hm|]. intros c2 Hc2.
  eapply mid_core in Hm; [|exact Hc2]. rewrite set_core_set_core in *.
  change (k_stab (set_core c s)) with (k_stab s).
  destruct (pair_of (k_stab s) (Some p) lport) as [code|[l r]] eqn:Hp;
    [by apply wp_post, mid_ret|].
  apply pair_of_inr in Hp as (Hl & Ho & Hw & _); [|apply Hr].
  apply post_bind_wp. unfold wp at 1, gets, sock_at. simpl.
  destruct (sk_hasfullbuffer (socks (k_stab s) l)); simpl when.
  - apply post_bind_wp, wp_ret. by apply wp_post, recv_tail_safe.
  - apply post_bind. eapply mid_sleep; [exact Hm|]. intros s' s2 Hk Hm2 He [Hsz _].
    destruct (Hk l Hl Ho Hw) as (Ho' & Hw' & _).
    apply wp_post, recv_tail_safe; try done. unfold mapped_end. by rewrite Hsz.
Qed.
End safe.

(** ** closeprocsocks *)

Definition owned_by (q : nat) (k : sock) : bool := is_open k && bool_decide (sk_owner k = Some q).

(** [t'] is [t] with exactly the sockets of [q] closed. *)
Record closes (q : nat) (t t' : stab) : Prop := mkCloses {
  cl_ok : stable_ok t';
  cl_socks : forall i, (i < NSOCK)%nat -> socks t' i =
    if owned_by q (socks t i) then closed_sock (sk_recvbuffer (socks t i)) else socks t i;
  cl_count : countSock t' =
    countSock t - count_idx (fun i => owned_by q (socks t i)) NSOCK
}.

Lemma find_owned_Some t q i :
  find_owned t q = Some i -> (i < NSOCK)%nat /\ owned_by q (socks t i) = true.
Proof. intros H. apply find_idx_Some in H as (Hi & Ho & _). done. Qed.

Lemma find_owned_None t q i :
  find_owned t q = None -> (i < NSOCK)%nat -> owned_by q (socks t i) = false.
Proof. intros H Hi. by apply (proj1 (find_idx_None _ _) H). Qed.

Lemma owned_after_remove t q i :
  (i < NSOCK)%nat -> owned_by q (socks t i) = true ->
  count_idx (fun j => owned_by q (socks (st_remove i t) j)) NSOCK =
  count_idx (fun j => owned_by q (socks t j)) NSOCK - 1.
Proof.
  intros Hi Ho. rewrite (count_idx_change (fun j => owned_by q (socks t j)) _ NSOCK i Hi).
  - simpl. rewrite Ho, fn_insert_eq. simpl. lia.
  - intros k Hk. simpl. by rewrite fn_insert_ne.
Qed.

Lemma closes_step q t t' i :
  stable_ok t -> (i < NSOCK)%nat -> owned_by q (socks t i) = true ->
  closes q (st_remove i t) t' -> closes q t t'.
Proof.
  intros Hok Hi Ho [H1 H2 H3]. split; [done| |].
  - intros j Hj. rewrite H2 by done. simpl. rewrite fn_insert_case.
    case_decide; [subst j|done]. by rewrite Ho.
  - rewrite H3, owned_after_remove by done. simpl. lia.
Qed.

(** Every process asleep on [ch] in [t] is runnable in [t']. *)
Definition all_woken (ch : chan) (t t' : ptab) : Prop :=
  forall x, (x < NPROC)%nat -> p_state (procs t x) = SLEEPING -> p_chan (procs t x) = Some ch ->
  p_state (procs t' x) = RUNNABLE.

Lemma all_woken_wake ch t t' : only_woken (wake_tab ch t) t' -> all_woken ch t t'.
Proof.
  intros Hw x Hx Hs Hc. pose proof (wake_tab_state ch t x Hx) as E.
  rewrite Hs, Hc, !bool_decide_true in E by done. simpl in E.
  destruct (ow_proc _ _ Hw x) as [->|[E2 _]]; [done|]. simpl in E2. congruence.
Qed.

Lemma all_woken_later ch t1 t2 t3 : only_woken t1 t2 -> all_woken ch t2 t3 -> only_woken t2 t3 -> all_woken ch t1 t3.
Proof.
  intros H1 H2 H3 x Hx Hs Hc. destruct (ow_proc _ _ H1 x) as [E|[_ E]].
  - apply H2; [done|by rewrite E..].
  - destruct (ow_proc _ _ H3 x) as [->|[E2 _]]; rewrite E in *; done.
Qed.

Lemma close_loop_spec q p L fuel : forall s,
  on_cpu L p (k_core s) -> LkPtable ∉ L -> stable_ok (k_stab s) ->
  count_idx (fun i => owned_by q (socks (k_stab s) i)) NSOCK < Z.of_nat fuel ->
  wp (close_loop fuel q) s (fun _ s' =>
    on_cpu L p (k_core s') /\ closes q (k_stab s) (k_stab s') /\
    only_woken (k_ptab s) (k_ptab s') /\
    forall i, (i < NSOCK)%nat -> owned_by q (socks (k_stab s) i) = true ->
      all_woken (ChSock i) (k_ptab s) (k_ptab s')).
Proof.
  induction fuel as [|fuel IH]; intros s Hc Hni Hok Hf.
  { pose proof (count_idx_bounds (fun i => owned_by q (socks (k_stab s) i)) NSOCK). lia. }
  cbn [close_loop]. wp_step. destruct (find_owned (k_stab s) q) as [i|] eqn:E.
  - apply find_owned_Some in E as [Hi Ho]. apply wp_bind.
    assert (Hop : is_open (socks (k_stab s) i) = true) by (by apply andb_prop in Ho as [? _]).
    eapply wp_removesock; [exact Hc|done|]. intros c' Hc'.
    eapply wp_mono; [|apply IH; simpl; try done].
    + intros _ s' (H1 & H2 & H3 & H4). simpl in H4. split_and!; [done| | |].
      * by apply (closes_step q _ _ i).
      * etransitivity; [|exact H3]. apply only_woken_wake.
      * intros j Hj Hoj. destruct (decide (j = i)) as [->|Hji]; [by apply all_woken_wake|].
        eapply all_woken_later; [apply only_woken_wake| |exact H3]. apply H4; [done|].
        by rewrite fn_insert_ne.
    + by apply ok_remove.
    + change (count_idx (fun j => owned_by q (socks (st_remove i (k_stab s)) j)) NSOCK < Z.of_nat fuel).
      rewrite owned_after_remove by done. lia.
  - apply wp_ret. split_and!; [done| |reflexivity|]; [split; [done| |]|].
    + intros j Hj. by rewrite (find_owned_None _ _ _ E).
    + rewrite (proj2 (count_idx_zero _ _)); [lia|]. intros k Hk. by apply find_owned_None.
    + intros j Hj Ho. by rewrite (find_owned_None _ _ _ E Hj) in Ho.
Qed.

Lemma closeprocsocks_spec q p L s :
  on_cpu L p (k_core s) -> LkPtable ∉ L -> LkStable ∉ L -> stable_ok (k_stab s) ->
  wp (closeprocsocks (Some q)) s (fun _ s' =>
    on_cpu L p (k_core s') /\ closes q (k_stab s) (k_stab s') /\
    only_woken (k_ptab s) (k_ptab s') /\
    forall i, (i < NSOCK)%nat -> owned_by q (socks (k_stab s) i) = true ->
      all_woken (ChSock i) (k_ptab s) (k_ptab s')).
Proof.
  intros Hc Hni Hns Hok. unfold closeprocsocks. apply wp_bind.
  eapply wp_acquire; [exact Hc|done|]. intros c' Hc'. apply wp_bind.
  eapply wp_mono; [|apply (close_loop_spec q p (LkStable :: L)); try done].
  - intros _ s' (H1 & H2 & H3 & H4). eapply wp_release; [exact H1|reflexivity|].
    intros c2 Hc2. split_and!; [exact Hc2|exact H2|exact H3|exact H4].
  - rewrite elem_of_cons. intros [?|?]; done.
  - pose proof (count_idx_bounds (fun i => owned_by q (socks (k_stab s) i)) NSOCK). simpl in *. lia.
Qed.

Lemma closes_keep q t t' : closes q t t' -> others_keep q t t'.
Proof.
  intros [_ H _] r Hr i Hi Ho Hw. rewrite H by done.
  unfold owned_by. rewrite Ho, Hw, bool_decide_false by congruence. auto.
Qed.

(** ** Losing the CPU to a timer interrupt *)

Lemma yield_safe p s : ready p s -> safe p s ((yield;; mret 0) s).
Proof.
  intros (Hok & Hc & Hr). unfold safe. apply post_bind. unfold yield.
  apply post_bind_wp. eapply wp_acquire; [exact Hc|by apply not_elem_of_nil|]. intros c1 H1.
  apply post_bind_wp. eapply wp_myproc; [exact H1|]. intros c2 H2.
  apply post_bind_wp. rewrite wp_Done. do 2 eexists. split; [apply upd_proc_run|].
  apply post_bind. eapply post_sched; [exact H2| |].
  { unfold proc_at. simpl. by rewrite fn_insert_eq. }
  intros c3 H3. split.
  - split; try done.
    + split_and!; try done. intros q Hq. left. simpl. by rewrite fn_insert_ne.
    + right. unfold proc_at. simpl. by rewrite fn_insert_eq.
    + unfold proc_at. simpl. by rewrite fn_insert_eq.
  - intros s' [Rok Rk Rc Rr _]. split; [done|]. intros c4 H4. apply wp_post.
    eapply wp_release; [exact H4|reflexivity|]. intros c5 H5. simpl.
    split; try done. split_and!; try done. by left.
Qed.
