(* ===== verification/Exit.v ===== *)
(** * proc.c: the end of [exit]

    What [exit] does once the files are closed: the sockets, the children and the
    parent of the process, and the last switch.  The whole of [exit] is in ProcLife;
    this part needs no file system.

    Shown: the process leaves the CPU as a zombie, its sockets are closed, and the other
    processes are as they were but for their parent and for sleepers that woke up. *)

From S2P Require Import Prelude CString KState Spinlock Proc Sock SockConc.

(** [wakeup1] of a pointer to a process that may be NULL. *)
Definition wakeup1_proc (q : option nat) : K unit :=
  match q with
  | Some q => wakeup1 (ChProc q)
  | None =>
      modify (fun s => set_ptab (with_procs (fun i =>
        let r := proc_at s i in
        if (i <? NPROC)%nat && bool_decide (p_state r = SLEEPING) && bool_decide (p_chan r = None)
        then proc_state RUNNABLE r else r) (k_ptab s)) s)
  end.

(** The loop of [exit] that passes abandoned children to init. *)
Fixpoint reparent (todo i : nat) (cur : nat) : K unit :=
  match todo with
  | O => mret tt
  | S k =>
      r ← gets (fun s => proc_at s i);
      when (bool_decide (p_parent r = Some cur)) (
        init ← gets (fun s => initproc (k_ptab s));
        upd_proc i (proc_parent init);;
        when (bool_decide (p_state r = ZOMBIE)) (wakeup1_proc init));;
      reparent k (S i) cur
  end.

Definition exit_rest (cur : nat) : K unit :=
  closeprocsocks (Some cur);;
  acquire LkPtable;;
  parent ← gets (fun s => p_parent (proc_at s cur));
  wakeup1_proc parent;;
  reparent NPROC 0 cur;;
  upd_proc cur (proc_state ZOMBIE);;
  sched;;
  panic "zombie exit".

(** ** What it does to the other processes *)

(** A process before and after: its parent may be another one, and it may have been woken. *)
Definition passes (x y : proc) : Prop :=
  exists r, y = proc_parent r x \/ (p_state x = SLEEPING /\ y = proc_state RUNNABLE (proc_parent r x)).

Lemma passes_refl x : passes x x.
Proof. exists (p_parent x). left. by destruct x. Qed.

Lemma passes_trans x y z : passes x y -> passes y z -> passes x z.
Proof. intros [r [->|[H ->]]] [r' [->|[H' ->]]]; exists r'; auto. Qed.

#[export] Instance passes_preorder : PreOrder passes.
Proof. split; [exact passes_refl|exact passes_trans]. Qed.

Lemma passes_woken x : p_state x = SLEEPING -> passes x (proc_state RUNNABLE x).
Proof. intros H. exists (p_parent x). right. by destruct x. Qed.

Lemma passes_keeps x y : passes x y ->
  user_same x y /\ (p_state y = p_state x \/ (p_state x = SLEEPING /\ p_state y = RUNNABLE)).
Proof. intros [r [->|[H ->]]]; by repeat split; auto. Qed.

(** The tables [t] and [t'] differ in such processes alone. *)
Record handed (t t' : ptab) : Prop := mkHanded {
  hd_proc : forall i, passes (procs t i) (procs t' i);
  hd_nextpid : nextpid t' = nextpid t;
  hd_init : initproc t' = initproc t
}.

#[export] Instance handed_preorder : PreOrder handed.
Proof. split; [by split|]. intros x y z [A1 A2 A3] [B1 B2 B3]. split; [intros i; eapply passes_trans; [apply A1|apply B1]|congruence..]. Qed.

Lemma woken_handed t t' : only_woken t t' -> handed t t'.
Proof. intros [H Hn Hi]. split; try done. intros i. destruct (H i) as [->|[Hs ->]]; [done|by apply passes_woken]. Qed.

Lemma set_ptab_self s : set_ptab (k_ptab s) s = s.
Proof. by destruct s. Qed.

Lemma wp_wakeup1_proc q s (Q : unit -> kstate -> Prop) :
  (forall t, handed (k_ptab s) t -> Q tt (set_ptab t s)) -> wp (wakeup1_proc q) s Q.
Proof.
  intros HQ. destruct q as [q|]; simpl.
  - apply (HQ (wake_tab (ChProc q) (k_ptab s))). apply woken_handed, only_woken_wake.
  - apply HQ. split; try done. intros i. simpl. destruct (_ && _) eqn:E; [|done]. apply passes_woken.
    apply andb_prop in E as [[_ E]%andb_prop _]. by apply bool_decide_eq_true in E.
Qed.

Lemma handed_parent t i r : handed t (with_procs (<[i := proc_parent r (procs t i)]> (procs t)) t).
Proof.
  split; try done. intros j. simpl. rewrite fn_insert_case. case_decide; [subst j|done]. exists r. by left.
Qed.

Lemma wp_reparent cur n : forall i s (Q : unit -> kstate -> Prop),
  (forall t, handed (k_ptab s) t -> Q tt (set_ptab t s)) -> wp (reparent n i cur) s Q.
Proof.
  induction n as [|n IH]; intros i s Q HQ; cbn [reparent].
  { apply wp_ret. rewrite <- (set_ptab_self s) at 1. by apply HQ. }
  apply wp_gets_bind. wpb. assert (Hgo : forall t, handed (k_ptab s) t -> wp (reparent n (S i) cur) (set_ptab t s) Q).
  { intros t Ht. apply IH. intros t' Ht'. apply (HQ t'). by etransitivity. }
  destruct (bool_decide _); simpl when; [|apply wp_ret; rewrite <- (set_ptab_self s) at 1; by apply Hgo].
  apply wp_gets_bind. wpb. rewrite wp_Done. do 2 eexists. split; [apply upd_proc_run|]. pose proof (handed_parent (k_ptab s) i (initproc (k_ptab s))) as Hp.
  destruct (bool_decide _); simpl when; [|apply wp_ret; by apply Hgo].
  apply wp_wakeup1_proc. intros t Ht. apply (Hgo t). by etransitivity.
Qed.

(** The process is off the CPU, a zombie for good. *)
Record gone (p : nat) (b s : kstate) : Prop := mkGone {
  gn_ok : stable_ok (k_stab s);
  gn_keep : others_keep p (k_stab b) (k_stab s);
  gn_pass : forall q, q <> p -> passes (proc_at b q) (proc_at s q);
  gn_cpu : on_cpu [LkPtable] (Some p) (k_core s);
  gn_zombie : p_state (proc_at s p) = ZOMBIE;
  gn_socks : forall i, (i < NSOCK)%nat -> owned_by p (socks (k_stab s) i) = false
}.

Lemma closes_none q t t' i : closes q t t' -> (i < NSOCK)%nat -> owned_by q (socks t' i) = false.
Proof. intros [_ H _] Hi. rewrite H by done. destruct (owned_by q (socks t i)) eqn:E; done. Qed.

Lemma exit_rest_sleeps p s : ready p s -> sleeps (exit_rest p s) (fun s' _ => gone p s s').
Proof.
  intros (Hok & Hc & Hr). unfold exit_rest. apply sleeps_bind_wp.
  eapply wp_mono; [|apply (closeprocsocks_spec p (Some p) []); try done; by apply not_elem_of_nil].
  intros _ s1 (H1 & H2 & H3 & _). apply sleeps_bind_wp. eapply wp_acquire; [exact H1|by apply not_elem_of_nil|]. intros c2 C2.
  apply sleeps_bind_wp. unfold wp at 1, gets. apply sleeps_bind_wp, wp_wakeup1_proc. intros t3 T3.
  apply sleeps_bind_wp, wp_reparent. intros t4 T4. apply sleeps_bind_wp. rewrite wp_Done. do 2 eexists. split; [apply upd_proc_run|].
  assert (Hh : handed (k_ptab s) t4) by (etransitivity; [by apply woken_handed|by etransitivity]).
  apply sleeps_bind. eapply sleeps_mono; [|apply (sched_sleeps p)]; [|exact C2|unfold proc_at; simpl; by rewrite fn_insert_eq].
  intros s5 k (c5 & -> & C5 & _). split; simpl.
  - apply H2.
  - by apply closes_keep.
  - intros q Hq. unfold proc_at. simpl. rewrite fn_insert_ne by done. apply Hh.
  - done.
  - unfold proc_at. simpl. by rewrite fn_insert_eq.
  - intros i Hi. by eapply closes_none.
Qed.
