(* ===== verification/SockSpec.v ===== *)
(** * What the socket operations do

    The table of sock.c as a finite map from ports to sockets, and for each
    operation its result and its effect on every branch: the error returns, the
    sleeps, the success. *)

From S2P Require Import Prelude CString KState Spinlock Proc Sock SockConc.

(** ** The table is a finite map from ports to sockets *)

Fixpoint port_map (t : stab) (n : nat) : gmap Z sock :=
  match n with
  | O => ∅
  | S k => if is_open (socks t k) then <[sk_lPort (socks t k) := socks t k]> (port_map t k)
           else port_map t k
  end.

(** The sockets by port, forgetting the slots they sit in. *)
Definition ports (t : stab) : gmap Z sock := port_map t NSOCK.

Lemma port_map_lookup t n port :
  stable_ok t -> (n <= NSOCK)%nat ->
  port_map t n !! port =
  socks t <$> find_idx (fun i => is_open (socks t i) && (sk_lPort (socks t i) =? port)) n.
Proof.
  intros Hok. induction n as [|n IH]; intros Hn; cbn [port_map]; [done|].
  destruct (find_idx _ (S n)) as [i|] eqn:E; simpl.
  - apply find_idx_Some in E as (Hi & HP & Hf).
    pose proof (andb_prop _ _ HP) as [Ho Hp]. apply Z.eqb_eq in Hp.
    destruct (Nat.eq_dec i n) as [->|Hne].
    + rewrite Ho, Hp. apply lookup_insert_eq.
    + assert (Hprev : find_idx (fun i => is_open (socks t i) && (sk_lPort (socks t i) =? port)) n = Some i)
        by (apply find_idx_Some; split_and!; [lia|done|done]).
      destruct (is_open (socks t n)) eqn:En; [|rewrite IH, Hprev by lia; done].
      rewrite lookup_insert_ne; [rewrite IH, Hprev by lia; done|]. intros Heq. apply Hne.
      apply (so_uniq _ Hok); try done; [lia|congruence].
  - pose proof (proj1 (find_idx_None _ _) E) as Hall.
    assert (Hprev : find_idx (fun i => is_open (socks t i) && (sk_lPort (socks t i) =? port)) n = None)
      by (apply find_idx_None; intros; apply Hall; lia).
    specialize (Hall n ltac:(lia)). cbv beta in Hall. destruct (is_open (socks t n)); simpl in Hall.
    + apply Z.eqb_neq in Hall. rewrite lookup_insert_ne by done. rewrite IH, Hprev by lia. done.
    + rewrite IH, Hprev by lia. done.
Qed.

Lemma ports_lookup t port :
  stable_ok t -> ports t !! port = socks t <$> find_port t port.
Proof.
  intros Hok. unfold ports. rewrite port_map_lookup by done. unfold find_port.
  destruct ((0 <=? port) && (port <? NPORT)) eqn:E; [done|].
  destruct (find_idx _ _) as [i|] eqn:F; [|done]. exfalso.
  apply find_idx_Some in F as (Hi & HP & _). apply andb_prop in HP as [Ho Hp].
  pose proof (so_port _ Hok i Hi Ho). unfold NPORT in *. lia.
Qed.

Lemma port_map_size t n :
  stable_ok t -> (n <= NSOCK)%nat ->
  Z.of_nat (size (port_map t n)) = count_idx (fun i => is_open (socks t i)) n.
Proof.
  intros Hok. induction n as [|n IH]; intros Hn; [done|].
  cbn [port_map count_idx]. specialize (IH ltac:(lia)).
  destruct (is_open (socks t n)) eqn:E.
  - rewrite map_size_insert_None; [change (count_idx _ (S n)) with
      (count_idx (fun i => is_open (socks t i)) n + (if is_open (socks t n) then 1 else 0)); rewrite E; lia|].
    rewrite port_map_lookup by (done || lia).
    destruct (find_idx _ _) as [i|] eqn:F; [|done]. exfalso.
    apply find_idx_Some in F as (Hi & HP & _). apply andb_prop in HP as [Ho Hp]. apply Z.eqb_eq in Hp.
    assert (i = n) by (apply (so_uniq _ Hok); done || lia). lia.
  - change (count_idx _ (S n)) with
      (count_idx (fun i => is_open (socks t i)) n + (if is_open (socks t n) then 1 else 0)).
    rewrite E. lia.
Qed.

Lemma ports_size t : stable_ok t -> Z.of_nat (size (ports t)) = countSock t.
Proof. intros Hok. unfold ports. rewrite port_map_size, so_count by done. done. Qed.

(** [find_port] and the entry it finds, in a table with entry [i] replaced. *)
Lemma ports_replace t i k cnt n port :
  stable_ok t -> stable_ok (mkStab (<[i := k]> (socks t)) cnt n) -> (i < NSOCK)%nat ->
  ports (mkStab (<[i := k]> (socks t)) cnt n) !! port =
  if is_open k && (sk_lPort k =? port) then Some k
  else if is_open (socks t i) && (sk_lPort (socks t i) =? port) then None
  else ports t !! port.
Proof.
  intros Hok Hok' Hi. rewrite !ports_lookup by done.
  set (t' := mkStab _ _ _) in *.
  assert (Hi' : socks t' i = k) by (simpl; apply fn_insert_eq).
  assert (Hne : forall j, j <> i -> socks t' j = socks t j) by (intros; simpl; by apply fn_insert_ne).
  destruct (is_open k && (sk_lPort k =? port)) eqn:E1.
  { apply andb_prop in E1 as [Ho Hp]. apply Z.eqb_eq in Hp.
    rewrite (proj2 (find_port_Some t' port i Hok')) by (by rewrite Hi'). simpl. by rewrite fn_insert_eq. }
  destruct (find_port t' port) as [j|] eqn:F'; simpl.
  - apply find_port_Some in F' as (Hj & Hoj & Hpj); [|done].
    assert (Hji : j <> i).
    { intros ->. rewrite Hi' in *. rewrite Hoj, Hpj, Z.eqb_refl in E1. done. }
    rewrite fn_insert_ne by done. rewrite Hne in * by done.
    rewrite (proj2 (find_port_Some t port j Hok)) by done. simpl.
    destruct (is_open (socks t i) && (sk_lPort (socks t i) =? port)) eqn:E2; [|done].
    apply andb_prop in E2 as [Ho2 Hp2]. apply Z.eqb_eq in Hp2. exfalso. apply Hji.
    apply (so_uniq _ Hok); done || congruence.
  - destruct (is_open (socks t i) && (sk_lPort (socks t i) =? port)) eqn:E2; [done|].
    destruct (find_port t port) as [j|] eqn:F; [|done]. exfalso.
    apply find_port_Some in F as (Hj & Hoj & Hpj); [|done].
    assert (Hji : j <> i) by (intros ->; rewrite Hoj, Hpj, Z.eqb_refl in E2; done).
    rewrite (proj2 (find_port_Some t' port j Hok')) in F'; [done|]. by rewrite Hne.
Qed.

Lemma ports_alloc t i p lport :
  stable_ok t -> alloc_slot t lport = Some i ->
  ports (st_alloc i (Some p) lport t) =
  <[lport := fresh_sock (nextsid t) (Some p) lport (sk_recvbuffer (socks t i))]> (ports t).
Proof.
  intros Hok Ha. pose proof (ok_alloc t i p lport Hok Ha) as Hok'.
  destruct (alloc_slot_Some _ _ _ Ha) as (Hi & Hc & Hp & Hf).
  apply map_eq. intros port. unfold st_alloc in *. rewrite ports_replace by done.
  rewrite Hc. simpl. rewrite lookup_insert. destruct (Z.eqb_spec lport port).
  - by rewrite decide_True.
  - by rewrite decide_False.
Qed.

Lemma ports_remove t i :
  stable_ok t -> (i < NSOCK)%nat -> is_open (socks t i) = true ->
  ports (st_remove i t) = delete (sk_lPort (socks t i)) (ports t).
Proof.
  intros Hok Hi Ho. pose proof (ok_remove t i Hok Hi Ho) as Hok'.
  apply map_eq. intros port. unfold st_remove in *. rewrite ports_replace by done.
  rewrite Ho. simpl. rewrite lookup_delete. destruct (Z.eqb_spec (sk_lPort (socks t i)) port).
  - by rewrite decide_True.
  - by rewrite decide_False.
Qed.

Lemma find_closed_None t :
  stable_ok t -> find_closed t = None <-> countSock t = Z.of_nat NSOCK.
Proof.
  intros Hok. rewrite (so_count _ Hok). unfold find_closed.
  rewrite find_idx_None, count_idx_full. unfold is_open.
  split; intros H k Hk; specialize (H k Hk); by destruct (bool_decide _).
Qed.

Lemma alloc_slot_None t lport :
  stable_ok t ->
  alloc_slot t lport = None <->
  inv_port lport = true \/ is_Some (ports t !! lport) \/ size (ports t) = NSOCK.
Proof.
  intros Hok. unfold alloc_slot. rewrite ports_lookup by done.
  pose proof (find_closed_None t Hok) as Hc. pose proof (ports_size t Hok) as Hs.
  destruct (inv_port lport); [split; [by left|done]|].
  destruct (find_port t lport); simpl; [split; [by right; left|done]|].
  rewrite Hc. split.
  - intros H. right. right. lia.
  - intros [?|[[? ?]|?]]; [done|done|lia].
Qed.

(** The slot table of sock.c implements a finite map from ports to sockets
    with room for 32: [getsock] is lookup; [allocsock] adds an OPENED socket of
    the caller at a port that was free and fails exactly when the port is not a
    port, is taken, or 32 sockets are open; [removesock] deletes; and
    [countSock] is the size of the map. *)
Theorem table_refines_ports (L : list lockid) (p : nat) (s : kstate) :
  on_cpu L (Some p) (k_core s) -> LkPtable ∉ L -> stable_ok (k_stab s) ->
  (forall port, wp (getsock port) s (fun r s' =>
     s' = s /\ socks (k_stab s) <$> r = ports (k_stab s) !! port)) /\
  (forall lport, wp (allocsock lport) s (fun r s' => stable_ok (k_stab s') /\
     match r with
     | None => k_stab s' = k_stab s /\
         (inv_port lport = true \/ is_Some (ports (k_stab s) !! lport) \/
          size (ports (k_stab s)) = NSOCK)
     | Some i => inv_port lport = false /\ ports (k_stab s) !! lport = None /\
         exists k, socks (k_stab s') i = k /\ sk_owner k = Some p /\ sk_state k = OPENED /\
           sk_lPort k = lport /\ ports (k_stab s') = <[lport := k]> (ports (k_stab s))
     end)) /\
  (forall i, (i < NSOCK)%nat -> is_open (sock_at s i) = true ->
     wp (removesock (Some i)) s (fun r s' => r = true /\ stable_ok (k_stab s') /\
       ports (k_stab s') = delete (sk_lPort (sock_at s i)) (ports (k_stab s)))) /\
  countSock (k_stab s) = Z.of_nat (size (ports (k_stab s))).
Proof.
  intros Hc Hni Hok. split_and!.
  - intros port. unfold wp. simpl. split; [done|]. by rewrite ports_lookup.
  - intros lport. eapply wp_allocsock; [exact Hc|].
    destruct (alloc_slot (k_stab s) lport) as [i|] eqn:Ha.
    + intros c Hc'. destruct (alloc_slot_Some _ _ _ Ha) as (Hi & Hcl & Hp & Hf). simpl.
      rewrite fn_insert_eq. split_and!; [by apply ok_alloc|done|by rewrite ports_lookup, Hf|].
      eexists. split_and!; [done..|]. by apply ports_alloc.
    + split_and!; [done..|]. by apply alloc_slot_None.
  - intros i Hi Ho. eapply wp_removesock; [exact Hc|done|]. intros c Hc'. simpl.
    split_and!; [done|by apply ok_remove|by apply ports_remove].
  - by rewrite ports_size.
Qed.

Lemma table_refines_ports_witness :
  wp (allocsock 7) (start (Some 0%nat) (fun _ => zero_proc) empty_stab) (fun r s' =>
    r = Some 0%nat /\ is_Some (ports (k_stab s') !! 7)).
Proof.
  pose proof (table_refines_ports [] 0 (start (Some 0%nat) (fun _ => zero_proc) empty_stab)
    (one_cpu_on _) ltac:(by apply not_elem_of_nil) empty_stab_ok) as (_ & Ha & _).
  specialize (Ha 7). apply wp_Done in Ha as (r & s' & Hrun & _ & Hr). rewrite wp_Done.
  exists r, s'. split; [done|].
  assert (Hr0 : r = Some 0%nat).
  { assert (H : allocsock 7 (start (Some 0%nat) (fun _ => zero_proc) empty_stab) = Done r s') by done.
    vm_compute in H. congruence. }
  split; [done|]. subst r. destruct Hr as (_ & _ & k & _ & _ & _ & _ & ->).
  rewrite lookup_insert_eq. done.
Defined.
