(* ===== verification/SockApi.v ===== *)
(** * The socket API, abstractly, and that sock.c implements it

    The network a process sees is a finite map from ports to endpoints: who
    owns it, its state, the peer's port, and the message waiting in it.  The
    slots of the table, their receive buffers, the locks and the wakeups are
    gone.  For each operation of sock.c an abstract operation says what it
    returns, or on what it waits, and the network it leaves; the theorems say
    that the operation does exactly that. *)

From S2P Require Import Prelude CString KState Spinlock Proc Sock SockConc SockSpec.

(** ** The abstract network *)

Record endpoint : Type := mkEnd {
  e_owner : option nat;
  e_state : sockstate;
  e_peer : Z;
  e_msg : option (list Z)
}.

Abbreviation net := (gmap Z endpoint).

Definition endpoint_of (k : sock) : endpoint :=
  mkEnd (sk_owner k) (sk_state k) (sk_rPort k)
    (if sk_hasfullbuffer k then Some (cstring (Z.to_nat SBUFFSIZE) (sk_recvbuffer k) 0) else None).

Definition abs (t : stab) : net := endpoint_of <$> ports t.

(** What an operation does: return a code, or wait at the endpoint of a port. *)
Inductive answer : Type :=
| Return (code : Z) (m : net)
| Wait (port : Z) (m : net).

Definition api_listen (p : nat) (lport : Z) (m : net) : answer :=
  if inv_port lport then Return E_INVALID_ARG m
  else if bool_decide (size m = NSOCK) then Return E_FAIL m
  else match m !! lport with
       | Some _ => Return E_ACCESS_DENIED m
       | None => Wait lport (<[lport := mkEnd (Some p) LISTENING INV_PORT None]> m)
       end.

(** The highest free port from [n] down to 1. *)
Fixpoint api_free_port (m : net) (n : nat) : Z :=
  match n with
  | O => INV_PORT
  | S k => match m !! Z.of_nat n with
           | None => Z.of_nat n
           | Some _ => api_free_port m k
           end
  end.

Definition api_connect (p : nat) (rport : Z) (host_ok : bool) (m : net) : answer :=
  if inv_port rport then Return E_INVALID_ARG m
  else if negb host_ok then Return E_INVALID_ARG m
  else match m !! rport with
       | None => Return E_NOTFOUND m
       | Some e =>
           if negb (bool_decide (e_state e = LISTENING)) then Return E_WRONG_STATE m
           else if bool_decide (size m = NSOCK) then Return E_FAIL m
           else
             let lport := api_free_port m 127 in
             Return lport
               (<[rport := mkEnd (e_owner e) CONNECTED lport None]>
                 (<[lport := mkEnd (Some p) CONNECTED rport None]> m))
       end.

(** The peer's port of the connection of [p] at [lport], or why there is none. *)
Definition api_peer (p : nat) (lport : Z) (m : net) : Z + Z :=
  match m !! lport with
  | None => inl E_NOTFOUND
  | Some e =>
      if negb (bool_decide (e_owner e = Some p)) then inl E_ACCESS_DENIED
      else if negb (bool_decide (e_state e = CONNECTED)) then inl E_WRONG_STATE
      else match m !! e_peer e with
           | None => inl E_NOTFOUND
           | Some e' =>
               if negb (bool_decide (e_state e' = CONNECTED)) then inl E_WRONG_STATE
               else inr (e_peer e)
           end
  end.

Definition put_msg (o : option (list Z)) (e : endpoint) : endpoint :=
  mkEnd (e_owner e) (e_state e) (e_peer e) o.

Definition has_msg (m : net) (port : Z) : bool :=
  match m !! port with Some (mkEnd _ _ _ (Some _)) => true | _ => false end.


(** [recv] waits at the peer's endpoint. *)
Definition api_recv (p : nat) (lport : Z) (m : net) : answer :=
  if inv_port lport then Return E_INVALID_ARG m
  else match api_peer p lport m with
       | inl code => Return code m
       | inr rport =>
           if has_msg m lport then Return 0 (alter (put_msg None) lport m)
           else Wait rport m
       end.

Definition api_disconnect (p : nat) (lport : Z) (m : net) : answer :=
  if inv_port lport then Return E_INVALID_ARG m
  else match m !! lport with
       | None => Return E_NOTFOUND m
       | Some e =>
           if bool_decide (e_owner e = Some p) then Return 0 (delete lport m)
           else Return E_ACCESS_DENIED m
       end.

(** ** The abstraction of a table and its changes *)

Lemma abs_lookup t port :
  stable_ok t -> abs t !! port = endpoint_of ∘ socks t <$> find_port t port.
Proof.
  intros Hok. unfold abs. rewrite lookup_fmap, ports_lookup by done. by destruct (find_port t port).
Qed.

Lemma abs_size t : stable_ok t -> size (abs t) = size (ports t).
Proof. intros _. apply map_size_fmap. Qed.

Lemma abs_full t : stable_ok t -> size (abs t) = NSOCK <-> countSock t = Z.of_nat NSOCK.
Proof. intros Hok. rewrite abs_size, <- ports_size by done. lia. Qed.

Lemma abs_alloc t i p lport :
  stable_ok t -> alloc_slot t lport = Some i ->
  abs (st_alloc i (Some p) lport t) = <[lport := mkEnd (Some p) OPENED INV_PORT None]> (abs t).
Proof. intros Hok Ha. unfold abs. by rewrite ports_alloc, fmap_insert by done. Qed.

Lemma abs_remove t i :
  stable_ok t -> (i < NSOCK)%nat -> is_open (socks t i) = true ->
  abs (st_remove i t) = delete (sk_lPort (socks t i)) (abs t).
Proof. intros Hok Hi Ho. unfold abs. by rewrite ports_remove, fmap_delete by done. Qed.

Lemma abs_put t i k :
  stable_ok t -> stable_ok (st_put i k t) -> (i < NSOCK)%nat -> is_open (socks t i) = true ->
  is_open k = true -> sk_lPort k = sk_lPort (socks t i) ->
  abs (st_put i k t) = <[sk_lPort k := endpoint_of k]> (abs t).
Proof.
  intros Hok Hok' Hi Ho Hk Hl. unfold abs. rewrite <- fmap_insert. f_equal.
  apply map_eq. intros port. unfold st_put in *. rewrite ports_replace by done.
  rewrite Hk, Ho, <- Hl. simpl. rewrite lookup_insert. destruct (Z.eqb_spec (sk_lPort k) port).
  - by rewrite decide_True.
  - by rewrite decide_False.
Qed.

Lemma abs_same_table t t' : stable_ok t -> same_table t t' -> abs t = abs t'.
Proof.
  intros Hok Hs.
  assert (Hok' : stable_ok t').
  { eapply stable_ok_ext; [|exact Hok]. destruct Hs as (H1 & H2 & H3). by split_and!. }
  apply map_eq. intros port. rewrite !abs_lookup by done. destruct Hs as (He & _).
  unfold find_port. destruct (_ && _); [|done].
  rewrite (find_idx_ext _ (fun i => is_open (socks t' i) && (sk_lPort (socks t' i) =? port)))
    by (intros; by rewrite He).
  destruct (find_idx _ _); [simpl; by rewrite He|done].
Qed.

Lemma free_port_abs t : stable_ok t -> free_port t = api_free_port (abs t) 127.
Proof.
  intros Hok. unfold free_port. change (Z.to_nat (NPORT - 1)) with 127%nat.
  generalize 127%nat. intros n. induction n as [|n IH]; cbn [free_port_from api_free_port]; [done|].
  rewrite abs_lookup by done. by destruct (find_port t (Z.of_nat (S n))).
Qed.

#[global] Arguments api_free_port : simpl never.

(** ** Points of an operation
    
    [point p L b t s]: process [p] runs in [s] holding the locks [L], the table
    is [t], and no user memory changed since [b]. *)

Definition users_same (s s' : kstate) : Prop :=
  forall q, user_same (proc_at s q) (proc_at s' q).

Lemma users_same_trans s1 s2 s3 : users_same s1 s2 -> users_same s2 s3 -> users_same s1 s3.
Proof.
  intros H1 H2 q. destruct (H1 q) as [A B], (H2 q) as [C D]. split; congruence.
Qed.

#[export] Instance users_same_preorder : PreOrder users_same.
Proof. split; [by intros s q|exact users_same_trans]. Qed.

Record point (p : nat) (L : list lockid) (b : kstate) (t : stab) (s : kstate) : Prop := mkPoint {
  pt_tab : k_stab s = t;
  pt_ok : stable_ok t;
  pt_cpu : on_cpu L (Some p) (k_core s);
  pt_run : p_state (proc_at s p) = RUNNING;
  pt_user : users_same b s
}.

Section points.
Context (p : nat) (b : kstate).

Lemma point_start s : ready p s -> point p [] s (k_stab s) s.
Proof. intros (Hok & Hc & Hr). by split. Qed.

Lemma point_core L L' t s c : point p L b t s -> on_cpu L' (Some p) c -> point p L' b t (set_core c s).
Proof. intros [] Hc. by split. Qed.

Lemma point_acquire t s (Q : unit -> kstate -> Prop) :
  point p [] b t s -> (forall s', point p [LkStable] b t s' -> proc_at s' p = proc_at s p -> Q tt s') ->
  wp (acquire LkStable) s Q.
Proof.
  intros Hp HQ. eapply wp_acquire; [apply Hp|by apply not_elem_of_nil|]. intros c Hc.
  apply HQ; [|done]. by eapply point_core.
Qed.

Lemma point_ret t s code (Q : Z -> kstate -> Prop) :
  point p [LkStable] b t s -> (forall s', point p [] b t s' -> proc_at s' p = proc_at s p -> Q code s') ->
  wp (retsockfunc code) s Q.
Proof.
  intros Hp HQ. eapply wp_retsockfunc; [apply Hp|]. intros c Hc. apply HQ; [|done].
  by eapply point_core.
Qed.

Lemma point_myproc L t s (Q : option nat -> kstate -> Prop) :
  point p L b t s -> (forall s', point p L b t s' -> Q (Some p) s') -> wp myproc s Q.
Proof.
  intros Hp HQ. eapply wp_myproc; [apply Hp|]. intros c Hc. apply HQ. by eapply point_core.
Qed.

Lemma point_wake L t s ch :
  point p L b t s -> point p L b t (set_ptab (wake_tab ch (k_ptab s)) s) /\
    proc_at (set_ptab (wake_tab ch (k_ptab s)) s) p = proc_at s p.
Proof.
  intros [Ht Hok Hc Hr Hu].
  assert (Hp : proc_at (set_ptab (wake_tab ch (k_ptab s)) s) p = proc_at s p).
  { unfold proc_at in *. simpl. destruct (p <? NPROC)%nat; [|done].
    unfold wake_proc. by rewrite Hr, bool_decide_false. }
  split; [|done]. split; try done; [by rewrite Hp|]. etransitivity; [exact Hu|].
  intros q. unfold proc_at. simpl. destruct (q <? NPROC)%nat; [|done].
  unfold wake_proc. by destruct (_ && _).
Qed.

Lemma point_wakeup t s ch (Q : unit -> kstate -> Prop) :
  point p [LkStable] b t s ->
  (forall s', point p [LkStable] b t s' -> proc_at s' p = proc_at s p -> Q tt s') ->
  wp (wakeup ch) s Q.
Proof.
  intros Hp HQ. eapply wp_wakeup; [apply Hp|apply stable_not_ptable|]. intros c Hc.
  destruct (point_wake _ _ _ ch Hp) as [H1 H2]. apply HQ; [|exact H2]. by eapply point_core.
Qed.

Lemma point_stab L t t' s : point p L b t s -> stable_ok t' -> point p L b t' (set_stab t' s).
Proof. intros [] Hok. by split. Qed.

Lemma point_upd L t s i f (Q : unit -> kstate -> Prop) :
  point p L b t s -> stable_ok (st_put i (f (socks t i)) t) ->
  (forall s', point p L b (st_put i (f (socks t i)) t) s' -> k_ptab s' = k_ptab s -> Q tt s') ->
  wp (upd_sock i f) s Q.
Proof.
  intros Hp Hok HQ. rewrite wp_Done. do 2 eexists. split; [apply upd_sock_run|].
  apply HQ; [|done]. unfold sock_at. rewrite (pt_tab _ _ _ _ _ Hp). by eapply point_stab.
Qed.

Lemma point_alloc t s lport (Q : option nat -> kstate -> Prop) :
  point p [LkStable] b t s ->
  match alloc_slot t lport with
  | None => Q None s
  | Some i => forall s', point p [LkStable] b (st_alloc i (Some p) lport t) s' -> Q (Some i) s'
  end ->
  wp (allocsock lport) s Q.
Proof.
  intros Hp HQ. eapply wp_allocsock; [apply Hp|]. rewrite (pt_tab _ _ _ _ _ Hp).
  destruct (alloc_slot t lport) as [i|] eqn:Ha; [|done]. intros c Hc. apply HQ.
  apply (point_core [LkStable] _ _ (set_stab (st_alloc i (Some p) lport t) s)); [|done].
  eapply point_stab; [exact Hp|]. apply ok_alloc; [apply Hp|done].
Qed.

Lemma point_remove t s i (Q : bool -> kstate -> Prop) :
  point p [LkStable] b t s -> (i < NSOCK)%nat -> is_open (socks t i) = true ->
  (forall s', point p [LkStable] b (st_remove i t) s' -> Q true s') ->
  wp (removesock (Some i)) s Q.
Proof.
  intros Hp Hi Ho HQ. eapply wp_removesock; [apply Hp|apply stable_not_ptable|]. intros c Hc.
  apply HQ. eapply point_core; [|done]. rewrite (pt_tab _ _ _ _ _ Hp).
  eapply point_stab; [by apply point_wake|]. apply ok_remove; [apply Hp|done|done].
Qed.

Lemma point_pair t s lport (Q : Z + nat * nat -> kstate -> Prop) :
  point p [LkStable] b t s ->
  (forall s', point p [LkStable] b t s' -> proc_at s' p = proc_at s p -> Q (pair_of t (Some p) lport) s') ->
  wp (connected_pair lport) s Q.
Proof.
  intros Hp HQ. eapply wp_connected_pair; [apply Hp|]. intros c Hc. rewrite (pt_tab _ _ _ _ _ Hp).
  apply HQ; [|done]. by eapply point_core.
Qed.

(** The first computation of a bind reads the table. *)
Lemma point_gets {A B} L t s (f : kstate -> A) (k : A -> K B) (Q : B -> kstate -> Prop) :
  point p L b t s -> wp (k (f s)) s Q -> wp (gets f ≫= k) s Q.
Proof. done. Qed.
End points.

(** Process [p] sleeps on the socket at [port], holding no lock but
    ptable.lock, which the scheduler takes over. *)
Definition asleep_at (p : nat) (port : Z) (s : kstate) : Prop :=
  exists i, find_port (k_stab s) port = Some i /\
    p_state (proc_at s p) = SLEEPING /\ p_chan (proc_at s p) = Some (ChSock i) /\
    on_cpu [LkPtable] (Some p) (k_core s).

Lemma point_sleep p b t s i port :
  point p [LkStable] b t s -> find_port t port = Some i ->
  sleeps (sleep (ChSock i) LkStable s) (fun s1 k =>
    k_stab s1 = t /\ asleep_at p port s1 /\ users_same b s1 /\
    forall s', rely p s1 s' -> wp k s' (fun _ s2 => point p [LkStable] s' (k_stab s') s2)).
Proof.
  intros [Ht Hok Hc Hr Hu] Hf. eapply sleeps_mono; [|by apply (sleep_sleeps p)].
  intros s1 k (c & -> & Hc1 & Hk). unfold asleep_at, proc_at. simpl. rewrite fn_insert_eq.
  split_and!; [done| | |].
  - exists i. by rewrite Ht.
  - etransitivity; [exact Hu|]. intros q. unfold proc_at. simpl. rewrite fn_insert_case.
    case_decide; [by subst|done].
  - intros s' [Rok Rk Rc Rr Ru]. eapply wp_mono; [|by apply Hk]. intros _ s2 (c2 & -> & Hc2).
    split; try done.
    + unfold proc_at. simpl. by rewrite fn_insert_eq.
    + intros q. unfold proc_at. simpl. rewrite fn_insert_case. case_decide; [by subst|done].
Qed.

(** ** The operations implement the API *)

(** [m], run by [p] in [s], returns [code] and leaves the network [n]. *)
Definition returns (p : nat) (m : K Z) (s : kstate) (code : Z) (n : net) : Prop :=
  wp m s (fun r s' => r = code /\ abs (k_stab s') = n /\ ready p s' /\ users_same s s').

(** [m] puts [p] to sleep at [port], leaving the network [n]; run again in any
    state [s'] the others may leave, the rest of [m] does [after s']. *)
Definition waits (p : nat) (m : K Z) (s : kstate) (port : Z) (n : net)
    (after : kstate -> K Z -> Prop) : Prop :=
  sleeps (m s) (fun s1 k => abs (k_stab s1) = n /\ asleep_at p port s1 /\ users_same s s1 /\
    forall s', rely p s1 s' -> after s' k).

Section api.
Context (p : nat).

Lemma returns_point s t (code : Z) n :
  abs t = n -> forall s', point p [] s t s' -> code = code /\ abs (k_stab s') = n /\ ready p s' /\ users_same s s'.
Proof.
  intros <- s' [Ht Hok Hc Hr Hu]. rewrite Ht. split_and!; try done.
  unfold ready. by rewrite Ht.
Qed.

Lemma ret_returns s t s' (code : Z) n :
  abs t = n -> point p [LkStable] s t s' ->
  wp (retsockfunc code) s' (fun r s' => r = code /\ abs (k_stab s') = n /\ ready p s' /\ users_same s s').
Proof.
  intros Hn Hp. eapply point_ret; [exact Hp|]. intros s2 H2 _. by eapply returns_point.
Qed.

Lemma returns_now s code : ready p s -> returns p (mret code) s code (abs (k_stab s)).
Proof. intros Hr. apply wp_ret. by split_and!. Qed.
End api.

(** The table [listen] leaves when it sleeps. *)
Definition st_listen (i p : nat) (lport : Z) (t : stab) : stab :=
  st_put i (sock_state LISTENING (socks (st_alloc i (Some p) lport t) i)) (st_alloc i (Some p) lport t).

Lemma listen_table t i p lport :
  stable_ok t -> alloc_slot t lport = Some i ->
  stable_ok (st_listen i p lport t) /\ find_port (st_listen i p lport t) lport = Some i /\
  abs (st_listen i p lport t) = <[lport := mkEnd (Some p) LISTENING INV_PORT None]> (abs t).
Proof.
  intros Hok Ha. destruct (alloc_slot_Some _ _ _ Ha) as (Hi & Hcl & _).
  pose proof (ok_alloc t i p lport Hok Ha) as Hok2. unfold st_listen.
  set (t2 := st_alloc i (Some p) lport t) in *.
  assert (Ho : socks t2 i = fresh_sock (nextsid t) (Some p) lport (sk_recvbuffer (socks t i)))
    by (simpl; by rewrite fn_insert_eq).
  assert (Hok3 : stable_ok (st_put i (sock_state LISTENING (socks t2 i)) t2)).
  { apply ok_put; try done; [by apply Hok2|by rewrite Ho]. }
  split_and!; [done| |].
  - apply find_port_Some; [done|]. simpl. rewrite !fn_insert_eq. by split_and!.
  - rewrite abs_put by (try done; by rewrite Ho). rewrite Ho. simpl. unfold t2.
    rewrite abs_alloc by done. apply insert_insert_eq.
Qed.

(** [listen] implements [api_listen]: an invalid port, a full table and a
    port in use are errors that change nothing; otherwise the port is opened for
    the caller, which sleeps at it with stable.lock released, and [listen]
    returns 0 when it runs again, whatever happened meanwhile. *)
Theorem listen_implements (p : nat) (lport : Z) (s : kstate) :
  ready p s ->
  match api_listen p lport (abs (k_stab s)) with
  | Return code n => returns p (listen lport) s code n
  | Wait port n => waits p (listen lport) s port n (fun s' k => returns p k s' 0 (abs (k_stab s')))
  end.
Proof.
  intros Hr. pose proof (point_start p s Hr) as Hs. set (t := k_stab s) in *.
  assert (Hok : stable_ok t) by apply Hr. pose proof (abs_full t Hok) as Hfull.
  unfold api_listen, listen. destruct (inv_port lport) eqn:Hp; [by apply returns_now|].
  destruct (decide (size (abs t) = NSOCK)) as [Hsz|Hsz].
  { rewrite bool_decide_true by done. unfold returns. apply wp_bind. eapply point_acquire; [exact Hs|].
    intros s1 H1 _. eapply point_gets; [exact H1|]. rewrite (pt_tab _ _ _ _ _ H1), (proj1 Hfull Hsz).
    rewrite Z.eqb_refl. by eapply ret_returns. }
  rewrite bool_decide_false by done.
  assert (Hcnt : (countSock t =? Z.of_nat NSOCK) = false) by (apply Z.eqb_neq; by rewrite <- Hfull).
  destruct (abs t !! lport) as [e|] eqn:He.
  - unfold returns. apply wp_bind. eapply point_acquire; [exact Hs|]. intros s1 H1 _.
    eapply point_gets; [exact H1|]. rewrite (pt_tab _ _ _ _ _ H1), Hcnt.
    apply wp_bind. eapply point_alloc; [exact H1|].
    rewrite (proj2 (alloc_slot_None t lport Hok)); [by eapply ret_returns|].
    right. left. unfold abs in He. rewrite lookup_fmap in He. by destruct (ports t !! lport).
  - unfold waits. apply sleeps_bind_wp. eapply point_acquire; [exact Hs|]. intros s1 H1 _.
    apply sleeps_bind_wp. unfold wp at 1, gets. rewrite (pt_tab _ _ _ _ _ H1), Hcnt.
    apply sleeps_bind_wp. eapply point_alloc; [exact H1|].
    destruct (alloc_slot t lport) as [i|] eqn:Ha.
    2: { apply alloc_slot_None in Ha as [?|[Hx|?]]; [congruence| |by rewrite abs_size in Hsz|done].
         exfalso. unfold abs in He. rewrite lookup_fmap in He. destruct Hx as [x Hx]. by rewrite Hx in He. }
    intros s2 H2. destruct (listen_table t i p lport Hok Ha) as (Hok3 & Hf3 & Habs).
    apply sleeps_bind_wp. eapply point_upd; [exact H2|exact Hok3|]. intros s3 H3 _.
    apply sleeps_bind. eapply sleeps_mono; [|eapply (point_sleep p); [exact H3|exact Hf3]].
    intros s4 k (Ht4 & Has & Hu & Hk). rewrite Ht4. split_and!; try done.
    intros s' Hrel. unfold returns. apply wp_bind. eapply wp_mono; [|by apply Hk].
    intros a s5 H5. eapply ret_returns; [reflexivity|exact H5].
Qed.

(** Whether [connect] takes the string at [host] for a name of this machine. *)
Definition local_host (q : proc) (host : Z) : bool :=
  match strlen (Z.to_nat (mapped_end q - host)) (p_umem q) host with
  | Some n => (strncmp (p_umem q) host (cstr "localhost") 0 n =? 0) ||
              (strncmp (p_umem q) host (cstr "127.0.0.1") 0 n =? 0)
  | None => false
  end.

(** The table [connect] leaves. *)
Lemma connect_table t l r p rport lport t' :
  stable_ok t -> alloc_slot t lport = Some l -> find_port t rport = Some r ->
  same_table t' (st_connect l r (st_alloc l (Some p) lport t)) ->
  stable_ok t' /\
  abs t' = <[rport := mkEnd (sk_owner (socks t r)) CONNECTED lport None]>
             (<[lport := mkEnd (Some p) CONNECTED rport None]> (abs t)).
Proof.
  intros Hok Ha Hf Hs. destruct (alloc_slot_Some _ _ _ Ha) as (Hl & Hcl & _ & _).
  apply find_port_Some in Hf as (Hr & Hor & Hpr); [|done].
  pose proof (ok_alloc t l p lport Hok Ha) as Hok1. pose proof (abs_alloc t l p lport Hok Ha) as Habs1.
  set (t1 := st_alloc l (Some p) lport t) in *. assert (Hne : l <> r) by congruence.
  assert (Hl1 : socks t1 l = fresh_sock (nextsid t) (Some p) lport (sk_recvbuffer (socks t l)))
    by (simpl; by rewrite fn_insert_eq).
  assert (Hr1 : socks t1 r = socks t r) by (simpl; by rewrite fn_insert_ne).
  assert (Hok3 : stable_ok (st_connect l r t1)) by (apply ok_connect; rewrite ?Hl1, ?Hr1; done).
  assert (Hok' : stable_ok t') by (by eapply stable_ok_ext).
  split; [done|]. rewrite (abs_same_table _ _ Hok' Hs). unfold st_connect in *.
  set (t2 := st_put l _ t1) in *.
  assert (Hok2 : stable_ok t2) by (apply ok_put; try done; [by apply Hok1|by rewrite Hl1]).
  assert (Hr2 : socks t2 r = socks t r) by (simpl; by rewrite !fn_insert_ne).
  rewrite abs_put by (exact Hok3 || (rewrite ?Hr2; done) || (rewrite ?Hr1, ?Hr2; done)).
  unfold t2. rewrite abs_put by (exact Hok2 || (rewrite ?Hl1; done)).
  rewrite Habs1, Hr1, Hl1. unfold endpoint_of. simpl. rewrite insert_insert_eq, Hpr. done.
Qed.

Lemma connect_locked_returns p b s rport :
  point p [LkStable] b (k_stab b) s -> inv_port rport = false ->
  match api_connect p rport true (abs (k_stab b)) with
  | Return code n => wp (connect_locked rport) s (fun r s' =>
      r = code /\ abs (k_stab s') = n /\ ready p s' /\ users_same b s')
  | Wait _ _ => False
  end.
Proof.
  intros Hs Hp. set (t := k_stab b) in *. assert (Hok : stable_ok t) by apply Hs.
  unfold api_connect, connect_locked. rewrite Hp. simpl negb. cbv iota.
  assert (Hgo : forall code n, wp (match find_port t rport with
      | None => retsockfunc E_NOTFOUND
      | Some r => rstate ← gets (fun s => sk_state (sock_at s r));
          if negb (bool_decide (rstate = LISTENING)) then retsockfunc E_WRONG_STATE
          else local ← allocsock (free_port t);
            match local with
            | None => retsockfunc E_FAIL
            | Some l => link_pair l r;; wakeup (ChSock r);; retsockfunc (free_port t)
            end
      end) s (fun r s' => r = code /\ abs (k_stab s') = n /\ ready p s' /\ users_same b s') ->
    wp (connect_locked rport) s (fun r s' =>
      r = code /\ abs (k_stab s') = n /\ ready p s' /\ users_same b s')).
  { intros code n H. unfold connect_locked. wp_step. wp_step. rewrite (pt_tab _ _ _ _ _ Hs).
    destruct (free_port_spec t Hok) as (Hr & _ & _).
    destruct (Z.eqb_spec (free_port t) INV_PORT); [unfold INV_PORT in *; lia|exact H]. }
  rewrite abs_lookup by done. destruct (find_port t rport) as [r|] eqn:Hf; simpl.
  2: { apply Hgo. by eapply ret_returns. }
  destruct (decide (sk_state (socks t r) = LISTENING)) as [Hls|Hls].
  2: { rewrite bool_decide_false by done. apply Hgo. wp_step. unfold sock_at.
       rewrite (pt_tab _ _ _ _ _ Hs), bool_decide_false by done. by eapply ret_returns. }
  rewrite bool_decide_true by done. simpl.
  pose proof (alloc_slot_None t (free_port t) Hok) as Hnone.
  destruct (free_port_spec t Hok) as (Hrange & Hfree & _).
  destruct (decide (size (abs t) = NSOCK)) as [Hsz|Hsz].
  - rewrite bool_decide_true by done. apply Hgo. wp_step. unfold sock_at.
    rewrite (pt_tab _ _ _ _ _ Hs), bool_decide_true by done. apply wp_bind.
    eapply point_alloc; [exact Hs|]. rewrite (proj2 Hnone); [by eapply ret_returns|].
    right. right. by rewrite <- abs_size.
  - rewrite bool_decide_false by done. apply Hgo. wp_step. unfold sock_at.
    rewrite (pt_tab _ _ _ _ _ Hs), bool_decide_true by done. apply wp_bind.
    eapply point_alloc; [exact Hs|]. destruct (alloc_slot t (free_port t)) as [l|] eqn:Ha.
    2: { exfalso. destruct (proj1 Hnone eq_refl) as [Hi|[Hx|Hx]].
         - unfold inv_port, NPORT in *. lia.
         - rewrite ports_lookup, Hfree in Hx by done. by destruct Hx.
         - by rewrite abs_size in Hsz. }
    intros s1 H1. destruct (alloc_slot_Some _ _ _ Ha) as (_ & Hcl & _).
    assert (Hne : l <> r).
    { intros ->. apply find_port_Some in Hf as (_ & Ho & _); [congruence|done]. }
    destruct (link_pair_run l r s1 Hne) as (t' & Hrun & Hst). rewrite (pt_tab _ _ _ _ _ H1) in Hst.
    destruct (connect_table t l r p rport (free_port t) t' Hok Ha Hf Hst) as [Hok' Habs].
    apply wp_bind. rewrite wp_Done. do 2 eexists. split; [exact Hrun|].
    apply wp_bind. eapply point_wakeup; [eapply point_stab; [exact H1|exact Hok']|].
    intros s2 H2 _. rewrite <- free_port_abs by done. by eapply ret_returns.
Qed.

(** [connect] implements [api_connect], with the code's own test of the host. *)
Lemma connect_api (p : nat) (rport host : Z) (s : kstate) :
  ready p s -> user_string (proc_at s p) host ->
  match api_connect p rport (local_host (proc_at s p) host) (abs (k_stab s)) with
  | Return code n => returns p (connect rport host) s code n
  | Wait _ _ => False
  end.
Proof.
  intros Hr Hh. pose proof (point_start p s Hr) as Hs.
  assert (Hok : stable_ok (k_stab s)) by apply Hr.
  unfold api_connect, local_host. destruct (inv_port rport) eqn:Hp.
  { unfold connect. rewrite Hp. by apply returns_now. }
  unfold user_string in Hh. destruct (strlen _ _ host) as [n|] eqn:Hn; [|done].
  assert (Hstr : forall Q, Q n s -> wp (user_strlen host) s Q).
  { intros Q HQ. eapply (wp_user_strlen p); [by apply ready_mid|unfold user_string; by rewrite Hn|].
    intros n' Hn'. congruence. }
  destruct ((_ =? 0) || (_ =? 0)) eqn:Hl; simpl negb; cbv iota.
  2: { unfold returns, connect. rewrite Hp. apply wp_bind, Hstr. apply wp_bind.
       eapply wp_user_proc; [by apply ready_mid|]. apply orb_false_iff in Hl as [-> ->]. by apply returns_now. }
  assert (Hbody : forall code N,
    (forall s1, point p [LkStable] s (k_stab s) s1 -> wp (connect_locked rport) s1 (fun r s' =>
       r = code /\ abs (k_stab s') = N /\ ready p s' /\ users_same s s')) ->
    returns p (connect rport host) s code N).
  { intros code N H. unfold returns, connect. rewrite Hp. apply wp_bind, Hstr. apply wp_bind.
    eapply wp_user_proc; [by apply ready_mid|]. rewrite <- negb_orb, Hl. apply wp_bind.
    eapply point_acquire; [exact Hs|]. intros s1 H1 _. by apply H. }
  pose proof (fun s1 H1 => connect_locked_returns p s s1 rport H1 Hp) as Hc.
  unfold api_connect in Hc. rewrite Hp in Hc. simpl in Hc.
  destruct (abs (k_stab s) !! rport) as [e|]; [|by apply Hbody].
  destruct (negb (bool_decide (e_state e = LISTENING))); [by apply Hbody|].
  destruct (bool_decide (size (abs (k_stab s)) = NSOCK)); by apply Hbody.
Qed.

Lemma api_peer_abs t p lport :
  stable_ok t ->
  api_peer p lport (abs t) =
  match pair_of t (Some p) lport with
  | inl code => inl code
  | inr (l, _) => inr (sk_rPort (socks t l))
  end.
Proof.
  intros Hok. unfold api_peer, pair_of. rewrite abs_lookup by done.
  destruct (find_port t lport) as [l|]; simpl; [|done].
  destruct (bool_decide (sk_owner _ = _)); simpl; [|done].
  destruct (bool_decide (sk_state (socks t l) = CONNECTED)); simpl; [|done].
  rewrite abs_lookup by done. destruct (find_port t (sk_rPort _)) as [r|]; simpl; [|done].
  by destruct (bool_decide (sk_state (socks t r) = CONNECTED)).
Qed.

Lemma has_msg_abs t port i :
  stable_ok t -> find_port t port = Some i ->
  has_msg (abs t) port = sk_hasfullbuffer (socks t i).
Proof.
  intros Hok Hf. unfold has_msg. rewrite abs_lookup, Hf by done. simpl.
  by destruct (sk_hasfullbuffer (socks t i)).
Qed.

(** Replacing what waits in the endpoint of slot [i]. *)
Lemma abs_put_msg t i port k o :
  stable_ok t -> stable_ok (st_put i k t) -> find_port t port = Some i ->
  sk_lPort k = port -> endpoint_of k = put_msg o (endpoint_of (socks t i)) ->
  abs (st_put i k t) = alter (put_msg o) port (abs t).
Proof.
  intros Hok Hok' Hf Hl He. pose proof (proj1 (find_port_Some _ _ _ Hok) Hf) as (Hi & Ho & Hp).
  assert (Hk : is_open k = true).
  { unfold is_open in *. apply (f_equal e_state) in He. simpl in He. by rewrite He. }
  rewrite abs_put by (done || congruence). rewrite Hl, He.
  apply map_eq. intros q. rewrite lookup_insert. case_decide.
  - subst q. by rewrite lookup_alter_eq, abs_lookup, Hf by done.
  - by rewrite lookup_alter_ne.
Qed.

(** [disconnect] implements [api_disconnect]: the caller's own endpoint at
    the port is removed and every process waiting at it woken; a port that is
    free or somebody else's is an error that changes nothing. *)
Theorem disconnect_implements (p : nat) (lport : Z) (s : kstate) :
  ready p s ->
  match api_disconnect p lport (abs (k_stab s)) with
  | Return code n => returns p (disconnect lport) s code n
  | Wait _ _ => False
  end.
Proof.
  intros Hr. pose proof (point_start p s Hr) as Hs. set (t := k_stab s) in *.
  assert (Hok : stable_ok t) by apply Hr. unfold api_disconnect, disconnect.
  destruct (inv_port lport); [by apply returns_now|].
  rewrite abs_lookup by done. destruct (find_port t lport) as [l|] eqn:Hf; simpl.
  2: { unfold returns. apply wp_bind. eapply point_acquire; [exact Hs|]. intros s1 H1 _.
       wp_step. rewrite (pt_tab _ _ _ _ _ H1), Hf. by eapply ret_returns. }
  pose proof (proj1 (find_port_Some _ _ _ Hok) Hf) as (Hi & Ho & Hp).
  destruct (decide (sk_owner (socks t l) = Some p)) as [Hw|Hw];
    [rewrite bool_decide_true by done|rewrite bool_decide_false by done];
    (unfold returns; apply wp_bind; eapply point_acquire; [exact Hs|]; intros s1 H1 _;
     wp_step; rewrite (pt_tab _ _ _ _ _ H1), Hf; apply wp_bind;
     eapply point_myproc; [exact H1|]; intros s2 H2; wp_step; unfold sock_at;
     rewrite (pt_tab _ _ _ _ _ H2)).
  - rewrite bool_decide_true by done. simpl. apply wp_bind. eapply point_remove; [exact H2|done..|].
    intros s3 H3. eapply ret_returns; [|exact H3]. rewrite abs_remove by done. by rewrite Hp.
  - rewrite bool_decide_false by done. simpl. by eapply ret_returns.
Qed.

(** ** send *)

(** The process's string at [data], and what it is. *)
Definition user_message (q : proc) (data : Z) : list Z :=
  cstring (Z.to_nat (mapped_end q - data)) (p_umem q) data.

Definition message_fits (q : proc) (data n : Z) : Prop :=
  exists k, strlen (Z.to_nat (mapped_end q - data)) (p_umem q) data = Some k /\ k < n.



(** A change of a closed entry of the table. *)
Lemma abs_put_closed t i k :
  stable_ok t -> stable_ok (st_put i k t) -> (i < NSOCK)%nat -> is_open (socks t i) = false -> is_open k = false ->
  abs (st_put i k t) = abs t.
Proof.
  intros Hok Hok' Hi Ho Hk. unfold abs. f_equal. apply map_eq. intros port. unfold st_put in *.
  rewrite ports_replace by done. by rewrite Hk, Ho.
Qed.

(** The network with the message [msg] in the endpoint that slot [r] of the table is now, if it is one. *)
Definition struck (t : stab) (r : nat) (msg : list Z) : net :=
  if is_open (socks t r) then alter (put_msg (Some msg)) (sk_lPort (socks t r)) (abs t) else abs t.

(** [send] after its wait, the port of the remote being taken: the message goes to the slot the remote had. *)
Lemma send_rest_strikes p b t s l r j data n :
  point p [LkStable] b t s -> (r < NSOCK)%nat -> (l < NSOCK)%nat ->
  find_port t (sk_rPort (socks t l)) = Some j ->
  message_fits (proc_at b p) data n -> n <= SBUFFSIZE - 1 ->
  wp (send_rest l r data n) s (fun c s' => c = 0 /\
    abs (k_stab s') = struck t r (user_message (proc_at b p) data) /\ ready p s' /\ users_same b s').
Proof.
  intros Hs Hr Hl Hf (k & Hk & Hkn) Hn. assert (Hok : stable_ok t) by apply Hs.
  pose proof (pt_user _ _ _ _ _ Hs p) as Hus. pose proof Hus as [Esz Emem].
  unfold send_rest. wp_step. wp_step. unfold sock_at. rewrite (pt_tab _ _ _ _ _ Hs), Hf.
  assert (Hrun : running s = Some p).
  { unfold running. by destruct (oc_here _ _ _ (pt_cpu _ _ _ _ _ Hs)) as (i & -> & -> & _). }
  apply wp_bind. unfold user_source, user_proc. apply wp_bind. unfold wp at 1. rewrite Hrun.
  unfold mapped_end. rewrite Esz, Emem. fold (mapped_end (proc_at b p)). rewrite Hk. apply wp_ret.
  destruct (n >? SBUFFSIZE) eqn:E; [unfold SBUFFSIZE in *; lia|]. clear E.
  set (m := p_umem (proc_at b p)) in *.
  set (f := fun k0 => sock_buffer (strncpy (sk_recvbuffer k0) 0 m data n) k0).
  assert (Hok1 : stable_ok (st_put r (f (socks t r)) t)).
  { apply ok_put; try done. simpl. rewrite strncpy_spec. unfold inside, SBUFFSIZE in *. zcases.
    by apply Hok. }
  apply wp_bind. eapply (point_upd p b _ _ _ r f); [exact Hs|exact Hok1|]. intros s1 H1 _.
  set (t1 := st_put r (f (socks t r)) t) in *.
  assert (Hr1 : socks t1 r = f (socks t r)) by (simpl; by rewrite fn_insert_eq).
  assert (Hok2 : stable_ok (st_put r (sock_full true (socks t1 r)) t1))
    by (apply ok_put; try done; by apply Hok1).
  apply wp_bind. eapply point_upd; [exact H1|exact Hok2|]. intros s2 H2 _.
  apply wp_bind. eapply point_wakeup; [exact H2|]. intros s3 H3 _.
  eapply ret_returns; [|exact H3].
  transitivity (abs (st_put r (sock_full true (f (socks t r))) t)).
  { apply abs_same_table; [done|]. rewrite Hr1. split_and!; try done. intros x. simpl.
    rewrite !fn_insert_case. by repeat case_decide. }
  assert (Hok3 : stable_ok (st_put r (sock_full true (f (socks t r))) t)).
  { apply ok_put; try done. pose proof (so_term _ Hok1 r Hr) as X. by rewrite Hr1 in X. }
  unfold struck. destruct (is_open (socks t r)) eqn:Ho; [|by apply abs_put_closed].
  apply abs_put_msg; try done; [by apply find_port_Some|].
  unfold endpoint_of, put_msg. simpl. f_equal. f_equal. unfold user_message.
  eapply strncpy_cstring; [exact Hk|done|]. unfold SBUFFSIZE in *. lia.
Qed.

Lemma struck_here t r port msg : stable_ok t -> find_port t port = Some r -> struck t r msg = alter (put_msg (Some msg)) port (abs t).
Proof. intros Hok (_ & Ho & Hp)%find_port_Some; [|done]. unfold struck. by rewrite Ho, Hp. Qed.

(** With the remote's slot still at the port. *)
Lemma send_rest_delivers p b t s l r data n :
  point p [LkStable] b t s -> (r < NSOCK)%nat -> (l < NSOCK)%nat ->
  find_port t (sk_rPort (socks t l)) = Some r ->
  message_fits (proc_at b p) data n -> n <= SBUFFSIZE - 1 ->
  wp (send_rest l r data n) s (fun c s' => c = 0 /\
    abs (k_stab s') = alter (put_msg (Some (user_message (proc_at b p) data))) (sk_rPort (socks t l)) (abs t) /\
    ready p s' /\ users_same b s').
Proof.
  intros Hs Hr Hl Hf Hm Hn. eapply wp_mono; [|by apply (send_rest_strikes p b t s l r r)]. intros c s' (H1 & H2 & H3).
  split; [done|]. split; [|done]. rewrite H2. apply struck_here; [apply Hs|done].
Qed.


(** [send] and [recv] up to their wait. *)
Lemma pair_returns p s lport code (f : Z + nat * nat -> K Z) :
  ready p s -> pair_of (k_stab s) (Some p) lport = inl code ->
  (forall c, f (inl c) = retsockfunc c) ->
  returns p (acquire LkStable;; pair ← connected_pair lport; f pair) s code (abs (k_stab s)).
Proof.
  intros Hr Hpair Hf. unfold returns. apply wp_bind.
  eapply point_acquire; [by apply point_start|]. intros s1 H1 _.
  apply wp_bind. eapply point_pair; [exact H1|]. intros s2 H2 _. rewrite Hpair, Hf.
  by eapply ret_returns.
Qed.


Lemma send_delivers p lport data n s l r :
  ready p s -> inv_port lport = false ->
  pair_of (k_stab s) (Some p) lport = inr (l, r) -> sk_hasfullbuffer (sock_at s r) = false ->
  message_fits (proc_at s p) data n -> n <= SBUFFSIZE - 1 ->
  returns p (send lport data n) s 0
    (alter (put_msg (Some (user_message (proc_at s p) data))) (sk_rPort (sock_at s l)) (abs (k_stab s))).
Proof.
  intros Hr Hp Hpair Hfull Hm Hn. pose proof (point_start p s Hr) as Hs.
  pose proof (pair_of_inr p _ lport l r (pt_ok _ _ _ _ _ Hs) Hpair) as (Hl & Ho & Hw & Hst & Hrr & Hlp & Hf & Hrs).
  unfold returns, send. rewrite Hp. apply wp_bind. eapply point_acquire; [exact Hs|]. intros s1 H1 _.
  apply wp_bind. eapply point_pair; [exact H1|]. intros s2 H2 _. rewrite Hpair.
  apply wp_bind. unfold wp at 1, gets. unfold sock_at at 1. rewrite (pt_tab _ _ _ _ _ H2). 
  unfold sock_at in Hfull. rewrite Hfull.
  apply wp_bind, wp_ret. by apply send_rest_delivers.
Qed.


(** ** recv *)

(** Between [b] and [s] the memory of [p] changed in the [n] bytes at [data]
    only, where a reader now finds the string [msg] if it fits; nobody else's
    memory changed. *)
Definition delivered (p : nat) (b s : kstate) (data n : Z) (msg : list Z) : Prop :=
  (forall q, q <> p -> user_same (proc_at b q) (proc_at s q)) /\
  p_sz (proc_at s p) = p_sz (proc_at b p) /\
  (forall a, inside data n a = false -> p_umem (proc_at s p) a = p_umem (proc_at b p) a) /\
  (Z.of_nat (length msg) < n -> cstring (Z.to_nat n) (p_umem (proc_at s p)) data = msg).

(** The string in the buffer of a socket. *)
Definition buffered (k : sock) : list Z := cstring (Z.to_nat SBUFFSIZE) (sk_recvbuffer k) 0.

Lemma find_port_put t i k port :
  is_open k = is_open (socks t i) -> sk_lPort k = sk_lPort (socks t i) ->
  find_port (st_put i k t) port = find_port t port.
Proof.
  intros Ho Hl. unfold find_port. destruct (_ && _); [|done]. apply find_idx_ext.
  intros j _. simpl. rewrite fn_insert_case. case_decide; [subst j|done]. by rewrite Ho, Hl.
Qed.

(** The copy to the caller's memory. *)
Lemma point_user_strncpy p b t s l data n (Q : unit -> kstate -> Prop) :
  point p [LkStable] b t s -> (l < NSOCK)%nat -> data + n <= mapped_end (proc_at b p) ->
  (forall s', point p [LkStable] s' t s' ->
    delivered p b s' data n (buffered (socks t l)) -> Q tt s') ->
  wp (user_strncpy data (sk_recvbuffer (socks t l)) n) s Q.
Proof.
  intros [Ht Hok Hc Hr Hu] Hl Hd HQ. unfold wp, user_strncpy.
  assert (Hrun : running s = Some p).
  { unfold running. by destruct (oc_here _ _ _ Hc) as (i & -> & -> & _). }
  destruct (Hu p) as [Esz Emem]. rewrite Hrun. unfold mapped_end in *. rewrite Esz.
  replace (PGROUNDUP (p_sz (proc_at b p)) <? data + n) with false by (symmetry; apply Z.ltb_ge; lia).
  rewrite andb_false_r, upd_proc_run. apply HQ.
  - split; try done. unfold proc_at. simpl. by rewrite fn_insert_eq.
  - set (s1 := set_ptab _ s).
    assert (Hp1 : proc_at s1 p = proc_umem (strncpy (p_umem (proc_at s p)) data
        (sk_recvbuffer (socks t l)) 0 n) (proc_at s p)) by (unfold proc_at; simpl; by rewrite fn_insert_eq).
    unfold delivered. rewrite Hp1. split_and!; [|done| |]; simpl.
    + intros q Hq. unfold proc_at at 2. simpl. rewrite fn_insert_ne by done. apply Hu.
    + intros a Ha. by rewrite strncpy_spec, Ha, Emem.
    + intros Hlen. unfold buffered in *.
      destruct (strlen (Z.to_nat SBUFFSIZE) (sk_recvbuffer (socks t l)) 0) as [k|] eqn:Hk.
      2: { exfalso. pose proof (so_term _ Hok l Hl) as Hz.
           by apply (strlen_None_no_nul _ _ _ (SBUFFSIZE - 1)) in Hk. }
      pose proof (cstring_length _ _ _ _ Hk) as Hkl.
      eapply strncpy_cstring; [exact Hk|lia|]. apply strlen_spec in Hk. lia.
Qed.

Lemma delivered_after p b s1 s2 data n msg :
  delivered p b s1 data n msg -> users_same s1 s2 -> delivered p b s2 data n msg.
Proof.
  intros (H1 & H2 & H3 & H4) Hu. destruct (Hu p) as [Esz Emem]. unfold delivered.
  rewrite Esz, Emem. split_and!; try done. intros q Hq.
  destruct (H1 q Hq) as [A B], (Hu q) as [C D]. split; congruence.
Qed.

(** What [recv] does once it no longer waits. *)
Definition recv_result (p : nat) (m : K Z) (s : kstate) (l : nat) (data n : Z) : Prop :=
  let t := k_stab s in
  let lport := sk_lPort (socks t l) in
  wp m s (fun c s' => delivered p s s' data n (buffered (socks t l)) /\ ready p s' /\
    match abs t !! sk_rPort (socks t l) with
    | Some _ => c = 0 /\ abs (k_stab s') = alter (put_msg None) lport (abs t)
    | None => c = E_CONNECTION_RESET_BY_REMOTE /\ abs (k_stab s') = delete lport (abs t)
    end).

Lemma buffer_readable_ok t l n :
  stable_ok t -> (l < NSOCK)%nat -> buffer_readable (sk_recvbuffer (socks t l)) n = true.
Proof.
  intros Hok Hl. apply orb_true_iff. right. apply bool_decide_eq_true.
  pose proof (so_term _ Hok l Hl) as Ht. intros Hnone.
  by apply (strlen_None_no_nul _ _ _ (SBUFFSIZE - 1)) in Hnone.
Qed.

(** The table with the buffer of [l] emptied. *)
Lemma emptied_table t l :
  stable_ok t -> (l < NSOCK)%nat -> is_open (socks t l) = true ->
  let t1 := st_put l (sock_buffer (upd (sk_recvbuffer (socks t l)) 0 0) (socks t l)) t in
  let t2 := st_put l (sock_full false (socks t1 l)) t1 in
  stable_ok t1 /\ stable_ok t2 /\
  abs t2 = alter (put_msg None) (sk_lPort (socks t l)) (abs t) /\
  is_open (socks t2 l) = true /\ sk_lPort (socks t2 l) = sk_lPort (socks t l) /\
  sk_rPort (socks t2 l) = sk_rPort (socks t l) /\
  forall port, find_port t2 port = find_port t port.
Proof.
  intros Hok Hl Ho t1 t2.
  set (k := sock_full false (sock_buffer (upd (sk_recvbuffer (socks t l)) 0 0) (socks t l))).
  assert (H1 : stable_ok t1) by (apply ok_put; try done; by apply Hok).
  assert (H2 : stable_ok t2) by (apply ok_put; try done; by apply H1).
  assert (Hs : same_table t2 (st_put l k t)).
  { split_and!; try done. intros j. simpl. rewrite !fn_insert_case. by repeat case_decide. }
  assert (Hk : socks t2 l = k) by (simpl; by rewrite !fn_insert_eq).
  split_and!; try done; try by rewrite Hk.
  - rewrite (abs_same_table _ _ H2 Hs). apply abs_put_msg; try done.
    + apply ok_put; try done. by apply Hok.
    + by apply find_port_Some.
  - intros port. unfold t2, t1. rewrite !find_port_put; try done; simpl; by rewrite ?fn_insert_eq.
Qed.

Lemma recv_rest_result p b t s l data n :
  point p [LkStable] b t s -> k_stab b = t -> (l < NSOCK)%nat -> is_open (socks t l) = true ->
  data + n <= mapped_end (proc_at b p) ->
  wp (recv_rest l data n) s (fun c s' => delivered p b s' data n (buffered (socks t l)) /\ ready p s' /\
    match abs t !! sk_rPort (socks t l) with
    | Some _ => c = 0 /\ abs (k_stab s') = alter (put_msg None) (sk_lPort (socks t l)) (abs t)
    | None => c = E_CONNECTION_RESET_BY_REMOTE /\ abs (k_stab s') = delete (sk_lPort (socks t l)) (abs t)
    end).
Proof.
  intros Hs Hb Hl Ho Hd. assert (Hok : stable_ok t) by apply Hs.
  destruct (emptied_table t l Hok Hl Ho) as (Hok1 & Hok2 & Habs & Ho2 & Hlp & Hrp & Hfp).
  unfold recv_rest. wp_step. unfold sock_at. rewrite (pt_tab _ _ _ _ _ Hs), buffer_readable_ok by done.
  simpl negb. cbv iota. apply wp_bind. eapply point_user_strncpy; [exact Hs|done|done|]. intros s1 H1 Hdel.
  apply wp_bind. eapply (point_upd p s1 _ _ _ l (fun k => sock_buffer (upd (sk_recvbuffer k) 0 0) k));
    [exact H1|exact Hok1|]. intros s2 H2 _.
  apply wp_bind. eapply point_upd; [exact H2|exact Hok2|]. intros s3 H3 _.
  apply wp_bind. eapply point_wakeup; [exact H3|]. intros s4 H4 _.
  wp_step. wp_step. unfold sock_at. rewrite (pt_tab _ _ _ _ _ H4), Hrp, Hfp, abs_lookup by done.
  destruct (find_port t (sk_rPort (socks t l))) as [r|]; simpl.
  - eapply point_ret; [exact H4|]. intros s5 [E5 _ C5 R5 U5] _. unfold ready. rewrite E5.
    split_and!; try done. by eapply delivered_after.
  - apply wp_bind. eapply point_remove; [exact H4|done|done|]. intros s5 H5.
    eapply point_ret; [exact H5|]. intros s6 [E6 O6 C6 R6 U6] _. unfold ready. rewrite E6.
    split_and!; try done; [by eapply delivered_after|].
    rewrite abs_remove, Hlp, Habs by done. apply map_eq. intros q.
    rewrite !lookup_delete. case_decide; [done|]. by rewrite lookup_alter_ne.
Qed.

Definition recv_locked (data n : Z) (pair : Z + nat * nat) : K Z :=
  match pair with
  | inl code => retsockfunc code
  | inr (l, r) =>
      full ← gets (fun s => sk_hasfullbuffer (sock_at s l));
      when (negb full) (sleep (ChSock r) LkStable);;
      recv_rest l data n
  end.

Lemma recv_takes p lport data n s l r :
  ready p s -> inv_port lport = false ->
  pair_of (k_stab s) (Some p) lport = inr (l, r) -> sk_hasfullbuffer (sock_at s l) = true ->
  data + n <= mapped_end (proc_at s p) ->
  wp (recv lport data n) s (fun c s' => c = 0 /\ ready p s' /\
    abs (k_stab s') = alter (put_msg None) lport (abs (k_stab s)) /\
    delivered p s s' data n (buffered (sock_at s l))).
Proof.
  intros Hr Hp Hpair Hfull Hd. pose proof (point_start p s Hr) as Hs.
  pose proof (pt_ok _ _ _ _ _ Hs) as Hok.
  pose proof (pair_of_inr p _ lport l r Hok Hpair) as (Hl & Ho & Hw & Hst & Hrr & Hlp & Hf & Hrs).
  unfold recv. rewrite Hp. apply wp_bind. eapply point_acquire; [exact Hs|]. intros s1 H1 _.
  apply wp_bind. eapply point_pair; [exact H1|]. intros s2 H2 _. rewrite Hpair.
  apply wp_bind. unfold wp at 1, gets. unfold sock_at at 1. rewrite (pt_tab _ _ _ _ _ H2).
  unfold sock_at in Hfull. rewrite Hfull. apply wp_bind, wp_ret.
  eapply wp_mono; [|by eapply recv_rest_result; [exact H2|..]].
  intros c s' (Hdel & Hrd & Hres). rewrite abs_lookup, Hf, Hlp in Hres by done.
  destruct Hres as [-> Habs]. by split_and!.
Qed.

(** [recv] on an empty buffer: the caller sleeps, and takes what is there when it runs. *)
Lemma recv_sleeps p lport data n s l r :
  ready p s -> inv_port lport = false -> pair_of (k_stab s) (Some p) lport = inr (l, r) ->
  sk_hasfullbuffer (socks (k_stab s) l) = false -> data + n <= mapped_end (proc_at s p) ->
  sleeps ((acquire LkStable;; pair ← connected_pair lport; recv_locked data n pair) s) (fun s1 k =>
    k_stab s1 = k_stab s /\ asleep_at p (sk_rPort (socks (k_stab s) l)) s1 /\ users_same s s1 /\
    forall s', rely p s1 s' -> exists l', find_port (k_stab s') lport = Some l' /\ recv_result p k s' l' data n).
Proof.
  intros Hr Hinv Hpair Hfull Hd. pose proof (point_start p s Hr) as Hs. set (t := k_stab s) in *.
  assert (Hok : stable_ok t) by apply Hr.
  pose proof (pair_of_inr p t lport l r Hok Hpair) as (Hl & Ho & Hw & Hst & Hrr & Hlp & Hf & Hrs).
  apply sleeps_bind_wp. eapply point_acquire; [exact Hs|]. intros s1 H1 _.
  apply sleeps_bind_wp. eapply point_pair; [exact H1|]. intros s2 H2 _. rewrite Hpair.
  apply sleeps_bind_wp. unfold wp at 1, gets, sock_at. rewrite (pt_tab _ _ _ _ _ H2), Hfull.
  apply sleeps_bind. eapply sleeps_mono; [|eapply (point_sleep p); [exact H2|exact Hf]].
  intros s3 k (Ht3 & Has & Hu & Hk). rewrite Ht3. split_and!; try done.
  intros s' Hrel. pose proof (r_keep _ _ _ Hrel) as Hkeep. rewrite Ht3 in Hkeep.
  destruct (Hkeep l Hl Ho Hw) as (Ho' & Hw' & Hlp' & _). exists l. split.
  { apply find_port_Some; [apply Hrel|]. split_and!; try done. congruence. }
  unfold recv_result. apply wp_bind. eapply wp_mono; [|by apply Hk]. intros a s4 H4.
  eapply recv_rest_result; try done. unfold mapped_end in *.
  destruct (Hu p) as [A _], (r_user _ _ _ Hrel) as [C _]. congruence.
Qed.

(** C19: [recv] implements [api_recv]: with a message waiting it copies the
    message to the caller's memory, there and nowhere else, empties the buffer
    and returns 0; with none it sleeps at the peer's endpoint and, when it runs
    again, takes whatever its buffer holds then, closing the endpoint with the
    reset code if the peer is gone; the errors change nothing. *)
Theorem recv_implements (p : nat) (lport data n : Z) (s : kstate) :
  ready p s -> data + n <= mapped_end (proc_at s p) ->
  match api_recv p lport (abs (k_stab s)) with
  | Return code m => wp (recv lport data n) s (fun c s' =>
      c = code /\ abs (k_stab s') = m /\ ready p s' /\
      if code =? 0 then exists msg, e_msg <$> (abs (k_stab s) !! lport) = Some (Some msg) /\
                                    delivered p s s' data n msg
      else users_same s s')
  | Wait rp m => waits p (recv lport data n) s rp m (fun s' k =>
      exists l, find_port (k_stab s') lport = Some l /\ recv_result p k s' l data n)
  end.
Proof.
  intros Hr Hd. pose proof (point_start p s Hr) as Hs. set (t := k_stab s) in *.
  assert (Hok : stable_ok t) by apply Hr. unfold api_recv.
  change (recv lport data n) with (if inv_port lport then mret E_INVALID_ARG else
    acquire LkStable;; pair ← connected_pair lport; recv_locked data n pair).
  destruct (inv_port lport) eqn:Hp; [by apply returns_now|].
  rewrite api_peer_abs by done.
  destruct (pair_of t (Some p) lport) as [code|[l r]] eqn:Hpair.
  { eapply wp_mono; [|by apply (pair_returns p s lport code (recv_locked data n))].
    intros c s' (-> & A & B & C). split_and!; try done.
    destruct (Z.eqb_spec code 0) as [->|]; [|done]. exfalso. revert Hpair. unfold pair_of.
    repeat (case_match; try done). }
  pose proof (pair_of_inr p t lport l r Hok Hpair) as (Hl & Ho & Hw & Hst & Hrr & Hlp & Hf & Hrs).
  assert (Hfl : find_port t lport = Some l) by (by apply find_port_Some).
  rewrite (has_msg_abs t lport l Hok Hfl).
  destruct (sk_hasfullbuffer (socks t l)) eqn:Hfull.
  - pose proof (recv_takes p lport data n s l r Hr Hp Hpair Hfull Hd) as H.
    unfold recv in H. rewrite Hp in H. eapply wp_mono; [|exact H].
    intros c s' (-> & Hrd & Habs & Hdel). split_and!; try done. exists (buffered (socks t l)).
    split; [|done]. rewrite abs_lookup, Hfl by done. unfold endpoint_of. simpl. by rewrite Hfull.
  - eapply sleeps_mono; [|by apply (recv_sleeps p lport data n s l r)]. intros s1 k (-> & H). by split.
Qed.

(** ** A message sent is received *)

(** A connection, seen in the network and in the table. *)
Lemma pair_of_connected t p lp rp o e :
  stable_ok t -> abs t !! lp = Some (mkEnd (Some p) CONNECTED rp o) ->
  abs t !! rp = Some e -> e_state e = CONNECTED ->
  exists l r, pair_of t (Some p) lp = inr (l, r) /\ inv_port lp = false /\
    sk_rPort (socks t l) = rp /\
    endpoint_of (socks t l) = mkEnd (Some p) CONNECTED rp o /\ endpoint_of (socks t r) = e.
Proof.
  intros Hok Hl Hr Hst. rewrite abs_lookup in Hl, Hr by done.
  destruct (find_port t lp) as [l|] eqn:Fl; [|done]. destruct (find_port t rp) as [r|] eqn:Fr; [|done].
  simpl in Hl, Hr. injection Hl as H1 H2 H3 H4. injection Hr as Hr.
  assert (Hsr : sk_state (socks t r) = CONNECTED) by (by rewrite <- Hst, <- Hr).
  exists l, r. unfold pair_of. rewrite Fl, H1, H2, H3, Fr, Hsr, !bool_decide_true by done.
  split_and!; try done; [by eapply find_port_range|].
  unfold endpoint_of. by rewrite H1, H2, H3, H4.
Qed.

Lemma endpoint_of_msg k o st rp msg :
  endpoint_of k = mkEnd o st rp (Some msg) -> sk_hasfullbuffer k = true /\ buffered k = msg.
Proof. unfold endpoint_of, buffered. destruct (sk_hasfullbuffer k); [|done]. intros H. by injection H. Qed.

Lemma endpoint_of_empty k o st rp :
  endpoint_of k = mkEnd o st rp None -> sk_hasfullbuffer k = false.
Proof. unfold endpoint_of. by destruct (sk_hasfullbuffer k). Qed.

(** C21: A message that is sent is received: on an established connection whose
    receive buffer is empty, [send] returns 0, and the peer's next [recv]
    returns 0 with the same string in the peer's memory at [d2], leaving the
    network as it was before the exchange. *)
Theorem send_recv_roundtrip (p q : nat) (lp rp d1 n1 d2 n2 : Z) (o : option (list Z)) (s : kstate) :
  ready p s ->
  abs (k_stab s) !! lp = Some (mkEnd (Some p) CONNECTED rp o) ->
  abs (k_stab s) !! rp = Some (mkEnd (Some q) CONNECTED lp None) ->
  message_fits (proc_at s p) d1 n1 -> n1 <= SBUFFSIZE - 1 ->
  Z.of_nat (length (user_message (proc_at s p) d1)) < n2 -> d2 + n2 <= mapped_end (proc_at s q) ->
  wp (send lp d1 n1) s (fun c1 s1 => c1 = 0 /\
    forall s2, k_stab s2 = k_stab s1 -> users_same s1 s2 -> ready q s2 ->
      wp (recv rp d2 n2) s2 (fun c2 s3 => c2 = 0 /\
        cstring (Z.to_nat n2) (p_umem (proc_at s3 q)) d2 = user_message (proc_at s p) d1 /\
        abs (k_stab s3) = abs (k_stab s))).
Proof.
  intros Hr Hl Hrm Hm Hn1 Hn2 Hd. set (msg := user_message (proc_at s p) d1) in *.
  destruct (pair_of_connected _ p lp rp _ _ (proj1 Hr) Hl Hrm eq_refl)
    as (l & r & Hpair & Hinv & Hrp & _ & Her).
  pose proof (send_delivers p lp d1 n1 s l r Hr Hinv Hpair (endpoint_of_empty _ _ _ _ Her) Hm Hn1) as Hsend.
  unfold sock_at in Hsend. rewrite Hrp in Hsend. eapply wp_mono; [|exact Hsend].
  intros c1 s1 (-> & Habs1 & _ & Hu1). split; [done|]. intros s2 Ht2 Hu2 Hr2. rewrite <- Ht2 in Habs1.
  assert (Hrm2 : abs (k_stab s2) !! rp = Some (mkEnd (Some q) CONNECTED lp (Some msg)))
    by (by rewrite Habs1, lookup_alter_eq, Hrm).
  assert (Hl2 : exists e, abs (k_stab s2) !! lp = Some e /\ e_state e = CONNECTED).
  { rewrite Habs1, lookup_alter. case_decide; [subst; rewrite Hl|rewrite Hl]; by eexists. }
  destruct Hl2 as (e & Hl2 & He).
  destruct (pair_of_connected _ q rp lp _ e (proj1 Hr2) Hrm2 Hl2 He)
    as (l2 & r2 & Hpair2 & Hinv2 & _ & Hel & _).
  apply endpoint_of_msg in Hel as [Hfull Hbuf].
  destruct (Hu1 q) as [Sz1 _], (Hu2 q) as [Sz2 _].
  eapply wp_mono; [|apply (recv_takes q rp d2 n2 s2 l2 r2); try done].
  - intros c2 s3 (-> & _ & Habs3 & (_ & _ & _ & Hc)). unfold sock_at in Hc. rewrite Hbuf in Hc.
    split_and!; [done|by apply Hc|]. rewrite Habs3, Habs1. apply map_eq. intros x.
    destruct (decide (x = rp)) as [->|Hx]; [by rewrite !lookup_alter_eq, Hrm|].
    by rewrite !lookup_alter_ne.
  - unfold mapped_end in *. congruence.
Qed.

(** ** The end of a process *)

Lemma abs_closes q t t' :
  stable_ok t -> closes q t t' ->
  abs t' = filter (fun kv : Z * endpoint => e_owner kv.2 <> Some q) (abs t).
Proof.
  intros Hok [Hok' Hs _]. apply map_eq. intros port.
  destruct (abs t !! port) as [e|] eqn:E.
  - rewrite abs_lookup in E by done. destruct (find_port t port) as [i|] eqn:F; [|done].
    simpl in E. injection E as <-. pose proof (proj1 (find_port_Some _ _ _ Hok) F) as (Hi & Ho & Hp).
    pose proof (Hs i Hi) as Hi'. unfold owned_by in Hi'. rewrite Ho in Hi'. simpl in Hi'.
    destruct (decide (sk_owner (socks t i) = Some q)) as [Hq|Hq].
    + rewrite (proj2 (map_lookup_filter_None _ _ _)).
      2: { right. intros x Hx. rewrite abs_lookup, F in Hx by done. injection Hx as <-. simpl. tauto. }
      rewrite abs_lookup by done. destruct (find_port t' port) as [j|] eqn:F'; [|done]. exfalso.
      apply find_port_Some in F' as (Hj & Hoj & Hpj); [|done]. pose proof (Hs j Hj) as Hj'.
      destruct (owned_by q (socks t j)) eqn:Hwj; rewrite Hj' in *; [done|].
      assert (j = i) by (apply (so_uniq _ Hok); congruence). subst j.
      unfold owned_by in Hwj. rewrite Ho, bool_decide_true in Hwj; done.
    + rewrite (proj2 (map_lookup_filter_Some _ _ _ (endpoint_of (socks t i)))).
      2: { split; [by rewrite abs_lookup, F|done]. }
      rewrite bool_decide_false in Hi' by done.
      rewrite abs_lookup by done. rewrite (proj2 (find_port_Some t' port i Hok')) by (by rewrite Hi').
      simpl. by rewrite Hi'.
  - rewrite (proj2 (map_lookup_filter_None _ _ _)) by (by left).
    rewrite abs_lookup by done. destruct (find_port t' port) as [j|] eqn:F'; [|done]. exfalso.
    apply find_port_Some in F' as (Hj & Hoj & Hpj); [|done]. pose proof (Hs j Hj) as Hj'.
    destruct (owned_by q (socks t j)); rewrite Hj' in *; [done|].
    rewrite abs_lookup in E by done. by rewrite (proj2 (find_port_Some t port j Hok)) in E.
Qed.

(** [closeprocsocks], called when a process ends, removes exactly the
    endpoints of that process and makes every process that sleeps at one of them
    runnable, so that nobody waits for a peer that is gone.  Its loop ends. *)
Theorem closeprocsocks_closes (q : nat) (p : option nat) (L : list lockid) (s : kstate) :
  on_cpu L p (k_core s) -> LkPtable ∉ L -> LkStable ∉ L -> stable_ok (k_stab s) ->
  wp (closeprocsocks (Some q)) s (fun _ s' =>
    on_cpu L p (k_core s') /\ stable_ok (k_stab s') /\
    abs (k_stab s') = filter (fun kv : Z * endpoint => e_owner kv.2 <> Some q) (abs (k_stab s)) /\
    forall x i, (x < NPROC)%nat -> (i < NSOCK)%nat ->
      is_open (sock_at s i) = true -> sk_owner (sock_at s i) = Some q ->
      p_state (proc_at s x) = SLEEPING -> p_chan (proc_at s x) = Some (ChSock i) ->
      p_state (proc_at s' x) = RUNNABLE).
Proof.
  intros Hc H1 H2 Hok. eapply wp_mono; [|by apply (closeprocsocks_spec q p L)].
  intros _ s' (Hc' & Hcl & Hw & Haw). split_and!; [done|apply Hcl|by apply abs_closes|].
  intros x i Hx Hi Ho Hq. apply Haw; [done| |done].
  unfold owned_by, sock_at in *. by rewrite Ho, Hq, bool_decide_true.
Qed.

(** ** Which hosts connect accepts *)

(** A prefix of localhost or of 127.0.0.1: the names themselves, but also the
    empty string, l or 127. *)
Definition host_prefix (h : list Z) : bool :=
  bool_decide (h `prefix_of` cstring 10 (cstr "localhost") 0) || bool_decide (h `prefix_of` cstring 10 (cstr "127.0.0.1") 0).

Lemma local_host_prefix (q : proc) (host : Z) :
  (forall a, 0 <= p_umem q a < 256) -> user_string q host ->
  local_host q host = host_prefix (user_message q host).
Proof.
  unfold user_string, local_host, user_message, host_prefix. intros Hb Hu.
  destruct (strlen (Z.to_nat (mapped_end q - host)) (p_umem q) host) as [k|] eqn:Hk; [|done].
  assert (Hc : forall w x, 0 <= cstr w x < 256).
  { intros w x. unfold cstr. rewrite list_lookup_fmap. destruct (_ !! _) as [c|]; simpl; [|lia].
    pose proof (Ascii.nat_ascii_bounded c). lia. }
  apply Bool.eq_iff_eq_true. rewrite !orb_true_iff, !Z.eqb_eq, !bool_decide_eq_true.
  rewrite (strncmp_prefix _ (p_umem q) host (cstr "localhost") 0 10 k 9 Hb (Hc _) Hk) by (vm_compute; reflexivity).
  by rewrite (strncmp_prefix _ (p_umem q) host (cstr "127.0.0.1") 0 10 k 9 Hb (Hc _) Hk) by (vm_compute; reflexivity).
Qed.

(** C20: [connect] implements [api_connect]: it finds the listening socket at
    [rport], takes the highest free port for the caller, makes both ends
    CONNECTED to each other with empty buffers, and returns the new port;
    invalid port or host, nobody listening, the wrong state and a full table are
    errors that change nothing.  It never waits, and never lacks a port.  A host is valid exactly when it is a prefix of
    localhost or of 127.0.0.1, the empty string included: more than the two names that the comment in the code and the
    README allow.  The highest free port is what the code takes where the comment on [getfreeport] announces a random
    one. *)
Theorem connect_implements (p : nat) (rport host : Z) (s : kstate) :
  ready p s -> user_string (proc_at s p) host -> (forall a, 0 <= p_umem (proc_at s p) a < 256) ->
  match api_connect p rport (host_prefix (user_message (proc_at s p) host)) (abs (k_stab s)) with
  | Return code n => returns p (connect rport host) s code n
  | Wait _ _ => False
  end.
Proof. intros Hr Hh Hb. rewrite <- local_host_prefix by done. by apply connect_api. Qed.

Module Example.

(** Process 0, with the string at address 0 of its memory, owns port 5;
    process 1 owns port 127; they are connected. *)
Definition pair_stab : stab :=
  mkStab (fun i => match i with
    | 0%nat => mkSock 0 CONNECTED (Some 0%nat) (fun _ => 0) false 5 127
    | 1%nat => mkSock 1 CONNECTED (Some 1%nat) (fun _ => 0) false 127 5
    | _ => zero_sock
    end) 2 2.

Definition two_procs (i : nat) : proc :=
  match i with
  | 0%nat => user_process RUNNING 1 (cstr "hello")
  | 1%nat => user_process RUNNING 2 (cstr "")
  | _ => zero_proc
  end.

Definition st (p : nat) : kstate := start (Some p) two_procs pair_stab.

Lemma pair_stab_ok : stable_ok pair_stab.
Proof.
  split.
  - reflexivity.
  - intros [|[|i]] _ Ho; vm_compute in Ho |- *; try done; split; discriminate || reflexivity.
  - intros [|[|i]] [|[|j]] _ _ Hi Hj; try done; vm_compute in Hi, Hj; done.
  - intros [|[|i]] _ Ho; vm_compute in Ho; done.
  - intros [|[|i]] _; reflexivity.
Qed.

Lemma st_ready p : (p < 2)%nat -> ready p (st p).
Proof.
  intros Hp. split_and!; [exact pair_stab_ok|apply one_cpu_on|].
  destruct p as [|[|p]]; [reflexivity..|lia].
Qed.
End Example.

Lemma listen_implements_witness :
  ready 0 (Example.st 0) /\
  waits 0 (listen 7) (Example.st 0) 7
    (<[7 := mkEnd (Some 0%nat) LISTENING INV_PORT None]> (abs Example.pair_stab))
    (fun s' k => returns 0 k s' 0 (abs (k_stab s'))).
Proof.
  split; [apply Example.st_ready; lia|].
  pose proof (listen_implements 0 7 (Example.st 0) (Example.st_ready 0 ltac:(lia))) as H.
  change (k_stab (Example.st 0)) with Example.pair_stab in H.
  assert (E : api_listen 0 7 (abs Example.pair_stab) =
    Wait 7 (<[7 := mkEnd (Some 0%nat) LISTENING INV_PORT None]> (abs Example.pair_stab)))
    by (vm_compute; reflexivity).
  rewrite E in H. exact H.
Defined.

(** Nobody listens at port 9; the host is the empty string. *)
Lemma connect_implements_witness :
  user_string (proc_at (start (Some 0%nat) (fun _ => user_process RUNNING 1 (fun _ => 0)) empty_stab) 0) 0 /\
  returns 0 (connect 9 0) (start (Some 0%nat) (fun _ => user_process RUNNING 1 (fun _ => 0)) empty_stab)
    E_NOTFOUND (abs empty_stab).
Proof.
  set (s0 := start (Some 0%nat) (fun _ => user_process RUNNING 1 (fun _ => 0)) empty_stab).
  assert (Hu : user_string (proc_at s0 0) 0) by (vm_compute; discriminate).
  split; [exact Hu|].
  assert (Hr : ready 0 s0) by (split_and!; [exact empty_stab_ok|apply one_cpu_on|reflexivity]).
  pose proof (connect_implements 0 9 0 s0 Hr Hu ltac:(intros a; simpl; lia)) as H.
  change (k_stab s0) with empty_stab in H.
  assert (E : api_connect 0 9 (host_prefix (user_message (proc_at s0 0) 0)) (abs empty_stab) =
    Return E_NOTFOUND (abs empty_stab)) by (vm_compute; reflexivity).
  rewrite E in H. exact H.
Defined.

Lemma disconnect_implements_witness :
  returns 1 (disconnect 127) (Example.st 1) 0 (delete 127 (abs Example.pair_stab)).
Proof.
  pose proof (disconnect_implements 1 127 (Example.st 1) (Example.st_ready 1 ltac:(lia))) as H.
  change (k_stab (Example.st 1)) with Example.pair_stab in H.
  assert (E : api_disconnect 1 127 (abs Example.pair_stab) =
    Return 0 (delete 127 (abs Example.pair_stab))) by (vm_compute; reflexivity).
  rewrite E in H. exact H.
Defined.


Lemma recv_implements_witness :
  waits 1 (recv 127 10 50) (Example.st 1) 5 (abs Example.pair_stab) (fun s' k =>
    exists l, find_port (k_stab s') 127 = Some l /\ recv_result 1 k s' l 10 50).
Proof.
  pose proof (recv_implements 1 127 10 50 (Example.st 1) (Example.st_ready 1 ltac:(lia))
    ltac:(vm_compute; discriminate)) as H.
  change (k_stab (Example.st 1)) with Example.pair_stab in H.
  assert (E : api_recv 1 127 (abs Example.pair_stab) = Wait 5 (abs Example.pair_stab))
    by (vm_compute; reflexivity).
  rewrite E in H. exact H.
Defined.

Lemma send_recv_roundtrip_witness :
  wp (send 5 0 100) (Example.st 0) (fun c1 s1 => c1 = 0 /\
    forall s2, k_stab s2 = k_stab s1 -> users_same s1 s2 -> ready 1 s2 ->
      wp (recv 127 10 50) s2 (fun c2 s3 => c2 = 0 /\
        cstring 50 (p_umem (proc_at s3 1)) 10 = [104; 101; 108; 108; 111] /\
        abs (k_stab s3) = abs Example.pair_stab)).
Proof.
  change [104; 101; 108; 108; 111] with (cstring 5 (cstr "hello") 0).
  assert (E : cstring 5 (cstr "hello") 0 = user_message (proc_at (Example.st 0) 0) 0)
    by (vm_compute; reflexivity).
  rewrite E. apply (send_recv_roundtrip 0 1 5 127 0 100 10 50 None (Example.st 0)).
  - apply Example.st_ready. lia.
  - rewrite abs_lookup by exact Example.pair_stab_ok. reflexivity.
  - rewrite abs_lookup by exact Example.pair_stab_ok. reflexivity.
  - exists 5. split; [vm_compute; reflexivity|lia].
  - unfold SBUFFSIZE. lia.
  - vm_compute. reflexivity.
  - vm_compute. discriminate.
Defined.

Lemma closeprocsocks_closes_witness :
  wp (closeprocsocks (Some 1%nat)) (Example.st 0) (fun _ s' =>
    abs (k_stab s') = filter (fun kv : Z * endpoint => e_owner kv.2 <> Some 1%nat) (abs Example.pair_stab)).
Proof.
  eapply wp_mono; [|exact (closeprocsocks_closes 1 (Some 0%nat) [] (Example.st 0) (one_cpu_on _)
    ltac:(by apply not_elem_of_nil) ltac:(by apply not_elem_of_nil) Example.pair_stab_ok)].
  intros a s' (_ & _ & H & _). exact H.
Defined.
