(* ===== verification/SockSys.v ===== *)
(** * Every interleaving of the socket operations

    A machine of one CPU and NPROC processes.  A process at user level writes
    to its own memory, calls the operations of sock.c, exits, or loses the CPU to a
    timer interrupt; an operation
    runs without interruption until it returns or sleeps (it holds stable.lock);
    then the scheduler picks any runnable process.  The machine has no files: of
    [exit] it runs all that comes after they are closed.  The theorems hold in every
    state the machine reaches. *)

From S2P Require Import Prelude CString KState Spinlock Proc Sock SockConc Exit.

(** What a process at user level does next. *)
Inductive op : Type :=
| OListen (lport : Z)
| OConnect (rport host : Z)
| OSend (lport data n : Z)
| ORecv (lport data n : Z)
| ODisconnect (lport : Z)
| OExit
| OTimer
| OCompute (m : mem).

Definition run_op (p : nat) (o : op) : K Z :=
  match o with
  | OListen lport => listen lport
  | OConnect rport host => connect rport host
  | OSend lport data n => send lport data n
  | ORecv lport data n => recv lport data n
  | ODisconnect lport => disconnect lport
  | OExit =>
      init ← gets (fun s => initproc (k_ptab s));
      if bool_decide (init = Some p) then panic "init exiting"
      else exit_rest p;; mret 0
  | OTimer => yield;; mret 0
  | OCompute m => upd_proc p (proc_umem m);; mret 0
  end.

(** What a process may do: pass pointers to memory it has, and to [send] a length below
    the size of the buffer, which [send] does not check ([sys_send] passes the number of
    the port, below 128); and exit, if it is not init. *)
Definition valid_args (s : kstate) (p : nat) (o : op) : Prop :=
  match o with
  | OConnect _ host => user_string (proc_at s p) host
  | OSend _ data n => user_readable (proc_at s p) data n /\ n <= SBUFFSIZE - 1
  | ORecv _ data n => data + n <= mapped_end (proc_at s p)
  | OExit => initproc (k_ptab s) <> Some p
  | _ => True
  end.

(** The CPU runs a process at user level, or is in the loop of [scheduler]
    (proc.c) with ptable.lock held. *)
Inductive phase : Type := User (p : nat) | Sched.

Abbreviation cont := (kstate -> outcome kstate Z).

Record sys : Type := mkSys {
  y_k : kstate;
  y_phase : phase;
  y_conts : nat -> option cont
}.

(** [scheduler], lines 344 to 348: the switch to process [q]. *)
Definition switch_to (q : nat) : K unit :=
  cpu_set (cpu_proc (Some q));;
  upd_proc q (proc_state RUNNING).

(** [scheduler], line 353: the process gave the CPU back. *)
Definition switch_back : K unit := cpu_set (cpu_proc None).

(** A process's run ends: it returned to user level, or it sleeps and the
    scheduler goes on.  [None] is a kernel that stopped or waits for ever. *)
Definition settle (p : nat) (o : outcome kstate Z) (conts : nat -> option cont) : option sys :=
  match o with
  | Done _ s => Some (mkSys s (User p) conts)
  | Asleep s k =>
      match switch_back s with
      | Done _ s' => Some (mkSys s' Sched (<[p := Some k]> conts))
      | _ => None
      end
  | _ => None
  end.

(** The rest of the run of the process the scheduler switched to. *)
Definition resume (q : nat) (k : cont) : K Z := switch_to q;; k.

Inductive step (y : sys) : option sys -> Prop :=
| step_op p o : y_phase y = User p -> valid_args (y_k y) p o ->
    step y (settle p (run_op p o (y_k y)) (y_conts y))
| step_pick q k : y_phase y = Sched -> (q < NPROC)%nat -> y_conts y q = Some k ->
    p_state (proc_at (y_k y) q) = RUNNABLE ->
    step y (settle q (resume q k (y_k y)) (<[q := None]> (y_conts y))).

(** A process that has not run yet starts in [forkret], which releases
    ptable.lock and returns to user level. *)
Definition forkret_rest : cont := release LkPtable;; mret 0.

Record boot (y : sys) : Prop := mkBoot {
  b_closed : forall i, sk_state (socks (k_stab (y_k y)) i) = CLOSED;
  b_buffer : forall i, sk_recvbuffer (socks (k_stab (y_k y)) i) (SBUFFSIZE - 1) = 0;
  b_count : countSock (k_stab (y_k y)) = 0;
  b_cpu : on_cpu [LkPtable] None (k_core (y_k y));
  b_phase : y_phase y = Sched;
  b_conts : forall q k, y_conts y q = Some k ->
    p_state (proc_at (y_k y) q) = RUNNABLE /\ k = forkret_rest
}.

Inductive reach : sys -> Prop :=
| reach_boot y : boot y -> reach y
| reach_step y y' : reach y -> step y (Some y') -> reach y'.

(** ** The invariant *)

Definition off_cpu (q : proc) : Prop := p_state q = SLEEPING \/ p_state q = RUNNABLE \/ p_state q = ZOMBIE.

(** A run of process [p] that began in [b] has left the CPU in [s]. *)
Record leaves (p : nat) (b s : kstate) : Prop := mkLeaves {
  lf_ok : stable_ok (k_stab s);
  lf_keep : others_keep p (k_stab b) (k_stab s);
  lf_pass : forall q, q <> p -> passes (proc_at b q) (proc_at s q);
  lf_cpu : on_cpu [LkPtable] (Some p) (k_core s);
  lf_off : off_cpu (proc_at s p)
}.

(** A zombie does not run again. *)
Definition again (p : nat) (s s' : kstate) : Prop := p_state (proc_at s p) <> ZOMBIE /\ rely p s s'.

(** [safe], for a process that may also exit. *)
Definition goes (p : nat) (b : kstate) (o : outcome kstate Z) : Prop :=
  post (leaves p) (again p) (fun b _ s => mid p [] b s) b o.

Lemma woken_passes p t t' q : others_woken p t t' -> q <> p -> passes (procs t q) (procs t' q).
Proof. intros (H & _) Hq. destruct (H q Hq) as [->|[Hs ->]]; [done|by apply passes_woken]. Qed.

Lemma safe_goes p b o : safe p b o -> goes p b o.
Proof.
  apply post_mono; [|by intros s s' [_ H]|done]. intros s s' [A B C D E _]. split; try done.
  - intros q Hq. by apply (woken_passes p).
  - destruct E; [by left|right; by left].
Qed.

Lemma exit_goes p s : ready p s -> initproc (k_ptab s) <> Some p -> goes p s (run_op p OExit s).
Proof.
  intros Hr Hi. cbn [run_op]. unfold goes. apply post_bind_wp. unfold wp at 1, gets. rewrite bool_decide_false by done.
  apply post_bind, sleeps_post. eapply sleeps_mono; [|by apply exit_rest_sleeps]. intros s' k [A B C D E _]. split.
  - split; try done. right. by right.
  - intros s2 [Hz _]. done.
Qed.

Record sys_ok (y : sys) : Prop := mkSysOk {
  y_ok : stable_ok (k_stab (y_k y));
  y_cpu : match y_phase y with
          | User p => on_cpu [] (Some p) (k_core (y_k y)) /\ p_state (proc_at (y_k y) p) = RUNNING
          | Sched => on_cpu [LkPtable] None (k_core (y_k y))
          end;
  y_wait : forall q k, y_conts y q = Some k ->
    y_phase y <> User q /\ off_cpu (proc_at (y_k y) q) /\
    forall s', again q (y_k y) s' -> goes q s' (k s')
}.

Lemma boot_ok y : boot y -> sys_ok y.
Proof.
  intros [Hcl Hb Hc Hcpu Hph Hk]. split; [split| |].
  - rewrite Hc. symmetry. apply count_idx_zero. intros k _. by apply is_open_closed.
  - intros i _ Ho. by rewrite (proj2 (is_open_closed _) (Hcl i)) in Ho.
  - intros i j _ _ Ho. by rewrite (proj2 (is_open_closed _) (Hcl i)) in Ho.
  - intros i _ Ho. by rewrite (proj2 (is_open_closed _) (Hcl i)) in Ho.
  - intros i _. apply Hb.
  - by rewrite Hph.
  - intros q k Hq. destruct (Hk q k Hq) as [Hst ->]. rewrite Hph. split_and!; [done|right; by left|].
    intros s' [_ [Rok Rk Rc Rr _]]. unfold goes, forkret_rest.
    apply (post_bind_wp _ _ (release LkPtable)). eapply wp_release; [exact Rc|reflexivity|].
    intros c5 H5. simpl. split; try done. split_and!; try done. by left.
Qed.

(** What a waiting process relies on survives a run of another one. *)
Lemma others_again p q b s s' :
  q <> p -> others_keep p (k_stab b) (k_stab s) -> passes (proc_at b q) (proc_at s q) ->
  again q s s' -> again q b s'.
Proof.
  intros Hq Hk Hp%passes_keeps [Hz [Rok Rk Rc Rr [Rs Ru]]]. destruct Hp as [[Es Eu] Hst]. split.
  - intros E. apply Hz. destruct Hst as [->|[E2 _]]; congruence.
  - split; try done; [etransitivity; [by apply Hk|done]|]. split; congruence.
Qed.

Lemma passes_off x y : passes x y -> off_cpu x -> off_cpu y.
Proof. intros [_ [E|[_ E]]]%passes_keeps; unfold off_cpu; rewrite E; auto. Qed.

(** The processes other than [p] wait, relying on what holds since [b]. *)
Definition waiting (p : nat) (b : kstate) (conts : nat -> option cont) : Prop :=
  forall q k, conts q = Some k -> q <> p /\ off_cpu (proc_at b q) /\
    forall s', again q b s' -> goes q s' (k s').

Lemma switch_back_run p s :
  on_cpu [LkPtable] p (k_core s) ->
  wp switch_back s (fun _ s' => exists c, s' = set_core c s /\ on_cpu [LkPtable] None c).
Proof.
  intros Hc. destruct (on_cpu_view _ _ _ Hc) as (i & ie & Hv & Hie & Hl).
  eapply wp_cpu_set; [exact Hv|done|]. intros c' [Ah An Ai Ap AIF Alk].
  exists c'. split; [done|]. simpl in *. split; [apply Hc| |done|].
  - exists i. rewrite Alk. split_and!; try done.
    + rewrite An. apply Hv.
    + intros _. rewrite Ai, (v_intena _ _ _ _ _ _ _ Hv). by apply Hie.
  - intros x. rewrite Alk. apply Hc.
Qed.

Lemma settle_ok p b o conts :
  goes p b o -> waiting p b conts ->
  exists y, settle p o conts = Some y /\ sys_ok y.
Proof.
  intros Hs Hw. destruct o as [a s|msg|s|s k|msg|s]; try done; simpl in Hs |- *.
  - eexists. split; [done|]. destruct Hs as [Hok Hk Hwk Hc Hr Hsz]. split; simpl; try done.
    intros q k Hq. destruct (Hw q k Hq) as (Hne & Hst & Hrel). pose proof (woken_passes p _ _ q Hwk Hne) as Hp.
    split_and!; [congruence|by eapply passes_off|]. intros s' Hs'. apply Hrel. by eapply others_again.
  - destruct Hs as [[Hok Hk Hwk Hc Hsl] Hcont].
    pose proof (switch_back_run _ _ Hc) as Hb. apply wp_Done in Hb as (a & s' & -> & c & -> & Hc').
    eexists. split; [done|]. split; simpl; try done.
    intros q k' Hq. rewrite fn_insert_case in Hq. case_decide as Hpq.
    + subst q. injection Hq as <-. split_and!; [done|done|].
      intros s' [Hz Hs']. apply Hcont. split; [done|]. destruct Hs' as [R1 R2 R3 R4 R5]. by split.
    + destruct (Hw q k' Hq) as (Hne & Hst & Hrel). split_and!; [done|by apply (passes_off _ _ (Hwk q Hne))|].
      intros s' [Hz Hs']. apply Hrel. apply (others_again p q b s s'); [done|done|by apply Hwk|].
      split; [done|]. destruct Hs' as [R1 R2 R3 R4 R5]. by split.
Qed.

Lemma exec_goes p o s :
  ready p s -> valid_args s p o -> goes p s (run_op p o s).
Proof.
  intros Hr Hv. destruct o; cbn [valid_args] in *; [..|by apply exit_goes| |]; apply safe_goes; cbn [run_op].
  - by apply listen_safe.
  - by apply connect_safe.
  - destruct Hv. by apply send_safe.
  - by apply recv_safe.
  - by apply disconnect_safe.
  - by apply yield_safe.
  - unfold safe. apply post_bind_wp. rewrite wp_Done. do 2 eexists. split; [apply upd_proc_run|].
    simpl. by apply mid_umem, ready_mid.
Qed.

Lemma resume_run q k s :
  on_cpu [LkPtable] None (k_core s) ->
  exists s1, resume q k s = k s1 /\ k_stab s1 = k_stab s /\
    on_cpu [LkPtable] (Some q) (k_core s1) /\
    p_state (proc_at s1 q) = RUNNING /\ user_same (proc_at s q) (proc_at s1 q) /\
    forall r, r <> q -> proc_at s1 r = proc_at s r.
Proof.
  intros Hc. destruct (on_cpu_view _ _ _ Hc) as (i & ie & Hv & Hie & Hl).
  assert (H : wp (cpu_set (cpu_proc (Some q))) s (fun _ s' =>
    exists c, s' = set_core c s /\ on_cpu [LkPtable] (Some q) c)).
  { eapply wp_cpu_set; [exact Hv|done|]. intros c' [Ah An Ai Ap AIF Alk].
    exists c'. split; [done|]. simpl in *. split; [apply Hc| |done|].
    - exists i. rewrite Alk. split_and!; try done.
      + rewrite An. apply Hv.
      + intros _. rewrite Ai, (v_intena _ _ _ _ _ _ _ Hv). by apply Hie.
    - intros x. rewrite Alk. apply Hc. }
  apply wp_Done in H as (a & s' & Hrun & c & -> & Hc').
  eexists. split; [unfold resume, switch_to, mbind, M_bind; rewrite Hrun; reflexivity|].
  unfold proc_at. simpl. rewrite fn_insert_eq. split_and!; try done.
  intros r Hr. by rewrite fn_insert_ne.
Qed.

Lemma step_ok y r : sys_ok y -> step y r -> exists y', r = Some y' /\ sys_ok y'.
Proof.
  intros [Hok Hcpu Hw] Hs. destruct Hs as [p o Hph Hv|q k Hph Hlt Hq Hst]; rewrite Hph in Hcpu.
  - destruct Hcpu as [Hc Hr]. apply (settle_ok p (y_k y)).
    + apply exec_goes; [by split_and!|done].
    + intros q k Hq. destruct (Hw q k Hq) as (Hne & Hst & Hrel). split_and!; try done. congruence.
  - destruct (resume_run q k (y_k y) Hcpu) as (s1 & -> & Hst1 & Hc1 & Hr1 & Hu1 & Ho1).
    apply (settle_ok q s1).
    + destruct (Hw q k Hq) as (_ & _ & Hrel). apply Hrel. split; [by rewrite Hst|]. split; try done; by rewrite Hst1.
    + intros r k' Hr. rewrite fn_insert_case in Hr. case_decide; [done|].
      destruct (Hw r k' Hr) as (_ & Hst' & Hrel). split_and!; [done|by rewrite Ho1|].
      intros s' [Hz [R1 R2 R3 R4 R5]]. apply Hrel. rewrite Hst1, Ho1 in * by done. by split.
Qed.

Lemma reach_ok y : reach y -> sys_ok y.
Proof.
  induction 1 as [y Hb|y y' _ IH Hs]; [by apply boot_ok|].
  destruct (step_ok y _ IH Hs) as (y2 & [= <-] & H2). done.
Qed.

(** C1: Every interleaving of socket operations on one processor is safe.  From boot, processes
    at user level compute, call [listen], [connect], [send], [recv] or [disconnect], exit, or lose the CPU to
    the timer, in any order.  The pointers they pass are into their memory, the length [send] gets is at most
    127 (the function does not check it; the system call passes the number of the port), and init does not
    exit, which panics.  Of [exit] all is run that follows the closing of files: sockets, children, parent and the
    last switch.  No step panics, waits for ever for a lock or
    leaves its buffers; the number of open sockets is [countSock] and at most
    32; every open socket has an owner and a port of its own below 128; and no
    lock is held at user level. *)
Theorem every_interleaving_safe (y : sys) :
  reach y ->
  (forall r, step y r -> r <> None) /\
  (forall t, t = k_stab (y_k y) ->
   countSock t = count_idx (fun i => is_open (socks t i)) NSOCK /\
   0 <= countSock t <= Z.of_nat NSOCK /\
   (forall i, (i < NSOCK)%nat -> is_open (socks t i) = true ->
      0 <= sk_lPort (socks t i) < NPORT /\ sk_owner (socks t i) <> None /\
      forall j, (j < NSOCK)%nat -> is_open (socks t j) = true ->
        sk_lPort (socks t j) = sk_lPort (socks t i) -> j = i)) /\
  (forall p, y_phase y = User p ->
     p_state (proc_at (y_k y) p) = RUNNING /\ eflags_IF (k_core (y_k y)) = true /\
     forall lk, lk_locked (locks (k_core (y_k y)) lk) = 0).
Proof.
  intros Hr. apply reach_ok in Hr as Hy. split_and!.
  - intros r Hs. destruct (step_ok y r Hy Hs) as (y' & -> & _). done.
  - destruct Hy as [[Hc Hp Hu Ho Ht] _ _]. intros t ->. rewrite Hc.
    pose proof (count_idx_bounds (fun i => is_open (socks (k_stab (y_k y)) i)) NSOCK).
    split_and!; [done|lia|lia|]. intros i Hi Hop. split_and!; [by apply Hp|by apply Hp|by apply Ho|].
    intros j Hj Hoj Heq. by apply Hu.
  - intros p Hph. destruct Hy as [_ Hcpu _]. rewrite Hph in Hcpu. destruct Hcpu as [Hc Hrun].
    split_and!; [done|by rewrite (oc_IF _ _ _ Hc)|]. intros lk. apply Hc. by apply not_elem_of_nil.
Qed.

(** ** Runs of the machine
    
    An executable form of [step], for concrete runs. *)

Definition valid_argsb (s : kstate) (p : nat) (o : op) : bool :=
  let q := proc_at s p in
  match o with
  | OConnect _ host => bool_decide (strlen (Z.to_nat (mapped_end q - host)) (p_umem q) host <> None)
  | OSend _ data n => (data + n <=? mapped_end q) && (n <=? SBUFFSIZE - 1)
  | ORecv _ data n => data + n <=? mapped_end q
  | OExit => bool_decide (initproc (k_ptab s) <> Some p)
  | _ => true
  end.

Lemma valid_argsb_ok s p o : valid_argsb s p o = true -> valid_args s p o.
Proof.
  destruct o; simpl; try done.
  - by intros H%bool_decide_eq_true.
  - intros [H1 H2]%andb_prop. split; [right|]; lia.
  - lia.
  - by intros H%bool_decide_eq_true.
Qed.

(** The running process calls an operation, or the scheduler picks a process. *)
Inductive action : Type := Call (o : op) | Pick (q : nat).

Definition act (y : sys) (a : action) : option sys :=
  match a, y_phase y with
  | Call o, User p =>
      if valid_argsb (y_k y) p o then settle p (run_op p o (y_k y)) (y_conts y) else None
  | Pick q, Sched =>
      match y_conts y q with
      | Some k =>
          if (q <? NPROC)%nat && bool_decide (p_state (proc_at (y_k y) q) = RUNNABLE)
          then settle q (resume q k (y_k y)) (<[q := None]> (y_conts y)) else None
      | None => None
      end
  | _, _ => None
  end.

Fixpoint run (l : list action) (y : sys) : option sys :=
  match l with
  | [] => Some y
  | a :: l' => match act y a with Some y' => run l' y' | None => None end
  end.

Lemma act_step y a y' : act y a = Some y' -> step y (Some y').
Proof.
  unfold act. destruct a as [o|q], (y_phase y) as [p|] eqn:Hph; try done.
  - destruct (valid_argsb _ _ o) eqn:Hv; [|done]. intros <-.
    apply (step_op y p o); [done|by apply valid_argsb_ok].
  - destruct (y_conts y q) as [k|] eqn:Hk; [|done].
    destruct (_ && _) eqn:Hc; [|done]. intros <-. apply andb_prop in Hc as [H1 H2].
    apply (step_pick y q k); [done|by apply Nat.ltb_lt|done|by apply bool_decide_eq_true in H2].
Qed.

Lemma run_reach l : forall y y', reach y -> run l y = Some y' -> reach y'.
Proof.
  induction l as [|a l IH]; intros y y' Hr; simpl; [by intros [= <-]|].
  destruct (act y a) as [y1|] eqn:Ha; [|done]. apply IH. eapply reach_step; [exact Hr|].
  by apply (act_step y a).
Qed.

Module Demo.

(** The scheduler after boot, with four processes that have not run yet; each
    has the string localhost at address 0. *)
Definition sched_core : core :=
  mkCore 0 false 1 (fun _ => mkCpu 0 1 true None)
    (<[LkPtable := mkLock 1 "ptable" (Some 0%nat)]> (fun _ => mkLock 0 "" None)).

Definition y0 : sys :=
  mkSys (set_core sched_core
      (start None (fun i => if (i <? 4)%nat then user_process RUNNABLE (Z.of_nat i + 1) (cstr "localhost")
                            else zero_proc) empty_stab))
    Sched (fun q => if (q <? 4)%nat then Some forkret_rest else None).

Lemma y0_boot : boot y0.
Proof.
  split; try done.
  - split; [by constructor; [apply not_elem_of_nil|constructor]| |done|].
    + exists 0%nat. split_and!; try done. intros lk Hlk. apply list_elem_of_singleton in Hlk as ->. done.
    + intros lk Hlk. rewrite list_elem_of_singleton in Hlk. unfold free_lock. simpl.
      by rewrite fn_insert_ne.
  - intros q k. simpl. destruct (q <? 4)%nat eqn:E; [|done]. intros [= <-]. split; [|done].
    unfold proc_at. simpl. by rewrite E.
Qed.

(** The state after a run from [y0]. *)
Definition after (l : list action) : sys := default y0 (run l y0).

Lemma after_reach l :
  match run l y0 with Some _ => true | None => false end = true -> reach (after l).
Proof.
  unfold after. destruct (run l y0) as [y|] eqn:E; [|done]. intros _.
  eapply run_reach; [apply reach_boot, y0_boot|exact E].
Qed.

(** Process 0 listens on port 5, process 1 connects (it gets port 127). *)
Definition connected : list action :=
  [Pick 0; Call (OListen 5); Pick 1; Call (OConnect 5 0)]%nat.

(** Then process 0 sends and waits in [recv]; process 1 takes the message. *)
Definition spurious : list action :=
  connected ++ [Call OTimer; Pick 0; Call (OSend 5 0 20); Call (ORecv 5 100 20);
                Pick 1; Call (ORecv 127 100 20); Call OTimer]%nat.

(** Or process 1 disconnects, process 2 listens on port 6 and process 3 connects
    to it; then process 0, still connected to port 127, sends. *)
Definition stranger : list action :=
  connected ++ [Call (ODisconnect 127); Call OTimer; Pick 2; Call (OListen 6);
                Pick 3; Call (OConnect 6 0); Call OTimer; Pick 0; Call (OSend 5 0 20)]%nat.
End Demo.

Lemma every_interleaving_safe_witness :
  reach (Demo.after Demo.connected) /\ countSock (k_stab (y_k (Demo.after Demo.connected))) = 2 /\
  settle 1 (run_op 1 OExit (y_k (Demo.after Demo.connected))) (y_conts (Demo.after Demo.connected)) <> None /\
  countSock (k_stab (y_k (Demo.after (Demo.connected ++ [Call OExit])))) = 1.
Proof.
  assert (Hr : reach (Demo.after Demo.connected)) by (apply Demo.after_reach; vm_compute; reflexivity).
  split_and!; [exact Hr|vm_compute; reflexivity| |vm_compute; reflexivity].
  apply (proj1 (every_interleaving_safe _ Hr)).
  apply (step_op _ 1 OExit); [vm_compute; reflexivity|vm_compute; discriminate].
Defined.

(** What the operation process [q] waits in returns if [q] is picked now, and
    the state then. *)
Definition reply (y : sys) (q : nat) : option (Z * kstate) :=
  match y_conts y q with
  | Some k => match resume q k (y_k y) with Done r s => Some (r, s) | _ => None end
  | None => None
  end.

Definition user_string_at (q : nat) (a : Z) (s : kstate) : list Z :=
  cstring 20 (p_umem (proc_at s q)) a.

(** A reachable run in which [recv] returns 0 without a message.  Process 0
    sends to process 1 and then waits in [recv]; process 1 has sent nothing; its
    own [recv] takes the message and wakes process 0, whose [recv] then returns 0
    with an empty string, its buffer having been empty all along. *)
Theorem recv_returns_without_message :
  reach (Demo.after Demo.spurious) /\
  sk_hasfullbuffer (sock_at (y_k (Demo.after Demo.spurious)) 0) = false /\
  fst <$> reply (Demo.after Demo.spurious) 0 = Some 0 /\
  user_string_at 0 100 ∘ snd <$> reply (Demo.after Demo.spurious) 0 = Some [] /\
  user_string_at 1 100 ∘ snd <$> reply (Demo.after Demo.spurious) 0 =
    Some (cstring 20 (cstr "localhost") 0).
Proof.
  split; [apply Demo.after_reach; vm_compute; reflexivity|].
  split_and!; vm_compute; reflexivity.
Qed.

(** A reachable run in which a message reaches a stranger.  Process 0 is
    connected to process 1 at port 127; process 1 disconnects and process 3,
    connecting to somebody else, gets port 127; the [send] of process 0 then
    succeeds and its message is in the buffer of process 3. *)
Theorem send_reaches_a_stranger :
  reach (Demo.after Demo.stranger) /\
  y_phase (Demo.after Demo.stranger) = User 0 /\
  find_port (k_stab (y_k (Demo.after Demo.connected))) 127 = Some 1%nat /\
  sk_owner (sock_at (y_k (Demo.after Demo.connected)) 1) = Some 1%nat /\
  find_port (k_stab (y_k (Demo.after Demo.stranger))) 127 = Some 2%nat /\
  sk_owner (sock_at (y_k (Demo.after Demo.stranger)) 2) = Some 3%nat /\
  sk_rPort (sock_at (y_k (Demo.after Demo.stranger)) 2) = 6 /\
  sk_hasfullbuffer (sock_at (y_k (Demo.after Demo.stranger)) 2) = true /\
  cstring 20 (sk_recvbuffer (sock_at (y_k (Demo.after Demo.stranger)) 2)) 0 =
    cstring 20 (cstr "localhost") 0.
Proof.
  split; [apply Demo.after_reach; vm_compute; reflexivity|].
  split_and!; vm_compute; reflexivity.
Qed.
