(* ===== verification/SockLive.v ===== *)
(** * A wakeup of the sockets is not lost

    A process that waits in [recv] sleeps on the socket of its peer, a process that
    waits in [send] on the socket of the receiver.  The peer's call that ends the wait
    makes the sleeper runnable, and the rest of the sleeper's call completes. *)

From S2P Require Import Prelude CString KState Spinlock Proc Sock SockConc SockSpec SockApi SockSys.

(** A process of the table that sleeps on [ch]. *)
Definition sleeps_on (q : nat) (ch : chan) (s : kstate) : Prop :=
  (q < NPROC)%nat /\ p_state (proc_at s q) = SLEEPING /\ p_chan (proc_at s q) = Some ch.

Lemma wake_tab_wakes q ch s c : sleeps_on q ch s -> p_state (proc_at (set_core c (set_ptab (wake_tab ch (k_ptab s)) s)) q) = RUNNABLE.
Proof.
  intros (Hq & Hs & Hc). unfold proc_at in *. simpl. rewrite (proj2 (Nat.ltb_lt q NPROC)) by done.
  unfold wake_proc. by rewrite Hs, Hc, !bool_decide_true.
Qed.

Section wakes.
Context (p q : nat).

Lemma send_rest_wakes s l r r' data n :
  on_cpu [LkStable] (Some p) (k_core s) -> find_port (k_stab s) (sk_rPort (sock_at s l)) = Some r' ->
  message_fits (proc_at s p) data n -> n <= SBUFFSIZE - 1 -> sleeps_on q (ChSock l) s ->
  wp (send_rest l r data n) s (fun _ s' => p_state (proc_at s' q) = RUNNABLE).
Proof.
  intros Hc Hf (k & Hk & Hkn) Hn Hs. unfold send_rest. wp_step. wp_step. rewrite Hf.
  assert (Hrun : running s = Some p).
  { unfold running. by destruct (oc_here _ _ _ Hc) as (i & -> & -> & _). }
  apply wp_bind. unfold user_source, user_proc. apply wp_bind. unfold wp at 1. rewrite Hrun, Hk. apply wp_ret.
  destruct (n >? SBUFFSIZE) eqn:E; [unfold SBUFFSIZE in *; lia|]. clear E.
  wp_step. wp_step. apply wp_bind. eapply wp_wakeup; [exact Hc|apply stable_not_ptable|]. intros c1 C1.
  eapply wp_retsockfunc; [exact C1|]. intros c2 C2. by apply wake_tab_wakes.
Qed.

Lemma send_wakes s lport l r data n :
  ready p s -> inv_port lport = false -> pair_of (k_stab s) (Some p) lport = inr (l, r) ->
  sk_hasfullbuffer (sock_at s r) = false -> message_fits (proc_at s p) data n -> n <= SBUFFSIZE - 1 -> sleeps_on q (ChSock l) s ->
  wp (send lport data n) s (fun _ s' => p_state (proc_at s' q) = RUNNABLE).
Proof.
  intros (Hok & Hc & Hrun) Hinv Hpair Hfull Hm Hn Hs. destruct (pair_of_inr p _ lport l r Hok Hpair) as (_ & _ & _ & _ & _ & _ & Hf & _).
  unfold send. rewrite Hinv. apply wp_bind. eapply wp_acquire; [exact Hc|by apply not_elem_of_nil|]. intros c1 C1.
  apply wp_bind. eapply wp_connected_pair; [exact C1|]. intros c2 C2. change (k_stab (set_core c1 s)) with (k_stab s). rewrite Hpair.
  wp_step. change (sock_at (set_core c2 (set_core c1 s)) r) with (sock_at s r). rewrite Hfull. apply wp_bind, wp_ret.
  by apply (send_rest_wakes _ l r r).
Qed.
End wakes.

Lemma safe_wp p (m : K Z) s (Q : Z -> kstate -> Prop) :
  safe p s (m s) -> wp m s Q -> wp m s (fun a s' => Q a s' /\ mid p [] s s').
Proof. unfold safe, wp. destruct (m s); done. Qed.

Lemma message_fits_readable q data n : message_fits q data n -> user_readable q data n.
Proof. intros (k & Hk & _). left. unfold user_string. by rewrite Hk. Qed.

(** What may happen between two steps of the exchange: the connection of [p] and [q] stays. *)
Record between (p q : nat) (s s' : kstate) : Prop := mkBetween {
  bt_p : keeps p (k_stab s) (k_stab s');
  bt_q : keeps q (k_stab s) (k_stab s');
  bt_chan : p_state (proc_at s' q) = p_state (proc_at s q) /\ p_chan (proc_at s' q) = p_chan (proc_at s q);
  bt_user : user_same (proc_at s q) (proc_at s' q)
}.

(** The slot of an endpoint its owner keeps. *)
Lemma keeps_slot p t t' port i : stable_ok t -> stable_ok t' -> keeps p t t' -> find_port t port = Some i -> sk_owner (socks t i) = Some p ->
  find_port t' port = Some i.
Proof.
  intros Hok Hok' Hk Hf Hw. apply find_port_Some in Hf as (Hi & Ho & Hp); [|done]. destruct (Hk i Hi Ho Hw) as (Ho' & _ & Hp' & _).
  apply find_port_Some; [done|]. split_and!; [done|done|congruence].
Qed.

(** The connection of [p] at port [lp] with [q] at port [rp], [q] having the message [m]. *)
Definition linked (p q : nat) (lp rp : Z) (n : net) (m : option (list Z)) : Prop :=
  (exists o, n !! lp = Some (mkEnd (Some p) CONNECTED rp o)) /\ n !! rp = Some (mkEnd (Some q) CONNECTED lp m).

(** What a waiting process relies on survives a run of another one. *)
Lemma others_rely p q b s s' :
  q <> p -> others_keep p (k_stab b) (k_stab s) -> others_woken p (k_ptab b) (k_ptab s) ->
  rely q s s' -> rely q b s'.
Proof.
  intros Hq Hk (Hw & _) [Rok Rk Rc Rr [Rs Ru]]. split; try done.
  - etransitivity; [by apply Hk|done].
  - destruct (Hw q Hq) as [E|[_ E]]; unfold user_same, proc_at in *; rewrite E in *; done.
Qed.

(** [rely] across a wait, the step of the peer and the time after it. *)
Lemma rely_across p q s1 s2 s3 s4 : between p q s1 s2 -> q <> p -> mid p [] s2 s3 -> rely q s3 s4 -> rely q s1 s4.
Proof.
  intros [_ Bq _ [Bs Bu]] Hne [_ Mk Mw _ _ _] Hr. pose proof (others_rely p q s2 s3 s4 Hne Mk Mw Hr) as [R1 R2 R3 R4 [R5 R6]].
  split; [done|by etransitivity|done|done|]. split; congruence.
Qed.

(** The slot of an endpoint. *)
Lemma endpoint_slot t port e : stable_ok t -> abs t !! port = Some e -> exists i, find_port t port = Some i /\ endpoint_of (socks t i) = e.
Proof.
  intros Hok He. rewrite abs_lookup in He by done. destruct (find_port t port) as [i|]; [|done]. exists i. split; [done|].
  by injection He.
Qed.

Lemma linked_msg p q lp rp n m msg : q <> p -> linked p q lp rp n m -> linked p q lp rp (alter (put_msg (Some msg)) rp n) (Some msg).
Proof.
  intros Hne [[o Hl] Hr]. assert (lp <> rp) by (intros ->; rewrite Hl in Hr; naive_solver).
  split; [exists o; by rewrite lookup_alter_ne|]. by rewrite lookup_alter_eq, Hr.
Qed.

(** The end of a [recv] that waited. *)
Lemma recv_result_takes q k s s4 l4 lp rp d n msg e : stable_ok (k_stab s) -> abs (k_stab s) !! rp = Some (mkEnd (Some q) CONNECTED lp e) ->
  rely q s s4 -> e_msg <$> abs (k_stab s4) !! rp = Some (Some msg) -> find_port (k_stab s4) rp = Some l4 -> recv_result q k s4 l4 d n ->
  wp k s4 (fun c s5 => delivered q s4 s5 d n msg /\ ready q s5 /\
    c = match abs (k_stab s4) !! lp with Some _ => 0 | None => E_CONNECTION_RESET_BY_REMOTE end).
Proof.
  intros Hok He R4 Hmsg Hf4 Hres. pose proof (r_ok _ _ _ R4) as Hok4. destruct (endpoint_slot _ _ _ Hok He) as (l3 & Hf3 & E3).
  injection E3 as E1 E2 E3 _. pose proof (proj1 (find_port_Some _ _ _ Hok) Hf3) as (Hl3 & Ho3 & _).
  pose proof (keeps_slot q _ _ rp l3 Hok Hok4 (r_keep _ _ _ R4) Hf3 E1) as Hf. rewrite Hf4 in Hf. injection Hf as ->.
  destruct (r_keep _ _ _ R4 l3 Hl3 Ho3 E1) as (_ & _ & _ & Hc). destruct (Hc E2) as [_ Erp].
  unfold recv_result in Hres. rewrite Erp, E3 in Hres. rewrite abs_lookup, Hf4 in Hmsg by done. simpl in Hmsg. unfold endpoint_of in Hmsg.
  destruct (sk_hasfullbuffer (socks (k_stab s4) l3)); [|done]. injection Hmsg as Hmsg.
  eapply wp_mono; [|exact Hres]. intros c s5 (H1 & H2 & H3). unfold buffered in H1. rewrite Hmsg in H1.
  split_and!; [done|done|]. destruct (abs (k_stab s4) !! lp); apply H3.
Qed.

(** C22: A process that waits for a message gets it.  On a connection whose receive buffer
    is empty, [recv] puts the process to sleep.  Whatever happens meanwhile to other
    sockets and processes, when the peer sends a message that fits, [send] returns 0 and
    the sleeper is runnable: the wakeup is not lost.  And whenever the scheduler runs it,
    with the message still in its buffer, the rest of its [recv] completes with the
    message in its memory: with code 0 if the peer's endpoint is still there, with the
    reset code if not. *)
Theorem blocked_recv_completes (p q : nat) (lp rp d1 n1 d2 n2 : Z) (s : kstate)
  (Hq : (q < NPROC)%nat) (Hr : ready q s) (Hd : d2 + n2 <= mapped_end (proc_at s q)) (Hl : linked p q lp rp (abs (k_stab s)) None) :
  sleeps (recv rp d2 n2 s) (fun s1 k => p_state (proc_at s1 q) = SLEEPING /\
    forall s2, ready p s2 -> between p q s1 s2 -> linked p q lp rp (abs (k_stab s2)) None ->
      message_fits (proc_at s2 p) d1 n1 -> n1 <= SBUFFSIZE - 1 ->
      let msg := user_message (proc_at s2 p) d1 in
      wp (send lp d1 n1) s2 (fun c s3 => c = 0 /\ p_state (proc_at s3 q) = RUNNABLE /\ linked p q lp rp (abs (k_stab s3)) (Some msg) /\
        forall s4, rely q s3 s4 -> e_msg <$> abs (k_stab s4) !! rp = Some (Some msg) ->
          wp k s4 (fun c s5 => delivered q s4 s5 d2 n2 msg /\ ready q s5 /\
            c = match abs (k_stab s4) !! lp with Some _ => 0 | None => E_CONNECTION_RESET_BY_REMOTE end))).
Proof.
  destruct Hl as [[o Hlp] Hrp]. pose proof Hr as (Hok & _ & _).
  destruct (pair_of_connected _ q rp lp _ _ Hok Hrp Hlp eq_refl) as (l & r & Hpair & Hinv & Elp & Hel & _).
  change (recv rp d2 n2) with (if inv_port rp then mret E_INVALID_ARG else
    acquire LkStable;; pair ← connected_pair rp; recv_locked d2 n2 pair). rewrite Hinv.
  eapply sleeps_mono; [|apply (recv_sleeps q rp d2 n2 s l r Hr Hinv Hpair (endpoint_of_empty _ _ _ _ Hel) Hd)].
  intros s1 k (Ht1 & Has & Hu1 & Hk). rewrite Elp in Has. destruct Has as (i & Hi & Hsl & Hch & _). split; [done|].
  intros s2 R2 B2 [[o2 Hlp2] Hrp2] Hm Hn msg.
  assert (Hne : q <> p).
  { intros ->. destruct (bt_chan _ _ _ _ B2) as [E _]. destruct R2 as (_ & _ & E2). congruence. }
  destruct (pair_of_connected _ p lp rp _ _ (proj1 R2) Hlp2 Hrp2 eq_refl) as (l2 & r2 & Hpair2 & Hinv2 & Erp2 & _ & Her2).
  assert (El : l2 = i).
  { rewrite Ht1 in Hi. destruct (endpoint_slot _ _ _ Hok Hlp) as (j & Hj & Ej). rewrite Hi in Hj. injection Hj as <-.
    destruct (pair_of_inr p _ lp l2 r2 (proj1 R2) Hpair2) as (H1 & H2 & _ & _ & _ & H3 & _).
    assert (F1 : find_port (k_stab s2) lp = Some l2) by (by apply find_port_Some; [apply R2|]).
    assert (F2 : find_port (k_stab s2) lp = Some i); [|congruence].
    apply (keeps_slot p (k_stab s1)); rewrite ?Ht1; [done|apply R2|rewrite <- Ht1; apply B2|done|]. by injection Ej. }
  subst l2. assert (Hso : sleeps_on q (ChSock i) s2) by (destruct (bt_chan _ _ _ _ B2) as [E1 E2]; split_and!; congruence).
  pose proof (endpoint_of_empty _ _ _ _ Her2) as Hemp.
  pose proof (send_delivers p lp d1 n1 s2 i r2 R2 Hinv2 Hpair2 Hemp Hm Hn) as Hsend. unfold returns, sock_at in Hsend. rewrite Erp2 in Hsend.
  pose proof (send_safe p lp d1 n1 s2 R2 (message_fits_readable _ _ _ Hm) Hn) as Hsafe.
  eapply wp_mono; [|exact (safe_wp _ _ _ _ Hsafe (wp_and _ _ _ _ Hsend (send_wakes p q s2 lp i r2 d1 n1 R2 Hinv2 Hpair2 Hemp Hm Hn Hso)))].
  intros c s3 [[(-> & Habs & R3 & Hu3) Hrun] Hmid]. split_and!; [done|done| |].
  { rewrite Habs. apply (linked_msg _ _ _ _ _ None); [done|]. split; [by exists o2|done]. }
  intros s4 R4 Hmsg. destruct (Hk s4 (rely_across _ _ _ _ _ _ B2 Hne Hmid R4)) as (l4 & Hf4 & Hres).
  eapply (recv_result_takes q k s3); [apply R3| |done..]. rewrite Habs, lookup_alter_eq, Hrp2. done.
Qed.

Definition asleep_state (o : outcome kstate Z) : kstate := match o with Asleep s _ => s | _ => Example.st 0 end.

(** Process 1 waits; then process 0 runs and sends. *)
Lemma blocked_recv_completes_witness :
  sleeps (recv 127 10 50 (Example.st 1)) (fun s1 k => p_state (proc_at s1 1) = SLEEPING /\
    wp (send 5 0 100) (set_core (one_cpu (Some 0%nat)) s1) (fun c s3 => c = 0 /\ p_state (proc_at s3 1) = RUNNABLE)).
Proof.
  assert (Hl : linked 0 1 5 127 (abs Example.pair_stab) None).
  { split; [exists None|]; rewrite abs_lookup by exact Example.pair_stab_ok; reflexivity. }
  pose proof (blocked_recv_completes 0 1 5 127 0 100 10 50 (Example.st 1) ltac:(apply Nat.ltb_lt; reflexivity)
    (Example.st_ready 1 ltac:(lia)) ltac:(vm_compute; discriminate) Hl) as H.
  destruct (recv 127 10 50 (Example.st 1)) as [| | |s1 k| |] eqn:E; try contradiction. destruct H as [Hs H]. split; [exact Hs|].
  assert (E1 : s1 = asleep_state (recv 127 10 50 (Example.st 1))) by (rewrite E; reflexivity).
  assert (Et : k_stab s1 = Example.pair_stab) by (rewrite E1; vm_compute; reflexivity).
  assert (Ep : proc_at s1 0 = Example.two_procs 0) by (rewrite E1; vm_compute; reflexivity).
  refine (wp_mono _ _ _ _ _ (H (set_core (one_cpu (Some 0%nat)) s1) _ _ _ _ _)).
  - intros c s3 (-> & Hrun & _). split; [reflexivity|exact Hrun].
  - split_and!; [change (stable_ok (k_stab s1)); rewrite Et; exact Example.pair_stab_ok|apply one_cpu_on|].
    change (p_state (proc_at s1 0) = RUNNING). rewrite Ep. reflexivity.
  - split; [apply keeps_refl|apply keeps_refl|split; reflexivity|split; reflexivity].
  - change (linked 0 1 5 127 (abs (k_stab s1)) None). rewrite Et. exact Hl.
  - change (message_fits (proc_at s1 0) 0 100). rewrite Ep. exists 5. split; [vm_compute; reflexivity|lia].
  - unfold SBUFFSIZE. lia.
Defined.
