(* ===== verification/SysArg.v ===== *)
(** * syscall.c, first part, and syssock.c: arguments of system calls and the
      socket system calls

    [fetchint], [fetchstr], [argint], [argptr] and [argstr] check what a process
    passes against the size of its memory.  A C function that stores through a
    pointer and returns 0 or -1 is here a computation of an [option]. *)

From S2P Require Import Prelude CString KState Spinlock Proc Sock SockConc.

(** ** syscall.c: fetching arguments *)

(** [*( int* )addr] of the running process. *)
Definition fetchint (addr : Z) : K (option Z) :=
  '(_, p) ← curproc;
  if (addr >=? p_sz p) || (uint32 (addr + 4) >? p_sz p) then mret None
  else mret (Some (int32 (load32 (p_umem p) addr))).

(** The length of the string and its address. *)
Definition fetchstr (addr : Z) : K (option (Z * Z)) :=
  '(_, p) ← curproc;
  if addr >=? p_sz p then mret None
  else
    match strlen (Z.to_nat (p_sz p - addr)) (p_umem p) addr with
    | Some n => mret (Some (n, addr))
    | None => mret None
    end.

Definition argint (n : Z) : K (option Z) :=
  '(_, p) ← curproc;
  fetchint (uint32 (tf_esp (p_tf p) + 4 + 4 * n)).

Definition argptr (n size : Z) : K (option Z) :=
  '(_, p) ← curproc;
  i ← argint n;
  match i with
  | None => mret None
  | Some i =>
      if (size <? 0) || (uint32 i >=? p_sz p) || (uint32 (uint32 i + size) >? p_sz p) then mret None
      else mret (Some (uint32 i))
  end.

Definition argstr (n : Z) : K (option (Z * Z)) :=
  addr ← argint n;
  match addr with
  | None => mret None
  | Some addr => fetchstr (uint32 addr)
  end.

(** ** syssock.c *)

Definition sys_listen : K Z :=
  port ← argint 0;
  match port with
  | None => mret E_MISSING_ARG
  | Some port => listen port
  end.

Definition sys_connect : K Z :=
  port ← argint 0;
  match port with
  | None => mret E_MISSING_ARG
  | Some port =>
      host ← argstr 1;
      match host with
      | None => mret E_MISSING_ARG
      | Some (_, host) => connect port host
      end
  end.

(** The third argument is fetched with [argint(0, &n)]. *)
Definition sys_send : K Z :=
  port ← argint 0;
  match port with
  | None => mret E_MISSING_ARG
  | Some port =>
      buf ← argstr 1;
      match buf with
      | None => mret E_MISSING_ARG
      | Some (_, buf) =>
          n ← argint 0;
          match n with
          | None => mret E_MISSING_ARG
          | Some n => send port buf n
          end
      end
  end.

Definition sys_recv : K Z :=
  port ← argint 0;
  match port with
  | None => mret E_MISSING_ARG
  | Some port =>
      buf ← argptr 1 4;
      match buf with
      | None => mret E_MISSING_ARG
      | Some buf =>
          n ← argint 2;
          match n with
          | None => mret E_MISSING_ARG
          | Some n => recv port buf n
          end
      end
  end.

Definition sys_disconnect : K Z :=
  port ← argint 0;
  match port with
  | None => mret E_MISSING_ARG
  | Some port => disconnect port
  end.

(** ** The checks as functions of the process *)

Definition int_at (q : proc) (addr : Z) : option Z :=
  if (addr >=? p_sz q) || (uint32 (addr + 4) >? p_sz q) then None
  else Some (int32 (load32 (p_umem q) addr)).

Definition int_arg (q : proc) (n : Z) : option Z := int_at q (uint32 (tf_esp (p_tf q) + 4 + 4 * n)).

Definition str_arg (q : proc) (n : Z) : option (Z * Z) :=
  match int_arg q n with
  | None => None
  | Some a =>
      if uint32 a >=? p_sz q then None
      else match strlen (Z.to_nat (p_sz q - uint32 a)) (p_umem q) (uint32 a) with
           | Some k => Some (k, uint32 a)
           | None => None
           end
  end.

Definition ptr_arg (q : proc) (n size : Z) : option Z :=
  match int_arg q n with
  | None => None
  | Some i =>
      if (size <? 0) || (uint32 i >=? p_sz q) || (uint32 (uint32 i + size) >? p_sz q) then None
      else Some (uint32 i)
  end.

Section fetch.
Context (L : list lockid) (p : nat).

Lemma wp_fetchint addr s (Q : option Z -> kstate -> Prop) :
  on_cpu L (Some p) (k_core s) ->
  (forall c, on_cpu L (Some p) c -> Q (int_at (proc_at s p) addr) (set_core c s)) ->
  wp (fetchint addr) s Q.
Proof.
  intros Hc HQ. apply wp_bind. eapply wp_curproc; [exact Hc|]. intros c Hc'.
  specialize (HQ c Hc'). unfold int_at in HQ. by destruct (_ || _).
Qed.

Lemma wp_argint n s (Q : option Z -> kstate -> Prop) :
  on_cpu L (Some p) (k_core s) ->
  (forall c, on_cpu L (Some p) c -> Q (int_arg (proc_at s p) n) (set_core c s)) ->
  wp (argint n) s Q.
Proof.
  intros Hc HQ. apply wp_bind. eapply wp_curproc; [exact Hc|]. intros c Hc'.
  eapply wp_fetchint; [exact Hc'|]. intros c2 Hc2. by apply (HQ c2).
Qed.

Lemma wp_argstr n s (Q : option (Z * Z) -> kstate -> Prop) :
  on_cpu L (Some p) (k_core s) ->
  (forall c, on_cpu L (Some p) c -> Q (str_arg (proc_at s p) n) (set_core c s)) ->
  wp (argstr n) s Q.
Proof.
  intros Hc HQ. apply wp_bind. eapply wp_argint; [exact Hc|]. intros c Hc'.
  unfold str_arg in HQ. destruct (int_arg _ n) as [a|]; [|by apply HQ].
  apply wp_bind. eapply wp_curproc; [exact Hc'|]. intros c2 Hc2. specialize (HQ c2 Hc2).
  change (proc_at (set_core c s) p) with (proc_at s p).
  destruct (uint32 a >=? _); [done|]. by destruct (strlen _ _ _).
Qed.

Lemma wp_argptr n size s (Q : option Z -> kstate -> Prop) :
  on_cpu L (Some p) (k_core s) ->
  (forall c, on_cpu L (Some p) c -> Q (ptr_arg (proc_at s p) n size) (set_core c s)) ->
  wp (argptr n size) s Q.
Proof.
  intros Hc HQ. apply wp_bind. eapply wp_curproc; [exact Hc|]. intros c Hc'.
  apply wp_bind. eapply wp_argint; [exact Hc'|]. intros c2 Hc2. specialize (HQ c2 Hc2).
  unfold ptr_arg in HQ. change (proc_at (set_core c s) p) with (proc_at s p).
  destruct (int_arg _ n) as [i|]; [|done]. by destruct (_ || _ || _).
Qed.
End fetch.

(** ** What the checks guarantee *)

Lemma ptr_arg_inside q n size a :
  p_sz q <= KERNBASE -> size < 2147483648 ->
  ptr_arg q n size = Some a -> 0 <= a /\ 0 <= size /\ a + size <= p_sz q.
Proof.
  intros Hsz Hs. unfold ptr_arg. destruct (int_arg q n) as [i|]; [|done].
  destruct ((size <? 0) || (uint32 i >=? p_sz q) || (uint32 (uint32 i + size) >? p_sz q)) eqn:E; [done|].
  intros [= <-]. pose proof (uint32_range i) as Hr. rewrite !orb_false_iff in E.
  assert (0 <= size) by lia. rewrite (uint32_small (uint32 i + size)) in E by (unfold KERNBASE, W32 in *; lia).
  lia.
Qed.

Lemma str_arg_inside q n k a :
  str_arg q n = Some (k, a) ->
  0 <= a /\ 0 <= k /\ a + k < p_sz q /\ p_umem q (a + k) = 0 /\
  forall j, 0 <= j < k -> p_umem q (a + j) <> 0.
Proof.
  unfold str_arg. destruct (int_arg q n) as [i|]; [|done].
  destruct (uint32 i >=? p_sz q); [done|].
  destruct (strlen _ _ _) as [k'|] eqn:Hk; [|done]. intros [= -> <-].
  apply strlen_spec in Hk as (Hr & Hz & Hne). pose proof (uint32_range i).
  split_and!; [lia|lia|lia|done|done].
Qed.

Lemma mapped_end_ge q : 0 <= p_sz q <= KERNBASE -> p_sz q <= mapped_end q.
Proof.
  intros H. unfold mapped_end.
  pose proof (PGROUNDUP_bounds (p_sz q) ltac:(unfold KERNBASE, W32, PGSIZE in *; lia)). lia.
Qed.

(** A string argument is a string the kernel can read. *)
Lemma str_arg_user_string q n k a :
  0 <= p_sz q <= KERNBASE -> str_arg q n = Some (k, a) -> user_string q a.
Proof.
  intros Hsz (Ha & Hk & Hin & Hz & Hne)%str_arg_inside. pose proof (mapped_end_ge q Hsz).
  apply (strlen_None_no_nul _ _ _ k); [lia|done].
Qed.

(** C25: A pointer argument that [argptr] accepts, with the size the caller
    gives (a C [int]), lies inside the process's memory; a string that [argstr] accepts ends
    there, and the length returned is its length.  Neither depends on what the
    process put on its stack; of the whole kernel state nothing changes but the record of the
    CPU, which ends with no lock held and interrupts on, as it began. *)
Theorem arguments_inside (p : nat) (s : kstate) (n size : Z) :
  ready p s -> p_sz (proc_at s p) <= KERNBASE -> size < 2147483648 ->
  wp (argptr n size) s (fun r s' =>
    s' = set_core (k_core s') s /\ on_cpu [] (Some p) (k_core s') /\
    forall a, r = Some a -> 0 <= a /\ 0 <= size /\ a + size <= p_sz (proc_at s p)) /\
  wp (argstr n) s (fun r s' =>
    s' = set_core (k_core s') s /\ on_cpu [] (Some p) (k_core s') /\
    forall k a, r = Some (k, a) -> 0 <= a /\ 0 <= k /\ a + k < p_sz (proc_at s p) /\
      p_umem (proc_at s p) (a + k) = 0 /\ forall j, 0 <= j < k -> p_umem (proc_at s p) (a + j) <> 0).
Proof.
  intros (_ & Hc & _) Hsz Hs. split.
  - eapply wp_argptr; [exact Hc|]. intros c Hc'. split_and!; [done..|].
    intros a. by apply ptr_arg_inside.
  - eapply wp_argstr; [exact Hc|]. intros c Hc'. split_and!; [done..|].
    intros k a. apply str_arg_inside.
Qed.

(** ** The socket calls are safe whatever the process passes *)

Lemma post_base {S A} (G R : S -> S -> Prop) (Q : S -> A -> S -> Prop) b b' o :
  (forall s, G b s -> G b' s) -> (forall a s, Q b a s -> Q b' a s) ->
  post G R Q b o -> post G R Q b' o.
Proof. intros HG HQ. destruct o; simpl; auto. intros [H1 H2]. auto. Qed.

(** The run may as well have begun before the CPU's nesting record changed. *)
Lemma safe_core p c b o : safe p (set_core c b) o -> safe p b o.
Proof.
  apply post_base.
  - intros s []. by split.
  - intros a s []. by split.
Qed.

Section calls.
Context (p : nat) (s : kstate).
Hypothesis (Hr : ready p s) (Hsz : 0 <= p_sz (proc_at s p) <= KERNBASE).

Lemma ready_core c : on_cpu [] (Some p) c -> ready p (set_core c s).
Proof. intros Hc. destruct Hr as (H1 & H2 & H3). exact (conj H1 (conj Hc H3)). Qed.

Lemma ret_safe c code : on_cpu [] (Some p) c -> safe p s ((mret code : K Z) (set_core c s)).
Proof.
  intros Hc. apply (safe_core p c). apply (wp_post _ _ (mret code : K Z)), wp_ret.
  by apply ready_mid, ready_core.
Qed.

Lemma sys_listen_safe : safe p s (sys_listen s).
Proof.
  unfold sys_listen. apply post_bind_wp. eapply wp_argint; [apply Hr|]. intros c Hc.
  destruct (int_arg _ 0) as [port|]; [|by apply ret_safe].
  apply (safe_core p c), listen_safe. by apply ready_core.
Qed.

Lemma sys_connect_safe : safe p s (sys_connect s).
Proof.
  unfold sys_connect. apply post_bind_wp. eapply wp_argint; [apply Hr|]. intros c Hc.
  destruct (int_arg _ 0) as [port|]; [|by apply ret_safe].
  apply post_bind_wp. eapply wp_argstr; [exact Hc|]. intros c2 Hc2. rewrite set_core_set_core.
  change (proc_at (set_core c s) p) with (proc_at s p).
  destruct (str_arg _ 1) as [[k a]|] eqn:Ha; [|by apply ret_safe].
  apply (safe_core p c2), connect_safe; [by apply ready_core|]. by eapply str_arg_user_string.
Qed.

Lemma int_arg_port n port : int_arg (proc_at s p) n = Some port -> inv_port port = false -> port <= SBUFFSIZE - 1.
Proof. unfold inv_port, NPORT, SBUFFSIZE. lia. Qed.

Lemma sys_send_safe : safe p s (sys_send s).
Proof.
  unfold sys_send. apply post_bind_wp. eapply wp_argint; [apply Hr|]. intros c Hc.
  destruct (int_arg _ 0) as [port|] eqn:Hport; [|by apply ret_safe].
  apply post_bind_wp. eapply wp_argstr; [exact Hc|]. intros c2 Hc2. rewrite set_core_set_core.
  change (proc_at (set_core c s) p) with (proc_at s p).
  destruct (str_arg _ 1) as [[k a]|] eqn:Ha; [|by apply ret_safe].
  apply post_bind_wp. eapply wp_argint; [exact Hc2|]. intros c3 Hc3. rewrite set_core_set_core.
  change (proc_at (set_core c2 s) p) with (proc_at s p). rewrite Hport.
  apply (safe_core p c3). destruct (inv_port port) eqn:Hp.
  - unfold send. rewrite Hp. apply (wp_post _ _ (mret _)), wp_ret. by apply ready_mid, ready_core.
  - apply send_safe; [by apply ready_core| |by eapply int_arg_port].
    left. by eapply (str_arg_user_string _ 1 k).
Qed.

Lemma sys_disconnect_safe : safe p s (sys_disconnect s).
Proof.
  unfold sys_disconnect. apply post_bind_wp. eapply wp_argint; [apply Hr|]. intros c Hc.
  destruct (int_arg _ 0) as [port|]; [|by apply ret_safe].
  apply (safe_core p c), disconnect_safe. by apply ready_core.
Qed.

Lemma sys_recv_safe :
  (forall a n, ptr_arg (proc_at s p) 1 4 = Some a -> int_arg (proc_at s p) 2 = Some n ->
    a + n <= mapped_end (proc_at s p)) ->
  safe p s (sys_recv s).
Proof.
  intros Hn. unfold sys_recv. apply post_bind_wp. eapply wp_argint; [apply Hr|]. intros c Hc.
  destruct (int_arg _ 0) as [port|]; [|by apply ret_safe].
  apply post_bind_wp. eapply wp_argptr; [exact Hc|]. intros c2 Hc2. rewrite set_core_set_core.
  change (proc_at (set_core c s) p) with (proc_at s p).
  destruct (ptr_arg _ 1 4) as [a|] eqn:Ha; [|by apply ret_safe].
  apply post_bind_wp. eapply wp_argint; [exact Hc2|]. intros c3 Hc3. rewrite set_core_set_core.
  change (proc_at (set_core c2 s) p) with (proc_at s p).
  destruct (int_arg _ 2) as [n|]; [|by apply ret_safe].
  apply (safe_core p c3), recv_safe; [by apply ready_core|]. by apply Hn.
Qed.
End calls.

(** C24: The socket system calls are safe against their callers: whatever a
    process of at most KERNBASE bytes leaves in its registers and memory,
    [sys_listen], [sys_connect], [sys_send] and [sys_disconnect] neither panic
    nor read or write outside their buffers, and keep the promises of the
    socket layer to the other processes; so does [sys_recv] when the length lies
    inside the caller's memory. *)
Theorem socket_calls_safe (p : nat) (s : kstate) :
  ready p s -> 0 <= p_sz (proc_at s p) <= KERNBASE ->
  safe p s (sys_listen s) /\ safe p s (sys_connect s) /\ safe p s (sys_send s) /\
  safe p s (sys_disconnect s) /\
  ((forall a n, ptr_arg (proc_at s p) 1 4 = Some a -> int_arg (proc_at s p) 2 = Some n ->
     a + n <= mapped_end (proc_at s p)) -> safe p s (sys_recv s)).
Proof.
  intros Hr Hsz. split_and!.
  - by apply sys_listen_safe.
  - by apply sys_connect_safe.
  - by apply sys_send_safe.
  - by apply sys_disconnect_safe.
  - by apply sys_recv_safe.
Qed.

(** ** Two defects of the socket calls *)

(** [sys_send] ignores its third argument: the length it passes to [send]
    is the port number, which is its first. *)
Theorem sys_send_length_is_port (p : nat) (s : kstate) (port k buf : Z) :
  ready p s -> int_arg (proc_at s p) 0 = Some port -> str_arg (proc_at s p) 1 = Some (k, buf) ->
  exists c, on_cpu [] (Some p) c /\ sys_send s = send port buf port (set_core c s).
Proof.
  intros (_ & Hc & _) Hport Hbuf.
  assert (H : wp (argint 0) s (fun r1 s1 => wp (argstr 1) s1 (fun r2 s2 => wp (argint 0) s2 (fun r3 s3 =>
    r1 = Some port /\ r2 = Some (k, buf) /\ r3 = Some port /\
    exists c, on_cpu [] (Some p) c /\ s3 = set_core c s)))).
  { eapply wp_argint; [exact Hc|]. intros c1 H1. eapply wp_argstr; [exact H1|]. intros c2 H2.
    eapply wp_argint; [exact H2|]. intros c3 H3. split_and!; [done..|]. by exists c3. }
  apply wp_Done in H as (r1 & s1 & E1 & H). apply wp_Done in H as (r2 & s2 & E2 & H).
  apply wp_Done in H as (r3 & s3 & E3 & -> & -> & -> & c & Hc' & ->). exists c. split; [done|].
  unfold sys_send, mbind, M_bind. rewrite E1. simpl. rewrite E2. simpl. by rewrite E3.
Qed.

(** The state in which process [p] holds [lport], connected to [rport], with a
    message waiting. *)
Definition message_waiting (p : nat) (lport : Z) (s : kstate) : Prop :=
  exists l r, pair_of (k_stab s) (Some p) lport = inr (l, r) /\
    sk_hasfullbuffer (sock_at s l) = true.

Lemma recv_trap p lport data n s :
  ready p s -> inv_port lport = false -> message_waiting p lport s ->
  0 < n -> mapped_end (proc_at s p) < data + n -> panics (recv lport data n) s "trap".
Proof.
  intros (Hok & Hc & Hr) Hp (l & r & Hpair & Hfull) Hn Hd. unfold recv. rewrite Hp.
  pose proof (pair_of_inr p _ lport l r Hok Hpair) as (Hl & _).
  apply panics_bind_wp. eapply wp_acquire; [exact Hc|by apply not_elem_of_nil|]. intros c1 H1.
  apply panics_bind_wp. eapply wp_connected_pair; [exact H1|]. intros c2 H2.
  change (k_stab (set_core c1 s)) with (k_stab s). rewrite Hpair, set_core_set_core.
  apply panics_bind_wp. unfold wp at 1, gets.
  change (sock_at (set_core c2 s) l) with (sock_at s l). rewrite Hfull.
  apply panics_bind_wp, wp_ret. unfold recv_rest. apply panics_bind_wp. unfold wp at 1, gets.
  change (sock_at (set_core c2 s) l) with (socks (k_stab s) l).
  assert (Hread : buffer_readable (sk_recvbuffer (socks (k_stab s) l)) n = true).
  { apply orb_true_iff. right. apply bool_decide_eq_true. intros Hnone.
    apply (strlen_None_no_nul _ _ _ (SBUFFSIZE - 1)) in Hnone; [done|done|]. by apply (so_term _ Hok). }
  rewrite Hread. apply panics_bind. unfold panics, user_strncpy, running.
  destruct (oc_here _ _ _ H2) as (i & Hi & Hcp & _). rewrite set_core_core, Hi, Hcp.
  change (proc_at (set_core c2 s) p) with (proc_at s p).
  rewrite (proj2 (Z.ltb_lt 0 n) Hn), (proj2 (Z.ltb_lt _ _) Hd). done.
Qed.

(** [sys_recv] checks only the size of a pointer at its buffer: a process
    that passes a length beyond its memory stops the kernel when a message is
    waiting for it. *)
Theorem sys_recv_unchecked_length (p : nat) (s : kstate) (port buf n : Z) :
  ready p s -> int_arg (proc_at s p) 0 = Some port -> ptr_arg (proc_at s p) 1 4 = Some buf ->
  int_arg (proc_at s p) 2 = Some n ->
  inv_port port = false -> message_waiting p port s ->
  0 < n -> mapped_end (proc_at s p) < buf + n ->
  panics sys_recv s "trap".
Proof.
  intros Hr Hport Hbuf Hlen Hp Hm Hn Hd. unfold sys_recv.
  apply panics_bind_wp. eapply wp_argint; [apply Hr|]. intros c1 H1. rewrite Hport.
  apply panics_bind_wp. eapply wp_argptr; [exact H1|]. intros c2 H2.
  change (proc_at (set_core c1 s) p) with (proc_at s p). rewrite Hbuf, set_core_set_core.
  apply panics_bind_wp. eapply wp_argint; [exact H2|]. intros c3 H3.
  change (proc_at (set_core c2 s) p) with (proc_at s p). rewrite Hlen, set_core_set_core.
  apply (recv_trap p); try done. by apply ready_core.
Qed.

(** ** Example: a process with three arguments on its stack *)

Module Example.

Definition argmem (a0 a1 a2 : Z) : mem :=
  store32 (store32 (store32 (cstr "hello, world") 1004 a0) 1008 a1) 1012 a2.

Definition caller (a0 a1 a2 : Z) : proc :=
  proc_tf (tf_set_entry 0 1000 zero_tf) (user_process RUNNING 1 (argmem a0 a1 a2)).

(** Process 0 at port 5 is connected to process 1 at port 127, a message
    waiting at port 5. *)
Definition pair_stab : stab :=
  mkStab (fun i => match i with
    | 0%nat => mkSock 0 CONNECTED (Some 0%nat) (cstr "msg") true 5 127
    | 1%nat => mkSock 1 CONNECTED (Some 1%nat) (fun _ => 0) false 127 5
    | _ => zero_sock
    end) 2 2.

Lemma args_stab_ok : stable_ok pair_stab.
Proof.
  split.
  - reflexivity.
  - intros [|[|i]] _ Ho; vm_compute in Ho |- *; try done; split; discriminate || reflexivity.
  - intros [|[|i]] [|[|j]] _ _ Hi Hj; try done; vm_compute in Hi, Hj; done.
  - intros [|[|i]] _ Ho; vm_compute in Ho; done.
  - intros [|[|i]] _; reflexivity.
Qed.

Definition st (a0 a1 a2 : Z) : kstate := start (Some 0%nat) (fun _ => caller a0 a1 a2) pair_stab.

Lemma args_ready a0 a1 a2 : ready 0 (st a0 a1 a2).
Proof. split; [exact args_stab_ok|]. split; [apply one_cpu_on|reflexivity]. Qed.
End Example.

Lemma arguments_inside_witness :
  ptr_arg (proc_at (Example.st 5 7 3) 0) 1 4 = Some 7 /\
  str_arg (proc_at (Example.st 5 7 3) 0) 1 = Some (5, 7) /\
  wp (argptr 1 4) (Example.st 5 7 3) (fun r s' =>
    s' = set_core (k_core s') (Example.st 5 7 3) /\ on_cpu [] (Some 0%nat) (k_core s') /\
    forall a, r = Some a -> 0 <= a /\ 0 <= 4 /\ a + 4 <= p_sz (proc_at (Example.st 5 7 3) 0)).
Proof.
  split; [vm_compute; reflexivity|]. split; [vm_compute; reflexivity|].
  exact (proj1 (arguments_inside 0 (Example.st 5 7 3) 1 4 (Example.args_ready 5 7 3)
    ltac:(vm_compute; discriminate) ltac:(lia))).
Defined.

Lemma socket_calls_safe_witness : safe 0 (Example.st 5 0 3) (sys_send (Example.st 5 0 3)).
Proof.
  assert (Hsz : 0 <= p_sz (proc_at (Example.st 5 0 3) 0) <= KERNBASE) by (vm_compute; split; discriminate).
  destruct (socket_calls_safe 0 (Example.st 5 0 3) (Example.args_ready 5 0 3) Hsz) as (_ & _ & H & _).
  exact H.
Defined.

(** A message of 12 bytes, sent with length 100 from port 5, arrives as its
    first 5 bytes. *)
Lemma sys_send_length_is_port_witness :
  (exists c, on_cpu [] (Some 0%nat) c /\
     sys_send (Example.st 5 0 100) = send 5 0 5 (set_core c (Example.st 5 0 100))) /\
  match sys_send (Example.st 5 0 100) with
  | Done r s' => r = 0 /\ cstring 20 (sk_recvbuffer (sock_at s' 1)) 0 = cstring 20 (cstr "hello") 0
  | _ => False
  end.
Proof.
  split.
  - apply (sys_send_length_is_port 0 (Example.st 5 0 100) 5 12 0 (Example.args_ready 5 0 100));
      vm_compute; reflexivity.
  - vm_compute. split; reflexivity.
Defined.

Lemma sys_recv_unchecked_length_witness : panics sys_recv (Example.st 5 8000 1000) "trap".
Proof.
  apply (sys_recv_unchecked_length 0 (Example.st 5 8000 1000) 5 8000 1000 (Example.args_ready 5 8000 1000));
    try (vm_compute; reflexivity).
  - exists 0%nat, 1%nat. split; vm_compute; reflexivity.
Defined.
