(* ===== verification/Kalloc.v ===== *)
(** * kalloc.c: the allocator of physical pages

    The free pages are linked through their own first words in the memory of
    the kernel.  [free_pages s l]: the pages on the list are exactly those of
    [l], in that order. *)

From S2P Require Import Prelude CString KState Spinlock.

(** ** kalloc.c *)

Definition kmem_get {A} (f : kmem -> A) : K A := gets (fun s => f (k_kmem s)).
Definition set_freelist (a : Z) : K unit :=
  modify (fun s => set_kmem (mkKmem (km_use_lock (k_kmem s)) a (km_end (k_kmem s))) s).
Definition set_use_lock (b : bool) : K unit :=
  modify (fun s => set_kmem (mkKmem b (km_freelist (k_kmem s)) (km_end (k_kmem s))) s).

Definition kfree (v : Z) : K unit :=
  kend ← kmem_get km_end;
  if negb (v mod PGSIZE =? 0) || (v <? kend) || (V2P v >=? PHYSTOP) then panic "kfree"
  else
    modify (fun s => set_mem (memset (k_mem s) v 1 PGSIZE) s);;
    use_lock ← kmem_get km_use_lock;
    when use_lock (acquire LkKmem);;
    next ← kmem_get km_freelist;
    modify (fun s => set_mem (store32 (k_mem s) v next) s);;
    set_freelist v;;
    use_lock ← kmem_get km_use_lock;
    when use_lock (release LkKmem).

Definition kalloc : K Z :=
  use_lock ← kmem_get km_use_lock;
  when use_lock (acquire LkKmem);;
  r ← kmem_get km_freelist;
  when (negb (r =? 0))
    (next ← gets (fun s => load32 (k_mem s) r);
     set_freelist next);;
  use_lock ← kmem_get km_use_lock;
  when use_lock (release LkKmem);;
  mret r.

(** [for(; p + PGSIZE <= vend; p += PGSIZE) kfree(p);], the number of turns
    being at most the number of pages below [vend]. *)
Fixpoint free_loop (fuel : nat) (p vend : Z) : K unit :=
  match fuel with
  | O => fun s => Stuck s
  | S k =>
      if p + PGSIZE <=? vend then kfree p;; free_loop k (p + PGSIZE) vend
      else mret tt
  end.

Definition freerange (vstart vend : Z) : K unit :=
  free_loop (S (Z.to_nat ((vend - vstart) / PGSIZE))) (PGROUNDUP vstart) vend.

Definition kinit1 (vstart vend : Z) : K unit :=
  initlock LkKmem "kmem";;
  set_use_lock false;;
  freerange vstart vend.

Definition kinit2 (vstart vend : Z) : K unit :=
  freerange vstart vend;;
  set_use_lock true.

(** ** The free list *)

(** The pages the allocator may hand out. *)
Definition page_ok (kend v : Z) : Prop := v mod PGSIZE = 0 /\ kend <= v < KERNBASE + PHYSTOP.

Fixpoint linked_pages (m : mem) (f : Z) (l : list Z) : Prop :=
  match l with
  | [] => f = 0
  | a :: l' => f = a /\ linked_pages m (load32 m a) l'
  end.

Record free_pages (s : kstate) (l : list Z) : Prop := mkFree {
  fp_end : KERNBASE <= km_end (k_kmem s);
  fp_links : linked_pages (k_mem s) (km_freelist (k_kmem s)) l;
  fp_nodup : NoDup l;
  fp_pages : forall a, a ∈ l -> page_ok (km_end (k_kmem s)) a
}.

(** A change of memory outside the free pages keeps the list. *)
Lemma linked_pages_ext m m' l : forall f,
  (forall a x, a ∈ l -> a <= x < a + 4 -> m' x = m x) -> linked_pages m f l -> linked_pages m' f l.
Proof.
  induction l as [|a l IH]; intros f H; simpl; [done|]. intros [-> Hl]. split; [done|].
  rewrite (load32_ext m m') by (intros x Hx; apply (H a); [apply elem_of_cons; by left|done]).
  apply IH; [|done]. intros b x Hb. apply H. apply elem_of_cons. by right.
Qed.

Lemma pages_apart kend a b :
  page_ok kend a -> page_ok kend b -> a <> b -> a + PGSIZE <= b \/ b + PGSIZE <= a.
Proof.
  unfold page_ok, PGSIZE. intros [Ha _] [Hb _] Hne.
  apply Z.mod_divide in Ha as [x ->]; [|lia]. apply Z.mod_divide in Hb as [y ->]; [|lia]. lia.
Qed.

Lemma page_ok_check kend v :
  KERNBASE <= kend -> page_ok kend v ->
  negb (v mod PGSIZE =? 0) || (v <? kend) || (V2P v >=? PHYSTOP) = false.
Proof.
  intros Hk [Ha Hr]. rewrite Ha. simpl. unfold V2P.
  rewrite uint32_small by (unfold KERNBASE, PHYSTOP, W32 in *; lia). lia.
Qed.

(** Taking the allocator's lock, when it is in use. *)
Section with_lock.
Context (L : list lockid) (p : option nat).

Lemma wp_kmem_acquire s (Q : unit -> kstate -> Prop) :
  on_cpu L p (k_core s) -> LkKmem ∉ L ->
  (forall c, on_cpu (if km_use_lock (k_kmem s) then LkKmem :: L else L) p c -> Q tt (set_core c s)) ->
  wp (when (km_use_lock (k_kmem s)) (acquire LkKmem)) s Q.
Proof.
  intros Hc Hni HQ. destruct (km_use_lock (k_kmem s)); simpl.
  - eapply wp_acquire; [exact Hc|done|]. done.
  - apply wp_ret. rewrite <- (set_core_id s). by apply HQ.
Qed.

Lemma wp_kmem_release (b : bool) s (Q : unit -> kstate -> Prop) :
  on_cpu (if b then LkKmem :: L else L) p (k_core s) ->
  (forall c, on_cpu L p c -> Q tt (set_core c s)) ->
  wp (when b (release LkKmem)) s Q.
Proof.
  intros Hc HQ. destruct b; simpl.
  - eapply wp_release; [exact Hc|reflexivity|]. done.
  - apply wp_ret. rewrite <- (set_core_id s). by apply HQ.
Qed.

(** The state with the allocator's memory and list replaced. *)
Definition set_alloc (c : core) (m : mem) (f : Z) (s : kstate) : kstate :=
  set_core c (set_mem m (set_kmem (mkKmem (km_use_lock (k_kmem s)) f (km_end (k_kmem s))) s)).

Lemma wp_kfree v s (Q : unit -> kstate -> Prop) :
  on_cpu L p (k_core s) -> LkKmem ∉ L -> KERNBASE <= km_end (k_kmem s) ->
  page_ok (km_end (k_kmem s)) v ->
  (forall c, on_cpu L p c ->
    Q tt (set_alloc c (store32 (memset (k_mem s) v 1 PGSIZE) v (km_freelist (k_kmem s))) v s)) ->
  wp (kfree v) s Q.
Proof.
  intros Hc Hni Hk Hv HQ. unfold kfree, kmem_get, set_freelist. wp1. rewrite page_ok_check by done.
  do 2 wp1. wpb. eapply (wp_kmem_acquire (set_mem _ s)); [exact Hc|done|]. intros c1 H1.
  do 4 wp1. eapply wp_kmem_release; [exact H1|]. intros c2 H2. by apply HQ.
Qed.

Lemma wp_kalloc s (Q : Z -> kstate -> Prop) :
  on_cpu L p (k_core s) -> LkKmem ∉ L ->
  (forall c, on_cpu L p c ->
    let r := km_freelist (k_kmem s) in
    Q r (set_core c (if r =? 0 then s else
      set_kmem (mkKmem (km_use_lock (k_kmem s)) (load32 (k_mem s) r) (km_end (k_kmem s))) s))) ->
  wp kalloc s Q.
Proof.
  intros Hc Hni HQ. unfold kalloc, kmem_get, set_freelist. wp1.
  wpb. eapply wp_kmem_acquire; [exact Hc|done|]. intros c1 H1. wp1.
  change (km_freelist (k_kmem (set_core c1 s))) with (km_freelist (k_kmem s)).
  destruct (km_freelist (k_kmem s) =? 0) eqn:E; simpl when.
  - do 2 wp1. wpb. eapply wp_kmem_release; [exact H1|]. intros c2 H2.
    apply wp_ret. specialize (HQ c2 H2). cbv zeta in HQ. by rewrite E in HQ.
  - wpb. wp1. apply wp_modify. wp1. wpb. eapply wp_kmem_release; [exact H1|]. intros c2 H2.
    apply wp_ret. specialize (HQ c2 H2). cbv zeta in HQ. by rewrite E in HQ.
Qed.
End with_lock.

(** ** The allocator hands out each page once *)

(** What a caller that holds none of the free pages sees of memory. *)
Definition same_outside (l : list Z) (m m' : mem) : Prop :=
  forall x, (forall a, a ∈ l -> ~ a <= x < a + PGSIZE) -> m' x = m x.

Lemma free_pages_kfree s l v c :
  free_pages s l -> page_ok (km_end (k_kmem s)) v -> v ∉ l ->
  free_pages (set_alloc c (store32 (memset (k_mem s) v 1 PGSIZE) v (km_freelist (k_kmem s))) v s) (v :: l).
Proof.
  intros [He Hl Hnd Hp] Hv Hni. split; simpl; [done| | |].
  - split; [done|].
    assert (Hf : 0 <= km_freelist (k_kmem s) < W32).
    { destruct l as [|a l]; simpl in Hl; [rewrite Hl; done|]. destruct Hl as [-> _].
      destruct (Hp a) as [_ Hr]; [apply elem_of_cons; by left|].
      unfold KERNBASE, PHYSTOP, W32 in *. lia. }
    rewrite load32_store32 by done. eapply linked_pages_ext; [|exact Hl].
    intros a x Ha Hx. pose proof (pages_apart _ a v (Hp a Ha) Hv ltac:(by intros ->)) as Hap.
    unfold PGSIZE in *. rewrite store32_ne by lia. rewrite memset_spec by (unfold PGSIZE; lia).
    unfold inside. zcases.
  - by constructor.
  - intros a [->|Ha]%elem_of_cons; [done|by apply Hp].
Qed.

(** [kfree] of a page that is not free puts it at the head of the list,
    fills it with junk and touches no other memory; of anything that is not a
    page above the kernel and below PHYSTOP it panics. *)
Theorem kfree_frees (L : list lockid) (p : option nat) (s : kstate) (l : list Z) (v : Z) :
  on_cpu L p (k_core s) -> LkKmem ∉ L -> free_pages s l -> v ∉ l -> 0 <= v < W32 ->
  (page_ok (km_end (k_kmem s)) v ->
   wp (kfree v) s (fun _ s' => on_cpu L p (k_core s') /\ free_pages s' (v :: l) /\
     same_outside [v] (k_mem s) (k_mem s') /\
     (forall x, v + 4 <= x < v + PGSIZE -> k_mem s' x = 1) /\
     k_ptab s' = k_ptab s /\ k_stab s' = k_stab s)) /\
  (~ page_ok (km_end (k_kmem s)) v -> panics (kfree v) s "kfree").
Proof.
  intros Hc Hni Hfp Hv Hr. split.
  - intros Hpg. eapply wp_kfree; [exact Hc|done|apply Hfp|done|]. intros c Hc'. split_and!; [done| | | |done|done].
    + by apply free_pages_kfree.
    + intros x Hx. specialize (Hx v). rewrite list_elem_of_singleton in Hx. specialize (Hx eq_refl).
      simpl. unfold PGSIZE in *. rewrite store32_ne by lia. rewrite memset_spec by (unfold PGSIZE; lia).
      unfold inside. zcases.
    + intros x Hx. simpl. rewrite store32_ne by lia. rewrite memset_spec by (unfold PGSIZE; lia).
      unfold inside. zcases. done.
  - intros Hn. unfold panics, kfree, mbind, M_bind, kmem_get, gets. simpl.
    assert (E : negb (v mod PGSIZE =? 0) || (v <? km_end (k_kmem s)) || (V2P v >=? PHYSTOP) = true).
    { pose proof (fp_end _ _ Hfp). destruct (Z.eqb_spec (v mod PGSIZE) 0); [|done]. simpl.
      destruct (Z.ltb_spec v (km_end (k_kmem s))); [done|]. simpl. unfold V2P.
      rewrite uint32_small by (unfold KERNBASE, W32 in *; lia).
      destruct (Z.geb_spec (v - KERNBASE) PHYSTOP); [done|]. exfalso. apply Hn.
      split; [done|]. lia. }
    by rewrite E.
Qed.

(** [kalloc] returns 0 exactly when no page is free; otherwise it takes the
    first page off the list, which is then free no longer, and changes no
    memory: no page is handed out twice. *)
Theorem kalloc_allocates (L : list lockid) (p : option nat) (s : kstate) (l : list Z) :
  on_cpu L p (k_core s) -> LkKmem ∉ L -> free_pages s l ->
  wp kalloc s (fun r s' => on_cpu L p (k_core s') /\ k_mem s' = k_mem s /\
    k_ptab s' = k_ptab s /\ k_stab s' = k_stab s /\
    match l with
    | [] => r = 0 /\ free_pages s' []
    | a :: l' => r = a /\ r <> 0 /\ page_ok (km_end (k_kmem s)) r /\ (r ∉ l') /\ free_pages s' l'
    end).
Proof.
  intros Hc Hni [He Hl Hnd Hp]. eapply wp_kalloc; [exact Hc|done|]. intros c Hc' r.
  destruct l as [|a l']; simpl in Hl.
  - unfold r. rewrite Hl. simpl. split_and!; try done.
  - destruct Hl as [Hr Hl]. apply NoDup_cons in Hnd as [Hni2 Hnd].
    assert (Ha : page_ok (km_end (k_kmem s)) a) by (apply Hp, elem_of_cons; by left).
    assert (Hnz : a <> 0) by (destruct Ha; unfold KERNBASE in *; lia).
    unfold r. rewrite Hr, (proj2 (Z.eqb_neq a 0) Hnz). split_and!; try done.
    split; simpl; [done|done|done|]. intros b Hb. apply Hp, elem_of_cons. by right.
Qed.

(** ** freerange *)

(** The pages from [p] up, each put on the list in front of the one below. *)
Fixpoint pages_from (n : nat) (p : Z) (l : list Z) : list Z :=
  match n with
  | O => l
  | S k => pages_from k (p + PGSIZE) (p :: l)
  end.

Lemma free_loop_spec L pr n : forall fuel p vend s l,
  on_cpu L pr (k_core s) -> LkKmem ∉ L -> free_pages s l ->
  (n < fuel)%nat -> p + Z.of_nat n * PGSIZE <= vend < p + Z.of_nat n * PGSIZE + PGSIZE ->
  p mod PGSIZE = 0 -> km_end (k_kmem s) <= p -> vend <= KERNBASE + PHYSTOP ->
  (forall a, a ∈ l -> a + PGSIZE <= p \/ vend <= a) ->
  wp (free_loop fuel p vend) s (fun _ s' =>
    on_cpu L pr (k_core s') /\ free_pages s' (pages_from n p l) /\
    km_end (k_kmem s') = km_end (k_kmem s) /\ km_use_lock (k_kmem s') = km_use_lock (k_kmem s)).
Proof.
  induction n as [|n IH]; intros fuel p vend s l Hc Hni Hfp Hf Hend Hal Hk Htop Hl.
  - destruct fuel as [|fuel]; [lia|]. simpl. destruct (Z.leb_spec (p + PGSIZE) vend); [lia|].
    apply wp_ret. by split_and!.
  - destruct fuel as [|fuel]; [lia|]. cbn [free_loop pages_from].
    destruct (Z.leb_spec (p + PGSIZE) vend); [|unfold PGSIZE in *; lia].
    assert (Hpg : page_ok (km_end (k_kmem s)) p) by (split; [done|unfold PGSIZE in *; lia]).
    assert (Hpl : p ∉ l) by (intros Hin; destruct (Hl p Hin); unfold PGSIZE in *; lia).
    wpb. eapply wp_kfree; [exact Hc|done|apply Hfp|done|]. intros c Hc'.
    eapply wp_mono; [|apply IH with (l := p :: l)]; [..|lia| | | | |].
    + intros _ s' (H1 & H2 & H3 & H4). by split_and!.
    + exact Hc'.
    + done.
    + by apply free_pages_kfree.
    + unfold PGSIZE in *. lia.
    + unfold PGSIZE in *. rewrite Z.add_mod, Hal by lia. reflexivity.
    + simpl. unfold PGSIZE in *. lia.
    + done.
    + intros a [->|Ha]%elem_of_cons; [left; lia|]. destruct (Hl a Ha); [left|right]; unfold PGSIZE in *; lia.
Qed.

Lemma pages_from_spec n : forall p l a,
  a ∈ pages_from n p l <-> a ∈ l \/ exists i, 0 <= i < Z.of_nat n /\ a = p + i * PGSIZE.
Proof.
  induction n as [|n IH]; intros p l a; simpl.
  - split; [by left|]. intros [?|(i & ? & _)]; [done|lia].
  - rewrite IH, elem_of_cons. split.
    + intros [[->|?]|(i & Hi & ->)]; [right; exists 0; lia|by left|].
      right. exists (i + 1). lia.
    + intros [?|(i & Hi & ->)]; [by left; right|].
      destruct (Z.eq_dec i 0) as [->|]; [left; left; lia|]. right. exists (i - 1). lia.
Qed.

(** [freerange] puts on the list exactly the whole pages between its two
    addresses, and ends. *)
Theorem freerange_frees (L : list lockid) (p : option nat) (s : kstate) (l : list Z) (vstart vend : Z) :
  on_cpu L p (k_core s) -> LkKmem ∉ L -> free_pages s l ->
  km_end (k_kmem s) <= vstart <= vend -> vend <= KERNBASE + PHYSTOP ->
  (forall a, a ∈ l -> a + PGSIZE <= vstart \/ vend <= a) ->
  wp (freerange vstart vend) s (fun _ s' => exists l', free_pages s' l' /\ on_cpu L p (k_core s') /\
    forall a, a ∈ l' <-> a ∈ l \/ (a mod PGSIZE = 0 /\ vstart <= a /\ a + PGSIZE <= vend)).
Proof.
  intros Hc Hni Hfp Hv Htop Hl. pose proof (fp_end _ _ Hfp) as He. unfold freerange.
  assert (Hw : 0 <= vstart < W32 - PGSIZE) by (unfold KERNBASE, PHYSTOP, W32, PGSIZE in *; lia).
  pose proof (PGROUNDUP_bounds vstart Hw) as Hb. pose proof (PGROUNDUP_div vstart Hw) as Hd.
  set (p0 := PGROUNDUP vstart) in *.
  assert (Hal : p0 mod PGSIZE = 0) by (rewrite Hd; apply Z.mod_mul; unfold PGSIZE; lia).
  set (n := if p0 <=? vend then Z.to_nat ((vend - p0) / PGSIZE) else 0%nat).
  assert (Hn : vend < p0 \/ (p0 <= vend /\ p0 + Z.of_nat n * PGSIZE <= vend < p0 + Z.of_nat n * PGSIZE + PGSIZE)).
  { unfold n. destruct (Z.leb_spec p0 vend); [right|by left].
    rewrite Z2Nat.id by (apply Z.div_pos; unfold PGSIZE; lia).
    pose proof (Z.div_mod (vend - p0) PGSIZE ltac:(unfold PGSIZE; lia)).
    pose proof (Z.mod_pos_bound (vend - p0) PGSIZE ltac:(unfold PGSIZE; lia)). lia. }
  destruct Hn as [Hn|[Hle Hn]].
  { simpl. destruct (Z.leb_spec (p0 + PGSIZE) vend); [unfold PGSIZE in *; lia|].
    apply wp_ret. exists l. split_and!; [done..|]. intros a. split; [by left|].
    intros [?|(Ha & H1 & H2)]; [done|]. exfalso.
    assert (p0 <= a).
    { rewrite Hd. apply Z.mod_divide in Ha as [k ->]; [|unfold PGSIZE; lia].
      apply Z.mul_le_mono_nonneg_r; [unfold PGSIZE; lia|].
      apply Z.lt_succ_r, Z.div_lt_upper_bound; unfold PGSIZE in *; lia. }
    unfold PGSIZE in *. lia. }
  eapply wp_mono; [|apply (free_loop_spec L p n) with (l := l); try done].
  - intros _ s' (H1 & H2 & _). exists (pages_from n p0 l). split_and!; [done..|].
    intros a. rewrite pages_from_spec. split; (intros [?|Hx]; [by left|right]).
    + destruct Hx as (i & Hi & ->). split_and!; [|unfold PGSIZE in *; lia..].
      rewrite Z.mod_add by (unfold PGSIZE; lia). done.
    + destruct Hx as (Ha & H3 & H4).
      apply Z.mod_divide in Ha as [k ->]; [|unfold PGSIZE; lia].
      apply Z.mod_divide in Hal as [k0 Hk0]; [|unfold PGSIZE; lia].
      exists (k - k0). rewrite Hk0 in *. unfold PGSIZE in *. lia.
  - unfold n. destruct (Z.leb_spec p0 vend); [|lia].
    apply Nat.lt_succ_r, Z2Nat.inj_le; [apply Z.div_pos; unfold PGSIZE; lia..|].
    apply Z.div_le_mono; unfold PGSIZE; lia.
  - lia.
  - intros a Ha. destruct (Hl a Ha); [left; lia|by right].
Qed.

(** ** Example: three pages after the kernel *)

Module Example.

Definition st : kstate := start None (fun _ => zero_proc) empty_stab.
Definition first_page : Z := 2148532224.

Lemma st_free : free_pages st [].
Proof. by split; [..|constructor|intros a Ha%not_elem_of_nil]. Qed.

Lemma first_page_ok : page_ok (km_end (k_kmem st)) first_page.
Proof. split; [reflexivity|]. vm_compute. split; [discriminate|reflexivity]. Qed.

(** One page on the list. *)
Definition st1 : kstate :=
  set_alloc (one_cpu None) (store32 (memset (k_mem st) first_page 1 PGSIZE) first_page 0) first_page st.

Lemma st1_free : free_pages st1 [first_page].
Proof. apply free_pages_kfree; [exact st_free|exact first_page_ok|by apply not_elem_of_nil]. Qed.
End Example.

Lemma kfree_frees_witness :
  wp (kfree Example.first_page) Example.st (fun _ s' => free_pages s' [Example.first_page]) /\
  panics (kfree 5) Example.st "kfree".
Proof.
  split.
  - eapply wp_mono; [|apply (proj1 (kfree_frees [] None Example.st [] Example.first_page (one_cpu_on _)
      ltac:(by apply not_elem_of_nil) Example.st_free ltac:(by apply not_elem_of_nil)
      ltac:(vm_compute; split; [discriminate|reflexivity])) Example.first_page_ok)].
    intros a s' (_ & H & _). exact H.
  - apply (proj2 (kfree_frees [] None Example.st [] 5 (one_cpu_on _)
      ltac:(by apply not_elem_of_nil) Example.st_free ltac:(by apply not_elem_of_nil)
      ltac:(vm_compute; split; [discriminate|reflexivity]))).
    intros [H _]. vm_compute in H. discriminate.
Defined.

Lemma kalloc_allocates_witness :
  wp kalloc Example.st1 (fun r s' => r = Example.first_page /\ free_pages s' []).
Proof.
  eapply wp_mono; [|apply (kalloc_allocates [] None Example.st1 [Example.first_page] (one_cpu_on _)
    ltac:(by apply not_elem_of_nil) Example.st1_free)].
  intros r s' (_ & _ & _ & _ & Hr & _ & _ & _ & Hf). split; [exact Hr|exact Hf].
Defined.

Lemma freerange_frees_witness :
  wp (freerange (Example.first_page + 1) (Example.first_page + 3 * PGSIZE)) Example.st (fun _ s' =>
    exists l, free_pages s' l /\ Example.first_page + PGSIZE ∈ l /\ Example.first_page + 2 * PGSIZE ∈ l).
Proof.
  eapply wp_mono; [|apply (freerange_frees [] None Example.st [] (Example.first_page + 1)
    (Example.first_page + 3 * PGSIZE) (one_cpu_on _) ltac:(by apply not_elem_of_nil) Example.st_free)].
  - intros _ s' (l & Hl & _ & Hin). exists l. split; [exact Hl|].
    split; apply Hin; right; vm_compute; repeat split; discriminate || reflexivity.
  - vm_compute. split; discriminate.
  - vm_compute. discriminate.
  - intros a Ha. by apply not_elem_of_nil in Ha.
Defined.
