(* ===== verification/Pipe.v ===== *)
(** * pipe.c: pipeclose, pipewrite and piperead

    A pipe is a bounded queue of bytes in a circular buffer with two counters
    of 32 bits that wrap around.  [queue] is the queue it stands for.  The loops
    of [pipewrite] and [piperead] sleep while the buffer is full or empty; the
    fuel of a loop counts the bytes still to copy and the wakeups it may get
    ([k_wakeups]).  [pipealloc], which also allocates files, is in File. *)

From S2P Require Import Prelude CString KState Spinlock Proc Sock SockConc SysArg Kalloc.

Definition pipe_at (s : kstate) (a : Z) : pipe := k_pipe s a.

Definition upd_pipe (a : Z) (f : pipe -> pipe) : K unit :=
  modify (fun s => set_pipe (<[a := f (pipe_at s a)]> (k_pipe s)) s).

Definition pipeclose (p : Z) (writable : bool) : K unit :=
  acquire (LkPipe p);;
  (if writable then
     upd_pipe p (fun x => mkPipe (pi_data x) (pi_nread x) (pi_nwrite x) (pi_readopen x) false);;
     wakeup (ChNread p)
   else
     upd_pipe p (fun x => mkPipe (pi_data x) (pi_nread x) (pi_nwrite x) false (pi_writeopen x));;
     wakeup (ChNwrite p));;
  x ← gets (fun s => pipe_at s p);
  if negb (pi_readopen x) && negb (pi_writeopen x) then
    release (LkPipe p);;
    kfree p
  else release (LkPipe p).

(** A byte of the running process's memory; beyond its pages the access traps. *)
Definition user_load (a : Z) : K Z :=
  q ← user_proc;
  if a <? mapped_end q then mret (p_umem q a) else panic "trap".

Definition user_store (a v : Z) : K unit := fun s =>
  match running s with
  | Some p =>
      if a <? mapped_end (proc_at s p) then upd_proc p (fun r => proc_umem (upd (p_umem r) a v) r) s
      else Panic "trap"
  | None => Undef "no user memory"
  end.

Definition is_full (x : pipe) : bool := pi_nwrite x =? uint32 (pi_nread x + PIPESIZE).
Definition is_empty (x : pipe) : bool := pi_nread x =? pi_nwrite x.

(** [p->data[p->nwrite++ % PIPESIZE] = v] *)
Definition put_byte (v : Z) (x : pipe) : pipe :=
  mkPipe (upd (pi_data x) (pi_nwrite x mod PIPESIZE) v) (pi_nread x) (uint32 (pi_nwrite x + 1))
    (pi_readopen x) (pi_writeopen x).

(** [p->nread++] *)
Definition skip_byte (x : pipe) : pipe :=
  mkPipe (pi_data x) (uint32 (pi_nread x + 1)) (pi_nwrite x) (pi_readopen x) (pi_writeopen x).

(** The two nested loops of [pipewrite] from byte [i] on, with the lock held. *)
Fixpoint pipewrite_loop (fuel : nat) (p addr n i : Z) : K Z :=
  match fuel with
  | O => fun s => Stuck s
  | S k =>
      if i <? n then
        x ← gets (fun s => pipe_at s p);
        if is_full x then
          '(_, cur) ← curproc;
          if negb (pi_readopen x) || p_killed cur then
            release (LkPipe p);;
            mret (-1)
          else
            wakeup (ChNread p);;
            sleep (ChNwrite p) (LkPipe p);;
            pipewrite_loop k p addr n i
        else
          v ← user_load (addr + i);
          upd_pipe p (put_byte v);;
          pipewrite_loop k p addr n (i + 1)
      else
        wakeup (ChNread p);;
        release (LkPipe p);;
        mret n
  end.

Definition pipewrite (p addr n : Z) : K Z :=
  acquire (LkPipe p);;
  w ← gets k_wakeups;
  pipewrite_loop (S (Z.to_nat n + w)) p addr n 0.

(** The wait of [piperead]: [true] when there is something to read or no writer
    is left, [false] when the process was killed. *)
Fixpoint piperead_wait (fuel : nat) (p : Z) : K bool :=
  match fuel with
  | O => fun s => Stuck s
  | S k =>
      x ← gets (fun s => pipe_at s p);
      if is_empty x && pi_writeopen x then
        '(_, cur) ← curproc;
        if p_killed cur then
          release (LkPipe p);;
          mret false
        else
          sleep (ChNread p) (LkPipe p);;
          piperead_wait k p
      else mret true
  end.

(** The copy loop of [piperead] from byte [i] on; it returns the final [i]. *)
Fixpoint piperead_copy (todo : nat) (p addr i : Z) : K Z :=
  match todo with
  | O => mret i
  | S k =>
      x ← gets (fun s => pipe_at s p);
      if is_empty x then mret i
      else
        user_store (addr + i) (pi_data x (pi_nread x mod PIPESIZE));;
        upd_pipe p skip_byte;;
        piperead_copy k p addr (i + 1)
  end.

Definition piperead (p addr n : Z) : K Z :=
  acquire (LkPipe p);;
  w ← gets k_wakeups;
  ok ← piperead_wait (S w) p;
  if (ok : bool) then
    i ← piperead_copy (Z.to_nat n) p addr 0;
    wakeup (ChNwrite p);;
    release (LkPipe p);;
    mret i
  else mret (-1).

(** ** The queue *)

(** The number of bytes in the pipe; the counters wrap around. *)
Definition pipe_len (x : pipe) : Z := uint32 (pi_nwrite x - pi_nread x).

(** The byte at distance [j] from the read end. *)
Definition pipe_byte (x : pipe) (j : Z) : Z := pi_data x ((pi_nread x + j) mod PIPESIZE).

Definition queue (x : pipe) : list Z := pipe_byte x <$> seqZ 0 (pipe_len x).

Record pipe_ok (x : pipe) : Prop := mkPipeOk {
  po_nread : 0 <= pi_nread x < W32;
  po_nwrite : 0 <= pi_nwrite x < W32;
  po_len : pipe_len x <= PIPESIZE
}.

Lemma pipe_len_range x : 0 <= pipe_len x < W32.
Proof. apply uint32_range. Qed.

Lemma queue_length x : Z.of_nat (length (queue x)) = pipe_len x.
Proof.
  unfold queue. rewrite length_fmap, length_seqZ. pose proof (pipe_len_range x). lia.
Qed.

(** The write counter is the read counter plus the length, around 2 to the 32. *)
Lemma nwrite_nread x : pipe_ok x -> pi_nwrite x = uint32 (pi_nread x + pipe_len x).
Proof.
  intros [Hr Hw _]. unfold pipe_len, uint32 in *.
  rewrite Z.add_mod_idemp_r by done. replace (pi_nread x + (pi_nwrite x - pi_nread x)) with (pi_nwrite x) by lia.
  symmetry. by apply Z.mod_small.
Qed.

Lemma is_full_len x : pipe_ok x -> is_full x = true <-> pipe_len x = PIPESIZE.
Proof.
  intros Hok. pose proof (nwrite_nread x Hok) as Hw. destruct Hok as [Hr _ Hl]. unfold is_full.
  rewrite Z.eqb_eq. split.
  - intros E. unfold pipe_len. rewrite E, uint32_sub_l.
    replace (pi_nread x + PIPESIZE - pi_nread x) with PIPESIZE by lia. reflexivity.
  - intros E. by rewrite Hw, E.
Qed.

Lemma is_empty_len x : pipe_ok x -> is_empty x = true <-> pipe_len x = 0.
Proof.
  intros Hok. pose proof (nwrite_nread x Hok) as Hw. destruct Hok as [Hr Hww Hl]. unfold is_empty.
  rewrite Z.eqb_eq. split.
  - intros E. unfold pipe_len. rewrite E, Z.sub_diag. reflexivity.
  - intros E. rewrite Hw, E, Z.add_0_r. symmetry. by apply uint32_small.
Qed.

(** The size of the buffer divides 2 to the 32, so that the position of a byte
    survives the wrap. *)
Lemma uint32_mod_pipesize z : uint32 z mod PIPESIZE = z mod PIPESIZE.
Proof.
  unfold uint32, W32, PIPESIZE. change 4294967296 with (512 * 8388608).
  rewrite Z.rem_mul_r by lia. rewrite (Z.mul_comm 512 ((z / 512) mod 8388608)), Z.mod_add by lia.
  apply Z.mod_mod. lia.
Qed.

Lemma put_byte_ok v x :
  pipe_ok x -> is_full x = false ->
  pipe_ok (put_byte v x) /\ queue (put_byte v x) = queue x ++ [v].
Proof.
  intros Hok Hf. pose proof (is_full_len x Hok) as Hfl. pose proof (nwrite_nread x Hok) as Hw.
  pose proof (pipe_len_range x) as Hr. destruct Hok as [Hnr Hnw Hl].
  assert (Hlt : pipe_len x < PIPESIZE) by (destruct (Z.eq_dec (pipe_len x) PIPESIZE) as [E|]; [apply Hfl in E; congruence|lia]).
  assert (Hlen : pipe_len (put_byte v x) = pipe_len x + 1).
  { unfold pipe_len at 1. simpl. rewrite uint32_sub_l.
    replace (pi_nwrite x + 1 - pi_nread x) with ((pi_nwrite x - pi_nread x) + 1) by lia.
    rewrite <- uint32_add_l. fold (pipe_len x). apply uint32_small. unfold PIPESIZE, W32 in *. lia. }
  split.
  - split; simpl; [done|apply uint32_range|lia].
  - unfold queue. rewrite Hlen, seqZ_app, fmap_app by lia. simpl. f_equal.
    + apply list_fmap_ext. intros i j Hj. apply lookup_seqZ in Hj as [-> Hi]. unfold pipe_byte. simpl.
      rewrite upd_ne; [done|]. rewrite Hw, uint32_mod_pipesize. intros E.
      apply (f_equal (fun z => (z - pi_nread x) mod PIPESIZE)) in E.
      rewrite !Zminus_mod_idemp_l in E.
      replace (pi_nread x + (0 + Z.of_nat i) - pi_nread x) with (Z.of_nat i) in E by lia.
      replace (pi_nread x + pipe_len x - pi_nread x) with (pipe_len x) in E by lia.
      rewrite !Z.mod_small in E by lia. lia.
    + unfold pipe_byte. simpl. rewrite Hw, uint32_mod_pipesize, upd_eq. done.
Qed.

Lemma skip_byte_ok x :
  pipe_ok x -> is_empty x = false ->
  pipe_ok (skip_byte x) /\
  queue x = pi_data x (pi_nread x mod PIPESIZE) :: queue (skip_byte x).
Proof.
  intros Hok He. pose proof (is_empty_len x Hok) as Hel. pose proof (pipe_len_range x) as Hr.
  destruct Hok as [Hnr Hnw Hl].
  assert (Hpos : 0 < pipe_len x) by (destruct (Z.eq_dec (pipe_len x) 0) as [E|]; [apply Hel in E; congruence|lia]).
  assert (Hlen : pipe_len (skip_byte x) = pipe_len x - 1).
  { unfold pipe_len at 1. simpl. unfold uint32. rewrite Zminus_mod_idemp_r.
    replace (pi_nwrite x - (pi_nread x + 1)) with ((pi_nwrite x - pi_nread x) - 1) by lia.
    rewrite <- Zminus_mod_idemp_l. fold (uint32 (pi_nwrite x - pi_nread x)). fold (pipe_len x).
    apply Z.mod_small. lia. }
  split.
  - split; simpl; [apply uint32_range|done|lia].
  - unfold queue. rewrite Hlen, seqZ_cons by done. simpl. f_equal.
    + unfold pipe_byte. by rewrite Z.add_0_r.
    + change (Z.succ 0) with (1 + 0). replace (Z.pred (pipe_len x)) with (pipe_len x - 1) by lia.
      rewrite <- (fmap_add_seqZ 1 0 (pipe_len x - 1)), <- list_fmap_compose.
      apply list_fmap_ext. intros i j _. unfold compose, pipe_byte. simpl. f_equal.
      rewrite (Zplus_mod (uint32 (pi_nread x + 1))), uint32_mod_pipesize, <- Zplus_mod. f_equal. lia.
Qed.

(** ** pipewrite *)

(** Bytes [i] to [n] of the buffer at [addr] of process [q]. *)
Definition user_bytes (q : proc) (addr i n : Z) : list Z :=
  (fun j => p_umem q (addr + j)) <$> seqZ i (n - i).

Lemma user_bytes_split q addr i m n :
  i <= m <= n -> user_bytes q addr i n = user_bytes q addr i m ++ user_bytes q addr m n.
Proof.
  intros H. unfold user_bytes. rewrite <- fmap_app. f_equal.
  replace (n - i) with ((m - i) + (n - m)) by lia. rewrite seqZ_app by lia. do 2 f_equal; lia.
Qed.

Lemma user_bytes_step q addr i n :
  i < n -> user_bytes q addr i n = p_umem q (addr + i) :: user_bytes q addr (i + 1) n.
Proof.
  intros H. unfold user_bytes. rewrite seqZ_cons by lia. rewrite fmap_cons. do 3 f_equal; lia.
Qed.

Lemma user_bytes_nil q addr i : user_bytes q addr i i = [].
Proof. unfold user_bytes. by rewrite Z.sub_diag. Qed.

Lemma on_cpu_running L p s : on_cpu L (Some p) (k_core s) -> running s = Some p.
Proof. intros Hc. unfold running. by destruct (oc_here _ _ _ Hc) as (i & -> & -> & _). Qed.

(** [f] is [g] with the entry at [a] replaced by [x]. *)
Definition at_entry {A} (a : Z) (x : A) (g f : Z -> A) : Prop :=
  f a = x /\ forall b, b <> a -> f b = g b.

Lemma at_entry_insert {A} a (x y : A) g f : at_entry a y g f -> at_entry a x g (<[a := x]> f).
Proof.
  intros [_ H]. unfold insert, fn_insert. split; [by rewrite decide_True|].
  intros b Hb. rewrite decide_False by congruence. by apply H.
Qed.

Section write.
Context (cur : nat) (p addr n : Z).

(** The loop puts [m] bytes while there is room. *)
Lemma pipewrite_puts (m : nat) : forall fuel i s,
  on_cpu [LkPipe p] (Some cur) (k_core s) -> pipe_ok (pipe_at s p) ->
  addr + n <= mapped_end (proc_at s cur) -> i + Z.of_nat m <= n ->
  pipe_len (pipe_at s p) + Z.of_nat m <= PIPESIZE ->
  exists f x, pipewrite_loop (m + fuel) p addr n i s = pipewrite_loop fuel p addr n (i + Z.of_nat m) (set_pipe f s) /\
    at_entry p x (k_pipe s) f /\ pipe_ok x /\
    queue x = queue (pipe_at s p) ++ user_bytes (proc_at s cur) addr i (i + Z.of_nat m) /\
    pi_readopen x = pi_readopen (pipe_at s p).
Proof.
  induction m as [|m IH]; intros fuel i s Hc Hok Hmap Hn Hroom.
  - exists (k_pipe s), (pipe_at s p). rewrite Z.add_0_r, user_bytes_nil, app_nil_r.
    split_and!; try done. by destruct s.
  - cbn [Nat.add pipewrite_loop]. destruct (Z.ltb_spec i n); [|lia].
    unfold mbind, M_bind, gets. simpl.
    destruct (is_full (pipe_at s p)) eqn:Hf; [apply is_full_len in Hf; [lia|done]|].
    unfold user_load, mbind, M_bind, user_proc. rewrite (on_cpu_running _ _ _ Hc). simpl.
    destruct (Z.ltb_spec (addr + i) (mapped_end (proc_at s cur))); [|lia]. simpl.
    destruct (put_byte_ok (p_umem (proc_at s cur) (addr + i)) _ Hok Hf) as [Hok1 Hq1].
    set (x1 := put_byte _ _) in *. set (s1 := set_pipe _ s).
    assert (E1 : pipe_at s1 p = x1).
    { unfold pipe_at, s1. simpl. unfold insert, fn_insert. by rewrite decide_True. }
    destruct (IH fuel (i + 1) s1) as (f & x & Hrun & Hat & Hokx & Hqx & Hro); try done.
    + by rewrite E1.
    + lia.
    + rewrite E1, <- queue_length, Hq1, length_app. cbn [length].
      pose proof (queue_length (pipe_at s p)). lia.
    + exists f, x. rewrite Hrun. split_and!; try done.
      * f_equal. lia.
      * destruct Hat as [H1 H2]. split; [done|]. intros b Hb. rewrite H2 by done. unfold s1. simpl.
        unfold insert, fn_insert. by rewrite decide_False.
      * rewrite Hqx, E1, Hq1, <- app_assoc. simpl. f_equal.
        replace (i + Z.of_nat (S m)) with (i + 1 + Z.of_nat m) by lia.
        by rewrite (user_bytes_step _ _ i) by lia.
      * by rewrite Hro, E1.
Qed.

(** The end of the loop. *)
Lemma pipewrite_done fuel s :
  on_cpu [LkPipe p] (Some cur) (k_core s) ->
  wp (pipewrite_loop (S fuel) p addr n n) s (fun r s' => r = n /\
    exists c, on_cpu [] (Some cur) c /\ s' = set_core c (set_ptab (wake_tab (ChNread p) (k_ptab s)) s)).
Proof.
  intros Hc. cbn [pipewrite_loop]. rewrite Z.ltb_irrefl. wpb.
  eapply wp_wakeup; [exact Hc|by rewrite list_elem_of_singleton|]. intros c1 H1.
  wpb. eapply wp_release; [exact H1|reflexivity|]. intros c2 H2. apply wp_ret. split; [done|]. by exists c2.
Qed.

(** The pipe is full and nobody will read: the writer gives up. *)
Lemma pipewrite_fails fuel i s :
  on_cpu [LkPipe p] (Some cur) (k_core s) -> i < n -> is_full (pipe_at s p) = true ->
  pi_readopen (pipe_at s p) = false \/ p_killed (proc_at s cur) = true ->
  wp (pipewrite_loop (S fuel) p addr n i) s (fun r s' => r = -1 /\
    exists c, on_cpu [] (Some cur) c /\ s' = set_core c s).
Proof.
  intros Hc Hi Hf Hno. cbn [pipewrite_loop]. destruct (Z.ltb_spec i n); [|lia]. wp1. rewrite Hf.
  wpb. eapply wp_curproc; [exact Hc|]. intros c1 H1. cbv beta iota.
  replace (negb (pi_readopen (pipe_at s p)) || p_killed (proc_at s cur)) with true
    by (destruct Hno as [-> | ->]; [done|by rewrite orb_true_r]).
  wpb. eapply wp_release; [exact H1|reflexivity|]. intros c2 H2. apply wp_ret. split; [done|]. by exists c2.
Qed.

(** The pipe is full: the writer wakes the readers and sleeps, and goes on at
    the same byte. *)
Lemma pipewrite_blocks fuel i s :
  on_cpu [LkPipe p] (Some cur) (k_core s) -> i < n -> is_full (pipe_at s p) = true ->
  pi_readopen (pipe_at s p) = true -> p_killed (proc_at s cur) = false ->
  sleeps (pipewrite_loop (S fuel) p addr n i s) (fun s1 k =>
    (exists c, on_cpu [LkPtable] (Some cur) c /\
       s1 = set_core c (set_ptab (asleep_proc cur (ChNwrite p) (wake_tab (ChNread p) (k_ptab s))) s)) /\
    forall s', on_cpu [LkPtable] (Some cur) (k_core s') ->
      exists c2, on_cpu [LkPipe p] (Some cur) c2 /\
        k s' = pipewrite_loop fuel p addr n i (set_core c2 (set_ptab (woken_proc cur (k_ptab s')) s'))).
Proof.
  intros Hc Hi Hf Hro Hk. cbn [pipewrite_loop]. destruct (Z.ltb_spec i n); [|lia].
  apply sleeps_bind_wp. unfold wp at 1, gets. rewrite Hf.
  apply sleeps_bind_wp. eapply wp_curproc; [exact Hc|]. intros c1 H1. cbv beta iota. rewrite Hro, Hk. simpl.
  apply sleeps_bind_wp. eapply wp_wakeup; [exact H1|by rewrite list_elem_of_singleton|]. intros c2 H2.
  apply sleeps_bind. eapply sleeps_mono; [|by apply (sleep_sleeps cur); [exact H2|]].
  intros s1 k (c & -> & Hc3 & Hk3). split; [by exists c|]. intros s' Hs'.
  specialize (Hk3 s' Hs'). apply wp_Done in Hk3 as (u & s2 & Hrun & c4 & -> & Hc4).
  exists c4. split; [done|]. unfold mbind, M_bind. by rewrite Hrun.
Qed.
End write.

(** The room left in a pipe. *)
Definition room (x : pipe) : Z := PIPESIZE - Z.of_nat (length (queue x)).

(** [s'] has the bytes [0] to [fits] of the writer's buffer appended to the
    pipe, and the other pipes as they were. *)
Definition appended (cur : nat) (p addr fits : Z) (s s' : kstate) : Prop :=
  pipe_ok (pipe_at s' p) /\
  queue (pipe_at s' p) = queue (pipe_at s p) ++ user_bytes (proc_at s cur) addr 0 fits /\
  forall q, q <> p -> pipe_at s' q = pipe_at s q.

(** The run of [pipewrite] up to the first byte that does not fit. *)
Lemma pipewrite_fills cur p addr n s :
  on_cpu [] (Some cur) (k_core s) -> pipe_ok (pipe_at s p) -> 0 <= n ->
  addr + n <= mapped_end (proc_at s cur) ->
  let fits := Z.min n (room (pipe_at s p)) in
  exists c f x fuel, on_cpu [LkPipe p] (Some cur) c /\ f p = x /\ pipe_ok x /\
    (forall t c', appended cur p addr fits s (set_core c' (set_ptab t (set_pipe f (set_core c s))))) /\
    pi_readopen x = pi_readopen (pipe_at s p) /\
    (room (pipe_at s p) < n -> is_full x = true) /\
    Z.of_nat fuel = n - fits + Z.of_nat (k_wakeups s) /\
    pipewrite p addr n s = pipewrite_loop (S fuel) p addr n fits (set_pipe f (set_core c s)).
Proof.
  intros Hc Hok Hn Hmap fits. pose proof (queue_length (pipe_at s p)) as Hlen.
  assert (Hroom : room (pipe_at s p) = PIPESIZE - pipe_len (pipe_at s p)) by (unfold room; lia).
  pose proof (po_len _ Hok). assert (Hfits : 0 <= fits <= n) by lia.
  set (m := Z.to_nat fits). assert (Hm : Z.of_nat m = fits) by lia.
  set (rest := (Z.to_nat n - m + k_wakeups s)%nat).
  assert (Hacq : wp (acquire (LkPipe p)) s (fun _ s0 => exists c, on_cpu [LkPipe p] (Some cur) c /\ s0 = set_core c s)).
  { eapply wp_acquire; [exact Hc|by apply not_elem_of_nil|]. intros c Hc1. by exists c. }
  apply wp_Done in Hacq as (u & s0 & Hacq & c & Hc1 & ->).
  destruct (pipewrite_puts cur p addr n m (S rest) 0 (set_core c s)) as (f & x & Hrun & [Hfp Hfo] & Hx & Hq & Hro);
    try done; [lia|change (pipe_at (set_core c s) p) with (pipe_at s p); lia|].
  rewrite Z.add_0_l, Hm in *. exists c, f, x, rest. split_and!; try done; [| |lia|].
  - intros t c'. unfold appended, pipe_at. simpl. rewrite Hfp. by split_and!.
  - intros Hlt. apply is_full_len; [done|]. rewrite <- queue_length, Hq, length_app.
    change (pipe_at (set_core c s) p) with (pipe_at s p).
    unfold user_bytes. rewrite length_fmap, length_seqZ. lia.
  - unfold pipewrite, mbind, M_bind, gets. rewrite Hacq.
    change (pipewrite_loop (S (Z.to_nat n + k_wakeups s)) p addr n 0 (set_core c s) =
            pipewrite_loop (S rest) p addr n fits (set_pipe f (set_core c s))).
    replace (S (Z.to_nat n + k_wakeups s))%nat with (m + S rest)%nat by lia. exact Hrun.
Qed.

Lemma pipewrite_all cur p addr n s :
  on_cpu [] (Some cur) (k_core s) -> pipe_ok (pipe_at s p) -> 0 <= n <= room (pipe_at s p) ->
  addr + n <= mapped_end (proc_at s cur) ->
  wp (pipewrite p addr n) s (fun r s' => r = n /\ appended cur p addr n s s' /\
    on_cpu [] (Some cur) (k_core s') /\ k_ptab s' = wake_tab (ChNread p) (k_ptab s)).
Proof.
  intros Hc Hok Hn Hmap.
  destruct (pipewrite_fills cur p addr n s) as (c & f & x & fuel & Hc1 & Hfp & Hx & Happ & Hro & Hfull & Hfuel & Hrun);
    try done; [lia|]. rewrite Z.min_l in * by lia. unfold wp. rewrite Hrun.
  eapply (wp_mono (pipewrite_loop (S fuel) p addr n n)); [|apply (pipewrite_done cur); exact Hc1].
  intros r s' (-> & c' & Hc' & ->). split_and!; try done; apply Happ.
Qed.

(** C27: [pipewrite] appends to the queue, in order.  With room for all [n] bytes
    it returns [n] and the queue is the old one followed by the bytes; readers
    are woken.  Without, the bytes that fit are appended; then, if no reader is
    left or the process was killed, it returns -1, and otherwise it wakes the
    readers and sleeps until it can go on at the first byte not yet written.
    The counters may wrap around 2 to the 32. *)
Theorem pipewrite_appends (cur : nat) (p addr n : Z) (s : kstate) :
  on_cpu [] (Some cur) (k_core s) -> pipe_ok (pipe_at s p) -> 0 <= n ->
  addr + n <= mapped_end (proc_at s cur) ->
  let fits := Z.min n (room (pipe_at s p)) in
  (n <= room (pipe_at s p) ->
    wp (pipewrite p addr n) s (fun r s' => r = n /\ appended cur p addr n s s' /\
      on_cpu [] (Some cur) (k_core s') /\ k_ptab s' = wake_tab (ChNread p) (k_ptab s))) /\
  (room (pipe_at s p) < n ->
   (pi_readopen (pipe_at s p) = false \/ p_killed (proc_at s cur) = true ->
    wp (pipewrite p addr n) s (fun r s' => r = -1 /\ appended cur p addr fits s s' /\
      on_cpu [] (Some cur) (k_core s') /\ k_ptab s' = k_ptab s)) /\
   (pi_readopen (pipe_at s p) = true -> p_killed (proc_at s cur) = false ->
    sleeps (pipewrite p addr n s) (fun s1 k => appended cur p addr fits s s1 /\
      on_cpu [LkPtable] (Some cur) (k_core s1) /\
      k_ptab s1 = asleep_proc cur (ChNwrite p) (wake_tab (ChNread p) (k_ptab s)) /\
      forall s', on_cpu [LkPtable] (Some cur) (k_core s') -> exists c fuel,
        on_cpu [LkPipe p] (Some cur) c /\ Z.of_nat fuel = n - fits + Z.of_nat (k_wakeups s) /\
        k s' = pipewrite_loop fuel p addr n fits (set_core c (set_ptab (woken_proc cur (k_ptab s')) s'))))).
Proof.
  intros Hc Hok Hn Hmap fits. split; [intros Hle; by apply pipewrite_all|]. intros Hlt.
  destruct (pipewrite_fills cur p addr n s) as (c & f & x & fuel & Hc1 & Hfp & Hx & Happ & Hro & Hfull & Hfuel & Hrun);
    try done. fold fits in Happ, Hfuel, Hrun. specialize (Hfull Hlt). subst x.
  unfold wp, sleeps. rewrite Hrun. split.
  - intros Hno. eapply (wp_mono (pipewrite_loop (S fuel) p addr n fits)).
    2: { apply (pipewrite_fails cur); [exact Hc1|lia|exact Hfull|]. unfold pipe_at. simpl. by rewrite Hro. }
    intros r s' (-> & c' & Hc' & ->). split_and!; try done; apply (Happ (k_ptab s) c').
  - intros Hopen Hkill. eapply (sleeps_mono (pipewrite_loop (S fuel) p addr n fits _)).
    2: { apply (pipewrite_blocks cur); [exact Hc1|lia|exact Hfull| |exact Hkill].
         unfold pipe_at. simpl. by rewrite Hro. }
    intros s1 k ((c2 & Hc2 & ->) & Hk). split_and!; try done; try apply Happ.
    intros s' Hs'. destruct (Hk s' Hs') as (c3 & Hc3 & Hk3). exists c3, fuel. by split_and!.
Qed.

(** ** piperead *)

(** [t'] is [t] but for the memory of process [cur] at [a], ..., [a + m - 1]. *)
Definition wrote (cur : nat) (a m : Z) (t t' : ptab) : Prop :=
  (forall q, q <> cur -> procs t' q = procs t q) /\
  (forall x, x < a \/ a + m <= x -> p_umem (procs t' cur) x = p_umem (procs t cur) x) /\
  p_sz (procs t' cur) = p_sz (procs t cur) /\ p_state (procs t' cur) = p_state (procs t cur).

Lemma wrote_refl cur a m t : wrote cur a m t t.
Proof. by repeat split. Qed.

Section read.
Context (cur : nat) (p addr : Z).

Lemma user_store_run s a v :
  running s = Some cur -> a < mapped_end (proc_at s cur) ->
  user_store a v s = Done tt (set_ptab (with_procs (<[cur :=
    proc_umem (upd (p_umem (proc_at s cur)) a v) (proc_at s cur)]> (procs (k_ptab s))) (k_ptab s)) s).
Proof.
  intros Hr Ha. unfold user_store. rewrite Hr. by rewrite (proj2 (Z.ltb_lt _ _) Ha).
Qed.

Lemma piperead_copies (todo : nat) : forall i s,
  on_cpu [LkPipe p] (Some cur) (k_core s) -> pipe_ok (pipe_at s p) ->
  addr + i + Z.of_nat todo <= mapped_end (proc_at s cur) ->
  let m := Nat.min todo (length (queue (pipe_at s p))) in
  exists f x t, piperead_copy todo p addr i s = Done (i + Z.of_nat m) (set_pipe f (set_ptab t s)) /\
    at_entry p x (k_pipe s) f /\ pipe_ok x /\ queue x = drop m (queue (pipe_at s p)) /\
    wrote cur (addr + i) (Z.of_nat m) (k_ptab s) t /\
    user_bytes (procs t cur) addr i (i + Z.of_nat m) = take m (queue (pipe_at s p)).
Proof.
  induction todo as [|todo IH]; intros i s Hc Hok Hmap m.
  - exists (k_pipe s), (pipe_at s p), (k_ptab s). unfold m. simpl.
    rewrite Z.add_0_r, user_bytes_nil, take_0, drop_0. split_and!; try done; first [apply wrote_refl | by destruct s].
  - cbn [piperead_copy]. unfold mbind, M_bind, gets. simpl.
    destruct (is_empty (pipe_at s p)) eqn:He.
    + assert (E : queue (pipe_at s p) = []).
      { apply length_zero_iff_nil. apply is_empty_len in He; [|done]. pose proof (queue_length (pipe_at s p)). lia. }
      exists (k_pipe s), (pipe_at s p), (k_ptab s). unfold m. rewrite E. simpl.
      rewrite Z.add_0_r, user_bytes_nil. split_and!; try done; first [apply wrote_refl | by destruct s].
    + destruct (skip_byte_ok _ Hok He) as [Hok1 Hq1].
      set (v := pi_data (pipe_at s p) (pi_nread (pipe_at s p) mod PIPESIZE)) in *.
      rewrite user_store_run by (first [by eapply on_cpu_running | lia]). simpl.
      set (t1 := with_procs _ (k_ptab s)). set (s1 := set_pipe _ (set_ptab t1 s)).
      assert (E1 : pipe_at s1 p = skip_byte (pipe_at s p)).
      { unfold pipe_at, s1. simpl. unfold insert, fn_insert. by rewrite decide_True. }
      assert (Ecur : proc_at s1 cur = proc_umem (upd (p_umem (proc_at s cur)) (addr + i) v) (proc_at s cur))
        by (unfold proc_at; simpl; by rewrite fn_insert_eq).
      destruct (IH (i + 1) s1) as (f & x & t & Hrun & Hat & Hokx & Hqx & Hwr & Hub); try done.
      * by rewrite E1.
      * unfold mapped_end in *. rewrite Ecur. simpl. lia.
      * rewrite E1 in Hrun, Hqx, Hwr, Hub. unfold m. rewrite Hq1. cbn [length Nat.min take drop].
        set (m1 := Nat.min todo (length (queue (skip_byte (pipe_at s p))))) in *.
        destruct Hwr as (W1 & W2 & W3 & W4). simpl in W1. fold (proc_at s1 cur) in W2, W3, W4. rewrite Ecur in W2, W3, W4.
        simpl in W2, W3, W4. exists f, x, t. rewrite Hrun. split_and!; try done.
        -- f_equal. lia.
        -- destruct Hat as [H1 H2]. split; [done|]. intros b Hb. rewrite H2 by done. unfold s1. simpl.
           unfold insert, fn_insert. by rewrite decide_False.
        -- split_and!; try done.
           ++ intros q Hq. rewrite W1 by done. by rewrite fn_insert_ne.
           ++ intros y Hy. rewrite W2 by lia. by rewrite upd_ne by lia.
        -- rewrite (user_bytes_step _ _ i) by lia. f_equal.
           ++ rewrite W2 by lia. by rewrite upd_eq.
           ++ by replace (i + Z.of_nat (S m1)) with (i + 1 + Z.of_nat m1) by lia.
Qed.
End read.

Lemma piperead_ready cur p fuel s :
  on_cpu [LkPipe p] (Some cur) (k_core s) ->
  is_empty (pipe_at s p) && pi_writeopen (pipe_at s p) = false ->
  piperead_wait (S fuel) p s = Done true s.
Proof. intros Hc H. cbn [piperead_wait]. unfold mbind, M_bind, gets. simpl. by rewrite H. Qed.

Lemma is_empty_queue x : pipe_ok x -> is_empty x = true <-> queue x = [].
Proof.
  intros Hok. rewrite is_empty_len by done. rewrite <- length_zero_iff_nil.
  pose proof (queue_length x). lia.
Qed.

Lemma piperead_some cur p addr n s :
  on_cpu [] (Some cur) (k_core s) -> pipe_ok (pipe_at s p) -> 0 <= n ->
  addr + n <= mapped_end (proc_at s cur) ->
  let q := queue (pipe_at s p) in
  let m := Nat.min (Z.to_nat n) (length q) in
  q <> [] \/ pi_writeopen (pipe_at s p) = false ->
  wp (piperead p addr n) s (fun r s' => r = Z.of_nat m /\ on_cpu [] (Some cur) (k_core s') /\
    pipe_ok (pipe_at s' p) /\ queue (pipe_at s' p) = drop m q /\
    (forall p', p' <> p -> pipe_at s' p' = pipe_at s p') /\
    exists t, k_ptab s' = wake_tab (ChNwrite p) t /\ wrote cur addr (Z.of_nat m) (k_ptab s) t /\
      user_bytes (procs t cur) addr 0 (Z.of_nat m) = take m q).
Proof.
  intros Hc Hok Hn Hmap q m Hsome. pose proof (is_empty_queue _ Hok) as Hq. unfold piperead.
  wpb. eapply wp_acquire; [exact Hc|by apply not_elem_of_nil|]. intros c Hc1. wp1.
  wpb. unfold wp at 1. rewrite (piperead_ready cur); [|exact Hc1|].
  2: { change (pipe_at (set_core c s) p) with (pipe_at s p). destruct Hsome as [Hne| ->]; [|apply andb_false_r].
       destruct (is_empty (pipe_at s p)); [|done]. by destruct (Hne (proj1 Hq eq_refl)). }
  destruct (piperead_copies cur p addr (Z.to_nat n) 0 (set_core c s)) as (f & x & t & Hrun & [Hfp Hfo] & Hx & Hqx & Hwr & Hub);
    try done; [change (proc_at (set_core c s) cur) with (proc_at s cur); lia|].
  wpb. unfold wp at 1. rewrite Hrun. wpb.
  eapply wp_wakeup; [exact Hc1|by rewrite list_elem_of_singleton|]. intros c2 H2.
  wpb. eapply wp_release; [exact H2|reflexivity|]. intros c3 H3. apply wp_ret.
  rewrite Z.add_0_l in *. unfold pipe_at. simpl. rewrite Hfp. split_and!; try done.
  rewrite Z.add_0_r in Hwr. by exists t.
Qed.

(** C28: [piperead] takes from the front of the queue.  With bytes in the pipe, or
    no writer left, it moves the first [min n length] bytes to the caller's
    buffer, and nothing else in its memory, returns their number, and wakes the
    writers; the queue is what was behind them.  With an empty pipe that still
    has a writer it sleeps, and tests again when it is woken; a killed process
    gets -1. *)
Theorem piperead_takes (cur : nat) (p addr n : Z) (s : kstate) :
  on_cpu [] (Some cur) (k_core s) -> pipe_ok (pipe_at s p) -> 0 <= n ->
  addr + n <= mapped_end (proc_at s cur) ->
  let q := queue (pipe_at s p) in
  let m := Nat.min (Z.to_nat n) (length q) in
  (q <> [] \/ pi_writeopen (pipe_at s p) = false ->
    wp (piperead p addr n) s (fun r s' => r = Z.of_nat m /\ on_cpu [] (Some cur) (k_core s') /\
      pipe_ok (pipe_at s' p) /\ queue (pipe_at s' p) = drop m q /\
      (forall p', p' <> p -> pipe_at s' p' = pipe_at s p') /\
      exists t, k_ptab s' = wake_tab (ChNwrite p) t /\ wrote cur addr (Z.of_nat m) (k_ptab s) t /\
        user_bytes (procs t cur) addr 0 (Z.of_nat m) = take m q)) /\
  (q = [] -> pi_writeopen (pipe_at s p) = true -> p_killed (proc_at s cur) = true ->
    wp (piperead p addr n) s (fun r s' => r = -1 /\ exists c, on_cpu [] (Some cur) c /\ s' = set_core c s)) /\
  (q = [] -> pi_writeopen (pipe_at s p) = true -> p_killed (proc_at s cur) = false ->
    sleeps (piperead p addr n s) (fun s1 k =>
      (exists c, on_cpu [LkPtable] (Some cur) c /\
         s1 = set_core c (set_ptab (asleep_proc cur (ChNread p) (k_ptab s)) s)) /\
      forall s', on_cpu [LkPtable] (Some cur) (k_core s') ->
        exists c, on_cpu [LkPipe p] (Some cur) c /\
          k s' = (ok ← piperead_wait (k_wakeups s) p;
                  if (ok : bool) then
                    i ← piperead_copy (Z.to_nat n) p addr 0;
                    wakeup (ChNwrite p);; release (LkPipe p);; mret i
                  else mret (-1)) (set_core c (set_ptab (woken_proc cur (k_ptab s')) s')))).
Proof.
  intros Hc Hok Hn Hmap q m. pose proof (is_empty_queue _ Hok : _ <-> q = []) as Hq.
  split; [|unfold piperead; split].
  - intros Hsome. by apply piperead_some.
  - intros Hnil Hwo Hk. wpb. eapply wp_acquire; [exact Hc|by apply not_elem_of_nil|]. intros c Hc1. wp1.
    cbn [piperead_wait]. wpb. wp1. change (pipe_at (set_core c s) p) with (pipe_at s p).
    rewrite (proj2 Hq Hnil), Hwo. simpl. wpb. eapply wp_curproc; [exact Hc1|]. intros c2 H2. cbv beta iota.
    change (proc_at (set_core c s) cur) with (proc_at s cur). rewrite Hk.
    wpb. eapply wp_release; [exact H2|reflexivity|]. intros c3 H3. do 2 apply wp_ret. split; [done|]. by exists c3.
  - intros Hnil Hwo Hk. apply sleeps_bind_wp. eapply wp_acquire; [exact Hc|by apply not_elem_of_nil|].
    intros c Hc1. apply sleeps_bind_wp. unfold wp at 1, gets. apply sleeps_bind. cbn [piperead_wait].
    apply sleeps_bind_wp. unfold wp at 1, gets. change (pipe_at (set_core c s) p) with (pipe_at s p).
    rewrite (proj2 Hq Hnil), Hwo. simpl. apply sleeps_bind_wp. eapply wp_curproc; [exact Hc1|]. intros c2 H2.
    cbv beta iota. change (proc_at (set_core c s) cur) with (proc_at s cur). rewrite Hk.
    apply sleeps_bind. eapply sleeps_mono; [|by apply (sleep_sleeps cur); [exact H2|]].
    intros s1 k (c3 & -> & Hc3 & Hk3). split; [by exists c3|]. intros s' Hs'.
    specialize (Hk3 s' Hs'). apply wp_Done in Hk3 as (u & s2 & Hrun & c4 & -> & Hc4).
    exists c4. split; [done|]. unfold mbind, M_bind. rewrite Hrun. done.
Qed.

(** ** What goes in comes out *)

(** Bytes written to an empty pipe are what the next reader gets: [pipewrite]
    of at most PIPESIZE bytes by one process, then [piperead] by another with a
    buffer at least as large, leaves the same bytes in the reader's memory and
    the pipe empty, wherever the counters stand. *)
Theorem pipe_roundtrip (w r : nat) (p a1 n a2 n2 : Z) (s : kstate) :
  on_cpu [] (Some w) (k_core s) -> pipe_ok (pipe_at s p) -> queue (pipe_at s p) = [] ->
  0 < n <= PIPESIZE -> n <= n2 -> a1 + n <= mapped_end (proc_at s w) ->
  wp (pipewrite p a1 n) s (fun c1 s1 => c1 = n /\
    forall s2, k_pipe s2 = k_pipe s1 -> on_cpu [] (Some r) (k_core s2) ->
      a2 + n2 <= mapped_end (proc_at s2 r) ->
      wp (piperead p a2 n2) s2 (fun c2 s3 => c2 = n /\ queue (pipe_at s3 p) = [] /\
        exists t, k_ptab s3 = wake_tab (ChNwrite p) t /\
          user_bytes (procs t r) a2 0 n = user_bytes (proc_at s w) a1 0 n)).
Proof.
  intros Hc Hok Hq Hn Hn2 Hmap. eapply wp_mono.
  2: { apply (pipewrite_all w p a1 n s); try done. unfold room. rewrite Hq. simpl. lia. }
  intros c1 s1 (-> & (Hok1 & Hq1 & _) & _ & _). split; [done|]. intros s2 Hs2 Hc2 Hmap2.
  rewrite Hq in Hq1. simpl in Hq1.
  assert (Hlen : Z.of_nat (length (user_bytes (proc_at s w) a1 0 n)) = n)
    by (unfold user_bytes; rewrite length_fmap, length_seqZ; lia).
  assert (E : pipe_at s2 p = pipe_at s1 p) by (unfold pipe_at; by rewrite Hs2).
  eapply wp_mono; [|apply (piperead_some r p a2 n2 s2); rewrite ?E; try done; [lia|left; rewrite Hq1; intros Hnil; rewrite Hnil in Hlen; simpl in Hlen; lia]].
  intros c2 s3 (-> & _ & _ & Hq3 & _ & t & Ht & _ & Hub). rewrite E, Hq1 in *.
  rewrite Nat.min_r in * by lia. rewrite drop_all in Hq3. rewrite take_ge in Hub by lia. rewrite Hlen in *.
  split_and!; try done. exists t. split; [done|exact Hub].
Qed.

(** ** pipeclose *)

(** The pipe with its write end, or its read end, closed. *)
Definition closed_end (writable : bool) (x : pipe) : pipe :=
  mkPipe (pi_data x) (pi_nread x) (pi_nwrite x) (pi_readopen x && writable) (pi_writeopen x && negb writable).

Definition other_chan (writable : bool) (p : Z) : chan := if writable then ChNread p else ChNwrite p.

Lemma pipeclose_marks L cur p (writable : bool) s (Q : unit -> kstate -> Prop) :
  on_cpu L cur (k_core s) -> LkPtable ∉ L ->
  (forall c, on_cpu L cur c ->
    Q tt (set_core c (set_ptab (wake_tab (other_chan writable p) (k_ptab s))
      (set_pipe (<[p := closed_end writable (pipe_at s p)]> (k_pipe s)) s)))) ->
  wp (if writable then
     upd_pipe p (fun x => mkPipe (pi_data x) (pi_nread x) (pi_nwrite x) (pi_readopen x) false);;
     wakeup (ChNread p)
   else
     upd_pipe p (fun x => mkPipe (pi_data x) (pi_nread x) (pi_nwrite x) false (pi_writeopen x));;
     wakeup (ChNwrite p)) s Q.
Proof.
  intros Hc Hni HQ. unfold closed_end in HQ. unfold upd_pipe.
  destruct writable; simpl in HQ; rewrite ?andb_true_r, ?andb_false_r in HQ; wp1;
    (eapply wp_wakeup; [exact Hc|done|]); intros c H; exact (HQ c H).
Qed.

(** [pipeclose] closes one end and wakes the processes waiting on the other
    end's account.  The page of the pipe goes back to the allocator exactly when
    both ends are closed; until then the pipe keeps its bytes, so that a reader
    gets what was written before the writer left. *)
Theorem pipeclose_closes (cur : option nat) (p : Z) (writable : bool) (s : kstate) (l : list Z) :
  on_cpu [] cur (k_core s) -> free_pages s l -> page_ok (km_end (k_kmem s)) p -> p ∉ l ->
  let x := closed_end writable (pipe_at s p) in
  wp (pipeclose p writable) s (fun _ s' => on_cpu [] cur (k_core s') /\
    k_ptab s' = wake_tab (other_chan writable p) (k_ptab s) /\
    pipe_at s' p = x /\ queue x = queue (pipe_at s p) /\
    (forall q, q <> p -> pipe_at s' q = pipe_at s q) /\
    free_pages s' (if pi_readopen x || pi_writeopen x then l else p :: l)).
Proof.
  intros Hc Hf Hp Hni x. unfold pipeclose. wpb. eapply wp_acquire; [exact Hc|by apply not_elem_of_nil|].
  intros c1 H1. wpb. eapply pipeclose_marks; [exact H1|by rewrite list_elem_of_singleton|].
  intros c2 H2. wp1. set (s1 := set_core c2 _).
  assert (Hat : forall c q, pipe_at (set_core c s1) q = if decide (p = q) then x else pipe_at s q) by reflexivity.
  assert (Hx : pipe_at s1 p = x) by (unfold s1, pipe_at, insert, fn_insert; simpl; by rewrite decide_True).
  assert (Hother : forall c q, q <> p -> pipe_at (set_core c s1) q = pipe_at s q)
    by (intros c q Hq; rewrite Hat; by rewrite decide_False by done).
  rewrite Hx. rewrite <- negb_orb. destruct (pi_readopen x || pi_writeopen x); simpl.
  - eapply wp_release; [exact H2|reflexivity|]. intros c3 H3. split_and!; try done; [exact (Hother c3)|].
    split; apply Hf.
  - wpb. eapply wp_release; [exact H2|reflexivity|]. intros c3 H3.
    eapply wp_kfree; [exact H3|by apply not_elem_of_nil|apply Hf|exact Hp|]. intros c4 H4.
    split_and!; try done; [exact (Hother c4)|]. apply (free_pages_kfree (set_core c3 s1)); [|exact Hp|done]. split; apply Hf.
Qed.

(** ** Concrete runs *)

Module Example.

(** An empty pipe at page 4096 whose counters are about to wrap around, and two
    processes; process 0 has a message in its memory. *)
Definition pipe_addr : Z := 4096.

Definition wrapping : pipe := mkPipe (fun _ => 0) 4294967294 4294967294 true true.

Definition procs_of (i : nat) : proc :=
  match i with
  | O => user_process RUNNING 1 (cstr "hello")
  | S O => user_process RUNNABLE 2 (fun _ => 0)
  | _ => zero_proc
  end.

Definition st (p : nat) : kstate :=
  set_pipe (fun _ => wrapping) (start (Some p) procs_of empty_stab).

Lemma wrapping_ok : pipe_ok wrapping.
Proof. split; simpl; unfold W32; [lia|lia|vm_compute; discriminate]. Qed.
End Example.

Lemma pipewrite_appends_witness :
  wp (pipewrite Example.pipe_addr 0 5) (Example.st 0) (fun r s' => r = 5 /\
    queue (pipe_at s' Example.pipe_addr) = [104; 101; 108; 108; 111]).
Proof.
  destruct (pipewrite_appends 0 Example.pipe_addr 0 5 (Example.st 0) (one_cpu_on _)
    Example.wrapping_ok ltac:(lia) ltac:(vm_compute; discriminate)) as [H _].
  refine (wp_mono _ _ _ _ _ (H ltac:(vm_compute; discriminate))).
  intros r s' (Hr & (_ & Hq & _) & _). split; [exact Hr|]. rewrite Hq. vm_compute. reflexivity.
Defined.

Lemma piperead_takes_witness :
  sleeps (piperead Example.pipe_addr 0 5 (Example.st 1)) (fun s1 _ =>
    p_state (proc_at s1 1) = SLEEPING).
Proof.
  destruct (piperead_takes 1 Example.pipe_addr 0 5 (Example.st 1) (one_cpu_on _)
    Example.wrapping_ok ltac:(lia) ltac:(vm_compute; discriminate)) as (_ & _ & H).
  refine (sleeps_mono _ _ _ _ (H ltac:(vm_compute; reflexivity) eq_refl eq_refl)).
  intros s1 k ((c & _ & ->) & _). reflexivity.
Defined.

Lemma pipe_roundtrip_witness :
  wp (pipewrite Example.pipe_addr 0 5) (Example.st 0) (fun c1 s1 => c1 = 5 /\
    forall s2, k_pipe s2 = k_pipe s1 -> on_cpu [] (Some 1%nat) (k_core s2) ->
      16 + 8 <= mapped_end (proc_at s2 1) ->
      wp (piperead Example.pipe_addr 16 8) s2 (fun c2 s3 => c2 = 5 /\
        queue (pipe_at s3 Example.pipe_addr) = [] /\
        exists t, k_ptab s3 = wake_tab (ChNwrite Example.pipe_addr) t /\
          user_bytes (procs t 1) 16 0 5 = [104; 101; 108; 108; 111])).
Proof.
  assert (E : user_bytes (proc_at (Example.st 0) 0) 0 0 5 = [104; 101; 108; 108; 111])
    by (vm_compute; reflexivity).
  rewrite <- E. apply (pipe_roundtrip 0 1 Example.pipe_addr 0 5 16 8 (Example.st 0) (one_cpu_on _)
    Example.wrapping_ok ltac:(vm_compute; reflexivity) ltac:(unfold PIPESIZE; lia) ltac:(lia)
    ltac:(vm_compute; discriminate)).
Defined.

Lemma pipeclose_closes_witness :
  wp (pipeclose Kalloc.Example.first_page true) (set_pipe (fun _ => Example.wrapping) Kalloc.Example.st)
    (fun _ s' => pi_writeopen (pipe_at s' Kalloc.Example.first_page) = false /\ free_pages s' []).
Proof.
  refine (wp_mono _ _ _ _ _ (pipeclose_closes None Kalloc.Example.first_page true
    (set_pipe (fun _ => Example.wrapping) Kalloc.Example.st) [] (one_cpu_on _) _
    Kalloc.Example.first_page_ok ltac:(by apply not_elem_of_nil))).
  - intros u s' (_ & _ & -> & _ & _ & Hf). split; [reflexivity|exact Hf].
  - split; apply Kalloc.Example.st_free.
Defined.
