(* ===== verification/Sleeplock.v ===== *)
(** * sleeplock.c: locks that a process waits for asleep

    [initsleeplock], [acquiresleep], [releasesleep] and [holdingsleep] on the
    locks of the buffers and of the inodes.  The spinlock inside a sleep lock is
    [LkSleep], the channel its address stands for is [ChSleep]. *)

From S2P Require Import Prelude CString KState Spinlock Proc.

Definition buf_at (s : kstate) (i : nat) : buf := fs_buf (k_fs s) i.
Definition inode_at (s : kstate) (i : nat) : inode := fs_inode (k_fs s) i.

Definition set_buf (i : nat) (b : buf) (s : kstate) : kstate :=
  set_fs (with_buf (<[i := b]> (fs_buf (k_fs s))) (k_fs s)) s.
Definition set_inode (i : nat) (x : inode) (s : kstate) : kstate :=
  set_fs (with_inode (<[i := x]> (fs_inode (k_fs s))) (k_fs s)) s.

Definition upd_buf (i : nat) (f : buf -> buf) : K unit :=
  modify (fun s => set_buf i (f (buf_at s i)) s).
Definition upd_inode (i : nat) (f : inode -> inode) : K unit :=
  modify (fun s => set_inode i (f (inode_at s i)) s).

(** The fields [locked] and [pid] of a sleep lock. *)
Definition sl_at (s : kstate) (l : slid) : sleeplock :=
  match l with
  | SlBuf i => b_lock (buf_at s i)
  | SlInode i => i_lock (inode_at s i)
  end.

Definition set_sl (l : slid) (x : sleeplock) (s : kstate) : kstate :=
  match l with
  | SlBuf i => set_buf i (buf_lock x (buf_at s i)) s
  | SlInode i => set_inode i (inode_lock x (inode_at s i)) s
  end.

(** [lk->locked = x; lk->pid = y;] *)
Definition upd_sl (l : slid) (x : sleeplock) : K unit := modify (set_sl l x).

(** The lock's own [name] is kept for debugging only. *)
Definition initsleeplock (l : slid) : K unit :=
  initlock (LkSleep l) "sleep lock";;
  upd_sl l (mkSl false 0).

(** [while (lk->locked) sleep(lk, &lk->lk);] *)
Fixpoint acquiresleep_wait (fuel : nat) (l : slid) : K unit :=
  match fuel with
  | O => fun s => Stuck s
  | S k =>
      x ← gets (fun s => sl_at s l);
      if sl_locked x then
        sleep (ChSleep l) (LkSleep l);;
        acquiresleep_wait k l
      else mret tt
  end.

(** [lk->locked = 1; lk->pid = myproc()->pid; release(&lk->lk);] *)
Definition acquiresleep_take (l : slid) : K unit :=
  '(_, p) ← curproc;
  upd_sl l (mkSl true (p_pid p));;
  release (LkSleep l).

Definition acquiresleep (l : slid) : K unit :=
  acquire (LkSleep l);;
  w ← gets k_wakeups;
  acquiresleep_wait (S w) l;;
  acquiresleep_take l.

Definition releasesleep (l : slid) : K unit :=
  acquire (LkSleep l);;
  upd_sl l (mkSl false 0);;
  wakeup (ChSleep l);;
  release (LkSleep l).

Definition holdingsleep (l : slid) : K bool :=
  acquire (LkSleep l);;
  x ← gets (fun s => sl_at s l);
  '(_, p) ← curproc;
  let r := sl_locked x && (sl_pid x =? p_pid p) in
  release (LkSleep l);;
  mret r.

(** ** Lemmas *)

Lemma set_sl_core l x s : k_core (set_sl l x s) = k_core s.
Proof. by destruct l. Qed.

Lemma sl_at_set_core c s l : sl_at (set_core c s) l = sl_at s l.
Proof. by destruct l. Qed.

Lemma set_sl_set_core l x c s : set_sl l x (set_core c s) = set_core c (set_sl l x s).
Proof. by destruct l. Qed.

Lemma proc_at_set_sl l x s p : proc_at (set_sl l x s) p = proc_at s p.
Proof. by destruct l. Qed.

Lemma set_sl_ptab l x s : k_ptab (set_sl l x s) = k_ptab s.
Proof. by destruct l. Qed.

Section sleeplock.
Context (L : list lockid) (cur : nat) (l : slid).

Lemma wp_acquiresleep_take s (Q : unit -> kstate -> Prop) :
  on_cpu (LkSleep l :: L) (Some cur) (k_core s) ->
  (forall c, on_cpu L (Some cur) c ->
    Q tt (set_core c (set_sl l (mkSl true (p_pid (proc_at s cur))) s))) ->
  wp (acquiresleep_take l) s Q.
Proof.
  intros Hc HQ. unfold acquiresleep_take, upd_sl. wpb. eapply wp_curproc; [exact Hc|]. intros c1 H1.
  cbv beta iota. wp1. rewrite set_sl_set_core.
  eapply wp_release; [exact H1|reflexivity|]. intros c2 H2. by apply HQ.
Qed.

Lemma wp_acquiresleep s (Q : unit -> kstate -> Prop) :
  on_cpu L (Some cur) (k_core s) -> LkSleep l ∉ L -> sl_locked (sl_at s l) = false ->
  (forall c, on_cpu L (Some cur) c ->
    Q tt (set_core c (set_sl l (mkSl true (p_pid (proc_at s cur))) s))) ->
  wp (acquiresleep l) s Q.
Proof.
  intros Hc Hni Hf HQ. unfold acquiresleep. wpb. eapply wp_acquire; [exact Hc|done|]. intros c1 H1.
  wp1. cbn [acquiresleep_wait]. wpb. wp1. rewrite sl_at_set_core, Hf. apply wp_ret.
  eapply wp_acquiresleep_take; [exact H1|]. intros c2 H2. rewrite set_sl_set_core. by apply HQ.
Qed.

Lemma wp_releasesleep s (Q : unit -> kstate -> Prop) :
  on_cpu L (Some cur) (k_core s) -> LkSleep l ∉ L -> LkPtable ∉ L ->
  (forall c, on_cpu L (Some cur) c ->
    Q tt (set_core c (set_ptab (wake_tab (ChSleep l) (k_ptab s)) (set_sl l (mkSl false 0) s)))) ->
  wp (releasesleep l) s Q.
Proof.
  intros Hc Hni Hnp HQ. unfold releasesleep, upd_sl. wpb. eapply wp_acquire; [exact Hc|done|]. intros c1 H1.
  wp1. rewrite set_sl_set_core. wpb.
  eapply wp_wakeup; [exact H1|by rewrite not_elem_of_cons|]. intros c2 H2.
  eapply wp_release; [exact H2|reflexivity|]. intros c3 H3.
  specialize (HQ c3 H3). simpl. by rewrite set_sl_ptab.
Qed.

Lemma wp_holdingsleep s (Q : bool -> kstate -> Prop) :
  on_cpu L (Some cur) (k_core s) -> LkSleep l ∉ L ->
  (forall c, on_cpu L (Some cur) c ->
    Q (sl_locked (sl_at s l) && (sl_pid (sl_at s l) =? p_pid (proc_at s cur))) (set_core c s)) ->
  wp (holdingsleep l) s Q.
Proof.
  intros Hc Hni HQ. unfold holdingsleep. wpb. eapply wp_acquire; [exact Hc|done|]. intros c1 H1.
  wp1. wpb. eapply wp_curproc; [exact H1|]. intros c2 H2. cbv beta iota. wpb.
  eapply wp_release; [exact H2|reflexivity|]. intros c3 H3. rewrite sl_at_set_core. by apply wp_ret, HQ.
Qed.
End sleeplock.

(** [acquiresleep] gives the lock to one process.  If it is free the process
    takes it and its pid is recorded.  If it is taken the process goes to sleep on
    the lock with the spinlock released, and, woken up, goes back to the test with
    the spinlock held again, so that it never takes a lock another process holds. *)
Theorem acquiresleep_exclusive (cur : nat) (l : slid) (s : kstate) :
  on_cpu [] (Some cur) (k_core s) ->
  (sl_locked (sl_at s l) = false ->
    wp (acquiresleep l) s (fun _ s' => exists c, on_cpu [] (Some cur) c /\
      s' = set_core c (set_sl l (mkSl true (p_pid (proc_at s cur))) s))) /\
  (sl_locked (sl_at s l) = true ->
    sleeps (acquiresleep l s) (fun s1 k =>
      (exists c, on_cpu [LkPtable] (Some cur) c /\
         s1 = set_core c (set_ptab (asleep_proc cur (ChSleep l) (k_ptab s)) s)) /\
      forall s', on_cpu [LkPtable] (Some cur) (k_core s') -> exists c,
        on_cpu [LkSleep l] (Some cur) c /\
        k s' = (acquiresleep_wait (k_wakeups s) l;; acquiresleep_take l)
          (set_core c (set_ptab (woken_proc cur (k_ptab s')) s')))).
Proof.
  intros Hc. split; intros Hl.
  - eapply wp_acquiresleep; [exact Hc|by apply not_elem_of_nil|done|]. intros c H. by exists c.
  - unfold acquiresleep. apply sleeps_bind_wp. eapply wp_acquire; [exact Hc|by apply not_elem_of_nil|].
    intros c1 H1. apply sleeps_bind_wp. unfold wp at 1, gets. apply sleeps_bind. cbn [acquiresleep_wait].
    apply sleeps_bind_wp. unfold wp at 1, gets. rewrite sl_at_set_core, Hl. apply sleeps_bind.
    eapply sleeps_mono; [|apply (sleep_sleeps cur); [exact H1|done]].
    intros s1 k (c & -> & H2 & Hk). split; [by exists c|]. intros s' Hs'.
    specialize (Hk s' Hs'). apply wp_Done in Hk as ([] & s2 & Hrun & c2 & -> & H3).
    exists c2. split; [done|]. unfold mbind, M_bind. by rewrite Hrun.
Qed.

Lemma acquiresleep_exclusive_witness :
  wp (acquiresleep (SlBuf 3)) (start (Some 0%nat) (fun _ => user_process RUNNING 7 (fun _ => 0)) empty_stab)
    (fun _ s' => sl_at s' (SlBuf 3) = mkSl true 7).
Proof.
  destruct (acquiresleep_exclusive 0 (SlBuf 3)
    (start (Some 0%nat) (fun _ => user_process RUNNING 7 (fun _ => 0)) empty_stab) (one_cpu_on _)) as [H _].
  refine (wp_mono _ _ _ _ _ (H eq_refl)). intros u s' (c & _ & ->). reflexivity.
Defined.
