(* ===== verification/Bio.v ===== *)
(** * bio.c and memide.c: the buffer cache over a disk in memory

    The thirty buffers form a ring through [next] and [prev], with
    [bcache.head], index NBUF, in it; the head's [next] is the buffer used most
    recently.  [content] is what the blocks of the disk hold for the rest of the
    kernel: the data of the buffer that caches a block, and otherwise the block
    itself.  [bread], [bwrite] and [brelse] are specified by what they do to
    this content and to the disk.  The disk is memide.c's, on which [iderw] copies
    a block at once; [d_writes] keeps every write in order.

    A block is an array of BSIZE bytes; the [memmove] of a whole array to
    another is the assignment of the array. *)

From S2P Require Import Prelude CString KState Spinlock Proc Sleeplock.

Definition B_VALID : Z := 2.
Definition B_DIRTY : Z := 4.

(** ** memide.c *)

(** The disk after one block is written. *)
Definition disk_put (bn : Z) (data : mem) (d : disk) : disk :=
  mkDisk (<[bn := data]> (d_blocks d)) (d_size d) (d_writes d ++ [(bn, data)]).

Definition disk_write (bn : Z) (data : mem) : K unit :=
  modify (fun s => set_fs (with_disk (disk_put bn data (fs_disk (k_fs s))) (k_fs s)) s).

Definition iderw (i : nat) : K unit :=
  h ← holdingsleep (SlBuf i);
  if negb h then panic "iderw: buf not locked"
  else
    b ← gets (fun s => buf_at s i);
    if Z.land (b_flags b) (Z.lor B_VALID B_DIRTY) =? B_VALID then panic "iderw: nothing to do"
    else if negb (b_dev b =? 1) then panic "iderw: request not for disk 1"
    else
      disksize ← gets (fun s => d_size (fs_disk (k_fs s)));
      if disksize <=? b_blockno b then panic "iderw: block out of range"
      else
        (if negb (Z.land (b_flags b) B_DIRTY =? 0) then
           upd_buf i (fun b => buf_flags (Z.land (b_flags b) (Z.lnot B_DIRTY)) b);;
           disk_write (b_blockno b) (b_data b)
         else
           p ← gets (fun s => d_blocks (fs_disk (k_fs s)) (b_blockno b));
           upd_buf i (buf_data p));;
        upd_buf i (fun b => buf_flags (Z.lor (b_flags b) B_VALID) b).

(** ** bio.c *)

Definition bcache_head : nat := NBUF.

Definition set_next (i v : nat) (bs : nat -> buf) : nat -> buf := <[i := buf_next v (bs i)]> bs.
Definition set_prev (i v : nat) (bs : nat -> buf) : nat -> buf := <[i := buf_prev v (bs i)]> bs.

Definition upd_bufs (f : (nat -> buf) -> nat -> buf) : K unit :=
  modify (fun s => set_fs (with_buf (f (fs_buf (k_fs s))) (k_fs s)) s).

(** [b] put behind the head. *)
Definition link_front (b : nat) (bs : nat -> buf) : nat -> buf :=
  let bs := set_next b (b_next (bs bcache_head)) bs in
  let bs := set_prev b bcache_head bs in
  let bs := set_prev (b_next (bs bcache_head)) b bs in
  set_next bcache_head b bs.

(** [b->next->prev = b->prev; b->prev->next = b->next;] *)
Definition unlink (b : nat) (bs : nat -> buf) : nat -> buf :=
  let bs := set_prev (b_next (bs b)) (b_prev (bs b)) bs in
  set_next (b_prev (bs b)) (b_next (bs b)) bs.

(** The loop of [binit]. *)
Fixpoint binit_loop (n : nat) (b : nat) : K unit :=
  match n with
  | O => mret tt
  | S k =>
      upd_bufs (fun bs => set_prev b bcache_head (set_next b (b_next (bs bcache_head)) bs));;
      initsleeplock (SlBuf b);;
      upd_bufs (fun bs => set_next bcache_head b (set_prev (b_next (bs bcache_head)) b bs));;
      binit_loop k (S b)
  end.

Definition binit : K unit :=
  initlock LkBcache "bcache";;
  upd_bufs (set_prev bcache_head bcache_head);;
  upd_bufs (set_next bcache_head bcache_head);;
  binit_loop NBUF 0.

(** [for(b = b0; b != &bcache.head; b = step(b)) if(P(b)) return b;] *)
Fixpoint scan (step : buf -> nat) (P : buf -> bool) (fuel : nat) (b : nat) : K (option nat) :=
  match fuel with
  | O => fun s => Stuck s
  | S k =>
      if (b =? bcache_head)%nat then mret None
      else
        x ← gets (fun s => buf_at s b);
        if P x then mret (Some b) else scan step P k (step x)
  end.

Definition caches (dev blockno : Z) (b : buf) : bool := (b_dev b =? dev) && (b_blockno b =? blockno).
Definition recyclable (b : buf) : bool := (b_refcnt b =? 0) && (Z.land (b_flags b) B_DIRTY =? 0).

Definition bget (dev blockno : Z) : K nat :=
  acquire LkBcache;;
  h ← gets (fun s => buf_at s bcache_head);
  hit ← scan b_next (caches dev blockno) (S NBUF) (b_next h);
  match hit with
  | Some b =>
      upd_buf b (fun x => buf_refcnt (uint32 (b_refcnt x + 1)) x);;
      release LkBcache;;
      acquiresleep (SlBuf b);;
      mret b
  | None =>
      old ← scan b_prev recyclable (S NBUF) (b_prev h);
      match old with
      | Some b =>
          upd_buf b (fun x => mkBuf 0 dev blockno (b_lock x) 1 (b_prev x) (b_next x) (b_data x));;
          release LkBcache;;
          acquiresleep (SlBuf b);;
          mret b
      | None => panic "bget: no buffers"
      end
  end.

Definition bread (dev blockno : Z) : K nat :=
  b ← bget dev blockno;
  x ← gets (fun s => buf_at s b);
  when (Z.land (b_flags x) B_VALID =? 0) (iderw b);;
  mret b.

Definition bwrite (b : nat) : K unit :=
  h ← holdingsleep (SlBuf b);
  if negb h then panic "bwrite"
  else
    upd_buf b (fun x => buf_flags (Z.lor (b_flags x) B_DIRTY) x);;
    iderw b.

Definition brelse (b : nat) : K unit :=
  h ← holdingsleep (SlBuf b);
  if negb h then panic "brelse"
  else
    releasesleep (SlBuf b);;
    acquire LkBcache;;
    upd_buf b (fun x => buf_refcnt (uint32 (b_refcnt x - 1)) x);;
    x ← gets (fun s => buf_at s b);
    when (b_refcnt x =? 0) (upd_bufs (unlink b);; upd_bufs (link_front b));;
    release LkBcache.

(** ** The ring

    [seg nx pv x l y]: following [nx] from [x] one passes the nodes of [l] and
    comes to [y], and [pv] leads back. *)

Fixpoint seg (nx pv : nat -> nat) (x : nat) (l : list nat) (y : nat) : Prop :=
  match l with
  | [] => nx x = y /\ pv y = x
  | z :: l' => nx x = z /\ pv z = x /\ seg nx pv z l' y
  end.

Lemma seg_app nx pv l1 z l2 y : forall x,
  seg nx pv x (l1 ++ z :: l2) y <-> seg nx pv x l1 z /\ seg nx pv z l2 y.
Proof. induction l1 as [|a l1 IH]; intros x; simpl; [tauto|]. rewrite IH. tauto. Qed.

Lemma seg_ext nx pv nx' pv' l y : forall x,
  (forall u, u ∈ x :: l -> nx' u = nx u) -> (forall u, u ∈ l ++ [y] -> pv' u = pv u) ->
  seg nx pv x l y -> seg nx' pv' x l y.
Proof.
  induction l as [|z l IH]; intros x Hn Hp; simpl in *.
  - intros [E1 E2]. rewrite Hn, Hp by set_solver. done.
  - intros (E1 & E2 & Hs). rewrite Hn, Hp by set_solver. split_and!; [done..|].
    apply IH; [intros u Hu; apply Hn; by right|intros u Hu; apply Hp; by right|done].
Qed.

Lemma seg_rev nx pv l y : forall x, seg nx pv x l y -> seg pv nx y (reverse l) x.
Proof.
  induction l as [|z l IH]; intros x; simpl.
  - tauto.
  - intros (Hn & Hp & Hs). rewrite reverse_cons. apply (seg_app pv nx (reverse l) z []). split; [by apply IH|].
    simpl. done.
Qed.

Lemma seg_pv_in nx pv l y : forall x, seg nx pv x l y -> pv y ∈ x :: l.
Proof.
  induction l as [|z l IH]; intros x; simpl.
  - intros [_ ->]. set_solver.
  - intros (_ & _ & Hs). apply IH in Hs. set_solver.
Qed.

Lemma seg_nx_in nx pv x l y : seg nx pv x l y -> nx x ∈ l ++ [y].
Proof. destruct l; simpl; [intros [-> _]|intros (-> & _)]; set_solver. Qed.

(** Taking [b] out. *)
Lemma seg_unlink nx pv b l2 y : forall l1 x,
  seg nx pv x l1 b -> seg nx pv b l2 y -> NoDup (x :: l1 ++ b :: l2) -> NoDup (l1 ++ b :: l2 ++ [y]) ->
  seg (<[pv b := nx b]> nx) (<[nx b := pv b]> pv) x (l1 ++ l2) y.
Proof.
  induction l1 as [|a l1 IH]; intros x H1 H2 Hx Hy.
  - destruct H1 as [Hn Hp]. apply NoDup_cons in Hx as [Hx Hl]. apply NoDup_cons in Hl as [Hb Hl].
    simpl in *. apply NoDup_cons in Hy as [Hb' Hy]. rewrite Hp. destruct l2 as [|z l2]; simpl in *.
    + destruct H2 as [-> H2]. by rewrite !fn_insert_eq.
    + destruct H2 as (-> & H2 & H3). rewrite !fn_insert_eq. split_and!; [done..|].
      eapply seg_ext; [| |exact H3].
      * intros u Hu. apply fn_insert_ne. set_solver.
      * apply NoDup_cons in Hy as [Hz _]. intros u Hu. apply fn_insert_ne. set_solver.
  - destruct H1 as (Hn & Hp & H1). simpl. apply NoDup_cons in Hx as [Hx Hxl]. simpl in Hy, Hxl.
    pose proof (seg_pv_in _ _ _ _ _ H1). pose proof (seg_nx_in _ _ _ _ _ H2).
    apply NoDup_cons in Hy as [Ha Hy]. split_and!.
    + rewrite fn_insert_ne; [done|]. intros ->. set_solver.
    + rewrite fn_insert_ne; [done|]. intros ->. set_solver.
    + by apply IH.
Qed.

(** Putting [b] behind [h]. *)
Lemma seg_link nx pv h b o :
  seg nx pv h o h -> b ∉ h :: o -> NoDup (h :: o) ->
  seg (<[h := b]> (<[b := nx h]> nx)) (<[nx h := b]> (<[b := h]> pv)) h (b :: o) h.
Proof.
  intros Hs Hb Hnd. assert (Hbh : b <> h) by set_solver.
  assert (Hnb : nx h <> b) by (apply seg_nx_in in Hs; set_solver).
  apply NoDup_cons in Hnd as [Hh Hnd]. simpl. rewrite fn_insert_eq. rewrite (fn_insert_ne _ (nx h)) by done.
  rewrite fn_insert_eq. split_and!; [done..|]. destruct o as [|z o]; simpl in *.
  - destruct Hs as [-> Hp]. rewrite (fn_insert_ne _ h) by done. by rewrite !fn_insert_eq.
  - destruct Hs as (-> & Hp & Hs). rewrite (fn_insert_ne _ h) by done. rewrite !fn_insert_eq.
    split_and!; [done..|]. apply NoDup_cons in Hnd as [Hz Hnd]. eapply seg_ext; [| |exact Hs].
    + intros u Hu. rewrite !fn_insert_ne by set_solver. done.
    + intros u Hu. rewrite !fn_insert_ne by set_solver. done.
Qed.

(** The buffers in the order of the ring, the most recently used first. *)
Record ring (bs : nat -> buf) (order : list nat) : Prop := mkRing {
  rg_all : order ≡ₚ seq 0 NBUF;
  rg_seg : seg (fun i => b_next (bs i)) (fun i => b_prev (bs i)) bcache_head order bcache_head
}.

(** Two buffers that differ at most in their links. *)
Record but_links (x y : buf) : Prop := mkButLinks {
  bl_flags : b_flags y = b_flags x;
  bl_dev : b_dev y = b_dev x;
  bl_blockno : b_blockno y = b_blockno x;
  bl_lock : b_lock y = b_lock x;
  bl_refcnt : b_refcnt y = b_refcnt x;
  bl_data : b_data y = b_data x
}.

#[export] Instance but_links_preorder : PreOrder but_links.
Proof. split; [by split|]. intros x y z [] []. split; congruence. Qed.

Lemma set_next_links i v bs j : but_links (bs j) (set_next i v bs j).
Proof. unfold set_next. rewrite fn_insert_case. case_decide; subst; by split. Qed.

Lemma set_prev_links i v bs j : but_links (bs j) (set_prev i v bs j).
Proof. unfold set_prev. rewrite fn_insert_case. case_decide; subst; by split. Qed.

Lemma set_next_next i v bs j : b_next (set_next i v bs j) = <[i := v]> (fun k => b_next (bs k)) j.
Proof. unfold set_next. rewrite !fn_insert_case. by case_decide. Qed.
Lemma set_next_prev i v bs j : b_prev (set_next i v bs j) = b_prev (bs j).
Proof. unfold set_next. rewrite fn_insert_case. case_decide; by subst. Qed.
Lemma set_prev_prev i v bs j : b_prev (set_prev i v bs j) = <[i := v]> (fun k => b_prev (bs k)) j.
Proof. unfold set_prev. rewrite !fn_insert_case. by case_decide. Qed.
Lemma set_prev_next i v bs j : b_next (set_prev i v bs j) = b_next (bs j).
Proof. unfold set_prev. rewrite fn_insert_case. case_decide; by subst. Qed.

Lemma unlink_links b bs j : but_links (bs j) (unlink b bs j).
Proof. unfold unlink. etransitivity; [apply set_prev_links|apply set_next_links]. Qed.

Lemma link_front_links b bs j : but_links (bs j) (link_front b bs j).
Proof.
  unfold link_front. do 3 (etransitivity; [|apply set_next_links || apply set_prev_links]).
  apply set_next_links.
Qed.

Lemma order_nodup bs order : ring bs order -> NoDup (bcache_head :: order).
Proof.
  intros [Hp _]. rewrite Hp. constructor; [|apply NoDup_ListNoDup, seq_NoDup].
  intros Hin. apply elem_of_seq in Hin. unfold bcache_head in Hin. lia.
Qed.

Lemma ring_elem bs order i : ring bs order -> i ∈ order <-> (i < NBUF)%nat.
Proof. intros [Hp _]. rewrite Hp, elem_of_seq. lia. Qed.

Lemma unlink_next b bs j :
  b_prev (bs b) <> b -> b_next (bs b) <> b ->
  b_next (unlink b bs j) = <[b_prev (bs b) := b_next (bs b)]> (fun k => b_next (bs k)) j.
Proof.
  intros Hp Hn. unfold unlink. cbv zeta. rewrite set_next_next, set_prev_next, set_prev_prev.
  rewrite (fn_insert_ne _ (b_next (bs b))) by congruence. rewrite !fn_insert_case. case_decide; [done|]. by rewrite set_prev_next.
Qed.

Lemma unlink_prev b bs j :
  b_prev (unlink b bs j) = <[b_next (bs b) := b_prev (bs b)]> (fun k => b_prev (bs k)) j.
Proof. unfold unlink. cbv zeta. by rewrite set_next_prev, set_prev_prev. Qed.

Lemma link_front_next b bs j :
  b <> bcache_head ->
  b_next (link_front b bs j) =
  <[bcache_head := b]> (<[b := b_next (bs bcache_head)]> (fun k => b_next (bs k))) j.
Proof.
  intros Hb. unfold link_front. cbv zeta. rewrite set_next_next, !fn_insert_case.
  case_decide; [done|]. by rewrite !set_prev_next, set_next_next, fn_insert_case.
Qed.

Lemma link_front_prev b bs j :
  b <> bcache_head ->
  b_prev (link_front b bs j) =
  <[b_next (bs bcache_head) := b]> (<[b := bcache_head]> (fun k => b_prev (bs k))) j.
Proof.
  intros Hb. unfold link_front. cbv zeta.
  rewrite set_next_prev, set_prev_prev, set_prev_next, set_next_next, !fn_insert_case.
  rewrite (decide_False (P := b = bcache_head)) by done.
  case_decide; [done|]. by rewrite set_prev_prev, fn_insert_case, set_next_prev.
Qed.

(** The move of [brelse]: the buffer becomes the first of the ring. *)
Lemma move_front_ring bs o1 b o2 :
  ring bs (o1 ++ b :: o2) -> ring (link_front b (unlink b bs)) (b :: o1 ++ o2).
Proof.
  intros Hr. pose proof (order_nodup _ _ Hr) as Hnd. destruct Hr as [Hp Hs].
  assert (Hb : b <> bcache_head) by (intros ->; apply NoDup_cons in Hnd as [Hh _]; set_solver).
  apply seg_app in Hs as [H1 H2]. pose proof (seg_pv_in _ _ _ _ _ H1) as Hpi.
  pose proof (seg_nx_in _ _ _ _ _ H2) as Hni. simpl in Hpi, Hni.
  assert (Hnd' : NoDup (o1 ++ b :: o2 ++ [bcache_head])).
  { change (NoDup (o1 ++ (b :: o2) ++ [bcache_head])). rewrite app_assoc, Permutation_app_comm. exact Hnd. }
  apply NoDup_cons in Hnd as [Hh Hnd]. pose proof Hnd as Hnd2. apply NoDup_app in Hnd2 as (_ & Hd & Hnd2).
  apply NoDup_cons in Hnd2 as [Hb2 _].
  assert (Hb1 : b ∉ o1) by (intros H; apply (Hd b H); by left).
  split; [rewrite <- Hp; apply Permutation_middle|].
  eapply (seg_ext (<[bcache_head := b]> (<[b := b_next (unlink b bs bcache_head)]> (fun k => b_next (unlink b bs k))))
    (<[b_next (unlink b bs bcache_head) := b]> (<[b := bcache_head]> (fun k => b_prev (unlink b bs k))))).
  - intros u _. by apply link_front_next.
  - intros u _. by apply link_front_prev.
  - apply (seg_link (fun k => b_next (unlink b bs k)) (fun k => b_prev (unlink b bs k))).
    + eapply seg_ext; [| |apply (seg_unlink _ _ _ _ _ _ _ H1 H2); [by constructor|exact Hnd']].
      * intros u _. apply unlink_next; intros E; [rewrite E in Hpi|rewrite E in Hni]; set_solver.
      * intros u _. apply unlink_prev.
    + set_solver.
    + constructor; [set_solver|]. apply NoDup_app in Hnd as (N1 & N2 & N3). apply NoDup_cons in N3 as [_ N3].
      apply NoDup_app. split_and!; [done| |done]. intros x Hx Hx2. apply (N2 x Hx). by right.
Qed.

(** ** Flags *)

Definition valid (x : buf) : bool := Z.testbit (b_flags x) 1.
Definition dirty (x : buf) : bool := Z.testbit (b_flags x) 2.

Lemma land_bit f k : 0 <= k -> (Z.land f (2 ^ k) =? 0) = negb (Z.testbit f k).
Proof.
  intros Hk. destruct (Z.testbit f k) eqn:E; simpl.
  - apply Z.eqb_neq. intros H. assert (Z.testbit (Z.land f (2 ^ k)) k = false) as H' by (rewrite H; apply Z.testbit_0_l).
    by rewrite Z.land_spec, E, Z.pow2_bits_true in H' by done.
  - apply Z.eqb_eq. apply Z.bits_inj'. intros n Hn. rewrite Z.land_spec, Z.testbit_0_l.
    destruct (Z.eq_dec n k) as [->|]; [by rewrite E|]. rewrite Z.pow2_bits_false by done. apply andb_false_r.
Qed.

Lemma land_valid x : (Z.land (b_flags x) B_VALID =? 0) = negb (valid x).
Proof. apply (land_bit _ 1). lia. Qed.

Lemma land_dirty x : (Z.land (b_flags x) B_DIRTY =? 0) = negb (dirty x).
Proof. apply (land_bit _ 2). lia. Qed.

Lemma land_both x :
  (Z.land (b_flags x) (Z.lor B_VALID B_DIRTY) =? B_VALID) = valid x && negb (dirty x).
Proof.
  unfold valid, dirty. apply eq_bool_prop_intro. rewrite !Is_true_true, Z.eqb_eq, andb_true_iff, negb_true_iff.
  split.
  - intros H. split.
    + assert (Z.testbit (Z.land (b_flags x) (Z.lor B_VALID B_DIRTY)) 1 = true) as H' by (by rewrite H).
      by rewrite Z.land_spec, andb_true_r in H'.
    + assert (Z.testbit (Z.land (b_flags x) (Z.lor B_VALID B_DIRTY)) 2 = false) as H' by (by rewrite H).
      by rewrite Z.land_spec, andb_true_r in H'.
  - intros [H1 H2]. apply Z.bits_inj'. intros n Hn. rewrite Z.land_spec.
    destruct (Z.eq_dec n 1) as [->|]; [by rewrite H1|]. destruct (Z.eq_dec n 2) as [->|]; [by rewrite H2|].
    change (Z.lor B_VALID B_DIRTY) with (Z.lor (2 ^ 1) (2 ^ 2)). change B_VALID with (2 ^ 1).
    rewrite Z.lor_spec, !Z.pow2_bits_false by done. apply andb_false_r.
Qed.

Lemma flags_or_valid f : Z.testbit (Z.lor f B_VALID) 1 = true /\ Z.testbit (Z.lor f B_VALID) 2 = Z.testbit f 2.
Proof. rewrite !Z.lor_spec. simpl. by rewrite orb_true_r, orb_false_r. Qed.

Lemma flags_or_dirty f : Z.testbit (Z.lor f B_DIRTY) 2 = true /\ Z.testbit (Z.lor f B_DIRTY) 1 = Z.testbit f 1.
Proof. rewrite !Z.lor_spec. simpl. by rewrite orb_true_r, orb_false_r. Qed.

Lemma flags_not_dirty f :
  Z.testbit (Z.land f (Z.lnot B_DIRTY)) 2 = false /\ Z.testbit (Z.land f (Z.lnot B_DIRTY)) 1 = Z.testbit f 1.
Proof. rewrite !Z.land_spec. simpl. by rewrite andb_false_r, andb_true_r. Qed.

#[global] Arguments Z.testbit : simpl never.

(** ** The invariant and the content *)

(** What holds of each buffer, [D] being the blocks of the disk. *)
Record buf_ok (D : Z -> mem) (x : buf) : Prop := mkBufOk {
  bo_dirty : dirty x = true -> valid x = true;
  bo_dev : valid x = true -> b_dev x = 1;
  bo_clean : valid x = true -> dirty x = false -> sl_locked (b_lock x) = false ->
    b_data x = D (b_blockno x);
  bo_idle : b_refcnt x = 0 -> sl_locked (b_lock x) = false;
  bo_refcnt : 0 <= b_refcnt x < W32
}.

Record bcache_ok (f : fsst) (order : list nat) : Prop := mkBcacheOk {
  bc_ring : ring (fs_buf f) order;
  bc_uniq : forall i j, (i < NBUF)%nat -> (j < NBUF)%nat -> b_dev (fs_buf f i) = 1 -> b_dev (fs_buf f j) = 1 ->
    b_blockno (fs_buf f i) = b_blockno (fs_buf f j) -> i = j;
  bc_bufs : forall i, (i < NBUF)%nat -> buf_ok (d_blocks (fs_disk f)) (fs_buf f i)
}.

(** What the blocks hold for the rest of the kernel. *)
Definition cached (f : fsst) (b : Z) : option nat := find_idx (fun i => caches 1 b (fs_buf f i)) NBUF.

Definition content (f : fsst) (b : Z) : mem :=
  match cached f b with
  | Some i => if valid (fs_buf f i) then b_data (fs_buf f i) else d_blocks (fs_disk f) b
  | None => d_blocks (fs_disk f) b
  end.

(** The buffers a block could be read into. *)
Definition free_bufs (f : fsst) : Z := count_idx (fun i => recyclable (fs_buf f i)) NBUF.

Lemma caches_true dev b x : caches dev b x = true <-> b_dev x = dev /\ b_blockno x = b.
Proof. unfold caches. rewrite andb_true_iff, !Z.eqb_eq. done. Qed.

Lemma recyclable_true x : recyclable x = true <-> b_refcnt x = 0 /\ dirty x = false.
Proof. unfold recyclable. rewrite land_dirty, andb_true_iff, Z.eqb_eq, negb_true_iff. done. Qed.

Lemma content_none f b :
  (forall i, (i < NBUF)%nat -> caches 1 b (fs_buf f i) = false) -> content f b = d_blocks (fs_disk f) b.
Proof. intros H. unfold content. by rewrite (proj2 (find_idx_None _ _) H : cached f b = None). Qed.

(** [f'] is [f] with buffer [i] replaced by [x]. *)
Record buf_upd (i : nat) (x : buf) (f f' : fsst) : Prop := mkBufUpd {
  bu_at : fs_buf f' i = x;
  bu_other : forall j, j <> i -> fs_buf f' j = fs_buf f j;
  bu_disk : fs_disk f' = fs_disk f;
  bu_log : fs_log f' = fs_log f;
  bu_sb : fs_sb f' = fs_sb f;
  bu_inode : fs_inode f' = fs_inode f
}.

Lemma buf_upd_set i x f : buf_upd i x f (with_buf (<[i := x]> (fs_buf f)) f).
Proof. split; try done; simpl; [apply fn_insert_eq|]. intros j Hj. by apply fn_insert_ne. Qed.

Lemma buf_upd_trans i x y f f' f'' : buf_upd i x f f' -> buf_upd i y f' f'' -> buf_upd i y f f''.
Proof. intros [] []. split; [done| |congruence..]. intros j Hj. etransitivity; auto. Qed.

Lemma ring_ext bs bs' order :
  ring bs order -> (forall j, b_next (bs' j) = b_next (bs j) /\ b_prev (bs' j) = b_prev (bs j)) -> ring bs' order.
Proof.
  intros [Hp Hs] He. split; [done|]. eapply seg_ext; [| |exact Hs]; intros u _; apply He.
Qed.

Lemma bcache_ok_upd f f' order i x :
  bcache_ok f order -> (i < NBUF)%nat -> buf_upd i x f f' ->
  b_next x = b_next (fs_buf f i) -> b_prev x = b_prev (fs_buf f i) ->
  buf_ok (d_blocks (fs_disk f)) x ->
  (b_dev x = 1 -> forall j, (j < NBUF)%nat -> j <> i -> caches 1 (b_blockno x) (fs_buf f j) = false) ->
  bcache_ok f' order.
Proof.
  intros [Hr Hu Hb] Hi [Ha Ho Hd _ _ _] Hn Hp Hx Hone. split.
  - eapply ring_ext; [exact Hr|]. intros j. destruct (decide (j = i)) as [->|]; [by rewrite Ha|by rewrite Ho].
  - intros j k Hj Hk. destruct (decide (j = i)) as [->|Hji], (decide (k = i)) as [->|Hki]; try done;
      rewrite ?Ha, ?(Ho j), ?(Ho k) by done; intros D1 D2 E.
    + specialize (Hone D1 k Hk Hki). rewrite E, (proj2 (caches_true 1 (b_blockno (fs_buf f k)) _)) in Hone by done. done.
    + specialize (Hone D2 j Hj Hji). rewrite <- E, (proj2 (caches_true 1 (b_blockno (fs_buf f j)) _)) in Hone by done. done.
    + by apply Hu.
  - intros j Hj. rewrite Hd. destruct (decide (j = i)) as [->|]; [by rewrite Ha|rewrite Ho by done; by apply Hb].
Qed.

(** Which other buffer could hold the block of buffer [i]: none. *)
Lemma caches_other f order i j :
  bcache_ok f order -> (i < NBUF)%nat -> (j < NBUF)%nat -> j <> i -> b_dev (fs_buf f i) = 1 ->
  caches 1 (b_blockno (fs_buf f i)) (fs_buf f j) = false.
Proof.
  intros Hok Hi Hj Hne Hd. destruct (caches _ _ _) eqn:E; [|done]. apply caches_true in E as [E1 E2].
  destruct Hne. by apply (bc_uniq _ _ Hok).
Qed.

(** Where a block is cached after a buffer changes, and what it holds. *)
Lemma cached_is f order i b :
  bcache_ok f order -> (i < NBUF)%nat -> caches 1 b (fs_buf f i) = true -> cached f b = Some i.
Proof.
  intros Hok Hi Hb. destruct (cached f b) as [j|] eqn:E.
  - apply find_idx_Some in E as (Hj & Hc & _). apply caches_true in Hb as [H1 H2], Hc as [H3 H4].
    f_equal. apply (bc_uniq _ _ Hok); congruence.
  - apply (proj1 (find_idx_None _ _)) with (k := i) in E; [congruence|done].
Qed.

Lemma content_at f order i b :
  bcache_ok f order -> (i < NBUF)%nat -> caches 1 b (fs_buf f i) = true ->
  content f b = if valid (fs_buf f i) then b_data (fs_buf f i) else d_blocks (fs_disk f) b.
Proof. intros Hok Hi Hb. unfold content. by rewrite (cached_is f order i). Qed.

Lemma cached_upd f f' order i x b :
  bcache_ok f order -> bcache_ok f' order -> (i < NBUF)%nat -> buf_upd i x f f' ->
  cached f' b = if caches 1 b x then Some i else if caches 1 b (fs_buf f i) then None else cached f b.
Proof.
  intros Hok Hok' Hi [Ha Ho Hd _ _ _]. destruct (caches 1 b x) eqn:Ex.
  - apply (cached_is f' order); [done..|by rewrite Ha].
  - destruct (caches 1 b (fs_buf f i)) eqn:Ei.
    + apply find_idx_None. intros j Hj. destruct (decide (j = i)) as [->|Hji]; [by rewrite Ha|].
      rewrite Ho by done. apply caches_true in Ei as [E1 <-]. by apply (caches_other f order).
    + apply find_idx_ext. intros j Hj.
      destruct (decide (j = i)) as [->|Hji]; [by rewrite Ha, Ex, Ei|by rewrite Ho].
Qed.

(** [cached] never gives another buffer's index for the blocks of the others. *)
Lemma cached_other f f' order i x b j :
  bcache_ok f order -> buf_upd i x f f' -> (i < NBUF)%nat ->
  caches 1 b (fs_buf f i) = false -> cached f b = Some j -> fs_buf f' j = fs_buf f j.
Proof.
  intros Hok [_ Ho _ _ _ _] Hi Hb Hj. apply Ho. intros ->.
  apply find_idx_Some in Hj as (_ & E & _). simpl in E. congruence.
Qed.

Lemma content_upd f f' order i x b :
  bcache_ok f order -> bcache_ok f' order -> (i < NBUF)%nat -> buf_upd i x f f' ->
  content f' b =
    if caches 1 b x then (if valid x then b_data x else d_blocks (fs_disk f) b)
    else if caches 1 b (fs_buf f i) then d_blocks (fs_disk f) b else content f b.
Proof.
  intros Hok Hok' Hi Hu. unfold content at 1. rewrite (cached_upd f f' order i x) by done.
  rewrite (bu_disk _ _ _ _ Hu). destruct (caches 1 b x); [by rewrite (bu_at _ _ _ _ Hu)|].
  destruct (caches 1 b (fs_buf f i)) eqn:Ei; [done|]. unfold content. destruct (cached f b) as [j|] eqn:E; [|done].
  by rewrite (cached_other f f' order i x b j).
Qed.

(** The block has been changed and not yet written to the disk. *)
Definition dirty_block (f : fsst) (b : Z) : bool :=
  match cached f b with Some i => dirty (fs_buf f i) | None => false end.

Lemma dirty_block_upd f f' order i x b :
  bcache_ok f order -> bcache_ok f' order -> (i < NBUF)%nat -> buf_upd i x f f' ->
  dirty_block f' b =
    if caches 1 b x then dirty x else if caches 1 b (fs_buf f i) then false else dirty_block f b.
Proof.
  intros Hok Hok' Hi Hu. unfold dirty_block at 1. rewrite (cached_upd f f' order i x) by done.
  destruct (caches 1 b x); [by rewrite (bu_at _ _ _ _ Hu)|].
  destruct (caches 1 b (fs_buf f i)) eqn:Ei; [done|]. unfold dirty_block. destruct (cached f b) as [j|] eqn:E; [|done].
  by rewrite (cached_other f f' order i x b j).
Qed.

Lemma dirty_block_at f order i b :
  bcache_ok f order -> (i < NBUF)%nat -> caches 1 b (fs_buf f i) = true -> dirty_block f b = dirty (fs_buf f i).
Proof. intros Hok Hi Hb. unfold dirty_block. by rewrite (cached_is f order i). Qed.

Lemma free_bufs_upd f f' i x :
  (i < NBUF)%nat -> buf_upd i x f f' ->
  free_bufs f' = free_bufs f - (if recyclable (fs_buf f i) then 1 else 0) + (if recyclable x then 1 else 0).
Proof.
  intros Hi [Ha Ho _ _ _ _]. unfold free_bufs. rewrite (count_idx_change (fun j => recyclable (fs_buf f j)) _ _ i Hi).
  - by rewrite Ha.
  - intros k Hk. by rewrite Ho.
Qed.

Lemma free_bufs_pos f : 0 < free_bufs f -> exists i, (i < NBUF)%nat /\ recyclable (fs_buf f i) = true.
Proof.
  intros H. destruct (find_idx (fun i => recyclable (fs_buf f i)) NBUF) as [i|] eqn:E.
  - apply find_idx_Some in E as (Hi & Hr & _). by exists i.
  - unfold free_bufs in H. rewrite (proj2 (count_idx_zero _ _)) in H; [lia|].
    by apply find_idx_None.
Qed.

(** ** The loops of bget *)

Lemma wp_scan step P l s : forall fuel x,
  (length l < fuel)%nat -> bcache_head ∉ l ->
  (exists pv, seg (fun i => step (buf_at s i)) pv x l bcache_head) ->
  wp (scan step P fuel (step (buf_at s x))) s
    (fun r s' => s' = s /\ r = find (fun i => P (buf_at s i)) l).
Proof.
  induction l as [|z l IH]; intros [|fuel] x Hf Hh [pv Hs]; simpl in Hf; try lia; cbn [scan].
  - destruct Hs as [Hn _]. rewrite Hn, Nat.eqb_refl. by apply wp_ret.
  - destruct Hs as (Hn & _ & Hs). rewrite Hn. apply not_elem_of_cons in Hh as [Hz Hl].
    rewrite (proj2 (Nat.eqb_neq z bcache_head)) by done. wp1. simpl. destruct (P (buf_at s z)) eqn:E.
    + by apply wp_ret.
    + apply IH; [lia|done|by exists pv].
Qed.

Lemma order_length bs order : ring bs order -> length order = NBUF.
Proof. intros [Hp _]. by rewrite Hp, length_seq. Qed.

Lemma order_head bs order : ring bs order -> bcache_head ∉ order.
Proof. intros H. pose proof (order_nodup _ _ H) as Hn. by apply NoDup_cons in Hn as [? _]. Qed.

Lemma wp_scan_next P order s :
  ring (fs_buf (k_fs s)) order ->
  wp (scan b_next P (S NBUF) (b_next (buf_at s bcache_head))) s
    (fun r s' => s' = s /\ r = find (fun i => P (buf_at s i)) order).
Proof.
  intros Hr. apply wp_scan; [rewrite (order_length _ _ Hr); lia|by apply (order_head (fs_buf (k_fs s)))|].
  eexists. apply Hr.
Qed.

Lemma wp_scan_prev P order s :
  ring (fs_buf (k_fs s)) order ->
  wp (scan b_prev P (S NBUF) (b_prev (buf_at s bcache_head))) s
    (fun r s' => s' = s /\ r = find (fun i => P (buf_at s i)) (reverse order)).
Proof.
  intros Hr. apply wp_scan; [rewrite length_reverse, (order_length _ _ Hr); lia| |].
  - rewrite elem_of_reverse. by apply (order_head (fs_buf (k_fs s))).
  - eexists. apply seg_rev. apply Hr.
Qed.

(** ** iderw *)

(** [f'] is [f] with buffer [i] replaced by [x] and its data written to its block. *)
Record written (i : nat) (x : buf) (f f' : fsst) : Prop := mkWritten {
  wr_at : fs_buf f' i = x;
  wr_other : forall j, j <> i -> fs_buf f' j = fs_buf f j;
  wr_disk : fs_disk f' = disk_put (b_blockno x) (b_data x) (fs_disk f);
  wr_log : fs_log f' = fs_log f;
  wr_sb : fs_sb f' = fs_sb f;
  wr_inode : fs_inode f' = fs_inode f
}.

(** The buffer is locked by the process with this pid. *)
Definition locked_by (pid : Z) (x : buf) : Prop := b_lock x = mkSl true pid.

Section iderw.
Context (cur : nat) (i : nat) (s : kstate).
Context (Hc : on_cpu [] (Some cur) (k_core s)).

Let b := fs_buf (k_fs s) i.
Context (Hl : locked_by (p_pid (proc_at s cur)) b).

Lemma wp_holdingsleep_buf (Q : bool -> kstate -> Prop) :
  (forall c, on_cpu [] (Some cur) c -> Q true (set_core c s)) -> wp (holdingsleep (SlBuf i)) s Q.
Proof.
  intros HQ. eapply wp_holdingsleep; [exact Hc|by apply not_elem_of_nil|]. intros c H. specialize (HQ c H).
  simpl. change (buf_at s i) with b. rewrite Hl. simpl. by rewrite Z.eqb_refl.
Qed.

Context (Hdev : b_dev b = 1) (Hsz : b_blockno b < d_size (fs_disk (k_fs s))).

Lemma wp_iderw_read (Q : unit -> kstate -> Prop) :
  valid b = false -> dirty b = false ->
  (forall c f, on_cpu [] (Some cur) c ->
    buf_upd i (buf_flags (Z.lor (b_flags b) B_VALID) (buf_data (d_blocks (fs_disk (k_fs s)) (b_blockno b)) b)) (k_fs s) f ->
    Q tt (set_core c (set_fs f s))) ->
  wp (iderw i) s Q.
Proof.
  intros Hv Hd HQ. unfold iderw, upd_buf. wpb. apply wp_holdingsleep_buf. intros c H1. simpl negb. cbv iota.
  wp1. change (buf_at (set_core c s) i) with b. rewrite land_both, Hv, Hdev. simpl.
  wp1. rewrite (proj2 (Z.leb_gt _ _)) by done. rewrite land_dirty, Hd. simpl.
  wpb. wp1. apply wp_modify. apply wp_modify. refine (HQ c _ H1 _).
  split; try done; simpl; [|intros j Hj; by rewrite !fn_insert_ne by done].
  rewrite fn_insert_eq. unfold buf_at, set_buf. simpl. by rewrite fn_insert_eq.
Qed.

Lemma wp_iderw_write (Q : unit -> kstate -> Prop) :
  dirty b = true ->
  (forall c f, on_cpu [] (Some cur) c ->
    written i (buf_flags (Z.lor (Z.land (b_flags b) (Z.lnot B_DIRTY)) B_VALID) b) (k_fs s) f ->
    Q tt (set_core c (set_fs f s))) ->
  wp (iderw i) s Q.
Proof.
  intros Hd HQ. unfold iderw, upd_buf, disk_write. wpb. apply wp_holdingsleep_buf. intros c H1. simpl negb. cbv iota.
  wp1. change (buf_at (set_core c s) i) with b. rewrite land_both, Hd, andb_false_r, Hdev. simpl.
  wp1. rewrite (proj2 (Z.leb_gt _ _)) by done. rewrite land_dirty, Hd. simpl.
  wpb. wp1. apply wp_modify. apply wp_modify. refine (HQ c _ H1 _).
  split; try done; simpl; [|intros j Hj; by rewrite !fn_insert_ne by done].
  rewrite fn_insert_eq. unfold buf_at, set_buf. simpl. by rewrite fn_insert_eq.
Qed.
End iderw.

(** ** bread *)

(** What [bget] makes of the buffer it picks. *)
Definition got (pid b : Z) (x : buf) : buf :=
  if caches 1 b x then buf_lock (mkSl true pid) (buf_refcnt 1 x)
  else mkBuf 0 1 b (mkSl true pid) 1 (b_prev x) (b_next x) (b_data x).

(** Nobody uses the block, and it is cached or a buffer is free. *)
Record can_read (f : fsst) (b : Z) : Prop := mkCanRead {
  cr_range : b < d_size (fs_disk f);
  cr_idle : forall i, (i < NBUF)%nat -> caches 1 b (fs_buf f i) = true -> b_refcnt (fs_buf f i) = 0;
  cr_room : (exists i, (i < NBUF)%nat /\ caches 1 b (fs_buf f i) = true) \/ 0 < free_bufs f
}.

(** Buffer [i] of [f'] holds block [b] of [f], locked. *)
Record read_buf (pid b : Z) (order : list nat) (f f' : fsst) (i : nat) : Prop := mkReadBuf {
  rb_lt : (i < NBUF)%nat;
  rb_ok : bcache_ok f' order;
  rb_dev : b_dev (fs_buf f' i) = 1;
  rb_blockno : b_blockno (fs_buf f' i) = b;
  rb_valid : valid (fs_buf f' i) = true;
  rb_data : b_data (fs_buf f' i) = content f b;
  rb_lock : locked_by pid (fs_buf f' i);
  rb_refcnt : b_refcnt (fs_buf f' i) = 1;
  rb_idle : caches 1 b (fs_buf f i) = true \/ recyclable (fs_buf f i) = true;
  rb_upd : buf_upd i (fs_buf f' i) f f';
  rb_content : forall b', content f' b' = content f b';
  rb_dirty : forall b', dirty_block f' b' = dirty_block f b';
  rb_free : free_bufs f' = free_bufs f - (if dirty (fs_buf f' i) then 0 else 1)
}.

Section bread.
Context (cur : nat) (b : Z) (order : list nat) (s : kstate).
Context (Hc : on_cpu [] (Some cur) (k_core s)).
Context (Hok : bcache_ok (k_fs s) order) (Hcan : can_read (k_fs s) b).

Let pid := p_pid (proc_at s cur).

Lemma wp_bget (Q : nat -> kstate -> Prop) :
  (forall c f i, on_cpu [] (Some cur) c -> (i < NBUF)%nat ->
    buf_upd i (got pid b (fs_buf (k_fs s) i)) (k_fs s) f ->
    (caches 1 b (fs_buf (k_fs s) i) = false -> recyclable (fs_buf (k_fs s) i) = true /\
      forall j, (j < NBUF)%nat -> caches 1 b (fs_buf (k_fs s) j) = false) ->
    Q i (set_core c (set_fs f s))) ->
  wp (bget 1 b) s Q.
Proof.
  intros HQ. unfold bget. wpb. eapply wp_acquire; [exact Hc|by apply not_elem_of_nil|]. intros c1 H1.
  wp1. wpb. eapply wp_mono; [|apply (wp_scan_next _ order); apply Hok]. intros hit s1 [-> Hhit].
  change (buf_at (set_core c1 s)) with (fs_buf (k_fs s)) in Hhit. unfold upd_buf. destruct hit as [i|].
  - symmetry in Hhit. apply find_some in Hhit as [Hin Hb]. apply list_elem_of_In in Hin.
    apply (ring_elem _ _ i (bc_ring _ _ Hok)) in Hin. pose proof (cr_idle _ _ Hcan i Hin Hb) as H0.
    wp1. wpb. eapply wp_release; [exact H1|reflexivity|]. intros c2 H2.
    wpb. eapply wp_acquiresleep; [exact H2|by apply not_elem_of_nil| |].
    + simpl. unfold buf_at. simpl. rewrite fn_insert_eq. simpl. by apply (bo_idle _ _ (bc_bufs _ _ Hok i Hin)).
    + intros c3 H3. apply wp_ret.
      refine (HQ c3 _ i H3 Hin _ _); [|congruence].
      split; try done; simpl; [|intros j Hj; by rewrite !fn_insert_ne by done].
      rewrite fn_insert_eq. unfold buf_at, set_buf. simpl. rewrite fn_insert_eq. unfold got. rewrite Hb.
      by rewrite H0.
  - symmetry in Hhit. pose proof (find_none _ _ Hhit) as Hno.
    assert (Hnone : forall j, (j < NBUF)%nat -> caches 1 b (fs_buf (k_fs s) j) = false).
    { intros j Hj. apply Hno. apply list_elem_of_In. by apply (ring_elem _ _ j (bc_ring _ _ Hok)). }
    wpb. eapply wp_mono; [|apply (wp_scan_prev _ order); apply Hok]. intros old s1 [-> Hold].
    change (buf_at (set_core c1 s)) with (fs_buf (k_fs s)) in Hold. symmetry in Hold. destruct old as [i|].
    + apply find_some in Hold as [Hin Hr]. apply list_elem_of_In in Hin.
      rewrite elem_of_reverse in Hin. apply (ring_elem _ _ i (bc_ring _ _ Hok)) in Hin.
      wp1. wpb. eapply wp_release; [exact H1|reflexivity|]. intros c2 H2.
      wpb. eapply wp_acquiresleep; [exact H2|by apply not_elem_of_nil| |].
      * simpl. unfold buf_at. simpl. rewrite fn_insert_eq. simpl.
        apply (bo_idle _ _ (bc_bufs _ _ Hok i Hin)). by apply recyclable_true in Hr as [? _].
      * intros c3 H3. apply wp_ret. refine (HQ c3 _ i H3 Hin _ _); [|done].
        split; try done; simpl; [|intros j Hj; by rewrite !fn_insert_ne by done].
        rewrite fn_insert_eq. unfold buf_at, set_buf. simpl. rewrite fn_insert_eq. unfold got. by rewrite Hnone.
    + exfalso. destruct (cr_room _ _ Hcan) as [(i & Hi & Hb)|Hfree].
      * rewrite Hnone in Hb; done.
      * apply free_bufs_pos in Hfree as (i & Hi & Hr).
        apply (ring_elem _ _ i (bc_ring _ _ Hok)) in Hi. rewrite <- elem_of_reverse, list_elem_of_In in Hi.
        pose proof (find_none _ _ Hold i Hi). simpl in *. congruence.
Qed.

Lemma got_next pid0 x : b_next (got pid0 b x) = b_next x.
Proof. unfold got. by destruct (caches 1 b x). Qed.
Lemma got_prev pid0 x : b_prev (got pid0 b x) = b_prev x.
Proof. unfold got. by destruct (caches 1 b x). Qed.
Lemma got_lock pid0 x : locked_by pid0 (got pid0 b x).
Proof. unfold got. by destruct (caches 1 b x). Qed.
Lemma got_caches pid0 x : b_dev (got pid0 b x) = 1 /\ b_blockno (got pid0 b x) = b.
Proof. unfold got. destruct (caches 1 b x) eqn:E; [|done]. by apply caches_true in E. Qed.

(** The buffer [bread] returns: the one [bget] picked, read from the disk if it
    was not valid. *)
Record filled (x y : buf) : Prop := mkFilled {
  fi_dev : b_dev y = 1;
  fi_blockno : b_blockno y = b;
  fi_valid : valid y = true;
  fi_dirty : dirty y = caches 1 b x && dirty x;
  fi_lock : locked_by pid y;
  fi_refcnt : b_refcnt y = 1;
  fi_next : b_next y = b_next x;
  fi_prev : b_prev y = b_prev x;
  fi_data : b_data y = if caches 1 b x && valid x then b_data x else d_blocks (fs_disk (k_fs s)) b
}.

Lemma filled_buf_ok x y : filled x y -> (caches 1 b x = true -> dirty x = true -> valid x = true) ->
  buf_ok (d_blocks (fs_disk (k_fs s))) y.
Proof.
  intros [Hd Hb Hv Hdi Hl Hr _ _ _] Hdv. split; try done.
  - intros _ _ H. rewrite Hl in H. done.
  - rewrite Hr. done.
  - rewrite Hr. done.
Qed.

Lemma filled_read i y f :
  (i < NBUF)%nat -> buf_upd i y (k_fs s) f -> filled (fs_buf (k_fs s) i) y ->
  (caches 1 b (fs_buf (k_fs s) i) = false -> recyclable (fs_buf (k_fs s) i) = true /\
      forall j, (j < NBUF)%nat -> caches 1 b (fs_buf (k_fs s) j) = false) ->
  read_buf pid b order (k_fs s) f i.
Proof.
  intros Hi Hu Hf Hmiss. set (x := fs_buf (k_fs s) i) in *.
  assert (Hcy : forall b', caches 1 b' y = (b' =? b)).
  { intros b'. unfold caches. rewrite (fi_dev _ _ Hf), (fi_blockno _ _ Hf), Z.eqb_refl. apply Z.eqb_sym. }
  assert (Hok' : bcache_ok f order).
  { apply (bcache_ok_upd (k_fs s) f order i y); try done; try apply Hf.
    - apply (filled_buf_ok x); [done|]. intros _. apply (bc_bufs _ _ Hok i Hi).
    - intros _ j Hj Hji. rewrite (fi_blockno _ _ Hf). destruct (caches 1 b x) eqn:E.
      + apply caches_true in E as [E1 <-]. by apply (caches_other _ order).
      + by apply Hmiss. }
  assert (Hxb : forall b', b' <> b -> caches 1 b' x = true -> content (k_fs s) b' = d_blocks (fs_disk (k_fs s)) b' /\
    dirty_block (k_fs s) b' = false).
  { intros b' Hne Hb'. destruct (caches 1 b x) eqn:E.
    - apply caches_true in E as [_ E], Hb' as [_ E']. congruence.
    - destruct (Hmiss eq_refl) as [Hr _]. apply recyclable_true in Hr as [Hr0 Hr].
      rewrite (content_at _ order i), (dirty_block_at _ order i) by done. fold x. split; [|done].
      destruct (valid x) eqn:Ev; [|done]. apply caches_true in Hb' as [_ <-].
      apply (bc_bufs _ _ Hok i Hi); [done|done|]. by apply (bc_bufs _ _ Hok i Hi). }
  pose proof (bu_at _ _ _ _ Hu) as Hat. split; rewrite ?Hat; try apply Hf; try done.
  - rewrite (fi_data _ _ Hf). destruct (caches 1 b x) eqn:E; simpl; [by rewrite (content_at _ order i)|].
    rewrite content_none; [done|]. by apply Hmiss.
  - destruct (caches 1 b x) eqn:E; [by left|right; by apply Hmiss].
  - intros b'. rewrite (content_upd (k_fs s) f order i y) by done. rewrite Hcy. fold x.
    destruct (Z.eqb_spec b' b) as [->|Hne].
    + rewrite (fi_valid _ _ Hf), (fi_data _ _ Hf). destruct (caches 1 b x) eqn:E; simpl; [by rewrite (content_at _ order i)|].
      rewrite content_none; [done|]. by apply Hmiss.
    + destruct (caches 1 b' x) eqn:E; [|done]. symmetry. by apply Hxb.
  - intros b'. rewrite (dirty_block_upd (k_fs s) f order i y) by done. rewrite Hcy. fold x.
    destruct (Z.eqb_spec b' b) as [->|Hne].
    + rewrite (fi_dirty _ _ Hf). destruct (caches 1 b x) eqn:E; simpl; [by rewrite (dirty_block_at _ order i)|].
      unfold dirty_block. rewrite (proj2 (find_idx_None _ _) (proj2 (Hmiss eq_refl)) : cached _ b = None). done.
    + destruct (caches 1 b' x) eqn:E; [|done]. symmetry. by apply Hxb.
  - rewrite (free_bufs_upd (k_fs s) f i y) by done. fold x. unfold recyclable. rewrite !land_dirty, (fi_refcnt _ _ Hf), (fi_dirty _ _ Hf).
    destruct (caches 1 b x) eqn:E; simpl.
    + rewrite (cr_idle _ _ Hcan i Hi E : b_refcnt x = 0). destruct (dirty x); simpl; lia.
    + destruct (Hmiss eq_refl) as [Hr _]. apply recyclable_true in Hr as [-> ->]. simpl. lia.
Qed.

Lemma wp_bread (Q : nat -> kstate -> Prop) :
  (forall c f i, on_cpu [] (Some cur) c -> read_buf pid b order (k_fs s) f i -> Q i (set_core c (set_fs f s))) ->
  wp (bread 1 b) s Q.
Proof.
  intros HQ. unfold bread. wpb. apply wp_bget. intros c f i H1 Hi Hu Hmiss. wp1.
  unfold buf_at. simpl. rewrite (bu_at _ _ _ _ Hu). rewrite land_valid. set (x := fs_buf (k_fs s) i) in *.
  destruct (valid (got pid b x)) eqn:Ev; simpl.
  - wp1. apply wp_ret, HQ; [done|]. eapply filled_read; [done|exact Hu| |done]. split; try apply got_caches; try done.
    + unfold got, dirty. fold x. by destruct (caches 1 b x).
    + apply got_lock.
    + unfold got. by destruct (caches 1 b x).
    + apply got_next.
    + apply got_prev.
    + unfold got in *. fold x. destruct (caches 1 b x); simpl; [|done]. unfold valid in *. simpl in Ev. by rewrite Ev.
  - wpb. eapply (wp_iderw_read cur i); simpl; rewrite ?(bu_at _ _ _ _ Hu); try done.
    + apply got_lock.
    + apply got_caches.
    + rewrite (bu_disk _ _ _ _ Hu). destruct (got_caches pid x) as [_ ->]. apply Hcan.
    + destruct (dirty (got pid b x)) eqn:Ed; [|done]. unfold got, dirty, valid in *.
      destruct (caches 1 b x); [|done]. simpl in *. apply (bc_bufs _ _ Hok i Hi) in Ed. unfold valid in Ed. fold x in Ed. congruence.
    + intros c2 f2 H2 Hu2. apply wp_ret. apply (HQ c2 f2 i H2).
      eapply filled_read; [done|eapply buf_upd_trans; [exact Hu|exact Hu2]| |done].
      destruct (got_caches pid x) as [G1 G2]. rewrite (bu_disk _ _ _ _ Hu).
      split; simpl; try done.
      * unfold valid. simpl. apply flags_or_valid.
      * unfold dirty at 1. simpl. rewrite (proj2 (flags_or_valid _)). unfold got, dirty. fold x. by destruct (caches 1 b x).
      * apply got_lock.
      * unfold got. by destruct (caches 1 b x).
      * apply got_next.
      * apply got_prev.
      * rewrite G2. fold x. unfold got, valid in Ev. destruct (caches 1 b x); simpl in *; [|done]. unfold valid. by rewrite Ev.
Qed.
End bread.

(** ** bwrite *)

(** A buffer the process holds: locked by it, and holding a block of the disk. *)
Record held (pid : Z) (f : fsst) (i : nat) : Prop := mkHeld {
  he_lt : (i < NBUF)%nat;
  he_lock : locked_by pid (fs_buf f i);
  he_refcnt : b_refcnt (fs_buf f i) = 1;
  he_dev : b_dev (fs_buf f i) = 1;
  he_valid : valid (fs_buf f i) = true
}.

Lemma read_buf_held pid b order f f' i : read_buf pid b order f f' i -> held pid f' i.
Proof. intros []. by split. Qed.

Lemma held_not_free pid f i : held pid f i -> recyclable (fs_buf f i) = false.
Proof. intros H. unfold recyclable. by rewrite (he_refcnt _ _ _ H). Qed.

Lemma held_caches pid f i b : held pid f i -> caches 1 b (fs_buf f i) = (b =? b_blockno (fs_buf f i)).
Proof. intros H. unfold caches. rewrite (he_dev _ _ _ H), Z.eqb_refl. apply Z.eqb_sym. Qed.

Lemma held_content pid f order i :
  bcache_ok f order -> held pid f i -> content f (b_blockno (fs_buf f i)) = b_data (fs_buf f i).
Proof.
  intros Hok Hh. rewrite (content_at f order i); [by rewrite (he_valid _ _ _ Hh)|done|apply Hh|].
  by rewrite (held_caches pid), Z.eqb_refl.
Qed.

(** Assigning to the data of a held buffer changes the content of its block. *)
Lemma held_data pid f order i d f' :
  bcache_ok f order -> held pid f i -> buf_upd i (buf_data d (fs_buf f i)) f f' ->
  bcache_ok f' order /\ held pid f' i /\
  (forall b, content f' b = if b =? b_blockno (fs_buf f i) then d else content f b) /\
  (forall b, dirty_block f' b = dirty_block f b) /\ free_bufs f' = free_bufs f.
Proof.
  intros Hok Hh Hu. pose proof (bu_at _ _ _ _ Hu) as Hat. pose proof (bc_bufs _ _ Hok i (he_lt _ _ _ Hh)) as Hx.
  assert (Hok' : bcache_ok f' order).
  { apply (bcache_ok_upd f f' order i _ Hok (he_lt _ _ _ Hh) Hu); try done.
    - destruct Hx. split; try done. simpl. intros _ _ H. rewrite (he_lock _ _ _ Hh) in H. done.
    - intros _ j Hj Hji. apply (caches_other f order); try done; apply Hh. }
  split_and!; [done|destruct Hh; by split; rewrite ?Hat| | |].
  - intros b. rewrite (content_upd f f' order i _ b Hok Hok' (he_lt _ _ _ Hh) Hu).
    change (caches 1 b (buf_data d (fs_buf f i))) with (caches 1 b (fs_buf f i)). rewrite (held_caches pid) by done.
    change (valid (buf_data d (fs_buf f i))) with (valid (fs_buf f i)). rewrite (he_valid _ _ _ Hh).
    by destruct (b =? _).
  - intros b. rewrite (dirty_block_upd f f' order i _ b Hok Hok' (he_lt _ _ _ Hh) Hu).
    change (caches 1 b (buf_data d (fs_buf f i))) with (caches 1 b (fs_buf f i)).
    destruct (caches 1 b (fs_buf f i)) eqn:E; [|done]. by rewrite (dirty_block_at f order i b Hok (he_lt _ _ _ Hh) E).
  - rewrite (free_bufs_upd f f' i _ (he_lt _ _ _ Hh) Hu).
    change (recyclable (buf_data d (fs_buf f i))) with (recyclable (fs_buf f i)). lia.
Qed.

(** What [bwrite] does: the data of the buffer are on the disk. *)
Record wrote_buf (pid : Z) (order : list nat) (f f' : fsst) (i : nat) : Prop := mkWroteBuf {
  wb_ok : bcache_ok f' order;
  wb_held : held pid f' i;
  wb_clean : dirty (fs_buf f' i) = false;
  wb_blockno : b_blockno (fs_buf f' i) = b_blockno (fs_buf f i);
  wb_data : b_data (fs_buf f' i) = b_data (fs_buf f i);
  wb_other : forall j, j <> i -> fs_buf f' j = fs_buf f j;
  wb_disk : fs_disk f' = disk_put (b_blockno (fs_buf f i)) (b_data (fs_buf f i)) (fs_disk f);
  wb_log : fs_log f' = fs_log f;
  wb_sb : fs_sb f' = fs_sb f;
  wb_inode : fs_inode f' = fs_inode f;
  wb_content : forall b, content f' b = content f b;
  wb_dirty : forall b, dirty_block f' b = if b =? b_blockno (fs_buf f i) then false else dirty_block f b;
  wb_free : free_bufs f' = free_bufs f
}.

(** The effect of a write on the cache: the buffer is clean, and no other buffer
    holds its block. *)
Lemma written_ok pid f f' order i x :
  bcache_ok f order -> held pid f i -> but_links (buf_flags (b_flags x) (fs_buf f i)) x ->
  b_next x = b_next (fs_buf f i) -> b_prev x = b_prev (fs_buf f i) ->
  valid x = true -> dirty x = false -> written i x f f' -> bcache_ok f' order.
Proof.
  intros Hok Hh [_ Xd Xb Xl Xr Xdata] Hn Hp Hv Hdi [Ha Ho Hd _ _ _]. simpl in *. destruct Hok as [Hr Hu Hb]. split.
  - eapply ring_ext; [exact Hr|]. intros j. destruct (decide (j = i)) as [->|]; [by rewrite Ha|by rewrite Ho].
  - intros j k Hj Hk. assert (E : forall m, b_dev (fs_buf f' m) = b_dev (fs_buf f m) /\ b_blockno (fs_buf f' m) = b_blockno (fs_buf f m)).
    { intros m. destruct (decide (m = i)) as [->|]; [by rewrite Ha|by rewrite Ho]. }
    destruct (E j) as [-> ->], (E k) as [-> ->]. by apply Hu.
  - intros j Hj. rewrite Hd. simpl. destruct (decide (j = i)) as [->|Hji].
    + rewrite Ha. split; try done.
      * intros _. rewrite Xd. apply Hh.
      * intros _ _ _. by rewrite fn_insert_eq.
      * rewrite Xr, (he_refcnt _ _ _ Hh). done.
      * rewrite Xr, (he_refcnt _ _ _ Hh). done.
    + rewrite Ho by done. destruct (Hb j Hj) as [A B C D E]. split; try done. intros V1 V2 V3.
      rewrite fn_insert_ne; [by apply C|]. rewrite Xb. intros Eb. apply Hji.
      apply Hu; [done|apply Hh|by apply B|apply Hh|done].
Qed.

Lemma written_contents pid f f' order i x :
  bcache_ok f order -> bcache_ok f' order -> held pid f i -> held pid f' i -> written i x f f' ->
  but_links (buf_flags (b_flags x) (fs_buf f i)) x ->
  (forall b, content f' b = content f b) /\
  (forall b, dirty_block f' b = if b =? b_blockno (fs_buf f i) then dirty x else dirty_block f b).
Proof.
  intros Hok Hok' Hh Hh' [Ha Ho Hd _ _ _] [_ Xd Xb _ _ Xdata]. simpl in *.
  assert (Hcx : forall j b, caches 1 b (fs_buf f' j) = caches 1 b (fs_buf f j)).
  { intros j b. destruct (decide (j = i)) as [->|]; [|by rewrite Ho]. unfold caches. by rewrite Ha, Xd, Xb. }
  assert (Hcached : forall b, cached f' b = cached f b) by (intros b; by apply find_idx_ext).
  assert (Hne : forall b j, cached f b = Some j -> b <> b_blockno (fs_buf f i) -> j <> i).
  { intros b j E Hb ->. apply find_idx_Some in E as (_ & E & _). rewrite (held_caches _ _ _ _ Hh) in E. lia. }
  split; intros b; destruct (Z.eqb_spec b (b_blockno (fs_buf f i))) as [->|Hb].
  - rewrite (held_content _ _ _ _ Hok Hh), <- Xb, <- Ha, (held_content _ _ _ _ Hok' Hh'). by rewrite Ha.
  - unfold content. rewrite Hcached, Hd. simpl. rewrite fn_insert_ne by congruence.
    destruct (cached f b) as [j|] eqn:E; [|done]. by rewrite Ho by (by apply (Hne b)).
  - rewrite (dirty_block_at f' order i); [by rewrite Ha|done|apply Hh|].
    by rewrite Hcx, (held_caches _ _ _ _ Hh), Z.eqb_refl.
  - unfold dirty_block. rewrite Hcached. destruct (cached f b) as [j|] eqn:E; [|done]. by rewrite Ho by (by apply (Hne b)).
Qed.

Lemma wp_bwrite cur i order s (Q : unit -> kstate -> Prop) :
  on_cpu [] (Some cur) (k_core s) -> bcache_ok (k_fs s) order ->
  held (p_pid (proc_at s cur)) (k_fs s) i -> b_blockno (fs_buf (k_fs s) i) < d_size (fs_disk (k_fs s)) ->
  (forall c f, on_cpu [] (Some cur) c -> wrote_buf (p_pid (proc_at s cur)) order (k_fs s) f i ->
    Q tt (set_core c (set_fs f s))) ->
  wp (bwrite i) s Q.
Proof.
  intros Hc Hok Hh Hsz HQ. unfold bwrite, upd_buf. wpb. apply (wp_holdingsleep_buf cur); [done|apply Hh|].
  intros c1 H1. simpl negb. cbv iota. wp1. set (x := fs_buf (k_fs s) i) in *. set (x1 := buf_flags _ _).
  change (buf_at (set_core c1 s) i) with x in x1.
  assert (Hat : fs_buf (k_fs (set_buf i x1 (set_core c1 s))) i = x1) by apply fn_insert_eq.
  apply (wp_iderw_write cur i); rewrite ?Hat; try done; try apply Hh.
  { unfold dirty. apply flags_or_dirty. }
  intros c2 f H2 [Wa Wo Wd Wl Ws Wi]. refine (HQ c2 f H2 _). simpl in Wo, Wd, Wl, Ws, Wi.
  set (y := buf_flags _ x1) in *. assert (Hw : written i y (k_fs s) f).
  { split; try done. intros j Hj. rewrite Wo by done. by apply fn_insert_ne. }
  assert (Hv : valid y = true) by apply flags_or_valid.
  assert (Hd : dirty y = false).
  { unfold dirty, y. simpl. rewrite (proj2 (flags_or_valid _)). apply flags_not_dirty. }
  assert (Hok' : bcache_ok f order) by (apply (written_ok (p_pid (proc_at s cur)) (k_fs s) f order i y); done).
  assert (Hh' : held (p_pid (proc_at s cur)) f i) by (destruct Hh; by split; rewrite ?Wa).
  destruct (written_contents _ _ _ order i y Hok Hok' Hh Hh' Hw) as [C1 C2]; [by split|].
  split; rewrite ?Wa; try done; [exact (wr_other _ _ _ _ Hw)| |].
  - intros b. rewrite C2. fold x. by rewrite Hd.
  - unfold free_bufs. apply count_idx_ext. intros k _. destruct (decide (k = i)) as [->|].
    + by rewrite (held_not_free _ _ _ Hh), (held_not_free _ _ _ Hh').
    + by rewrite (wr_other _ _ _ _ Hw).
Qed.

(** ** brelse *)

(** The buffers of [f'] are those of [f] up to their links. *)
Definition same_bufs (f f' : fsst) : Prop :=
  (forall j, but_links (fs_buf f j) (fs_buf f' j)) /\ fs_disk f' = fs_disk f.

Lemma same_bufs_valid f f' j : same_bufs f f' -> valid (fs_buf f' j) = valid (fs_buf f j).
Proof. intros [H _]. unfold valid. by rewrite (bl_flags _ _ (H j)). Qed.
Lemma same_bufs_dirty f f' j : same_bufs f f' -> dirty (fs_buf f' j) = dirty (fs_buf f j).
Proof. intros [H _]. unfold dirty. by rewrite (bl_flags _ _ (H j)). Qed.
Lemma same_bufs_caches f f' j b : same_bufs f f' -> caches 1 b (fs_buf f' j) = caches 1 b (fs_buf f j).
Proof. intros [H _]. unfold caches. by rewrite (bl_dev _ _ (H j)), (bl_blockno _ _ (H j)). Qed.

Lemma same_bufs_cached f f' b : same_bufs f f' -> cached f' b = cached f b.
Proof. intros H. apply find_idx_ext. intros k _. by apply same_bufs_caches. Qed.

Lemma same_bufs_content f f' b : same_bufs f f' -> content f' b = content f b.
Proof.
  intros H. unfold content. rewrite (same_bufs_cached f f' b H), (proj2 H). destruct (cached f b) as [j|]; [|done].
  by rewrite (same_bufs_valid f f' j H), (bl_data _ _ (proj1 H j)).
Qed.

Lemma same_bufs_dirty_block f f' b : same_bufs f f' -> dirty_block f' b = dirty_block f b.
Proof.
  intros H. unfold dirty_block. rewrite (same_bufs_cached f f' b H). destruct (cached f b) as [j|]; [|done].
  by apply same_bufs_dirty.
Qed.

Lemma same_bufs_free f f' : same_bufs f f' -> free_bufs f' = free_bufs f.
Proof.
  intros H. apply count_idx_ext. intros k _. unfold recyclable.
  by rewrite (bl_flags _ _ (proj1 H k)), (bl_refcnt _ _ (proj1 H k)).
Qed.

Lemma same_bufs_ok f f' order order' :
  same_bufs f f' -> bcache_ok f order -> ring (fs_buf f') order' -> bcache_ok f' order'.
Proof.
  intros [H Hd] [_ Hu Hb] Hr. split; [done| |].
  - intros i j Hi Hj. rewrite (bl_dev _ _ (H i)), (bl_dev _ _ (H j)), (bl_blockno _ _ (H i)), (bl_blockno _ _ (H j)).
    by apply Hu.
  - intros i Hi. rewrite Hd. destruct (Hb i Hi), (H i) as [E1 E2 E3 E4 E5 E6].
    split; unfold dirty, valid in *; rewrite ?E1, ?E2, ?E3, ?E4, ?E5, ?E6; done.
Qed.

(** What [brelse] does: the buffer is nobody's, and is the first of the ring. *)
Record released (i : nat) (order : list nat) (f f' : fsst) : Prop := mkReleased {
  re_ok : exists o1 o2, order = o1 ++ i :: o2 /\ bcache_ok f' (i :: o1 ++ o2);
  re_at : but_links (buf_refcnt 0 (buf_lock (mkSl false 0) (fs_buf f i))) (fs_buf f' i);
  re_other : forall j, j <> i -> but_links (fs_buf f j) (fs_buf f' j);
  re_disk : fs_disk f' = fs_disk f;
  re_log : fs_log f' = fs_log f;
  re_sb : fs_sb f' = fs_sb f;
  re_inode : fs_inode f' = fs_inode f;
  re_content : forall b, content f' b = content f b;
  re_dirty : forall b, dirty_block f' b = dirty_block f b;
  re_free : free_bufs f' = free_bufs f + (if dirty (fs_buf f i) then 0 else 1)
}.

(** The data of the buffer are on the disk, or the log will write them. *)
Definition coherent (f : fsst) (i : nat) : Prop :=
  dirty (fs_buf f i) = true \/ b_data (fs_buf f i) = d_blocks (fs_disk f) (b_blockno (fs_buf f i)).

Lemma released_upd pid f f1 order i :
  bcache_ok f order -> held pid f i -> coherent f i ->
  buf_upd i (buf_refcnt 0 (buf_lock (mkSl false 0) (fs_buf f i))) f f1 ->
  bcache_ok f1 order /\ (forall b, content f1 b = content f b) /\ (forall b, dirty_block f1 b = dirty_block f b) /\
  free_bufs f1 = free_bufs f + (if dirty (fs_buf f i) then 0 else 1).
Proof.
  intros Hok Hh Hco Hu. set (x := fs_buf f i) in *. set (y := buf_refcnt 0 _) in *.
  assert (Hi : (i < NBUF)%nat) by apply Hh. destruct (bc_bufs _ _ Hok i Hi) as [B1 B2 B3 B4 B5]. fold x in B1, B2, B3.
  assert (Hok' : bcache_ok f1 order).
  { apply (bcache_ok_upd f f1 order i y Hok Hi Hu); try done.
    - split; try done. intros _ Hd _. destruct Hco as [Hco|Hco]; [|done]. change (dirty x = false) in Hd. change (dirty x = true) in Hco. congruence.
    - intros _ j Hj Hji. apply (caches_other f order); try done. apply Hh. }
  split_and!; [done| | |].
  - intros b. rewrite (content_upd f f1 order i y b Hok Hok' Hi Hu). change (caches 1 b y) with (caches 1 b x).
    change (valid y) with (valid x). change (b_data y) with (b_data x). fold x.
    destruct (caches 1 b x) eqn:E; [|done]. by rewrite (content_at f order i b Hok Hi E).
  - intros b. rewrite (dirty_block_upd f f1 order i y b Hok Hok' Hi Hu). change (caches 1 b y) with (caches 1 b x).
    change (dirty y) with (dirty x). fold x.
    destruct (caches 1 b x) eqn:E; [|done]. by rewrite (dirty_block_at f order i b Hok Hi E).
  - rewrite (free_bufs_upd f f1 i y Hi Hu), (held_not_free _ _ _ Hh). unfold recyclable. rewrite land_dirty.
    change (dirty y) with (dirty x). simpl. destruct (dirty x); simpl; lia.
Qed.

Lemma wp_brelse cur i order s (Q : unit -> kstate -> Prop) :
  on_cpu [] (Some cur) (k_core s) -> bcache_ok (k_fs s) order ->
  held (p_pid (proc_at s cur)) (k_fs s) i -> coherent (k_fs s) i ->
  (forall c t f, on_cpu [] (Some cur) c -> only_woken (k_ptab s) t -> released i order (k_fs s) f ->
    Q tt (set_core c (set_ptab t (set_fs f s)))) ->
  wp (brelse i) s Q.
Proof.
  intros Hc Hok Hh Hco HQ. unfold brelse, upd_buf. wpb. apply (wp_holdingsleep_buf cur); [done|apply Hh|].
  intros c1 H1. simpl negb. cbv iota. wpb. eapply wp_releasesleep; [exact H1|by apply not_elem_of_nil..|].
  intros c2 H2. wpb. eapply wp_acquire; [exact H2|by apply not_elem_of_nil|]. intros c3 H3.
  wp1. wp1. set (x := fs_buf (k_fs s) i) in *. set (t := wake_tab _ _). set (s1 := set_buf i _ _).
  set (y := buf_refcnt 0 (buf_lock (mkSl false 0) x)).
  assert (Hu : buf_upd i y (k_fs s) (k_fs s1)).
  { split; try done; simpl; [|intros j Hj; by rewrite !fn_insert_ne by done]. rewrite fn_insert_eq.
    unfold buf_at. simpl. rewrite fn_insert_eq. unfold buf_at. simpl. fold x.
    rewrite (he_refcnt _ _ _ Hh : b_refcnt x = 1). reflexivity. }
  destruct (released_upd _ _ _ order i Hok Hh Hco Hu) as (Hok1 & C1 & D1 & F1).
  unfold buf_at. rewrite (bu_at _ _ _ _ Hu). simpl when. unfold upd_bufs. wpb. wp1. apply wp_modify.
  eapply wp_release; [exact H3|reflexivity|]. intros c4 H4.
  set (f := with_buf (link_front i (unlink i (fs_buf (k_fs s1)))) (k_fs s1)).
  assert (Hs : same_bufs (k_fs s1) f).
  { split; [|done]. intros j. simpl. etransitivity; [apply unlink_links|apply link_front_links]. }
  refine (HQ c4 t f H4 _ _); [apply only_woken_wake|].
  assert (Hin : i ∈ order) by (apply (ring_elem (fs_buf (k_fs s))); [apply Hok|apply Hh]).
  apply list_elem_of_split in Hin as (o1 & o2 & ->). split; try done.
  - exists o1, o2. split; [done|]. eapply same_bufs_ok; [exact Hs|exact Hok1|]. apply move_front_ring, Hok1.
  - change (but_links y (fs_buf f i)). rewrite <- (bu_at _ _ _ _ Hu). apply Hs.
  - intros j Hj. rewrite <- (bu_other _ _ _ _ Hu j Hj). apply Hs.
  - intros b. by rewrite (same_bufs_content _ _ b Hs).
  - intros b. by rewrite (same_bufs_dirty_block _ _ b Hs).
  - by rewrite (same_bufs_free _ _ Hs).
Qed.

(** ** binit *)

Lemma wp_initsleeplock_buf L p i s (Q : unit -> kstate -> Prop) :
  on_cpu L p (k_core s) -> LkSleep (SlBuf i) ∉ L ->
  (forall c, on_cpu L p c -> Q tt (set_core c (set_buf i (buf_lock (mkSl false 0) (buf_at s i)) s))) ->
  wp (initsleeplock (SlBuf i)) s Q.
Proof.
  intros Hc Hni HQ. unfold initsleeplock. wpb. eapply wp_initlock; [exact Hc|done|]. intros c H.
  unfold upd_sl. apply wp_modify. by apply HQ.
Qed.

(** The buffers after [k] rounds of the loop. *)
Record binit_inv (k : nat) (bs : nat -> buf) : Prop := mkBinitInv {
  bi_seg : seg (fun i => b_next (bs i)) (fun i => b_prev (bs i)) bcache_head (reverse (seq 0 k)) bcache_head;
  bi_zero : forall i, b_flags (bs i) = 0 /\ b_dev (bs i) = 0 /\ b_refcnt (bs i) = 0;
  bi_lock : forall i, (i < k)%nat -> sl_locked (b_lock (bs i)) = false
}.

(** One round, the initialisation of the lock in the middle of [link_front]. *)
Definition binit_round (b : nat) (bs : nat -> buf) : nat -> buf :=
  let bs := set_prev b bcache_head (set_next b (b_next (bs bcache_head)) bs) in
  let bs := <[b := buf_lock (mkSl false 0) (bs b)]> bs in
  set_next bcache_head b (set_prev (b_next (bs bcache_head)) b bs).

Lemma binit_round_link b bs j :
  b <> bcache_head ->
  b_next (binit_round b bs j) = b_next (link_front b bs j) /\ b_prev (binit_round b bs j) = b_prev (link_front b bs j).
Proof.
  intros Hb. unfold binit_round, link_front. cbv zeta. set (bs1 := set_prev b bcache_head _).
  set (bs2 := <[b := buf_lock _ _]> bs1).
  assert (E : forall k, b_next (bs2 k) = b_next (bs1 k) /\ b_prev (bs2 k) = b_prev (bs1 k)).
  { intros k. unfold bs2. rewrite fn_insert_case. case_decide; by subst. }
  rewrite !set_next_next, !set_next_prev, !set_prev_prev, !fn_insert_case, !set_prev_next.
  destruct (E bcache_head) as [-> _], (E j) as [-> ->]. split; [done|]. by repeat case_decide.
Qed.

Lemma binit_round_inv k bs :
  (k < NBUF)%nat -> binit_inv k bs -> binit_inv (S k) (binit_round k bs).
Proof.
  intros Hk [Hs Hz Hl]. assert (Hb : k <> bcache_head) by (unfold bcache_head; lia).
  assert (Hlinks : forall j, (j <> k /\ but_links (bs j) (binit_round k bs j)) \/
    (j = k /\ but_links (buf_lock (mkSl false 0) (bs j)) (binit_round k bs j))).
  { intros j. unfold binit_round. cbv zeta. set (bs1 := set_prev k bcache_head _).
    assert (H1 : but_links (bs j) (bs1 j)) by (unfold bs1; etransitivity; [apply set_next_links|apply set_prev_links]).
    destruct (decide (j = k)) as [->|Hj]; [right|left].
    - split; [done|]. etransitivity; [|etransitivity; [apply set_prev_links|apply set_next_links]].
      rewrite fn_insert_eq. destruct H1. by split.
    - split; [done|]. etransitivity; [|etransitivity; [apply set_prev_links|apply set_next_links]]. by rewrite fn_insert_ne. }
  assert (Hin : forall u, u ∈ reverse (seq 0 k) -> (u < k)%nat) by (intros u; rewrite elem_of_reverse, elem_of_seq; lia).
  split.
  - rewrite seq_S, reverse_snoc. rewrite Nat.add_0_l. eapply seg_ext;
      [| |apply (seg_link (fun i => b_next (bs i)) (fun i => b_prev (bs i)))].
    + intros u _. destruct (binit_round_link k bs u Hb) as [-> _]. by apply link_front_next.
    + intros u _. destruct (binit_round_link k bs u Hb) as [_ ->]. by apply link_front_prev.
    + exact Hs.
    + intros H. apply elem_of_cons in H as [H|H]; [done|]. apply Hin in H. lia.
    + constructor; [intros H; apply Hin in H; unfold bcache_head in H; lia|]. rewrite reverse_Permutation; apply NoDup_ListNoDup, seq_NoDup.
  - intros i. destruct (Hz i) as (Z1 & Z2 & Z3). destruct (Hlinks i) as [[_ [-> -> _ _ -> _]]|[-> [-> -> _ _ -> _]]]; done.
  - intros i Hi. destruct (Hlinks i) as [[Hne [_ _ _ E _ _]]|[-> [_ _ _ E _ _]]]; rewrite E; [|done].
    apply Hl. lia.
Qed.

Lemma binit_inv_0 bs :
  (forall i, b_flags (bs i) = 0 /\ b_dev (bs i) = 0 /\ b_refcnt (bs i) = 0) ->
  binit_inv 0 (set_next bcache_head bcache_head (set_prev bcache_head bcache_head bs)).
Proof.
  intros Hz. split; [split| |lia].
  - rewrite set_next_next. apply fn_insert_eq.
  - rewrite set_next_prev, set_prev_prev. apply fn_insert_eq.
  - intros i. destruct (Hz i) as (Z1 & Z2 & Z3).
    destruct (set_prev_links bcache_head bcache_head bs i) as [P1 P2 _ _ P5 _].
    destruct (set_next_links bcache_head bcache_head (set_prev bcache_head bcache_head bs) i) as [-> -> _ _ -> _].
    by rewrite P1, P2, P5.
Qed.

Lemma wp_binit_loop n : forall k s (Q : unit -> kstate -> Prop),
  on_cpu [] None (k_core s) -> binit_inv k (fs_buf (k_fs s)) -> (k + n = NBUF)%nat ->
  (forall c f, on_cpu [] None c -> binit_inv NBUF (fs_buf f) -> fs_disk f = fs_disk (k_fs s) ->
    Q tt (set_core c (set_fs f s))) ->
  wp (binit_loop n k) s Q.
Proof.
  induction n as [|n IH]; intros k s Q Hc Hi Hk HQ; cbn [binit_loop].
  - apply wp_ret. rewrite Nat.add_0_r in Hk. subst k.
    specialize (HQ (k_core s) (k_fs s) Hc Hi eq_refl). by destruct s.
  - unfold upd_bufs. wp1. wpb. eapply wp_initsleeplock_buf; [exact Hc|by apply not_elem_of_nil|]. intros c H1.
    wp1. apply (IH (S k)); [exact H1| |lia|].
    + exact (binit_round_inv k (fs_buf (k_fs s)) ltac:(lia) Hi).
    + intros c2 f H2 Hi2 Hd. by apply (HQ c2 f).
Qed.

(** [binit], run at boot on a zeroed cache, links all the buffers into the ring,
    every one unused and unlocked, and establishes the invariant of the cache: no
    block is cached, and the content is what is on the disk. *)
Theorem binit_establishes (s : kstate) :
  on_cpu [] None (k_core s) ->
  (forall i, b_flags (buf_at s i) = 0 /\ b_dev (buf_at s i) = 0 /\ b_refcnt (buf_at s i) = 0) ->
  wp binit s (fun _ s' => on_cpu [] None (k_core s') /\ fs_disk (k_fs s') = fs_disk (k_fs s) /\
    bcache_ok (k_fs s') (reverse (seq 0 NBUF)) /\ free_bufs (k_fs s') = Z.of_nat NBUF /\
    forall b, content (k_fs s') b = d_blocks (fs_disk (k_fs s)) b).
Proof.
  intros Hc Hz. unfold binit, upd_bufs. wpb. eapply wp_initlock; [exact Hc|by apply not_elem_of_nil|]. intros c1 H1.
  do 2 apply wp_modify_bind. eapply (wp_binit_loop NBUF 0); [exact H1| |done|].
  { apply binit_inv_0, Hz. }
  intros c f H2 [Hs Hz2 Hl] Hd. simpl in Hd. split_and!; try done.
  - split.
    + split; [apply reverse_Permutation|exact Hs].
    + intros i j _ _ E. destruct (Hz2 i) as (_ & E2 & _). simpl in E. lia.
    + intros i Hi. simpl. destruct (Hz2 i) as (E1 & E2 & E3).
      split; unfold dirty, valid; rewrite ?E1, ?E3; try done. intros _. by apply Hl.
  - apply count_idx_full. intros i _. simpl. destruct (Hz2 i) as (E1 & _ & E3). unfold recyclable. by rewrite E1, E3.
  - intros b. simpl. rewrite content_none, Hd; [done|]. intros i _. destruct (Hz2 i) as (_ & E2 & _). unfold caches. by rewrite E2.
Qed.

Lemma binit_establishes_witness :
  wp binit (start None (fun _ => zero_proc) empty_stab) (fun _ s' => free_bufs (k_fs s') = 30).
Proof.
  eapply wp_mono; [|apply (binit_establishes (start None (fun _ => zero_proc) empty_stab) (one_cpu_on _));
    intros i; done]. intros u s' (_ & _ & _ & H & _). exact H.
Defined.

(** ** Runs of the file system

    [fwp m s Q]: run by process [cur], which holds no spinlock, [m] returns
    without sleeping, changes nothing outside [k_fs] but that processes are woken
    up, and [Q] holds of its result and of the file system it leaves. *)

(** Blocks nobody uses and nobody changed are what the disk has. *)
Lemma clean_content f order b :
  bcache_ok f order -> (forall i, (i < NBUF)%nat -> caches 1 b (fs_buf f i) = true -> b_refcnt (fs_buf f i) = 0) ->
  dirty_block f b = false -> content f b = d_blocks (fs_disk f) b.
Proof.
  intros Hok Hidle Hd. unfold content, dirty_block in *. destruct (cached f b) as [i|] eqn:E; [|done].
  apply find_idx_Some in E as (Hi & E & _). destruct (valid (fs_buf f i)) eqn:Ev; [|done].
  pose proof (bc_bufs _ _ Hok i Hi) as Hb. pose proof (Hidle i Hi E) as H0. apply caches_true in E as [_ <-].
  by apply Hb; [| |apply Hb].
Qed.

Lemma read_buf_coherent pid b order f f' i :
  bcache_ok f order -> can_read f b -> read_buf pid b order f f' i -> coherent f' i.
Proof.
  intros Hok Hc Hr. unfold coherent. destruct (dirty (fs_buf f' i)) eqn:E; [by left|right].
  rewrite (rb_data _ _ _ _ _ _ Hr), (rb_blockno _ _ _ _ _ _ Hr), (bu_disk _ _ _ _ (rb_upd _ _ _ _ _ _ Hr)).
  apply (clean_content f order); [done|apply Hc|]. rewrite <- (rb_dirty _ _ _ _ _ _ Hr).
  rewrite (dirty_block_at f' order i); [done|apply Hr|apply Hr|]. apply caches_true. by destruct Hr.
Qed.

Record frame (s s' : kstate) : Prop := mkFrame {
  fr_woken : only_woken (k_ptab s) (k_ptab s');
  fr_rest : s' = set_core (k_core s') (set_ptab (k_ptab s') (set_fs (k_fs s') s))
}.

Lemma frame_intro c t f s : only_woken (k_ptab s) t -> frame s (set_core c (set_ptab t (set_fs f s))).
Proof. by split. Qed.

#[export] Instance frame_preorder : PreOrder frame.
Proof.
  split.
  - intros s. split; [done|]. by destruct s.
  - intros s1 s2 s3 [H1 E1] [H2 E2]. split; [by etransitivity|]. rewrite E2 at 1. rewrite E1. done.
Qed.

Section fwp.
Context (cur : nat) (pid : Z).

Record fs_ready (s : kstate) : Prop := mkFsReady {
  fy_cpu : on_cpu [] (Some cur) (k_core s);
  fy_pid : p_pid (proc_at s cur) = pid
}.

Lemma only_woken_pid t t' : only_woken t t' -> p_pid (procs t' cur) = p_pid (procs t cur).
Proof. intros [H _ _]. destruct (H cur) as [->|[_ ->]]; done. Qed.

Lemma frame_ready s s' : frame s s' -> on_cpu [] (Some cur) (k_core s') -> fs_ready s -> fs_ready s'.
Proof.
  intros [Hw _] Hc [_ Hp]. split; [done|]. unfold proc_at. by rewrite (only_woken_pid _ _ Hw).
Qed.

Definition fwp {A} (m : K A) (s : kstate) (Q : A -> fsst -> Prop) : Prop :=
  fs_ready s -> wp m s (fun a s' => frame s s' /\ fs_ready s' /\ Q a (k_fs s')).

Lemma fwp_intro {A} (m : K A) s (Q : A -> fsst -> Prop) :
  (fs_ready s -> wp m s (fun a s' => exists c t f, on_cpu [] (Some cur) c /\ only_woken (k_ptab s) t /\
    s' = set_core c (set_ptab t (set_fs f s)) /\ Q a f)) -> fwp m s Q.
Proof.
  intros H Hr. eapply wp_mono; [|by apply H]. intros a s' (c & t & f & Hc & Ht & -> & HQ).
  split_and!; [by apply frame_intro| |done]. by apply (frame_ready s); [apply frame_intro| |].
Qed.

Lemma fwp_bind {A B} (m : K A) (g : A -> K B) s (Q : B -> fsst -> Prop) :
  fwp m s (fun a f => forall s1, k_fs s1 = f -> frame s s1 -> fwp (g a) s1 Q) -> fwp (m ≫= g) s Q.
Proof.
  intros H Hr. wpb. eapply wp_mono; [|by apply H]. intros a s1 (F1 & R1 & H1).
  eapply wp_mono; [|by apply (H1 s1)]. intros b s2 (F2 & R2 & HQ). split_and!; [by etransitivity|done|done].
Qed.

Lemma fwp_mono {A} (m : K A) s (Q Q' : A -> fsst -> Prop) :
  (forall a f, Q a f -> Q' a f) -> fwp m s Q -> fwp m s Q'.
Proof. intros HQ H Hr. eapply wp_mono; [|by apply H]. intros a s' (F & R & H1). auto. Qed.

Lemma fwp_ret {A} (a : A) s (Q : A -> fsst -> Prop) : Q a (k_fs s) -> fwp (mret a) s Q.
Proof. intros H Hr. apply wp_ret. by split_and!. Qed.

Lemma fwp_gets_bind {A B} (h : kstate -> A) (g : A -> K B) s Q : fwp (g (h s)) s Q -> fwp (gets h ≫= g) s Q.
Proof. intros H Hr. wp1. by apply H. Qed.

Lemma fwp_modify (h : fsst -> fsst) (k : kstate -> kstate) s (Q : unit -> fsst -> Prop) :
  k s = set_fs (h (k_fs s)) s -> Q tt (h (k_fs s)) -> fwp (modify k) s Q.
Proof.
  intros E H. apply fwp_intro. intros Hr. apply wp_modify. rewrite E.
  exists (k_core s), (k_ptab s), (h (k_fs s)). split_and!; [apply Hr|done|by destruct s|done].
Qed.

Lemma fwp_bread b order s (Q : nat -> fsst -> Prop) :
  bcache_ok (k_fs s) order -> can_read (k_fs s) b ->
  (forall f i, read_buf pid b order (k_fs s) f i -> Q i f) -> fwp (bread 1 b) s Q.
Proof.
  intros Hok Hcan HQ. apply fwp_intro. intros [Hc Hp].
  apply (wp_bread cur b order s Hc Hok Hcan). rewrite Hp. intros c f i H1 Hr.
  exists c, (k_ptab s), f. split_and!; [done|done|by destruct s|by apply HQ].
Qed.

Lemma fwp_bwrite i order s (Q : unit -> fsst -> Prop) :
  bcache_ok (k_fs s) order -> held pid (k_fs s) i -> b_blockno (fs_buf (k_fs s) i) < d_size (fs_disk (k_fs s)) ->
  (forall f, wrote_buf pid order (k_fs s) f i -> Q tt f) -> fwp (bwrite i) s Q.
Proof.
  intros Hok Hh Hsz HQ. apply fwp_intro. intros [Hc Hp]. rewrite <- Hp in *.
  apply (wp_bwrite cur i order s); [done..|]. intros c f H1 Hr.
  exists c, (k_ptab s), f. split_and!; [done|done|by destruct s|by apply HQ].
Qed.

Lemma fwp_brelse i order s (Q : unit -> fsst -> Prop) :
  bcache_ok (k_fs s) order -> held pid (k_fs s) i -> coherent (k_fs s) i ->
  (forall f, released i order (k_fs s) f -> Q tt f) -> fwp (brelse i) s Q.
Proof.
  intros Hok Hh Hco HQ. apply fwp_intro. intros [Hc Hp]. rewrite <- Hp in *.
  apply (wp_brelse cur i order s); [done..|]. intros c t f H1 Ht Hr.
  exists c, t, f. split_and!; [done|done|done|by apply HQ].
Qed.

(** An assignment to the data of a held buffer. *)
Lemma fwp_buf_data i (d : mem -> mem) s (Q : unit -> fsst -> Prop) :
  (forall f, buf_upd i (buf_data (d (b_data (fs_buf (k_fs s) i))) (fs_buf (k_fs s) i)) (k_fs s) f -> Q tt f) ->
  fwp (upd_buf i (fun b => buf_data (d (b_data b)) b)) s Q.
Proof. intros HQ. eapply (fwp_modify (fun f => with_buf _ f)); [reflexivity|]. apply HQ, buf_upd_set. Qed.
End fwp.

(** C23: The buffer cache is transparent.  [bread] of a block gives a locked buffer with
    the content of the block, whether it was cached, changed or not, or had to be
    read from the disk in place of a block nobody uses; no block's content changes,
    nothing is written to the disk, and no changed block is lost from the cache.
    [brelse] gives the buffer back, and again changes no content. *)
Theorem bread_brelse_transparent (cur : nat) (b : Z) (order : list nat) (s : kstate) :
  on_cpu [] (Some cur) (k_core s) -> bcache_ok (k_fs s) order -> can_read (k_fs s) b ->
  wp (bread 1 b) s (fun i s1 =>
    b_data (buf_at s1 i) = content (k_fs s) b /\ locked_by (p_pid (proc_at s cur)) (buf_at s1 i) /\
    fs_disk (k_fs s1) = fs_disk (k_fs s) /\
    (forall b', content (k_fs s1) b' = content (k_fs s) b') /\
    wp (brelse i) s1 (fun _ s2 => on_cpu [] (Some cur) (k_core s2) /\
      (exists o1 o2, order = o1 ++ i :: o2 /\ bcache_ok (k_fs s2) (i :: o1 ++ o2)) /\
      fs_disk (k_fs s2) = fs_disk (k_fs s) /\
      (forall b', content (k_fs s2) b' = content (k_fs s) b') /\
      (forall b', dirty_block (k_fs s2) b' = dirty_block (k_fs s) b'))).
Proof.
  intros Hc Hok Hcan. apply (wp_bread cur b order s Hc Hok Hcan). intros c f i H1 Hr.
  pose proof (read_buf_coherent _ _ _ _ _ _ Hok Hcan Hr) as Hco.
  split_and!; [apply Hr|apply Hr|apply Hr|apply Hr|].
  apply (wp_brelse cur i order); [done|apply Hr|exact (read_buf_held _ _ _ _ _ _ Hr)|done|].
  intros c2 t f2 H2 _ Hre. split_and!; [done|apply Hre| | |].
  - simpl. rewrite (re_disk _ _ _ _ Hre). apply Hr.
  - intros b'. simpl. rewrite (re_content _ _ _ _ Hre). apply Hr.
  - intros b'. simpl. rewrite (re_dirty _ _ _ _ Hre). apply Hr.
Qed.

(** ** An empty cache *)

Module Empty.

(** The ring in the order of the indices. *)
Definition bufs (i : nat) : buf :=
  mkBuf 0 0 0 zero_sl 0 (if (i =? 0)%nat then bcache_head else pred i)
    (if (i =? bcache_head)%nat then O else S i) (fun _ => 0).

Definition fs (d : disk) (l : log) : fsst := mkFs d bufs l (mkSb 0 0 0 0 0 0 0) (fun _ => zero_inode).

Definition st (d : disk) (l : log) : kstate :=
  set_fs (fs d l) (start (Some 0%nat) (fun _ => user_process RUNNING 7 (fun _ => 0)) empty_stab).

Lemma bufs_ring : ring bufs (seq 0 NBUF).
Proof. split; [done|]. vm_compute. repeat split. Qed.

Lemma fs_ok d l : bcache_ok (fs d l) (seq 0 NBUF).
Proof.
  split; [exact bufs_ring|done|]. intros i _. split; try done.
Qed.

Lemma fs_free d l : free_bufs (fs d l) = 30.
Proof. reflexivity. Qed.

Lemma fs_content d l b : content (fs d l) b = d_blocks d b.
Proof. by apply content_none. Qed.

Lemma fs_can_read d l b : b < d_size d -> can_read (fs d l) b.
Proof. split; [done|done|]. right. by rewrite fs_free. Qed.
End Empty.

Lemma bread_brelse_transparent_witness :
  wp (bread 1 5) (Empty.st (mkDisk (fun b _ => b) 100 []) zero_log) (fun i s1 => b_data (buf_at s1 i) 0 = 5).
Proof.
  refine (wp_mono _ _ _ _ _ (bread_brelse_transparent 0 5 (seq 0 NBUF)
    (Empty.st (mkDisk (fun b _ => b) 100 []) zero_log) (one_cpu_on _) (Empty.fs_ok _ _)
    (Empty.fs_can_read (mkDisk (fun b _ => b) 100 []) zero_log 5 ltac:(reflexivity)))).
  intros i s1 (-> & _). change (k_fs (Empty.st (mkDisk (fun b _ => b) 100 []) zero_log))
    with (Empty.fs (mkDisk (fun b _ => b) 100 []) zero_log). by rewrite Empty.fs_content.
Defined.
