(* ===== verification/Log.v ===== *)
(** * log.c: transactions that survive a crash

    [begin_op], [end_op], [log_write], [commit] and the recovery at boot.  The
    header block of the log, at [start], holds the number of logged blocks and
    their home addresses; the copies follow it.  Every write to the disk is kept
    in order ([d_writes]).  The second part specifies the loops that copy blocks
    between the log and their homes; LogCrash has the theorems. *)

From S2P Require Import Prelude CString KState Spinlock Proc Sleeplock Bio.

Definition log_at (s : kstate) : log := fs_log (k_fs s).

Definition upd_log (f : log -> log) : K unit :=
  modify (fun s => set_fs (with_log (f (log_at s)) (k_fs s)) s).

Definition log_geometry (start size dev : Z) (l : log) : log :=
  mkLog start size (lg_outstanding l) (lg_committing l) dev (lg_n l) (lg_block l).
Definition log_outstanding (x : Z) (l : log) : log :=
  mkLog (lg_start l) (lg_size l) x (lg_committing l) (lg_dev l) (lg_n l) (lg_block l).
Definition log_committing (x : bool) (l : log) : log :=
  mkLog (lg_start l) (lg_size l) (lg_outstanding l) x (lg_dev l) (lg_n l) (lg_block l).
Definition log_n (x : Z) (l : log) : log :=
  mkLog (lg_start l) (lg_size l) (lg_outstanding l) (lg_committing l) (lg_dev l) x (lg_block l).
Definition log_block (i x : Z) (l : log) : log :=
  mkLog (lg_start l) (lg_size l) (lg_outstanding l) (lg_committing l) (lg_dev l) (lg_n l)
    (<[i := x]> (lg_block l)).

Definition buf_bytes (i : nat) : K mem := gets (fun s => b_data (buf_at s i)).

(** The loop of [install_trans], from [tail] on. *)
Fixpoint install_loop (todo : nat) (tail : Z) : K unit :=
  match todo with
  | O => mret tt
  | S k =>
      lg ← gets log_at;
      lbuf ← bread (lg_dev lg) (lg_start lg + tail + 1);
      dbuf ← bread (lg_dev lg) (lg_block lg tail);
      d ← buf_bytes lbuf;
      upd_buf dbuf (fun b => buf_data d b);;
      bwrite dbuf;;
      brelse lbuf;;
      brelse dbuf;;
      install_loop k (tail + 1)
  end.

Definition install_trans : K unit :=
  lg ← gets log_at;
  install_loop (Z.to_nat (lg_n lg)) 0.

(** [struct logheader] in a block: [n] and the block numbers. *)
Definition hd_n (m : mem) : Z := int32 (load32 m 0).
Definition hd_block (m : mem) (i : Z) : Z := int32 (load32 m (4 + 4 * i)).

(** [log.lh.block[i] = lh->block[i]] for the entries from [i] on; past LOGSIZE
    the array ends. *)
Fixpoint read_blocks (todo : nat) (i : Z) (lh : mem) : K unit :=
  match todo with
  | O => mret tt
  | S k =>
      if i <? LOGSIZE then
        upd_log (log_block i (hd_block lh i));;
        read_blocks k (i + 1) lh
      else undef "log.lh.block out of range"
  end.

Definition read_head : K unit :=
  lg ← gets log_at;
  buf ← bread (lg_dev lg) (lg_start lg);
  lh ← buf_bytes buf;
  upd_log (log_n (hd_n lh));;
  read_blocks (Z.to_nat (hd_n lh)) 0 lh;;
  brelse buf.

(** [hb->block[i] = log.lh.block[i]] for the entries from [i] on. *)
Fixpoint put_blocks (todo : nat) (i : Z) (block : Z -> Z) (hb : mem) : mem :=
  match todo with
  | O => hb
  | S k => put_blocks k (i + 1) block (store32 hb (4 + 4 * i) (block i))
  end.

Definition put_head (lg : log) (hb : mem) : mem :=
  put_blocks (Z.to_nat (lg_n lg)) 0 (lg_block lg) (store32 hb 0 (lg_n lg)).

Definition write_head : K unit :=
  lg ← gets log_at;
  buf ← bread (lg_dev lg) (lg_start lg);
  upd_buf buf (fun b => buf_data (put_head lg (b_data b)) b);;
  bwrite buf;;
  brelse buf.

Definition recover_from_log : K unit :=
  read_head;;
  install_trans;;
  upd_log (log_n 0);;
  write_head.

(** fs.c: [struct superblock] in block 1. *)
Definition sb_of (m : mem) : superblock :=
  mkSb (load32 m 0) (load32 m 4) (load32 m 8) (load32 m 12) (load32 m 16) (load32 m 20) (load32 m 24).

Definition readsb (dev : Z) : K superblock :=
  bp ← bread dev 1;
  m ← buf_bytes bp;
  brelse bp;;
  mret (sb_of m).

Definition initlog (dev : Z) : K unit :=
  if BSIZE <=? 4 + 4 * LOGSIZE then panic "initlog: too big logheader"
  else
    initlock LkLog "log";;
    sb ← readsb dev;
    upd_log (log_geometry (sb_logstart sb) (sb_nlog sb) dev);;
    recover_from_log.

Definition log_full (lg : log) : bool :=
  LOGSIZE <? lg_n lg + (lg_outstanding lg + 1) * MAXOPBLOCKS.

Fixpoint begin_op_loop (fuel : nat) : K unit :=
  match fuel with
  | O => fun s => Stuck s
  | S k =>
      lg ← gets log_at;
      if lg_committing lg then
        sleep ChLog LkLog;;
        begin_op_loop k
      else if log_full lg then
        sleep ChLog LkLog;;
        begin_op_loop k
      else
        upd_log (fun l => log_outstanding (lg_outstanding l + 1) l);;
        release LkLog
  end.

Definition begin_op : K unit :=
  acquire LkLog;;
  w ← gets k_wakeups;
  begin_op_loop (S w).

(** The loop of [write_log], from [tail] on. *)
Fixpoint write_log_loop (todo : nat) (tail : Z) : K unit :=
  match todo with
  | O => mret tt
  | S k =>
      lg ← gets log_at;
      to ← bread (lg_dev lg) (lg_start lg + tail + 1);
      from ← bread (lg_dev lg) (lg_block lg tail);
      d ← buf_bytes from;
      upd_buf to (fun b => buf_data d b);;
      bwrite to;;
      brelse from;;
      brelse to;;
      write_log_loop k (tail + 1)
  end.

Definition write_log : K unit :=
  lg ← gets log_at;
  write_log_loop (Z.to_nat (lg_n lg)) 0.

Definition commit : K unit :=
  lg ← gets log_at;
  when (0 <? lg_n lg) (
    write_log;;
    write_head;;
    install_trans;;
    upd_log (log_n 0);;
    write_head).

Definition end_op : K unit :=
  acquire LkLog;;
  upd_log (fun l => log_outstanding (lg_outstanding l - 1) l);;
  lg ← gets log_at;
  if lg_committing lg then panic "log.committing"
  else
    do_commit ← (if lg_outstanding lg =? 0 then
                   upd_log (log_committing true);;
                   mret true
                 else
                   wakeup ChLog;;
                   mret false);
    release LkLog;;
    when do_commit (
      commit;;
      acquire LkLog;;
      upd_log (log_committing false);;
      wakeup ChLog;;
      release LkLog).

(** The first [i] from the given one with [log.lh.block[i] == blockno], or [n]. *)
Fixpoint absorb (todo : nat) (i : Z) (lg : log) (blockno : Z) : Z :=
  match todo with
  | O => i
  | S k => if lg_block lg i =? blockno then i else absorb k (i + 1) lg blockno
  end.

Definition log_write (b : nat) : K unit :=
  lg ← gets log_at;
  if (LOGSIZE <=? lg_n lg) || (lg_size lg - 1 <=? lg_n lg) then panic "too big a transaction"
  else if lg_outstanding lg <? 1 then panic "log_write outside of trans"
  else
    acquire LkLog;;
    lg ← gets log_at;
    x ← gets (fun s => buf_at s b);
    let i := absorb (Z.to_nat (lg_n lg)) 0 lg (b_blockno x) in
    upd_log (log_block i (b_blockno x));;
    when (i =? lg_n lg) (upd_log (fun l => log_n (lg_n l + 1) l));;
    upd_buf b (fun x => buf_flags (Z.lor (b_flags x) B_DIRTY) x);;
    release LkLog.

(** ** Copying one block to another *)

(** No buffer is in use. *)
Record quiet (f : fsst) (order : list nat) : Prop := mkQuiet {
  qu_ok : bcache_ok f order;
  qu_idle : forall i, (i < NBUF)%nat -> b_refcnt (fs_buf f i) = 0
}.

(** A read of [b] can find a buffer, even after [used] other reads. *)
Definition readable (f : fsst) (used b : Z) : Prop :=
  b < d_size (fs_disk f) /\ (dirty_block f b = true \/ used < free_bufs f).

Lemma dirty_block_cached f b : dirty_block f b = true -> exists i, (i < NBUF)%nat /\ caches 1 b (fs_buf f i) = true.
Proof.
  unfold dirty_block. destruct (cached f b) as [i|] eqn:E; [|done]. intros _.
  apply find_idx_Some in E as (Hi & E & _). by exists i.
Qed.

Lemma quiet_can_read f order b : quiet f order -> readable f 0 b -> can_read f b.
Proof.
  intros [_ Hi] [Hr H]. split; [done|auto|]. destruct H as [H|H]; [left; by apply dirty_block_cached|by right].
Qed.

(** The rest of the file system's state. *)
Record same_meta (f f' : fsst) : Prop := mkSameMeta {
  sm_log : fs_log f' = fs_log f;
  sm_sb : fs_sb f' = fs_sb f;
  sm_inode : fs_inode f' = fs_inode f
}.

#[export] Instance same_meta_preorder : PreOrder same_meta.
Proof. split; [by split|]. intros x y z [] []. split; congruence. Qed.

Definition clean_cost (x : buf) : Z := if dirty x then 0 else 1.

(** Buffers [i] and [j] hold blocks [a] and [b]. *)
Record two_held (pid : Z) (order : list nat) (f f' : fsst) (i : nat) (a : Z) (j : nat) (b : Z) : Prop := mkTwoHeld {
  th_ok : bcache_ok f' order;
  th_i : held pid f' i;
  th_j : held pid f' j;
  th_a : b_blockno (fs_buf f' i) = a;
  th_b : b_blockno (fs_buf f' j) = b;
  th_ne : i <> j;
  th_co_i : coherent f' i;
  th_co_j : coherent f' j;
  th_other : forall k, k <> i -> k <> j -> fs_buf f' k = fs_buf f k;
  th_disk : fs_disk f' = fs_disk f;
  th_meta : same_meta f f';
  th_content : forall x, content f' x = content f x;
  th_dirty : forall x, dirty_block f' x = dirty_block f x;
  th_free : free_bufs f' = free_bufs f - clean_cost (fs_buf f' i) - clean_cost (fs_buf f' j)
}.

Lemma two_held_sym pid order f f' i a j b :
  two_held pid order f f' i a j b -> two_held pid order f f' j b i a.
Proof.
  intros [A B C D E F G H I J K' L M' N]. apply mkTwoHeld; [exact A|exact C|exact B|exact E|exact D|congruence|exact H|exact G| |exact J|exact K'|exact L|exact M'|lia].
  intros k H1 H2. by apply I.
Qed.

Lemma buf_upd_meta i x f f' : buf_upd i x f f' -> same_meta f f'.
Proof. intros []. by split. Qed.

Lemma can_read_second pid order f f1 i a b :
  quiet f order -> read_buf pid a order f f1 i -> a <> b -> readable f 1 b -> can_read f1 b.
Proof.
  intros [Hok Hq] Hr Hab [Hsz Hroom]. pose proof (rb_upd _ _ _ _ _ _ Hr) as Hu.
  assert (Hi : caches 1 b (fs_buf f1 i) = false).
  { unfold caches. rewrite (rb_blockno _ _ _ _ _ _ Hr). rewrite (proj2 (Z.eqb_neq a b)) by done. apply andb_false_r. }
  split.
  - by rewrite (bu_disk _ _ _ _ Hu).
  - intros k Hk Hc. rewrite (bu_other _ _ _ _ Hu); [by apply Hq|]. intros ->. congruence.
  - destruct Hroom as [H|H].
    + left. rewrite <- (rb_dirty _ _ _ _ _ _ Hr) in H. by apply dirty_block_cached.
    + right. rewrite (rb_free _ _ _ _ _ _ Hr). destruct (dirty _); lia.
Qed.

(** [f'] is [f] with block [a] copied to block [b], in the cache and on the disk. *)
Record copied (f f' : fsst) (order : list nat) (a b : Z) : Prop := mkCopied {
  cp_quiet : quiet f' order;
  cp_disk : fs_disk f' = disk_put b (content f a) (fs_disk f);
  cp_meta : same_meta f f';
  cp_content : forall x, content f' x = if x =? b then content f a else content f x;
  cp_dirty : forall x, dirty_block f' x = if x =? b then false else dirty_block f x;
  cp_free : free_bufs f' = free_bufs f + (if dirty_block f b then 1 else 0)
}.

Lemma held_links pid f f' i : held pid f i -> but_links (fs_buf f i) (fs_buf f' i) -> held pid f' i.
Proof.
  intros [H1 H2 H3 H4 H5] [L1 L2 L3 L4 L5 L6]. unfold locked_by, valid in *.
  split; unfold locked_by, valid; congruence.
Qed.

Lemma coherent_links f f' i :
  coherent f i -> but_links (fs_buf f i) (fs_buf f' i) -> fs_disk f' = fs_disk f -> coherent f' i.
Proof. intros H [L1 L2 L3 L4 L5 L6] E. unfold coherent, dirty in *. by rewrite L1, L3, L6, E. Qed.

Lemma held_dirty pid f order i :
  bcache_ok f order -> held pid f i -> dirty_block f (b_blockno (fs_buf f i)) = dirty (fs_buf f i).
Proof.
  intros Hok Hh. apply (dirty_block_at f order i); [done|apply Hh|]. by rewrite (held_caches _ _ _ _ Hh), Z.eqb_refl.
Qed.

Section copy.
Context (cur : nat) (pid : Z).

Lemma fwp_two_reads {A} a b order s (m : nat -> nat -> K A) (Q : A -> fsst -> Prop) :
  quiet (k_fs s) order -> a <> b -> readable (k_fs s) 0 a -> readable (k_fs s) 1 b ->
  (forall i j f s1, k_fs s1 = f -> two_held pid order (k_fs s) f i a j b -> fwp cur pid (m i j) s1 Q) ->
  fwp cur pid (i ← bread 1 a; j ← bread 1 b; m i j) s Q.
Proof.
  intros Hq Hab Ha Hb HQ. pose proof (quiet_can_read _ _ _ Hq Ha) as Hcan.
  apply fwp_bind. apply (fwp_bread cur pid a order); [apply Hq|done|]. intros f1 i R1 s1 <- _.
  pose proof (can_read_second _ _ _ _ _ _ _ Hq R1 Hab Hb) as Hcan2.
  apply fwp_bind. apply (fwp_bread cur pid b order); [apply R1|done|]. intros f2 j R2 s2 <- _.
  pose proof (rb_upd _ _ _ _ _ _ R1) as U1. pose proof (rb_upd _ _ _ _ _ _ R2) as U2.
  assert (Hij : i <> j).
  { intros <-. destruct (rb_idle _ _ _ _ _ _ R2) as [H|H].
    - apply caches_true in H as [_ H]. rewrite (rb_blockno _ _ _ _ _ _ R1) in H. congruence.
    - rewrite (held_not_free _ _ _ (read_buf_held _ _ _ _ _ _ R1)) in H. done. }
  pose proof (bu_other _ _ _ _ U2 i Hij) as Ei. apply (HQ i j (k_fs s2) s2 eq_refl).
  pose proof (read_buf_held _ _ _ _ _ _ R1) as [H1 H2 H3 H4 H5].
  split; rewrite ?Ei; try apply R2; try done.
  - split; rewrite ?Ei; done.
  - exact (read_buf_held _ _ _ _ _ _ R2).
  - apply R1.
  - pose proof (read_buf_coherent _ _ _ _ _ _ (qu_ok _ _ Hq) Hcan R1) as Hc.
    unfold coherent in *. by rewrite Ei, (bu_disk _ _ _ _ U2).
  - exact (read_buf_coherent _ _ _ _ _ _ (rb_ok _ _ _ _ _ _ R1) Hcan2 R2).
  - intros k Hk1 Hk2. by rewrite (bu_other _ _ _ _ U2), (bu_other _ _ _ _ U1).
  - by rewrite (bu_disk _ _ _ _ U2), (bu_disk _ _ _ _ U1).
  - etransitivity; [exact (buf_upd_meta _ _ _ _ U1)|exact (buf_upd_meta _ _ _ _ U2)].
  - intros x. by rewrite (rb_content _ _ _ _ _ _ R2), (rb_content _ _ _ _ _ _ R1).
  - intros x. by rewrite (rb_dirty _ _ _ _ _ _ R2), (rb_dirty _ _ _ _ _ _ R1).
  - unfold clean_cost. rewrite (rb_free _ _ _ _ _ _ R2), (rb_free _ _ _ _ _ _ R1). done.
Qed.

(** Both buffers given back after a write of [j]. *)
Lemma copied_released f f2 f3 f4 f5 f6 order o5 o6 i a j b :
  quiet f order -> two_held pid order f f2 i a j b -> a <> b ->
  buf_upd j (buf_data (content f a) (fs_buf f2 j)) f2 f3 -> wrote_buf pid order f3 f4 j ->
  released i order f4 f5 -> bcache_ok f5 o5 -> released j o5 f5 f6 -> bcache_ok f6 o6 ->
  copied f f6 o6 a b.
Proof.
  intros [Hok Hq] T Hab U3 W R5 Ho5 R6 Ho6.
  destruct (held_data pid f2 order j _ f3 (th_ok _ _ _ _ _ _ _ _ T) (th_j _ _ _ _ _ _ _ _ T) U3) as (Hok3 & Hj3 & C3 & D3 & F3).
  pose proof (th_ne _ _ _ _ _ _ _ _ T) as Hij. pose proof (th_b _ _ _ _ _ _ _ _ T) as Hb. rewrite Hb in C3.
  assert (Hb3 : b_blockno (fs_buf f3 j) = b) by (by rewrite (bu_at _ _ _ _ U3)).
  assert (Hd3 : b_data (fs_buf f3 j) = content f a) by (by rewrite (bu_at _ _ _ _ U3)).
  split.
  - split; [done|]. intros k Hk. destruct (decide (k = j)) as [->|Hkj]; [by rewrite (bl_refcnt _ _ (re_at _ _ _ _ R6))|].
    rewrite (bl_refcnt _ _ (re_other _ _ _ _ R6 k Hkj)).
    destruct (decide (k = i)) as [->|Hki]; [by rewrite (bl_refcnt _ _ (re_at _ _ _ _ R5))|].
    rewrite (bl_refcnt _ _ (re_other _ _ _ _ R5 k Hki)), (wb_other _ _ _ _ _ W k Hkj), (bu_other _ _ _ _ U3 k Hkj).
    rewrite (th_other _ _ _ _ _ _ _ _ T k Hki Hkj). by apply Hq.
  - rewrite (re_disk _ _ _ _ R6), (re_disk _ _ _ _ R5), (wb_disk _ _ _ _ _ W), Hb3, Hd3.
    by rewrite (bu_disk _ _ _ _ U3), (th_disk _ _ _ _ _ _ _ _ T).
  - etransitivity; [exact (th_meta _ _ _ _ _ _ _ _ T)|]. etransitivity; [exact (buf_upd_meta _ _ _ _ U3)|].
    destruct R5, R6, W. split; congruence.
  - intros x. rewrite (re_content _ _ _ _ R6), (re_content _ _ _ _ R5), (wb_content _ _ _ _ _ W), C3.
    by rewrite (th_content _ _ _ _ _ _ _ _ T).
  - intros x. rewrite (re_dirty _ _ _ _ R6), (re_dirty _ _ _ _ R5), (wb_dirty _ _ _ _ _ W), Hb3, D3.
    by rewrite (th_dirty _ _ _ _ _ _ _ _ T).
  - rewrite (re_free _ _ _ _ R6), (re_free _ _ _ _ R5), (wb_free _ _ _ _ _ W), F3, (th_free _ _ _ _ _ _ _ _ T).
    rewrite <- (th_dirty _ _ _ _ _ _ _ _ T b). rewrite <- Hb at 1.
    rewrite (held_dirty _ _ _ _ (th_ok _ _ _ _ _ _ _ _ T) (th_j _ _ _ _ _ _ _ _ T)).
    assert (Ei : fs_buf f4 i = fs_buf f2 i) by (by rewrite (wb_other _ _ _ _ _ W i Hij), (bu_other _ _ _ _ U3 i Hij)).
    assert (Ej : dirty (fs_buf f5 j) = false).
    { unfold dirty. rewrite (bl_flags _ _ (re_other _ _ _ _ R5 j (not_eq_sym Hij))). apply W. }
    rewrite Ei, Ej. unfold clean_cost. destruct (dirty (fs_buf f2 i)), (dirty (fs_buf f2 j)); lia.
Qed.

Lemma fwp_copy_rest {A} (k : K A) order f s i a j b (Q : A -> fsst -> Prop) :
  quiet f order -> two_held pid order f (k_fs s) i a j b -> a <> b -> b < d_size (fs_disk f) ->
  (forall order' s', copied f (k_fs s') order' a b -> fwp cur pid k s' Q) ->
  fwp cur pid (d ← buf_bytes i; upd_buf j (fun b => buf_data d b);; bwrite j;; brelse i;; brelse j;; k) s Q.
Proof.
  intros Hq T Hab Hsz HQ. pose proof (th_ne _ _ _ _ _ _ _ _ T) as Hij. unfold buf_bytes. apply fwp_gets_bind. unfold buf_at.
  pose proof (held_content _ _ _ _ (th_ok _ _ _ _ _ _ _ _ T) (th_i _ _ _ _ _ _ _ _ T)) as Hd.
  rewrite (th_a _ _ _ _ _ _ _ _ T), (th_content _ _ _ _ _ _ _ _ T) in Hd. rewrite <- Hd.
  apply fwp_bind. apply (fwp_buf_data cur pid j (fun _ => content f a)). intros f3 U3 s3 E3 _. subst f3.
  destruct (held_data pid _ order j _ _ (th_ok _ _ _ _ _ _ _ _ T) (th_j _ _ _ _ _ _ _ _ T) U3) as (Hok3 & Hj3 & _).
  assert (Hb3 : b_blockno (fs_buf (k_fs s3) j) = b) by (rewrite (bu_at _ _ _ _ U3); apply T).
  apply fwp_bind. apply (fwp_bwrite cur pid j order); [done|done| |].
  { by rewrite Hb3, (bu_disk _ _ _ _ U3), (th_disk _ _ _ _ _ _ _ _ T). }
  intros f4 W s4 E4 _. subst f4.
  assert (Ei : fs_buf (k_fs s4) i = fs_buf (k_fs s) i) by (by rewrite (wb_other _ _ _ _ _ W i Hij), (bu_other _ _ _ _ U3 i Hij)).
  apply fwp_bind. apply (fwp_brelse cur pid i order); [apply W| | |].
  { destruct (th_i _ _ _ _ _ _ _ _ T). by split; rewrite ?Ei. }
  { unfold coherent. rewrite Ei, (wb_disk _ _ _ _ _ W), Hb3, (bu_disk _ _ _ _ U3). simpl.
    rewrite fn_insert_ne by (rewrite (th_a _ _ _ _ _ _ _ _ T); done). apply (th_co_i _ _ _ _ _ _ _ _ T). }
  intros f5 R5 s5 E5 _. subst f5. destruct (re_ok _ _ _ _ R5) as (o1 & o2 & _ & Ho5).
  pose proof (re_other _ _ _ _ R5 j (not_eq_sym Hij)) as Lj.
  apply fwp_bind. apply (fwp_brelse cur pid j (i :: o1 ++ o2)); [exact Ho5| | |].
  { exact (held_links _ _ _ _ (wb_held _ _ _ _ _ W) Lj). }
  { apply (coherent_links (k_fs s4)); [|exact Lj|apply R5]. right.
    rewrite (wb_data _ _ _ _ _ W), (wb_blockno _ _ _ _ _ W), (wb_disk _ _ _ _ _ W). simpl. by rewrite fn_insert_eq. }
  intros f6 R6 s6 E6 _. subst f6. destruct (re_ok _ _ _ _ R6) as (o3 & o4 & _ & Ho6).
  eapply (HQ _ s6). eapply copied_released; [exact Hq|exact T|done|exact U3|exact W|exact R5|exact Ho5|exact R6|exact Ho6].
Qed.
End copy.

(** ** Sequences of writes *)

(** The blocks after the writes [W], in order. *)
Definition apply_writes (W : list (Z * mem)) (D : Z -> mem) : Z -> mem :=
  foldl (fun D w => <[w.1 := w.2]> D) D W.

Definition puts (W : list (Z * mem)) (d : disk) : disk :=
  foldl (fun d w => disk_put w.1 w.2 d) d W.

Lemma puts_blocks W : forall d, d_blocks (puts W d) = apply_writes W (d_blocks d).
Proof. induction W as [|w W IH]; intros d; [done|]. apply (IH (disk_put w.1 w.2 d)). Qed.

Lemma puts_size W : forall d, d_size (puts W d) = d_size d.
Proof. induction W as [|w W IH]; intros d; [done|]. apply (IH (disk_put w.1 w.2 d)). Qed.

Lemma puts_writes W : forall d, d_writes (puts W d) = d_writes d ++ W.
Proof.
  induction W as [|[b m] W IH]; intros d; simpl; [by rewrite app_nil_r|].
  rewrite (IH (disk_put b m d)). simpl. by rewrite <- app_assoc.
Qed.

Lemma puts_app W1 W2 d : puts (W1 ++ W2) d = puts W2 (puts W1 d).
Proof. apply foldl_app. Qed.

Lemma apply_app W1 W2 D : apply_writes (W1 ++ W2) D = apply_writes W2 (apply_writes W1 D).
Proof. apply foldl_app. Qed.

Lemma apply_notin W b : forall D, b ∉ W.*1 -> apply_writes W D b = D b.
Proof.
  induction W as [|w W IH]; intros D Hb; simpl; [done|]. apply not_elem_of_cons in Hb as [Hb Hw].
  rewrite (IH (<[w.1 := w.2]> D)) by done. by apply fn_insert_ne.
Qed.

Lemma apply_in W b m : forall D, NoDup W.*1 -> (b, m) ∈ W -> apply_writes W D b = m.
Proof.
  induction W as [|w W IH]; intros D Hnd Hin; simpl in *; [by apply elem_of_nil in Hin|].
  apply NoDup_cons in Hnd as [Hw Hnd]. apply elem_of_cons in Hin as [<-|Hin].
  - rewrite (apply_notin W b (<[(b, m).1 := (b, m).2]> D)) by done. apply fn_insert_eq.
  - by apply IH.
Qed.

Lemma apply_ext W b : forall D D', (b ∉ W.*1 -> D b = D' b) -> apply_writes W D b = apply_writes W D' b.
Proof.
  induction W as [|w W IH]; intros D D' H; simpl; [apply H; by apply not_elem_of_nil|].
  apply (IH (<[w.1 := w.2]> D) (<[w.1 := w.2]> D')). intros Hn. destruct (decide (b = w.1)) as [->|Hb].
  - by rewrite !fn_insert_eq.
  - rewrite !fn_insert_ne by done. apply H. by apply not_elem_of_cons.
Qed.

Lemma notin_take (W : list (Z * mem)) k b : b ∉ W.*1 -> b ∉ (take k W).*1.
Proof.
  intros Hb Hin. apply Hb. rewrite <- (take_drop k W), fmap_app, elem_of_app. by left.
Qed.

(** ** The loops over the log

    [install_loop] and [write_log_loop] copy block [sr i] to block [ds i] for each
    [i]. *)

Definition copies (sr ds : Z -> Z) (g : Z -> mem) (tail : Z) (todo : nat) : list (Z * mem) :=
  (fun i => (ds i, g (sr i))) <$> seqZ tail (Z.of_nat todo).

Lemma copies_ext sr ds g g' tail todo :
  (forall i, tail <= i < tail + Z.of_nat todo -> g (sr i) = g' (sr i)) ->
  copies sr ds g tail todo = copies sr ds g' tail todo.
Proof.
  intros H. unfold copies. apply list_fmap_ext. intros k i Hi.
  apply list_elem_of_lookup_2, elem_of_seqZ in Hi. by rewrite H.
Qed.

Lemma copies_cons sr ds g tail todo :
  copies sr ds g tail (S todo) = (ds tail, g (sr tail)) :: copies sr ds g (tail + 1) todo.
Proof. unfold copies. rewrite seqZ_cons by lia. rewrite fmap_cons. do 3 f_equal; lia. Qed.

Lemma copies_blocks sr ds g tail todo : (copies sr ds g tail todo).*1 = ds <$> seqZ tail (Z.of_nat todo).
Proof. unfold copies. rewrite <- list_fmap_compose. by apply list_fmap_ext. Qed.

(** The file system after the writes [W]. *)
Record wrote_all (f f' : fsst) (order : list nat) (W : list (Z * mem)) : Prop := mkWroteAll {
  wa_quiet : quiet f' order;
  wa_disk : fs_disk f' = puts W (fs_disk f);
  wa_meta : same_meta f f';
  wa_content : forall x, content f' x = apply_writes W (content f) x;
  wa_dirty : forall x, dirty_block f' x = dirty_block f x && bool_decide (x ∉ W.*1);
  wa_free : free_bufs f <= free_bufs f'
}.

Lemma wrote_all_nil f order : quiet f order -> wrote_all f f order [].
Proof.
  intros Hq. split; try done. intros x. rewrite bool_decide_true by apply not_elem_of_nil. by rewrite andb_true_r.
Qed.

Lemma wrote_all_cons f f1 f2 o1 o2 a b W :
  copied f f1 o1 a b -> wrote_all f1 f2 o2 W -> wrote_all f f2 o2 ((b, content f a) :: W).
Proof.
  intros C [W1 W2 W3 W4 W5 W6]. split.
  - done.
  - rewrite W2, (cp_disk _ _ _ _ _ C). done.
  - etransitivity; [apply C|done].
  - intros x. rewrite W4. simpl. apply apply_ext. intros _. rewrite (cp_content _ _ _ _ _ C).
    destruct (Z.eqb_spec x b) as [->|]; [by rewrite fn_insert_eq|by rewrite fn_insert_ne].
  - intros x. rewrite W5, (cp_dirty _ _ _ _ _ C), fmap_cons. destruct (Z.eqb_spec x b) as [->|Hx].
    + rewrite (bool_decide_false (b ∉ (b, content f a).1 :: W.*1)) by (intros H; apply H; by left). by rewrite andb_false_r.
    + f_equal. apply bool_decide_ext. rewrite not_elem_of_cons. tauto.
  - pose proof (cp_free _ _ _ _ _ C). destruct (dirty_block f b); lia.
Qed.

Lemma wrote_all_trans f f1 f2 o1 o2 W1 W2 :
  wrote_all f f1 o1 W1 -> wrote_all f1 f2 o2 W2 -> wrote_all f f2 o2 (W1 ++ W2).
Proof.
  intros [A1 A2 A3 A4 A5 A6] [B1 B2 B3 B4 B5 B6]. split.
  - done.
  - by rewrite B2, A2, puts_app.
  - by etransitivity.
  - intros x. rewrite B4, apply_app. apply apply_ext. intros _. apply A4.
  - intros x. rewrite B5, A5, <- andb_assoc. f_equal. rewrite <- bool_decide_and. apply bool_decide_ext.
    rewrite fmap_app, not_elem_of_app. tauto.
  - lia.
Qed.

(** A change of [log] alone. *)
Lemma quiet_with_log l f order : quiet f order -> quiet (with_log l f) order.
Proof. intros [[Hr Hu Hb] Hi]. split; [by split|done]. Qed.

Section loops.
Context (cur : nat) (pid : Z) (lg : log) (sr ds first second : Z -> Z).
Context (loop : nat -> Z -> K unit).
Context (Hbase : forall tail, loop 0%nat tail = mret tt).
Context (Hstep : forall k tail s order (Q : unit -> fsst -> Prop),
  quiet (k_fs s) order -> fs_log (k_fs s) = lg -> first tail <> second tail ->
  readable (k_fs s) 0 (first tail) -> readable (k_fs s) 1 (second tail) ->
  (forall order' s', copied (k_fs s) (k_fs s') order' (sr tail) (ds tail) -> fwp cur pid (loop k (tail + 1)) s' Q) ->
  fwp cur pid (loop (S k) tail) s Q).

(** The blocks of the iterations from [tail] on. *)
Record copyable (f : fsst) (tail : Z) (todo : nat) : Prop := mkCopyable {
  ca_first : forall i, tail <= i < tail + Z.of_nat todo -> readable f 0 (first i);
  ca_second : forall i, tail <= i < tail + Z.of_nat todo -> readable f 1 (second i);
  ca_ne : forall i, tail <= i < tail + Z.of_nat todo -> first i <> second i;
  ca_sep : forall i j, tail <= i < tail + Z.of_nat todo -> tail <= j < tail + Z.of_nat todo -> sr i <> ds j;
  ca_later : forall i j, tail <= i -> i < j < tail + Z.of_nat todo -> first j <> ds i /\ second j <> ds i
}.

Lemma readable_copied f f' order a b used x :
  copied f f' order a b -> x <> b -> readable f used x -> readable f' used x.
Proof.
  intros C Hx [H1 H2]. split; [by rewrite (cp_disk _ _ _ _ _ C)|].
  rewrite (cp_dirty _ _ _ _ _ C). rewrite (proj2 (Z.eqb_neq x b)) by done.
  pose proof (cp_free _ _ _ _ _ C). destruct H2 as [H2|H2]; [by left|right]. destruct (dirty_block f b); lia.
Qed.

Lemma fwp_copy_loop todo : forall tail order s,
  quiet (k_fs s) order -> fs_log (k_fs s) = lg -> copyable (k_fs s) tail todo ->
  fwp cur pid (loop todo tail) s (fun _ f' => exists order',
    wrote_all (k_fs s) f' order' (copies sr ds (content (k_fs s)) tail todo)).
Proof.
  induction todo as [|todo IH]; intros tail order s Hq Hlg [C1 C2 C3 C4 C5].
  - rewrite Hbase. apply fwp_ret. exists order. by apply wrote_all_nil.
  - apply (Hstep _ _ _ order); try done; [apply C3; lia|apply C1; lia|apply C2; lia|]. intros o1 s1 Hc.
    eapply fwp_mono; [|apply (IH _ o1)].
    + intros [] f' [o2 Hw]. exists o2. rewrite copies_cons.
      rewrite (copies_ext _ _ _ (content (k_fs s))) in Hw; [by eapply wrote_all_cons|].
      intros i Hi. rewrite (cp_content _ _ _ _ _ Hc). rewrite (proj2 (Z.eqb_neq _ _)); [done|]. apply C4; lia.
    + apply Hc.
    + by rewrite (sm_log _ _ (cp_meta _ _ _ _ _ Hc)).
    + split.
      * intros i Hi. eapply readable_copied; [exact Hc|apply (C5 tail i); lia|apply C1; lia].
      * intros i Hi. eapply readable_copied; [exact Hc|apply (C5 tail i); lia|apply C2; lia].
      * intros i Hi. apply C3. lia.
      * intros i j Hi Hj. apply C4; lia.
      * intros i j Hi Hj. apply C5; lia.
Qed.
End loops.
