(* ===== verification/LogCrash.v ===== *)
(** * log.c: commits and recovery across crashes

    What the routines of Log write to the disk, in order, and what a restart finds
    after any prefix of it.  [recovered] is what a disk holds once its log has
    been replayed; [committed] says that the log on the disk holds the
    transaction.  The theorems are about [commit], [recover_from_log],
    [log_write], [begin_op] and [end_op]. *)

From S2P Require Import Prelude CString KState Spinlock Proc Sleeplock Bio Log.

(** ** The header block *)

Lemma put_blocks_spec block todo : forall i hb,
  0 <= i ->
  (forall a, a + 4 <= 4 + 4 * i \/ 4 + 4 * (i + Z.of_nat todo) <= a -> load32 (put_blocks todo i block hb) a = load32 hb a) /\
  (forall j, i <= j < i + Z.of_nat todo -> 0 <= block j < W32 -> load32 (put_blocks todo i block hb) (4 + 4 * j) = block j).
Proof.
  induction todo as [|todo IH]; intros i hb Hi; simpl put_blocks; [split; [done|lia]|].
  destruct (IH (i + 1) (store32 hb (4 + 4 * i) (block i)) ltac:(lia)) as [H1 H2]. split.
  - intros a Ha. rewrite H1 by lia. apply load32_store32_ne. lia.
  - intros j Hj Hb. destruct (Z.eq_dec j i) as [->|].
    + rewrite H1 by lia. by apply load32_store32.
    + apply H2; [lia|done].
Qed.

(** What a header block says: the numbers [log.lh] held. *)
Lemma put_head_spec lg hb :
  0 <= lg_n lg <= LOGSIZE ->
  hd_n (put_head lg hb) = lg_n lg /\
  forall i, 0 <= i < lg_n lg -> 0 <= lg_block lg i < 2147483648 -> hd_block (put_head lg hb) i = lg_block lg i.
Proof.
  intros Hn. change LOGSIZE with 30 in Hn. unfold put_head, hd_n, hd_block.
  destruct (put_blocks_spec (lg_block lg) (Z.to_nat (lg_n lg)) 0 (store32 hb 0 (lg_n lg)) ltac:(lia)) as [H1 H2]. split.
  - rewrite H1 by lia. rewrite load32_store32 by (unfold W32; lia). apply int32_small. lia.
  - intros i Hi Hb. rewrite H2 by (unfold W32; lia). apply int32_small. lia.
Qed.

(** ** What a disk holds once its log is replayed *)

Definition replay (start : Z) (D : Z -> mem) : list (Z * mem) :=
  (fun i => (hd_block (D start) i, D (start + i + 1))) <$> seqZ 0 (hd_n (D start)).

Definition recovered (start : Z) (D : Z -> mem) : Z -> mem := apply_writes (replay start D) D.

Lemma recovered_empty start D : hd_n (D start) = 0 -> recovered start D = D.
Proof. intros H. unfold recovered, replay. by rewrite H. Qed.

(** Replaying part of the log, or all of it, changes nothing for the replay. *)
Lemma recovered_again start D D' b :
  D' start = D start -> (forall i, 0 <= i < hd_n (D start) -> D' (start + i + 1) = D (start + i + 1)) ->
  (b ∉ (replay start D).*1 -> D' b = D b) -> recovered start D' b = recovered start D b.
Proof.
  intros Hh Hl Hb. assert (E : replay start D' = replay start D).
  { unfold replay. rewrite Hh. apply list_fmap_ext. intros k i Hi.
    apply list_elem_of_lookup_2, elem_of_seqZ in Hi. rewrite Hl by lia. done. }
  unfold recovered. rewrite E. by apply apply_ext.
Qed.

(** ** The log's place on the disk *)

Definition in_log (lg : log) (b : Z) : Prop := lg_start lg <= b < lg_start lg + lg_size lg.

Record log_wf (lg : log) (dsz : Z) : Prop := mkLogWf {
  lw_dev : lg_dev lg = 1;
  lw_n : 0 <= lg_n lg <= LOGSIZE;
  lw_fits : lg_n lg < lg_size lg;
  lw_start : 0 <= lg_start lg;
  lw_end : lg_start lg + lg_size lg <= dsz;
  lw_range : forall i, 0 <= i < lg_n lg -> 0 <= lg_block lg i < dsz;
  lw_home : forall i, 0 <= i < lg_n lg -> ~ in_log lg (lg_block lg i);
  lw_distinct : forall i j, 0 <= i < lg_n lg -> 0 <= j < lg_n lg -> lg_block lg i = lg_block lg j -> i = j
}.

(** The blocks the log is about to write. *)
Definition logged (lg : log) (b : Z) : Prop := exists i, 0 <= i < lg_n lg /\ lg_block lg i = b.

#[export] Instance in_log_dec lg b : Decision (in_log lg b).
Proof. unfold in_log. apply _. Defined.

(** ** Crashes: the pure part *)

Section crash.
Context (lg : log) (dsz : Z) (Hwf : log_wf lg dsz) (Hsz : dsz <= 2147483648).

Let start := lg_start lg.
Let n := lg_n lg.

(** The block of the log for entry [i], and its home. *)
Definition slot (i : Z) : Z := lg_start lg + i + 1.
Definition home (i : Z) : Z := lg_block lg i.

Definition install_writes (g : Z -> mem) : list (Z * mem) := copies slot home g 0 (Z.to_nat (lg_n lg)).
Definition log_writes (g : Z -> mem) : list (Z * mem) := copies home slot g 0 (Z.to_nat (lg_n lg)).

Lemma slot_in_log i : 0 <= i < n -> in_log lg (slot i).
Proof. intros Hi. unfold in_log, slot. pose proof (lw_fits _ _ Hwf). unfold n in Hi. lia. Qed.

Lemma start_in_log : in_log lg start.
Proof. unfold in_log. pose proof (lw_n _ _ Hwf). pose proof (lw_fits _ _ Hwf). unfold start. lia. Qed.

Lemma slot_home i j : 0 <= i < n -> 0 <= j < n -> slot i <> home j.
Proof. intros Hi Hj E. apply (lw_home _ _ Hwf j Hj). change (in_log lg (home j)). rewrite <- E. by apply slot_in_log. Qed.

Lemma log_writes_blocks g b : b ∈ (log_writes g).*1 -> exists i, 0 <= i < n /\ b = slot i.
Proof.
  unfold log_writes. rewrite copies_blocks. intros H. apply list_elem_of_fmap in H as (i & -> & Hi).
  apply elem_of_seqZ in Hi. pose proof (lw_n _ _ Hwf). rewrite Z2Nat.id in Hi by lia. exists i. unfold n. split; [lia|done].
Qed.

Lemma install_writes_blocks g b : b ∈ (install_writes g).*1 <-> logged lg b.
Proof.
  unfold install_writes. rewrite copies_blocks, list_elem_of_fmap. pose proof (lw_n _ _ Hwf). rewrite Z2Nat.id by lia. split.
  - intros (i & -> & Hi). apply elem_of_seqZ in Hi. exists i. split; [lia|done].
  - intros (i & Hi & <-). exists i. split; [done|]. apply elem_of_seqZ. lia.
Qed.

Lemma log_writes_home g b : ~ in_log lg b -> b ∉ (log_writes g).*1.
Proof. intros Hb H. apply log_writes_blocks in H as (i & Hi & ->). by apply Hb, slot_in_log. Qed.

Lemma log_writes_start g : start ∉ (log_writes g).*1.
Proof. intros H. apply log_writes_blocks in H as (i & Hi & E). unfold slot, start in E. lia. Qed.

Lemma install_writes_log g b : in_log lg b -> b ∉ (install_writes g).*1.
Proof. intros Hb H. apply install_writes_blocks in H as (i & Hi & <-). by apply (lw_home _ _ Hwf i Hi). Qed.

Lemma install_writes_nodup g : NoDup (install_writes g).*1.
Proof.
  unfold install_writes. rewrite copies_blocks. pose proof (lw_n _ _ Hwf). rewrite Z2Nat.id by lia.
  apply NoDup_fmap_2_strong; [|apply NoDup_seqZ]. intros i j Hi Hj. rewrite !elem_of_seqZ in *.
  intros E. apply (lw_distinct _ _ Hwf); [lia|lia|done].
Qed.

Lemma log_writes_nodup g : NoDup (log_writes g).*1.
Proof.
  unfold log_writes. rewrite copies_blocks. apply NoDup_fmap_2_strong; [|apply NoDup_seqZ].
  intros i j _ _. unfold slot. lia.
Qed.

Lemma log_writes_slot g D i : 0 <= i < n -> apply_writes (log_writes g) D (slot i) = g (home i).
Proof.
  intros Hi. apply apply_in; [apply log_writes_nodup|]. unfold log_writes, copies. apply list_elem_of_fmap.
  exists i. split; [done|]. apply elem_of_seqZ. unfold n in Hi. lia.
Qed.

Lemma install_writes_home g D b : logged lg b -> (forall i, 0 <= i < n -> g (slot i) = g (home i)) ->
  apply_writes (install_writes g) D b = g b.
Proof.
  intros (i & Hi & <-) Hg. apply apply_in; [apply install_writes_nodup|]. unfold install_writes, copies.
  apply list_elem_of_fmap. exists i. split; [by rewrite Hg|]. apply elem_of_seqZ. lia.
Qed.

(** A crash before the header is written loses the transaction, and nothing else. *)
Lemma crash_before g D k b :
  hd_n (D start) = 0 -> ~ in_log lg b -> recovered start (apply_writes (take k (log_writes g)) D) b = D b.
Proof.
  intros Hh Hb. rewrite recovered_empty.
  - apply apply_notin, notin_take. by apply log_writes_home.
  - rewrite apply_notin; [done|]. apply notin_take, log_writes_start.
Qed.

(** The disk once the header is written: the log holds the transaction. *)
Record committed (C D : Z -> mem) : Prop := mkCommitted {
  cm_n : hd_n (D start) = n;
  cm_block : forall i, 0 <= i < n -> hd_block (D start) i = home i;
  cm_data : forall i, 0 <= i < n -> D (slot i) = C (home i);
  cm_rest : forall b, ~ in_log lg b -> ~ logged lg b -> D b = C b
}.

Lemma committed_replay C D g : committed C D -> (forall i, 0 <= i < n -> g (slot i) = C (home i)) ->
  replay start D = install_writes g.
Proof.
  intros [Hn Hb Hd _] Hg. unfold replay, install_writes, copies. pose proof (lw_n _ _ Hwf).
  rewrite Hn. fold n. rewrite Z2Nat.id by (unfold n; lia). apply list_fmap_ext. intros k i Hi.
  apply list_elem_of_lookup_2, elem_of_seqZ in Hi. rewrite Hb by lia. f_equal. rewrite Hg by lia. apply Hd. lia.
Qed.

Lemma committed_recovered C D b : committed C D -> ~ in_log lg b -> recovered start D b = C b.
Proof.
  intros Hc Hb. unfold recovered.
  set (g := fun x => if decide (in_log lg x) then D x else C x).
  assert (Hg1 : forall i, 0 <= i < n -> g (slot i) = C (home i)).
  { intros i Hi. unfold g. rewrite decide_True by (by apply slot_in_log). by apply Hc. }
  assert (Hg2 : forall i, 0 <= i < n -> g (home i) = C (home i)).
  { intros i Hi. unfold g. rewrite decide_False; [done|]. by apply (lw_home _ _ Hwf). }
  rewrite (committed_replay C D g Hc Hg1).
  destruct (decide (b ∈ (install_writes g).*1)) as [Hin|Hin].
  - apply install_writes_blocks in Hin. rewrite install_writes_home; [|done|intros i Hi; by rewrite Hg1, Hg2].
    unfold g. by rewrite decide_False.
  - rewrite apply_notin by done. apply Hc; [done|]. intros H. apply Hin. by apply install_writes_blocks.
Qed.

(** With the homes written and the log erased the transaction is on the disk. *)
Lemma committed_done C D g h0 b :
  committed C D -> (forall i, 0 <= i < n -> g (slot i) = C (home i)) -> hd_n h0 = 0 -> ~ in_log lg b ->
  let D' := apply_writes (install_writes g ++ [(start, h0)]) D in
  D' b = C b /\ recovered start D' b = C b.
Proof.
  intros Hc Hg Hh Hb D'. assert (Hbs : b <> start) by (intros ->; apply Hb, start_in_log).
  assert (E : D' b = C b).
  { unfold D'. rewrite apply_app. simpl. rewrite fn_insert_ne by done.
    rewrite <- (committed_recovered C D b Hc Hb). unfold recovered. by rewrite (committed_replay C D g Hc). }
  split; [done|]. rewrite recovered_empty; [done|]. unfold D'. rewrite apply_app. simpl. by rewrite fn_insert_eq.
Qed.

(** Writing homes from the log keeps the transaction committed. *)
Lemma committed_install C D g k :
  committed C D -> committed C (apply_writes (take k (install_writes g)) D).
Proof.
  intros [Hn Hb Hd Hr].
  assert (E : forall b, in_log lg b -> apply_writes (take k (install_writes g)) D b = D b).
  { intros b Hb'. apply apply_notin, notin_take. by apply install_writes_log. }
  split.
  - rewrite E by apply start_in_log. done.
  - intros i Hi. rewrite E by apply start_in_log. by apply Hb.
  - intros i Hi. rewrite E by (by apply slot_in_log). by apply Hd.
  - intros b Hb1 Hb2. rewrite apply_notin; [by apply Hr|]. apply notin_take. by rewrite install_writes_blocks.
Qed.

(** Once the header is written the transaction is committed. *)
Lemma committed_after C D hb :
  (forall b, ~ in_log lg b -> ~ logged lg b -> D b = C b) ->
  committed C (apply_writes (log_writes C ++ [(start, put_head lg hb)]) D).
Proof.
  intros HD. rewrite apply_app. simpl. destruct (put_head_spec lg hb (lw_n _ _ Hwf)) as [Hn Hb].
  split; rewrite ?fn_insert_eq; try done.
  - intros i Hi. apply Hb; [done|]. pose proof (lw_range _ _ Hwf i Hi). lia.
  - intros i Hi. rewrite fn_insert_ne by (unfold slot, start; lia). by apply log_writes_slot.
  - intros b Hb1 Hb2. assert (b <> start) by (intros ->; apply Hb1, start_in_log).
    rewrite fn_insert_ne by done. rewrite apply_notin by (by apply log_writes_home). by apply HD.
Qed.

(** A log on the disk is a committed transaction whose result is its replay. *)
Lemma committed_self D :
  hd_n (D start) = n -> (forall i, 0 <= i < n -> hd_block (D start) i = home i) ->
  committed (recovered start D) D.
Proof.
  intros Hn Hb. assert (E : replay start D = install_writes D).
  { unfold replay, install_writes, copies. pose proof (lw_n _ _ Hwf). rewrite Hn. fold n.
    rewrite Z2Nat.id by (unfold n; lia). apply list_fmap_ext. intros k i Hi.
    apply list_elem_of_lookup_2, elem_of_seqZ in Hi. by rewrite Hb by lia. }
  split; [done|done| |].
  - intros i Hi. unfold recovered. rewrite E. symmetry. apply apply_in; [apply install_writes_nodup|].
    unfold install_writes, copies. apply list_elem_of_fmap. exists i. split; [done|]. apply elem_of_seqZ. unfold n in Hi. lia.
  - intros b Hb1 Hb2. unfold recovered. rewrite E, apply_notin; [done|]. by rewrite install_writes_blocks.
Qed.
End crash.

Section runs.
Context (cur : nat) (pid : Z).

Lemma fwp_write_head order s :
  let lg := fs_log (k_fs s) in
  quiet (k_fs s) order -> lg_dev lg = 1 -> readable (k_fs s) 0 (lg_start lg) ->
  fwp cur pid write_head s (fun _ f' => exists order',
    wrote_all (k_fs s) f' order' [(lg_start lg, put_head lg (content (k_fs s) (lg_start lg)))]).
Proof.
  intros lg Hq Hdev Hr. pose proof (quiet_can_read _ _ _ Hq Hr) as Hcan. unfold write_head. apply fwp_gets_bind.
  change (log_at s) with lg. rewrite Hdev. set (b := lg_start lg) in *.
  apply fwp_bind. apply (fwp_bread cur pid b order); [apply Hq|done|]. intros f1 i R1 s1 E1 _. subst f1.
  pose proof (rb_upd _ _ _ _ _ _ R1) as U1. pose proof (read_buf_held _ _ _ _ _ _ R1) as H1.
  apply fwp_bind. apply (fwp_buf_data cur pid i (put_head lg)). intros f2 U2 s2 E2 _. subst f2.
  rewrite (rb_data _ _ _ _ _ _ R1) in U2. set (d := put_head lg _) in *.
  destruct (held_data pid _ order i _ _ (rb_ok _ _ _ _ _ _ R1) H1 U2) as (Hok2 & H2 & C2 & D2 & F2).
  rewrite (rb_blockno _ _ _ _ _ _ R1) in C2.
  assert (Hb2 : b_blockno (fs_buf (k_fs s2) i) = b) by (rewrite (bu_at _ _ _ _ U2); apply R1).
  assert (Hd2 : b_data (fs_buf (k_fs s2) i) = d) by (by rewrite (bu_at _ _ _ _ U2)).
  apply fwp_bind. apply (fwp_bwrite cur pid i order); [done|done| |].
  { rewrite Hb2, (bu_disk _ _ _ _ U2), (bu_disk _ _ _ _ U1). apply Hr. }
  intros f3 W s3 E3 _. subst f3.
  apply (fwp_brelse cur pid i order); [apply W|apply W| |].
  { right. rewrite (wb_data _ _ _ _ _ W), (wb_blockno _ _ _ _ _ W), (wb_disk _ _ _ _ _ W). simpl. by rewrite fn_insert_eq. }
  intros f4 R4. destruct (re_ok _ _ _ _ R4) as (o1 & o2 & _ & Ho). exists (i :: o1 ++ o2). split.
  - split; [done|]. intros k Hk. destruct (decide (k = i)) as [->|Hki]; [by rewrite (bl_refcnt _ _ (re_at _ _ _ _ R4))|].
    rewrite (bl_refcnt _ _ (re_other _ _ _ _ R4 k Hki)), (wb_other _ _ _ _ _ W k Hki), (bu_other _ _ _ _ U2 k Hki).
    rewrite (bu_other _ _ _ _ U1 k Hki). by apply Hq.
  - rewrite (re_disk _ _ _ _ R4), (wb_disk _ _ _ _ _ W), Hb2, Hd2, (bu_disk _ _ _ _ U2), (bu_disk _ _ _ _ U1). done.
  - etransitivity; [exact (buf_upd_meta _ _ _ _ U1)|]. etransitivity; [exact (buf_upd_meta _ _ _ _ U2)|].
    destruct W, R4. split; congruence.
  - intros x. rewrite (re_content _ _ _ _ R4), (wb_content _ _ _ _ _ W), C2, (rb_content _ _ _ _ _ _ R1). simpl.
    destruct (Z.eqb_spec x b) as [->|]; [by rewrite fn_insert_eq|by rewrite fn_insert_ne].
  - intros x. rewrite (re_dirty _ _ _ _ R4), (wb_dirty _ _ _ _ _ W), Hb2, D2, (rb_dirty _ _ _ _ _ _ R1).
    change ([(b, d)].*1) with [b]. destruct (Z.eqb_spec x b) as [->|Hx].
    + rewrite (bool_decide_false (b ∉ [b])) by (intros H; apply H; by left). by rewrite andb_false_r.
    + rewrite bool_decide_true by (by rewrite list_elem_of_singleton). by rewrite andb_true_r.
  - rewrite (re_free _ _ _ _ R4), (wb_free _ _ _ _ _ W), F2, (rb_free _ _ _ _ _ _ R1), (wb_clean _ _ _ _ _ W).
    destruct (dirty (fs_buf (k_fs s1) i)); lia.
Qed.

Section geometry.
Context (lg : log) (dsz : Z) (Hwf : log_wf lg dsz).

Let slot := slot lg.
Let home := home lg.

Lemma fwp_install_step k tail s order (Q : unit -> fsst -> Prop) :
  quiet (k_fs s) order -> fs_log (k_fs s) = lg -> slot tail <> home tail ->
  readable (k_fs s) 0 (slot tail) -> readable (k_fs s) 1 (home tail) ->
  (forall order' s', copied (k_fs s) (k_fs s') order' (slot tail) (home tail) -> fwp cur pid (install_loop k (tail + 1)) s' Q) ->
  fwp cur pid (install_loop (S k) tail) s Q.
Proof.
  intros Hq Hl Hne R0 R1 HQ. cbn [install_loop]. apply fwp_gets_bind. unfold log_at. rewrite Hl, (lw_dev _ _ Hwf).
  apply (fwp_two_reads cur pid (slot tail) (home tail) order s); [done..|]. intros i j f s1 <- T.
  eapply fwp_copy_rest; [exact Hq|exact T|done|apply R1|exact HQ].
Qed.

Lemma fwp_write_log_step k tail s order (Q : unit -> fsst -> Prop) :
  quiet (k_fs s) order -> fs_log (k_fs s) = lg -> slot tail <> home tail ->
  readable (k_fs s) 0 (slot tail) -> readable (k_fs s) 1 (home tail) ->
  (forall order' s', copied (k_fs s) (k_fs s') order' (home tail) (slot tail) -> fwp cur pid (write_log_loop k (tail + 1)) s' Q) ->
  fwp cur pid (write_log_loop (S k) tail) s Q.
Proof.
  intros Hq Hl Hne R0 R1 HQ. cbn [write_log_loop]. apply fwp_gets_bind. unfold log_at. rewrite Hl, (lw_dev _ _ Hwf).
  apply (fwp_two_reads cur pid (slot tail) (home tail) order s); [done..|]. intros i j f s1 <- T.
  eapply fwp_copy_rest; [exact Hq|exact (two_held_sym _ _ _ _ _ _ _ _ T)|congruence|apply R0|exact HQ].
Qed.

(** Every copy of the log has room in the cache: a free buffer for one block, and
    the other one cached, or two free buffers. *)
Definition log_room (f : fsst) : Prop :=
  d_size (fs_disk f) = dsz /\ 0 < free_bufs f /\
  forall i, 0 <= i < lg_n lg -> dirty_block f (home i) = true \/ 1 < free_bufs f.

Lemma log_room_slot f i : log_room f -> 0 <= i < lg_n lg -> readable f 0 (slot i).
Proof.
  intros (Hd & Hf & _) Hi. split; [|by right]. rewrite Hd. pose proof (slot_in_log lg dsz Hwf i Hi) as Hs.
  pose proof (lw_end _ _ Hwf). unfold in_log, slot in *. lia.
Qed.

Lemma log_room_home f i : log_room f -> 0 <= i < lg_n lg -> readable f 1 (home i).
Proof. intros (Hd & Hf & Hr) Hi. split; [|by apply Hr]. rewrite Hd. apply (lw_range _ _ Hwf i Hi). Qed.

Lemma fwp_install_trans order s :
  quiet (k_fs s) order -> fs_log (k_fs s) = lg -> log_room (k_fs s) ->
  fwp cur pid install_trans s (fun _ f' => exists order',
    wrote_all (k_fs s) f' order' (install_writes lg (content (k_fs s)))).
Proof.
  intros Hq Hl Hroom. unfold install_trans. apply fwp_gets_bind. unfold log_at. rewrite Hl.
  pose proof (lw_n _ _ Hwf). eapply (fwp_copy_loop cur pid lg slot home slot home install_loop); [done| |exact Hq|done|].
  - intros. eapply fwp_install_step; eauto.
  - split; intros; rewrite ?Z2Nat.id in * by lia.
    + apply log_room_slot; [done|lia].
    + apply log_room_home; [done|lia].
    + apply (slot_home lg dsz Hwf); lia.
    + apply (slot_home lg dsz Hwf); lia.
    + split; [apply (slot_home lg dsz Hwf); lia|]. intros E. apply (lw_distinct _ _ Hwf) in E; lia.
Qed.

Lemma fwp_write_log order s :
  quiet (k_fs s) order -> fs_log (k_fs s) = lg -> log_room (k_fs s) ->
  fwp cur pid write_log s (fun _ f' => exists order',
    wrote_all (k_fs s) f' order' (log_writes lg (content (k_fs s)))).
Proof.
  intros Hq Hl Hroom. unfold write_log. apply fwp_gets_bind. unfold log_at. rewrite Hl.
  pose proof (lw_n _ _ Hwf). eapply (fwp_copy_loop cur pid lg home slot slot home write_log_loop); [done| |exact Hq|done|].
  - intros. eapply fwp_write_log_step; eauto.
  - split; intros; rewrite ?Z2Nat.id in * by lia.
    + apply log_room_slot; [done|lia].
    + apply log_room_home; [done|lia].
    + apply (slot_home lg dsz Hwf); lia.
    + apply not_eq_sym, (slot_home lg dsz Hwf); lia.
    + split; [unfold slot, LogCrash.slot; lia|apply not_eq_sym, (slot_home lg dsz Hwf); lia].
Qed.
End geometry.

(** ** commit *)

(** What [commit] writes to the disk, in order. *)
Definition commit_writes (lg : log) (C : Z -> mem) (h1 : mem) (g : Z -> mem) (h0 : mem) : list (Z * mem) :=
  (log_writes lg C ++ [(lg_start lg, put_head lg h1)]) ++
  (install_writes lg g ++ [(lg_start lg, put_head (log_n 0 lg) h0)]).

Record commit_done (f f' : fsst) (order : list nat) (h1 : mem) (g : Z -> mem) (h0 : mem) : Prop := mkCommitDone {
  cd_quiet : quiet f' order;
  cd_disk : fs_disk f' = puts (commit_writes (fs_log f) (content f) h1 g h0) (fs_disk f);
  cd_g : forall i, 0 <= i < lg_n (fs_log f) -> g (slot (fs_log f) i) = content f (home (fs_log f) i);
  cd_log : fs_log f' = log_n 0 (fs_log f);
  cd_sb : fs_sb f' = fs_sb f;
  cd_inode : fs_inode f' = fs_inode f;
  cd_content : forall b, content f' b = apply_writes (commit_writes (fs_log f) (content f) h1 g h0) (content f) b;
  cd_dirty : forall b, dirty_block f' b = false
}.

Lemma fwp_commit order s :
  let f := k_fs s in
  quiet f order -> log_wf (fs_log f) (d_size (fs_disk f)) -> 0 < lg_n (fs_log f) -> 0 < free_bufs f ->
  (forall b, dirty_block f b = true <-> logged (fs_log f) b) ->
  fwp cur pid commit s (fun _ f' => exists order' h1 g h0, commit_done f f' order' h1 g h0).
Proof.
  intros f Hq Hwf Hn Hfree Hdirty. set (lg := fs_log f) in *. set (dsz := d_size (fs_disk f)) in *.
  assert (Hstart : lg_start lg < dsz).
  { pose proof (lw_end _ _ Hwf). pose proof (lw_fits _ _ Hwf). lia. }
  assert (Hroom : log_room lg dsz f).
  { split; [done|]. split; [done|]. intros i Hi. left. apply Hdirty. by exists i. }
  unfold commit. apply fwp_gets_bind. change (log_at s) with lg. rewrite (proj2 (Z.ltb_lt _ _)) by done. simpl when.
  apply fwp_bind. eapply fwp_mono; [|apply (fwp_write_log lg dsz Hwf order); [exact Hq|done|exact Hroom]].
  intros [] f1 (o1 & W1) s1 <- _.
  assert (Hd1 : forall x, dirty_block (k_fs s1) x = dirty_block f x).
  { intros x. rewrite (wa_dirty _ _ _ _ W1). fold f. destruct (dirty_block f x) eqn:E; [|done]. simpl.
    apply bool_decide_true. apply Hdirty in E as (i & Hi & <-). apply (log_writes_home lg dsz Hwf). by apply (lw_home _ _ Hwf). }
  assert (L1 : fs_log (k_fs s1) = lg) by apply (sm_log _ _ (wa_meta _ _ _ _ W1)).
  apply fwp_bind. eapply fwp_mono; [|apply (fwp_write_head o1)].
  2: apply W1. 2: by rewrite L1; apply Hwf.
  2: { rewrite L1. split; [by rewrite (wa_disk _ _ _ _ W1), puts_size|]. right.
       pose proof (wa_free _ _ _ _ W1). unfold f in Hfree. lia. }
  intros [] f2 (o2 & W2) s2 <- _. rewrite L1 in W2. set (h1 := content (k_fs s1) (lg_start lg)) in *.
  assert (L2 : fs_log (k_fs s2) = lg) by (rewrite <- L1; apply (sm_log _ _ (wa_meta _ _ _ _ W2))).
  assert (W12 := wrote_all_trans _ _ _ _ _ _ _ W1 W2).
  assert (Hroom2 : log_room lg dsz (k_fs s2)).
  { split; [by rewrite (wa_disk _ _ _ _ W12), puts_size|]. pose proof (wa_free _ _ _ _ W12) as Hf. unfold f in Hfree.
    split; [lia|]. intros i Hi. left. rewrite (wa_dirty _ _ _ _ W2), Hd1, (proj2 (Hdirty (LogCrash.home lg i))) by (by exists i).
    simpl. apply bool_decide_true. change ([(lg_start lg, put_head lg h1)].*1) with [lg_start lg].
    rewrite list_elem_of_singleton. intros E. apply (lw_home _ _ Hwf i Hi). change (in_log lg (LogCrash.home lg i)). rewrite E.
    apply (start_in_log lg dsz Hwf). }
  apply fwp_bind. eapply fwp_mono; [|apply (fwp_install_trans lg dsz Hwf o2); [apply W2|done|exact Hroom2]].
  intros [] f3 (o3 & W3) s3 <- _. set (g := content (k_fs s2)) in *.
  assert (L3 : fs_log (k_fs s3) = lg) by (rewrite <- L2; apply (sm_log _ _ (wa_meta _ _ _ _ W3))).
  apply fwp_bind. eapply (fwp_modify cur pid (fun f => with_log (log_n 0 (fs_log f)) f)); [done|]. intros s4 E4 _.
  rewrite L3 in E4. apply (eq_sym) in E4.
  apply fwp_mono with (Q := fun _ f' => exists o5, wrote_all (k_fs s4) f' o5
    [(lg_start (fs_log (k_fs s4)), put_head (fs_log (k_fs s4)) (content (k_fs s4) (lg_start (fs_log (k_fs s4)))))]).
  2: { apply (fwp_write_head o3); rewrite <- E4.
       - apply quiet_with_log, W3.
       - apply Hwf.
       - split; simpl; [by rewrite (wa_disk _ _ _ _ W3), puts_size, (wa_disk _ _ _ _ W12), puts_size|]. right.
         change (free_bufs (with_log (log_n 0 lg) (k_fs s3))) with (free_bufs (k_fs s3)).
         pose proof (wa_free _ _ _ _ W3). pose proof (wa_free _ _ _ _ W12). unfold f in Hfree. lia. }
  intros [] f5 (o5 & W5). rewrite <- E4 in W5. simpl in W5.
  exists o5, h1, g, (content (k_fs s3) (lg_start lg)).
  set (h0 := content (with_log _ _) _) in W5. change (content (k_fs s3) (lg_start lg)) with h0.
  assert (W123 := wrote_all_trans _ _ _ _ _ _ _ W12 W3). destruct W5 as [Q5 D5 M5 C5 Y5 _]. split.
  - exact Q5.
  - rewrite D5. simpl fs_disk. rewrite (wa_disk _ _ _ _ W123), <- puts_app. unfold commit_writes. fold lg. by rewrite app_assoc.
  - intros i Hi. unfold g. rewrite (wa_content _ _ _ _ W12), apply_app. simpl. fold lg in Hi |- *.
    rewrite fn_insert_ne by (unfold LogCrash.slot; lia). by rewrite log_writes_slot.
  - apply (sm_log _ _ M5).
  - rewrite (sm_sb _ _ M5). apply (sm_sb _ _ (wa_meta _ _ _ _ W123)).
  - rewrite (sm_inode _ _ M5). apply (sm_inode _ _ (wa_meta _ _ _ _ W123)).
  - intros b. rewrite C5. unfold commit_writes. fold lg. rewrite app_assoc, apply_app.
    apply apply_ext. intros _. apply (wa_content _ _ _ _ W123).
  - intros b. rewrite Y5. change (dirty_block (with_log (log_n 0 lg) (k_fs s3)) b) with (dirty_block (k_fs s3) b).
    rewrite (wa_dirty _ _ _ _ W123). fold f. destruct (dirty_block f b) eqn:E; [|done]. apply Hdirty in E.
    rewrite bool_decide_false; [done|]. intros Hin. apply Hin. rewrite fmap_app. apply elem_of_app. right.
    by apply (install_writes_blocks lg dsz Hwf).
Qed.
(** ** Recovery *)

(** A log as the header block on the disk describes it. *)
Definition disk_log (lg : log) (h : mem) : log :=
  mkLog (lg_start lg) (lg_size lg) (lg_outstanding lg) (lg_committing lg) (lg_dev lg) (hd_n h) (hd_block h).

(** [lg'] agrees with [lg] as far as the log goes. *)
Record same_log (lg lg' : log) : Prop := mkSameLog {
  sl_start : lg_start lg' = lg_start lg;
  sl_size : lg_size lg' = lg_size lg;
  sl_dev : lg_dev lg' = lg_dev lg;
  sl_n : lg_n lg' = lg_n lg;
  sl_block : forall i, 0 <= i < lg_n lg -> lg_block lg' i = lg_block lg i
}.

Lemma same_log_wf lg lg' dsz : same_log lg lg' -> log_wf lg dsz -> log_wf lg' dsz.
Proof.
  intros [E1 E2 E3 E4 E5] []. split; unfold in_log in *; rewrite ?E1, ?E2, ?E3, ?E4; try done.
  - intros i Hi. rewrite E5 by done. auto.
  - intros i Hi. rewrite E5 by done. auto.
  - intros i j Hi Hj. rewrite !E5 by done. auto.
Qed.

Lemma read_blocks_run lh todo : forall i s,
  0 <= i -> i + Z.of_nat todo <= LOGSIZE ->
  exists l', read_blocks todo i lh s = Done tt (set_fs (with_log l' (k_fs s)) s) /\
    lg_start l' = lg_start (log_at s) /\ lg_size l' = lg_size (log_at s) /\ lg_dev l' = lg_dev (log_at s) /\
    lg_n l' = lg_n (log_at s) /\
    forall j, lg_block l' j = if decide (i <= j < i + Z.of_nat todo) then hd_block lh j else lg_block (log_at s) j.
Proof.
  induction todo as [|todo IH]; intros i s Hi Hle; cbn [read_blocks].
  - exists (log_at s). split_and!; try done; [by destruct s as [? ? ? ? ? ? ? ? [] ?]|].
    intros j. rewrite decide_False by lia. done.
  - rewrite (proj2 (Z.ltb_lt i LOGSIZE)) by lia. unfold upd_log, mbind, M_bind, modify. simpl obind.
    destruct (IH (i + 1) (set_fs (with_log (log_block i (hd_block lh i) (log_at s)) (k_fs s)) s)) as (l' & -> & H1 & H2 & H3 & H4 & H5);
      [lia|lia|]. exists l'. split_and!; try done.
    intros j. rewrite H5. simpl. destruct (decide (j = i)) as [->|Hj].
    + rewrite decide_False by lia. rewrite fn_insert_eq, decide_True by lia. done.
    + rewrite fn_insert_ne by done. destruct (decide (i + 1 <= j < i + 1 + Z.of_nat todo)).
      * by rewrite decide_True by lia.
      * by rewrite decide_False by lia.
Qed.

(** [f'] is [f] with nothing but the log read. *)
Record read_log (f f' : fsst) (order : list nat) : Prop := mkReadLog {
  rl_quiet : quiet f' order;
  rl_log : same_log (disk_log (fs_log f) (content f (lg_start (fs_log f)))) (fs_log f');
  rl_disk : fs_disk f' = fs_disk f;
  rl_sb : fs_sb f' = fs_sb f;
  rl_inode : fs_inode f' = fs_inode f;
  rl_content : forall b, content f' b = content f b;
  rl_dirty : forall b, dirty_block f' b = dirty_block f b;
  rl_free : free_bufs f' = free_bufs f
}.

Lemma bcache_ok_with_log l f order : bcache_ok f order -> bcache_ok (with_log l f) order.
Proof. intros [H1 H2 H3]. by split. Qed.

Lemma held_with_log pid0 l f i : held pid0 f i -> held pid0 (with_log l f) i.
Proof. intros []. by split. Qed.

Lemma fwp_read_head order s :
  let lg := fs_log (k_fs s) in
  quiet (k_fs s) order -> lg_dev lg = 1 -> readable (k_fs s) 0 (lg_start lg) ->
  0 <= hd_n (content (k_fs s) (lg_start lg)) <= LOGSIZE ->
  fwp cur pid read_head s (fun _ f' => exists order', read_log (k_fs s) f' order').
Proof.
  intros lg Hq Hdev Hr Hn. pose proof (quiet_can_read _ _ _ Hq Hr) as Hcan. unfold read_head. apply fwp_gets_bind.
  change (log_at s) with lg. rewrite Hdev. set (b := lg_start lg) in *.
  apply fwp_bind. apply (fwp_bread cur pid b order); [apply Hq|done|]. intros f1 i R1 s1 E1 _. subst f1.
  pose proof (rb_upd _ _ _ _ _ _ R1) as U1. pose proof (read_buf_held _ _ _ _ _ _ R1) as H1.
  pose proof (read_buf_coherent _ _ _ _ _ _ (qu_ok _ _ Hq) Hcan R1) as Hco.
  unfold buf_bytes. apply fwp_gets_bind. unfold buf_at. rewrite (rb_data _ _ _ _ _ _ R1). set (h := content (k_fs s) b) in *.
  apply fwp_bind. eapply (fwp_modify cur pid (fun f => with_log (log_n (hd_n h) (fs_log f)) f)); [done|]. intros s2 E2 _.
  apply fwp_bind. apply fwp_intro. intros Hy.
  destruct (read_blocks_run h (Z.to_nat (hd_n h)) 0 s2) as (l' & Hrun & L1 & L2 & L3 & L4 & L5); [lia|lia|].
  unfold wp. rewrite Hrun. exists (k_core s2), (k_ptab s2), (with_log l' (k_fs s2)).
  split_and!; [apply Hy|done|by destruct s2|]. intros s3 E3 _. rewrite E2 in E3. simpl in E3.
  apply (fwp_brelse cur pid i order); rewrite E3.
  { do 2 apply bcache_ok_with_log. apply R1. }
  { do 2 apply held_with_log. exact H1. }
  { exact Hco. }
  intros f R. destruct (re_ok _ _ _ _ R) as (o1 & o2 & _ & Ho). exists (i :: o1 ++ o2). split.
  - split; [exact Ho|]. intros k Hk. destruct (decide (k = i)) as [->|Hki]; [by rewrite (bl_refcnt _ _ (re_at _ _ _ _ R))|].
    rewrite (bl_refcnt _ _ (re_other _ _ _ _ R k Hki)). simpl. rewrite (bu_other _ _ _ _ U1 k Hki). by apply Hq.
  - rewrite (re_log _ _ _ _ R). simpl. unfold log_at in *. rewrite E2 in L1, L2, L3, L4, L5. simpl in *.
    rewrite (bu_log _ _ _ _ U1) in *. split; try done. simpl. intros j Hj. change (0 <= j < hd_n h) in Hj. rewrite L5. by rewrite decide_True by lia.
  - rewrite (re_disk _ _ _ _ R). apply U1.
  - rewrite (re_sb _ _ _ _ R). apply U1.
  - rewrite (re_inode _ _ _ _ R). apply U1.
  - intros x. rewrite (re_content _ _ _ _ R). apply (rb_content _ _ _ _ _ _ R1).
  - intros x. rewrite (re_dirty _ _ _ _ R). apply (rb_dirty _ _ _ _ _ _ R1).
  - rewrite (re_free _ _ _ _ R). pose proof (rb_free _ _ _ _ _ _ R1) as E. simpl.
    change (free_bufs (with_log l' (with_log (log_n (hd_n h) (fs_log (k_fs s1))) (k_fs s1)))) with (free_bufs (k_fs s1)).
    rewrite E. destruct (dirty (fs_buf (k_fs s1) i)); lia.
Qed.

Lemma install_writes_same lg lg' g :
  0 <= lg_n lg -> same_log lg lg' -> install_writes lg' g = install_writes lg g.
Proof.
  intros Hn [E1 E2 E3 E4 E5]. unfold install_writes, copies. rewrite E4. apply list_fmap_ext. intros k i Hi.
  apply list_elem_of_lookup_2, elem_of_seqZ in Hi. rewrite Z2Nat.id in Hi by lia. unfold home, slot. rewrite E5 by lia. by rewrite E1.
Qed.

(** The machine at boot: the cache is empty of changes, the log is where the
    superblock says and described by its header block. *)
Record booted (order : list nat) (f : fsst) : Prop := mkBooted {
  bt_quiet : quiet f order;
  bt_clean : forall b, dirty_block f b = false;
  bt_free : 1 < free_bufs f;
  bt_wf : log_wf (disk_log (fs_log f) (d_blocks (fs_disk f) (lg_start (fs_log f)))) (d_size (fs_disk f))
}.

Record recover_done (f f' : fsst) (m0 : mem) : Prop := mkRecoverDone {
  rd_disk : fs_disk f' = puts (install_writes (disk_log (fs_log f) (d_blocks (fs_disk f) (lg_start (fs_log f))))
    (d_blocks (fs_disk f)) ++ [(lg_start (fs_log f), m0)]) (fs_disk f);
  rd_head : hd_n m0 = 0;
  rd_n : lg_n (fs_log f') = 0;
  rd_clean : forall b, dirty_block f' b = false;
  rd_quiet : exists order', quiet f' order'
}.

Lemma fwp_recover order s :
  booted order (k_fs s) ->
  fwp cur pid recover_from_log s (fun _ f' => exists m0, recover_done (k_fs s) f' m0).
Proof.
  intros [Hq Hcl Hfree Hwf]. set (f := k_fs s) in *. set (b := lg_start (fs_log f)) in *.
  assert (HC : forall x, content f x = d_blocks (fs_disk f) x).
  { intros x. apply (clean_content f order); [apply Hq|intros i Hi _; by apply Hq|done]. }
  set (lgd := disk_log (fs_log f) _) in *. set (dsz := d_size (fs_disk f)) in *.
  assert (Hb : b < dsz). { pose proof (lw_end _ _ Hwf). pose proof (lw_fits _ _ Hwf). pose proof (lw_n _ _ Hwf). simpl in *. unfold b. lia. }
  assert (Hh : content f b = d_blocks (fs_disk f) b) by apply HC.
  unfold recover_from_log. apply fwp_bind.
  eapply fwp_mono; [|apply (fwp_read_head order); [exact Hq|apply (lw_dev _ _ Hwf)|split; [exact Hb|right; unfold f in Hfree; lia]|]].
  2: { fold f. fold b. rewrite Hh. apply (lw_n _ _ Hwf). }
  intros [] f1 (o1 & R1) s1 <- _. fold f in R1.
  pose proof (rl_log _ _ _ R1) as SL. fold b in SL. rewrite Hh in SL. fold lgd in SL.
  pose proof (same_log_wf _ _ _ SL Hwf) as Hwf1. set (lg1 := fs_log (k_fs s1)) in *.
  assert (Hroom : log_room lg1 dsz (k_fs s1)).
  { split; [by rewrite (rl_disk _ _ _ R1)|]. rewrite (rl_free _ _ _ R1). split; [lia|]. intros i _. right. lia. }
  apply fwp_bind. eapply fwp_mono; [|apply (fwp_install_trans lg1 dsz Hwf1 o1); [apply R1|done|exact Hroom]].
  intros [] f2 (o2 & W2) s2 <- _.
  assert (EW : install_writes lg1 (content (k_fs s1)) = install_writes lgd (d_blocks (fs_disk f))).
  { rewrite (install_writes_same lgd lg1) by (apply Hwf || done). unfold install_writes. apply copies_ext. intros i _.
    rewrite (rl_content _ _ _ R1). apply HC. }
  rewrite EW in W2.
  apply fwp_bind. eapply (fwp_modify cur pid (fun f => with_log (log_n 0 (fs_log f)) f)); [done|]. intros s3 E3 _.
  assert (L2 : fs_log (k_fs s2) = lg1) by apply (sm_log _ _ (wa_meta _ _ _ _ W2)). rewrite L2 in E3.
  assert (Hst : lg_start lg1 = b) by apply SL.
  eapply fwp_mono; [|apply (fwp_write_head o2); rewrite E3].
  2: apply quiet_with_log, W2. 2: apply Hwf1.
  2: { simpl. rewrite Hst. split; simpl; [by rewrite (wa_disk _ _ _ _ W2), puts_size, (rl_disk _ _ _ R1)|]. right.
       change (free_bufs (with_log (log_n 0 lg1) (k_fs s2))) with (free_bufs (k_fs s2)).
       pose proof (wa_free _ _ _ _ W2). rewrite (rl_free _ _ _ R1) in *. lia. }
  intros [] f4 (o4 & W4). rewrite E3 in W4. simpl in W4. rewrite Hst in W4. set (m0 := put_head _ _) in W4. exists m0.
  destruct W4 as [Q4 D4 M4 C4 Y4 _]. split.
  - fold f. fold b. fold lgd. rewrite D4. simpl fs_disk. by rewrite (wa_disk _ _ _ _ W2), (rl_disk _ _ _ R1), puts_app.
  - unfold m0. destruct (put_head_spec (log_n 0 lg1) (content (with_log (log_n 0 lg1) (k_fs s2)) b)) as [-> _]; [simpl; unfold LOGSIZE, MAXOPBLOCKS; lia|done].
  - by rewrite (sm_log _ _ M4).
  - intros x. rewrite Y4. change (dirty_block (with_log (log_n 0 lg1) (k_fs s2)) x) with (dirty_block (k_fs s2) x).
    rewrite (wa_dirty _ _ _ _ W2), (rl_dirty _ _ _ R1). fold f. by rewrite Hcl.
  - by exists o4.
Qed.
End runs.

(** The writes of a recovery leave, at every point, a disk that recovers to the
    same blocks. *)
Lemma recover_writes_safe lg dsz D m0 k b :
  log_wf (disk_log lg (D (lg_start lg))) dsz -> hd_n m0 = 0 -> ~ in_log lg b ->
  recovered (lg_start lg) (apply_writes
    (take k (install_writes (disk_log lg (D (lg_start lg))) D ++ [(lg_start lg, m0)])) D) b = recovered (lg_start lg) D b.
Proof.
  intros Hwf Hm Hb. set (lgd := disk_log lg _) in *. set (W := install_writes lgd D) in *.
  change (recovered (lg_start lgd) (apply_writes (take k (W ++ [(lg_start lgd, m0)])) D) b = recovered (lg_start lgd) D b).
  pose proof (committed_self lgd dsz Hwf D eq_refl ltac:(done)) as Hc. change (~ in_log lgd b) in Hb.
  destruct (decide (k <= length W)%nat) as [Hk|Hk].
  - rewrite take_app_le by done. apply (committed_recovered lgd dsz Hwf); [|done]. by apply (committed_install lgd dsz Hwf).
  - rewrite take_ge by (rewrite length_app; simpl; lia).
    apply (committed_done lgd dsz Hwf _ D D m0 b Hc); [|done|done]. intros i Hi. by apply Hc.
Qed.

(** C3: Recovery is repeatable.  [recover_from_log] at boot leaves every block outside
    the log as the log's replay says and the log empty.  A crash after any number of
    its writes leaves a disk whose log replays to the same blocks, so that
    recovery may be interrupted and started again any number of times. *)
Theorem recovery_repeatable (cur : nat) (order : list nat) (s : kstate) :
  let lg := log_at s in let D := d_blocks (fs_disk (k_fs s)) in
  on_cpu [] (Some cur) (k_core s) -> booted order (k_fs s) ->
  wp recover_from_log s (fun _ s' => exists W,
    d_writes (fs_disk (k_fs s')) = d_writes (fs_disk (k_fs s)) ++ W /\
    lg_n (log_at s') = 0 /\ hd_n (d_blocks (fs_disk (k_fs s')) (lg_start lg)) = 0 /\
    (forall b, ~ in_log lg b -> d_blocks (fs_disk (k_fs s')) b = recovered (lg_start lg) D b) /\
    forall k b, ~ in_log lg b ->
      recovered (lg_start lg) (apply_writes (take k W) D) b = recovered (lg_start lg) D b).
Proof.
  intros lg D Hc Hb. pose proof (fwp_recover cur (p_pid (proc_at s cur)) order s Hb ltac:(by split)) as H.
  eapply wp_mono; [|exact H]. intros [] s' (_ & _ & m0 & [R1 R2 R3 _ _]). destruct Hb as [_ _ _ Hwf].
  set (W := _ ++ _) in R1. exists W. rewrite R1. split_and!; [apply puts_writes|done| | |].
  - rewrite puts_blocks. unfold W. rewrite apply_app. simpl. by rewrite fn_insert_eq.
  - intros b Hb. rewrite puts_blocks. set (lgd := disk_log _ _) in *.
    pose proof (committed_self lgd _ Hwf D eq_refl ltac:(done)) as Hcm.
    apply (committed_done lgd _ Hwf _ D D m0 b Hcm); [|done|done]. intros i Hi. by apply Hcm.
  - intros k b Hb. by apply (recover_writes_safe lg (d_size (fs_disk (k_fs s))) D m0).
Qed.

(** ** A crash during commit *)

(** The disk after any number of the writes of [commit]. *)
Lemma commit_writes_safe lg dsz C D h1 g h0 k :
  log_wf lg dsz -> dsz <= 2147483648 -> hd_n (D (lg_start lg)) = 0 ->
  (forall b, ~ in_log lg b -> ~ logged lg b -> D b = C b) ->
  (forall i, 0 <= i < lg_n lg -> g (slot lg i) = C (home lg i)) ->
  let D' := apply_writes (take k (commit_writes lg C h1 g h0)) D in
  (hd_n (D' (lg_start lg)) = 0 /\ forall b, ~ in_log lg b -> D' b = D b) \/
  committed lg C D' \/
  (hd_n (D' (lg_start lg)) = 0 /\ forall b, ~ in_log lg b -> D' b = C b).
Proof.
  intros Hwf Hsz Hh HD Hg D'. unfold commit_writes in D'. set (W1 := log_writes lg C) in *.
  set (W2 := W1 ++ _) in *. set (W3 := install_writes lg g) in *.
  pose proof (committed_after lg dsz Hwf Hsz C D h1 HD) as Hc. fold W1 in Hc. fold W2 in Hc.
  destruct (decide (k <= length W2)%nat) as [H2|H2].
  - subst D'. rewrite take_app_le by done. destruct (decide (k <= length W1)%nat) as [H1|H1].
    + left. unfold W2. rewrite take_app_le by done. split.
      * rewrite apply_notin; [done|]. apply notin_take, (log_writes_start lg dsz Hwf).
      * intros b Hb. apply apply_notin, notin_take. by apply (log_writes_home lg dsz Hwf).
    + right. left. rewrite take_ge; [done|]. unfold W2. rewrite length_app. simpl. lia.
  - right. assert (ED : D' = apply_writes (take (k - length W2) (W3 ++ [(lg_start lg, put_head (log_n 0 lg) h0)])) (apply_writes W2 D)).
    { unfold D'. rewrite take_app_ge by lia. by rewrite apply_app. }
    rewrite ED. clear ED D'. set (k' := (k - length W2)%nat). destruct (decide (k' <= length W3)%nat) as [H3|H3].
    + left. rewrite take_app_le by done. by apply (committed_install lg dsz Hwf).
    + right. rewrite take_ge by (rewrite length_app; simpl; lia).
      destruct (put_head_spec (log_n 0 lg) h0) as [E0 _]; [simpl; unfold LOGSIZE, MAXOPBLOCKS; lia|]. split.
      * rewrite apply_app. simpl. by rewrite fn_insert_eq.
      * intros b Hb. by apply (committed_done lg dsz Hwf C (apply_writes W2 D) g _ b Hc).
Qed.

(** The log area as the header at [start] describes it is well formed wherever a
    crash falls. *)
Lemma crash_log_wf lg dsz C D lg0 :
  log_wf lg dsz -> hd_n (D (lg_start lg)) = 0 \/ committed lg C D ->
  lg_start lg0 = lg_start lg -> lg_size lg0 = lg_size lg -> lg_dev lg0 = lg_dev lg ->
  log_wf (disk_log lg0 (D (lg_start lg))) dsz.
Proof.
  intros Hwf Hor E1 E2 E3. destruct Hor as [H|H].
  - apply (same_log_wf (log_n 0 lg)).
    + split; simpl; try done. lia.
    + destruct Hwf as [W1 W2 W3 W4 W5 W6 W7 W8]. split; simpl; try done; try lia; unfold LOGSIZE, MAXOPBLOCKS; lia.
  - apply (same_log_wf lg); [|done]. split; simpl; try done; apply H.
Qed.

(** The machine restarted on the disk blocks [D], with the log of [lg]. *)
Record restarted (lg : log) (D : Z -> mem) (dsz : Z) (cur : nat) (order : list nat) (s : kstate) : Prop := mkRestarted {
  rs_cpu : on_cpu [] (Some cur) (k_core s);
  rs_quiet : quiet (k_fs s) order;
  rs_clean : forall b, dirty_block (k_fs s) b = false;
  rs_free : 1 < free_bufs (k_fs s);
  rs_blocks : d_blocks (fs_disk (k_fs s)) = D;
  rs_dsz : d_size (fs_disk (k_fs s)) = dsz;
  rs_start : lg_start (log_at s) = lg_start lg;
  rs_size : lg_size (log_at s) = lg_size lg;
  rs_dev : lg_dev (log_at s) = lg_dev lg
}.

Lemma restarted_recovers lg D dsz cur order s :
  restarted lg D dsz cur order s -> log_wf (disk_log (log_at s) (D (lg_start lg))) dsz ->
  wp recover_from_log s (fun _ s' => forall b, ~ in_log lg b ->
    d_blocks (fs_disk (k_fs s')) b = recovered (lg_start lg) D b).
Proof.
  intros [Hc Hq Hcl Hf Hb Hd E1 E2 E3] Hwf. unfold log_at in *.
  assert (Hbt : booted order (k_fs s)) by (split; try done; by rewrite Hb, Hd, E1).
  pose proof (fwp_recover cur (p_pid (proc_at s cur)) order s Hbt ltac:(by split)) as H.
  eapply wp_mono; [|exact H]. intros [] s' (_ & _ & m0 & [R1 R2 R3 _ _]) b Hbl.
  rewrite R1, puts_blocks, Hb. rewrite <- E1 in Hwf |- *. set (lgd := disk_log _ _) in *.
  pose proof (committed_self lgd _ Hwf D eq_refl ltac:(done)) as Hcm.
  assert (Hbl' : ~ in_log lgd b) by (unfold in_log in *; simpl; by rewrite E1, E2).
  apply (committed_done lgd _ Hwf _ D D m0 b Hcm); [|done|done]. intros i Hi. by apply Hcm.
Qed.

(** C2: Transactions survive a crash.  [commit] of a transaction writes its blocks to
    their homes and erases the log.  If the machine stops after any number of the
    disk writes of [commit] and is restarted, recovery leaves the blocks outside the
    log either all as they were before the transaction or all as the transaction
    made them: never a mixture. *)
Theorem commit_survives_crash (cur : nat) (order : list nat) (s : kstate) :
  let f := k_fs s in let lg := log_at s in let D := d_blocks (fs_disk f) in
  on_cpu [] (Some cur) (k_core s) -> quiet f order ->
  log_wf lg (d_size (fs_disk f)) -> d_size (fs_disk f) <= 2147483648 ->
  hd_n (D (lg_start lg)) = 0 -> 0 < lg_n lg -> 0 < free_bufs f ->
  (forall b, dirty_block f b = true <-> logged lg b) ->
  wp commit s (fun _ s' => exists W,
    d_writes (fs_disk (k_fs s')) = d_writes (fs_disk f) ++ W /\
    lg_n (log_at s') = 0 /\ (forall b, dirty_block (k_fs s') b = false) /\
    (forall b, ~ in_log lg b -> d_blocks (fs_disk (k_fs s')) b = content f b) /\
    forall k cur0 order0 s0, restarted lg (apply_writes (take k W) D) (d_size (fs_disk f)) cur0 order0 s0 ->
      wp recover_from_log s0 (fun _ s1 =>
        (forall b, ~ in_log lg b -> d_blocks (fs_disk (k_fs s1)) b = D b) \/
        (forall b, ~ in_log lg b -> d_blocks (fs_disk (k_fs s1)) b = content f b))).
Proof.
  intros f lg D Hc Hq Hwf Hsz Hh Hn Hfree Hdirty.
  pose proof (fwp_commit cur (p_pid (proc_at s cur)) order s Hq Hwf Hn Hfree Hdirty ltac:(by split)) as H.
  eapply wp_mono; [|exact H]. intros [] s' (_ & _ & order' & h1 & g & h0 & Hd). fold f in Hd.
  change (fs_log f) with lg in *. set (W := commit_writes lg (content f) h1 g h0).
  assert (HD : forall b, ~ in_log lg b -> ~ logged lg b -> D b = content f b).
  { intros b _ Hb. symmetry. apply (clean_content f order); [apply Hq|intros i Hi _; by apply Hq|].
    destruct (dirty_block f b) eqn:E; [|done]. by apply Hdirty in E. }
  pose proof (cd_g _ _ _ _ _ _ Hd) as Hg. exists W. rewrite (cd_disk _ _ _ _ _ _ Hd).
  split_and!; [apply puts_writes|unfold log_at; by rewrite (cd_log _ _ _ _ _ _ Hd)|apply Hd| |].
  - intros b Hb. rewrite puts_blocks. change (fs_log f) with lg. fold W. unfold W, commit_writes. rewrite apply_app.
    apply (committed_done lg _ Hwf (content f)); [by apply (committed_after lg _ Hwf Hsz)|exact Hg| |done].
    apply (put_head_spec (log_n 0 lg) h0). simpl. unfold LOGSIZE, MAXOPBLOCKS. lia.
  - intros k cur0 order0 s0 Hr. set (Dk := apply_writes (take k W) D) in *.
    assert (Hcase := commit_writes_safe lg _ (content f) D h1 g h0 k Hwf Hsz Hh HD Hg). fold W in Hcase. cbv zeta in Hcase. fold Dk in Hcase.
    assert (Hwf0 : log_wf (disk_log (log_at s0) (Dk (lg_start lg))) (d_size (fs_disk f))).
    { apply (crash_log_wf lg _ (content f)); [done| |apply Hr..]. destruct Hcase as [[? _]|[?|[? _]]]; auto. }
    eapply wp_mono; [|exact (restarted_recovers _ _ _ _ _ _ Hr Hwf0)]. intros [] s1 Hs1.
    destruct Hcase as [[H0 HB]|[HC|[H0 HB]]]; [left|right|right]; intros b Hb; rewrite Hs1 by done.
    + rewrite recovered_empty by done. by apply HB.
    + by apply (committed_recovered lg _ Hwf).
    + rewrite recovered_empty by done. by apply HB.
Qed.

(** ** log_write *)

Lemma absorb_spec lg b todo : forall i,
  let r := absorb todo i lg b in
  i <= r <= i + Z.of_nat todo /\ (forall j, i <= j < r -> lg_block lg j <> b) /\
  (r < i + Z.of_nat todo -> lg_block lg r = b).
Proof.
  induction todo as [|todo IH]; intros i; cbn [absorb]; [split_and!; lia|].
  destruct (Z.eqb_spec (lg_block lg i) b) as [E|E]; [split_and!; try lia; done|].
  destruct (IH (i + 1)) as (H1 & H2 & H3). split_and!; [lia|lia| |].
  - intros j Hj. destruct (Z.eq_dec j i) as [->|]; [done|]. apply H2. lia.
  - intros Hr. apply H3. lia.
Qed.

(** The log once [b] is recorded. *)
Definition log_add (b : Z) (lg : log) : log :=
  let i := absorb (Z.to_nat (lg_n lg)) 0 lg b in
  let lg' := log_block i b lg in
  if i =? lg_n lg then log_n (lg_n lg + 1) lg' else lg'.

Lemma log_add_wf lg dsz b :
  log_wf lg dsz -> lg_n lg < LOGSIZE -> lg_n lg < lg_size lg - 1 -> 0 <= b < dsz -> ~ in_log lg b ->
  log_wf (log_add b lg) dsz /\ (forall x, logged (log_add b lg) x <-> logged lg x \/ x = b) /\
  (lg_n (log_add b lg) = lg_n lg + 1 <-> ~ logged lg b).
Proof.
  intros Hwf Hn1 Hn2 Hb Hl. pose proof (lw_n _ _ Hwf) as Hn0.
  destruct (absorb_spec lg b (Z.to_nat (lg_n lg)) 0) as (A1 & A2 & A3). rewrite Z.add_0_l, Z2Nat.id in * by lia.
  unfold log_add. cbv zeta. set (i := absorb _ _ _ _) in *. destruct (Z.eqb_spec i (lg_n lg)) as [Ei|Ei].
  - assert (Hnl : ~ logged lg b) by (intros (j & Hj & E); apply (A2 j); [lia|done]).
    destruct Hwf as [W1 W2 W3 W4 W5 W6 W7 W8].
    assert (Hblk : forall j, 0 <= j < lg_n lg + 1 -> j <> i -> <[i := b]> (lg_block lg) j = lg_block lg j /\ 0 <= j < lg_n lg).
    { intros j Hj Hji. rewrite fn_insert_ne by done. split; [done|lia]. }
    split_and!; [split; simpl; unfold in_log in *; simpl; try done; try lia| |].
    + intros j Hj. destruct (Z.eq_dec j i) as [->|Hji]; [by rewrite fn_insert_eq|]. destruct (Hblk j Hj Hji) as [-> H]. auto.
    + intros j Hj. destruct (Z.eq_dec j i) as [->|Hji]; [by rewrite fn_insert_eq|]. destruct (Hblk j Hj Hji) as [-> H]. auto.
    + intros j k Hj Hk. destruct (Z.eq_dec j i) as [->|Hji], (Z.eq_dec k i) as [->|Hki]; try done;
        rewrite ?fn_insert_eq; [destruct (Hblk k Hk Hki) as [-> H]|destruct (Hblk j Hj Hji) as [-> H]|
        destruct (Hblk j Hj Hji) as [-> H], (Hblk k Hk Hki) as [-> H']; by apply W8]; intros E; destruct Hnl; by eexists.
    + intros x. unfold logged. simpl. split.
      * intros (j & Hj & E). destruct (Z.eq_dec j i) as [->|Hji]; [rewrite fn_insert_eq in E; by right|].
        destruct (Hblk j Hj Hji) as [E' H]. left. exists j. split; congruence.
      * intros [(j & Hj & E)| ->]; [exists j|exists i]; (split; [lia|]); [|by rewrite fn_insert_eq]. rewrite fn_insert_ne by lia. done.
    + simpl. tauto.
  - assert (Eb : lg_block lg i = b) by (apply A3; lia).
    assert (Hin : logged lg b) by (exists i; split; [lia|done]).
    assert (Hblk : forall j, <[i := b]> (lg_block lg) j = lg_block lg j).
    { intros j. destruct (Z.eq_dec j i) as [->|]; [by rewrite fn_insert_eq|by rewrite fn_insert_ne]. }
    split_and!.
    + apply (same_log_wf lg); [|done]. split; simpl; try done.
    + intros x. unfold logged. simpl. setoid_rewrite Hblk. split; [by left|]. intros [H| ->]; done.
    + simpl. split; [lia|done].
Qed.

Lemma dirty_upd_logged pid f order i f' :
  bcache_ok f order -> held pid f i ->
  buf_upd i (buf_flags (Z.lor (b_flags (fs_buf f i)) B_DIRTY) (fs_buf f i)) f f' ->
  bcache_ok f' order /\ held pid f' i /\ (forall b, content f' b = content f b) /\
  (forall b, dirty_block f' b = if b =? b_blockno (fs_buf f i) then true else dirty_block f b) /\
  free_bufs f' = free_bufs f.
Proof.
  intros Hok Hh Hu. set (x := fs_buf f i) in *. set (y := buf_flags _ x) in *. pose proof (bu_at _ _ _ _ Hu) as Hat.
  assert (Hi : (i < NBUF)%nat) by apply Hh. destruct (flags_or_dirty (b_flags x)) as [F1 F2].
  assert (Vy : valid y = true) by (unfold valid, y; simpl; rewrite F2; apply Hh).
  assert (Cy : forall b, caches 1 b y = (b =? b_blockno x)) by (intros b; exact (held_caches pid f i b Hh)).
  assert (Cx : forall b, caches 1 b x = (b =? b_blockno x)) by (intros b; exact (held_caches pid f i b Hh)).
  assert (Hok' : bcache_ok f' order).
  { apply (bcache_ok_upd f f' order i y Hok Hi Hu); try done.
    - destruct (bc_bufs _ _ Hok i Hi) as [B1 B2 B3 B4 B5]. split; try done.
      + intros _. apply Hh.
      + intros _ Hd. unfold dirty, y in Hd. simpl in Hd. congruence.
    - intros _ j Hj Hji. apply (caches_other f order); try done. apply Hh. }
  split_and!; [done|destruct Hh; by split; rewrite ?Hat| | |].
  - intros b. rewrite (content_upd f f' order i y b Hok Hok' Hi Hu). fold x. rewrite Cy, Cx, Vy.
    destruct (Z.eqb_spec b (b_blockno x)) as [->|]; [|done]. symmetry. exact (held_content pid f order i Hok Hh).
  - intros b. rewrite (dirty_block_upd f f' order i y b Hok Hok' Hi Hu). fold x. rewrite Cy, Cx.
    destruct (Z.eqb_spec b (b_blockno x)) as [->|]; done.
  - rewrite (free_bufs_upd f f' i y Hi Hu). fold x.
    rewrite (held_not_free pid f i Hh : recyclable x = false). unfold recyclable.
    rewrite (he_refcnt _ _ _ Hh : b_refcnt y = 1). simpl. lia.
Qed.

(** What [log_write] of a held buffer does. *)
Record log_wrote (pid : Z) (order : list nat) (f f' : fsst) (i : nat) : Prop := mkLogWrote {
  lo_ok : bcache_ok f' order;
  lo_held : held pid f' i;
  lo_at : fs_buf f' i = buf_flags (Z.lor (b_flags (fs_buf f i)) B_DIRTY) (fs_buf f i);
  lo_other : forall j, j <> i -> fs_buf f' j = fs_buf f j;
  lo_log : fs_log f' = log_add (b_blockno (fs_buf f i)) (fs_log f);
  lo_disk : fs_disk f' = fs_disk f;
  lo_sb : fs_sb f' = fs_sb f;
  lo_inode : fs_inode f' = fs_inode f;
  lo_content : forall b, content f' b = content f b;
  lo_dirty : forall b, dirty_block f' b = if b =? b_blockno (fs_buf f i) then true else dirty_block f b;
  lo_free : free_bufs f' = free_bufs f
}.

Lemma fwp_log_write cur pid i order s (Q : unit -> fsst -> Prop) :
  let lg := fs_log (k_fs s) in
  bcache_ok (k_fs s) order -> held pid (k_fs s) i ->
  lg_n lg < LOGSIZE -> lg_n lg < lg_size lg - 1 -> 1 <= lg_outstanding lg ->
  (forall f, log_wrote pid order (k_fs s) f i -> Q tt f) -> fwp cur pid (log_write i) s Q.
Proof.
  intros lg Hok Hh H1 H2 H3 HQ. apply fwp_intro. intros [Hc Hp]. unfold log_write, upd_log, upd_buf. wp1. change (log_at s) with lg.
  rewrite (proj2 (Z.leb_gt _ _)), (proj2 (Z.leb_gt _ _)), (proj2 (Z.ltb_ge _ _)) by lia. simpl orb. cbv iota.
  wpb. eapply wp_acquire; [exact Hc|by apply not_elem_of_nil|]. intros c1 C1. wp1. wp1.
  change (log_at (set_core c1 s)) with lg. change (buf_at (set_core c1 s) i) with (fs_buf (k_fs s) i). set (x := fs_buf (k_fs s) i).
  set (r := absorb _ _ _ _). wp1. wpb. set (s1 := set_fs _ _).
  assert (Hw : wp (when (r =? lg_n lg) (modify (fun s => set_fs (with_log (log_n (lg_n (log_at s) + 1) (log_at s)) (k_fs s)) s))) s1
    (fun _ s2 => s2 = set_fs (with_log (log_add (b_blockno x) lg) (k_fs s)) (set_core c1 s))).
  { unfold log_add. fold r. cbv zeta. destruct (r =? lg_n lg); [by apply wp_modify|by apply wp_ret]. }
  eapply wp_mono; [|exact Hw]. intros [] s2 ->. wp1.
  eapply wp_release; [exact C1|reflexivity|]. intros c2 C2.
  set (y := buf_flags (Z.lor (b_flags x) B_DIRTY) x).
  set (f := with_buf (<[i := y]> (fs_buf (k_fs s))) (with_log (log_add (b_blockno x) lg) (k_fs s))).
  exists c2, (k_ptab s), f. split_and!; [done|done|done|]. apply HQ.
  destruct (dirty_upd_logged pid (with_log (log_add (b_blockno x) lg) (k_fs s)) order i f) as (A1 & A2 & A3 & A4 & A5).
  - by apply bcache_ok_with_log.
  - by apply held_with_log.
  - apply buf_upd_set.
  - split; try done; simpl; [apply fn_insert_eq|]. intros j Hj. by apply fn_insert_ne.
Qed.

(** The cache holds as changed exactly the blocks of the transaction. *)
Definition log_inv (f : fsst) : Prop :=
  log_wf (fs_log f) (d_size (fs_disk f)) /\ forall b, dirty_block f b = true <-> logged (fs_log f) b.

(** [log_write] records a changed block in the transaction, once: a block already
    recorded is absorbed, a new one takes a new entry.  It keeps the invariant that the
    blocks the cache must not evict are those of the transaction, changes neither a
    block's content nor the disk, and refuses a transaction larger than the log and a
    write outside a transaction. *)
Theorem log_write_records (cur : nat) (order : list nat) (i : nat) (s : kstate) :
  let f := k_fs s in let lg := log_at s in let b := b_blockno (buf_at s i) in
  on_cpu [] (Some cur) (k_core s) -> bcache_ok f order -> held (p_pid (proc_at s cur)) f i ->
  log_inv f -> 0 <= b < d_size (fs_disk f) -> ~ in_log lg b ->
  (lg_n lg < LOGSIZE -> lg_n lg < lg_size lg - 1 -> 1 <= lg_outstanding lg ->
    wp (log_write i) s (fun _ s' => on_cpu [] (Some cur) (k_core s') /\
      bcache_ok (k_fs s') order /\ held (p_pid (proc_at s cur)) (k_fs s') i /\ log_inv (k_fs s') /\
      (forall x, logged (log_at s') x <-> logged lg x \/ x = b) /\
      (lg_n (log_at s') = lg_n lg + 1 <-> ~ logged lg b) /\
      fs_disk (k_fs s') = fs_disk f /\ forall x, content (k_fs s') x = content f x)) /\
  (LOGSIZE <= lg_n lg \/ lg_size lg - 1 <= lg_n lg -> panics (log_write i) s "too big a transaction") /\
  (lg_n lg < LOGSIZE -> lg_n lg < lg_size lg - 1 -> lg_outstanding lg < 1 ->
    panics (log_write i) s "log_write outside of trans").
Proof.
  intros f lg b Hc Hok Hh [Hwf Hd] Hb Hl. split_and!.
  - intros H1 H2 H3. pose proof (fwp_log_write cur (p_pid (proc_at s cur)) i order s
      (fun _ f' => log_wrote (p_pid (proc_at s cur)) order f f' i) Hok Hh H1 H2 H3 ltac:(auto) ltac:(by split)) as H.
    eapply wp_mono; [|exact H]. intros [] s' (_ & Hr & W). destruct (log_add_wf lg _ b Hwf H1 H2 Hb Hl) as (A1 & A2 & A3).
    unfold log_inv, log_at. rewrite (lo_log _ _ _ _ _ W), (lo_disk _ _ _ _ _ W).
    split_and!; try done; try apply W; [apply Hr|]. intros x. rewrite (lo_dirty _ _ _ _ _ W).
    change (fs_log f) with lg in Hd |- *. change (b_blockno (fs_buf f i)) with b. rewrite A2, <- (Hd x).
    destruct (Z.eqb_spec x b); split; auto. intros [?|?]; done.
  - intros H. unfold log_write. apply panics_bind_wp. unfold wp, gets. change (log_at s) with lg.
    assert ((LOGSIZE <=? lg_n lg) || (lg_size lg - 1 <=? lg_n lg) = true) as ->; [|done].
    apply orb_true_iff. rewrite !Z.leb_le. done.
  - intros H1 H2 H3. unfold log_write. apply panics_bind_wp. unfold wp, gets. change (log_at s) with lg.
    rewrite (proj2 (Z.leb_gt _ _)), (proj2 (Z.leb_gt _ _)), (proj2 (Z.ltb_lt _ _)) by lia. done.
Qed.

(** [begin_op] admits a system call only while no commit is running and the log has
    room for MAXOPBLOCKS blocks for each call in progress and for this one; until then
    the process sleeps on the log, with its lock released, and tests again when woken. *)
Theorem begin_op_reserves (cur : nat) (s : kstate) :
  let lg := log_at s in
  on_cpu [] (Some cur) (k_core s) ->
  (lg_committing lg = false -> lg_n lg + (lg_outstanding lg + 1) * MAXOPBLOCKS <= LOGSIZE ->
    wp begin_op s (fun _ s' => exists c, on_cpu [] (Some cur) c /\
      s' = set_core c (set_fs (with_log (log_outstanding (lg_outstanding lg + 1) lg) (k_fs s)) s))) /\
  (lg_committing lg = true \/ LOGSIZE < lg_n lg + (lg_outstanding lg + 1) * MAXOPBLOCKS ->
    sleeps (begin_op s) (fun s1 k =>
      (exists c, on_cpu [LkPtable] (Some cur) c /\
         s1 = set_core c (set_ptab (asleep_proc cur ChLog (k_ptab s)) s)) /\
      forall s', on_cpu [LkPtable] (Some cur) (k_core s') -> exists c,
        on_cpu [LkLog] (Some cur) c /\
        k s' = begin_op_loop (k_wakeups s) (set_core c (set_ptab (woken_proc cur (k_ptab s')) s')))).
Proof.
  intros lg Hc. unfold begin_op. split.
  - intros H1 H2. wpb. eapply wp_acquire; [exact Hc|by apply not_elem_of_nil|]. intros c1 C1. wp1.
    cbn [begin_op_loop]. wp1. change (log_at (set_core c1 s)) with lg. rewrite H1. unfold log_full.
    rewrite (proj2 (Z.ltb_ge _ _)) by done. unfold upd_log. wp1.
    eapply wp_release; [exact C1|reflexivity|]. intros c2 C2. exists c2. by split.
  - intros H. apply sleeps_bind_wp. eapply wp_acquire; [exact Hc|by apply not_elem_of_nil|]. intros c1 C1.
    apply sleeps_bind_wp. unfold wp at 1, gets. cbn [begin_op_loop]. apply sleeps_bind_wp. unfold wp at 1, gets.
    change (log_at (set_core c1 s)) with lg. change (k_wakeups (set_core c1 s)) with (k_wakeups s).
    set (m := sleep ChLog LkLog;; begin_op_loop (k_wakeups s)).
    assert (E : (if lg_committing lg then m else if log_full lg then m else
      upd_log (fun l => log_outstanding (lg_outstanding l + 1) l);; release LkLog) = m).
    { destruct (lg_committing lg); [done|]. destruct H as [H|H]; [done|]. unfold log_full. by rewrite (proj2 (Z.ltb_lt _ _)). }
    rewrite E. apply sleeps_bind. eapply sleeps_mono; [|apply (sleep_sleeps cur); [exact C1|done]].
    intros s1 k (c & -> & H2 & Hk). split; [by exists c|]. intros s' Hs'.
    specialize (Hk s' Hs'). apply wp_Done in Hk as ([] & s2 & Hrun & c2 & -> & H3).
    exists c2. split; [done|]. unfold mbind, M_bind. by rewrite Hrun.
Qed.

(** [commit] of a transaction, empty or not, as its callers see it. *)
Lemma wp_commit_all cur order s (Q : unit -> kstate -> Prop) :
  let f := k_fs s in
  on_cpu [] (Some cur) (k_core s) -> quiet f order -> log_inv f -> d_size (fs_disk f) <= 2147483648 -> 0 < free_bufs f ->
  (forall c t f' order', on_cpu [] (Some cur) c -> only_woken (k_ptab s) t -> quiet f' order' ->
    fs_log f' = log_n 0 (fs_log f) -> (forall b, dirty_block f' b = false) ->
    (forall b, ~ in_log (fs_log f) b -> d_blocks (fs_disk f') b = content f b) ->
    fs_sb f' = fs_sb f -> fs_inode f' = fs_inode f -> d_size (fs_disk f') = d_size (fs_disk f) ->
    Q tt (set_core c (set_ptab t (set_fs f' s)))) ->
  wp commit s Q.
Proof.
  intros f Hc Hq [Hwf Hd] Hsz Hfree HQ. destruct (decide (0 < lg_n (fs_log f))) as [Hn|Hn].
  - pose proof (fwp_commit cur (p_pid (proc_at s cur)) order s Hq Hwf Hn Hfree Hd ltac:(by split)) as H.
    eapply wp_mono; [|exact H]. intros [] s' ([Fw Fr] & [Rc _] & o' & h1 & g & h0 & D). fold f in D. rewrite Fr.
    apply (HQ _ _ _ o'); try done; try apply D; [|rewrite (cd_disk _ _ _ _ _ _ D); apply puts_size]. intros b Hb.
    rewrite (cd_disk _ _ _ _ _ _ D), puts_blocks. unfold commit_writes. rewrite apply_app.
    apply (committed_done (fs_log f) _ Hwf (content f)); [|apply D| |done].
    + apply (committed_after (fs_log f) _ Hwf Hsz). intros x _ Hx. symmetry.
      apply (clean_content f order); [apply Hq|intros i Hi _; by apply Hq|].
      destruct (dirty_block f x) eqn:E; [|done]. by apply Hd in E.
    + apply (put_head_spec (log_n 0 (fs_log f)) h0). simpl. unfold LOGSIZE, MAXOPBLOCKS. lia.
  - assert (E0 : lg_n (fs_log f) = 0) by (pose proof (lw_n _ _ Hwf); lia).
    assert (Hcl : forall b, dirty_block f b = false).
    { intros b. destruct (dirty_block f b) eqn:E; [|done]. apply Hd in E as (i & Hi & _). lia. }
    unfold commit. wp1. change (lg_n (log_at s)) with (lg_n (fs_log f)). rewrite E0. apply wp_ret.
    replace s with (set_core (k_core s) (set_ptab (k_ptab s) (set_fs f s))) at 1 by (by destruct s).
    apply (HQ _ _ _ order); try done.
    + destruct (fs_log f). simpl in *. by subst.
    + intros b _. symmetry. apply (clean_content f order); [apply Hq|intros i Hi _; by apply Hq|done].
Qed.

(** The fields of a log that say where the transaction is. *)
Lemma log_inv_with f lg :
  log_inv f -> same_log (fs_log f) lg -> (forall i, lg_block lg i = lg_block (fs_log f) i) -> log_inv (with_log lg f).
Proof.
  intros [Hwf Hd] Hs Hb. split; [by apply (same_log_wf (fs_log f))|]. intros b.
  change (dirty_block (with_log lg f) b) with (dirty_block f b). rewrite Hd. unfold logged. simpl.
  rewrite (sl_n _ _ Hs). by setoid_rewrite Hb.
Qed.

(** [end_op] of the last system call in progress commits: when it returns, every
    block outside the log is on the disk as the calls of the transaction left it, the
    log is empty and no commit is running.  Before the last call it only gives up its
    reservation and wakes the processes waiting for room.  It stops the kernel if a
    commit is running. *)
Theorem end_op_commits (cur : nat) (order : list nat) (s : kstate) :
  let f := k_fs s in let lg := log_at s in
  on_cpu [] (Some cur) (k_core s) -> quiet f order -> log_inv f -> d_size (fs_disk f) <= 2147483648 -> 0 < free_bufs f ->
  (lg_committing lg = false -> lg_outstanding lg = 1 ->
    wp end_op s (fun _ s' => on_cpu [] (Some cur) (k_core s') /\ only_woken (k_ptab s) (k_ptab s') /\
      lg_outstanding (log_at s') = 0 /\ lg_committing (log_at s') = false /\ lg_n (log_at s') = 0 /\
      (forall b, dirty_block (k_fs s') b = false) /\
      forall b, ~ in_log lg b -> d_blocks (fs_disk (k_fs s')) b = content f b)) /\
  (lg_committing lg = false -> lg_outstanding lg <> 1 ->
    wp end_op s (fun _ s' => exists c, on_cpu [] (Some cur) c /\
      s' = set_core c (set_ptab (wake_tab ChLog (k_ptab s))
        (set_fs (with_log (log_outstanding (lg_outstanding lg - 1) lg) f) s)))) /\
  (lg_committing lg = true -> panics end_op s "log.committing").
Proof.
  intros f lg Hc Hq Hinv Hsz Hfree. unfold end_op, upd_log. split_and!.
  - intros H1 H2. wpb. eapply wp_acquire; [exact Hc|by apply not_elem_of_nil|]. intros c1 C1. apply wp_modify_bind, wp_gets_bind. cbv beta.
    set (s1 := set_fs _ (set_core c1 s)). change (log_at s1) with (log_outstanding (lg_outstanding lg - 1) lg).
    simpl lg_committing. rewrite H1, H2. simpl. wpb. wp1. apply wp_ret. wpb.
    eapply wp_release; [exact C1|reflexivity|]. intros c2 C2. simpl when. wpb.
    apply (wp_commit_all cur order); try done; simpl.
    + do 2 apply quiet_with_log. exact Hq.
    + apply log_inv_with; [apply log_inv_with; [exact Hinv|by split|done]|by split|done].
    + intros c3 t f' o' C3 Ht Q' L' D' B' _ _ _. wpb. eapply wp_acquire; [exact C3|by apply not_elem_of_nil|]. intros c4 C4.
      wp1. wpb. eapply wp_wakeup; [exact C4|by rewrite list_elem_of_singleton|]. intros c5 C5.
      eapply wp_release; [exact C5|reflexivity|]. intros c6 C6. unfold log_at. simpl. rewrite L'. simpl.
      split_and!; try done; [etransitivity; [exact Ht|apply only_woken_wake]|]. change (lg_outstanding lg - 1 = 0). lia.
  - intros H1 H2. wpb. eapply wp_acquire; [exact Hc|by apply not_elem_of_nil|]. intros c1 C1. apply wp_modify_bind, wp_gets_bind. cbv beta.
    set (s1 := set_fs _ (set_core c1 s)). change (log_at s1) with (log_outstanding (lg_outstanding lg - 1) lg).
    simpl lg_committing. rewrite H1. simpl lg_outstanding. rewrite (proj2 (Z.eqb_neq _ _)) by lia. wpb. wpb.
    eapply wp_wakeup; [exact C1|by rewrite list_elem_of_singleton|]. intros c2 C2. apply wp_ret. wpb.
    eapply wp_release; [exact C2|reflexivity|]. intros c3 C3. apply wp_ret. exists c3. by split.
  - intros H1. apply panics_bind_wp. eapply wp_acquire; [exact Hc|by apply not_elem_of_nil|]. intros c1 C1.
    apply panics_bind_wp. apply wp_modify. apply panics_bind_wp. unfold wp, gets, log_at. simpl.
    change (lg_committing (fs_log (k_fs s))) with (lg_committing lg). by rewrite H1.
Qed.

(** ** Concrete runs: a disk of 100 blocks, log at block 2, block 50 changed *)

Module Example.

Definition zero_disk : disk := mkDisk (fun _ _ => 0) 100 [].

(** A log at block 2 of ten blocks, with [n] entries for block 50. *)
Definition lg (n outstanding : Z) (c : bool) : log := mkLog 2 10 outstanding c 1 n (fun _ => 50).

(** The cache with block 50 changed in buffer 0. *)
Definition bufs : nat -> buf :=
  <[0%nat := mkBuf 6 1 50 zero_sl 0 (b_prev (Empty.bufs 0)) (b_next (Empty.bufs 0)) (fun _ => 7)]> Empty.bufs.

Definition fs (l : log) : fsst := mkFs zero_disk bufs l (mkSb 0 0 0 0 0 0 0) (fun _ => zero_inode).

Definition st (l : log) : kstate :=
  set_fs (fs l) (start (Some 0%nat) (fun _ => user_process RUNNING 7 (fun _ => 0)) empty_stab).

Lemma bufs_caches b i : caches 1 b (bufs i) = if decide (i = 0%nat) then b =? 50 else false.
Proof. unfold bufs. rewrite fn_insert_case. repeat case_decide; subst; try done. apply Z.eqb_sym. Qed.

Lemma bufs_ok l : bcache_ok (fs l) (seq 0 NBUF).
Proof.
  split.
  - eapply ring_ext; [exact Empty.bufs_ring|]. intros j. simpl. unfold bufs. rewrite fn_insert_case. case_decide; by subst.
  - intros i j _ _ Hi Hj _. simpl in *. unfold bufs in *. rewrite fn_insert_case in Hi, Hj.
    repeat case_decide; subst; done.
  - intros i _. simpl. unfold bufs. rewrite fn_insert_case. case_decide; by split.
Qed.

Lemma fs_quiet l : quiet (fs l) (seq 0 NBUF).
Proof. split; [apply bufs_ok|]. intros i _. simpl. unfold bufs. rewrite fn_insert_case. by case_decide. Qed.

Lemma fs_dirty l b : dirty_block (fs l) b = (b =? 50).
Proof.
  unfold dirty_block, cached. simpl. destruct (find_idx _ NBUF) as [i|] eqn:E.
  - apply find_idx_Some in E as (_ & E & _). rewrite bufs_caches in E. case_decide; [subst|done]. rewrite E. done.
  - apply (proj1 (find_idx_None _ _)) with (k := 0%nat) in E; [|unfold NBUF; lia]. rewrite bufs_caches in E.
    rewrite decide_True in E by done. by rewrite E.
Qed.

Lemma lg_wf o c : log_wf (lg 1 o c) 100.
Proof.
  split; simpl; unfold LOGSIZE, MAXOPBLOCKS, in_log; simpl; try lia.
Qed.

Lemma lg_wf0 o c : log_wf (lg 0 o c) 100.
Proof.
  split; simpl; unfold LOGSIZE, MAXOPBLOCKS, in_log; simpl; lia.
Qed.

Lemma fs_inv o c : log_inv (fs (lg 1 o c)).
Proof.
  split; [apply lg_wf|]. intros b. rewrite fs_dirty, Z.eqb_eq. unfold logged. simpl. split.
  - intros ->. by exists 0.
  - intros (i & _ & ->). done.
Qed.

Lemma fs_room l : 0 < free_bufs (fs l).
Proof. reflexivity. Qed.

Lemma fs_content_50 l : content (fs l) 50 = (fun _ => 7).
Proof.
  rewrite (content_at _ (seq 0 NBUF) 0); [done|apply bufs_ok|unfold NBUF; lia|]. simpl. by rewrite bufs_caches.
Qed.
End Example.

Lemma commit_survives_crash_witness :
  wp commit (Example.st (Example.lg 1 0 true)) (fun _ s' => lg_n (log_at s') = 0 /\
    d_blocks (fs_disk (k_fs s')) 50 = (fun _ => 7)).
Proof.
  refine (wp_mono _ _ _ _ _ (commit_survives_crash 0 (seq 0 NBUF) (Example.st (Example.lg 1 0 true)) (one_cpu_on _)
    (Example.fs_quiet _) (Example.lg_wf 0 true) ltac:(vm_compute; discriminate) eq_refl eq_refl (Example.fs_room _)
    (proj2 (Example.fs_inv 0 true)))).
  intros u s' (W & _ & Hn & _ & Hb & _). split; [exact Hn|]. rewrite Hb; [exact (Example.fs_content_50 _)|].
  intros [_ H]. vm_compute in H. discriminate.
Defined.

Lemma recovery_repeatable_witness :
  wp recover_from_log (Empty.st Example.zero_disk (Example.lg 0 0 false)) (fun _ s' => lg_n (log_at s') = 0).
Proof.
  refine (wp_mono _ _ _ _ _ (recovery_repeatable 0 (seq 0 NBUF) (Empty.st Example.zero_disk (Example.lg 0 0 false)) (one_cpu_on _) _)).
  - intros u s' (W & _ & Hn & _). exact Hn.
  - split; [split; [apply Empty.fs_ok|done]|done|reflexivity|].
    apply (same_log_wf (Example.lg 0 0 false)); [|exact (Example.lg_wf0 0 false)].
    split; [reflexivity..|]. intros i Hi. simpl in Hi. lia.
Defined.

Lemma begin_op_reserves_witness :
  wp begin_op (Example.st (Example.lg 1 0 false)) (fun _ s' => lg_outstanding (log_at s') = 1).
Proof.
  destruct (begin_op_reserves 0 (Example.st (Example.lg 1 0 false)) (one_cpu_on _)) as [H _].
  refine (wp_mono _ _ _ _ _ (H eq_refl ltac:(vm_compute; discriminate))). intros u s' (c & _ & ->). reflexivity.
Defined.

Lemma end_op_commits_witness :
  wp end_op (Example.st (Example.lg 1 1 false)) (fun _ s' => lg_outstanding (log_at s') = 0 /\
    d_blocks (fs_disk (k_fs s')) 50 = (fun _ => 7)).
Proof.
  destruct (end_op_commits 0 (seq 0 NBUF) (Example.st (Example.lg 1 1 false)) (one_cpu_on _)
    (Example.fs_quiet _) (Example.fs_inv 1 false) ltac:(vm_compute; discriminate) (Example.fs_room _)) as [H _].
  refine (wp_mono _ _ _ _ _ (H eq_refl eq_refl)). intros u s' (_ & _ & Ho & _ & _ & _ & Hb). split; [exact Ho|].
  rewrite Hb; [exact (Example.fs_content_50 _)|]. intros [_ H']. vm_compute in H'. discriminate.
Defined.

Module Held.

(** Block 50 in buffer 0, locked by process 7, in a transaction with no block yet. *)
Definition bufs : nat -> buf :=
  <[0%nat := mkBuf 2 1 50 (mkSl true 7) 1 (b_prev (Empty.bufs 0)) (b_next (Empty.bufs 0)) (fun _ => 7)]> Empty.bufs.

Definition fs : fsst := mkFs Example.zero_disk bufs (Example.lg 0 1 false) (mkSb 0 0 0 0 0 0 0) (fun _ => zero_inode).

Definition st : kstate :=
  set_fs fs (start (Some 0%nat) (fun _ => user_process RUNNING 7 (fun _ => 0)) empty_stab).

Lemma held_bufs_ok : bcache_ok fs (seq 0 NBUF).
Proof.
  split.
  - eapply ring_ext; [exact Empty.bufs_ring|]. intros j. simpl. unfold bufs. rewrite fn_insert_case. case_decide; by subst.
  - intros i j _ _ Hi Hj _. simpl in *. unfold bufs in *. rewrite fn_insert_case in Hi, Hj.
    repeat case_decide; subst; done.
  - intros i _. simpl. unfold bufs. rewrite fn_insert_case. case_decide; by split.
Qed.

Lemma held_0 : held 7 fs 0.
Proof. split; [unfold NBUF; lia|done..]. Qed.

Lemma held_inv : log_inv fs.
Proof.
  split; [apply Example.lg_wf0|]. intros b. split.
  - unfold dirty_block, cached. destruct (find_idx _ NBUF) as [i|]; [|done]. simpl. unfold bufs. rewrite fn_insert_case.
    by case_decide.
  - intros (i & Hi & _). simpl in Hi. lia.
Qed.
End Held.

Lemma log_write_records_witness :
  wp (log_write 0) Held.st (fun _ s' => lg_n (log_at s') = 1 /\ dirty_block (k_fs s') 50 = true).
Proof.
  destruct (log_write_records 0 (seq 0 NBUF) 0 Held.st (one_cpu_on _) Held.held_bufs_ok Held.held_0 Held.held_inv
    ltac:(split; vm_compute; [discriminate|reflexivity]) ltac:(intros [_ H']; vm_compute in H'; discriminate)) as [H _].
  refine (wp_mono _ _ _ _ _ (H eq_refl eq_refl ltac:(vm_compute; discriminate))).
  intros u s' (_ & _ & _ & [_ Hd] & Hl & Hn & _). split.
  - apply Hn. intros (i & Hi & _). change (0 <= i < 0) in Hi. lia.
  - apply Hd, Hl. right. reflexivity.
Defined.
