(* ===== verification/Tx.v ===== *)
(** * Reading and changing blocks inside a transaction

    [tx pid f H k]: the process with this pid holds the buffers of the blocks [H],
    nobody else holds one, a transaction is running, and it may still change [k]
    blocks that are not in the log yet, with a place of the log to spare:
    [log_write] refuses a full log even for a block that is in it.  The rules of this file give the routines
    of fs.c their specification in terms of the content of blocks alone. *)

From S2P Require Import Prelude CString KState Spinlock Proc Sleeplock Bio Log LogCrash.

(** The buffers of [H] that hold unchanged blocks. *)
Definition clean (f : fsst) (H : list Z) : Z :=
  Z.of_nat (length (filter (fun b => dirty_block f b = false) H)).

(** 1 where changing block [b] takes a new place in the log. *)
Definition gap (f : fsst) (b : Z) : Z := if dirty_block f b then 0 else 1.

Lemma gap_range f b : 0 <= gap f b <= 1.
Proof. unfold gap. destruct (dirty_block f b); lia. Qed.

Lemma clean_cons f b H : clean f (b :: H) = (if dirty_block f b then 0 else 1) + clean f H.
Proof. unfold clean. rewrite filter_cons. destruct (dirty_block f b); simpl; lia. Qed.

Lemma clean_ext f f' H : (forall b, b ∈ H -> dirty_block f' b = dirty_block f b) -> clean f' H = clean f H.
Proof.
  induction H as [|b H IH]; intros E; [done|]. rewrite !clean_cons, E by (by left). rewrite IH; [done|].
  intros x Hx. apply E. by right.
Qed.

Lemma clean_le f H : 0 <= clean f H <= Z.of_nat (length H).
Proof. induction H as [|b H IH]; [done|]. rewrite clean_cons. simpl length. case_match; lia. Qed.

(** Changing one of the blocks. *)
Lemma clean_put f f' b H : NoDup H -> (forall x, dirty_block f' x = (x =? b) || dirty_block f x) -> b ∈ H ->
  clean f' H = clean f H - gap f b.
Proof.
  intros Hnd Hd [H' HP]%elem_of_Permutation. rewrite HP in Hnd. apply NoDup_cons in Hnd as [N1 N2].
  unfold clean. rewrite HP. fold (clean f' (b :: H')) (clean f (b :: H')). rewrite !clean_cons, Hd, Z.eqb_refl. unfold gap.
  rewrite (clean_ext f f' H'); [simpl; lia|]. intros x Hx. rewrite Hd. destruct (Z.eqb_spec x b) as [->|]; done.
Qed.

Lemma gap_clean f b H : NoDup H -> b ∈ H -> gap f b <= clean f H.
Proof.
  intros Hnd [H' HP]%elem_of_Permutation. unfold clean. rewrite HP. fold (clean f (b :: H')). rewrite clean_cons.
  pose proof (clean_le f H'). unfold gap. lia.
Qed.

Section tx.
Context (cur : nat) (pid : Z).

(** Buffer [i] holds block [b] for the process. *)
Definition bound (f : fsst) (i : nat) (b : Z) : Prop := held pid f i /\ b_blockno (fs_buf f i) = b.

(** The process holds the blocks [H] and has room in the log for [k] more.  Reading needs
    no transaction, but a change does. *)
Record tx (f : fsst) (H : list Z) (k : Z) : Prop := mkTx {
  tx_cache : exists order, bcache_ok f order;
  tx_nodup : NoDup H;
  tx_busy : forall i, (i < NBUF)%nat -> b_refcnt (fs_buf f i) <> 0 ->
    held pid f i /\ coherent f i /\ b_blockno (fs_buf f i) ∈ H;
  tx_bound : forall b, b ∈ H -> exists i, bound f i b;
  tx_log : log_inv f;
  tx_out : 0 < k \/ 0 < lg_n (fs_log f) -> 1 <= lg_outstanding (fs_log f);
  tx_k : 0 <= k /\ lg_n (fs_log f) + k < LOGSIZE /\ lg_n (fs_log f) + k < lg_size (fs_log f) - 1;
  tx_room : k + 4 <= free_bufs f + clean f H
}.

(** What the routines of this layer keep: the disk, the superblock and inodes in
    memory, and the log but for the blocks recorded in it. *)
Record moved (f f' : fsst) : Prop := mkMoved {
  mv_disk : fs_disk f' = fs_disk f;
  mv_sb : fs_sb f' = fs_sb f;
  mv_inode : fs_inode f' = fs_inode f;
  mv_start : lg_start (fs_log f') = lg_start (fs_log f);
  mv_size : lg_size (fs_log f') = lg_size (fs_log f);
  mv_out : lg_outstanding (fs_log f') = lg_outstanding (fs_log f);
  mv_com : lg_committing (fs_log f') = lg_committing (fs_log f)
}.

#[export] Instance moved_preorder : PreOrder moved.
Proof. split; [by split|]. intros x y z [] []. split; congruence. Qed.

Lemma buf_upd_moved i x f f' : buf_upd i x f f' -> moved f f'.
Proof. intros [_ _ A B C D]. split; rewrite ?A, ?B, ?C, ?D; done. Qed.

Lemma tx_weaken f H k k' : tx f H k -> 0 <= k' <= k -> tx f H k'.
Proof. intros [A B C D E F G I] Hk. split; try done; [|lia|lia]. intros H'. apply F. lia. Qed.

(** The order of the blocks held does not matter. *)
#[export] Instance tx_proper f : Proper ((≡ₚ) ==> (=) ==> iff) (tx f).
Proof.
  intros H H' HH k ? <-.
  assert (Hgo : forall H H', H ≡ₚ H' -> tx f H k -> tx f H' k); [|by split; apply Hgo].
  clear H H' HH. intros H H' HH [A B C D E F G I]. split; try done.
  - by rewrite <- HH.
  - intros i Hi Hr. destruct (C i Hi Hr) as (C1 & C2 & C3). by rewrite <- HH.
  - intros b Hb. apply D. by rewrite HH.
  - unfold clean in *. by rewrite <- HH.
Qed.

Lemma bound_unique f i j b order : bcache_ok f order -> bound f i b -> bound f j b -> i = j.
Proof. intros Hok [Hi E] [Hj <-]. apply (bc_uniq _ _ Hok); try apply Hi; try apply Hj. done. Qed.

Lemma bound_caches f i b x : bound f i b -> caches 1 x (fs_buf f i) = (x =? b).
Proof. intros [Hi <-]. by apply (held_caches pid). Qed.

Lemma bound_dirty f i b order : bcache_ok f order -> bound f i b -> dirty_block f b = dirty (fs_buf f i).
Proof.
  intros Hok Hb. apply (dirty_block_at f order); [done|apply Hb|]. by rewrite (bound_caches f i b), Z.eqb_refl.
Qed.

(** ** Reading *)

Lemma tx_can_read f H k b : tx f H k -> b ∉ H -> (length H <= 3)%nat -> b < d_size (fs_disk f) -> can_read f b.
Proof.
  intros Ht Hb Hlen Hsz. split; [done| |].
  - intros i Hi Hc. destruct (Z.eq_dec (b_refcnt (fs_buf f i)) 0) as [|Hne]; [done|].
    destruct (tx_busy _ _ _ Ht i Hi Hne) as (_ & _ & Hin). apply caches_true in Hc as [_ <-]. done.
  - right. pose proof (tx_room _ _ _ Ht). pose proof (clean_le f H). pose proof (tx_k _ _ _ Ht). lia.
Qed.

Lemma read_buf_tx f f' H k b order i :
  tx f H k -> bcache_ok f order -> can_read f b -> b ∉ H -> read_buf pid b order f f' i ->
  tx f' (b :: H) k /\ bound f' i b /\ (forall j x, bound f j x -> bound f' j x).
Proof.
  intros Ht Hok Hcan Hb Hr. pose proof (rb_upd _ _ _ _ _ _ Hr) as Hu.
  assert (Hne : forall j, (j < NBUF)%nat -> b_refcnt (fs_buf f j) <> 0 -> j <> i).
  { intros j Hj Hrj ->. destruct (rb_idle _ _ _ _ _ _ Hr) as [Hc|Hc].
    - by rewrite (cr_idle _ _ Hcan i Hj Hc) in Hrj.
    - apply recyclable_true in Hc as [? _]. done. }
  assert (Hheld : forall j, held pid f j -> held pid f' j).
  { intros j Hj. assert (j <> i) by (apply Hne; [apply Hj|by rewrite (he_refcnt _ _ _ Hj)]).
    destruct Hj. split; rewrite ?(bu_other _ _ _ _ Hu) by done; done. }
  assert (Hbk : forall j x, bound f j x -> bound f' j x).
  { intros j x [Hj E]. split; [by apply Hheld|]. rewrite (bu_other _ _ _ _ Hu); [done|].
    apply Hne; [apply Hj|by rewrite (he_refcnt _ _ _ Hj)]. }
  assert (Hbi : bound f' i b) by (split; [exact (read_buf_held _ _ _ _ _ _ Hr)|apply Hr]).
  destruct Ht as [_ A2 A3 A4 A5 A6 A7 A8]. split_and!; [|done|done]. split.
  - exists order. apply Hr.
  - by constructor.
  - intros j Hj Hrj. destruct (decide (j = i)) as [->|Hji].
    + split_and!; [apply Hbi|exact (read_buf_coherent _ _ _ _ _ _ Hok Hcan Hr)|]. rewrite (proj2 Hbi). by left.
    + rewrite (bu_other _ _ _ _ Hu) in Hrj |- * by done. destruct (A3 j Hj Hrj) as (B1 & B2 & B3).
      split_and!; [by apply Hheld| |by right]. unfold coherent in *.
      rewrite (bu_other _ _ _ _ Hu), (bu_disk _ _ _ _ Hu) by done. done.
  - intros x [->|Hx]%elem_of_cons; [by exists i|]. destruct (A4 x Hx) as (j & Hj). exists j. by apply Hbk.
  - destruct A5 as [L1 L2]. split; rewrite (bu_log _ _ _ _ Hu); [by rewrite (bu_disk _ _ _ _ Hu)|].
    intros x. by rewrite (rb_dirty _ _ _ _ _ _ Hr).
  - by rewrite (bu_log _ _ _ _ Hu).
  - by rewrite (bu_log _ _ _ _ Hu).
  - rewrite clean_cons, (rb_free _ _ _ _ _ _ Hr), (bound_dirty f' i b order), (clean_ext f); [|intros; apply Hr|apply Hr|done].
    destruct (dirty (fs_buf f' i)); lia.
Qed.

Lemma fwp_tx_read b H k s (Q : nat -> fsst -> Prop) :
  tx (k_fs s) H k -> b ∉ H -> (length H <= 3)%nat -> b < d_size (fs_disk (k_fs s)) ->
  (forall i f, tx f (b :: H) k -> bound f i b -> (forall j x, bound (k_fs s) j x -> bound f j x) ->
    moved (k_fs s) f -> (forall x, content f x = content (k_fs s) x) ->
    (forall x, dirty_block f x = dirty_block (k_fs s) x) -> Q i f) ->
  fwp cur pid (bread 1 b) s Q.
Proof.
  intros Ht Hb Hlen Hsz HQ. destruct (tx_cache _ _ _ Ht) as [order Hok].
  pose proof (tx_can_read _ _ _ _ Ht Hb Hlen Hsz) as Hcan. apply (fwp_bread cur pid b order); [done|done|].
  intros f i Hr. destruct (read_buf_tx _ _ _ _ _ _ _ Ht Hok Hcan Hb Hr) as (H1 & H2 & H3).
  apply HQ; [done|done|done|exact (buf_upd_moved _ _ _ _ (rb_upd _ _ _ _ _ _ Hr))|apply Hr|apply Hr].
Qed.

(** The bytes of a held block. *)
Lemma bound_data f H k i b : tx f H k -> bound f i b -> b_data (fs_buf f i) = content f b.
Proof. intros Ht [Hh <-]. destruct (tx_cache _ _ _ Ht) as [order Hok]. symmetry. by apply (held_content pid f order). Qed.

Lemma bound_in f H k i b : tx f H k -> bound f i b -> b ∈ H.
Proof. intros Ht [Hh <-]. apply (tx_busy _ _ _ Ht); [apply Hh|by rewrite (he_refcnt _ _ _ Hh)]. Qed.

(** ** Changing *)

(** A change needs a transaction. *)
Lemma tx_open f H k b : tx f H (k + gap f b) -> 0 <= k -> 1 <= lg_outstanding (fs_log f).
Proof.
  intros Ht Hk. apply (tx_out _ _ _ Ht). unfold gap in *. destruct (dirty_block f b) eqn:Ed; [right|left; lia].
  apply (tx_log _ _ _ Ht) in Ed as (i & Hi & _). lia.
Qed.

(** A change of a held block and its record in the log. *)
Lemma log_put_tx f f1 f' H k order i b d :
  tx f H (k + gap f b) -> 0 <= k -> bcache_ok f order -> bound f i b ->
  buf_upd i (buf_data d (fs_buf f i)) f f1 -> log_wrote pid order f1 f' i ->
  0 <= b < d_size (fs_disk f) -> ~ in_log (fs_log f) b ->
  tx f' H k /\ (forall j x, bound f j x -> bound f' j x) /\ moved f f' /\
  (forall x, content f' x = if x =? b then d else content f x) /\
  (forall x, dirty_block f' x = (x =? b) || dirty_block f x).
Proof.
  intros Ht Hk0 Hok [Hh Eb] Hu Hw Hb Hl. pose proof (tx_open _ _ _ _ Ht Hk0) as Hout. unfold gap in Ht. destruct (held_data pid f order i d f1 Hok Hh Hu) as (O1 & H1 & C1 & D1 & F1).
  pose proof (bu_at _ _ _ _ Hu) as Hat. assert (Eb1 : b_blockno (fs_buf f1 i) = b) by (by rewrite Hat).
  pose proof (lo_at _ _ _ _ _ Hw) as Wat. pose proof (lo_log _ _ _ _ _ Hw) as Wl. rewrite Eb1, (bu_log _ _ _ _ Hu) in Wl.
  assert (Hother : forall j, j <> i -> fs_buf f' j = fs_buf f j).
  { intros j Hj. rewrite (lo_other _ _ _ _ _ Hw) by done. by apply Hu. }
  assert (Hheld : forall j, held pid f j -> held pid f' j).
  { intros j Hj. destruct (decide (j = i)) as [->|Hji]; [apply Hw|]. destruct Hj. by split; rewrite ?Hother. }
  assert (Hbk : forall j x, bound f j x -> bound f' j x).
  { intros j x [Hj E]. split; [by apply Hheld|]. destruct (decide (j = i)) as [->|Hji]; [|by rewrite Hother].
    rewrite Wat. simpl. rewrite Eb1. congruence. }
  destruct Ht as [_ A2 A3 A4 [L1 L2] A6 A7 A8].
  assert (Hdisk : fs_disk f' = fs_disk f) by (rewrite (lo_disk _ _ _ _ _ Hw); apply Hu).
  destruct (log_add_wf (fs_log f) (d_size (fs_disk f)) b L1) as (W1 & W2 & W3); [lia|lia|done|done|].
  assert (Hdirty : forall x, dirty_block f' x = if x =? b then true else dirty_block f x).
  { intros x. by rewrite (lo_dirty _ _ _ _ _ Hw), Eb1, D1. }
  assert (Hmv : moved f f').
  { split; [done|rewrite (lo_sb _ _ _ _ _ Hw); apply Hu|rewrite (lo_inode _ _ _ _ _ Hw); apply Hu|..];
      rewrite Wl; unfold log_add; by destruct (_ =? _). }
  assert (Hin : b ∈ H) by (rewrite <- Eb; apply A3; [apply Hh|by rewrite (he_refcnt _ _ _ Hh)]).
  assert (Hn : lg_n (log_add b (fs_log f)) = lg_n (fs_log f) + (if dirty_block f b then 0 else 1)).
  { destruct (dirty_block f b) eqn:Ed.
    - apply L2 in Ed. assert (Hne : lg_n (log_add b (fs_log f)) <> lg_n (fs_log f) + 1) by (intros E; by apply W3 in E).
      revert Hne. unfold log_add. destruct (_ =? _); simpl; lia.
    - apply W3. intros E. apply L2 in E. congruence. }
  split_and!; [|done|done| |].
  - split; try done.
    + exists order. apply Hw.
    + intros j Hj Hrj. destruct (decide (j = i)) as [->|Hji].
      * split_and!; [apply Hw| |by rewrite Wat; simpl; rewrite Eb1]. left. rewrite Wat. apply flags_or_dirty.
      * rewrite Hother in Hrj |- * by done. destruct (A3 j Hj Hrj) as (B1 & B2 & B3).
        split_and!; [by apply Hheld| |done]. unfold coherent in *. by rewrite Hother, Hdisk.
    + intros x Hx. destruct (A4 x Hx) as (j & Hj). exists j. by apply Hbk.
    + split; [by rewrite Wl, Hdisk|]. intros x. rewrite Wl, W2, Hdirty, <- L2.
      destruct (Z.eqb_spec x b) as [->|]; [|naive_solver]. split; [by right|done].
    + by rewrite (mv_out _ _ Hmv).
    + rewrite (mv_size _ _ Hmv), Wl, Hn. destruct (dirty_block f b); lia.
    + rewrite (lo_free _ _ _ _ _ Hw), F1.
      rewrite (clean_put f f' b H A2 (fun x => ltac:(rewrite Hdirty; by destruct (x =? b))) Hin). unfold gap.
      destruct (dirty_block f b); lia.
  - intros x. rewrite (lo_content _ _ _ _ _ Hw), C1. by rewrite Eb.
  - intros x. rewrite Hdirty. by destruct (x =? b).
Qed.

Lemma fwp_tx_put i b (d : mem -> mem) H k s (Q : unit -> fsst -> Prop) :
  tx (k_fs s) H (k + gap (k_fs s) b) -> 0 <= k -> bound (k_fs s) i b ->
  0 <= b < d_size (fs_disk (k_fs s)) -> ~ in_log (fs_log (k_fs s)) b ->
  (forall f, tx f H k -> (forall j x, bound (k_fs s) j x -> bound f j x) -> moved (k_fs s) f ->
    (forall x, content f x = if x =? b then d (content (k_fs s) b) else content (k_fs s) x) ->
    (forall x, dirty_block f x = (x =? b) || dirty_block (k_fs s) x) -> Q tt f) ->
  fwp cur pid (upd_buf i (fun x => buf_data (d (b_data x)) x);; log_write i) s Q.
Proof.
  intros Ht Hk Hbd Hb Hl HQ. destruct (tx_cache _ _ _ Ht) as [order Hok]. apply fwp_bind. apply fwp_buf_data.
  intros f1 Hu s1 Es1 _. pose proof (held_data pid _ order i _ f1 Hok (proj1 Hbd) Hu) as (O1 & H1 & _).
  pose proof (tx_k _ _ _ Ht) as Hkk. pose proof (bu_log _ _ _ _ Hu) as El. pose proof (tx_open _ _ _ _ Ht Hk) as Hout.
  apply (fwp_log_write cur pid i order); rewrite ?Es1, ?El; [done|done|lia|lia|lia|]. intros f' Hw.
  destruct (log_put_tx _ f1 f' H k order i b _ Ht Hk Hok Hbd Hu Hw Hb Hl) as (T1 & T2 & T3 & T4 & T5).
  apply HQ; [done|done|done| |done]. intros x. by rewrite T4, (bound_data _ _ _ _ _ Ht Hbd).
Qed.

(** ** Releasing *)

Lemma fwp_tx_release i b H k s (Q : unit -> fsst -> Prop) :
  tx (k_fs s) (b :: H) k -> bound (k_fs s) i b ->
  (forall f, tx f H k -> (forall j x, x <> b -> bound (k_fs s) j x -> bound f j x) -> moved (k_fs s) f ->
    (forall x, content f x = content (k_fs s) x) -> (forall x, dirty_block f x = dirty_block (k_fs s) x) -> Q tt f) ->
  fwp cur pid (brelse i) s Q.
Proof.
  intros Ht [Hh Eb] HQ. destruct (tx_cache _ _ _ Ht) as [order Hok].
  destruct (tx_busy _ _ _ Ht i) as (_ & Hco & _); [apply Hh|by rewrite (he_refcnt _ _ _ Hh)|].
  apply (fwp_brelse cur pid i order); [done|done|done|]. intros f Hr. set (g := k_fs s) in *.
  destruct (re_ok _ _ _ _ Hr) as (o1 & o2 & _ & Hok').
  assert (Hne : forall j x, x <> b -> bound g j x -> j <> i) by (intros j x Hx [_ E] ->; congruence).
  assert (Hbk : forall j x, x <> b -> bound g j x -> bound f j x).
  { intros j x Hx Hj. pose proof (re_other _ _ _ _ Hr j (Hne j x Hx Hj)) as Hl. destruct Hj as [Hj E].
    split; [by apply (held_links pid g)|]. by rewrite (bl_blockno _ _ Hl). }
  destruct Ht as [_ A2 A3 A4 [L1 L2] A6 A7 A8]. apply NoDup_cons in A2 as [N1 N2].
  apply HQ; [|done| |apply Hr|apply Hr].
  - split; try done.
    + by eexists.
    + intros j Hj Hrj. destruct (decide (j = i)) as [->|Hji].
      { rewrite (bl_refcnt _ _ (re_at _ _ _ _ Hr)) in Hrj. done. }
      pose proof (re_other _ _ _ _ Hr j Hji) as Hl. rewrite (bl_refcnt _ _ Hl) in Hrj.
      destruct (A3 j Hj Hrj) as (B1 & B2 & B3). rewrite (bl_blockno _ _ Hl). split_and!.
      * by apply (held_links pid g).
      * unfold coherent, dirty in *. rewrite (bl_flags _ _ Hl), (bl_data _ _ Hl), (bl_blockno _ _ Hl), (re_disk _ _ _ _ Hr). done.
      * apply elem_of_cons in B3 as [B3|B3]; [|done]. destruct Hji.
        apply (bc_uniq _ _ Hok); [apply B1|apply Hh|apply B1|apply Hh|congruence].
    + intros x Hx. destruct (A4 x) as (j & Hj); [by right|]. exists j. apply Hbk; [|done]. by intros ->.
    + split; rewrite (re_log _ _ _ _ Hr); [by rewrite (re_disk _ _ _ _ Hr)|]. intros x. by rewrite (re_dirty _ _ _ _ Hr).
    + by rewrite (re_log _ _ _ _ Hr).
    + by rewrite (re_log _ _ _ _ Hr).
    + rewrite (re_free _ _ _ _ Hr), (clean_ext g f H) by (intros; apply Hr). rewrite clean_cons in A8.
      rewrite (bound_dirty g i b order) in A8 by done. fold g. destruct (dirty (fs_buf g i)); lia.
  - split; try apply Hr; by rewrite (re_log _ _ _ _ Hr).
Qed.

(** ** The rules for routines that go on *)

Lemma fwp_read_bind {A} b H k (g : nat -> K A) s (Q : A -> fsst -> Prop) :
  tx (k_fs s) H k -> b ∉ H -> (length H <= 3)%nat -> b < d_size (fs_disk (k_fs s)) ->
  (forall i s1, tx (k_fs s1) (b :: H) k -> bound (k_fs s1) i b ->
    (forall j x, bound (k_fs s) j x -> bound (k_fs s1) j x) ->
    moved (k_fs s) (k_fs s1) -> (forall x, content (k_fs s1) x = content (k_fs s) x) ->
    (forall x, dirty_block (k_fs s1) x = dirty_block (k_fs s) x) -> fwp cur pid (g i) s1 Q) ->
  fwp cur pid (bread 1 b ≫= g) s Q.
Proof.
  intros Ht Hb Hl Hsz HQ. apply fwp_bind. apply (fwp_tx_read b H k); [done..|].
  intros i f T B Kp M C D s1 <- _. by apply HQ.
Qed.

Lemma fwp_put_bind {A} i b (d : mem -> mem) H k (g : K A) s (Q : A -> fsst -> Prop) :
  tx (k_fs s) H (k + gap (k_fs s) b) -> 0 <= k -> bound (k_fs s) i b ->
  0 <= b < d_size (fs_disk (k_fs s)) -> ~ in_log (fs_log (k_fs s)) b ->
  (forall s1, tx (k_fs s1) H k -> (forall j x, bound (k_fs s) j x -> bound (k_fs s1) j x) -> moved (k_fs s) (k_fs s1) ->
    (forall x, content (k_fs s1) x = if x =? b then d (content (k_fs s) b) else content (k_fs s) x) ->
    (forall x, dirty_block (k_fs s1) x = (x =? b) || dirty_block (k_fs s) x) -> fwp cur pid g s1 Q) ->
  fwp cur pid (upd_buf i (fun x => buf_data (d (b_data x)) x);; log_write i;; g) s Q.
Proof.
  intros Ht Hk Hbd Hb Hl HQ Hr.
  assert (Hgo : fwp cur pid ((upd_buf i (fun x => buf_data (d (b_data x)) x);; log_write i);; g) s Q).
  { apply fwp_bind. apply (fwp_tx_put i b d H k); [done..|]. intros f T Kp M C D s1 <- _. by apply HQ. }
  specialize (Hgo Hr). unfold wp, mbind, M_bind in *. destruct (upd_buf i _ s); simpl in *; done.
Qed.

Lemma fwp_release_bind {A} i b H k (g : K A) s (Q : A -> fsst -> Prop) :
  tx (k_fs s) (b :: H) k -> bound (k_fs s) i b ->
  (forall s1, tx (k_fs s1) H k -> (forall j x, x <> b -> bound (k_fs s) j x -> bound (k_fs s1) j x) ->
    moved (k_fs s) (k_fs s1) -> (forall x, content (k_fs s1) x = content (k_fs s) x) ->
    (forall x, dirty_block (k_fs s1) x = dirty_block (k_fs s) x) -> fwp cur pid g s1 Q) ->
  fwp cur pid (brelse i;; g) s Q.
Proof.
  intros Ht Hb HQ. apply fwp_bind. apply (fwp_tx_release i b H k); [done..|]. intros f T Kp M C D s1 <- _. by apply HQ.
Qed.

Lemma fwp_bytes_bind {A} i b H k (g : mem -> K A) s (Q : A -> fsst -> Prop) :
  tx (k_fs s) H k -> bound (k_fs s) i b -> fwp cur pid (g (content (k_fs s) b)) s Q ->
  fwp cur pid (buf_bytes i ≫= g) s Q.
Proof.
  intros Ht Hb HQ. apply fwp_gets_bind. unfold buf_at. by rewrite (bound_data _ _ _ _ _ Ht Hb).
Qed.

(** A routine that stops the kernel after [m]. *)
Lemma fpanics_bind {A B} (m : K A) (g : A -> K B) s msg :
  fs_ready cur pid s ->
  fwp cur pid m s (fun a f => forall s1, k_fs s1 = f -> fs_ready cur pid s1 -> panics (g a) s1 msg) ->
  panics (m ≫= g) s msg.
Proof.
  intros Hr Hm. apply panics_bind_wp. eapply wp_mono; [|by apply Hm]. intros a s1 (_ & R1 & H1). by apply H1.
Qed.
End tx.
