(* ===== verification/Fs.v ===== *)
(** * fs.c: blocks, inodes, directories and paths

    The routines of fs.c on the buffer cache and the log.  An inode of the cache
    [icache] is its index.  The C strings of path names are the lists of their
    bytes up to the NUL.  [readi] takes the memory object its destination points
    into and returns it with the bytes written; [writei] takes the source's.  The
    device functions of the table [devsw] (file.c) are a parameter. *)

From S2P Require Import Prelude CString KState Spinlock Cprintf Proc Sleeplock Bio Log.

(** ** fs.h, stat.h *)

Definition ROOTINO : Z := 1.
Definition MAXFILE : Z := NDIRECT + NINDIRECT.
Definition DINODE : Z := 64.
Definition IPB : Z := BSIZE / DINODE.
Definition BPB : Z := BSIZE * 8.
Definition DIRSIZ : Z := 14.
Definition DIRENT : Z := 16.
Definition T_DIR : Z := 1.
Definition T_FILE : Z := 2.
Definition T_DEV : Z := 3.

Definition IBLOCK (i : Z) (sb : superblock) : Z := i / IPB + sb_inodestart sb.
Definition BBLOCK (b : Z) (sb : superblock) : Z := b / BPB + sb_bmapstart sb.

Definition sb_get : K superblock := gets (fun s => fs_sb (k_fs s)).
Definition inode_get (ip : nat) : K inode := gets (fun s => inode_at s ip).

(** ** Blocks *)

Definition bzero (dev bno : Z) : K unit :=
  bp ← bread dev bno;
  upd_buf bp (fun b => buf_data (memset (b_data b) 0 0 BSIZE) b);;
  log_write bp;;
  brelse bp.

(** The inner loop of [balloc]: the first free bit from [bi] on. *)
Fixpoint free_bit (todo : nat) (bi b size : Z) (data : mem) : option Z :=
  match todo with
  | O => None
  | S k =>
      if b + bi <? size then
        if Z.land (data (bi / 8)) (Z.shiftl 1 (bi mod 8)) =? 0 then Some bi
        else free_bit k (bi + 1) b size data
      else None
  end.

Fixpoint balloc_loop (fuel : nat) (dev b : Z) : K Z :=
  match fuel with
  | O => fun s => Stuck s
  | S k =>
      sb ← sb_get;
      if b <? sb_size sb then
        bp ← bread dev (BBLOCK b sb);
        data ← buf_bytes bp;
        match free_bit (Z.to_nat BPB) 0 b (sb_size sb) data with
        | Some bi =>
            upd_buf bp (fun x => buf_data (upd (b_data x) (bi / 8)
              (Z.lor (b_data x (bi / 8)) (Z.shiftl 1 (bi mod 8)))) x);;
            log_write bp;;
            brelse bp;;
            bzero dev (b + bi);;
            mret (b + bi)
        | None =>
            brelse bp;;
            balloc_loop k dev (b + BPB)
        end
      else panic "balloc: out of blocks"
  end.

Definition balloc (dev : Z) : K Z :=
  sb ← sb_get;
  balloc_loop (S (Z.to_nat (sb_size sb / BPB + 1))) dev 0.

Definition bfree (dev b : Z) : K unit :=
  sb ← readsb dev;
  modify (fun s => set_fs (with_sb sb (k_fs s)) s);;
  bp ← bread dev (BBLOCK b sb);
  data ← buf_bytes bp;
  let bi := b mod BPB in
  let m := Z.shiftl 1 (bi mod 8) in
  if Z.land (data (bi / 8)) m =? 0 then panic "freeing free block"
  else
    upd_buf bp (fun x => buf_data (upd (b_data x) (bi / 8) (Z.land (b_data x (bi / 8)) (Z.lnot m))) x);;
    log_write bp;;
    brelse bp.

(** ** Inodes *)

Fixpoint iinit_loop (n i : nat) : K unit :=
  match n with
  | O => mret tt
  | S k => initsleeplock (SlInode i);; iinit_loop k (S i)
  end.

Definition iinit (dev : Z) : K unit :=
  initlock LkIcache "icache";;
  iinit_loop NINODE 0;;
  sb ← readsb dev;
  modify (fun s => set_fs (with_sb sb (k_fs s)) s);;
  cprintf (chars "sb: size %d nblocks %d ninodes %d nlog %d logstart %d inodestart %d bmap start %d" ++ [10])
    (map CInt [sb_size sb; sb_nblocks sb; sb_ninodes sb; sb_nlog sb; sb_logstart sb; sb_inodestart sb;
      sb_bmapstart sb]).

(** [struct dinode] at offset [a] of a block. *)
Definition di_type (m : mem) (a : Z) : Z := int16 (load16 m a).
Definition di_major (m : mem) (a : Z) : Z := int16 (load16 m (a + 2)).
Definition di_minor (m : mem) (a : Z) : Z := int16 (load16 m (a + 4)).
Definition di_nlink (m : mem) (a : Z) : Z := int16 (load16 m (a + 6)).
Definition di_size (m : mem) (a : Z) : Z := load32 m (a + 8).
Definition di_addr (m : mem) (a i : Z) : Z := load32 m (a + 12 + 4 * i).

(** [dip], the place of inode [inum] in its block. *)
Definition dip (inum : Z) : Z := inum mod IPB * DINODE.

Definition iget (dev inum : Z) : K nat :=
  acquire LkIcache;;
  hit ← gets (fun s => find_idx (fun i =>
    let ip := inode_at s i in (0 <? i_ref ip) && (i_dev ip =? dev) && (i_inum ip =? inum)) NINODE);
  match hit with
  | Some ip =>
      upd_inode ip (fun x => inode_ref (i_ref x + 1) x);;
      release LkIcache;;
      mret ip
  | None =>
      empty ← gets (fun s => find_idx (fun i => i_ref (inode_at s i) =? 0) NINODE);
      match empty with
      | None => panic "iget: no inodes"
      | Some ip =>
          upd_inode ip (inode_id dev inum 1 false);;
          release LkIcache;;
          mret ip
      end
  end.

Fixpoint ialloc_loop (todo : nat) (dev inum type : Z) : K nat :=
  match todo with
  | O => panic "ialloc: no inodes"
  | S k =>
      sb ← sb_get;
      bp ← bread dev (IBLOCK inum sb);
      data ← buf_bytes bp;
      if di_type data (dip inum) =? 0 then
        upd_buf bp (fun b => buf_data (store16 (memset (b_data b) (dip inum) 0 DINODE) (dip inum) type) b);;
        log_write bp;;
        brelse bp;;
        iget dev inum
      else
        brelse bp;;
        ialloc_loop k dev (inum + 1) type
  end.

(** [for(inum = 1; inum < sb.ninodes; inum++)] *)
Definition ialloc (dev type : Z) : K nat :=
  sb ← sb_get;
  ialloc_loop (Z.to_nat (sb_ninodes sb - 1)) dev 1 type.

(** [memmove(dip->addrs, ip->addrs, sizeof(ip->addrs))]: NDIRECT+1 words. *)
Fixpoint put_addrs (n : nat) (i : Z) (addrs : Z -> Z) (m : mem) (a : Z) : mem :=
  match n with
  | O => m
  | S k => put_addrs k (i + 1) addrs (store32 m (a + 12 + 4 * i) (addrs i)) a
  end.

Definition put_dinode (ip : inode) (m : mem) (a : Z) : mem :=
  put_addrs (Z.to_nat (NDIRECT + 1)) 0 (i_addrs ip)
    (store32 (store16 (store16 (store16 (store16 m a (i_type ip)) (a + 2) (i_major ip))
      (a + 4) (i_minor ip)) (a + 6) (i_nlink ip)) (a + 8) (i_size ip)) a.

Definition iupdate (ip : nat) : K unit :=
  x ← inode_get ip;
  sb ← sb_get;
  bp ← bread (i_dev x) (IBLOCK (i_inum x) sb);
  upd_buf bp (fun b => buf_data (put_dinode x (b_data b) (dip (i_inum x))) b);;
  log_write bp;;
  brelse bp.

Definition idup (ip : nat) : K nat :=
  acquire LkIcache;;
  upd_inode ip (fun x => inode_ref (i_ref x + 1) x);;
  release LkIcache;;
  mret ip.

(** The fields [ilock] reads from the disk. *)
Definition get_dinode (m : mem) (a : Z) (x : inode) : inode :=
  inode_disk (di_type m a) (di_major m a) (di_minor m a) (di_nlink m a) (di_size m a)
    (fun i => if (0 <=? i) && (i <=? NDIRECT) then di_addr m a i else i_addrs x i) x.

(** No caller passes a NULL inode. *)
Definition ilock (ip : nat) : K unit :=
  x ← inode_get ip;
  if i_ref x <? 1 then panic "ilock"
  else
    acquiresleep (SlInode ip);;
    x ← inode_get ip;
    when (negb (i_valid x)) (
      sb ← sb_get;
      bp ← bread (i_dev x) (IBLOCK (i_inum x) sb);
      data ← buf_bytes bp;
      upd_inode ip (get_dinode data (dip (i_inum x)));;
      brelse bp;;
      upd_inode ip (inode_valid true);;
      x ← inode_get ip;
      when (i_type x =? 0) (panic "ilock: no type")).

Definition iunlock (ip : nat) : K unit :=
  h ← holdingsleep (SlInode ip);
  x ← inode_get ip;
  if negb h || (i_ref x <? 1) then panic "iunlock"
  else releasesleep (SlInode ip).

(** The loop of [itrunc] over the direct blocks. *)
Fixpoint itrunc_direct (todo : nat) (i : Z) (ip : nat) : K unit :=
  match todo with
  | O => mret tt
  | S k =>
      x ← inode_get ip;
      when (negb (i_addrs x i =? 0)) (
        bfree (i_dev x) (i_addrs x i);;
        upd_inode ip (inode_addr i 0));;
      itrunc_direct k (i + 1) ip
  end.

(** The loop over the entries of the indirect block, which [bp] holds. *)
Fixpoint itrunc_indirect (todo : nat) (j : Z) (dev : Z) (bp : nat) : K unit :=
  match todo with
  | O => mret tt
  | S k =>
      a ← buf_bytes bp;
      when (negb (load32 a (4 * j) =? 0)) (bfree dev (load32 a (4 * j)));;
      itrunc_indirect k (j + 1) dev bp
  end.

Definition itrunc (ip : nat) : K unit :=
  itrunc_direct (Z.to_nat NDIRECT) 0 ip;;
  x ← inode_get ip;
  when (negb (i_addrs x NDIRECT =? 0)) (
    bp ← bread (i_dev x) (i_addrs x NDIRECT);
    itrunc_indirect (Z.to_nat NINDIRECT) 0 (i_dev x) bp;;
    brelse bp;;
    bfree (i_dev x) (i_addrs x NDIRECT);;
    upd_inode ip (inode_addr NDIRECT 0));;
  upd_inode ip (inode_size 0);;
  iupdate ip.

Definition iput (ip : nat) : K unit :=
  acquiresleep (SlInode ip);;
  x ← inode_get ip;
  when (i_valid x && (i_nlink x =? 0)) (
    acquire LkIcache;;
    r ← gets (fun s => i_ref (inode_at s ip));
    release LkIcache;;
    when (r =? 1) (
      itrunc ip;;
      upd_inode ip (inode_type 0);;
      iupdate ip;;
      upd_inode ip (inode_valid false)));;
  releasesleep (SlInode ip);;
  acquire LkIcache;;
  upd_inode ip (fun x => inode_ref (i_ref x - 1) x);;
  release LkIcache.

Definition iunlockput (ip : nat) : K unit :=
  iunlock ip;;
  iput ip.

(** ** Inode content *)

(** Entry [bn] of the indirect block [addr]. *)
Definition bmap_entry (dev addr bn : Z) : K Z :=
  bp ← bread dev addr;
  a ← buf_bytes bp;
  addr ← (if load32 a (4 * bn) =? 0 then
            addr ← balloc dev;
            upd_buf bp (fun b => buf_data (store32 (b_data b) (4 * bn) addr) b);;
            log_write bp;;
            mret addr
          else mret (load32 a (4 * bn)));
  brelse bp;;
  mret addr.

Definition bmap (ip : nat) (bn : Z) : K Z :=
  x ← inode_get ip;
  if bn <? NDIRECT then
    if i_addrs x bn =? 0 then
      addr ← balloc (i_dev x);
      upd_inode ip (inode_addr bn addr);;
      mret addr
    else mret (i_addrs x bn)
  else
    let bn := bn - NDIRECT in
    if bn <? NINDIRECT then
      addr ← (if i_addrs x NDIRECT =? 0 then
                addr ← balloc (i_dev x);
                upd_inode ip (inode_addr NDIRECT addr);;
                mret addr
              else mret (i_addrs x NDIRECT));
      bmap_entry (i_dev x) addr bn
    else panic "bmap: out of range".

(** stat.h: [struct stat]. *)
Record stat : Type := mkStat {
  st_type : Z;
  st_dev : Z;
  st_ino : Z;
  st_nlink : Z;
  st_size : Z
}.

Definition stati (ip : nat) : K stat :=
  x ← inode_get ip;
  mret (mkStat (i_type x) (int32 (i_dev x)) (i_inum x) (i_nlink x) (i_size x)).

(** file.c's [devsw]: the functions of a device, where it has them. *)
Record devsw : Type := mkDevsw {
  dev_read : Z -> option (nat -> mem -> Z -> Z -> K (Z * mem));
  dev_write : Z -> option (nat -> mem -> Z -> Z -> K Z)
}.

(** One round copies [m] bytes, at most to the end of a block. *)
Fixpoint readi_loop (fuel : nat) (ip : nat) (md : mem) (dst off tot n : Z) : K mem :=
  match fuel with
  | O => fun s => Stuck s
  | S k =>
      if tot <? n then
        x ← inode_get ip;
        addr ← bmap ip (off / BSIZE);
        bp ← bread (i_dev x) addr;
        data ← buf_bytes bp;
        let m := Z.min (n - tot) (BSIZE - off mod BSIZE) in
        let md := memcopy md dst data (off mod BSIZE) m in
        brelse bp;;
        readi_loop k ip md (dst + m) (off + m) (tot + m) n
      else mret md
  end.

Definition readi (dv : devsw) (ip : nat) (md : mem) (dst off n : Z) : K (Z * mem) :=
  x ← inode_get ip;
  if i_type x =? T_DEV then
    match (if (i_major x <? 0) || (NDEV <=? i_major x) then None else dev_read dv (i_major x)) with
    | None => mret (-1, md)
    | Some rd => rd ip md dst (int32 n)
    end
  else if (i_size x <? off) || (uint32 (off + n) <? off) then mret (-1, md)
  else
    let n := if i_size x <? off + n then i_size x - off else n in
    md ← readi_loop (S (Z.to_nat n)) ip md dst off 0 n;
    mret (int32 n, md).

(** The loop of [writei]; it returns the final [off]. *)
Fixpoint writei_loop (fuel : nat) (ip : nat) (ms : mem) (src off tot n : Z) : K Z :=
  match fuel with
  | O => fun s => Stuck s
  | S k =>
      if tot <? n then
        x ← inode_get ip;
        addr ← bmap ip (off / BSIZE);
        bp ← bread (i_dev x) addr;
        let m := Z.min (n - tot) (BSIZE - off mod BSIZE) in
        upd_buf bp (fun b => buf_data (memcopy (b_data b) (off mod BSIZE) ms src m) b);;
        log_write bp;;
        brelse bp;;
        writei_loop k ip ms (src + m) (off + m) (tot + m) n
      else mret off
  end.

Definition writei (dv : devsw) (ip : nat) (ms : mem) (src off n : Z) : K Z :=
  x ← inode_get ip;
  if i_type x =? T_DEV then
    match (if (i_major x <? 0) || (NDEV <=? i_major x) then None else dev_write dv (i_major x)) with
    | None => mret (-1)
    | Some wr => wr ip ms src (int32 n)
    end
  else if (i_size x <? off) || (uint32 (off + n) <? off) then mret (-1)
  else if MAXFILE * BSIZE <? off + n then mret (-1)
  else
    off ← writei_loop (S (Z.to_nat n)) ip ms src off 0 n;
    x ← inode_get ip;
    when ((0 <? n) && (i_size x <? off)) (
      upd_inode ip (inode_size off);;
      iupdate ip);;
    mret (int32 n).

(** ** Directories *)

Definition namecmp (ms : mem) (s : Z) (mt : mem) (t : Z) : Z := strncmp ms s mt t DIRSIZ.

(** [struct dirent] at offset 0 of a local variable: [inum], then the name at 2. *)
Definition de_inum (de : mem) : Z := load16 de 0.
Definition de_name : Z := 2.

(** [readi(dp, (char* )&de, off, sizeof(de))] into a local variable. *)
Definition read_dirent (dv : devsw) (dp : nat) (off : Z) (msg : string) : K mem :=
  '(r, de) ← readi dv dp (fun _ => 0) 0 off DIRENT;
  if r =? DIRENT then mret de else panic msg.

Fixpoint dirlookup_loop (fuel : nat) (dv : devsw) (dp : nat) (name : list Z) (off : Z) : K (option (nat * Z)) :=
  match fuel with
  | O => fun s => Stuck s
  | S k =>
      x ← inode_get dp;
      if off <? i_size x then
        de ← read_dirent dv dp off "dirlookup read";
        if de_inum de =? 0 then dirlookup_loop k dv dp name (off + DIRENT)
        else if namecmp (bytes_mem name) 0 de de_name =? 0 then
          ip ← iget (i_dev x) (de_inum de);
          mret (Some (ip, off))
        else dirlookup_loop k dv dp name (off + DIRENT)
      else mret None
  end.

(** The entry's inode and [*poff]. *)
Definition dirlookup (dv : devsw) (dp : nat) (name : list Z) : K (option (nat * Z)) :=
  x ← inode_get dp;
  if negb (i_type x =? T_DIR) then panic "dirlookup not DIR"
  else dirlookup_loop (S (Z.to_nat (i_size x))) dv dp name 0.

(** The loop of [dirlink] that looks for an empty entry; it returns [off]. *)
Fixpoint dirlink_loop (fuel : nat) (dv : devsw) (dp : nat) (off : Z) : K Z :=
  match fuel with
  | O => fun s => Stuck s
  | S k =>
      x ← inode_get dp;
      if off <? i_size x then
        de ← read_dirent dv dp off "dirlink read";
        if de_inum de =? 0 then mret off else dirlink_loop k dv dp (off + DIRENT)
      else mret off
  end.

(** [strncpy(de.name, name, DIRSIZ); de.inum = inum;] *)
Definition make_dirent (name : list Z) (inum : Z) : mem :=
  store16 (strncpy (fun _ => 0) de_name (bytes_mem name) 0 DIRSIZ) 0 inum.

Definition dirlink (dv : devsw) (dp : nat) (name : list Z) (inum : Z) : K Z :=
  found ← dirlookup dv dp name;
  match found with
  | Some (ip, _) =>
      iput ip;;
      mret (-1)
  | None =>
      x ← inode_get dp;
      off ← dirlink_loop (S (Z.to_nat (i_size x))) dv dp 0;
      r ← writei dv dp (make_dirent name inum) 0 off DIRENT;
      if r =? DIRENT then mret 0 else panic "dirlink"
  end.

(** ** Paths *)

Definition slash : Z := 47.

Fixpoint skip_slashes (path : list Z) : list Z :=
  match path with
  | [] => []
  | c :: rest => if c =? slash then skip_slashes rest else path
  end.

(** The loop that moves [path] on to the next slash or to the end: what it passes
    and what is left. *)
Fixpoint take_elem (path : list Z) : list Z * list Z :=
  match path with
  | [] => ([], [])
  | c :: rest =>
      if c =? slash then ([], path)
      else let '(e, r) := take_elem rest in (c :: e, r)
  end.

(** The element, cut to DIRSIZ bytes, and the path after it. *)
Definition skipelem (path : list Z) : option (list Z * list Z) :=
  match skip_slashes path with
  | [] => None
  | c :: rest =>
      let '(e, r) := take_elem (c :: rest) in
      Some (take (Z.to_nat DIRSIZ) e, skip_slashes r)
  end.

(** The loop of [namex] from [ip] on; with [parent] the name of the last element
    is returned too. *)
Fixpoint namex_loop (fuel : nat) (dv : devsw) (ip : nat) (path name : list Z) (parent : bool) : K (option (nat * list Z)) :=
  match fuel with
  | O => fun s => Stuck s
  | S k =>
      match skipelem path with
      | None =>
          if parent then
            iput ip;;
            mret None
          else mret (Some (ip, name))
      | Some (name, rest) =>
          ilock ip;;
          x ← inode_get ip;
          if negb (i_type x =? T_DIR) then
            iunlockput ip;;
            mret None
          else if parent && bool_decide (rest = []) then
            iunlock ip;;
            mret (Some (ip, name))
          else
            next ← dirlookup dv ip name;
            match next with
            | None =>
                iunlockput ip;;
                mret None
            | Some (ip', _) =>
                iunlockput ip;;
                namex_loop k dv ip' rest name parent
            end
      end
  end.

Definition namex (dv : devsw) (path : list Z) (parent : bool) : K (option (nat * list Z)) :=
  ip ← (if bool_decide (path !! 0%nat = Some slash) then iget ROOTDEV ROOTINO
        else
          '(_, p) ← curproc;
          match p_cwd p with
          | Some cwd => idup cwd
          | None => undef "idup(0)"
          end);
  namex_loop (S (length path)) dv ip path [] parent.

Definition namei (dv : devsw) (path : list Z) : K (option nat) :=
  r ← namex dv path false;
  mret (fst <$> r).

Definition nameiparent (dv : devsw) (path : list Z) : K (option (nat * list Z)) := namex dv path true.
