(* ===== verification/Blocks.v ===== *)
(** * fs.c: allocating and freeing blocks

    The layout of the disk, [geom]; the free map as a predicate [used] on blocks;
    and the specification of [bzero], [balloc] and [bfree] inside a transaction. *)

From S2P Require Import Prelude CString KState Spinlock Cprintf Proc Sleeplock Bio Log LogCrash Tx Fs.

(** ** The layout

    boot block, superblock, log, inodes, free map, data (fs.h). *)

Definition data_start (sb : superblock) : Z := sb_bmapstart sb + (sb_size sb - 1) / BPB + 1.

Record geom (f : fsst) : Prop := mkGeom {
  ge_size : 0 < sb_size (fs_sb f) <= d_size (fs_disk f);
  ge_log : 1 < lg_start (fs_log f) /\ lg_start (fs_log f) + lg_size (fs_log f) <= sb_inodestart (fs_sb f);
  ge_inodes : 0 < sb_ninodes (fs_sb f) /\ sb_inodestart (fs_sb f) + (sb_ninodes (fs_sb f) - 1) / IPB < sb_bmapstart (fs_sb f);
  ge_bmap : data_start (fs_sb f) <= sb_size (fs_sb f);
  ge_lsize : 0 <= lg_size (fs_log f);
  ge_word : sb_size (fs_sb f) < W32
}.

Lemma geom_moved f f' : moved f f' -> geom f -> geom f'.
Proof. intros [A B C D E F _] [G1 G2 G3 G4 G5 G6]. split; rewrite ?A, ?B, ?D, ?E; done. Qed.

(** The bit of block [b] in the free map. *)
Definition bit_set (data : mem) (bi : Z) : bool := negb (Z.land (data (bi / 8)) (Z.shiftl 1 (bi mod 8)) =? 0).

Definition used (f : fsst) (b : Z) : bool := bit_set (content f (BBLOCK b (fs_sb f))) (b mod BPB).

(** The blocks before the data are in use. *)
Definition meta_used (f : fsst) : Prop := forall b, 0 <= b < data_start (fs_sb f) -> used f b = true.

(** The blocks of the free map, and how many of them are not in the log. *)
Definition bmaps (sb : superblock) : list Z :=
  (fun i => sb_bmapstart sb + Z.of_nat i) <$> seq 0 (Z.to_nat ((sb_size sb - 1) / BPB + 1)).

Definition bm_gap (f : fsst) : Z := clean f (bmaps (fs_sb f)).

Lemma elem_bmaps sb b : 0 < sb_size sb -> b ∈ bmaps sb <-> sb_bmapstart sb <= b < data_start sb.
Proof.
  intros Hs. assert (0 <= (sb_size sb - 1) / BPB) by (apply Z.div_pos; [lia|done]).
  unfold bmaps, data_start. rewrite list_elem_of_fmap. split.
  - intros (i & -> & Hi). apply elem_of_seq in Hi. lia.
  - intros Hb. exists (Z.to_nat (b - sb_bmapstart sb)). split; [lia|]. apply elem_of_seq. lia.
Qed.

Lemma bmaps_nodup sb : NoDup (bmaps sb).
Proof. apply NoDup_fmap_2; [intros i j E; lia|apply NoDup_seq]. Qed.

Lemma bm_gap_range f : 0 <= bm_gap f.
Proof. apply clean_le. Qed.

(** Changing a block of the free map, and another one. *)
Lemma bm_gap_put f f' b : 0 < sb_size (fs_sb f) -> fs_sb f' = fs_sb f ->
  (forall x, dirty_block f' x = (x =? b) || dirty_block f x) -> sb_bmapstart (fs_sb f) <= b < data_start (fs_sb f) ->
  bm_gap f' = bm_gap f - gap f b.
Proof.
  intros Hs E Hd Hb. unfold bm_gap. rewrite E. apply clean_put; [apply bmaps_nodup|done|by apply elem_bmaps].
Qed.

Lemma bm_gap_ext f f' : 0 < sb_size (fs_sb f) -> fs_sb f' = fs_sb f ->
  (forall x, sb_bmapstart (fs_sb f) <= x < data_start (fs_sb f) -> dirty_block f' x = dirty_block f x) ->
  bm_gap f' = bm_gap f.
Proof. intros Hs E Hd. unfold bm_gap. rewrite E. apply clean_ext. intros b Hb. apply Hd. by apply elem_bmaps. Qed.

Lemma bmap_range f b : geom f -> 0 <= b < sb_size (fs_sb f) ->
  sb_bmapstart (fs_sb f) <= BBLOCK b (fs_sb f) < data_start (fs_sb f).
Proof.
  intros G Hb. unfold BBLOCK, data_start, BPB, BSIZE. change (512 * 8) with 4096.
  pose proof (Z.div_pos b 4096 ltac:(lia) ltac:(lia)).
  pose proof (Z.div_le_mono b (sb_size (fs_sb f) - 1) 4096 ltac:(lia) ltac:(lia)). lia.
Qed.

Lemma inodes_before_bmap f : geom f -> sb_inodestart (fs_sb f) <= sb_bmapstart (fs_sb f).
Proof.
  intros G. destruct (ge_inodes _ G) as [H1 H2]. assert (0 <= (sb_ninodes (fs_sb f) - 1) / IPB); [|lia].
  apply Z.div_pos; [lia|done].
Qed.

(** Blocks after the log. *)
Lemma after_log f b : geom f -> sb_inodestart (fs_sb f) <= b < sb_size (fs_sb f) ->
  0 <= b < d_size (fs_disk f) /\ ~ in_log (fs_log f) b.
Proof.
  intros G Hb. destruct (ge_log _ G), (ge_size _ G). pose proof (ge_lsize _ G). unfold in_log. split; lia.
Qed.

(** ** Bits *)

Lemma shiftl_one_bit i : 0 <= i -> Z.shiftl 1 i = 2 ^ i.
Proof. intros H. rewrite Z.shiftl_mul_pow2 by done. lia. Qed.

Lemma land_pow2 v i : 0 <= i -> (Z.land v (2 ^ i) =? 0) = negb (Z.testbit v i).
Proof.
  intros Hi. destruct (Z.eqb_spec (Z.land v (2 ^ i)) 0) as [E|E].
  - apply (f_equal (fun z => Z.testbit z i)) in E. rewrite Z.land_spec, Z.pow2_bits_true, Z.testbit_0_l in E by done.
    rewrite andb_true_r in E. by rewrite E.
  - destruct (Z.testbit v i) eqn:Et; [done|]. destruct E. apply Z.bits_inj'. intros n Hn.
    rewrite Z.land_spec, Z.testbit_0_l. destruct (Z.eq_dec n i) as [->|]; [by rewrite Et|].
    by rewrite Z.pow2_bits_false, andb_false_r by lia.
Qed.

Lemma bit_set_testbit data bi : 0 <= bi -> bit_set data bi = Z.testbit (data (bi / 8)) (bi mod 8).
Proof.
  intros H. pose proof (Z.mod_pos_bound bi 8 ltac:(lia)). unfold bit_set.
  rewrite shiftl_one_bit, land_pow2 by lia. apply negb_involutive.
Qed.

Lemma bit_index a b : 0 <= a -> 0 <= b -> a / 8 = b / 8 -> a mod 8 = b mod 8 -> a = b.
Proof. intros. pose proof (Z.div_mod a 8 ltac:(lia)). pose proof (Z.div_mod b 8 ltac:(lia)). lia. Qed.

(** Setting and clearing one bit. *)
Definition set_bit (data : mem) (bi : Z) : mem :=
  upd data (bi / 8) (Z.lor (data (bi / 8)) (Z.shiftl 1 (bi mod 8))).
Definition clear_bit (data : mem) (bi : Z) : mem :=
  upd data (bi / 8) (Z.land (data (bi / 8)) (Z.lnot (Z.shiftl 1 (bi mod 8)))).

Lemma set_bit_spec data bi bj : 0 <= bi -> 0 <= bj ->
  bit_set (set_bit data bi) bj = (bj =? bi) || bit_set data bj.
Proof.
  intros Hi Hj. pose proof (Z.mod_pos_bound bi 8 ltac:(lia)). pose proof (Z.mod_pos_bound bj 8 ltac:(lia)).
  rewrite !bit_set_testbit by done. unfold set_bit. destruct (Z.eq_dec (bj / 8) (bi / 8)) as [E|E].
  - rewrite E, upd_eq, Z.lor_spec, shiftl_one_bit, Z.pow2_bits_eqb by lia. rewrite orb_comm. f_equal.
    destruct (Z.eqb_spec bj bi) as [->|Hne]; [by rewrite Z.eqb_refl|]. apply Z.eqb_neq. intros E2. by apply Hne, bit_index.
  - rewrite upd_ne by done. destruct (Z.eqb_spec bj bi) as [->|]; done.
Qed.

Lemma clear_bit_spec data bi bj : 0 <= bi -> 0 <= bj ->
  bit_set (clear_bit data bi) bj = negb (bj =? bi) && bit_set data bj.
Proof.
  intros Hi Hj. pose proof (Z.mod_pos_bound bi 8 ltac:(lia)). pose proof (Z.mod_pos_bound bj 8 ltac:(lia)).
  rewrite !bit_set_testbit by done. unfold clear_bit. destruct (Z.eq_dec (bj / 8) (bi / 8)) as [E|E].
  - rewrite E, upd_eq, Z.land_spec, Z.lnot_spec, shiftl_one_bit, Z.pow2_bits_eqb by lia. rewrite andb_comm. f_equal. f_equal.
    destruct (Z.eqb_spec bj bi) as [->|Hne]; [by rewrite Z.eqb_refl|]. apply Z.eqb_neq. intros E2. by apply Hne, bit_index.
  - rewrite upd_ne by done. destruct (Z.eqb_spec bj bi) as [->|]; done.
Qed.

(** The loop of [balloc] within a block of the free map. *)
Lemma free_bit_spec b size data todo : forall bi, 0 <= bi ->
  match free_bit todo bi b size data with
  | Some r => bi <= r < bi + Z.of_nat todo /\ b + r < size /\ bit_set data r = false /\
      forall x, bi <= x < r -> bit_set data x = true
  | None => forall x, bi <= x < bi + Z.of_nat todo -> b + x < size -> bit_set data x = true
  end.
Proof.
  induction todo as [|todo IH]; intros bi Hbi; cbn [free_bit]; [lia|].
  destruct (Z.ltb_spec (b + bi) size); [|intros; lia].
  destruct (Z.land _ _ =? 0) eqn:E.
  - split_and!; [lia|lia|lia|by unfold bit_set; rewrite E|lia].
  - assert (Hb : bit_set data bi = true) by (unfold bit_set; by rewrite E).
    specialize (IH (bi + 1) ltac:(lia)). destruct (free_bit _ _ _ _ _) as [r|].
    + destruct IH as (A & B & C & D). split_and!; [lia|lia|lia|done|]. intros x Hx.
      destruct (Z.eq_dec x bi) as [->|]; [done|]. apply D. lia.
    + intros x Hx Hlt. destruct (Z.eq_dec x bi) as [->|]; [done|]. apply IH; lia.
Qed.

(** The blocks of one block of the free map. *)
Lemma bitmap_block b bi sb : b mod BPB = 0 -> 0 <= bi < BPB ->
  BBLOCK (b + bi) sb = BBLOCK b sb /\ (b + bi) mod BPB = bi.
Proof.
  intros Hb Hbi. assert (Eb : b = b / BPB * BPB) by (pose proof (Z.div_mod b BPB ltac:(done)); lia).
  unfold BBLOCK. rewrite Eb at 1 3. rewrite (Z.add_comm (b / BPB * BPB)), Z.div_add, Z.mod_add, Z.div_small, Z.mod_small by (done || lia).
  split; [lia|done].
Qed.

Lemma used_bit f b bi : b mod BPB = 0 -> 0 <= bi < BPB ->
  used f (b + bi) = bit_set (content f (BBLOCK b (fs_sb f))) bi.
Proof. intros Hb Hbi. unfold used. by destruct (bitmap_block b bi (fs_sb f) Hb Hbi) as [-> ->]. Qed.

Section blocks.
Context (cur : nat) (pid : Z).
Abbreviation bound := (bound pid).
Abbreviation tx := (tx pid).
Abbreviation fwp := (fwp cur pid).

(** ** bzero *)

Lemma fwp_bzero b H k s (Q : unit -> fsst -> Prop) :
  tx (k_fs s) H (k + gap (k_fs s) b) -> 0 <= k -> b ∉ H -> (length H <= 3)%nat ->
  0 <= b < d_size (fs_disk (k_fs s)) -> ~ in_log (fs_log (k_fs s)) b ->
  (forall f, tx f H k -> (forall j x, bound (k_fs s) j x -> bound f j x) -> moved (k_fs s) f ->
    (forall x, content f x = if x =? b then memset (content (k_fs s) b) 0 0 BSIZE else content (k_fs s) x) ->
    (forall x, dirty_block f x = (x =? b) || dirty_block (k_fs s) x) -> Q tt f) ->
  fwp (bzero 1 b) s Q.
Proof.
  intros Ht Hk Hb Hl Hr Hlog HQ. unfold bzero. apply (fwp_read_bind cur pid b H (k + gap (k_fs s) b)); [done|done|done|lia|].
  intros i s1 T1 B1 K1 M1 C1 D1. replace (gap (k_fs s) b) with (gap (k_fs s1) b) in T1 by (unfold gap; by rewrite D1).
  apply (fwp_put_bind cur pid i b (fun m => memset m 0 0 BSIZE) (b :: H) k); [done|done|done| | |].
  { by rewrite (mv_disk _ _ M1). }
  { unfold in_log. by rewrite (mv_start _ _ M1), (mv_size _ _ M1). }
  intros s2 T2 K2 M2 C2 D2. apply (fwp_tx_release cur pid i b H k); [done|by apply K2|].
  intros f T3 K3 M3 C3 D3. apply HQ; [done| |etransitivity; [exact M1|]; etransitivity; [exact M2|exact M3]| |].
  - intros j x Hj. apply K3; [|by apply K2, K1]. intros ->. by apply Hb, (bound_in pid _ _ _ _ _ Ht Hj).
  - intros x. rewrite C3, C2. by rewrite !C1.
  - intros x. by rewrite D3, D2, D1.
Qed.

(** ** balloc *)

(** The blocks the caller holds: data blocks in use. *)
Definition data_held (f : fsst) (H : list Z) : Prop :=
  forall b, b ∈ H -> data_start (fs_sb f) <= b /\ used f b = true.

(** Block [r] was free, and is now in use and zero. *)
Record allocated (f f' : fsst) (r : Z) : Prop := mkAllocated {
  al_range : data_start (fs_sb f) <= r < sb_size (fs_sb f);
  al_free : used f r = false;
  al_moved : moved f f';
  al_zero : content f' r = memset (content f r) 0 0 BSIZE;
  al_used : forall b, 0 <= b < sb_size (fs_sb f) -> used f' b = (b =? r) || used f b;
  al_other : forall b, data_start (fs_sb f) <= b \/ b < sb_bmapstart (fs_sb f) -> b <> r -> content f' b = content f b;
  al_dirty : forall b, dirty_block f' b = (b =? r) || (b =? BBLOCK r (fs_sb f)) || dirty_block f b
}.

Lemma BBLOCK_eq b r sb : BBLOCK b sb = BBLOCK r sb -> b mod BPB = r mod BPB -> b = r.
Proof.
  unfold BBLOCK. intros E1 E2. pose proof (Z.div_mod b BPB ltac:(done)). pose proof (Z.div_mod r BPB ltac:(done)). nia.
Qed.

Lemma allocated_intro f f' r :
  geom f -> meta_used f -> 0 <= r < sb_size (fs_sb f) -> used f r = false -> moved f f' ->
  (forall x, content f' x = if x =? r then memset (content f r) 0 0 BSIZE
     else if x =? BBLOCK r (fs_sb f) then set_bit (content f (BBLOCK r (fs_sb f))) (r mod BPB) else content f x) ->
  (forall b, dirty_block f' b = (b =? r) || (b =? BBLOCK r (fs_sb f)) || dirty_block f b) ->
  allocated f f' r.
Proof.
  intros G Hm Hr Hu Hmv Hc Hdi. assert (Hd : data_start (fs_sb f) <= r).
  { destruct (Z_lt_dec r (data_start (fs_sb f))) as [Hlt|]; [|lia]. rewrite (Hm r) in Hu by lia. done. }
  pose proof (bmap_range f r G Hr) as Hbr. split; [lia|done|done| | | |done].
  - rewrite Hc, Z.eqb_refl. done.
  - intros b Hb. pose proof (bmap_range f b G Hb) as Hbb. unfold used. rewrite (mv_sb _ _ Hmv), Hc.
    rewrite (proj2 (Z.eqb_neq _ r)) by lia.
    pose proof (Z.mod_pos_bound b BPB ltac:(done)). pose proof (Z.mod_pos_bound r BPB ltac:(done)).
    destruct (Z.eqb_spec (BBLOCK b (fs_sb f)) (BBLOCK r (fs_sb f))) as [E|E].
    + rewrite E, set_bit_spec by lia. f_equal. destruct (Z.eqb_spec b r) as [->|Hne]; [apply Z.eqb_refl|].
      apply Z.eqb_neq. intros E2. by apply Hne, (BBLOCK_eq b r (fs_sb f)).
    + destruct (Z.eqb_spec b r) as [->|]; done.
  - intros b Hb Hne. rewrite Hc. rewrite (proj2 (Z.eqb_neq b r)) by done. destruct (Z.eqb_spec b (BBLOCK r (fs_sb f))); [lia|done].
Qed.

(** Reading and releasing blocks before the allocation does not matter. *)
Lemma allocated_after f f1 f' r :
  moved f f1 -> (forall b, content f1 b = content f b) -> (forall b, dirty_block f1 b = dirty_block f b) ->
  allocated f1 f' r -> allocated f f' r.
Proof.
  intros M C D [A1 A2 A3 A4 A5 A6 A7].
  assert (U : forall b, used f1 b = used f b) by (intros b; unfold used; by rewrite (mv_sb _ _ M), C).
  rewrite (mv_sb _ _ M) in *.
  split; [exact A1|rewrite <- U; exact A2|etransitivity; [exact M|exact A3]|rewrite A4, C; reflexivity| | |].
  - intros b Hb. rewrite A5 by done. by rewrite U.
  - intros b Hb Hne. rewrite A6 by done. apply C.
  - intros b. by rewrite A7, D.
Qed.

Lemma fwp_balloc_loop fuel : forall b s H k (Q : Z -> fsst -> Prop),
  geom (k_fs s) -> meta_used (k_fs s) -> tx (k_fs s) H (k + 1 + bm_gap (k_fs s)) -> 0 <= k -> (length H <= 2)%nat ->
  data_held (k_fs s) H -> 0 <= b -> b mod BPB = 0 -> sb_size (fs_sb (k_fs s)) <= b + Z.of_nat fuel * BPB ->
  (forall x, 0 <= x < b -> x < sb_size (fs_sb (k_fs s)) -> used (k_fs s) x = true) ->
  (exists x, 0 <= x < sb_size (fs_sb (k_fs s)) /\ used (k_fs s) x = false) ->
  (forall r f, allocated (k_fs s) f r -> (forall x, 0 <= x < r -> used (k_fs s) x = true) ->
    tx f H (k + bm_gap f) -> (forall j x, bound (k_fs s) j x -> bound f j x) -> Q r f) ->
  fwp (balloc_loop (S fuel) 1 b) s Q.
Proof.
  induction fuel as [|fuel IH]; intros b s H k Q G Hm Ht Hk Hlen Hdh Hb0 Hbm Hfuel Hlow [x [Hx Hxu]] HQ.
  all: assert (Hbx : b <= x) by (destruct (Z_lt_dec x b); [by rewrite Hlow in Hxu by lia|lia]).
  { change (Z.of_nat 0) with 0 in Hfuel. lia. }
  set (sb := fs_sb (k_fs s)) in *. set (F := S fuel) in *. cbn [balloc_loop]. apply fwp_gets_bind. fold sb.
  rewrite (proj2 (Z.ltb_lt b (sb_size sb))) by lia.
  assert (Hbs : 0 <= b < sb_size sb) by lia. pose proof (bmap_range _ b G Hbs) as Hbr. fold sb in Hbr.
  pose proof (inodes_before_bmap _ G) as Hib. pose proof (ge_bmap _ G) as Hgb. fold sb in Hib, Hgb.
  destruct (after_log _ (BBLOCK b sb) G) as [Hr1 Hr2]; [fold sb; lia|].
  assert (Hni : BBLOCK b sb ∉ H) by (intros Hin; destruct (Hdh _ Hin) as [? _]; fold sb in H0; lia).
  set (K := k + 1 + bm_gap (k_fs s)) in *.
  apply (fwp_read_bind cur pid _ H K); [done|done|lia|lia|]. intros i s1 T1 B1 K1 M1 C1 D1.
  apply (fwp_bytes_bind cur pid i (BBLOCK b sb) (BBLOCK b sb :: H) K); [done|done|]. rewrite C1.
  pose proof (free_bit_spec b (sb_size sb) (content (k_fs s) (BBLOCK b sb)) (Z.to_nat BPB) 0 ltac:(lia)) as Hf.
  assert (Hused : forall bi, 0 <= bi < BPB -> used (k_fs s) (b + bi) = bit_set (content (k_fs s) (BBLOCK b sb)) bi).
  { intros bi Hbi. by apply used_bit. }
  change (Z.of_nat (Z.to_nat BPB)) with BPB in Hf. destruct (free_bit _ _ _ _ _) as [bi|].
  - destruct Hf as (F1 & F2 & F3 & F4). destruct (bitmap_block b bi sb Hbm ltac:(lia)) as [E1 E2].
    assert (Eg : gap (k_fs s1) (BBLOCK b sb) = gap (k_fs s) (BBLOCK b sb)) by (unfold gap; by rewrite D1).
    pose proof (bm_gap_range (k_fs s)) as Hg0. pose proof (gap_range (k_fs s) (BBLOCK b sb)) as Hg1.
    apply (fwp_put_bind cur pid i (BBLOCK b sb) (fun m => set_bit m bi) (BBLOCK b sb :: H) (K - gap (k_fs s) (BBLOCK b sb)));
      [rewrite Eg; by replace (K - gap (k_fs s) (BBLOCK b sb) + gap (k_fs s) (BBLOCK b sb)) with K by lia|unfold K; lia|done|by rewrite (mv_disk _ _ M1)|
       by unfold in_log; rewrite (mv_start _ _ M1), (mv_size _ _ M1)|].
    intros s2 T2 K2 M2 C2 D2. apply (fwp_release_bind cur pid i (BBLOCK b sb) H (K - gap (k_fs s) (BBLOCK b sb))); [done|by apply K2|].
    intros s3 T3 K3 M3 C3 D3. assert (M : moved (k_fs s) (k_fs s3)) by (etransitivity; [exact M1|]; etransitivity; [exact M2|exact M3]).
    assert (D : forall x, dirty_block (k_fs s3) x = (x =? BBLOCK b sb) || dirty_block (k_fs s) x) by (intros y; by rewrite D3, D2, D1).
    pose proof (bm_gap_put (k_fs s) (k_fs s3) _ ltac:(fold sb; lia) (mv_sb _ _ M) D Hbr) as Hg3.
    assert (Hr : used (k_fs s) (b + bi) = false) by (rewrite Hused by lia; done).
    assert (Hd : data_start sb <= b + bi).
    { destruct (Z_lt_dec (b + bi) (data_start sb)) as [Hlt|]; [|lia]. rewrite (Hm (b + bi)) in Hr by (fold sb; lia). done. }
    destruct (after_log _ (b + bi) G) as [Hr3 Hr4]; [fold sb; lia|]. pose proof (gap_range (k_fs s3) (b + bi)).
    pose proof (bm_gap_range (k_fs s3)).
    apply fwp_bind. apply (fwp_bzero (b + bi) H (k + bm_gap (k_fs s3))); [eapply tx_weaken; [exact T3|unfold K; lia]|lia| |lia|by rewrite (mv_disk _ _ M)|
      by unfold in_log; rewrite (mv_start _ _ M), (mv_size _ _ M)|].
    { intros Hin. destruct (Hdh _ Hin) as [_ Hu]. congruence. }
    intros f T4 K4 M4 C4 D4 s4 <- _. apply fwp_ret. apply HQ; [| | |].
    + apply allocated_intro; [done|done|fold sb; lia|done|by etransitivity| |].
      * intros y. rewrite C4, !C3, !C2, !C1. fold sb. rewrite E1, E2.
        destruct (Z.eqb_spec y (b + bi)) as [->|]; [|by destruct (y =? BBLOCK b sb)].
        by rewrite (proj2 (Z.eqb_neq (b + bi) (BBLOCK b sb))) by lia.
      * intros y. fold sb. rewrite D4, D, E1. apply orb_assoc.
    + intros y Hy. destruct (Z_lt_dec y b); [apply Hlow; lia|]. replace y with (b + (y - b)) by lia.
      rewrite Hused by lia. apply F4. lia.
    + rewrite (bm_gap_ext (k_fs s3)); [done|rewrite (mv_sb _ _ M); fold sb; lia|apply M4|].
      intros y Hy. rewrite (mv_sb _ _ M) in Hy. fold sb in Hy. rewrite D4. by rewrite (proj2 (Z.eqb_neq y (b + bi))) by lia.
    + intros j y Hj. apply K4, K3; [|by apply K2, K1]. intros ->. by apply Hni, (bound_in pid _ _ _ _ _ Ht Hj).
  - apply (fwp_release_bind cur pid i (BBLOCK b sb) H K); [done|done|]. intros s3 T3 K3 M3 C3 D3.
    assert (M : moved (k_fs s) (k_fs s3)) by (by etransitivity).
    assert (C : forall y, content (k_fs s3) y = content (k_fs s) y) by (intros y; by rewrite C3, C1).
    assert (D : forall y, dirty_block (k_fs s3) y = dirty_block (k_fs s) y) by (intros y; by rewrite D3, D1).
    assert (U : forall y, used (k_fs s3) y = used (k_fs s) y) by (intros y; unfold used; by rewrite (mv_sb _ _ M), C).
    assert (Hall : forall y, 0 <= y < b + BPB -> y < sb_size sb -> used (k_fs s) y = true).
    { intros y Hy Hys. destruct (Z_lt_dec y b); [apply Hlow; lia|]. replace y with (b + (y - b)) by lia.
      rewrite Hused by lia. apply Hf; lia. }
    apply (IH (b + BPB) s3 H k); try done.
    + by apply (geom_moved (k_fs s)).
    + intros y. rewrite (mv_sb _ _ M), U. apply Hm.
    + rewrite (bm_gap_ext (k_fs s)); [done|fold sb; lia|apply M|done].
    + intros y Hy. rewrite (mv_sb _ _ M), U. by apply Hdh.
    + unfold BPB, BSIZE. lia.
    + rewrite <- (Z.mul_1_l BPB) at 1. by rewrite Z.mod_add.
    + rewrite (mv_sb _ _ M). fold sb. unfold F in Hfuel. lia.
    + intros y Hy. rewrite (mv_sb _ _ M), U. by apply Hall.
    + exists x. rewrite (mv_sb _ _ M), U. done.
    + intros r f Hal Hlow' Tf Kf. apply HQ; [|intros y Hy; rewrite <- U; by apply Hlow'|done|].
      * by apply (allocated_after _ (k_fs s3)).
      * intros j y Hj. apply Kf, K3; [|by apply K1]. intros ->. by apply Hni, (bound_in pid _ _ _ _ _ Ht Hj).
Qed.

Lemma size_blocks n m : 0 < n <= m -> n <= 0 + Z.of_nat (Z.to_nat (n / BPB + 1)) * BPB.
Proof.
  intros Hn. pose proof (Z.div_mod n BPB ltac:(done)). pose proof (Z.mod_pos_bound n BPB ltac:(done)).
  assert (0 <= n / BPB) by (apply Z.div_pos; [lia|done]). rewrite Z2Nat.id by lia. lia.
Qed.

Lemma fwp_balloc H k s (Q : Z -> fsst -> Prop) :
  geom (k_fs s) -> meta_used (k_fs s) -> tx (k_fs s) H (k + 1 + bm_gap (k_fs s)) -> 0 <= k -> (length H <= 2)%nat ->
  data_held (k_fs s) H -> (exists x, 0 <= x < sb_size (fs_sb (k_fs s)) /\ used (k_fs s) x = false) ->
  (forall r f, allocated (k_fs s) f r -> (forall x, 0 <= x < r -> used (k_fs s) x = true) ->
    tx f H (k + bm_gap f) -> (forall j x, bound (k_fs s) j x -> bound f j x) -> Q r f) ->
  fwp (balloc 1) s Q.
Proof.
  intros G Hm Ht Hk Hl Hd Hx HQ. unfold balloc. apply fwp_gets_bind. cbv beta.
  apply (fwp_balloc_loop (Z.to_nat _) 0 s H k); try done; [|lia].
  eapply size_blocks, G.
Qed.

(** A block of the free map read in, with nothing free in it. *)
Lemma balloc_loop_full fuel : forall b s H k,
  geom (k_fs s) -> tx (k_fs s) H k -> (length H <= 2)%nat -> fs_ready cur pid s ->
  (forall x, x ∈ H -> data_start (fs_sb (k_fs s)) <= x) -> 0 <= b -> b mod BPB = 0 ->
  sb_size (fs_sb (k_fs s)) <= b + Z.of_nat fuel * BPB ->
  (forall x, 0 <= x < sb_size (fs_sb (k_fs s)) -> used (k_fs s) x = true) ->
  panics (balloc_loop (S fuel) 1 b) s "balloc: out of blocks".
Proof.
  induction fuel as [|fuel IH]; intros b s H k G Ht Hlen Hrd Hdh Hb0 Hbm Hfuel Hall;
    set (sb := fs_sb (k_fs s)) in *.
  { change (Z.of_nat 0) with 0 in Hfuel. cbn [balloc_loop]. apply panics_bind_wp. unfold sb_get, wp, gets. fold sb.
    destruct (Z.ltb_spec b (sb_size sb)); [lia|reflexivity]. }
  set (F := S fuel) in *. cbn [balloc_loop]. apply panics_bind_wp. unfold sb_get, wp, gets. fold sb.
  destruct (Z.ltb_spec b (sb_size sb)) as [Hbs|]; [|reflexivity].
  pose proof (bmap_range _ b G ltac:(fold sb; lia)) as Hbr. pose proof (inodes_before_bmap _ G) as Hib.
  pose proof (ge_bmap _ G) as Hgb. fold sb in Hbr, Hib, Hgb.
  destruct (after_log _ (BBLOCK b sb) G) as [Hr1 _]; [fold sb; lia|].
  assert (Hni : BBLOCK b sb ∉ H) by (intros Hin; specialize (Hdh _ Hin); lia).
  apply (fpanics_bind cur pid); [done|]. apply (fwp_tx_read cur pid _ H k); [done|done|lia|lia|].
  intros i f1 T1 B1 K1 M1 C1 _ s1 <- R1. apply panics_bind_wp. unfold buf_bytes, wp, gets, buf_at.
  rewrite (bound_data pid _ _ _ _ _ T1 B1), C1.
  pose proof (free_bit_spec b (sb_size sb) (content (k_fs s) (BBLOCK b sb)) (Z.to_nat BPB) 0 ltac:(lia)) as Hf.
  change (Z.of_nat (Z.to_nat BPB)) with BPB in Hf. destruct (free_bit _ _ _ _ _) as [bi|].
  { exfalso. destruct Hf as (F1 & F2 & F3 & _). specialize (Hall (b + bi) ltac:(lia)).
    rewrite used_bit in Hall by (done || lia). fold sb in Hall. congruence. }
  apply (fpanics_bind cur pid); [done|]. apply (fwp_tx_release cur pid i (BBLOCK b sb) H k); [done|done|].
  intros f3 T3 K3 M3 C3 _ s3 <- R3. assert (M : moved (k_fs s) (k_fs s3)) by (etransitivity; [exact M1|exact M3]).
  apply (IH (b + BPB) s3 H k); rewrite ?(mv_sb _ _ M); fold sb; try done.
  - by apply (geom_moved (k_fs s)).
  - unfold BPB, BSIZE. lia.
  - rewrite <- (Z.mul_1_l BPB) at 1. by rewrite Z.mod_add.
  - unfold F in Hfuel. lia.
  - intros x Hx. unfold used. rewrite (mv_sb _ _ M), C3, C1. by apply Hall.
Qed.

Lemma balloc_full H k s :
  geom (k_fs s) -> tx (k_fs s) H k -> (length H <= 2)%nat -> fs_ready cur pid s ->
  (forall x, x ∈ H -> data_start (fs_sb (k_fs s)) <= x) ->
  (forall x, 0 <= x < sb_size (fs_sb (k_fs s)) -> used (k_fs s) x = true) ->
  panics (balloc 1) s "balloc: out of blocks".
Proof.
  intros G Ht Hl Hr Hd Hall. unfold balloc. apply panics_bind_wp. unfold sb_get, wp, gets.
  apply (balloc_loop_full (Z.to_nat _) 0 s H k); try done.
  eapply size_blocks, G.
Qed.

(** ** bfree *)

(** The superblock the file system uses is the one on the disk. *)
Definition sb_cached (f : fsst) : Prop := sb_of (content f 1) = fs_sb f.

Record freed (f f' : fsst) (r : Z) : Prop := mkFreed {
  fr_moved : moved f f';
  fr_used : forall b, 0 <= b < sb_size (fs_sb f) -> used f' b = negb (b =? r) && used f b;
  fr_other : forall b, data_start (fs_sb f) <= b \/ b < sb_bmapstart (fs_sb f) -> content f' b = content f b;
  fr_dirty : forall b, dirty_block f' b = (b =? BBLOCK r (fs_sb f)) || dirty_block f b
}.

Lemma freed_intro f f' r :
  geom f -> 0 <= r < sb_size (fs_sb f) -> moved f f' ->
  (forall x, content f' x =
     if x =? BBLOCK r (fs_sb f) then clear_bit (content f (BBLOCK r (fs_sb f))) (r mod BPB) else content f x) ->
  (forall b, dirty_block f' b = (b =? BBLOCK r (fs_sb f)) || dirty_block f b) ->
  freed f f' r.
Proof.
  intros G Hr Hmv Hc Hdi. pose proof (bmap_range f r G Hr) as Hbr. split; [done| | |done].
  - intros b Hb. unfold used. rewrite (mv_sb _ _ Hmv), Hc.
    pose proof (Z.mod_pos_bound b BPB ltac:(done)). pose proof (Z.mod_pos_bound r BPB ltac:(done)).
    destruct (Z.eqb_spec (BBLOCK b (fs_sb f)) (BBLOCK r (fs_sb f))) as [E|E].
    + rewrite E, clear_bit_spec by lia. f_equal. f_equal. destruct (Z.eqb_spec b r) as [->|Hne]; [apply Z.eqb_refl|].
      apply Z.eqb_neq. intros E2. by apply Hne, (BBLOCK_eq b r (fs_sb f)).
    + destruct (Z.eqb_spec b r) as [->|]; done.
  - intros b Hb. rewrite Hc. destruct (Z.eqb_spec b (BBLOCK r (fs_sb f))); [lia|done].
Qed.

Lemma fwp_readsb_bind {A} H k (g : superblock -> K A) s (Q : A -> fsst -> Prop) :
  tx (k_fs s) H k -> 1 ∉ H -> (length H <= 3)%nat -> 1 < d_size (fs_disk (k_fs s)) ->
  (forall s1, tx (k_fs s1) H k -> (forall j x, bound (k_fs s) j x -> bound (k_fs s1) j x) ->
    moved (k_fs s) (k_fs s1) -> (forall x, content (k_fs s1) x = content (k_fs s) x) ->
    (forall x, dirty_block (k_fs s1) x = dirty_block (k_fs s) x) ->
    fwp (g (sb_of (content (k_fs s) 1))) s1 Q) ->
  fwp (readsb 1 ≫= g) s Q.
Proof.
  intros Ht Hn Hl Hsz HQ. apply fwp_bind. unfold readsb.
  apply (fwp_read_bind cur pid 1 H k); [done..|]. intros i s1 T1 B1 K1 M1 C1 D1.
  apply (fwp_bytes_bind cur pid i 1 (1 :: H) k); [done..|].
  apply (fwp_release_bind cur pid i 1 H k); [done..|]. intros s2 T2 K2 M2 C2 D2. apply fwp_ret.
  intros s3 E3 _. rewrite C1. apply HQ; rewrite ?E3; [done| |by etransitivity| |].
  - intros j x Hj. apply K2; [|by apply K1]. intros ->. by apply Hn, (bound_in pid _ _ _ _ _ Ht Hj).
  - intros x. by rewrite C2, C1.
  - intros x. by rewrite D2, D1.
Qed.

Lemma with_sb_id f : with_sb (fs_sb f) f = f.
Proof. by destruct f. Qed.

(** What [bfree] needs to reach the block of the free map. *)
Lemma bfree_reach r (H : list Z) s :
  geom (k_fs s) -> 0 <= r < sb_size (fs_sb (k_fs s)) -> (forall x, x ∈ H -> data_start (fs_sb (k_fs s)) <= x) ->
  (1 ∉ H) /\ 1 < d_size (fs_disk (k_fs s)) /\ (BBLOCK r (fs_sb (k_fs s)) ∉ H) /\
  0 <= BBLOCK r (fs_sb (k_fs s)) < d_size (fs_disk (k_fs s)) /\ ~ in_log (fs_log (k_fs s)) (BBLOCK r (fs_sb (k_fs s))).
Proof.
  intros G Hr Hd. pose proof (bmap_range _ r G Hr). pose proof (inodes_before_bmap _ G). pose proof (ge_bmap _ G).
  pose proof (ge_log _ G). pose proof (ge_size _ G). pose proof (ge_lsize _ G).
  destruct (after_log _ (BBLOCK r (fs_sb (k_fs s))) G); [lia|].
  split_and!; [intros Hin; specialize (Hd _ Hin); lia|lia|intros Hin; specialize (Hd _ Hin); lia|lia|lia|done].
Qed.

Lemma fwp_bfree r H k s (Q : unit -> fsst -> Prop) :
  geom (k_fs s) -> sb_cached (k_fs s) -> tx (k_fs s) H (k + bm_gap (k_fs s)) -> 0 <= k -> (length H <= 3)%nat ->
  (forall x, x ∈ H -> data_start (fs_sb (k_fs s)) <= x) -> 0 <= r < sb_size (fs_sb (k_fs s)) -> used (k_fs s) r = true ->
  (forall f, freed (k_fs s) f r -> tx f H (k + bm_gap f) -> (forall j x, bound (k_fs s) j x -> bound f j x) -> Q tt f) ->
  fwp (bfree 1 r) s Q.
Proof.
  intros G Hsb Ht Hk Hl Hd Hr Hu HQ. destruct (bfree_reach r H s G Hr Hd) as (R1 & R2 & R3 & R4 & R5).
  set (K := k + bm_gap (k_fs s)) in *. pose proof (bmap_range _ r G Hr) as Hbr.
  pose proof (bm_gap_range (k_fs s)) as Hg0. pose proof (gap_range (k_fs s) (BBLOCK r (fs_sb (k_fs s)))) as Hg1.
  assert (Hg2 : gap (k_fs s) (BBLOCK r (fs_sb (k_fs s))) <= bm_gap (k_fs s)).
  { apply gap_clean; [apply bmaps_nodup|]. apply elem_bmaps; [apply G|done]. }
  unfold bfree. apply (fwp_readsb_bind H K); [done..|]. intros s1 T1 K1 M1 C1 D1. rewrite Hsb.
  apply fwp_bind. apply (fwp_modify cur pid (with_sb (fs_sb (k_fs s)))); [done|].
  rewrite <- (mv_sb _ _ M1), with_sb_id, (mv_sb _ _ M1). intros s2 E2 _. rewrite <- E2 in *. clear s1 E2.
  set (sb := fs_sb (k_fs s)) in *.
  apply (fwp_read_bind cur pid (BBLOCK r sb) H K); [done|done|done|by rewrite (mv_disk _ _ M1); lia|].
  intros i s3 T3 B3 K3 M3 C3 D3. apply (fwp_bytes_bind cur pid i (BBLOCK r sb) (BBLOCK r sb :: H) K); [done..|].
  assert (Hb : (Z.land (content (k_fs s3) (BBLOCK r sb) (r mod BPB / 8)) (Z.shiftl 1 (r mod BPB mod 8)) =? 0) = false).
  { rewrite C3, C1. unfold used, bit_set in Hu. by apply negb_true_iff in Hu. }
  cbv zeta. rewrite Hb. assert (M : moved (k_fs s) (k_fs s3)) by (etransitivity; [exact M1|exact M3]).
  assert (Eg : gap (k_fs s3) (BBLOCK r sb) = gap (k_fs s) (BBLOCK r sb)) by (unfold gap; by rewrite D3, D1).
  apply (fwp_put_bind cur pid i (BBLOCK r sb) (fun m => clear_bit m (r mod BPB)) (BBLOCK r sb :: H) (K - gap (k_fs s) (BBLOCK r sb)));
    [rewrite Eg; by replace (K - gap (k_fs s) (BBLOCK r sb) + gap (k_fs s) (BBLOCK r sb)) with K by lia|lia|done|by rewrite (mv_disk _ _ M)|by unfold in_log; rewrite (mv_start _ _ M), (mv_size _ _ M)|].
  intros s4 T4 K4 M4 C4 D4. apply (fwp_tx_release cur pid i (BBLOCK r sb) H (K - gap (k_fs s) (BBLOCK r sb))); [done|by apply K4|].
  intros f T5 K5 M5 C5 D5. assert (M' : moved (k_fs s) f) by (etransitivity; [exact M|]; etransitivity; [exact M4|exact M5]).
  assert (D : forall x, dirty_block f x = (x =? BBLOCK r sb) || dirty_block (k_fs s) x) by (intros x; by rewrite D5, D4, D3, D1).
  apply HQ.
  - apply freed_intro; [done|done|done| |done]. intros x. by rewrite C5, C4, !C3, !C1.
  - rewrite (bm_gap_put (k_fs s) f (BBLOCK r sb)); [|apply G|apply M'|done|done].
    by replace (k + (bm_gap (k_fs s) - gap (k_fs s) (BBLOCK r sb))) with (K - gap (k_fs s) (BBLOCK r sb)) by (unfold K; lia).
  - intros j x Hj. apply K5; [|by apply K4, K3, K1]. intros ->. by apply R3, (bound_in pid _ _ _ _ _ Ht Hj).
Qed.

Lemma bfree_free r H k s :
  geom (k_fs s) -> sb_cached (k_fs s) -> tx (k_fs s) H k -> (length H <= 3)%nat -> fs_ready cur pid s ->
  (forall x, x ∈ H -> data_start (fs_sb (k_fs s)) <= x) -> 0 <= r < sb_size (fs_sb (k_fs s)) -> used (k_fs s) r = false ->
  panics (bfree 1 r) s "freeing free block".
Proof.
  intros G Hsb Ht Hl Hrd Hd Hr Hu. destruct (bfree_reach r H s G Hr Hd) as (R1 & R2 & R3 & R4 & R5).
  unfold bfree. apply (fpanics_bind cur pid); [done|].
  assert (Hgo : fwp (readsb 1 ≫= mret) s (fun sb f => sb = fs_sb (k_fs s) /\ tx f H k /\ moved (k_fs s) f /\
    forall x, content f x = content (k_fs s) x)).
  { apply (fwp_readsb_bind H k); [done..|]. intros s1 T1 _ M1 C1 _. by apply fwp_ret. }
  assert (Hgo' : fwp (readsb 1) s (fun sb f => sb = fs_sb (k_fs s) /\ tx f H k /\ moved (k_fs s) f /\
    forall x, content f x = content (k_fs s) x)).
  { intros Hrr. specialize (Hgo Hrr). unfold wp, mbind, M_bind in *. by destruct (readsb 1 s). }
  eapply (fwp_mono cur pid); [|exact Hgo']. intros ? f (-> & T1 & M1 & C1) s1 E1 Hr1.
  apply panics_bind_wp. unfold wp, modify. rewrite E1, <- (mv_sb _ _ M1), with_sb_id.
  set (s2 := set_fs f s1). rewrite (mv_sb _ _ M1). set (sb := fs_sb (k_fs s)) in *.
  apply (fpanics_bind cur pid); [by destruct Hr1; split|].
  apply (fwp_tx_read cur pid (BBLOCK r sb) H k); [done|done|done|change (k_fs s2) with f; rewrite (mv_disk _ _ M1); lia|].
  change (k_fs s2) with f. intros i f3 T3 B3 K3 M3 C3 _ s3 <- R6. apply panics_bind_wp. unfold buf_bytes, wp, gets, buf_at.
  rewrite (bound_data pid _ _ _ _ _ T3 B3), C3, C1.
  unfold used, bit_set in Hu. apply negb_false_iff in Hu. fold sb in Hu. by rewrite Hu.
Qed.
End blocks.

(** Allocating a block.  Inside a transaction with room for one more block and for the
    blocks of the free map, where some
    block is free, [balloc] returns the first free block: it is a data block, it was
    free and is now marked in use, its content is now zero, every other block is as
    much in use as before, and no other block outside the free map changes.  Where no
    block is free, [balloc] stops the kernel with its message. *)
Theorem balloc_allocates cur pid H k s
  (Hr : fs_ready cur pid s) (G : geom (k_fs s)) (Hm : meta_used (k_fs s)) (Ht : tx pid (k_fs s) H (k + 1 + bm_gap (k_fs s)))
  (Hk : 0 <= k) (Hl : (length H <= 2)%nat) (Hd : data_held (k_fs s) H) :
  ((exists x, 0 <= x < sb_size (fs_sb (k_fs s)) /\ used (k_fs s) x = false) ->
    wp (balloc 1) s (fun r s' =>
      data_start (fs_sb (k_fs s)) <= r < sb_size (fs_sb (k_fs s)) /\
      used (k_fs s) r = false /\ (forall x, 0 <= x < r -> used (k_fs s) x = true) /\
      (forall b, 0 <= b < sb_size (fs_sb (k_fs s)) -> used (k_fs s') b = (b =? r) || used (k_fs s) b) /\
      (forall o, 0 <= o < BSIZE -> content (k_fs s') r o = 0) /\
      (forall b, data_start (fs_sb (k_fs s)) <= b \/ b < sb_bmapstart (fs_sb (k_fs s)) -> b <> r ->
        content (k_fs s') b = content (k_fs s) b) /\
      tx pid (k_fs s') H (k + bm_gap (k_fs s')) /\ frame s s' /\ fs_ready cur pid s')) /\
  ((forall x, 0 <= x < sb_size (fs_sb (k_fs s)) -> used (k_fs s) x = true) ->
    panics (balloc 1) s "balloc: out of blocks").
Proof.
  split; intros Hx.
  - assert (Hw : fwp cur pid (balloc 1) s (fun r f => allocated (k_fs s) f r /\
      (forall x, 0 <= x < r -> used (k_fs s) x = true) /\ tx pid f H (k + bm_gap f))) by (by eapply fwp_balloc).
    eapply wp_mono; [|by apply Hw]. intros r s' (Hf & Hr' & A & Hlow & Ht').
    destruct A as [A1 A2 A3 A4 A5 A6 _]. split_and!; try done; try lia.
    intros o Ho. rewrite A4, memset_spec by done. unfold inside. by rewrite (proj2 (Z.leb_le 0 o)), (proj2 (Z.ltb_lt o (0 + BSIZE))) by lia.
  - eapply balloc_full; try done. intros x Hxx. by apply Hd.
Qed.

(** Freeing a block.  Inside a transaction with room for the blocks of the free map, [bfree] of a block
    in use marks it free; every other block is as much in use as before, and no block
    outside the free map changes.  [bfree] of a free block stops the kernel with its
    message. *)
Theorem bfree_frees cur pid r H k s
  (Hr : fs_ready cur pid s) (G : geom (k_fs s)) (Hsb : sb_cached (k_fs s)) (Ht : tx pid (k_fs s) H (k + bm_gap (k_fs s)))
  (Hk : 0 <= k) (Hl : (length H <= 3)%nat) (Hd : forall x, x ∈ H -> data_start (fs_sb (k_fs s)) <= x)
  (Hb : 0 <= r < sb_size (fs_sb (k_fs s))) :
  (used (k_fs s) r = true ->
    wp (bfree 1 r) s (fun _ s' =>
      (forall b, 0 <= b < sb_size (fs_sb (k_fs s)) -> used (k_fs s') b = negb (b =? r) && used (k_fs s) b) /\
      (forall b, data_start (fs_sb (k_fs s)) <= b \/ b < sb_bmapstart (fs_sb (k_fs s)) ->
        content (k_fs s') b = content (k_fs s) b) /\
      tx pid (k_fs s') H (k + bm_gap (k_fs s')) /\ frame s s' /\ fs_ready cur pid s')) /\
  (used (k_fs s) r = false -> panics (bfree 1 r) s "freeing free block").
Proof.
  split; intros Hu; [|by eapply bfree_free].
  assert (Hw : fwp cur pid (bfree 1 r) s (fun _ f => freed (k_fs s) f r /\ tx pid f H (k + bm_gap f))) by (by eapply fwp_bfree).
  eapply wp_mono; [|by apply Hw]. intros [] s' (Hf & Hr' & [] & Ht'). by split_and!.
Qed.

(** A disk of 100 blocks with the layout of fs.h.  Inode 2 is a file of the two bytes
    "hi" in block 46, and inode 1 a directory, in block 47, where the file has the
    name "hi". *)
Module Small.

Definition sb : superblock := mkSb 100 54 100 30 2 32 45.

Definition le32 (v i : Z) : Z := Z.shiftr v (8 * i) mod 256.

Definition blocks (b o : Z) : Z :=
  match b with
  | 1 => le32 (match o / 4 with 0 => 100 | 1 => 54 | 2 => 100 | 3 => 30 | 4 => 2 | 5 => 32 | 6 => 45 | _ => 0 end) (o mod 4)
  | 32 => match o with 64 => 1 | 70 => 1 | 72 => 32 | 76 => 47 | 128 => 2 | 134 => 1 | 136 => 2 | 140 => 46 | _ => 0 end
  | 45 => if o <? 6 then 255 else 0
  | 46 => match o with 0 => 104 | 1 => 105 | _ => 0 end
  | 47 => match o with 0 => 1 | 2 => 46 | 16 => 2 | 18 => 104 | 19 => 105 | _ => 0 end
  | _ => 0
  end.

(** The inodes of both, which a process holds. *)
Definition file : inode :=
  mkInode 1 2 1 (mkSl true 7) true T_FILE 0 0 1 2 (fun i => if i =? 0 then 46 else 0).
Definition root : inode :=
  mkInode 1 1 1 (mkSl true 7) true T_DIR 0 0 1 32 (fun i => if i =? 0 then 47 else 0).

Definition fs : fsst :=
  mkFs (mkDisk blocks 100 []) Empty.bufs (log_geometry 2 30 1 (log_outstanding 1 zero_log)) sb
    (<[1%nat := root]> (<[0%nat := file]> (fun _ => zero_inode))).

Definition st : kstate :=
  set_fs fs (start (Some 0%nat) (fun _ => user_process RUNNING 7 (fun _ => 0)) empty_stab).

Lemma content_fs b : content fs b = blocks b.
Proof. by apply content_none. Qed.

Lemma ready : fs_ready 0 7 st.
Proof. split; [apply one_cpu_on|done]. Qed.

Lemma geometry : geom fs.
Proof. split; done. Qed.

Lemma used_fs b : 0 <= b < 100 -> used fs b = (b <? 48).
Proof.
  intros Hb. unfold used. rewrite content_fs. replace (BBLOCK b (fs_sb fs)) with 45.
  - assert (E : forallb (fun i => Bool.eqb (bit_set (blocks 45) (Z.of_nat i mod BPB)) (Z.of_nat i <? 48)) (seq 0 100) = true) by (vm_compute; reflexivity).
    rewrite forallb_forall in E. specialize (E (Z.to_nat b) ltac:(apply in_seq; lia)). rewrite Z2Nat.id in E by lia.
    by apply Bool.eqb_prop in E.
  - unfold BBLOCK. change (sb_bmapstart (fs_sb fs)) with 45. rewrite Z.div_small; [done|]. unfold BPB, BSIZE. lia.
Qed.

Lemma running : tx 7 fs [] 10.
Proof.
  split.
  - exists (seq 0 NBUF). split; [exact Empty.bufs_ring|done|]. intros i _. by split.
  - constructor.
  - done.
  - intros b Hb. by apply not_elem_of_nil in Hb.
  - split.
    + split; simpl; unfold LOGSIZE, MAXOPBLOCKS, in_log; simpl; lia.
    + intros b. unfold logged. simpl. split; [|intros (i & Hi & _); lia].
      unfold dirty_block. by rewrite (proj2 (find_idx_None _ _) (fun _ _ => eq_refl) : cached fs b = None).
  - done.
  - done.
  - done.
Qed.

Lemma meta : meta_used fs.
Proof.
  intros b Hb. change (0 <= b < 46) in Hb. rewrite used_fs by lia. apply Z.ltb_lt. lia.
Qed.

Lemma superblock_cached : sb_cached fs.
Proof. unfold sb_cached. rewrite content_fs. vm_compute. reflexivity. Qed.
End Small.

Lemma balloc_allocates_witness :
  wp (balloc 1) Small.st (fun r s' => r = 48 /\ content (k_fs s') 48 0 = 0 /\ used (k_fs s') 48 = true).
Proof.
  destruct (balloc_allocates 0 7 [] 8 Small.st Small.ready Small.geometry Small.meta Small.running ltac:(done)
    ltac:(simpl; lia) ltac:(intros b Hb; by apply not_elem_of_nil in Hb)) as [Hw _].
  refine (wp_mono _ _ _ _ _ (Hw _)).
  - intros r s' (Hr & Hu & Hlow & Hu' & Hz & _). change (46 <= r < 100) in Hr.
    destruct (Z.eq_dec r 48) as [->|Hne].
    + split; [reflexivity|]. split; [apply Hz; unfold BSIZE; lia|]. rewrite Hu' by (change (0 <= 48 < 100); lia). reflexivity.
    + assert (Hcase : r = 46 \/ r = 47 \/ 48 < r) by lia. destruct Hcase as [->|[->|Hgt]].
      { change (k_fs Small.st) with Small.fs in Hu. rewrite Small.used_fs in Hu by lia. discriminate Hu. }
      { change (k_fs Small.st) with Small.fs in Hu. rewrite Small.used_fs in Hu by lia. discriminate Hu. }
      specialize (Hlow 48 ltac:(lia)). change (k_fs Small.st) with Small.fs in Hlow. rewrite Small.used_fs in Hlow by lia. discriminate Hlow.
  - exists 48. split; [split; [discriminate|reflexivity]|]. change (k_fs Small.st) with Small.fs. rewrite Small.used_fs by lia. reflexivity.
Defined.

Lemma bfree_frees_witness :
  wp (bfree 1 46) Small.st (fun _ s' => used (k_fs s') 46 = false) /\ panics (bfree 1 48) Small.st "freeing free block".
Proof.
  split.
  - destruct (bfree_frees 0 7 46 [] 9 Small.st Small.ready Small.geometry Small.superblock_cached Small.running ltac:(done)
      ltac:(simpl; lia) ltac:(intros b Hb; by apply not_elem_of_nil in Hb) ltac:(split; [discriminate|reflexivity])) as [Hw _].
    refine (wp_mono _ _ _ _ _ (Hw (Small.used_fs 46 ltac:(lia)))).
    intros [] s' (Hu & _). rewrite Hu by (change (0 <= 46 < 100); lia). reflexivity.
  - destruct (bfree_frees 0 7 48 [] 9 Small.st Small.ready Small.geometry Small.superblock_cached Small.running ltac:(done)
      ltac:(simpl; lia) ltac:(intros b Hb; by apply not_elem_of_nil in Hb) ltac:(split; [discriminate|reflexivity])) as [_ Hp].
    exact (Hp (Small.used_fs 48 ltac:(lia))).
Defined.
