(* ===== verification/Inode.v ===== *)
(** * fs.c: the content of files

    The blocks of an inode as a map from block numbers of the file to blocks of the
    disk, and the specification of [bmap], [readi], [writei] and [iupdate] in terms
    of the bytes of files. *)

From S2P Require Import Prelude CString KState Spinlock Cprintf Proc Sleeplock Bio Log LogCrash Tx Fs Blocks.

(** Arithmetic on the sizes of fs.h. *)
Ltac fs_lia := unfold MAXFILE, NDIRECT, NINDIRECT, BSIZE in *; change (512 / 4) with 128 in *; lia.

(** ** The blocks of a file *)

(** The indirect block, and block [bn] of the file; 0 where there is none. *)
Definition ind (x : inode) : Z := i_addrs x NDIRECT.

Definition iblock (f : fsst) (x : inode) (bn : Z) : Z :=
  if bn <? NDIRECT then i_addrs x bn
  else if ind x =? 0 then 0 else load32 (content f (ind x)) (4 * (bn - NDIRECT)).

(** Byte [o] of the file. *)
Definition fbyte (f : fsst) (x : inode) (o : Z) : Z := content f (iblock f x (o / BSIZE)) (o mod BSIZE).

(** A data block in use. *)
Definition data_block (f : fsst) (b : Z) : Prop :=
  data_start (fs_sb f) <= b < sb_size (fs_sb f) /\ used f b = true.

(** A block whose content an allocation leaves alone. *)
Definition settled (f : fsst) (b : Z) : Prop := b < sb_bmapstart (fs_sb f) \/ data_block f b.

Record file_ok (f : fsst) (x : inode) : Prop := mkFileOk {
  fo_dev : i_dev x = 1;
  fo_size : 0 <= i_size x <= MAXFILE * BSIZE;
  fo_block : forall b, 0 <= b < MAXFILE -> iblock f x b <> 0 -> data_block f (iblock f x b);
  fo_ind : ind x <> 0 -> data_block f (ind x);
  fo_inj : forall b c, 0 <= b < MAXFILE -> 0 <= c < MAXFILE -> iblock f x b <> 0 -> iblock f x b = iblock f x c -> b = c;
  fo_apart : forall b, 0 <= b < MAXFILE -> ind x <> 0 -> iblock f x b <> ind x;
  fo_alloc : forall b, 0 <= b -> b * BSIZE < i_size x -> iblock f x b <> 0
}.

Record layout (f : fsst) : Prop := mkLayout { la_geom : geom f; la_meta : meta_used f }.

(** What the routines on files keep of the file system. *)
Record kept (f f' : fsst) : Prop := mkKept {
  kp_disk : fs_disk f' = fs_disk f;
  kp_sb : fs_sb f' = fs_sb f;
  kp_start : lg_start (fs_log f') = lg_start (fs_log f);
  kp_size : lg_size (fs_log f') = lg_size (fs_log f);
  kp_out : lg_outstanding (fs_log f') = lg_outstanding (fs_log f);
  kp_com : lg_committing (fs_log f') = lg_committing (fs_log f)
}.

#[export] Instance kept_preorder : PreOrder kept.
Proof. split; [by split|]. intros x y z [] []. split; congruence. Qed.

Lemma moved_kept f f' g : moved f f' -> kept f (with_inode g f').
Proof. intros []. by split. Qed.

Lemma geom_kept f f' : kept f f' -> geom f -> geom f'.
Proof. intros [A B C D E _] [G1 G2 G3 G4 G5 G6]. split; rewrite ?A, ?B, ?C, ?D; done. Qed.

(** The same inode with other blocks. *)
Definition set_addrs (a : Z -> Z) (x : inode) : inode :=
  inode_disk (i_type x) (i_major x) (i_minor x) (i_nlink x) (i_size x) a x.

(** [b] is not the indirect block. *)
Definition off_ind (x : inode) (b : Z) : Prop := ind x <> 0 -> b <> ind x.

(** [b] is a block of the file. *)
Definition of_file (f : fsst) (x : inode) (b : Z) : Prop :=
  (ind x <> 0 /\ b = ind x) \/ exists bn, 0 <= bn < MAXFILE /\ iblock f x bn <> 0 /\ b = iblock f x bn.

(** The file system [f'] with inode [x'] is [f] with [x] and blocks added to the file. *)
Record grown (f : fsst) (x : inode) (f' : fsst) (x' : inode) : Prop := mkGrown {
  gr_kept : kept f f';
  gr_meta : x' = set_addrs (i_addrs x') x;
  gr_old : forall b, 0 <= b < MAXFILE -> iblock f x b <> 0 -> iblock f' x' b = iblock f x b;
  gr_content : forall b, settled f b -> off_ind x b -> content f' b = content f b;
  gr_used : forall b, data_block f b -> data_block f' b;
  gr_dirty : forall b, dirty_block f b = true -> dirty_block f' b = true;
  gr_fresh : forall b, settled f b -> off_ind x b -> off_ind x' b;
  gr_new : forall b, settled f b -> ~ of_file f x b -> ~ of_file f' x' b;
  gr_layout : layout f';
  gr_ok : file_ok f' x'
}.

Lemma grown_settled f x f' x' b : grown f x f' x' -> settled f b -> settled f' b.
Proof. intros A [H|H]; [left; by rewrite (kp_sb _ _ (gr_kept _ _ _ _ A))|right; by apply A]. Qed.

Lemma grown_trans f x f1 x1 f2 x2 : grown f x f1 x1 -> grown f1 x1 f2 x2 -> grown f x f2 x2.
Proof.
  intros A B. pose proof (fun b => grown_settled _ _ _ _ b A) as Hs. split; try apply B.
  - etransitivity; [apply A|apply B].
  - rewrite (gr_meta _ _ _ _ B), (gr_meta _ _ _ _ A). done.
  - intros b Hb Hne. rewrite <- (gr_old _ _ _ _ A b Hb Hne). apply B; [done|]. by rewrite (gr_old _ _ _ _ A b Hb Hne).
  - intros b Hb Hne. rewrite (gr_content _ _ _ _ B), (gr_content _ _ _ _ A); [done|done|done|by apply Hs|].
    by apply (gr_fresh _ _ _ _ A).
  - intros b Hb. by apply B, A.
  - intros b Hb. by apply B, A.
  - intros b Hb Hne. apply (gr_fresh _ _ _ _ B); [by apply Hs|]. by apply (gr_fresh _ _ _ _ A).
  - intros b Hb Hne. apply (gr_new _ _ _ _ B); [by apply Hs|]. by apply (gr_new _ _ _ _ A).
Qed.

(** Bytes of blocks the file had. *)
Lemma grown_fbyte f x f' x' o : file_ok f x -> grown f x f' x' ->
  0 <= o / BSIZE < MAXFILE -> iblock f x (o / BSIZE) <> 0 -> fbyte f' x' o = fbyte f x o.
Proof.
  intros Hok Hg Ho Hne. unfold fbyte. rewrite (gr_old _ _ _ _ Hg) by done.
  rewrite (gr_content _ _ _ _ Hg); [done|right; by apply (fo_block _ _ Hok)|]. intros Hi. by apply (fo_apart _ _ Hok).
Qed.

(** ** Growth of a file by one block *)

Lemma data_block_alloc f f' g r b : allocated f f' r -> data_start (fs_sb f) <= b < sb_size (fs_sb f) -> 0 <= data_start (fs_sb f) ->
  (data_block (with_inode g f') b <-> b = r \/ data_block f b).
Proof.
  intros A Hb H0. unfold data_block. change (used (with_inode g f') b) with (used f' b).
  change (fs_sb (with_inode g f')) with (fs_sb f'). rewrite (mv_sb _ _ (al_moved _ _ _ A)), (al_used _ _ _ A) by lia.
  rewrite orb_true_iff, Z.eqb_eq. naive_solver.
Qed.

Lemma data_start_pos f : geom f -> 1 < data_start (fs_sb f).
Proof.
  intros G. pose proof (inodes_before_bmap _ G). pose proof (ge_log _ G). pose proof (ge_lsize _ G). pose proof (ge_size _ G).
  unfold data_start. assert (0 <= (sb_size (fs_sb f) - 1) / BPB) by (apply Z.div_pos; [lia|done]). lia.
Qed.

Section grow.
Context (f f1 : fsst) (x : inode) (r : Z) (g : nat -> inode).
Context (Hla : layout f) (Hok : file_ok f x) (Hal : allocated f f1 r).
Abbreviation f' := (with_inode g f1).

Lemma alloc_new b : settled f b -> b <> r.
Proof.
  intros Hb ->. pose proof (al_range _ _ _ Hal). pose proof (al_free _ _ _ Hal).
  destruct Hb as [Hb|[_ Hb]]; [|congruence]. unfold data_start in *.
  assert (0 <= (sb_size (fs_sb f) - 1) / BPB); [|lia]. apply Z.div_pos; [|done]. pose proof (ge_size _ (la_geom _ Hla)). lia.
Qed.

Lemma alloc_nonzero : r <> 0.
Proof. pose proof (al_range _ _ _ Hal). pose proof (data_start_pos _ (la_geom _ Hla)). lia. Qed.

Lemma alloc_used b : data_block f b -> data_block f' b.
Proof.
  intros Hb. pose proof (data_start_pos _ (la_geom _ Hla)). apply (data_block_alloc f f1 g r b Hal); [apply Hb|lia|by right].
Qed.

Lemma alloc_self : data_block f' r.
Proof.
  pose proof (data_start_pos _ (la_geom _ Hla)). apply (data_block_alloc f f1 g r r Hal); [apply Hal|lia|by left].
Qed.

Lemma alloc_layout : layout f'.
Proof.
  destruct Hla as [G Hm]. pose proof (moved_kept _ _ g (al_moved _ _ _ Hal)) as Hk. split; [by apply (geom_kept f)|].
  intros b Hb. rewrite (kp_sb _ _ Hk) in Hb. change (used f' b) with (used f1 b). pose proof (ge_bmap _ G).
  rewrite (al_used _ _ _ Hal) by lia. rewrite (Hm b) by lia. apply orb_true_r.
Qed.

Lemma alloc_content b : settled f b -> content f' b = content f b.
Proof.
  intros Hb. change (content f' b) with (content f1 b). apply (al_other _ _ _ Hal); [|by apply alloc_new].
  destruct Hb as [Hb|[Hb _]]; lia.
Qed.

Lemma alloc_dirty b : dirty_block f b = true -> dirty_block f' b = true.
Proof. intros Hb. change (dirty_block f' b) with (dirty_block f1 b). rewrite (al_dirty _ _ _ Hal), Hb. apply orb_true_r. Qed.
End grow.

(** Block [bn], which the file did not have, is now [r]. *)
Lemma grown_block f f2 x x' bn r :
  layout f2 -> file_ok f x -> kept f f2 -> (forall b, settled f b -> b <> r) -> r <> 0 ->
  (forall b, data_block f b -> data_block f2 b) -> data_block f2 r ->
  (forall b, settled f b -> off_ind x b -> content f2 b = content f b) ->
  (forall b, dirty_block f b = true -> dirty_block f2 b = true) ->
  x' = set_addrs (i_addrs x') x -> ind x' = ind x -> 0 <= bn < MAXFILE -> iblock f x bn = 0 ->
  (forall b, 0 <= b < MAXFILE -> iblock f2 x' b = if b =? bn then r else iblock f x b) ->
  grown f x f2 x'.
Proof.
  intros Hl Hok Hk Hnew Hr0 Hu Hself Hc Hd Em Ei Hbn Hz Hib. split; try done.
  - intros b Hb Hne. rewrite Hib by done. destruct (Z.eqb_spec b bn) as [->|]; done.
  - intros b _ Hb. unfold off_ind. by rewrite Ei.
  - intros b Hb Hno [[Hi ->]|(c & Hc' & Hne & ->)]; [apply Hno; left; by rewrite Ei in *|].
    rewrite Hib in Hb, Hne, Hno by done. destruct (c =? bn); [by apply (Hnew r)|]. apply Hno. right. by exists c.
  - assert (Hds : forall b, data_block f b -> b <> r) by (intros b Hb; apply Hnew; by right).
    assert (Es : i_size x' = i_size x) by (by rewrite Em). destruct Hok as [O1 O2 O3 O4 O5 O6 O7].
    rewrite Em. split; try done.
    + intros b Hb. rewrite <- Em, Hib by done. destruct (b =? bn); [done|]. intros Hne. by apply Hu, O3.
    + rewrite <- Em, Ei. intros Hi. by apply Hu, O4.
    + rewrite <- Em. intros b c Hb Hc'. rewrite !Hib by done. destruct (Z.eqb_spec b bn) as [->|], (Z.eqb_spec c bn) as [->|]; try done.
      * intros _ E. destruct (Hds r); [|done]. rewrite E. apply O3; [done|]. congruence.
      * intros Hne E. destruct (Hds r); [|done]. rewrite <- E. by apply O3.
      * by apply O5.
    + rewrite <- Em, Ei. intros b Hb Hi. rewrite Hib by done. destruct (b =? bn); [|by apply O6].
      intros ->. by apply (Hds (ind x) (O4 Hi)).
    + rewrite <- Em. intros b Hb Hs. rewrite Es in Hs. assert (b < MAXFILE) by fs_lia.
      rewrite Hib by lia. destruct (b =? bn); [done|]. by apply O7.
Qed.

(** The indirect block, which the file did not have, is now the zero block [r]. *)
Lemma grown_ind f f2 x r :
  layout f2 -> file_ok f x -> kept f f2 -> (forall b, settled f b -> b <> r) -> r <> 0 ->
  (forall b, data_block f b -> data_block f2 b) -> data_block f2 r ->
  (forall b, settled f b -> content f2 b = content f b) ->
  (forall b, dirty_block f b = true -> dirty_block f2 b = true) ->
  ind x = 0 -> (forall a, 0 <= a < BSIZE -> content f2 r a = 0) ->
  grown f x f2 (inode_addr NDIRECT r x) /\ forall b, 0 <= b < MAXFILE -> iblock f2 (inode_addr NDIRECT r x) b = iblock f x b.
Proof.
  intros Hl Hok Hk Hnew Hr0 Hu Hself Hc Hd Ei Hz. set (x' := inode_addr NDIRECT r x).
  assert (Ei' : ind x' = r) by (unfold ind, x'; simpl; by rewrite fn_insert_eq).
  assert (Hib : forall b, 0 <= b < MAXFILE -> iblock f2 x' b = iblock f x b).
  { intros b Hb. unfold iblock. rewrite Ei, Ei'. destruct (Z.ltb_spec b NDIRECT).
    - unfold x'. simpl. by rewrite fn_insert_ne by lia.
    - rewrite (proj2 (Z.eqb_neq r 0)) by done. unfold load32. by rewrite !Hz by fs_lia. }
  split; [|done]. assert (Hds : forall b, data_block f b -> b <> r) by (intros b Hb; apply Hnew; by right). split; try done.
  - intros b Hb _. by rewrite Hib.
  - intros b Hb _. by apply Hc.
  - intros b Hb _. unfold off_ind. rewrite Ei'. intros _. by apply Hnew.
  - intros b Hb Hno [[Hi ->]|(c & Hc' & Hne & ->)]; [rewrite Ei' in Hb; by apply (Hnew r)|].
    rewrite Hib in Hb, Hne, Hno by done. apply Hno. right. by exists c.
  - destruct Hok as [O1 O2 O3 O4 O5 O6 O7]. split; try done.
    + intros b Hb. rewrite Hib by done. intros Hne. by apply Hu, O3.
    + intros b c Hb Hc'. rewrite !Hib by done. by apply O5.
    + rewrite Ei'. intros b Hb _. rewrite Hib by done. destruct (Z.eq_dec (iblock f x b) 0) as [->|Hne]; [done|].
      by apply Hds, O3.
    + intros b Hb Hs. change (i_size x') with (i_size x) in Hs. rewrite Hib; [by apply O7|].
      fs_lia.
Qed.

(** ** The room a file needs *)

(** The free blocks of the disk. *)
Definition nfree (f : fsst) : Z := count_idx (fun i => negb (used f (Z.of_nat i))) (Z.to_nat (sb_size (fs_sb f))).

Lemma nfree_alloc f f' r : 0 <= r < sb_size (fs_sb f) -> allocated f f' r -> nfree f' = nfree f - 1.
Proof.
  intros Hr A. unfold nfree. rewrite (mv_sb _ _ (al_moved _ _ _ A)).
  rewrite (count_idx_ext _ (fun i => negb ((Z.of_nat i =? r) || used f (Z.of_nat i)))).
  2:{ intros i Hi. by rewrite (al_used _ _ _ A) by lia. }
  rewrite (count_idx_change (fun i => negb (used f (Z.of_nat i))) _ _ (Z.to_nat r)); [|lia|].
  - rewrite Z2Nat.id by lia. rewrite (al_free _ _ _ A), Z.eqb_refl. simpl. lia.
  - intros i Hne. by rewrite (proj2 (Z.eqb_neq _ r)) by lia.
Qed.

Lemma nfree_pos f : 0 < nfree f -> exists b, 0 <= b < sb_size (fs_sb f) /\ used f b = false.
Proof.
  intros H. destruct (find_idx (fun i => negb (used f (Z.of_nat i))) (Z.to_nat (sb_size (fs_sb f)))) as [i|] eqn:E.
  - apply find_idx_Some in E as (Hi & E & _). apply negb_true_iff in E. exists (Z.of_nat i). split; [lia|done].
  - unfold nfree in H. rewrite (proj2 (count_idx_zero _ _)) in H; [lia|]. exact (proj1 (find_idx_None _ _) E).
Qed.

(** The blocks of the log kept for the free map and the indirect block, and the
    blocks of the disk kept for the indirect block. *)
Definition reserve (f : fsst) (x : inode) : Z := bm_gap f + (if ind x =? 0 then 1 else gap f (ind x)).
Definition ind_need (x : inode) : Z := if ind x =? 0 then 1 else 0.

Lemma tx_inode pid f H k g : tx pid f H k -> tx pid (with_inode g f) H k.
Proof.
  intros [[o [C1 C2 C3]] A2 A3 A4 [L1 L2] A6 A7 A8]. split; try done.
  - exists o. by split.
  - intros i Hi Hr. destruct (A3 i Hi Hr) as ([] & B2 & B3). by split_and!.
  - intros b Hb. destruct (A4 b Hb) as (i & [] & E). exists i. by split.
Qed.

(** A change outside the free map. *)
Definition same_map (f f' : fsst) : Prop :=
  forall b, sb_bmapstart (fs_sb f) <= b < data_start (fs_sb f) -> content f' b = content f b.

Section same_map.
Context (f f' : fsst) (G : geom f) (Hk : kept f f') (Hm : same_map f f').

Lemma same_used b : 0 <= b < sb_size (fs_sb f) -> used f' b = used f b.
Proof. intros Hb. unfold used. rewrite (kp_sb _ _ Hk), Hm; [done|]. by apply bmap_range. Qed.

Lemma same_layout : meta_used f -> layout f'.
Proof.
  intros H. split; [by apply (geom_kept f)|]. intros b. rewrite (kp_sb _ _ Hk). intros Hb. pose proof (ge_bmap _ G).
  rewrite same_used by lia. by apply H.
Qed.

Lemma same_nfree : nfree f' = nfree f.
Proof. unfold nfree. rewrite (kp_sb _ _ Hk). apply count_idx_ext. intros i Hi. by rewrite same_used by lia. Qed.

Lemma same_data_block b : data_block f' b <-> data_block f b.
Proof.
  pose proof (data_start_pos _ G). unfold data_block. rewrite (kp_sb _ _ Hk).
  split; intros [Hb Hu]; (split; [done|]); [rewrite same_used in Hu by lia|rewrite same_used by lia]; done.
Qed.
End same_map.

Lemma with_inode_id f : with_inode (fs_inode f) f = f.
Proof. by destruct f. Qed.

Lemma moved_kept_id f f' : moved f f' -> kept f f'.
Proof. intros H. rewrite <- (with_inode_id f'). by apply moved_kept. Qed.

(** A data block written after the allocation of [r]: the entry of [r] in the indirect block. *)
Lemma grown_entry f f1 f2 x bn r :
  layout f -> file_ok f x -> ind x <> 0 -> NDIRECT <= bn < MAXFILE -> iblock f x bn = 0 -> allocated f f1 r ->
  kept f1 f2 -> (forall b, dirty_block f1 b = true -> dirty_block f2 b = true) ->
  (forall b, content f2 b = if b =? ind x then store32 (content f1 (ind x)) (4 * (bn - NDIRECT)) r else content f1 b) ->
  grown f x f2 x /\ iblock f2 x bn = r /\ nfree f2 = nfree f1.
Proof.
  intros Hla Hok Hi Hbn Hz A Hk2 Hd2 Hc2. pose proof (fo_ind _ _ Hok Hi) as Hdi. pose proof (la_geom _ Hla) as G.
  assert (Hk : kept f f1) by (apply moved_kept_id, A). pose proof (geom_kept _ _ Hk G) as G1.
  assert (Hnew := alloc_new f f1 r Hla A). assert (Hr0 := alloc_nonzero f f1 r Hla A).
  assert (Hu1 := alloc_used f f1 r (fs_inode f1) Hla A). assert (Hs1 := alloc_self f f1 r (fs_inode f1) Hla A).
  assert (Hc1 := alloc_content f f1 r (fs_inode f1) Hla A). assert (Hl1 := alloc_layout f f1 r (fs_inode f1) Hla A).
  assert (Hd1 := alloc_dirty f f1 r (fs_inode f1) A). rewrite with_inode_id in *.
  assert (Hsm : same_map f1 f2).
  { intros b Hb. rewrite Hc2. rewrite (kp_sb _ _ Hk) in Hb. destruct Hdi as [Hdi _].
    by rewrite (proj2 (Z.eqb_neq b (ind x))) by lia. }
  assert (Hrw : 0 <= r < W32).
  { pose proof (al_range _ _ _ A). pose proof (ge_word _ G). pose proof (data_start_pos _ G). lia. }
  assert (Hib : forall b, 0 <= b < MAXFILE -> iblock f2 x b = if b =? bn then r else iblock f x b).
  { intros b Hb. unfold iblock. destruct (Z.ltb_spec b NDIRECT); [by rewrite (proj2 (Z.eqb_neq b bn)) by lia|].
    rewrite (proj2 (Z.eqb_neq (ind x) 0)), Hc2, Z.eqb_refl by done. destruct (Z.eqb_spec b bn) as [->|].
    - by apply load32_store32.
    - rewrite load32_store32_ne by lia. rewrite Hc1; [done|by right]. }
  split_and!; [|rewrite Hib, Z.eqb_refl by fs_lia; done|by apply same_nfree].
  apply (grown_block f f2 x x bn r); try done.
  - apply (same_layout f1); [done|done|done|apply Hl1].
  - by etransitivity.
  - intros b Hb. by apply (same_data_block f1), Hu1.
  - by apply (same_data_block f1).
  - intros b Hb Ho. rewrite Hc2, (proj2 (Z.eqb_neq b (ind x))) by (by apply Ho). by apply Hc1.
  - intros b Hb. by apply Hd2, Hd1.
  - by destruct x.
  - fs_lia.
Qed.

Lemma inode_get_run {A} ip (g : inode -> K A) s : (inode_get ip ≫= g) s = g (inode_at s ip) s.
Proof. done. Qed.

Section inode.
Context (cur : nat) (pid : Z).
Abbreviation tx := (tx pid).
Abbreviation bound := (bound pid).
Abbreviation fwp := (fwp cur pid).

Lemma fwp_ret_bind {A B} (v : A) (g : A -> K B) s Q : fwp (g v) s Q -> fwp (mret v ≫= g) s Q.
Proof. done. Qed.

Lemma fwp_bind_assoc {A B C} (m : K A) (g : A -> K B) (h : B -> K C) s Q :
  fwp (m ≫= fun a => g a ≫= h) s Q -> fwp ((m ≫= g) ≫= h) s Q.
Proof. intros H Hr. specialize (H Hr). unfold wp, mbind, M_bind in *. destruct (m s); simpl in *; done. Qed.

(** The block is there: [bmap] finds it and changes nothing. *)
Lemma fwp_bmap_found ip bn k s (Q : Z -> fsst -> Prop) :
  layout (k_fs s) -> file_ok (k_fs s) (inode_at s ip) -> 0 <= bn < MAXFILE -> iblock (k_fs s) (inode_at s ip) bn <> 0 ->
  tx (k_fs s) [] k ->
  (forall f, tx f [] k -> moved (k_fs s) f -> (forall b, content f b = content (k_fs s) b) ->
    (forall b, dirty_block f b = dirty_block (k_fs s) b) -> Q (iblock (k_fs s) (inode_at s ip) bn) f) ->
  fwp (bmap ip bn) s Q.
Proof.
  intros Hla Hok Hbn Hne Ht HQ. unfold bmap. apply fwp_gets_bind. set (x := inode_at s ip) in *.
  unfold iblock in Hne, HQ. destruct (Z.ltb_spec bn NDIRECT) as [|Hge].
  { rewrite (proj2 (Z.eqb_neq _ 0)) by done. apply fwp_ret. by apply HQ. }
  rewrite (proj2 (Z.ltb_lt (bn - NDIRECT) NINDIRECT)) by fs_lia. fold (ind x) in *.
  destruct (Z.eqb_spec (ind x) 0) as [|Hi]; [done|]. apply fwp_ret_bind. rewrite (fo_dev _ _ Hok).
  destruct (fo_ind _ _ Hok Hi) as [Hib _]. destruct (la_geom _ Hla) as [[_ G1] _ _ _ _ _].
  unfold bmap_entry. apply (fwp_read_bind cur pid (ind x) [] k); [done|apply not_elem_of_nil|simpl; lia|lia|].
  intros i s1 T1 B1 K1 M1 C1 D1. apply (fwp_bytes_bind cur pid i (ind x) [ind x] k); [done..|]. rewrite C1.
  rewrite (proj2 (Z.eqb_neq _ 0)) by done. apply fwp_ret_bind.
  apply (fwp_release_bind cur pid i (ind x) [] k); [done..|]. intros s2 T2 K2 M2 C2 D2. apply fwp_ret.
  apply HQ; [done|by etransitivity| |]; intros b; [by rewrite C2, C1|by rewrite D2, D1].
Qed.

(** What [bmap] returns: block [r] is block [bn] of the file, which may have grown.
    [k] and [kf] are the room left in the log and on the disk beyond the reserves. *)
Record mapped (ip : nat) (bn k kf : Z) (f : fsst) (r : Z) (f' : fsst) : Prop := mkMapped {
  mp_grown : grown f (fs_inode f ip) f' (fs_inode f' ip);
  mp_block : iblock f' (fs_inode f' ip) bn = r;
  mp_nonzero : r <> 0;
  mp_others : forall j, j <> ip -> fs_inode f' j = fs_inode f j;
  mp_tx : tx f' [] (k + gap f' r + reserve f' (fs_inode f' ip));
  mp_space : kf + ind_need (fs_inode f' ip) <= nfree f';
  mp_found : iblock f (fs_inode f ip) bn <> 0 -> fs_inode f' ip = fs_inode f ip
}.

Lemma dirty_gap f b : dirty_block f b = true -> gap f b = 0.
Proof. unfold gap. by intros ->. Qed.

Lemma gap_mono f f' b : (dirty_block f b = true -> dirty_block f' b = true) -> gap f' b <= gap f b.
Proof. unfold gap. destruct (dirty_block f b); [intros ->; [lia|done]|]. destruct (dirty_block f' b); lia. Qed.

Lemma fwp_upd_inode_bind {A} ip h (g : K A) s (Q : A -> fsst -> Prop) :
  (forall s1, k_fs s1 = with_inode (<[ip := h (inode_at s ip)]> (fs_inode (k_fs s))) (k_fs s) -> fwp g s1 Q) ->
  fwp (upd_inode ip h;; g) s Q.
Proof.
  intros H. apply fwp_bind. unfold upd_inode.
  apply (fwp_modify cur pid (with_inode (<[ip := h (inode_at s ip)]> (fs_inode (k_fs s))))); [done|].
  intros s1 E _. by apply H.
Qed.

(** A new block in the inode itself: block [n], or the indirect block. *)
Lemma fwp_balloc_inode {A} ip n k s (g : Z -> K A) (Q : A -> fsst -> Prop) :
  layout (k_fs s) -> tx (k_fs s) [] (k + 1 + bm_gap (k_fs s)) -> 0 <= k -> 0 < nfree (k_fs s) ->
  (forall r f1 s1, allocated (k_fs s) f1 r -> k_fs s1 = with_inode (<[ip := inode_addr n r (inode_at s ip)]> (fs_inode (k_fs s))) f1 ->
    tx (k_fs s1) [] (k + bm_gap (k_fs s1)) -> nfree (k_fs s1) = nfree (k_fs s) - 1 -> fwp (g r) s1 Q) ->
  fwp ((addr ← balloc 1; upd_inode ip (inode_addr n addr);; mret addr) ≫= g) s Q.
Proof.
  intros [G Hm] Ht Hk Hf HQ. apply fwp_bind_assoc. apply fwp_bind.
  apply (fwp_balloc cur pid [] k s); [done|done|done|done|simpl; lia|intros b Hb; by apply not_elem_of_nil in Hb|by apply nfree_pos|].
  intros r f1 A1 _ T1 _ s1 <- _. apply fwp_bind_assoc. apply fwp_upd_inode_bind. intros s2 E2. apply fwp_ret_bind.
  assert (Ei : fs_inode (k_fs s1) = fs_inode (k_fs s)) by apply A1.
  apply (HQ r (k_fs s1) s2); [done| | |].
  - rewrite E2. unfold inode_at. by rewrite Ei.
  - rewrite E2. by apply tx_inode.
  - rewrite E2. change (nfree (with_inode _ (k_fs s1))) with (nfree (k_fs s1)). apply (nfree_alloc _ _ r); [|done].
    pose proof (al_range _ _ _ A1). pose proof (data_start_pos _ G). lia.
Qed.

Lemma fwp_bmap_direct ip bn k kf s (Q : Z -> fsst -> Prop) :
  layout (k_fs s) -> file_ok (k_fs s) (inode_at s ip) -> 0 <= bn < NDIRECT -> i_addrs (inode_at s ip) bn = 0 ->
  tx (k_fs s) [] (k + 1 + reserve (k_fs s) (inode_at s ip)) -> 0 <= k -> 0 <= kf ->
  kf + 1 + ind_need (inode_at s ip) <= nfree (k_fs s) ->
  (forall r f, mapped ip bn k kf (k_fs s) r f -> Q r f) ->
  fwp (addr ← balloc 1; upd_inode ip (inode_addr bn addr);; mret addr) s Q.
Proof.
  intros Hla Hok Hbn Hz Ht Hk Hkf Hsp HQ. set (x := inode_at s ip) in *.
  assert (Hgo : fwp ((addr ← balloc 1; upd_inode ip (inode_addr bn addr);; mret addr) ≫= mret) s Q).
  2:{ intros Hr. specialize (Hgo Hr). unfold wp, mbind, M_bind in *. destruct (balloc 1 s); done. }
  set (kx := k + (if ind x =? 0 then 1 else gap (k_fs s) (ind x))).
  assert (0 <= kx) by (unfold kx; pose proof (gap_range (k_fs s) (ind x)); case_match; lia).
  apply (fwp_balloc_inode ip bn kx); [done| |done|unfold ind_need in Hsp; case_match; lia|].
  { replace (kx + 1 + bm_gap (k_fs s)) with (k + 1 + reserve (k_fs s) x); [done|]. unfold kx, reserve. lia. }
  intros r f1 s1 A1 E1 T1 N1. apply fwp_ret. apply HQ.
  set (x' := inode_addr bn r x). assert (Ex' : fs_inode (k_fs s1) ip = x') by (by rewrite E1; simpl; rewrite fn_insert_eq).
  assert (Ei : ind x' = ind x) by (unfold ind, x'; simpl; by rewrite fn_insert_ne by fs_lia).
  assert (Er : iblock (k_fs s1) x' bn = r).
  { unfold iblock. rewrite (proj2 (Z.ltb_lt bn NDIRECT)) by lia. unfold x'. simpl. by rewrite fn_insert_eq. }
  assert (Hdr : dirty_block (k_fs s1) r = true).
  { rewrite E1. change (dirty_block (with_inode _ f1) r) with (dirty_block f1 r). by rewrite (al_dirty _ _ _ A1), Z.eqb_refl. }
  assert (Hd : forall b, dirty_block (k_fs s) b = true -> dirty_block (k_fs s1) b = true).
  { intros b Hb. rewrite E1. by apply (alloc_dirty (k_fs s) f1 r). }
  split; rewrite ?Ex'; [|done|by apply (alloc_nonzero (k_fs s) f1)| | | |].
  - change (fs_inode (k_fs s) ip) with x. rewrite E1.
    apply (grown_block _ _ x x' bn r); try done.
    + by apply (alloc_layout (k_fs s) f1 r).
    + apply moved_kept, A1.
    + intros b. by apply (alloc_new (k_fs s) f1).
    + by apply (alloc_nonzero (k_fs s) f1).
    + intros b. by apply (alloc_used (k_fs s) f1 r).
    + by apply (alloc_self (k_fs s) f1 r).
    + intros b Hb _. by apply (alloc_content (k_fs s) f1 r).
    + intros b Hb. rewrite <- E1. by apply Hd.
    + fs_lia.
    + unfold iblock. by rewrite (proj2 (Z.ltb_lt bn NDIRECT)) by lia.
    + intros b Hb. unfold iblock. destruct (Z.ltb_spec b NDIRECT) as [Hlt|].
      * unfold x'. simpl. destruct (Z.eqb_spec b bn) as [->|]; [by rewrite fn_insert_eq|by rewrite fn_insert_ne].
      * rewrite (proj2 (Z.eqb_neq b bn)), Ei by lia. destruct (Z.eqb_spec (ind x) 0); [done|].
        rewrite (alloc_content (k_fs s) f1 r); [done|done|done|]. right. by apply (fo_ind _ _ Hok).
  - intros j Hj. rewrite E1. simpl. by rewrite fn_insert_ne.
  - eapply tx_weaken; [exact T1|]. rewrite (dirty_gap _ _ Hdr). unfold reserve, kx. rewrite Ei.
    pose proof (bm_gap_range (k_fs s1)). pose proof (gap_range (k_fs s1) (ind x)). pose proof (gap_mono _ _ (ind x) (Hd (ind x))).
    destruct (ind x =? 0); lia.
  - unfold ind_need in *. rewrite Ei. rewrite N1. lia.
  - intros H'. destruct H'. unfold iblock. by rewrite (proj2 (Z.ltb_lt bn NDIRECT)) by lia.
Qed.

Lemma fwp_seq_ret {A B C D} (m : K A) (n : K B) (v : C) (h : C -> K D) s Q :
  fwp (m;; n;; h v) s Q -> fwp ((m;; n;; mret v) ≫= h) s Q.
Proof.
  intros H Hr. specialize (H Hr). unfold wp, mbind, M_bind in *. destruct (m s) as [a s1| | | | |]; try done.
  simpl in *. by destruct (n s1).
Qed.

(** The entry of a block in the indirect block. *)
Lemma fwp_entry_alloc ip bn k kf s (Q : Z -> fsst -> Prop) :
  layout (k_fs s) -> file_ok (k_fs s) (inode_at s ip) -> NDIRECT <= bn < MAXFILE -> ind (inode_at s ip) <> 0 ->
  iblock (k_fs s) (inode_at s ip) bn = 0 ->
  tx (k_fs s) [] (k + 1 + reserve (k_fs s) (inode_at s ip)) -> 0 <= k -> 0 <= kf -> kf + 1 <= nfree (k_fs s) ->
  (forall r f, mapped ip bn k kf (k_fs s) r f -> Q r f) ->
  fwp (bmap_entry 1 (ind (inode_at s ip)) (bn - NDIRECT)) s Q.
Proof.
  intros Hla Hok Hbn Hi Hz Ht Hk Hkf Hsp HQ. set (x := inode_at s ip) in *. set (f := k_fs s) in *.
  pose proof (fo_ind _ _ Hok Hi) as Hdb. destruct Hdb as [Hib Hiu]. pose proof (la_geom _ Hla) as G.
  pose proof (data_start_pos _ G) as Hds. pose proof (inodes_before_bmap _ G) as Hibm.
  assert (Hbs : sb_bmapstart (fs_sb f) <= data_start (fs_sb f)).
  { unfold data_start. assert (0 <= (sb_size (fs_sb f) - 1) / BPB); [|lia]. apply Z.div_pos; [pose proof (ge_size _ G); lia|done]. }
  destruct (after_log f (ind x) G ltac:(lia)) as [Hsz Hlg].
  unfold reserve in Ht. rewrite (proj2 (Z.eqb_neq (ind x) 0)) in Ht by done. set (gi := gap f (ind x)) in *.
  pose proof (gap_range f (ind x)) as Hgi. fold gi in Hgi. pose proof (bm_gap_range f) as Hbg.
  unfold bmap_entry. apply (fwp_read_bind cur pid (ind x) [] (k + 1 + (bm_gap f + gi))); [done|apply not_elem_of_nil|simpl; lia|apply Hsz|].
  fold f. intros i s1 T1 B1 K1 M1 C1 D1. apply (fwp_bytes_bind cur pid i (ind x) [ind x] (k + 1 + (bm_gap f + gi))); [done..|].
  assert (El : load32 (content f (ind x)) (4 * (bn - NDIRECT)) = 0).
  { unfold iblock in Hz. rewrite (proj2 (Z.ltb_ge bn NDIRECT)), (proj2 (Z.eqb_neq (ind x) 0)) in Hz by lia. done. }
  rewrite C1, El. apply fwp_bind_assoc. apply fwp_bind.
  assert (Hg1 : bm_gap (k_fs s1) = bm_gap f) by (apply bm_gap_ext; [apply G|apply M1|intros; apply D1]).
  assert (Hu1 : forall b, used (k_fs s1) b = used f b) by (intros b; unfold used; by rewrite (mv_sb _ _ M1), C1).
  assert (Hn1 : nfree (k_fs s1) = nfree f).
  { unfold nfree. rewrite (mv_sb _ _ M1). apply count_idx_ext. intros j _. by rewrite Hu1. }
  apply (fwp_balloc cur pid [ind x] (k + gi) s1).
  { by apply (geom_moved f). }
  { intros b. rewrite (mv_sb _ _ M1), Hu1. apply Hla. }
  { rewrite Hg1. replace (k + gi + 1 + bm_gap f) with (k + 1 + (bm_gap f + gi)) by lia. done. }
  { lia. } { simpl. lia. }
  { intros b ->%list_elem_of_singleton. rewrite (mv_sb _ _ M1), Hu1. split; [lia|done]. }
  { apply nfree_pos. lia. }
  intros r f2 A2 _ T2 K2 s2 <- _.
  apply (allocated_after f) in A2; [|done..].
  apply fwp_seq_ret. pose proof (al_moved _ _ _ A2) as M2. pose proof (gap_range (k_fs s2) (ind x)) as Hgi2.
  assert (Hgm : gap (k_fs s2) (ind x) <= gi).
  { apply gap_mono. intros Hd. by rewrite (al_dirty _ _ _ A2), Hd, orb_true_r. }
  pose proof (bm_gap_range (k_fs s2)) as Hbg2.
  apply (fwp_put_bind cur pid i (ind x) (fun m => store32 m (4 * (bn - NDIRECT)) r) [ind x] (k + bm_gap (k_fs s2)));
    [eapply tx_weaken; [exact T2|lia]|lia|by apply K2|by rewrite (mv_disk _ _ M2)|
     by unfold in_log; rewrite (mv_start _ _ M2), (mv_size _ _ M2)|].
  intros s3 T3 K3 M3 C3 D3.
  apply (fwp_release_bind cur pid i (ind x) [] (k + bm_gap (k_fs s2))); [done|by apply K3, K2|]. intros s4 T4 K4 M4 C4 D4.
  assert (M : moved (k_fs s2) (k_fs s4)) by (by etransitivity).
  destruct (grown_entry f (k_fs s2) (k_fs s4) x bn r) as (Hgr & Her & Hnf); try done.
  { by apply moved_kept_id. } { intros b Hb. by rewrite D4, D3, Hb, orb_true_r. } { intros b. by rewrite C4, C3. }
  apply fwp_ret. apply HQ. assert (Ex : fs_inode (k_fs s4) = fs_inode f) by (rewrite (mv_inode _ _ M); apply M2).
  assert (Hr : 0 <= r < sb_size (fs_sb f)) by (pose proof (al_range _ _ _ A2); lia).
  assert (Hdr : dirty_block (k_fs s4) r = true) by (by rewrite D4, D3, (al_dirty _ _ _ A2), Z.eqb_refl, orb_true_r).
  assert (Hdi : dirty_block (k_fs s4) (ind x) = true) by (by rewrite D4, D3, Z.eqb_refl).
  split; rewrite ?Ex; change (fs_inode f ip) with x; [done|done|by apply (alloc_nonzero f (k_fs s2))|done| | |done].
  - unfold reserve. rewrite (proj2 (Z.eqb_neq (ind x) 0)), (dirty_gap _ _ Hdr), (dirty_gap _ _ Hdi) by done.
    rewrite (bm_gap_ext (k_fs s2) (k_fs s4)); [by replace (k + 0 + (bm_gap (k_fs s2) + 0)) with (k + bm_gap (k_fs s2)) by lia| |apply M|].
    + rewrite (mv_sb _ _ M2). apply G.
    + intros b Hb. rewrite (mv_sb _ _ M2) in Hb. rewrite D4, D3. by rewrite (proj2 (Z.eqb_neq b (ind x))) by lia.
  - unfold ind_need. rewrite (proj2 (Z.eqb_neq (ind x) 0)) by done. rewrite Hnf, (nfree_alloc f _ r) by done. lia.
Qed.

Lemma grown_same f f' x :
  layout f -> file_ok f x -> kept f f' -> (forall b, content f' b = content f b) ->
  (forall b, dirty_block f' b = dirty_block f b) -> grown f x f' x.
Proof.
  intros Hla Hok Hk Hc Hd. pose proof (la_geom _ Hla) as G. assert (Hsm : same_map f f') by (intros b _; apply Hc).
  assert (Hib : forall b, iblock f' x b = iblock f x b) by (intros b; unfold iblock; by rewrite Hc).
  pose proof (same_data_block _ _ G Hk Hsm) as Hdb. split; try done.
  - by destruct x.
  - intros b Hb. by apply Hdb.
  - intros b Hb. by rewrite Hd.
  - intros b _ Hno [H|(c & Hc' & Hne & ->)]; [apply Hno; by left|]. rewrite Hib in *. apply Hno. right. by exists c.
  - apply (same_layout f); [done..|apply Hla].
  - destruct Hok as [O1 O2 O3 O4 O5 O6 O7]. split; try done.
    + intros b Hb. rewrite Hib. intros Hne. by apply Hdb, O3.
    + intros Hi. by apply Hdb, O4.
    + intros b c Hb Hc'. rewrite !Hib. by apply O5.
    + intros b Hb. rewrite Hib. by apply O6.
    + intros b Hb Hs. rewrite Hib. by apply O7.
Qed.

(** The first block through the indirect block: both are new. *)
Lemma mapped_ind ip bn k kf f f1 r f' :
  grown f (fs_inode f ip) f1 (fs_inode f1 ip) -> (forall j, j <> ip -> fs_inode f1 j = fs_inode f j) ->
  iblock f (fs_inode f ip) bn = 0 -> mapped ip bn k kf f1 r f' -> mapped ip bn k kf f r f'.
Proof.
  intros Hg Ho Hz [M1 M2 M3 M4 M5 M6 M7]. split; try done; [by eapply grown_trans|]. intros j Hj. by rewrite M4, Ho.
Qed.

Lemma fwp_bmap_ind ip bn k kf s (Q : Z -> fsst -> Prop) :
  layout (k_fs s) -> file_ok (k_fs s) (inode_at s ip) -> NDIRECT <= bn < MAXFILE -> ind (inode_at s ip) = 0 ->
  tx (k_fs s) [] (k + 1 + reserve (k_fs s) (inode_at s ip)) -> 0 <= k -> 0 <= kf ->
  kf + 1 + ind_need (inode_at s ip) <= nfree (k_fs s) ->
  (forall r f, mapped ip bn k kf (k_fs s) r f -> Q r f) ->
  fwp (addr ← (addr ← balloc 1; upd_inode ip (inode_addr NDIRECT addr);; mret addr); bmap_entry 1 addr (bn - NDIRECT)) s Q.
Proof.
  intros Hla Hok Hbn Hi Ht Hk Hkf Hsp HQ. set (x := inode_at s ip) in *.
  unfold reserve, ind_need in Ht, Hsp. rewrite Hi in Ht, Hsp. simpl in Ht, Hsp.
  apply (fwp_balloc_inode ip NDIRECT (k + 1)); [done| |lia|lia|].
  { by replace (k + 1 + 1 + bm_gap (k_fs s)) with (k + 1 + (bm_gap (k_fs s) + 1)) by lia. }
  intros r f1 s1 A1 E1 T1 N1. set (x1 := inode_addr NDIRECT r x).
  assert (Ex1 : inode_at s1 ip = x1) by (unfold inode_at; rewrite E1; simpl; by rewrite fn_insert_eq).
  assert (Ei1 : ind x1 = r) by (unfold ind, x1; simpl; by rewrite fn_insert_eq).
  assert (Hr0 := alloc_nonzero _ _ _ Hla A1).
  assert (Hdr : dirty_block (k_fs s1) r = true).
  { rewrite E1. change (dirty_block (with_inode _ f1) r) with (dirty_block f1 r). by rewrite (al_dirty _ _ _ A1), Z.eqb_refl. }
  destruct (grown_ind (k_fs s) (k_fs s1) x r) as [Hg Hib]; rewrite ?E1; try done.
  { by apply (alloc_layout (k_fs s) f1 r). } { apply moved_kept, A1. } { intros b. by apply (alloc_new (k_fs s) f1). }
  { intros b. by apply (alloc_used (k_fs s) f1 r). } { by apply (alloc_self (k_fs s) f1 r). }
  { intros b Hb. by apply (alloc_content (k_fs s) f1 r). } { intros b Hb. by apply (alloc_dirty (k_fs s) f1 r). }
  { intros a Ha. change (content (with_inode _ f1) r) with (content f1 r). rewrite (al_zero _ _ _ A1), memset_spec by done.
    unfold inside. by rewrite (proj2 (Z.leb_le 0 a)), (proj2 (Z.ltb_lt a (0 + BSIZE))) by lia. }
  fold x1 in Hg, Hib. pose proof (fwp_entry_alloc ip bn k kf s1 Q) as He. rewrite Ex1, Ei1 in He. apply He; [| |exact Hbn|exact Hr0| | |exact Hk|exact Hkf| |].
  - apply (gr_layout _ _ _ _ Hg).
  - apply (gr_ok _ _ _ _ Hg).
  - rewrite Hib by fs_lia. unfold iblock. by rewrite (proj2 (Z.ltb_ge bn NDIRECT)), Hi by lia.
  - unfold reserve. rewrite Ei1, (proj2 (Z.eqb_neq r 0)), (dirty_gap _ _ Hdr) by done.
    by replace (k + 1 + (bm_gap (k_fs s1) + 0)) with (k + 1 + bm_gap (k_fs s1)) by lia.
  - lia.
  - intros r2 f2 Hm. apply HQ. apply (mapped_ind ip bn k kf _ (k_fs s1)); [|intros j Hj; rewrite E1; simpl; by rewrite fn_insert_ne| |done].
    2:{ unfold iblock. by rewrite (proj2 (Z.ltb_ge bn NDIRECT)), (Hi : ind (fs_inode (k_fs s) ip) = 0) by lia. }
    change (fs_inode (k_fs s1) ip) with (inode_at s1 ip). by rewrite Ex1.
Qed.

Lemma fwp_bmap ip bn k kf s (Q : Z -> fsst -> Prop) :
  layout (k_fs s) -> file_ok (k_fs s) (inode_at s ip) -> 0 <= bn < MAXFILE ->
  tx (k_fs s) [] (k + 1 + reserve (k_fs s) (inode_at s ip)) -> 0 <= k -> 0 <= kf ->
  kf + 1 + ind_need (inode_at s ip) <= nfree (k_fs s) ->
  (forall r f, mapped ip bn k kf (k_fs s) r f -> Q r f) ->
  fwp (bmap ip bn) s Q.
Proof.
  intros Hla Hok Hbn Ht Hk Hkf Hsp HQ. set (x := inode_at s ip) in *.
  destruct (Z.eq_dec (iblock (k_fs s) x bn) 0) as [Hz|Hne].
  2:{ eapply fwp_bmap_found; [done..|]. intros f T M C D. fold x. apply HQ.
      pose proof (moved_kept_id _ _ M) as Hkp. assert (Hsm : same_map (k_fs s) f) by (intros b _; apply C).
      pose proof (la_geom _ Hla) as G. set (r := iblock (k_fs s) x bn) in *. split; rewrite ?(mv_inode _ _ M); try done.
      - by apply grown_same.
      - change (fs_inode (k_fs s) ip) with x. unfold iblock. rewrite C. done.
      - change (fs_inode (k_fs s) ip) with x. unfold reserve in *. unfold gap in *. rewrite !D in *.
        rewrite (bm_gap_ext (k_fs s) f); [|apply G|apply M|intros; apply D]. pose proof (bm_gap_range (k_fs s)).
        eapply tx_weaken; [exact T|]. destruct (dirty_block (k_fs s) r), (ind x =? 0), (dirty_block (k_fs s) (ind x)); lia.
      - change (fs_inode (k_fs s) ip) with x. rewrite (same_nfree (k_fs s) f) by done. lia. }
  unfold bmap. apply fwp_gets_bind. fold x. rewrite (fo_dev _ _ Hok). unfold iblock in Hz.
  destruct (Z.ltb_spec bn NDIRECT) as [Hlt|Hge].
  { rewrite Hz. apply (fwp_bmap_direct ip bn k kf); [exact Hla|exact Hok|lia|exact Hz|exact Ht|lia|lia|exact Hsp|exact HQ]. }
  rewrite (proj2 (Z.ltb_lt (bn - NDIRECT) NINDIRECT)) by fs_lia. fold (ind x).
  destruct (Z.eqb_spec (ind x) 0) as [Hi|Hi].
  - apply (fwp_bmap_ind ip bn k kf); [exact Hla|exact Hok|lia|exact Hi|exact Ht|lia|lia|exact Hsp|exact HQ].
  - apply fwp_ret_bind. apply (fwp_entry_alloc ip bn k kf); [exact Hla|exact Hok|lia|exact Hi| |exact Ht|lia|lia| |exact HQ].
    + unfold iblock. fold x. by rewrite (proj2 (Z.ltb_ge bn NDIRECT)), (proj2 (Z.eqb_neq (ind x) 0)) by lia.
    + unfold ind_need in Hsp. rewrite (proj2 (Z.eqb_neq (ind x) 0)) in Hsp by done. lia.
Qed.
End inode.
