(* ===== verification/Content.v ===== *)
(** * fs.c: reading and writing files

    The inode on the disk and in memory; [iupdate], [readi] and [writei] as
    operations on the bytes of a file. *)

From S2P Require Import Prelude CString KState Spinlock Cprintf Proc Sleeplock Bio Log LogCrash Tx Fs Blocks Inode.

(** ** The inode on the disk *)

Lemma int16_range z : -32768 <= int16 z < 32768.
Proof. unfold int16. pose proof (Z.mod_pos_bound z 65536 ltac:(lia)). destruct (Z.ltb_spec (z mod 65536) 32768); lia. Qed.

Lemma int16_mod z : int16 (z mod 65536) = int16 z.
Proof. unfold int16. by rewrite Z.mod_mod by lia. Qed.

Lemma int16_small z : -32768 <= z < 32768 -> int16 z = z.
Proof.
  intros Hz. unfold int16. destruct (Z_lt_dec z 0).
  - replace (z mod 65536) with (z + 65536); [destruct (Z.ltb_spec (z + 65536) 32768); lia|].
    rewrite <- (Z.mod_add z 1) by lia. symmetry. apply Z.mod_small. lia.
  - rewrite Z.mod_small by lia. destruct (Z.ltb_spec z 32768); lia.
Qed.

Lemma store16_ne m a v x : (x < a \/ a + 2 <= x) -> store16 m a v x = m x.
Proof. intros H. unfold store16. by rewrite !upd_ne by lia. Qed.

Lemma load16_ext m m' a : (forall x, a <= x < a + 2 -> m' x = m x) -> load16 m' a = load16 m a.
Proof. intros H. unfold load16. by rewrite !H by lia. Qed.

Lemma load16_store16 m a v : load16 (store16 m a v) a = v mod 65536.
Proof.
  unfold load16, store16. rewrite upd_eq, upd_ne, upd_eq by lia. unfold byte8. rewrite Z.shiftr_div_pow2 by lia.
  change (2 ^ 8) with 256. change 65536 with (256 * 256). rewrite Z.rem_mul_r by lia. done.
Qed.

(** The words of the addresses. *)
Lemma put_addrs_ne n : forall i addrs m a x, (x < a + 12 + 4 * i \/ a + 12 + 4 * (i + Z.of_nat n) <= x) ->
  put_addrs n i addrs m a x = m x.
Proof.
  induction n as [|n IH]; intros i addrs m a x Hx; [done|]. cbn [put_addrs]. rewrite IH by lia. apply store32_ne. lia.
Qed.

Lemma put_addrs_at n : forall i addrs m a j, i <= j < i + Z.of_nat n -> 0 <= addrs j < W32 ->
  load32 (put_addrs n i addrs m a) (a + 12 + 4 * j) = addrs j.
Proof.
  induction n as [|n IH]; intros i addrs m a j Hj Hw; [lia|]. cbn [put_addrs].
  destruct (Z.eq_dec j i) as [->|]; [|apply IH; [lia|done]].
  rewrite (load32_ext (store32 m (a + 12 + 4 * i) (addrs i))); [by apply load32_store32|].
  intros x Hx. apply put_addrs_ne. lia.
Qed.

(** The inode at [a] of block [m] is [x]. *)
Record dinode_is (m : mem) (a : Z) (x : inode) : Prop := mkDinodeIs {
  dn_type : di_type m a = i_type x;
  dn_major : di_major m a = i_major x;
  dn_minor : di_minor m a = i_minor x;
  dn_nlink : di_nlink m a = i_nlink x;
  dn_size : di_size m a = i_size x;
  dn_addrs : forall i, 0 <= i <= NDIRECT -> di_addr m a i = i_addrs x i
}.

(** The values the fields of an inode can have. *)
Record inode_words (x : inode) : Prop := mkInodeWords {
  iw_type : -32768 <= i_type x < 32768;
  iw_major : -32768 <= i_major x < 32768;
  iw_minor : -32768 <= i_minor x < 32768;
  iw_nlink : -32768 <= i_nlink x < 32768;
  iw_size : 0 <= i_size x < W32;
  iw_addrs : forall i, 0 <= i <= NDIRECT -> 0 <= i_addrs x i < W32
}.

Lemma put_dinode_is x m a : inode_words x -> dinode_is (put_dinode x m a) a x.
Proof.
  intros [W1 W2 W3 W4 W5 W6]. unfold put_dinode. set (m0 := store32 _ (a + 8) (i_size x)). set (m' := put_addrs _ _ _ m0 a).
  assert (Hlow : forall y, y < a + 12 -> m' y = m0 y) by (intros y Hy; apply put_addrs_ne; lia).
  assert (Hh : forall b, b + 2 <= a + 8 -> load16 m' b = load16 (store16 (store16 (store16 (store16 m a (i_type x)) (a + 2) (i_major x)) (a + 4) (i_minor x)) (a + 6) (i_nlink x)) b).
  { intros b Hb. rewrite (load16_ext m0) by (intros; apply Hlow; lia). apply load16_ext. intros y Hy. apply store32_ne. lia. }
  split.
  - unfold di_type. rewrite Hh by lia. rewrite !(load16_ext (store16 _ _ _) (store16 (store16 _ _ _) _ _)) by (intros y Hy; apply store16_ne; lia).
    rewrite load16_store16, int16_mod. by apply int16_small.
  - unfold di_major. rewrite Hh by lia. rewrite !(load16_ext (store16 (store16 _ _ _) _ _) (store16 (store16 (store16 _ _ _) _ _) _ _)) by (intros y Hy; apply store16_ne; lia).
    rewrite load16_store16, int16_mod. by apply int16_small.
  - unfold di_minor. rewrite Hh by lia. rewrite (load16_ext (store16 (store16 (store16 _ _ _) _ _) _ _)) by (intros y Hy; apply store16_ne; lia).
    rewrite load16_store16, int16_mod. by apply int16_small.
  - unfold di_nlink. rewrite Hh by lia. rewrite load16_store16, int16_mod. by apply int16_small.
  - unfold di_size. rewrite (load32_ext m0) by (intros; apply Hlow; lia). by apply load32_store32.
  - intros i Hi. unfold di_addr. apply put_addrs_at; [|by apply W6]. unfold NDIRECT in *. lia.
Qed.

Lemma put_dinode_out x m a y : y < a \/ a + DINODE <= y -> put_dinode x m a y = m y.
Proof.
  intros H. assert (DINODE = 64 /\ NDIRECT = 12) as [E1 E2] by done. unfold put_dinode. rewrite put_addrs_ne by lia. rewrite store32_ne by lia. rewrite !store16_ne by lia. done.
Qed.

(** The copy in memory is the one on the disk. *)
Definition synced (f : fsst) (x : inode) : Prop :=
  dinode_is (content f (IBLOCK (i_inum x) (fs_sb f))) (dip (i_inum x)) x.

Definition inum_ok (f : fsst) (x : inode) : Prop := 0 <= i_inum x < sb_ninodes (fs_sb f).

Lemma iblock_range f x : geom f -> inum_ok f x ->
  sb_inodestart (fs_sb f) <= IBLOCK (i_inum x) (fs_sb f) < sb_bmapstart (fs_sb f).
Proof.
  intros G Hi. destruct (ge_inodes _ G) as [H1 H2]. unfold IBLOCK, inum_ok in *.
  pose proof (Z.div_pos (i_inum x) IPB ltac:(lia) ltac:(done)).
  pose proof (Z.div_le_mono (i_inum x) (sb_ninodes (fs_sb f) - 1) IPB ltac:(done) ltac:(lia)). lia.
Qed.

Lemma bmap_before_data f : geom f -> sb_bmapstart (fs_sb f) < data_start (fs_sb f).
Proof.
  intros G. unfold data_start. assert (0 <= (sb_size (fs_sb f) - 1) / BPB); [|lia].
  apply Z.div_pos; [pose proof (ge_size _ G); lia|done].
Qed.

(** The values of the fields of a sound inode. *)
Definition short_fields (x : inode) : Prop :=
  -32768 <= i_type x < 32768 /\ -32768 <= i_major x < 32768 /\ -32768 <= i_minor x < 32768 /\ -32768 <= i_nlink x < 32768.

Lemma synced_short f x : synced f x -> short_fields x.
Proof.
  intros [D1 D2 D3 D4 _ _]. unfold short_fields. rewrite <- D1, <- D2, <- D3, <- D4.
  pose proof int16_range as H. unfold di_type, di_major, di_minor, di_nlink. by split_and!; apply H.
Qed.

Lemma file_words f x n : geom f -> file_ok f x -> short_fields x -> 0 <= n <= MAXFILE * BSIZE ->
  inode_words (inode_size n x).
Proof.
  intros G Hok (D1 & D2 & D3 & D4) Hn. split; simpl; try lia.
  - unfold W32. fs_lia.
  - assert (Hd : forall b, data_block f b -> 0 <= b < W32).
    { intros b [Hb _]. pose proof (data_start_pos _ G). pose proof (ge_word _ G). lia. }
    intros i Hi. destruct (Z.eq_dec (i_addrs x i) 0) as [->|Hne]; [done|]. apply Hd.
    destruct (Z.eq_dec i NDIRECT) as [->|]; [by apply (fo_ind _ _ Hok)|].
    replace (i_addrs x i) with (iblock f x i) in Hne |- *; [apply (fo_block _ _ Hok); [fs_lia|done]|].
    unfold iblock. by rewrite (proj2 (Z.ltb_lt i NDIRECT)) by lia.
Qed.

Section content.
Context (cur : nat) (pid : Z).
Abbreviation tx := (tx pid).
Abbreviation fwp := (fwp cur pid).

Lemma fwp_iupdate ip k s (Q : unit -> fsst -> Prop) :
  geom (k_fs s) -> i_dev (inode_at s ip) = 1 -> inum_ok (k_fs s) (inode_at s ip) ->
  tx (k_fs s) [] (k + gap (k_fs s) (IBLOCK (i_inum (inode_at s ip)) (fs_sb (k_fs s)))) -> 0 <= k ->
  (forall f, tx f [] k -> moved (k_fs s) f ->
    (forall b, content f b = if b =? IBLOCK (i_inum (inode_at s ip)) (fs_sb (k_fs s))
      then put_dinode (inode_at s ip) (content (k_fs s) b) (dip (i_inum (inode_at s ip))) else content (k_fs s) b) ->
    Q tt f) ->
  fwp (iupdate ip) s Q.
Proof.
  intros G Hdev Hin Ht Hk HQ. set (x := inode_at s ip) in *. set (b := IBLOCK (i_inum x) (fs_sb (k_fs s))) in *.
  pose proof (iblock_range _ x G Hin) as Hb. fold b in Hb. pose proof (bmap_before_data _ G). pose proof (ge_bmap _ G).
  destruct (after_log _ b G ltac:(lia)) as [Hsz Hlg].
  unfold iupdate. apply fwp_gets_bind. fold x. apply fwp_gets_bind. fold b. rewrite Hdev.
  apply (fwp_read_bind cur pid b [] (k + gap (k_fs s) b)); [done|apply not_elem_of_nil|simpl; lia|lia|].
  intros i s1 T1 B1 K1 M1 C1 D1.
  apply (fwp_put_bind cur pid i b (fun m => put_dinode x m (dip (i_inum x))) [b] k);
    [replace (gap (k_fs s1) b) with (gap (k_fs s) b); [done|unfold gap; by rewrite D1]|done|done|
     by rewrite (mv_disk _ _ M1)|by unfold in_log; rewrite (mv_start _ _ M1), (mv_size _ _ M1)|].
  intros s2 T2 K2 M2 C2 D2. apply (fwp_tx_release cur pid i b [] k); [done|by apply K2|].
  intros f T3 K3 M3 C3 D3. apply HQ; [done|etransitivity; [exact M1|]; etransitivity; [exact M2|exact M3]|].
  intros c. rewrite C3, C2, !C1. destruct (Z.eqb_spec c b) as [->|]; done.
Qed.

(** ** Reading *)

(** Bytes of one block of the file. *)
Lemma fbyte_within f x o d : 0 <= d -> o mod BSIZE + d < BSIZE ->
  fbyte f x (o + d) = content f (iblock f x (o / BSIZE)) (o mod BSIZE + d).
Proof.
  intros Hd Hlt. pose proof (Z.mod_pos_bound o BSIZE ltac:(done)). pose proof (Z.div_mod o BSIZE ltac:(done)) as E.
  unfold fbyte. replace ((o + d) / BSIZE) with (o / BSIZE); [replace ((o + d) mod BSIZE) with (o mod BSIZE + d); [done|]|].
  - apply (Z.mod_unique _ _ (o / BSIZE)); lia.
  - apply (Z.div_unique _ _ _ (o mod BSIZE + d)); lia.
Qed.

Lemma file_block_there f x o : file_ok f x -> 0 <= o < i_size x -> 0 <= o / BSIZE < MAXFILE /\ iblock f x (o / BSIZE) <> 0.
Proof.
  intros Hok Ho. pose proof (fo_size _ _ Hok). pose proof (Z.div_mod o BSIZE ltac:(done)) as E.
  pose proof (Z.mod_pos_bound o BSIZE ltac:(done)). assert (0 <= o / BSIZE) by (apply Z.div_pos; [lia|done]).
  split; [split; [done|apply Z.div_lt_upper_bound; fs_lia]|]. apply (fo_alloc _ _ Hok); lia.
Qed.

Lemma file_ok_same f f' x : layout f -> kept f f' -> (forall b, content f' b = content f b) ->
  (forall b, dirty_block f' b = dirty_block f b) -> file_ok f x -> layout f' /\ file_ok f' x /\ forall o, fbyte f' x o = fbyte f x o.
Proof.
  intros Hla Hk Hc Hd Hok. pose proof (grown_same _ _ x Hla Hok Hk Hc Hd) as Hg. split_and!; [apply Hg|apply Hg|].
  intros o. unfold fbyte, iblock. by rewrite !Hc.
Qed.

Lemma fwp_readi_loop fuel ip : forall md dst off tot n k s (Q : mem -> fsst -> Prop),
  layout (k_fs s) -> file_ok (k_fs s) (inode_at s ip) -> tx (k_fs s) [] k -> 0 <= off -> tot <= n ->
  off + (n - tot) <= i_size (inode_at s ip) -> n - tot < Z.of_nat fuel ->
  (forall md' f, tx f [] k -> moved (k_fs s) f -> (forall b, content f b = content (k_fs s) b) ->
    (forall b, dirty_block f b = dirty_block (k_fs s) b) ->
    (forall a, md' a = if inside dst (n - tot) a then fbyte (k_fs s) (inode_at s ip) (off + (a - dst)) else md a) -> Q md' f) ->
  fwp (readi_loop fuel ip md dst off tot n) s Q.
Proof.
  induction fuel as [|fuel IH]; intros md dst off tot n k s Q Hla Hok Ht Ho Htn Hsz Hf HQ; [lia|].
  cbn [readi_loop]. destruct (Z.ltb_spec tot n) as [Hlt|Hge].
  2:{ apply fwp_ret. apply HQ; [done|done|done|done|]. intros a. unfold inside. by zcases. }
  apply fwp_gets_bind. set (x := inode_at s ip) in *. pose proof (la_geom _ Hla) as G.
  destruct (file_block_there _ x off Hok ltac:(lia)) as [Hbn Hbz]. set (b := iblock (k_fs s) x (off / BSIZE)) in *.
  apply fwp_bind. apply (fwp_bmap_found cur pid ip (off / BSIZE) k); [done..|]. fold x b. intros f1 T1 M1 C1 D1 s1 <- _.
  rewrite (fo_dev _ _ Hok). destruct (fo_block _ _ Hok _ Hbn Hbz) as [Hb _]. fold b in Hb. destruct (ge_size _ G) as [_ Hds].
  apply (fwp_read_bind cur pid b [] k); [done|apply not_elem_of_nil|simpl; lia|rewrite (mv_disk _ _ M1); lia|].
  intros i s2 T2 B2 K2 M2 C2 D2. apply (fwp_bytes_bind cur pid i b [b] k); [done..|]. rewrite C2, C1.
  set (m := Z.min (n - tot) (BSIZE - off mod BSIZE)). cbv zeta. fold m.
  apply (fwp_release_bind cur pid i b [] k); [done..|]. intros s3 T3 K3 M3 C3 D3.
  assert (M : moved (k_fs s) (k_fs s3)) by (etransitivity; [exact M1|]; etransitivity; [exact M2|exact M3]).
  assert (C : forall c, content (k_fs s3) c = content (k_fs s) c) by (intros c; by rewrite C3, C2, C1).
  assert (D : forall c, dirty_block (k_fs s3) c = dirty_block (k_fs s) c) by (intros c; by rewrite D3, D2, D1).
  assert (Ex : inode_at s3 ip = x) by (unfold inode_at; by rewrite (mv_inode _ _ M)).
  destruct (file_ok_same _ _ x Hla (moved_kept_id _ _ M) C D Hok) as (Hla3 & Hok3 & Hfb3).
  pose proof (Z.mod_pos_bound off BSIZE ltac:(done)) as Hmod. assert (Hm : 1 <= m <= n - tot) by (unfold m; lia).
  apply (IH _ (dst + m) (off + m) (tot + m) n k); rewrite ?Ex; [done|done|done|lia|lia|lia|lia|].
  intros md' f T4 M4 C4 D4 Hmd. apply HQ; [done|by etransitivity| | |].
  - intros c. by rewrite C4, C.
  - intros c. by rewrite D4, D.
  - intros a. rewrite Hmd. unfold inside, memcopy. rewrite Hfb3.
    destruct (Z_lt_dec a (dst + m)) as [Hlo|Hhi].
    + rewrite (proj2 (Z.leb_gt (dst + m) a)) by lia. simpl. rewrite (proj2 (Z.ltb_lt a (dst + m))) by lia.
      rewrite (proj2 (Z.ltb_lt a (dst + (n - tot)))) by lia. rewrite !andb_true_r. destruct (Z.leb_spec dst a); [|done].
      symmetry. apply fbyte_within; [lia|]. unfold m in Hlo. lia.
    + rewrite (proj2 (Z.leb_le (dst + m) a)), (proj2 (Z.leb_le dst a)) by lia. simpl.
      rewrite (proj2 (Z.ltb_ge a (dst + m))) by lia. replace (dst + m + (n - (tot + m))) with (dst + (n - tot)) by lia.
      replace (off + m + (a - (dst + m))) with (off + (a - dst)) by lia. done.
Qed.

(** ** Writing *)

(** The blocks of the file that hold [n] bytes from [off] on. *)
Definition touched (off n : Z) : Z := if n <=? 0 then 0 else (off + n - 1) / BSIZE - off / BSIZE + 1.

Lemma touched_step off n m : 0 < n -> m = Z.min n (BSIZE - off mod BSIZE) ->
  touched off n = 1 + touched (off + m) (n - m).
Proof.
  intros Hn ->. pose proof (Z.mod_pos_bound off BSIZE ltac:(done)). pose proof (Z.div_mod off BSIZE ltac:(done)) as E.
  unfold touched. rewrite (proj2 (Z.leb_gt n 0)) by lia.
  destruct (Z_le_dec n (BSIZE - off mod BSIZE)) as [Hle|Hgt].
  - rewrite Z.min_l by lia. rewrite (proj2 (Z.leb_le (n - n) 0)) by lia.
    replace ((off + n - 1) / BSIZE) with (off / BSIZE); [lia|]. apply (Z.div_unique _ _ _ (off mod BSIZE + n - 1)); lia.
  - rewrite Z.min_r by lia. rewrite (proj2 (Z.leb_gt (n - (BSIZE - off mod BSIZE)) 0)) by lia.
    replace (off + (BSIZE - off mod BSIZE) + (n - (BSIZE - off mod BSIZE)) - 1) with (off + n - 1) by lia.
    replace ((off + (BSIZE - off mod BSIZE)) / BSIZE) with (off / BSIZE + 1); [lia|].
    apply (Z.div_unique _ _ _ 0); lia.
Qed.

Lemma touched_nonneg off n : 0 <= off -> 0 <= touched off n.
Proof.
  intros Ho. unfold touched. destruct (Z.leb_spec n 0); [done|].
  pose proof (Z.div_le_mono off (off + n - 1) BSIZE ltac:(done) ltac:(lia)). lia.
Qed.

(** One data block of the file is overwritten. *)
Lemma file_ok_put f f' x bn d : layout f -> file_ok f x -> 0 <= bn < MAXFILE -> iblock f x bn <> 0 -> kept f f' ->
  (forall b, content f' b = if b =? iblock f x bn then d else content f b) ->
  layout f' /\ file_ok f' x /\ nfree f' = nfree f /\ (forall b, data_block f' b <-> data_block f b) /\
  (forall b, 0 <= b < MAXFILE -> iblock f' x b = iblock f x b).
Proof.
  intros Hla Hok Hbn Hne Hk Hc. pose proof (la_geom _ Hla) as G. pose proof (fo_block _ _ Hok _ Hbn Hne) as [Hr _].
  pose proof (bmap_before_data _ G).
  assert (Hsm : same_map f f').
  { intros b Hb. rewrite Hc. by rewrite (proj2 (Z.eqb_neq b (iblock f x bn))) by lia. }
  assert (Hib : forall b, 0 <= b < MAXFILE -> iblock f' x b = iblock f x b).
  { intros b Hb. unfold iblock at 1 2. destruct (b <? NDIRECT); [done|]. destruct (Z.eqb_spec (ind x) 0); [done|].
    rewrite Hc. rewrite (proj2 (Z.eqb_neq (ind x) _)); [done|]. intros E. by apply (fo_apart _ _ Hok bn). }
  pose proof (same_data_block _ _ G Hk Hsm) as Hdb.
  split_and!; [apply (same_layout f); [done..|apply Hla]| |by apply same_nfree|done|done].
  destruct Hok as [O1 O2 O3 O4 O5 O6 O7]. split; try done.
  - intros b Hb. rewrite Hib by done. intros Hne'. by apply Hdb, O3.
  - intros Hi. by apply Hdb, O4.
  - intros b c Hb Hc'. rewrite !Hib by done. by apply O5.
  - intros b Hb. rewrite Hib by done. by apply O6.
  - intros b Hb Hs. rewrite Hib; [by apply O7|]. fs_lia.
Qed.

(** The [n] bytes from [off] on are those at [src] of [ms]; nothing else changes. *)
Record wrote (ip : nat) (f : fsst) (off n : Z) (ms : mem) (src : Z) (f' : fsst) : Prop := mkWrote {
  wr_kept : kept f f';
  wr_meta : fs_inode f' ip = set_addrs (i_addrs (fs_inode f' ip)) (fs_inode f ip);
  wr_others : forall j, j <> ip -> fs_inode f' j = fs_inode f j;
  wr_old : forall b, 0 <= b < MAXFILE -> iblock f (fs_inode f ip) b <> 0 ->
    iblock f' (fs_inode f' ip) b = iblock f (fs_inode f ip) b;
  wr_there : forall o, off <= o < off + n -> iblock f' (fs_inode f' ip) (o / BSIZE) <> 0;
  wr_byte : forall o, 0 <= o < MAXFILE * BSIZE -> (off <= o < off + n \/ iblock f (fs_inode f ip) (o / BSIZE) <> 0) ->
    fbyte f' (fs_inode f' ip) o = if (off <=? o) && (o <? off + n) then ms (src + (o - off)) else fbyte f (fs_inode f ip) o;
  wr_content : forall b, settled f b -> ~ of_file f (fs_inode f ip) b ->
    content f' b = content f b /\ ~ of_file f' (fs_inode f' ip) b;
  wr_used : forall b, data_block f b -> data_block f' b;
  wr_layout : layout f';
  wr_ok : file_ok f' (fs_inode f' ip);
  wr_same : off + n <= i_size (fs_inode f ip) -> fs_inode f' ip = fs_inode f ip
}.

Lemma same_block off m o : 0 <= off -> off <= o < off + m -> m <= BSIZE - off mod BSIZE ->
  o / BSIZE = off / BSIZE /\ o mod BSIZE = off mod BSIZE + (o - off).
Proof.
  intros H0 Ho Hm. pose proof (Z.mod_pos_bound off BSIZE ltac:(done)). pose proof (Z.div_mod off BSIZE ltac:(done)) as E.
  split; symmetry; [apply (Z.div_unique _ _ _ (off mod BSIZE + (o - off)))|apply (Z.mod_unique _ _ (off / BSIZE))]; lia.
Qed.

Lemma block_lt o : 0 <= o < MAXFILE * BSIZE -> 0 <= o / BSIZE < MAXFILE.
Proof. intros Ho. split; [apply Z.div_pos; [lia|done]|apply Z.div_lt_upper_bound; fs_lia]. Qed.

(** One round of the loop: a block found or added, and overwritten in part. *)
Lemma wrote_step ip f off m ms src k kf r f1 f2 :
  file_ok f (fs_inode f ip) -> mapped pid ip (off / BSIZE) k kf f r f1 -> 0 <= off -> 0 < m <= BSIZE - off mod BSIZE ->
  off + m <= MAXFILE * BSIZE -> moved f1 f2 ->
  (forall b, content f2 b = if b =? r then memcopy (content f1 r) (off mod BSIZE) ms src m else content f1 b) ->
  wrote ip f off m ms src f2 /\ nfree f2 = nfree f1.
Proof.
  intros Hok [Hg Er Hr Hoth _ _ Hfd] Ho Hm Hmax M Hc. assert (Ex : fs_inode f2 = fs_inode f1) by apply M.
  set (x := fs_inode f ip) in *. set (x1 := fs_inode f1 ip) in *. rewrite <- Er in *.
  pose proof (block_lt off ltac:(lia)) as Hbn. pose proof (gr_ok _ _ _ _ Hg) as Hok1.
  destruct (file_ok_put f1 f2 x1 (off / BSIZE) _ (gr_layout _ _ _ _ Hg) Hok1 Hbn Hr (moved_kept_id _ _ M) Hc)
    as (Hla2 & Hok2 & Hnf & Hdb & Hib).
  assert (Hof : forall b, of_file f2 x1 b -> of_file f1 x1 b).
  { intros b [H|(c & Hc' & Hne & ->)]; [by left|]. rewrite Hib in * by done. right. by exists c. }
  split; [|done]. split; rewrite ?Ex; fold x x1; try done.
  - etransitivity; [apply Hg|by apply moved_kept_id].
  - apply Hg.
  - intros b Hb Hne. rewrite Hib by done. by apply Hg.
  - intros o Hoo. destruct (same_block off m o Ho Hoo ltac:(lia)) as [-> _]. by rewrite Hib.
  - intros o Hmx Hoo. pose proof (block_lt o Hmx) as Hob. pose proof (Z.mod_pos_bound o BSIZE ltac:(done)) as Hmo.
    unfold fbyte at 1. rewrite Hib by done. rewrite Hc. destruct (Z.eqb_spec (iblock f1 x1 (o / BSIZE)) (iblock f1 x1 (off / BSIZE))) as [E|E].
    + symmetry in E. apply (fo_inj _ _ Hok1) in E; [|done..]. unfold memcopy.
      pose proof (Z.div_mod off BSIZE ltac:(done)) as E1. pose proof (Z.div_mod o BSIZE ltac:(done)) as E2. rewrite <- E in E2.
      replace ((off mod BSIZE <=? o mod BSIZE) && (o mod BSIZE <? off mod BSIZE + m)) with ((off <=? o) && (o <? off + m)) by (zcases; lia).
      destruct (Z.leb_spec off o); simpl; [destruct (Z.ltb_spec o (off + m)); [f_equal; lia|]|].
      all: rewrite E; apply (grown_fbyte f x f1 x1); try done; naive_solver lia.
    + destruct Hoo as [Hoo|Hne]; [destruct E; by destruct (same_block off m o Ho Hoo ltac:(lia)) as [-> _]|].
      destruct (Z.leb_spec off o); simpl; [destruct (Z.ltb_spec o (off + m)) as [Hlt|]|].
      * destruct E. by destruct (same_block off m o Ho ltac:(lia) ltac:(lia)) as [-> _].
      * by apply (grown_fbyte f x f1 x1).
      * by apply (grown_fbyte f x f1 x1).
  - intros b Hb Hno. pose proof (gr_new _ _ _ _ Hg b Hb Hno) as Hno1. split; [|intros H; by apply Hno1, Hof].
    rewrite Hc. rewrite (proj2 (Z.eqb_neq b _)).
    + apply Hg; [done|]. intros Hi ->. apply Hno. by left.
    + intros ->. apply Hno1. right. by exists (off / BSIZE).
  - intros b Hb. by apply Hdb, Hg.
  - intros Hs. apply Hfd. apply (file_block_there _ _ _ Hok). fold x. lia.
Qed.

Lemma wrote_settled ip f off n ms src f' b : wrote ip f off n ms src f' -> settled f b -> settled f' b.
Proof. intros W [H|H]; [left; by rewrite (kp_sb _ _ (wr_kept _ _ _ _ _ _ _ W))|right; by apply W]. Qed.

Lemma wrote_trans ip f off n m ms src f1 f2 : 0 <= off -> 0 <= m <= n -> off + n <= MAXFILE * BSIZE ->
  wrote ip f off m ms src f1 -> wrote ip f1 (off + m) (n - m) ms (src + m) f2 -> wrote ip f off n ms src f2.
Proof.
  intros Ho Hm Hmax A B.
  assert (Hold : forall o, 0 <= o < MAXFILE * BSIZE -> off <= o < off + m \/ iblock f (fs_inode f ip) (o / BSIZE) <> 0 ->
    iblock f1 (fs_inode f1 ip) (o / BSIZE) <> 0).
  { intros o Hmx [H|H]; [by apply (wr_there _ _ _ _ _ _ _ A)|]. rewrite (wr_old _ _ _ _ _ _ _ A); [done|by apply block_lt|done]. }
  split; try apply B.
  - etransitivity; [apply A|apply B].
  - rewrite (wr_meta _ _ _ _ _ _ _ B), (wr_meta _ _ _ _ _ _ _ A). done.
  - intros j Hj. rewrite (wr_others _ _ _ _ _ _ _ B) by done. by apply A.
  - intros b Hb Hne. rewrite <- (wr_old _ _ _ _ _ _ _ A b Hb Hne). apply B; [done|]. by rewrite (wr_old _ _ _ _ _ _ _ A).
  - intros o Hoo. destruct (Z_lt_dec o (off + m)) as [Hlt|]; [|apply (wr_there _ _ _ _ _ _ _ B); lia].
    assert (Hmx : 0 <= o < MAXFILE * BSIZE) by lia. rewrite (wr_old _ _ _ _ _ _ _ B); [|by apply block_lt|].
    all: apply Hold; [done|left; lia].
  - intros o Hmx Hoo. destruct (Z_lt_dec o (off + m)) as [Hlt|Hge].
    + rewrite (wr_byte _ _ _ _ _ _ _ B); [|done|right; apply Hold; [done|destruct Hoo; [left; lia|by right]]].
      rewrite (proj2 (Z.leb_gt (off + m) o)) by lia. simpl.
      rewrite (wr_byte _ _ _ _ _ _ _ A); [|done|destruct Hoo; [left; lia|by right]].
      by rewrite (proj2 (Z.ltb_lt o (off + m))), (proj2 (Z.ltb_lt o (off + n))) by lia.
    + rewrite (wr_byte _ _ _ _ _ _ _ B); [|done|destruct Hoo; [left; lia|right; apply Hold; [done|by right]]].
      replace (off + m + (n - m)) with (off + n) by lia.
      rewrite (proj2 (Z.leb_le (off + m) o)), (proj2 (Z.leb_le off o)) by lia. simpl.
      destruct (Z.ltb_spec o (off + n)); [f_equal; lia|].
      rewrite (wr_byte _ _ _ _ _ _ _ A); [|done|destruct Hoo; [lia|by right]].
      by rewrite (proj2 (Z.ltb_ge o (off + m))), andb_false_r by lia.
  - intros b Hb Hno. destruct (wr_content _ _ _ _ _ _ _ A b Hb Hno) as [E1 N1].
    destruct (wr_content _ _ _ _ _ _ _ B b (wrote_settled _ _ _ _ _ _ _ _ A Hb) N1) as [E2 N2]. split; [congruence|done].
  - intros b Hb. by apply B, A.
  - intros Hs. pose proof (wr_same _ _ _ _ _ _ _ A ltac:(lia)) as E1. rewrite <- E1. apply (wr_same _ _ _ _ _ _ _ B). rewrite E1. lia.
Qed.

Lemma wrote_none ip f off ms src : layout f -> file_ok f (fs_inode f ip) -> wrote ip f off 0 ms src f.
Proof.
  intros Hla Hok. split; try done.
  - by destruct (fs_inode f ip).
  - intros o Ho. lia.
  - intros o _ _. replace ((off <=? o) && (o <? off + 0)) with false; [done|]. zcases.
Qed.

Lemma reserve_put f f' x r : geom f -> kept f f' -> file_ok f x -> (exists bn, 0 <= bn < MAXFILE /\ iblock f x bn = r) ->
  data_start (fs_sb f) <= r ->
  (forall b, dirty_block f' b = (b =? r) || dirty_block f b) -> reserve f' x = reserve f x.
Proof.
  intros G Hk Hok (bn & Hbn & Hr) Hds Hd. unfold reserve. f_equal.
  - apply bm_gap_ext; [apply G|apply Hk|]. intros b Hb. rewrite Hd. by rewrite (proj2 (Z.eqb_neq b r)) by lia.
  - destruct (Z.eqb_spec (ind x) 0); [done|]. unfold gap. rewrite Hd. rewrite (proj2 (Z.eqb_neq (ind x) r)); [done|].
    rewrite <- Hr. intros E. by apply (fo_apart _ _ Hok bn).
Qed.

Lemma fwp_writei_loop fuel ip ms : forall src off tot n k kf s (Q : Z -> fsst -> Prop),
  layout (k_fs s) -> file_ok (k_fs s) (inode_at s ip) -> 0 <= off -> tot <= n -> off + (n - tot) <= MAXFILE * BSIZE ->
  n - tot < Z.of_nat fuel -> 0 <= k -> 0 <= kf ->
  tx (k_fs s) [] (k + touched off (n - tot) + reserve (k_fs s) (inode_at s ip)) ->
  kf + touched off (n - tot) + ind_need (inode_at s ip) <= nfree (k_fs s) ->
  (forall f, wrote ip (k_fs s) off (n - tot) ms src f -> tx f [] (k + reserve f (fs_inode f ip)) ->
    kf + ind_need (fs_inode f ip) <= nfree f -> Q (off + (n - tot)) f) ->
  fwp (writei_loop fuel ip ms src off tot n) s Q.
Proof.
  induction fuel as [|fuel IH]; intros src off tot n k kf s Q Hla Hok Ho Htn Hmax Hf Hk Hkf Ht Hsp HQ; [lia|].
  cbn [writei_loop]. set (x := inode_at s ip) in *. destruct (Z.ltb_spec tot n) as [Hlt|Hge].
  2:{ apply fwp_ret. assert (En : n - tot = 0) by lia. rewrite En in *. replace off with (off + 0) at 1 by lia.
      unfold touched in Ht, Hsp. simpl in Ht, Hsp. rewrite Z.add_0_r in Ht, Hsp. apply HQ; [by apply wrote_none|done|done]. }
  set (m := Z.min (n - tot) (BSIZE - off mod BSIZE)) in *.
  pose proof (touched_step off (n - tot) m ltac:(lia) eq_refl) as Etc. rewrite Etc in Ht, Hsp.
  pose proof (Z.mod_pos_bound off BSIZE ltac:(done)) as Hmod. assert (Hm : 0 < m <= BSIZE - off mod BSIZE /\ m <= n - tot) by (unfold m; lia).
  set (t := touched (off + m) (n - tot - m)) in *. assert (0 <= t) by (apply touched_nonneg; lia).
  apply fwp_gets_bind. fold x. apply fwp_bind.
  apply (fwp_bmap cur pid ip (off / BSIZE) (k + t) (kf + t)); [done|done|apply block_lt; lia| |lia|lia|fold x; lia|].
  { fold x. by replace (k + t + 1 + reserve (k_fs s) x) with (k + (1 + t) + reserve (k_fs s) x) by lia. }
  intros r f1 Hmp s1 <- _. pose proof (mp_grown _ _ _ _ _ _ _ _ Hmp) as Hg. set (x1 := inode_at s1 ip).
  assert (Hgk := gr_kept _ _ _ _ Hg). pose proof (gr_ok _ _ _ _ Hg) as Hok1. pose proof (gr_layout _ _ _ _ Hg) as Hla1.
  pose proof (la_geom _ Hla1) as G1. assert (Hrb : data_block (k_fs s1) r).
  { rewrite <- (mp_block _ _ _ _ _ _ _ _ Hmp). apply (fo_block _ _ Hok1); [apply block_lt; lia|]. rewrite (mp_block _ _ _ _ _ _ _ _ Hmp). apply Hmp. }
  pose proof (inodes_before_bmap _ G1). pose proof (bmap_before_data _ G1). destruct Hrb as [Hrr _].
  destruct (after_log _ r G1 ltac:(lia)) as [Hsz Hlg]. rewrite (fo_dev _ _ Hok).
  pose proof (mp_tx _ _ _ _ _ _ _ _ Hmp) as T1. change (fs_inode (k_fs s1) ip) with x1 in T1, Hok1.
  set (R := reserve (k_fs s1) x1) in *.
  assert (HR : 0 <= R) by (unfold R, reserve; pose proof (bm_gap_range (k_fs s1)); pose proof (gap_range (k_fs s1) (ind x1)); case_match; lia).
  apply (fwp_read_bind cur pid r [] (k + t + gap (k_fs s1) r + R)); [done|apply not_elem_of_nil|simpl; lia|lia|].
  intros i s2 T2 B2 K2 M2 C2 D2. cbv zeta. fold m.
  apply (fwp_put_bind cur pid i r (fun b => memcopy b (off mod BSIZE) ms src m) [r] (k + t + R));
    [replace (gap (k_fs s2) r) with (gap (k_fs s1) r) by (unfold gap; by rewrite D2);
     by replace (k + t + R + gap (k_fs s1) r) with (k + t + gap (k_fs s1) r + R) by lia|lia|done|
     by rewrite (mv_disk _ _ M2)|by unfold in_log; rewrite (mv_start _ _ M2), (mv_size _ _ M2)|].
  intros s3 T3 K3 M3 C3 D3. apply (fwp_release_bind cur pid i r [] (k + t + R)); [done|by apply K3|]. intros s4 T4 K4 M4 C4 D4.
  assert (M : moved (k_fs s1) (k_fs s4)) by (etransitivity; [exact M2|]; etransitivity; [exact M3|exact M4]).
  destruct (wrote_step ip (k_fs s) off m ms src (k + t) (kf + t) r (k_fs s1) (k_fs s4)) as [Hw Hnf]; try done; [lia|lia| |].
  { intros b. by rewrite C4, C3, !C2. }
  assert (Ex4 : inode_at s4 ip = x1) by (unfold inode_at; by rewrite (mv_inode _ _ M)).
  assert (Hres : reserve (k_fs s4) x1 = R).
  { apply (reserve_put _ _ _ r); [done|by apply moved_kept_id|done| |lia|intros b; by rewrite D4, D3, D2].
    exists (off / BSIZE). split; [apply block_lt; lia|]. apply (mp_block _ _ _ _ _ _ _ _ Hmp). }
  apply (IH (src + m) (off + m) (tot + m) n k kf s4); replace (n - (tot + m)) with (n - tot - m) by lia; rewrite ?Ex4; try lia.
  - apply Hw.
  - rewrite <- Ex4. apply Hw.
  - by rewrite Hres.
  - rewrite Hnf. pose proof (mp_space _ _ _ _ _ _ _ _ Hmp) as Hsp1. change (fs_inode (k_fs s1) ip) with x1 in Hsp1. fold t. lia.
  - intros f Hw2 T5 N5. replace (off + m + (n - tot - m)) with (off + (n - tot)) by lia. apply HQ; [|done|done].
    by apply (wrote_trans ip _ off (n - tot) m ms src (k_fs s4)); try lia.
Qed.

(** The size grows over blocks that are there, and an inode block changes. *)
Lemma file_ok_size f f' x n ib : layout f -> file_ok f x -> kept f f' -> i_size x <= n <= MAXFILE * BSIZE ->
  (forall o, i_size x <= o < n -> iblock f x (o / BSIZE) <> 0) -> ib < sb_bmapstart (fs_sb f) ->
  (forall b, b <> ib -> content f' b = content f b) ->
  layout f' /\ file_ok f' (inode_size n x) /\ (forall b, iblock f' (inode_size n x) b = iblock f x b) /\
  (forall b, data_block f' b <-> data_block f b).
Proof.
  intros Hla Hok Hk Hn Hal Hib Hc. pose proof (la_geom _ Hla) as G. pose proof (bmap_before_data _ G).
  assert (Hsm : same_map f f') by (intros b Hb; apply Hc; lia). pose proof (same_data_block _ _ G Hk Hsm) as Hdb.
  assert (Hbl : forall b, iblock f' (inode_size n x) b = iblock f x b).
  { intros b. unfold iblock, ind. simpl. destruct (b <? NDIRECT); [done|]. destruct (Z.eqb_spec (i_addrs x NDIRECT) 0); [done|].
    rewrite Hc; [done|]. pose proof (fo_ind _ _ Hok n0) as [Hi _]. unfold ind in Hi. lia. }
  split_and!; [apply (same_layout f); [done..|apply Hla]| |done|done].
  destruct Hok as [O1 O2 O3 O4 O5 O6 O7]. split; try done.
  - simpl. lia.
  - intros b Hb. rewrite Hbl. intros Hne. by apply Hdb, O3.
  - intros Hi. by apply Hdb, O4.
  - intros b c Hb Hc'. rewrite !Hbl. by apply O5.
  - intros b Hb. rewrite Hbl. by apply O6.
  - intros b Hb Hs. change (b * BSIZE < n) in Hs. rewrite Hbl. destruct (Z_lt_dec (b * BSIZE) (i_size x)); [by apply O7|].
    rewrite <- (Z.div_mul b BSIZE) by done. apply Hal. lia.
Qed.

(** The whole of [writei] on a file that is not a device. *)
Record written (ip : nat) (f : fsst) (off n : Z) (ms : mem) (src : Z) (f' : fsst) : Prop := mkWritten {
  wn_kept : kept f f';
  wn_others : forall j, j <> ip -> fs_inode f' j = fs_inode f j;
  wn_meta : fs_inode f' ip = inode_size (i_size (fs_inode f' ip)) (set_addrs (i_addrs (fs_inode f' ip)) (fs_inode f ip));
  wn_size : i_size (fs_inode f' ip) = Z.max (i_size (fs_inode f ip)) (off + n);
  wn_byte : forall o, 0 <= o < Z.max (i_size (fs_inode f ip)) (off + n) ->
    fbyte f' (fs_inode f' ip) o = if (off <=? o) && (o <? off + n) then ms (src + (o - off)) else fbyte f (fs_inode f ip) o;
  wn_content : forall b, settled f b -> ~ of_file f (fs_inode f ip) b -> b <> IBLOCK (i_inum (fs_inode f ip)) (fs_sb f) ->
    content f' b = content f b /\ ~ of_file f' (fs_inode f' ip) b;
  wn_used : forall b, data_block f b -> data_block f' b;
  wn_layout : layout f';
  wn_ok : file_ok f' (fs_inode f' ip);
  wn_synced : synced f' (fs_inode f' ip);
  wn_inodes : forall o, o < dip (i_inum (fs_inode f ip)) \/ dip (i_inum (fs_inode f ip)) + DINODE <= o ->
    content f' (IBLOCK (i_inum (fs_inode f ip)) (fs_sb f)) o = content f (IBLOCK (i_inum (fs_inode f ip)) (fs_sb f)) o
}.

(** The block of the inode is none of the file's. *)
Lemma iblock_apart f x : geom f -> file_ok f x -> inum_ok f x ->
  settled f (IBLOCK (i_inum x) (fs_sb f)) /\ ~ of_file f x (IBLOCK (i_inum x) (fs_sb f)).
Proof.
  intros G Hok Hin. pose proof (iblock_range _ _ G Hin). pose proof (bmap_before_data _ G). split; [left; lia|].
  intros [[Hi E]|(bn & Hbn & Hne & E)].
  - pose proof (fo_ind _ _ Hok Hi) as [? _]. lia.
  - pose proof (fo_block _ _ Hok _ Hbn Hne) as [? _]. lia.
Qed.

(** Reading blocks before the write does not matter. *)
Lemma written_after ip f f1 off n ms src f' :
  layout f -> moved f f1 -> (forall b, content f1 b = content f b) -> written ip f1 off n ms src f' -> written ip f off n ms src f'.
Proof.
  intros Hla M C [W1 W2 W3 W4 W5 W6 W7 W8 W9 W10 W11]. rewrite (mv_inode _ _ M) in *.
  assert (Hdb : forall b, data_block f1 b <-> data_block f b).
  { apply same_data_block; [apply Hla|by apply moved_kept_id|intros b _; apply C]. }
  assert (Hib : forall x b, iblock f1 x b = iblock f x b) by (intros; unfold iblock; by rewrite C).
  split; try done.
  - etransitivity; [by apply moved_kept_id|exact W1].
  - intros o Ho. rewrite W5 by done. destruct (_ && _); [done|]. unfold fbyte. by rewrite Hib, C.
  - intros b Hb Hno Hne. rewrite <- C. apply W6; [| |by rewrite (mv_sb _ _ M)].
    + destruct Hb as [Hb|Hb]; [left; by rewrite (mv_sb _ _ M)|right; by apply Hdb].
    + intros [H|(bn & Hbn & Hnz & ->)]; apply Hno; [by left|]. right. rewrite Hib in *. by exists bn.
  - intros b Hb. by apply W7, Hdb.
  - intros o Ho. rewrite <- C, <- (mv_sb _ _ M). by apply W11.
Qed.

(** The loop changed no size: the write was inside the file. *)
Lemma written_inside ip f off n ms src f' :
  geom f -> file_ok f (fs_inode f ip) -> synced f (fs_inode f ip) -> inum_ok f (fs_inode f ip) -> 0 <= off ->
  off + n <= i_size (fs_inode f ip) -> wrote ip f off n ms src f' -> written ip f off n ms src f'.
Proof.
  intros G Hok Hsy Hin Ho Hle W. pose proof (wr_same _ _ _ _ _ _ _ W Hle) as Ex. pose proof (kp_sb _ _ (wr_kept _ _ _ _ _ _ _ W)) as Es.
  destruct (iblock_apart f _ G Hok Hin) as [Hset Hnf]. destruct (wr_content _ _ _ _ _ _ _ W _ Hset Hnf) as [Eib _].
  split; [apply W|apply W| | | | |apply W|apply W|apply W| |].
  - rewrite Ex. by destruct (fs_inode f ip).
  - rewrite Ex. lia.
  - intros o Hoo. apply W; [pose proof (fo_size _ _ Hok); lia|]. right. apply (file_block_there _ _ _ Hok). lia.
  - intros b Hb Hno _. by apply W.
  - rewrite Ex. unfold synced. by rewrite Es, Eib.
  - intros o _. by rewrite Eib.
Qed.

(** The loop went past the end: the new size and the inode's block follow. *)
Lemma written_past ip f off n ms src f1 f2 f3 :
  layout f -> file_ok f (fs_inode f ip) -> synced f (fs_inode f ip) -> inum_ok f (fs_inode f ip) ->
  0 <= off <= i_size (fs_inode f ip) -> i_size (fs_inode f ip) < off + n <= MAXFILE * BSIZE ->
  wrote ip f off n ms src f1 ->
  f2 = with_inode (<[ip := inode_size (off + n) (fs_inode f1 ip)]> (fs_inode f1)) f1 -> moved f2 f3 ->
  (forall b, content f3 b = if b =? IBLOCK (i_inum (fs_inode f ip)) (fs_sb f)
    then put_dinode (fs_inode f2 ip) (content f2 b) (dip (i_inum (fs_inode f ip))) else content f2 b) ->
  written ip f off n ms src f3.
Proof.
  intros Hla Hok Hsy Hin Ho Hn W E2 M C3. set (x := fs_inode f ip) in *. set (ib := IBLOCK (i_inum x) (fs_sb f)) in *.
  set (x1 := fs_inode f1 ip) in *. pose proof (wr_meta _ _ _ _ _ _ _ W) as Em. fold x1 x in Em. pose proof (wr_kept _ _ _ _ _ _ _ W) as Hk.
  assert (Es1 : i_size x1 = i_size x) by (by rewrite Em). assert (Ei1 : i_inum x1 = i_inum x) by (by rewrite Em).
  assert (Ex3 : fs_inode f3 ip = inode_size (off + n) x1) by (rewrite (mv_inode _ _ M), E2; simpl; by rewrite fn_insert_eq).
  pose proof (la_geom _ Hla) as G. pose proof (iblock_range _ x G Hin) as Hib. fold ib in Hib.
  assert (Hk3 : kept f1 f3) by (rewrite E2 in M; destruct M; by split). pose proof (kp_sb _ _ Hk) as Esb.
  assert (C31 : forall b, b <> ib -> content f3 b = content f1 b).
  { intros b Hb. rewrite C3, (proj2 (Z.eqb_neq b ib)) by done. by rewrite E2. }
  pose proof (wr_ok _ _ _ _ _ _ _ W) as Hok1. fold x1 in Hok1. pose proof (wr_layout _ _ _ _ _ _ _ W) as Hla1.
  destruct (file_ok_size f1 f3 x1 (off + n) ib Hla1 Hok1 Hk3) as (Hla3 & Hok3 & Hb3 & Hd3); [lia| |rewrite Esb; lia|done|].
  { intros o Hoo. apply (wr_there _ _ _ _ _ _ _ W). lia. }
  assert (Hfb : forall o, 0 <= o < off + n -> iblock f1 x1 (o / BSIZE) <> 0).
  { intros o Hoo. destruct (Z_lt_dec o off); [|apply (wr_there _ _ _ _ _ _ _ W); lia].
    apply (file_block_there _ _ _ Hok1). lia. }
  split; rewrite ?Ex3; fold x; try done.
  - etransitivity; [exact Hk|exact Hk3].
  - intros j Hj. rewrite (mv_inode _ _ M), E2. simpl. rewrite fn_insert_ne by done. by apply W.
  - rewrite Em at 1. done.
  - simpl. lia.
  - intros o Hoo. unfold fbyte at 1. rewrite Hb3. specialize (Hfb o ltac:(lia)).
    pose proof (block_lt o ltac:(lia)) as Hob. destruct (fo_block _ _ Hok1 _ Hob Hfb) as [Hd _].
    pose proof (bmap_before_data _ G). rewrite Esb in Hd. rewrite C31 by lia. change (content f1 _ _) with (fbyte f1 x1 o).
    apply W; [lia|]. fold x. destruct (Z_lt_dec o off); [right; apply (file_block_there _ _ _ Hok); fold x; lia|left; lia].
  - intros b Hb Hno Hne. rewrite C31 by done. destruct (wr_content _ _ _ _ _ _ _ W b Hb Hno) as [Ec Hnf]. split; [done|].
    intros [H|(bn & Hbn & Hnz & E)]; apply Hnf; [by left|]. rewrite Hb3 in Hnz, E. right. by exists bn.
  - intros b Hb. by apply Hd3, W.
  - unfold synced. simpl. rewrite (kp_sb _ _ Hk3), Esb, Ei1. fold ib. rewrite C3, Z.eqb_refl.
    replace (fs_inode f2 ip) with (inode_size (off + n) x1) by (rewrite E2; simpl; by rewrite fn_insert_eq).
    apply put_dinode_is. apply (file_words f1); [apply Hla1|done| |lia].
    rewrite Em. apply (synced_short f x Hsy).
  - intros o Hoo. fold ib. rewrite C3, Z.eqb_refl, put_dinode_out by done. destruct (iblock_apart f _ G Hok Hin) as [Hset Hnf].
    destruct (wr_content _ _ _ _ _ _ _ W _ Hset Hnf) as [Eib _]. rewrite E2. exact (f_equal (fun m => m o) Eib).
Qed.

Lemma fwp_writei dv ip ms src off n k kf s (Q : Z -> fsst -> Prop) :
  layout (k_fs s) -> file_ok (k_fs s) (inode_at s ip) -> synced (k_fs s) (inode_at s ip) -> inum_ok (k_fs s) (inode_at s ip) ->
  i_type (inode_at s ip) <> T_DEV -> 0 <= off <= i_size (inode_at s ip) -> 0 <= n -> off + n <= MAXFILE * BSIZE ->
  tx (k_fs s) [] (k + 1 + touched off n + reserve (k_fs s) (inode_at s ip)) -> 0 <= k -> 0 <= kf ->
  kf + touched off n + ind_need (inode_at s ip) <= nfree (k_fs s) ->
  (forall f, written ip (k_fs s) off n ms src f -> tx f [] k -> kf + ind_need (fs_inode f ip) <= nfree f -> Q n f) ->
  fwp (writei dv ip ms src off n) s Q.
Proof.
  intros Hla Hok Hsy Hin Hty Ho Hn Hmax Ht Hk Hkf Hsp HQ. set (x := inode_at s ip) in *. pose proof (fo_size _ _ Hok) as Hsz.
  unfold writei. apply fwp_gets_bind. fold x. rewrite (proj2 (Z.eqb_neq (i_type x) T_DEV)) by done.
  rewrite (proj2 (Z.ltb_ge (i_size x) off)) by lia. rewrite uint32_small by (unfold W32; fs_lia).
  rewrite (proj2 (Z.ltb_ge (off + n) off)), (proj2 (Z.ltb_ge (MAXFILE * BSIZE) (off + n))) by lia. simpl orb.
  apply fwp_bind. apply (fwp_writei_loop _ ip ms src off 0 n (k + 1) kf); rewrite ?Z.sub_0_r; try done; try lia.
  intros f1 W T1 N1 s1 <- _. apply fwp_gets_bind. pose proof (wr_meta _ _ _ _ _ _ _ W) as Em.
  change (fs_inode (k_fs s1) ip) with (inode_at s1 ip) in Em, T1, N1. change (fs_inode (k_fs s) ip) with x in Em. set (x1 := inode_at s1 ip) in *.
  assert (Es1 : i_size x1 = i_size x) by (by rewrite Em). rewrite Es1. assert (En : int32 n = n) by (apply int32_small; fs_lia).
  assert (HR : 0 <= reserve (k_fs s1) x1).
  { unfold reserve. pose proof (bm_gap_range (k_fs s1)). pose proof (gap_range (k_fs s1) (ind x1)). case_match; lia. }
  destruct (Z_le_dec (off + n) (i_size x)) as [Hle|Hgt].
  - replace ((0 <? n) && (i_size x <? off + n)) with false by (symmetry; apply andb_false_iff; right; apply Z.ltb_ge; lia).
    apply fwp_ret_bind. apply fwp_ret. rewrite En. apply HQ; [|eapply tx_weaken; [exact T1|lia]|exact N1].
    apply written_inside; try done; [apply Hla|lia].
  - rewrite (proj2 (Z.ltb_lt 0 n)), (proj2 (Z.ltb_lt (i_size x) (off + n))) by lia. simpl andb. unfold when. apply fwp_bind_assoc.
    apply fwp_upd_inode_bind. fold x1. intros s2 E2. pose proof (wr_kept _ _ _ _ _ _ _ W) as Hkp.
    assert (Ex2 : inode_at s2 ip = inode_size (off + n) x1) by (unfold inode_at; rewrite E2; simpl; by rewrite fn_insert_eq).
    assert (Ei2 : i_inum (inode_at s2 ip) = i_inum x) by (rewrite Ex2; simpl; by rewrite Em).
    assert (Esb : fs_sb (k_fs s2) = fs_sb (k_fs s)) by (rewrite E2; apply Hkp).
    pose proof (wr_layout _ _ _ _ _ _ _ W) as [G1 _]. apply fwp_bind.
    apply (fwp_iupdate ip k); [by rewrite E2; destruct G1; split|rewrite Ex2; simpl; rewrite Em; apply Hok| | |done|].
    + unfold inum_ok. by rewrite Ei2, Esb.
    + rewrite E2. apply tx_inode. eapply tx_weaken; [exact T1|].
      match goal with |- context [gap ?f ?b] => pose proof (gap_range f b) end. lia.
    + rewrite Ei2, Esb. intros f3 T3 M3 C3 s3 <- _. apply fwp_ret. rewrite En. apply HQ; [|done|].
      2:{ rewrite (mv_inode _ _ M3), E2. simpl. rewrite fn_insert_eq. rewrite (same_nfree (k_fs s2) (k_fs s3));
          [rewrite E2; exact N1|rewrite E2; by destruct G1; split|by apply moved_kept_id|]. intros b Hb. rewrite C3.
          rewrite (proj2 (Z.eqb_neq b _)); [done|]. rewrite Esb in Hb. pose proof (iblock_range _ x (la_geom _ Hla) Hin). lia. }
      apply (written_past ip _ off n ms src (k_fs s1) (k_fs s2)); try done; change (fs_inode (k_fs s) ip) with x; lia.
Qed.

Lemma fwp_readi dv ip md dst off n k s (Q : Z * mem -> fsst -> Prop) :
  layout (k_fs s) -> file_ok (k_fs s) (inode_at s ip) -> tx (k_fs s) [] k -> i_type (inode_at s ip) <> T_DEV ->
  0 <= off <= i_size (inode_at s ip) -> 0 <= n -> off + n < W32 ->
  (forall md' f, (forall a, md' a = if inside dst (Z.min n (i_size (inode_at s ip) - off)) a
      then fbyte (k_fs s) (inode_at s ip) (off + (a - dst)) else md a) ->
    tx f [] k -> moved (k_fs s) f -> (forall b, content f b = content (k_fs s) b) ->
    (forall b, dirty_block f b = dirty_block (k_fs s) b) -> Q (Z.min n (i_size (inode_at s ip) - off), md') f) ->
  fwp (readi dv ip md dst off n) s Q.
Proof.
  intros Hla Hok Ht Hty Ho Hn Hov HQ. set (x := inode_at s ip) in *. pose proof (fo_size _ _ Hok) as Hsz.
  unfold readi. apply fwp_gets_bind. fold x. rewrite (proj2 (Z.eqb_neq (i_type x) T_DEV)) by done.
  rewrite uint32_small by lia. rewrite (proj2 (Z.ltb_ge (i_size x) off)), (proj2 (Z.ltb_ge (off + n) off)) by lia. simpl orb.
  set (n' := if i_size x <? off + n then i_size x - off else n). cbv zeta. fold n'.
  assert (En : n' = Z.min n (i_size x - off)) by (unfold n'; destruct (Z.ltb_spec (i_size x) (off + n)); lia). rewrite <- En in HQ.
  apply fwp_bind. apply (fwp_readi_loop _ ip md dst off 0 n' k); rewrite ?Z.sub_0_r; try done; try (fold x; lia).
  fold x. intros md' f T M C D Hmd s1 <- _. apply fwp_ret. rewrite int32_small by fs_lia. by apply HQ.
Qed.
End content.

(** Reading a file.  For an inode that is not a device and whose blocks are in order,
    [readi] of [n] bytes at [off] returns -1 and does nothing where [off] is past the
    end or [off + n] overflows.  Otherwise it returns the number of bytes there are, at
    most [n], and has copied exactly the bytes of the file from [off] on to [dst]; no
    block, no inode and nothing else of the destination changes.  It returns, with its
    locks released, whatever blocks the file has, direct or through the indirect
    block. *)
Theorem readi_reads cur pid dv ip md dst off n k s
  (Hr : fs_ready cur pid s) (Hla : layout (k_fs s)) (Hok : file_ok (k_fs s) (inode_at s ip))
  (Ht : tx pid (k_fs s) [] k) (Hty : i_type (inode_at s ip) <> T_DEV) (Hoff : 0 <= off < W32) (Hn : 0 <= n < W32) :
  (i_size (inode_at s ip) < off \/ W32 <= off + n ->
    readi dv ip md dst off n s = Done (-1, md) s) /\
  (off <= i_size (inode_at s ip) -> off + n < W32 ->
    wp (readi dv ip md dst off n) s (fun r s' =>
      r.1 = Z.min n (i_size (inode_at s ip) - off) /\
      (forall a, r.2 a = if inside dst r.1 a then fbyte (k_fs s) (inode_at s ip) (off + (a - dst)) else md a) /\
      (forall b, content (k_fs s') b = content (k_fs s) b) /\ fs_inode (k_fs s') = fs_inode (k_fs s) /\
      tx pid (k_fs s') [] k /\ frame s s' /\ fs_ready cur pid s')).
Proof.
  set (x := inode_at s ip) in *. pose proof (fo_size _ _ Hok) as Hsz. split.
  - intros Hbad. unfold readi. rewrite inode_get_run. fold x.
    rewrite (proj2 (Z.eqb_neq (i_type x) T_DEV)) by done.
    replace ((i_size x <? off) || (uint32 (off + n) <? off)) with true; [done|]. symmetry. apply orb_true_iff.
    destruct (Z.ltb_spec (i_size x) off); [by left|]. right. apply Z.ltb_lt. unfold uint32.
    replace (off + n) with (off + n - W32 + 1 * W32) by lia. rewrite Z.mod_add by done. rewrite Z.mod_small; lia.
  - intros Ho Hov. assert (Hw : fwp cur pid (readi dv ip md dst off n) s (fun r f => r.1 = Z.min n (i_size x - off) /\
      (forall a, r.2 a = if inside dst r.1 a then fbyte (k_fs s) x (off + (a - dst)) else md a) /\
      (forall b, content f b = content (k_fs s) b) /\ fs_inode f = fs_inode (k_fs s) /\ tx pid f [] k)).
    { apply (fwp_readi cur pid dv ip md dst off n k); [done|done|done|done|fold x; lia|lia|done|].
      intros md' f Hmd T M C _. split_and!; [done|done|done|apply M|done]. }
    eapply wp_mono; [|by apply Hw]. intros r s' (F & R & H1 & H2 & H3 & H4 & H5). by split_and!.
Qed.

(** C6: Writing a file.  For an inode that is not a device, whose blocks are in order and
    whose copy on the disk is up to date, [writei] of [n] bytes at [off] returns -1 and
    does nothing where [off] is past the end, [off + n] overflows or is beyond the
    largest file.  Otherwise, inside a transaction with room for the blocks it touches,
    the blocks of the free map, the indirect block and the inode, and with enough free
    blocks, it returns [n]: the bytes from [off] on are the source's, the others are as
    before, the size covers what was written, the inode on the disk is up to date
    again, and no block of another file or of the rest of the disk changes but those of
    the free map and the inode's own. *)
Theorem writei_writes cur pid dv ip ms src off n k s
  (Hr : fs_ready cur pid s) (Hla : layout (k_fs s)) (Hok : file_ok (k_fs s) (inode_at s ip))
  (Hsy : synced (k_fs s) (inode_at s ip)) (Hin : inum_ok (k_fs s) (inode_at s ip))
  (Hty : i_type (inode_at s ip) <> T_DEV) (Hoff : 0 <= off < W32) (Hn : 0 <= n < W32) (Hk : 0 <= k) :
  (i_size (inode_at s ip) < off \/ MAXFILE * BSIZE < off + n ->
    writei dv ip ms src off n s = Done (-1) s) /\
  (off <= i_size (inode_at s ip) -> off + n <= MAXFILE * BSIZE ->
    tx pid (k_fs s) [] (k + 1 + touched off n + reserve (k_fs s) (inode_at s ip)) ->
    touched off n + ind_need (inode_at s ip) <= nfree (k_fs s) ->
    wp (writei dv ip ms src off n) s (fun r s' => r = n /\
      i_size (inode_at s' ip) = Z.max (i_size (inode_at s ip)) (off + n) /\
      (forall o, 0 <= o < i_size (inode_at s' ip) -> fbyte (k_fs s') (inode_at s' ip) o =
        if (off <=? o) && (o <? off + n) then ms (src + (o - off)) else fbyte (k_fs s) (inode_at s ip) o) /\
      (forall b, settled (k_fs s) b -> ~ of_file (k_fs s) (inode_at s ip) b ->
        b <> IBLOCK (i_inum (inode_at s ip)) (fs_sb (k_fs s)) -> content (k_fs s') b = content (k_fs s) b) /\
      (forall j, j <> ip -> inode_at s' j = inode_at s j) /\
      layout (k_fs s') /\ file_ok (k_fs s') (inode_at s' ip) /\ synced (k_fs s') (inode_at s' ip) /\
      tx pid (k_fs s') [] k /\ frame s s' /\ fs_ready cur pid s')).
Proof.
  set (x := inode_at s ip) in *. pose proof (fo_size _ _ Hok) as Hsz. split.
  - intros Hbad. unfold writei. rewrite inode_get_run. fold x. rewrite (proj2 (Z.eqb_neq (i_type x) T_DEV)) by done.
    destruct (Z.ltb_spec (i_size x) off); [done|]. simpl orb. destruct (uint32 (off + n) <? off) eqn:Eu; [done|].
    destruct (Z_lt_dec (off + n) W32) as [Hlt|Hge]; [by rewrite (proj2 (Z.ltb_lt (MAXFILE * BSIZE) (off + n))) by lia|].
    apply Z.ltb_ge in Eu. exfalso. revert Eu. unfold uint32. replace (off + n) with (off + n - W32 + 1 * W32) by lia.
    rewrite Z.mod_add by done. rewrite Z.mod_small; lia.
  - intros Ho Hmax Ht Hsp. assert (Hw : fwp cur pid (writei dv ip ms src off n) s (fun r f =>
      r = n /\ written ip (k_fs s) off n ms src f /\ tx pid f [] k)).
    { apply (fwp_writei cur pid dv ip ms src off n k 0); [done|done|done|done|done|fold x; lia|lia|done|done|done|done|exact Hsp|]. intros f W T _. done. }
    eapply wp_mono; [|by apply Hw]. intros r s' (F & R & -> & W & T). destruct W as [W1 W2 _ W3 W4 W5 W6 W7 W8 W9 _].
    unfold inode_at. fold x. change (fs_inode (k_fs s) ip) with x in *. rewrite W3. split_and!; try done. intros b H1 H2 H3. by apply W5.
Qed.

(** The file of the small disk. *)
Module SmallFile.

(** An inode with one direct block. *)
Section one_block.
Context (x : inode) (r : Z) (Hr : 46 <= r < 48) (Ha : forall i, i_addrs x i = if i =? 0 then r else 0).

Lemma iblock_fs b : 0 <= b < MAXFILE -> iblock Small.fs x b = if b =? 0 then r else 0.
Proof.
  intros Hb. unfold iblock, ind. rewrite !Ha. destruct (Z.ltb_spec b NDIRECT); [done|]. by rewrite (proj2 (Z.eqb_neq b 0)) by fs_lia.
Qed.

Lemma one_ok : i_dev x = 1 -> 0 < i_size x <= BSIZE -> file_ok Small.fs x.
Proof.
  intros Hd Hs. assert (Hi : ind x = 0) by (unfold ind; by rewrite Ha). split; rewrite ?Hi; try done.
  - fs_lia.
  - intros b Hb. rewrite iblock_fs by done. destruct (b =? 0); [intros _|done].
    split; [change (46 <= r < 100); lia|]. rewrite Small.used_fs by lia. apply Z.ltb_lt. lia.
  - intros b c Hb Hc. rewrite !iblock_fs by done. destruct (Z.eqb_spec b 0), (Z.eqb_spec c 0); naive_solver lia.
  - intros b Hb Hlt. rewrite iblock_fs by fs_lia. rewrite (proj2 (Z.eqb_eq b 0)) by fs_lia. lia.
Qed.
End one_block.

Lemma ok : file_ok Small.fs Small.file.
Proof. apply (one_ok _ 46); done. Qed.

Lemma root_ok : file_ok Small.fs Small.root.
Proof. apply (one_ok _ 47); done. Qed.

Lemma laid_out : layout Small.fs.
Proof. split; [exact Small.geometry|exact Small.meta]. Qed.

Lemma is_synced : synced Small.fs Small.file.
Proof.
  unfold synced. rewrite Small.content_fs. split; try (vm_compute; reflexivity).
  intros i Hi. assert (Hl : forallb (fun j => di_addr (Small.blocks (IBLOCK 2 Small.sb)) (dip 2) (Z.of_nat j) =? i_addrs Small.file (Z.of_nat j)) (seq 0 13) = true) by (vm_compute; reflexivity).
  rewrite forallb_forall in Hl. specialize (Hl (Z.to_nat i) ltac:(apply in_seq; fs_lia)). rewrite Z2Nat.id in Hl by lia. by apply Z.eqb_eq in Hl.
Qed.

Lemma space : touched 1 3 + ind_need Small.file <= nfree Small.fs.
Proof.
  unfold nfree. rewrite (count_idx_ext _ (fun i => negb (Z.of_nat i <? 48))).
  - vm_compute. discriminate.
  - intros i Hi. change (Z.to_nat (sb_size (fs_sb Small.fs))) with 100%nat in Hi. by rewrite Small.used_fs by lia.
Qed.

Lemma room : tx 7 Small.fs [] (6 + 1 + touched 1 3 + reserve Small.fs Small.file).
Proof. replace (6 + 1 + touched 1 3 + reserve Small.fs Small.file) with 10 by (vm_compute; reflexivity). exact Small.running. Qed.
End SmallFile.

Definition no_devices : devsw := mkDevsw (fun _ => None) (fun _ => None).

Lemma readi_reads_witness :
  wp (readi no_devices 0 (fun _ => 0) 100 1 5) Small.st (fun r _ => r.1 = 1 /\ r.2 100 = 105 /\ r.2 101 = 0).
Proof.
  destruct (readi_reads 0 7 no_devices 0 (fun _ => 0) 100 1 5 10 Small.st Small.ready SmallFile.laid_out SmallFile.ok
    Small.running ltac:(discriminate) ltac:(split; [discriminate|reflexivity]) ltac:(split; [discriminate|reflexivity])) as [_ H].
  refine (wp_mono _ _ _ _ _ (H ltac:(discriminate) ltac:(reflexivity))).
  intros [v md] s' (Hv & Hmd & _). change (v = 1) in Hv. subst v. split_and!; [reflexivity| |].
  - rewrite Hmd. change (fbyte Small.fs Small.file 1 = 105). unfold fbyte. rewrite Small.content_fs. reflexivity.
  - rewrite Hmd. reflexivity.
Defined.

Lemma writei_writes_witness :
  wp (writei no_devices 0 (fun a => a) 65 1 3) Small.st (fun r s' => r = 3 /\ i_size (inode_at s' 0) = 4 /\
    fbyte (k_fs s') (inode_at s' 0) 0 = 104 /\ fbyte (k_fs s') (inode_at s' 0) 3 = 67).
Proof.
  destruct (writei_writes 0 7 no_devices 0 (fun a => a) 65 1 3 6 Small.st Small.ready SmallFile.laid_out SmallFile.ok SmallFile.is_synced
    ltac:(split; [discriminate|reflexivity]) ltac:(discriminate) ltac:(split; [discriminate|reflexivity])
    ltac:(split; [discriminate|reflexivity]) ltac:(discriminate)) as [_ H].
  refine (wp_mono _ _ _ _ _ (H ltac:(discriminate) ltac:(discriminate) SmallFile.room SmallFile.space)).
  intros r s' (-> & Hs & Hb & _). change (i_size (inode_at s' 0) = 4) in Hs.
  split_and!; [reflexivity|exact Hs| |]; rewrite Hb by (rewrite Hs; lia).
  - change (fbyte Small.fs Small.file 0 = 104). unfold fbyte. rewrite Small.content_fs. reflexivity.
  - reflexivity.
Defined.
