(* ===== verification/Dir.v ===== *)
(** * fs.c: directories

    A directory as the list of its entries; [dirlookup] finds the first entry with
    the name, and [dirlink] puts a new entry in the first empty place. *)

From S2P Require Import Prelude CString KState Spinlock Cprintf Proc Sleeplock Bio Log LogCrash Tx Fs Blocks Inode Content.

(** ** Names *)

(** The name at [a]: DIRSIZ bytes, zeros after a NUL. *)
Definition name_at (m : mem) (a : Z) : list Z := padded m a <$> seq 0 (Z.to_nat DIRSIZ).

Lemma padded_shift i : forall m m' t t', (forall j, (j <= i)%nat -> m (t + Z.of_nat j) = m' (t' + Z.of_nat j)) ->
  padded m t i = padded m' t' i.
Proof.
  induction i as [|i IH]; intros m m' t t' H; pose proof (H 0%nat ltac:(lia)) as H0; simpl in *; rewrite !Z.add_0_r in H0; [done|].
  rewrite H0. destruct (m' t' =? 0); [done|]. apply IH. intros j Hj. specialize (H (S j) ltac:(lia)).
  replace (t + 1 + Z.of_nat j) with (t + Z.of_nat (S j)) by lia. by replace (t' + 1 + Z.of_nat j) with (t' + Z.of_nat (S j)) by lia.
Qed.

Lemma name_at_shift m m' a a' : (forall j, 0 <= j < DIRSIZ -> m (a + j) = m' (a' + j)) -> name_at m a = name_at m' a'.
Proof.
  intros H. apply list_fmap_ext. intros i j Hj. apply lookup_seq in Hj as [-> Hi]. apply padded_shift. intros l Hl.
  apply H. unfold DIRSIZ in *. lia.
Qed.

(** Padding a padded name changes nothing. *)
Lemma padded_idem m m' t i : forall t', (forall j, (j <= i)%nat -> m' (t' + Z.of_nat j) = padded m t j) -> padded m' t' i = padded m t i.
Proof.
  revert t. induction i as [|i IH]; intros t t' H; pose proof (H 0%nat ltac:(lia)) as H0; simpl in *; rewrite Z.add_0_r in H0; [done|].
  rewrite H0. destruct (Z.eqb_spec (m t) 0) as [E|E]; [done|]. apply IH. intros j Hj. specialize (H (S j) ltac:(lia)). simpl in H.
  rewrite (proj2 (Z.eqb_neq _ _) E) in H. by replace (t' + 1 + Z.of_nat j) with (t' + Z.of_nat (S j)) by lia.
Qed.

Lemma namecmp_spec ms a md b : (forall x, 0 <= ms x < 256) -> (forall x, 0 <= md x < 256) ->
  namecmp ms a md b = 0 <-> name_at ms a = name_at md b.
Proof.
  intros Hs Hd. unfold namecmp, strncmp. rewrite strncmp_loop_spec by done. unfold name_at. split.
  - intros H. apply list_fmap_ext. intros i j Hj. apply lookup_seq in Hj as [-> Hi]. apply H. lia.
  - intros H i Hi. apply (f_equal (fun l => l !! i)) in H. rewrite !list_lookup_fmap, !lookup_seq_lt in H by done. by injection H.
Qed.

(** ** Entries *)

(** The inode number and the name of the entry at [off]. *)
Definition entry_at (f : fsst) (x : inode) (off : Z) : Z * list Z :=
  (load16 (fbyte f x) off, name_at (fbyte f x) (off + de_name)).

Lemma entry_same f x f' x' off : (forall a, 0 <= a < DIRENT -> fbyte f' x' (off + a) = fbyte f x (off + a)) ->
  entry_at f' x' off = entry_at f x off.
Proof.
  intros H. pose proof (H 0 ltac:(done)) as H0. pose proof (H 1 ltac:(done)) as H1. rewrite Z.add_0_r in H0.
  unfold entry_at, load16. rewrite H0, H1. rewrite (name_at_shift (fbyte f' x') (fbyte f x) _ (off + de_name)); [reflexivity|].
  intros j Hj. rewrite <- !Z.add_assoc. apply H. unfold DIRSIZ, DIRENT, de_name in *. lia.
Qed.

Definition entries (f : fsst) (x : inode) : list (Z * list Z) :=
  (fun i => entry_at f x (DIRENT * Z.of_nat i)) <$> seq 0 (Z.to_nat (i_size x / DIRENT)).

(** An entry in use with the name. *)
Definition named (name : list Z) (e : Z * list Z) : Prop := e.1 <> 0 /\ e.2 = name_at (bytes_mem name) 0.

#[export] Instance named_dec name e : Decision (named name e).
Proof. unfold named. apply _. Defined.

(** A sound directory: whole entries, of bytes. *)
Record dir_ok (f : fsst) (x : inode) : Prop := mkDirOk {
  do_file : file_ok f x;
  do_type : i_type x = T_DIR;
  do_whole : i_size x mod DIRENT = 0;
  do_bytes : forall o, 0 <= o < i_size x -> 0 <= fbyte f x o < 256
}.

Definition name_ok (name : list Z) : Prop := Forall (fun c => 0 <= c < 256) name.

Lemma bytes_mem_range name a : name_ok name -> 0 <= bytes_mem name a < 256.
Proof.
  intros H. unfold bytes_mem. destruct (name !! Z.to_nat a) as [c|] eqn:E; simpl; [|lia]. by apply (Forall_lookup_1 _ _ _ _ H E).
Qed.

Lemma entries_lookup f x i : (i < Z.to_nat (i_size x / DIRENT))%nat ->
  entries f x !! i = Some (entry_at f x (DIRENT * Z.of_nat i)).
Proof. intros Hi. unfold entries. by rewrite list_lookup_fmap, lookup_seq_lt. Qed.

Lemma entries_length f x : length (entries f x) = Z.to_nat (i_size x / DIRENT).
Proof. unfold entries. by rewrite length_fmap, length_seq. Qed.

(** [iget]: the slot of the cache, and what it puts there. *)
Definition iget_hit (inum : Z) (x : inode) : bool := (0 <? i_ref x) && (i_dev x =? 1) && (i_inum x =? inum).

Definition iget_slot (t : nat -> inode) (inum : Z) : option nat :=
  match find_idx (fun i => iget_hit inum (t i)) NINODE with
  | Some i => Some i
  | None => find_idx (fun i => i_ref (t i) =? 0) NINODE
  end.

Definition iget_put (inum : Z) (x : inode) : inode :=
  if iget_hit inum x then inode_ref (i_ref x + 1) x else inode_id 1 inum 1 false x.

Section dir.
Context (cur : nat) (pid : Z).
Abbreviation tx := (tx pid).
Abbreviation fwp := (fwp cur pid).

Lemma fwp_iget inum s (Q : nat -> fsst -> Prop) :
  (exists i, (i < NINODE)%nat /\ i_ref (inode_at s i) = 0) ->
  (forall ip, iget_slot (fs_inode (k_fs s)) inum = Some ip ->
    Q ip (with_inode (<[ip := iget_put inum (inode_at s ip)]> (fs_inode (k_fs s))) (k_fs s))) ->
  fwp (iget 1 inum) s Q.
Proof.
  intros (e & He & Hez) HQ. apply fwp_intro. intros [Hc _]. unfold iget. wpb. eapply wp_acquire; [exact Hc|set_solver|]. intros c1 H1.
  unfold iget_slot in HQ. apply wp_gets_bind. cbv beta.
  match goal with |- wp (match ?e with _ => _ end) _ _ => change e with (find_idx (fun i => iget_hit inum (fs_inode (k_fs s) i)) NINODE) end.
  destruct (find_idx (fun i => iget_hit inum _) NINODE) as [ip|] eqn:Eh.
  - wpb. apply wp_modify. wpb. eapply wp_release; [exact H1|done|]. intros c2 H2. apply wp_ret.
    apply find_idx_Some in Eh as (_ & Eh & _). specialize (HQ ip eq_refl). unfold iget_put in HQ.
    rewrite (Eh : iget_hit inum (inode_at s ip) = true) in HQ.
    eexists c2, (k_ptab s), _. split_and!; [done|done| |exact HQ]. by destruct s.
  - apply wp_gets_bind. cbv beta.
    match goal with |- wp (match ?e with _ => _ end) _ _ => change e with (find_idx (fun i => i_ref (fs_inode (k_fs s) i) =? 0) NINODE) end.
    destruct (find_idx (fun i => i_ref _ =? 0) NINODE) as [ip|] eqn:Ee.
    2:{ apply (proj1 (find_idx_None _ _)) with (k := e) in Ee; [|done]. apply Z.eqb_neq in Ee. by destruct Ee. }
    wpb. apply wp_modify. wpb. eapply wp_release; [exact H1|done|]. intros c2 H2. apply wp_ret.
    pose proof (proj1 (find_idx_None _ _) Eh) as Hno. apply find_idx_Some in Ee as (Hip & _ & _). specialize (HQ ip eq_refl). unfold iget_put in HQ.
    rewrite (Hno ip Hip : iget_hit inum (inode_at s ip) = false) in HQ.
    eexists c2, (k_ptab s), _. split_and!; [done|done| |exact HQ]. by destruct s.
Qed.

(** What a directory read leaves as it is. *)
Definition unchanged (k : Z) (f f' : fsst) : Prop :=
  tx f' [] k /\ moved f f' /\ (forall b, content f' b = content f b) /\ (forall b, dirty_block f' b = dirty_block f b).

Lemma unchanged_trans k f f1 f2 : unchanged k f f1 -> unchanged k f1 f2 -> unchanged k f f2.
Proof.
  intros (_ & M1 & C1 & D1) (T2 & M2 & C2 & D2). split_and!; [done|by etransitivity| |]; intros b; [by rewrite C2|by rewrite D2].
Qed.

Lemma unchanged_fbyte k f f' x o : unchanged k f f' -> fbyte f' x o = fbyte f x o.
Proof. intros (_ & _ & C & _). unfold fbyte, iblock. by rewrite !C. Qed.

Lemma unchanged_dir k f f' x : layout f -> dir_ok f x -> unchanged k f f' -> layout f' /\ dir_ok f' x /\ entries f' x = entries f x.
Proof.
  intros Hla [D1 D2 D3 D4] U. pose proof U as (_ & M & C & D).
  destruct (file_ok_same f f' x Hla (moved_kept_id _ _ M) C D D1) as (L1 & L2 & L3). split_and!; [done| |].
  - split; try done. intros o Ho. rewrite L3. by apply D4.
  - apply list_fmap_ext. intros i j _. apply entry_same. intros a _. apply L3.
Qed.

(** The local variable [de] after the read of an entry. *)
Lemma fwp_read_dirent dv dp off msg k s (Q : mem -> fsst -> Prop) :
  layout (k_fs s) -> dir_ok (k_fs s) (inode_at s dp) -> tx (k_fs s) [] k ->
  0 <= off -> off + DIRENT <= i_size (inode_at s dp) ->
  (forall de f, (forall a, 0 <= de a < 256) -> (de_inum de, name_at de de_name) = entry_at (k_fs s) (inode_at s dp) off ->
    unchanged k (k_fs s) f -> Q de f) ->
  fwp (read_dirent dv dp off msg) s Q.
Proof.
  intros Hla Hd Ht Ho Hsz HQ. set (x := inode_at s dp) in *. pose proof (fo_size _ _ (do_file _ _ Hd)) as Hfs.
  unfold read_dirent. apply fwp_bind.
  apply (fwp_readi cur pid dv dp (fun _ => 0) 0 off DIRENT k); [done|apply Hd|done|fold x; by rewrite (do_type _ _ Hd)|fold x; unfold DIRENT in *; lia|done|unfold W32; unfold DIRENT in *; fs_lia|].
  fold x. rewrite Z.min_l by lia. intros de f Hde T M C D s1 <- _. rewrite Z.eqb_refl. apply fwp_ret.
  assert (Hin : forall a, 0 <= a < DIRENT -> de a = fbyte (k_fs s) x (off + a)).
  { intros a Ha. rewrite Hde. unfold inside. rewrite (proj2 (Z.leb_le 0 a)), (proj2 (Z.ltb_lt a (0 + DIRENT))) by lia. simpl. f_equal. lia. }
  apply HQ; [| |by split_and!].
  - intros a. rewrite Hde. unfold inside. zcases; try lia. apply (do_bytes _ _ Hd). unfold DIRENT in *. lia.
  - unfold entry_at. f_equal.
    + unfold de_inum, load16. rewrite !Hin by (unfold DIRENT; lia). by rewrite Z.add_0_r.
    + apply name_at_shift. intros j Hj. rewrite Hin by (unfold DIRENT, DIRSIZ, de_name in *; lia). f_equal. lia.
Qed.

(** The result of a lookup: the first entry with the name, whose inode [iget] takes. *)
Definition looked_up (k : Z) (f : fsst) (x : inode) (name : list Z) (r : option (nat * Z)) (f' : fsst) : Prop :=
  match list_find (named name) (entries f x) with
  | None => r = None /\ unchanged k f f'
  | Some (i, e) => exists ip f1, r = Some (ip, DIRENT * Z.of_nat i) /\ unchanged k f f1 /\
      iget_slot (fs_inode f) e.1 = Some ip /\ f' = with_inode (<[ip := iget_put e.1 (fs_inode f ip)]> (fs_inode f)) f1
  end.

Lemma drop_entries f x i : (i < Z.to_nat (i_size x / DIRENT))%nat ->
  drop i (entries f x) = entry_at f x (DIRENT * Z.of_nat i) :: drop (S i) (entries f x).
Proof. intros Hi. apply drop_S. by apply entries_lookup. Qed.

Lemma fwp_dirlookup_loop n : forall dv dp name i fuel k s (Q : option (nat * Z) -> fsst -> Prop),
  layout (k_fs s) -> dir_ok (k_fs s) (inode_at s dp) -> tx (k_fs s) [] k -> name_ok name ->
  (exists e, (e < NINODE)%nat /\ i_ref (inode_at s e) = 0) ->
  Z.of_nat i + Z.of_nat n = i_size (inode_at s dp) / DIRENT -> (n < fuel)%nat ->
  (forall r f, match list_find (named name) (drop i (entries (k_fs s) (inode_at s dp))) with
    | None => r = None /\ unchanged k (k_fs s) f
    | Some (j, e) => exists ip f1, r = Some (ip, DIRENT * Z.of_nat (i + j)) /\ unchanged k (k_fs s) f1 /\
        iget_slot (fs_inode (k_fs s)) e.1 = Some ip /\ f = with_inode (<[ip := iget_put e.1 (inode_at s ip)]> (fs_inode (k_fs s))) f1
    end -> Q r f) ->
  fwp (dirlookup_loop fuel dv dp name (DIRENT * Z.of_nat i)) s Q.
Proof.
  induction n as [|n IH]; intros dv dp name i fuel k s Q Hla Hd Ht Hnm Hfree Hi Hf HQ; set (x := inode_at s dp) in *;
    (destruct fuel as [|fuel]; [lia|]); cbn [dirlookup_loop]; apply fwp_gets_bind; fold x;
    pose proof (Z.div_mod (i_size x) DIRENT ltac:(done)) as Em; rewrite (do_whole _ _ Hd), Z.add_0_r in Em.
  { rewrite (proj2 (Z.ltb_ge _ _)) by lia. apply fwp_ret. apply HQ. rewrite drop_ge by (rewrite entries_length; lia). simpl. by split_and!. }
  rewrite (proj2 (Z.ltb_lt _ _)) by (unfold DIRENT in *; lia). apply fwp_bind.
  apply (fwp_read_dirent dv dp _ _ k); [done|done|done|unfold DIRENT; lia|fold x; unfold DIRENT in *; lia|].
  fold x. intros de f1 Hb He U s1 <- _. pose proof U as (T1 & M1 & _). rewrite (drop_entries _ x i) in HQ by lia.
  assert (Ei : inode_at s1 dp = x) by (unfold inode_at; by rewrite (mv_inode _ _ M1)).
  destruct (unchanged_dir k _ _ x Hla Hd U) as (Hla1 & Hd1 & Een).
  assert (Hnext : ~ named name (entry_at (k_fs s) x (DIRENT * Z.of_nat i)) ->
    fwp (dirlookup_loop fuel dv dp name (DIRENT * Z.of_nat i + DIRENT)) s1 Q).
  { intros Hno. replace (DIRENT * Z.of_nat i + DIRENT) with (DIRENT * Z.of_nat (S i)) by (unfold DIRENT; lia).
    apply (IH dv dp name (S i) fuel k s1); rewrite ?Ei;
      [exact Hla1|exact Hd1|exact T1|exact Hnm|unfold inode_at; rewrite (mv_inode _ _ M1); exact Hfree|lia|lia|].
    rewrite Een. intros r f Hr. apply HQ. cbn [list_find]. rewrite decide_False by done. revert Hr.
    destruct (list_find (named name) (drop (S i) (entries (k_fs s) x))) as [[j e]|]; cbn [fmap option_fmap option_map prod_map fst snd]; intros Hr.
    - destruct Hr as (ip & f2 & -> & U2 & Hs & ->). exists ip, f2. rewrite (mv_inode _ _ M1) in *.
      split_and!; [do 3 f_equal; lia|by apply (unchanged_trans k _ (k_fs s1))|done|]. unfold inode_at. by rewrite (mv_inode _ _ M1).
    - destruct Hr as [-> U2]. split; [done|]. by apply (unchanged_trans k _ (k_fs s1)). }
  rewrite <- He in HQ, Hnext. destruct (Z.eqb_spec (de_inum de) 0) as [Ez|Ez]; [apply Hnext; intros [H1 _]; by apply H1|].
  pose proof (namecmp_spec (bytes_mem name) 0 de de_name (fun a => bytes_mem_range name a Hnm) Hb) as Hcmp.
  destruct (Z.eqb_spec (namecmp (bytes_mem name) 0 de de_name) 0) as [Ec|Ec].
  2:{ apply Hnext. intros [_ H2]. simpl in H2. apply Ec, Hcmp. done. }
  rewrite (fo_dev _ _ (do_file _ _ Hd)). apply fwp_bind. apply fwp_iget; [unfold inode_at; by rewrite (mv_inode _ _ M1)|].
  rewrite (mv_inode _ _ M1). intros ip Hs s2 E2 _. apply fwp_ret. apply HQ. cbn [list_find].
  rewrite decide_True by (split; [done|]; simpl; symmetry; by apply Hcmp).
  exists ip, (k_fs s1). rewrite Nat.add_0_r. split_and!; [done|done|done|]. rewrite E2. unfold inode_at. by rewrite (mv_inode _ _ M1).
Qed.

Lemma fwp_dirlookup dv dp name k s (Q : option (nat * Z) -> fsst -> Prop) :
  layout (k_fs s) -> dir_ok (k_fs s) (inode_at s dp) -> tx (k_fs s) [] k -> name_ok name ->
  (exists e, (e < NINODE)%nat /\ i_ref (inode_at s e) = 0) ->
  (forall r f, looked_up k (k_fs s) (inode_at s dp) name r f -> Q r f) ->
  fwp (dirlookup dv dp name) s Q.
Proof.
  intros Hla Hd Ht Hnm Hfree HQ. set (x := inode_at s dp) in *. unfold dirlookup. apply fwp_gets_bind. fold x.
  rewrite (do_type _ _ Hd), Z.eqb_refl. cbn [negb]. set (fuel := S (Z.to_nat (i_size x))). pose proof (fo_size _ _ (do_file _ _ Hd)). assert (0 <= i_size x / DIRENT) by (apply Z.div_pos; [lia|done]).
  pose proof (Z.div_mod (i_size x) DIRENT ltac:(done)) as Em. rewrite (do_whole _ _ Hd), Z.add_0_r in Em. unfold DIRENT in Em.
  change (dirlookup_loop fuel dv dp name 0) with (dirlookup_loop fuel dv dp name (DIRENT * Z.of_nat 0)).
  apply (fwp_dirlookup_loop (Z.to_nat (i_size x / DIRENT)) dv dp name 0 fuel k s); try done; fold x; try (unfold fuel, DIRENT in *; lia).
Qed.

(** ** Adding an entry *)

(** The first empty entry, or the place after the last one. *)
Definition free_slot (l : list (Z * list Z)) : nat :=
  match list_find (fun e => e.1 = 0) l with Some (i, _) => i | None => length l end.

Lemma fwp_dirlink_loop n : forall dv dp i fuel k s (Q : Z -> fsst -> Prop),
  layout (k_fs s) -> dir_ok (k_fs s) (inode_at s dp) -> tx (k_fs s) [] k ->
  Z.of_nat i + Z.of_nat n = i_size (inode_at s dp) / DIRENT -> (n < fuel)%nat ->
  (forall f, unchanged k (k_fs s) f -> Q (DIRENT * Z.of_nat (i + free_slot (drop i (entries (k_fs s) (inode_at s dp))))) f) ->
  fwp (dirlink_loop fuel dv dp (DIRENT * Z.of_nat i)) s Q.
Proof.
  induction n as [|n IH]; intros dv dp i fuel k s Q Hla Hd Ht Hi Hf HQ; set (x := inode_at s dp) in *;
    (destruct fuel as [|fuel]; [lia|]); cbn [dirlink_loop]; apply fwp_gets_bind; fold x;
    pose proof (Z.div_mod (i_size x) DIRENT ltac:(done)) as Em; rewrite (do_whole _ _ Hd), Z.add_0_r in Em.
  { rewrite (proj2 (Z.ltb_ge _ _)) by lia. apply fwp_ret. rewrite drop_ge in HQ by (rewrite entries_length; lia).
    unfold free_slot in HQ. simpl in HQ. rewrite Nat.add_0_r in HQ. apply HQ. by split_and!. }
  rewrite (proj2 (Z.ltb_lt _ _)) by (unfold DIRENT in *; lia). apply fwp_bind.
  apply (fwp_read_dirent dv dp _ _ k); [done|done|done|unfold DIRENT; lia|fold x; unfold DIRENT in *; lia|].
  fold x. intros de f1 Hb He U s1 <- _. pose proof U as (T1 & M1 & _). rewrite (drop_entries _ x i), <- He in HQ by lia.
  unfold free_slot in HQ. cbn [list_find] in HQ.
  destruct (Z.eqb_spec (de_inum de) 0) as [Ez|Ez].
  - apply fwp_ret. rewrite decide_True in HQ by done. rewrite Nat.add_0_r in HQ. by apply HQ.
  - rewrite decide_False in HQ by done.
    assert (Ei : inode_at s1 dp = x) by (unfold inode_at; by rewrite (mv_inode _ _ M1)).
    destruct (unchanged_dir k _ _ x Hla Hd U) as (Hla1 & Hd1 & Een).
    replace (DIRENT * Z.of_nat i + DIRENT) with (DIRENT * Z.of_nat (S i)) by (unfold DIRENT; lia).
    apply (IH dv dp (S i) fuel k s1); rewrite ?Ei; [exact Hla1|exact Hd1|exact T1|lia|lia|].
    rewrite Een. intros f U2. unfold free_slot. specialize (HQ f (unchanged_trans k _ _ _ U U2)). revert HQ.
    destruct (list_find (fun e => e.1 = 0) (drop (S i) (entries (k_fs s) x))) as [[j e]|]; cbn [fmap option_fmap option_map prod_map fst snd length].
    + by replace (i + S j)%nat with (S i + j)%nat by lia.
    + by replace (i + S (length (drop (S i) (entries (k_fs s) x))))%nat with (S i + length (drop (S i) (entries (k_fs s) x)))%nat by lia.
Qed.

(** The bytes of a new entry. *)
Lemma make_dirent_bytes name inum a : 0 <= a < DIRENT ->
  make_dirent name inum a = if a =? 0 then byte8 inum else if a =? 1 then byte8 (Z.shiftr inum 8)
    else padded (bytes_mem name) 0 (Z.to_nat (a - 2)).
Proof.
  intros Ha. unfold make_dirent, store16. rewrite Z.add_0_l. destruct (Z.eqb_spec a 0) as [->|]; [by rewrite upd_ne, upd_eq by lia|].
  destruct (Z.eqb_spec a 1) as [->|]; [by rewrite upd_eq|]. rewrite !upd_ne by lia. rewrite strncpy_spec.
  unfold inside, de_name. rewrite (proj2 (Z.leb_le 2 a)), (proj2 (Z.ltb_lt a (2 + DIRSIZ))) by (unfold DIRSIZ, DIRENT in *; lia). done.
Qed.

Lemma padded_range m t i : (forall a, 0 <= m a < 256) -> 0 <= padded m t i < 256.
Proof. revert t. induction i as [|i IH]; intros t H; simpl; [apply H|]. destruct (m t =? 0); [lia|by apply IH]. Qed.

Lemma make_dirent_range name inum a : name_ok name -> 0 <= a < DIRENT -> 0 <= make_dirent name inum a < 256.
Proof.
  intros Hn Ha. rewrite make_dirent_bytes by done. unfold byte8.
  destruct (a =? 0); [apply Z.mod_pos_bound; lia|]. destruct (a =? 1); [apply Z.mod_pos_bound; lia|].
  apply padded_range. intros b. by apply bytes_mem_range.
Qed.

(** The entry a directory shows where the bytes are those of a new one. *)
Lemma entry_new f x off name inum : 0 <= inum < 65536 ->
  (forall a, 0 <= a < DIRENT -> fbyte f x (off + a) = make_dirent name inum a) ->
  entry_at f x off = (inum, name_at (bytes_mem name) 0).
Proof.
  intros Hi H. unfold entry_at, load16.
  pose proof (H 0 ltac:(done)) as H0. pose proof (H 1 ltac:(done)) as H1. rewrite Z.add_0_r in H0. rewrite H0, H1, !make_dirent_bytes by done. change (0 =? 0) with true. change (1 =? 0) with false. change (1 =? 1) with true. cbv iota.
  f_equal.
  - unfold byte8. rewrite Z.shiftr_div_pow2 by lia. change (2 ^ 8) with 256. pose proof (Z.div_mod inum 256 ltac:(lia)).
    rewrite (Z.mod_small (inum / 256)); [lia|]. split; [apply Z.div_pos; lia|apply Z.div_lt_upper_bound; lia].
  - apply list_fmap_ext. intros i j Hj. apply lookup_seq in Hj as [-> Hi']. simpl. apply padded_idem. intros l Hl.
    replace (off + de_name + Z.of_nat l) with (off + (2 + Z.of_nat l)) by (unfold de_name; lia).
    unfold DIRSIZ in Hi'. rewrite H by (unfold DIRENT; lia). rewrite make_dirent_bytes by (unfold DIRENT; lia).
    rewrite (proj2 (Z.eqb_neq _ 0)), (proj2 (Z.eqb_neq _ 1)) by lia. f_equal. lia.
Qed.

(** The first empty place, or the end. *)
Lemma free_slot_first l : (forall j e, (j < free_slot l)%nat -> l !! j = Some e -> e.1 <> 0) /\
  (free_slot l = length l \/ exists e, l !! free_slot l = Some e /\ e.1 = 0).
Proof.
  unfold free_slot. destruct (list_find _ l) as [[i e]|] eqn:E.
  - apply list_find_Some in E as (E & Hz & Hb). split; [|right; by exists e]. intros j e' Hj He. by apply (Hb j e').
  - split; [|by left]. intros j e _ He. apply list_find_None in E. by apply (Forall_lookup_1 _ _ _ _ E He).
Qed.

Lemma free_slot_le l : (free_slot l <= length l)%nat.
Proof.
  unfold free_slot. destruct (list_find _ l) as [[i e]|] eqn:E; [|done]. apply list_find_Some in E as (E & _). apply lookup_lt_Some in E. lia.
Qed.

(** The list with the new entry. *)
Definition add_entry (e : Z * list Z) (l : list (Z * list Z)) : list (Z * list Z) :=
  take (free_slot l) l ++ e :: drop (S (free_slot l)) l.

Lemma written_entries dp f f' name inum :
  let x := fs_inode f dp in let slot := free_slot (entries f x) in
  dir_ok f x -> name_ok name -> 0 <= inum < 65536 ->
  written dp f (DIRENT * Z.of_nat slot) DIRENT (make_dirent name inum) 0 f' ->
  dir_ok f' (fs_inode f' dp) /\ entries f' (fs_inode f' dp) = add_entry (inum, name_at (bytes_mem name) 0) (entries f x).
Proof.
  intros x slot Hd Hnm Hi W. set (x' := fs_inode f' dp). set (off := DIRENT * Z.of_nat slot) in *.
  pose proof (wn_size _ _ _ _ _ _ _ W) as Es. fold x x' in Es. pose proof (wn_byte _ _ _ _ _ _ _ W) as Eb. fold x x' in Eb.
  pose proof (free_slot_le (entries f x)) as Hle. fold slot in Hle. rewrite entries_length in Hle.
  pose proof (Z.div_mod (i_size x) DIRENT ltac:(done)) as Em. rewrite (do_whole _ _ Hd), Z.add_0_r in Em.
  pose proof (fo_size _ _ (do_file _ _ Hd)) as Hsz. assert (Hn0 : 0 <= i_size x / DIRENT) by (apply Z.div_pos; [lia|done]).
  set (n := Z.to_nat (i_size x / DIRENT)) in *. assert (Hn : i_size x = DIRENT * Z.of_nat n) by (unfold n; by rewrite Z2Nat.id by lia).
  assert (Hs' : i_size x' = DIRENT * Z.of_nat (Nat.max n (S slot))) by (rewrite Es, Hn; unfold off, DIRENT; lia).
  assert (Hn' : Z.to_nat (i_size x' / DIRENT) = Nat.max n (S slot)).
  { rewrite Hs', (Z.mul_comm DIRENT), Z.div_mul by done. lia. }
  split.
  - split; [apply W| | |].
    + unfold x'. rewrite (wn_meta _ _ _ _ _ _ _ W). apply (do_type _ _ Hd).
    + rewrite Hs'. unfold DIRENT. rewrite Z.mul_comm. by apply Z.mod_mul.
    + intros o Ho. rewrite Eb by lia. destruct (Z.leb_spec off o); simpl; [destruct (Z.ltb_spec o (off + DIRENT))|].
      * apply make_dirent_range; [done|lia].
      * apply (do_bytes _ _ Hd). rewrite Hn, Hs' in *. unfold off, DIRENT in *. lia.
      * apply (do_bytes _ _ Hd). rewrite Hn, Hs' in *. unfold off, DIRENT in *. lia.
  - apply list_eq. intros i. unfold add_entry. fold slot.
    assert (Hlt : length (take slot (entries f x)) = slot) by (rewrite length_take, entries_length; fold n; lia).
    destruct (decide (i < Nat.max n (S slot))%nat) as [Hi'|Hi'].
    2:{ rewrite !lookup_ge_None_2; [done| |rewrite entries_length; lia].
        rewrite length_app, Hlt. simpl. rewrite length_drop, entries_length. fold n. lia. }
    rewrite entries_lookup by lia. destruct (decide (i = slot)) as [->|Hne].
    + rewrite lookup_app_r by lia. rewrite Hlt, Nat.sub_diag. simpl. f_equal. apply entry_new; [done|].
      intros a Ha. rewrite Eb by (rewrite <- Es, Hs'; unfold off, DIRENT in *; lia).
      rewrite (proj2 (Z.leb_le _ _)), (proj2 (Z.ltb_lt _ _)) by lia. simpl. f_equal. lia.
    + assert (Hin : (i < n)%nat) by lia.
      assert (Hold : entry_at f' x' (DIRENT * Z.of_nat i) = entry_at f x (DIRENT * Z.of_nat i)).
      { assert (Hb : forall a, 0 <= a < DIRENT -> fbyte f' x' (DIRENT * Z.of_nat i + a) = fbyte f x (DIRENT * Z.of_nat i + a)).
        { intros a Ha. rewrite Eb by (rewrite <- Es, Hs'; unfold DIRENT in *; lia).
          replace ((off <=? _) && _) with false; [done|]. symmetry. apply andb_false_iff. unfold off, DIRENT in *.
          destruct (Z_lt_dec (16 * Z.of_nat i + a) (16 * Z.of_nat slot)); [left; apply Z.leb_gt; lia|right; apply Z.ltb_ge; lia]. }
        by apply entry_same. }
      rewrite Hold. destruct (decide (i < slot)%nat).
      * rewrite lookup_app_l by lia. rewrite lookup_take_lt by lia. by rewrite entries_lookup.
      * rewrite lookup_app_r by lia. rewrite Hlt. replace (i - slot)%nat with (S (i - S slot)) by lia. simpl.
        rewrite lookup_drop. replace (S slot + (i - S slot))%nat with i by lia. by rewrite entries_lookup.
Qed.

Lemma touched_dirent i : touched (DIRENT * Z.of_nat i) DIRENT = 1.
Proof.
  unfold touched. change (DIRENT <=? 0) with false. cbv iota. set (o := DIRENT * Z.of_nat i).
  assert (Ho : exists q r, o = BSIZE * q + DIRENT * r /\ 0 <= q /\ 0 <= r < 32).
  { exists (Z.of_nat i / 32), (Z.of_nat i mod 32). pose proof (Z.div_mod (Z.of_nat i) 32 ltac:(lia)).
    pose proof (Z.mod_pos_bound (Z.of_nat i) 32 ltac:(lia)). unfold o, BSIZE, DIRENT. split; [lia|]. split; [apply Z.div_pos; lia|lia]. }
  destruct Ho as (q & r & -> & Hq & Hr). unfold BSIZE, DIRENT.
  rewrite <- (Z.div_unique (512 * q + 16 * r) 512 q (16 * r)) by lia.
  rewrite <- (Z.div_unique (512 * q + 16 * r + 16 - 1) 512 q (16 * r + 15)) by lia. lia.
Qed.

Lemma fwp_dirlink dv dp name inum k s (Q : Z -> fsst -> Prop) :
  let x := inode_at s dp in
  layout (k_fs s) -> dir_ok (k_fs s) x -> synced (k_fs s) x -> inum_ok (k_fs s) x -> name_ok name -> 0 < inum < 65536 ->
  (exists e, (e < NINODE)%nat /\ i_ref (inode_at s e) = 0) ->
  list_find (named name) (entries (k_fs s) x) = None -> i_size x + DIRENT <= MAXFILE * BSIZE ->
  tx (k_fs s) [] (k + 2 + reserve (k_fs s) x) -> 0 <= k -> 1 + ind_need x <= nfree (k_fs s) ->
  (forall f, written dp (k_fs s) (DIRENT * Z.of_nat (free_slot (entries (k_fs s) x))) DIRENT (make_dirent name inum) 0 f ->
    tx f [] k -> Q 0 f) ->
  fwp (dirlink dv dp name inum) s Q.
Proof.
  intros x Hla Hd Hsy Hin Hnm Hi Hfree Hno Hmax Ht Hk Hsp HQ. set (K := k + 2 + reserve (k_fs s) x) in *.
  unfold dirlink. apply fwp_bind. apply (fwp_dirlookup dv dp name K); [done..|]. fold x. intros r f1 Hr s1 <- _.
  unfold looked_up in Hr. rewrite Hno in Hr. destruct Hr as [-> U1]. pose proof U1 as (T1 & M1 & C1 & D1).
  assert (Ei1 : inode_at s1 dp = x) by (unfold inode_at; by rewrite (mv_inode _ _ M1)).
  destruct (unchanged_dir K _ _ x Hla Hd U1) as (Hla1 & Hd1 & Een1).
  apply fwp_gets_bind. rewrite Ei1. set (fuel := S (Z.to_nat (i_size x))). apply fwp_bind.
  pose proof (fo_size _ _ (do_file _ _ Hd)) as Hsz. assert (Hdv : 0 <= i_size x / DIRENT) by (apply Z.div_pos; [lia|done]).
  pose proof (Z.div_mod (i_size x) DIRENT ltac:(done)) as Em. rewrite (do_whole _ _ Hd), Z.add_0_r in Em.
  change (dirlink_loop fuel dv dp 0) with (dirlink_loop fuel dv dp (DIRENT * Z.of_nat 0)).
  apply (fwp_dirlink_loop (Z.to_nat (i_size x / DIRENT)) dv dp 0 fuel K s1); rewrite ?Ei1;
    [exact Hla1|exact Hd1|exact T1|lia|unfold fuel, DIRENT in *; lia|].
  rewrite drop_0, Een1. intros f2 U2 s2 <- _. set (slot := free_slot (entries (k_fs s) x)).
  pose proof (unchanged_trans K _ _ _ U1 U2) as U. destruct U as (T & M & C & D).
  assert (Ei : inode_at s2 dp = x) by (unfold inode_at; by rewrite (mv_inode _ _ M)).
  destruct (file_ok_same _ _ x Hla (moved_kept_id _ _ M) C D (do_file _ _ Hd)) as (Hla2 & Hok2 & Hfb2).
  assert (Hgap : bm_gap (k_fs s2) = bm_gap (k_fs s)) by (apply bm_gap_ext; [apply Hla|apply M|intros; apply D]).
  assert (Hsl : (slot <= Z.to_nat (i_size x / DIRENT))%nat) by (rewrite <- (entries_length (k_fs s) x); apply free_slot_le).
  apply fwp_bind. apply (fwp_writei cur pid dv dp (make_dirent name inum) 0 (DIRENT * Z.of_nat slot) DIRENT k 0); rewrite ?Ei.
  - exact Hla2.
  - exact Hok2.
  - unfold synced. rewrite (mv_sb _ _ M), C. exact Hsy.
  - unfold inum_ok. rewrite (mv_sb _ _ M). exact Hin.
  - by rewrite (do_type _ _ Hd).
  - unfold DIRENT in *. lia.
  - done.
  - unfold DIRENT in *. lia.
  - rewrite touched_dirent. unfold reserve, gap. rewrite Hgap, D. unfold K, reserve, gap in T.
    match goal with |- context [tx _ _ ?a] => match type of T with context [tx _ _ ?b] => replace a with b by lia end end. exact T.
  - exact Hk.
  - done.
  - rewrite touched_dirent. rewrite (same_nfree (k_fs s)); [exact Hsp|apply Hla|by apply moved_kept_id|intros b _; apply C].
  - intros f3 W T3 _ s3 <- _. rewrite Z.eqb_refl. apply fwp_ret. apply HQ; [|exact T3].
    by apply (written_after dp (k_fs s) (k_fs s2)).
Qed.
End dir.

(** Adding an entry shows it under its name and hides no other one. *)
Lemma find_added name e l : named name e -> list_find (named name) l = None ->
  list_find (named name) (add_entry e l) = Some (free_slot l, e).
Proof.
  intros He Hno. pose proof (free_slot_le l) as Hle. unfold add_entry.
  assert (Hlt : length (take (free_slot l) l) = free_slot l) by (rewrite length_take; lia).
  apply list_find_Some. split_and!; [|done|].
  - by rewrite lookup_app_r, Hlt, Nat.sub_diag by lia.
  - intros j y Hj Hjl. rewrite lookup_app_l, lookup_take_lt in Hj by lia.
    apply list_find_None in Hno. by apply (Forall_lookup_1 _ _ _ _ Hno Hj).
Qed.

Lemma find_replace {A} (P : A -> Prop) `{forall x, Decision (P x)} l : forall i e,
  (i <= length l)%nat -> ~ P e -> (forall y, l !! i = Some y -> ~ P y) ->
  list_find P (take i l ++ e :: drop (S i) l) = list_find P l.
Proof.
  induction l as [|y l IH]; intros i e Hi He Hy; simpl in Hi.
  - replace i with 0%nat by lia. simpl. by rewrite decide_False.
  - destruct i as [|i]; simpl.
    + rewrite drop_0, !decide_False; [done|by apply Hy|done].
    + destruct (decide (P y)); [done|]. rewrite IH; [done|lia|done|]. intros z Hz. by apply Hy.
Qed.

Lemma find_other name e l : ~ named name e -> list_find (named name) (add_entry e l) = list_find (named name) l.
Proof.
  intros He. apply find_replace; [apply free_slot_le|done|]. intros y Hy [Hy1 _].
  unfold free_slot in Hy. destruct (list_find (fun e => e.1 = 0) l) as [[j z]|] eqn:E.
  - apply list_find_Some in E as (E & Hz & _). rewrite E in Hy. injection Hy as <-. done.
  - by rewrite lookup_ge_None_2 in Hy.
Qed.

(** Looking up a name.  In a sound directory, with a free place in the inode cache,
    [dirlookup] returns the first entry in use with the name, cut to 14 bytes: its
    offset, and the inode of its number, taken from the cache or put there with one
    more reference.  It returns NULL exactly when no entry in use has the name, and
    then the cache is as before.  No block changes. *)
Theorem dirlookup_finds cur pid dv dp name k s
  (Hr : fs_ready cur pid s) (Hla : layout (k_fs s)) (Hd : dir_ok (k_fs s) (inode_at s dp)) (Ht : tx pid (k_fs s) [] k)
  (Hnm : name_ok name) (Hfree : exists e, (e < NINODE)%nat /\ i_ref (inode_at s e) = 0) :
  wp (dirlookup dv dp name) s (fun r s' =>
    match list_find (named name) (entries (k_fs s) (inode_at s dp)) with
    | None => r = None /\ fs_inode (k_fs s') = fs_inode (k_fs s)
    | Some (i, e) => exists ip, r = Some (ip, DIRENT * Z.of_nat i) /\ (ip < NINODE)%nat /\
        i_dev (inode_at s' ip) = 1 /\ i_inum (inode_at s' ip) = e.1 /\ i_ref (inode_at s' ip) = i_ref (inode_at s ip) + 1 /\
        (forall j, j <> ip -> inode_at s' j = inode_at s j)
    end /\
    (forall b, content (k_fs s') b = content (k_fs s) b) /\ tx pid (k_fs s') [] k /\ frame s s' /\ fs_ready cur pid s').
Proof.
  assert (Hw : fwp cur pid (dirlookup dv dp name) s (fun r f => looked_up pid k (k_fs s) (inode_at s dp) name r f))
    by (by apply (fwp_dirlookup cur pid dv dp name k)).
  eapply wp_mono; [|by apply Hw]. intros r s' (F & R & Hl). unfold looked_up in Hl. revert Hl.
  destruct (list_find (named name) (entries (k_fs s) (inode_at s dp))) as [[i e]|].
  - intros (ip & f1 & -> & (T & M & C & D) & Hs & E). split; [|split_and!; [|rewrite E; by apply tx_inode|done|done]].
    2:{ intros b. rewrite E. apply C. }
    exists ip. unfold inode_at. rewrite E. simpl. rewrite fn_insert_eq. unfold iget_put, iget_slot in *.
    destruct (find_idx (fun i => iget_hit e.1 (fs_inode (k_fs s) i)) NINODE) as [j|] eqn:Eh.
    + injection Hs as ->. apply find_idx_Some in Eh as (Hlt & Eh & _). rewrite Eh. unfold iget_hit in Eh.
      apply andb_true_iff in Eh as [[_ Ed]%andb_true_iff En]. apply Z.eqb_eq in Ed, En. simpl.
      split_and!; try done. intros l Hl. by rewrite fn_insert_ne.
    + pose proof (proj1 (find_idx_None _ _) Eh) as Hno. apply find_idx_Some in Hs as (Hlt & Hz & _). apply Z.eqb_eq in Hz.
      rewrite (Hno ip Hlt), Hz. simpl. split_and!; try done. intros l Hl. by rewrite fn_insert_ne.
  - intros [-> (T & M & C & D)]. split_and!; try done. apply M.
Qed.

(** C7: Adding a name.  In a sound directory without the name, inside a transaction with
    room for two more blocks beyond the reserves and with a free block and a free entry of the inode
    cache, [dirlink]
    returns 0: the entry is in the first empty place of the directory, or after the
    last one, and the other entries are where they were; a lookup of the name now finds it, a lookup of any other name finds what
    it found before, and the directory is sound again and up to date on the disk.  Of the blocks outside
    the directory and the free map only its inode changes. *)
Theorem dirlink_adds cur pid dv dp name inum k s
  (Hr : fs_ready cur pid s) (Hla : layout (k_fs s)) (Hd : dir_ok (k_fs s) (inode_at s dp))
  (Hsy : synced (k_fs s) (inode_at s dp)) (Hin : inum_ok (k_fs s) (inode_at s dp)) (Hnm : name_ok name) (Hi : 0 < inum < 65536)
  (Hfree : exists e, (e < NINODE)%nat /\ i_ref (inode_at s e) = 0)
  (Hno : list_find (named name) (entries (k_fs s) (inode_at s dp)) = None)
  (Hmax : i_size (inode_at s dp) + DIRENT <= MAXFILE * BSIZE)
  (Ht : tx pid (k_fs s) [] (k + 2 + reserve (k_fs s) (inode_at s dp))) (Hk : 0 <= k)
  (Hsp : 1 + ind_need (inode_at s dp) <= nfree (k_fs s)) :
  let old := entries (k_fs s) (inode_at s dp) in
  wp (dirlink dv dp name inum) s (fun r s' => r = 0 /\
    (exists i, entries (k_fs s') (inode_at s' dp) = take i old ++ (inum, name_at (bytes_mem name) 0) :: drop (S i) old /\
      (forall j e, (j < i)%nat -> old !! j = Some e -> e.1 <> 0) /\ (i = length old \/ exists e, old !! i = Some e /\ e.1 = 0) /\
      list_find (named name) (entries (k_fs s') (inode_at s' dp)) = Some (i, (inum, name_at (bytes_mem name) 0))) /\
    (forall other, name_at (bytes_mem other) 0 <> name_at (bytes_mem name) 0 ->
      list_find (named other) (entries (k_fs s') (inode_at s' dp)) = list_find (named other) (entries (k_fs s) (inode_at s dp))) /\
    dir_ok (k_fs s') (inode_at s' dp) /\ synced (k_fs s') (inode_at s' dp) /\ layout (k_fs s') /\
    (forall b, settled (k_fs s) b -> ~ of_file (k_fs s) (inode_at s dp) b ->
      b <> IBLOCK (i_inum (inode_at s dp)) (fs_sb (k_fs s)) -> content (k_fs s') b = content (k_fs s) b) /\
    (forall o, o < dip (i_inum (inode_at s dp)) \/ dip (i_inum (inode_at s dp)) + DINODE <= o ->
      content (k_fs s') (IBLOCK (i_inum (inode_at s dp)) (fs_sb (k_fs s))) o = content (k_fs s) (IBLOCK (i_inum (inode_at s dp)) (fs_sb (k_fs s))) o) /\
    tx pid (k_fs s') [] k /\ frame s s' /\ fs_ready cur pid s').
Proof.
  intros old. set (x := inode_at s dp) in *. set (slot := free_slot (entries (k_fs s) x)).
  assert (Hw : fwp cur pid (dirlink dv dp name inum) s (fun r f => r = 0 /\ tx pid f [] k /\
    written dp (k_fs s) (DIRENT * Z.of_nat slot) DIRENT (make_dirent name inum) 0 f)) by (by apply (fwp_dirlink cur pid dv dp name inum k)).
  eapply wp_mono; [|by apply Hw]. intros r s' (F & R & -> & T & W).
  destruct (written_entries dp (k_fs s) (k_fs s') name inum Hd Hnm ltac:(lia) W) as [Hd' He].
  change (fs_inode (k_fs s') dp) with (inode_at s' dp) in *. change (fs_inode (k_fs s) dp) with x in *. rewrite He.
  split_and!; try done; try apply W.
  - exists slot. destruct (free_slot_first old) as [F1 F2]. split; [done|]. split; [done|]. split; [done|]. apply find_added; [split; [simpl; lia|done]|done].
  - intros other Ho. apply find_other. intros [_ E]. by apply Ho.
Qed.

(** The directory of the small disk. *)
Module SmallDir.

Lemma bytes o : fbyte Small.fs Small.root o = Small.blocks (iblock Small.fs Small.root (o / BSIZE)) (o mod BSIZE).
Proof. unfold fbyte. by rewrite Small.content_fs. Qed.

Lemma first o : 0 <= o < 512 -> fbyte Small.fs Small.root o = Small.blocks 47 o.
Proof.
  intros Ho. rewrite bytes. unfold BSIZE. rewrite Z.div_small, Z.mod_small by lia. done.
Qed.

Lemma is_dir : dir_ok Small.fs Small.root.
Proof.
  split; [exact SmallFile.root_ok|done|done|]. intros o Ho. change (0 <= o < 32) in Ho. rewrite first by lia.
  assert (H : forallb (fun i => (0 <=? Small.blocks 47 (Z.of_nat i)) && (Small.blocks 47 (Z.of_nat i) <? 256)) (seq 0 32) = true) by (vm_compute; reflexivity).
  rewrite forallb_forall in H. specialize (H (Z.to_nat o) ltac:(apply in_seq; lia)). rewrite Z2Nat.id in H by lia.
  apply andb_true_iff in H as [H1 H2]. apply Z.leb_le in H1. apply Z.ltb_lt in H2. done.
Qed.

Lemma the_entries : entries Small.fs Small.root =
  [(1, name_at (bytes_mem [46]) 0); (2, name_at (bytes_mem [104; 105]) 0)].
Proof.
  vm_compute. reflexivity.
Qed.

Lemma synced_root : synced Small.fs Small.root.
Proof.
  unfold synced. rewrite Small.content_fs. split; try (vm_compute; reflexivity).
  intros i Hi. assert (Hl : forallb (fun j => di_addr (Small.blocks (IBLOCK 1 Small.sb)) (dip 1) (Z.of_nat j) =? i_addrs Small.root (Z.of_nat j)) (seq 0 13) = true) by (vm_compute; reflexivity).
  rewrite forallb_forall in Hl. specialize (Hl (Z.to_nat i) ltac:(apply in_seq; fs_lia)). rewrite Z2Nat.id in Hl by lia. by apply Z.eqb_eq in Hl.
Qed.

Lemma free_inode : exists e, (e < NINODE)%nat /\ i_ref (inode_at Small.st e) = 0.
Proof. exists 2%nat. split; [apply Nat.ltb_lt; vm_compute; reflexivity|vm_compute; reflexivity]. Qed.

Lemma dir_space : 1 + ind_need Small.root <= nfree Small.fs.
Proof. exact SmallFile.space. Qed.

Lemma dir_room : tx 7 Small.fs [] (6 + 2 + reserve Small.fs Small.root).
Proof. exact SmallFile.room. Qed.

Lemma names l : forallb (fun c => (0 <=? c) && (c <? 256)) l = true -> name_ok l.
Proof. intros H. apply Forall_forall. intros c Hc. rewrite forallb_forall in H. apply list_elem_of_In, H in Hc. lia. Qed.
End SmallDir.

(** "hi" is there and "a" is not. *)
Lemma dirlookup_finds_witness :
  wp (dirlookup no_devices 1 [104; 105]) Small.st (fun r s' => exists ip, r = Some (ip, 16) /\ i_inum (inode_at s' ip) = 2).
Proof.
  refine (wp_mono _ _ _ _ _ (dirlookup_finds 0 7 no_devices 1 [104; 105] 10 Small.st Small.ready SmallFile.laid_out
    SmallDir.is_dir Small.running (SmallDir.names [104; 105] eq_refl) SmallDir.free_inode)).
  intros r s' [H _]. change (inode_at Small.st 1) with Small.root in H. change (k_fs Small.st) with Small.fs in H.
  rewrite SmallDir.the_entries in H. vm_compute list_find in H. destruct H as (ip & -> & _ & _ & Hi & _). exists ip. split; [reflexivity|exact Hi].
Defined.

Lemma dirlink_adds_witness :
  wp (dirlink no_devices 1 [97] 5) Small.st (fun r s' => r = 0 /\ exists i,
    list_find (named [97]) (entries (k_fs s') (inode_at s' 1)) = Some (i, (5, name_at (bytes_mem [97]) 0)) /\ i = 2%nat).
Proof.
  refine (wp_mono _ _ _ _ _ (dirlink_adds 0 7 no_devices 1 [97] 5 6 Small.st Small.ready SmallFile.laid_out SmallDir.is_dir
    SmallDir.synced_root ltac:(split; [discriminate|reflexivity]) (SmallDir.names [97] eq_refl) ltac:(lia) SmallDir.free_inode _
    ltac:(discriminate) SmallDir.dir_room ltac:(discriminate) SmallDir.dir_space)).
  - intros r s' (-> & (i & _ & Hlt & Hi & Hf) & _). split; [reflexivity|]. exists i. split; [exact Hf|].
    change (inode_at Small.st 1) with Small.root in Hlt, Hi. change (k_fs Small.st) with Small.fs in Hlt, Hi. rewrite SmallDir.the_entries in Hlt, Hi.
    destruct Hi as [->|(e & He & Hz)]; [reflexivity|]. destruct i as [|[|i]]; simpl in He; try (injection He as <-); discriminate.
  - change (inode_at Small.st 1) with Small.root. change (k_fs Small.st) with Small.fs. rewrite SmallDir.the_entries. vm_compute. reflexivity.
Defined.
