(* ===== verification/Oper.v ===== *)
(** * Operations on files as transactions

    Between operations the cache is idle and the log empty, [idle].  [begin_op] opens
    a transaction with room for 20 blocks, [end_op] makes its effects durable, and
    [ilock] and [iunlock] take and give back a file. *)

From S2P Require Import Prelude CString KState Spinlock Cprintf Proc Sleeplock Bio Log LogCrash Tx Fs Blocks Inode Content.

(** No buffer in use, nothing in the log, everything on the disk. *)
Record idle (f : fsst) : Prop := mkIdle {
  id_quiet : exists order, quiet f order;
  id_log : log_wf (fs_log f) (d_size (fs_disk f));
  id_n : lg_n (fs_log f) = 0;
  id_out : lg_outstanding (fs_log f) = 0;
  id_com : lg_committing (fs_log f) = false;
  id_clean : forall b, dirty_block f b = false;
  id_disk : d_size (fs_disk f) <= 2147483648;
  id_size : LOGSIZE <= lg_size (fs_log f)
}.

Lemma idle_free f : idle f -> free_bufs f = 30.
Proof.
  intros [[o [Hok Hidle]] _ _ _ _ Hcl _ _]. change 30 with (Z.of_nat NBUF). apply count_idx_full. intros i Hi.
  apply recyclable_true. split; [by apply Hidle|]. destruct (dirty (fs_buf f i)) eqn:Ed; [|done].
  pose proof (bc_bufs _ _ Hok i Hi) as Hb. pose proof (bo_dev _ _ Hb (bo_dirty _ _ Hb Ed)) as Hdev.
  rewrite <- (Hcl (b_blockno (fs_buf f i))), <- Ed. symmetry. apply (dirty_block_at f o); [done|done|]. by apply caches_true.
Qed.

(** The content of an idle file system is the disk. *)
Lemma idle_content f b : idle f -> content f b = d_blocks (fs_disk f) b.
Proof. intros [[o [Hok Hidle]] _ _ _ _ Hcl _ _]. apply (clean_content f o); [done|intros i Hi _; by apply Hidle|done]. Qed.

(** Reading needs no transaction. *)
Lemma idle_read pid f : idle f -> tx pid f [] 0.
Proof.
  intros Hid. pose proof (idle_free _ Hid) as Hf. destruct Hid as [[o [Hok Hi]] Hw Hn Ho Hc Hcl Hd Hs]. split.
  - by exists o.
  - constructor.
  - intros i Hlt Hr. by destruct Hr; apply Hi.
  - intros b Hb. by apply not_elem_of_nil in Hb.
  - split; [done|]. intros b. rewrite Hcl. split; [done|]. intros (i & Hlt & _). lia.
  - lia.
  - rewrite Hn. unfold LOGSIZE, MAXOPBLOCKS in *. lia.
  - rewrite Hf. done.
Qed.

Lemma tx_quiet pid f k : tx pid f [] k -> exists order, quiet f order.
Proof.
  intros Ht. destruct (tx_cache _ _ _ _ Ht) as [o Hok]. exists o. split; [done|]. intros i Hi.
  destruct (Z.eq_dec (b_refcnt (fs_buf f i)) 0) as [|Hne]; [done|].
  destruct (tx_busy _ _ _ _ Ht i Hi Hne) as (_ & _ & Hin). by apply not_elem_of_nil in Hin.
Qed.

Lemma idle_moved pid f f' : idle f -> tx pid f' [] 0 -> moved f f' -> (forall b, dirty_block f' b = dirty_block f b) -> idle f'.
Proof.
  intros [_ Hw Hn Ho Hc Hcl Hd Hs] Ht M D. destruct (tx_log _ _ _ _ Ht) as [Hw' L']. split.
  - by apply (tx_quiet pid _ 0).
  - done.
  - destruct (Z.eq_dec (lg_n (fs_log f')) 0) as [|Hne]; [done|]. pose proof (lw_n _ _ Hw').
    assert (Hx : dirty_block f' (lg_block (fs_log f') 0) = true) by (apply L'; exists 0; split; [lia|done]).
    by rewrite D, Hcl in Hx.
  - by rewrite (mv_out _ _ M).
  - by rewrite (mv_com _ _ M).
  - intros b. by rewrite D.
  - by rewrite (mv_disk _ _ M).
  - by rewrite (mv_size _ _ M).
Qed.

(** The log of a transaction that starts. *)
Lemma idle_tx pid f : idle f -> tx pid (with_log (log_outstanding 1 (fs_log f)) f) [] 20.
Proof.
  intros Hid. pose proof (idle_free _ Hid) as Hf. destruct Hid as [[o [[C1 C2 C3] Hi]] Hw Hn Ho Hc Hcl Hd Hs]. split.
  - exists o. by split.
  - constructor.
  - intros i Hlt Hr. by destruct Hr; apply Hi.
  - intros b Hb. by apply not_elem_of_nil in Hb.
  - split; [by destruct Hw; split|]. intros b. change (dirty_block _ b) with (dirty_block f b). rewrite Hcl.
    split; [done|]. intros (i & Hlt & _). simpl in Hlt. lia.
  - done.
  - simpl. rewrite Hn. unfold LOGSIZE, MAXOPBLOCKS in *. lia.
  - change (free_bufs _) with (free_bufs f). rewrite Hf. done.
Qed.

(** ** What files are made of: the blocks outside the log *)

Record same_view (f f' : fsst) : Prop := mkSameView {
  sv_sb : fs_sb f' = fs_sb f;
  sv_dsize : d_size (fs_disk f') = d_size (fs_disk f);
  sv_start : lg_start (fs_log f') = lg_start (fs_log f);
  sv_lsize : lg_size (fs_log f') = lg_size (fs_log f);
  sv_content : forall b, ~ in_log (fs_log f) b -> content f' b = content f b
}.

#[export] Instance same_view_preorder : PreOrder same_view.
Proof.
  split; [by split|]. intros x y z [A1 A2 A3 A4 A5] [B1 B2 B3 B4 B5]. split; try congruence.
  intros b Hb. rewrite B5, A5; [done|done|]. unfold in_log in *. by rewrite A3, A4.
Qed.

Section same_view.
Context (f f' : fsst) (V : same_view f f') (Hla : layout f).

Lemma after_log_settled b : sb_inodestart (fs_sb f) <= b -> ~ in_log (fs_log f) b.
Proof. intros Hb. destruct (ge_log _ (la_geom _ Hla)). unfold in_log. lia. Qed.

Lemma view_content b : sb_inodestart (fs_sb f) <= b -> content f' b = content f b.
Proof. intros Hb. by apply V, after_log_settled. Qed.

Lemma view_used b : 0 <= b < sb_size (fs_sb f) -> used f' b = used f b.
Proof.
  intros Hb. unfold used. rewrite (sv_sb _ _ V), view_content; [done|].
  pose proof (bmap_range _ b (la_geom _ Hla) Hb). pose proof (inodes_before_bmap _ (la_geom _ Hla)). lia.
Qed.

Lemma view_layout : layout f'.
Proof.
  destruct Hla as [[G1 G2 G3 G4 G5 G6] Hm]. destruct V as [A1 A2 A3 A4 A5]. split; [split; rewrite ?A1, ?A2, ?A3, ?A4; done|].
  intros b. rewrite A1. intros Hb. rewrite view_used by lia. by apply Hm.
Qed.

Lemma view_nfree : nfree f' = nfree f.
Proof. unfold nfree. rewrite (sv_sb _ _ V). apply count_idx_ext. intros i Hi. by rewrite view_used by lia. Qed.

Lemma view_data_block b : data_block f' b <-> data_block f b.
Proof.
  pose proof (data_start_pos _ (la_geom _ Hla)). unfold data_block. rewrite (sv_sb _ _ V).
  split; intros [Hb Hu]; (split; [done|]); [rewrite view_used in Hu by lia|rewrite view_used by lia]; done.
Qed.

Lemma data_after_log b : data_block f b -> sb_inodestart (fs_sb f) <= b.
Proof.
  intros [Hb _]. pose proof (inodes_before_bmap _ (la_geom _ Hla)). pose proof (bmap_before_data _ (la_geom _ Hla)). lia.
Qed.

Section file.
Context (x : inode) (Hok : file_ok f x).

Lemma view_iblock b : iblock f' x b = iblock f x b.
Proof.
  unfold iblock. destruct (b <? NDIRECT); [done|]. destruct (Z.eqb_spec (ind x) 0); [done|].
  rewrite view_content; [done|]. by apply data_after_log, (fo_ind _ _ Hok).
Qed.

Lemma view_file_ok : file_ok f' x.
Proof.
  pose proof view_iblock as Hib. pose proof view_data_block as Hdb. destruct Hok as [O1 O2 O3 O4 O5 O6 O7]. split; try done.
  - intros b Hb. rewrite Hib. intros Hne. by apply Hdb, O3.
  - intros Hi. by apply Hdb, O4.
  - intros b c Hb Hc'. rewrite !Hib. by apply O5.
  - intros b Hb. rewrite Hib. by apply O6.
  - intros b Hb Hs. rewrite Hib. by apply O7.
Qed.

Lemma view_fbyte o : 0 <= o < i_size x -> fbyte f' x o = fbyte f x o.
Proof.
  intros Ho. destruct (file_block_there _ _ _ Hok Ho) as [Hb Hne]. unfold fbyte. rewrite view_iblock, view_content; [done|].
  by apply data_after_log, (fo_block _ _ Hok).
Qed.

Lemma view_inum : inum_ok f x -> inum_ok f' x.
Proof. unfold inum_ok. by rewrite (sv_sb _ _ V). Qed.

Lemma view_synced : inum_ok f x -> synced f x -> synced f' x.
Proof.
  intros Hin Hsy. unfold synced. rewrite (sv_sb _ _ V), view_content; [done|]. apply (iblock_range _ x (la_geom _ Hla) Hin).
Qed.
End file.
End same_view.

Lemma kept_view f f' : kept f f' -> (forall b, content f' b = content f b) -> same_view f f'.
Proof. intros [A B C D E F] H. split; [done|by rewrite A|done|done|intros b _; apply H]. Qed.

Section oper.
Context (cur : nat) (pid : Z).
Abbreviation tx := (tx pid).
Abbreviation fwp := (fwp cur pid).

Lemma fwp_begin_op s (Q : unit -> fsst -> Prop) :
  idle (k_fs s) -> Q tt (with_log (log_outstanding 1 (fs_log (k_fs s))) (k_fs s)) -> fwp begin_op s Q.
Proof.
  intros Hid HQ. apply fwp_intro. intros [Hc _]. unfold begin_op. wpb. eapply wp_acquire; [exact Hc|by apply not_elem_of_nil|].
  intros c1 C1. wp1. cbn [begin_op_loop]. wp1. change (log_at (set_core c1 s)) with (fs_log (k_fs s)).
  rewrite (id_com _ Hid). unfold log_full. rewrite (id_n _ Hid), (id_out _ Hid). change (LOGSIZE <? 0 + (0 + 1) * MAXOPBLOCKS) with false.
  unfold upd_log. wp1. eapply wp_release; [exact C1|reflexivity|]. intros c2 C2.
  eexists c2, (k_ptab s), _. split_and!; [done|done| |exact HQ].
  unfold log_at. change (k_fs (set_core c1 s)) with (k_fs s). rewrite (id_out _ Hid). by destruct s.
Qed.

(** The files and the superblock as they were, and the content of all blocks outside
    the log, now on the disk. *)
Record closed (f f' : fsst) : Prop := mkClosed {
  cl_idle : idle f';
  cl_sb : fs_sb f' = fs_sb f;
  cl_inode : fs_inode f' = fs_inode f;
  cl_size : d_size (fs_disk f') = d_size (fs_disk f);
  cl_start : lg_start (fs_log f') = lg_start (fs_log f);
  cl_lsize : lg_size (fs_log f') = lg_size (fs_log f);
  cl_content : forall b, ~ in_log (fs_log f) b -> content f' b = content f b;
  cl_disk : forall b, ~ in_log (fs_log f) b -> d_blocks (fs_disk f') b = content f b
}.

Lemma closed_view f f' : closed f f' -> same_view f f'.
Proof. intros []. by split. Qed.

Lemma fwp_end_op k s (Q : unit -> fsst -> Prop) :
  tx (k_fs s) [] k -> lg_committing (fs_log (k_fs s)) = false -> lg_outstanding (fs_log (k_fs s)) = 1 ->
  d_size (fs_disk (k_fs s)) <= 2147483648 -> LOGSIZE <= lg_size (fs_log (k_fs s)) ->
  (forall f, closed (k_fs s) f -> Q tt f) -> fwp end_op s Q.
Proof.
  intros Ht Hcom Hout Hsz Hls HQ. apply fwp_intro. intros [Hc _]. destruct (tx_quiet _ _ _ Ht) as [order Hq].
  pose proof (tx_log _ _ _ _ Ht) as Hinv. pose proof (tx_room _ _ _ _ Ht) as Hroom. pose proof (tx_k _ _ _ _ Ht) as Hk.
  assert (Hfree : 0 < free_bufs (k_fs s)) by (unfold clean in Hroom; simpl in Hroom; lia).
  set (lg := fs_log (k_fs s)) in *. unfold end_op, upd_log. wpb. eapply wp_acquire; [exact Hc|by apply not_elem_of_nil|]. intros c1 C1.
  apply wp_modify_bind, wp_gets_bind. cbv beta. set (s1 := set_fs _ (set_core c1 s)).
  change (log_at s1) with (log_outstanding (lg_outstanding lg - 1) lg). simpl lg_committing. rewrite Hcom, Hout. simpl. wpb. wp1. apply wp_ret. wpb.
  eapply wp_release; [exact C1|reflexivity|]. intros c2 C2. simpl when. wpb. apply (wp_commit_all cur order); try done; simpl.
  + do 2 apply quiet_with_log. exact Hq.
  + apply log_inv_with; [apply log_inv_with; [exact Hinv|by split|done]|by split|done].
  + intros c3 t f' o' C3 Hw Q' L' D' B' E1 E2 E3. wpb. eapply wp_acquire; [exact C3|by apply not_elem_of_nil|]. intros c4 C4.
    wp1. wpb. eapply wp_wakeup; [exact C4|by rewrite list_elem_of_singleton|]. intros c5 C5.
    eapply wp_release; [exact C5|reflexivity|]. intros c6 C6.
    eexists c6, _, _. split_and!; [done| | |apply HQ]; [etransitivity; [exact Hw|apply only_woken_wake]|by destruct s|].
    destruct Hinv as [Hwf _]. assert (Hid : idle (with_log (log_committing false (fs_log f')) f')).
    { split; simpl; rewrite ?L', ?E3; simpl; try done; [exists o'; by apply quiet_with_log| |change (lg_outstanding lg - 1 = 0); lia].
      destruct Hwf as [W1 W2 W3 W4 W5 W6 W7 W8]. split; simpl; try done; try lia.
      change (0 < lg_size lg). unfold LOGSIZE, MAXOPBLOCKS in Hls. lia. }
    split; [exact Hid|exact E1|exact E2|exact E3|change (lg_start (fs_log f') = lg_start lg); by rewrite L'|
      change (lg_size (fs_log f') = lg_size lg); by rewrite L'| |exact B'].
    intros b Hb. etransitivity; [exact (idle_content _ b Hid)|]. by apply B'.
Qed.

(** ** Taking and giving back a file *)

Lemma file_ok_lock f x l : file_ok f (inode_lock l x) <-> file_ok f x.
Proof. split; intros [O1 O2 O3 O4 O5 O6 O7]; by split. Qed.

Lemma synced_lock f x l : synced f (inode_lock l x) <-> synced f x.
Proof. split; intros [D1 D2 D3 D4 D5 D6]; by split. Qed.

(** A file in the cache that nobody has locked. *)
Record at_rest (x : inode) : Prop := mkAtRest {
  ar_ref : 1 <= i_ref x;
  ar_valid : i_valid x = true;
  ar_free : sl_locked (i_lock x) = false
}.

Definition with_lock (ip : nat) (l : sleeplock) (f : fsst) : fsst :=
  with_inode (<[ip := inode_lock l (fs_inode f ip)]> (fs_inode f)) f.

Lemma set_sl_inode ip l s : set_sl (SlInode ip) l s = set_fs (with_lock ip l (k_fs s)) s.
Proof. done. Qed.

Lemma fwp_ilock ip s (Q : unit -> fsst -> Prop) :
  at_rest (inode_at s ip) -> Q tt (with_lock ip (mkSl true pid) (k_fs s)) -> fwp (ilock ip) s Q.
Proof.
  intros [Hr Hv Hf] HQ. apply fwp_intro. intros [Hc Hp]. unfold ilock, inode_get. wp1. rewrite (proj2 (Z.ltb_ge _ 1)) by done.
  wpb. eapply wp_acquiresleep; [exact Hc|by apply not_elem_of_nil|exact Hf|]. intros c H1. wp1.
  set (s1 := set_core c _). assert (Ev : i_valid (inode_at s1 ip) = true) by (unfold s1, inode_at; simpl; by rewrite fn_insert_eq).
  rewrite Ev. simpl when. apply wp_ret. eexists c, (k_ptab s), _. split_and!; [done|done| |exact HQ].
  unfold s1. rewrite Hp, set_sl_inode. by destruct s.
Qed.

Lemma fwp_iunlock ip s (Q : unit -> fsst -> Prop) :
  i_lock (inode_at s ip) = mkSl true pid -> 1 <= i_ref (inode_at s ip) -> Q tt (with_lock ip (mkSl false 0) (k_fs s)) ->
  fwp (iunlock ip) s Q.
Proof.
  intros Hl Hr HQ. apply fwp_intro. intros [Hc Hp]. unfold iunlock, inode_get. wpb.
  eapply wp_holdingsleep; [exact Hc|by apply not_elem_of_nil|]. intros c1 H1. wp1.
  change (sl_at s (SlInode ip)) with (i_lock (inode_at s ip)). rewrite Hl, Hp. simpl. rewrite Z.eqb_refl.
  change (inode_at (set_core c1 s) ip) with (inode_at s ip). rewrite (proj2 (Z.ltb_ge _ 1)) by done. simpl.
  eapply wp_releasesleep; [exact H1|by apply not_elem_of_nil|by apply not_elem_of_nil|]. intros c2 H2.
  eexists c2, _, _. split_and!; [done| | |exact HQ]; [apply only_woken_wake|]. rewrite set_sl_inode. by destruct s.
Qed.
End oper.
