(* ===== verification/Path.v ===== *)
(** * fs.c: path names

    [skipelem] takes a path apart into its elements; [namex] walks them from
    directory to directory.  The walk is shown to implement the resolution of a
    path on the inodes of the disk, whatever is in the inode cache: it finds the
    inode that the entries of the directories lead to, or nothing, changes no
    block, and holds on to no inode but the one it returns. *)

From S2P Require Import Prelude CString KState Spinlock Cprintf Proc Sleeplock Bio Log LogCrash Tx Fs Blocks Inode Content Dir Oper.

(** ** Elements of a path *)

(** The elements of a path, [acc] being the one being read (in reverse). *)
Fixpoint elems_from (acc path : list Z) : list (list Z) :=
  match path with
  | [] => match acc with [] => [] | _ => [rev acc] end
  | c :: rest =>
      if c =? slash then match acc with [] => elems_from [] rest | _ => rev acc :: elems_from [] rest end
      else elems_from (c :: acc) rest
  end.
Definition elems (path : list Z) : list (list Z) := elems_from [] path.

Lemma elems_skip path : elems (skip_slashes path) = elems path.
Proof. induction path as [|c path IH]; simpl; [done|]. unfold elems in *. destruct (Z.eqb_spec c slash) as [->|Hc]; [exact IH|]. simpl. by rewrite (proj2 (Z.eqb_neq _ _) Hc). Qed.

Lemma elems_take path : forall acc e r, take_elem path = (e, r) -> acc <> [] \/ e <> [] -> elems_from acc path = (rev acc ++ e) :: elems r.
Proof.
  induction path as [|c path IH]; intros acc e r; simpl.
  - intros [= <- <-] [Ha|]; [|done]. destruct acc; [done|]. by rewrite app_nil_r.
  - destruct (Z.eqb_spec c slash) as [->|Hc].
    + intros [= <- <-] [Ha|]; [|done]. destruct acc as [|a acc]; [done|]. rewrite app_nil_r. done.
    + destruct (take_elem path) as [e' r'] eqn:E. intros [= <- <-] _. rewrite (IH (c :: acc) e' r' eq_refl) by (by left). simpl. by rewrite <- app_assoc.
Qed.

Lemma take_elem_length path : forall e r, take_elem path = (e, r) -> (length e + length r = length path)%nat.
Proof.
  induction path as [|c path IH]; intros e r; simpl; [by intros [= <- <-]|]. destruct (c =? slash); [by intros [= <- <-]|].
  destruct (take_elem path) as [e' r']. intros [= <- <-]. specialize (IH e' r' eq_refl). simpl. lia.
Qed.

Lemma skip_slashes_length path : (length (skip_slashes path) <= length path)%nat.
Proof. induction path as [|c path IH]; simpl; [done|]. destruct (c =? slash); simpl; lia. Qed.

Lemma skip_slashes_head path c rest : skip_slashes path = c :: rest -> c <> slash.
Proof. induction path as [|d path IH]; simpl; [done|]. destruct (Z.eqb_spec d slash); [done|]. by intros [= <- _]. Qed.

Lemma elems_nonempty c rest : c <> slash -> exists e r, take_elem (c :: rest) = (c :: e, r) /\ elems (c :: rest) = (c :: e) :: elems r.
Proof.
  intros Hc. destruct (take_elem (c :: rest)) as [e r] eqn:E. pose proof E as E'. simpl in E'. rewrite (proj2 (Z.eqb_neq _ _) Hc) in E'.
  destruct (take_elem rest) as [e' r']. injection E' as <- <-. exists e', r'. split; [done|]. unfold elems. by apply (elems_take _ [] (c :: e') r'); [|right].
Qed.

(** An element as the file system knows it: its first 14 bytes. *)
Definition cut (e : list Z) : list Z := take (Z.to_nat DIRSIZ) e.

(** What [skipelem] does to a path: the first element, cut, and a path with the elements after it; no leading slash is left. *)
Lemma skipelem_elems path : match elems path with
  | [] => skipelem path = None
  | e :: es => exists rest, skipelem path = Some (cut e, rest) /\ elems rest = es /\ (length rest < length path)%nat /\ (rest = [] <-> es = []) /\ (name_ok path -> name_ok rest /\ name_ok (cut e))
  end.
Proof.
  assert (Hsub : forall p q, name_ok p -> (forall c, c ∈ q -> c ∈ p) -> name_ok q) by (intros p q Hp Hq; apply Forall_forall; intros c Hc; exact (proj1 (Forall_forall _ _) Hp c (Hq c Hc))).
  assert (Hskip : forall p c, c ∈ skip_slashes p -> c ∈ p) by (induction p as [|d p IH]; simpl; [done|]; intros c; destruct (d =? slash); set_solver).
  assert (Htake : forall p e r, take_elem p = (e, r) -> forall c, c ∈ e \/ c ∈ r -> c ∈ p).
  { induction p as [|d p IH]; intros e r; simpl; [intros [= <- <-]; set_solver|]. destruct (d =? slash); [intros [= <- <-]; set_solver|].
    destruct (take_elem p) as [e' r']. intros [= <- <-]. specialize (IH e' r' eq_refl). set_solver. }
  unfold skipelem. rewrite <- elems_skip. pose proof (skip_slashes_length path) as Hlen. destruct (skip_slashes path) as [|c rest] eqn:Es; [done|].
  destruct (elems_nonempty c rest (skip_slashes_head _ _ _ Es)) as (e & r & Et & Ee). rewrite Ee, Et. exists (skip_slashes r). pose proof (take_elem_length _ _ _ Et) as Hl.
  split_and!; [done|apply elems_skip|pose proof (skip_slashes_length r); simpl in *; lia| |].
  - rewrite <- (elems_skip r). destruct (skip_slashes r) as [|d r'] eqn:Er; [done|]. split; [done|]. destruct (elems_nonempty d r' (skip_slashes_head _ _ _ Er)) as (? & ? & _ & ->). done.
  - intros Hn. assert (Hall : forall x, x ∈ c :: e \/ x ∈ r -> x ∈ path) by (intros x Hx; apply Hskip; rewrite Es; by apply (Htake _ _ _ Et)). split.
    + apply (Hsub path); [done|]. intros x Hx. apply Hall. right. by apply Hskip.
    + apply (Hsub path); [done|]. intros x Hx. apply Hall. left. unfold cut in Hx. by apply elem_of_take in Hx as (? & ?%list_elem_of_lookup_2 & _).
Qed.

(** ** Inodes on the disk and in the cache *)

Definition blank (inum : Z) : inode := mkInode 1 inum 0 (mkSl false 0) true 0 0 0 0 0 (fun _ => 0).

(** The inode [inum] as the disk has it. *)
Definition dnode (f : fsst) (inum : Z) : inode := get_dinode (content f (IBLOCK inum (fs_sb f))) (dip inum) (blank inum).

(** The same file, whatever the state of the cache entry. *)
Record same_node (x y : inode) : Prop := mkSameNode {
  sn_dev : i_dev x = i_dev y;
  sn_type : i_type x = i_type y;
  sn_nlink : i_nlink x = i_nlink y;
  sn_size : i_size x = i_size y;
  sn_addrs : forall i, 0 <= i <= NDIRECT -> i_addrs x i = i_addrs y i
}.

Lemma synced_dnode f x : i_dev x = 1 -> synced f x -> same_node x (dnode f (i_inum x)).
Proof.
  intros Hd [S1 S2 S3 S4 S5 S6]. split; simpl; [done|done|done|done|]. intros i Hi.
  rewrite (proj2 (Z.leb_le 0 i)), (proj2 (Z.leb_le i NDIRECT)) by lia. simpl. by rewrite S6.
Qed.

Section same_node.
Context (f : fsst) (x y : inode) (S : same_node x y).

Lemma node_iblock b : 0 <= b -> iblock f x b = iblock f y b.
Proof.
  intros Hb. unfold iblock, ind. rewrite (sn_addrs _ _ S NDIRECT) by (unfold NDIRECT; lia). destruct (Z.ltb_spec b NDIRECT); [|done]. apply S. lia.
Qed.

Lemma node_fbyte o : 0 <= o -> fbyte f x o = fbyte f y o.
Proof. intros Ho. unfold fbyte. rewrite node_iblock; [done|]. apply Z.div_pos; [lia|done]. Qed.

Lemma node_file : file_ok f y -> file_ok f x.
Proof.
  intros [O1 O2 O3 O4 O5 O6 O7]. assert (Ei : ind x = ind y) by (apply S; unfold NDIRECT; lia). split.
  - by rewrite (sn_dev _ _ S).
  - by rewrite (sn_size _ _ S).
  - intros b Hb. rewrite node_iblock by lia. by apply O3.
  - by rewrite Ei.
  - intros b c Hb Hc. rewrite !node_iblock by lia. by apply O5.
  - intros b Hb. rewrite Ei, node_iblock by lia. by apply O6.
  - intros b Hb. rewrite (sn_size _ _ S), node_iblock by lia. by apply O7.
Qed.

Lemma node_dir : dir_ok f y -> dir_ok f x /\ entries f x = entries f y.
Proof.
  intros [D1 D2 D3 D4]. split.
  - split; [by apply node_file|by rewrite (sn_type _ _ S)|by rewrite (sn_size _ _ S)|]. intros o Ho. rewrite (sn_size _ _ S) in Ho. rewrite node_fbyte by lia. by apply D4.
  - unfold entries. rewrite (sn_size _ _ S). apply list_fmap_ext. intros i j _. apply entry_same. intros a Ha. apply node_fbyte. unfold DIRENT. lia.
Qed.
End same_node.

(** ** The resolution of a path *)

Definition lookup_name (f : fsst) (n : Z) (name : list Z) : option Z :=
  match list_find (named name) (entries f (dnode f n)) with
  | Some (_, e) => Some e.1
  | None => None
  end.

(** From the inode [n]: the inode the elements lead to; with [parent], the directory of the last element, and its name. *)
Fixpoint resolve (f : fsst) (n : Z) (es : list (list Z)) (name : list Z) (parent : bool) : option (Z * list Z) :=
  match es with
  | [] => if parent then None else Some (n, name)
  | e :: es' =>
      if negb (i_type (dnode f n) =? T_DIR) then None
      else if parent && bool_decide (es' = []) then Some (n, cut e)
      else match lookup_name f n (cut e) with
           | Some n' => resolve f n' es' (cut e) parent
           | None => None
           end
  end.

(** A set of inodes that the entries of its directories do not lead out of: all of them in use and, if directories, sound. *)
Record tree_ok (f : fsst) (T : Z -> Prop) : Prop := mkTree {
  to_range : forall n, T n -> 0 <= n < sb_ninodes (fs_sb f);
  to_type : forall n, T n -> i_type (dnode f n) <> 0;
  to_links : forall n, T n -> i_nlink (dnode f n) <> 0;
  to_dir : forall n, T n -> i_type (dnode f n) = T_DIR -> dir_ok f (dnode f n);
  to_next : forall n e, T n -> i_type (dnode f n) = T_DIR -> e ∈ entries f (dnode f n) -> e.1 <> 0 -> T e.1
}.

(** The inode cache: every entry in use is of device 1, a copy of the disk where it is valid, and the only one of its
    inode; the process [pid] holds the entry [lk], and no other entry is locked. *)
Record icache_ok (pid : Z) (lk : option nat) (f : fsst) : Prop := mkIcache {
  ic_ref : forall i, (i < NINODE)%nat -> 0 <= i_ref (fs_inode f i);
  ic_dev : forall i, (i < NINODE)%nat -> 0 < i_ref (fs_inode f i) -> i_dev (fs_inode f i) = 1 /\ inum_ok f (fs_inode f i);
  ic_valid : forall i, (i < NINODE)%nat -> 0 < i_ref (fs_inode f i) -> i_valid (fs_inode f i) = true -> synced f (fs_inode f i);
  ic_one : forall i j, (i < NINODE)%nat -> (j < NINODE)%nat -> 0 < i_ref (fs_inode f i) -> 0 < i_ref (fs_inode f j) ->
    i_inum (fs_inode f i) = i_inum (fs_inode f j) -> i = j;
  ic_lock : forall i, (i < NINODE)%nat ->
    if bool_decide (lk = Some i) then i_lock (fs_inode f i) = mkSl true pid /\ i_valid (fs_inode f i) = true
    else sl_locked (i_lock (fs_inode f i)) = false
}.

(** The blocks are as they were; the inode cache may have changed. *)
Record still (pid k : Z) (f f' : fsst) : Prop := mkStill {
  sl_tx : tx pid f' [] k;
  sl_kept : kept f f';
  sl_content : forall b, content f' b = content f b;
  sl_dirty : forall b, dirty_block f' b = dirty_block f b
}.

Lemma still_trans pid k f f1 f2 : still pid k f f1 -> still pid k f1 f2 -> still pid k f f2.
Proof. intros [A1 A2 A3 A4] [B1 B2 B3 B4]. split; [done|by etransitivity| |]; intros b; congruence. Qed.

Lemma still_dnode pid k f f' n : still pid k f f' -> dnode f' n = dnode f n.
Proof. intros [_ K C _]. unfold dnode. by rewrite C, (kp_sb _ _ K). Qed.

Lemma still_synced pid k f f' x : still pid k f f' -> synced f x -> synced f' x.
Proof. intros [_ K C _]. unfold synced. by rewrite C, (kp_sb _ _ K). Qed.

Lemma still_tree pid k f f' T : still pid k f f' -> layout f -> tree_ok f T -> layout f' /\ tree_ok f' T /\ forall n, T n -> i_type (dnode f n) = T_DIR -> entries f' (dnode f n) = entries f (dnode f n).
Proof.
  intros S Hla [T1 T2 T3 T4 T5]. assert (Hdir : forall n, T n -> i_type (dnode f n) = T_DIR -> layout f' /\ dir_ok f' (dnode f n) /\ entries f' (dnode f n) = entries f (dnode f n)).
  { intros n Hn Ht. destruct S as [_ K C D]. pose proof (T4 n Hn Ht) as [D1 D2 D3 D4]. destruct (file_ok_same f f' _ Hla K C D D1) as (L1 & L2 & L3).
    split_and!; [done|split; try done; intros o Ho; rewrite L3; by apply D4|]. apply list_fmap_ext. intros i j _. apply entry_same. intros a _. apply L3. }
  split_and!; [|split|intros n Hn Ht; by apply Hdir].
  - destruct S as [_ K C _]. apply (same_layout f f'); [apply Hla|done|intros b _; apply C|apply Hla].
  - intros n Hn. rewrite (kp_sb _ _ (sl_kept _ _ _ _ S)). by apply T1.
  - intros n Hn. rewrite (still_dnode _ _ _ _ _ S). by apply T2.
  - intros n Hn. rewrite (still_dnode _ _ _ _ _ S). by apply T3.
  - intros n Hn. rewrite (still_dnode _ _ _ _ _ S). intros Ht. by apply Hdir.
  - intros n e Hn. rewrite (still_dnode _ _ _ _ _ S). intros Ht. rewrite (proj2 (proj2 (Hdir n Hn Ht))). by apply T5.
Qed.

Lemma still_resolve pid k f f' T : still pid k f f' -> layout f -> tree_ok f T -> forall es n name parent, T n -> resolve f' n es name parent = resolve f n es name parent.
Proof.
  intros S Hla Ht. destruct (still_tree _ _ _ _ T S Hla Ht) as (_ & _ & He). induction es as [|e es IH]; intros n name parent Hn; cbn [resolve]; [done|].
  rewrite (still_dnode _ _ _ _ _ S). destruct (Z.eqb_spec (i_type (dnode f n)) T_DIR) as [Ed|Ed]; [|done]. cbn [negb]. destruct (parent && _); [done|].
  unfold lookup_name. rewrite (still_dnode _ _ _ _ _ S), He by done. destruct (list_find _ _) as [[i e']|] eqn:El; [|done].
  apply IH. apply list_find_Some in El as (Hl & [Hne _] & _). apply (to_next _ _ Ht n); [done|done|by eapply list_elem_of_lookup_2|done].
Qed.

(** ** The references a walk holds *)

(** The references to the entry [j] among the entries held. *)
Fixpoint times (j : nat) (held : list (nat * Z)) : Z :=
  match held with
  | [] => 0
  | (i, _) :: l => (if bool_decide (i = j) then 1 else 0) + times j l
  end.

Lemma times_pos j held : 0 <= times j held.
Proof. induction held as [|[i n] l IH]; simpl; [lia|]. case_bool_decide; lia. Qed.

Lemma times_in i n held : (i, n) ∈ held -> 1 <= times i held.
Proof.
  induction held as [|[j m] l IH]; intros H; [by apply not_elem_of_nil in H|]. simpl. pose proof (times_pos i l).
  apply elem_of_cons in H as [[= <- <-]|H]; [rewrite bool_decide_true by done; lia|]. specialize (IH H). case_bool_decide; lia.
Qed.

Section walk.
Context (cur : nat) (pid : Z) (k : Z) (f0 : fsst) (T : Z -> Prop) (Hla : layout f0) (HT : tree_ok f0 T).
Context (Hbase : forall i, (i < NINODE)%nat -> 0 <= i_ref (fs_inode f0 i)).
Abbreviation fwp := (fwp cur pid).
Abbreviation still := (still pid k).

(** A state of the walk that began in [f0]: it holds the entries of [held], each with its inode, and the lock of [lk]. *)
Record walking (held : list (nat * Z)) (lk : option nat) (f : fsst) : Prop := mkWalking {
  wk_still : still f0 f;
  wk_cache : icache_ok pid lk f;
  wk_refs : forall j, i_ref (fs_inode f j) = i_ref (fs_inode f0 j) + times j held;
  wk_ids : forall j, 0 < i_ref (fs_inode f0 j) -> i_inum (fs_inode f j) = i_inum (fs_inode f0 j);
  wk_held : forall i n, (i, n) ∈ held -> (i < NINODE)%nat /\ i_inum (fs_inode f i) = n /\ T n
}.

Lemma held_ref held lk f i n : walking held lk f -> (i, n) ∈ held -> 1 <= i_ref (fs_inode f i).
Proof.
  intros W Hin. destruct (wk_held _ _ _ W _ _ Hin) as (Hi & _). rewrite (wk_refs _ _ _ W). pose proof (times_in _ _ _ Hin). pose proof (Hbase i Hi). lia.
Qed.

(** A step that changes one entry of the cache. *)
Record fits (held : list (nat * Z)) (lk : option nat) (f : fsst) (ip : nat) (y : inode) (held' : list (nat * Z)) (lk' : option nat) : Prop := mkFits {
  fi_ref : i_ref y = i_ref (fs_inode f0 ip) + times ip held';
  fi_others : forall j, j <> ip -> times j held' = times j held;
  fi_dev : 0 < i_ref y -> i_dev y = 1 /\ inum_ok f0 y /\ (i_valid y = true -> synced f0 y);
  fi_one : 0 < i_ref y -> forall j, (j < NINODE)%nat -> j <> ip -> 0 < i_ref (fs_inode f j) -> i_inum (fs_inode f j) <> i_inum y;
  fi_lock : if bool_decide (lk' = Some ip) then i_lock y = mkSl true pid /\ i_valid y = true else sl_locked (i_lock y) = false;
  fi_same : forall j, j <> ip -> lk' = Some j <-> lk = Some j;
  fi_id : 0 < i_ref (fs_inode f0 ip) -> i_inum y = i_inum (fs_inode f0 ip);
  fi_held : forall i n, (i, n) ∈ held' -> (i < NINODE)%nat /\ i_inum (if bool_decide (i = ip) then y else fs_inode f i) = n /\ T n
}.

Lemma walk_step held lk f ip y held' lk' f' :
  walking held lk f -> fits held lk f ip y held' lk' -> (ip < NINODE)%nat -> still f f' ->
  (forall j, fs_inode f' j = if bool_decide (j = ip) then y else fs_inode f j) -> walking held' lk' f'.
Proof.
  intros [W1 W2 W3 W4 W5] F Hip S Ei. pose proof (still_trans _ _ _ _ _ W1 S) as S0. destruct W2 as [C1 C2 C3 C4 C5].
  assert (Hsb : forall x, inum_ok f0 x -> inum_ok f' x) by (unfold inum_ok; intros x; by rewrite (kp_sb _ _ (sl_kept _ _ _ _ S0))).
  split; [done|split| | |].
  - intros i Hi. rewrite Ei. case_bool_decide; [|by apply C1]. subst. rewrite (fi_ref _ _ _ _ _ _ _ F). pose proof (times_pos ip held'). pose proof (Hbase ip Hi). lia.
  - intros i Hi. rewrite Ei. case_bool_decide; intros Hr; [destruct (fi_dev _ _ _ _ _ _ _ F Hr) as (D1 & D2 & _); split; [done|by apply Hsb]|].
    destruct (C2 i Hi Hr) as [D1 D2]. split; [done|]. unfold inum_ok in *. by rewrite (kp_sb _ _ (sl_kept _ _ _ _ S)).
  - intros i Hi. rewrite Ei. case_bool_decide; intros Hr Hv; [by apply (still_synced _ _ _ _ _ S0), F|by apply (still_synced _ _ _ _ _ S), C3].
  - intros i j Hi Hj. rewrite !Ei. case_bool_decide as E1; case_bool_decide as E2; intros Hri Hrj En; subst; [done| | |by apply C4].
    + exfalso. by apply (fi_one _ _ _ _ _ _ _ F Hri j).
    + exfalso. by apply (fi_one _ _ _ _ _ _ _ F Hrj i).
  - intros i Hi. rewrite Ei. case_bool_decide as E2; case_bool_decide as E1; subst.
    + pose proof (fi_lock _ _ _ _ _ _ _ F) as H. by rewrite bool_decide_true in H.
    + specialize (C5 i Hi). rewrite bool_decide_true in C5; [done|]. by apply (fi_same _ _ _ _ _ _ _ F).
    + pose proof (fi_lock _ _ _ _ _ _ _ F) as H. by rewrite bool_decide_false in H.
    + specialize (C5 i Hi). rewrite bool_decide_false in C5; [done|]. intros H. by apply E2, (fi_same _ _ _ _ _ _ _ F).
  - intros j. rewrite Ei. case_bool_decide; [subst; apply F|]. rewrite (fi_others _ _ _ _ _ _ _ F) by done. apply W3.
  - intros j Hj. rewrite Ei. case_bool_decide; [subst; by apply F|by apply W4].
  - intros i n Hin. rewrite Ei. by apply F.
Qed.

Lemma still_with f f1 g : still f f1 -> still f (with_inode g f1).
Proof. intros [S1 S2 S3 S4]. split; [by apply tx_inode|destruct S2; by split|done|done]. Qed.

Lemma still_here f : tx pid f [] k -> still f f.
Proof. intros H. split; [done|by split|done|done]. Qed.

Lemma insert_at (t : nat -> inode) ip y j : <[ip := y]> t j = if bool_decide (j = ip) then y else t j.
Proof. case_bool_decide; [subst; apply fn_insert_eq|by rewrite fn_insert_ne]. Qed.

(** The entry of a held inode, with another lock or validity. *)
Lemma fits_held held lk f ip n y lk' : walking held lk f -> (ip, n) ∈ held ->
  i_ref y = i_ref (fs_inode f ip) -> i_dev y = i_dev (fs_inode f ip) -> i_inum y = i_inum (fs_inode f ip) -> (i_valid y = true -> synced f0 y) ->
  (if bool_decide (lk' = Some ip) then i_lock y = mkSl true pid /\ i_valid y = true else sl_locked (i_lock y) = false) ->
  (forall j, j <> ip -> lk' = Some j <-> lk = Some j) -> fits held lk f ip y held lk'.
Proof.
  intros W Hin Er Ed En Hs Hl Hlk. destruct (wk_held _ _ _ W _ _ Hin) as (Hi & Ei & Hn). pose proof (held_ref _ _ _ _ _ W Hin) as Hr.
  destruct (ic_dev _ _ _ (wk_cache _ _ _ W) ip Hi ltac:(lia)) as [D1 D2]. unfold inum_ok in D2. rewrite (kp_sb _ _ (sl_kept _ _ _ _ (wk_still _ _ _ W))) in D2. split; try done.
  - rewrite Er. apply (wk_refs _ _ _ W).
  - intros _. unfold inum_ok. rewrite Ed, En. split; [done|]. by split.
  - intros _ j Hj Hne Hrj E. apply Hne. apply (ic_one _ _ _ (wk_cache _ _ _ W)); [done|done|done|lia|by rewrite E].
  - intros H. rewrite En. by apply (wk_ids _ _ _ W).
  - intros i m Hm. destruct (wk_held _ _ _ W _ _ Hm) as (A & B & C). clear Hl. case_bool_decide; [subst i; by rewrite En|done].
Qed.

Lemma fwp_lock ip s (Q : unit -> fsst -> Prop) :
  sl_locked (i_lock (inode_at s ip)) = false -> Q tt (with_lock ip (mkSl true pid) (k_fs s)) -> fwp (acquiresleep (SlInode ip)) s Q.
Proof.
  intros Hf HQ. apply fwp_intro. intros [Hc Hp]. eapply wp_acquiresleep; [exact Hc|by apply not_elem_of_nil|exact Hf|]. intros c H1.
  eexists c, (k_ptab s), _. split_and!; [done|done| |exact HQ]. rewrite Hp, set_sl_inode. by destruct s.
Qed.

Lemma fwp_unlock ip s (Q : unit -> fsst -> Prop) : Q tt (with_lock ip (mkSl false 0) (k_fs s)) -> fwp (releasesleep (SlInode ip)) s Q.
Proof.
  intros HQ. apply fwp_intro. intros [Hc Hp]. eapply wp_releasesleep; [exact Hc|by apply not_elem_of_nil|by apply not_elem_of_nil|]. intros c2 H2.
  eexists c2, _, _. split_and!; [done| | |exact HQ]; [apply only_woken_wake|]. rewrite set_sl_inode. by destruct s.
Qed.

(** A change of an entry under the lock of the cache. *)
Lemma fwp_icache ip h s (Q : unit -> fsst -> Prop) :
  Q tt (with_inode (<[ip := h (inode_at s ip)]> (fs_inode (k_fs s))) (k_fs s)) -> fwp (acquire LkIcache;; upd_inode ip h;; release LkIcache) s Q.
Proof.
  intros HQ. apply fwp_intro. intros [Hc _]. wpb. eapply wp_acquire; [exact Hc|set_solver|]. intros c1 H1. wpb. apply wp_modify.
  eapply wp_release; [exact H1|done|]. intros c2 H2. eexists c2, (k_ptab s), _. split_and!; [done|done| |exact HQ]. by destruct s.
Qed.

Lemma synced_back f x : still f0 f -> synced f x -> synced f0 x.
Proof. intros [_ K C _]. unfold synced. by rewrite C, (kp_sb _ _ K). Qed.

(** What the cache has of an entry in use. *)
Lemma in_use held lk f i : walking held lk f -> (i < NINODE)%nat -> 0 < i_ref (fs_inode f i) ->
  i_dev (fs_inode f i) = 1 /\ inum_ok f0 (fs_inode f i) /\ (i_valid (fs_inode f i) = true -> synced f0 (fs_inode f i)).
Proof.
  intros W Hi Hr. destruct (ic_dev _ _ _ (wk_cache _ _ _ W) i Hi Hr) as [D1 D2]. unfold inum_ok in *. rewrite (kp_sb _ _ (sl_kept _ _ _ _ (wk_still _ _ _ W))) in D2.
  split; [done|]. split; [done|]. intros Hv. apply (synced_back f); [apply W|]. by apply (wk_cache _ _ _ W).
Qed.

(** One more reference to an entry in use. *)
Lemma fits_more held lk f ip n : walking held lk f -> (ip < NINODE)%nat -> 0 < i_ref (fs_inode f ip) -> i_inum (fs_inode f ip) = n -> T n ->
  fits held lk f ip (inode_ref (i_ref (fs_inode f ip) + 1) (fs_inode f ip)) ((ip, n) :: held) lk.
Proof.
  intros W Hip Hr En Hn. pose proof (in_use _ _ _ _ W Hip Hr) as HD. split; simpl.
  - rewrite bool_decide_true by done. rewrite (wk_refs _ _ _ W). lia.
  - intros j Hj. by rewrite bool_decide_false by done.
  - intros _. split; [apply HD|]. split; [apply HD|]. intros Hv. destruct (proj2 (proj2 HD) Hv). by split.
  - intros _ j Hj Hne Hrj E. apply Hne. by apply (ic_one _ _ _ (wk_cache _ _ _ W)).
  - by apply (ic_lock _ _ _ (wk_cache _ _ _ W)).
  - done.
  - by apply (wk_ids _ _ _ W).
  - intros i m Hm. apply elem_of_cons in Hm as [[= -> ->]|Hm]; [by rewrite bool_decide_true|].
    destruct (wk_held _ _ _ W _ _ Hm) as (A & B & C). case_bool_decide; [by subst i|done].
Qed.

(** The entry [iget] takes. *)
Lemma fits_iget held lk f ip n : walking held lk f -> (forall i, lk = Some i -> exists m, (i, m) ∈ held) ->
  iget_slot (fs_inode f) n = Some ip -> T n ->
  (ip < NINODE)%nat /\ fits held lk f ip (iget_put n (fs_inode f ip)) ((ip, n) :: held) lk.
Proof.
  intros W Hlk Hs Hn. unfold iget_slot, iget_put in *. destruct (find_idx (fun i => iget_hit n (fs_inode f i)) NINODE) as [j|] eqn:Eh.
  { injection Hs as ->. apply find_idx_Some in Eh as (Hlt & Eh & _). rewrite Eh. unfold iget_hit in Eh.
    apply andb_true_iff in Eh as [[Er _]%andb_true_iff En]. apply Z.eqb_eq in En. apply Z.ltb_lt in Er. split; [done|]. by apply fits_more. }
  pose proof (proj1 (find_idx_None _ _) Eh) as Hno. apply find_idx_Some in Hs as (Hlt & Hz & _). apply Z.eqb_eq in Hz. rewrite (Hno ip Hlt).
  split; [done|]. pose proof (wk_refs _ _ _ W ip) as Hr. rewrite Hz in Hr. pose proof (times_pos ip held). pose proof (Hbase ip Hlt).
  assert (Hl : bool_decide (lk = Some ip) = false).
  { apply bool_decide_false. intros E. destruct (Hlk ip E) as [m Hm]. pose proof (held_ref _ _ _ _ _ W Hm). lia. }
  split; simpl.
  - rewrite bool_decide_true by done. lia.
  - intros j Hj. by rewrite bool_decide_false by done.
  - intros _. split; [done|]. split; [by apply (to_range _ _ HT)|done].
  - intros _ j Hj Hne Hrj E. specialize (Hno j Hj). destruct (ic_dev _ _ _ (wk_cache _ _ _ W) j Hj Hrj) as [D _]. unfold iget_hit in Hno.
    rewrite D, E, !Z.eqb_refl, (proj2 (Z.ltb_lt 0 _) Hrj) in Hno. done.
  - rewrite Hl. pose proof (ic_lock _ _ _ (wk_cache _ _ _ W) ip Hlt) as HL. by rewrite Hl in HL.
  - done.
  - lia.
  - intros i m Hm. apply elem_of_cons in Hm as [[= -> ->]|Hm]; [by rewrite bool_decide_true|].
    destruct (wk_held _ _ _ W _ _ Hm) as (A & B & C). pose proof (held_ref _ _ _ _ _ W Hm). clear Hl. case_bool_decide; [subst i; lia|done].
Qed.

(** One reference less. *)
Lemma fits_less held f ip n y : walking ((ip, n) :: held) None f ->
  i_ref y = i_ref (fs_inode f ip) - 1 -> i_dev y = i_dev (fs_inode f ip) -> i_inum y = i_inum (fs_inode f ip) -> (i_valid y = true -> synced f0 y) ->
  sl_locked (i_lock y) = false -> fits ((ip, n) :: held) None f ip y held None.
Proof.
  intros W Er Ed En Hs Hl. destruct (wk_held _ _ _ W ip n ltac:(by apply list_elem_of_here)) as (Hi & Ei & Hn).
  pose proof (held_ref _ _ _ ip n W ltac:(by apply list_elem_of_here)) as Hr. destruct (in_use _ _ _ ip W Hi ltac:(lia)) as (D1 & D2 & _). split.
  - rewrite Er, (wk_refs _ _ _ W). simpl. rewrite bool_decide_true by done. lia.
  - intros j Hj. simpl. by rewrite bool_decide_false by done.
  - intros _. unfold inum_ok in *. rewrite Ed, En. split; [done|]. by split.
  - intros _ j Hj Hne Hrj E. apply Hne. apply (ic_one _ _ _ (wk_cache _ _ _ W)); [done|done|done|lia|by rewrite E].
  - by rewrite bool_decide_false.
  - done.
  - intros H. rewrite En. by apply (wk_ids _ _ _ W).
  - intros i m Hm. destruct (wk_held _ _ _ W i m ltac:(by apply list_elem_of_further)) as (A & B & C). case_bool_decide; [subst i; by rewrite En|done].
Qed.

(** ** The operations of a walk *)

Lemma walk_iunlock held ip n s (Q : unit -> fsst -> Prop) : walking held (Some ip) (k_fs s) -> (ip, n) ∈ held ->
  (forall f, walking held None f -> Q tt f) -> fwp (iunlock ip) s Q.
Proof.
  intros W Hin HQ. destruct (wk_held _ _ _ W _ _ Hin) as (Hi & En & Hn). pose proof (held_ref _ _ _ _ _ W Hin) as Hr.
  pose proof (ic_lock _ _ _ (wk_cache _ _ _ W) ip Hi) as HL. rewrite bool_decide_true in HL by done. destruct HL as [HL Hv].
  apply fwp_iunlock; [done|done|]. apply HQ. eapply (walk_step _ _ _ ip (inode_lock (mkSl false 0) (fs_inode (k_fs s) ip))); [exact W| |done|apply still_with, still_here, W|apply insert_at].
  apply (fits_held _ _ _ _ n); try done; [|intros j Hj; split; [done|by intros [= <-]]].
  intros _. apply synced_lock. by apply (in_use _ _ _ _ W Hi ltac:(lia)).
Qed.

(** The inode is in the cache: only the lock is taken. *)
Lemma walk_ilock_valid held ip n s (Q : unit -> fsst -> Prop) : walking held None (k_fs s) -> (ip, n) ∈ held -> i_valid (inode_at s ip) = true ->
  (forall f, walking held (Some ip) f -> Q tt f) -> fwp (ilock ip) s Q.
Proof.
  intros W Hin Hv HQ. destruct (wk_held _ _ _ W _ _ Hin) as (Hi & En & Hn). pose proof (held_ref _ _ _ _ _ W Hin) as Hr.
  pose proof (ic_lock _ _ _ (wk_cache _ _ _ W) ip Hi) as HL. simpl in HL.
  apply fwp_ilock; [by split|]. apply HQ. eapply (walk_step _ _ _ ip (inode_lock (mkSl true pid) (fs_inode (k_fs s) ip))); [exact W| |done|apply still_with, still_here, W|apply insert_at].
  apply (fits_held _ _ _ _ n); try done; [| |intros j Hj; split; [by intros [= <-]|done]].
  - intros _. apply synced_lock. by apply (in_use _ _ _ _ W Hi ltac:(lia)).
  - by rewrite bool_decide_true.
Qed.

Lemma get_dinode_is m a x : dinode_is m a (inode_valid true (get_dinode m a x)).
Proof. split; try done. intros i Hi. simpl. by rewrite (proj2 (Z.leb_le 0 i)), (proj2 (Z.leb_le i NDIRECT)) by lia. Qed.

(** It is not: the fields are read from the disk. *)
Lemma walk_ilock_read held ip n s (Q : unit -> fsst -> Prop) : walking held None (k_fs s) -> (ip, n) ∈ held -> i_valid (inode_at s ip) = false ->
  (forall f, walking held (Some ip) f -> Q tt f) -> fwp (ilock ip) s Q.
Proof.
  intros W Hin Hv HQ. destruct (wk_held _ _ _ W _ _ Hin) as (Hi & En & Hn). pose proof (held_ref _ _ _ _ _ W Hin) as Hr.
  pose proof (ic_lock _ _ _ (wk_cache _ _ _ W) ip Hi) as HL. simpl in HL. destruct (in_use _ _ _ _ W Hi ltac:(lia)) as (D1 & D2 & _).
  set (x := inode_at s ip) in *. change (fs_inode (k_fs s) ip) with x in *. unfold ilock. apply fwp_gets_bind. fold x. rewrite (proj2 (Z.ltb_ge _ 1)) by done.
  apply fwp_bind. apply fwp_lock; [done|]. intros s1 E1 _. apply fwp_gets_bind.
  assert (X1 : inode_at s1 ip = inode_lock (mkSl true pid) x) by (unfold inode_at; rewrite E1; simpl; by rewrite fn_insert_eq). rewrite X1. simpl i_valid. rewrite Hv. cbn [negb when].
  apply fwp_gets_bind. cbn [inode_lock i_dev i_inum]. rewrite D1, E1. cbn [fs_sb with_lock with_inode]. set (b := IBLOCK (i_inum x) (fs_sb (k_fs s))).
  pose proof (wk_still _ _ _ W) as [T0 K0 C0 Y0]. assert (Hb : b < d_size (fs_disk (k_fs s))).
  { pose proof (la_geom _ Hla) as G. pose proof (iblock_range f0 x G D2). pose proof (bmap_before_data _ G). pose proof (ge_bmap _ G). pose proof (ge_size _ G).
    unfold b. rewrite (kp_disk _ _ K0), (kp_sb _ _ K0). lia. }
  set (f1 := k_fs s1) in *. assert (T1 : tx pid f1 [] k) by (rewrite E1; by apply tx_inode).
  apply (fwp_read_bind cur pid b [] k); [done|apply not_elem_of_nil|simpl; lia|fold f1; by rewrite E1|].
  intros i s2 T2 B2 _ M2 C2 Y2. apply (fwp_bytes_bind cur pid i b [b] k); [done|done|].
  apply fwp_upd_inode_bind. intros s3 E3. apply (fwp_release_bind cur pid i b [] k); [rewrite E3; by apply tx_inode|rewrite E3; by destruct B2 as [[] ?]|].
  intros s4 T4 _ M4 C4 Y4. apply fwp_upd_inode_bind. intros s5 E5. apply fwp_gets_bind.
  set (y := inode_valid true (get_dinode (content f0 b) (dip (i_inum x)) (inode_lock (mkSl true pid) x))).
  assert (Cb : forall c, content (k_fs s2) c = content (k_fs s) c) by (intros c; rewrite C2; fold f1; by rewrite E1).
  assert (Ei : forall j, fs_inode (k_fs s5) j = if bool_decide (j = ip) then y else fs_inode (k_fs s) j).
  { intros j. rewrite E5. cbn [fs_inode with_inode]. rewrite insert_at. unfold inode_at. rewrite (mv_inode _ _ M4), E3. cbn [fs_inode with_inode]. rewrite !insert_at.
    rewrite (bool_decide_true (ip = ip)) by done. unfold inode_at. rewrite (mv_inode _ _ M2). fold f1. rewrite E1. cbn [fs_inode with_inode with_lock]. rewrite !insert_at.
    rewrite (bool_decide_true (ip = ip)) by done. unfold y. rewrite <- C0, <- Cb. by destruct (bool_decide (j = ip)). }
  assert (St : still (k_fs s) (k_fs s5)).
  { rewrite E5. apply still_with. split; [done| | |].
    - assert (K : kept (k_fs s) f1) by (rewrite E1; by split). etransitivity; [exact K|]. etransitivity; [apply (moved_kept_id _ _ M2)|].
      etransitivity; [|apply (moved_kept_id _ _ M4)]. rewrite E3. by split.
    - intros c. rewrite C4, E3. apply Cb.
    - intros c. rewrite Y4, E3. change (dirty_block (k_fs s2) c = dirty_block (k_fs s) c). rewrite Y2. fold f1. by rewrite E1. }
  assert (Ey : inode_at s5 ip = y) by (unfold inode_at; by rewrite Ei, bool_decide_true). rewrite Ey. assert (Eb : b = IBLOCK (i_inum x) (fs_sb f0)) by (unfold b; by rewrite (kp_sb _ _ K0)).
  assert (Ety : i_type y <> 0). { pose proof (to_type _ _ HT n Hn) as Hty. unfold dnode in Hty. rewrite <- En, <- Eb in Hty. exact Hty. }
  rewrite (proj2 (Z.eqb_neq _ 0) Ety). apply fwp_ret. apply HQ. eapply (walk_step _ _ _ ip y); [exact W| |done|exact St|exact Ei].
  apply (fits_held _ _ _ _ n); try done; [| |intros j Hj; split; [by intros [= <-]|done]].
  - intros _. unfold synced. simpl. rewrite <- Eb. by apply get_dinode_is.
  - by rewrite bool_decide_true.
Qed.

Lemma walk_ilock held ip n s (Q : unit -> fsst -> Prop) : walking held None (k_fs s) -> (ip, n) ∈ held ->
  (forall f, walking held (Some ip) f -> Q tt f) -> fwp (ilock ip) s Q.
Proof. intros W Hin HQ. destruct (i_valid (inode_at s ip)) eqn:Hv; [by eapply walk_ilock_valid|by eapply walk_ilock_read]. Qed.

(** The file keeps its name: [iput] only gives the reference back. *)
Lemma walk_iput held ip n s (Q : unit -> fsst -> Prop) : walking ((ip, n) :: held) None (k_fs s) ->
  (forall f, walking held None f -> Q tt f) -> fwp (iput ip) s Q.
Proof.
  intros W HQ. assert (Hin : (ip, n) ∈ (ip, n) :: held) by apply list_elem_of_here. destruct (wk_held _ _ _ W _ _ Hin) as (Hi & En & Hn).
  pose proof (held_ref _ _ _ _ _ W Hin) as Hr. pose proof (ic_lock _ _ _ (wk_cache _ _ _ W) ip Hi) as HL. simpl in HL. destruct (in_use _ _ _ _ W Hi ltac:(lia)) as (D1 & D2 & D3).
  set (x := inode_at s ip) in *. change (fs_inode (k_fs s) ip) with x in *. unfold iput. apply fwp_bind. apply fwp_lock; [done|]. intros s1 E1 _. apply fwp_gets_bind.
  assert (X1 : inode_at s1 ip = inode_lock (mkSl true pid) x) by (unfold inode_at; rewrite E1; simpl; by rewrite fn_insert_eq). rewrite X1. cbn [inode_lock i_valid i_nlink].
  assert (Hb : i_valid x && (i_nlink x =? 0) = false).
  { destruct (i_valid x) eqn:Ev; [|done]. simpl. apply Z.eqb_neq. rewrite (sn_nlink _ _ (synced_dnode _ _ D1 (D3 eq_refl))). rewrite En. by apply (to_links _ _ HT). }
  rewrite Hb. cbn [when]. apply fwp_bind, fwp_ret. intros s2 E2 _. apply fwp_bind. apply fwp_unlock. intros s3 E3 _. apply fwp_icache. apply HQ.
  eapply (walk_step _ _ _ ip (inode_ref (i_ref x - 1) (inode_lock (mkSl false 0) x))); [exact W| |done| |].
  - apply fits_less; try done. intros Hv. destruct (D3 Hv). by split.
  - apply still_with. rewrite E3, E2, E1. by do 2 apply still_with; apply still_here, W.
  - intros j. unfold inode_at. rewrite E3, E2, E1. cbn [fs_inode with_inode with_lock]. rewrite !insert_at. rewrite (bool_decide_true (ip = ip)) by done. by case_bool_decide.
Qed.

Lemma walk_iunlockput held ip n s (Q : unit -> fsst -> Prop) : walking ((ip, n) :: held) (Some ip) (k_fs s) ->
  (forall f, walking held None f -> Q tt f) -> fwp (iunlockput ip) s Q.
Proof.
  intros W HQ. unfold iunlockput. apply fwp_bind. eapply walk_iunlock; [exact W|apply list_elem_of_here|]. intros f W1 s1 <- _. by eapply walk_iput.
Qed.

Lemma walking_swap a b held lk f : walking (a :: b :: held) lk f -> walking (b :: a :: held) lk f.
Proof.
  intros [W1 W2 W3 W4 W5]. split; [done|done| |done|].
  - intros j. rewrite W3. destruct a, b. simpl. lia.
  - intros i n Hin. apply W5. set_solver.
Qed.

(** The locked inode, as the disk has it. *)
Lemma locked_node held ip n f : walking held (Some ip) f -> (ip, n) ∈ held -> same_node (fs_inode f ip) (dnode f0 n).
Proof.
  intros W Hin. destruct (wk_held _ _ _ W _ _ Hin) as (Hi & <- & Hn). pose proof (held_ref _ _ _ _ _ W Hin) as Hr.
  destruct (in_use _ _ _ _ W Hi ltac:(lia)) as (D1 & D2 & D3). apply synced_dnode; [done|]. apply D3.
  pose proof (ic_lock _ _ _ (wk_cache _ _ _ W) ip Hi) as HL. rewrite bool_decide_true in HL by done. apply HL.
Qed.

Lemma locked_dir held ip n f : walking held (Some ip) f -> (ip, n) ∈ held -> i_type (dnode f0 n) = T_DIR ->
  layout f /\ dir_ok f (fs_inode f ip) /\ entries f (fs_inode f ip) = entries f0 (dnode f0 n).
Proof.
  intros W Hin Ht. destruct (wk_held _ _ _ W _ _ Hin) as (_ & _ & Hn). destruct (still_tree _ _ _ _ T (wk_still _ _ _ W) Hla HT) as (L1 & L2 & L3).
  split; [done|]. rewrite <- (L3 n Hn Ht). apply node_dir; [by eapply locked_node|]. rewrite <- (still_dnode _ _ _ _ _ (wk_still _ _ _ W)).
  apply L2; [done|]. by rewrite (still_dnode _ _ _ _ _ (wk_still _ _ _ W)).
Qed.

(** A read under the lock leaves the walk where it was. *)
Lemma walk_unchanged held ip n f f' : walking held (Some ip) f -> (ip, n) ∈ held -> unchanged pid k f f' -> walking held (Some ip) f'.
Proof.
  intros W Hin (U1 & U2 & U3 & U4). destruct (wk_held _ _ _ W _ _ Hin) as (Hi & _).
  assert (Hf : fits held (Some ip) f ip (fs_inode f ip) held (Some ip)).
  { apply (fits_held _ _ _ _ n); try done; [pose proof (held_ref _ _ _ _ _ W Hin); apply (in_use _ _ _ _ W Hi); lia|].
    by apply (ic_lock _ _ _ (wk_cache _ _ _ W)). }
  eapply walk_step; [exact W|exact Hf|done|split; [done|by apply moved_kept_id|done|done]|]. intros j. rewrite (mv_inode _ _ U2). case_bool_decide; by subst.
Qed.

Lemma walk_dirlookup dv ip n name s (Q : option (nat * Z) -> fsst -> Prop) : walking [(ip, n)] (Some ip) (k_fs s) -> i_type (dnode f0 n) = T_DIR -> name_ok name ->
  (exists e, (e < NINODE)%nat /\ i_ref (inode_at s e) = 0) ->
  (forall r f, match lookup_name f0 n name with
    | None => r = None /\ walking [(ip, n)] (Some ip) f
    | Some m => exists ip' o, r = Some (ip', o) /\ T m /\ walking [(ip', m); (ip, n)] (Some ip) f
    end -> Q r f) -> fwp (dirlookup dv ip name) s Q.
Proof.
  intros W Ht Hnm Hfree HQ. assert (Hin : (ip, n) ∈ [(ip, n)]) by apply list_elem_of_here. destruct (locked_dir _ _ _ _ W Hin Ht) as (L1 & L2 & L3).
  destruct (wk_held _ _ _ W _ _ Hin) as (Hi & _ & Hn). apply (fwp_dirlookup cur pid dv ip name k); [done|done|apply W|done|done|]. intros r f Hl. apply HQ.
  unfold looked_up, lookup_name in *. change (inode_at s ip) with (fs_inode (k_fs s) ip) in Hl. rewrite L3 in Hl.
  assert (Hun : forall f1, unchanged pid k (k_fs s) f1 -> still (k_fs s) f1).
  { intros f1 (U1 & U2 & U3 & U4). split; [done|by apply moved_kept_id|done|done]. }
  destruct (list_find (named name) (entries f0 (dnode f0 n))) as [[i e]|] eqn:El.
  - destruct Hl as (ip' & f1 & -> & U & Hs & ->). apply list_find_Some in El as (Hl & [Hne _] & _).
    assert (Hm : T e.1) by (apply (to_next _ _ HT n); [done|done|by eapply list_elem_of_lookup_2|done]).
    exists ip', (DIRENT * Z.of_nat i). split; [done|]. split; [done|].
    destruct (fits_iget _ _ _ ip' e.1 W) as [Hip' HF]; [by intros j [= <-]; exists n|done|done|].
    eapply (walk_step _ _ _ ip'); [exact W|exact HF|done|apply still_with, (Hun _ U)|apply insert_at].
  - destruct Hl as [-> U]. split; [done|]. by eapply walk_unchanged.
Qed.

(** ** The walk *)

Context (Hfree : exists a b, a <> b /\ (a < NINODE)%nat /\ (b < NINODE)%nat /\ i_ref (fs_inode f0 a) = 0 /\ i_ref (fs_inode f0 b) = 0).

Lemma one_free ip n lk f : walking [(ip, n)] lk f -> exists e, (e < NINODE)%nat /\ i_ref (fs_inode f e) = 0.
Proof.
  intros W. destruct Hfree as (a & b & Hab & Ha & Hb & Za & Zb). destruct (decide (ip = a)) as [->|Hne]; [exists b|exists a]; (split; [done|]).
  - rewrite (wk_refs _ _ _ W), Zb. simpl. by rewrite bool_decide_false.
  - rewrite (wk_refs _ _ _ W), Za. simpl. by rewrite bool_decide_false.
Qed.

(** What a walk returns: the inode and the last name, with one reference; or nothing, and no reference. *)
Definition arrives (w : option (Z * list Z)) (r : option (nat * list Z)) (f : fsst) : Prop :=
  match w with
  | Some (m, nm) => exists ip, r = Some (ip, nm) /\ walking [(ip, m)] None f
  | None => r = None /\ walking [] None f
  end.

Lemma walk_namex_loop dv parent fuel : forall ip n path name s,
  (length path < fuel)%nat -> name_ok path -> walking [(ip, n)] None (k_fs s) ->
  fwp (namex_loop fuel dv ip path name parent) s (arrives (resolve f0 n (elems path) name parent)).
Proof.
  induction fuel as [|fuel IH]; intros ip n path name s Hf Hnm W; [lia|]. cbn [namex_loop].
  pose proof (skipelem_elems path) as Hsk. destruct (elems path) as [|e es].
  { rewrite Hsk. cbn [resolve]. destruct parent.
    - apply fwp_bind. eapply walk_iput; [exact W|]. intros f W1 s1 <- _. by apply fwp_ret.
    - apply fwp_ret. by exists ip. }
  destruct Hsk as (rest & -> & Hes & Hlen & Hnil & Hok). assert (Hin : (ip, n) ∈ [(ip, n)]) by apply list_elem_of_here.
  apply fwp_bind. eapply walk_ilock; [exact W|done|]. intros f1 W1 s1 <- _. apply fwp_gets_bind. change (inode_at s1 ip) with (fs_inode (k_fs s1) ip).
  rewrite (sn_type _ _ (locked_node _ _ _ _ W1 Hin)). cbn [resolve].
  destruct (Z.eqb_spec (i_type (dnode f0 n)) T_DIR) as [Ed|Ed]; cbn [negb].
  2:{ apply fwp_bind. eapply walk_iunlockput; [exact W1|]. intros f2 W2 s2 <- _. by apply fwp_ret. }
  rewrite (bool_decide_ext (rest = []) (es = [])) by done. destruct (parent && bool_decide (es = [])).
  { apply fwp_bind. eapply walk_iunlock; [exact W1|done|]. intros f2 W2 s2 <- _. apply fwp_ret. by exists ip. }
  apply fwp_bind. eapply walk_dirlookup; [exact W1|done|by apply Hok|by eapply one_free|]. intros r f2 Hr s2 <- _.
  destruct (lookup_name f0 n (cut e)) as [m|].
  - destruct Hr as (ip' & o & -> & Hm & W2). apply fwp_bind. eapply walk_iunlockput; [by apply walking_swap|]. intros f3 W3 s3 <- _.
    rewrite <- Hes. apply IH; [lia|by apply Hok|done].
  - destruct Hr as [-> W2]. apply fwp_bind. eapply walk_iunlockput; [exact W2|]. intros f3 W3 s3 <- _. by apply fwp_ret.
Qed.

Lemma walk_begin : tx pid f0 [] k -> icache_ok pid None f0 -> walking [] None f0.
Proof.
  intros Ht Hc. split; [by apply still_here|done| |done|].
  - intros j. simpl. lia.
  - intros i n Hin. by apply not_elem_of_nil in Hin.
Qed.

Lemma walk_iget n s (Q : nat -> fsst -> Prop) : walking [] None (k_fs s) -> T n ->
  (forall ip f, walking [(ip, n)] None f -> Q ip f) -> fwp (iget 1 n) s Q.
Proof.
  intros W Hn HQ. destruct Hfree as (a & _ & _ & Ha & _ & Za & _). apply fwp_iget.
  - exists a. split; [done|]. change (i_ref (fs_inode (k_fs s) a) = 0). rewrite (wk_refs _ _ _ W), Za. done.
  - intros ip Hs. apply HQ. destruct (fits_iget _ _ _ ip n W) as [Hip HF]; [done|done|done|].
    eapply (walk_step _ _ _ ip); [exact W|exact HF|done|apply still_with, still_here, W|apply insert_at].
Qed.

Lemma walk_idup ip s (Q : nat -> fsst -> Prop) : walking [] None (k_fs s) -> (ip < NINODE)%nat -> 0 < i_ref (inode_at s ip) -> T (i_inum (inode_at s ip)) ->
  (forall f, walking [(ip, i_inum (inode_at s ip))] None f -> Q ip f) -> fwp (idup ip) s Q.
Proof.
  intros W Hip Hr Hn HQ. apply fwp_intro. intros [Hc _]. unfold idup. wpb. eapply wp_acquire; [exact Hc|set_solver|]. intros c1 H1. wpb. apply wp_modify.
  wpb. eapply wp_release; [exact H1|done|]. intros c2 H2. apply wp_ret.
  eexists c2, (k_ptab s), (with_inode (<[ip := inode_ref (i_ref (inode_at s ip) + 1) (inode_at s ip)]> (fs_inode (k_fs s))) (k_fs s)).
  split; [done|]. split; [done|]. split; [by destruct s|]. apply HQ.
  eapply (walk_step _ _ _ ip); [exact W|by apply fits_more|done|apply still_with, still_here, W|apply insert_at].
Qed.
End walk.

(** Where a path begins: the root directory, or the current directory of the process. *)
Definition begins (s : kstate) (cur : nat) (path : list Z) (n : Z) : Prop :=
  if bool_decide (path !! 0%nat = Some slash) then n = ROOTINO
  else exists cwd, p_cwd (proc_at s cur) = Some cwd /\ (cwd < NINODE)%nat /\ 0 < i_ref (inode_at s cwd) /\ i_inum (inode_at s cwd) = n.

Lemma fwp_curproc_bind {A} cur pid (g : nat * proc -> K A) s (Q : A -> fsst -> Prop) :
  (forall s1, k_fs s1 = k_fs s -> fwp cur pid (g (cur, proc_at s cur)) s1 Q) -> fwp cur pid (curproc ≫= g) s Q.
Proof.
  intros H. apply fwp_bind. apply fwp_intro. intros [Hc _]. eapply wp_curproc; [exact Hc|]. intros c1 H1.
  eexists c1, (k_ptab s), (k_fs s). split; [done|]. split; [done|]. split; [by destruct s|]. intros s1 E1 _. by apply H.
Qed.

Lemma namex_walks cur pid dv path parent k T n s :
  layout (k_fs s) -> tx pid (k_fs s) [] k -> tree_ok (k_fs s) T -> icache_ok pid None (k_fs s) ->
  (exists a b, a <> b /\ (a < NINODE)%nat /\ (b < NINODE)%nat /\ i_ref (fs_inode (k_fs s) a) = 0 /\ i_ref (fs_inode (k_fs s) b) = 0) ->
  name_ok path -> begins s cur path n -> T n ->
  fwp cur pid (namex dv path parent) s (arrives pid k (k_fs s) T (resolve (k_fs s) n (elems path) [] parent)).
Proof.
  intros Hla Ht HT Hc Hfree Hnm Hb Hn. set (f0 := k_fs s) in *. pose proof (ic_ref _ _ _ Hc) as Hbase.
  pose proof (walk_begin pid k f0 T Ht Hc) as W. unfold namex, begins in *. apply fwp_bind.
  assert (Hloop : forall ip f1, walking pid k f0 T [(ip, n)] None f1 -> forall s1, k_fs s1 = f1 -> frame s s1 ->
    fwp cur pid (namex_loop (S (length path)) dv ip path [] parent) s1 (arrives pid k f0 T (resolve f0 n (elems path) [] parent))).
  { intros ip f1 W1 s1 <- _. apply walk_namex_loop; try done. lia. }
  destruct (bool_decide (path !! 0%nat = Some slash)).
  - subst n. by apply (walk_iget cur pid k f0 T HT Hbase Hfree ROOTINO).
  - destruct Hb as (cwd & Ecwd & Hcwd & Hr & <-). apply fwp_curproc_bind. intros s1 E1. cbv beta iota. rewrite Ecwd.
    assert (Ei : inode_at s1 cwd = inode_at s cwd) by (unfold inode_at; by rewrite E1). rewrite <- Ei in *.
    eapply (walk_idup cur pid k f0 T); try done; [by rewrite E1|]. intros f1 W1 s2 <- F. by apply (Hloop cwd (k_fs s2)).
Qed.

(** C8: Path resolution.  In a sound file system, with two free entries in the inode
    cache and the elements of the path leading through a closed tree of files in use,
    [namex] returns exactly what the directories on the disk say: the inode the path
    names (or, for [nameiparent], the directory of its last element, and that element
    cut to 14 bytes), or NULL where an element is missing or is looked up in a file that
    is not a directory.  It terminates; every inode it passes is unlocked and given back,
    so that the one returned has exactly one more reference and nothing else has; no
    entry in use changes its inode, and no block changes. *)
Theorem namex_resolves cur pid dv path parent k T n s
  (Hr : fs_ready cur pid s) (Hla : layout (k_fs s)) (Ht : tx pid (k_fs s) [] k) (HT : tree_ok (k_fs s) T)
  (Hc : icache_ok pid None (k_fs s))
  (Hfree : exists a b, a <> b /\ (a < NINODE)%nat /\ (b < NINODE)%nat /\ i_ref (inode_at s a) = 0 /\ i_ref (inode_at s b) = 0)
  (Hnm : name_ok path) (Hb : begins s cur path n) (Hn : T n) :
  wp (namex dv path parent) s (fun r s' =>
    match resolve (k_fs s) n (elems path) [] parent with
    | Some (m, name) => exists ip, r = Some (ip, name) /\ (ip < NINODE)%nat /\ i_inum (inode_at s' ip) = m /\
        i_ref (inode_at s' ip) = i_ref (inode_at s ip) + 1 /\ (forall j, j <> ip -> i_ref (inode_at s' j) = i_ref (inode_at s j))
    | None => r = None /\ (forall j, i_ref (inode_at s' j) = i_ref (inode_at s j))
    end /\
    (forall j, 0 < i_ref (inode_at s j) -> i_inum (inode_at s' j) = i_inum (inode_at s j)) /\
    icache_ok pid None (k_fs s') /\ (forall b, content (k_fs s') b = content (k_fs s) b) /\
    tx pid (k_fs s') [] k /\ frame s s' /\ fs_ready cur pid s').
Proof.
  assert (Hw : fwp cur pid (namex dv path parent) s (arrives pid k (k_fs s) T (resolve (k_fs s) n (elems path) [] parent))) by (by apply namex_walks).
  eapply wp_mono; [|by apply Hw]. intros r s' (F & R & Ha). unfold arrives in Ha.
  destruct (resolve (k_fs s) n (elems path) [] parent) as [[m name]|].
  - destruct Ha as (ip & -> & [W1 W2 W3 W4 W5]). destruct (W5 ip m ltac:(apply list_elem_of_here)) as (Hip & Em & _).
    split; [|by split_and!; [..|apply W1|apply W1| |]]. exists ip. split_and!; [done|done|done| |].
    + unfold inode_at. rewrite W3. simpl. by rewrite bool_decide_true.
    + intros j Hj. unfold inode_at. rewrite W3. simpl. rewrite bool_decide_false by done. lia.
  - destruct Ha as (-> & [W1 W2 W3 W4 W5]). split; [|by split_and!; [..|apply W1|apply W1| |]]. split; [done|].
    intros j. unfold inode_at. rewrite W3. simpl. lia.
Qed.

(** The small disk, with an empty inode cache: "/hi" is the inode 2. *)
Module SmallPath.
Definition fs : fsst := with_inode (fun _ => zero_inode) Small.fs.
Definition st : kstate := set_fs fs Small.st.
Definition T (n : Z) : Prop := n = 1 \/ n = 2.

Lemma same_st : still 7 10 Small.fs fs.
Proof. apply still_with, still_here, Small.running. Qed.

Lemma root_is : same_node (dnode Small.fs 1) Small.root.
Proof. destruct (synced_dnode Small.fs Small.root eq_refl SmallDir.synced_root) as [A B C D E]. split; try done. intros i Hi. by rewrite E. Qed.

Lemma small_tree : tree_ok Small.fs T.
Proof.
  assert (H2 : i_type (dnode Small.fs 2) = T_FILE) by (vm_compute; reflexivity).
  destruct (node_dir _ _ _ root_is SmallDir.is_dir) as [Hd He]. split.
  - intros n [-> | ->]; by split.
  - intros n [-> | ->]; vm_compute; discriminate.
  - intros n [-> | ->]; vm_compute; discriminate.
  - intros n [-> | ->]; [intros _; exact Hd|rewrite H2; discriminate].
  - intros n e [-> | ->] Ht; [|by rewrite H2 in Ht]. rewrite He, SmallDir.the_entries. intros Hin _. unfold T.
    apply elem_of_cons in Hin as [-> | Hin]; [by left|]. apply elem_of_cons in Hin as [-> | Hin]; [by right|]. by apply not_elem_of_nil in Hin.
Qed.

Lemma laid : layout fs.
Proof. apply (still_tree _ _ _ _ T same_st SmallFile.laid_out small_tree). Qed.

Lemma tree : tree_ok fs T.
Proof. apply (still_tree _ _ _ _ T same_st SmallFile.laid_out small_tree). Qed.

Lemma cache : icache_ok 7 None fs.
Proof. by split. Qed.

Lemma resolved : resolve fs 1 (elems [47; 104; 105]) [] false = Some (2, [104; 105]).
Proof. vm_compute. reflexivity. Qed.
End SmallPath.

Lemma namex_resolves_witness : wp (namex no_devices [47; 104; 105] false) SmallPath.st (fun r s' =>
  exists ip, r = Some (ip, [104; 105]) /\ i_inum (inode_at s' ip) = 2 /\ i_ref (inode_at s' ip) = 1).
Proof.
  refine (wp_mono _ _ _ _ _ (namex_resolves 0 7 no_devices [47; 104; 105] false 10 SmallPath.T 1 SmallPath.st _ SmallPath.laid
    (sl_tx _ _ _ _ SmallPath.same_st) SmallPath.tree SmallPath.cache _ (SmallDir.names [47; 104; 105] eq_refl) eq_refl _)).
  - intros r s' [H _]. change (k_fs SmallPath.st) with SmallPath.fs in H. rewrite SmallPath.resolved in H.
    destruct H as (ip & -> & _ & E & R & _). exists ip. split; [reflexivity|]. split; [exact E|exact R].
  - destruct Small.ready. split; assumption.
  - exists 0%nat, 1%nat. split; [discriminate|]. split; [apply Nat.ltb_lt; reflexivity|]. split; [apply Nat.ltb_lt; reflexivity|]. split; reflexivity.
  - left. reflexivity.
Defined.
