(* ===== verification/Mkfs.v ===== *)
(** * mkfs.c: the program that builds the disk image

    The state is the image file, as its sectors and their number, and the
    globals of mkfs.c; [exit(1)] and a failed assertion are the outcome [Panic].
    The host is a parameter: the files it opens, as the pieces the reads return,
    and the sectors it can read and write.  Integers of the host are little endian.

    Shown: the image is a file system the kernel finds sound, in which the root
    directory has each file under its name, with its bytes. *)

From S2P Require Import Prelude CString KState Spinlock Proc Sleeplock Bio Log LogCrash Tx Fs Blocks Inode Content Dir Oper Path.

Definition NINODES : Z := 200.
Definition FSSIZE : Z := 1000.

Definition nbitmap : Z := FSSIZE / (BSIZE * 8) + 1.
Definition ninodeblocks : Z := NINODES / IPB + 1.
Definition nlog : Z := LOGSIZE.

Definition xshort (x : Z) : Z :=
  load16 (upd (upd (fun _ => 0) 0 (byte8 x)) 1 (byte8 (Z.shiftr x 8))) 0.
Definition xint (x : Z) : Z :=
  load32 (upd (upd (upd (upd (fun _ => 0) 0 (byte8 x)) 1 (byte8 (Z.shiftr x 8))) 2 (byte8 (Z.shiftr x 16))) 3 (byte8 (Z.shiftr x 24))) 0.

Record mk : Type := mkMk {
  mk_img : Z -> mem;
  mk_len : Z;
  mk_sb : superblock;
  mk_freeinode : Z;
  mk_freeblock : Z
}.

Abbreviation MK := (M mk).

Definition set_img (img : Z -> mem) (len : Z) (s : mk) : mk := mkMk img len (mk_sb s) (mk_freeinode s) (mk_freeblock s).
Definition set_sb (sb : superblock) (s : mk) : mk := mkMk (mk_img s) (mk_len s) sb (mk_freeinode s) (mk_freeblock s).
Definition set_freeinode (n : Z) (s : mk) : mk := mkMk (mk_img s) (mk_len s) (mk_sb s) n (mk_freeblock s).
Definition set_freeblock (n : Z) (s : mk) : mk := mkMk (mk_img s) (mk_len s) (mk_sb s) (mk_freeinode s) n.

Definition assert (b : bool) : MK unit := if b then mret tt else panic "assert".

(** [struct superblock] in memory. *)
Definition put_sb (m : mem) (sb : superblock) : mem :=
  store32 (store32 (store32 (store32 (store32 (store32 (store32 m 0 (sb_size sb)) 4 (sb_nblocks sb)) 8 (sb_ninodes sb))
    12 (sb_nlog sb)) 16 (sb_logstart sb)) 20 (sb_inodestart sb)) 24 (sb_bmapstart sb).

(** [x = freeblock++] *)
Definition next_block : MK Z :=
  x ← gets mk_freeblock;
  modify (set_freeblock (uint32 (x + 1)));;
  mret x.

(** [buf[i/8] = buf[i/8] | (0x1 << (i%8))] for the first [used] blocks. *)
Fixpoint mark_loop (todo : nat) (i : Z) (buf : mem) : mem :=
  match todo with
  | O => buf
  | S k => mark_loop k (i + 1) (upd buf (i / 8) (byte8 (Z.lor (buf (i / 8)) (Z.shiftl 1 (i mod 8)))))
  end.

(** A directory entry: zeros, the inode number, then the name. *)
Definition new_dirent (inum : Z) : mem := store16 (fun _ => 0) 0 (xshort inum).

Section host.
Context (io : Z -> bool) (creat : list Z -> bool) (host : list Z -> option (list (list Z))).

Definition wsect (sec : Z) (buf : mem) : MK unit :=
  if negb (io sec) then panic "write"
  else modify (fun s => set_img (<[sec := buf]> (mk_img s)) (Z.max (mk_len s) (sec + 1)) s).

Definition rsect (sec : Z) : MK mem :=
  len ← gets mk_len;
  if negb (io sec && (sec <? len)) then panic "read"
  else gets (fun s => mk_img s sec).

Definition winode (inum : Z) (ip : inode) : MK unit :=
  sb ← gets mk_sb;
  let bn := IBLOCK inum sb in
  buf ← rsect bn;
  wsect bn (put_dinode ip buf (dip inum)).

Definition rinode (inum : Z) : MK inode :=
  sb ← gets mk_sb;
  buf ← rsect (IBLOCK inum sb);
  mret (get_dinode buf (dip inum) zero_inode).

Definition mk_ialloc (type : Z) : MK Z :=
  inum ← gets mk_freeinode;
  modify (set_freeinode (uint32 (inum + 1)));;
  winode inum (inode_disk (int16 (xshort type)) 0 0 (int16 (xshort 1)) (xint 0) (fun _ => 0) zero_inode);;
  mret inum.

Definition mk_balloc (used : Z) : MK unit :=
  assert (used <? BSIZE * 8);;
  sb ← gets mk_sb;
  wsect (sb_bmapstart sb) (mark_loop (Z.to_nat used) 0 (fun _ => 0)).

(** The block of the file that has the byte [fbn * BSIZE], and the inode with it. *)
Definition file_block (din : inode) (fbn : Z) : MK (inode * Z) :=
  if fbn <? NDIRECT then
    din ← (if xint (i_addrs din fbn) =? 0 then b ← next_block; mret (inode_addr fbn (xint b) din) else mret din);
    mret (din, xint (i_addrs din fbn))
  else
    din ← (if xint (i_addrs din NDIRECT) =? 0 then b ← next_block; mret (inode_addr NDIRECT (xint b) din) else mret din);
    indirect ← rsect (xint (i_addrs din NDIRECT));
    indirect ← (if load32 indirect (4 * (fbn - NDIRECT)) =? 0 then
        b ← next_block;
        let indirect := store32 indirect (4 * (fbn - NDIRECT)) (xint b) in
        wsect (xint (i_addrs din NDIRECT)) indirect;;
        mret indirect
      else mret indirect);
    mret (din, xint (load32 indirect (4 * (fbn - NDIRECT)))).

Fixpoint iappend_loop (fuel : nat) (din : inode) (off : Z) (mp : mem) (p n : Z) : MK (inode * Z) :=
  match fuel with
  | O => fun s => Stuck s
  | S k =>
      if 0 <? n then
        let fbn := off / BSIZE in
        assert (fbn <? MAXFILE);;
        '(din, x) ← file_block din fbn;
        let n1 := Z.min n ((fbn + 1) * BSIZE - off) in
        buf ← rsect x;
        wsect x (memcopy buf (off - fbn * BSIZE) mp p n1);;
        iappend_loop k din (off + n1) mp (p + n1) (n - n1)
      else mret (din, off)
  end.

Definition iappend (inum : Z) (mp : mem) (p n : Z) : MK unit :=
  din ← rinode inum;
  '(din, off) ← iappend_loop (S (Z.to_nat n)) din (xint (i_size din)) mp p n;
  winode inum (inode_size (xint off) din).

(** [for(i = 0; i < FSSIZE; i++) wsect(i, zeroes);] *)
Fixpoint zero_loop (todo : nat) (i : Z) : MK unit :=
  match todo with
  | O => mret tt
  | S k => wsect i (fun _ => 0);; zero_loop k (i + 1)
  end.

(** [while((cc = read(fd, buf, sizeof(buf))) > 0) iappend(inum, buf, cc);] *)
Fixpoint copy_file (inum : Z) (reads : list (list Z)) : MK unit :=
  match reads with
  | [] | [] :: _ => mret tt
  | buf :: reads =>
      iappend inum (bytes_mem buf) 0 (Z.of_nat (length buf));;
      copy_file inum reads
  end.

Definition skip_underscore (name : list Z) : list Z :=
  match name with
  | c :: rest => if c =? 95 then rest else name
  | [] => []
  end.

Definition add_file (rootino : Z) (arg : list Z) : MK unit :=
  assert (negb (bool_decide (slash ∈ arg)));;
  match host arg with
  | None => panic "open"
  | Some reads =>
      let name := skip_underscore arg in
      inum ← mk_ialloc T_FILE;
      iappend rootino (strncpy (new_dirent inum) de_name (bytes_mem name) 0 DIRSIZ) 0 DIRENT;;
      copy_file inum reads
  end.

Fixpoint add_files (rootino : Z) (args : list (list Z)) : MK unit :=
  match args with
  | [] => mret tt
  | arg :: args =>
      add_file rootino arg;;
      add_files rootino args
  end.

Definition make_sb : superblock :=
  let nmeta := 2 + nlog + ninodeblocks + nbitmap in
  mkSb (xint FSSIZE) (xint (FSSIZE - nmeta)) (xint NINODES) (xint nlog) (xint 2) (xint (2 + nlog)) (xint (2 + nlog + ninodeblocks)).

(** What is printed is left out. *)
Definition mkfs (argv : list (list Z)) : MK unit :=
  match argv with
  | _ :: img :: args =>
      assert (BSIZE mod DINODE =? 0);;
      assert (BSIZE mod DIRENT =? 0);;
      if negb (creat img) then panic "open"
      else
        modify (set_img (fun _ _ => 0) 0);;
        let nmeta := 2 + nlog + ninodeblocks + nbitmap in
        modify (set_sb make_sb);;
        modify (set_freeblock nmeta);;
        zero_loop (Z.to_nat FSSIZE) 0;;
        sb ← gets mk_sb;
        wsect 1 (put_sb (fun _ => 0) sb);;
        rootino ← mk_ialloc T_DIR;
        assert (rootino =? ROOTINO);;
        iappend rootino (memcopy (new_dirent rootino) de_name (bytes_mem [46; 0]) 0 2) 0 DIRENT;;
        iappend rootino (memcopy (new_dirent rootino) de_name (bytes_mem [46; 46; 0]) 0 3) 0 DIRENT;;
        add_files rootino args;;
        din ← rinode rootino;
        let off := (xint (i_size din) / BSIZE + 1) * BSIZE in
        winode rootino (inode_size (xint off) din);;
        used ← gets mk_freeblock;
        mk_balloc used
  | _ => panic "Usage: mkfs fs.img files..."
  end.
End host.

(** The globals when the program starts. *)
Definition mk_start : mk := mkMk (fun _ _ => 0) 0 (mkSb 0 0 0 0 0 0 0) 1 0.

(** ** A file on the image *)

Definition blk (img : Z -> mem) (x : inode) (b : Z) : Z :=
  if b <? NDIRECT then i_addrs x b else if ind x =? 0 then 0 else load32 (img (ind x)) (4 * (b - NDIRECT)).

(** The bytes [l] in [nb] blocks, all of them between the metadata and block [hi]. *)
Record stored (img : Z -> mem) (hi : Z) (x : inode) (nb : Z) (l : list Z) : Prop := mkStored {
  sd_len : Z.of_nat (length l) <= nb * BSIZE;
  sd_nb : 0 <= nb <= MAXFILE;
  sd_blk : forall b, 0 <= b < nb -> 59 <= blk img x b < hi;
  sd_none : forall b, nb <= b < MAXFILE -> blk img x b = 0;
  sd_ind : if NDIRECT <? nb then 59 <= ind x < hi else ind x = 0;
  sd_inj : forall b c, 0 <= b < nb -> 0 <= c < nb -> blk img x b = blk img x c -> b = c;
  sd_apart : forall b, 0 <= b < nb -> NDIRECT < nb -> blk img x b <> ind x;
  sd_bytes : forall o, 0 <= o < nb * BSIZE -> img (blk img x (o / BSIZE)) (o mod BSIZE) = bytes_mem l o
}.

Definition owns (img : Z -> mem) (x : inode) (nb : Z) (b : Z) : Prop :=
  (NDIRECT < nb /\ b = ind x) \/ exists i, 0 <= i < nb /\ b = blk img x i.

Section stored.
Context (img : Z -> mem) (hi : Z) (x : inode) (nb : Z) (l : list Z) (Hs : stored img hi x nb l).

Lemma owns_range b : owns img x nb b -> 59 <= b < hi.
Proof.
  intros [[H ->]|(i & Hi & ->)]; [|by apply Hs]. pose proof (sd_ind _ _ _ _ _ Hs) as Hi. by rewrite (proj2 (Z.ltb_lt _ _) H) in Hi.
Qed.

Lemma blk_same img' : (NDIRECT < nb -> img' (ind x) = img (ind x)) -> forall i, 0 <= i < MAXFILE -> blk img' x i = blk img x i.
Proof.
  intros H i Hi. unfold blk. destruct (i <? NDIRECT); [done|]. destruct (Z.eqb_spec (ind x) 0) as [E|E]; [done|]. rewrite H; [done|].
  destruct (Z_lt_dec NDIRECT nb); [done|]. destruct E. pose proof (sd_ind _ _ _ _ _ Hs) as H1. by rewrite (proj2 (Z.ltb_ge _ _)) in H1 by lia.
Qed.

Lemma stored_frame img' hi' : hi <= hi' -> (forall b, owns img x nb b -> img' b = img b) ->
  stored img' hi' x nb l /\ forall b, owns img' x nb b <-> owns img x nb b.
Proof.
  intros Hh Hk. assert (Hb : forall i, 0 <= i < MAXFILE -> blk img' x i = blk img x i) by (apply blk_same; intros H; apply Hk; by left).
  pose proof Hs as [S1 S2 S3 S4 S5 S6 S7 S8]. assert (Hown : forall i, 0 <= i < nb -> owns img x nb (blk img x i)) by (intros i Hi; right; by exists i).
  split; [split; try done|].
  - intros b Hb1. rewrite Hb by lia. specialize (S3 b Hb1). lia.
  - intros b Hb1. rewrite Hb by lia. by apply S4.
  - destruct (NDIRECT <? nb); [lia|done].
  - intros b c H1 H2. rewrite !Hb by lia. by apply S6.
  - intros b H1 H2. rewrite Hb by lia. by apply S7.
  - intros o Ho. assert (0 <= o / BSIZE < nb) by (split; [apply Z.div_pos; [lia|done]|apply Z.div_lt_upper_bound; [done|lia]]).
    rewrite Hb by lia. rewrite Hk by (by apply Hown). by apply S8.
  - intros b. unfold owns. apply or_iff_compat_l. split; intros (i & Hi & ->); exists i; (split; [done|]); rewrite Hb by lia; done.
Qed.

(** The bytes at [p], written at the end of the file in its block [fbn]. *)
Definition bytes_of (mp : mem) (p n : Z) : list Z := (fun j => mp (p + Z.of_nat j)) <$> seq 0 (Z.to_nat n).

Lemma bytes_of_length mp p n : 0 <= n -> Z.of_nat (length (bytes_of mp p n)) = n.
Proof. intros H. unfold bytes_of. rewrite length_fmap, length_seq. lia. Qed.

Lemma bytes_app mp p n o : 0 <= o -> 0 <= n ->
  bytes_mem (l ++ bytes_of mp p n) o = if inside (Z.of_nat (length l)) n o then mp (p + (o - Z.of_nat (length l))) else bytes_mem l o.
Proof.
  intros Ho Hn. unfold bytes_mem, inside. destruct (Z.leb_spec (Z.of_nat (length l)) o) as [Hl|Hl].
  - rewrite lookup_app_r by lia. unfold bytes_of. rewrite list_lookup_fmap. destruct (Z.ltb_spec o (Z.of_nat (length l) + n)) as [H|H]; simpl.
    + rewrite lookup_seq_lt by lia. simpl. f_equal. lia.
    + rewrite !lookup_ge_None_2; [done|lia|rewrite length_seq; lia].
  - simpl. by rewrite lookup_app_l by lia.
Qed.

Lemma stored_fill mp p n off : off = Z.of_nat (length l) -> off / BSIZE < nb -> 0 <= n -> off + n <= (off / BSIZE + 1) * BSIZE ->
  let b := blk img x (off / BSIZE) in
  let img' := <[b := memcopy (img b) (off - off / BSIZE * BSIZE) mp p n]> img in
  stored img' hi x nb (l ++ bytes_of mp p n) /\ forall c, owns img' x nb c <-> owns img x nb c.
Proof.
  intros Eo Hlt Hn Hfit b img'. pose proof Hs as [S1 S2 S3 S4 S5 S6 S7 S8]. assert (Hfb : 0 <= off / BSIZE) by (apply Z.div_pos; [lia|done]).
  assert (Hind : NDIRECT < nb -> img' (ind x) = img (ind x)) by (intros H; apply fn_insert_ne, not_eq_sym, S7; [lia|done]).
  assert (Hb : forall i, 0 <= i < MAXFILE -> blk img' x i = blk img x i) by (by apply blk_same).
  split; [split; try done|].
  - rewrite length_app, Nat2Z.inj_add, bytes_of_length, <- Eo by done. assert ((off / BSIZE + 1) * BSIZE <= nb * BSIZE) by (apply Z.mul_le_mono_nonneg_r; [done|lia]). lia.
  - intros i Hi. rewrite Hb by lia. by apply S3.
  - intros i Hi. rewrite Hb by lia. by apply S4.
  - intros i j H1 H2. rewrite !Hb by lia. by apply S6.
  - intros i H1 H2. rewrite Hb by lia. by apply S7.
  - intros o Ho. assert (Hq : 0 <= o / BSIZE < nb) by (split; [apply Z.div_pos; [lia|done]|apply Z.div_lt_upper_bound; [done|lia]]).
    rewrite Hb by lia. rewrite bytes_app by lia. rewrite <- Eo. pose proof (Z.div_mod o BSIZE ltac:(done)) as Em. pose proof (Z.mod_pos_bound o BSIZE ltac:(done)) as Hm.
    unfold img'. destruct (Z.eq_dec (o / BSIZE) (off / BSIZE)) as [E|E].
    + rewrite E. fold b. rewrite fn_insert_eq. unfold memcopy, inside. rewrite E in Em.
      replace (off - off / BSIZE * BSIZE <=? o mod BSIZE) with (off <=? o) by (destruct (Z.leb_spec off o); symmetry; [apply Z.leb_le|apply Z.leb_gt]; lia).
      replace (o mod BSIZE <? off - off / BSIZE * BSIZE + n) with (o <? off + n) by (destruct (Z.ltb_spec o (off + n)); symmetry; [apply Z.ltb_lt|apply Z.ltb_ge]; lia).
      destruct ((off <=? o) && (o <? off + n)); [f_equal; lia|]. unfold b. rewrite <- E. apply S8. lia.
    + rewrite fn_insert_ne by (intros H; apply E, S6; [lia|lia|exact H]). rewrite (S8 o) by lia. unfold inside.
      assert (Hout : o < off \/ off + n <= o). { destruct (Z_lt_dec o off); [by left|right]. destruct (Z_le_dec (off + n) o); [done|]. exfalso. apply E. pose proof (Z.div_mod off BSIZE ltac:(done)). pose proof (Z.mod_pos_bound off BSIZE ltac:(done)). symmetry. apply (Z.div_unique o BSIZE _ (o - off / BSIZE * BSIZE)); unfold BSIZE in *; lia. }
      zcases; lia.
  - intros c. unfold owns. apply or_iff_compat_l. split; intros (i & Hi & ->); exists i; (split; [done|]); rewrite Hb by lia; done.
Qed.

(** One more block: what changes on the image, and the blocks taken. *)
Record extended (x1 : inode) (img1 : Z -> mem) (hi1 : Z) : Prop := mkExtended {
  ex_stored : stored img1 hi1 x1 (nb + 1) l;
  ex_fields : i_type x1 = i_type x /\ i_major x1 = i_major x /\ i_minor x1 = i_minor x /\ i_nlink x1 = i_nlink x;
  ex_hi : hi1 = hi + (if nb =? NDIRECT then 2 else 1);
  ex_same : forall b, b < hi \/ hi1 <= b -> ~ owns img x nb b -> img1 b = img b;
  ex_owns : forall b, owns img1 x1 (nb + 1) b -> owns img x nb b \/ hi <= b < hi1
}.

Context (Hzero : forall b o, hi <= b -> img b o = 0) (Hmax : nb < MAXFILE) (Hhi : 59 <= hi < W32 - 1).

(** From the blocks of the file after the change; the new one is the last one taken. *)
Lemma extend x1 img1 hi1 :
  i_type x1 = i_type x /\ i_major x1 = i_major x /\ i_minor x1 = i_minor x /\ i_nlink x1 = i_nlink x ->
  hi1 = hi + (if nb =? NDIRECT then 2 else 1) ->
  (forall i, 0 <= i < MAXFILE -> blk img1 x1 i = if i =? nb then hi1 - 1 else blk img x i) ->
  ind x1 = (if nb =? NDIRECT then hi else ind x) ->
  (forall b, ~ (NDIRECT <= nb /\ b = ind x1) -> img1 b = img b) -> extended x1 img1 hi1.
Proof.
  intros Hf Hh Hb Hi Hk. pose proof Hs as [S1 S2 S3 S4 S5 S6 S7 S8].
  assert (Hind : NDIRECT < nb -> 59 <= ind x < hi) by (intros H; by rewrite (proj2 (Z.ltb_lt _ _) H) in S5).
  assert (Hnew : forall i, 0 <= i < nb -> blk img1 x1 i = blk img x i) by (intros i H; rewrite Hb, (proj2 (Z.eqb_neq i nb)) by lia; done).
  assert (Hlast : blk img1 x1 nb = hi1 - 1) by (rewrite Hb, Z.eqb_refl by lia; done).
  assert (Hh1 : hi < hi1 <= hi + 2) by (destruct (nb =? NDIRECT); lia).
  assert (Hix : NDIRECT < nb + 1 -> ind x1 = hi /\ nb = NDIRECT /\ hi1 = hi + 2 \/ NDIRECT < nb /\ ind x1 = ind x /\ hi1 = hi + 1) by (intros H; destruct (Z.eqb_spec nb NDIRECT); lia).
  assert (Hap : forall b, 0 <= b < nb + 1 -> NDIRECT < nb + 1 -> blk img1 x1 b <> ind x1).
  { intros b H1 H2. destruct (Z.eq_dec b nb) as [->|Hne].
    - rewrite Hlast. destruct (Hix H2) as [(E1 & E2 & E3)|(E1 & E2 & E3)]; [lia|]. specialize (Hind E1). lia.
    - rewrite Hnew by lia. destruct (Hix H2) as [(E1 & E2 & E3)|(E1 & E2 & E3)]; [specialize (S3 b ltac:(lia)); lia|rewrite E2; apply S7; lia]. }
  split; [split| done|done| |].
  - unfold BSIZE in *. lia.
  - lia.
  - intros b H1. destruct (Z.eq_dec b nb) as [->|Hne]; [rewrite Hlast; lia|]. rewrite Hnew by lia. specialize (S3 b ltac:(lia)). lia.
  - intros b H1. rewrite Hb, (proj2 (Z.eqb_neq b nb)) by lia. apply S4. lia.
  - destruct (Z.ltb_spec NDIRECT (nb + 1)) as [H|H]; [destruct (Hix H) as [(E1 & E2 & E3)|(E1 & E2 & E3)]; [lia|specialize (Hind E1); lia]|].
    rewrite Hi, (proj2 (Z.eqb_neq nb NDIRECT)) by lia. by rewrite (proj2 (Z.ltb_ge _ _)) in S5 by lia.
  - intros b c H1 H2. destruct (Z.eq_dec b nb) as [->|Hb1], (Z.eq_dec c nb) as [->|Hc1]; [done| | |].
    + rewrite Hlast, Hnew by lia. specialize (S3 c ltac:(lia)). lia.
    + rewrite Hlast, Hnew by lia. specialize (S3 b ltac:(lia)). lia.
    + rewrite !Hnew by lia. apply S6; lia.
  - exact Hap.
  - intros o Ho. assert (Hq : 0 <= o / BSIZE < nb + 1) by (split; [apply Z.div_pos; [lia|done]|apply Z.div_lt_upper_bound; [done|lia]]).
    rewrite Hk by (intros [H1 H2]; by apply (Hap (o / BSIZE)); [lia|lia|]). destruct (Z.eq_dec (o / BSIZE) nb) as [E|Hne].
    + rewrite E, Hlast, Hzero by lia. unfold bytes_mem. rewrite lookup_ge_None_2; [done|]. pose proof (Z.div_mod o BSIZE ltac:(done)) as Em. pose proof (Z.mod_pos_bound o BSIZE ltac:(done)). rewrite E in Em. lia.
    + rewrite Hnew by lia. apply S8. pose proof (Z.div_mod o BSIZE ltac:(done)) as Em. pose proof (Z.mod_pos_bound o BSIZE ltac:(done)).
      assert (BSIZE * (o / BSIZE) <= BSIZE * (nb - 1)) by (apply Z.mul_le_mono_nonneg_l; [done|lia]). lia.
  - intros b H1 H2. apply Hk. intros [H3 ->]. destruct (Hix ltac:(lia)) as [(E1 & E2 & E3)|(E1 & E2 & E3)]; [lia|]. apply H2. left. by rewrite E2.
  - intros b [[H1 ->]|(i & H1 & ->)].
    + destruct (Hix H1) as [(E1 & E2 & E3)|(E1 & E2 & E3)]; [right; lia|left; left; by rewrite E2].
    + destruct (Z.eq_dec i nb) as [->|Hne]; [right; lia|]. left. right. exists i. split; [lia|]. rewrite Hnew by lia. done.
Qed.
End stored.

(** ** The image while it is built *)

Definition SB : superblock := mkSb 1000 941 200 30 2 32 58.

Lemma make_sb_is : make_sb = SB.
Proof. vm_compute. reflexivity. Qed.

Lemma xint_id v : 0 <= v < W32 -> xint v = v.
Proof. intros H. exact (load32_store32 (fun _ => 0) 0 v H). Qed.

Lemma xshort_id v : 0 <= v < 65536 -> xshort v = v.
Proof. intros H. transitivity (v mod 65536); [exact (load16_store16 (fun _ => 0) 0 v)|by apply Z.mod_small]. Qed.

(** The blocks of a file of [n] bytes, without and with the indirect block. *)
Definition nblk (n : Z) : Z := (n + BSIZE - 1) / BSIZE.
Definition need (n : Z) : Z := nblk n + (if NDIRECT <? nblk n then 1 else 0).

Lemma nblk_bounds n : n <= nblk n * BSIZE < n + BSIZE.
Proof. unfold nblk. pose proof (Z.div_mod (n + BSIZE - 1) BSIZE ltac:(done)). pose proof (Z.mod_pos_bound (n + BSIZE - 1) BSIZE ltac:(done)). unfold BSIZE in *. lia. Qed.

Lemma nblk_unique n q : n <= q * BSIZE < n + BSIZE -> nblk n = q.
Proof. intros H. pose proof (nblk_bounds n). unfold BSIZE in *. lia. Qed.

(** Where the next byte goes. *)
Lemma nblk_next n : 0 <= n -> 0 <= n / BSIZE /\ (n / BSIZE + 1 = nblk n \/ n / BSIZE = nblk n /\ n = nblk n * BSIZE).
Proof.
  intros H. pose proof (nblk_bounds n). pose proof (Z.div_mod n BSIZE ltac:(done)). pose proof (Z.mod_pos_bound n BSIZE ltac:(done)).
  split; [apply Z.div_pos; [lia|done]|]. unfold BSIZE in *. lia.
Qed.

Lemma nblk_step n m : 0 <= n -> 0 < m -> n + m <= (n / BSIZE + 1) * BSIZE -> nblk (n + m) = n / BSIZE + 1.
Proof. intros H H1 H2. apply nblk_unique. pose proof (Z.div_mod n BSIZE ltac:(done)). pose proof (Z.mod_pos_bound n BSIZE ltac:(done)). unfold BSIZE in *. lia. Qed.

Lemma need_mono n m : n <= m -> need n <= need m.
Proof.
  intros H. unfold need. assert (nblk n <= nblk m) by (apply Z.div_le_mono; [done|lia]). zcases; lia.
Qed.

Definition size (l : list Z) : Z := Z.of_nat (length l).

Definition total (L : list (inode * list Z)) : Z := foldr (fun p t => need (size p.2) + t) 0 L.

Lemma total_insert L k x l y m : L !! k = Some (x, l) -> total (<[k := (y, m)]> L) = total L - need (size l) + need (size m).
Proof.
  revert k. induction L as [|[z q] L IH]; intros [|k] H; simpl in *; [done|done| |].
  - injection H as -> ->. lia.
  - rewrite (IH k H). lia.
Qed.

Lemma total_app L M : total (L ++ M) = total L + total M.
Proof. induction L as [|p L IH]; simpl; [done|]. lia. Qed.

(** The fields mkfs gives an inode. *)
Definition plain_inode (x : inode) : Prop := 0 <= i_type x < 100 /\ i_major x = 0 /\ i_minor x = 0 /\ i_nlink x = 1.

(** The files of the image, inode 1 first; the inode of the file [op] is in a local variable. *)
Record disk_ok (L : list (inode * list Z)) (op : option nat) (s : mk) : Prop := mkDiskOk {
  dk_len : mk_len s = FSSIZE;
  dk_sb : mk_sb s = SB;
  dk_sb1 : sb_of (mk_img s 1) = SB;
  dk_inode : mk_freeinode s = Z.of_nat (length L) + 1;
  dk_count : Z.of_nat (length L) < NINODES;
  dk_free : mk_freeblock s = 59 + total L;
  dk_room : 59 <= mk_freeblock s <= FSSIZE;
  dk_zero : forall b o, mk_freeblock s <= b -> mk_img s b o = 0;
  dk_file : forall i x l, L !! i = Some (x, l) -> stored (mk_img s) (mk_freeblock s) x (nblk (size l)) l /\ plain_inode x;
  dk_apart : forall i j x l y m b, i <> j -> L !! i = Some (x, l) -> L !! j = Some (y, m) ->
    owns (mk_img s) x (nblk (size l)) b -> owns (mk_img s) y (nblk (size m)) b -> False;
  dk_disk : forall i x l, L !! i = Some (x, l) -> op <> Some i ->
    i_size x = size l /\ dinode_is (mk_img s (IBLOCK (Z.of_nat i + 1) SB)) (dip (Z.of_nat i + 1)) x
}.

Lemma iblock_place i : 0 <= i < NINODES -> 32 <= IBLOCK i SB < 58.
Proof.
  intros H. unfold IBLOCK. change IPB with 8. change (sb_inodestart SB) with 32. unfold NINODES in H.
  pose proof (Z.div_pos i 8 ltac:(lia) ltac:(lia)). pose proof (Z.div_lt_upper_bound i 8 26 ltac:(lia) ltac:(lia)). lia.
Qed.

(** The file [k] grows: the blocks it did not own are as before. *)
Lemma disk_update L k x l s x1 l1 s1 :
  disk_ok L (Some k) s -> L !! k = Some (x, l) ->
  mk_len s1 = mk_len s -> mk_sb s1 = mk_sb s -> mk_freeinode s1 = mk_freeinode s ->
  mk_freeblock s <= mk_freeblock s1 <= FSSIZE -> mk_freeblock s1 = mk_freeblock s + need (size l1) - need (size l) ->
  stored (mk_img s1) (mk_freeblock s1) x1 (nblk (size l1)) l1 -> plain_inode x1 ->
  (forall b, b < mk_freeblock s \/ mk_freeblock s1 <= b -> ~ owns (mk_img s) x (nblk (size l)) b -> mk_img s1 b = mk_img s b) ->
  (forall b, owns (mk_img s1) x1 (nblk (size l1)) b -> owns (mk_img s) x (nblk (size l)) b \/ mk_freeblock s <= b < mk_freeblock s1) ->
  disk_ok (<[k := (x1, l1)]> L) (Some k) s1.
Proof.
  intros [D1 D2 D3 D4 D5 D6 D7 D8 D9 D10 D11] Hk E1 E2 E3 Hr Ef Hst Hpl Hsame Hown. pose proof (lookup_lt_Some _ _ _ Hk) as Hlt.
  destruct (D9 _ _ _ Hk) as [Hx _]. pose proof (owns_range _ _ _ _ _ Hx) as Hrange.
  assert (Hother : forall i y m, i <> k -> L !! i = Some (y, m) ->
    stored (mk_img s1) (mk_freeblock s1) y (nblk (size m)) m /\ forall b, owns (mk_img s1) y (nblk (size m)) b <-> owns (mk_img s) y (nblk (size m)) b).
  { intros i y m Hne Hi. destruct (D9 _ _ _ Hi) as [Hy _]. apply (stored_frame _ _ _ _ _ Hy); [lia|]. intros b Hb.
    apply Hsame; [left; by apply (owns_range _ _ _ _ _ Hy)|]. intros Hb'. by apply (D10 i k y m x l b). }
  assert (Hmeta : forall b, b < 59 -> mk_img s1 b = mk_img s b) by (intros b Hb; apply Hsame; [left; lia|]; intros Ho; apply Hrange in Ho; lia).
  assert (Hcase : forall i y m, <[k := (x1, l1)]> L !! i = Some (y, m) -> i = k /\ y = x1 /\ m = l1 \/ i <> k /\ L !! i = Some (y, m)).
  { intros i y m H. destruct (decide (k = i)) as [<-|Hne]; [rewrite list_lookup_insert_eq in H by done; injection H as <- <-; by left|]. rewrite list_lookup_insert_ne in H by done. right. by split; [congruence|]. }
  split; rewrite ?E1, ?E2, ?E3; try done.
  - by rewrite Hmeta.
  - by rewrite length_insert.
  - by rewrite length_insert.
  - rewrite (total_insert _ _ _ _ _ _ Hk). lia.
  - lia.
  - intros b o Hb. rewrite Hsame; [apply D8; lia|by right|]. intros Ho. apply Hrange in Ho. lia.
  - intros i y m H. destruct (Hcase _ _ _ H) as [(-> & -> & ->)|(Hne & Hi)]; [done|]. split; [by apply (Hother i)|by apply (D9 i y m)].
  - intros i j y m z q b Hij Hi Hj Hy Hz. destruct (Hcase _ _ _ Hi) as [(-> & -> & ->)|(Hni & Hi')], (Hcase _ _ _ Hj) as [(-> & -> & ->)|(Hnj & Hj')]; [done| | |].
    + apply (Hother _ _ _ Hnj Hj') in Hz. destruct (D9 _ _ _ Hj') as [Hs _]. destruct (Hown _ Hy) as [Ho|Ho]; [by apply (D10 k j x l z q b)|]. apply (owns_range _ _ _ _ _ Hs) in Hz. lia.
    + apply (Hother _ _ _ Hni Hi') in Hy. destruct (D9 _ _ _ Hi') as [Hs _]. destruct (Hown _ Hz) as [Ho|Ho]; [by apply (D10 i k y m x l b)|]. apply (owns_range _ _ _ _ _ Hs) in Hy. lia.
    + apply (Hother _ _ _ Hni Hi') in Hy. apply (Hother _ _ _ Hnj Hj') in Hz. by apply (D10 i j y m z q b).
  - intros i y m H Hop. destruct (Hcase _ _ _ H) as [(-> & _)|(Hne & Hi)]; [done|]. destruct (D11 _ _ _ Hi Hop) as [A B]. split; [done|].
    rewrite Hmeta; [done|]. pose proof (lookup_lt_Some _ _ _ Hi). pose proof (iblock_place (Z.of_nat i + 1) ltac:(lia)). lia.
Qed.

(** ** The inodes on the image *)

Lemma dinode_is_ext m m' a x : (forall y, a <= y < a + DINODE -> m' y = m y) -> dinode_is m a x -> dinode_is m' a x.
Proof.
  assert (DINODE = 64 /\ NDIRECT = 12) as [E1 E2] by done. intros H [D1 D2 D3 D4 D5 D6].
  split; unfold di_type, di_major, di_minor, di_nlink, di_size, di_addr in *; rewrite ?(load16_ext m), ?(load32_ext m) by (intros y Hy; apply H; lia); try done.
  intros i Hi. rewrite (load32_ext m) by (intros y Hy; apply H; lia). by apply D6.
Qed.

(** Another inode of the block. *)
Lemma dinode_other x y m i k : 0 <= i -> 0 <= k -> i <> k -> i / IPB = k / IPB -> dinode_is m (dip i) y -> dinode_is (put_dinode x m (dip k)) (dip i) y.
Proof.
  intros Hi Hk Hne Eq H. apply (dinode_is_ext m); [|done]. intros b Hb. apply put_dinode_out. unfold dip in *. change DINODE with 64 in *. change IPB with 8 in *.
  pose proof (Z.div_mod i 8 ltac:(lia)). pose proof (Z.div_mod k 8 ltac:(lia)). pose proof (Z.mod_pos_bound i 8 ltac:(lia)). pose proof (Z.mod_pos_bound k 8 ltac:(lia)). lia.
Qed.

Lemma stored_addrs img hi x y nb l : (forall i, 0 <= i <= NDIRECT -> i_addrs y i = i_addrs x i) -> stored img hi x nb l ->
  stored img hi y nb l /\ forall b, owns img y nb b <-> owns img x nb b.
Proof.
  intros Ha [S1 S2 S3 S4 S5 S6 S7 S8]. assert (Ei : ind y = ind x) by (apply Ha; unfold NDIRECT; lia).
  assert (Hb : forall b, 0 <= b -> blk img y b = blk img x b).
  { intros b Hb. unfold blk. rewrite Ei. destruct (Z.ltb_spec b NDIRECT); [apply Ha; lia|done]. }
  split; [split; try done|].
  - intros b H. rewrite Hb by lia. by apply S3.
  - intros b H. rewrite Hb by lia. by apply S4.
  - by rewrite Ei.
  - intros b c H H'. rewrite !Hb by lia. by apply S6.
  - intros b H H'. rewrite Hb, Ei by lia. by apply S7.
  - intros o Ho. rewrite Hb by (apply Z.div_pos; [lia|done]). by apply S8.
  - intros b. unfold owns. rewrite Ei. apply or_iff_compat_l. split; intros (i & Hi & ->); exists i; (split; [done|]); rewrite Hb by lia; done.
Qed.

(** The inode of the file [k] read into a local variable. *)
Lemma disk_open L k x l s y : disk_ok L None s -> L !! k = Some (x, l) ->
  (forall i, 0 <= i <= NDIRECT -> i_addrs y i = i_addrs x i) -> plain_inode y -> disk_ok (<[k := (y, l)]> L) (Some k) s.
Proof.
  intros Hd Hk Ha Hp. assert (Hd1 : disk_ok L (Some k) s) by (destruct Hd; split; try done; intros i z m Hi _; by eauto).
  destruct (dk_file _ _ _ Hd _ _ _ Hk) as [Hs _]. destruct (stored_addrs _ _ _ y _ _ Ha Hs) as [Hs1 Ho]. pose proof (dk_room _ _ _ Hd).
  apply (disk_update L k x l s); try done; try lia. intros b Hb. left. by apply Ho.
Qed.

Lemma addr_word img hi x nb l i : stored img hi x nb l -> hi <= FSSIZE -> 0 <= i <= NDIRECT -> 0 <= i_addrs x i < W32.
Proof.
  intros [S1 S2 S3 S4 S5 S6 S7 S8] Hh Hi. assert (0 < FSSIZE < W32) by (unfold FSSIZE, W32; lia). destruct (Z.eq_dec i NDIRECT) as [->|Hne].
  - change (i_addrs x NDIRECT) with (ind x). revert S5. destruct (NDIRECT <? nb); lia.
  - assert (E : i_addrs x i = blk img x i) by (unfold blk; by rewrite (proj2 (Z.ltb_lt i NDIRECT)) by lia). rewrite E.
    destruct (Z_lt_dec i nb); [specialize (S3 i ltac:(lia)); lia|]. rewrite S4 by fs_lia. lia.
Qed.

(** And written back. *)
Lemma disk_close L k x l s : disk_ok L (Some k) s -> L !! k = Some (x, l) -> size l <= MAXFILE * BSIZE ->
  let y := inode_size (size l) x in let bn := IBLOCK (Z.of_nat k + 1) SB in
  disk_ok (<[k := (y, l)]> L) None (set_img (<[bn := put_dinode y (mk_img s bn) (dip (Z.of_nat k + 1))]> (mk_img s)) (mk_len s) s).
Proof.
  intros Hd Hk Hmax y bn. pose proof (lookup_lt_Some _ _ _ Hk) as Hlt. pose proof Hd as [D1 D2 D3 D4 D5 D6 D7 D8 D9 D10 D11].
  pose proof (iblock_place (Z.of_nat k + 1) ltac:(lia)) as Hbn. fold bn in Hbn. set (img1 := <[bn := _]> (mk_img s)).
  assert (Hk1 : forall b, b <> bn -> img1 b = mk_img s b) by (intros b Hb; by apply fn_insert_ne).
  assert (Hother : forall i z m, L !! i = Some (z, m) -> stored img1 (mk_freeblock s) z (nblk (size m)) m /\ forall b, owns img1 z (nblk (size m)) b <-> owns (mk_img s) z (nblk (size m)) b).
  { intros i z m Hi. destruct (D9 _ _ _ Hi) as [Hz _]. apply (stored_frame _ _ _ _ _ Hz); [lia|]. intros b Hb. apply Hk1. apply (owns_range _ _ _ _ _ Hz) in Hb. lia. }
  assert (Hcase : forall i z m, <[k := (y, l)]> L !! i = Some (z, m) -> exists z0, L !! i = Some (z0, m) /\ (i = k /\ z0 = x /\ z = y /\ m = l \/ i <> k /\ z = z0)).
  { intros i z m H. destruct (decide (k = i)) as [<-|Hne]; [rewrite list_lookup_insert_eq in H by done; injection H as <- <-; exists x; by split; [|left]|].
    rewrite list_lookup_insert_ne in H by done. exists z. split; [done|]. right. by split; [congruence|]. }
  assert (Hadd : forall i z m, <[k := (y, l)]> L !! i = Some (z, m) -> stored img1 (mk_freeblock s) z (nblk (size m)) m /\ plain_inode z /\
    exists z0, L !! i = Some (z0, m) /\ forall b, owns img1 z (nblk (size m)) b <-> owns (mk_img s) z0 (nblk (size m)) b).
  { intros i z m H. destruct (Hcase _ _ _ H) as (z0 & Hi & Hz). destruct (Hother _ _ _ Hi) as [A B]. destruct (D9 _ _ _ Hi) as [_ P].
    destruct Hz as [(-> & -> & -> & ->)|(_ & ->)]; [|split; [done|]; split; [done|]; by exists z0].
    destruct (stored_addrs img1 _ x y _ _ ltac:(done) A) as [A1 B1]. split; [done|]. split; [done|]. exists x. split; [done|]. intros b. rewrite B1. apply B. }
  split; simpl; try done.
  - rewrite Hk1 by lia. done.
  - by rewrite length_insert.
  - by rewrite length_insert.
  - rewrite (total_insert _ _ _ _ _ _ Hk). lia.
  - intros b o Hb. rewrite Hk1 by lia. by apply D8.
  - intros i z m H. destruct (Hadd _ _ _ H) as (A & B & _). by split.
  - intros i j z m w q b Hij Hi Hj Hz Hw. destruct (Hadd _ _ _ Hi) as (_ & _ & z0 & Hi' & Oi). destruct (Hadd _ _ _ Hj) as (_ & _ & w0 & Hj' & Oj).
    apply (D10 i j z0 m w0 q b); [done|done|done|by apply Oi|by apply Oj].
  - intros i z m H _. destruct (Hcase _ _ _ H) as (z0 & Hi & [(-> & -> & -> & ->)|(Hne & ->)]).
    + split; [done|]. unfold img1. fold bn. rewrite fn_insert_eq. destruct (D9 _ _ _ Hk) as [Hs (P1 & P2 & P3 & P4)]. apply put_dinode_is. split; simpl; try lia.
      * unfold size in *. unfold W32. fs_lia.
      * intros j Hj. by apply (addr_word _ _ _ _ _ j Hs ltac:(lia)).
    + destruct (D11 _ _ _ Hi ltac:(congruence)) as [A B]. split; [done|]. unfold img1. destruct (Z.eq_dec (IBLOCK (Z.of_nat i + 1) SB) bn) as [E|E]; [|by rewrite fn_insert_ne by done].
      rewrite E, fn_insert_eq. rewrite E in B. apply dinode_other; [lia|lia|lia| |done]. unfold bn, IBLOCK in E. lia.
Qed.

(** What the reads return up to the end of the file. *)
Fixpoint file_data (reads : list (list Z)) : list Z :=
  match reads with
  | [] | [] :: _ => []
  | buf :: reads => buf ++ file_data reads
  end.

(** The entry of a file in the root directory. *)
Definition dirent_bytes (inum : Z) (name : list Z) : list Z :=
  bytes_of (strncpy (new_dirent inum) de_name (bytes_mem name) 0 DIRSIZ) 0 DIRENT.

Fixpoint dirents (n : Z) (args : list (list Z)) : list Z :=
  match args with
  | [] => []
  | arg :: args => dirent_bytes n (skip_underscore arg) ++ dirents (n + 1) args
  end.

(** ** The operations *)

Section ops.
Context (io : Z -> bool) (Hio : forall b, io b = true).

Lemma wp_rsect sec s (Q : mem -> mk -> Prop) : sec < mk_len s -> Q (mk_img s sec) s -> wp (rsect io sec) s Q.
Proof. intros H HQ. unfold rsect. apply wp_gets_bind. rewrite Hio, (proj2 (Z.ltb_lt _ _) H). simpl. done. Qed.

Lemma wp_wsect sec buf s (Q : unit -> mk -> Prop) : sec < mk_len s -> Q tt (set_img (<[sec := buf]> (mk_img s)) (mk_len s) s) -> wp (wsect io sec buf) s Q.
Proof. intros H HQ. unfold wsect. rewrite Hio. simpl. apply wp_modify. by rewrite Z.max_l by lia. Qed.

Lemma wp_next_block s (Q : Z -> mk -> Prop) : 0 <= mk_freeblock s < FSSIZE -> Q (mk_freeblock s) (set_freeblock (mk_freeblock s + 1) s) -> wp next_block s Q.
Proof.
  intros H HQ. unfold next_block. apply wp_gets_bind. apply wp_modify_bind. apply wp_ret. rewrite uint32_small; [done|]. unfold W32, FSSIZE in *. lia.
Qed.

(** The block for the next byte: there already, or the file is extended. *)
Definition located (x : inode) (nb : Z) (l : list Z) (s : mk) (fbn : Z) (x1 : inode) (b : Z) (s1 : mk) : Prop :=
  mk_len s1 = mk_len s /\ mk_sb s1 = mk_sb s /\ mk_freeinode s1 = mk_freeinode s /\ b = blk (mk_img s1) x1 fbn /\
  (fbn + 1 = nb /\ x1 = x /\ s1 = s \/ fbn = nb /\ extended (mk_img s) (mk_freeblock s) x nb l x1 (mk_img s1) (mk_freeblock s1)).

Lemma wp_file_block_direct x nb l s fbn (Q : inode * Z -> mk -> Prop) :
  stored (mk_img s) (mk_freeblock s) x nb l -> fbn + 1 = nb \/ fbn = nb -> 0 <= fbn < NDIRECT ->
  59 <= mk_freeblock s <= FSSIZE -> (fbn = nb -> mk_freeblock s + (if nb =? NDIRECT then 2 else 1) <= FSSIZE) -> (forall b o, mk_freeblock s <= b -> mk_img s b o = 0) ->
  (forall x1 b s1, located x nb l s fbn x1 b s1 -> Q (x1, b) s1) -> wp (file_block io x fbn) s Q.
Proof.
  intros Hs Hf Hd Hle Hroom Hz HQ. pose proof (addr_word _ _ _ _ _ fbn Hs ltac:(lia) ltac:(lia)) as Hw. unfold file_block. rewrite (proj2 (Z.ltb_lt fbn NDIRECT)) by lia. rewrite !xint_id by done.
  assert (Eb : forall img y, blk img y fbn = i_addrs y fbn) by (intros img y; unfold blk; by rewrite (proj2 (Z.ltb_lt fbn NDIRECT)) by lia).
  destruct Hf as [Hf|Hf].
  - pose proof (sd_blk _ _ _ _ _ Hs fbn ltac:(lia)) as Hb. rewrite Eb in Hb. rewrite (proj2 (Z.eqb_neq _ 0)) by lia. apply wp_ret_bind. apply wp_ret. rewrite xint_id by done.
    apply HQ. unfold located. rewrite Eb. split_and!; try done. by left.
  - assert (Hb : i_addrs x fbn = 0) by (rewrite <- (Eb (mk_img s)); apply (sd_none _ _ _ _ _ Hs); fs_lia). rewrite Hb. simpl.
    specialize (Hroom Hf). rewrite (proj2 (Z.eqb_neq nb NDIRECT)) in Hroom by lia.
    apply wp_bind, wp_bind. apply wp_next_block; [lia|]. apply wp_ret. apply wp_ret. assert (0 <= mk_freeblock s < W32) by (unfold W32, FSSIZE in *; lia).
    rewrite (xint_id (mk_freeblock s)) by done. simpl i_addrs. rewrite fn_insert_eq, xint_id by done. apply HQ. unfold located. simpl.
    split_and!; try done; [rewrite Eb; simpl; by rewrite fn_insert_eq|]. right. split; [done|].
    apply extend; try done.
    + fs_lia.
    + unfold W32, FSSIZE in *. lia.
    + by rewrite (proj2 (Z.eqb_neq nb NDIRECT)) by lia.
    + intros i Hi. unfold blk, ind. simpl. rewrite (fn_insert_ne _ fbn NDIRECT) by lia. destruct (Z.eqb_spec i nb) as [->|Hne].
      * rewrite (proj2 (Z.ltb_lt nb NDIRECT)) by lia. rewrite Hf, fn_insert_eq. lia.
      * by rewrite fn_insert_ne by lia.
    + unfold ind. simpl. rewrite (proj2 (Z.eqb_neq nb NDIRECT)) by lia. by rewrite fn_insert_ne by lia.
Qed.

Lemma wp_file_block_indirect x nb l s fbn (Q : inode * Z -> mk -> Prop) :
  stored (mk_img s) (mk_freeblock s) x nb l -> fbn + 1 = nb \/ fbn = nb -> NDIRECT <= fbn < MAXFILE -> mk_len s = FSSIZE ->
  59 <= mk_freeblock s <= FSSIZE -> (fbn = nb -> mk_freeblock s + (if nb =? NDIRECT then 2 else 1) <= FSSIZE) -> (forall b o, mk_freeblock s <= b -> mk_img s b o = 0) ->
  (forall x1 b s1, located x nb l s fbn x1 b s1 -> Q (x1, b) s1) -> wp (file_block io x fbn) s Q.
Proof.
  assert (HN : NDIRECT = 12) by done. intros Hs Hf Hd Hlen Hle Hroom Hz HQ. pose proof (addr_word _ _ _ _ _ NDIRECT Hs ltac:(lia) ltac:(fs_lia)) as Hw. unfold file_block. rewrite (proj2 (Z.ltb_ge fbn NDIRECT)) by lia. rewrite !xint_id by done.
  change (i_addrs x NDIRECT) with (ind x) in *. assert (Hw32 : FSSIZE < W32 - 1) by (unfold FSSIZE, W32; lia). pose proof (sd_ind _ _ _ _ _ Hs) as Hind.
  assert (Hb : ind x <> 0 -> blk (mk_img s) x fbn = load32 (mk_img s (ind x)) (4 * (fbn - NDIRECT))).
  { intros H. unfold blk. by rewrite (proj2 (Z.ltb_ge fbn NDIRECT)), (proj2 (Z.eqb_neq _ 0)) by lia. }
  destruct Hf as [Hf|Hf]; [|destruct (Z.eq_dec nb NDIRECT) as [En|En]].
  - rewrite (proj2 (Z.ltb_lt NDIRECT nb)) in Hind by lia. rewrite (proj2 (Z.eqb_neq (ind x) 0)) by lia. apply wp_ret_bind. change (i_addrs x NDIRECT) with (ind x). rewrite xint_id by done.
    apply wp_bind. apply wp_rsect; [lia|]. rewrite <- Hb by lia. pose proof (sd_blk _ _ _ _ _ Hs fbn ltac:(lia)) as Hr. rewrite (proj2 (Z.eqb_neq _ 0)) by lia.
    apply wp_ret_bind. apply wp_ret. rewrite <- Hb, xint_id by lia. apply HQ. unfold located. split_and!; try done. by left.
  - rewrite (proj2 (Z.ltb_ge NDIRECT nb)) in Hind by lia. rewrite Hind. specialize (Hroom Hf). rewrite En, Z.eqb_refl in Hroom. simpl (0 =? 0). cbv iota.
    apply wp_bind, wp_bind. apply wp_next_block; [lia|]. apply wp_ret. set (hi := mk_freeblock s) in *. rewrite (xint_id hi) by lia. simpl i_addrs. rewrite fn_insert_eq, xint_id by lia.
    apply wp_bind. apply wp_rsect; [simpl; lia|]. cbn [mk_img set_freeblock]. assert (El : load32 (mk_img s hi) (4 * (fbn - NDIRECT)) = 0) by (unfold load32; rewrite !Hz by lia; done). rewrite El. simpl (0 =? 0). cbv iota.
    apply wp_bind, wp_bind. apply wp_next_block; [simpl; lia|]. apply wp_bind. apply wp_wsect; [simpl; lia|]. apply wp_ret. apply wp_ret. cbn [mk_freeblock set_freeblock]. fold hi.
    rewrite (xint_id (hi + 1)) by lia. rewrite load32_store32, xint_id by lia. apply HQ. unfold located. simpl. set (img1 := <[hi := _]> (mk_img s)).
    assert (Ebk : forall i, 0 <= i < MAXFILE -> blk img1 (inode_addr NDIRECT hi x) i = if i =? nb then hi + 1 else blk (mk_img s) x i).
    { intros i Hi. unfold blk, ind. simpl. rewrite fn_insert_eq, (proj2 (Z.eqb_neq hi 0)) by lia. change (i_addrs x NDIRECT) with (ind x). rewrite Hind. unfold img1. rewrite fn_insert_eq. destruct (Z.ltb_spec i NDIRECT).
      - rewrite fn_insert_ne by lia. by rewrite (proj2 (Z.eqb_neq i nb)) by lia.
      - simpl. destruct (Z.eqb_spec i nb) as [->|Hne]; [rewrite <- Hf; apply load32_store32; lia|]. rewrite load32_store32_ne by lia. unfold load32. rewrite !Hz by lia. done. }
    split_and!; try done; [rewrite Ebk by lia; by rewrite Hf, Z.eqb_refl|]. right. split; [done|]. fold hi. apply extend; try done.
    + lia.
    + lia.
    + rewrite En, Z.eqb_refl. simpl. lia.
    + intros i Hi. rewrite Ebk by done. simpl. destruct (i =? nb); [lia|done].
    + unfold ind. simpl. by rewrite fn_insert_eq, En, Z.eqb_refl.
    + intros b H. unfold img1. apply fn_insert_ne. intros ->. apply H. split; [lia|]. unfold ind. simpl. by rewrite fn_insert_eq.
  - rewrite (proj2 (Z.ltb_lt NDIRECT nb)) in Hind by lia. rewrite (proj2 (Z.eqb_neq (ind x) 0)) by lia. specialize (Hroom Hf). rewrite (proj2 (Z.eqb_neq nb NDIRECT)) in Hroom by done.
    apply wp_ret_bind. change (i_addrs x NDIRECT) with (ind x). rewrite xint_id by done. apply wp_bind. apply wp_rsect; [lia|].
    assert (El : load32 (mk_img s (ind x)) (4 * (fbn - NDIRECT)) = 0) by (rewrite <- Hb by lia; apply (sd_none _ _ _ _ _ Hs); lia). rewrite El. simpl (0 =? 0). cbv iota.
    set (hi := mk_freeblock s) in *. apply wp_bind, wp_bind. apply wp_next_block; [lia|]. apply wp_bind. fold hi. rewrite (xint_id hi) by lia. apply wp_wsect; [simpl; lia|]. apply wp_ret. apply wp_ret.
    rewrite load32_store32, xint_id by lia. apply HQ. unfold located. simpl. set (img1 := <[ind x := _]> (mk_img s)).
    assert (Ebk : forall i, 0 <= i < MAXFILE -> blk img1 x i = if i =? nb then hi else blk (mk_img s) x i).
    { intros i Hi. unfold blk. destruct (Z.ltb_spec i NDIRECT); [by rewrite (proj2 (Z.eqb_neq i nb)) by lia|]. rewrite (proj2 (Z.eqb_neq (ind x) 0)) by lia. unfold img1. rewrite fn_insert_eq.
      destruct (Z.eqb_spec i nb) as [->|Hne]; [rewrite <- Hf; apply load32_store32; lia|]. by rewrite load32_store32_ne by lia. }
    split_and!; try done; [rewrite Ebk by lia; by rewrite Hf, Z.eqb_refl|]. right. split; [done|]. fold hi. apply extend; try done.
    + lia.
    + lia.
    + by rewrite (proj2 (Z.eqb_neq nb NDIRECT)) by done.
    + intros i Hi. rewrite Ebk by done. simpl. destruct (i =? nb); [lia|done].
    + by rewrite (proj2 (Z.eqb_neq nb NDIRECT)) by done.
    + intros b H. unfold img1. apply fn_insert_ne. intros ->. apply H. split; [lia|done].
Qed.

Lemma wp_file_block L k x l s (Q : inode * Z -> mk -> Prop) :
  let nb := nblk (size l) in let fbn := size l / BSIZE in
  disk_ok L (Some k) s -> L !! k = Some (x, l) -> fbn < MAXFILE -> (fbn = nb -> mk_freeblock s + (if nb =? NDIRECT then 2 else 1) <= FSSIZE) ->
  (forall x1 b s1, located x nb l s fbn x1 b s1 -> Q (x1, b) s1) -> wp (file_block io x fbn) s Q.
Proof.
  intros nb fbn Hd Hk Hmax Hroom HQ. destruct (dk_file _ _ _ Hd _ _ _ Hk) as [Hs _]. destruct (nblk_next (size l) ltac:(unfold size; lia)) as [H0 Hn]. fold fbn nb in H0, Hn.
  pose proof (dk_room _ _ _ Hd). pose proof (dk_zero _ _ _ Hd). destruct (Z_lt_dec fbn NDIRECT).
  - apply (wp_file_block_direct x nb l); try done; lia.
  - apply (wp_file_block_indirect x nb l); try done; [lia|lia|apply Hd].
Qed.

Lemma bytes_of_app mp p n m : 0 <= n -> 0 <= m -> bytes_of mp p n ++ bytes_of mp (p + n) m = bytes_of mp p (n + m).
Proof.
  intros Hn Hm. unfold bytes_of. rewrite Z2Nat.inj_add, seq_app, fmap_app by lia. f_equal. simpl.
  replace (seq (Z.to_nat n) (Z.to_nat m)) with (Nat.add (Z.to_nat n) <$> seq 0 (Z.to_nat m)) by (by rewrite fmap_add_seq, Nat.add_0_r). rewrite <- list_fmap_compose.
  apply list_fmap_ext. intros i j _. simpl. f_equal. lia.
Qed.

(** What an iteration of the loop leaves. *)
Lemma append_step L k x l s x1 b s1 mp p n :
  let nb := nblk (size l) in let fbn := size l / BSIZE in
  disk_ok L (Some k) s -> L !! k = Some (x, l) -> located x nb l s fbn x1 b s1 -> mk_freeblock s1 <= FSSIZE -> 0 < n -> size l + n <= (fbn + 1) * BSIZE ->
  b < FSSIZE /\ i_type x1 = i_type x /\ mk_freeblock s1 = mk_freeblock s + need (size l + n) - need (size l) /\
  disk_ok (<[k := (x1, l ++ bytes_of mp p n)]> L) (Some k) (set_img (<[b := memcopy (mk_img s1 b) (size l - fbn * BSIZE) mp p n]> (mk_img s1)) (mk_len s1) s1).
Proof.
  intros nb fbn Hd Hk (E1 & E2 & E3 & Eb & Hcase) Hroom Hn Hfit. destruct (dk_file _ _ _ Hd _ _ _ Hk) as [Hs Hpl].
  destruct (nblk_next (size l) ltac:(unfold size; lia)) as [H0 Hnb]. fold fbn nb in H0, Hnb.
  assert (Enb : nblk (size l + n) = fbn + 1) by (apply nblk_step; [unfold size; lia|lia|done]).
  assert (Es : size (l ++ bytes_of mp p n) = size l + n) by (unfold size; rewrite length_app, Nat2Z.inj_add, bytes_of_length by lia; done).
  assert (Hst : stored (mk_img s1) (mk_freeblock s1) x1 (fbn + 1) l /\ i_type x1 = i_type x /\ plain_inode x1 /\ mk_freeblock s <= mk_freeblock s1 /\
    mk_freeblock s1 = mk_freeblock s + need (size l + n) - need (size l) /\
    (forall c, c < mk_freeblock s \/ mk_freeblock s1 <= c -> ~ owns (mk_img s) x nb c -> mk_img s1 c = mk_img s c) /\
    (forall c, owns (mk_img s1) x1 (fbn + 1) c -> owns (mk_img s) x nb c \/ mk_freeblock s <= c < mk_freeblock s1)).
  { unfold need. rewrite Enb. fold nb. destruct Hcase as [(Hf & -> & ->)|(Hf & [X1 (F1 & F2 & F3 & F4) X3 X4 X5])].
    - rewrite Hf. split; [done|]. split; [done|]. split; [done|]. split; [lia|]. split; [lia|]. split; [done|]. intros c Hc. by left.
    - rewrite Hf. split; [done|]. split; [done|]. split; [unfold plain_inode; by rewrite F1, F2, F3, F4|]. split; [destruct (nb =? NDIRECT); lia|]. split; [|by split].
      rewrite X3. zcases; lia. }
  destruct Hst as (Hst & Hty & Hpl1 & Hge & Hfree & Hsame & Hown).
  destruct (stored_fill _ _ _ _ _ Hst mp p n (size l) eq_refl) as [Hfill Hown2]; [fold fbn; lia|lia|done|]. fold fbn in Hfill, Hown2. rewrite <- Eb in Hfill, Hown2.
  assert (Hbo : owns (mk_img s1) x1 (fbn + 1) b) by (right; exists fbn; split; [lia|done]). pose proof (owns_range _ _ _ _ _ Hst b Hbo) as Hbr.
  split; [lia|]. split; [done|]. split; [done|]. eapply (disk_update L k x l s); [done|done|done|done|done|split; [exact Hge|exact Hroom]| | |done| |].
  - simpl. rewrite Es. exact Hfree.
  - simpl. rewrite Es, Enb. exact Hfill.
  - simpl. intros c Hc Hno. rewrite fn_insert_ne; [by apply Hsame|]. intros ->. destruct (Hown b Hbo) as [H|H]; [done|lia].
  - simpl. rewrite Es, Enb. intros c Hc. by apply Hown, Hown2.
Qed.

Lemma need_step n m : 0 <= n -> 0 < m -> n + m <= (n / BSIZE + 1) * BSIZE -> n / BSIZE = nblk n ->
  need (n + m) - need n = if nblk n =? NDIRECT then 2 else 1.
Proof. intros H1 H2 H3 H4. unfold need. rewrite nblk_step by done. rewrite H4. zcases; lia. Qed.

Lemma wp_iappend_loop fuel : forall L k x l s mp p n (Q : inode * Z -> mk -> Prop),
  disk_ok L (Some k) s -> L !! k = Some (x, l) -> 0 <= n < Z.of_nat fuel -> size l + n <= MAXFILE * BSIZE ->
  mk_freeblock s + need (size l + n) - need (size l) <= FSSIZE ->
  (forall x1 s1, i_type x1 = i_type x -> disk_ok (<[k := (x1, l ++ bytes_of mp p n)]> L) (Some k) s1 -> Q (x1, size l + n) s1) ->
  wp (iappend_loop io fuel x (size l) mp p n) s Q.
Proof.
  induction fuel as [|fuel IH]; intros L k x l s mp p n Q Hd Hk Hn Hmax Hroom HQ; [lia|]. cbn [iappend_loop]. assert (Hl : 0 <= size l) by (unfold size; lia).
  destruct (Z.ltb_spec 0 n) as [Hpos|Hz].
  2:{ apply wp_ret. replace n with 0 in * by lia. rewrite Z.add_0_r in HQ. apply HQ; [done|]. unfold bytes_of. simpl. by rewrite app_nil_r, list_insert_id. }
  set (fbn := size l / BSIZE). pose proof (Z.div_mod (size l) BSIZE ltac:(done)) as Em. fold fbn in Em. pose proof (Z.mod_pos_bound (size l) BSIZE ltac:(done)) as Hm.
  assert (Hf : fbn < MAXFILE) by (apply Z.div_lt_upper_bound; [done|lia]). rewrite (proj2 (Z.ltb_lt _ _) Hf). simpl assert. apply wp_ret_bind.
  set (n1 := Z.min n ((fbn + 1) * BSIZE - size l)). assert (Hn1 : 0 < n1 <= n /\ size l + n1 <= (fbn + 1) * BSIZE) by (unfold n1; unfold BSIZE in *; lia).
  pose proof (need_mono (size l + n1) (size l + n) ltac:(lia)) as Hmono. pose proof (dk_room _ _ _ Hd) as Hdr.
  assert (Hr : fbn = nblk (size l) -> mk_freeblock s + (if nblk (size l) =? NDIRECT then 2 else 1) <= FSSIZE).
  { intros E. rewrite <- (need_step (size l) n1); [lia|done|lia|apply Hn1|done]. }
  apply wp_bind. apply (wp_file_block L k x l s); [done|done|done|done|]. intros x1 b s1 Hloc. cbv beta iota zeta. fold fbn n1.
  assert (Hr1 : mk_freeblock s1 <= FSSIZE). { destruct Hloc as (_ & _ & _ & _ & [(_ & _ & ->)|(E & X)]); [lia|]. rewrite (ex_hi _ _ _ _ _ _ _ _ X). by apply Hr. }
  destruct (append_step L k x l s x1 b s1 mp p n1 Hd Hk Hloc Hr1) as (Hb & Hty & Hfr & Hd1); [lia|apply Hn1|]. fold fbn in Hd1.
  pose proof Hloc as (E1 & E2 & E3 & _). pose proof (dk_len _ _ _ Hd) as El. apply wp_bind. apply wp_rsect; [lia|]. apply wp_bind. apply wp_wsect; [lia|].
  set (s2 := set_img _ _ s1) in *. set (l1 := l ++ bytes_of mp p n1) in *. assert (Es : size l1 = size l + n1) by (unfold size, l1; rewrite length_app, Nat2Z.inj_add, bytes_of_length by lia; done).
  rewrite <- Es. apply (IH (<[k := (x1, l1)]> L) k x1 l1); [done|by apply list_lookup_insert_eq; eapply lookup_lt_Some|lia|lia| |].
  - change (mk_freeblock s2) with (mk_freeblock s1). rewrite Es, Hfr. replace (size l + n1 + (n - n1)) with (size l + n) by lia. lia.
  - intros x2 s3 Ht Hd3. replace (size l1 + (n - n1)) with (size l + n) by lia. apply HQ; [congruence|]. rewrite list_insert_insert_eq in Hd3.
    unfold l1 in Hd3. rewrite <- app_assoc, bytes_of_app in Hd3 by lia. replace (n1 + (n - n1)) with n in Hd3 by lia. done.
Qed.

Lemma wp_rinode L k x l s (Q : inode -> mk -> Prop) : disk_ok L None s -> L !! k = Some (x, l) ->
  (forall y, i_type y = i_type x -> i_size y = size l -> plain_inode y -> (forall i, 0 <= i <= NDIRECT -> i_addrs y i = i_addrs x i) -> Q y s) ->
  wp (rinode io (Z.of_nat k + 1)) s Q.
Proof.
  intros Hd Hk HQ. pose proof (lookup_lt_Some _ _ _ Hk) as Hlt. pose proof (dk_count _ _ _ Hd). pose proof (iblock_place (Z.of_nat k + 1) ltac:(lia)) as Hbn.
  destruct (dk_disk _ _ _ Hd _ _ _ Hk ltac:(done)) as [Es [I1 I2 I3 I4 I5 I6]]. destruct (dk_file _ _ _ Hd _ _ _ Hk) as [_ (P1 & P2 & P3 & P4)].
  unfold rinode. apply wp_gets_bind. rewrite (dk_sb _ _ _ Hd). apply wp_bind. apply wp_rsect; [rewrite (dk_len _ _ _ Hd); unfold FSSIZE; lia|]. apply wp_ret.
  apply HQ; simpl; [done|by rewrite I5|unfold plain_inode; simpl; by rewrite I1, I2, I3, I4|].
  intros i Hi. rewrite (proj2 (Z.leb_le 0 i)), (proj2 (Z.leb_le i NDIRECT)) by lia. by apply I6.
Qed.

Lemma wp_winode L k x l s n (Q : unit -> mk -> Prop) : disk_ok L (Some k) s -> L !! k = Some (x, l) -> n = size l -> size l <= MAXFILE * BSIZE ->
  (forall s1, disk_ok (<[k := (inode_size (size l) x, l)]> L) None s1 -> Q tt s1) -> wp (winode io (Z.of_nat k + 1) (inode_size n x)) s Q.
Proof.
  intros Hd Hk -> Hmax HQ. pose proof (lookup_lt_Some _ _ _ Hk) as Hlt. pose proof (dk_count _ _ _ Hd). pose proof (iblock_place (Z.of_nat k + 1) ltac:(lia)) as Hbn.
  assert (Hlen : IBLOCK (Z.of_nat k + 1) SB < mk_len s) by (rewrite (dk_len _ _ _ Hd); unfold FSSIZE; lia).
  unfold winode. apply wp_gets_bind. rewrite (dk_sb _ _ _ Hd). apply wp_bind. apply wp_rsect; [done|]. apply wp_wsect; [done|]. apply HQ. by apply disk_close.
Qed.

(** [iappend] adds the bytes to the file. *)
Lemma wp_iappend L k x l s mp p n (Q : unit -> mk -> Prop) : disk_ok L None s -> L !! k = Some (x, l) -> 0 <= n -> size l + n <= MAXFILE * BSIZE ->
  mk_freeblock s + need (size l + n) - need (size l) <= FSSIZE ->
  (forall x1 s1, i_type x1 = i_type x -> disk_ok (<[k := (x1, l ++ bytes_of mp p n)]> L) None s1 -> Q tt s1) ->
  wp (iappend io (Z.of_nat k + 1) mp p n) s Q.
Proof.
  intros Hd Hk Hn Hmax Hroom HQ. pose proof (lookup_lt_Some _ _ _ Hk) as Hlt. assert (Hw : 0 <= size l /\ size l + n < W32) by (unfold size, W32 in *; fs_lia).
  unfold iappend. apply wp_bind. apply (wp_rinode L k x l s _ Hd Hk). intros y Et Es Hp Ha. rewrite Es, xint_id by lia. apply wp_bind.
  apply (wp_iappend_loop (S (Z.to_nat n)) (<[k := (y, l)]> L) k y l); [by apply (disk_open L k x)|by apply list_lookup_insert_eq|lia|done|done|].
  intros x1 s1 Et1 Hd1. rewrite list_insert_insert_eq in Hd1. cbv beta iota. rewrite xint_id by lia.
  assert (Esz : size (l ++ bytes_of mp p n) = size l + n) by (unfold size; rewrite length_app, Nat2Z.inj_add, bytes_of_length by lia; done).
  eapply (wp_winode _ k x1 (l ++ bytes_of mp p n)); [exact Hd1|by apply list_lookup_insert_eq|by rewrite Esz|by rewrite Esz|].
  intros s2 Hd2. rewrite list_insert_insert_eq in Hd2. eapply HQ; [|exact Hd2]. simpl. congruence.
Qed.

(** The inode of a new file, which is empty. *)
Lemma disk_new L s type : disk_ok L None s -> Z.of_nat (length L) + 1 < NINODES -> 0 <= type < 100 ->
  let x := inode_disk type 0 0 1 0 (fun _ => 0) zero_inode in
  disk_ok (L ++ [(x, [])]) (Some (length L)) (set_freeinode (mk_freeinode s + 1) s).
Proof.
  intros [D1 D2 D3 D4 D5 D6 D7 D8 D9 D10 D11] Hlt Hty x.
  assert (Hcase : forall i y m, (L ++ [(x, [])]) !! i = Some (y, m) -> L !! i = Some (y, m) \/ i = length L /\ y = x /\ m = []).
  { intros i y m H. apply lookup_app_Some in H as [H|[H1 H2]]; [by left|]. right. apply list_lookup_singleton_Some in H2 as [H2 [= <- <-]]. split; [lia|done]. }
  assert (Hs : stored (mk_img s) (mk_freeblock s) x (nblk (size [])) []).
  { assert (Eb : forall b, blk (mk_img s) x b = 0) by (intros b; unfold blk; by destruct (b <? NDIRECT)). change (nblk (size [])) with 0. split; try done; try lia; try (intros; lia). }
  assert (Hno : forall b, owns (mk_img s) x (nblk (size [])) b -> False) by (change (nblk (size [])) with 0; intros b [[H _]|(i & Hi & _)]; [done|lia]).
  split; simpl; try done.
  - rewrite length_app. simpl. lia.
  - rewrite length_app. simpl. lia.
  - rewrite total_app. simpl. change (need (size [])) with 0. lia.
  - intros i y m H. destruct (Hcase _ _ _ H) as [H1|(-> & -> & ->)]; [by eauto|]. split; [done|]. by split.
  - intros i j y m z q b Hij Hi Hj Hy Hz. destruct (Hcase _ _ _ Hi) as [H1|(-> & -> & ->)], (Hcase _ _ _ Hj) as [H2|(-> & -> & ->)];
      [by apply (D10 i j y m z q b)|by apply (Hno b)|by apply (Hno b)|done].
  - intros i y m H Hop. destruct (Hcase _ _ _ H) as [H1|(-> & _)]; [by eauto|done].
Qed.

Lemma wp_mk_ialloc L s type (Q : Z -> mk -> Prop) : disk_ok L None s -> Z.of_nat (length L) + 1 < NINODES -> 0 <= type < 100 ->
  (forall x s1, i_type x = type -> disk_ok (L ++ [(x, [])]) None s1 -> Q (Z.of_nat (length L) + 1) s1) -> wp (mk_ialloc io type) s Q.
Proof.
  intros Hd Hlt Hty HQ. unfold mk_ialloc. apply wp_gets_bind. rewrite (dk_inode _ _ _ Hd). rewrite uint32_small by (unfold W32, NINODES in *; lia).
  apply wp_modify_bind. rewrite !xshort_id by lia. rewrite !int16_small by lia. change (xint 0) with 0. apply wp_bind.
  set (x := inode_disk type 0 0 1 0 (fun _ => 0) zero_inode). change x with (inode_size 0 x).
  pose proof (disk_new L s type Hd Hlt Hty) as Hd1. rewrite (dk_inode _ _ _ Hd) in Hd1.
  eapply (wp_winode (L ++ [(x, [])]) (length L) x []); [exact Hd1|by rewrite lookup_app_r, Nat.sub_diag by lia|done|done|].
  intros s1 H1. apply wp_ret. eapply HQ; [|rewrite insert_app_r_alt, Nat.sub_diag in H1 by lia; exact H1]. done.
Qed.

(** ** The files *)

Lemma bytes_of_list l : bytes_of (bytes_mem l) 0 (size l) = l.
Proof.
  unfold bytes_of, size. rewrite Nat2Z.id. apply list_eq. intros i. rewrite list_lookup_fmap. unfold bytes_mem. destruct (decide (i < length l)%nat) as [H|H].
  - rewrite lookup_seq_lt by done. cbn [fmap option_fmap option_map]. replace (Z.to_nat (0 + Z.of_nat (0 + i))) with i by lia. destruct (lookup_lt_is_Some_2 _ _ H) as [c ->]. done.
  - rewrite !lookup_ge_None_2; [done|lia|rewrite length_seq; lia].
Qed.

Lemma wp_copy_file reads : forall L k x l s (Q : unit -> mk -> Prop), disk_ok L None s -> L !! k = Some (x, l) ->
  size (l ++ file_data reads) <= MAXFILE * BSIZE -> mk_freeblock s + need (size (l ++ file_data reads)) - need (size l) <= FSSIZE ->
  (forall x1 s1, i_type x1 = i_type x -> disk_ok (<[k := (x1, l ++ file_data reads)]> L) None s1 -> Q tt s1) -> wp (copy_file io (Z.of_nat k + 1) reads) s Q.
Proof.
  induction reads as [|b reads IH]; intros L k x l s Q Hd Hk Hmax Hroom HQ.
  { apply wp_ret. apply (HQ x); [done|]. simpl. by rewrite app_nil_r, list_insert_id. }
  destruct b as [|c b]. { apply wp_ret. apply (HQ x); [done|]. simpl. by rewrite app_nil_r, list_insert_id. }
  cbn [copy_file file_data] in *. set (buf := c :: b) in *. rewrite app_assoc in *.
  assert (Es : forall u v : list Z, size (u ++ v) = size u + size v) by (intros u v; unfold size; rewrite length_app; lia).
  assert (H0 : 0 <= size (file_data reads)) by (unfold size; lia). pose proof (need_mono (size (l ++ buf)) (size ((l ++ buf) ++ file_data reads)) ltac:(rewrite (Es (l ++ buf)); lia)) as Hm.
  pose proof (Es (l ++ buf) (file_data reads)) as Es1. pose proof (Es l buf) as Es2. assert (Hb0 : 0 <= size buf) by (unfold size; lia).
  apply wp_bind. apply (wp_iappend L k x l); [done|done|done|change (size l + size buf <= MAXFILE * BSIZE); lia|change (Z.of_nat (length buf)) with (size buf); rewrite <- Es2; lia|].
  intros x1 s1 Et Hd1. rewrite bytes_of_list in Hd1. pose proof (lookup_lt_Some _ _ _ Hk) as Hlt.
  apply (IH (<[k := (x1, l ++ buf)]> L) k x1 (l ++ buf)); [done|by apply list_lookup_insert_eq|done| |].
  - pose proof (dk_free _ _ _ Hd1) as E1. rewrite (total_insert _ _ _ _ _ _ Hk) in E1. rewrite (dk_free _ _ _ Hd) in Hroom. lia.
  - intros x2 s2 Et2 Hd2. apply (HQ x2); [congruence|]. by rewrite list_insert_insert_eq in Hd2.
Qed.

Context (creat : list Z -> bool) (host : list Z -> option (list (list Z))).

(** What the host has under the name. *)
Definition data_of (arg : list Z) : list Z := file_data (default [] (host arg)).

Lemma wp_add_file L xr r arg s (Q : unit -> mk -> Prop) : disk_ok L None s -> L !! 0%nat = Some (xr, r) ->
  slash ∉ arg -> is_Some (host arg) -> size r + DIRENT <= MAXFILE * BSIZE -> size (data_of arg) <= MAXFILE * BSIZE -> Z.of_nat (length L) + 1 < NINODES ->
  59 + total L - need (size r) + need (size r + DIRENT) + need (size (data_of arg)) <= FSSIZE ->
  (forall xr1 x s1, i_type xr1 = i_type xr -> i_type x = T_FILE ->
    disk_ok (<[0%nat := (xr1, r ++ dirent_bytes (Z.of_nat (length L) + 1) (skip_underscore arg))]> L ++ [(x, data_of arg)]) None s1 -> Q tt s1) ->
  wp (add_file io host ROOTINO arg) s Q.
Proof.
  intros Hd H0 Hsl [reads Hh] Hr Hf Hn Hroom HQ. pose proof (lookup_lt_Some _ _ _ H0) as Hlt. unfold add_file. rewrite bool_decide_false by done. simpl assert. apply wp_ret_bind. rewrite Hh.
  unfold data_of in *. rewrite Hh in *. simpl in Hf, Hroom. assert (0 <= need (size (file_data reads))) by (apply (need_mono 0); unfold size; lia).
  apply wp_bind. apply (wp_mk_ialloc L); [done|done|done|]. intros x s1 Ex Hd1. set (L1 := L ++ [(x, [])]) in *.
  assert (H10 : L1 !! 0%nat = Some (xr, r)) by (unfold L1; by rewrite lookup_app_l by lia). pose proof (dk_free _ _ _ Hd1) as E1.
  assert (Et1 : total L1 = total L) by (unfold L1; rewrite total_app; simpl; change (need (size [])) with 0; lia).
  apply wp_bind. change ROOTINO with (Z.of_nat 0 + 1). apply (wp_iappend L1 0 xr r); [done|done|done|done|lia|]. intros xr1 s2 Er Hd2.
  set (L2 := <[0%nat := _]> L1) in *. assert (H2 : L2 !! length L = Some (x, [])).
  { unfold L2, L1. rewrite list_lookup_insert_ne by lia. by rewrite lookup_app_r, Nat.sub_diag by lia. }
  assert (Esz : size (r ++ bytes_of (strncpy (new_dirent (Z.of_nat (length L) + 1)) de_name (bytes_mem (skip_underscore arg)) 0 DIRSIZ) 0 DIRENT) = size r + DIRENT).
  { unfold size. rewrite length_app, Nat2Z.inj_add, bytes_of_length by done. done. }
  pose proof (dk_free _ _ _ Hd2) as E2. unfold L2 in E2. rewrite (total_insert _ _ _ _ _ _ H10), Esz in E2.
  apply (wp_copy_file reads L2 (length L) x []); [done|done|done|simpl; change (need (size [])) with 0; lia|].
  intros x2 s3 Ex2 Hd3. apply (HQ xr1 x2); [done|congruence|]. simpl in Hd3.
  unfold L2, L1 in Hd3. rewrite insert_app_l, insert_app_r_alt, length_insert, Nat.sub_diag in Hd3 by (rewrite ?length_insert; lia). exact Hd3.
Qed.

Definition good_arg (arg : list Z) : Prop := (slash ∉ arg) /\ is_Some (host arg) /\ size (data_of arg) <= MAXFILE * BSIZE.

Definition room_for (args : list (list Z)) : Z := foldr (fun a t => need (size (data_of a)) + t) 0 args.

Lemma size_app (u v : list Z) : size (u ++ v) = size u + size v.
Proof. unfold size. rewrite length_app. lia. Qed.

Lemma size_dirent n name : size (dirent_bytes n name) = DIRENT.
Proof. unfold size, dirent_bytes. by rewrite bytes_of_length by done. Qed.

Lemma wp_add_files args : forall L xr r s (Q : unit -> mk -> Prop), disk_ok L None s -> L !! 0%nat = Some (xr, r) -> Forall good_arg args ->
  size r + DIRENT * Z.of_nat (length args) <= MAXFILE * BSIZE -> Z.of_nat (length L) + Z.of_nat (length args) < NINODES ->
  59 + total L - need (size r) + need (size r + DIRENT * Z.of_nat (length args)) + room_for args <= FSSIZE ->
  (forall xr1 N s1, i_type xr1 = i_type xr -> N.*2 = (data_of <$> args) -> Forall (fun p => i_type p.1 = T_FILE) N ->
    disk_ok (<[0%nat := (xr1, r ++ dirents (Z.of_nat (length L) + 1) args)]> L ++ N) None s1 -> Q tt s1) ->
  wp (add_files io host ROOTINO args) s Q.
Proof.
  induction args as [|arg args IH]; intros L xr r s Q Hd H0 Hg Hr Hn Hroom HQ.
  { apply wp_ret. apply (HQ xr []); [done|done|constructor|]. simpl. by rewrite !app_nil_r, list_insert_id. }
  apply Forall_cons in Hg as [(G1 & G2 & G3) Hg]. pose proof (lookup_lt_Some _ _ _ H0) as Hlt. cbn [add_files length room_for foldr] in *. fold (room_for args) in Hroom.
  assert (Hpos : 0 <= room_for args). { clear. induction args as [|a args IH]; simpl; [lia|]. pose proof (need_mono 0 (size (data_of a)) ltac:(unfold size; lia)). change (need 0) with 0 in *. lia. }
  assert (DIRENT = 16) as ED by done. pose proof (need_mono (size r + DIRENT) (size r + DIRENT * Z.of_nat (S (length args))) ltac:(lia)) as Hm.
  apply wp_bind. apply (wp_add_file L xr r arg); [done|done|done|done|lia|done|lia|lia|]. intros xr1 x s1 Er Ex Hd1.
  set (r1 := r ++ dirent_bytes _ (skip_underscore arg)) in *. set (L1 := <[0%nat := (xr1, r1)]> L ++ [(x, data_of arg)]) in *. assert (Es : size r1 = size r + DIRENT) by (unfold r1; by rewrite size_app, size_dirent).
  assert (Hl1 : length L1 = S (length L)) by (unfold L1; rewrite length_app, length_insert; simpl; lia).
  assert (H1 : L1 !! 0%nat = Some (xr1, r1)) by (unfold L1; rewrite lookup_app_l by (rewrite length_insert; lia); by apply list_lookup_insert_eq).
  assert (Et : total L1 = total L - need (size r) + need (size r1) + need (size (data_of arg))).
  { unfold L1. rewrite total_app, (total_insert _ _ _ _ _ _ H0). simpl. lia. }
  apply (IH L1 xr1 r1); [done|done|done|lia|lia|rewrite Et; replace (size r1 + DIRENT * Z.of_nat (length args)) with (size r + DIRENT * Z.of_nat (S (length args))) by lia; lia|].
  intros xr2 N s2 Er2 EN FN Hd2. apply (HQ xr2 ((x, data_of arg) :: N)); [congruence|by rewrite !fmap_cons, EN|by constructor|].
  rewrite Hl1 in Hd2. unfold L1, r1 in Hd2. rewrite insert_app_l, list_insert_insert_eq, <- !app_assoc in Hd2 by (rewrite length_insert; lia).
  replace (Z.of_nat (S (length L)) + 1) with (Z.of_nat (length L) + 1 + 1) in Hd2 by lia. exact Hd2.
Qed.

Lemma wp_zero_loop n : forall i s (Q : unit -> mk -> Prop), mk_len s = i -> (forall b o, mk_img s b o = 0) ->
  (forall img, (forall b o, img b o = 0) -> Q tt (set_img img (i + Z.of_nat n) s)) -> wp (zero_loop io n i) s Q.
Proof.
  induction n as [|n IH]; intros i s Q Hl Hz HQ; cbn [zero_loop].
  - apply wp_ret. replace (i + Z.of_nat 0) with (mk_len s) in HQ by lia. specialize (HQ (mk_img s) Hz). by destruct s.
  - unfold wsect. rewrite Hio. cbn [negb]. apply wp_modify_bind. apply IH.
    + simpl. lia.
    + intros b o. simpl. destruct (decide (b = i)) as [->|Hne]; [by rewrite fn_insert_eq|rewrite fn_insert_ne by done; apply Hz].
    + intros img Hi. replace (i + 1 + Z.of_nat n) with (i + Z.of_nat (S n)) by lia. by apply HQ.
Qed.

Lemma disk_start s : mk_len s = FSSIZE -> mk_sb s = SB -> mk_freeinode s = 1 -> mk_freeblock s = 59 -> (forall b o, mk_img s b o = 0) ->
  disk_ok [] None (set_img (<[1 := put_sb (fun _ => 0) SB]> (mk_img s)) (mk_len s) s).
Proof.
  intros H1 H2 H3 H4 Hz. split; cbn [set_img mk_img mk_len mk_sb mk_freeinode mk_freeblock length total foldr]; try done.
  - rewrite H4. unfold FSSIZE. lia.
  - intros b o Hb. rewrite fn_insert_ne by lia. apply Hz.
Qed.

(** The end of the root directory is filled with zeros, which are there already. *)
Lemma disk_pad L k x l s m : disk_ok L (Some k) s -> L !! k = Some (x, l) -> nblk (size l + Z.of_nat m) = nblk (size l) ->
  disk_ok (<[k := (x, l ++ replicate m 0)]> L) (Some k) s.
Proof.
  intros Hd Hk En. destruct (dk_file _ _ _ Hd _ _ _ Hk) as [Hs Hp]. pose proof (dk_room _ _ _ Hd).
  assert (Es : size (l ++ replicate m 0) = size l + Z.of_nat m) by (rewrite size_app; unfold size; by rewrite length_replicate).
  assert (Hs1 : stored (mk_img s) (mk_freeblock s) x (nblk (size l + Z.of_nat m)) (l ++ replicate m 0)).
  { rewrite En. destruct Hs as [S1 S2 S3 S4 S5 S6 S7 S8]. split; try done.
    - pose proof (nblk_bounds (size l + Z.of_nat m)) as H1. rewrite En in H1. fold (size (l ++ replicate m 0)). lia.
    - intros o Ho. rewrite S8 by done. unfold bytes_mem. destruct (decide (Z.to_nat o < length l)%nat); [by rewrite lookup_app_l by done|].
      rewrite lookup_app_r, lookup_ge_None_2 by lia. destruct (replicate m 0 !! (Z.to_nat o - length l)%nat) as [z|] eqn:Ez; [|done]. apply lookup_replicate in Ez as [-> _]. done. }
  apply (disk_update L k x l s); try done; rewrite ?Es; try done; [lia|unfold need; rewrite En; lia|]. rewrite En. intros b Hb. by left.
Qed.

(** The bytes of the root directory. *)
Definition root_bytes (args : list (list Z)) : list Z := dirent_bytes 1 [46] ++ dirent_bytes 1 [46; 46] ++ dirents 2 args.

Definition pad_root (args : list (list Z)) : list Z :=
  let n := size (root_bytes args) in root_bytes args ++ replicate (Z.to_nat ((n / BSIZE + 1) * BSIZE - n)) 0.

Lemma size_dirents n args : size (dirents n args) = DIRENT * Z.of_nat (length args).
Proof. revert n. induction args as [|a args IH]; intros n; cbn [dirents length]; [done|]. rewrite size_app, size_dirent, IH. unfold DIRENT. lia. Qed.

Lemma size_root args : size (root_bytes args) = DIRENT * (Z.of_nat (length args) + 2).
Proof. unfold root_bytes. rewrite !size_app, !size_dirent, size_dirents. unfold DIRENT. lia. Qed.

(** The image at the end: the files, and the map of the blocks in use. *)
Definition finished (args : list (list Z)) (s : mk) : Prop := exists L s0,
  disk_ok L None s0 /\ L.*2 = pad_root args :: (data_of <$> args) /\ (i_type <$> L.*1) = T_DIR :: replicate (length args) T_FILE /\
  mk_img s = <[58 := mark_loop (Z.to_nat (mk_freeblock s0)) 0 (fun _ => 0)]> (mk_img s0).

(** What mkfs has room for: the number of files, and their blocks; the last block of the root directory is not full. *)
Record fits_image (args : list (list Z)) : Prop := mkFits {
  ft_args : Forall good_arg args;
  ft_inodes : Z.of_nat (length args) + 1 < NINODES;
  ft_blocks : 59 + need (DIRENT * (Z.of_nat (length args) + 2)) + room_for args <= FSSIZE;
  ft_root : (Z.of_nat (length args) + 2) mod (BSIZE / DIRENT) <> 0
}.

Lemma pad_nblk args : fits_image args -> let n := size (root_bytes args) in let m := (n / BSIZE + 1) * BSIZE - n in
  0 < m /\ nblk (n + m) = nblk n /\ n + m <= MAXFILE * BSIZE.
Proof.
  intros [_ F2 _ F4] n m. unfold m. assert (En : n = 16 * (Z.of_nat (length args) + 2)) by apply size_root. change (BSIZE / DIRENT) with 32 in F4. unfold NINODES in F2.
  pose proof (Z.div_mod n BSIZE ltac:(done)) as E1. pose proof (Z.mod_pos_bound n BSIZE ltac:(done)) as E2. assert (E3 : n mod BSIZE <> 0).
  { intros E. apply F4. rewrite E in E1. unfold BSIZE in E1. pose proof (Z.div_mod (Z.of_nat (length args) + 2) 32 ltac:(lia)). pose proof (Z.mod_pos_bound (Z.of_nat (length args) + 2) 32 ltac:(lia)). lia. }
  unfold BSIZE in *. split; [lia|]. split; [|change (MAXFILE * 512) with 71680; lia].
  replace (n + ((n / 512 + 1) * 512 - n)) with ((n / 512 + 1) * 512) by lia. rewrite (nblk_unique _ (n / 512 + 1)) by (unfold BSIZE; lia). symmetry. apply nblk_unique. unfold BSIZE. lia.
Qed.

Lemma wp_mkfs prog img args : creat img = true -> fits_image args -> wp (mkfs io creat host (prog :: img :: args)) mk_start (fun _ s => finished args s).
Proof.
  intros Hc Hf. pose proof Hf as [F1 F2 F3 F4]. cbn [mkfs]. rewrite Hc. cbn [negb]. assert (DIRENT = 16) as ED by done. change (BSIZE mod DINODE =? 0) with true. change (BSIZE mod DIRENT =? 0) with true. cbn [assert].
  do 2 apply wp_ret_bind. do 3 apply wp_modify_bind. rewrite make_sb_is. change (2 + nlog + ninodeblocks + nbitmap) with 59.
  assert (Hpos : 0 <= room_for args). { clear. induction args as [|a args IH]; simpl; [lia|]. pose proof (need_mono 0 (size (data_of a)) ltac:(unfold size; lia)). change (need 0) with 0 in *. lia. }
  apply wp_bind. apply wp_zero_loop; [done|done|]. intros img0 Hz. apply wp_gets_bind. apply wp_bind. apply wp_wsect; [done|]. cbn [mk_sb set_img set_freeblock set_sb].
  set (s1 := set_img img0 _ _). pose proof (disk_start s1 eq_refl eq_refl eq_refl eq_refl Hz) as D1. set (s2 := set_img _ _ s1) in *. change (set_img (<[1 := _]> _) _ s1) with s2.
  apply wp_bind. apply (wp_mk_ialloc []); [done|done|done|]. intros x s3 Ex D3. change (Z.of_nat (length (@nil (inode * list Z))) + 1) with 1. change (1 =? ROOTINO) with true. cbn [assert]. apply wp_ret_bind.
  assert (H2 : need (0 + DIRENT) <= need (DIRENT * (Z.of_nat (length args) + 2)) /\ need (DIRENT + DIRENT) <= need (DIRENT * (Z.of_nat (length args) + 2))) by (split; apply need_mono; lia).
  pose proof (dk_free _ _ _ D3) as E3. cbn [total foldr snd app] in E3. change (need (size [])) with 0 in E3.
  apply wp_bind. apply (wp_iappend [(x, [])] 0 x []); [done|done|done|done|change (need (size [])) with 0; change (size []) with 0; lia|]. intros x4 s4 E4 D4. change (<[0%nat := ?p]> [_]) with [p] in D4.
  change (bytes_of (memcopy (new_dirent 1) de_name (bytes_mem [46; 0]) 0 2) 0 DIRENT) with (dirent_bytes 1 [46]) in D4. cbn [app] in D4.
  pose proof (dk_free _ _ _ D4) as E4f. cbn [total foldr snd] in E4f. rewrite size_dirent in E4f.
  apply wp_bind. apply (wp_iappend [(x4, dirent_bytes 1 [46])] 0 x4 (dirent_bytes 1 [46])); [done|done|done|done|rewrite size_dirent; lia|]. intros x5 s5 E5 D5.
  change (<[0%nat := ?p]> [_]) with [p] in D5. change (bytes_of (memcopy (new_dirent 1) de_name (bytes_mem [46; 46; 0]) 0 3) 0 DIRENT) with (dirent_bytes 1 [46; 46]) in D5.
  set (r0 := dirent_bytes 1 [46] ++ dirent_bytes 1 [46; 46]) in *. assert (Er : size r0 = 2 * DIRENT) by (unfold r0; rewrite size_app, !size_dirent; lia).
  assert (Esz : size r0 + DIRENT * Z.of_nat (length args) = DIRENT * (Z.of_nat (length args) + 2)) by lia. unfold NINODES in F2.
  apply wp_bind. apply (wp_add_files args [(x5, r0)] x5 r0); [done|done|done|rewrite Esz; change (MAXFILE * BSIZE) with 71680; lia|cbn [length]; unfold NINODES; lia|cbn [total foldr snd]; rewrite Esz; lia|].
  intros x6 N s6 E6 EN FN D6. change (<[0%nat := ?p]> [_] ++ N) with (p :: N) in D6. change (Z.of_nat (length [(x5, r0)]) + 1) with 2 in D6.
  assert (Eroot : r0 ++ dirents 2 args = root_bytes args) by (unfold r0, root_bytes; by rewrite <- app_assoc). rewrite Eroot in D6.
  destruct (pad_nblk args Hf) as (P1 & P2 & P3). set (n := size (root_bytes args)) in *. set (m := (n / BSIZE + 1) * BSIZE - n) in *.
  change ROOTINO with (Z.of_nat 0 + 1). apply wp_bind. apply (wp_rinode _ 0 x6 (root_bytes args) _ _ D6); [done|]. intros y Ey Ez Hp Ha. cbv zeta. fold n in Ez.
  assert (Hn : 0 <= n) by (unfold n, size; lia). rewrite Ez. rewrite (xint_id n) by (unfold W32; change (MAXFILE * BSIZE) with 71680 in P3; lia).
  replace ((n / BSIZE + 1) * BSIZE) with (n + m) by (unfold m; lia). rewrite xint_id by (unfold W32; change (MAXFILE * BSIZE) with 71680 in P3; lia).
  pose proof (disk_open _ 0 x6 (root_bytes args) _ y D6 eq_refl Ha Hp) as D7. change (<[0%nat := ?p]> (_ :: N)) with (p :: N) in D7.
  pose proof (disk_pad _ 0 y (root_bytes args) _ (Z.to_nat m) D7 eq_refl) as D8. rewrite Z2Nat.id in D8 by lia. specialize (D8 P2). change (<[0%nat := ?p]> (_ :: N)) with (p :: N) in D8.
  assert (Es : size (root_bytes args ++ replicate (Z.to_nat m) 0) = n + m) by (rewrite size_app; unfold n; unfold size at 2; rewrite length_replicate; lia).
  apply wp_bind. eapply (wp_winode _ 0 y (root_bytes args ++ replicate (Z.to_nat m) 0)); [exact D8|done|by rewrite Es|rewrite Es; done|]. intros s9 D9. change (<[0%nat := ?p]> (_ :: N)) with (p :: N) in D9.
  apply wp_gets_bind. pose proof (dk_room _ _ _ D9) as R9. unfold mk_balloc. rewrite (proj2 (Z.ltb_lt _ (BSIZE * 8))) by (unfold FSSIZE in R9; change (BSIZE * 8) with 4096; lia). cbn [assert]. apply wp_ret_bind.
  apply wp_gets_bind. rewrite (dk_sb _ _ _ D9). apply wp_wsect; [rewrite (dk_len _ _ _ D9); done|]. unfold finished. eexists _, s9. split; [exact D9|]. split; [|split; [|done]].
  - cbn [fmap list_fmap snd]. f_equal. exact EN.
  - cbn [fmap list_fmap fst]. f_equal; [simpl; congruence|]. apply (f_equal length) in EN. rewrite !length_fmap in EN. rewrite <- EN. clear -FN. induction FN as [|p N Hp FN IH]; [done|]. cbn [fmap list_fmap length replicate]. f_equal; [done|exact IH].
Qed.
End ops.

(** ** The image as the kernel sees it *)

Lemma mark_step buf i b : 0 <= i -> 0 <= b -> bit_set (upd buf (i / 8) (byte8 (Z.lor (buf (i / 8)) (Z.shiftl 1 (i mod 8))))) b = (b =? i) || bit_set buf b.
Proof.
  intros Hi Hb. rewrite <- set_bit_spec by done. rewrite !bit_set_testbit by done. unfold set_bit. pose proof (Z.mod_pos_bound b 8 ltac:(lia)).
  destruct (Z.eq_dec (b / 8) (i / 8)) as [E|E]; [|by rewrite !upd_ne by done]. rewrite E, !upd_eq. unfold byte8. change 256 with (2 ^ 8). apply Z.mod_pow2_bits_low. lia.
Qed.

Lemma mark_loop_spec n : forall i buf b, 0 <= i -> 0 <= b -> bit_set (mark_loop n i buf) b = inside i (Z.of_nat n) b || bit_set buf b.
Proof.
  induction n as [|n IH]; intros i buf b Hi Hb; cbn [mark_loop].
  - unfold inside. by zcases.
  - rewrite IH, mark_step by lia. unfold inside. zcases; try done; lia.
Qed.

(** A file system whose blocks are those of the image: what the kernel has after it mounts the disk. *)
Record mounted (img : Z -> mem) (f : fsst) : Prop := mkMounted {
  mt_content : forall b, content f b = img b;
  mt_sb : fs_sb f = sb_of (img 1);
  mt_size : d_size (fs_disk f) = FSSIZE;
  mt_start : lg_start (fs_log f) = sb_logstart (fs_sb f);
  mt_log : lg_size (fs_log f) = sb_nlog (fs_sb f)
}.

Section kernel.
Context (L : list (inode * list Z)) (s : mk) (Hd : disk_ok L None s) (f : fsst).
Context (Hm : mounted (<[58 := mark_loop (Z.to_nat (mk_freeblock s)) 0 (fun _ => 0)]> (mk_img s)) f).

Lemma kernel_block b : b <> 58 -> content f b = mk_img s b.
Proof. intros H. rewrite (mt_content _ _ Hm). by apply fn_insert_ne. Qed.

Lemma kernel_sb : fs_sb f = SB.
Proof. rewrite (mt_sb _ _ Hm), fn_insert_ne by done. apply Hd. Qed.

Lemma kernel_used b : 0 <= b < FSSIZE -> used f b = (b <? mk_freeblock s).
Proof.
  intros Hb. unfold used, BBLOCK. rewrite kernel_sb. change BPB with 4096. unfold FSSIZE in Hb. rewrite Z.div_small, Z.mod_small by lia. change (0 + sb_bmapstart SB) with 58.
  rewrite (mt_content _ _ Hm), fn_insert_eq, mark_loop_spec by lia. pose proof (dk_room _ _ _ Hd). unfold inside. rewrite Z2Nat.id, (proj2 (Z.leb_le 0 b)) by lia.
  rewrite Z.add_0_l. change (bit_set (fun _ => 0) b) with (negb (Z.land 0 (Z.shiftl 1 (b mod 8)) =? 0)). rewrite Z.land_0_l. simpl. apply orb_false_r.
Qed.

Lemma kernel_layout : layout f.
Proof.
  split.
  - split; rewrite ?(mt_start _ _ Hm), ?(mt_log _ _ Hm), ?(mt_size _ _ Hm), ?kernel_sb; done.
  - intros b. rewrite kernel_sb. change (data_start SB) with 59. intros Hb. rewrite kernel_used by (unfold FSSIZE; lia). pose proof (dk_room _ _ _ Hd). apply Z.ltb_lt. lia.
Qed.

(** The file [i] in the kernel. *)
Context (i : nat) (x : inode) (l : list Z) (Hi : L !! i = Some (x, l)).

Lemma kernel_inum : 1 <= Z.of_nat i + 1 < sb_ninodes (fs_sb f).
Proof. rewrite kernel_sb. pose proof (lookup_lt_Some _ _ _ Hi). pose proof (dk_count _ _ _ Hd). unfold NINODES in *. change (sb_ninodes SB) with 200. lia. Qed.

Lemma kernel_fields : let y := dnode f (Z.of_nat i + 1) in
  i_dev y = 1 /\ i_type y = i_type x /\ i_nlink y = 1 /\ i_size y = size l /\ forall j, 0 <= j <= NDIRECT -> i_addrs y j = i_addrs x j.
Proof.
  pose proof (lookup_lt_Some _ _ _ Hi). pose proof (dk_count _ _ _ Hd). pose proof (iblock_place (Z.of_nat i + 1) ltac:(lia)).
  destruct (dk_disk _ _ _ Hd _ _ _ Hi ltac:(done)) as [Es [I1 I2 I3 I4 I5 I6]]. destruct (dk_file _ _ _ Hd _ _ _ Hi) as [_ (P1 & P2 & P3 & P4)].
  unfold dnode. rewrite kernel_sb, kernel_block by lia. simpl. split_and!; [done|done|by rewrite I4|by rewrite I5|].
  intros j Hj. rewrite (proj2 (Z.leb_le 0 j)), (proj2 (Z.leb_le j NDIRECT)) by lia. by apply I6.
Qed.

Lemma kernel_iblock b : 0 <= b < MAXFILE -> iblock f (dnode f (Z.of_nat i + 1)) b = blk (mk_img s) x b.
Proof.
  intros Hb. destruct kernel_fields as (_ & _ & _ & _ & Ha). destruct (dk_file _ _ _ Hd _ _ _ Hi) as [Hs _]. pose proof (sd_ind _ _ _ _ _ Hs) as Hn. unfold iblock, blk, ind in *. rewrite (Ha NDIRECT) by fs_lia.
  destruct (Z.ltb_spec b NDIRECT); [apply Ha; lia|]. destruct (Z.eqb_spec (i_addrs x NDIRECT) 0) as [E|E]; [done|]. rewrite kernel_block; [done|]. destruct (NDIRECT <? nblk (size l)); lia.
Qed.

Lemma kernel_byte o : 0 <= o < size l -> fbyte f (dnode f (Z.of_nat i + 1)) o = bytes_mem l o.
Proof.
  intros Ho. destruct (dk_file _ _ _ Hd _ _ _ Hi) as [Hs _]. pose proof Hs as [S1 S2 S3 S4 S5 S6 S7 S8]. pose proof (nblk_bounds (size l)) as Hn.
  assert (Hq : 0 <= o / BSIZE < nblk (size l)) by (split; [apply Z.div_pos; [lia|done]|apply Z.div_lt_upper_bound; [done|lia]]).
  unfold fbyte. rewrite kernel_iblock by lia. specialize (S3 _ Hq). rewrite kernel_block by lia. apply S8. lia.
Qed.

Lemma kernel_file : file_ok f (dnode f (Z.of_nat i + 1)).
Proof.
  destruct kernel_fields as (F1 & F2 & F3 & F4 & F5). destruct (dk_file _ _ _ Hd _ _ _ Hi) as [Hs _]. pose proof Hs as [S1 S2 S3 S4 S5 S6 S7 S8]. pose proof (nblk_bounds (size l)) as Hn.
  pose proof (dk_room _ _ _ Hd) as Hr. set (nb := nblk (size l)) in *. assert (Hdb : forall b, 59 <= b < mk_freeblock s -> data_block f b).
  { intros b Hb. split; [rewrite kernel_sb; change (59 <= b < FSSIZE); lia|]. rewrite kernel_used by lia. apply Z.ltb_lt. lia. }
  assert (Ein : ind (dnode f (Z.of_nat i + 1)) = ind x) by (apply F5; fs_lia).
  assert (Hnz : forall b, 0 <= b < MAXFILE -> iblock f (dnode f (Z.of_nat i + 1)) b <> 0 -> b < nb).
  { intros b Hb. rewrite kernel_iblock by done. destruct (Z_lt_dec b nb); [done|]. by rewrite S4 by lia. }
  split.
  - exact F1.
  - rewrite F4. split; [unfold size; lia|]. unfold size. assert (nb * BSIZE <= MAXFILE * BSIZE) by (apply Z.mul_le_mono_nonneg_r; [done|lia]). lia.
  - intros b Hb Hne. specialize (Hnz b Hb Hne). rewrite kernel_iblock by done. apply Hdb, S3. lia.
  - rewrite Ein. intros Hne. apply Hdb. destruct (NDIRECT <? nb); [done|by destruct Hne].
  - intros b c Hb Hc Hne E. pose proof (Hnz b Hb Hne). assert (iblock f (dnode f (Z.of_nat i + 1)) c <> 0) as Hnc by congruence. pose proof (Hnz c Hc Hnc). rewrite !kernel_iblock in E by done. apply S6; [lia|lia|done].
  - intros b Hb. rewrite Ein. intros Hne. rewrite kernel_iblock by done. destruct (Z.ltb_spec NDIRECT nb); [|by destruct Hne]. destruct (Z_lt_dec b nb); [apply S7; lia|rewrite S4 by lia; lia].
  - intros b Hb. rewrite F4. intros Hlt. assert (b < nb) by (unfold BSIZE in *; lia). rewrite kernel_iblock by lia. specialize (S3 b ltac:(lia)). lia.
Qed.
End kernel.

(** ** The root directory *)

Fixpoint numbered (n : Z) (args : list (list Z)) : list (Z * list Z) :=
  match args with
  | [] => []
  | arg :: args => (n, skip_underscore arg) :: numbered (n + 1) args
  end.

Definition root_list (args : list (list Z)) : list (Z * list Z) := (1, [46]) :: (1, [46; 46]) :: numbered 2 args.

Definition dirent_list (R : list (Z * list Z)) : list Z := concat ((fun p => dirent_bytes p.1 p.2) <$> R).

Lemma root_bytes_list args : root_bytes args = dirent_list (root_list args).
Proof.
  unfold root_bytes, dirent_list, root_list. cbn [fmap list_fmap concat fst snd]. do 2 f_equal. generalize 2. induction args as [|a args IH]; intros n; [done|].
  cbn [dirents numbered fmap list_fmap concat fst snd]. by rewrite IH.
Qed.

Lemma numbered_lookup args : forall n i arg, args !! i = Some arg -> numbered n args !! i = Some (n + Z.of_nat i, skip_underscore arg).
Proof.
  induction args as [|a args IH]; intros n [|i] arg H; simpl in *; [done|done|injection H as ->; do 2 f_equal; lia|]. rewrite (IH _ _ _ H). do 2 f_equal. lia.
Qed.

Lemma numbered_length n args : length (numbered n args) = length args.
Proof. revert n. induction args as [|a args IH]; intros n; simpl; [done|]. by rewrite IH. Qed.

Lemma numbered_inv args : forall n i e, numbered n args !! i = Some e -> exists arg, args !! i = Some arg /\ e = (n + Z.of_nat i, skip_underscore arg).
Proof.
  intros n i e H. assert (Hl : (i < length args)%nat) by (apply lookup_lt_Some in H; by rewrite numbered_length in H).
  destruct (lookup_lt_is_Some_2 _ _ Hl) as [arg Ha]. exists arg. split; [done|]. rewrite (numbered_lookup _ _ _ _ Ha) in H. by injection H as <-.
Qed.

Lemma new_dirent_bytes n name a : 0 <= n < 65536 -> 0 <= a < DIRENT ->
  strncpy (new_dirent n) de_name (bytes_mem name) 0 DIRSIZ a = make_dirent name n a.
Proof.
  intros Hn Ha. rewrite strncpy_spec, make_dirent_bytes by done. unfold new_dirent, store16, inside, de_name. rewrite xshort_id by done. unfold DIRENT, DIRSIZ in *. rewrite Z.add_0_l.
  destruct (Z.eqb_spec a 0) as [->|]; [by rewrite upd_ne, upd_eq by lia|]. destruct (Z.eqb_spec a 1) as [->|]; [by rewrite upd_eq|].
  by rewrite (proj2 (Z.leb_le 2 a)), (proj2 (Z.ltb_lt a (2 + 14))) by lia.
Qed.

(** The bytes of one entry. *)
Lemma dirent_at R zs : forall i n name a, R !! i = Some (n, name) -> 0 <= n < 65536 -> 0 <= a < DIRENT ->
  bytes_mem (dirent_list R ++ zs) (DIRENT * Z.of_nat i + a) = make_dirent name n a.
Proof.
  induction R as [|[m nm] R IH]; intros i n name a Hi Hn Ha; [done|]. unfold dirent_list. cbn [fmap list_fmap concat fst snd]. rewrite <- app_assoc. fold (dirent_list R).
  assert (El : length (dirent_bytes m nm) = 16%nat) by (unfold dirent_bytes, bytes_of; by rewrite length_fmap, length_seq). unfold bytes_mem, DIRENT in *. destruct i as [|i]; simpl in Hi.
  - injection Hi as -> ->. rewrite lookup_app_l by lia. unfold dirent_bytes, bytes_of. rewrite list_lookup_fmap, lookup_seq_lt by (unfold DIRENT; lia). cbn [fmap option_fmap option_map default from_option].
    rewrite <- new_dirent_bytes by done. unfold id. f_equal. lia.
  - rewrite lookup_app_r by lia. rewrite <- (IH i n name a Hi Hn Ha). do 2 f_equal. lia.
Qed.

Lemma dirent_list_length R : Z.of_nat (length (dirent_list R)) = DIRENT * Z.of_nat (length R).
Proof.
  induction R as [|p R IH]; [done|]. unfold dirent_list in *. cbn [fmap list_fmap concat length]. rewrite length_app, Nat2Z.inj_add, IH. fold (size (dirent_bytes p.1 p.2)). rewrite size_dirent. unfold DIRENT. lia.
Qed.

Lemma dirent_list_range R : Forall (fun p => name_ok p.2 /\ 0 <= p.1 < 65536) R -> forall o, 0 <= o < DIRENT * Z.of_nat (length R) -> 0 <= bytes_mem (dirent_list R) o < 256.
Proof.
  intros HR o Ho. pose proof (Z.div_mod o DIRENT ltac:(done)) as Em. pose proof (Z.mod_pos_bound o DIRENT ltac:(done)) as Hm. assert (0 <= o / DIRENT) by (apply Z.div_pos; [lia|done]).
  destruct (lookup_lt_is_Some_2 R (Z.to_nat (o / DIRENT))) as [[n nm] Hl]; [unfold DIRENT in *; lia|]. destruct (Forall_lookup_1 _ _ _ _ HR Hl) as [Hnm Hn]. simpl in Hnm, Hn.
  rewrite Em. rewrite <- (app_nil_r (dirent_list R)). replace (o / DIRENT) with (Z.of_nat (Z.to_nat (o / DIRENT))) by lia. rewrite (dirent_at R [] _ n nm) by done. by apply make_dirent_range.
Qed.

Section image.
Context (host : list Z -> option (list (list Z))) (args : list (list Z)) (Hnames : Forall name_ok args) (Hfew : Z.of_nat (length args) + 1 < NINODES).
Context (s : mk) (Hfin : finished host args s) (f : fsst) (Hm : mounted (mk_img s) f).

Lemma root_list_length : length (root_list args) = (length args + 2)%nat.
Proof. unfold root_list. simpl. rewrite numbered_length. lia. Qed.

Lemma root_list_ok : Forall (fun p => name_ok p.2 /\ 0 <= p.1 < 65536) (root_list args).
Proof.
  assert (Hd : name_ok [46] /\ name_ok [46; 46]) by (split; repeat constructor; lia). repeat constructor; simpl; try apply Hd; try lia.
  apply Forall_lookup. intros i e He. apply numbered_inv in He as (arg & Ha & ->). simpl. pose proof (lookup_lt_Some _ _ _ Ha). unfold NINODES in *. split; [|lia].
  pose proof (Forall_lookup_1 _ _ _ _ Hnames Ha) as Hn. unfold skip_underscore. destruct arg as [|c rest]; [done|]. destruct (c =? 95); [|done]. by apply Forall_cons in Hn as [_ Hn].
Qed.

Lemma pad_root_size : size (pad_root args) = (size (root_bytes args) / BSIZE + 1) * BSIZE.
Proof.
  unfold pad_root. rewrite size_app. unfold size at 2. rewrite length_replicate. pose proof (Z.div_mod (size (root_bytes args)) BSIZE ltac:(done)).
  pose proof (Z.mod_pos_bound (size (root_bytes args)) BSIZE ltac:(done)). unfold BSIZE in *. lia.
Qed.

(** The files of the image, for the kernel. *)
Lemma image_files : exists L s0, disk_ok L None s0 /\ mounted (<[58 := mark_loop (Z.to_nat (mk_freeblock s0)) 0 (fun _ => 0)]> (mk_img s0)) f /\
  length L = S (length args) /\ (exists xr, L !! 0%nat = Some (xr, pad_root args) /\ i_type xr = T_DIR) /\
  (forall i arg, args !! i = Some arg -> exists x, L !! S i = Some (x, data_of host arg) /\ i_type x = T_FILE).
Proof.
  destruct Hfin as (L & s0 & Hd & E2 & E1 & Ei). exists L, s0. rewrite <- Ei. split; [done|]. split; [done|].
  destruct L as [|[xr r] L]; [done|]. cbn [fmap list_fmap fst snd] in E1, E2. injection E2 as -> E2. injection E1 as Et E1.
  assert (El : length L = length args) by (apply (f_equal length) in E2; by rewrite !length_fmap in E2).
  split; [simpl; by rewrite El|]. split; [by exists xr|]. intros i arg Ha. simpl.
  assert (H2 : L.*2 !! i = Some (data_of host arg)) by (rewrite E2, list_lookup_fmap, Ha; done). rewrite list_lookup_fmap in H2. destruct (L !! i) as [[x l]|] eqn:Hl; [|done]. injection H2 as ->.
  exists x. split; [done|]. apply (f_equal (fun q => q !! i)) in E1. rewrite !list_lookup_fmap, Hl in E1. simpl in E1. rewrite lookup_replicate_2 in E1; [by injection E1|]. apply lookup_lt_Some in Ha. lia.
Qed.

Lemma image_layout : layout f.
Proof. destruct image_files as (L & s0 & Hd & Hm0 & _). by apply (kernel_layout L s0). Qed.

Lemma image_root_bytes o : 0 <= o < size (pad_root args) -> fbyte f (dnode f 1) o = bytes_mem (pad_root args) o.
Proof. destruct image_files as (L & s0 & Hd & Hm0 & _ & (xr & H0 & _) & _). by apply (kernel_byte L s0 Hd f Hm0 0 xr). Qed.

Lemma image_root_fields : i_type (dnode f 1) = T_DIR /\ i_nlink (dnode f 1) = 1 /\ i_size (dnode f 1) = size (pad_root args) /\ file_ok f (dnode f 1).
Proof.
  destruct image_files as (L & s0 & Hd & Hm0 & _ & (xr & H0 & Et) & _). destruct (kernel_fields L s0 Hd f Hm0 0 xr _ H0) as (F1 & F2 & F3 & F4 & _).
  pose proof (kernel_file L s0 Hd f Hm0 0 xr _ H0) as Hf. change (Z.of_nat 0 + 1) with 1 in *. split_and!; [by rewrite F2|done|done|done].
Qed.

Lemma pad_root_at o : 0 <= o -> bytes_mem (pad_root args) o = bytes_mem (dirent_list (root_list args)) o.
Proof.
  intros Ho. unfold pad_root. rewrite root_bytes_list. cbv zeta. set (m := Z.to_nat _). unfold bytes_mem.
  destruct (decide (Z.to_nat o < length (dirent_list (root_list args)))%nat); [by rewrite lookup_app_l by done|].
  rewrite lookup_app_r, (lookup_ge_None_2 (dirent_list _)) by lia. destruct (replicate m 0 !! _) as [z|] eqn:Ez; [|done]. apply lookup_replicate in Ez as [-> _]. done.
Qed.

Lemma image_root : dir_ok f (dnode f 1).
Proof.
  destruct image_root_fields as (F1 & F2 & F3 & F4). split; [done|done| |].
  - rewrite F3, pad_root_size. change BSIZE with (32 * DIRENT). rewrite Z.mul_assoc. by apply Z.mod_mul.
  - rewrite F3. intros o Ho. rewrite image_root_bytes, pad_root_at by lia. destruct (Z_lt_dec o (DIRENT * Z.of_nat (length (root_list args)))); [by apply dirent_list_range; [apply root_list_ok|lia]|].
    unfold bytes_mem. pose proof (dirent_list_length (root_list args)). rewrite lookup_ge_None_2 by lia. simpl. lia.
Qed.

Lemma image_entry i n name : root_list args !! i = Some (n, name) -> entries f (dnode f 1) !! i = Some (n, name_at (bytes_mem name) 0).
Proof.
  intros Hi. destruct image_root_fields as (_ & _ & F3 & _). destruct (Forall_lookup_1 _ _ _ _ root_list_ok Hi) as [_ Hn]. simpl in Hn. pose proof (lookup_lt_Some _ _ _ Hi) as Hlt.
  pose proof (dirent_list_length (root_list args)) as Hl. pose proof pad_root_size as Hp. rewrite root_bytes_list in Hp. unfold size at 2 in Hp.
  pose proof (Z.div_mod (Z.of_nat (length (dirent_list (root_list args)))) BSIZE ltac:(done)). pose proof (Z.mod_pos_bound (Z.of_nat (length (dirent_list (root_list args)))) BSIZE ltac:(done)).
  assert (Hsz : DIRENT * Z.of_nat i + DIRENT <= size (pad_root args)) by (unfold DIRENT, BSIZE in *; lia).
  rewrite entries_lookup. 2:{ rewrite F3. apply Nat2Z.inj_lt. rewrite Z2Nat.id by (apply Z.div_pos; [unfold size; lia|done]). assert (Z.of_nat i + 1 <= size (pad_root args) / DIRENT); [|lia]. apply Z.div_le_lower_bound; [done|lia]. }
  f_equal. apply entry_new; [done|]. intros a Ha. rewrite image_root_bytes, pad_root_at by (unfold DIRENT in *; lia). rewrite <- (app_nil_r (dirent_list _)). by apply dirent_at.
Qed.

Lemma image_no_entry i e : entries f (dnode f 1) !! i = Some e -> (length (root_list args) <= i)%nat -> e.1 = 0.
Proof.
  intros He Hi. destruct image_root_fields as (_ & _ & F3 & _). pose proof (lookup_lt_Some _ _ _ He) as Hlt. rewrite entries_length in Hlt. rewrite entries_lookup in He by done. injection He as <-.
  rewrite F3 in Hlt. pose proof (dirent_list_length (root_list args)) as Hl. assert (Hb : forall a, 0 <= a < DIRENT -> fbyte f (dnode f 1) (DIRENT * Z.of_nat i + a) = 0).
  { intros a Ha. assert (Hsz : DIRENT * Z.of_nat i + DIRENT <= size (pad_root args)).
    { pose proof (Z.mul_div_le (size (pad_root args)) DIRENT ltac:(done)). assert (Z.of_nat i + 1 <= size (pad_root args) / DIRENT) by lia. unfold DIRENT in *. lia. }
    rewrite image_root_bytes, pad_root_at by (unfold DIRENT in *; lia). unfold bytes_mem. by rewrite lookup_ge_None_2 by (unfold DIRENT in *; lia). }
  unfold entry_at, load16. simpl. pose proof (Hb 0 ltac:(done)) as H0. rewrite Z.add_0_r in H0. rewrite H0, Hb by done. done.
Qed.

(** The file of an argument. *)
Lemma image_file i arg : args !! i = Some arg -> let x := dnode f (Z.of_nat i + 2) in
  i_type x = T_FILE /\ i_nlink x = 1 /\ i_size x = size (data_of host arg) /\ file_ok f x /\
  forall o, 0 <= o < size (data_of host arg) -> fbyte f x o = bytes_mem (data_of host arg) o.
Proof.
  intros Ha. destruct image_files as (L & s0 & Hd & Hm0 & _ & _ & Hf). destruct (Hf i arg Ha) as (y & Hy & Et). replace (Z.of_nat i + 2) with (Z.of_nat (S i) + 1) by lia.
  destruct (kernel_fields L s0 Hd f Hm0 _ _ _ Hy) as (F1 & F2 & F3 & F4 & _). intros x. unfold x. split_and!; [by rewrite F2|done|done|by apply (kernel_file L s0 Hd f Hm0 _ _ _ Hy)|].
  intros o Ho. by apply (kernel_byte L s0 Hd f Hm0 _ y).
Qed.

Lemma image_sb : fs_sb f = SB.
Proof. destruct image_files as (L & s0 & Hd & Hm0 & _). by apply (kernel_sb L s0). Qed.

Definition image_inodes (n : Z) : Prop := 1 <= n <= Z.of_nat (length args) + 1.

Lemma image_cases n : image_inodes n -> n = 1 \/ exists i arg, args !! i = Some arg /\ n = Z.of_nat i + 2.
Proof.
  intros Hn. unfold image_inodes in Hn. destruct (Z.eq_dec n 1); [by left|right]. destruct (lookup_lt_is_Some_2 args (Z.to_nat (n - 2))) as [arg Ha]; [lia|]. exists (Z.to_nat (n - 2)), arg. split; [done|lia].
Qed.

Lemma image_tree : tree_ok f image_inodes.
Proof.
  destruct image_root_fields as (F1 & F2 & _). split.
  - intros n Hn. rewrite image_sb. unfold image_inodes, NINODES in *. change (sb_ninodes SB) with 200. lia.
  - intros n Hn. destruct (image_cases n Hn) as [-> | (i & arg & Ha & ->)]; [by rewrite F1|]. by rewrite (proj1 (image_file i arg Ha)).
  - intros n Hn. destruct (image_cases n Hn) as [-> | (i & arg & Ha & ->)]; [by rewrite F2|]. by rewrite (proj1 (proj2 (image_file i arg Ha))).
  - intros n Hn Ht. destruct (image_cases n Hn) as [-> | (i & arg & Ha & ->)]; [apply image_root|]. by rewrite (proj1 (image_file i arg Ha)) in Ht.
  - intros n e Hn Ht He Hne. destruct (image_cases n Hn) as [-> | (i & arg & Ha & ->)]; [|by rewrite (proj1 (image_file i arg Ha)) in Ht].
    apply list_elem_of_lookup_1 in He as [j Hj]. destruct (root_list args !! j) as [[m name]|] eqn:Hr; [|by apply lookup_ge_None_1 in Hr; apply image_no_entry in Hj].
    rewrite (image_entry _ _ _ Hr) in Hj. injection Hj as <-. unfold image_inodes. simpl. destruct j as [|[|j]]; simpl in Hr; [injection Hr as <- _; lia|injection Hr as <- _; lia|].
    apply numbered_inv in Hr as (arg & Ha & [= -> _]). apply lookup_lt_Some in Ha. lia.
Qed.

(** The names of the root directory, as they are compared. *)
Definition names : list (list Z) := (fun p => name_at (bytes_mem p.2) 0) <$> root_list args.

Lemma image_lookup i arg : NoDup names -> args !! i = Some arg -> lookup_name f ROOTINO (skip_underscore arg) = Some (Z.of_nat i + 2).
Proof.
  intros Hnd Ha. assert (Hr : root_list args !! S (S i) = Some (Z.of_nat i + 2, skip_underscore arg)) by (simpl; rewrite (numbered_lookup _ _ _ _ Ha); do 2 f_equal; lia).
  unfold lookup_name. change ROOTINO with 1. assert (E : list_find (named (skip_underscore arg)) (entries f (dnode f 1)) = Some (S (S i), (Z.of_nat i + 2, name_at (bytes_mem (skip_underscore arg)) 0))); [|by rewrite E].
  apply list_find_Some. split; [by apply image_entry|]. split; [split; simpl; [lia|done]|]. intros j e He Hlt [_ Hn]. destruct (root_list args !! j) as [[m nm]|] eqn:Hj.
  - rewrite (image_entry _ _ _ Hj) in He. injection He as <-. simpl in Hn. assert (j = S (S i)); [|lia]. apply (NoDup_lookup names _ _ (name_at (bytes_mem nm) 0) Hnd); unfold names; rewrite list_lookup_fmap; [by rewrite Hj|rewrite Hr; simpl; by rewrite Hn].
  - apply lookup_ge_None_1 in Hj. apply lookup_lt_Some in Hr. lia.
Qed.
End image.

(** C9: mkfs builds a sound file system.  When the files have room, their names have no slash and differ in the bytes a
    directory entry keeps, and the last block of the root directory is not full, [main] succeeds; a kernel that mounts
    the image finds a sound disk whose root directory has each file under its name without the leading underscore, with
    the bytes of the host's file. *)
Theorem mkfs_builds io creat host prog img args
  (Hio : forall b, io b = true) (Hc : creat img = true) (Hfit : fits_image host args) (Hnames : Forall name_ok args) (Hnd : NoDup (names args)) :
  wp (mkfs io creat host (prog :: img :: args)) mk_start (fun _ s => forall f, mounted (mk_img s) f ->
    layout f /\ tree_ok f (image_inodes args) /\
    forall i arg, args !! i = Some arg -> lookup_name f ROOTINO (skip_underscore arg) = Some (Z.of_nat i + 2) /\
      let x := dnode f (Z.of_nat i + 2) in
      i_type x = T_FILE /\ i_size x = size (data_of host arg) /\ file_ok f x /\ forall o, 0 <= o < size (data_of host arg) -> fbyte f x o = bytes_mem (data_of host arg) o).
Proof.
  eapply wp_mono; [|by apply wp_mkfs]. intros [] s Hfin f Hm. pose proof (ft_inodes _ _ Hfit) as Hfew.
  split; [by apply (image_layout host args s)|]. split; [by apply (image_tree host args Hnames Hfew s)|]. intros i arg Ha.
  split; [by apply (image_lookup host args Hnames Hfew s)|]. destruct (image_file host args s Hfin f Hm i arg Ha) as (A & _ & B & C & D). by split_and!.
Qed.

(** ** Mounting the image and reading a file *)

Lemma name_at_cut e : name_at (bytes_mem (cut e)) 0 = name_at (bytes_mem e) 0.
Proof.
  apply name_at_shift. intros j Hj. unfold bytes_mem, cut. destruct (decide (Z.to_nat (0 + j) < length e)%nat).
  - by rewrite lookup_take_lt by (unfold DIRSIZ in *; lia).
  - rewrite !lookup_ge_None_2; [done|lia|rewrite length_take; lia].
Qed.

Lemma lookup_name_cut f n e : lookup_name f n (cut e) = lookup_name f n e.
Proof.
  unfold lookup_name. assert (E : forall l, list_find (named (cut e)) l = list_find (named e) l); [|by rewrite E]. induction l as [|y l IH]; simpl; [done|]. rewrite IH.
  assert (H : named (cut e) y <-> named e y) by (unfold named; by rewrite name_at_cut). destruct (decide (named (cut e) y)), (decide (named e y)); tauto.
Qed.

Lemma elems_single name : name <> [] -> slash ∉ name -> elems (slash :: name) = [name].
Proof.
  intros Hne Hns. assert (Ht : forall l, slash ∉ l -> take_elem l = (l, [])).
  { induction l as [|c l IH]; intros H; [done|]. simpl. rewrite (proj2 (Z.eqb_neq c slash)) by set_solver. by rewrite IH by set_solver. }
  rewrite <- elems_skip. simpl. rewrite elems_skip. unfold elems. rewrite (elems_take name [] name []); [done|by apply Ht|by right].
Qed.

Lemma resolve_root f name n : i_type (dnode f 1) = T_DIR -> name <> [] -> slash ∉ name -> lookup_name f 1 name = Some n ->
  resolve f 1 (elems (slash :: name)) [] false = Some (n, cut name).
Proof. intros Ht Hne Hns Hl. rewrite elems_single by done. cbn [resolve]. rewrite Ht. cbn [andb negb Z.eqb T_DIR Pos.eqb]. by rewrite lookup_name_cut, Hl. Qed.

(** [ip = namei(path); ilock(ip); readi(ip, dst, 0, n)], as in exec. *)
Definition read_path (dv : devsw) (path : list Z) (n : Z) : K (option (Z * mem)) :=
  r ← namei dv path;
  match r with
  | Some ip => ilock ip;; r ← readi dv ip (fun _ => 0) 0 0 n; mret (Some r)
  | None => mret None
  end.

Lemma fwp_read_path cur pid dv path k T m name s n (Q : option (Z * mem) -> fsst -> Prop) :
  layout (k_fs s) -> tx pid (k_fs s) [] k -> tree_ok (k_fs s) T -> icache_ok pid None (k_fs s) ->
  (exists a b, a <> b /\ (a < NINODE)%nat /\ (b < NINODE)%nat /\ i_ref (fs_inode (k_fs s) a) = 0 /\ i_ref (fs_inode (k_fs s) b) = 0) ->
  name_ok (slash :: path) -> T ROOTINO -> resolve (k_fs s) ROOTINO (elems (slash :: path)) [] false = Some (m, name) ->
  i_type (dnode (k_fs s) m) = T_FILE -> file_ok (k_fs s) (dnode (k_fs s) m) -> 0 <= n < W32 ->
  (forall md f, (forall a, 0 <= a < Z.min n (i_size (dnode (k_fs s) m)) -> md a = fbyte (k_fs s) (dnode (k_fs s) m) a) ->
    Q (Some (Z.min n (i_size (dnode (k_fs s) m)), md)) f) ->
  fwp cur pid (read_path dv (slash :: path) n) s Q.
Proof.
  intros Hla Ht HT Hc Hfree Hnm Hroot Hres Hty Hok Hn HQ. unfold read_path, namei. apply fwp_bind, fwp_bind.
  eapply fwp_mono; [|by apply (namex_walks cur pid dv _ false k T ROOTINO s Hla Ht HT Hc Hfree Hnm)]. intros r f1 Ha s1 <- _. rewrite Hres in Ha. destruct Ha as (ip & -> & W1). apply fwp_ret. intros s2 E2 _. rewrite <- E2 in W1. cbn [fmap option_fmap option_map fst].
  apply fwp_bind. assert (Hin : (ip, m) ∈ [(ip, m)]) by apply list_elem_of_here. eapply (walk_ilock cur pid k (k_fs s) T); [done|done|apply Hc|exact W1|done|]. intros f3 W3 s3 <- _.
  pose proof (locked_node pid k (k_fs s) T (ic_ref _ _ _ Hc) _ _ _ _ W3 Hin) as Hsn. pose proof (wk_still _ _ _ _ _ _ _ W3) as [S1 S2 S3 S4].
  destruct (file_ok_same (k_fs s) (k_fs s3) (dnode (k_fs s) m) Hla S2 S3 S4 Hok) as (L1 & L2 & L3).
  pose proof (node_file _ _ _ Hsn L2) as Hok3. set (x := inode_at s3 ip) in *. change (fs_inode (k_fs s3) ip) with x in *. pose proof (fo_size _ _ Hok) as Hsz.
  apply fwp_bind. apply (fwp_readi cur pid dv ip (fun _ => 0) 0 0 n k); fold x; [done|done|done|rewrite (sn_type _ _ Hsn), Hty; done|rewrite (sn_size _ _ Hsn); lia|lia|lia|].
  intros md f Hmd _ _ _ _ s4 <- _. apply fwp_ret. rewrite (sn_size _ _ Hsn), Z.sub_0_r in *. apply HQ. intros a Ha. rewrite Hmd. unfold inside. rewrite (proj2 (Z.leb_le 0 a)), (proj2 (Z.ltb_lt a _)) by lia.
  cbn [andb]. rewrite Z.add_0_l, Z.sub_0_r. rewrite (node_fbyte _ _ _ Hsn) by lia. apply L3.
Qed.

Lemma finished_sb host args s : finished host args s -> sb_of (mk_img s 1) = SB.
Proof. intros (L & s0 & Hd & _ & _ & ->). rewrite fn_insert_ne by done. apply Hd. Qed.

Lemma skip_underscore_ok arg : name_ok arg -> slash ∉ arg -> name_ok (skip_underscore arg) /\ slash ∉ skip_underscore arg.
Proof.
  intros Hn Hs. unfold skip_underscore. destruct arg as [|c rest]; [done|]. destruct (c =? 95); [|done]. apply Forall_cons in Hn as [_ Hn]. split; [done|]. set_solver.
Qed.

(** C10: What mkfs writes the kernel reads.  On the image mkfs builds, once it is mounted, [namei], [ilock] and [readi] of a
    file's path return the bytes of the host's file, from its beginning and as many as are asked for and there. *)
Theorem image_reads_back io creat host prog img args
  (Hio : forall b, io b = true) (Hc : creat img = true) (Hfit : fits_image host args) (Hnames : Forall name_ok args) (Hnd : NoDup (names args)) :
  wp (mkfs io creat host (prog :: img :: args)) mk_start (fun _ s => sb_of (mk_img s 1) = SB /\ forall cur pid dv k ks n i arg,
    mounted (mk_img s) (k_fs ks) -> fs_ready cur pid ks -> tx pid (k_fs ks) [] k -> icache_ok pid None (k_fs ks) ->
    (exists a b, a <> b /\ (a < NINODE)%nat /\ (b < NINODE)%nat /\ i_ref (inode_at ks a) = 0 /\ i_ref (inode_at ks b) = 0) ->
    args !! i = Some arg -> skip_underscore arg <> [] -> 0 <= n < W32 ->
    wp (read_path dv (slash :: skip_underscore arg) n) ks (fun r _ => exists md, r = Some (Z.min n (size (data_of host arg)), md) /\
      forall a, 0 <= a < Z.min n (size (data_of host arg)) -> md a = bytes_mem (data_of host arg) a)).
Proof.
  eapply wp_mono; [|by apply wp_mkfs]. intros [] s Hfin. split; [by apply (finished_sb host args)|]. pose proof (ft_inodes _ _ Hfit) as Hfew.
  intros cur pid dv k ks n i arg Hm Hr Ht Hic Hfree Ha Hne Hn. set (f := k_fs ks) in *.
  destruct (image_file host args s Hfin f Hm i arg Ha) as (A & _ & B & C & D). destruct (Forall_lookup_1 _ _ _ _ (ft_args _ _ Hfit) Ha) as (G1 & _ & _).
  destruct (skip_underscore_ok arg (Forall_lookup_1 _ _ _ _ Hnames Ha) G1) as [N1 N2]. destruct (image_root_fields host args s Hfin f Hm) as (R1 & _).
  assert (Hw : fwp cur pid (read_path dv (slash :: skip_underscore arg) n) ks (fun r _ => exists md, r = Some (Z.min n (size (data_of host arg)), md) /\
    forall a, 0 <= a < Z.min n (size (data_of host arg)) -> md a = bytes_mem (data_of host arg) a)).
  { eapply (fwp_read_path cur pid dv _ k (image_inodes args)); [by apply (image_layout host args s)|done|by apply (image_tree host args Hnames Hfew s)|done|done|by constructor|unfold image_inodes, ROOTINO; lia
      |apply resolve_root; [done|done|done|by apply (image_lookup host args Hnames Hfew s)]|done|done|done|].
    change (k_fs ks) with f. rewrite B. intros md f1 Hmd. exists md. split; [done|]. intros a Hlt. rewrite Hmd by done. apply D. lia. }
  eapply wp_mono; [|by apply Hw]. intros r s' (_ & _ & H). exact H.
Qed.

(** A file "a", which the host calls "_a", with the bytes "hi". *)
Module SmallImage.
Definition args : list (list Z) := [[95; 97]].
Definition host (name : list Z) : option (list (list Z)) := if bool_decide (name = [95; 97]) then Some [[104]; [105]] else None.

Lemma data : data_of host [95; 97] = [104; 105].
Proof. vm_compute. reflexivity. Qed.

Lemma small_fits : fits_image host args.
Proof.
  split.
  - constructor; [|constructor]. split; [set_solver|]. split; [vm_compute; eauto|rewrite data; vm_compute; discriminate].
  - reflexivity.
  - vm_compute. discriminate.
  - vm_compute. discriminate.
Qed.

Lemma small_names : Forall name_ok args.
Proof. repeat constructor; lia. Qed.

Lemma small_nodup : NoDup (names args).
Proof. vm_compute names. repeat constructor; set_solver. Qed.

(** The kernel with an image mounted, inside a transaction. *)
Definition boot (img : Z -> mem) : kstate :=
  set_fs (mkFs (mkDisk img FSSIZE []) Empty.bufs (mkLog 2 30 1 false 1 0 (fun _ => 0)) (sb_of (img 1)) (fun _ => zero_inode))
    (start (Some 0%nat) (fun _ => user_process RUNNING 7 (fun _ => 0)) empty_stab).

Lemma boot_mounted img : sb_of (img 1) = SB -> mounted img (k_fs (boot img)).
Proof.
  intros E. split; [intros b; by apply content_none|done|done| |]; cbn [boot k_fs set_fs fs_log fs_sb lg_start lg_size]; by rewrite E.
Qed.

Lemma boot_ready img : fs_ready 0 7 (boot img).
Proof. split; [apply one_cpu_on|done]. Qed.

Lemma boot_tx img : tx 7 (k_fs (boot img)) [] 10.
Proof.
  split.
  - exists (seq 0 NBUF). split; [exact Empty.bufs_ring|done|]. intros i _. by split.
  - constructor.
  - done.
  - intros b Hb. by apply not_elem_of_nil in Hb.
  - split.
    + split; simpl; unfold FSSIZE, LOGSIZE, MAXOPBLOCKS, in_log; simpl; lia.
    + intros b. split; [|intros (i & Hi & _); simpl in Hi; lia].
      unfold dirty_block. by rewrite (proj2 (find_idx_None _ _) (fun _ _ => eq_refl) : cached (k_fs (boot img)) b = None).
  - done.
  - done.
  - done.
Qed.

Lemma boot_cache img : icache_ok 7 None (k_fs (boot img)).
Proof. by split. Qed.
End SmallImage.

Lemma mkfs_builds_witness :
  wp (mkfs (fun _ => true) (fun _ => true) SmallImage.host [[109]; [105]; [95; 97]]) mk_start (fun _ s =>
    forall f, mounted (mk_img s) f -> lookup_name f ROOTINO [97] = Some 2 /\ i_size (dnode f 2) = 2).
Proof.
  refine (wp_mono _ _ _ _ _ (mkfs_builds (fun _ => true) (fun _ => true) SmallImage.host [109] [105] SmallImage.args
    (fun _ => eq_refl) eq_refl SmallImage.small_fits SmallImage.small_names SmallImage.small_nodup)).
  intros [] s H f Hm. destruct (H f Hm) as (_ & _ & Hf). destruct (Hf 0%nat [95; 97] eq_refl) as (A & _ & B & _). split; [exact A|]. rewrite SmallImage.data in B. exact B.
Defined.

Lemma image_reads_back_witness :
  wp (mkfs (fun _ => true) (fun _ => true) SmallImage.host [[109]; [105]; [95; 97]]) mk_start (fun _ s =>
    wp (read_path no_devices [47; 97] 100) (SmallImage.boot (mk_img s)) (fun r _ => exists md, r = Some (2, md) /\ md 0 = 104 /\ md 1 = 105)).
Proof.
  refine (wp_mono _ _ _ _ _ (image_reads_back (fun _ => true) (fun _ => true) SmallImage.host [109] [105] SmallImage.args
    (fun _ => eq_refl) eq_refl SmallImage.small_fits SmallImage.small_names SmallImage.small_nodup)).
  intros [] s [Hsb H]. refine (wp_mono _ _ _ _ _ (H 0%nat 7 no_devices 10 (SmallImage.boot (mk_img s)) 100 0%nat [95; 97] (SmallImage.boot_mounted _ Hsb) (SmallImage.boot_ready _)
    (SmallImage.boot_tx _) (SmallImage.boot_cache _) _ eq_refl _ _)).
  - intros r s' (md & -> & Hmd). rewrite SmallImage.data in *. exists md. split; [reflexivity|]. split; [apply (Hmd 0)|apply (Hmd 1)]; vm_compute; split; congruence.
  - exists 0%nat, 1%nat. split; [discriminate|]. split; [apply Nat.ltb_lt; reflexivity|]. split; [apply Nat.ltb_lt; reflexivity|]. split; reflexivity.
  - discriminate.
  - split; [discriminate|reflexivity].
Defined.
