(* ===== verification/Vm.v ===== *)
(** * vm.c: page tables and user memory

    Page directories, page tables and pages are in the memory of the kernel,
    [k_mem], by kernel virtual address; entries are words of 32 bits that hold
    physical addresses.  The registers the code loads are [vm_cr3] (the page
    table); the task state [switchuvm] also sets is left out.  The segments
    of [seginit] are in Desc. *)

From S2P Require Import Prelude CString KState Spinlock Cprintf Kalloc Sleeplock Fs.

(** ** mmu.h, memlayout.h *)

Definition PTE_P : Z := 1.
Definition PTE_W : Z := 2.
Definition PTE_U : Z := 4.
Definition NPDENTRIES : Z := 1024.
Definition PTXSHIFT : Z := 12.
Definition PDXSHIFT : Z := 22.
Definition PDX (va : Z) : Z := Z.land (Z.shiftr va PDXSHIFT) 1023.
Definition PTX (va : Z) : Z := Z.land (Z.shiftr va PTXSHIFT) 1023.
Definition PGADDR (d t o : Z) : Z :=
  uint32 (Z.lor (Z.lor (Z.shiftl d PDXSHIFT) (Z.shiftl t PTXSHIFT)) o).
Definition PTE_ADDR (pte : Z) : Z := Z.land pte (W32 - PGSIZE).
Definition PTE_FLAGS (pte : Z) : Z := Z.land pte (PGSIZE - 1).

Definition EXTMEM : Z := 1048576.
Definition DEVSPACE : Z := 4261412864.
Definition KERNLINK : Z := KERNBASE + EXTMEM.
Definition P2V (a : Z) : Z := uint32 (a + KERNBASE).

(** Loads and stores of words of the kernel's memory. *)
Definition kload (a : Z) : K Z := gets (fun s => load32 (k_mem s) a).
Definition kstore (a v : Z) : K unit := modify (fun s => set_mem (store32 (k_mem s) a v) s).
Definition upd_mem (f : mem -> mem) : K unit := modify (fun s => set_mem (f (k_mem s)) s).

(** ** Walking and changing a page table *)

(** The address of the entry for [va]; 0 is NULL. *)
Definition walkpgdir (pgdir va : Z) (alloc : bool) : K Z :=
  let pde := pgdir + 4 * PDX va in
  e ← kload pde;
  if negb (Z.land e PTE_P =? 0) then mret (P2V (PTE_ADDR e) + 4 * PTX va)
  else if negb alloc then mret 0
  else
    pgtab ← kalloc;
    if pgtab =? 0 then mret 0
    else
      upd_mem (fun m => memset m pgtab 0 PGSIZE);;
      kstore pde (Z.lor (Z.lor (Z.lor (V2P pgtab) PTE_P) PTE_W) PTE_U);;
      mret (pgtab + 4 * PTX va).

(** The loop of [mappages] from [a] to [last]. *)
Fixpoint map_loop (fuel : nat) (pgdir a last pa perm : Z) : K Z :=
  match fuel with
  | O => fun s => Stuck s
  | S k =>
      pte ← walkpgdir pgdir a true;
      if pte =? 0 then mret (-1)
      else
        e ← kload pte;
        if negb (Z.land e PTE_P =? 0) then panic "remap"
        else
          kstore pte (Z.lor (Z.lor pa perm) PTE_P);;
          if a =? last then mret 0
          else map_loop k pgdir (uint32 (a + PGSIZE)) last (uint32 (pa + PGSIZE)) perm
  end.

Definition mappages (pgdir va size pa perm : Z) : K Z :=
  let a := PGROUNDDOWN va in
  let last := PGROUNDDOWN (uint32 (va + size - 1)) in
  map_loop (S (Z.to_nat (uint32 (last - a) / PGSIZE))) pgdir a last pa perm.

(** ** Releasing user memory *)

(** The loop of [deallocuvm] from [a] on: a missing page table is skipped. *)
Fixpoint dealloc_loop (fuel : nat) (pgdir a oldsz : Z) : K unit :=
  match fuel with
  | O => fun s => Stuck s
  | S k =>
      if a <? oldsz then
        pte ← walkpgdir pgdir a false;
        if pte =? 0 then dealloc_loop k pgdir (uint32 (PGADDR (PDX a + 1) 0 0 - PGSIZE + PGSIZE)) oldsz
        else
          e ← kload pte;
          (if negb (Z.land e PTE_P =? 0) then
             if PTE_ADDR e =? 0 then panic "kfree"
             else
               kfree (P2V (PTE_ADDR e));;
               kstore pte 0
           else mret tt);;
          dealloc_loop k pgdir (uint32 (a + PGSIZE)) oldsz
      else mret tt
  end.

Definition deallocuvm (pgdir oldsz newsz : Z) : K Z :=
  if newsz >=? oldsz then mret oldsz
  else
    dealloc_loop (S (Z.to_nat (oldsz / PGSIZE + 1))) pgdir (PGROUNDUP newsz) oldsz;;
    mret newsz.

(** The loop of [freevm] over the page directory. *)
Fixpoint free_tables (todo : nat) (pgdir i : Z) : K unit :=
  match todo with
  | O => mret tt
  | S k =>
      e ← kload (pgdir + 4 * i);
      when (negb (Z.land e PTE_P =? 0)) (kfree (P2V (PTE_ADDR e)));;
      free_tables k pgdir (i + 1)
  end.

Definition freevm (pgdir : Z) : K unit :=
  if pgdir =? 0 then panic "freevm: no pgdir"
  else
    deallocuvm pgdir KERNBASE 0;;
    free_tables (Z.to_nat NPDENTRIES) pgdir 0;;
    kfree pgdir.

(** ** The kernel's part *)

Record kmap_entry : Type := mkKmap {
  virt : Z;
  phys_start : Z;
  phys_end : Z;
  perm : Z
}.

(** [data] is the linker's symbol. *)
Definition kmap (data : Z) : list kmap_entry :=
  [mkKmap KERNBASE 0 EXTMEM PTE_W;
   mkKmap KERNLINK (V2P KERNLINK) (V2P data) 0;
   mkKmap data (V2P data) PHYSTOP PTE_W;
   mkKmap DEVSPACE DEVSPACE 0 PTE_W].

(** The loop over the table [kmap]: whether all of it was mapped. *)
Fixpoint kmap_loop (pgdir : Z) (l : list kmap_entry) : K bool :=
  match l with
  | [] => mret true
  | k :: rest =>
      r ← mappages pgdir (virt k) (uint32 (phys_end k - phys_start k)) (phys_start k) (perm k);
      if r <? 0 then mret false else kmap_loop pgdir rest
  end.

Definition setupkvm : K Z :=
  pgdir ← kalloc;
  if pgdir =? 0 then mret 0
  else
    upd_mem (fun m => memset m pgdir 0 PGSIZE);;
    if P2V PHYSTOP >? DEVSPACE then panic "PHYSTOP too high"
    else
      data ← gets (fun s => vm_data (k_vm s));
      ok ← kmap_loop pgdir (kmap data);
      if (ok : bool) then mret pgdir
      else
        freevm pgdir;;
        mret 0.

Definition lcr3 (v : Z) : K unit :=
  modify (fun s => set_vm (mkVm (vm_kpgdir (k_vm s)) (vm_data (k_vm s)) v) s).

Definition switchkvm : K unit :=
  kpgdir ← gets (fun s => vm_kpgdir (k_vm s));
  lcr3 (V2P kpgdir).

Definition kvmalloc : K unit :=
  pgdir ← setupkvm;
  modify (fun s => set_vm (mkVm pgdir (vm_data (k_vm s)) (vm_cr3 (k_vm s))) s);;
  switchkvm.

Definition switchuvm (p : option nat) : K unit :=
  match p with
  | None => panic "switchuvm: no process"
  | Some i =>
      r ← gets (fun s => proc_at s i);
      if p_kstack r =? 0 then panic "switchuvm: no kstack"
      else if p_pgdir r =? 0 then panic "switchuvm: no pgdir"
      else
        pushcli;;
        _ ← mycpu;
        lcr3 (V2P (p_pgdir r));;
        popcli
  end.

(** ** Building user memory *)

(** [init], the bytes of the program, is at address 0 of its own object. *)
Definition inituvm (pgdir : Z) (init : mem) (sz : Z) : K unit :=
  if sz >=? PGSIZE then panic "inituvm: more than a page"
  else
    pg ← kalloc;
    upd_mem (fun m => memset m pg 0 PGSIZE);;
    mappages pgdir 0 PGSIZE (V2P pg) (Z.lor PTE_W PTE_U);;
    upd_mem (fun m => memcopy m pg init 0 sz).

(** The loop of [loaduvm] from byte [i] on.  The bytes [readi] delivers are
    written to the page when it returns. *)
Fixpoint load_loop (fuel : nat) (dv : devsw) (pgdir addr : Z) (ip : nat) (offset sz i : Z) : K Z :=
  match fuel with
  | O => fun s => Stuck s
  | S k =>
      if i <? sz then
        pte ← walkpgdir pgdir (uint32 (addr + i)) false;
        if pte =? 0 then panic "loaduvm: address should exist"
        else
          e ← kload pte;
          let n := Z.min (sz - i) PGSIZE in
          '(r, data) ← readi dv ip (fun _ => 0) 0 (uint32 (offset + i)) n;
          upd_mem (fun m => memcopy m (P2V (PTE_ADDR e)) data 0 (Z.max 0 r));;
          if negb (r =? n) then mret (-1) else load_loop k dv pgdir addr ip offset sz (uint32 (i + PGSIZE))
      else mret 0
  end.

Definition loaduvm (dv : devsw) (pgdir addr : Z) (ip : nat) (offset sz : Z) : K Z :=
  if negb (addr mod PGSIZE =? 0) then panic "loaduvm: addr must be page aligned"
  else load_loop (S (Z.to_nat (sz / PGSIZE + 1))) dv pgdir addr ip offset sz 0.

(** The loop of [allocuvm] from [a] on. *)
Fixpoint alloc_loop (fuel : nat) (pgdir a oldsz newsz : Z) : K Z :=
  match fuel with
  | O => fun s => Stuck s
  | S k =>
      if a <? newsz then
        pg ← kalloc;
        if pg =? 0 then
          cprintf (chars "allocuvm out of memory" ++ [10]) [];;
          deallocuvm pgdir newsz oldsz;;
          mret 0
        else
          upd_mem (fun m => memset m pg 0 PGSIZE);;
          r ← mappages pgdir a PGSIZE (V2P pg) (Z.lor PTE_W PTE_U);
          if r <? 0 then
            cprintf (chars "allocuvm out of memory (2)" ++ [10]) [];;
            deallocuvm pgdir newsz oldsz;;
            kfree pg;;
            mret 0
          else alloc_loop k pgdir (uint32 (a + PGSIZE)) oldsz newsz
      else mret newsz
  end.

Definition allocuvm (pgdir oldsz newsz : Z) : K Z :=
  if newsz >=? KERNBASE then mret 0
  else if newsz <? oldsz then mret oldsz
  else alloc_loop (S (Z.to_nat (newsz / PGSIZE + 1))) pgdir (PGROUNDUP oldsz) oldsz newsz.

Definition clearpteu (pgdir uva : Z) : K unit :=
  pte ← walkpgdir pgdir uva false;
  if pte =? 0 then panic "clearpteu"
  else
    e ← kload pte;
    kstore pte (Z.land e (W32 - 1 - PTE_U)).

(** The loop of [copyuvm] from [i] on: whether every page was copied. *)
Fixpoint copy_loop (fuel : nat) (pgdir d i sz : Z) : K bool :=
  match fuel with
  | O => fun s => Stuck s
  | S k =>
      if i <? sz then
        pte ← walkpgdir pgdir i false;
        if pte =? 0 then panic "copyuvm: pte should exist"
        else
          e ← kload pte;
          if Z.land e PTE_P =? 0 then panic "copyuvm: page not present"
          else
            pg ← kalloc;
            if pg =? 0 then mret false
            else
              upd_mem (fun m => memmove m pg (P2V (PTE_ADDR e)) PGSIZE);;
              r ← mappages d i PGSIZE (V2P pg) (PTE_FLAGS e);
              if r <? 0 then
                kfree pg;;
                mret false
              else copy_loop k pgdir d (uint32 (i + PGSIZE)) sz
      else mret true
  end.

Definition copyuvm (pgdir sz : Z) : K Z :=
  d ← setupkvm;
  if d =? 0 then mret 0
  else
    ok ← copy_loop (S (Z.to_nat (sz / PGSIZE + 1))) pgdir d 0 sz;
    if (ok : bool) then mret d
    else
      freevm d;;
      mret 0.

(** ** Reaching another address space *)

(** Where [va] has no page table the code reads through NULL. *)
Definition uva2ka (pgdir uva : Z) : K Z :=
  pte ← walkpgdir pgdir uva false;
  if pte =? 0 then undef "uva2ka"
  else
    e ← kload pte;
    if Z.land e PTE_P =? 0 then mret 0
    else if Z.land e PTE_U =? 0 then mret 0
    else mret (P2V (PTE_ADDR e)).

(** [p] is an address in the object [ms]. *)
Fixpoint copyout_loop (fuel : nat) (pgdir va : Z) (ms : mem) (p len : Z) : K Z :=
  match fuel with
  | O => fun s => Stuck s
  | S k =>
      if 0 <? len then
        let va0 := PGROUNDDOWN va in
        pa0 ← uva2ka pgdir va0;
        if pa0 =? 0 then mret (-1)
        else
          let n := Z.min (PGSIZE - (va - va0)) len in
          upd_mem (fun m => memcopy m (pa0 + (va - va0)) ms p n);;
          copyout_loop k pgdir (uint32 (va0 + PGSIZE)) ms (p + n) (len - n)
      else mret 0
  end.

Definition copyout (pgdir va : Z) (ms : mem) (p len : Z) : K Z :=
  copyout_loop (S (Z.to_nat len)) pgdir va ms p len.

(** ** What the MMU makes of a page table *)

(** The physical address of [va], where it is mapped. *)
Definition translate (m : mem) (pgdir va : Z) : option Z :=
  let pde := load32 m (pgdir + 4 * PDX va) in
  if Z.land pde PTE_P =? 0 then None
  else
    let pte := load32 m (P2V (PTE_ADDR pde) + 4 * PTX va) in
    if Z.land pte PTE_P =? 0 then None else Some (PTE_ADDR pte + va mod PGSIZE).

(** The user memory of a process whose page directory is [pgdir]. *)
Definition user_mem (m : mem) (pgdir : Z) : mem := fun va =>
  match translate m pgdir va with
  | Some pa => m (P2V pa)
  | None => 0
  end.

(** [p_umem] written to the pages that [pgdir] maps below [n] pages. *)
Fixpoint flush_pages (n : nat) (va : Z) (pgdir : Z) (um m : mem) : mem :=
  match n with
  | O => m
  | S k =>
      flush_pages k (va + PGSIZE) pgdir um
        (match translate m pgdir va with
         | Some pa => memcopy m (P2V pa) um va PGSIZE
         | None => m
         end)
  end.

(** The process's memory as its pages hold it: between two runs of the code that
    reads or writes the pages themselves, [p_umem] is the one that is current. *)
Definition flush_user (i : nat) : K unit :=
  r ← gets (fun s => proc_at s i);
  upd_mem (flush_pages (Z.to_nat (PGROUNDUP (p_sz r) / PGSIZE)) 0 (p_pgdir r) (p_umem r)).

Definition load_user (i : nat) : K unit :=
  m ← gets k_mem;
  upd_proc i (fun r => proc_umem (user_mem m (p_pgdir r)) r).
