(* ===== verification/Paging.v ===== *)
(** * vm.c: what the page tables map

    A page directory is read as the map [pte] from addresses to entries.  The entries
    of one address space are in pages of their own, [tables]; the pages of the free
    list are none of them. *)

From S2P Require Import Prelude CString KState Spinlock Cprintf Proc Kalloc Vm.

(** ** Entries *)

Definition present (e : Z) : bool := negb (Z.land e PTE_P =? 0).

(** The kernel address of the page an entry points to. *)
Definition frame_of (e : Z) : Z := P2V (PTE_ADDR e).

Definition pde (m : mem) (d i : Z) : Z := load32 m (d + 4 * i).

(** The entry for [va]; none counts as 0. *)
Definition pte (m : mem) (d va : Z) : Z :=
  let e := pde m d (PDX va) in if present e then load32 m (frame_of e + 4 * PTX va) else 0.

Lemma pte_none m d va : present (pde m d (PDX va)) = false -> pte m d va = 0.
Proof. unfold pte. by intros ->. Qed.

Lemma PDX_div va : PDX va = (va / 4194304) mod 1024.
Proof. unfold PDX, PDXSHIFT. rewrite Z.shiftr_div_pow2 by done. change 1023 with (Z.ones 10). by rewrite Z.land_ones. Qed.

Lemma PTX_div va : PTX va = (va / 4096) mod 1024.
Proof. unfold PTX, PTXSHIFT. rewrite Z.shiftr_div_pow2 by done. change 1023 with (Z.ones 10). by rewrite Z.land_ones. Qed.

Lemma PDX_range va : 0 <= PDX va < 1024.
Proof. rewrite PDX_div. by apply Z.mod_pos_bound. Qed.

Lemma PTX_range va : 0 <= PTX va < 1024.
Proof. rewrite PTX_div. by apply Z.mod_pos_bound. Qed.

(** The two indices are the number of the page. *)
Lemma page_index va : 0 <= va < W32 -> va / PGSIZE = 1024 * PDX va + PTX va.
Proof.
  intros H. rewrite PDX_div, PTX_div. unfold PGSIZE, W32 in *.
  change 4194304 with (4096 * 1024). rewrite <- Z.div_div by done.
  rewrite (Z.mod_small (va / 4096 / 1024)); [apply Z.div_mod; done|].
  split; [apply Z.div_pos; [apply Z.div_pos|]; lia|].
  do 2 (apply Z.div_lt_upper_bound; [lia|]). lia.
Qed.

Lemma same_page va v : 0 <= va < W32 -> 0 <= v < W32 -> PDX va = PDX v -> PTX va = PTX v -> va / PGSIZE = v / PGSIZE.
Proof. intros H1 H2 E1 E2. by rewrite !page_index, E1, E2. Qed.

Lemma pte_page m d va v : 0 <= va < W32 -> 0 <= v < W32 -> va / PGSIZE = v / PGSIZE -> pte m d va = pte m d v.
Proof.
  intros H1 H2 E. rewrite !page_index in E by done. pose proof (PTX_range va). pose proof (PTX_range v).
  unfold pte. replace (PDX v) with (PDX va) by lia. by replace (PTX v) with (PTX va) by lia.
Qed.

(** Entries the code builds. *)
Definition entry (pa perm : Z) : Z := Z.lor (Z.lor pa perm) PTE_P.

Lemma land_low k q : 0 <= q < PGSIZE -> Z.land (k * PGSIZE) q = 0.
Proof.
  intros Hq. apply Z.bits_inj'. intros n Hn. rewrite Z.land_spec, Z.bits_0. change PGSIZE with (2 ^ 12) in *.
  destruct (Z_lt_dec n 12); [by rewrite Z.mul_pow2_bits_low|].
  rewrite <- (Z.mod_small q (2 ^ 12)) by done. rewrite Z.mod_pow2_bits_high by lia. apply andb_false_r.
Qed.

Lemma lor_small p q : 0 <= p < PGSIZE -> 0 <= q < PGSIZE -> 0 <= Z.lor p q < PGSIZE.
Proof.
  intros Hp Hq. assert (E : Z.lor p q = Z.lor p q mod 2 ^ 12); [|rewrite E; by apply Z.mod_pos_bound].
  apply Z.bits_inj'. intros n Hn. destruct (Z_lt_dec n 12); [by rewrite Z.mod_pow2_bits_low|].
  rewrite Z.mod_pow2_bits_high, Z.lor_spec by lia. change PGSIZE with (2 ^ 12) in *.
  rewrite <- (Z.mod_small p (2 ^ 12)), <- (Z.mod_small q (2 ^ 12)) by done. by rewrite !Z.mod_pow2_bits_high by lia.
Qed.

Lemma entry_present pa perm : present (entry pa perm) = true.
Proof.
  unfold present, entry, PTE_P. apply negb_true_iff, Z.eqb_neq. rewrite Z.land_lor_distr_l. change (Z.land 1 1) with 1.
  intros H. apply Z.lor_eq_0_iff in H. lia.
Qed.

Lemma page_max a : 0 <= a < W32 -> a mod PGSIZE = 0 -> a <= W32 - PGSIZE.
Proof. intros H Ha. apply Z.mod_divide in Ha as [k ->]; [|done]. unfold W32, PGSIZE in *. lia. Qed.

Section entry.
Context (pa perm : Z) (Hpa : 0 <= pa < W32) (Hal : pa mod PGSIZE = 0) (Hperm : 0 <= perm < PGSIZE).

Lemma entry_sum : entry pa perm = pa + Z.lor perm PTE_P.
Proof.
  pose proof (lor_small perm PTE_P Hperm ltac:(done)) as Hq. unfold entry. rewrite <- Z.lor_assoc. symmetry. apply Z.add_nocarry_lor.
  apply Z.mod_divide in Hal as [k ->]; [|done]. by apply land_low.
Qed.

Lemma entry_range : 0 <= entry pa perm < W32.
Proof. rewrite entry_sum. pose proof (lor_small perm PTE_P Hperm ltac:(done)). pose proof (page_max pa Hpa Hal). lia. Qed.

Lemma entry_addr : PTE_ADDR (entry pa perm) = pa.
Proof.
  unfold PTE_ADDR. rewrite page_mask by apply entry_range. rewrite entry_sum.
  pose proof (lor_small perm PTE_P Hperm ltac:(done)). apply Z.mod_divide in Hal as [k ->]; [|done].
  rewrite Z.div_add_l, (Z.div_small (Z.lor perm PTE_P)) by (done || lia). lia.
Qed.
End entry.

Lemma PTE_FLAGS_mod e : PTE_FLAGS e = e mod PGSIZE.
Proof. unfold PTE_FLAGS. change (PGSIZE - 1) with (Z.ones 12). by rewrite Z.land_ones. Qed.

Lemma PTE_FLAGS_range e : 0 <= PTE_FLAGS e < PGSIZE.
Proof. rewrite PTE_FLAGS_mod. by apply Z.mod_pos_bound. Qed.

(** The protection of an entry, copied, is the same. *)
Lemma entry_flags pa e : 0 <= pa < W32 -> pa mod PGSIZE = 0 -> present e = true -> PTE_FLAGS (entry pa (PTE_FLAGS e)) = PTE_FLAGS e.
Proof.
  intros Hpa Hal Hp. pose proof (PTE_FLAGS_range e) as Hr. rewrite PTE_FLAGS_mod, entry_sum by done.
  assert (E : Z.lor (PTE_FLAGS e) PTE_P = PTE_FLAGS e).
  { apply Z.bits_inj'. intros n Hn. rewrite Z.lor_spec. unfold present, PTE_P in *. destruct (Z.eq_dec n 0) as [->|].
    - unfold PTE_FLAGS. rewrite Z.land_spec. apply negb_true_iff, Z.eqb_neq in Hp. destruct (Z.testbit e 0) eqn:Eb; [done|].
      destruct Hp. apply Z.bits_inj'. intros k Hk. rewrite Z.land_spec, Z.bits_0. destruct (Z.eq_dec k 0) as [->|]; [by rewrite Eb|].
      change 1 with (2 ^ 0). rewrite (Z.pow2_bits_false 0) by lia. apply andb_false_r.
    - change 1 with (2 ^ 0). rewrite (Z.pow2_bits_false 0) by lia. apply orb_false_r. }
  rewrite E. apply Z.mod_divide in Hal as [q ->]; [|done]. rewrite Z.add_comm, Z.mod_add by done. by apply Z.mod_small.
Qed.

(** A page of the allocator by its two addresses. *)
Lemma page_V2P kend a : KERNBASE <= kend -> page_ok kend a -> V2P a = a - KERNBASE /\ 0 <= V2P a < W32 /\ V2P a mod PGSIZE = 0 /\ P2V (V2P a) = a.
Proof.
  intros Hk [Ha Hr]. assert (E : V2P a = a - KERNBASE) by (unfold V2P; apply uint32_small; unfold KERNBASE, PHYSTOP, W32 in *; lia).
  rewrite E. split_and!; [done|unfold KERNBASE, PHYSTOP, W32 in *; lia..| |].
  - replace (a - KERNBASE) with (a + (-524288) * PGSIZE) by (unfold KERNBASE, PGSIZE; lia). by rewrite Z.mod_add.
  - unfold P2V. rewrite uint32_small; unfold KERNBASE, PHYSTOP, W32 in *; lia.
Qed.

Lemma entry_frame kend a perm : KERNBASE <= kend -> page_ok kend a -> 0 <= perm < PGSIZE -> frame_of (entry (V2P a) perm) = a.
Proof. intros Hk Ha Hp. destruct (page_V2P kend a Hk Ha) as (_ & H1 & H2 & H3). unfold frame_of. by rewrite entry_addr. Qed.

(** ** The tables of an address space *)

(** Byte [x] is in the page at [a]. *)
Definition in_page (a x : Z) : Prop := a <= x < a + PGSIZE.

(** [a] is the page of the directory or of one of its tables. *)
Definition table_page (m : mem) (d a : Z) : Prop :=
  a = d \/ exists i, 0 <= i < 1024 /\ present (pde m d i) = true /\ a = frame_of (pde m d i).

Record tables (kend : Z) (l : list Z) (m : mem) (d : Z) : Prop := mkTables {
  tb_page : forall a, table_page m d a -> page_ok kend a /\ (a ∉ l);
  tb_dir : forall i, 0 <= i < 1024 -> present (pde m d i) = true -> frame_of (pde m d i) <> d;
  tb_inj : forall i j, 0 <= i < 1024 -> 0 <= j < 1024 -> present (pde m d i) = true -> present (pde m d j) = true ->
    frame_of (pde m d i) = frame_of (pde m d j) -> i = j
}.

(** The number of entries of a directory, sealed so that no proof unfolds it. *)
Lemma npde_sig : { n : nat | n = Z.to_nat NPDENTRIES }.
Proof. by eexists. Qed.
Definition npde : nat := proj1_sig npde_sig.

Lemma npde_eq : Z.of_nat npde = 1024.
Proof. unfold npde. rewrite (proj2_sig npde_sig). by rewrite Z2Nat.id. Qed.

Lemma idx_to i : 0 <= i < 1024 -> (Z.to_nat i < npde)%nat.
Proof. pose proof npde_eq. lia. Qed.

Lemma idx_of i : (i < npde)%nat -> 0 <= Z.of_nat i < 1024.
Proof. pose proof npde_eq. lia. Qed.

(** How many tables the directory lacks. *)
Definition absent (m : mem) (d : Z) : Z := count_idx (fun i => negb (present (pde m d (Z.of_nat i)))) npde.

Lemma pde_ext m m' d i : 0 <= i < 1024 -> (forall x, in_page d x -> m' x = m x) -> pde m' d i = pde m d i.
Proof. intros Hi H. apply load32_ext. intros x Hx. apply H. unfold in_page, PGSIZE. lia. Qed.

Section same_dir.
Context (m m' : mem) (d : Z) (Hd : forall i, 0 <= i < 1024 -> pde m' d i = pde m d i).

Lemma table_page_ext a : table_page m' d a <-> table_page m d a.
Proof.
  unfold table_page. split; (intros [->|(i & Hi & Hp & ->)]; [by left|right; exists i]); rewrite Hd in *; done.
Qed.

Lemma tables_ext kend l : tables kend l m d -> tables kend l m' d.
Proof.
  intros [A B C]. split.
  - intros a Ha. by apply A, table_page_ext.
  - intros i Hi. rewrite Hd by done. by apply B.
  - intros i j Hi Hj. rewrite !Hd by done. by apply C.
Qed.

Lemma absent_ext : absent m' d = absent m d.
Proof. apply count_idx_ext. intros i Hi. rewrite Hd; [done|by apply idx_of]. Qed.
End same_dir.

Section tables.
Context (kend : Z) (l : list Z) (m : mem) (d : Z) (Ht : tables kend l m d).

Lemma dir_page : page_ok kend d.
Proof. apply (tb_page _ _ _ _ Ht). by left. Qed.

Lemma table_at i : 0 <= i < 1024 -> present (pde m d i) = true -> table_page m d (frame_of (pde m d i)).
Proof. intros Hi Hp. right. by exists i. Qed.

(** Two different pages of the address space share no byte. *)
Lemma tables_apart a b : table_page m d a -> table_page m d b -> a <> b -> a + PGSIZE <= b \/ b + PGSIZE <= a.
Proof. intros Ha Hb Hne. apply (pages_apart kend); [by apply Ht|by apply Ht|done]. Qed.

(** An entry of a table changes. *)
Section store.
Context (va v : Z) (Hva : 0 <= va < W32) (Hv : 0 <= v < W32) (Hp : present (pde m d (PDX va)) = true).
Let t := frame_of (pde m d (PDX va)).
Let m' := store32 m (t + 4 * PTX va) v.

Lemma store_outside x : ~ in_page t x -> m' x = m x.
Proof. intros H. apply store32_ne. pose proof (PTX_range va). unfold in_page, PGSIZE in H. lia. Qed.

Lemma store_pde i : 0 <= i < 1024 -> pde m' d i = pde m d i.
Proof.
  intros Hi. apply pde_ext; [done|]. intros x Hx. apply store_outside. intros Hx'.
  pose proof (PDX_range va) as Hr. destruct (tables_apart d t) as [H|H]; [by left|by apply table_at|intros E; by apply (tb_dir _ _ _ _ Ht (PDX va))| |];
    unfold in_page in *; lia.
Qed.

Lemma store_pte w : 0 <= w < W32 -> pte m' d w = if w / PGSIZE =? va / PGSIZE then v else pte m d w.
Proof.
  intros Hw. pose proof (PDX_range w). pose proof (PTX_range w). pose proof (PDX_range va). pose proof (PTX_range va).
  unfold pte. rewrite store_pde by done. destruct (Z.eqb_spec (w / PGSIZE) (va / PGSIZE)) as [E|E].
  - rewrite !page_index in E by done. replace (PDX w) with (PDX va) by lia. replace (PTX w) with (PTX va) by lia.
    rewrite Hp. by apply load32_store32.
  - destruct (present (pde m d (PDX w))) eqn:Ew; [|done]. unfold m'. apply load32_store32_ne.
    destruct (Z.eq_dec (PDX w) (PDX va)) as [E1|E1].
    + rewrite !page_index in E by done. fold t. rewrite E1. fold t. lia.
    + assert (Hne : frame_of (pde m d (PDX w)) <> t) by (intros X; apply E1; by apply (tb_inj _ _ _ _ Ht)).
      destruct (tables_apart (frame_of (pde m d (PDX w))) t) as [X|X]; [by apply table_at..|done| |]; unfold PGSIZE in X; lia.
Qed.
End store.
End tables.

(** The entry of a new table. *)
Lemma table_entry x : Z.lor (Z.lor (Z.lor x PTE_P) PTE_W) PTE_U = entry x 6.
Proof. unfold entry, PTE_P, PTE_W, PTE_U. rewrite <- !Z.lor_assoc. done. Qed.

(** A new table, the page [a] cleared. *)
Section new_table.
Context (kend : Z) (a : Z) (l : list Z) (m : mem) (d va : Z).
Context (Hk : KERNBASE <= kend) (Ht : tables kend (a :: l) m d) (Ha : page_ok kend a) (Hl : a ∉ l).
Context (Hp : present (pde m d (PDX va)) = false).
Let m' := store32 (memset m a 0 PGSIZE) (d + 4 * PDX va) (entry (V2P a) 6).

Lemma new_apart b : table_page m d b -> a + PGSIZE <= b \/ b + PGSIZE <= a.
Proof.
  intros Hb. destruct (tb_page _ _ _ _ Ht b Hb) as [Hb1 Hb2]. apply (pages_apart kend); [done|done|].
  intros ->. apply Hb2. by left.
Qed.

Lemma new_outside x : ~ in_page d x -> ~ in_page a x -> m' x = m x.
Proof.
  intros H1 H2. pose proof (PDX_range va). unfold m'. rewrite store32_ne by (unfold in_page, PGSIZE in *; lia).
  rewrite memset_spec by done. unfold inside, in_page in *. zcases; lia.
Qed.

Lemma new_pde i : 0 <= i < 1024 -> pde m' d i = if i =? PDX va then entry (V2P a) 6 else pde m d i.
Proof.
  intros Hi. pose proof (PDX_range va). destruct (page_V2P kend a Hk Ha) as (_ & V1 & V2 & _). unfold pde, m'.
  destruct (Z.eqb_spec i (PDX va)) as [->|Hne]; [by apply load32_store32, entry_range|].
  rewrite load32_store32_ne by lia. apply load32_ext. intros x Hx. rewrite memset_spec by done.
  destruct (new_apart d) as [X|X]; [by left| |]; unfold inside, PGSIZE in *; zcases; lia.
Qed.

Lemma new_frame : frame_of (entry (V2P a) 6) = a.
Proof. by apply (entry_frame kend). Qed.

Lemma new_pte w : pte m' d w = pte m d w.
Proof.
  pose proof (PDX_range w). pose proof (PTX_range w). unfold pte. rewrite new_pde by done. destruct (Z.eqb_spec (PDX w) (PDX va)) as [->|Hne].
  - rewrite entry_present, new_frame, Hp. unfold m'. pose proof (PDX_range va).
    rewrite load32_store32_ne by (destruct (new_apart d) as [X|X]; [by left| |]; unfold PGSIZE in X; lia).
    unfold load32. rewrite !memset_spec by done. unfold inside, PGSIZE. zcases; try lia. done.
  - destruct (present (pde m d (PDX w))) eqn:Ew; [|done]. apply load32_ext. intros x Hx.
    pose proof (table_at m d (PDX w) ltac:(done) Ew) as Hw. apply new_outside; intros X.
    + destruct (tables_apart kend (a :: l) m d Ht _ d Hw) as [Y|Y]; [by left|by apply (tb_dir _ _ _ _ Ht)| |]; unfold in_page, PGSIZE in *; lia.
    + destruct (new_apart _ Hw) as [Y|Y]; unfold in_page, PGSIZE in *; lia.
Qed.

Lemma new_table_page b : table_page m' d b <-> table_page m d b \/ b = a.
Proof.
  pose proof (PDX_range va) as Hr. unfold table_page. split.
  - intros [->|(i & Hi & Hpi & ->)]; [by left; left|]. rewrite new_pde in Hpi |- * by done.
    destruct (Z.eqb_spec i (PDX va)); [right; apply new_frame|left; right; by exists i].
  - intros [[->|(i & Hi & Hpi & ->)]| ->]; [by left| |]; right.
    + exists i. rewrite new_pde by done. destruct (Z.eqb_spec i (PDX va)) as [->|]; [congruence|done].
    + exists (PDX va). rewrite new_pde, Z.eqb_refl, entry_present, new_frame by done. done.
Qed.

Lemma new_tables : tables kend l m' d.
Proof.
  pose proof Ht as [A B C]. assert (Hda : a <> d) by (intros E; destruct (A d (or_introl eq_refl)) as [_ X]; apply X; rewrite E; by left).
  assert (Hold : forall i, 0 <= i < 1024 -> present (pde m d i) = true -> frame_of (pde m d i) <> a).
  { intros i Hi Hpi E. destruct (A _ (table_at _ _ _ Hi Hpi)) as [_ X]. apply X. rewrite E. by left. }
  split.
  - intros b [Hb| ->]%new_table_page; [|done]. destruct (A b Hb) as [H1 H2]. split; [done|]. intros X. apply H2. by right.
  - intros i Hi. rewrite new_pde by done. destruct (i =? PDX va); [by rewrite new_frame|by apply B].
  - intros i j Hi Hj. rewrite !new_pde by done. destruct (Z.eqb_spec i (PDX va)), (Z.eqb_spec j (PDX va)); rewrite ?new_frame.
    + congruence.
    + intros _ Hpj E. by destruct (Hold j Hj Hpj).
    + intros Hpi _ E. by destruct (Hold i Hi Hpi).
    + by apply C.
Qed.

Lemma new_absent : absent m' d = absent m d - 1.
Proof.
  pose proof (PDX_range va). unfold absent. rewrite (count_idx_ext _ (fun i => if decide (i = Z.to_nat (PDX va)) then false else negb (present (pde m d (Z.of_nat i))))).
  - rewrite (count_idx_change (fun i => negb (present (pde m d (Z.of_nat i)))) _ _ (Z.to_nat (PDX va))); [|by apply idx_to|].
    + rewrite Z2Nat.id by lia. rewrite Hp, decide_True by done. simpl. lia.
    + intros k Hne. by rewrite decide_False.
  - intros i Hi. apply idx_of in Hi. rewrite new_pde by lia. case_decide; zcases; try lia; [by rewrite entry_present|done].
Qed.
End new_table.

(** ** The routines on one address space *)

(** Only memory, the allocator and locks change. *)
Record mframe (s s' : kstate) : Prop := mkMframe {
  mf_rest : s' = set_core (k_core s') (set_mem (k_mem s') (set_kmem (k_kmem s') s));
  mf_end : km_end (k_kmem s') = km_end (k_kmem s)
}.

#[export] Instance mframe_preorder : PreOrder mframe.
Proof.
  split; [intros s; split; [by destruct s|done]|]. intros s1 s2 s3 [E1 F1] [E2 F2]. split; [|congruence].
  rewrite E2 at 1. rewrite E1. done.
Qed.

Section space.
Context (L : list lockid) (p : option nat) (Hni : LkKmem ∉ L).

(** The address space [d] and the free pages [l]. *)
Record space (s : kstate) (l : list Z) (d : Z) : Prop := mkSpace {
  sp_cpu : on_cpu L p (k_core s);
  sp_free : free_pages s l;
  sp_tables : tables (km_end (k_kmem s)) l (k_mem s) d
}.

(** Outside the tables of [d] and the free pages no byte changes; new tables come from
    the free pages. *)
Record grows (s : kstate) (l : list Z) (d : Z) (s' : kstate) (l' : list Z) : Prop := mkGrows {
  gw_frame : mframe s s';
  gw_space : space s' l' d;
  gw_list : l' `suffix_of` l;
  gw_count : Z.of_nat (length l') - absent (k_mem s') d = Z.of_nat (length l) - absent (k_mem s) d;
  gw_mem : forall x, (forall a, table_page (k_mem s) d a -> ~ in_page a x) -> (forall a, a ∈ l -> ~ in_page a x) ->
    k_mem s' x = k_mem s x;
  gw_page : forall a, table_page (k_mem s') d a -> table_page (k_mem s) d a \/ a ∈ l;
  gw_old : forall a, table_page (k_mem s) d a -> table_page (k_mem s') d a
}.

Lemma grows_refl s l d : space s l d -> grows s l d s l.
Proof. intros H. split; try done. by left. Qed.

Lemma grows_trans s l d s1 l1 s2 l2 : grows s l d s1 l1 -> grows s1 l1 d s2 l2 -> grows s l d s2 l2.
Proof.
  intros [A1 A2 A3 A4 A5 A6 A7] [B1 B2 B3 B4 B5 B6 B7]. assert (Hsub : forall a, a ∈ l1 -> a ∈ l).
  { destruct A3 as [k ->]. intros a Ha. apply elem_of_app. by right. }
  split; [by etransitivity|done|by etransitivity|lia| | |by auto].
  - intros x H1 H2. rewrite B5, A5; [done|done|done| |].
    + intros a Ha. destruct (A6 a Ha) as [H|H]; [by apply H1|by apply H2].
    + intros a Ha. by apply H2, Hsub.
  - intros a Ha. destruct (B6 a Ha) as [H|H]; [by apply A6|right; by apply Hsub].
Qed.

Lemma space_core s l d c : space s l d -> on_cpu L p c -> space (set_core c s) l d.
Proof. intros [H1 [F1 F2 F3 F4] H3] Hc. split; [done|by split|done]. Qed.

Lemma absent_bounds m d : 0 <= absent m d <= 1024.
Proof.
  unfold absent. pose proof (count_idx_bounds (fun i => negb (present (pde m d (Z.of_nat i)))) npde) as H. by rewrite npde_eq in H.
Qed.

Lemma absent_pos m d va : present (pde m d (PDX va)) = false -> 0 < absent m d.
Proof.
  intros Hp. pose proof (absent_bounds m d) as [H _]. apply Z.le_lteq in H as [H|E]; [done|]. unfold absent in E. symmetry in E. exfalso.
  rewrite count_idx_zero in E. specialize (E _ (idx_to _ (PDX_range va))). cbv beta in E.
  rewrite Z2Nat.id, Hp in E by apply PDX_range. discriminate.
Qed.

(** A fresh page becomes the table for [va]. *)
Lemma grows_new s a l d va c : space s (a :: l) d -> present (pde (k_mem s) d (PDX va)) = false -> on_cpu L p c ->
  let s' := set_core c (set_mem (store32 (memset (k_mem s) a 0 PGSIZE) (d + 4 * PDX va) (entry (V2P a) 6))
    (set_kmem (mkKmem (km_use_lock (k_kmem s)) (load32 (k_mem s) a) (km_end (k_kmem s))) s)) in
  grows s (a :: l) d s' l /\ (forall v, pte (k_mem s') d v = pte (k_mem s) d v) /\
  present (pde (k_mem s') d (PDX va)) = true /\ frame_of (pde (k_mem s') d (PDX va)) = a.
Proof.
  intros [Hc [F1 F2 F3 F4] Ht] Hp Hc' s'. apply NoDup_cons in F3 as [Hal Hnd]. assert (Ha : page_ok (km_end (k_kmem s)) a) by (apply F4; by left).
  pose proof (PDX_range va) as Hr. pose proof (dir_page _ _ _ _ Ht) as Hd.
  assert (Hpd : pde (k_mem s') d (PDX va) = entry (V2P a) 6) by (unfold s'; simpl; erewrite new_pde, Z.eqb_refl by done; done).
  split_and!.
  - split.
    + by split.
    + split; [done| |].
      * split; simpl; [done| |done|intros b Hb; apply F4; by right]. eapply linked_pages_ext; [|apply F2].
        intros b x Hb Hx. apply (new_outside a _ d va).
        -- destruct (tb_page _ _ _ _ Ht d (or_introl eq_refl)) as [_ Hdl]. pose proof (F4 b ltac:(by right)) as Hbp.
           destruct (pages_apart _ b d Hbp Hd) as [X|X]; [intros ->; apply Hdl; by right| |]; unfold in_page, PGSIZE in *; lia.
        -- pose proof (F4 b ltac:(by right)) as Hbp. destruct (pages_apart _ b a Hbp Ha) as [X|X]; [by intros ->| |]; unfold in_page, PGSIZE in *; lia.
      * simpl. by apply new_tables.
    + by exists [a].
    + simpl k_mem. rewrite (new_absent (km_end (k_kmem s)) a l) by done. simpl length. lia.
    + intros x H1 H2. simpl. apply new_outside; [apply H1; by left|apply H2; by left].
    + intros b Hb. simpl in Hb. apply (new_table_page (km_end (k_kmem s)) a l) in Hb as [Hb| ->]; try done; [by left|right; by left].
    + intros b Hb. simpl. apply (new_table_page (km_end (k_kmem s)) a l); try done. by left.
  - intros v. simpl. by apply (new_pte (km_end (k_kmem s)) a l).
  - rewrite Hpd. apply entry_present.
  - rewrite Hpd. by apply (entry_frame (km_end (k_kmem s))).
Qed.

Lemma wp_walk_alloc s l d va (Q : Z -> kstate -> Prop) : space s l d ->
  (forall r s' l', grows s l d s' l' -> (forall v, pte (k_mem s') d v = pte (k_mem s) d v) ->
    (r = 0 /\ l = [] /\ l' = [] /\ 0 < absent (k_mem s) d \/
     r <> 0 /\ present (pde (k_mem s') d (PDX va)) = true /\ r = frame_of (pde (k_mem s') d (PDX va)) + 4 * PTX va) -> Q r s') ->
  wp (walkpgdir d va true) s Q.
Proof.
  intros Hs HQ. pose proof (PDX_range va) as Hr. pose proof (PTX_range va) as Hrt. pose proof (fp_end _ _ (sp_free _ _ _ Hs)) as He.
  unfold walkpgdir, kload. wp1. fold (pde (k_mem s) d (PDX va)) (present (pde (k_mem s) d (PDX va))).
  destruct (present (pde (k_mem s) d (PDX va))) eqn:Hp.
  - apply wp_ret. apply (HQ _ s l); [by apply grows_refl|done|right]. fold (frame_of (pde (k_mem s) d (PDX va))).
    destruct (tb_page _ _ _ _ (sp_tables _ _ _ Hs) _ (table_at _ _ _ Hr Hp)) as [[_ Hf] _].
    split_and!; [unfold KERNBASE in *; lia|done|done].
  - simpl negb. cbv iota. wpb. eapply wp_kalloc; [apply Hs|done|]. intros c Hc. cbv zeta. destruct l as [|a l].
    + pose proof (fp_links _ _ (sp_free _ _ _ Hs)) as Hl. simpl in Hl. rewrite Hl. simpl. apply wp_ret.
      apply (HQ 0 (set_core c s) []); [|done|left; split_and!; [done..|by apply (absent_pos _ _ va)]].
      pose proof (space_core _ _ _ c Hs Hc). split; try done. by left.
    + pose proof (sp_free _ _ _ Hs) as [F1 [F2 _] _ F4]. rewrite F2. destruct (F4 a ltac:(by left)) as [_ Ha].
      assert (Hnz : a <> 0) by (unfold KERNBASE in *; lia). rewrite (proj2 (Z.eqb_neq a 0)) by done.
      unfold upd_mem, kstore. do 2 wp1. simpl k_mem. rewrite table_entry. destruct (grows_new s a l d va c Hs Hp Hc) as (G1 & G2 & G3 & G4).
      cbv zeta in *. apply wp_ret. apply (HQ _ _ l G1 G2). right. rewrite G4. split_and!; [unfold KERNBASE in *; lia|exact G3|done].
Qed.

(** An entry changes in its table. *)
Lemma free_pages_mem s l m' : free_pages s l -> (forall a x, a ∈ l -> in_page a x -> m' x = k_mem s x) -> free_pages (set_mem m' s) l.
Proof.
  intros [F1 F2 F3 F4] H. split; [done| |done|done]. eapply linked_pages_ext; [|exact F2].
  intros a x Ha Hx. apply (H a); [done|]. unfold in_page, PGSIZE. lia.
Qed.

Lemma grows_store s l d va v : space s l d -> 0 <= va < W32 -> 0 <= v < W32 -> present (pde (k_mem s) d (PDX va)) = true ->
  grows s l d (set_mem (store32 (k_mem s) (frame_of (pde (k_mem s) d (PDX va)) + 4 * PTX va) v) s) l.
Proof.
  intros [Hc Hf Ht] Hva Hv Hp. set (t := frame_of _). set (m' := store32 _ _ _).
  pose proof (table_at _ _ _ (PDX_range va) Hp) as Htp. fold t in Htp. destruct (tb_page _ _ _ _ Ht t Htp) as [Hpt Hnl].
  assert (Hd : forall i, 0 <= i < 1024 -> pde m' d i = pde (k_mem s) d i) by (intros i Hi; by apply (store_pde (km_end (k_kmem s)) l)).
  split.
  - by split.
  - split; [done| |by apply tables_ext with (m := k_mem s)]. apply free_pages_mem; [done|]. intros a x Ha Hx. apply store_outside.
    fold t. intros Hx'. destruct (pages_apart _ a t (fp_pages _ _ Hf a Ha) Hpt) as [H|H]; [by intros ->| |]; unfold in_page in *; lia.
  - done.
  - simpl. by rewrite (absent_ext (k_mem s) m').
  - intros x H1 _. apply store_outside. by apply H1.
  - intros a Ha. left. by apply (table_page_ext (k_mem s) m').
  - intros a Ha. by apply (table_page_ext (k_mem s) m').
Qed.

(** The entries after [n] pages from [a] on are mapped to [pa] on. *)
Definition maps (a n pa perm : Z) (e e' : Z -> Z) : Prop :=
  forall w, 0 <= w < W32 -> e' w = if (a <=? w) && (w <? a + n * PGSIZE) then entry (pa + (w / PGSIZE * PGSIZE - a)) perm else e w.

Lemma maps_none a pa perm e e' : (forall w, e' w = e w) -> maps a 0 pa perm e e'.
Proof. intros H w _. rewrite H. replace (a + 0 * PGSIZE) with a by lia. zcases; lia || done. Qed.

Lemma maps_trans a n m pa perm e e1 e2 : 0 <= n -> 0 <= m ->
  maps a n pa perm e e1 -> maps (a + n * PGSIZE) m (pa + n * PGSIZE) perm e1 e2 -> maps a (n + m) pa perm e e2.
Proof.
  intros Hn Hm A B w Hw. assert (Hp : 0 < PGSIZE) by done. rewrite B by done. zcases; simpl; try nia; rewrite ?A by done; zcases; simpl; try nia; try done; f_equal; lia.
Qed.

(** One page. *)
Lemma page_div a w : a mod PGSIZE = 0 -> (w / PGSIZE =? a / PGSIZE) = (a <=? w) && (w <? a + PGSIZE).
Proof.
  intros Ha. apply Z.mod_divide in Ha as [k ->]; [|done]. rewrite Z.div_mul by done. pose proof (Z.div_mod w PGSIZE ltac:(done)) as E.
  pose proof (Z.mod_pos_bound w PGSIZE ltac:(done)). unfold PGSIZE in *. zcases; simpl; try lia; done.
Qed.

Lemma maps_one a pa perm e e' : a mod PGSIZE = 0 ->
  (forall w, 0 <= w < W32 -> e' w = if w / PGSIZE =? a / PGSIZE then entry pa perm else e w) -> maps a 1 pa perm e e'.
Proof.
  intros Ha H w Hw. rewrite H, page_div, Z.mul_1_l by done. destruct ((a <=? w) && (w <? a + PGSIZE)) eqn:E; [|done].
  rewrite <- page_div in E by done. apply Z.eqb_eq in E. rewrite E. pose proof (Z.div_mod a PGSIZE ltac:(done)). f_equal. lia.
Qed.

(** One round of the loop of [mappages]. *)
Lemma wp_map_step s l d a pa perm (g : K Z) (Q : Z -> kstate -> Prop) :
  space s l d -> a mod PGSIZE = 0 -> 0 <= a < W32 -> pa mod PGSIZE = 0 -> 0 <= pa < W32 -> 0 <= perm < PGSIZE ->
  present (pte (k_mem s) d a) = false ->
  (forall s', grows s l d s' [] -> (forall w, pte (k_mem s') d w = pte (k_mem s) d w) -> Z.of_nat (length l) < absent (k_mem s) d -> Q (-1) s') ->
  (forall s' l', grows s l d s' l' -> maps a 1 pa perm (pte (k_mem s) d) (pte (k_mem s') d) -> wp g s' Q) ->
  wp (pt ← walkpgdir d a true;
      if pt =? 0 then mret (-1)
      else
        e ← kload pt;
        if negb (Z.land e PTE_P =? 0) then panic "remap"
        else
          kstore pt (Z.lor (Z.lor pa perm) PTE_P);;
          g) s Q.
Proof.
  intros Hs Hal Ha Hpal Hpa Hperm Hfree Hfail HQ. wpb. apply (wp_walk_alloc s l); try done.
  intros r s1 l1 G1 P1 [(-> & -> & -> & Hab)|(Hr & Hp & Er)].
  { rewrite Z.eqb_refl. apply wp_ret. apply Hfail; [done|done|]. simpl. lia. }
  rewrite (proj2 (Z.eqb_neq r 0)) by done. unfold kload, kstore. wp1. rewrite Er.
  assert (Ee : load32 (k_mem s1) (frame_of (pde (k_mem s1) d (PDX a)) + 4 * PTX a) = pte (k_mem s1) d a) by (unfold pte; by rewrite Hp).
  rewrite Ee. fold (present (pte (k_mem s1) d a)). rewrite P1, Hfree. wp1. fold (entry pa perm).
  pose proof (entry_range pa perm Hpa Hpal Hperm) as He. pose proof (grows_store s1 l1 d a _ (gw_space _ _ _ _ _ G1) Ha He Hp) as G2.
  apply (HQ _ l1 (grows_trans _ _ _ _ _ _ _ G1 G2)). apply maps_one; [done|]. intros w Hw. simpl. rewrite <- (P1 w).
  apply (store_pte (km_end (k_kmem s1)) l1); try done. apply (gw_space _ _ _ _ _ G1).
Qed.

Lemma wp_map_loop n : forall fuel s l d a pa perm (Q : Z -> kstate -> Prop),
  space s l d -> (n < fuel)%nat -> a mod PGSIZE = 0 -> pa mod PGSIZE = 0 -> 0 <= perm < PGSIZE ->
  0 <= a -> a + Z.of_nat n * PGSIZE < W32 -> 0 <= pa -> pa + Z.of_nat n * PGSIZE < W32 ->
  (forall w, a <= w < a + (Z.of_nat n + 1) * PGSIZE -> present (pte (k_mem s) d w) = false) ->
  (forall r s' l' k, grows s l d s' l' -> 0 <= k <= Z.of_nat n + 1 -> maps a k pa perm (pte (k_mem s) d) (pte (k_mem s') d) ->
    (r = 0 /\ k = Z.of_nat n + 1 \/ r = -1 /\ l' = [] /\ Z.of_nat (length l) < absent (k_mem s) d) -> Q r s') ->
  wp (map_loop fuel d a (a + Z.of_nat n * PGSIZE) pa perm) s Q.
Proof.
  induction n as [|n IH]; intros fuel s l d a pa perm Q Hs Hf Hal Hpal Hperm Ha Hlast Hpa Hplast Hfree HQ;
    (destruct fuel as [|fuel]; [lia|]); cbn [map_loop]; (apply (wp_map_step s l); try done; try (unfold PGSIZE in *; lia);
    [apply Hfree; unfold PGSIZE; lia| |]);
    try (intros s1 G1 P1 Hab; apply (HQ (-1) s1 [] 0); [done|lia|apply maps_none; exact P1|by right]); intros s1 l1 G1 M1.
  - rewrite (proj2 (Z.eqb_eq _ _)) by lia. apply wp_ret. by apply (HQ 0 s1 l1 1); [|lia| |left].
  - rewrite (proj2 (Z.eqb_neq _ _)) by (unfold PGSIZE; lia). rewrite !uint32_small by (unfold PGSIZE in *; lia).
    replace (a + Z.of_nat (S n) * PGSIZE) with (a + PGSIZE + Z.of_nat n * PGSIZE) by lia.
    apply (IH _ s1 l1); [apply G1|lia|by rewrite Z.add_mod, Hal by done|by rewrite Z.add_mod, Hpal by done|done|unfold PGSIZE in *; lia..| |].
    + intros w Hw. pose proof (page_max (a + Z.of_nat (S n) * PGSIZE) ltac:(unfold PGSIZE in *; lia) ltac:(by rewrite Z.mod_add)) as Hmx.
      rewrite M1 by (unfold PGSIZE in *; lia). replace ((a <=? w) && (w <? a + 1 * PGSIZE)) with false by (unfold PGSIZE in *; zcases; simpl; lia || done).
      apply Hfree. unfold PGSIZE in *. lia.
    + intros r s' l' k G2 Hk M2 Hres. apply (HQ r s' l' (1 + k)); [by eapply grows_trans|lia|apply (maps_trans _ _ _ _ _ _ (pte (k_mem s1) d)); [lia..|done|by rewrite !Z.mul_1_l]|].
      destruct Hres as [[-> ->]|(-> & -> & Hl)]; [left; lia|right; split_and!; [done|done|]]. pose proof (gw_count _ _ _ _ _ G1). lia.
Qed.

Lemma wp_mappages s l d va size pa perm (Q : Z -> kstate -> Prop) : space s l d -> va mod PGSIZE = 0 -> pa mod PGSIZE = 0 -> 0 <= perm < PGSIZE ->
  0 <= va -> 0 < size -> va + size <= W32 -> 0 <= pa -> pa + size <= W32 ->
  let n := (size + PGSIZE - 1) / PGSIZE in
  (forall w, va <= w < va + n * PGSIZE -> present (pte (k_mem s) d w) = false) ->
  (forall r s' l' k, grows s l d s' l' -> 0 <= k <= n -> maps va k pa perm (pte (k_mem s) d) (pte (k_mem s') d) ->
    (r = 0 /\ k = n \/ r = -1 /\ l' = [] /\ Z.of_nat (length l) < absent (k_mem s) d) -> Q r s') ->
  wp (mappages d va size pa perm) s Q.
Proof.
  intros Hs Hal Hpal Hperm Hva Hsz Hend Hpa Hpend n Hfree HQ. unfold mappages. apply Z.mod_divide in Hal as [q Eq]; [|done].
  rewrite (uint32_small (va + size - 1)) by lia. rewrite !PGROUNDDOWN_div by (unfold W32 in *; lia). set (k := Z.to_nat ((size - 1) / PGSIZE)).
  assert (Ek : Z.of_nat k = (size - 1) / PGSIZE) by (unfold k; rewrite Z2Nat.id; [done|apply Z.div_pos; [lia|done]]).
  assert (En : n = Z.of_nat k + 1).
  { unfold n. replace (size + PGSIZE - 1) with (size - 1 + 1 * PGSIZE) by lia. rewrite Z.div_add by done. lia. }
  pose proof (Z.div_mod (size - 1) PGSIZE ltac:(done)) as Ed. pose proof (Z.mod_pos_bound (size - 1) PGSIZE ltac:(done)) as Hm.
  assert (E1 : va / PGSIZE * PGSIZE = va) by (rewrite Eq, Z.div_mul by done; lia).
  assert (E2 : (va + size - 1) / PGSIZE * PGSIZE = va + Z.of_nat k * PGSIZE).
  { replace (va + size - 1) with (size - 1 + q * PGSIZE) by lia. rewrite Z.div_add by done. lia. }
  rewrite E1, E2, uint32_small by (unfold PGSIZE, W32 in *; lia). apply (wp_map_loop k _ s l); try done; try (unfold PGSIZE in *; lia).
  - replace (va + Z.of_nat k * PGSIZE - va) with (Z.of_nat k * PGSIZE) by lia. rewrite Z.div_mul by done. lia.
  - rewrite Eq. by apply Z.mod_mul.
  - intros w Hw. apply Hfree. lia.
  - rewrite <- En. done.
Qed.

(** ** A new address space *)

Lemma wp_kalloc_page s a l (Q : Z -> kstate -> Prop) : on_cpu L p (k_core s) -> free_pages s (a :: l) ->
  (forall s', on_cpu L p (k_core s') -> free_pages s' l -> mframe s s' -> k_mem s' = k_mem s -> page_ok (km_end (k_kmem s)) a -> a <> 0 ->
    a ∉ l -> Q a s') ->
  wp kalloc s Q.
Proof.
  intros Hc [F1 [F2 F2'] F3 F4] HQ. apply NoDup_cons in F3 as [Hal Hnd]. assert (Ha : page_ok (km_end (k_kmem s)) a) by (apply F4; by left).
  assert (Hnz : a <> 0) by (destruct Ha; unfold KERNBASE in *; lia).
  eapply wp_kalloc; [exact Hc|done|]. intros c Hc'. cbv zeta. rewrite F2, (proj2 (Z.eqb_neq a 0)) by done.
  apply HQ; [done| |by split|done|done|done|done]. split; [done|done|done|]. intros b Hb. apply F4. by right.
Qed.

(** A cleared page is a directory without tables. *)
Section fresh.
Context (kend d : Z) (l : list Z) (m : mem) (Hd : page_ok kend d) (Hdl : d ∉ l).
Let m' := memset m d 0 PGSIZE.

Lemma fresh_pde i : 0 <= i < 1024 -> pde m' d i = 0.
Proof. intros Hi. unfold pde, load32, m'. rewrite !memset_spec by done. unfold inside, PGSIZE. zcases; try lia. done. Qed.

Lemma fresh_tables : tables kend l m' d.
Proof.
  split.
  - intros a [->|(i & Hi & Hp & _)]; [done|]. by rewrite fresh_pde in Hp.
  - intros i Hi Hp. by rewrite fresh_pde in Hp.
  - intros i j Hi Hj Hp. by rewrite fresh_pde in Hp.
Qed.

Lemma fresh_pte w : pte m' d w = 0.
Proof. unfold pte. rewrite fresh_pde by apply PDX_range. done. Qed.

Lemma fresh_absent : absent m' d = 1024.
Proof. unfold absent. rewrite <- npde_eq. apply count_idx_full. intros k Hk. rewrite fresh_pde by (by apply idx_of). done. Qed.
End fresh.

(** A change inside the page [a], which is neither free nor a table. *)
Lemma space_mem s l d m' : space s l d ->
  (forall x, m' x <> k_mem s x -> exists a, in_page a x /\ page_ok (km_end (k_kmem s)) a /\ (a ∉ l) /\ ~ table_page (k_mem s) d a) ->
  space (set_mem m' s) l d /\ (forall w, pte m' d w = pte (k_mem s) d w) /\ absent m' d = absent (k_mem s) d /\
  (forall a, table_page m' d a <-> table_page (k_mem s) d a).
Proof.
  intros [Hc Hf Ht] Hm.
  assert (Hout : forall b x, page_ok (km_end (k_kmem s)) b -> (b ∈ l \/ table_page (k_mem s) d b) -> in_page b x -> m' x = k_mem s x).
  { intros b x Hb Hor Hx. destruct (Z.eq_dec (m' x) (k_mem s x)) as [|Hne]; [done|]. destruct (Hm x Hne) as (a & Hax & Ha & Hal & Hat).
    destruct (pages_apart _ a b Ha Hb) as [H|H]; [intros ->; by destruct Hor| |]; unfold in_page in *; lia. }
  assert (Hpd : forall i, 0 <= i < 1024 -> pde m' d i = pde (k_mem s) d i).
  { intros i Hi. apply pde_ext; [done|]. intros x Hx. apply (Hout d); [by apply (dir_page _ _ _ _ Ht)|right; by left|done]. }
  split_and!; [split; [done| |by apply (tables_ext (k_mem s))]| | by apply absent_ext|by apply table_page_ext].
  - apply free_pages_mem; [done|]. intros a x Ha Hx. apply (Hout a); [by apply Hf|by left|done].
  - intros w. unfold pte. pose proof (PDX_range w) as Hr. pose proof (PTX_range w). rewrite Hpd by done.
    destruct (present (pde (k_mem s) d (PDX w))) eqn:Hp; [|done]. apply load32_ext. intros x Hx.
    pose proof (table_at _ _ _ Hr Hp) as Htp. apply (Hout (frame_of (pde (k_mem s) d (PDX w)))); [by apply Ht|by right|].
    unfold in_page, PGSIZE. lia.
Qed.

(** Nothing is mapped outside [lo, hi). *)
Definition only_in (e : Z -> Z) (lo hi : Z) : Prop := forall w, 0 <= w < W32 -> w < lo \/ hi <= w -> e w = 0.

(** One entry of [kmap], with tables enough. *)
Lemma wp_kmap_step s l d k rest lo va size pa (Q : bool -> kstate -> Prop) :
  space s l d -> absent (k_mem s) d <= Z.of_nat (length l) ->
  virt k = va -> phys_start k = pa -> uint32 (phys_end k - phys_start k) = size -> 0 <= perm k < PGSIZE ->
  va mod PGSIZE = 0 -> size mod PGSIZE = 0 -> pa mod PGSIZE = 0 -> 0 <= va -> 0 < size -> va + size <= W32 -> 0 <= pa -> pa + size <= W32 ->
  only_in (pte (k_mem s) d) lo va -> lo <= va ->
  (forall s' l', grows s l d s' l' -> only_in (pte (k_mem s') d) lo (va + size) -> absent (k_mem s') d <= Z.of_nat (length l') ->
    wp (kmap_loop d rest) s' Q) ->
  wp (kmap_loop d (k :: rest)) s Q.
Proof.
  intros Hs Hen Ev Ep Es Hperm Hva Hsz Hpa H1 H2 H3 H4 H5 Hcl Hlo HQ. cbn [kmap_loop]. wpb. rewrite Ev, Ep, <- Ep, Es, Ep.
  assert (En : (size + PGSIZE - 1) / PGSIZE * PGSIZE = size).
  { apply Z.mod_divide in Hsz as [q ->]; [|done]. replace (q * PGSIZE + PGSIZE - 1) with (PGSIZE - 1 + q * PGSIZE) by lia.
    rewrite Z.div_add by done. rewrite (Z.div_small (PGSIZE - 1)) by (unfold PGSIZE; lia). lia. }
  apply (wp_mappages s l); try done.
  { intros w Hw. rewrite En in Hw. rewrite Hcl by lia. done. }
  intros r s' l' n G Hn M [[-> ->]|(_ & _ & Hc)]; [|lia]. simpl. apply (HQ s' l' G).
  - intros w Hw Ho. rewrite M by done. replace ((va <=? w) && (w <? va + _)) with false by (zcases; simpl; lia || done). apply Hcl; lia.
  - pose proof (gw_count _ _ _ _ _ G). lia.
Qed.

(** The linker's [data]: a page boundary above the kernel's text. *)
Definition data_ok (data : Z) : Prop := data mod PGSIZE = 0 /\ KERNLINK < data < KERNBASE + PHYSTOP.

Lemma wp_kmap_loop s l d data (Q : bool -> kstate -> Prop) :
  space s l d -> absent (k_mem s) d <= Z.of_nat (length l) -> data_ok data -> (forall w, pte (k_mem s) d w = 0) ->
  (forall s' l', grows s l d s' l' -> (forall w, 0 <= w < KERNBASE -> pte (k_mem s') d w = 0) -> Q true s') ->
  wp (kmap_loop d (kmap data)) s Q.
Proof.
  intros Hs Hen [Hd1 Hd2] Hz HQ. unfold kmap. assert (Hd3 : data mod PGSIZE = 0 /\ V2P data = data - KERNBASE /\ V2P data mod PGSIZE = 0 /\
    (data - KERNLINK) mod PGSIZE = 0 /\ (KERNBASE + PHYSTOP - data) mod PGSIZE = 0).
  { assert (E : V2P data = data - KERNBASE) by (apply uint32_small; unfold KERNLINK, EXTMEM, KERNBASE, PHYSTOP, W32 in *; lia).
    rewrite E. apply Z.mod_divide in Hd1 as [q ->]; [|done].
    split_and!; [by apply Z.mod_mul|done|apply Z.mod_divide; [done|]; exists (q - 524288); unfold KERNBASE, PGSIZE; lia|
      apply Z.mod_divide; [done|]; exists (q - 524544); unfold KERNLINK, EXTMEM, KERNBASE, PGSIZE; lia|
      apply Z.mod_divide; [done|]; exists (581632 - q); unfold KERNBASE, PHYSTOP, PGSIZE; lia]. }
  destruct Hd3 as (D1 & D2 & D3 & D4 & D5). rewrite D2 in *.
  assert (Hc0 : only_in (pte (k_mem s) d) KERNBASE KERNBASE) by (intros w _ _; apply Hz).
  apply (wp_kmap_step s l d _ _ KERNBASE KERNBASE EXTMEM 0); try done. intros s1 l1 G1 C1 A1.
  apply (wp_kmap_step s1 l1 d _ _ KERNBASE KERNLINK (data - KERNLINK) EXTMEM); try done; try exact (gw_space _ _ _ _ _ G1);
    try (unfold KERNLINK, EXTMEM, KERNBASE, PHYSTOP, W32 in *; lia).
  { cbn [phys_end phys_start]. change (V2P KERNLINK) with EXTMEM. rewrite uint32_small; unfold KERNLINK, EXTMEM, KERNBASE, PHYSTOP, W32 in *; lia. }
  intros s2 l2 G2 C2 A2. replace (KERNLINK + (data - KERNLINK)) with data in C2 by lia.
  apply (wp_kmap_step s2 l2 d _ _ KERNBASE data (KERNBASE + PHYSTOP - data) (data - KERNBASE)); try done; try exact (gw_space _ _ _ _ _ G2);
    try (unfold KERNLINK, EXTMEM, KERNBASE, PHYSTOP, W32 in *; lia).
  { cbn [phys_end phys_start]. rewrite uint32_small; unfold KERNLINK, EXTMEM, KERNBASE, PHYSTOP, W32 in *; lia. }
  intros s3 l3 G3 C3 A3. replace (data + (KERNBASE + PHYSTOP - data)) with (KERNBASE + PHYSTOP) in C3 by lia.
  assert (C3' : only_in (pte (k_mem s3) d) KERNBASE DEVSPACE) by (intros w Hw Ho; apply C3; [done|unfold DEVSPACE, KERNBASE, PHYSTOP in *; lia]).
  apply (wp_kmap_step s3 l3 d _ _ KERNBASE DEVSPACE (W32 - DEVSPACE) DEVSPACE); try done; try exact (gw_space _ _ _ _ _ G3). intros s4 l4 G4 C4 A4.
  cbn [kmap_loop]. apply wp_ret. apply (HQ s4 l4).
  - eapply grows_trans; [exact G1|]. eapply grows_trans; [exact G2|]. by eapply grows_trans.
  - intros w Hw. apply C4; [unfold KERNBASE, W32 in *; lia|left; lia].
Qed.

(** The address space [d] was built from the free pages [l]. *)
Record built (s : kstate) (l : list Z) (d : Z) (s' : kstate) (l' : list Z) : Prop := mkBuilt {
  bd_frame : mframe s s';
  bd_space : space s' l' d;
  bd_list : l' `suffix_of` l;
  bd_mem : forall x, (forall a, a ∈ l -> ~ in_page a x) -> k_mem s' x = k_mem s x;
  bd_tables : forall a, table_page (k_mem s') d a -> a ∈ l
}.

Lemma suffix_elem (l l' : list Z) a : l' `suffix_of` l -> a ∈ l' -> a ∈ l.
Proof. intros [k ->] Ha. apply elem_of_app. by right. Qed.

Lemma built_grows s l d s1 l1 s2 l2 : built s l d s1 l1 -> grows s1 l1 d s2 l2 -> built s l d s2 l2.
Proof.
  intros [A1 A2 A3 A4 A5] [B1 B2 B3 B4 B5 B6 B7]. split; [by etransitivity|done|by etransitivity| |].
  - intros x Hx. rewrite B5, A4; [done|done| |].
    + intros a Ha. by apply Hx, A5.
    + intros a Ha. by apply Hx, (suffix_elem l l1).
  - intros a Ha. destruct (B6 a Ha) as [H|H]; [by apply A5|by apply (suffix_elem l l1)].
Qed.

Lemma wp_setupkvm s l (Q : Z -> kstate -> Prop) :
  on_cpu L p (k_core s) -> free_pages s l -> 1025 <= Z.of_nat (length l) -> data_ok (vm_data (k_vm s)) ->
  (forall d s' l', d <> 0 -> built s l d s' l' -> Z.of_nat (length l') - absent (k_mem s') d = Z.of_nat (length l) - 1025 ->
    (forall w, 0 <= w < KERNBASE -> pte (k_mem s') d w = 0) -> Q d s') ->
  wp setupkvm s Q.
Proof.
  intros Hc Hf Hlen Hdata HQ. destruct l as [|d l]; [simpl in Hlen; lia|]. unfold setupkvm. wpb. apply (wp_kalloc_page s d l); [done|done|].
  intros s1 C1 F1 M1 E1 Hd Hnz Hdl. rewrite (proj2 (Z.eqb_neq d 0)) by done. unfold upd_mem. wp1.
  change (P2V PHYSTOP >? DEVSPACE) with false. cbv iota. wp1. set (s2 := set_mem _ s1).
  pose proof (mf_end _ _ M1) as Ek. pose proof (fp_pages _ _ Hf) as Hpg.
  assert (Hs2 : space s2 l d).
  { split; [done| |unfold s2; simpl; rewrite Ek; by apply fresh_tables]. apply free_pages_mem; [done|]. intros a x Ha Hx.
    rewrite memset_spec by done. destruct (pages_apart _ a d (Hpg a ltac:(by right)) Hd) as [H|H]; [by intros ->| |];
      unfold inside, in_page in *; zcases; lia. }
  assert (M2 : mframe s s2) by (etransitivity; [exact M1|by split]).
  assert (Ha2 : absent (k_mem s2) d = 1024) by apply fresh_absent.
  assert (Hvm : k_vm s2 = k_vm s) by (by rewrite (mf_rest _ _ M2)). rewrite Hvm.
  assert (B2 : built s (d :: l) d s2 l).
  { split; [done|done|by exists [d]| |].
    - intros x Hx. unfold s2. simpl. rewrite memset_spec, E1 by done. specialize (Hx d ltac:(by left)). unfold inside, in_page in *. zcases; lia.
    - intros a [->|(i & Hi & Hp & _)]; [by left|]. unfold s2 in Hp. simpl in Hp. by rewrite fresh_pde in Hp. }
  wpb. apply (wp_kmap_loop s2 l d); [done|simpl length in Hlen; lia|done|intros w; apply fresh_pte|].
  intros s3 l3 G3 Z3. apply wp_ret. pose proof (gw_count _ _ _ _ _ G3). apply (HQ d s3 l3); [done|by eapply built_grows| |done]. simpl length. lia.
Qed.

(** Looking up an entry of an address space. *)
Lemma wp_walk_lookup d va s (Q : Z -> kstate -> Prop) : tables (km_end (k_kmem s)) [] (k_mem s) d -> KERNBASE <= km_end (k_kmem s) ->
  (forall r, (if present (pde (k_mem s) d (PDX va)) then r <> 0 /\ load32 (k_mem s) r = pte (k_mem s) d va else r = 0) -> Q r s) ->
  wp (walkpgdir d va false) s Q.
Proof.
  intros Ht Hk HQ. unfold walkpgdir, kload. wp1. fold (pde (k_mem s) d (PDX va)) (present (pde (k_mem s) d (PDX va))).
  pose proof (PTX_range va). unfold pte in HQ. destruct (present (pde (k_mem s) d (PDX va))) eqn:Hp; simpl negb; cbv iota; apply wp_ret; apply HQ; [|done].
  destruct (tb_page _ _ _ _ Ht _ (table_at _ _ _ (PDX_range va) Hp)) as [[_ Hr] _].
  fold (frame_of (pde (k_mem s) d (PDX va))). split; [unfold KERNBASE in *; lia|done].
Qed.

(** ** Copying an address space *)

(** The user memory below [sz] of a process: pages of its own, none of them free. *)
Record user_space (s : kstate) (l : list Z) (d sz : Z) : Prop := mkUserSpace {
  us_tables : tables (km_end (k_kmem s)) l (k_mem s) d;
  us_page : forall v, 0 <= v < sz -> present (pte (k_mem s) d v) = true /\
    page_ok (km_end (k_kmem s)) (frame_of (pte (k_mem s) d v)) /\ (frame_of (pte (k_mem s) d v) ∉ l);
  us_table : forall v, 0 <= v < sz -> ~ table_page (k_mem s) d (frame_of (pte (k_mem s) d v));
  us_inj : forall v v', 0 <= v < sz -> 0 <= v' < sz -> frame_of (pte (k_mem s) d v) = frame_of (pte (k_mem s) d v') -> v / PGSIZE = v' / PGSIZE
}.

(** A page that is neither free nor a table keeps its bytes. *)
Lemma grows_keeps s l d s' l' f : space s l d -> grows s l d s' l' -> page_ok (km_end (k_kmem s)) f -> (f ∉ l) -> ~ table_page (k_mem s) d f ->
  (forall o, 0 <= o < PGSIZE -> k_mem s' (f + o) = k_mem s (f + o)) /\ (f ∉ l') /\ ~ table_page (k_mem s') d f.
Proof.
  intros [_ Hfr Htb] G Hf Hl Ht. split_and!.
  - intros o Ho. apply (gw_mem _ _ _ _ _ G); intros a Ha X.
    + destruct (pages_apart _ a f (proj1 (tb_page _ _ _ _ Htb a Ha)) Hf) as [H|H]; [by intros ->| |]; unfold in_page in X; lia.
    + destruct (pages_apart _ a f (fp_pages _ _ Hfr a Ha) Hf) as [H|H]; [by intros ->| |]; unfold in_page in X; lia.
  - intros X. by apply Hl, (suffix_elem l l'); [apply G|].
  - intros X. destruct (gw_page _ _ _ _ _ G f X); [by apply Ht|by apply Hl].
Qed.

Section copy.
Context (s0 : kstate) (l0 : list Z) (pg sz : Z) (Hf0 : free_pages s0 l0) (Hpar : user_space s0 l0 pg sz).
Let m0 := k_mem s0.
Let kend := km_end (k_kmem s0).

(** Memory that differs only in pages that were free. *)
Definition apart_from (m : mem) : Prop := forall x, (forall a, a ∈ l0 -> ~ in_page a x) -> m x = m0 x.

Lemma apart_page m b x : apart_from m -> page_ok kend b -> b ∉ l0 -> in_page b x -> m x = m0 x.
Proof.
  intros Hm Hb Hbl Hx. apply Hm. intros a Ha Hax. pose proof (fp_pages _ _ Hf0 a Ha) as Hap.
  destruct (pages_apart _ a b Hap Hb) as [H|H]; [by intros ->| |]; unfold in_page in *; lia.
Qed.

Lemma parent_pde m i : apart_from m -> 0 <= i < 1024 -> pde m pg i = pde m0 pg i.
Proof.
  intros Hm Hi. apply pde_ext; [done|]. intros x Hx. destruct (tb_page _ _ _ _ (us_tables _ _ _ _ Hpar) pg (or_introl eq_refl)).
  by apply (apart_page m pg).
Qed.

Lemma parent_pte m v : apart_from m -> pte m pg v = pte m0 pg v.
Proof.
  intros Hm. pose proof (PDX_range v) as Hr. pose proof (PTX_range v). unfold pte. rewrite parent_pde by done.
  destruct (present (pde m0 pg (PDX v))) eqn:Hp; [|done]. apply load32_ext. intros x Hx.
  destruct (tb_page _ _ _ _ (us_tables _ _ _ _ Hpar) _ (table_at _ _ _ Hr Hp)) as [H1 H2].
  apply (apart_page m (frame_of (pde m0 pg (PDX v)))); [done..|]. unfold in_page, PGSIZE. lia.
Qed.

Lemma parent_tables m : apart_from m -> tables kend [] m pg.
Proof.
  intros Hm. pose proof (us_tables _ _ _ _ Hpar) as [A B C]. apply (tables_ext m0); [by intros; apply parent_pde|]. split; [|done|done].
  intros a Ha. split; [by apply A|apply not_elem_of_nil].
Qed.

(** The page at [f] holds what the parent has at [v]. *)
Definition holds (m : mem) (f v : Z) : Prop := forall o, 0 <= o < PGSIZE -> m (f + o) = m0 (frame_of (pte m0 pg v) + o).

(** The copy has come to [i]. *)
Record copied (s : kstate) (l : list Z) (d i : Z) : Prop := mkCopied {
  cp_built : built s0 l0 d s l;
  cp_done : forall v, 0 <= v < i -> exists f, (f ∈ l0) /\ (f ∉ l) /\ ~ table_page (k_mem s) d f /\
    pte (k_mem s) d v = entry (V2P f) (PTE_FLAGS (pte m0 pg v)) /\ holds (k_mem s) f v;
  cp_inj : forall v v', 0 <= v < i -> 0 <= v' < i -> frame_of (pte (k_mem s) d v) = frame_of (pte (k_mem s) d v') -> v / PGSIZE = v' / PGSIZE;
  cp_rest : forall v, i <= v < KERNBASE -> pte (k_mem s) d v = 0
}.

Lemma copied_apart s l d i : copied s l d i -> apart_from (k_mem s).
Proof. intros [B _ _ _] x Hx. exact (bd_mem _ _ _ _ _ B x Hx). Qed.

(** A free page receives the parent's page at [i]. *)
Lemma copied_take s f l d i s1 : copied s (f :: l) d i -> free_pages s1 l -> on_cpu L p (k_core s1) -> mframe s s1 -> k_mem s1 = k_mem s ->
  0 <= i < sz ->
  let m2 := memmove (k_mem s) f (frame_of (pte m0 pg i)) PGSIZE in
  let s2 := set_mem m2 s1 in
  space s2 l d /\ built s0 l0 d s2 l /\ holds m2 f i /\ (forall w, pte m2 d w = pte (k_mem s) d w) /\
  absent m2 d = absent (k_mem s) d /\ (forall a, table_page m2 d a <-> table_page (k_mem s) d a) /\ (forall x, ~ in_page f x -> m2 x = k_mem s x).
Proof.
  intros C F1 C1 M1 E1 Hi m2 s2. pose proof (cp_built _ _ _ _ C) as B. pose proof (bd_space _ _ _ _ _ B) as [_ Hfr Ht].
  assert (Hend : km_end (k_kmem s) = kend) by apply (bd_frame _ _ _ _ _ B). pose proof (mf_end _ _ M1) as He1.
  assert (Hfl : f ∈ l0) by (apply (suffix_elem l0 (f :: l)); [apply B|by left]).
  pose proof (fp_nodup _ _ Hfr) as Hnd. apply NoDup_cons in Hnd as [Hnf _]. pose proof (fp_pages _ _ Hf0 f Hfl) as Hpf.
  assert (Hntf : ~ table_page (k_mem s) d f) by (intros X; destruct (tb_page _ _ _ _ Ht f X) as [_ Y]; apply Y; by left).
  assert (Hsp1 : space s1 l d).
  { split; [done|done|]. rewrite He1, E1. destruct Ht as [A B' C']. split; [|done|done]. intros a Ha. destruct (A a Ha) as [H1 H2].
    split; [done|]. intros X. apply H2. by right. }
  assert (Hout : forall x, ~ in_page f x -> m2 x = k_mem s x).
  { intros x Hx. unfold m2. rewrite memmove_spec by done. unfold inside, in_page in *. zcases; lia. }
  destruct (space_mem s1 l d m2 Hsp1) as (S2 & P2 & A2 & T2).
  { intros x Hx. exists f. rewrite E1 in *. destruct (Z_le_dec f x); [destruct (Z_lt_dec x (f + PGSIZE))|]; [|exfalso; apply Hx, Hout; unfold in_page; lia..].
    split_and!; [done|rewrite He1, Hend; done|done|done]. }
  rewrite E1 in *. split_and!; try done.
  - split; [etransitivity; [apply B|]; etransitivity; [exact M1|by split]|done|etransitivity; [|apply B]; by exists [f]| |].
    + intros x Hx. simpl. rewrite Hout by (by apply Hx). by apply (bd_mem _ _ _ _ _ B).
    + intros a Ha. apply (bd_tables _ _ _ _ _ B). by apply T2.
  - intros o Ho. unfold m2. rewrite memmove_spec by done. unfold inside. rewrite (proj2 (Z.leb_le _ _)), (proj2 (Z.ltb_lt _ _)) by lia. simpl.
    replace (frame_of (pte m0 pg i) + (f + o - f)) with (frame_of (pte m0 pg i) + o) by lia.
    destruct (us_page _ _ _ _ Hpar i Hi) as (_ & H1 & H2). apply (apart_page (k_mem s) (frame_of (pte m0 pg i))); [by apply (copied_apart _ _ d i C)|done|done|].
    unfold in_page. fold m0. lia.
Qed.

(** The page is mapped at [i]. *)
Lemma copied_map s f l d i s1 s3 l3 : copied s (f :: l) d i -> free_pages s1 l -> on_cpu L p (k_core s1) -> mframe s s1 -> k_mem s1 = k_mem s ->
  0 <= i < sz -> i mod PGSIZE = 0 -> sz <= KERNBASE ->
  let s2 := set_mem (memmove (k_mem s) f (frame_of (pte m0 pg i)) PGSIZE) s1 in
  grows s2 l d s3 l3 -> maps i 1 (V2P f) (PTE_FLAGS (pte m0 pg i)) (pte (k_mem s2) d) (pte (k_mem s3) d) ->
  copied s3 l3 d (i + PGSIZE).
Proof.
  intros C F1 C1 M1 E1 Hi Hal Hsz s2 G M. destruct (copied_take s f l d i s1 C F1 C1 M1 E1 Hi) as (S2 & B2 & H2 & P2 & A2 & T2 & O2). fold s2 in S2, B2.
  pose proof (cp_built _ _ _ _ C) as B. pose proof (bd_space _ _ _ _ _ B) as [_ Hfr Ht].
  assert (Hend : km_end (k_kmem s2) = kend) by apply (bd_frame _ _ _ _ _ B2).
  pose proof (fp_nodup _ _ Hfr) as Hnd. apply NoDup_cons in Hnd as [Hnf _]. assert (Hw : KERNBASE < W32) by done.
  assert (Hfl : f ∈ l0) by (apply (suffix_elem l0 (f :: l)); [apply B|by left]).
  assert (Hntf : ~ table_page (k_mem s) d f) by (intros X; destruct (tb_page _ _ _ _ Ht f X) as [_ Y]; apply Y; by left).
  assert (Hpg : forall g, g ∈ l0 -> page_ok (km_end (k_kmem s2)) g) by (rewrite Hend; apply Hf0).
  assert (Hpz : 0 < PGSIZE) by done.  pose proof (page_max i ltac:(lia) Hal) as Hmx. split; [exact (built_grows _ _ _ _ _ _ _ B2 G)| | |].
  - intros v Hv. destruct (Z_lt_dec v i) as [Hlt|Hge].
    + destruct (cp_done _ _ _ _ C v ltac:(lia)) as (g & G1 & G2 & G3 & G4 & G5). exists g.
      assert (G2' : g ∉ l) by (intros X; apply G2; by right). assert (Hgf : g <> f) by (intros ->; apply G2; by left).
      destruct (grows_keeps s2 l d s3 l3 g S2 G (Hpg g G1) G2') as (K1 & K2 & K3); [intros X; apply G3; by apply T2|]. split_and!; try done.
      * rewrite M by lia. replace ((i <=? v) && (v <? i + 1 * PGSIZE)) with false by (zcases; simpl; lia || done). simpl. by rewrite P2.
      * intros o Ho. rewrite K1 by done. simpl. rewrite O2; [by apply G5|]. intros X.
        destruct (pages_apart _ f g (Hpg f Hfl) (Hpg g G1)) as [Y|Y]; [done| |]; unfold in_page in X; lia.
    + exists f. destruct (grows_keeps s2 l d s3 l3 f S2 G (Hpg f Hfl) Hnf) as (K1 & K2 & K3); [intros X; apply Hntf; by apply T2|].
      assert (Ev : v / PGSIZE = i / PGSIZE) by (apply Z.eqb_eq; rewrite page_div by done; zcases; simpl; lia || done).
      assert (Ep : pte m0 pg v = pte m0 pg i) by (apply pte_page; lia || done). split_and!; try done.
      * rewrite M by lia. rewrite Ep. replace ((i <=? v) && (v <? i + 1 * PGSIZE)) with true by (zcases; simpl; lia || done).
        rewrite Ev. pose proof (Z.div_mod i PGSIZE ltac:(done)). f_equal. lia.
      * intros o Ho. rewrite K1, Ep by done. by apply H2.
  - assert (Hold : forall v, 0 <= v < i -> pte (k_mem s3) d v = pte (k_mem s) d v).
    { intros v Hv. rewrite M by lia. replace ((i <=? v) && (v <? i + 1 * PGSIZE)) with false by (zcases; simpl; lia || done). simpl. by rewrite P2. }
    assert (Hnew : forall v, i <= v < i + PGSIZE -> v / PGSIZE = i / PGSIZE /\ frame_of (pte (k_mem s3) d v) = f).
    { intros v Hv. assert (Ev : v / PGSIZE = i / PGSIZE) by (apply Z.eqb_eq; rewrite page_div by done; zcases; simpl; lia || done). split; [done|].
      rewrite M by lia. replace ((i <=? v) && (v <? i + 1 * PGSIZE)) with true by (zcases; simpl; lia || done). rewrite Ev.
      pose proof (Z.div_mod i PGSIZE ltac:(done)). replace (V2P f + _) with (V2P f) by lia. apply (entry_frame kend); [apply Hf0|by apply Hf0|apply PTE_FLAGS_range]. }
    assert (Hdis : forall v, 0 <= v < i -> frame_of (pte (k_mem s3) d v) <> f).
    { intros v Hv. rewrite Hold by done. destruct (cp_done _ _ _ _ C v Hv) as (g & G1 & G2 & _ & G4 & _). rewrite G4.
      rewrite (entry_frame kend); [|apply Hf0|by apply Hf0|apply PTE_FLAGS_range]. intros ->. apply G2. by left. }
    intros v v' Hv Hv' E. destruct (Z_lt_dec v i), (Z_lt_dec v' i).
    + rewrite !Hold in E by lia. by apply (cp_inj _ _ _ _ C); [lia..|].
    + destruct (Hdis v ltac:(lia)). rewrite E. by apply Hnew; lia.
    + destruct (Hdis v' ltac:(lia)). rewrite <- E. by apply Hnew; lia.
    + by rewrite (proj1 (Hnew v ltac:(lia))), (proj1 (Hnew v' ltac:(lia))).
  - intros v Hv. rewrite M by lia. replace ((i <=? v) && (v <? i + 1 * PGSIZE)) with false by (zcases; simpl; lia || done). simpl. rewrite P2.
    apply (cp_rest _ _ _ _ C). lia.
Qed.

Lemma wp_copy_loop n : forall fuel s l d i (Q : bool -> kstate -> Prop),
  copied s l d i -> (n < fuel)%nat -> 0 <= i -> i mod PGSIZE = 0 -> sz <= KERNBASE -> sz <= i + Z.of_nat n * PGSIZE < sz + PGSIZE ->
  Z.of_nat n <= Z.of_nat (length l) - absent (k_mem s) d ->
  (forall s' l' i', copied s' l' d i' -> sz <= i' -> Q true s') ->
  wp (copy_loop fuel pg d i sz) s Q.
Proof.
  assert (Hpz : 0 < PGSIZE) by done. assert (Hw : KERNBASE < W32 - PGSIZE) by done.
  induction n as [|n IH]; intros fuel s l d i Q C Hf Hi Hal Hsz Hn Hcnt HQ; (destruct fuel as [|fuel]; [lia|]); cbn [copy_loop].
  { destruct (Z.ltb_spec i sz); [lia|]. apply wp_ret. by apply (HQ s l i). }
  destruct (Z.ltb_spec i sz) as [Hlt|]; [|lia]. pose proof (cp_built _ _ _ _ C) as B. pose proof (copied_apart _ _ _ _ C) as Hap.
  assert (Hend : km_end (k_kmem s) = kend) by apply (bd_frame _ _ _ _ _ B). destruct (us_page _ _ _ _ Hpar i ltac:(lia)) as (Hpr & Hpo & _).
  fold m0 in Hpr, Hpo. pose proof (parent_pte _ i Hap) as Epte.
  wpb. apply wp_walk_lookup; [rewrite Hend; by apply parent_tables|apply (sp_free _ _ _ (bd_space _ _ _ _ _ B))|]. intros r Hr.
  destruct (present (pde (k_mem s) pg (PDX i))) eqn:Hpd; [|by rewrite <- Epte, (pte_none _ _ _ Hpd) in Hpr].
  destruct Hr as [Hr0 Hr]. rewrite (proj2 (Z.eqb_neq r 0)) by done. unfold kload. wp1. rewrite Hr, Epte.
  assert (Hp0 : (Z.land (pte m0 pg i) PTE_P =? 0) = false) by (by apply negb_true_iff). rewrite Hp0.
  pose proof (bd_space _ _ _ _ _ B) as [Hc Hfr _]. pose proof (absent_bounds (k_mem s) d) as Hab.
  destruct l as [|f l]; [simpl length in Hcnt; lia|]. wpb. apply (wp_kalloc_page s f l); [done|done|].
  intros s1 C1 F1 M1 E1 Hpf Hnz Hnf. rewrite (proj2 (Z.eqb_neq f 0)) by done. unfold upd_mem. wp1. rewrite E1. fold (frame_of (pte m0 pg i)).
  destruct (copied_take s f l d i s1 C F1 C1 M1 E1 ltac:(lia)) as (S2 & B2 & H2 & P2 & A2 & T2 & O2). set (s2 := set_mem _ s1) in *.
  destruct (page_V2P (km_end (k_kmem s)) f (fp_end _ _ Hfr) Hpf) as (_ & V1 & V2 & _). pose proof (page_max _ V1 V2) as V3.
  wpb. apply (wp_mappages s2 l); try done; try lia; [apply PTE_FLAGS_range| |].
  { intros w Hww. change ((PGSIZE + PGSIZE - 1) / PGSIZE) with 1 in Hww. assert (Epg : pte (k_mem s2) d w = 0); [|by rewrite Epg].
    change (k_mem s2) with (memmove (k_mem s) f (frame_of (pte m0 pg i)) PGSIZE). rewrite P2. apply (cp_rest _ _ _ _ C).
    assert (i <= KERNBASE - PGSIZE); [|lia]. apply Z.mod_divide in Hal as [q ->]; [|done]. unfold KERNBASE, PGSIZE in *. lia. }
  change ((PGSIZE + PGSIZE - 1) / PGSIZE) with 1. intros r' s3 l3 k G Hk M [[-> ->]|(_ & _ & Hbad)].
  2:{ exfalso. change (absent (k_mem s2) d) with (absent (memmove (k_mem s) f (frame_of (pte m0 pg i)) PGSIZE) d) in Hbad. rewrite A2 in Hbad. simpl length in Hcnt. lia. }
  simpl. rewrite uint32_small by lia. apply (IH _ s3 l3); try lia; [by apply (copied_map s f l d i s1)|by rewrite Z.add_mod, Hal by done| |done].
  pose proof (gw_count _ _ _ _ _ G) as Hg. change (absent (k_mem s2) d) with (absent (memmove (k_mem s) f (frame_of (pte m0 pg i)) PGSIZE) d) in Hg.
  rewrite A2 in Hg. simpl length in Hcnt. lia.
Qed.
End copy.
End space.

(** ** What the MMU sees *)

Lemma translate_pte m d va : translate m d va = if present (pte m d va) then Some (PTE_ADDR (pte m d va) + va mod PGSIZE) else None.
Proof.
  unfold translate, pte, present. fold (pde m d (PDX va)). destruct (Z.land (pde m d (PDX va)) PTE_P =? 0); simpl; [done|].
  fold (frame_of (pde m d (PDX va))). by destruct (_ =? 0).
Qed.

Lemma frame_off kend e o : KERNBASE <= kend -> page_ok kend (frame_of e) -> 0 <= o < PGSIZE -> P2V (PTE_ADDR e + o) = frame_of e + o.
Proof.
  intros Hk [Ha Hr] Ho. unfold frame_of, P2V in *. replace (PTE_ADDR e + o + KERNBASE) with (PTE_ADDR e + KERNBASE + o) by lia.
  rewrite <- uint32_add_l. apply uint32_small. unfold KERNBASE, PHYSTOP, PGSIZE, W32 in *. lia.
Qed.

Lemma user_mem_frame kend m d v : present (pte m d v) = true -> KERNBASE <= kend -> page_ok kend (frame_of (pte m d v)) ->
  user_mem m d v = m (frame_of (pte m d v) + v mod PGSIZE).
Proof.
  intros Hp Hk Hf. unfold user_mem. rewrite translate_pte, Hp. f_equal. apply (frame_off kend); [done|done|]. by apply Z.mod_pos_bound.
Qed.

(** Addresses in different frames differ. *)
Lemma translate_apart kend m d d' v v' : KERNBASE <= kend -> present (pte m d v) = true ->
  page_ok kend (frame_of (pte m d v)) -> page_ok kend (frame_of (pte m d' v')) -> frame_of (pte m d v) <> frame_of (pte m d' v') ->
  translate m d v <> translate m d' v'.
Proof.
  intros Hk Hp H1 H2 Hne. rewrite !translate_pte, Hp. destruct (present (pte m d' v')); [|done]. intros [= E].
  pose proof (Z.mod_pos_bound v PGSIZE ltac:(done)) as M1. pose proof (Z.mod_pos_bound v' PGSIZE ltac:(done)) as M2.
  apply (f_equal P2V) in E. rewrite !(frame_off kend) in E by done.
  destruct (pages_apart kend _ _ H1 H2 Hne) as [X|X]; lia.
Qed.

(** The copy, complete. *)
Lemma copied_user L p s l pg sz s' l' d i : KERNBASE <= km_end (k_kmem s) -> free_pages s l -> user_space s l pg sz ->
  copied L p s l pg s' l' d i -> sz <= i -> user_space s' l' d sz /\ user_space s' l' pg sz /\
  (forall v, 0 <= v < sz -> user_mem (k_mem s') d v = user_mem (k_mem s) pg v /\ PTE_FLAGS (pte (k_mem s') d v) = PTE_FLAGS (pte (k_mem s) pg v) /\
    user_mem (k_mem s') pg v = user_mem (k_mem s) pg v) /\
  (forall v v', 0 <= v < sz -> 0 <= v' < sz -> translate (k_mem s') d v <> translate (k_mem s') pg v').
Proof.
  intros Hk Hf Hu C Hi. pose proof (cp_built _ _ _ _ _ _ _ _ _ C) as B. pose proof (copied_apart _ _ _ _ _ _ _ _ _ C) as Hap.
  assert (Hend : km_end (k_kmem s') = km_end (k_kmem s)) by apply (bd_frame _ _ _ _ _ _ _ B).
  assert (Hpg : forall v, pte (k_mem s') pg v = pte (k_mem s) pg v) by (intros v; by apply (parent_pte s l pg sz)).
  assert (Hsub : forall a, a ∈ l' -> a ∈ l) by (intros a; apply suffix_elem, B).
  assert (Hch : forall v, 0 <= v < sz -> exists f, (f ∈ l) /\ (f ∉ l') /\ pte (k_mem s') d v = entry (V2P f) (PTE_FLAGS (pte (k_mem s) pg v)) /\
    frame_of (pte (k_mem s') d v) = f /\ page_ok (km_end (k_kmem s)) f /\ holds s pg (k_mem s') f v /\ ~ table_page (k_mem s') d f).
  { intros v Hv. destruct (cp_done _ _ _ _ _ _ _ _ _ C v ltac:(lia)) as (f & H1 & H2 & H3 & H4 & H5). exists f.
    pose proof (fp_pages _ _ Hf f H1) as Hpf. split_and!; try done. rewrite H4. apply (entry_frame (km_end (k_kmem s))); [done|done|apply PTE_FLAGS_range]. }
  split_and!.
  - split; [apply B| | |].
    + intros v Hv. destruct (Hch v Hv) as (f & H1 & H2 & H3 & H4 & H5 & _). rewrite H4, H3, Hend. split_and!; [apply entry_present|done|done].
    + intros v Hv. destruct (Hch v Hv) as (f & H1 & H2 & H3 & H4 & H5 & _ & H6). by rewrite H4.
    + intros v v' Hv Hv'. apply (cp_inj _ _ _ _ _ _ _ _ _ C); lia.
  - split.
    + rewrite Hend. destruct (parent_tables s l pg sz Hf Hu _ Hap) as [A1 A2 A3]. split; [|done|done]. intros a Ha. split; [by apply A1|].
      intros X. destruct (tb_page _ _ _ _ (us_tables _ _ _ _ Hu) a) as [_ Y]; [|by apply Y, Hsub].
      apply (table_page_ext (k_mem s) (k_mem s')); [|done]. intros j Hj. by apply (parent_pde s l pg sz).
    + intros v Hv. rewrite Hpg, Hend. destruct (us_page _ _ _ _ Hu v Hv) as (H1 & H2 & H3). split_and!; [done|done|]. intros X. by apply H3, Hsub.
    + intros v Hv. rewrite Hpg. intros X. apply (us_table _ _ _ _ Hu v Hv). apply (table_page_ext (k_mem s) (k_mem s')); [|done].
      intros j Hj. by apply (parent_pde s l pg sz).
    + intros v v' Hv Hv'. rewrite !Hpg. by apply Hu.
  - intros v Hv. destruct (Hch v Hv) as (f & H1 & H2 & H3 & H4 & H5 & H6 & _). destruct (us_page _ _ _ _ Hu v Hv) as (U1 & U2 & U3).
    pose proof (Z.mod_pos_bound v PGSIZE ltac:(done)) as Hm. rewrite (user_mem_frame (km_end (k_kmem s)) (k_mem s) pg) by done.
    assert (Epr : present (pte (k_mem s') d v) = true) by (rewrite H3; apply entry_present). split_and!.
    + rewrite (user_mem_frame (km_end (k_kmem s)) (k_mem s') d); [|done|done|by rewrite H4]. rewrite H4. by apply H6.
    + rewrite H3. destruct (page_V2P _ f Hk H5) as (_ & V1 & V2 & _). by apply entry_flags.
    + rewrite (user_mem_frame (km_end (k_kmem s)) (k_mem s') pg) by (by rewrite ?Hpg). rewrite Hpg.
      apply (apart_page s l Hf _ (frame_of (pte (k_mem s) pg v))); [done..|]. unfold in_page. lia.
  - intros v v' Hv Hv'. destruct (Hch v Hv) as (f & H1 & H2 & H3 & H4 & H5 & _). destruct (us_page _ _ _ _ Hu v' Hv') as (U1 & U2 & U3).
    apply (translate_apart (km_end (k_kmem s))); [done|rewrite H3; apply entry_present|by rewrite H4|by rewrite Hpg|]. rewrite H4, Hpg. by intros ->.
Qed.

Lemma wp_copyuvm L p s l pgdir sz (Q : Z -> kstate -> Prop) : LkKmem ∉ L -> on_cpu L p (k_core s) -> free_pages s l -> user_space s l pgdir sz -> 0 <= sz <= KERNBASE ->
  data_ok (vm_data (k_vm s)) -> 1025 + (sz + PGSIZE - 1) / PGSIZE <= Z.of_nat (length l) ->
  (forall d s' l', d <> 0 -> mframe s s' ->
    (forall v, 0 <= v < sz -> user_mem (k_mem s') d v = user_mem (k_mem s) pgdir v /\
      PTE_FLAGS (pte (k_mem s') d v) = PTE_FLAGS (pte (k_mem s) pgdir v) /\ user_mem (k_mem s') pgdir v = user_mem (k_mem s) pgdir v) ->
    (forall v v', 0 <= v < sz -> 0 <= v' < sz -> translate (k_mem s') d v <> translate (k_mem s') pgdir v') ->
    free_pages s' l' -> on_cpu L p (k_core s') -> user_space s' l' d sz -> user_space s' l' pgdir sz -> Q d s') ->
  wp (copyuvm pgdir sz) s Q.
Proof.
  intros Hni Hc Hf Hu Hsz Hd Hen HQ. assert (Hpz : 0 < PGSIZE) by done. set (n := (sz + PGSIZE - 1) / PGSIZE) in *.
  assert (Hn : sz <= n * PGSIZE < sz + PGSIZE /\ 0 <= n).
  { pose proof (Z.div_mod (sz + PGSIZE - 1) PGSIZE ltac:(done)). pose proof (Z.mod_pos_bound (sz + PGSIZE - 1) PGSIZE ltac:(done)).
    fold n in H. split; [lia|]. apply Z.div_pos; lia. }
  unfold copyuvm. wpb. apply (wp_setupkvm L p Hni s l); [done|done|lia|done|]. intros d s1 l1 Hnz B1 Hcnt Hz.
  rewrite (proj2 (Z.eqb_neq d 0)) by done. wpb. apply (wp_copy_loop L p Hni s l pgdir sz Hf Hu (Z.to_nat n) _ s1 l1); try lia; try done.
  - split; [done|intros v Hv; lia|intros v v' Hv; lia|exact Hz].
  - apply Nat.lt_succ_r. apply Z2Nat.inj_le; [lia|pose proof (Z.div_pos sz PGSIZE); lia|].
    unfold n. replace (sz + PGSIZE - 1) with (sz - 1 + 1 * PGSIZE) by lia. rewrite Z.div_add by done.
    pose proof (Z.div_le_mono (sz - 1) sz PGSIZE ltac:(done) ltac:(lia)). lia.
  - intros s' l' i C Hi. apply wp_ret. pose proof (cp_built _ _ _ _ _ _ _ _ _ C) as B. pose proof (bd_space _ _ _ _ _ _ _ B) as [Hc' Hf' _].
    destruct (copied_user L p s l pgdir sz s' l' d i (fp_end _ _ Hf) Hf Hu C Hi) as (U1 & U2 & U3 & U4). apply (HQ d s' l'); try done. apply B.
Qed.

(** C34: [copyuvm], with which [fork] makes the child's memory.  For a process whose
    pages below [sz] are present and its own, and with free pages enough for the copies
    and for the tables of a directory, [copyuvm] returns a new page directory: every
    address below [sz] holds the same byte there as in the parent, with the same
    protection; the parent's memory is as before; no address of the child and of the
    parent is the same byte of physical memory; and both address spaces are again built
    from pages of their own that are not free. *)
Theorem copyuvm_copies (L : list lockid) (p : option nat) (s : kstate) (l : list Z) (pgdir sz : Z)
  (Hni : LkKmem ∉ L) (Hc : on_cpu L p (k_core s)) (Hf : free_pages s l) (Hu : user_space s l pgdir sz) (Hsz : 0 <= sz <= KERNBASE)
  (Hd : data_ok (vm_data (k_vm s))) (Hen : 1025 + (sz + PGSIZE - 1) / PGSIZE <= Z.of_nat (length l)) :
  wp (copyuvm pgdir sz) s (fun d s' => d <> 0 /\
    (forall v, 0 <= v < sz -> user_mem (k_mem s') d v = user_mem (k_mem s) pgdir v /\
      PTE_FLAGS (pte (k_mem s') d v) = PTE_FLAGS (pte (k_mem s) pgdir v) /\ user_mem (k_mem s') pgdir v = user_mem (k_mem s) pgdir v) /\
    (forall v v', 0 <= v < sz -> 0 <= v' < sz -> translate (k_mem s') d v <> translate (k_mem s') pgdir v') /\
    exists l', free_pages s' l' /\ on_cpu L p (k_core s') /\ user_space s' l' d sz /\ user_space s' l' pgdir sz).
Proof.
  apply (wp_copyuvm L p s l pgdir sz); try done. intros d s' l' Hnz _ H1 H2 Hf' Hc' U1 U2. split_and!; [done|exact H1|exact H2|]. exists l'. by split_and!.
Qed.

(** ** Writing to an address space *)

(** The bytes of one page of the process change. *)
Section write_page.
Context (s : kstate) (l : list Z) (d sz v : Z) (m' : mem) (Hk : KERNBASE <= km_end (k_kmem s)) (Hu : user_space s l d sz) (Hv : 0 <= v < sz)
  (Hsz : sz <= KERNBASE).
Let f := frame_of (pte (k_mem s) d v).
Context (Hm : forall x, ~ in_page f x -> m' x = k_mem s x).

Lemma write_table a x : table_page (k_mem s) d a -> in_page a x -> m' x = k_mem s x.
Proof.
  intros Ha Hx. apply Hm. intros X. destruct (us_page _ _ _ _ Hu v Hv) as (_ & Hf & _). fold f in Hf.
  destruct (pages_apart _ a f (proj1 (tb_page _ _ _ _ (us_tables _ _ _ _ Hu) a Ha)) Hf) as [H|H];
    [intros ->; by apply (us_table _ _ _ _ Hu v)|unfold in_page in *; lia..].
Qed.

Lemma write_pde i : 0 <= i < 1024 -> pde m' d i = pde (k_mem s) d i.
Proof. intros Hi. apply pde_ext; [done|]. intros x. apply write_table. by left. Qed.

Lemma write_pte w : pte m' d w = pte (k_mem s) d w.
Proof.
  pose proof (PDX_range w) as Hr. pose proof (PTX_range w). unfold pte. rewrite write_pde by done.
  destruct (present (pde (k_mem s) d (PDX w))) eqn:Hp; [|done]. apply load32_ext. intros x Hx.
  apply (write_table _ x (table_at _ _ _ Hr Hp)). unfold in_page, PGSIZE. lia.
Qed.

Lemma write_space : user_space (set_mem m' s) l d sz.
Proof.
  destruct Hu as [U1 U2 U3 U4]. split; simpl.
  - apply (tables_ext (k_mem s)); [apply write_pde|done].
  - intros w Hw. rewrite write_pte. by apply U2.
  - intros w Hw. rewrite write_pte. intros X. apply (U3 w Hw). by apply (table_page_ext (k_mem s) m' d write_pde).
  - intros w w' Hw Hw'. rewrite !write_pte. by apply U4.
Qed.

Lemma write_user w : 0 <= w < sz -> user_mem m' d w = if w / PGSIZE =? v / PGSIZE then m' (f + w mod PGSIZE) else user_mem (k_mem s) d w.
Proof.
  intros Hw. destruct (us_page _ _ _ _ Hu w Hw) as (W1 & W2 & _). destruct (us_page _ _ _ _ Hu v Hv) as (_ & V2 & _). fold f in V2.
  pose proof (Z.mod_pos_bound w PGSIZE ltac:(done)) as Hmod.
  rewrite (user_mem_frame (km_end (k_kmem s)) m'), (user_mem_frame (km_end (k_kmem s)) (k_mem s)) by (rewrite ?write_pte; done). rewrite write_pte.
  destruct (Z.eqb_spec (w / PGSIZE) (v / PGSIZE)) as [E|E].
  - f_equal. f_equal. unfold f. f_equal. apply pte_page; [unfold KERNBASE, W32 in *; lia..|done].
  - apply Hm. intros X. destruct (pages_apart _ _ f W2 V2) as [H|H]; [intros Y; apply E; by apply (us_inj _ _ _ _ Hu)|unfold in_page in X; lia..].
Qed.
End write_page.

Lemma wp_uva2ka s l d sz va (Q : Z -> kstate -> Prop) : KERNBASE <= km_end (k_kmem s) -> user_space s l d sz -> 0 <= va < sz ->
  Q (if Z.land (pte (k_mem s) d va) PTE_U =? 0 then 0 else frame_of (pte (k_mem s) d va)) s -> wp (uva2ka d va) s Q.
Proof.
  intros Hk Hu Hva HQ. destruct (us_page _ _ _ _ Hu va Hva) as (Hp & _ & _). unfold uva2ka. wpb. apply wp_walk_lookup; [|done|].
  { destruct (us_tables _ _ _ _ Hu) as [A B C]. split; [|done|done]. intros a Ha. split; [by apply A|apply not_elem_of_nil]. }
  intros r Hr. destruct (present (pde (k_mem s) d (PDX va))) eqn:Hpd; [|by rewrite (pte_none _ _ _ Hpd) in Hp].
  destruct Hr as [Hr0 Hr]. rewrite (proj2 (Z.eqb_neq r 0)) by done. unfold kload. wp1. rewrite Hr.
  replace (Z.land (pte (k_mem s) d va) PTE_P =? 0) with false by (symmetry; by apply negb_true_iff).
  destruct (Z.land (pte (k_mem s) d va) PTE_U =? 0); by apply wp_ret.
Qed.

(** What one round of [copyout] writes, seen through the page table. *)
Lemma chunk_written s l d sz va ms a n : KERNBASE <= km_end (k_kmem s) -> user_space s l d sz -> sz <= KERNBASE -> 0 <= va < sz -> 0 <= n <= PGSIZE - va mod PGSIZE ->
  let f := frame_of (pte (k_mem s) d va) in
  forall v, 0 <= v < sz -> user_mem (memcopy (k_mem s) (f + va mod PGSIZE) ms a n) d v = if inside va n v then ms (a + (v - va)) else user_mem (k_mem s) d v.
Proof.
  intros Hk Hu Hsz Hva Hn f v Hv. set (o := va mod PGSIZE) in *. set (m' := memcopy _ _ _ _ _).
  pose proof (Z.mod_pos_bound va PGSIZE ltac:(done)) as Ho. pose proof (Z.mod_pos_bound v PGSIZE ltac:(done)) as Hm.
  pose proof (Z.div_mod va PGSIZE ltac:(done)) as E1. pose proof (Z.div_mod v PGSIZE ltac:(done)) as E2. fold o in Ho, E1.
  rewrite (write_user s l d sz va m' Hk Hu Hva Hsz) by (done || intros x Hx; unfold m', memcopy, in_page in *; fold f in Hx; zcases; simpl; lia || done).
  fold f. destruct (Z.eqb_spec (v / PGSIZE) (va / PGSIZE)) as [E|E].
  - rewrite E in E2. destruct (us_page _ _ _ _ Hu v Hv) as (V1 & V2 & _). unfold m', memcopy, inside.
    rewrite (user_mem_frame (km_end (k_kmem s)) (k_mem s)) by done.
    replace (frame_of (pte (k_mem s) d v)) with f by (unfold f; f_equal; symmetry; apply pte_page; unfold KERNBASE, W32 in *; lia || done).
    zcases; simpl; try lia; [f_equal; lia|done..].
  - unfold inside. zcases; simpl; [|done..]. destruct E. symmetry. apply (Z.div_unique v PGSIZE _ (v - va + o)); lia.
Qed.

Lemma wp_copyout_loop fuel d sz l : forall s va ms a len (Q : Z -> kstate -> Prop), KERNBASE <= km_end (k_kmem s) -> sz <= KERNBASE ->
  user_space s l d sz -> (Z.to_nat len < fuel)%nat -> 0 <= va -> 0 <= len -> len = 0 \/ va + len <= sz ->
  (forall v, va <= v < va + len -> Z.land (pte (k_mem s) d v) PTE_U <> 0) ->
  (forall m', let s' := set_mem m' s in user_space s' l d sz ->
    (forall v, 0 <= v < sz -> user_mem m' d v = if inside va len v then ms (a + (v - va)) else user_mem (k_mem s) d v) ->
    (forall w, pte m' d w = pte (k_mem s) d w) ->
    (forall x, (forall v, 0 <= v < sz -> ~ in_page (frame_of (pte (k_mem s) d v)) x) -> m' x = k_mem s x) -> Q 0 s') ->
  wp (copyout_loop fuel d va ms a len) s Q.
Proof.
  assert (Hpz : 0 < PGSIZE) by done. induction fuel as [|fuel IH]; intros s va ms a len Q Hk Hsz Hu Hf Hva Hlen Hend Hus HQ; [lia|]. cbn [copyout_loop].
  destruct (Z.ltb_spec 0 len) as [Hl|Hl].
  2:{ apply wp_ret. replace s with (set_mem (k_mem s) s) by by destruct s. apply HQ; [by destruct s| |done|done]. intros v Hv. unfold inside. zcases; simpl; lia || done. }
  assert (Hw : sz < W32 - PGSIZE) by (unfold KERNBASE, PGSIZE, W32 in *; lia). cbv zeta. rewrite PGROUNDDOWN_div by lia.
  pose proof (Z.div_mod va PGSIZE ltac:(done)) as Edm. pose proof (Z.mod_pos_bound va PGSIZE ltac:(done)) as Hm.
  set (va0 := va / PGSIZE * PGSIZE) in *. assert (E0 : va - va0 = va mod PGSIZE) by lia. rewrite E0. set (o := va mod PGSIZE) in *.
  assert (Hva0 : 0 <= va0) by (apply Z.mul_nonneg_nonneg; [by apply Z.div_pos|lia]).
  assert (Hv0 : va0 / PGSIZE = va / PGSIZE) by (unfold va0; by apply Z.div_mul).
  assert (Ept : pte (k_mem s) d va0 = pte (k_mem s) d va) by (apply pte_page; lia || done).
  wpb. apply (wp_uva2ka s l d sz); [done|done|lia|]. rewrite Ept, (proj2 (Z.eqb_neq (Z.land (pte (k_mem s) d va) PTE_U) 0)) by (apply Hus; lia).
  set (f := frame_of (pte (k_mem s) d va)). destruct (us_page _ _ _ _ Hu va ltac:(lia)) as (Hp & Hpf & _). fold f in Hpf.
  rewrite (proj2 (Z.eqb_neq f 0)) by (destruct Hpf; unfold KERNBASE in *; lia). set (n := Z.min (PGSIZE - o) len). unfold upd_mem. wp1.
  set (m' := memcopy (k_mem s) (f + o) ms a n). assert (Hn : 0 < n <= len /\ n <= PGSIZE - o) by (unfold n; lia).
  assert (Hout : forall x, ~ in_page f x -> m' x = k_mem s x) by (intros x Hx; unfold m', memcopy, in_page in *; zcases; simpl; lia || done).
  pose proof (write_space s l d sz va m' Hu ltac:(lia) Hout) as Hu'. pose proof (write_pte s l d sz va m' Hu ltac:(lia) Hout) as Hpt.
  rewrite uint32_small by lia. replace (va0 + PGSIZE) with (va + (PGSIZE - o)) by lia.
  apply IH; simpl; [done|done|done|lia..| |].
  - intros v Hv. rewrite Hpt. apply Hus. lia.
  - intros m2 Hs' Hmem Hp2 Ho2. apply (HQ m2); [done| |intros w; by rewrite Hp2|].
    + intros v Hv. rewrite Hmem by done. simpl.
      unfold m'. rewrite (chunk_written s l d sz va ms a n) by (done || lia). unfold inside. zcases; simpl; try lia; [f_equal; lia|done..].
    + intros x Hx. rewrite Ho2; [apply Hout, Hx; lia|]. intros v Hv. rewrite Hpt. by apply Hx.
Qed.

(** [copyout] writes through the page table of a process it does not run in.  Where every page of the range is present and user-accessible
    it returns 0, changes nothing of the kernel state but memory, and afterwards the process reads the [len] source bytes at [va] and its
    old bytes everywhere else; where the first page is not user-accessible (the guard page of [exec]) it returns -1 and writes nothing. *)
Theorem copyout_writes s l d sz va ms a len : KERNBASE <= km_end (k_kmem s) -> user_space s l d sz -> sz <= KERNBASE ->
  0 <= va -> 0 < len -> va + len <= sz ->
  ((forall v, va <= v < va + len -> Z.land (pte (k_mem s) d v) PTE_U <> 0) ->
   wp (copyout d va ms a len) s (fun r s' => r = 0 /\ s' = set_mem (k_mem s') s /\ user_space s' l d sz /\
     forall v, 0 <= v < sz -> user_mem (k_mem s') d v = if inside va len v then ms (a + (v - va)) else user_mem (k_mem s) d v)) /\
  (Z.land (pte (k_mem s) d va) PTE_U = 0 -> wp (copyout d va ms a len) s (fun r s' => r = -1 /\ s' = s)).
Proof.
  intros Hk Hu Hsz Hva Hlen Hend. split; intros Hus; unfold copyout.
  - apply (wp_copyout_loop _ d sz l); [done|done|done|lia|done|lia|lia|done|]. intros m' s' Hs' Hm _ _. done.
  - cbn [copyout_loop]. rewrite (proj2 (Z.ltb_lt 0 len)) by done. cbv zeta.
    assert (Hw : va < W32) by (unfold KERNBASE, PGSIZE, W32 in *; lia). rewrite PGROUNDDOWN_div by lia.
    pose proof (Z.mul_div_le va PGSIZE ltac:(done)). assert (0 <= va / PGSIZE * PGSIZE) by (apply Z.mul_nonneg_nonneg; [by apply Z.div_pos|done]).
    wpb. apply (wp_uva2ka s l d sz); [done|done|lia|].
    rewrite (pte_page (k_mem s) d (va / PGSIZE * PGSIZE) va), Hus by (lia || by rewrite Z.div_mul). by apply wp_ret.
Qed.

(** ** Example: a process of one page and 1,030 free pages *)
Module Forked.

Definition dir : Z := 2150629376.
Definition tab : Z := dir + 4096.
Definition page : Z := dir + 8192.
Definition first : Z := dir + 12288.
Definition count : Z := 1030.

(** Byte [o] of the word [v]. *)
Definition byte_of (v o : Z) : Z := byte8 (Z.shiftr v (8 * o)).

Definition fmem : mem := fun x =>
  if x <? first then
    if (dir <=? x) && (x <? dir + 4) then byte_of (entry (V2P tab) 6) (x - dir)
    else if (tab <=? x) && (x <? tab + 4) then byte_of (entry (V2P page) 6) (x - tab)
    else if page <=? x then x mod 256 else 0
  else
    let k := (x - first) / 4096 in
    let o := (x - first) mod 4096 in
    if o <? 4 then byte_of (if k <? count - 1 then first + (k + 1) * 4096 else 0) o else 0.

Fixpoint page_list (n : nat) (a : Z) : list Z :=
  match n with
  | O => []
  | S k => a :: page_list k (a + 4096)
  end.

Definition st : kstate := set_kmem (mkKmem true first dir) (set_mem fmem
  (set_vm (mkVm 0 2148630528 0) (start None (fun _ => zero_proc) empty_stab))).

Lemma free_word k : 0 <= k < count -> load32 fmem (first + k * 4096) = if k <? count - 1 then first + (k + 1) * 4096 else 0.
Proof.
  intros Hk. assert (H : forall o, 0 <= o < 4 -> fmem (first + k * 4096 + o) = byte_of (if k <? count - 1 then first + (k + 1) * 4096 else 0) o).
  { intros o Ho. unfold fmem. rewrite (proj2 (Z.ltb_ge _ first)) by lia. replace (first + k * 4096 + o - first) with (o + k * 4096) by lia.
    rewrite Z.div_add, Z.mod_add, (Z.div_small o), (Z.mod_small o) by lia. rewrite Z.add_0_l. by rewrite (proj2 (Z.ltb_lt o 4)) by lia. }
  unfold load32. rewrite <- (Z.add_0_r (first + k * 4096)) at 1. rewrite !H by lia. unfold byte_of. rewrite Z.shiftr_0_r.
  apply word_bytes. unfold first, dir, count, W32 in *. destruct (_ <? _); lia.
Qed.

Lemma elem_page_list n : forall a x, x ∈ page_list n a -> exists k, 0 <= k < Z.of_nat n /\ x = a + k * 4096.
Proof.
  induction n as [|n IH]; intros a x; cbn [page_list]; [by intros ?%not_elem_of_nil|].
  intros [->|(k & Hk & ->)%IH]%elem_of_cons; [exists 0; lia|exists (k + 1); lia].
Qed.

Lemma page_list_nodup n : forall a, NoDup (page_list n a).
Proof.
  induction n as [|n IH]; intros a; cbn [page_list]; constructor; [|apply IH].
  intros (k & Hk & E)%elem_page_list. lia.
Qed.

Lemma length_page_list n : forall a, length (page_list n a) = n.
Proof. induction n as [|n IH]; intros a; cbn [page_list length]; [done|]. by rewrite IH. Qed.

Lemma linked_list n : forall k, 0 <= k -> k + Z.of_nat n = count ->
  linked_pages fmem (if k <? count then first + k * 4096 else 0) (page_list n (first + k * 4096)).
Proof.
  induction n as [|n IH]; intros k Hk Hn; cbn [page_list linked_pages].
  - by rewrite (proj2 (Z.ltb_ge k count)) by lia.
  - rewrite (proj2 (Z.ltb_lt k count)) by lia. split; [done|]. rewrite free_word by lia.
    replace (first + k * 4096 + 4096) with (first + (k + 1) * 4096) by lia.
    replace (k <? count - 1) with (k + 1 <? count) by (zcases; lia || done). apply IH; lia.
Qed.

Definition frees : list Z := page_list (Z.to_nat count) first.

Lemma frees_pages x : x ∈ frees -> page_ok dir x /\ first <= x.
Proof.
  intros (k & Hk & ->)%elem_page_list. rewrite Z2Nat.id in Hk by done. unfold page_ok.
  change PGSIZE with 4096. rewrite Z.mod_add by done. unfold count, first, dir, KERNBASE, PHYSTOP in *. split_and!; [done|lia..].
Qed.

Lemma st_frees : free_pages st frees.
Proof.
  split; [done| |apply page_list_nodup|intros a Ha; by apply frees_pages]. change (km_freelist (k_kmem st)) with first.
  replace first with (first + 0 * 4096) by lia. exact (linked_list (Z.to_nat count) 0 ltac:(lia) ltac:(by rewrite Z2Nat.id)).
Qed.

Lemma st_pde i : 0 <= i < 1024 -> pde fmem dir i = if i =? 0 then entry (V2P tab) 6 else 0.
Proof.
  intros Hi. unfold pde. destruct (Z.eqb_spec i 0) as [->|Hne]; [vm_compute; reflexivity|].
  assert (H : forall o, 0 <= o < 4 -> fmem (dir + 4 * i + o) = 0).
  { intros o Ho. unfold fmem, first, page, tab. zcases; simpl; lia || done. }
  unfold load32. rewrite <- (Z.add_0_r (dir + 4 * i)) at 1. by rewrite !H by lia.
Qed.

Lemma st_pte v : 0 <= v < 4096 -> pte fmem dir v = entry (V2P page) 6.
Proof.
  intros Hv. unfold pte. replace (PDX v) with 0 by (rewrite PDX_div, Z.div_small; [done|lia]). rewrite st_pde by lia.
  replace (PTX v) with 0 by (rewrite PTX_div, Z.div_small; [done|lia]). vm_compute. reflexivity.
Qed.

Lemma st_low a : page_ok dir a -> a < first -> a ∉ frees.
Proof. intros _ Ha (_ & Hf)%frees_pages. lia. Qed.

Lemma st_user : user_space st frees dir 4096.
Proof.
  assert (Hd : page_ok dir dir) by (by split). assert (Ht : page_ok dir tab) by (by split). assert (Hp : page_ok dir page) by (by split).
  split.
  - change (k_mem st) with fmem. split.
    + intros a [->|(i & Hi & Hp' & ->)]; [split; [done|by apply st_low]|]. rewrite st_pde in Hp' |- * by done.
      destruct (i =? 0); [|done]. change (frame_of (entry (V2P tab) 6)) with tab. split; [done|by apply st_low].
    + intros i Hi. rewrite st_pde by done. by destruct (i =? 0).
    + intros i j Hi Hj. rewrite !st_pde by done. destruct (Z.eqb_spec i 0), (Z.eqb_spec j 0); [lia|done..].
  - intros v Hv. change (k_mem st) with fmem. rewrite st_pte by done. change (frame_of (entry (V2P page) 6)) with page.
    split_and!; [done|done|by apply st_low].
  - intros v Hv. change (k_mem st) with fmem. rewrite st_pte by done. change (frame_of (entry (V2P page) 6)) with page.
    intros [E|(i & Hi & Hp' & E)]; [done|]. rewrite st_pde in Hp', E by done. by destruct (i =? 0).
  - intros v v' Hv Hv' _. by rewrite !Z.div_small by (unfold PGSIZE; lia).
Qed.
End Forked.

Lemma copyuvm_copies_witness :
  wp (copyuvm Forked.dir 4096) Forked.st (fun d s' => d <> 0 /\ user_mem (k_mem s') d 5 = 5 /\
    translate (k_mem s') d 5 <> translate (k_mem s') Forked.dir 5).
Proof.
  refine (wp_mono _ _ _ _ _ (copyuvm_copies [] None Forked.st Forked.frees Forked.dir 4096 ltac:(by apply not_elem_of_nil) (one_cpu_on _)
    Forked.st_frees Forked.st_user ltac:(split; discriminate) ltac:(split; [reflexivity|split; reflexivity]) _)).
  - intros d s' (Hd & Hv & Ht & _). split; [exact Hd|]. split; [|apply Ht; lia]. rewrite (proj1 (Hv 5 ltac:(lia))). reflexivity.
  - unfold Forked.frees. rewrite Forked.length_page_list, Z2Nat.id by discriminate. vm_compute. discriminate.
Defined.

Lemma copyout_writes_witness :
  wp (copyout Forked.dir 100 (fun x => 7 * x) 3 10) Forked.st (fun r s' => r = 0 /\ user_mem (k_mem s') Forked.dir 104 = 49 /\
    user_mem (k_mem s') Forked.dir 110 = 110).
Proof.
  refine (wp_mono _ _ _ _ _ (proj1 (copyout_writes Forked.st Forked.frees Forked.dir 4096 100 (fun x => 7 * x) 3 10 _ Forked.st_user _ _ _ _) _)).
  2-6: vm_compute; first [reflexivity|discriminate].
  - intros r s' (Hr & _ & _ & Hv). split; [exact Hr|]. rewrite !Hv by lia. split; reflexivity.
  - intros v Hv. change (k_mem Forked.st) with Forked.fmem. rewrite Forked.st_pte by lia. vm_compute. discriminate.
Defined.
