(* ===== verification/File.v ===== *)
(** * file.c: open files, and pipealloc of pipe.c

    The table [ftable] is [k_file]; a [struct file*] is an index into it.  An
    address that [fileread], [filewrite] and [filestat] get is one of the
    running process.  The process's memory, which only the process itself
    changes, is written when [readi] returns; an access beyond its pages traps. *)

From S2P Require Import Prelude CString KState Spinlock Proc Sock SysArg Kalloc Pipe Sleeplock Bio Log Fs.

Definition file_at (s : kstate) (f : nat) : file := k_file s f.
Definition file_get (f : nat) : K file := gets (fun s => file_at s f).
Definition upd_file (f : nat) (g : file -> file) : K unit :=
  modify (fun s => set_file (<[f := g (file_at s f)]> (k_file s)) s).

Definition file_ref (x : Z) (f : file) : file :=
  mkFile (f_type f) x (f_readable f) (f_writable f) (f_pipe f) (f_ip f) (f_off f).
Definition file_type (x : filetype) (f : file) : file :=
  mkFile x (f_ref f) (f_readable f) (f_writable f) (f_pipe f) (f_ip f) (f_off f).
Definition file_off (x : Z) (f : file) : file :=
  mkFile (f_type f) (f_ref f) (f_readable f) (f_writable f) (f_pipe f) (f_ip f) x.
Definition file_pipe (r w : bool) (p : Z) (f : file) : file :=
  mkFile FD_PIPE (f_ref f) r w p (f_ip f) (f_off f).
Definition file_inode (r w : bool) (ip : nat) (f : file) : file :=
  mkFile FD_INODE (f_ref f) r w (f_pipe f) (Some ip) 0.

(** ** The table *)

Definition fileinit : K unit := initlock LkFtable "ftable".

Definition filealloc : K (option nat) :=
  acquire LkFtable;;
  hit ← gets (fun s => find_idx (fun f => f_ref (file_at s f) =? 0) NFILE);
  match hit with
  | Some f =>
      upd_file f (file_ref 1);;
      release LkFtable;;
      mret (Some f)
  | None =>
      release LkFtable;;
      mret None
  end.

Definition filedup (f : nat) : K nat :=
  acquire LkFtable;;
  x ← file_get f;
  if f_ref x <? 1 then panic "filedup"
  else
    upd_file f (file_ref (f_ref x + 1));;
    release LkFtable;;
    mret f.

(** [ilock] and [iput] of a file's inode; they panic or trap on NULL. *)
Definition file_ilock (o : option nat) : K unit :=
  match o with Some ip => ilock ip | None => panic "ilock" end.
Definition file_iput (o : option nat) : K unit :=
  match o with Some ip => iput ip | None => panic "trap" end.

Definition fileclose (f : nat) : K unit :=
  acquire LkFtable;;
  x ← file_get f;
  if f_ref x <? 1 then panic "fileclose"
  else
    upd_file f (file_ref (f_ref x - 1));;
    if 0 <? f_ref x - 1 then release LkFtable
    else
      ff ← file_get f;
      upd_file f (fun y => file_type FD_NONE (file_ref 0 y));;
      release LkFtable;;
      match f_type ff with
      | FD_PIPE => pipeclose (f_pipe ff) (f_writable ff)
      | FD_INODE =>
          begin_op;;
          file_iput (f_ip ff);;
          end_op
      | FD_NONE => mret tt
      end.

(** ** Reading and writing *)

(** A change of [n] bytes at [addr] of the running process's memory. *)
Definition upd_user (addr n : Z) (g : mem -> mem) : K unit := fun s =>
  match running s with
  | Some p =>
      if (0 <? n) && (mapped_end (proc_at s p) <? addr + n) then Panic "trap"
      else upd_proc p (fun r => proc_umem (g (p_umem r)) r) s
  | None => Undef "no user memory"
  end.

(** The fields of [struct stat] at [a]; the two bytes after a [short] stay. *)
Definition put_stat (x : stat) (a : Z) (m : mem) : mem :=
  store32 (store16 (store16 (store32 (store32 m (a + 4) (st_dev x)) (a + 8) (st_ino x))
    a (st_type x)) (a + 12) (st_nlink x)) (a + 16) (st_size x).

Definition STAT : Z := 20.

Definition filestat (f : nat) (st : Z) : K Z :=
  x ← file_get f;
  match f_type x with
  | FD_INODE =>
      file_ilock (f_ip x);;
      match f_ip x with
      | Some ip =>
          v ← stati ip;
          upd_user st STAT (put_stat v st);;
          iunlock ip
      | None => panic "iunlock"
      end;;
      mret 0
  | _ => mret (-1)
  end.

Definition fileread (dv : devsw) (f : nat) (addr n : Z) : K Z :=
  x ← file_get f;
  if negb (f_readable x) then mret (-1)
  else
    match f_type x with
    | FD_PIPE => piperead (f_pipe x) addr n
    | FD_INODE =>
        match f_ip x with
        | None => panic "ilock"
        | Some ip =>
            ilock ip;;
            off ← gets (fun s => f_off (file_at s f));
            q ← user_proc;
            '(r, md) ← readi dv ip (p_umem q) addr off (uint32 n);
            upd_user addr (Z.max 0 r) (fun _ => md);;
            when (0 <? r) (upd_file f (fun y => file_off (uint32 (f_off y + r)) y));;
            iunlock ip;;
            mret r
        end
    | FD_NONE => panic "fileread"
    end.

(** At most this many bytes per transaction. *)
Definition write_max : Z := (MAXOPBLOCKS - 1 - 1 - 2) / 2 * 512.

(** The loop of [filewrite] from byte [i] on; [i] at the end. *)
Fixpoint filewrite_loop (fuel : nat) (dv : devsw) (f ip : nat) (addr n i : Z) : K Z :=
  match fuel with
  | O => fun s => Stuck s
  | S k =>
      if i <? n then
        let n1 := Z.min (n - i) write_max in
        begin_op;;
        ilock ip;;
        off ← gets (fun s => f_off (file_at s f));
        q ← user_proc;
        r ← writei dv ip (p_umem q) (addr + i) off (uint32 n1);
        (if (0 <? r) && (mapped_end q <? addr + i + r) then panic "trap" else mret tt);;
        when (0 <? r) (upd_file f (fun y => file_off (uint32 (f_off y + r)) y));;
        iunlock ip;;
        end_op;;
        if r <? 0 then mret i
        else if negb (r =? n1) then panic "short filewrite"
        else filewrite_loop k dv f ip addr n (i + r)
      else mret i
  end.

Definition filewrite (dv : devsw) (f : nat) (addr n : Z) : K Z :=
  x ← file_get f;
  if negb (f_writable x) then mret (-1)
  else
    match f_type x with
    | FD_PIPE => pipewrite (f_pipe x) addr n
    | FD_INODE =>
        match f_ip x with
        | None =>
            if 0 <? n then
              begin_op;;
              panic "ilock"
            else mret (if n =? 0 then n else -1)
        | Some ip =>
            i ← filewrite_loop (S (Z.to_nat n)) dv f ip addr n 0;
            mret (if i =? n then n else -1)
        end
    | FD_NONE => panic "filewrite"
    end.

(** ** pipe.c: pipealloc *)

Definition close_opt (f : option nat) : K unit :=
  match f with Some f => fileclose f | None => mret tt end.

(** The label [bad] of [pipealloc]; the page was not allocated there. *)
Definition pipealloc_bad (f0 f1 : option nat) : K (option (nat * nat)) :=
  close_opt f0;;
  close_opt f1;;
  mret None.

Definition pipealloc : K (option (nat * nat)) :=
  f0 ← filealloc;
  match f0 with
  | None => pipealloc_bad None None
  | Some g0 =>
      f1 ← filealloc;
      match f1 with
      | None => pipealloc_bad f0 None
      | Some g1 =>
          p ← kalloc;
          if p =? 0 then pipealloc_bad f0 f1
          else
            upd_pipe p (fun x => mkPipe (pi_data x) 0 0 true true);;
            initlock (LkPipe p) "pipe";;
            upd_file g0 (file_pipe true false p);;
            upd_file g1 (file_pipe false true p);;
            mret (Some (g0, g1))
      end
  end.
