(* ===== verification/FileIO.v ===== *)
(** * file.c: writing a file is durable

    [filewrite] on a file of the disk, from the open file down to the blocks of the
    disk: each round of its loop is a transaction. *)

From S2P Require Import Prelude CString KState Spinlock Cprintf Proc Sock SockConc SysArg Kalloc Pipe Sleeplock Bio Log.
From S2P Require Import LogCrash Tx Fs Blocks Inode Content Oper File.

(** A file of the disk between two system calls: in the cache, unlocked, its blocks in
    order and its inode on the disk up to date; one block holds the free map. *)
Record writable (ip : nat) (f : fsst) : Prop := mkWritable {
  fd_idle : idle f;
  fd_layout : layout f;
  fd_small : sb_size (fs_sb f) <= BPB;
  fd_rest : at_rest (fs_inode f ip);
  fd_type : i_type (fs_inode f ip) <> T_DEV;
  fd_ok : file_ok f (fs_inode f ip);
  fd_synced : synced f (fs_inode f ip);
  fd_inum : inum_ok f (fs_inode f ip)
}.

(** The file system [f'] is [f] with [n] bytes of [ms] from [src] on written to the file
    at [off]. *)
Record stored (ip : nat) (f : fsst) (off n : Z) (ms : mem) (src : Z) (f' : fsst) : Prop := mkStored {
  so_sb : fs_sb f' = fs_sb f;
  so_start : lg_start (fs_log f') = lg_start (fs_log f);
  so_lsize : lg_size (fs_log f') = lg_size (fs_log f);
  so_others : forall j, j <> ip -> fs_inode f' j = fs_inode f j;
  so_inum : i_inum (fs_inode f' ip) = i_inum (fs_inode f ip);
  so_size : i_size (fs_inode f' ip) = Z.max (i_size (fs_inode f ip)) (off + n);
  so_byte : forall o, 0 <= o < Z.max (i_size (fs_inode f ip)) (off + n) ->
    fbyte f' (fs_inode f' ip) o = if (off <=? o) && (o <? off + n) then ms (src + (o - off)) else fbyte f (fs_inode f ip) o;
  so_content : forall b, settled f b -> ~ of_file f (fs_inode f ip) b -> b <> IBLOCK (i_inum (fs_inode f ip)) (fs_sb f) ->
    ~ in_log (fs_log f) b -> content f' b = content f b /\ ~ of_file f' (fs_inode f' ip) b;
  so_used : forall b, data_block f b -> data_block f' b;
  so_inodes : forall o, o < dip (i_inum (fs_inode f ip)) \/ dip (i_inum (fs_inode f ip)) + DINODE <= o ->
    content f' (IBLOCK (i_inum (fs_inode f ip)) (fs_sb f)) o = content f (IBLOCK (i_inum (fs_inode f ip)) (fs_sb f)) o
}.

Lemma stored_nothing ip f off ms src : off <= i_size (fs_inode f ip) -> stored ip f off 0 ms src f.
Proof.
  intros H. split; try done; [lia|]. intros o Ho. destruct (Z.leb_spec off o), (Z.ltb_spec o (off + 0)); simpl; (done || lia).
Qed.

Lemma stored_trans ip f off n ms src f1 m f2 : 0 <= off -> 0 <= n -> 0 <= m ->
  stored ip f off n ms src f1 -> stored ip f1 (off + n) m ms (src + n) f2 -> stored ip f off (n + m) ms src f2.
Proof.
  intros Ho Hn Hm [A1 A2 A3 A4 A5 A6 A7 A8 A9 A10] [B1 B2 B3 B4 B5 B6 B7 B8 B9 B10]. split; try congruence.
  - intros j Hj. rewrite B4 by done. by apply A4.
  - rewrite B6, A6. lia.
  - intros o Hoo. rewrite B7 by (rewrite A6; lia).
    destruct (Z.leb_spec (off + n) o), (Z.ltb_spec o (off + n + m)), (Z.leb_spec off o), (Z.ltb_spec o (off + (n + m))); simpl; try lia;
      [f_equal; lia| | |]; rewrite A7 by lia; destruct (Z.leb_spec off o), (Z.ltb_spec o (off + n)); simpl; (done || lia).
  - intros b Hs Hno Hne Hlog. destruct (A8 b Hs Hno Hne Hlog) as [E1 N1]. destruct (B8 b) as [E2 N2]; [|done|congruence| |split; [congruence|done]].
    + destruct Hs as [Hs|Hs]; [left; by rewrite A1|right; by apply A9].
    + unfold in_log in *. by rewrite A2, A3.
  - intros b Hb. by apply B9, A9.
  - intros o Ho'. rewrite A5, A1 in B10. rewrite B10 by done. by apply A10.
Qed.

(** One transaction around a write. *)
Lemma chunk_stored ip f0 l f2 off n ms src f3 l' f5 : writable ip f0 -> same_view f0 f2 ->
  (forall j, fs_inode f2 j = if bool_decide (j = ip) then inode_lock l (fs_inode f0 j) else fs_inode f0 j) ->
  written ip f2 off n ms src f3 -> same_view f3 f5 ->
  (forall j, fs_inode f5 j = if bool_decide (j = ip) then inode_lock l' (fs_inode f3 j) else fs_inode f3 j) ->
  idle f5 -> sl_locked l' = false -> 0 <= off <= i_size (fs_inode f0 ip) ->
  stored ip f0 off n ms src f5 /\ writable ip f5 /\ nfree f5 = nfree f3.
Proof.
  intros [Hid Hla Hsm Hre Hty Hok Hsy Hin] V0 I0 W V3 I3 Hi5 Hl' Hoff.
  pose proof (I0 ip) as Ex2. pose proof (I3 ip) as Ex5. rewrite bool_decide_true in Ex2, Ex5 by done.
  set (x := fs_inode f0 ip) in *. destruct W as [W1 W2 W3 W4 W5 W6 W7 W8 W9 W10 W11].
  rewrite Ex2 in W3, W4, W5, W6, W11. set (x3 := fs_inode f3 ip) in *.
  assert (Er : i_ref x3 = i_ref x) by (by rewrite W3). assert (Ev : i_valid x3 = i_valid x) by (by rewrite W3).
  assert (Et : i_type x3 = i_type x) by (by rewrite W3). assert (En : i_inum x3 = i_inum x) by (by rewrite W3).
  change (i_size (inode_lock l x)) with (i_size x) in *. change (i_inum (inode_lock l x)) with (i_inum x) in *.
  assert (Esb : fs_sb f3 = fs_sb f0) by (rewrite (kp_sb _ _ W1); apply V0).
  assert (Hin3 : inum_ok f3 x3) by (unfold inum_ok; by rewrite En, Esb).
  split; [|split; [|by apply view_nfree]].
  - assert (Hk : forall b, iblock f5 (inode_lock l' x3) b = iblock f3 x3 b) by (intros b; by apply (view_iblock f3 f5 V3 W8 x3 W9)).
    assert (Hib : forall b, iblock f2 (inode_lock l x) b = iblock f0 x b) by (intros b; by apply (view_iblock f0 f2 V0 Hla x Hok)).
    assert (Hdb : forall b, data_block f2 b <-> data_block f0 b) by (by apply view_data_block).
    split; rewrite ?Ex5; fold x; simpl; try done.
    + rewrite (sv_sb _ _ V3). done.
    + rewrite (sv_start _ _ V3), (kp_start _ _ W1). apply V0.
    + rewrite (sv_lsize _ _ V3), (kp_size _ _ W1). apply V0.
    + intros j Hj. rewrite I3, bool_decide_false, W2, I0, bool_decide_false by done. done.
    + intros o Ho. change (fbyte f5 (inode_lock l' x3) o) with (fbyte f5 x3 o).
      rewrite (view_fbyte f3 f5 V3 W8 x3 W9), W5 by lia. destruct ((off <=? o) && (o <? off + n)) eqn:Eb; [done|].
      change (fbyte f2 (inode_lock l x) o) with (fbyte f2 x o). apply (view_fbyte f0 f2 V0 Hla x Hok).
      apply andb_false_iff in Eb. rewrite Z.leb_gt, Z.ltb_ge in Eb. pose proof (fo_size _ _ Hok). lia.
    + intros b Hs Hno Hne Hlog. destruct (W6 b) as [Ec Hnf]; [| |by rewrite (sv_sb _ _ V0)|].
      * destruct Hs as [Hs|Hs]; [left; by rewrite (sv_sb _ _ V0)|right; by apply Hdb].
      * intros [H|(bn & Hbn & Hnz & E)]; apply Hno; [by left|]. rewrite Hib in Hnz, E. right. by exists bn.
      * split; [rewrite (sv_content _ _ V3), Ec; [by apply V0|]|].
        { unfold in_log in *. by rewrite (kp_start _ _ W1), (kp_size _ _ W1), (sv_start _ _ V0), (sv_lsize _ _ V0). }
        intros [H|(bn & Hbn & Hnz & E)]; apply Hnf; [by left|]. rewrite Hk in Hnz, E. right. by exists bn.
    + intros b Hb. by apply (view_data_block f3 f5 V3 W8), W7, Hdb.
    + intros o Ho. pose proof (iblock_range _ _ (la_geom _ Hla) Hin) as Hr. fold x in Hr.
      rewrite (view_content f3 f5 V3 W8) by (rewrite Esb; lia). rewrite (sv_sb _ _ V0) in W11. rewrite W11 by done.
      by rewrite (view_content f0 f2 V0 Hla) by lia.
  - split; rewrite ?Ex5; [done|by apply (view_layout f3)|by rewrite (sv_sb _ _ V3), Esb| | | | |].
    + destruct Hre as [R1 R2 R3]. split; simpl; [by rewrite Er|by rewrite Ev|done].
    + simpl. by rewrite Et.
    + apply file_ok_lock. by apply (view_file_ok f3).
    + apply synced_lock. by apply (view_synced f3).
    + by apply (view_inum f3 f5 V3 x3).
Qed.

Section fileio.
Context (cur : nat) (pid : Z).
Abbreviation tx := (tx pid).
Abbreviation fwp := (fwp cur pid).
Abbreviation fs_ready := (fs_ready cur pid).

Lemma wp_fwp_bind {A B} (m : K A) (g : A -> K B) s (Q : B -> kstate -> Prop) :
  fs_ready s -> fwp m s (fun a f => forall s1, k_fs s1 = f -> frame s s1 -> fs_ready s1 -> wp (g a) s1 Q) -> wp (m ≫= g) s Q.
Proof. intros Hr Hm. wpb. eapply wp_mono; [|by apply Hm]. intros a s1 (F & R & H). by apply H. Qed.

(** What the layers below do not touch. *)
Lemma frame_file s s' : frame s s' -> k_file s' = k_file s.
Proof. intros [_ ->]. done. Qed.

Lemma frame_user s s' : frame s s' -> p_umem (proc_at s' cur) = p_umem (proc_at s cur) /\ p_sz (proc_at s' cur) = p_sz (proc_at s cur).
Proof. intros [[H _ _] _]. unfold proc_at. destruct (H cur) as [->|[_ ->]]; done. Qed.

(** A write of at most [write_max] bytes touches at most four blocks of the file; with
    the blocks of the free map, the indirect block and the inode it needs no more than
    seven places of the log. *)
Lemma touched_chunk off n : 0 <= off -> n <= write_max -> touched off n <= 4.
Proof.
  intros Ho Hn. unfold touched. destruct (Z.leb_spec n 0); [lia|]. change write_max with 1536 in Hn.
  assert ((off + n - 1) / BSIZE <= off / BSIZE + 3); [|lia].
  pose proof (Z.div_le_mono (off + n - 1) (off + 3 * BSIZE) BSIZE ltac:(done) ltac:(unfold BSIZE; lia)).
  rewrite Z.div_add in H0 by done. lia.
Qed.

Lemma bm_gap_one f : 0 < sb_size (fs_sb f) <= BPB -> bm_gap f <= 1.
Proof.
  intros H. unfold bm_gap. pose proof (clean_le f (bmaps (fs_sb f))) as [_ Hc].
  assert (Hl : length (bmaps (fs_sb f)) = 1%nat); [|by rewrite Hl in Hc].
  unfold bmaps. rewrite length_fmap, length_seq, Z.div_small by lia. done.
Qed.

Lemma chunk_fits f x off n : 0 <= off -> n <= write_max -> 0 < sb_size (fs_sb f) <= BPB ->
  1 + touched off n + reserve f x <= 7.
Proof.
  intros Ho Hn Hs. pose proof (touched_chunk off n Ho Hn). pose proof (bm_gap_one f Hs). unfold reserve.
  pose proof (gap_range f (ind x)). destruct (ind x =? 0); lia.
Qed.

Lemma ready_running s : fs_ready s -> running s = Some cur.
Proof. intros [Hc _]. unfold running. by destruct (oc_here _ _ _ Hc) as (i & -> & -> & _). Qed.

Lemma fwp_user_proc_bind {A} (g : proc -> K A) s (Q : A -> fsst -> Prop) : fwp (g (proc_at s cur)) s Q -> fwp (user_proc ≫= g) s Q.
Proof. intros H Hr. specialize (H Hr). unfold wp, user_proc, mbind, M_bind in *. by rewrite (ready_running s Hr). Qed.

Lemma wp_user_proc_bind {A} (g : proc -> K A) s (Q : A -> kstate -> Prop) : fs_ready s -> wp (g (proc_at s cur)) s Q -> wp (user_proc ≫= g) s Q.
Proof. intros Hr H. unfold wp, user_proc, mbind, M_bind in *. by rewrite (ready_running s Hr). Qed.

(** The file system inside the transaction, the file locked. *)
Lemma opened_view ip l f : same_view f (with_lock ip l f).
Proof. by split. Qed.

Lemma lock_inode ip l f j : fs_inode (with_lock ip l f) j = if bool_decide (j = ip) then inode_lock l (fs_inode f j) else fs_inode f j.
Proof.
  unfold with_lock. simpl. destruct (decide (j = ip)) as [->|Hne]; [by rewrite fn_insert_eq, bool_decide_true|].
  by rewrite fn_insert_ne, bool_decide_false.
Qed.

Section opened.
Context (ip : nat) (f : fsst) (Hw : writable ip f).
Let f2 := with_lock ip (mkSl true pid) (with_log (log_outstanding 1 (fs_log f)) f).

Lemma opened_same : same_view f f2.
Proof. by split. Qed.

Lemma opened_tx : tx f2 [] 20.
Proof. apply tx_inode, idle_tx, Hw. Qed.

Lemma opened_file : fs_inode f2 ip = inode_lock (mkSl true pid) (fs_inode f ip).
Proof. unfold f2. by rewrite lock_inode, bool_decide_true. Qed.

Lemma opened_ok : layout f2 /\ file_ok f2 (fs_inode f2 ip) /\ synced f2 (fs_inode f2 ip) /\ inum_ok f2 (fs_inode f2 ip).
Proof.
  destruct Hw as [_ Hla _ _ _ Hok Hsy Hin]. rewrite opened_file.
  split_and!; [by apply (view_layout f _ opened_same)| | |exact Hin].
  - apply file_ok_lock. by apply (view_file_ok f _ opened_same).
  - apply synced_lock. by apply (view_synced f _ opened_same).
Qed.
End opened.

(** The offset moves on by what was transferred. *)
Lemma wp_advance_bind {A} fi r (k : K A) s (Q : A -> kstate -> Prop) : fs_ready s -> 0 <= r -> 0 <= f_off (file_at s fi) + r < W32 ->
  (forall s', fs_ready s' -> k_fs s' = k_fs s -> k_ptab s' = k_ptab s ->
    (forall j, file_at s' j = if bool_decide (j = fi) then file_off (f_off (file_at s fi) + r) (file_at s fi) else file_at s j) ->
    wp k s' Q) ->
  wp (when (0 <? r) (upd_file fi (fun y => file_off (uint32 (f_off y + r)) y));; k) s Q.
Proof.
  intros Hr Hr0 Ho HQ. destruct (Z.ltb_spec 0 r); simpl.
  - apply wp_modify_bind. apply HQ; [by destruct Hr; split|done|done|]. intros j. unfold file_at at 1. simpl. rewrite uint32_small by done.
    destruct (decide (j = fi)) as [->|Hne]; [by rewrite fn_insert_eq, bool_decide_true|]. by rewrite fn_insert_ne, bool_decide_false.
  - apply wp_ret_bind. apply HQ; [done|done|done|]. intros j. replace r with 0 by lia. rewrite Z.add_0_r.
    case_bool_decide; [subst; by destruct (file_at s fi)|done].
Qed.

(** The end of a round: the offset, the lock and the commit. *)
Lemma wp_round_close {A} fi ip a n1 q k (g : Z -> K A) s (Q : A -> kstate -> Prop) :
  fs_ready s -> i_lock (inode_at s ip) = mkSl true pid -> 1 <= i_ref (inode_at s ip) -> tx (k_fs s) [] k ->
  lg_committing (fs_log (k_fs s)) = false -> lg_outstanding (fs_log (k_fs s)) = 1 ->
  d_size (fs_disk (k_fs s)) <= 2147483648 -> LOGSIZE <= lg_size (fs_log (k_fs s)) ->
  0 < n1 -> a + n1 <= mapped_end q -> 0 <= f_off (file_at s fi) + n1 < W32 ->
  (forall s', fs_ready s' -> closed (with_lock ip (mkSl false 0) (k_fs s)) (k_fs s') ->
    (forall j, file_at s' j = if bool_decide (j = fi) then file_off (f_off (file_at s fi) + n1) (file_at s fi) else file_at s j) ->
    p_umem (proc_at s' cur) = p_umem (proc_at s cur) -> p_sz (proc_at s' cur) = p_sz (proc_at s cur) -> wp (g n1) s' Q) ->
  wp ((if (0 <? n1) && (mapped_end q <? a + n1) then panic "trap" else mret tt);;
      when (0 <? n1) (upd_file fi (fun y => file_off (uint32 (f_off y + n1)) y));;
      iunlock ip;;
      end_op;;
      g n1) s Q.
Proof.
  intros Hr Hl Href Ht Hc Ho Hd Hs Hn Ha Hoff HQ. rewrite (proj2 (Z.ltb_ge _ (a + n1))), andb_false_r by done.
  apply wp_ret_bind, wp_advance_bind; [done|lia|done|]. intros s4 R4 E4 P4 Hf4.
  assert (Ei : inode_at s4 ip = inode_at s ip) by (unfold inode_at; by rewrite E4).
  apply (wp_fwp_bind _ _ _ _ R4), fwp_iunlock; [by rewrite Ei|by rewrite Ei|].
  intros s5 E5 F5 R5. rewrite E4 in E5. apply (wp_fwp_bind _ _ _ _ R5). apply (fwp_end_op _ _ k); rewrite ?E5; try done; [by apply tx_inode|].
  intros f6 C6 s6 E6 F6 R6. assert (F : frame s4 s6) by (by etransitivity). destruct (frame_user _ _ F) as [Eu Ez].
  unfold proc_at in Eu, Ez. rewrite P4 in Eu, Ez.
  apply HQ; [done|by rewrite E6| |done|done]. intros j. unfold file_at at 1. rewrite (frame_file _ _ F). apply Hf4.
Qed.

(** The start of a round: the transaction, the lock, the offset and the process. *)
Lemma wp_round_open {A} fi ip (k : Z -> proc -> K A) s (Q : A -> kstate -> Prop) : fs_ready s -> writable ip (k_fs s) ->
  (forall s2, fs_ready s2 -> k_fs s2 = with_lock ip (mkSl true pid) (with_log (log_outstanding 1 (fs_log (k_fs s))) (k_fs s)) ->
    p_umem (proc_at s2 cur) = p_umem (proc_at s cur) -> p_sz (proc_at s2 cur) = p_sz (proc_at s cur) -> k_file s2 = k_file s ->
    wp (k (f_off (file_at s fi)) (proc_at s2 cur)) s2 Q) ->
  wp (begin_op;;
      ilock ip;;
      off ← gets (fun s => f_off (file_at s fi));
      q ← user_proc;
      k off q) s Q.
Proof.
  intros Hr Hw HQ. apply (wp_fwp_bind _ _ _ _ Hr), fwp_begin_op; [apply Hw|]. intros s1 E1 F1 R1.
  apply (wp_fwp_bind _ _ _ _ R1), fwp_ilock; [unfold inode_at; rewrite E1; apply Hw|]. intros s2 E2 F2 R2. rewrite E1 in E2.
  assert (F : frame s s2) by (by etransitivity). destruct (frame_user _ _ F) as [Eu Ez]. pose proof (frame_file _ _ F) as Ef.
  apply wp_gets_bind. unfold file_at at 1. rewrite Ef. apply wp_user_proc_bind; [done|]. by apply HQ.
Qed.

(** One round of the loop. *)
Lemma wp_filewrite_round {A} dv fi ip addr i n1 kf (g : Z -> K A) s (Q : A -> kstate -> Prop) :
  fs_ready s -> writable ip (k_fs s) -> 0 < n1 <= write_max -> f_off (file_at s fi) + n1 <= MAXFILE * BSIZE ->
  0 <= f_off (file_at s fi) <= i_size (inode_at s ip) -> addr + i + n1 <= mapped_end (proc_at s cur) ->
  0 <= kf -> kf + 4 + ind_need (inode_at s ip) <= nfree (k_fs s) ->
  (forall s', fs_ready s' -> writable ip (k_fs s') -> 
    stored ip (k_fs s) (f_off (file_at s fi)) n1 (p_umem (proc_at s cur)) (addr + i) (k_fs s') ->
    (forall j, file_at s' j = if bool_decide (j = fi) then file_off (f_off (file_at s fi) + n1) (file_at s fi) else file_at s j) ->
    p_umem (proc_at s' cur) = p_umem (proc_at s cur) -> p_sz (proc_at s' cur) = p_sz (proc_at s cur) ->
    kf + ind_need (inode_at s' ip) <= nfree (k_fs s') -> wp (g n1) s' Q) ->
  wp (begin_op;;
      ilock ip;;
      off ← gets (fun s => f_off (file_at s fi));
      q ← user_proc;
      r ← writei dv ip (p_umem q) (addr + i) off (uint32 n1);
      (if (0 <? r) && (mapped_end q <? addr + i + r) then panic "trap" else mret tt);;
      when (0 <? r) (upd_file fi (fun y => file_off (uint32 (f_off y + r)) y));;
      iunlock ip;;
      end_op;;
      g r) s Q.
Proof.
  intros Hr Hw Hn1 Hmax Hoff Hin Hkf Hsp HQ. set (off := f_off (file_at s fi)) in *. pose proof Hw as [Hid Hla Hsm Hre Hty Hok Hsy Hinum].
  apply wp_round_open; [done|done|]. intros s2 R2 E2 Eu Ez Ef. fold off.
  rewrite Eu. rewrite uint32_small by (unfold W32; change write_max with 1536 in *; lia).
  set (x2 := inode_at s2 ip). assert (Ex : x2 = inode_lock (mkSl true pid) (inode_at s ip)).
  { unfold x2, inode_at. rewrite E2. by apply opened_file. }
  destruct (opened_ok ip (k_fs s) Hw) as (Hla2 & Hok2 & Hsy2 & Hin2). rewrite <- E2 in Hla2, Hok2, Hsy2, Hin2.
  pose proof (opened_tx ip (k_fs s) Hw) as Ht2. rewrite <- E2 in Ht2.
  assert (Hfit : 1 + touched off n1 + reserve (k_fs s2) x2 <= 7).
  { apply chunk_fits; [lia|lia|]. rewrite E2. split; [|exact Hsm]. pose proof (data_start_pos _ (la_geom _ Hla)). apply (ge_size _ (la_geom _ Hla)). }
  assert (Hnf2 : nfree (k_fs s2) = nfree (k_fs s)) by (rewrite E2; by apply (view_nfree _ _ (opened_same ip (k_fs s)))).
  pose proof (touched_chunk off n1 ltac:(lia) ltac:(lia)) as Hto.
  apply (wp_fwp_bind _ _ _ _ R2).
  apply (fwp_writei _ _ _ _ _ _ _ _ (19 - touched off n1 - reserve (k_fs s2) x2) kf); fold x2; try done; try lia;
    rewrite ?Ex; try done; try (simpl; lia).
  { rewrite <- Ex. eapply tx_weaken; [exact Ht2|lia]. }
  { rewrite Hnf2. change (ind_need (inode_lock _ _)) with (ind_need (inode_at s ip)). lia. }
  intros f3 W T3 N3 s3 E3 F3 R3. pose proof (wn_kept _ _ _ _ _ _ _ W) as Kp. pose proof (wn_meta _ _ _ _ _ _ _ W) as Em.
  change (fs_inode (k_fs s2) ip) with x2 in Em. rewrite Ex in Em. assert (Ei : inode_at s3 ip = fs_inode f3 ip) by (unfold inode_at; by rewrite E3).
  destruct (frame_user _ _ F3) as [Eu3 Ez3]. pose proof (frame_file _ _ F3) as Ef3.
  assert (Efi : forall j, file_at s3 j = file_at s j) by (intros j; unfold file_at; by rewrite Ef3, Ef).
  assert (Eme : mapped_end (proc_at s2 cur) = mapped_end (proc_at s cur)) by (unfold mapped_end; by rewrite Ez).
  eapply wp_round_close; rewrite ?Efi; rewrite ?E3, ?Ei.
  - exact R3.
  - by rewrite Em.
  - rewrite Em. apply Hre.
  - exact T3.
  - rewrite (kp_com _ _ Kp), E2. exact (id_com _ Hid).
  - by rewrite (kp_out _ _ Kp), E2.
  - rewrite (kp_disk _ _ Kp), E2. exact (id_disk _ Hid).
  - rewrite (kp_size _ _ Kp), E2. exact (id_size _ Hid).
  - lia.
  - lia.
  - fold off. unfold W32. fs_lia.
  - intros s6 R6 C6 Hfi6 Eu6 Ez6. rewrite Eu3, Eu in Eu6. rewrite Ez3, Ez in Ez6.
    assert (V0 : same_view (k_fs s) (k_fs s2)) by (rewrite E2; apply opened_same).
    assert (V3 : same_view f3 (k_fs s6)) by (etransitivity; [apply opened_view|apply closed_view; exact C6]).
    destruct (chunk_stored ip (k_fs s) (mkSl true pid) (k_fs s2) off n1 (p_umem (proc_at s cur)) (addr + i) f3 (mkSl false 0) (k_fs s6))
      as (St & Wr & Nf); [exact Hw|exact V0| |exact W|exact V3| |apply C6|done|exact Hoff|].
    + intros j. rewrite E2. exact (lock_inode _ _ _ j).
    + intros j. rewrite (cl_inode _ _ C6). apply lock_inode.
    + apply HQ; [done|done|done| |done|done|].
      * intros j. by rewrite Hfi6, Efi.
      * rewrite Nf. unfold inode_at. rewrite (cl_inode _ _ C6), lock_inode, bool_decide_true by done. exact N3.
Qed.

(** The transactions a write of [n] bytes takes. *)
Definition rounds (n : Z) : Z := (n + write_max - 1) / write_max.

Lemma rounds_step n : 0 < n -> rounds n = 1 + rounds (n - Z.min n write_max).
Proof.
  intros Hn. unfold rounds. change write_max with 1536. destruct (Z_le_dec n 1536).
  - rewrite Z.min_l by lia. replace (n - n + 1536 - 1) with 1535 by lia. change (1535 / 1536) with 0.
    replace (n + 1536 - 1) with (n - 1 + 1 * 1536) by lia. rewrite Z.div_add, Z.div_small by lia. done.
  - rewrite Z.min_r by lia. replace (n + 1536 - 1) with (n - 1536 + 1536 - 1 + 1 * 1536) by lia. rewrite Z.div_add by lia. lia.
Qed.

Lemma rounds_pos n : 0 <= n -> 0 <= rounds n.
Proof. intros H. apply Z.div_pos; [|done]. change write_max with 1536. lia. Qed.

Lemma wp_filewrite_loop fuel dv fi ip addr n i s (Q : Z -> kstate -> Prop) :
  fs_ready s -> writable ip (k_fs s) -> 0 <= i <= n -> (Z.to_nat (n - i) < fuel)%nat ->
  0 <= f_off (file_at s fi) <= i_size (inode_at s ip) -> f_off (file_at s fi) + (n - i) <= MAXFILE * BSIZE ->
  addr + n <= mapped_end (proc_at s cur) -> 4 * rounds (n - i) + ind_need (inode_at s ip) <= nfree (k_fs s) ->
  (forall s', fs_ready s' -> writable ip (k_fs s') ->
    stored ip (k_fs s) (f_off (file_at s fi)) (n - i) (p_umem (proc_at s cur)) (addr + i) (k_fs s') ->
    (forall j, file_at s' j = if bool_decide (j = fi) then file_off (f_off (file_at s fi) + (n - i)) (file_at s fi) else file_at s j) ->
    p_umem (proc_at s' cur) = p_umem (proc_at s cur) -> p_sz (proc_at s' cur) = p_sz (proc_at s cur) -> Q n s') ->
  wp (filewrite_loop fuel dv fi ip addr n i) s Q.
Proof.
  revert i s. induction fuel as [|k IH]; intros i s Hr Hw Hi Hf Hoff Hmax Hin Hsp HQ; [lia|]. cbn [filewrite_loop].
  set (off := f_off (file_at s fi)) in *. destruct (Z.ltb_spec i n) as [Hlt|Hge].
  - set (n1 := Z.min (n - i) write_max). assert (H1 : 0 < n1 <= write_max) by (change write_max with 1536 in *; lia).
    assert (Hle : n1 <= n - i) by lia. rewrite rounds_step in Hsp by lia. fold n1 in Hsp. pose proof (rounds_pos (n - i - n1) ltac:(lia)) as Hrp.
    apply (wp_filewrite_round _ _ _ _ _ _ (4 * rounds (n - i - n1))); fold off; [done|done|done|lia|lia|lia|lia|lia|].
    intros s1 R1 W1 S1 F1 Eu Ez N1. rewrite (proj2 (Z.ltb_ge n1 0)), Z.eqb_refl by lia. simpl negb. cbv iota.
    assert (Eo : f_off (file_at s1 fi) = off + n1) by (by rewrite F1, bool_decide_true). pose proof (so_size _ _ _ _ _ _ _ S1) as Es.
    change (fs_inode (k_fs s1) ip) with (inode_at s1 ip) in Es. change (fs_inode (k_fs s) ip) with (inode_at s ip) in Es.
    replace (n - i - n1) with (n - (i + n1)) in * by lia.
    apply IH; rewrite ?Eo, ?Es; [done|done|lia|lia|lia|lia|unfold mapped_end in *; by rewrite Ez|done|].
    intros s2 R2 W2 S2 F2 Eu2 Ez2. apply HQ; [done|done| | |congruence|congruence].
    + rewrite Eu in S2. replace (addr + (i + n1)) with (addr + i + n1) in S2 by lia.
      replace (n - i) with (n1 + (n - (i + n1))) by lia. eapply stored_trans; [..|exact S1|exact S2]; lia.
    + intros j. rewrite F2, !F1. destruct (bool_decide (j = fi)); [|done]. rewrite bool_decide_true by done.
      unfold file_off. simpl. f_equal. lia.
  - replace i with n in * by lia. rewrite Z.sub_diag in *. apply wp_ret. apply HQ; [done|done|apply stored_nothing; exact (proj2 Hoff)| |done|done].
    intros j. rewrite Z.add_0_r. case_bool_decide; [subst; by destruct (file_at s fi)|done].
Qed.

(** ** Reading *)

Lemma wp_upd_user_bind {A} addr n (g : mem -> mem) (k : K A) s (Q : A -> kstate -> Prop) :
  fs_ready s -> (0 < n -> addr + n <= mapped_end (proc_at s cur)) ->
  (forall s', fs_ready s' -> k_fs s' = k_fs s -> k_file s' = k_file s ->
    p_umem (proc_at s' cur) = g (p_umem (proc_at s cur)) -> p_sz (proc_at s' cur) = p_sz (proc_at s cur) -> wp k s' Q) ->
  wp (upd_user addr n g;; k) s Q.
Proof.
  intros Hr Hn HQ. pose proof (ready_running s Hr) as Hrun. unfold wp, upd_user, mbind, M_bind in *. rewrite Hrun.
  replace ((0 <? n) && (mapped_end (proc_at s cur) <? addr + n)) with false.
  2:{ symmetry. apply andb_false_iff. destruct (Z.ltb_spec 0 n); [right; apply Z.ltb_ge; auto|by left]. }
  apply HQ; unfold proc_at; simpl; rewrite ?fn_insert_eq; try done. destruct Hr as [Hc Hp]. split; [done|].
  unfold proc_at. simpl. by rewrite fn_insert_eq.
Qed.

(** The file locked outside a transaction. *)
Lemma locked_ok ip f : writable ip f ->
  layout (with_lock ip (mkSl true pid) f) /\
  file_ok (with_lock ip (mkSl true pid) f) (fs_inode (with_lock ip (mkSl true pid) f) ip) /\ tx (with_lock ip (mkSl true pid) f) [] 0.
Proof.
  intros [Hid Hla _ _ _ Hok _ _]. split_and!; [by apply (view_layout f _ (opened_view _ _ _))| |by apply tx_inode, idle_read].
  rewrite lock_inode, bool_decide_true by done. apply file_ok_lock. by apply (view_file_ok f _ (opened_view _ _ _)).
Qed.

Lemma idle_lock ip l f : idle f -> idle (with_lock ip l f).
Proof. intros [[o [[A B C] Hi]] ? ? ? ? ? ? ?]. split; try done. by exists o. Qed.

(** A file is as it was after a read. *)
Lemma read_writable ip f l f1 f2 : writable ip f -> moved (with_lock ip l f) f1 -> (forall b, content f1 b = content f b) ->
  f2 = with_lock ip (mkSl false 0) f1 -> idle f1 -> writable ip f2 /\ same_view f f2 /\
  (forall j, fs_inode f2 j = if bool_decide (j = ip) then inode_lock (mkSl false 0) (fs_inode f j) else fs_inode f j).
Proof.
  intros [Hid Hla Hsm Hre Hty Hok Hsy Hin] M C -> Hi1.
  assert (V : same_view f (with_lock ip (mkSl false 0) f1)).
  { split; simpl; [apply M|by rewrite (mv_disk _ _ M)|by rewrite (mv_start _ _ M)|by rewrite (mv_size _ _ M)|]. intros b _. apply C. }
  assert (I : forall j, fs_inode (with_lock ip (mkSl false 0) f1) j =
    if bool_decide (j = ip) then inode_lock (mkSl false 0) (fs_inode f j) else fs_inode f j).
  { intros j. rewrite lock_inode, (mv_inode _ _ M), lock_inode. by case_bool_decide. }
  split_and!; [|done|done]. pose proof (I ip) as E. rewrite bool_decide_true in E by done.
  split; rewrite ?E; [by apply idle_lock|by apply (view_layout f)|by rewrite (sv_sb _ _ V)|by destruct Hre|done| | |].
  - apply file_ok_lock. by apply (view_file_ok f).
  - apply synced_lock. by apply (view_synced f).
  - by apply (view_inum f _ V (fs_inode f ip)).
Qed.

(** An open file of the disk. *)
Record open_at (ip fi : nat) (s : kstate) : Prop := mkOpenAt {
  op_type : f_type (file_at s fi) = FD_INODE;
  op_ip : f_ip (file_at s fi) = Some ip;
  op_off : 0 <= f_off (file_at s fi) <= i_size (inode_at s ip)
}.

Lemma wp_filewrite dv fi ip addr n s (Q : Z -> kstate -> Prop) :
  fs_ready s -> writable ip (k_fs s) -> open_at ip fi s -> f_writable (file_at s fi) = true -> 0 <= n ->
  f_off (file_at s fi) + n <= MAXFILE * BSIZE -> addr + n <= mapped_end (proc_at s cur) ->
  4 * rounds n + ind_need (inode_at s ip) <= nfree (k_fs s) ->
  (forall s', fs_ready s' -> writable ip (k_fs s') ->
    stored ip (k_fs s) (f_off (file_at s fi)) n (p_umem (proc_at s cur)) addr (k_fs s') ->
    (forall j, file_at s' j = if bool_decide (j = fi) then file_off (f_off (file_at s fi) + n) (file_at s fi) else file_at s j) ->
    p_umem (proc_at s' cur) = p_umem (proc_at s cur) -> p_sz (proc_at s' cur) = p_sz (proc_at s cur) -> Q n s') ->
  wp (filewrite dv fi addr n) s Q.
Proof.
  intros Hr Hw [Et Ei Ho] Ewr Hn Hmax Ha Hsp HQ. unfold filewrite, file_get. apply wp_gets_bind. rewrite Ewr, Et, Ei. simpl negb.
  cbv iota. wpb. apply wp_filewrite_loop; rewrite ?Z.sub_0_r, ?Z.add_0_r; try done; [lia|].
  intros s' R' W' S' F' Eu Ez. rewrite Z.eqb_refl. apply wp_ret. by apply HQ.
Qed.

(** The state [s'] after [r] bytes went from the file to [addr]. *)
Record fetched (ip fi : nat) (addr r : Z) (s s' : kstate) : Prop := mkFetched {
  fe_ready : fs_ready s';
  fe_writable : writable ip (k_fs s');
  fe_view : same_view (k_fs s) (k_fs s');
  fe_inode : forall j, inode_at s' j = if bool_decide (j = ip) then inode_lock (mkSl false 0) (inode_at s j) else inode_at s j;
  fe_file : forall j, file_at s' j = if bool_decide (j = fi) then file_off (f_off (file_at s fi) + r) (file_at s fi) else file_at s j;
  fe_umem : forall a, p_umem (proc_at s' cur) a =
    if inside addr r a then fbyte (k_fs s) (inode_at s ip) (f_off (file_at s fi) + (a - addr)) else p_umem (proc_at s cur) a
}.

Lemma wp_fileread dv fi ip addr n s (Q : Z -> kstate -> Prop) :
  fs_ready s -> writable ip (k_fs s) -> open_at ip fi s -> f_readable (file_at s fi) = true -> 0 <= n -> f_off (file_at s fi) + n < W32 ->
  addr + n <= mapped_end (proc_at s cur) ->
  (forall s', fetched ip fi addr (Z.min n (i_size (inode_at s ip) - f_off (file_at s fi))) s s' ->
    Q (Z.min n (i_size (inode_at s ip) - f_off (file_at s fi))) s') ->
  wp (fileread dv fi addr n) s Q.
Proof.
  intros Hr Hw [Et Ei Ho] Erd Hn Hov Ha HQ. set (off := f_off (file_at s fi)) in *. set (r := Z.min n _) in *.
  unfold fileread, file_get. apply wp_gets_bind. rewrite Erd, Et, Ei. simpl negb. cbv iota.
  apply (wp_fwp_bind _ _ _ _ Hr), fwp_ilock; [apply Hw|]. intros s1 E1 F1 R1. destruct (frame_user _ _ F1) as [Eu1 Ez1].
  apply wp_gets_bind. unfold file_at at 1. rewrite (frame_file _ _ F1). fold (file_at s fi) off. apply wp_user_proc_bind; [done|].
  destruct (locked_ok ip (k_fs s) Hw) as (La & Ok & Tx). rewrite <- E1 in La, Ok, Tx. rewrite uint32_small by lia.
  assert (Ex : inode_at s1 ip = inode_lock (mkSl true pid) (inode_at s ip)).
  { unfold inode_at. by rewrite E1, lock_inode, bool_decide_true. }
  apply (wp_fwp_bind _ _ _ _ R1). apply (fwp_readi _ _ _ _ _ _ _ _ 0); [exact La|exact Ok|exact Tx| | |exact Hn|exact Hov|].
  { rewrite Ex. apply Hw. }
  { rewrite Ex. exact Ho. }
  rewrite Ex. change (i_size (inode_lock _ (inode_at s ip))) with (i_size (inode_at s ip)). fold r. rewrite Eu1.
  intros md f2 Hmd T2 M2 C2 D2 s2 E2 F2 R2. cbn beta iota. destruct (frame_user _ _ F2) as [Eu2 Ez2].
  assert (Hr0 : 0 <= r <= n) by (unfold r; lia).
  apply wp_upd_user_bind; [done|unfold mapped_end in *; rewrite Ez2, Ez1; lia|].
  intros s3 R3 E3 Ef3 Eu3 Ez3. assert (Ef : forall j, file_at s3 j = file_at s j).
  { intros j. unfold file_at. by rewrite Ef3, (frame_file _ _ F2), (frame_file _ _ F1). }
  apply wp_advance_bind; rewrite ?Ef; fold off; [done|lia|lia|]. intros s4 R4 E4 P4 Hf4. rewrite E3, E2 in E4.
  assert (Ei4 : inode_at s4 ip = inode_lock (mkSl true pid) (inode_at s ip)).
  { unfold inode_at. rewrite E4, (mv_inode _ _ M2). exact Ex. }
  apply (wp_fwp_bind _ _ _ _ R4), fwp_iunlock; [by rewrite Ei4|rewrite Ei4; apply Hw|]. intros s5 E5 F5 R5.
  destruct (frame_user _ _ F5) as [Eu5 _]. unfold proc_at at 2 in Eu5. rewrite P4 in Eu5. fold (proc_at s3 cur) in Eu5.
  rewrite E1 in M2, C2, D2. rewrite E4 in E5.
  destruct (read_writable ip (k_fs s) _ f2 (k_fs s5) Hw M2) as (W5 & V5 & I5); [exact C2|exact E5| |].
  { apply (idle_moved pid (with_lock ip (mkSl true pid) (k_fs s))); [apply idle_lock, Hw|exact T2|exact M2|exact D2]. }
  apply wp_ret. apply HQ. split; [done|done|done|exact I5| |].
  - intros j. unfold file_at at 1. rewrite (frame_file _ _ F5). fold (file_at s4 j). rewrite Hf4, !Ef. done.
  - intros a. rewrite Eu5, Eu3, Hmd. destruct (inside addr r a); [|done]. by rewrite E1.
Qed.
End fileio.

(** C4: Writing a file is durable.  For a file that is not open for writing, [filewrite]
    returns -1 and does nothing.  For an open file of the disk, while no other operation of the file system is under
    way (with one, the commit waits for it), with the memory, the
    largest size and the free blocks allowing it, [filewrite] of [n] bytes at the
    offset, any number of transactions long, returns [n]: the file holds the bytes of
    the process from the offset on and the old ones elsewhere, its size covers them, the
    offset of this open file and of no other has moved on by [n], every allocated block
    of other files and of the rest of the disk is as before, of the block with its inode all but that inode, and all of it, the inode
    included, is on the disk with the log empty. *)
Theorem filewrite_durable cur pid dv fi ip addr n s
  (Hr : fs_ready cur pid s) (Hw : writable ip (k_fs s)) (Hop : open_at ip fi s) (Hn : 0 <= n)
  (Hmax : f_off (file_at s fi) + n <= MAXFILE * BSIZE) (Ha : addr + n <= mapped_end (proc_at s cur))
  (Hsp : 4 * rounds n + ind_need (inode_at s ip) <= nfree (k_fs s)) :
  let off := f_off (file_at s fi) in
  (f_writable (file_at s fi) = false -> filewrite dv fi addr n s = Done (-1) s) /\
  (f_writable (file_at s fi) = true -> wp (filewrite dv fi addr n) s (fun r s' => r = n /\
    i_size (inode_at s' ip) = Z.max (i_size (inode_at s ip)) (off + n) /\
    (forall o, 0 <= o < i_size (inode_at s' ip) -> fbyte (k_fs s') (inode_at s' ip) o =
      if (off <=? o) && (o <? off + n) then p_umem (proc_at s cur) (addr + (o - off)) else fbyte (k_fs s) (inode_at s ip) o) /\
    (forall j, file_at s' j = if bool_decide (j = fi) then file_off (off + n) (file_at s fi) else file_at s j) /\
    (forall b, settled (k_fs s) b -> ~ of_file (k_fs s) (inode_at s ip) b ->
      b <> IBLOCK (i_inum (inode_at s ip)) (fs_sb (k_fs s)) -> ~ in_log (fs_log (k_fs s)) b ->
      content (k_fs s') b = content (k_fs s) b) /\
    (forall o, o < dip (i_inum (inode_at s ip)) \/ dip (i_inum (inode_at s ip)) + DINODE <= o ->
      content (k_fs s') (IBLOCK (i_inum (inode_at s ip)) (fs_sb (k_fs s))) o = content (k_fs s) (IBLOCK (i_inum (inode_at s ip)) (fs_sb (k_fs s))) o) /\
    (forall b, d_blocks (fs_disk (k_fs s')) b = content (k_fs s') b) /\
    lg_n (fs_log (k_fs s')) = 0 /\ writable ip (k_fs s') /\ fs_ready cur pid s')).
Proof.
  intros off. split; intros Ewr.
  - unfold filewrite, file_get, gets, mbind, M_bind. simpl. by rewrite Ewr.
  - apply (wp_filewrite cur pid _ _ ip); try done. intros s' R' W' S' F' _ _. pose proof (fd_idle _ _ W') as Hid.
    pose proof (so_size _ _ _ _ _ _ _ S') as Es. unfold inode_at. split_and!; try done.
    + rewrite Es. apply S'.
    + intros b H1 H2 H3 H4. by apply S'.
    + apply S'.
    + intros b. symmetry. by apply idle_content.
    + exact (id_n _ Hid).
Qed.

(** Reading an open file.  For a file that is not open for reading, [fileread] returns
    -1 and does nothing.  For an open file of the disk [fileread] of [n] bytes returns the
    number of bytes the file has from the offset on, at most [n]; exactly those bytes are
    in the process's memory at [addr], the rest of its memory as before; the offset of
    this open file and of no other has moved on by that number, no block of any file and
    no inode changed but for the lock taken and given back, and it needs no transaction. *)
Theorem fileread_fetches cur pid dv fi ip addr n s
  (Hr : fs_ready cur pid s) (Hw : writable ip (k_fs s)) (Hop : open_at ip fi s) (Hn : 0 <= n)
  (Hov : f_off (file_at s fi) + n < W32) (Ha : addr + n <= mapped_end (proc_at s cur)) :
  (f_readable (file_at s fi) = false -> fileread dv fi addr n s = Done (-1) s) /\
  (f_readable (file_at s fi) = true -> wp (fileread dv fi addr n) s (fun r s' =>
    r = Z.min n (i_size (inode_at s ip) - f_off (file_at s fi)) /\ fetched cur pid ip fi addr r s s')).
Proof.
  split; intros Erd.
  - unfold fileread, file_get, gets, mbind, M_bind. simpl. by rewrite Erd.
  - by apply (wp_fileread cur pid _ _ ip).
Qed.

(** C5: What is written is what is read.  A process that writes [n] bytes from [src] to a
    file and then reads [n] bytes to [dst] through another open file that stands where
    the write started finds at [dst] what was at [src]: both calls return [n], and each
    byte is the one written. *)
Theorem file_roundtrip cur pid dv fi fj ip src dst n s
  (Hr : fs_ready cur pid s) (Hw : writable ip (k_fs s)) (Hi : open_at ip fi s) (Hj : open_at ip fj s) (Hne : fi <> fj)
  (Hwr : f_writable (file_at s fi) = true) (Hrd : f_readable (file_at s fj) = true)
  (Heq : f_off (file_at s fj) = f_off (file_at s fi)) (Hn : 0 <= n)
  (Hmax : f_off (file_at s fi) + n <= MAXFILE * BSIZE)
  (Hs : src + n <= mapped_end (proc_at s cur)) (Hd : dst + n <= mapped_end (proc_at s cur))
  (Hsp : 4 * rounds n + ind_need (inode_at s ip) <= nfree (k_fs s)) :
  wp (w ← filewrite dv fi src n; r ← fileread dv fj dst n; mret (w, r)) s (fun wr s' => wr = (n, n) /\
    forall i, 0 <= i < n -> p_umem (proc_at s' cur) (dst + i) = p_umem (proc_at s cur) (src + i)).
Proof.
  wpb. apply (wp_filewrite cur pid _ _ ip); try done. intros s1 R1 W1 S1 F1 Eu Ez. pose proof (so_size _ _ _ _ _ _ _ S1) as Es.
  change (fs_inode (k_fs s1) ip) with (inode_at s1 ip) in Es. change (fs_inode (k_fs s) ip) with (inode_at s ip) in Es.
  assert (Ej : file_at s1 fj = file_at s fj) by (rewrite F1, bool_decide_false; congruence). destruct Hi as [_ _ Ho]. destruct Hj as [Jt Ji Jo].
  pose proof (fo_size _ _ (fd_ok _ _ W1)) as Hsz. change (fs_inode (k_fs s1) ip) with (inode_at s1 ip) in Hsz.
  wpb. apply (wp_fileread cur pid _ _ ip); rewrite ?Ej, ?Heq; try done.
  - split; rewrite ?Ej, ?Heq; [done|done|lia].
  - unfold W32. fs_lia.
  - unfold mapped_end in *. by rewrite Ez.
  - intros s2 Hf. rewrite Es. replace (Z.min n _) with n by lia. rewrite Es in Hf. replace (Z.min n _) with n in Hf by lia.
    apply wp_ret. split; [done|]. intros i Hii. rewrite (fe_umem _ _ _ _ _ _ _ _ Hf), Ej, Heq. unfold inside.
    rewrite (proj2 (Z.leb_le dst (dst + i))), (proj2 (Z.ltb_lt (dst + i) (dst + n))) by lia. simpl andb. cbv iota. unfold inode_at.
    rewrite (so_byte _ _ _ _ _ _ _ S1) by (unfold inode_at in *; lia).
    rewrite (proj2 (Z.leb_le _ _)), (proj2 (Z.ltb_lt _ _)) by lia. simpl andb. cbv iota. f_equal. lia.
Qed.

(** The file of the small disk, twice open at byte 1 by a process whose memory counts. *)
Module SmallOpen.

Definition fs : fsst := with_lock 0 (mkSl false 0) (with_log (log_outstanding 0 (fs_log Small.fs)) Small.fs).

Definition st : kstate :=
  set_file (<[0%nat := mkFile FD_INODE 1 false true 0 (Some 0%nat) 1]>
      (<[1%nat := mkFile FD_INODE 1 true false 0 (Some 0%nat) 1]> (fun _ => zero_file)))
    (set_fs fs (start (Some 0%nat) (fun _ => user_process RUNNING 7 (fun a => a mod 256)) empty_stab)).

Lemma open_ready : fs_ready 0 7 st.
Proof. split; [apply one_cpu_on|done]. Qed.

Lemma view : same_view Small.fs fs.
Proof. by split. Qed.

Lemma is_idle : idle fs.
Proof.
  destruct Small.running as [[o Hok] _ _ _ [Hw _] _ _ _]. apply idle_lock. split; try done.
  - exists (seq 0 NBUF). split; [|done]. split; [exact Empty.bufs_ring|done|]. intros i _. by split.
  - by destruct Hw; split.
Qed.

Lemma can_write : writable 0 fs.
Proof.
  split; [exact is_idle|exact (view_layout _ _ view SmallFile.laid_out)|discriminate|by split|discriminate| | |by split].
  - apply (file_ok_lock fs Small.file). exact (view_file_ok _ _ view SmallFile.laid_out _ SmallFile.ok).
  - apply (synced_lock fs Small.file). apply (view_synced _ _ view SmallFile.laid_out); [by split|exact SmallFile.is_synced].
Qed.

Lemma is_open fi : (fi < 2)%nat -> open_at 0 fi st.
Proof. intros H. destruct fi as [|[|]]; [by split|by split|lia]. Qed.

Lemma open_space n : 0 <= n <= 6000 -> 4 * rounds n + ind_need (inode_at st 0) <= nfree fs.
Proof.
  intros Hn. rewrite (view_nfree _ _ view SmallFile.laid_out). unfold nfree. rewrite (count_idx_ext _ (fun i => negb (Z.of_nat i <? 48))).
  - change (4 * rounds n + 1 <= 52). unfold rounds. change write_max with 1536.
    pose proof (Z.div_le_mono (n + 1536 - 1) 7535 1536 ltac:(lia) ltac:(lia)) as H. change (7535 / 1536) with 4 in H. lia.
  - intros i Hi. change (Z.to_nat (sb_size (fs_sb Small.fs))) with 100%nat in Hi. by rewrite Small.used_fs by lia.
Qed.
End SmallOpen.

(** Three transactions. *)
Lemma filewrite_durable_witness :
  wp (filewrite no_devices 0 64 4000) SmallOpen.st (fun r s' => r = 4000 /\ i_size (inode_at s' 0) = 4001 /\
    fbyte (k_fs s') (inode_at s' 0) 0 = 104 /\ fbyte (k_fs s') (inode_at s' 0) 4000 = (64 + 3999) mod 256).
Proof.
  destruct (filewrite_durable 0 7 no_devices 0 0 64 4000 SmallOpen.st SmallOpen.open_ready SmallOpen.can_write (SmallOpen.is_open 0 ltac:(lia))
    ltac:(lia) ltac:(discriminate) ltac:(discriminate) (SmallOpen.open_space 4000 ltac:(lia))) as [_ H].
  refine (wp_mono _ _ _ _ _ (H eq_refl)). intros r s' (-> & Hs & Hb & _). change (i_size (inode_at s' 0) = 4001) in Hs.
  split_and!; [reflexivity|exact Hs| |]; rewrite Hb by (rewrite Hs; lia); [|reflexivity].
  change (fbyte SmallOpen.fs Small.file 0 = 104). rewrite (view_fbyte _ _ SmallOpen.view SmallFile.laid_out _ SmallFile.ok) by (split; [lia|reflexivity]).
  unfold fbyte. rewrite Small.content_fs. reflexivity.
Defined.

Lemma fileread_fetches_witness :
  wp (fileread no_devices 1 64 100) SmallOpen.st (fun r s' => r = 1 /\ p_umem (proc_at s' 0) 64 = 105 /\ p_umem (proc_at s' 0) 65 = 65).
Proof.
  destruct (fileread_fetches 0 7 no_devices 1 0 64 100 SmallOpen.st SmallOpen.open_ready SmallOpen.can_write (SmallOpen.is_open 1 ltac:(lia))
    ltac:(lia) ltac:(reflexivity) ltac:(discriminate)) as [_ H].
  refine (wp_mono _ _ _ _ _ (H eq_refl)). intros r s' (-> & Hf). change (Z.min _ _) with 1 in Hf |- *.
  split_and!; [reflexivity| |]; rewrite (fe_umem _ _ _ _ _ _ _ _ Hf); [|reflexivity].
  change (fbyte SmallOpen.fs Small.file 1 = 105). rewrite (view_fbyte _ _ SmallOpen.view SmallFile.laid_out _ SmallFile.ok) by (split; [lia|reflexivity]).
  unfold fbyte. rewrite Small.content_fs. reflexivity.
Defined.

Lemma file_roundtrip_witness :
  wp (w ← filewrite no_devices 0 64 3000; r ← fileread no_devices 1 4096 3000; mret (w, r)) SmallOpen.st
    (fun wr s' => wr = (3000, 3000) /\ p_umem (proc_at s' 0) 4097 = 65).
Proof.
  refine (wp_mono _ _ _ _ _ (file_roundtrip 0 7 no_devices 0 1 0 64 4096 3000 SmallOpen.st SmallOpen.open_ready SmallOpen.can_write
    (SmallOpen.is_open 0 ltac:(lia)) (SmallOpen.is_open 1 ltac:(lia)) ltac:(lia) eq_refl eq_refl eq_refl ltac:(lia) ltac:(discriminate)
    ltac:(discriminate) ltac:(discriminate) (SmallOpen.open_space 3000 ltac:(lia)))).
  intros wr s' [-> H]. split; [reflexivity|]. change 4097 with (4096 + 1). rewrite (H 1 ltac:(lia)). reflexivity.
Defined.
