(* ===== verification/SysFile.v ===== *)
(** * sysfile.c: the file system calls

    Paths that [argstr] fetched are the lists of their bytes.  [dv] is the
    table of devices.  [sys_exec] is in Exec. *)

From S2P Require Import Prelude CString KState Spinlock Proc Sock SysArg Kalloc Pipe Sleeplock Bio Log Cprintf Fs File.

(** ** Descriptors *)

(** The descriptor and the file. *)
Definition argfd (n : Z) : K (option (nat * nat)) :=
  fd ← argint n;
  match fd with
  | None => mret None
  | Some fd =>
      if (fd <? 0) || (fd >=? Z.of_nat NOFILE) then mret None
      else
        '(_, p) ← curproc;
        match p_ofile p (Z.to_nat fd) with
        | None => mret None
        | Some f => mret (Some (Z.to_nat fd, f))
        end
  end.

Definition set_ofile (p fd : nat) (x : option nat) : K unit :=
  upd_proc p (fun r => proc_ofile (<[fd := x]> (p_ofile r)) r).

Definition fdalloc (f : nat) : K (option nat) :=
  '(cur, p) ← curproc;
  match find_idx (fun fd => bool_decide (p_ofile p fd = None)) NOFILE with
  | Some fd =>
      set_ofile cur fd (Some f);;
      mret (Some fd)
  | None => mret None
  end.

Definition sys_dup : K Z :=
  a ← argfd 0;
  match a with
  | None => mret (-1)
  | Some (_, f) =>
      fd ← fdalloc f;
      match fd with
      | None => mret (-1)
      | Some fd =>
          filedup f;;
          mret (Z.of_nat fd)
      end
  end.

(** The arguments of [read] and [write]: file, address, length. *)
Definition arg_transfer : K (option (nat * Z * Z)) :=
  a ← argfd 0;
  match a with
  | None => mret None
  | Some (_, f) =>
      n ← argint 2;
      match n with
      | None => mret None
      | Some n =>
          p ← argptr 1 n;
          mret ((fun p => (f, p, n)) <$> p)
      end
  end.

Definition sys_read (dv : devsw) : K Z :=
  a ← arg_transfer;
  match a with
  | None => mret (-1)
  | Some (f, p, n) => fileread dv f p n
  end.

Definition sys_write (dv : devsw) : K Z :=
  a ← arg_transfer;
  match a with
  | None => mret (-1)
  | Some (f, p, n) => filewrite dv f p n
  end.

Definition sys_close : K Z :=
  a ← argfd 0;
  match a with
  | None => mret (-1)
  | Some (fd, f) =>
      '(cur, _) ← curproc;
      set_ofile cur fd None;;
      fileclose f;;
      mret 0
  end.

Definition sys_fstat : K Z :=
  a ← argfd 0;
  match a with
  | None => mret (-1)
  | Some (_, f) =>
      st ← argptr 1 STAT;
      match st with
      | None => mret (-1)
      | Some st => filestat f st
      end
  end.

(** ** Links *)

(** The bytes of the string argument [n]. *)
Definition argpath (n : Z) : K (option (list Z)) :=
  a ← argstr n;
  match a with
  | None => mret None
  | Some (len, addr) =>
      '(_, p) ← curproc;
      mret (Some (map (p_umem p) (seqZ addr len)))
  end.

(** [ip->nlink += d; iupdate(ip);] *)
Definition add_nlink (ip : nat) (d : Z) : K unit :=
  upd_inode ip (fun x => inode_nlink (int16 (i_nlink x + d)) x);;
  iupdate ip.

(** The label [bad] of [sys_link]. *)
Definition sys_link_bad (ip : nat) : K Z :=
  ilock ip;;
  add_nlink ip (-1);;
  iunlockput ip;;
  end_op;;
  mret (-1).

Definition sys_link (dv : devsw) : K Z :=
  old ← argpath 0;
  match old with
  | None => mret (-1)
  | Some old =>
      new ← argpath 1;
      match new with
      | None => mret (-1)
      | Some new =>
          begin_op;;
          ip ← namei dv old;
          match ip with
          | None =>
              end_op;;
              mret (-1)
          | Some ip =>
              ilock ip;;
              x ← inode_get ip;
              if i_type x =? T_DIR then
                iunlockput ip;;
                end_op;;
                mret (-1)
              else
                add_nlink ip 1;;
                iunlock ip;;
                dp ← nameiparent dv new;
                match dp with
                | None => sys_link_bad ip
                | Some (dp, name) =>
                    ilock dp;;
                    x ← inode_get ip;
                    y ← inode_get dp;
                    r ← (if negb (i_dev y =? i_dev x) then mret (-1) else dirlink dv dp name (i_inum x));
                    if r <? 0 then
                      iunlockput dp;;
                      sys_link_bad ip
                    else
                      iunlockput dp;;
                      iput ip;;
                      end_op;;
                      mret 0
                end
          end
      end
  end.

Fixpoint isdirempty_loop (fuel : nat) (dv : devsw) (dp : nat) (off : Z) : K bool :=
  match fuel with
  | O => fun s => Stuck s
  | S k =>
      x ← inode_get dp;
      if off <? i_size x then
        de ← read_dirent dv dp off "isdirempty: readi";
        if negb (de_inum de =? 0) then mret false else isdirempty_loop k dv dp (off + DIRENT)
      else mret true
  end.

Definition isdirempty (dv : devsw) (dp : nat) : K bool :=
  x ← inode_get dp;
  isdirempty_loop (S (Z.to_nat (i_size x))) dv dp (2 * DIRENT).

(** The label [bad] of [sys_unlink]. *)
Definition sys_unlink_bad (dp : nat) : K Z :=
  iunlockput dp;;
  end_op;;
  mret (-1).

Definition is_dot (name : list Z) : bool :=
  (namecmp (bytes_mem name) 0 (cstr ".") 0 =? 0) || (namecmp (bytes_mem name) 0 (cstr "..") 0 =? 0).

Definition sys_unlink (dv : devsw) : K Z :=
  path ← argpath 0;
  match path with
  | None => mret (-1)
  | Some path =>
      begin_op;;
      dp ← nameiparent dv path;
      match dp with
      | None =>
          end_op;;
          mret (-1)
      | Some (dp, name) =>
          ilock dp;;
          if is_dot name then sys_unlink_bad dp
          else
            found ← dirlookup dv dp name;
            match found with
            | None => sys_unlink_bad dp
            | Some (ip, off) =>
                ilock ip;;
                x ← inode_get ip;
                if i_nlink x <? 1 then panic "unlink: nlink < 1"
                else
                  empty ← (if i_type x =? T_DIR then isdirempty dv ip else mret true);
                  if negb empty then
                    iunlockput ip;;
                    sys_unlink_bad dp
                  else
                    r ← writei dv dp (memset (fun _ => 0) 0 0 DIRENT) 0 off DIRENT;
                    if negb (r =? DIRENT) then panic "unlink: writei"
                    else
                      x ← inode_get ip;
                      when (i_type x =? T_DIR) (add_nlink dp (-1));;
                      iunlockput dp;;
                      add_nlink ip (-1);;
                      iunlockput ip;;
                      end_op;;
                      mret 0
            end
      end
  end.

(** ** Creating and opening *)

Definition create (dv : devsw) (path : list Z) (type major minor : Z) : K (option nat) :=
  dp ← nameiparent dv path;
  match dp with
  | None => mret None
  | Some (dp, name) =>
      ilock dp;;
      found ← dirlookup dv dp name;
      match found with
      | Some (ip, _) =>
          iunlockput dp;;
          ilock ip;;
          x ← inode_get ip;
          if (type =? T_FILE) && (i_type x =? T_FILE) then mret (Some ip)
          else
            iunlockput ip;;
            mret None
      | None =>
          y ← inode_get dp;
          ip ← ialloc (i_dev y) type;
          ilock ip;;
          upd_inode ip (fun x => inode_nlink 1 (inode_dev major minor x));;
          iupdate ip;;
          (if type =? T_DIR then
             add_nlink dp 1;;
             x ← inode_get ip;
             y ← inode_get dp;
             r ← dirlink dv ip (chars ".") (i_inum x);
             r ← (if r <? 0 then mret r else dirlink dv ip (chars "..") (i_inum y));
             if r <? 0 then panic "create dots" else mret tt
           else mret tt);;
          x ← inode_get ip;
          r ← dirlink dv dp name (i_inum x);
          if r <? 0 then panic "create: dirlink"
          else
            iunlockput dp;;
            mret (Some ip)
      end
  end.

(** The first half of [sys_open]: the inode, locked. *)
Definition open_inode (dv : devsw) (path : list Z) (omode : Z) : K (option nat) :=
  if negb (Z.land omode O_CREATE =? 0) then create dv path T_FILE 0 0
  else
    ip ← namei dv path;
    match ip with
    | None => mret None
    | Some ip =>
        ilock ip;;
        x ← inode_get ip;
        if (i_type x =? T_DIR) && negb (omode =? O_RDONLY) then
          iunlockput ip;;
          mret None
        else mret (Some ip)
    end.

Definition sys_open (dv : devsw) : K Z :=
  path ← argpath 0;
  match path with
  | None => mret (-1)
  | Some path =>
      omode ← argint 1;
      match omode with
      | None => mret (-1)
      | Some omode =>
          begin_op;;
          ip ← open_inode dv path omode;
          match ip with
          | None =>
              end_op;;
              mret (-1)
          | Some ip =>
              f ← filealloc;
              fd ← (match f with Some f => fdalloc f | None => mret None end);
              match f, fd with
              | Some f, Some fd =>
                  iunlock ip;;
                  end_op;;
                  upd_file f (file_inode (Z.land omode O_WRONLY =? 0)
                    (negb (Z.land omode O_WRONLY =? 0) || negb (Z.land omode O_RDWR =? 0)) ip);;
                  mret (Z.of_nat fd)
              | _, _ =>
                  close_opt f;;
                  iunlockput ip;;
                  end_op;;
                  mret (-1)
              end
          end
      end
  end.

(** What [sys_mkdir] and [sys_mknod] do with the result of [create]. *)
Definition created (ip : option nat) : K Z :=
  match ip with
  | None =>
      end_op;;
      mret (-1)
  | Some ip =>
      iunlockput ip;;
      end_op;;
      mret 0
  end.

Definition sys_mkdir (dv : devsw) : K Z :=
  begin_op;;
  path ← argpath 0;
  ip ← (match path with Some path => create dv path T_DIR 0 0 | None => mret None end);
  created ip.

Definition sys_mknod (dv : devsw) : K Z :=
  begin_op;;
  path ← argpath 0;
  ip ← (match path with
        | None => mret None
        | Some path =>
            major ← argint 1;
            match major with
            | None => mret None
            | Some major =>
                minor ← argint 2;
                match minor with
                | None => mret None
                | Some minor => create dv path T_DEV (int16 major) (int16 minor)
                end
            end
        end);
  created ip.

Definition sys_chdir (dv : devsw) : K Z :=
  '(cur, _) ← curproc;
  begin_op;;
  path ← argpath 0;
  ip ← (match path with Some path => namei dv path | None => mret None end);
  match ip with
  | None =>
      end_op;;
      mret (-1)
  | Some ip =>
      ilock ip;;
      x ← inode_get ip;
      if negb (i_type x =? T_DIR) then
        iunlockput ip;;
        end_op;;
        mret (-1)
      else
        iunlock ip;;
        cwd ← gets (fun s => p_cwd (proc_at s cur));
        file_iput cwd;;
        end_op;;
        upd_proc cur (proc_cwd (Some ip));;
        mret 0
  end.

(** ** Pipes *)

Definition sys_pipe : K Z :=
  fd ← argptr 0 8;
  match fd with
  | None => mret (-1)
  | Some a =>
      p ← pipealloc;
      match p with
      | None => mret (-1)
      | Some (rf, wf) =>
          fd0 ← fdalloc rf;
          fd1 ← (match fd0 with Some _ => fdalloc wf | None => mret None end);
          match fd0, fd1 with
          | Some fd0, Some fd1 =>
              upd_user a 8 (fun m => store32 (store32 m a (Z.of_nat fd0)) (a + 4) (Z.of_nat fd1));;
              mret 0
          | _, _ =>
              '(cur, _) ← curproc;
              (match fd0 with Some fd0 => set_ofile cur fd0 None | None => mret tt end);;
              fileclose rf;;
              fileclose wf;;
              mret (-1)
          end
      end
  end.
