(* ===== verification/ProcLife.v ===== *)
(** * proc.c, second part: the life of a process

    [pinit], [allocproc], [userinit], [growproc], [fork], [exit], [wait],
    [scheduler], [forkret] and [kill].  The trap frame, which lies at the top of
    the kernel stack, is [p_tf]; the context below it, with which the first
    [swtch] to a new process enters [forkret], is the routine [forkret] itself.
    [procdump] is left out.  The end of [exit] is in Exit. *)

From S2P Require Import Prelude CString KState Spinlock Cprintf Proc Sock SockConc Exit Kalloc Sleeplock Bio Log Fs Vm File.

Definition KSTACKSIZE : Z := 4096.
Definition FL_IF : Z := 512.
Definition SEG_UCODE : Z := 3.
Definition SEG_UDATA : Z := 4.
Definition DPL_USER : Z := 3.

Definition pinit : K unit := initlock LkPtable "ptable".

Definition cpuid : K nat := mycpu.

(** ** Creating processes *)

Definition allocproc : K (option nat) :=
  acquire LkPtable;;
  hit ← gets (fun s => find_idx (fun i => bool_decide (p_state (proc_at s i) = UNUSED)) NPROC);
  match hit with
  | None =>
      release LkPtable;;
      mret None
  | Some p =>
      pid ← gets (fun s => nextpid (k_ptab s));
      upd_proc p (fun r => proc_pid pid (proc_state EMBRYO r));;
      modify (fun s => set_ptab (with_nextpid (int32 (pid + 1)) (k_ptab s)) s);;
      release LkPtable;;
      kstack ← kalloc;
      upd_proc p (proc_kstack kstack);;
      if kstack =? 0 then
        upd_proc p (proc_state UNUSED);;
        mret None
      else mret (Some p)
  end.

(** [init] holds the [size] bytes of initcode, which the build links in. *)
Definition userinit (dv : devsw) (init : mem) (size : Z) : K unit :=
  p ← allocproc;
  modify (fun s => set_ptab (mkPtab (procs (k_ptab s)) (nextpid (k_ptab s)) p) s);;
  match p with
  | None => undef "userinit: no process"
  | Some p =>
      pgdir ← setupkvm;
      upd_proc p (proc_pgdir pgdir);;
      if pgdir =? 0 then panic "userinit: out of memory?"
      else
        inituvm pgdir init size;;
        let cs := Z.lor (Z.shiftl SEG_UCODE 3) DPL_USER in
        let ds := Z.lor (Z.shiftl SEG_UDATA 3) DPL_USER in
        upd_proc p (fun r => proc_tf (mkTf 0 0 0 0 0 0 0 0 0 0 ds ds 0 0 0 cs FL_IF PGSIZE ds)
          (proc_sz PGSIZE r));;
        load_user p;;
        upd_proc p (fun r => proc_name (safestrcpy (p_name r) 0 (cstr "initcode") 0 16) r);;
        cwd ← namei dv (chars "/");
        upd_proc p (proc_cwd cwd);;
        acquire LkPtable;;
        upd_proc p (proc_state RUNNABLE);;
        release LkPtable
  end.

Definition growproc (n : Z) : K Z :=
  '(cur, p) ← curproc;
  flush_user cur;;
  sz ← (if 0 <? n then allocuvm (p_pgdir p) (p_sz p) (uint32 (p_sz p + n))
        else if n <? 0 then deallocuvm (p_pgdir p) (p_sz p) (uint32 (p_sz p + n))
        else mret (p_sz p));
  load_user cur;;
  if negb (n =? 0) && (sz =? 0) then mret (-1)
  else
    upd_proc cur (proc_sz sz);;
    switchuvm (Some cur);;
    mret 0.

(** The loop of [fork] over the descriptors. *)
Fixpoint dup_files (todo i : nat) (cur np : nat) : K unit :=
  match todo with
  | O => mret tt
  | S k =>
      f ← gets (fun s => p_ofile (proc_at s cur) i);
      (match f with
       | Some f =>
           f ← filedup f;
           upd_proc np (fun r => proc_ofile (<[i := Some f]> (p_ofile r)) r)
       | None => mret tt
       end);;
      dup_files k (S i) cur np
  end.

Definition fork : K Z :=
  '(cur, _) ← curproc;
  np ← allocproc;
  match np with
  | None => mret (-1)
  | Some np =>
      flush_user cur;;
      p ← gets (fun s => proc_at s cur);
      pgdir ← copyuvm (p_pgdir p) (p_sz p);
      upd_proc np (proc_pgdir pgdir);;
      if pgdir =? 0 then
        kstack ← gets (fun s => p_kstack (proc_at s np));
        kfree kstack;;
        upd_proc np (fun r => proc_state UNUSED (proc_kstack 0 r));;
        mret (-1)
      else
        upd_proc np (fun r => proc_tf (tf_set_eax 0 (p_tf p)) (proc_parent (Some cur) (proc_sz (p_sz p) r)));;
        load_user np;;
        dup_files NOFILE 0 cur np;;
        cwd ← gets (fun s => p_cwd (proc_at s cur));
        (match cwd with
         | Some cwd =>
             cwd ← idup cwd;
             upd_proc np (proc_cwd (Some cwd))
         | None => undef "idup(0)"
         end);;
        p ← gets (fun s => proc_at s cur);
        upd_proc np (fun r => proc_name (safestrcpy (p_name r) 0 (p_name p) 0 16) r);;
        pid ← gets (fun s => p_pid (proc_at s np));
        acquire LkPtable;;
        upd_proc np (proc_state RUNNABLE);;
        release LkPtable;;
        mret pid
  end.

(** ** Ending processes *)

Fixpoint close_files (todo fd : nat) (cur : nat) : K unit :=
  match todo with
  | O => mret tt
  | S k =>
      f ← gets (fun s => p_ofile (proc_at s cur) fd);
      (match f with
       | Some f =>
           fileclose f;;
           upd_proc cur (fun r => proc_ofile (<[fd := None]> (p_ofile r)) r)
       | None => mret tt
       end);;
      close_files k (S fd) cur
  end.

Definition exit : K unit :=
  '(cur, _) ← curproc;
  init ← gets (fun s => initproc (k_ptab s));
  if bool_decide (init = Some cur) then panic "init exiting"
  else
    close_files NOFILE 0 cur;;
    begin_op;;
    cwd ← gets (fun s => p_cwd (proc_at s cur));
    file_iput cwd;;
    end_op;;
    upd_proc cur (proc_cwd None);;
    exit_rest cur.

Definition zombie_of (cur : nat) (s : kstate) (i : nat) : bool :=
  bool_decide (p_parent (proc_at s i) = Some cur) && bool_decide (p_state (proc_at s i) = ZOMBIE).

Definition child_of (cur : nat) (s : kstate) (i : nat) : bool :=
  bool_decide (p_parent (proc_at s i) = Some cur).

(** The loop of [wait], with the lock held. *)
Fixpoint wait_loop (fuel : nat) (cur : nat) : K Z :=
  match fuel with
  | O => fun s => Stuck s
  | S k =>
      hit ← gets (fun s => find_idx (zombie_of cur s) NPROC);
      match hit with
      | Some i =>
          r ← gets (fun s => proc_at s i);
          kfree (p_kstack r);;
          upd_proc i (proc_kstack 0);;
          freevm (p_pgdir r);;
          upd_proc i (fun r => proc_state UNUSED (proc_killed false
            (proc_name (upd (p_name r) 0 0) (proc_parent None (proc_pid 0 r)))));;
          release LkPtable;;
          mret (p_pid r)
      | None =>
          kids ← gets (fun s => find_idx (child_of cur s) NPROC);
          killed ← gets (fun s => p_killed (proc_at s cur));
          if bool_decide (kids = None) || killed then
            release LkPtable;;
            mret (-1)
          else
            sleep (ChProc cur) LkPtable;;
            wait_loop k cur
      end
  end.

Definition wait : K Z :=
  '(cur, _) ← curproc;
  acquire LkPtable;;
  w ← gets k_wakeups;
  wait_loop (S w) cur.

Definition kill (pid : Z) : K Z :=
  acquire LkPtable;;
  hit ← gets (fun s => find_idx (fun i => p_pid (proc_at s i) =? pid) NPROC);
  match hit with
  | Some p =>
      upd_proc p (proc_killed true);;
      closeprocsocks (Some p);;
      r ← gets (fun s => proc_at s p);
      when (bool_decide (p_state r = SLEEPING)) (upd_proc p (proc_state RUNNABLE));;
      release LkPtable;;
      mret 0
  | None =>
      release LkPtable;;
      mret (-1)
  end.

(** ** Running processes *)

(** One pass over the table; the CPU is given to the process at [swtch], and the
    pass goes on when it comes back. *)
Fixpoint schedule (todo i : nat) : K unit :=
  match todo with
  | O => mret tt
  | S k =>
      r ← gets (fun s => proc_at s i);
      when (bool_decide (p_state r = RUNNABLE)) (
        cpu_set (cpu_proc (Some i));;
        switchuvm (Some i);;
        upd_proc i (proc_state RUNNING);;
        swtch;;
        switchkvm;;
        cpu_set (cpu_proc None));;
      schedule k (S i)
  end.

(** The first [rounds] rounds of the endless loop. *)
Fixpoint scheduler_rounds (rounds : nat) : K unit :=
  match rounds with
  | O => fun s => Stuck s
  | S k =>
      sti;;
      acquire LkPtable;;
      schedule NPROC 0;;
      release LkPtable;;
      scheduler_rounds k
  end.

Definition scheduler (rounds : nat) : K unit :=
  cpu_set (cpu_proc None);;
  scheduler_rounds rounds.

Definition forkret : K unit :=
  release LkPtable;;
  first ← gets k_first;
  when first (
    modify (set_first false);;
    iinit ROOTDEV;;
    initlog ROOTDEV).

(** ** kill *)

Lemma wp_closeprocsocks_none L p q s (Q : unit -> kstate -> Prop) :
  on_cpu L p (k_core s) -> LkStable ∉ L -> find_owned (k_stab s) q = None ->
  (forall c, on_cpu L p c -> Q tt (set_core c s)) -> wp (closeprocsocks (Some q)) s Q.
Proof.
  intros Hc Hni Hn HQ. unfold closeprocsocks. wpb. eapply wp_acquire; [exact Hc|done|]. intros c1 H1.
  wpb. cbn [close_loop]. apply wp_gets_bind. simpl k_stab. rewrite Hn. apply wp_ret.
  eapply wp_release; [exact H1|done|]. intros c2 H2. by apply HQ.
Qed.

Lemma closeprocsocks_holding_ptable L p q s :
  on_cpu L p (k_core s) -> LkStable ∉ L -> LkPtable ∈ L -> find_owned (k_stab s) q <> None ->
  panics (closeprocsocks (Some q)) s "acquire".
Proof.
  intros Hc Hni Hin Hs. unfold closeprocsocks. apply panics_bind_wp.
  eapply wp_acquire; [exact Hc|done|]. intros c1 H1. apply panics_bind. cbn [close_loop].
  apply panics_bind_wp. unfold getprocsock, wp, gets. simpl. destruct (find_owned (k_stab s) q) as [i|]; [|done].
  apply panics_bind. unfold removesock. apply panics_bind.
  eapply wakeup_holding_ptable; [exact H1|]. set_solver.
Qed.

(** The record of a process that [kill] found. *)
Definition killed_proc (r : proc) : proc :=
  let r := proc_killed true r in
  if bool_decide (p_state r = SLEEPING) then proc_state RUNNABLE r else r.

(** Nothing but the record of process [q] and the CPU's changed. *)
Record only_proc (q : nat) (r : proc) (s s' : kstate) : Prop := mkOnlyProc {
  op_rest : s' = set_core (k_core s') (set_ptab (with_procs (procs (k_ptab s')) (k_ptab s)) s);
  op_proc : forall i, proc_at s' i = if decide (i = q) then r else proc_at s i
}.

Lemma wp_kill_found q s (Q : Z -> kstate -> Prop) cur pid :
  on_cpu [] cur (k_core s) -> find_idx (fun i => p_pid (proc_at s i) =? pid) NPROC = Some q ->
  find_owned (k_stab s) q = None ->
  (forall s', on_cpu [] cur (k_core s') -> only_proc q (killed_proc (proc_at s q)) s s' -> Q 0 s') ->
  wp (kill pid) s Q.
Proof.
  intros Hc E Ho HQ. unfold kill. wpb. eapply wp_acquire; [exact Hc|set_solver|]. intros c1 H1. apply wp_gets_bind.
  change (proc_at (set_core c1 s)) with (proc_at s). rewrite E. apply wp_modify_bind. wpb.
  eapply wp_closeprocsocks_none; [exact H1|set_solver|done|]. intros c2 H2. apply wp_gets_bind. wpb.
  match goal with |- context [bool_decide (p_state ?r = _)] =>
    replace r with (proc_killed true (proc_at s q)) by (unfold proc_at; simpl; by rewrite fn_insert_eq) end.
  unfold killed_proc in HQ.
  destruct (bool_decide _) eqn:Hst; simpl when; [apply wp_modify|apply wp_ret]; wpb;
    (eapply wp_release; [exact H2|done|]; intros c3 H3; apply wp_ret, HQ; [exact H3|]; split; [done|]);
    intros i; unfold proc_at; simpl; rewrite !fn_insert_case; repeat case_decide; congruence.
Qed.

(** C30: [kill] of a pid that no process has returns -1 and changes nothing.  Of a
    process without sockets it marks the first process with the pid as killed,
    wakes it if it sleeps, changes nothing else and returns 0.  Of a process that
    owns an open socket it stops the kernel: it calls [closeprocsocks] with
    ptable.lock held, which wakes the peer of the socket and so takes ptable.lock
    again. *)
Theorem kill_outcomes (cur : option nat) (s : kstate) (pid : Z) :
  on_cpu [] cur (k_core s) ->
  match find_idx (fun i => p_pid (proc_at s i) =? pid) NPROC with
  | None => wp (kill pid) s (fun r s' => r = -1 /\ on_cpu [] cur (k_core s') /\ s' = set_core (k_core s') s)
  | Some q =>
      match find_owned (k_stab s) q with
      | None => wp (kill pid) s (fun r s' => r = 0 /\ on_cpu [] cur (k_core s') /\
          only_proc q (killed_proc (proc_at s q)) s s')
      | Some _ => panics (kill pid) s "acquire"
      end
  end.
Proof.
  intros Hc. destruct (find_idx _ NPROC) as [q|] eqn:E.
  - destruct (find_owned (k_stab s) q) as [i|] eqn:Ho; [|by eapply wp_kill_found].
    unfold kill. apply panics_bind_wp. eapply wp_acquire; [exact Hc|set_solver|]. intros c1 H1.
    apply panics_bind_wp. unfold wp, gets. change (proc_at (set_core c1 s)) with (proc_at s).
    rewrite E. apply panics_bind_wp. unfold upd_proc. apply wp_modify. apply panics_bind.
    eapply closeprocsocks_holding_ptable; [exact H1|set_solver|set_solver|]. simpl. by rewrite Ho.
  - unfold kill. wpb. eapply wp_acquire; [exact Hc|set_solver|]. intros c1 H1. apply wp_gets_bind.
    change (proc_at (set_core c1 s)) with (proc_at s). rewrite E. wpb.
    eapply wp_release; [exact H1|done|]. intros c2 H2. by apply wp_ret.
Qed.

(** Two processes, the second of which listens on port 5. *)
Module KillExample.
Definition procs (i : nat) : proc :=
  if Nat.eqb i 0 then user_process RUNNING 1 (fun _ => 0)
  else if Nat.eqb i 1 then user_process SLEEPING 2 (fun _ => 0) else zero_proc.
Definition listening : stab :=
  mkStab (<[0%nat := mkSock 0 LISTENING (Some 1%nat) (fun _ => 0) false 5 (-1)]> (fun _ => zero_sock)) 1 1.
Definition st : kstate := start (Some 0%nat) procs listening.
End KillExample.

Lemma kill_outcomes_witness :
  on_cpu [] (Some 0%nat) (k_core KillExample.st) /\
  panics (kill 2) KillExample.st "acquire" /\
  wp (kill 3) KillExample.st (fun r _ => r = -1).
Proof.
  pose proof (one_cpu_on (Some 0%nat)) as Hc. split_and!; [done| |].
  - pose proof (kill_outcomes (Some 0%nat) KillExample.st 2 Hc) as H.
    assert (E : find_idx (fun i => p_pid (proc_at KillExample.st i) =? 2) NPROC = Some 1%nat) by (vm_compute; reflexivity).
    assert (E2 : find_owned (k_stab KillExample.st) 1 = Some 0%nat) by (vm_compute; reflexivity).
    rewrite E, E2 in H. exact H.
  - pose proof (kill_outcomes (Some 0%nat) KillExample.st 3 Hc) as H.
    assert (E : find_idx (fun i => p_pid (proc_at KillExample.st i) =? 3) NPROC = None) by (vm_compute; reflexivity).
    rewrite E in H. eapply wp_mono; [|exact H]. by intros r s' [? _].
Defined.
