(* ===== verification/Fork.v ===== *)
(** * fork

    [fork] of proc.c, from the table of processes to the page tables: what the
    child is, and what is left as it was. *)

From S2P Require Import Prelude CString KState Spinlock Cprintf Proc Kalloc Sleeplock Fs Vm Paging File ProcLife.

(** ** The pages of a process brought up to date *)

(** The address space of a process, with fewer free pages. *)
Lemma user_space_sub s s' l l' d sz : k_mem s' = k_mem s -> km_end (k_kmem s') = km_end (k_kmem s) -> (forall a, a ∈ l' -> a ∈ l) ->
  user_space s l d sz -> user_space s' l' d sz.
Proof.
  intros Em Ee Hl [[A1 A2 A3] U2 U3 U4]. split; rewrite ?Em, ?Ee; try done.
  - split; try done. intros a Ha. destruct (A1 a Ha) as [P N]. split; [done|]. intros H. by apply N, Hl.
  - intros v Hv. destruct (U2 v Hv) as (P & F & N). split; [done|]. split; [done|]. intros H. by apply N, Hl.
Qed.

Section flush.
Context (s : kstate) (l : list Z) (d sz : Z) (um : mem) (Hk : KERNBASE <= km_end (k_kmem s)) (Hsz : sz <= KERNBASE).

(** A memory that differs from that of [s] only in the pages of the process. *)
Record flushed (n : Z) (m : mem) : Prop := mkFlushed {
  fl_space : user_space (set_mem m s) l d sz;
  fl_pte : forall w, pte m d w = pte (k_mem s) d w;
  fl_user : forall v, 0 <= v < sz -> user_mem m d v = if v <? n then um v else user_mem (k_mem s) d v;
  fl_out : forall x, (forall v, 0 <= v < sz -> ~ in_page (frame_of (pte (k_mem s) d v)) x) -> m x = k_mem s x
}.

Lemma flush_step m i : flushed (i * PGSIZE) m -> 0 <= i -> i * PGSIZE < sz ->
  flushed ((i + 1) * PGSIZE) (match translate m d (i * PGSIZE) with Some pa => memcopy m (P2V pa) um (i * PGSIZE) PGSIZE | None => m end).
Proof.
  assert (Hpz : 0 < PGSIZE) by done. intros [F1 F2 F3 F4] Hi Hlt. set (va := i * PGSIZE) in *. assert (Hva : 0 <= va < sz) by (unfold va, PGSIZE in *; lia). assert (Hmod : va mod PGSIZE = 0) by (by apply Z.mod_mul).
  destruct (us_page _ _ _ _ F1 va Hva) as (P1 & P2 & P3). cbn [k_mem set_mem k_kmem] in *. rewrite translate_pte, P1, (frame_off (km_end (k_kmem s))) by (rewrite ?Hmod; done). rewrite Hmod.
  set (f := frame_of (pte m d va)) in *. set (m1 := memcopy m (f + 0) um va PGSIZE).
  assert (Hout : forall x, ~ in_page f x -> m1 x = m x) by (intros x Hx; unfold m1, memcopy, in_page in *; zcases; simpl; lia || done).
  pose proof (write_space (set_mem m s) l d sz va m1 F1 Hva Hout) as W1. pose proof (write_pte (set_mem m s) l d sz va m1 F1 Hva Hout) as W2. cbn [k_mem set_mem] in W2.
  split.
  - exact W1.
  - intros w. by rewrite W2.
  - intros v Hv. pose proof (chunk_written (set_mem m s) l d sz va um va PGSIZE Hk F1 Hsz Hva ltac:(rewrite Hmod; unfold PGSIZE; lia) v Hv) as Hc. cbn [k_mem set_mem] in Hc. rewrite Hmod in Hc. fold f m1 in Hc.
    rewrite Hc. unfold inside. rewrite F3 by done. replace ((i + 1) * PGSIZE) with (va + PGSIZE) by (unfold va; lia). zcases; try done; try lia; f_equal; lia.
  - intros x Hx. rewrite Hout; [by apply F4|]. unfold f. rewrite F2. by apply Hx.
Qed.

Lemma flush_pages_ok n : forall i m, flushed (i * PGSIZE) m -> 0 <= i -> (Z.of_nat n = 0 \/ (i + Z.of_nat n - 1) * PGSIZE < sz) ->
  flushed ((i + Z.of_nat n) * PGSIZE) (flush_pages n (i * PGSIZE) d um m).
Proof.
  induction n as [|n IH]; intros i m Hm Hi Hn; cbn [flush_pages]; [by rewrite Z.add_0_r|].
  replace (i + Z.of_nat (S n)) with (i + 1 + Z.of_nat n) by lia. replace (i * PGSIZE + PGSIZE) with ((i + 1) * PGSIZE) by lia.
  apply IH; [apply flush_step; [done|done|unfold PGSIZE in *; lia]|lia|]. destruct (Z.eq_dec (Z.of_nat n) 0); [by left|right]. unfold PGSIZE in *. lia.
Qed.

Lemma flush_all : 0 <= sz -> user_space s l d sz ->
  let m := flush_pages (Z.to_nat (PGROUNDUP sz / PGSIZE)) 0 d um (k_mem s) in
  user_space (set_mem m s) l d sz /\ (forall w, pte m d w = pte (k_mem s) d w) /\ (forall v, 0 <= v < sz -> user_mem m d v = um v) /\
  (forall x, (forall v, 0 <= v < sz -> ~ in_page (frame_of (pte (k_mem s) d v)) x) -> m x = k_mem s x).
Proof.
  intros H0 Hu m. pose proof (Z.div_mod (sz + PGSIZE - 1) PGSIZE ltac:(done)) as Ed. pose proof (Z.mod_pos_bound (sz + PGSIZE - 1) PGSIZE ltac:(done)) as Em.
  set (n := (sz + PGSIZE - 1) / PGSIZE) in *. assert (En : PGROUNDUP sz / PGSIZE = n) by (rewrite PGROUNDUP_div by (unfold KERNBASE, PGSIZE, W32 in *; lia); by apply Z.div_mul).
  assert (Hn : 0 <= n) by (apply Z.div_pos; unfold PGSIZE; lia).
  assert (F : flushed (0 * PGSIZE) (k_mem s)). { split; [by destruct s|done| |done]. intros v Hv. by rewrite (proj2 (Z.ltb_ge v _)) by lia. }
  destruct (flush_pages_ok (Z.to_nat n) 0 (k_mem s) F) as [F1 F2 F3 F4]; [lia|unfold PGSIZE in *; lia|]. rewrite Z.mul_0_l in *. unfold m. rewrite En. split; [done|]. split; [done|]. split; [|done].
  intros v Hv. rewrite F3 by done. rewrite (proj2 (Z.ltb_lt v _)); [done|]. rewrite Z.add_0_l, Z2Nat.id by lia. unfold PGSIZE in *. lia.
Qed.
End flush.

(** ** The parts of fork *)

Lemma proc_set_eq i r t s : proc_at (set_ptab (with_procs (<[i := r]> (procs t)) t) s) i = r.
Proof. unfold proc_at. simpl. apply fn_insert_eq. Qed.

Lemma proc_set_ne i j r t s : j <> i -> proc_at (set_ptab (with_procs (<[i := r]> (procs t)) t) s) j = procs t j.
Proof. intros H. unfold proc_at. simpl. by apply fn_insert_ne. Qed.

(** The descriptors from [i] on, [todo] of them, that are the file [g]. *)
Fixpoint refs_to (todo i : nat) (o : nat -> option nat) (g : nat) : Z :=
  match todo with
  | O => 0
  | S k => (if bool_decide (o i = Some g) then 1 else 0) + refs_to k (S i) o g
  end.

Lemma refs_to_pos todo o g : forall i, 0 <= refs_to todo i o g.
Proof. induction todo as [|k IH]; intros i; simpl; [lia|]. specialize (IH (S i)). case_bool_decide; lia. Qed.

Lemma refs_to_ext todo o o' g : forall i, (forall j, o j = o' j) -> refs_to todo i o g = refs_to todo i o' g.
Proof. induction todo as [|k IH]; intros i H; simpl; [done|]. by rewrite H, IH. Qed.

Lemma wp_filedup L p f s (Q : nat -> kstate -> Prop) : on_cpu L p (k_core s) -> LkFtable ∉ L -> 1 <= f_ref (file_at s f) ->
  (forall c, on_cpu L p c -> Q f (set_core c (set_file (<[f := file_ref (f_ref (file_at s f) + 1) (file_at s f)]> (k_file s)) s))) ->
  wp (filedup f) s Q.
Proof.
  intros Hc Hni Hr HQ. unfold filedup, file_get, upd_file. wpb. eapply wp_acquire; [exact Hc|done|]. intros c1 H1. wp1.
  change (file_at (set_core c1 s) f) with (file_at s f). rewrite (proj2 (Z.ltb_ge _ 1)) by done. apply wp_modify_bind. wpb. eapply wp_release; [exact H1|done|]. intros c2 H2.
  apply wp_ret. by apply HQ.
Qed.

(** The tables of processes and files after the descriptors are shared. *)
Record shared (todo i : nat) (cur np : nat) (s s' : kstate) : Prop := mkShared {
  sh_rest : s' = set_core (k_core s') (set_file (k_file s') (set_ptab (with_procs (procs (k_ptab s')) (k_ptab s)) s));
  sh_other : forall j, j <> np -> proc_at s' j = proc_at s j;
  sh_child : exists o, proc_at s' np = proc_ofile o (proc_at s np) /\
    forall j, o j = if bool_decide (i <= j < i + todo)%nat && bool_decide (is_Some (p_ofile (proc_at s cur) j)) then p_ofile (proc_at s cur) j else p_ofile (proc_at s np) j;
  sh_files : forall g, file_at s' g = file_ref (f_ref (file_at s g) + refs_to todo i (p_ofile (proc_at s cur)) g) (file_at s g)
}.

Lemma wp_dup_files L p cur np todo : LkFtable ∉ L -> cur <> np -> forall i s (Q : unit -> kstate -> Prop),
  on_cpu L p (k_core s) -> (forall j g, (i <= j < i + todo)%nat -> p_ofile (proc_at s cur) j = Some g -> 1 <= f_ref (file_at s g)) ->
  (forall s', on_cpu L p (k_core s') -> shared todo i cur np s s' -> Q tt s') -> wp (dup_files todo i cur np) s Q.
Proof.
  intros Hni Hne. induction todo as [|todo IH]; intros i s Q Hc Hf HQ; cbn [dup_files].
  - apply wp_ret. apply HQ; [done|]. split; [by destruct s as [? [] ? ? ? ? ? ? ? ? ? ? ?]|done| |].
    + exists (p_ofile (proc_at s np)). split; [by destruct (proc_at s np)|]. intros j. by rewrite bool_decide_false by lia.
    + intros g. simpl. rewrite Z.add_0_r. by destruct (file_at s g).
  - apply wp_gets_bind. destruct (p_ofile (proc_at s cur) i) as [f|] eqn:Ef.
    + apply wp_bind, wp_bind. apply (wp_filedup L p); [done|done|by apply (Hf i); [lia|]|]. intros c1 H1. apply wp_modify. cbn [k_ptab set_core set_file].
      set (s1 := set_ptab _ _). assert (Ecur : proc_at s1 cur = proc_at s cur) by (unfold s1, proc_at; simpl; by rewrite fn_insert_ne).
      apply IH; [done| |].
      * intros j g Hj. rewrite Ecur. intros Ej. pose proof (Hf j g ltac:(lia) Ej) as Hg. unfold s1, file_at. simpl. destruct (decide (g = f)) as [->|]; [rewrite fn_insert_eq; simpl; fold (file_at s f); lia|by rewrite fn_insert_ne].
      * intros s' H' [S1 S2 (o & S3 & S4) S5]. apply HQ; [done|]. rewrite Ecur in *. split.
        -- rewrite S1. by destruct s as [? [] ? ? ? ? ? ? ? ? ? ? ?].
        -- intros j Hj. rewrite S2 by done. unfold s1, proc_at. simpl. by rewrite fn_insert_ne.
        -- exists o. assert (Enp : proc_at s1 np = proc_ofile (<[i := Some f]> (p_ofile (proc_at s np))) (proc_at s np)) by (unfold s1, proc_at; simpl; by rewrite fn_insert_eq).
           rewrite S3, Enp. split; [done|]. intros j. rewrite S4, Enp. simpl. destruct (decide (j = i)) as [->|Hji].
           ++ rewrite (bool_decide_false (S i <= i < _)%nat), (bool_decide_true (i <= i < _)%nat), fn_insert_eq by lia. simpl. rewrite Ef. by rewrite bool_decide_true by eauto.
           ++ rewrite fn_insert_ne by done. rewrite (bool_decide_ext (S i <= j < S i + todo)%nat (i <= j < i + S todo)%nat) by lia. done.
        -- intros g. rewrite S5. unfold s1, file_at. simpl. rewrite Ef. destruct (decide (g = f)) as [->|Hgf].
           ++ rewrite fn_insert_eq, bool_decide_true by done. simpl. unfold file_ref. simpl. f_equal. fold (file_at s f). lia.
           ++ rewrite fn_insert_ne, bool_decide_false by congruence. done.
    + apply wp_ret_bind. apply IH; [done|intros j g Hj; apply Hf; lia|]. intros s' H' [S1 S2 (o & S3 & S4) S5]. apply HQ; [done|]. split; [done|done| |].
      * exists o. split; [done|]. intros j. rewrite S4. destruct (decide (j = i)) as [->|Hji].
        -- rewrite (bool_decide_false (S i <= i < _)%nat) by lia. rewrite Ef. rewrite (bool_decide_false (is_Some None)) by (by intros [? ?]). by rewrite !andb_false_r.
        -- by rewrite (bool_decide_ext (S i <= j < S i + todo)%nat (i <= j < i + S todo)%nat) by lia.
      * intros g. rewrite S5. simpl. by rewrite Ef.
Qed.

(** ** fork *)

(** A process that can be copied: its memory is its own, there are pages enough, the first unused entry of the table
    is clear, and the files it has open are. *)
Record forkable (s : kstate) (cur np cwd : nat) (l : list Z) : Prop := mkForkable {
  fk_cpu : on_cpu [] (Some cur) (k_core s);
  fk_slot : find_idx (fun i => bool_decide (p_state (proc_at s i) = UNUSED)) NPROC = Some np;
  fk_running : p_state (proc_at s cur) = RUNNING;
  fk_pages : free_pages s l;
  fk_space : user_space s l (p_pgdir (proc_at s cur)) (p_sz (proc_at s cur));
  fk_sz : 0 <= p_sz (proc_at s cur) <= KERNBASE;
  fk_data : data_ok (vm_data (k_vm s));
  fk_enough : 1026 + (p_sz (proc_at s cur) + PGSIZE - 1) / PGSIZE <= Z.of_nat (length l);
  fk_files : forall j g, (j < NOFILE)%nat -> p_ofile (proc_at s cur) j = Some g -> 1 <= f_ref (file_at s g);
  fk_clear : forall j, (j < NOFILE)%nat -> p_ofile (proc_at s np) j = None;
  fk_cwd : p_cwd (proc_at s cur) = Some cwd
}.

(** The child's entry in the table, [c], made from the parent's, [r]. *)
Record child_of_parent (cur : nat) (pid : Z) (r c : proc) : Prop := mkChild {
  ch_state : p_state c = RUNNABLE;
  ch_pid : p_pid c = pid;
  ch_parent : p_parent c = Some cur;
  ch_sz : p_sz c = p_sz r;
  ch_umem : forall v, 0 <= v < p_sz r -> p_umem c v = p_umem r v;
  ch_tf : p_tf c = tf_set_eax 0 (p_tf r);
  ch_ofile : forall j, (j < NOFILE)%nat -> p_ofile c j = p_ofile r j;
  ch_cwd : p_cwd c = p_cwd r
}.

Lemma wp_allocproc cur np s a l (Q : option nat -> kstate -> Prop) : on_cpu [] (Some cur) (k_core s) ->
  find_idx (fun i => bool_decide (p_state (proc_at s i) = UNUSED)) NPROC = Some np -> free_pages s (a :: l) ->
  (forall s1 t, on_cpu [] (Some cur) (k_core s1) -> free_pages s1 l -> mframe (set_ptab t s) s1 -> k_mem s1 = k_mem s ->
    nextpid t = int32 (nextpid (k_ptab s) + 1) -> initproc t = initproc (k_ptab s) -> (forall j, j <> np -> procs t j = proc_at s j) ->
    procs t np = proc_pid (nextpid (k_ptab s)) (proc_state EMBRYO (proc_at s np)) ->
    Q (Some np) (set_ptab (with_procs (<[np := proc_kstack a (procs t np)]> (procs t)) t) s1)) ->
  wp allocproc s Q.
Proof.
  intros Hc Hs Hf HQ. unfold allocproc, upd_proc. wpb. eapply wp_acquire; [exact Hc|set_solver|]. intros c1 H1. apply wp_gets_bind. cbv beta.
  change (proc_at (set_core c1 s)) with (proc_at s). rewrite Hs. apply wp_gets_bind. do 2 apply wp_modify_bind. wpb. eapply wp_release; [exact H1|done|]. intros c2 H2.
  set (t := with_nextpid _ _). match goal with |- wp _ ?st _ => set (s2 := st) end. wpb.
  apply (wp_kalloc_page [] (Some cur) ltac:(set_solver) s2 a l); [exact H2|by destruct Hf as [F1 F2 F3 F4]; split|]. intros s3 H3 Hf3 M3 E3 Hp Hnz _.
  apply wp_modify_bind. rewrite (proj2 (Z.eqb_neq a 0)) by done. apply wp_ret.
  assert (Et : k_ptab s3 = t) by (rewrite (mf_rest _ _ M3); done). unfold proc_at. rewrite Et.
  apply (HQ s3 t); [done|done| |done|done|done| |].
  - etransitivity; [|exact M3]. split; done.
  - intros j Hj. unfold t. simpl. by rewrite fn_insert_ne.
  - unfold t. simpl. by rewrite fn_insert_eq.
Qed.

Lemma flush_free s l d sz um : free_pages s l -> user_space s l d sz -> 0 <= sz <= KERNBASE ->
  free_pages (set_mem (flush_pages (Z.to_nat (PGROUNDUP sz / PGSIZE)) 0 d um (k_mem s)) s) l.
Proof.
  intros [F1 F2 F3 F4] Hu Hsz. destruct (flush_all s l d sz um F1 ltac:(lia) ltac:(lia) Hu) as (_ & _ & _ & Ho). split; try done. simpl. apply (linked_pages_ext (k_mem s)); [|done].
  intros a x Ha Hx. apply Ho. intros v Hv Hin. destruct (us_page _ _ _ _ Hu v Hv) as (_ & Hp & Hni).
  destruct (pages_apart _ a _ (F4 a Ha) Hp) as [H|H]; [by intros ->|unfold in_page, PGSIZE in *; lia..].
Qed.

Lemma wp_idup L p ip s (Q : nat -> kstate -> Prop) : on_cpu L p (k_core s) -> LkIcache ∉ L ->
  (forall c, on_cpu L p c -> Q ip (set_core c (set_fs (with_inode (<[ip := inode_ref (i_ref (inode_at s ip) + 1) (inode_at s ip)]> (fs_inode (k_fs s))) (k_fs s)) s))) -> wp (idup ip) s Q.
Proof.
  intros Hc Hni HQ. unfold idup. wpb. eapply wp_acquire; [exact Hc|done|]. intros c1 H1. wpb. apply wp_modify. wpb. eapply wp_release; [exact H1|done|]. intros c2 H2. apply wp_ret. by apply HQ.
Qed.

(** The second half: the files, the directory and the name, and the child is ready. *)
Definition fork_rest (cur np : nat) : K Z :=
  dup_files NOFILE 0 cur np;;
  cwd ← gets (fun s => p_cwd (proc_at s cur));
  (match cwd with
   | Some cwd =>
       cwd ← idup cwd;
       upd_proc np (proc_cwd (Some cwd))
   | None => undef "idup(0)"
   end);;
  p ← gets (fun s => proc_at s cur);
  upd_proc np (fun r => proc_name (safestrcpy (p_name r) 0 (p_name p) 0 16) r);;
  pid ← gets (fun s => p_pid (proc_at s np));
  acquire LkPtable;;
  upd_proc np (proc_state RUNNABLE);;
  release LkPtable;;
  mret pid.

(** The state after it: [k_core], the files, the cache and the table of processes have changed. *)
Record rest_done (cur np cwd : nat) (s s' : kstate) : Prop := mkRestDone {
  rd_cpu : on_cpu [] (Some cur) (k_core s');
  rd_rest : s' = set_core (k_core s') (set_file (k_file s') (set_fs (k_fs s') (set_ptab (with_procs (procs (k_ptab s')) (k_ptab s)) s)));
  rd_fs : k_fs s' = with_inode (<[cwd := inode_ref (i_ref (inode_at s cwd) + 1) (inode_at s cwd)]> (fs_inode (k_fs s))) (k_fs s);
  rd_files : forall g, file_at s' g = file_ref (f_ref (file_at s g) + refs_to NOFILE 0 (p_ofile (proc_at s cur)) g) (file_at s g);
  rd_other : forall j, j <> np -> proc_at s' j = proc_at s j;
  rd_child : exists o, proc_at s' np = proc_state RUNNABLE (proc_name (safestrcpy (p_name (proc_at s np)) 0 (p_name (proc_at s cur)) 0 16) (proc_cwd (Some cwd) (proc_ofile o (proc_at s np)))) /\
    forall j, (j < NOFILE)%nat -> (p_ofile (proc_at s np) j = None) -> o j = p_ofile (proc_at s cur) j
}.

Lemma wp_fork_rest cur np cwd s (Q : Z -> kstate -> Prop) : on_cpu [] (Some cur) (k_core s) -> cur <> np ->
  (forall j g, (j < NOFILE)%nat -> p_ofile (proc_at s cur) j = Some g -> 1 <= f_ref (file_at s g)) -> p_cwd (proc_at s cur) = Some cwd ->
  (forall s', rest_done cur np cwd s s' -> Q (p_pid (proc_at s np)) s') -> wp (fork_rest cur np) s Q.
Proof.
  intros Hc Hne Hf Hcw HQ. unfold fork_rest, upd_proc. wpb. apply (wp_dup_files [] (Some cur) cur np NOFILE); [set_solver|done|done|intros j g Hj; apply Hf; lia|].
  intros s1 H1 [S1 S2 (o & S3 & S4) S5]. assert (Efs : k_fs s1 = k_fs s) by (by rewrite S1). apply wp_gets_bind. rewrite S2, Hcw by done. wpb. wpb. apply (wp_idup [] (Some cur)); [done|set_solver|]. intros c2 H2.
  apply wp_modify. match goal with |- wp _ ?st _ => set (s2 := st) end. apply wp_gets_bind. apply wp_modify_bind. match goal with |- wp _ ?st _ => set (s3 := st) end. apply wp_gets_bind.
  wpb. eapply wp_acquire; [exact H2|set_solver|]. intros c4 H4. apply wp_modify_bind. wpb. eapply wp_release; [exact H4|done|]. intros c5 H5. apply wp_ret.
  assert (E2 : proc_at s2 np = proc_cwd (Some cwd) (proc_ofile o (proc_at s np)) /\ forall j, j <> np -> proc_at s2 j = proc_at s j).
  { unfold s2. split; [rewrite proc_set_eq, <- S3; done|]. intros j Hj. rewrite proc_set_ne by done. by apply S2. }
  assert (E3 : proc_at s3 np = proc_name (safestrcpy (p_name (proc_at s np)) 0 (p_name (proc_at s cur)) 0 16) (proc_cwd (Some cwd) (proc_ofile o (proc_at s np))) /\ forall j, j <> np -> proc_at s3 j = proc_at s j).
  { destruct E2 as [E2 E2']. unfold s3. split; [rewrite proc_set_eq, E2, E2' by done; done|]. intros j Hj. rewrite proc_set_ne by done. by apply E2'. }
  destruct E3 as [E3 E3']. rewrite E3. simpl p_pid. apply HQ. split.
  - exact H5.
  - unfold s3, s2. rewrite S1. by destruct s as [? [] ? ? ? ? ? ? ? ? ? ? ?].
  - simpl. unfold inode_at. by rewrite Efs.
  - intros g. rewrite <- S5. done.
  - intros j Hj. change (proc_at (set_core c5 ?a) j) with (proc_at a j). rewrite proc_set_ne by done. by apply E3'.
  - exists o. split; [change (proc_at (set_core c5 ?a) np) with (proc_at a np); rewrite proc_set_eq; change (proc_at (set_core c4 s3) np) with (proc_at s3 np); by rewrite E3|]. intros j Hj Hno. rewrite S4, bool_decide_true by lia. simpl. case_bool_decide as Hs; [done|].
    rewrite Hno. destruct (p_ofile (proc_at s cur) j) as [g|]; [|done]. destruct Hs. by exists g.
Qed.

(** C12: [fork] copies the process.  With a free entry in the table and pages enough it returns the new process's pid: the
    child is ready to run, in an address space of its own with the same bytes, will find 0 in %eax, and has the same
    open files and current directory, each with one more reference for it.  The parent is as it was, and so is every
    other process; no byte of physical memory is in both address spaces. *)
Theorem fork_copies (s : kstate) (cur np cwd : nat) (l : list Z) (H : forkable s cur np cwd l) :
  wp fork s (fun r s' => r = nextpid (k_ptab s) /\ child_of_parent cur r (proc_at s cur) (proc_at s' np) /\
    (forall j, j <> np -> proc_at s' j = proc_at s j) /\ nextpid (k_ptab s') = int32 (nextpid (k_ptab s) + 1) /\
    (forall g, f_ref (file_at s' g) = f_ref (file_at s g) + refs_to NOFILE 0 (p_ofile (proc_at s cur)) g) /\
    (forall i, i_ref (inode_at s' i) = i_ref (inode_at s i) + if bool_decide (i = cwd) then 1 else 0) /\
    k_stab s' = k_stab s /\ k_pipe s' = k_pipe s /\ on_cpu [] (Some cur) (k_core s') /\
    let sz := p_sz (proc_at s cur) in let pg := p_pgdir (proc_at s cur) in let d := p_pgdir (proc_at s' np) in
    (forall v, 0 <= v < sz -> user_mem (k_mem s') d v = p_umem (proc_at s cur) v /\ user_mem (k_mem s') pg v = p_umem (proc_at s cur) v) /\
    (forall v v', 0 <= v < sz -> 0 <= v' < sz -> translate (k_mem s') d v <> translate (k_mem s') pg v') /\
    exists l', free_pages s' l' /\ user_space s' l' d sz /\ user_space s' l' pg sz).
Proof.
  destruct H as [K1 K2 K3 K4 K5 K6 K7 K8 K9 K10 K11]. set (P := proc_at s cur) in *. set (sz := p_sz P) in *. set (pg := p_pgdir P) in *.
  assert (Hne : cur <> np). { intros <-. apply find_idx_Some in K2 as (_ & K2 & _). apply bool_decide_eq_true in K2. unfold P in K3. congruence. }
  assert (Hn : 0 <= (sz + PGSIZE - 1) / PGSIZE) by (apply Z.div_pos; unfold PGSIZE; lia). destruct l as [|a l]; [simpl in K8; lia|]. simpl length in K8.
  unfold fork, upd_proc. wpb. eapply wp_curproc; [exact K1|]. intros c0 H0. cbv beta iota. fold P.
  wpb. apply (wp_allocproc cur np (set_core c0 s) a l); [done|done|by destruct K4; split|]. intros s1 t H1 F1 M1 E1 T1 T2 T3 T4. cbn [k_ptab set_core k_mem] in *. change (proc_at (set_core c0 s)) with (proc_at s) in *.
  set (t1 := with_procs _ t). unfold flush_user. wpb. apply wp_gets_bind. assert (Ep : proc_at (set_ptab t1 s1) cur = P) by (unfold t1; rewrite proc_set_ne, T3 by done; done). rewrite Ep. apply wp_modify. cbn [k_mem set_ptab].
  fold sz pg. set (m2 := flush_pages _ 0 pg (p_umem P) (k_mem s1)). assert (Hend : km_end (k_kmem s1) = km_end (k_kmem s)) by (rewrite (mf_end _ _ M1); done).
  set (s2 := set_mem m2 (set_ptab t1 s1)). assert (U1 : user_space (set_ptab t1 s1) l pg sz) by (apply (user_space_sub s _ (a :: l)); [done|done|intros b Hb; by apply elem_of_cons; right|done]).
  destruct (flush_all (set_ptab t1 s1) l pg sz (p_umem P) (fp_end _ _ F1) ltac:(lia) ltac:(lia) U1) as (U2 & _ & V2 & _). change (set_mem _ _) with s2 in U2.
  assert (F2 : free_pages s2 l) by (apply (flush_free (set_ptab t1 s1) l pg sz (p_umem P)); [by destruct F1; split|done|done]).
  apply wp_gets_bind. change (proc_at s2 cur) with (proc_at (set_ptab t1 s1) cur). rewrite Ep. fold sz pg. wpb. assert (Evm : k_vm s2 = k_vm s) by (unfold s2; simpl; rewrite (mf_rest _ _ M1); done).
  apply (wp_copyuvm [] (Some cur) s2 l pg sz); [set_solver|exact H1|exact F2|exact U2|done|by rewrite Evm|lia|]. intros d s3 l3 Hd M3 C1 C2 F3 H3 U3 U4.
  apply wp_modify_bind. rewrite (proj2 (Z.eqb_neq d 0)) by done. apply wp_modify_bind. unfold load_user, upd_proc. wpb. apply wp_gets_bind. apply wp_modify.
  match goal with |- wp ?m ?st ?Q => set (s4 := st); change (wp (fork_rest cur np) s4 Q) end.
  assert (Et3 : k_ptab s3 = t1) by (rewrite (mf_rest _ _ M3); done).
  assert (Eo : forall j, j <> np -> proc_at s4 j = proc_at s j).
  { intros j Hj. unfold s4. rewrite !proc_set_ne by done. cbn [k_ptab set_ptab]. rewrite Et3. unfold t1. simpl. rewrite !fn_insert_ne by done. by apply T3. }
  assert (En : proc_at s4 np = proc_umem (user_mem (k_mem s3) d) (proc_tf (tf_set_eax 0 (p_tf P)) (proc_parent (Some cur) (proc_sz sz (proc_pgdir d (proc_kstack a
    (proc_pid (nextpid (k_ptab s)) (proc_state EMBRYO (proc_at s np))))))))).
  { assert (E3n : proc_at s3 np = proc_kstack a (procs t np)) by (unfold proc_at; rewrite Et3; unfold t1; simpl; by rewrite fn_insert_eq). unfold s4. by rewrite !proc_set_eq, E3n, T4. }
  assert (Ef : forall g, file_at s4 g = file_at s g) by (intros g; unfold file_at, s4; simpl; rewrite (mf_rest _ _ M3); simpl; rewrite (mf_rest _ _ M1); done).
  assert (Ei : k_fs s4 = k_fs s) by (unfold s4; simpl; rewrite (mf_rest _ _ M3); simpl; rewrite (mf_rest _ _ M1); done).
  apply (wp_fork_rest cur np cwd s4); [exact H3|done|intros j g Hj; rewrite Eo, Ef by done; by apply K9|by rewrite Eo|]. intros s' [R1 R2 R3 R4 R5 (o & R6 & R7)]. rewrite En in R6, R7 |- *. rewrite (Eo cur Hne) in R6, R7. fold P in R6, R7. simpl in R7.
  assert (Em : k_mem s' = k_mem s3 /\ k_kmem s' = k_kmem s3) by (rewrite R2; done). destruct Em as [Em Ekm]. assert (Ed : p_pgdir (proc_at s' np) = d) by (rewrite R6; done).
  assert (Hu : forall v, 0 <= v < sz -> user_mem (k_mem s3) d v = p_umem P v /\ user_mem (k_mem s3) pg v = p_umem P v).
  { intros v Hv. destruct (C1 v Hv) as (D1 & _ & D3). rewrite D1, D3. split; by apply V2. }
  split; [done|]. split.
  { rewrite R6. split; simpl; try done; [intros v Hv; by apply Hu|]. intros j Hj. apply R7; [done|]. by apply K10. }
  split; [intros j Hj; rewrite R5 by done; by apply Eo|]. split.
  { rewrite R2. simpl. unfold s4. simpl. rewrite Et3. exact T1. }
  split; [intros g; rewrite R4, Ef, (Eo cur Hne); done|]. split.
  { intros i. unfold inode_at. rewrite R3. cbn [fs_inode with_inode]. unfold inode_at. rewrite Ei. case_bool_decide as Hi; [subst i; by rewrite fn_insert_eq|]. rewrite fn_insert_ne by done. lia. }
  split; [rewrite R2; unfold s4; simpl; rewrite (mf_rest _ _ M3); simpl; rewrite (mf_rest _ _ M1); done|]. split; [rewrite R2; unfold s4; simpl; rewrite (mf_rest _ _ M3); simpl; rewrite (mf_rest _ _ M1); done|].
  split; [done|]. cbv zeta. rewrite Ed, Em. split; [exact Hu|]. split; [exact C2|]. exists l3.
  split; [by destruct F3; split; rewrite ?Ekm, ?Em|]. split; [by apply (user_space_sub s3 _ l3); rewrite ?Ekm|by apply (user_space_sub s3 _ l3); rewrite ?Ekm].
Qed.

(** A process of one page with one open file, and 1,030 free pages. *)
Module SmallFork.
Definition parent : proc :=
  mkProc 4096 (fun v => v mod 200) 0 RUNNING 5 None (tf_set_eax 1 (p_tf zero_proc)) None false (<[0%nat := Some 3%nat]> (fun _ => None)) (Some 2%nat) Forked.dir (fun _ => 0).

Definition st : kstate :=
  set_file (fun f => if (f =? 3)%nat then file_ref 1 (k_file Forked.st f) else k_file Forked.st f)
    (set_core (one_cpu (Some 0%nat)) (set_ptab (mkPtab (<[0%nat := parent]> (fun _ => zero_proc)) 6 None) Forked.st)).

Lemma st_cur : proc_at st 0 = parent.
Proof. reflexivity. Qed.

Lemma small_forkable : forkable st 0 1 2 Forked.frees.
Proof.
  split.
  - apply one_cpu_on.
  - vm_compute. reflexivity.
  - reflexivity.
  - destruct Forked.st_frees. by split.
  - apply (user_space_sub Forked.st _ Forked.frees); [done|done|done|exact Forked.st_user].
  - split; discriminate.
  - split; [reflexivity|split; reflexivity].
  - unfold Forked.frees. rewrite Forked.length_page_list, Z2Nat.id by discriminate. vm_compute. discriminate.
  - intros j g _. rewrite st_cur. simpl. destruct (decide (j = 0%nat)) as [->|Hne]; [rewrite fn_insert_eq; intros [= <-]; vm_compute; discriminate|by rewrite fn_insert_ne].
  - done.
  - done.
Qed.
End SmallFork.

Lemma fork_copies_witness :
  wp fork SmallFork.st (fun r s' => r = 6 /\ p_state (proc_at s' 1) = RUNNABLE /\ p_umem (proc_at s' 1) 205 = 5 /\ p_ofile (proc_at s' 1) 0%nat = Some 3%nat /\
    f_ref (file_at s' 3) = 2).
Proof.
  refine (wp_mono _ _ _ _ _ (fork_copies SmallFork.st 0 1 2 Forked.frees SmallFork.small_forkable)).
  intros r s' (-> & [C1 _ _ _ C5 _ C7 _] & _ & _ & Hf & _). split; [reflexivity|]. split; [exact C1|]. split; [apply (C5 205); vm_compute; split; congruence|].
  split; [apply (C7 0%nat); apply Nat.ltb_lt; reflexivity|]. rewrite Hf. vm_compute. reflexivity.
Defined.
