(* ===== verification/Reap.v ===== *)
(** * vm.c and proc.c: giving memory back

    [freevm] frees the pages of an address space, its tables and its directory;
    [wait] frees what a dead child leaves.

    Shown: after [freevm] the free pages are those that were free and exactly the
    pages of the address space, each once, though some of its addresses are not
    mapped; and [wait] finds a dead child, returns its pid, frees its stack and its
    memory, and makes its entry of the process table free again. *)

From S2P Require Import Prelude CString KState Spinlock Cprintf Proc Sock Kalloc Vm Paging File ProcLife Fork.

#[local] Open Scope kernel_scope.

(** ** One page, one entry *)

Lemma pte_ext m m' d v : (forall b x, table_page m d b -> in_page b x -> m' x = m x) -> pte m' d v = pte m d v.
Proof.
  intros H. unfold pte. pose proof (PDX_range v). pose proof (PTX_range v). rewrite (pde_ext m m') by (done || (intros x; apply H; by left)).
  destruct (present (pde m d (PDX v))) eqn:E; [|done]. apply load32_ext. intros x Hx. apply (H (frame_of (pde m d (PDX v)))); [by apply table_at|].
  unfold in_page, PGSIZE. lia.
Qed.

Lemma tables_sub kend l l' m d : tables kend l m d -> (forall b, b ∈ l' -> b ∈ l \/ ~ table_page m d b) -> tables kend l' m d.
Proof. intros [A B C] H. split; [|done..]. intros a Ha. destruct (A a Ha) as [A1 A2]. split; [done|]. intros X. by destruct (H a X). Qed.

Lemma page_disjoint kend a b x : page_ok kend a -> page_ok kend b -> a <> b -> in_page a x -> ~ in_page b x.
Proof. intros Ha Hb Hne. destruct (pages_apart kend a b Ha Hb Hne); unfold in_page; lia. Qed.

Section give_back.
Context (L : list lockid) (p : option nat) (Hni : LkKmem ∉ L).

Lemma wp_kfree_page s l f (Q : unit -> kstate -> Prop) : on_cpu L p (k_core s) -> free_pages s l -> page_ok (km_end (k_kmem s)) f -> (f ∉ l) ->
  (forall s', mframe s s' -> on_cpu L p (k_core s') -> free_pages s' (f :: l) -> (forall x, ~ in_page f x -> k_mem s' x = k_mem s x) -> Q tt s') ->
  wp (kfree f) s Q.
Proof.
  intros Hc Hf Hp Hl HQ. apply (wp_kfree L p); [done|done|apply Hf|done|]. intros c H1. apply HQ; [done|done|by apply free_pages_kfree|].
  intros x Hx. unfold set_alloc. cbn [k_mem set_core set_mem]. unfold in_page, PGSIZE in *. rewrite store32_ne by lia. rewrite memset_spec by done.
  unfold inside. zcases; lia.
Qed.

(** A page that is no table of the address space. *)
Lemma wp_kfree_space s l d f (Q : unit -> kstate -> Prop) : space L p s l d -> page_ok (km_end (k_kmem s)) f -> (f ∉ l) -> ~ table_page (k_mem s) d f ->
  (forall s', mframe s s' -> space L p s' (f :: l) d -> (forall i, 0 <= i < 1024 -> pde (k_mem s') d i = pde (k_mem s) d i) ->
    (forall v, pte (k_mem s') d v = pte (k_mem s) d v) -> (forall x, ~ in_page f x -> k_mem s' x = k_mem s x) -> Q tt s') ->
  wp (kfree f) s Q.
Proof.
  intros [Hc Hf Ht] Hp Hl Hn HQ. apply (wp_kfree_page s l); [done..|]. intros s' F1 C1 P1 M1.
  assert (Hm : forall b x, table_page (k_mem s) d b -> in_page b x -> k_mem s' x = k_mem s x).
  { intros b x Hb Hx. apply M1. eapply page_disjoint; [by apply Ht|exact Hp|by intros ->|done]. }
  assert (Hd : forall i, 0 <= i < 1024 -> pde (k_mem s') d i = pde (k_mem s) d i) by (intros i Hi; apply pde_ext; [done|]; intros x; apply Hm; by left).
  apply HQ; [done| |done|intros v; by apply pte_ext|done]. split; [done|done|]. rewrite (mf_end _ _ F1). apply (tables_ext (k_mem s)); [done|].
  apply (tables_sub _ l); [done|]. intros b [->|Hb]%elem_of_cons; [by right|by left].
Qed.

Lemma wp_walk_at s l d va (Q : Z -> kstate -> Prop) : space L p s l d ->
  (if present (pde (k_mem s) d (PDX va)) then let r := frame_of (pde (k_mem s) d (PDX va)) + 4 * PTX va in r <> 0 -> Q r s else Q 0 s) ->
  wp (walkpgdir d va false) s Q.
Proof.
  intros [_ [Hk _ _ _] Ht] HQ. unfold walkpgdir, kload. wp1. fold (pde (k_mem s) d (PDX va)) (present (pde (k_mem s) d (PDX va))).
  pose proof (PTX_range va). destruct (present (pde (k_mem s) d (PDX va))) eqn:Hp; simpl negb; cbv iota; apply wp_ret; [|done].
  apply HQ. destruct (tb_page _ _ _ _ Ht _ (table_at _ _ _ (PDX_range va) Hp)) as [[_ Hr] _]. fold (frame_of (pde (k_mem s) d (PDX va))). unfold KERNBASE in *. lia.
Qed.

(** ** The pages *)

(** The user memory mapped by [d]: pages of its own, none of them free. *)
Record owned (s : kstate) (l : list Z) (d : Z) : Prop := mkOwned {
  ow_end : KERNBASE < km_end (k_kmem s);
  ow_page : forall v, 0 <= v < KERNBASE -> present (pte (k_mem s) d v) = true ->
    page_ok (km_end (k_kmem s)) (frame_of (pte (k_mem s) d v)) /\ (frame_of (pte (k_mem s) d v) ∉ l) /\ ~ table_page (k_mem s) d (frame_of (pte (k_mem s) d v));
  ow_inj : forall v v', 0 <= v < KERNBASE -> 0 <= v' < KERNBASE -> present (pte (k_mem s) d v) = true -> present (pte (k_mem s) d v') = true ->
    frame_of (pte (k_mem s) d v) = frame_of (pte (k_mem s) d v') -> v / PGSIZE = v' / PGSIZE
}.

(** [b] is a page mapped below [a]. *)
Definition mapped (m : mem) (d a b : Z) : Prop := exists v, 0 <= v < a /\ present (pte m d v) = true /\ b = frame_of (pte m d v).

Section pages.
Context (s0 : kstate) (l0 : list Z) (d : Z) (Ho : owned s0 l0 d).
Let m0 := k_mem s0.

(** The pages below [a] have been given back. *)
Record freed (a : Z) (s : kstate) (l : list Z) : Prop := mkFreed {
  fr_frame : mframe s0 s;
  fr_space : space L p s l d;
  fr_list : forall b, b ∈ l <-> b ∈ l0 \/ mapped m0 d a b;
  fr_pde : forall i, 0 <= i < 1024 -> pde (k_mem s) d i = pde m0 d i;
  fr_pte : forall v, a <= v < W32 -> pte (k_mem s) d v = pte m0 d v;
  fr_mem : forall x, (forall b, table_page m0 d b -> ~ in_page b x) -> (forall b, b ∈ l -> ~ in_page b x) -> k_mem s x = m0 x
}.

Lemma freed_skip a a' s l : freed a s l -> a <= a' -> (forall v, a <= v < a' -> present (pte m0 d v) = false) -> freed a' s l.
Proof.
  intros [A B C D E F] Ha H. split; [done|done| |done|intros v Hv; apply E; lia|done]. intros b. rewrite C. apply or_iff_compat_l.
  split; intros (v & Hv & Hp & ->); exists v; (split; [|done]); [lia|]. destruct (Z_lt_dec v a); [lia|]. rewrite H in Hp; [done|lia].
Qed.

Lemma mapped_page a b : a mod PGSIZE = 0 -> 0 <= a < KERNBASE -> mapped m0 d (a + PGSIZE) b <->
  mapped m0 d a b \/ present (pte m0 d a) = true /\ b = frame_of (pte m0 d a).
Proof.
  intros Hal Ha. unfold mapped. split.
  - intros (v & Hv & Hp & ->). destruct (Z_lt_dec v a); [left; exists v; split; [lia|done]|]. right.
    rewrite (pte_page m0 d a v); [done|unfold KERNBASE, W32, PGSIZE in *; lia..|].
    pose proof (page_div a v Hal) as E. symmetry. apply Z.eqb_eq. rewrite E. apply andb_true_intro. split; [apply Z.leb_le|apply Z.ltb_lt]; lia.
  - intros [(v & Hv & Hp & ->)|[Hp ->]]; [exists v|exists a]; (split; [unfold PGSIZE; lia|done]).
Qed.

(** A page is mapped but once, so it is not free yet. *)
Lemma not_freed a s l : freed a s l -> a mod PGSIZE = 0 -> 0 <= a < KERNBASE -> present (pte m0 d a) = true -> frame_of (pte m0 d a) ∉ l.
Proof.
  intros Hf Hal Ha Hp. rewrite (fr_list _ _ _ Hf). intros [H|(v & Hv & Hpv & E)].
  - by destruct (ow_page _ _ _ Ho a Ha Hp) as (_ & X & _).
  - pose proof (ow_inj _ _ _ Ho a v Ha ltac:(lia) Hp Hpv E) as Hd. pose proof (page_div a v Hal) as E'. rewrite <- Hd, Z.eqb_refl in E'.
    symmetry in E'. apply andb_prop in E' as [X _]. apply Z.leb_le in X. lia.
Qed.

Lemma wp_free_page a s l (g : K unit) (Q : unit -> kstate -> Prop) : freed a s l -> a mod PGSIZE = 0 -> 0 <= a < KERNBASE -> present (pte m0 d a) = true ->
  (forall s' l', freed (a + PGSIZE) s' l' -> wp g s' Q) ->
  wp ((kfree (frame_of (pte m0 d a));; kstore (frame_of (pde (k_mem s) d (PDX a)) + 4 * PTX a) 0);; g) s Q.
Proof.
  intros Hf Hal Ha Hp HQ. pose proof (not_freed _ _ _ Hf Hal Ha Hp) as Hnl. destruct (ow_page _ _ _ Ho a Ha Hp) as (Hpg & _ & Hnt). fold m0 in Hpg, Hnt.
  pose proof Hf as [A B C D E F]. set (f := frame_of (pte m0 d a)) in *. assert (Ht : forall b, table_page (k_mem s) d b <-> table_page m0 d b) by (intros b; by apply table_page_ext).
  wpb. wpb. apply (wp_kfree_space s l d); [done|by rewrite (mf_end _ _ A)|done|by rewrite Ht|]. intros s1 F1 S1 D1 E1 M1. apply wp_modify.
  assert (Hpd : present (pde (k_mem s1) d (PDX a)) = true).
  { pose proof (PDX_range a). rewrite D1, D by done. destruct (present (pde m0 d (PDX a))) eqn:X; [done|]. rewrite pte_none in Hp by done. done. }
  assert (Haw : 0 <= a < W32) by (unfold KERNBASE, W32 in *; lia). pose proof (grows_store L p s1 (f :: l) d a 0 S1 Haw ltac:(done) Hpd) as [G1 G2 _ _ G5 _ _].
  rewrite D1 in G1, G2, G5 by apply PDX_range. set (s2 := set_mem _ s1) in *. apply (HQ s2 (f :: l)). split.
  - by rewrite A, F1.
  - done.
  - intros b. rewrite elem_of_cons, C, mapped_page by done. fold f. naive_solver.
  - intros i Hi. cbn [k_mem s2 set_mem]. rewrite <- (D1 (PDX a)) by apply PDX_range. rewrite (store_pde (km_end (k_kmem s1)) (f :: l)); [by rewrite D1, D|by destruct S1|done|done].
  - intros v Hv. cbn [k_mem s2 set_mem]. rewrite <- (D1 (PDX a)) by apply PDX_range. rewrite (store_pte (km_end (k_kmem s1)) (f :: l)); [|by destruct S1|done|done|done|unfold PGSIZE in *; lia].
    rewrite page_div by done. destruct (Z.ltb_spec v (a + PGSIZE)); [lia|]. rewrite andb_false_r, E1. apply E. unfold PGSIZE in *; lia.
  - intros x H1 H2. rewrite G5.
    + rewrite M1 by (apply H2; by left). apply F; [done|]. intros b Hb. apply H2. by right.
    + intros b Hb. apply H1, Ht. by apply (table_page_ext (k_mem s) (k_mem s1) d D1).
    + done.
Qed.

(** The next table starts at a multiple of 4 MB. *)
Lemma next_table a : 0 <= a < KERNBASE -> uint32 (PGADDR (PDX a + 1) 0 0 - PGSIZE + PGSIZE) = (a / 4194304 + 1) * 4194304 /\
  a < (a / 4194304 + 1) * 4194304 <= KERNBASE.
Proof.
  intros Ha. assert (Hq : 0 <= a / 4194304 < 512) by (split; [apply Z.div_pos; lia|apply Z.div_lt_upper_bound; unfold KERNBASE in *; lia]).
  pose proof (Z.div_mod a 4194304 ltac:(lia)). pose proof (Z.mod_pos_bound a 4194304 ltac:(lia)).
  rewrite PDX_div, Z.mod_small by lia. unfold PGADDR, PDXSHIFT, PTXSHIFT. rewrite Z.shiftl_0_l, !Z.lor_0_r, Z.shiftl_mul_pow2 by done. change (2 ^ 22) with 4194304.
  rewrite Z.sub_add, !(uint32_small ((_ + 1) * _)) by (unfold W32; lia). unfold KERNBASE in *. lia.
Qed.

Lemma table_absent a v : present (pde m0 d (PDX a)) = false -> 0 <= a -> a <= v < (a / 4194304 + 1) * 4194304 -> present (pte m0 d v) = false.
Proof.
  intros Hp Ha Hv. rewrite pte_none; [done|]. replace (PDX v) with (PDX a); [done|]. rewrite !PDX_div. f_equal.
  apply Z.div_unique with (v - 4194304 * (a / 4194304)); pose proof (Z.div_mod a 4194304 ltac:(lia)); pose proof (Z.mod_pos_bound a 4194304 ltac:(lia)); lia.
Qed.

Lemma entry_nonzero a : 0 <= a < KERNBASE -> present (pte m0 d a) = true -> (PTE_ADDR (pte m0 d a) =? 0) = false.
Proof.
  intros Ha Hp. destruct (ow_page _ _ _ Ho a Ha Hp) as ([_ Hr] & _). pose proof (ow_end _ _ _ Ho). apply Z.eqb_neq. intros E. unfold frame_of in Hr. fold m0 in Hr. rewrite E in Hr.
  change (P2V 0) with KERNBASE in Hr. lia.
Qed.

Lemma dealloc_unfold k pgdir a oldsz : dealloc_loop (S k) pgdir a oldsz =
  if a <? oldsz then pte ← walkpgdir pgdir a false;
    if pte =? 0 then dealloc_loop k pgdir (uint32 (PGADDR (PDX a + 1) 0 0 - PGSIZE + PGSIZE)) oldsz
    else e ← kload pte;
      (if present e then if PTE_ADDR e =? 0 then panic "kfree" else kfree (frame_of e);; kstore pte 0 else mret tt);;
      dealloc_loop k pgdir (uint32 (a + PGSIZE)) oldsz
  else mret tt.
Proof. done. Qed.

Lemma wp_dealloc_loop n : forall a s l (Q : unit -> kstate -> Prop), freed a s l -> a mod PGSIZE = 0 -> 0 <= a <= KERNBASE -> KERNBASE - a <= Z.of_nat n * PGSIZE ->
  (forall s' l', freed KERNBASE s' l' -> Q tt s') -> wp (dealloc_loop (S n) d a KERNBASE) s Q.
Proof.
  induction n as [|n IH]; intros a s l Q Hf Hal Ha Hn HQ; rewrite dealloc_unfold; destruct (Z.ltb_spec a KERNBASE) as [Hlt|Hge]; try lia;
    try (replace a with KERNBASE in Hf by lia; eauto with kernel).
  wpb. apply (wp_walk_at s l d); [apply Hf|]. pose proof (PDX_range a) as Hr. rewrite (fr_pde _ _ _ Hf) by done. destruct (present (pde m0 d (PDX a))) eqn:Hpd.
  - intros r Hr0. rewrite (proj2 (Z.eqb_neq r 0)) by done. unfold kload. wp1.
    assert (Er : load32 (k_mem s) r = pte m0 d a) by (rewrite <- (fr_pte _ _ _ Hf) by (unfold KERNBASE, W32 in *; lia); unfold pte; by rewrite (fr_pde _ _ _ Hf), Hpd by done).
    rewrite Er. unfold r. rewrite <- (fr_pde _ _ _ Hf) by done.
    assert (Ea : uint32 (a + PGSIZE) = a + PGSIZE) by (apply uint32_small; unfold KERNBASE, PGSIZE, W32 in *; lia).
    assert (Hal' : (a + PGSIZE) mod PGSIZE = 0) by (rewrite Z.add_mod, Hal by done; done).
    assert (Hle : a + PGSIZE <= KERNBASE) by (apply Z.mod_divide in Hal as [k ->]; [|done]; unfold KERNBASE, PGSIZE in *; lia).
    destruct (present (pte m0 d a)) eqn:Hp.
    + rewrite entry_nonzero by (done || lia). rewrite Ea. apply (wp_free_page a s l); [done|done|lia|done|].
      intros s' l' Hf'. apply (IH _ _ l'); [done|done|unfold PGSIZE in *; lia..|done].
    + wp1. rewrite Ea. apply (IH _ _ l); [|done|unfold PGSIZE in *; lia..|done]. apply (freed_skip a); [done|unfold PGSIZE; lia|]. intros v Hv.
      rewrite <- Hp. f_equal. symmetry. apply pte_page; [unfold KERNBASE, W32, PGSIZE in *; lia..|]. pose proof (page_div a v Hal) as E. symmetry. apply Z.eqb_eq. rewrite E.
      apply andb_true_intro. split; [apply Z.leb_le|apply Z.ltb_lt]; lia.
  - destruct (next_table a ltac:(lia)) as [E1 E2]. simpl Z.eqb. cbv iota. rewrite E1. set (a' := _ * 4194304) in *.
    apply (IH _ _ l); [|unfold a'; change 4194304 with (1024 * PGSIZE); by rewrite Z.mul_assoc, Z.mod_mul|lia| |done].
    + apply (freed_skip a); [done|lia|]. intros v Hv. apply (table_absent a); [done|lia|done].
    + assert (a + PGSIZE <= a'); [|unfold PGSIZE in *; lia]. apply Z.mod_divide in Hal as [k Hk]; [|done]. unfold a', PGSIZE in *. lia.
Qed.
End pages.

(** ** The tables *)

Section tables_back.
Context (s1 : kstate) (l1 : list Z) (d : Z) (Ht : tables (km_end (k_kmem s1)) l1 (k_mem s1) d).
Let m1 := k_mem s1.

(** [b] is one of the first [i] tables. *)
Definition table_below (i b : Z) : Prop := exists j, 0 <= j < i /\ present (pde m1 d j) = true /\ b = frame_of (pde m1 d j).

Record tables_freed (i : Z) (s : kstate) (l : list Z) : Prop := mkTablesFreed {
  tf_frame : mframe s1 s;
  tf_cpu : on_cpu L p (k_core s);
  tf_free : free_pages s l;
  tf_list : forall b, b ∈ l <-> b ∈ l1 \/ table_below i b;
  tf_mem : forall x, (forall b, b ∈ l -> ~ in_page b x) -> k_mem s x = m1 x
}.

Lemma dir_kept i s l : tables_freed i s l -> 0 <= i <= 1024 -> d ∉ l.
Proof.
  intros Hf Hi. rewrite (tf_list _ _ _ Hf). intros [H|(j & Hj & Hp & E)].
  - destruct (tb_page _ _ _ _ Ht d) as [_ X]; [by left|done].
  - apply (tb_dir _ _ _ _ Ht j); [lia|done|done].
Qed.

Lemma pde_kept i s l j : tables_freed i s l -> 0 <= i <= 1024 -> 0 <= j < 1024 -> pde (k_mem s) d j = pde m1 d j.
Proof.
  intros Hf Hi Hj. apply pde_ext; [done|]. intros x Hx. apply (tf_mem _ _ _ Hf). intros b Hb.
  eapply page_disjoint; [apply (dir_page _ _ _ _ Ht)| |intros <-; by eapply dir_kept|done]. rewrite <- (mf_end _ _ (tf_frame _ _ _ Hf)). by apply (tf_free _ _ _ Hf).
Qed.

Lemma table_below_step i b : 0 <= i -> table_below (i + 1) b <-> table_below i b \/ present (pde m1 d i) = true /\ b = frame_of (pde m1 d i).
Proof.
  intros Hi. unfold table_below. split.
  - intros (j & Hj & H). destruct (Z.eq_dec j i) as [->|]; [by right|]. left. exists j. split; [lia|done].
  - intros [(j & Hj & H)|H]; [exists j|exists i]; (split; [lia|done]).
Qed.

Lemma wp_free_tables n : forall i s l (Q : unit -> kstate -> Prop), tables_freed i s l -> 0 <= i -> i + Z.of_nat n = 1024 ->
  (forall s' l', tables_freed 1024 s' l' -> Q tt s') -> wp (free_tables n d i) s Q.
Proof.
  induction n as [|n IH]; intros i s l Q Hf Hi Hn HQ; cbn [free_tables]; [replace i with 1024 in Hf by lia; eauto with kernel|].
  unfold kload. wp1. change (load32 (k_mem s) (d + 4 * i)) with (pde (k_mem s) d i). rewrite (pde_kept i s l) by (done || lia).
  fold (present (pde m1 d i)) (frame_of (pde m1 d i)). pose proof Hf as [A B C D E]. destruct (present (pde m1 d i)) eqn:Hp; simpl when.
  - destruct (tb_page _ _ _ _ Ht _ (table_at _ _ i ltac:(lia) Hp)) as [H1 H2]. fold m1 in H1, H2.
    wpb. apply (wp_kfree_page s l); [done|done|by rewrite (mf_end _ _ A)| |].
    + rewrite D. intros [X|(j & Hj & Hpj & X)]; [done|]. assert (i = j); [|lia]. apply (tb_inj _ _ _ _ Ht); [lia|lia|done..].
    + intros s' F' C' P' M'. apply (IH (i + 1) s' (frame_of (pde m1 d i) :: l)); [|lia|lia|done]. split; [by rewrite A, F'|done|done| |].
      * intros b. rewrite elem_of_cons, D, table_below_step by lia. naive_solver.
      * intros x Hx. rewrite M' by (apply Hx; by left). apply E. intros b Hb. apply Hx. by right.
  - wp1. apply (IH (i + 1) s l); [|lia|lia|done]. split; [done..| |done]. intros b. rewrite D, table_below_step by lia. rewrite Hp. naive_solver.
Qed.
End tables_back.

(** ** The address space *)

(** The pages of the address space [d]: its directory, its tables and its memory. *)
Definition page_of (m : mem) (d b : Z) : Prop := table_page m d b \/ mapped m d KERNBASE b.

Lemma freed_start s l d : space L p s l d -> freed s l d 0 s l.
Proof. intros H. split; [done|done| |done|done|done]. intros b. split; [by left|]. intros [Hb|(v & Hv & _)]; [done|lia]. Qed.

Lemma wp_freevm s l d (Q : unit -> kstate -> Prop) : space L p s l d -> owned s l d ->
  (forall s' l', mframe s s' -> on_cpu L p (k_core s') -> free_pages s' l' -> (forall b, b ∈ l' <-> b ∈ l \/ page_of (k_mem s) d b) ->
    (forall x, (forall b, b ∈ l' -> ~ in_page b x) -> k_mem s' x = k_mem s x) -> Q tt s') ->
  wp (freevm d) s Q.
Proof.
  intros Hs Ho HQ. pose proof (dir_page _ _ _ _ (sp_tables _ _ _ _ _ Hs)) as Hdp. unfold freevm. rewrite (proj2 (Z.eqb_neq d 0)) by (destruct Hdp as [_ X]; pose proof (fp_end _ _ (sp_free _ _ _ _ _ Hs)); unfold KERNBASE in *; lia).
  unfold deallocuvm. change (0 >=? KERNBASE) with false. cbv iota. change (PGROUNDUP 0) with 0. wpb. wpb.
  apply (wp_dealloc_loop s l d Ho _ 0 s l); [by apply freed_start|done|unfold KERNBASE; lia|rewrite Z2Nat.id; [|done]; vm_compute; discriminate|].
  intros s1 l1 [A1 B1 C1 D1 _ F1]. apply wp_ret. assert (Ht : forall b, table_page (k_mem s1) d b <-> table_page (k_mem s) d b) by (intros b; by apply table_page_ext).
  wpb. apply (wp_free_tables s1 l1 d (sp_tables _ _ _ _ _ B1) _ 0 s1 l1); [|done|by rewrite Z2Nat.id|].
  { split; [done|by destruct B1|by destruct B1| |done]. intros b. split; [by left|]. intros [Hb|(v & Hv & _)]; [done|lia]. }
  intros s2 l2 Hf2. pose proof (dir_kept s1 l1 d (sp_tables _ _ _ _ _ B1) _ _ _ Hf2 ltac:(lia)) as Hd2. destruct Hf2 as [A2 B2 C2 D2 F2].
  apply (wp_kfree_page s2 l2); [done|done|by rewrite (mf_end _ _ A2), (mf_end _ _ A1)|done|]. intros s3 A3 B3 C3 F3.
  assert (Hl : forall b, b ∈ d :: l2 <-> b ∈ l \/ page_of (k_mem s) d b).
  { intros b. rewrite elem_of_cons, D2, C1. unfold page_of. rewrite <- Ht. unfold table_page at 1, table_below. naive_solver. }
  apply (HQ s3 (d :: l2)); [by rewrite A1, A2, A3|done|done|done|]. intros x Hx. rewrite F3 by (apply Hx; by left).
  rewrite F2 by (intros b Hb; apply Hx; by right). apply F1.
  - intros b Hb. apply Hx, Hl. by right; left.
  - intros b Hb. apply Hx, Hl. apply C1 in Hb as [Hb|Hb]; [by left|by right; right].
Qed.
End give_back.

(** ** wait *)

(** Process [i] is the first dead child of [cur]; its stack and its address space are its own. *)
Record reapable (s : kstate) (cur i : nat) (l : list Z) : Prop := mkReapable {
  rp_cpu : on_cpu [] (Some cur) (k_core s);
  rp_zombie : find_idx (zombie_of cur s) NPROC = Some i;
  rp_free : free_pages s l;
  rp_tables : tables (km_end (k_kmem s)) l (k_mem s) (p_pgdir (proc_at s i));
  rp_owned : owned s l (p_pgdir (proc_at s i));
  rp_stack : page_ok (km_end (k_kmem s)) (p_kstack (proc_at s i)) /\ (p_kstack (proc_at s i) ∉ l) /\ ~ page_of (k_mem s) (p_pgdir (proc_at s i)) (p_kstack (proc_at s i))
}.

(** The entry of a process that has been waited for. *)
Definition reaped (r : proc) : proc :=
  proc_state UNUSED (proc_killed false (proc_name (upd (p_name r) 0 0) (proc_parent None (proc_pid 0 (proc_kstack 0 r))))).

(** Giving back a page that is not the address space's leaves it as it is. *)
Lemma owned_kept s s' l f d : owned s l d -> km_end (k_kmem s') = km_end (k_kmem s) -> ~ page_of (k_mem s) d f ->
  (forall i, 0 <= i < 1024 -> pde (k_mem s') d i = pde (k_mem s) d i) -> (forall v, pte (k_mem s') d v = pte (k_mem s) d v) -> owned s' (f :: l) d.
Proof.
  intros [A B C] F Hf Hd Hv. split; [by rewrite F| |].
  - intros v. rewrite Hv, F, (table_page_ext (k_mem s) (k_mem s') d Hd). intros H1 H2. destruct (B v H1 H2) as (B1 & B2 & B3).
    split; [done|]. split; [|done]. intros [E|E]%elem_of_cons; [|done]. apply Hf. right. by exists v.
  - intros v v'. rewrite !Hv. apply C.
Qed.

Lemma page_of_kept m m' d b : (forall i, 0 <= i < 1024 -> pde m' d i = pde m d i) -> (forall v, pte m' d v = pte m d v) -> page_of m' d b <-> page_of m d b.
Proof.
  intros Hd Hv. unfold page_of. rewrite (table_page_ext m m' d Hd). apply or_iff_compat_l. unfold mapped. by setoid_rewrite Hv.
Qed.

(** C13: [wait] with a dead child returns its pid: the child's stack, the pages of its
    memory, its tables and its directory are free again, each of them once and with the
    pages that were free before nothing else; its entry of the table is unused, and
    apart from free pages nothing else of the kernel's state or memory changes. *)
Theorem wait_reaps (s : kstate) (cur i : nat) (l : list Z) (H : reapable s cur i l) :
  WP wait @ s ⇓ r s', r = p_pid (proc_at s i) /\ proc_at s' i = reaped (proc_at s i) /\ (forall j, j <> i -> proc_at s' j = proc_at s j) /\
    s' = set_core (k_core s') (set_mem (k_mem s') (set_kmem (k_kmem s') (set_ptab (k_ptab s') s))) /\
    nextpid (k_ptab s') = nextpid (k_ptab s) /\ on_cpu [] (Some cur) (k_core s') /\
    exists l', free_pages s' l' /\ (forall b, b ∈ l' <-> b ∈ l \/ b = p_kstack (proc_at s i) \/ page_of (k_mem s) (p_pgdir (proc_at s i)) b) /\
      forall x, (forall b, b ∈ l' -> ~ in_page b x) -> k_mem s' x = k_mem s x.
Proof.
  destruct H as [K1 K2 K3 K4 K5 (K6 & K7 & K8)]. set (r := proc_at s i) in *. set (d := p_pgdir r) in *.
  unfold wait, upd_proc. wpb. eapply wp_curproc; [exact K1|]. intros c0 H0. cbv beta iota. wpb. eapply (wp_acquire _ []); [exact H0|by apply not_elem_of_nil|].
  intros c1 H1. wp1. cbn [wait_loop]. wp1. change (find_idx (zombie_of cur (set_core c1 (set_core c0 s))) NPROC) with (find_idx (zombie_of cur s) NPROC). rewrite K2. cbv iota.
  set (s1 := set_core c1 _). wp1. change (proc_at s1 i) with r. wpb.
  assert (Hni : LkKmem ∉ [LkPtable]) by (intros X%list_elem_of_singleton; done).
  apply (wp_kfree_space _ (Some cur) Hni s1 l d); [split; [done|by destruct K3; split|done]|done|done|by intros X; apply K8; left|].
  intros s2 F2 S2 D2 E2 M2. wpb. apply wp_modify. set (s2' := set_ptab _ s2). fold d. wpb.
  apply (wp_freevm _ (Some cur) Hni s2' (p_kstack r :: l) d); [by destruct S2 as [? [] ?]; split; [|split|]|apply (owned_kept s1); [by destruct K5; split|by rewrite <- (mf_end _ _ F2)|done..]|].
  intros s3 l3 F3 C3 P3 L3 M3. wpb. apply wp_modify. wpb. eapply wp_release; [exact C3|reflexivity|]. intros c4 H4. apply wp_ret.
  assert (T2 : k_ptab s2 = k_ptab s) by (rewrite (mf_rest _ _ F2); done). assert (T3 : k_ptab s3 = k_ptab s2') by (rewrite (mf_rest _ _ F3); done).
  split; [done|]. split.
  { change (proc_at (set_core c4 ?a) i) with (proc_at a i). rewrite proc_set_eq. unfold proc_at at 1 2. rewrite T3. unfold s2', proc_at. simpl. autorewrite with arrays. by rewrite T2. }
  split; [intros j Hj; change (proc_at (set_core c4 ?a) j) with (proc_at a j); rewrite proc_set_ne by done; rewrite T3; unfold s2'; simpl; autorewrite with arrays; by rewrite T2|].
  split; [|split; [simpl; rewrite T3; simpl; by rewrite T2|split; [done|]]].
  { simpl. match goal with |- set_core _ (set_ptab ?u _) = _ => generalize u end. intros u. rewrite (mf_rest _ _ F3) at 1. unfold s2'.
    match goal with |- context [set_ptab ?w s2] => generalize w end. intros w. rewrite (mf_rest _ _ F2) at 1. done. }
  exists l3. split; [by destruct P3; split|]. split.
  - intros b. rewrite L3, elem_of_cons. change (k_mem s2') with (k_mem s2). rewrite (page_of_kept (k_mem s) (k_mem s2)) by done. naive_solver.
  - intros x Hx. change (k_mem s3 x = k_mem s x). rewrite M3 by done. apply M2. apply Hx, L3. left. by left.
Qed.

(** A process whose child has died: a stack and one page of memory, and 1,029 free pages. *)
Module DeadChild.
Definition child : proc :=
  proc_kstack Forked.first (proc_pid 6 (proc_state ZOMBIE (proc_parent (Some 0%nat) SmallFork.parent))).

Definition frees : list Z := tail Forked.frees.

Definition st : kstate :=
  set_kmem (mkKmem true (load32 Forked.fmem Forked.first) Forked.dir)
    (set_core (one_cpu (Some 0%nat)) (set_ptab (mkPtab (<[1%nat := child]> (<[0%nat := SmallFork.parent]> (fun _ => zero_proc))) 7 None) Forked.st)).

Lemma frees_cons : Forked.frees = Forked.first :: frees.
Proof. reflexivity. Qed.

Lemma dead_free : free_pages st frees.
Proof.
  destruct Forked.st_frees as [F1 F2 F3 F4]. rewrite frees_cons in F2, F3, F4. split; [done|exact (proj2 F2)|exact (proj2 (proj1 (NoDup_cons _ _) F3))|].
  intros a Ha. apply F4. by right.
Qed.

Lemma sub_free a : a ∈ frees -> a ∈ Forked.frees.
Proof. rewrite frees_cons. by right. Qed.

Lemma dead_tables : tables Forked.dir frees Forked.fmem Forked.dir.
Proof. apply (tables_sub _ Forked.frees); [apply Forked.st_user|]. intros b Hb. left. by apply sub_free. Qed.

(** Only the first page is mapped. *)
Lemma st_present v : 0 <= v < KERNBASE -> present (pte Forked.fmem Forked.dir v) = true -> v < 4096.
Proof.
  intros Hv Hp. destruct (Z_lt_dec v 4096); [done|]. exfalso. unfold pte in Hp. rewrite Forked.st_pde in Hp by apply PDX_range. destruct (Z.eqb_spec (PDX v) 0) as [E|]; [|done].
  change (frame_of (entry (V2P Forked.tab) 6)) with Forked.tab in Hp. rewrite entry_present in Hp. pose proof (PTX_range v).
  pose proof (page_index v ltac:(unfold KERNBASE, W32 in *; lia)) as Hx. assert (1 <= v / PGSIZE) by (apply Z.div_le_lower_bound; unfold PGSIZE; lia).
  assert (Hz : forall o, 0 <= o < 4 -> Forked.fmem (Forked.tab + 4 * PTX v + o) = 0).
  { intros o Ho. unfold Forked.fmem, Forked.first, Forked.page, Forked.tab, Forked.dir. zcases; simpl; lia || done. }
  unfold load32 in Hp. rewrite <- (Z.add_0_r (Forked.tab + 4 * PTX v)) in Hp at 1. rewrite !Hz in Hp by lia. done.
Qed.

Lemma st_frame v : 0 <= v < KERNBASE -> present (pte Forked.fmem Forked.dir v) = true -> frame_of (pte Forked.fmem Forked.dir v) = Forked.page.
Proof. intros Hv Hp. rewrite Forked.st_pte by (pose proof (st_present v Hv Hp); lia). reflexivity. Qed.

Lemma dead_owned : owned st frees Forked.dir.
Proof.
  pose proof st_present as Hs. split; [reflexivity| |].
  - intros v Hv Hp. destruct (us_page _ _ _ _ Forked.st_user v) as (_ & H1 & H2); [pose proof (Hs v Hv Hp); lia|]. split; [exact H1|]. split; [by intros X%sub_free|].
    apply (us_table _ _ _ _ Forked.st_user). pose proof (Hs v Hv Hp). lia.
  - intros v v' Hv Hv' Hp Hp' _. rewrite !Z.div_small; [done|unfold PGSIZE; pose proof (Hs v' Hv' Hp'); lia|unfold PGSIZE; pose proof (Hs v Hv Hp); lia].
Qed.

Lemma st_reapable : reapable st 0 1 frees.
Proof.
  split.
  - apply one_cpu_on.
  - vm_compute. reflexivity.
  - exact dead_free.
  - exact dead_tables.
  - exact dead_owned.
  - split; [by split|]. split.
    + destruct Forked.st_frees as [_ _ F3 _]. rewrite frees_cons in F3. exact (proj1 (proj1 (NoDup_cons _ _) F3)).
    + intros [X|(v & Hv & Hp & X)].
      * destruct (tb_page _ _ _ _ (us_tables _ _ _ _ Forked.st_user) _ X) as [_ Y]. apply Y. rewrite frees_cons. by left.
      * change (k_mem st) with Forked.fmem in *. change (p_pgdir (proc_at st 1)) with Forked.dir in *. rewrite (st_frame v Hv Hp) in X. done.
Qed.
End DeadChild.

Lemma wait_reaps_witness :
  wp wait DeadChild.st (fun r s' => r = 6 /\ p_state (proc_at s' 1) = UNUSED /\
    exists l', free_pages s' l' /\ (Forked.page ∈ l') /\ (Forked.tab ∈ l') /\ (Forked.dir ∈ l') /\ (Forked.first ∈ l')).
Proof.
  refine (wp_mono _ _ _ _ _ (wait_reaps DeadChild.st 0 1 DeadChild.frees DeadChild.st_reapable)).
  intros r s' (-> & Hp & _ & _ & _ & _ & l' & Hf & Hl & _). split; [reflexivity|]. split; [rewrite Hp; reflexivity|].
  exists l'. split; [exact Hf|]. change (k_mem DeadChild.st) with Forked.fmem in Hl. change (p_pgdir (proc_at DeadChild.st 1)) with Forked.dir in Hl. rewrite !Hl. split_and!.
  - right; right; right. exists 0. split; [split; [discriminate|reflexivity]|]. rewrite Forked.st_pte by lia. split; reflexivity.
  - right; right; left; right. exists 0. split; [lia|]. rewrite Forked.st_pde by lia. split; reflexivity.
  - right; right; left; left. reflexivity.
  - right; left. reflexivity.
Defined.
