(* ===== verification/Grow.v ===== *)
(** * vm.c and proc.c: a process gets more memory

    [allocuvm] adds cleared pages at the end of the user memory of an address space;
    [growproc], which the call sbrk makes, does so for the running process.

    Shown: with pages enough, the process keeps its bytes and finds zeros in the new
    pages, which are writable, its own and no longer free. *)

From S2P Require Import Prelude CString KState Spinlock Cprintf Proc Kalloc Vm Paging File ProcLife Fork Reap.

#[local] Open Scope kernel_scope.

(** ** One more page *)

(** The user memory of an address space ends with a page. *)
Lemma user_space_round s l d sz : 0 <= sz <= KERNBASE -> user_space s l d sz -> user_space s l d (PGROUNDUP sz).
Proof.
  intros Hsz [A B C D]. assert (Hw : 0 <= sz < W32 - PGSIZE) by (unfold KERNBASE, W32, PGSIZE in *; lia).
  pose proof (PGROUNDUP_div sz Hw) as Er. pose proof (PGROUNDUP_bounds sz Hw) as Hr.
  assert (Hv : forall v, 0 <= v < PGROUNDUP sz -> exists u, 0 <= u < sz /\ u / PGSIZE = v / PGSIZE /\ pte (k_mem s) d v = pte (k_mem s) d u).
  { intros v Hv. exists (v / PGSIZE * PGSIZE). pose proof (Z.div_mod v PGSIZE ltac:(done)). pose proof (Z.mod_pos_bound v PGSIZE ltac:(done)).
    assert (v / PGSIZE * PGSIZE < sz) by (rewrite Er in Hv; assert (v / PGSIZE <= (sz + PGSIZE - 1) / PGSIZE - 1); [|pose proof (Z.div_mod (sz + PGSIZE - 1) PGSIZE ltac:(done));
      pose proof (Z.mod_pos_bound (sz + PGSIZE - 1) PGSIZE ltac:(done)); unfold PGSIZE in *; lia]; apply Z.lt_le_pred, Z.div_lt_upper_bound; [done|unfold PGSIZE in *; lia]).
    assert (0 <= v / PGSIZE) by (apply Z.div_pos; [lia|done]). split; [unfold PGSIZE in *; lia|]. rewrite Z.div_mul by done. split; [done|].
    apply pte_page; [unfold W32, PGSIZE in *; lia..|]. by rewrite Z.div_mul. }
  split; [done| | |].
  - intros v H. destruct (Hv v H) as (u & Hu & _ & E). rewrite E. by apply B.
  - intros v H. destruct (Hv v H) as (u & Hu & _ & E). rewrite E. by apply C.
  - intros v v' H H'. destruct (Hv v H) as (u & Hu & <- & E). destruct (Hv v' H') as (u' & Hu' & <- & E'). rewrite E, E'. by apply D.
Qed.

Section grow.
Context (L : list lockid) (p : option nat) (Hni : LkKmem ∉ L).
Context (s0 : kstate) (l0 : list Z) (d a0 : Z).
Let m0 := k_mem s0.

(** The user memory of [d] has grown from [a0] to [a]. *)
Record grown (a : Z) (s : kstate) (l : list Z) : Prop := mkGrown {
  gr_frame : mframe s0 s;
  gr_space : space L p s l d;
  gr_user : user_space s l d a;
  gr_list : l `suffix_of` l0;
  gr_mem : forall v, 0 <= v < a -> user_mem (k_mem s) d v = if v <? a0 then user_mem m0 d v else 0;
  gr_pte : forall w, 0 <= w < W32 -> w < a0 \/ a <= w -> pte (k_mem s) d w = pte m0 d w;
  gr_new : forall v, a0 <= v < a -> PTE_FLAGS (pte (k_mem s) d v) = Z.lor (Z.lor PTE_W PTE_U) PTE_P;
  gr_count : Z.of_nat (length l) - absent (k_mem s) d + (a - a0) / PGSIZE = Z.of_nat (length l0) - absent m0 d;
  gr_out : forall x, (forall b, table_page m0 d b -> ~ in_page b x) -> (forall b, b ∈ l0 -> ~ in_page b x) -> k_mem s x = m0 x;
  gr_tables : forall b, table_page (k_mem s) d b -> table_page m0 d b \/ b ∈ l0;
  gr_pages : forall v, a0 <= v < a -> frame_of (pte (k_mem s) d v) ∈ l0
}.

(** The page [f] cleared, not yet mapped. *)
Lemma cleared_page s f l s1 : space L p s (f :: l) d -> free_pages s1 l -> on_cpu L p (k_core s1) -> mframe s s1 -> k_mem s1 = k_mem s ->
  let m2 := memset (k_mem s) f 0 PGSIZE in
  space L p (set_mem m2 s1) l d /\ (forall w, pte m2 d w = pte (k_mem s) d w) /\ absent m2 d = absent (k_mem s) d /\
  (forall a, table_page m2 d a <-> table_page (k_mem s) d a) /\ (forall x, ~ in_page f x -> m2 x = k_mem s x) /\ (forall o, 0 <= o < PGSIZE -> m2 (f + o) = 0).
Proof.
  intros [_ Hfr Ht] F1 C1 M1 E1 m2. pose proof (fp_nodup _ _ Hfr) as Hnd. apply NoDup_cons in Hnd as [Hnf _].
  assert (Hpf : page_ok (km_end (k_kmem s)) f) by (apply (fp_pages _ _ Hfr); by left).
  assert (Hntf : ~ table_page (k_mem s) d f) by (intros X; destruct (tb_page _ _ _ _ Ht f X) as [_ Y]; apply Y; by left).
  assert (Hsp1 : space L p s1 l d).
  { split; [done|done|]. rewrite (mf_end _ _ M1), E1. apply (tables_sub _ (f :: l)); [done|]. intros b Hb. left. by right. }
  assert (Hout : forall x, ~ in_page f x -> m2 x = k_mem s x).
  { intros x Hx. unfold m2. rewrite memset_spec by done. unfold inside, in_page in *. zcases; lia. }
  destruct (space_mem L p s1 l d m2 Hsp1) as (S2 & P2 & A2 & T2).
  { intros x Hx. exists f. rewrite E1 in *. destruct (Z_le_dec f x); [destruct (Z_lt_dec x (f + PGSIZE))|]; [|exfalso; apply Hx, Hout; unfold in_page; lia..].
    split_and!; [done|by rewrite (mf_end _ _ M1)|done|done]. }
  rewrite E1 in *. split_and!; try done. intros o Ho. unfold m2. rewrite memset_spec by done. unfold inside. zcases; lia || done.
Qed.

(** What a page that stays keeps, and what the new page is, once [f] is mapped at [a]. *)
Section add.
Context (a f : Z) (s s1 s3 : kstate) (l l3 : list Z).
Context (G : grown a s (f :: l)) (Hal : a mod PGSIZE = 0) (Ha : 0 <= a0 <= a) (Hal0 : a0 mod PGSIZE = 0) (Htop : a + PGSIZE <= KERNBASE).
Context (F1 : free_pages s1 l) (C1 : on_cpu L p (k_core s1)) (M1 : mframe s s1) (E1 : k_mem s1 = k_mem s).
Let m2 := memset (k_mem s) f 0 PGSIZE.
Let s2 := set_mem m2 s1.
Let perm := Z.lor PTE_W PTE_U.
Context (G3 : grows L p s2 l d s3 l3) (M3 : maps a 1 (V2P f) perm (pte m2 d) (pte (k_mem s3) d)).

Lemma add_cleared : space L p s2 l d /\ (forall w, pte m2 d w = pte (k_mem s) d w) /\ absent m2 d = absent (k_mem s) d /\
  (forall b, table_page m2 d b <-> table_page (k_mem s) d b) /\ (forall x, ~ in_page f x -> m2 x = k_mem s x) /\ (forall o, 0 <= o < PGSIZE -> m2 (f + o) = 0).
Proof. apply cleared_page; [apply G|done..]. Qed.

Lemma add_end : km_end (k_kmem s2) = km_end (k_kmem s) /\ km_end (k_kmem s3) = km_end (k_kmem s).
Proof. pose proof (mf_end _ _ (gw_frame _ _ _ _ _ _ _ G3)) as E3. pose proof (mf_end _ _ M1) as E2. unfold s2 in *. simpl in *. split; congruence. Qed.

Lemma add_pte w : 0 <= w < W32 -> pte (k_mem s3) d w = if (a <=? w) && (w <? a + PGSIZE) then entry (V2P f) perm else pte (k_mem s) d w.
Proof.
  intros Hw. destruct add_cleared as (_ & P2 & _). rewrite M3, Z.mul_1_l, P2 by done. destruct ((a <=? w) && (w <? a + PGSIZE)) eqn:E; [|done].
  rewrite <- page_div in E by done. apply Z.eqb_eq in E. rewrite E. pose proof (Z.div_mod a PGSIZE ltac:(done)). f_equal. unfold PGSIZE in *. lia.
Qed.

Lemma add_new : page_ok (km_end (k_kmem s)) f /\ frame_of (entry (V2P f) perm) = f /\ (f ∉ l3) /\ ~ table_page (k_mem s3) d f /\ (f ∈ l0) /\
  forall o, 0 <= o < PGSIZE -> k_mem s3 (f + o) = 0.
Proof.
  destruct add_cleared as (S2 & _ & _ & T2 & _ & Z2). pose proof (gr_space _ _ _ G) as [_ Hfr Ht]. pose proof (fp_nodup _ _ Hfr) as Hnd. apply NoDup_cons in Hnd as [Hnf _].
  assert (Hpf : page_ok (km_end (k_kmem s)) f) by (apply (fp_pages _ _ Hfr); by left).
  assert (Hntf : ~ table_page (k_mem s) d f) by (intros X; destruct (tb_page _ _ _ _ Ht f X) as [_ Y]; apply Y; by left).
  destruct (grows_keeps L p s2 l d s3 l3 f S2 G3) as (K1 & K2 & K3); [by rewrite (proj1 add_end)|done|by intros X%T2|].
  split_and!; try done; [apply (entry_frame (km_end (k_kmem s))); [apply Hfr|done|done]|apply (suffix_elem l0 (f :: l)); [apply G|by left]|].
  intros o Ho. rewrite K1 by done. by apply Z2.
Qed.

Lemma add_old v : 0 <= v < a -> pte (k_mem s3) d v = pte (k_mem s) d v /\ (frame_of (pte (k_mem s) d v) ∉ l3) /\
  ~ table_page (k_mem s3) d (frame_of (pte (k_mem s) d v)) /\ frame_of (pte (k_mem s) d v) <> f /\ user_mem (k_mem s3) d v = user_mem (k_mem s) d v.
Proof.
  intros Hv. destruct (us_page _ _ _ _ (gr_user _ _ _ G) v Hv) as (U1 & U2 & U3). destruct add_cleared as (S2 & _ & _ & T2 & O2 & _). destruct add_new as (Hpf & _).
  set (g := frame_of (pte (k_mem s) d v)) in *. assert (Hgf : g <> f) by (intros E; apply U3; rewrite E; by left).
  destruct (grows_keeps L p s2 l d s3 l3 g S2 G3) as (K1 & K2 & K3).
  - by rewrite (proj1 add_end).
  - intros X. apply U3. by right.
  - intros X%T2. by apply (us_table _ _ _ _ (gr_user _ _ _ G) v Hv).
  - assert (Ep : pte (k_mem s3) d v = pte (k_mem s) d v).
    { rewrite add_pte by (unfold KERNBASE, W32, PGSIZE in *; lia). replace ((a <=? v) && (v <? a + PGSIZE)) with false; [done|]. zcases; simpl; lia || done. }
    split_and!; try done. pose proof (fp_end _ _ (sp_free _ _ _ _ _ (gr_space _ _ _ G))) as Hk. pose proof (Z.mod_pos_bound v PGSIZE ltac:(done)) as Hm.
    rewrite !(user_mem_frame (km_end (k_kmem s))) by (by rewrite ?Ep). rewrite Ep. fold g. rewrite K1 by done.
    apply O2. eapply page_disjoint; [exact U2|exact Hpf|done|]. unfold in_page. lia.
Qed.

Lemma add_user : user_space s3 l3 d (a + PGSIZE).
Proof.
  destruct add_new as (Hpf & Hff & N1 & N2 & _). assert (Hlt : forall v, 0 <= v < a + PGSIZE -> ~ v < a ->
    v / PGSIZE = a / PGSIZE /\ pte (k_mem s3) d v = entry (V2P f) perm).
  { intros v Hv Hn. split; [apply Z.eqb_eq; rewrite page_div by done|rewrite add_pte by (unfold KERNBASE, W32, PGSIZE in *; lia)]; zcases; simpl; lia || done. }
  split; [apply G3| | |].
  - intros v Hv. rewrite (proj2 add_end). destruct (Z_lt_dec v a) as [Hl|Hn].
    + destruct (add_old v ltac:(lia)) as (-> & O1 & _). destruct (us_page _ _ _ _ (gr_user _ _ _ G) v ltac:(lia)) as (U1 & U2 & _). done.
    + destruct (Hlt v Hv Hn) as [_ ->]. rewrite Hff. split; [apply entry_present|done].
  - intros v Hv. destruct (Z_lt_dec v a) as [Hl|Hn]; [destruct (add_old v ltac:(lia)) as (-> & _ & O1 & _); done|]. destruct (Hlt v Hv Hn) as [_ ->]. by rewrite Hff.
  - intros v v' Hv Hv'. destruct (Z_lt_dec v a) as [Hl|Hn], (Z_lt_dec v' a) as [Hl'|Hn'].
    + destruct (add_old v ltac:(lia)) as (-> & _). destruct (add_old v' ltac:(lia)) as (-> & _). apply (us_inj _ _ _ _ (gr_user _ _ _ G)); lia.
    + destruct (add_old v ltac:(lia)) as (-> & _ & _ & O1 & _). destruct (Hlt v' Hv' Hn') as [_ ->]. by rewrite Hff.
    + destruct (add_old v' ltac:(lia)) as (-> & _ & _ & O1 & _). destruct (Hlt v Hv Hn) as [_ ->]. rewrite Hff. by intros E.
    + intros _. by rewrite (proj1 (Hlt v Hv Hn)), (proj1 (Hlt v' Hv' Hn')).
Qed.

Lemma add_flags : PTE_FLAGS (entry (V2P f) perm) = Z.lor perm PTE_P.
Proof.
  destruct add_new as (Hpf & _). destruct (page_V2P _ f (fp_end _ _ (sp_free _ _ _ _ _ (gr_space _ _ _ G))) Hpf) as (_ & V1 & V2 & _).
  pose proof (entry_flags (V2P f) 7 V1 V2 eq_refl) as E. change (PTE_FLAGS 7) with 7 in E. change (Z.lor perm PTE_P) with 7. rewrite <- E. f_equal.
  unfold entry. by rewrite <- !Z.lor_assoc.
Qed.

Lemma grown_add : grown (a + PGSIZE) s3 l3.
Proof.
  destruct add_new as (Hpf & Hff & N1 & N2 & N3 & N4). destruct add_cleared as (S2 & P2 & A2 & T2 & O2 & _). pose proof (gr_list _ _ _ G) as Hsuf.
  assert (Hsub : forall b, b ∈ l -> b ∈ l0) by (intros b Hb; apply (suffix_elem l0 (f :: l)); [done|by right]). split.
  - rewrite (gr_frame _ _ _ G), M1, <- (gw_frame _ _ _ _ _ _ _ G3). by split.
  - apply G3.
  - apply add_user.
  - etransitivity; [apply G3|]. etransitivity; [|exact Hsuf]. by exists [f].
  - intros v Hv. destruct (Z_lt_dec v a) as [Hl|Hn].
    + destruct (add_old v ltac:(lia)) as (_ & _ & _ & _ & ->). apply (gr_mem _ _ _ G). lia.
    + rewrite (proj2 (Z.ltb_ge v a0)) by lia. assert (Ep : pte (k_mem s3) d v = entry (V2P f) perm) by (rewrite add_pte by (unfold KERNBASE, W32, PGSIZE in *; lia); zcases; simpl; lia || done).
      rewrite (user_mem_frame (km_end (k_kmem s))); [|rewrite Ep; apply entry_present|apply (fp_end _ _ (sp_free _ _ _ _ _ (gr_space _ _ _ G)))|by rewrite Ep, Hff].
      rewrite Ep, Hff. apply N4. by apply Z.mod_pos_bound.
  - intros w Hw Hor. rewrite add_pte by done. replace ((a <=? w) && (w <? a + PGSIZE)) with false by (unfold PGSIZE in *; zcases; simpl; lia || done).
    apply (gr_pte _ _ _ G); [done|]. unfold PGSIZE in *. lia.
  - intros v Hv. destruct (Z_lt_dec v a); [destruct (add_old v ltac:(lia)) as (-> & _); apply (gr_new _ _ _ G); lia|].
    rewrite add_pte by (unfold KERNBASE, W32, PGSIZE in *; lia). replace ((a <=? v) && (v <? a + PGSIZE)) with true by (zcases; simpl; lia || done). apply add_flags.
  - pose proof (gw_count _ _ _ _ _ _ _ G3) as Hc. change (k_mem s2) with m2 in Hc. rewrite A2 in Hc. pose proof (gr_count _ _ _ G) as Hc0. simpl length in Hc0.
    replace (a + PGSIZE - a0) with (a - a0 + 1 * PGSIZE) by lia. rewrite Z.div_add by done. lia.
  - intros x H1 H2. rewrite (gw_mem _ _ _ _ _ _ _ G3).
    + change (k_mem s2) with m2. rewrite O2 by (by apply H2). by apply (gr_out _ _ _ G).
    + intros b Hb. change (k_mem s2) with m2 in Hb. apply T2 in Hb. destruct (gr_tables _ _ _ G b Hb) as [X|X]; [by apply H1|by apply H2].
    + intros b Hb. by apply H2, Hsub.
  - intros b Hb. destruct (gw_page _ _ _ _ _ _ _ G3 b Hb) as [X|X]; [|right; by apply Hsub]. apply T2 in X. by apply (gr_tables _ _ _ G).
  - intros v Hv. destruct (Z_lt_dec v a); [destruct (add_old v ltac:(lia)) as (-> & _); apply (gr_pages _ _ _ G); lia|].
    rewrite add_pte by (unfold KERNBASE, W32, PGSIZE in *; lia). replace ((a <=? v) && (v <? a + PGSIZE)) with true by (zcases; simpl; lia || done). by rewrite Hff.
Qed.
End add.

Lemma wp_alloc_loop n (Hnew : forall w, a0 <= w < KERNBASE -> present (pte m0 d w) = false) (Hal0 : a0 mod PGSIZE = 0) (H0 : 0 <= a0) oldsz newsz : forall fuel a s l (Q : Z -> kstate -> Prop),
  grown a s l -> (n < fuel)%nat -> a0 <= a -> a mod PGSIZE = 0 -> newsz <= KERNBASE -> newsz <= a + Z.of_nat n * PGSIZE < newsz + PGSIZE ->
  Z.of_nat n <= Z.of_nat (length l) - absent (k_mem s) d ->
  (forall s' l' a', grown a' s' l' -> newsz <= a' < newsz + PGSIZE -> a' mod PGSIZE = 0 -> Q newsz s') ->
  wp (alloc_loop fuel d a oldsz newsz) s Q.
Proof.
  assert (Hpz : 0 < PGSIZE) by done. assert (Hw : KERNBASE < W32 - PGSIZE) by done.
  induction n as [|n IH]; intros fuel a s l Q G Hf Ha Hal Hsz Hn Hcnt HQ; (destruct fuel as [|fuel]; [lia|]); cbn [alloc_loop].
  { destruct (Z.ltb_spec a newsz); [lia|]. apply wp_ret. apply (HQ s l a); [done|lia|done]. }
  destruct (Z.ltb_spec a newsz) as [Hlt|]; [|lia]. pose proof (gr_space _ _ _ G) as Hs. pose proof Hs as [Hc Hfr Ht].
  pose proof (absent_bounds (k_mem s) d) as Hab. destruct l as [|f l]; [simpl length in Hcnt; lia|].
  assert (Htop : a + PGSIZE <= KERNBASE) by (apply Z.mod_divide in Hal as [q ->]; [|done]; unfold KERNBASE, PGSIZE in *; lia).
  wpb. apply (wp_kalloc_page L p Hni s f l); [done|done|]. intros s1 C1 F1 M1 E1 Hpf Hnz Hnf. rewrite (proj2 (Z.eqb_neq f 0)) by done.
  unfold upd_mem. wp1. rewrite E1. destruct (cleared_page s f l s1 Hs F1 C1 M1 E1) as (S2 & P2 & A2 & T2 & _).
  destruct (page_V2P (km_end (k_kmem s)) f (fp_end _ _ Hfr) Hpf) as (_ & V1 & V2 & _). pose proof (page_max _ V1 V2) as V3.
  set (m2 := memset (k_mem s) f 0 PGSIZE) in *. set (s2 := set_mem m2 s1) in *.
  wpb. apply (wp_mappages L p Hni s2 l); try done; try lia.
  { intros w Hww. change ((PGSIZE + PGSIZE - 1) / PGSIZE) with 1 in Hww. change (k_mem s2) with m2. rewrite P2, (gr_pte _ _ _ G) by lia. apply Hnew. lia. }
  change ((PGSIZE + PGSIZE - 1) / PGSIZE) with 1. intros r s3 l3 k G3 Hk M3 [[-> ->]|(_ & _ & Hbad)].
  2:{ exfalso. change (k_mem s2) with m2 in Hbad. rewrite A2 in Hbad. simpl length in Hcnt. lia. }
  change (0 <? 0) with false. cbv iota. rewrite uint32_small by lia.
  apply (IH _ _ s3 l3); try lia; [by apply (grown_add a f s s1 s3 l l3)|by rewrite Z.add_mod, Hal by done| |done].
  pose proof (gw_count _ _ _ _ _ _ _ G3) as Hg. change (k_mem s2) with m2 in Hg. rewrite A2 in Hg. simpl length in Hcnt. lia.
Qed.
End grow.

Lemma user_space_le s l d sz sz' : sz' <= sz -> user_space s l d sz -> user_space s l d sz'.
Proof.
  intros Hle [A B C D]. split; [done|intros v Hv; apply B; lia|intros v Hv; apply C; lia|intros v v' Hv Hv'; apply D; lia].
Qed.

Lemma grown_start L p s l d a0 : space L p s l d -> user_space s l d a0 -> grown L p s l d a0 a0 s l.
Proof.
  intros Hs Hu. split; try done; [intros v Hv; by rewrite (proj2 (Z.ltb_lt v a0)) by lia|intros v Hv; lia|rewrite Z.sub_diag, Z.div_0_l by done; lia|intros b Hb; by left|intros v Hv; lia].
Qed.

(** ** allocuvm *)

Lemma wp_allocuvm L p s l d oldsz newsz (Q : Z -> kstate -> Prop) : LkKmem ∉ L -> on_cpu L p (k_core s) -> free_pages s l -> user_space s l d oldsz ->
  0 <= oldsz <= newsz -> newsz < KERNBASE -> (forall w, PGROUNDUP oldsz <= w < KERNBASE -> present (pte (k_mem s) d w) = false) ->
  (newsz + PGSIZE - 1) / PGSIZE - (oldsz + PGSIZE - 1) / PGSIZE + absent (k_mem s) d <= Z.of_nat (length l) ->
  (forall s' l', grown L p s l d (PGROUNDUP oldsz) (PGROUNDUP newsz) s' l' -> Q newsz s') ->
  wp (allocuvm d oldsz newsz) s Q.
Proof.
  intros Hni Hc Hf Hu Hsz Hk Hnew Hen HQ. assert (Hpz : 0 < PGSIZE) by done. assert (Hw : KERNBASE < W32 - PGSIZE) by done.
  pose proof (PGROUNDUP_div oldsz ltac:(lia)) as Eo. pose proof (PGROUNDUP_div newsz ltac:(lia)) as En. pose proof (PGROUNDUP_bounds oldsz ltac:(lia)) as Bo. pose proof (PGROUNDUP_bounds newsz ltac:(lia)) as Bn.
  set (qo := (oldsz + PGSIZE - 1) / PGSIZE) in *. set (qn := (newsz + PGSIZE - 1) / PGSIZE) in *. assert (Hq : qo <= qn) by (apply Z.div_le_mono; lia). assert (Hqo : 0 <= qo) by (apply Z.div_pos; lia).
  unfold allocuvm. rewrite Z.geb_leb, (proj2 (Z.leb_gt _ _)) by done. rewrite (proj2 (Z.ltb_ge newsz oldsz)) by lia.
  apply (wp_alloc_loop L p Hni s l d (PGROUNDUP oldsz) (Z.to_nat (qn - qo)) Hnew ltac:(by rewrite Eo, Z.mod_mul) ltac:(lia) oldsz newsz _ _ s l); try (rewrite ?Z2Nat.id; lia); try (by rewrite Eo, Z.mod_mul).
  - apply grown_start; [by split; [done|done|apply Hu]|]. apply user_space_round; [lia|done].
  - apply Nat.lt_succ_r. apply Z2Nat.inj_le; [lia|pose proof (Z.div_pos newsz PGSIZE); lia|]. assert (qn <= newsz / PGSIZE + 1); [|lia].
    unfold qn. replace (newsz + PGSIZE - 1) with (newsz - 1 + 1 * PGSIZE) by lia. rewrite Z.div_add by done. pose proof (Z.div_le_mono (newsz - 1) newsz PGSIZE). lia.
  - intros s' l' a' G Ha' Hal. apply (HQ s' l'). replace (PGROUNDUP newsz) with a'; [done|]. apply Z.mod_divide in Hal as [q ->]; [|done].
    rewrite En in *. unfold PGSIZE in *. lia.
Qed.

(** ** growproc *)

Lemma wp_switchuvm L p i s (Q : unit -> kstate -> Prop) : on_cpu L p (k_core s) -> p_kstack (proc_at s i) <> 0 -> p_pgdir (proc_at s i) <> 0 ->
  (forall c, on_cpu L p c -> Q tt (set_core c (set_vm (mkVm (vm_kpgdir (k_vm s)) (vm_data (k_vm s)) (V2P (p_pgdir (proc_at s i)))) s))) ->
  wp (switchuvm (Some i)) s Q.
Proof.
  intros Hc Hk Hp HQ. destruct (on_cpu_view _ _ _ Hc) as (j & ie & Hv & Hie & Hl). unfold switchuvm, lcr3. wp1. rewrite !(proj2 (Z.eqb_neq _ 0)) by done.
  wpb. eapply wp_pushcli; [exact Hv|]. intros c1 H1. wpb. eapply wp_mycpu; [exact H1|]. wp1.
  eapply wp_popcli; [exact H1|lia|]. intros c2 H2. apply (HQ c2). by eapply on_cpu_popcli.
Qed.

(** The running process asks for [n] more bytes, and there are pages enough. *)
Record growable (s : kstate) (cur : nat) (n : Z) (l : list Z) : Prop := mkGrowable {
  gb_cpu : on_cpu [] (Some cur) (k_core s);
  gb_free : free_pages s l;
  gb_space : user_space s l (p_pgdir (proc_at s cur)) (p_sz (proc_at s cur));
  gb_sz : 0 <= p_sz (proc_at s cur) /\ 0 < n /\ p_sz (proc_at s cur) + n < KERNBASE;
  gb_above : forall w, PGROUNDUP (p_sz (proc_at s cur)) <= w < KERNBASE -> present (pte (k_mem s) (p_pgdir (proc_at s cur)) w) = false;
  gb_enough : (p_sz (proc_at s cur) + n + PGSIZE - 1) / PGSIZE - (p_sz (proc_at s cur) + PGSIZE - 1) / PGSIZE + absent (k_mem s) (p_pgdir (proc_at s cur)) <= Z.of_nat (length l);
  gb_stack : p_kstack (proc_at s cur) <> 0
}.

(** C14: [growproc], with which sbrk gives a process more memory.  Asked for [n > 0] bytes that leave the process below
    KERNBASE, with a free page for each new page and for each page table its directory lacks, it returns 0 (it returns -1
    where [allocuvm] fails): the
    process, larger by [n], has the bytes it had and zeros in the pages that are new to
    it; these are present and writable at user level, were free and are so no longer, and
    no other process is touched.  The bytes of physical memory that its tables now lead
    to are those the process sees. *)
Theorem growproc_grows (s : kstate) (cur : nat) (n : Z) (l : list Z) (H : growable s cur n l) :
  let r := proc_at s cur in let d := p_pgdir r in let sz := p_sz r in
  WP growproc n @ s ⇓ x s', x = 0 /\ (exists um, proc_at s' cur = proc_sz (sz + n) (proc_umem um r) /\
      (forall v, 0 <= v < sz -> um v = p_umem r v) /\ (forall v, PGROUNDUP sz <= v < sz + n -> um v = 0) /\
      (forall v, 0 <= v < sz + n -> user_mem (k_mem s') d v = um v)) /\
    (forall j, j <> cur -> proc_at s' j = proc_at s j) /\ vm_cr3 (k_vm s') = V2P d /\ on_cpu [] (Some cur) (k_core s') /\
    exists l', free_pages s' l' /\ user_space s' l' d (sz + n) /\ l' `suffix_of` l /\
      forall v, PGROUNDUP sz <= v < sz + n -> PTE_FLAGS (pte (k_mem s') d v) = Z.lor (Z.lor PTE_W PTE_U) PTE_P /\
        (frame_of (pte (k_mem s') d v) ∈ l) /\ (frame_of (pte (k_mem s') d v) ∉ l').
Proof.
  destruct H as [K1 K2 K3 K4 K5 K6 K7]. intros r d sz. fold r in K3, K4, K5, K6, K7. fold d in K3, K5, K6. fold sz in K3, K4, K5, K6.
  unfold growproc, flush_user, load_user, upd_proc, upd_mem. wpb. eapply wp_curproc; [exact K1|]. intros c0 H0. cbv beta iota. fold r. fold d sz. wpb. wp1.
  change (proc_at (set_core c0 s) cur) with r. fold d sz. apply wp_modify. change (k_mem (set_core c0 s)) with (k_mem s).
  destruct (flush_all s l d sz (p_umem r) (fp_end _ _ K2) ltac:(lia) ltac:(lia) K3) as (U2 & V2 & W2 & _). pose proof (flush_free s l d sz (p_umem r) K2 K3 ltac:(lia)) as F2.
  set (m2 := flush_pages _ 0 d (p_umem r) (k_mem s)) in *. set (s2 := set_mem m2 (set_core c0 s)).
  assert (Hab : absent m2 d = absent (k_mem s) d).
  { apply absent_ext. intros i Hi. apply pde_ext; [done|]. intros x Hx. destruct (flush_all s l d sz (p_umem r) (fp_end _ _ K2) ltac:(lia) ltac:(lia) K3) as (_ & _ & _ & Ho).
    apply Ho. intros v Hv. destruct (us_page _ _ _ _ K3 v Hv) as (_ & Hp & _). eapply page_disjoint; [apply (dir_page _ _ _ _ (us_tables _ _ _ _ K3))|exact Hp| |done].
    intros E. apply (us_table _ _ _ _ K3 v Hv). by left. }
  rewrite (proj2 (Z.ltb_lt 0 n)) by lia. rewrite uint32_small by (unfold KERNBASE, W32 in *; lia). wpb.
  apply (wp_allocuvm [] (Some cur) s2 l d sz (sz + n)); [by apply not_elem_of_nil|done|by destruct F2; split|by apply (user_space_sub (set_mem m2 s) _ l)|lia|lia| | |].
  { intros w Hw. change (k_mem s2) with m2. rewrite V2. by apply K5. }
  { change (k_mem s2) with m2. by rewrite Hab. }
  intros s3 l3 G. pose proof (gr_frame _ _ _ _ _ _ _ _ _ G) as F3. assert (T3 : k_ptab s3 = k_ptab s) by (rewrite (mf_rest _ _ F3); done). assert (X3 : proc_at s3 cur = r) by (unfold proc_at; by rewrite T3).
  wpb. wp1. apply wp_modify. rewrite X3. fold d. set (um := user_mem (k_mem s3) d). rewrite (proj2 (Z.eqb_neq n 0)) by lia. rewrite (proj2 (Z.eqb_neq (sz + n) 0)) by lia. change (negb false && false) with false. cbv iota.
  wp1. rewrite proc_set_eq. set (s4 := set_ptab _ _). assert (P4 : proc_at s4 cur = proc_sz (sz + n) (proc_umem um r)) by (unfold s4; by rewrite proc_set_eq).
  assert (Hd0 : d <> 0) by (destruct (dir_page _ _ _ _ (us_tables _ _ _ _ K3)) as [_ X]; pose proof (fp_end _ _ K2); unfold KERNBASE in *; lia).
  wpb. apply (wp_switchuvm [] (Some cur)); [apply (gr_space _ _ _ _ _ _ _ _ _ G)|by rewrite P4|by rewrite P4|]. intros c5 H5. apply wp_ret. rewrite P4.
  pose proof (PGROUNDUP_bounds sz ltac:(unfold KERNBASE, W32, PGSIZE in *; lia)) as B0. pose proof (PGROUNDUP_bounds (sz + n) ltac:(unfold KERNBASE, W32, PGSIZE in *; lia)) as B1.
  split; [done|]. split; [exists um; split; [exact P4|]; split_and!|].
  - intros v Hv. unfold um. rewrite (gr_mem _ _ _ _ _ _ _ _ _ G) by lia. rewrite (proj2 (Z.ltb_lt _ _)) by lia. by apply W2.
  - intros v Hv. unfold um. rewrite (gr_mem _ _ _ _ _ _ _ _ _ G) by lia. by rewrite (proj2 (Z.ltb_ge _ _)) by lia.
  - done.
  - split; [intros j Hj; change (proc_at s4 j = proc_at s j); unfold s4, proc_at; simpl; rewrite !fn_insert_ne by done; by rewrite T3|]. split; [done|]. split; [done|].
    exists l3. destruct (gr_space _ _ _ _ _ _ _ _ _ G) as [_ Hf3 _]. pose proof (gr_user _ _ _ _ _ _ _ _ _ G) as U3.
    split; [by destruct Hf3; split|]. split; [|split; [apply (gr_list _ _ _ _ _ _ _ _ _ G)|]].
    + apply (user_space_le _ _ _ (PGROUNDUP (sz + n))); [lia|]. by apply (user_space_sub s3 _ l3).
    + intros v Hv. split; [apply (gr_new _ _ _ _ _ _ _ _ _ G); lia|]. split; [apply (gr_pages _ _ _ _ _ _ _ _ _ G); lia|apply (us_page _ _ _ _ U3); lia].
Qed.

(** A process of one page that asks for 5,000 bytes. *)
Module MoreMemory.
Definition st : kstate :=
  set_ptab (mkPtab (<[0%nat := proc_kstack Forked.first SmallFork.parent]> (fun _ => zero_proc)) 6 None) DeadChild.st.

Lemma small_growable : growable st 0 5000 DeadChild.frees.
Proof.
  split.
  - apply one_cpu_on.
  - destruct DeadChild.dead_free. by split.
  - apply (user_space_sub Forked.st _ Forked.frees); [done|done|exact DeadChild.sub_free|exact Forked.st_user].
  - split; [discriminate|split; reflexivity].
  - intros w Hw. change (PGROUNDUP _) with 4096 in Hw. destruct (present _) eqn:E; [|done]. pose proof (DeadChild.st_present w ltac:(lia) E). lia.
  - pose proof (absent_bounds (k_mem st) (p_pgdir (proc_at st 0))) as Hab. assert (Hl : length DeadChild.frees = 1029%nat) by (vm_compute; reflexivity). rewrite Hl.
    change ((p_sz (proc_at st 0) + 5000 + PGSIZE - 1) / PGSIZE - (p_sz (proc_at st 0) + PGSIZE - 1) / PGSIZE) with 2. lia.
  - discriminate.
Qed.
End MoreMemory.

Lemma growproc_grows_witness :
  wp (growproc 5000) MoreMemory.st (fun x s' => x = 0 /\ p_sz (proc_at s' 0) = 9096 /\ p_umem (proc_at s' 0) 205 = 5 /\ p_umem (proc_at s' 0) 9000 = 0).
Proof.
  refine (wp_mono _ _ _ _ _ (growproc_grows MoreMemory.st 0 5000 DeadChild.frees MoreMemory.small_growable)).
  intros x s' (-> & (um & -> & H1 & H2 & _) & _). split; [reflexivity|]. split; [reflexivity|]. split; [apply (H1 205)|apply (H2 9000)]; vm_compute; split; congruence.
Defined.
