(* ===== verification/Exec.v ===== *)
(** * exec.c, and sys_exec of sysfile.c

    [exec] builds the new address space in pages of its own and commits to it at
    the end; until then the process keeps its old one.  An ELF header and a
    program header are read into local objects.  The strings of [argv] are
    addresses in the old address space. *)

From S2P Require Import Prelude CString KState Spinlock Cprintf Proc Sock SysArg Kalloc Pipe Sleeplock Bio Log.
From S2P Require Import Fs Vm File SysFile ProcLife.

(** ** elf.h *)

Definition ELF_MAGIC : Z := 1179403647.
Definition ELF_PROG_LOAD : Z := 1.

(** [struct elfhdr] and [struct proghdr] at address 0 of an object. *)
Definition ELFHDR : Z := 52.
Definition elf_magic (m : mem) : Z := load32 m 0.
Definition elf_entry (m : mem) : Z := load32 m 24.
Definition elf_phoff (m : mem) : Z := load32 m 28.
Definition elf_phnum (m : mem) : Z := load16 m 44.
Definition PROGHDR : Z := 32.
Definition ph_type (m : mem) : Z := load32 m 0.
Definition ph_off (m : mem) : Z := load32 m 4.
Definition ph_vaddr (m : mem) : Z := load32 m 8.
Definition ph_filesz (m : mem) : Z := load32 m 16.
Definition ph_memsz (m : mem) : Z := load32 m 20.

(** ** Loading the program *)

(** The loop over the program headers: the size of the image, or [None] for
    [goto bad]. *)
Fixpoint load_segments (todo : nat) (dv : devsw) (pgdir : Z) (ip : nat) (off sz : Z) : K (option Z) :=
  match todo with
  | O => mret (Some sz)
  | S k =>
      '(r, ph) ← readi dv ip (fun _ => 0) 0 off PROGHDR;
      if negb (r =? PROGHDR) then mret None
      else if negb (ph_type ph =? ELF_PROG_LOAD) then load_segments k dv pgdir ip (uint32 (off + PROGHDR)) sz
      else if ph_memsz ph <? ph_filesz ph then mret None
      else if uint32 (ph_vaddr ph + ph_memsz ph) <? ph_vaddr ph then mret None
      else
        sz ← allocuvm pgdir sz (uint32 (ph_vaddr ph + ph_memsz ph));
        if sz =? 0 then mret None
        else if negb (ph_vaddr ph mod PGSIZE =? 0) then mret None
        else
          r ← loaduvm dv pgdir (ph_vaddr ph) ip (ph_off ph) (ph_filesz ph);
          if r <? 0 then mret None else load_segments k dv pgdir ip (uint32 (off + PROGHDR)) sz
  end.

(** ** The stack *)

(** The loop that pushes the argument strings: [argc], [sp] and [ustack]. *)
Fixpoint push_args (argv : list Z) (pgdir argc sp : Z) (ustack : mem) : K (option (Z * Z * mem)) :=
  match argv with
  | [] => mret (Some (argc, sp, ustack))
  | a :: rest =>
      if argc >=? MAXARG then mret None
      else
        len ← user_strlen a;
        q ← user_proc;
        let sp := Z.land (uint32 (sp - (len + 1))) (W32 - 4) in
        r ← copyout pgdir sp (p_umem q) a (len + 1);
        if r <? 0 then mret None
        else push_args rest pgdir (argc + 1) sp (store32 ustack (4 * (3 + argc)) sp)
  end.

(** The label [bad]. *)
Definition exec_bad (pgdir : Z) (ip : option nat) : K Z :=
  when (negb (pgdir =? 0)) (freevm pgdir);;
  (match ip with
   | Some ip =>
       iunlockput ip;;
       end_op
   | None => mret tt
   end);;
  mret (-1).

(** [last], the part of the path after its last slash. *)
Fixpoint last_elem (path acc : list Z) : list Z :=
  match path with
  | [] => acc
  | c :: rest => last_elem rest (if c =? slash then rest else acc)
  end.

(** From the allocation of the stack on. *)
Definition exec_stack (cur : nat) (path argv : list Z) (pgdir sz entry : Z) : K Z :=
  let sz := PGROUNDUP sz in
  sz ← allocuvm pgdir sz (uint32 (sz + 2 * PGSIZE));
  if sz =? 0 then exec_bad pgdir None
  else
    clearpteu pgdir (uint32 (sz - 2 * PGSIZE));;
    pushed ← push_args argv pgdir 0 sz (fun _ => 0);
    match pushed with
    | None => exec_bad pgdir None
    | Some (argc, sp, ustack) =>
        let ustack := store32 ustack (4 * (3 + argc)) 0 in
        let ustack := store32 ustack 0 4294967295 in
        let ustack := store32 ustack 4 argc in
        let ustack := store32 ustack 8 (uint32 (sp - (argc + 1) * 4)) in
        let sp := uint32 (sp - (3 + argc + 1) * 4) in
        r ← copyout pgdir sp ustack 0 ((3 + argc + 1) * 4);
        if r <? 0 then exec_bad pgdir None
        else
          upd_proc cur (fun r => proc_name (safestrcpy (p_name r) 0 (bytes_mem (last_elem path path)) 0 16) r);;
          oldpgdir ← gets (fun s => p_pgdir (proc_at s cur));
          upd_proc cur (fun r => proc_tf (tf_set_entry entry sp (p_tf r)) (proc_sz sz (proc_pgdir pgdir r)));;
          load_user cur;;
          switchuvm (Some cur);;
          freevm oldpgdir;;
          mret 0
    end.

(** ** exec *)

Definition exec (dv : devsw) (path argv : list Z) : K Z :=
  '(cur, _) ← curproc;
  begin_op;;
  ip ← namei dv path;
  match ip with
  | None =>
      end_op;;
      cprintf (chars "exec: fail" ++ [10]) [];;
      mret (-1)
  | Some ip =>
      ilock ip;;
      '(r, elf) ← readi dv ip (fun _ => 0) 0 0 ELFHDR;
      if negb (r =? ELFHDR) then exec_bad 0 (Some ip)
      else if negb (elf_magic elf =? ELF_MAGIC) then exec_bad 0 (Some ip)
      else
        pgdir ← setupkvm;
        if pgdir =? 0 then exec_bad 0 (Some ip)
        else
          sz ← load_segments (Z.to_nat (elf_phnum elf)) dv pgdir ip (elf_phoff elf) 0;
          match sz with
          | None => exec_bad pgdir (Some ip)
          | Some sz =>
              iunlockput ip;;
              end_op;;
              exec_stack cur path argv pgdir sz (elf_entry elf)
          end
  end.

(** ** sysfile.c: sys_exec *)

(** The loop that fetches the strings of [argv]. *)
Fixpoint fetch_argv (todo : nat) (uargv i : Z) : K (option (list Z)) :=
  match todo with
  | O => mret None
  | S k =>
      uarg ← fetchint (uint32 (uargv + 4 * i));
      match uarg with
      | None => mret None
      | Some uarg =>
          if uarg =? 0 then mret (Some [])
          else
            s ← fetchstr (uint32 uarg);
            match s with
            | None => mret None
            | Some (_, a) =>
                rest ← fetch_argv k uargv (i + 1);
                mret ((a ::.) <$> rest)
            end
      end
  end.

Definition sys_exec (dv : devsw) : K Z :=
  path ← argpath 0;
  match path with
  | None => mret (-1)
  | Some path =>
      uargv ← argint 1;
      match uargv with
      | None => mret (-1)
      | Some uargv =>
          argv ← fetch_argv (Z.to_nat MAXARG) (uint32 uargv) 0;
          match argv with
          | None => mret (-1)
          | Some argv => exec dv path argv
          end
      end
  end.
