(* ===== verification/Load.v ===== *)
(** * exec.c: what a program finds when it starts

    [exec] from the path to the first instruction, on a file that is an executable:
    the address space it builds in free pages, segment by segment, and the stack with
    the arguments.

    Shown: the process then runs in an address space of its own that holds the bytes of
    the segments, zeros after them, and on its stack the arguments it was given; the
    pages of its old memory are free again and the file system is as it was.  The
    example runs a program from a disk image that mkfs has built. *)

From S2P Require Import Prelude CString KState Spinlock Cprintf Proc Sock SysArg Kalloc Pipe Sleeplock Bio Log LogCrash Tx.
From S2P Require Import Fs Blocks Inode Content Dir Oper Path Mkfs Vm Paging File FileIO SysFile ProcLife Fork Reap Grow Exec.

#[local] Open Scope kernel_scope.

(** ** An address space under construction *)

Section building.
Context (cur : nat) (s0 : kstate) (l0 : list Z) (d : Z) (Hf0 : free_pages s0 l0).

(** In the state [s], with the pages [l] free, [d] is an address space made of pages of [l0]; its user memory ends at
    [sz], the end of a page, and holds [img]. *)
Record building (sz : Z) (img : mem) (s : kstate) (l : list Z) : Prop := mkBuilding {
  bl_vm : k_vm s = k_vm s0;
  bl_end : km_end (k_kmem s) = km_end (k_kmem s0);
  bl_space : space [] (Some cur) s l d;
  bl_user : user_space s l d sz;
  bl_list : l `suffix_of` l0;
  bl_out : forall x, (forall b, b ∈ l0 -> ~ in_page b x) -> k_mem s x = k_mem s0 x;
  bl_tables : forall b, table_page (k_mem s) d b -> b ∈ l0;
  bl_pages : forall v, 0 <= v < sz -> frame_of (pte (k_mem s) d v) ∈ l0;
  bl_above : forall w, sz <= w < KERNBASE -> present (pte (k_mem s) d w) = false;
  bl_img : forall v, 0 <= v < sz -> user_mem (k_mem s) d v = img v;
  bl_sz : 0 <= sz <= KERNBASE /\ sz mod PGSIZE = 0;
  bl_room : Z.of_nat (length l) - absent (k_mem s) d + sz / PGSIZE = Z.of_nat (length l0) - 1025
}.

(** The rest of the kernel may change meanwhile. *)
Lemma building_same sz img s l s' : building sz img s l -> k_mem s' = k_mem s -> k_kmem s' = k_kmem s -> k_vm s' = k_vm s ->
  on_cpu [] (Some cur) (k_core s') -> building sz img s' l.
Proof.
  intros [A B [C1 [C2 C3 C4 C5] C6] D E F G H I J K M] Em Ek Ev Hc. split; rewrite ?Em, ?Ek, ?Ev; try done.
  - split; [done|split; rewrite ?Em, ?Ek; done|by rewrite Em, Ek].
  - by apply (user_space_sub s _ l); rewrite ?Ek.
Qed.

Lemma building_img sz img img' s l : building sz img s l -> (forall v, 0 <= v < sz -> img' v = img v) -> building sz img' s l.
Proof. intros [A B C D E F G H I J K M] Hi. split; try done. intros v Hv. rewrite Hi by done. by apply J. Qed.

(** A write through the page table. *)
Lemma building_write sz img img' s l m' : building sz img s l -> user_space (set_mem m' s) l d sz -> (forall w, pte m' d w = pte (k_mem s) d w) ->
  (forall x, (forall v, 0 <= v < sz -> ~ in_page (frame_of (pte (k_mem s) d v)) x) -> m' x = k_mem s x) ->
  (forall v, 0 <= v < sz -> user_mem m' d v = img' v) -> building sz img' (set_mem m' s) l.
Proof.
  intros [A B [C1 C2 C3] D E F G H I J K M] Hu Hp Ho Hi.
  assert (Hn : forall b x, page_ok (km_end (k_kmem s)) b -> (forall v, 0 <= v < sz -> b <> frame_of (pte (k_mem s) d v)) -> in_page b x -> m' x = k_mem s x).
  { intros b x Hb Hne Hx. apply Ho. intros v Hv. destruct (us_page _ _ _ _ D v Hv) as (_ & Hpf & _). by apply (page_disjoint _ b _ x Hb Hpf (Hne v Hv)). }
  assert (Hd : forall i, 0 <= i < 1024 -> pde m' d i = pde (k_mem s) d i).
  { intros i Hi'. apply pde_ext; [done|]. intros x. apply (Hn d); [apply (dir_page _ _ _ _ C3)|]. intros v Hv E'. apply (us_table _ _ _ _ D v Hv). rewrite <- E'. by left. }
  split; try done.
  - split; [done| |by apply (tables_ext (k_mem s))]. apply free_pages_mem; [done|]. intros a x Ha. apply (Hn a); [by apply C2|].
    intros v Hv ->. by destruct (us_page _ _ _ _ D v Hv) as (_ & _ & X).
  - intros x Hx. simpl. rewrite Ho; [by apply F|]. intros v Hv. apply Hx. by apply H.
  - intros b Hb. apply G. by apply (table_page_ext (k_mem s) m' d Hd).
  - intros v Hv. simpl. rewrite Hp. by apply H.
  - intros w Hw. simpl. rewrite Hp. by apply I.
  - simpl. by rewrite (absent_ext (k_mem s) m' d Hd).
Qed.

(** More memory, as [allocuvm] gives it: it returns the larger of the sizes. *)
Lemma wp_build_alloc sz img s l oldsz newsz (Q : Z -> kstate -> Prop) : building sz img s l -> PGROUNDUP oldsz = sz -> 0 <= oldsz -> 0 <= newsz < KERNBASE ->
  (Z.max oldsz newsz + PGSIZE - 1) / PGSIZE <= Z.of_nat (length l0) - 1025 ->
  (forall s' l', mframe s s' -> building (PGROUNDUP (Z.max oldsz newsz)) (fun v => if v <? sz then img v else 0) s' l' ->
    (forall v, 0 <= v < W32 -> v < sz \/ PGROUNDUP (Z.max oldsz newsz) <= v -> pte (k_mem s') d v = pte (k_mem s) d v) ->
    (forall v, sz <= v < PGROUNDUP (Z.max oldsz newsz) -> PTE_FLAGS (pte (k_mem s') d v) = Z.lor (Z.lor PTE_W PTE_U) PTE_P) -> Q (Z.max oldsz newsz) s') ->
  wp (allocuvm d oldsz newsz) s Q.
Proof.
  intros Hb Er Ho Hn Hroom HQ. pose proof Hb as [A B C D E F G H I J [K1 K2] M]. destruct (Z_lt_dec newsz oldsz) as [Hlt|Hge].
  { unfold allocuvm. rewrite Z.geb_leb, (proj2 (Z.leb_gt _ _)) by lia. rewrite (proj2 (Z.ltb_lt newsz oldsz)) by lia. apply wp_ret.
    replace (Z.max oldsz newsz) with oldsz in * by lia. apply (HQ s l); [done| |done|lia]. rewrite Er. apply (building_img _ img); [done|].
    intros v Hv. by rewrite (proj2 (Z.ltb_lt v sz)) by lia. }
  replace (Z.max oldsz newsz) with newsz in * by lia. assert (Hw : KERNBASE < W32 - PGSIZE) by done. assert (Hpz : 0 < PGSIZE) by done.
  pose proof (PGROUNDUP_bounds oldsz ltac:(lia)) as Bo. pose proof (PGROUNDUP_bounds newsz ltac:(lia)) as Bn. pose proof (PGROUNDUP_div oldsz ltac:(lia)) as Eo. pose proof (PGROUNDUP_div newsz ltac:(lia)) as En.
  assert (Eq : sz / PGSIZE = (oldsz + PGSIZE - 1) / PGSIZE) by (rewrite <- Er, Eo; by apply Z.div_mul).
  apply (wp_allocuvm [] (Some cur) s l d oldsz newsz); [by apply not_elem_of_nil|apply C|apply C|apply (user_space_le _ _ _ sz); [lia|done]|lia|lia|rewrite Er; done|lia|].
  rewrite Er. intros s' l' [G1 G2 G3 G4 G5 G6 G7 G8 G9 G10 G11].
  assert (Htop : PGROUNDUP newsz <= KERNBASE) by (rewrite En in *; unfold KERNBASE, PGSIZE in *; lia).
  assert (Hmod : PGROUNDUP newsz mod PGSIZE = 0) by (rewrite En; by apply Z.mod_mul).
  assert (Hle : sz <= PGROUNDUP newsz) by (rewrite <- Er, Eo, En; apply Z.mul_le_mono_nonneg_r; [lia|]; apply Z.div_le_mono; lia).
  apply (HQ s' l'); [done| |done|done]. split; try done.
  - rewrite <- A, (mf_rest _ _ G1). done.
  - by rewrite <- B, (mf_end _ _ G1).
  - by etransitivity.
  - intros x Hx. rewrite G9; [by apply F|intros b Hb'; by apply Hx, G|]. intros b Hb'. apply Hx. by apply (suffix_elem l0 l).
  - intros b Hb'. destruct (G10 b Hb'); [by apply G|]. by apply (suffix_elem l0 l).
  - intros v Hv. destruct (Z_lt_dec v sz); [rewrite G6 by lia; apply H; lia|]. apply (suffix_elem l0 l); [done|]. apply G11. lia.
  - intros w Hw'. rewrite G6 by lia. apply I. lia.
  - intros v Hv. rewrite G5 by done. destruct (Z.ltb_spec v sz); [|done]. apply J. lia.
  - split; [lia|done].
  - rewrite <- M. assert (PGROUNDUP newsz / PGSIZE = (PGROUNDUP newsz - sz) / PGSIZE + sz / PGSIZE); [|lia].
    apply Z.mod_divide in K2 as [q ->]; [|done]. replace (PGROUNDUP newsz - q * PGSIZE) with (PGROUNDUP newsz + (- q) * PGSIZE) by lia.
    rewrite Z.div_add, Z.div_mul by done. lia.
Qed.

(** [copyout] to the address space. *)
Lemma wp_build_copyout sz img s l va ms a len (Q : Z -> kstate -> Prop) : building sz img s l -> 0 <= va -> 0 <= len -> va + len <= sz ->
  (forall v, va <= v < va + len -> Z.land (pte (k_mem s) d v) PTE_U <> 0) ->
  (forall m', let s' := set_mem m' s in (forall w, pte m' d w = pte (k_mem s) d w) ->
    building sz (fun v => if inside va len v then ms (a + (v - va)) else img v) s' l -> Q 0 s') ->
  wp (copyout d va ms a len) s Q.
Proof.
  intros Hb Hva Hlen Hend Hus HQ. pose proof Hb as [A B [_ C _] D E F G H I J [K1 K2] M]. unfold copyout.
  apply (wp_copyout_loop _ d sz l); [apply C|lia|done|lia|done|done|by right|done|]. intros m' s' Hu' Hm Hp Hout. apply HQ; [done|].
  apply (building_write sz img); [done..|]. intros v Hv. rewrite Hm by done. destruct (inside va len v); [done|]. by apply J.
Qed.
End building.

(** The address space [setupkvm] makes is empty. *)
Lemma wp_build_start cur s l (Q : Z -> kstate -> Prop) : on_cpu [] (Some cur) (k_core s) -> free_pages s l -> 1025 <= Z.of_nat (length l) -> data_ok (vm_data (k_vm s)) ->
  (forall d s' l', d <> 0 -> mframe s s' -> building cur s l d 0 (fun _ => 0) s' l' -> Q d s') -> wp setupkvm s Q.
Proof.
  intros Hc Hf Hlen Hd HQ. apply (wp_setupkvm [] (Some cur) ltac:(by apply not_elem_of_nil) s l); [done..|]. intros d s' l' Hnz [B1 B2 B3 B4 B5] Hcnt Hz.
  apply (HQ d s' l'); [done|done|]. split; try done.
  - by rewrite (mf_rest _ _ B1).
  - apply (mf_end _ _ B1).
  - split; [apply B2|intros v Hv; lia..].
  - intros v Hv. lia.
  - intros w Hw. by rewrite Hz.
  - intros v Hv. lia.
  - rewrite Z.div_0_l, Hcnt by done. lia.
Qed.

(** ** Reading the executable *)

Section loading.
Context (cur : nat) (pid k : Z) (fs0 : fsst) (T : Z -> Prop) (Hla : layout fs0) (HT : tree_ok fs0 T) (Hbase : forall i, (i < NINODE)%nat -> 0 <= i_ref (fs_inode fs0 i)).
Context (dv : devsw) (ip : nat) (m : Z) (Hty : i_type (dnode fs0 m) = T_FILE) (Hok : file_ok fs0 (dnode fs0 m)).
Context (s0 : kstate) (l0 : list Z) (d : Z).
Let file := fbyte fs0 (dnode fs0 m).
Let size := i_size (dnode fs0 m).
Abbreviation walking := (walking pid k fs0 T [(ip, m)] (Some ip)).
Abbreviation fwp := (fwp cur pid).

Lemma fwp_read_held off n s (Q : Z * mem -> fsst -> Prop) : walking (k_fs s) -> 0 <= off <= size -> 0 <= n -> off + n < W32 ->
  (forall md f, walking f -> (forall a, 0 <= a < Z.min n (size - off) -> md a = file (off + a)) -> Q (Z.min n (size - off), md) f) ->
  fwp (readi dv ip (fun _ => 0) 0 off n) s Q.
Proof.
  intros W Ho Hn Hov HQ. assert (Hin : (ip, m) ∈ [(ip, m)]) by apply list_elem_of_here.
  pose proof (locked_node pid k fs0 T Hbase _ _ _ _ W Hin) as Hsn. pose proof (wk_still _ _ _ _ _ _ _ W) as [S1 S2 S3 S4].
  destruct (file_ok_same fs0 (k_fs s) (dnode fs0 m) Hla S2 S3 S4 Hok) as (L1 & L2 & L3).
  pose proof (node_file _ _ _ Hsn L2) as Hok'. set (x := inode_at s ip). change (fs_inode (k_fs s) ip) with x in *. pose proof (fo_size _ _ Hok) as Hsz.
  pose proof (sn_size _ _ Hsn) as Es. fold size in Es.
  apply (fwp_readi cur pid dv ip (fun _ => 0) 0 off n k); fold x; [done|done|done|rewrite (sn_type _ _ Hsn), Hty; done|lia|done|done|].
  rewrite Es. intros md f Hmd T1 M1 C1 D1. apply HQ; [by apply (walk_unchanged pid k fs0 T Hbase _ _ m (k_fs s))|].
  intros a Ha. rewrite Hmd. unfold inside. rewrite (proj2 (Z.leb_le 0 a)), (proj2 (Z.ltb_lt a _)) by lia. cbn [andb]. rewrite Z.sub_0_r.
  rewrite (node_fbyte _ _ _ Hsn) by (fold size; lia). apply L3.
Qed.

(** The file is open and the address space holds [img] below [sz]. *)
Record loading (sz : Z) (img : mem) (s : kstate) (l : list Z) : Prop := mkLoading {
  ld_build : building cur s0 l0 d sz img s l;
  ld_walk : walking (k_fs s);
  ld_ready : fs_ready cur pid s;
  ld_woken : only_woken (k_ptab s0) (k_ptab s)
}.

Lemma loading_mem sz img s l sz' img' s' l' : loading sz img s l -> k_fs s' = k_fs s -> k_ptab s' = k_ptab s -> building cur s0 l0 d sz' img' s' l' -> loading sz' img' s' l'.
Proof.
  intros [A B [C1 C2] D] Ef Ep Hb. split; [done|by rewrite Ef|split; [apply Hb|unfold proc_at; by rewrite Ep]|by rewrite Ep].
Qed.

Lemma mframe_rest s s' : mframe s s' -> k_fs s' = k_fs s /\ k_ptab s' = k_ptab s.
Proof. intros [E _]. rewrite E. done. Qed.

(** A read of the file between two steps of the building. *)
Lemma wp_load_read sz img s l off n (Q : Z * mem -> kstate -> Prop) : loading sz img s l -> 0 <= off -> 0 <= n -> off + n <= size ->
  (forall md s', loading sz img s' l -> k_mem s' = k_mem s -> (forall a, 0 <= a < n -> md a = file (off + a)) -> Q (n, md) s') ->
  wp (readi dv ip (fun _ => 0) 0 off n) s Q.
Proof.
  intros [A B C D] Ho Hn Hend HQ. pose proof (fo_size _ _ Hok) as Hsz. fold size in Hsz.
  assert (Hw : fwp (readi dv ip (fun _ => 0) 0 off n) s (fun r f => walking f /\ exists md, r = (n, md) /\ forall a, 0 <= a < n -> md a = file (off + a))).
  { apply fwp_read_held; [done|lia|done|unfold W32; fs_lia|]. replace (Z.min n (size - off)) with n by lia. intros md f W Hmd. split; [done|]. by exists md. }
  eapply wp_mono; [|by apply Hw]. intros r s' (F & R & W & md & -> & Hmd). destruct F as [F1 F2].
  assert (Em : k_mem s' = k_mem s /\ k_kmem s' = k_kmem s /\ k_vm s' = k_vm s) by (rewrite F2; done). destruct Em as (E1 & E2 & E3). apply HQ; [|done|done].
  split; [|done|done|by eapply only_woken_trans]. by apply (building_same cur s0 l0 d sz img s); [..|apply R].
Qed.

(** One page of a segment, read to its place. *)
Lemma load_page sz img s l va md n : loading sz img s l -> 0 <= va < sz -> va mod PGSIZE = 0 -> 0 <= n <= PGSIZE ->
  loading sz (fun v => if inside va n v then md (v - va) else img v) (set_mem (memcopy (k_mem s) (frame_of (pte (k_mem s) d va)) md 0 n) s) l.
Proof.
  intros H Hva Hal Hn. pose proof (ld_build _ _ _ _ H) as Hb. pose proof (bl_user _ _ _ _ _ _ _ _ Hb) as Hu. pose proof (bl_sz _ _ _ _ _ _ _ _ Hb) as [Hsz _].
  set (f := frame_of (pte (k_mem s) d va)). set (m' := memcopy (k_mem s) f md 0 n).
  assert (Hout : forall x, ~ in_page f x -> m' x = k_mem s x) by (intros x Hx; unfold m', memcopy, in_page in *; zcases; simpl; lia || done).
  pose proof (write_pte s l d sz va m' Hu Hva Hout) as Hp.
  apply (loading_mem sz img s l); [done|done|done|]. apply (building_write cur s0 l0 d sz img); [done|by apply (write_space s l d sz va m' Hu Hva Hout)|done| |].
  - intros x Hx. apply Hout. by apply (Hx va).
  - intros v Hv. pose proof (chunk_written s l d sz va md 0 n (fp_end _ _ (sp_free _ _ _ _ _ (bl_space _ _ _ _ _ _ _ _ Hb))) Hu ltac:(lia) Hva ltac:(rewrite Hal; lia) v Hv) as Hc.
    cbv zeta in Hc. rewrite Hal, Z.add_0_r in Hc. fold f m' in Hc. rewrite Hc. destruct (inside va n v); [by rewrite Z.add_0_l|]. by apply (bl_img _ _ _ _ _ _ _ _ Hb).
Qed.

(** Part of a segment that has come to its place: [n] bytes of the file from [off] on, at [va]. *)
Definition placed (va off n : Z) (img : mem) : mem := fun v => if inside va n v then file (off + (v - va)) else img v.

Lemma loading_img sz img img' s l : loading sz img s l -> (forall v, 0 <= v < sz -> img' v = img v) -> loading sz img' s l.
Proof. intros [A B C D] Hi. split; [|done..]. by apply (building_img _ _ _ _ _ img). Qed.

Lemma wp_load_loop n : forall fuel sz img s l addr off fsz i (Q : Z -> kstate -> Prop), loading sz img s l -> (n < fuel)%nat -> 0 <= addr -> addr mod PGSIZE = 0 ->
  addr + fsz <= sz -> 0 <= off -> off + fsz <= size -> 0 <= i -> i mod PGSIZE = 0 -> fsz <= i + Z.of_nat n * PGSIZE ->
  (forall s' l', loading sz (placed (addr + i) (off + i) (fsz - i) img) s' l' -> Q 0 s') ->
  wp (load_loop fuel dv d addr ip off fsz i) s Q.
Proof.
  assert (Hpz : 0 < PGSIZE) by done. assert (Hw : KERNBASE < W32 - PGSIZE) by done. pose proof (fo_size _ _ Hok) as Hfs. fold size in Hfs.
  assert (Hsw : size < W32 - PGSIZE) by (unfold W32, PGSIZE; fs_lia).
  induction n as [|n IH]; intros fuel sz img s l addr off fsz i Q H Hf Ha Hal Hend Ho Hoff Hi Hmod Hn HQ; (destruct fuel as [|fuel]; [lia|]); cbn [load_loop]; destruct (Z.ltb_spec i fsz) as [Hlt|Hge]; try lia;
    try (apply wp_ret, (HQ s l), (loading_img sz img); [done|]; intros v Hv; unfold placed, inside; zcases; simpl; lia || done).
  pose proof (ld_build _ _ _ _ H) as Hb. pose proof (bl_sz _ _ _ _ _ _ _ _ Hb) as [Hsz _]. pose proof (bl_user _ _ _ _ _ _ _ _ Hb) as Hu. rewrite (uint32_small (addr + i)) by lia.
  destruct (us_page _ _ _ _ Hu (addr + i) ltac:(lia)) as (P1 & P2 & _). wpb. apply (wp_walk_at [] (Some cur) s l d); [apply Hb|].
  destruct (present (pde (k_mem s) d (PDX (addr + i)))) eqn:Hpd; [|by rewrite (pte_none _ _ _ Hpd) in P1].
  intros r Hr0. rewrite (proj2 (Z.eqb_neq r 0)) by done. unfold kload. wp1. replace (load32 (k_mem s) r) with (pte (k_mem s) d (addr + i)) by (unfold pte; by rewrite Hpd).
  cbv zeta. rewrite (uint32_small (off + i)) by lia. set (c := Z.min (fsz - i) PGSIZE). wpb. apply (wp_load_read sz img s l); [done|lia|lia|lia|].
  intros md s1 H1 E1 Hmd. cbv beta iota. unfold upd_mem. wp1. rewrite Z.max_r, Z.eqb_refl by lia. cbn [negb]. fold (frame_of (pte (k_mem s) d (addr + i))). rewrite <- E1.
  assert (Hal' : (addr + i) mod PGSIZE = 0) by (rewrite Z.add_mod, Hal, Hmod by done; done).
  pose proof (load_page sz img s1 l (addr + i) md c H1 ltac:(lia) Hal' ltac:(lia)) as H2. rewrite (uint32_small (i + PGSIZE)) by lia.
  apply (IH fuel sz _ _ l addr off fsz (i + PGSIZE) Q H2); try lia; [by rewrite Z.add_mod, Hmod by done|].
  intros s' l' H'. apply (HQ s' l'). apply (loading_img sz _ _ _ _ H'). intros v Hv. unfold placed, inside, c.
  zcases; simpl; try lia; try done; [by rewrite Hmd by lia|f_equal; lia].
Qed.

Lemma wp_loaduvm sz img s l addr off fsz (Q : Z -> kstate -> Prop) : loading sz img s l -> 0 <= addr -> addr mod PGSIZE = 0 -> 0 <= fsz -> addr + fsz <= sz -> 0 <= off -> off + fsz <= size ->
  (forall s' l', loading sz (placed addr off fsz img) s' l' -> Q 0 s') -> wp (loaduvm dv d addr ip off fsz) s Q.
Proof.
  intros H Ha Hal Hf Hend Ho Hoff HQ. unfold loaduvm. rewrite Hal, Z.eqb_refl. cbn [negb]. assert (Hpz : 0 < PGSIZE) by done.
  pose proof (Z.div_mod fsz PGSIZE ltac:(done)). pose proof (Z.mod_pos_bound fsz PGSIZE ltac:(done)). assert (0 <= fsz / PGSIZE) by (by apply Z.div_pos).
  apply (wp_load_loop (Z.to_nat (fsz / PGSIZE + 1)) _ sz img s l); try done; try lia.
  intros s' l' H'. apply (HQ s' l'). by rewrite !Z.add_0_r, Z.sub_0_r in H'.
Qed.

(** ** The segments *)

(** The program header at [off] in the file. *)
Definition header_at (off : Z) : mem := fun a => file (off + a).

Fixpoint headers (n : nat) (off : Z) : list mem :=
  match n with
  | O => []
  | S k => header_at off :: headers k (off + PROGHDR)
  end.

(** A segment to load lies in the file and below the kernel, from the start of a page on. *)
Record good_seg (h : mem) : Prop := mkGoodSeg {
  gs_file : 0 <= ph_off h /\ 0 <= ph_filesz h /\ ph_off h + ph_filesz h <= size;
  gs_mem : ph_filesz h <= ph_memsz h /\ 0 <= ph_vaddr h /\ 0 < ph_vaddr h + ph_memsz h < KERNBASE;
  gs_page : ph_vaddr h mod PGSIZE = 0
}.

(** The size and the bytes of the image with one more segment. *)
Definition add_seg (p : Z * mem) (h : mem) : Z * mem :=
  if ph_type h =? ELF_PROG_LOAD then (Z.max p.1 (ph_vaddr h + ph_memsz h), placed (ph_vaddr h) (ph_off h) (ph_filesz h) p.2) else p.

Lemma add_seg_mono hs : forall p, p.1 <= (foldl add_seg p hs).1.
Proof. induction hs as [|h hs IH]; intros p; simpl; [lia|]. etransitivity; [|apply IH]. unfold add_seg. destruct (_ =? _); simpl; lia. Qed.

Lemma header_fields md h : (forall a, 0 <= a < PROGHDR -> md a = h a) ->
  ph_type md = ph_type h /\ ph_off md = ph_off h /\ ph_vaddr md = ph_vaddr h /\ ph_filesz md = ph_filesz h /\ ph_memsz md = ph_memsz h.
Proof. intros H. split_and!; apply load32_ext; intros x Hx; apply H; unfold PROGHDR; lia. Qed.

Lemma wp_load_segments n : forall off sz img s l (Q : option Z -> kstate -> Prop), loading (PGROUNDUP sz) img s l -> 0 <= sz < KERNBASE -> (forall v, sz <= v -> img v = 0) ->
  0 <= off -> off + PROGHDR * Z.of_nat n <= size -> Forall (fun h => ph_type h = ELF_PROG_LOAD -> good_seg h) (headers n off) ->
  ((foldl add_seg (sz, img) (headers n off)).1 + PGSIZE - 1) / PGSIZE <= Z.of_nat (length l0) - 1025 ->
  (forall s' l' sz' img', foldl add_seg (sz, img) (headers n off) = (sz', img') -> loading (PGROUNDUP sz') img' s' l' -> 0 <= sz' < KERNBASE -> (forall v, sz' <= v -> img' v = 0) -> Q (Some sz') s') ->
  wp (load_segments n dv d ip off sz) s Q.
Proof.
  assert (Hpz : 0 < PGSIZE) by done. assert (Hw : KERNBASE < W32 - PGSIZE) by done. pose proof (fo_size _ _ Hok) as Hfs. fold size in Hfs. assert (Hsw : size < W32 - PROGHDR) by (unfold W32, PROGHDR; fs_lia).
  induction n as [|n IH]; intros off sz img s l Q H Hsz Hz Ho Hend Hg Hroom HQ; cbn [load_segments headers] in *; [by apply wp_ret, (HQ s l sz img)|].
  apply Forall_cons in Hg as [Hg Hgs]. simpl foldl in Hroom, HQ. set (h := header_at off) in *. assert (Hp32 : PROGHDR = 32) by done.
  wpb. apply (wp_load_read (PGROUNDUP sz) img s l); [done|done|done|lia|]. intros md s1 H1 E1 Hmd. cbv beta iota. rewrite Z.eqb_refl. cbn [negb].
  destruct (header_fields md h Hmd) as (-> & -> & -> & -> & ->). assert (Ea : add_seg (sz, img) h = if ph_type h =? ELF_PROG_LOAD then (Z.max sz (ph_vaddr h + ph_memsz h), placed (ph_vaddr h) (ph_off h) (ph_filesz h) img) else (sz, img)) by done.
  rewrite Ea in Hroom, HQ. clear Ea. rewrite (uint32_small (off + PROGHDR)) by lia.
  destruct (Z.eqb_spec (ph_type h) ELF_PROG_LOAD) as [Et|Et]; cbn [negb].
  2:{ apply (IH _ _ img _ l); try done; lia. }
  destruct (Hg Et) as [(G1 & G2 & G3) (G4 & G5 & G6) G7]. set (nsz := ph_vaddr h + ph_memsz h) in *. set (img' := placed (ph_vaddr h) (ph_off h) (ph_filesz h) img) in *.
  rewrite (uint32_small nsz) by lia. rewrite (proj2 (Z.ltb_ge (ph_memsz h) (ph_filesz h))), (proj2 (Z.ltb_ge nsz (ph_vaddr h))) by lia.
  set (msz := Z.max sz nsz) in *. assert (Hm : 0 < msz < KERNBASE) by lia. pose proof (PGROUNDUP_bounds sz ltac:(lia)) as B1. pose proof (PGROUNDUP_bounds msz ltac:(lia)) as B2.
  wpb. apply (wp_build_alloc cur s0 l0 d (PGROUNDUP sz) img s1 l sz nsz); [apply H1|done|lia|lia| |].
  { pose proof (add_seg_mono (headers n (off + PROGHDR)) (msz, img')) as Hmono. simpl in Hmono. fold msz. etransitivity; [|exact Hroom]. apply Z.div_le_mono; lia. }
  fold msz. intros s2 l2 F2 Hb2 _ _. rewrite (proj2 (Z.eqb_neq msz 0)) by lia. rewrite G7, Z.eqb_refl. cbn [negb]. destruct (mframe_rest _ _ F2) as [R1 R2].
  pose proof (loading_mem _ _ _ _ _ _ _ _ H1 R1 R2 Hb2) as H2.
  assert (H3 : loading (PGROUNDUP msz) img s2 l2).
  { apply (loading_img _ _ _ _ _ H2). intros v Hv. destruct (Z.ltb_spec v (PGROUNDUP sz)); [done|]. apply Hz. lia. }
  wpb. apply (wp_loaduvm (PGROUNDUP msz) img s2 l2); [done|lia|done|lia|lia|lia|lia|]. intros s3 l3 H4. change (0 <? 0) with false. cbv iota.
  apply (IH _ _ img' _ l3); try done; try lia. intros v Hv. unfold img', placed, inside. rewrite Hz by lia. zcases; simpl; lia || done.
Qed.
End loading.

(** ** The stack *)

(** The entry without the user's permission leads to the same page. *)
Lemma entry_no_user e : let e' := Z.land e (W32 - 1 - PTE_U) in 0 <= e' < W32 /\ present e' = present e /\ frame_of e' = frame_of e.
Proof.
  intros e'. split; [|split].
  - assert (E : e' = e' mod 2 ^ 32).
    { apply Z.bits_inj'. intros n Hn. destruct (Z_lt_dec n 32); [by rewrite Z.mod_pow2_bits_low|]. rewrite Z.mod_pow2_bits_high by lia. unfold e'. rewrite Z.land_spec.
      rewrite (Z.bits_above_log2 (W32 - 1 - PTE_U) n); [apply andb_false_r|done|change (Z.log2 (W32 - 1 - PTE_U)) with 31; lia]. }
    rewrite E. change W32 with (2 ^ 32). by apply Z.mod_pos_bound.
  - unfold present, e'. by rewrite <- Z.land_assoc.
  - unfold frame_of, PTE_ADDR, e'. by rewrite <- Z.land_assoc.
Qed.

Section stack.
Context (cur : nat) (pid : Z) (s0 : kstate) (l0 : list Z) (d : Z).
Abbreviation building := (building cur s0 l0 d).

Lemma wp_clearpteu sz img s l va (Q : unit -> kstate -> Prop) : building sz img s l -> 0 <= va < sz ->
  (forall m', let s' := set_mem m' s in building sz img s' l ->
    (forall w, 0 <= w < W32 -> w / PGSIZE <> va / PGSIZE -> pte m' d w = pte (k_mem s) d w) -> Z.land (pte m' d va) PTE_U = 0 -> Q tt s') ->
  wp (clearpteu d va) s Q.
Proof.
  intros Hb Hva HQ. pose proof Hb as [A B C D E F G H I J [K1 K2] M]. pose proof C as [C1 C2 C3]. destruct (us_page _ _ _ _ D va Hva) as (P1 & P2 & _). assert (Hw : KERNBASE < W32) by done.
  unfold clearpteu. wpb. apply (wp_walk_at [] (Some cur) s l d); [done|].
  destruct (present (pde (k_mem s) d (PDX va))) eqn:Hpd; [|by rewrite (pte_none _ _ _ Hpd) in P1].
  intros r Hr0. rewrite (proj2 (Z.eqb_neq r 0)) by done. unfold kload. wp1. assert (Er : load32 (k_mem s) r = pte (k_mem s) d va) by (unfold pte; by rewrite Hpd). rewrite Er.
  set (e := pte (k_mem s) d va) in *. set (e' := Z.land e (W32 - 1 - PTE_U)). destruct (entry_no_user e) as (N1 & N2 & N3). fold e' in N1, N2, N3.
  apply wp_modify. set (m' := store32 (k_mem s) r e'). pose proof (grows_store [] (Some cur) s l d va e' C ltac:(lia) N1 Hpd) as G3. fold r m' in G3.
  assert (Hpt : forall w, 0 <= w < W32 -> pte m' d w = if w / PGSIZE =? va / PGSIZE then e' else pte (k_mem s) d w) by (intros w Hww; exact (store_pte (km_end (k_kmem s)) l (k_mem s) d C3 va e' ltac:(lia) N1 Hpd w Hww)).
  assert (Hpd' : forall i, 0 <= i < 1024 -> pde m' d i = pde (k_mem s) d i) by (intros i Hi; exact (store_pde (km_end (k_kmem s)) l (k_mem s) d C3 va e' Hpd i Hi)).
  assert (Hsame : forall w, 0 <= w < W32 -> present (pte m' d w) = present (pte (k_mem s) d w) /\ frame_of (pte m' d w) = frame_of (pte (k_mem s) d w)).
  { intros w Hww. rewrite Hpt by done. destruct (Z.eqb_spec (w / PGSIZE) (va / PGSIZE)) as [E1|]; [|done]. rewrite N2, N3. unfold e. by rewrite (pte_page (k_mem s) d w va) by (done || lia). }
  assert (Hu' : user_space (set_mem m' s) l d sz).
  { destruct D as [U1 U2 U3 U4]. split; simpl; [by apply (tables_ext (k_mem s))| | |].
    - intros v Hv. destruct (Hsame v ltac:(lia)) as [-> ->]. by apply U2.
    - intros v Hv. destruct (Hsame v ltac:(lia)) as [_ ->]. rewrite (table_page_ext (k_mem s) m' d Hpd'). by apply U3.
    - intros v v' Hv Hv'. destruct (Hsame v ltac:(lia)) as [_ ->]. destruct (Hsame v' ltac:(lia)) as [_ ->]. by apply U4. }
  apply (HQ m'); [|intros w Hww Hne; rewrite Hpt by done; by rewrite (proj2 (Z.eqb_neq _ _))|rewrite Hpt, Z.eqb_refl by lia; unfold e'; rewrite <- Z.land_assoc; by rewrite Z.land_0_r]. pose proof (gw_space _ _ _ _ _ _ _ G3) as S3. split; try done.
  - intros x Hx. simpl. rewrite (gw_mem _ _ _ _ _ _ _ G3); [by apply F|intros b Hb'; by apply Hx, G|]. intros b Hb'. apply Hx. by apply (suffix_elem l0 l).
  - intros b Hb'. apply G. by apply (table_page_ext (k_mem s) m' d Hpd').
  - intros v Hv. simpl. destruct (Hsame v ltac:(lia)) as [_ ->]. by apply H.
  - intros w Hww. simpl. destruct (Hsame w ltac:(lia)) as [-> _]. by apply I.
  - intros v Hv. simpl. rewrite <- J by done. destruct (us_page _ _ _ _ D v Hv) as (V1 & V2 & _). destruct (Hsame v ltac:(lia)) as [W1 W2]. pose proof (Z.mod_pos_bound v PGSIZE ltac:(done)) as Hm.
    rewrite !(user_mem_frame (km_end (k_kmem s))) by (rewrite ?W1, ?W2; done || apply C2). rewrite W2. apply (gw_mem _ _ _ _ _ _ _ G3).
    + intros b Hb' X. eapply page_disjoint; [exact V2|by apply C3| | |exact X]; [intros <-; by apply (us_table _ _ _ _ D v)|unfold in_page; lia].
    + intros b Hb' X. eapply page_disjoint; [exact V2|by apply C2| | |exact X]; [intros <-; by destruct (us_page _ _ _ _ D v Hv) as (_ & _ & Y)|unfold in_page; lia].
  - simpl. by rewrite (absent_ext (k_mem s) m' d Hpd').
Qed.

(** Where a string of [n] bytes goes below [sp], and the addresses of several, pushed one after the other. *)
Definition slot (sp n : Z) : Z := (sp - (n + 1)) / 4 * 4.

Fixpoint slots (lens : list Z) (sp : Z) : list Z :=
  match lens with
  | [] => []
  | n :: rest => slot sp n :: slots rest (slot sp n)
  end.

Fixpoint last_slot (lens : list Z) (sp : Z) : Z :=
  match lens with
  | [] => sp
  | n :: rest => last_slot rest (slot sp n)
  end.

Lemma slot_below sp n : slot sp n + n < sp.
Proof. unfold slot. pose proof (Z.mul_div_le (sp - (n + 1)) 4 ltac:(lia)). lia. Qed.

Lemma last_slot_le lens : forall sp, Forall (fun n => 0 <= n) lens -> last_slot lens sp <= sp.
Proof.
  induction lens as [|n lens IH]; intros sp H; simpl; [lia|]. apply Forall_cons in H as [Hn H]. pose proof (slot_below sp n). specialize (IH (slot sp n) H). lia.
Qed.

Lemma slot_mask sp n : 0 <= sp - (n + 1) < W32 -> Z.land (uint32 (sp - (n + 1))) (W32 - 4) = slot sp n.
Proof. intros H. rewrite uint32_small by done. exact (mask_low 2 _ ltac:(lia) H). Qed.

(** The argument at [a] is a string of [n] bytes in the memory of the process. *)
Definition user_arg (q : proc) (a n : Z) : Prop := strlen (Z.to_nat (mapped_end q - a)) (p_umem q) a = Some n.

Lemma user_arg_pos q argv lens : Forall2 (user_arg q) argv lens -> Forall (fun n => 0 <= n) lens.
Proof. induction 1 as [|a n argv lens Ha _ IH]; constructor; [|done]. apply strlen_spec in Ha as (H & _). lia. Qed.

(** The arguments are on the stack of the image, and their addresses in [ustack]. *)
Record pushed (q : proc) (argv lens : list Z) (argc sp : Z) (img : mem) (ustack : mem) (img' ustack' : mem) : Prop := mkPushed {
  ps_other : forall v, v < last_slot lens sp \/ sp <= v -> img' v = img v;
  ps_arg : forall i a n r, argv !! i = Some a -> lens !! i = Some n -> slots lens sp !! i = Some r -> forall j, 0 <= j <= n -> img' (r + j) = p_umem q (a + j);
  ps_word : forall i r, slots lens sp !! i = Some r -> load32 ustack' (4 * (3 + argc + Z.of_nat i)) = r;
  ps_old : forall x, x + 4 <= 4 * (3 + argc) -> load32 ustack' x = load32 ustack x
}.

(** One more argument in front. *)
Lemma pushed_cons q a n argv lens argc sp img ustack img' ustack' : 0 <= n -> Forall (fun n => 0 <= n) lens -> 0 <= slot sp n < W32 ->
  pushed q argv lens (argc + 1) (slot sp n) (fun v => if inside (slot sp n) (n + 1) v then p_umem q (a + (v - slot sp n)) else img v) (store32 ustack (4 * (3 + argc)) (slot sp n)) img' ustack' ->
  pushed q (a :: argv) (n :: lens) argc sp img ustack img' ustack'.
Proof.
  intros Hn Hpos Hr [A B C D]. pose proof (slot_below sp n) as Hb. pose proof (last_slot_le lens (slot sp n) Hpos) as Hl. split; simpl.
  - intros v Hv. rewrite A by lia. unfold inside. zcases; simpl; lia || done.
  - intros [|i] a' n' r; simpl; [|apply B]. intros [= <-] [= <-] [= <-] j Hj. rewrite A by lia. unfold inside. zcases; simpl; try lia. f_equal. lia.
  - intros [|i] r; simpl.
    + intros [= <-]. rewrite Z.add_0_r, D by lia. by apply load32_store32.
    + intros Hi. rewrite <- (C i r Hi). f_equal. lia.
  - intros x Hx. rewrite D by lia. apply load32_store32_ne. lia.
Qed.

Lemma wp_push_args argv : forall lens argc sp img ustack s l top (Q : option (Z * Z * mem) -> kstate -> Prop), building top img s l -> fs_ready cur pid s ->
  Forall2 (user_arg (proc_at s cur)) argv lens -> 0 <= argc -> argc + Z.of_nat (length argv) <= MAXARG -> 0 <= last_slot lens sp -> sp <= top ->
  (forall v, last_slot lens sp <= v < top -> Z.land (pte (k_mem s) d v) PTE_U <> 0) ->
  (forall m' img' ustack', let s' := set_mem m' s in building top img' s' l -> (forall w, pte m' d w = pte (k_mem s) d w) ->
    pushed (proc_at s cur) argv lens argc sp img ustack img' ustack' -> Q (Some (argc + Z.of_nat (length argv), last_slot lens sp, ustack')) s') ->
  wp (push_args argv d argc sp ustack) s Q.
Proof.
  induction argv as [|a argv IH]; intros lens argc sp img ustack s l top Q Hb Hr Hargs Hc Hmax H0 Hsp Hus HQ; cbn [push_args].
  { apply Forall2_nil_inv_l in Hargs as ->. apply wp_ret. replace s with (set_mem (k_mem s) s) by (by destruct s). simpl. rewrite Z.add_0_r in HQ.
    apply (HQ (k_mem s) img ustack); [by destruct s|done|]. split; done. }
  apply Forall2_cons_inv_l in Hargs as (n & lens' & Ha & Hargs & ->). pose proof (user_arg_pos _ _ _ Hargs) as Hpos. simpl in H0, Hus, Hmax.
  assert (Hn : 0 <= n) by (apply strlen_spec in Ha as (H & _); lia). pose proof (slot_below sp n) as Hsl. pose proof (last_slot_le lens' (slot sp n) Hpos) as Hll.
  pose proof (bl_sz _ _ _ _ _ _ _ _ Hb) as [Htop _]. assert (Hw : KERNBASE < W32) by done.
  rewrite Z.geb_leb, (proj2 (Z.leb_gt _ _)) by lia. wpb. unfold user_strlen. apply (wp_user_proc_bind cur pid); [done|]. rewrite Ha. apply wp_ret.
  apply (wp_user_proc_bind cur pid); [done|]. assert (Hd : slot sp n <= sp - (n + 1)) by (pose proof (Z.mul_div_le (sp - (n + 1)) 4 ltac:(lia)); unfold slot; lia).
  cbv zeta. rewrite slot_mask by lia. wpb.
  apply (wp_build_copyout cur s0 l0 d top img s l); [done|lia|lia|lia|intros v Hv; apply Hus; lia|]. intros m1 s1 Hp1 Hb1. change (0 <? 0) with false. cbv iota.
  apply (IH lens' (argc + 1) (slot sp n) (fun v => if inside (slot sp n) (n + 1) v then p_umem (proc_at s cur) (a + (v - slot sp n)) else img v) _ s1 l top); try done; try lia.
  - split; [apply Hb1|apply Hr].
  - intros v Hv. unfold s1. simpl. rewrite Hp1. by apply Hus.
  - intros m' img' ustack' s' Hb' Hp' Hpu. replace (argc + 1 + Z.of_nat (length argv)) with (argc + Z.of_nat (length (a :: argv))) by (simpl; lia).
    apply (HQ m' img' ustack'); [done|intros w; rewrite Hp'; by apply Hp1|]. apply pushed_cons; [done|done|lia|exact Hpu].
Qed.
End stack.

(** What a program finds on its stack: [argc], [argv] and the strings. *)
Record stack_holds (q : proc) (argv lens : list Z) (um : mem) (esp : Z) : Prop := mkStackHolds {
  sh_return : load32 um esp = 4294967295;
  sh_argc : load32 um (esp + 4) = Z.of_nat (length argv);
  sh_argv : load32 um (esp + 8) = esp + 12;
  sh_arg : forall i a n, argv !! i = Some a -> lens !! i = Some n -> forall j, 0 <= j <= n -> um (load32 um (esp + 12 + 4 * Z.of_nat i) + j) = p_umem q (a + j);
  sh_null : load32 um (esp + 12 + 4 * Z.of_nat (length argv)) = 0
}.

Lemma load32_shift m m' a b : (forall j, 0 <= j < 4 -> m' (a + j) = m (b + j)) -> load32 m' a = load32 m b.
Proof. intros H. unfold load32. pose proof (H 0 ltac:(lia)) as H0. rewrite !Z.add_0_r in H0. by rewrite H0, !H by lia. Qed.

Lemma slots_length lens : forall sp, length (slots lens sp) = length lens.
Proof. induction lens as [|n lens IH]; intros sp; simpl; [done|]. by rewrite IH. Qed.

Lemma slots_range lens : forall sp i n r, Forall (fun n => 0 <= n) lens -> lens !! i = Some n -> slots lens sp !! i = Some r -> last_slot lens sp <= r /\ r + n < sp.
Proof.
  induction lens as [|n0 lens IH]; intros sp i n r Hp Hn Hr; [done|]. apply Forall_cons in Hp as [H0 Hp]. pose proof (slot_below sp n0) as Hb. destruct i as [|i]; simpl in *.
  - injection Hn as <-. injection Hr as <-. pose proof (last_slot_le lens (slot sp n0) Hp). lia.
  - destruct (IH _ _ _ _ Hp Hn Hr). lia.
Qed.

(** The words of [exec] below the strings. *)
Section words.
Context (q : proc) (argv lens : list Z) (top : Z) (img img2 us0 us : mem) (Hargs : Forall2 (user_arg q) argv lens) (P : pushed q argv lens 0 top img us0 img2 us).
Let argc := Z.of_nat (length argv).
Let sp := last_slot lens top.
Let esp := sp - (3 + argc + 1) * 4.
Let us1 := store32 (store32 (store32 (store32 us (4 * (3 + argc)) 0) 0 4294967295) 4 argc) 8 (sp - (argc + 1) * 4).
Let img3 : mem := fun v => if inside esp ((3 + argc + 1) * 4) v then us1 (0 + (v - esp)) else img2 v.
Context (Hesp : 0 <= esp) (Htop : top < W32) (Hmax : argc <= MAXARG).

Lemma stack_word k : 0 <= k <= 3 + argc -> load32 img3 (esp + 4 * k) = load32 us1 (4 * k).
Proof. intros Hk. apply load32_shift. intros j Hj. unfold img3, inside. zcases; simpl; try lia. f_equal. lia. Qed.

Lemma stack_addr i n : lens !! i = Some n -> exists r, slots lens top !! i = Some r /\ load32 img3 (esp + 12 + 4 * Z.of_nat i) = r /\ sp <= r /\ r + n < top.
Proof.
  intros Hn. pose proof (user_arg_pos _ _ _ Hargs) as Hpos. assert (Hi : (i < length lens)%nat) by (by apply lookup_lt_Some in Hn). pose proof (Forall2_length _ _ _ Hargs) as El.
  destruct (lookup_lt_is_Some_2 (slots lens top) i) as [r Hr]; [by rewrite slots_length|]. exists r. split; [done|]. split; [|by apply (slots_range lens top i)].
  replace (esp + 12 + 4 * Z.of_nat i) with (esp + 4 * (3 + Z.of_nat i)) by lia. rewrite stack_word by (unfold argc; lia). unfold us1.
  rewrite !load32_store32_ne by (unfold argc; lia). pose proof (ps_word _ _ _ _ _ _ _ _ _ P i r Hr) as Ew. by rewrite Z.add_0_r in Ew.
Qed.

Lemma stack_built : stack_holds q argv lens img3 esp /\ (forall v, v < esp \/ top <= v -> img3 v = img v).
Proof.
  pose proof (user_arg_pos _ _ _ Hargs) as Hpos. pose proof (last_slot_le lens top Hpos) as Hle. fold sp in Hle. assert (Hac : 0 <= argc) by (unfold argc; lia). assert (Hm : MAXARG = 32) by done.
  split; [split|].
  - pose proof (stack_word 0 ltac:(lia)) as E. rewrite Z.add_0_r in E. rewrite E. unfold us1. rewrite !load32_store32_ne by lia. by apply load32_store32.
  - change (esp + 4) with (esp + 4 * 1). rewrite stack_word by lia. change (4 * 1) with 4. unfold us1. rewrite load32_store32_ne by lia. apply load32_store32. unfold W32. fold argc. lia.
  - change (esp + 8) with (esp + 4 * 2). rewrite stack_word by lia. change (4 * 2) with 8. unfold us1. rewrite load32_store32 by lia. unfold esp. lia.
  - intros i a n Ha Hn j Hj. destruct (stack_addr i n Hn) as (r & Hr & -> & R1 & R2).
    unfold img3, inside. zcases; simpl; try (unfold esp in *; lia); by apply (ps_arg _ _ _ _ _ _ _ _ _ P i a n r).
  - replace (esp + 12 + 4 * Z.of_nat (length argv)) with (esp + 4 * (3 + argc)) by (unfold argc; lia). rewrite stack_word by lia. unfold us1. rewrite !load32_store32_ne by lia. by apply load32_store32.
  - intros v Hv. unfold img3, inside. zcases; simpl; try (unfold esp in *; lia); apply (ps_other _ _ _ _ _ _ _ _ _ P); fold sp; unfold esp in *; lia.
Qed.
End words.

Lemma stack_holds_ext q argv lens um um' esp lo hi : stack_holds q argv lens um esp -> (forall v, lo <= v < hi -> um' v = um v) -> lo <= esp -> esp + 12 + 4 * Z.of_nat (length argv) + 4 <= hi ->
  (forall i a n, argv !! i = Some a -> lens !! i = Some n -> lo <= load32 um (esp + 12 + 4 * Z.of_nat i) /\ load32 um (esp + 12 + 4 * Z.of_nat i) + n < hi) -> stack_holds q argv lens um' esp.
Proof.
  intros [A B C D E] He Hlo Hhi Hin. assert (Hw : forall a, lo <= a -> a + 4 <= hi -> load32 um' a = load32 um a) by (intros a H1 H2; apply load32_ext; intros x Hx; apply He; lia).
  split; try (rewrite Hw by lia; done). intros i a n Ha Hn j Hj. pose proof (lookup_lt_Some _ _ _ Ha). rewrite Hw by lia. destruct (Hin i a n Ha Hn). rewrite He by lia. by apply (D i a n).
Qed.

(** ** The old and the new address space *)

Section swap.
Context (cur : nat) (s0 : kstate) (l0 : list Z) (d old : Z) (Hf0 : free_pages s0 l0).
Context (Ht0 : tables (km_end (k_kmem s0)) l0 (k_mem s0) old) (Ho0 : owned s0 l0 old).

(** The building leaves the old address space alone. *)
Lemma old_kept sz img s l : building cur s0 l0 d sz img s l ->
  space [] (Some cur) s l old /\ owned s l old /\ (forall b, page_of (k_mem s) old b <-> page_of (k_mem s0) old b).
Proof.
  intros [A B [C1 C2 C3] D E F G H I J K M].
  assert (Hm : forall b x, table_page (k_mem s0) old b -> in_page b x -> k_mem s x = k_mem s0 x).
  { intros b x Hb Hx. destruct (tb_page _ _ _ _ Ht0 b Hb) as [P1 P2]. apply F. intros a Ha. eapply page_disjoint; [exact P1|by apply Hf0|by intros ->|done]. }
  assert (Hd : forall i, 0 <= i < 1024 -> pde (k_mem s) old i = pde (k_mem s0) old i) by (intros i Hi; apply pde_ext; [done|]; intros x; apply Hm; by left).
  assert (Hv : forall v, pte (k_mem s) old v = pte (k_mem s0) old v) by (intros v; by apply pte_ext).
  assert (Hsub : forall b, b ∈ l -> b ∈ l0) by (intros b; by apply suffix_elem).
  split; [split; [done|done|]|split].
  - rewrite B. apply (tables_ext (k_mem s0)); [done|]. apply (tables_sub _ l0); [done|]. intros b Hb. left. by apply Hsub.
  - destruct Ho0 as [O1 O2 O3]. split; [by rewrite B| |intros v v'; rewrite !Hv; apply O3]. intros v. rewrite Hv, B, (table_page_ext (k_mem s0) (k_mem s) old Hd). intros H1 H2.
    destruct (O2 v H1 H2) as (P1 & P2 & P3). split; [done|]. split; [|done]. intros X. by apply P2, Hsub.
  - intros b. by apply page_of_kept.
Qed.

Lemma old_not_free b : page_of (k_mem s0) old b -> b ∉ l0.
Proof.
  intros [Hb|(v & Hv & Hp & ->)]; [by apply (tb_page _ _ _ _ Ht0)|]. by destruct (ow_page _ _ _ Ho0 v Hv Hp) as (_ & X & _).
Qed.

(** Giving back the old pages leaves the new address space alone. *)
Lemma new_kept sz img s l s' l' : building cur s0 l0 d sz img s l -> km_end (k_kmem s') = km_end (k_kmem s) -> free_pages s' l' ->
  (forall b, b ∈ l' <-> b ∈ l \/ page_of (k_mem s0) old b) -> (forall x, (forall b, b ∈ l' -> ~ in_page b x) -> k_mem s' x = k_mem s x) ->
  user_space s' l' d sz /\ (forall v, 0 <= v < sz -> user_mem (k_mem s') d v = img v) /\ (forall w, pte (k_mem s') d w = pte (k_mem s) d w).
Proof.
  intros [A B [C1 C2 C3] D E F G H I J K M] Ee Hf' Hl Hmem.
  assert (Hn : forall b, b ∈ l0 -> (b ∉ l) -> b ∉ l') by (intros b H1 H2; rewrite Hl; intros [X|X]; [done|by apply (old_not_free b)]).
  assert (Hpg : forall b x, page_ok (km_end (k_kmem s)) b -> (b ∉ l') -> in_page b x -> k_mem s' x = k_mem s x).
  { intros b x Hb Hbl Hx. apply Hmem. intros a Ha. eapply page_disjoint; [exact Hb|rewrite <- Ee; by apply Hf'|by intros ->|done]. }
  assert (Htb : forall b, table_page (k_mem s) d b -> page_ok (km_end (k_kmem s)) b /\ (b ∉ l')) by (intros b Hb; destruct (tb_page _ _ _ _ C3 b Hb); split; [done|]; apply Hn; [by apply G|done]).
  assert (Hm : forall b x, table_page (k_mem s) d b -> in_page b x -> k_mem s' x = k_mem s x) by (intros b x Hb; apply Hpg; by apply Htb).
  assert (Hd : forall i, 0 <= i < 1024 -> pde (k_mem s') d i = pde (k_mem s) d i) by (intros i Hi; apply pde_ext; [done|]; intros x; apply Hm; by left).
  assert (Hv : forall v, pte (k_mem s') d v = pte (k_mem s) d v) by (intros v; by apply pte_ext).
  destruct D as [D1 D2 D3 D4]. split; [split; rewrite ?Ee|split; [|done]].
  - apply (tables_ext (k_mem s)); [done|]. destruct C3 as [T1 T2 T3]. split; [|done..]. exact Htb.
  - intros v Hx. rewrite Hv. destruct (D2 v Hx) as (P1 & P2 & P3). split; [done|]. split; [done|]. apply Hn; [by apply H|done].
  - intros v Hx. rewrite Hv, (table_page_ext (k_mem s) (k_mem s') d Hd). by apply D3.
  - intros v v' Hx Hx'. rewrite !Hv. by apply D4.
  - intros v Hx. rewrite <- J by done. destruct (D2 v Hx) as (P1 & P2 & P3). pose proof (Z.mod_pos_bound v PGSIZE ltac:(done)) as Hmod.
    rewrite !(user_mem_frame (km_end (k_kmem s))) by (rewrite ?Hv; done || apply C2). rewrite Hv. apply (Hpg (frame_of (pte (k_mem s) d v))); [done|apply Hn; [by apply H|done]|unfold in_page; lia].
Qed.

(** The end of the image and of the stack above it. *)
Definition stack_top (sz : Z) : Z := PGROUNDUP sz + 2 * PGSIZE.

(** The process [cur], which was [q] in the state [s], is about to run the program in the state [s']. *)
Record started (q : proc) (path argv lens : list Z) (sz entry : Z) (img : mem) (s s' : kstate) : Prop := mkStarted {
  sd_proc : exists um esp, proc_at s' cur = proc_umem um (proc_tf (tf_set_entry entry esp (p_tf q)) (proc_sz (stack_top sz) (proc_pgdir d
      (proc_name (safestrcpy (p_name q) 0 (bytes_mem (last_elem path path)) 0 16) q)))) /\
    (forall v, 0 <= v < PGROUNDUP sz -> um v = img v) /\ stack_holds q argv lens um esp /\ stack_top sz - PGSIZE <= esp /\
    (forall v, 0 <= v < stack_top sz -> user_mem (k_mem s') d v = um v);
  sd_others : forall j, j <> cur -> proc_at s' j = proc_at s j;
  sd_fs : k_fs s' = k_fs s;
  sd_cr3 : vm_cr3 (k_vm s') = V2P d;
  sd_cpu : on_cpu [] (Some cur) (k_core s');
  sd_guard : Z.land (pte (k_mem s') d (PGROUNDUP sz)) PTE_U = 0;
  sd_pages : exists l', free_pages s' l' /\ user_space s' l' d (stack_top sz) /\ forall b, page_of (k_mem s0) old b -> b ∈ l'
}.

(** The part of [exec_stack] that cannot fail any more. *)
Lemma wp_commit pid q path argv lens sz entry esp img img3 s l : building cur s0 l0 d (stack_top sz) img3 s l -> fs_ready cur pid s -> proc_at s cur = q -> p_pgdir q = old -> p_kstack q <> 0 -> d <> 0 ->
  (forall v, 0 <= v < PGROUNDUP sz -> img3 v = img v) -> (forall um, (forall v, 0 <= v < stack_top sz -> um v = img3 v) -> stack_holds q argv lens um esp) -> stack_top sz - PGSIZE <= esp ->
  0 <= sz <= KERNBASE -> stack_top sz <= KERNBASE -> Z.land (pte (k_mem s) d (PGROUNDUP sz)) PTE_U = 0 ->
  wp (upd_proc cur (fun r => proc_name (safestrcpy (p_name r) 0 (bytes_mem (last_elem path path)) 0 16) r);;
      oldpgdir ← gets (fun s => p_pgdir (proc_at s cur));
      upd_proc cur (fun r => proc_tf (tf_set_entry entry esp (p_tf r)) (proc_sz (stack_top sz) (proc_pgdir d r)));;
      load_user cur;; switchuvm (Some cur);; freevm oldpgdir;; mret 0) s (fun r s' => r = 0 /\ started q path argv lens sz entry img s s').
Proof.
  intros Hb Hr Eq Eo Hk Hd Hi Hst Hesp Hsz Htop Hg. pose proof (PGROUNDUP_bounds sz ltac:(unfold KERNBASE, W32, PGSIZE, stack_top in *; lia)) as Br.
  unfold upd_proc, load_user, upd_proc. apply wp_modify_bind, wp_gets_bind, wp_modify_bind. wpb. apply wp_gets_bind, wp_modify. rewrite !proc_set_eq, Eq.
  cbn [p_pgdir proc_name proc_tf proc_sz proc_pgdir p_tf p_name]. rewrite Eo.
  set (nm := safestrcpy (p_name q) 0 (bytes_mem (last_elem path path)) 0 16). match goal with |- context [user_mem ?mm d] => change mm with (k_mem s) end. set (um := user_mem (k_mem s) d).
  set (r' := proc_umem um _). match goal with |- wp _ ?st _ => set (s3 := st) end. assert (P3 : proc_at s3 cur = r') by (unfold s3; by rewrite proc_set_eq).
  wpb. apply (wp_switchuvm [] (Some cur)); [apply Hr|by rewrite P3|by rewrite P3|]. intros c4 H4. rewrite P3. change (p_pgdir r') with d. set (s4 := set_core c4 _).
  assert (Em4 : k_mem s4 = k_mem s /\ k_kmem s4 = k_kmem s) by done. destruct Em4 as [Em4 Ek4]. destruct (old_kept _ _ _ _ Hb) as ([_ O2 O3] & O4 & O5).
  wpb. apply (wp_freevm [] (Some cur) ltac:(by apply not_elem_of_nil) s4 l old); [split; [exact H4|by destruct O2; split; rewrite ?Em4, ?Ek4|by rewrite Em4, Ek4]|by destruct O4; split; rewrite ?Em4, ?Ek4|].
  intros s5 l5 F5 C5 P5 L5 M5. apply wp_ret. rewrite Em4 in L5, M5. setoid_rewrite O5 in L5.
  destruct (new_kept _ _ _ _ s5 l5 Hb) as (N1 & N2 & N3); [by rewrite (mf_end _ _ F5), Ek4|done|done|done|].
  assert (Hum : forall v, 0 <= v < stack_top sz -> um v = img3 v) by (intros v Hv; by apply (bl_img _ _ _ _ _ _ _ _ Hb)).
  assert (T5 : k_ptab s5 = k_ptab s3) by (rewrite (mf_rest _ _ F5); done). split; [done|]. split.
  - exists um, esp. split; [unfold proc_at; rewrite T5; exact P3|]. split; [intros v Hv; rewrite Hum by (unfold stack_top, PGSIZE; lia); by apply Hi|]. split; [by apply Hst|]. split; [done|].
    intros v Hv. rewrite N2, Hum by done. done.
  - intros j Hj. unfold proc_at. rewrite T5. unfold s3. simpl. by rewrite !fn_insert_ne.
  - rewrite (mf_rest _ _ F5). done.
  - rewrite (mf_rest _ _ F5). done.
  - done.
  - rewrite N3. exact Hg.
  - exists l5. split; [done|]. split; [done|]. intros b Hb'. apply L5. by right.
Qed.

Lemma started_from q path argv lens sz entry img s1 s s' : started q path argv lens sz entry img s1 s' -> k_fs s1 = k_fs s -> k_ptab s1 = k_ptab s -> started q path argv lens sz entry img s s'.
Proof. intros [A B C D E F G] Ef Ep. split; try done; [|by rewrite C]. intros j Hj. rewrite B by done. unfold proc_at. by rewrite Ep. Qed.

Lemma round_page a : 0 <= a <= KERNBASE -> a mod PGSIZE = 0 -> PGROUNDUP a = a.
Proof.
  intros Ha Hm. rewrite PGROUNDUP_div by (unfold KERNBASE, W32, PGSIZE in *; lia). apply Z.mod_divide in Hm as [q ->]; [|done].
  replace (q * PGSIZE + PGSIZE - 1) with (PGSIZE - 1 + q * PGSIZE) by lia. rewrite Z.div_add by done. rewrite Z.div_small by (unfold PGSIZE; lia). lia.
Qed.

Lemma user_flags e : PTE_FLAGS e = Z.lor (Z.lor PTE_W PTE_U) PTE_P -> Z.land e PTE_U <> 0.
Proof. unfold PTE_FLAGS. intros H. replace (Z.land e PTE_U) with (Z.land (Z.land e (PGSIZE - 1)) PTE_U) by (by rewrite <- Z.land_assoc). by rewrite H. Qed.

(** The strings and the words fit the page of the stack. *)
Definition stack_fits (argv lens : list Z) (top : Z) : Prop :=
  Z.of_nat (length argv) <= MAXARG /\ top - PGSIZE <= last_slot lens top - (3 + Z.of_nat (length argv) + 1) * 4.

Lemma wp_exec_stack pid q path argv lens sz entry img s l : building cur s0 l0 d (PGROUNDUP sz) img s l -> fs_ready cur pid s -> proc_at s cur = q -> p_pgdir q = old -> p_kstack q <> 0 -> d <> 0 ->
  0 <= sz <= KERNBASE -> stack_top sz < KERNBASE -> (stack_top sz + PGSIZE - 1) / PGSIZE <= Z.of_nat (length l0) - 1025 ->
  Forall2 (user_arg q) argv lens -> stack_fits argv lens (stack_top sz) ->
  wp (exec_stack cur path argv d sz entry) s (fun r s' => r = 0 /\ started q path argv lens sz entry img s s').
Proof.
  intros Hb Hr Eq Eo Hk Hd Hsz Htop Hroom Hargs [Hmax Hfit]. assert (Hpz : PGSIZE = 4096) by done. assert (Hw : KERNBASE < W32 - PGSIZE) by done.
  pose proof (bl_sz _ _ _ _ _ _ _ _ Hb) as [Hr1 Hr2]. set (a := PGROUNDUP sz) in *. set (top := stack_top sz) in *. assert (Et : top = a + 2 * PGSIZE) by done. assert (Htm : top mod PGSIZE = 0) by (rewrite Et, Z.mod_add; done).
  pose proof (user_arg_pos _ _ _ Hargs) as Hpos. pose proof (last_slot_le lens top Hpos) as Hls. set (argc := Z.of_nat (length argv)) in *. set (sp := last_slot lens top) in *.
  unfold exec_stack. fold a. rewrite uint32_small by lia. rewrite <- Et. wpb.
  apply (wp_build_alloc cur s0 l0 d a img s l a top); [done|by apply round_page|lia|lia|replace (Z.max a top) with top by lia; done|].
  replace (Z.max a top) with top by lia. rewrite (round_page top) by (done || lia). intros s1 l1 F1 Hb1 _ Hfl. destruct (mframe_rest _ _ F1) as [R1 R2]. set (img1 := fun v => if v <? a then img v else 0) in *.
  rewrite (proj2 (Z.eqb_neq top 0)) by lia. rewrite uint32_small by lia. replace (top - 2 * PGSIZE) with a by lia. wpb.
  apply (wp_clearpteu cur s0 l0 d top img1 s1 l1 a); [done|lia|]. intros m2 s2 Hb2 Hp2 Hg2. wpb.
  assert (Hpr : forall m, proc_at (set_mem m s1) cur = q) by (intros mm; unfold proc_at; simpl; by rewrite R2).
  assert (Hus : forall v, top - PGSIZE <= v < top -> Z.land (pte m2 d v) PTE_U <> 0).
  { intros v Hv. rewrite Hp2; [apply user_flags, Hfl; lia|lia|]. assert (a / PGSIZE < v / PGSIZE); [|lia]. apply Z.mod_divide in Hr2 as [z ->]; [|done]. rewrite Z.div_mul by done. apply Z.le_succ_l, Z.div_le_lower_bound; lia. }
  apply (wp_push_args cur pid s0 l0 d argv lens 0 top img1 (fun _ => 0) s2 l1 top); try done; try lia.
  - split; [apply Hb2|]. unfold s2. rewrite Hpr. rewrite <- Eq. apply Hr.
  - unfold s2. by rewrite Hpr.
  - intros v Hv. apply Hus. fold sp in Hv. lia.
  - intros m3 img3 us s3 Hb3 Hp3 P3. unfold s2 in P3. rewrite Hpr in P3. cbv beta iota. fold argc sp. rewrite Z.add_0_l. cbv zeta. rewrite !uint32_small by lia.
    set (esp := sp - (3 + argc + 1) * 4). wpb.
    destruct (stack_built q argv lens top img1 img3 (fun _ => 0) us Hargs P3 ltac:(fold argc sp; lia) ltac:(lia) ltac:(done)) as [B1 B2]. pose proof (stack_addr q argv lens top img1 img3 (fun _ => 0) us Hargs P3) as B3. fold argc sp esp in B1, B2, B3.
    apply (wp_build_copyout cur s0 l0 d top img3 s3 l1); [done|lia|lia|lia|intros v Hv; unfold s3; simpl; rewrite Hp3; apply Hus; lia|].
    intros m4 s4 Hp4 Hb4. change (0 <? 0) with false. cbv iota. set (img4 := fun v => if inside esp _ v then _ else _) in *.
    assert (P4 : proc_at s4 cur = q) by (unfold proc_at, s4, s3, s2; simpl; by rewrite R2). assert (R4 : fs_ready cur pid s4) by (split; [apply Hb4|rewrite P4, <- Eq; apply Hr]).
    eapply wp_mono; [|apply (wp_commit pid q path argv lens sz entry esp img img4 s4 l1)]; try done; try lia.
    + intros r s' [-> Hst]. split; [done|]. apply (started_from q path argv lens sz entry img s4); [done|by unfold s4, s3, s2; simpl; rewrite R1|by unfold s4, s3, s2; simpl; rewrite R2].
    + intros v Hv. etransitivity; [apply B2; lia|]. unfold img1. by rewrite (proj2 (Z.ltb_lt v a)) by lia.
    + intros um Hum. apply (stack_holds_ext q argv lens img4 um esp 0 top); [done|done|lia|fold argc; lia|]. intros i a' n Ha Hn. destruct (B3 i n Hn) as (r & _ & -> & X1 & X2). lia.
    + change (k_mem s4) with m4. rewrite Hp4. change (k_mem s3) with m3. rewrite Hp3. exact Hg2.
Qed.
End swap.

(** ** exec *)

Lemma wp_fs {A} cur pid (g : K A) s (Q : A -> fsst -> Prop) (Q' : A -> kstate -> Prop) : fs_ready cur pid s -> fwp cur pid g s Q ->
  (forall a s', frame s s' -> fs_ready cur pid s' -> Q a (k_fs s') -> Q' a s') -> wp g s Q'.
Proof. intros Hr Hw HQ. eapply wp_mono; [|by apply Hw]. intros a s' (H1 & H2 & H3). by apply HQ. Qed.

Lemma frame_same s s' : frame s s' -> k_mem s' = k_mem s /\ k_kmem s' = k_kmem s /\ k_vm s' = k_vm s /\ only_woken (k_ptab s) (k_ptab s').
Proof. intros [H1 E]. rewrite E. done. Qed.

Lemma woken_running t t' i : only_woken t t' -> p_state (procs t i) = RUNNING -> procs t' i = procs t i.
Proof. intros [H _ _] Hr. destruct (H i) as [E|[E _]]; [done|congruence]. Qed.

(** No transaction is open, and the blocks and the reference counts are those of [f]. *)
Record left_as (f f' : fsst) : Prop := mkLeftAs {
  la_idle : idle f';
  la_blocks : forall b, ~ in_log (fs_log f) b -> content f' b = content f b;
  la_refs : forall j, i_ref (fs_inode f' j) = i_ref (fs_inode f j)
}.

Section exec.
Context (cur : nat) (pid k : Z) (fs0 : fsst) (T : Z -> Prop) (Hla : layout fs0) (HT : tree_ok fs0 T) (Hbase : forall i, (i < NINODE)%nat -> 0 <= i_ref (fs_inode fs0 i)).
Context (dv : devsw) (m : Z) (Hty : i_type (dnode fs0 m) = T_FILE) (Hok : file_ok fs0 (dnode fs0 m)).
Let file := fbyte fs0 (dnode fs0 m).
Let size := i_size (dnode fs0 m).

(** The program headers of the file, and the size and the bytes of the image they describe. *)
Definition prog_headers : list mem := headers fs0 m (Z.to_nat (elf_phnum file)) (elf_phoff file).
Definition image : Z * mem := foldl (add_seg fs0 m) (0, fun _ => 0) prog_headers.

Record elf_file : Prop := mkElfFile {
  ef_size : ELFHDR <= size;
  ef_magic : elf_magic file = ELF_MAGIC;
  ef_headers : 0 <= elf_phoff file /\ 0 <= elf_phnum file /\ elf_phoff file + PROGHDR * elf_phnum file <= size;
  ef_segs : Forall (fun h => ph_type h = ELF_PROG_LOAD -> good_seg fs0 m h) prog_headers
}.

Lemma elf_fields md : (forall a, 0 <= a < ELFHDR -> md a = file a) ->
  elf_magic md = elf_magic file /\ elf_phoff md = elf_phoff file /\ elf_phnum md = elf_phnum file /\ elf_entry md = elf_entry file.
Proof.
  intros H. split_and!; try (apply load32_ext; intros x Hx; apply H; unfold ELFHDR; lia). unfold elf_phnum, load16. by rewrite !H by (unfold ELFHDR; lia).
Qed.

Lemma add_seg_range hs : Forall (fun h => ph_type h = ELF_PROG_LOAD -> good_seg fs0 m h) hs -> forall p, 0 <= p.1 < KERNBASE -> 0 <= (foldl (add_seg fs0 m) p hs).1 < KERNBASE.
Proof.
  intros Hg. induction Hg as [|h hs H _ IH]; intros p Hp; [done|]. simpl. apply IH. unfold add_seg. destruct (Z.eqb_spec (ph_type h) ELF_PROG_LOAD) as [E|]; [|done].
  destruct (H E) as [_ (_ & _ & G) _]. simpl. lia.
Qed.

(** From the new address space on. *)
Lemma wp_exec_build ip path argv lens entry q s l (Q : Z -> kstate -> Prop) : elf_file -> walking pid k fs0 T [(ip, m)] (Some ip) (k_fs s) -> fs_ready cur pid s -> free_pages s l -> data_ok (vm_data (k_vm s)) ->
  lg_committing (fs_log fs0) = false -> lg_outstanding (fs_log fs0) = 1 -> d_size (fs_disk fs0) <= 2147483648 -> LOGSIZE <= lg_size (fs_log fs0) ->
  proc_at s cur = q -> p_state q = RUNNING -> tables (km_end (k_kmem s)) l (k_mem s) (p_pgdir q) -> owned s l (p_pgdir q) -> p_kstack q <> 0 ->
  stack_top image.1 < KERNBASE -> (stack_top image.1 + PGSIZE - 1) / PGSIZE <= Z.of_nat (length l) - 1025 -> Forall2 (user_arg q) argv lens -> stack_fits argv lens (stack_top image.1) ->
  (forall d s1 s', started cur s d (p_pgdir q) q path argv lens image.1 entry image.2 s1 s' -> only_woken (k_ptab s) (k_ptab s1) -> left_as fs0 (k_fs s1) -> Q 0 s') ->
  wp (pgdir ← setupkvm;
      if pgdir =? 0 then exec_bad 0 (Some ip)
      else
        sz ← load_segments (Z.to_nat (elf_phnum file)) dv pgdir ip (elf_phoff file) 0;
        match sz with
        | None => exec_bad pgdir (Some ip)
        | Some sz => iunlockput ip;; end_op;; exec_stack cur path argv pgdir sz entry
        end) s Q.
Proof.
  intros [E1 E2 (E3 & E4 & E5) E6] W Hr Hf Hd Hc1 Hc2 Hc3 Hc4 Eq Hrun Ht0 Ho0 Hk Htop Hroom Hargs Hfit HQ.
  wpb. apply (wp_build_start cur s l); [apply Hr|done| |done|].
  { assert (0 <= (stack_top image.1 + PGSIZE - 1) / PGSIZE); [|lia]. apply Z.div_pos; [|done]. unfold stack_top.
    assert (0 <= PGROUNDUP image.1) by (unfold PGROUNDUP; apply Z.land_nonneg; right; done). unfold PGSIZE. lia. }
  intros d s1 l1 Hd0 F1 B1. rewrite (proj2 (Z.eqb_neq d 0)) by done. destruct (mframe_rest _ _ F1) as [R1 R2].
  assert (H1 : loading cur pid k fs0 T ip m s l d (PGROUNDUP 0) (fun _ => 0) s1 l1).
  { split; [done|by rewrite R1|split; [apply B1|unfold proc_at; rewrite R2; apply Hr]|by rewrite R2]. }
  wpb. apply (wp_load_segments cur pid k fs0 T Hla Hbase dv ip m Hty Hok s l d _ _ 0 (fun _ => 0) s1 l1); [done|by unfold KERNBASE|done|done|by rewrite Z2Nat.id by lia|done|..];
    change (foldl _ _ _) with image.
  { etransitivity; [|exact Hroom]. apply Z.div_le_mono; [done|]. pose proof (add_seg_range _ E6 (0, fun _ => 0) ltac:(done)) as Hi. fold image in Hi. pose proof (PGROUNDUP_bounds image.1 ltac:(unfold KERNBASE, W32, PGSIZE in *; lia)). unfold stack_top, PGSIZE. lia. }
  intros s2 l2 sz img Ei H2 Hsz Hz. rewrite Ei in *. simpl fst in *. simpl snd in *. destruct H2 as [B2 W2 R2' K2].
  wpb. apply (wp_fs cur pid _ _ (fun _ f => walking pid k fs0 T [] None f)); [exact R2'|eapply (walk_iunlockput cur pid k fs0 T Hla HT Hbase []); [exact W2|done]|].
  intros [] s3 F3 R3 W3. destruct (frame_same _ _ F3) as (M3 & N3 & V3 & K3). pose proof (wk_still _ _ _ _ _ _ _ W3) as [S1 S2 S3 _].
  wpb. apply (wp_fs cur pid _ _ (fun _ f => closed (k_fs s3) f)); [exact R3|eapply (fwp_end_op cur pid k); [exact S1|..]|].
  1-5: rewrite ?(kp_com _ _ S2), ?(kp_out _ _ S2), ?(kp_disk _ _ S2), ?(kp_size _ _ S2); done.
  intros [] s4 F4 R4 C4. destruct (frame_same _ _ F4) as (M4 & N4 & V4 & K4). 
  assert (B4 : building cur s l d (PGROUNDUP sz) img s4 l2).
  { apply (building_same _ _ _ _ _ _ s2); try done; try congruence. apply R4. }
  assert (K5 : only_woken (k_ptab s) (k_ptab s4)). { etransitivity; [exact K2|]. by etransitivity. }
  assert (Eq4 : proc_at s4 cur = q). { rewrite <- Eq. apply (woken_running _ _ _ K5). by rewrite <- Eq in Hrun. }
  eapply wp_mono; [|apply (wp_exec_stack cur s l d (p_pgdir q) Hf Ht0 Ho0 pid q path argv lens sz entry img s4 l2); try done; lia].
  intros r s5 [-> Hs]. apply (HQ d s4 s5); [done|done|]. destruct C4 as [C1 C2 C3 C5 C6 C7 C8 C9]. split; [done| |].
  - intros b Hb. rewrite C8, S3; [done|]. unfold in_log in *. by rewrite (kp_start _ _ S2), (kp_size _ _ S2).
  - intros j. rewrite C3, (wk_refs _ _ _ _ _ _ _ W3). simpl. lia.
Qed.
End exec.

Lemma started_base cur s0 s0' d old q path argv lens sz entry img s s' : k_mem s0' = k_mem s0 ->
  started cur s0 d old q path argv lens sz entry img s s' -> started cur s0' d old q path argv lens sz entry img s s'.
Proof. intros E [H1 H2 H3 H4 H5 H6 H7]. split; try done. by rewrite E. Qed.

Lemma tree_log f lg T : tree_ok f T -> tree_ok (with_log lg f) T.
Proof.
  intros [A B C D E]. split; try done. intros n Hn Ht. destruct (D n Hn Ht) as [[] ? ? ?]. split; [split; done|done..].
Qed.

Lemma resolve_log f lg parent es : forall n name, resolve (with_log lg f) n es name parent = resolve f n es name parent.
Proof.
  induction es as [|e es IH]; intros n name; simpl; [done|]. change (dnode (with_log lg f) n) with (dnode f n). change (lookup_name (with_log lg f) n) with (lookup_name f n).
  destruct (negb _); [done|]. destruct (parent && _); [done|]. destruct (lookup_name f n _); [apply IH|done].
Qed.

(** [exec] of [path] can run the executable file [m]: the file system is sound and idle, the path leads to the file from
    the directory [n], there are free pages enough, and the arguments fit on the stack. *)
Record executable (s : kstate) (cur : nat) (pid n m : Z) (T : Z -> Prop) (path argv lens l : list Z) : Prop := mkExecutable {
  ex_ready : fs_ready cur pid s;
  ex_run : p_state (proc_at s cur) = RUNNING;
  ex_idle : idle (k_fs s);
  ex_layout : layout (k_fs s);
  ex_tree : tree_ok (k_fs s) T;
  ex_cache : icache_ok pid None (k_fs s);
  ex_slots : exists a b, a <> b /\ (a < NINODE)%nat /\ (b < NINODE)%nat /\ i_ref (inode_at s a) = 0 /\ i_ref (inode_at s b) = 0;
  ex_path : name_ok path /\ begins s cur path n /\ T n /\ exists nm, resolve (k_fs s) n (elems path) [] false = Some (m, nm);
  ex_file : i_type (dnode (k_fs s) m) = T_FILE /\ file_ok (k_fs s) (dnode (k_fs s) m);
  ex_elf : elf_file (k_fs s) m;
  ex_free : free_pages s l /\ data_ok (vm_data (k_vm s));
  ex_old : tables (km_end (k_kmem s)) l (k_mem s) (p_pgdir (proc_at s cur)) /\ owned s l (p_pgdir (proc_at s cur)) /\ p_kstack (proc_at s cur) <> 0;
  ex_room : let top := stack_top (image (k_fs s) m).1 in top < KERNBASE /\ (top + PGSIZE - 1) / PGSIZE <= Z.of_nat (length l) - 1025 /\ stack_fits argv lens top;
  ex_args : Forall2 (user_arg (proc_at s cur)) argv lens
}.

(** C11: [exec] starts the program.  The conditions: the file system is sound and idle, two entries of the inode cache are
    free, and [path] leads to an executable file, with segments that lie in the file, start at a page and end below
    KERNBASE; there are free pages for the image, the two pages of the stack and all page tables; and there are at most
    MAXARG arguments, whose strings end in the memory of the process and fit with the vector on the one page of the
    stack.  Then [exec]
    returns 0 with the process in a new address space: the bytes of the segments at their addresses and zeros after
    them, a guard page below the stack that user code cannot reach, and on the stack the argument vector, whose strings
    are those the process passed; the program counter is the entry point of the file.  Page tables hold the memory that
    the process sees, the pages of the old memory are free, no transaction is left open, and no file or other process
    is changed but that sleepers may wake. *)
Theorem exec_starts dv s cur pid n m T path argv lens l (H : executable s cur pid n m T path argv lens l) :
  wp (exec dv path argv) s (fun r s' => r = 0 /\ exists d mid,
    started cur s d (p_pgdir (proc_at s cur)) (proc_at s cur) path argv lens (image (k_fs s) m).1 (elf_entry (fbyte (k_fs s) (dnode (k_fs s) m))) (image (k_fs s) m).2 mid s' /\
    only_woken (k_ptab s) (k_ptab mid) /\ left_as (k_fs s) (k_fs mid)).
Proof.
  destruct H as [Hr Hrun Hid Hla HT Hc Hfree (Hp1 & Hp2 & Hp3 & nm & Hres) [Hty Hok] He [Hf Hdat] (Ho1 & Ho2 & Ho3) (Hm1 & Hm2 & Hm3) Hargs].
  set (fs1 := with_log (log_outstanding 1 (fs_log (k_fs s))) (k_fs s)). pose proof (idle_tx pid _ Hid) as Htx. fold fs1 in Htx.
  assert (Hla1 : layout fs1) by (destruct Hla as [[] ?]; split; [split; done|done]). assert (HT1 : tree_ok fs1 T) by by apply tree_log.
  assert (Hc1 : icache_ok pid None fs1) by (destruct Hc as [C1 C2 C3 C4 C5]; split; done). assert (Hok1 : file_ok fs1 (dnode fs1 m)) by (destruct Hok; split; done).
  assert (He1 : elf_file fs1 m) by (destruct He as [E1 E2 E3 E4]; split; try done; eapply Forall_impl; [exact E4|]; intros h Hh Et; destruct (Hh Et); by split).
  unfold exec. wpb. eapply wp_curproc; [apply Hr|]. intros c Hcpu. set (s0 := set_core c s). assert (Hr0 : fs_ready cur pid s0) by (split; [done|apply Hr]).
  wpb. apply (wp_fs cur pid _ _ (fun _ f => f = fs1)); [exact Hr0|by apply fwp_begin_op|]. intros [] s1 F1 R1 E1.
  destruct (frame_same _ _ F1) as (M1 & N1 & V1 & K1). change (k_mem s0) with (k_mem s) in M1. change (k_kmem s0) with (k_kmem s) in N1. change (k_vm s0) with (k_vm s) in V1.
  assert (Eq1 : proc_at s1 cur = proc_at s cur) by by apply (woken_running (k_ptab s)).
  wpb. unfold namei. wpb. apply (wp_fs cur pid _ _ (arrives pid 20 (k_fs s1) T (resolve (k_fs s1) n (elems path) [] false))); [exact R1|rewrite <- E1 in *; apply namex_walks; try done|].
  { by rewrite E1. }
  { unfold begins, inode_at in *. by rewrite E1, Eq1. }
  rewrite E1. unfold fs1 at 2. rewrite resolve_log, Hres. intros r s2 F2 R2 (ip & -> & W2). apply wp_ret. cbn [fmap option_fmap option_map fst].
  destruct (frame_same _ _ F2) as (M2 & N2 & V2 & K2).
  wpb. apply (wp_fs cur pid _ _ (fun _ f => walking pid 20 fs1 T [(ip, m)] (Some ip) f)); [exact R2|eapply (walk_ilock cur pid 20 fs1 T); [done|done|apply Hc1|exact W2|apply list_elem_of_here|done]|].
  intros [] s3 F3 R3 W3. destruct (frame_same _ _ F3) as (M3 & N3 & V3 & K3). 
  wpb. pose proof (ef_size _ _ He1) as Hsz. apply (wp_fs cur pid _ _ (fun r f => walking pid 20 fs1 T [(ip, m)] (Some ip) f /\ r.1 = ELFHDR /\ forall a, 0 <= a < ELFHDR -> r.2 a = fbyte fs1 (dnode fs1 m) a));
    [exact R3|apply (fwp_read_held cur pid 20 fs1 T Hla1 (ic_ref _ _ _ Hc1) dv ip m Hty Hok1); [done|unfold ELFHDR in *; lia|done|done|]|].
  { intros md f Hw Hmd. rewrite Z.sub_0_r, Z.min_l in * by done. by split_and!. }
  intros [r elf] s4 F4 R4 (W4 & E4 & Hmd). simpl in E4, Hmd. subst r. rewrite Z.eqb_refl. cbn [negb]. destruct (frame_same _ _ F4) as (M4 & N4 & V4 & K4).
  destruct (elf_fields fs1 m elf Hmd) as (-> & -> & -> & ->). rewrite (ef_magic _ _ He1), Z.eqb_refl. cbn [negb].
  assert (K5 : only_woken (k_ptab s) (k_ptab s4)) by (etransitivity; [exact K1|etransitivity; [exact K2|by etransitivity]]).
  assert (Em : k_mem s4 = k_mem s) by congruence. assert (Ek : k_kmem s4 = k_kmem s) by congruence. assert (Ev : k_vm s4 = k_vm s) by congruence.
  apply (wp_exec_build cur pid 20 fs1 T Hla1 HT1 (ic_ref _ _ _ Hc1) dv m Hty Hok1 ip path argv lens _ (proc_at s cur) s4 l); rewrite ?Em, ?Ek, ?Ev; try done.
  - destruct Hf. split; by rewrite ?Em, ?Ek.
  - apply Hid.
  - apply Hid.
  - apply Hid.
  - by apply (woken_running (k_ptab s)).
  - destruct Ho2. split; by rewrite ?Em, ?Ek.
  - intros d s5 s6 Hs K6 [L1 L2 L3]. split; [done|]. exists d, s5. split; [by apply (started_base _ s4)|]. split; [by etransitivity|by split].
Qed.

(** A disk that mkfs has built from one program, of one segment: four bytes of the file at address 0, and four more. *)
Module SmallProgram.
Definition prog : list Z :=
  [127; 69; 76; 70] ++ replicate 24 0 ++ [52; 0; 0; 0] ++ replicate 12 0 ++ [1; 0] ++ replicate 6 0 ++
  [1; 0; 0; 0; 84; 0; 0; 0; 0; 0; 0; 0; 0; 0; 0; 0; 4; 0; 0; 0; 8; 0; 0; 0] ++ replicate 8 0 ++ [144; 144; 235; 254].

Definition args : list (list Z) := [[95; 97]].
Definition host (name : list Z) : option (list (list Z)) := if bool_decide (name = [95; 97]) then Some [prog] else None.

Lemma prog_data : data_of host [95; 97] = prog.
Proof. vm_compute. reflexivity. Qed.

Lemma prog_fits : fits_image host args.
Proof.
  split.
  - constructor; [|constructor]. split; [set_solver|]. split; [vm_compute; eauto|rewrite prog_data; vm_compute; discriminate].
  - reflexivity.
  - vm_compute. discriminate.
  - vm_compute. discriminate.
Qed.

Section built.
Context (f : fsst) (m : Z) (Hs : i_size (dnode f m) = 88) (Hb : forall o, 0 <= o < 88 -> fbyte f (dnode f m) o = bytes_mem prog o).

Lemma word o : 0 <= o <= 84 -> load32 (fbyte f (dnode f m)) o = load32 (bytes_mem prog) o.
Proof. intros Ho. apply load32_ext. intros x Hx. apply Hb. lia. Qed.

Lemma the_headers : prog_headers f m = [header_at f m 52].
Proof. unfold prog_headers, elf_phnum, elf_phoff, load16. rewrite word, !Hb by lia. reflexivity. Qed.

Lemma header_word o : 0 <= o <= 32 -> load32 (header_at f m 52) o = load32 (bytes_mem prog) (52 + o).
Proof. intros Ho. rewrite <- word by lia. apply load32_shift. intros j Hj. unfold header_at. f_equal. lia. Qed.

Lemma the_image : image f m = (8, placed f m 0 84 4 (fun _ => 0)).
Proof. unfold image. rewrite the_headers. simpl. unfold add_seg, ph_type, ph_vaddr, ph_memsz, ph_filesz, ph_off. rewrite !header_word by lia. reflexivity. Qed.

Lemma is_elf : elf_file f m.
Proof.
  split.
  - rewrite Hs. discriminate.
  - unfold elf_magic. rewrite word by lia. reflexivity.
  - unfold elf_phnum, elf_phoff, load16. rewrite word, !Hb, Hs by lia. split_and!; vm_compute; discriminate.
  - rewrite the_headers. constructor; [|constructor]. intros _. split; unfold ph_vaddr, ph_memsz, ph_filesz, ph_off; rewrite ?header_word, ?Hs by lia; split_and?; vm_compute; done.
Qed.
End built.

(** The kernel with an image mounted, where the process 0 has one page of memory. *)
Definition boot (img : Z -> mem) : kstate :=
  set_fs (mkFs (mkDisk img FSSIZE []) Empty.bufs (mkLog 2 30 0 false 1 0 (fun _ => 0)) (sb_of (img 1)) (fun _ => zero_inode)) MoreMemory.st.

Lemma disk_mounted img : sb_of (img 1) = SB -> mounted img (k_fs (boot img)).
Proof. intros E. split; [intros b; by apply content_none|done|done| |]; cbn [boot k_fs set_fs fs_log fs_sb lg_start lg_size]; by rewrite E. Qed.

Lemma boot_idle img : idle (k_fs (boot img)).
Proof.
  split; try done.
  - exists (seq 0 NBUF). split; [|done]. split; [exact Empty.bufs_ring|done|]. intros i _. by split.
  - split; simpl; unfold FSSIZE, LOGSIZE, MAXOPBLOCKS, in_log; simpl; lia.
Qed.

Lemma boot_image s : finished host args s -> let i := image (k_fs (boot (mk_img s))) 2 in i.1 = 8 /\ i.2 2 = 235 /\ i.2 4 = 0.
Proof.
  intros Hfin. set (f := k_fs (boot (mk_img s))). assert (Hm : mounted (mk_img s) f) by (apply disk_mounted; by apply (finished_sb host args)).
  destruct (image_file host args s Hfin f Hm 0 _ eq_refl) as (_ & _ & _ & _ & D). change (Z.of_nat 0 + 2) with 2 in *. rewrite prog_data in D. rewrite (the_image f 2 D).
  split; [reflexivity|]. split; [|reflexivity]. unfold placed. simpl. apply (D 86). by split.
Qed.

Lemma boot_executable s : finished host args s -> executable (boot (mk_img s)) 0 5 1 2 (image_inodes args) [47; 97] [197] [3] DeadChild.frees.
Proof.
  intros Hfin. pose proof (ft_inodes _ _ prog_fits) as Hfew. assert (Hn : Forall name_ok args) by (repeat constructor; lia). set (f := k_fs (boot (mk_img s))).
  assert (Hm : mounted (mk_img s) f) by (apply disk_mounted; by apply (finished_sb host args)).
  destruct (image_file host args s Hfin f Hm 0 _ eq_refl) as (A & _ & B & C & D). change (Z.of_nat 0 + 2) with 2 in *. rewrite prog_data in B, D. pose proof (the_image f 2 D) as Ei. split.
  - split; [apply one_cpu_on|reflexivity].
  - reflexivity.
  - apply boot_idle.
  - by apply (image_layout host args s).
  - by apply (image_tree host args Hn Hfew s).
  - by split.
  - exists 0%nat, 1%nat. split; [discriminate|]. split; [apply Nat.ltb_lt; reflexivity|]. split; [apply Nat.ltb_lt; reflexivity|]. split; reflexivity.
  - split; [repeat constructor; lia|]. split; [reflexivity|]. split; [split; discriminate|]. exists (cut [97]). apply resolve_root; [exact (proj1 (image_root_fields host args s Hfin f Hm))|discriminate|set_solver|].
    apply (image_lookup host args Hn Hfew s Hfin f Hm 0 [95; 97]); [|reflexivity]. vm_compute. repeat constructor; set_solver.
  - by split.
  - by apply is_elf.
  - split; [destruct DeadChild.dead_free; by split|]. by split.
  - split; [exact DeadChild.dead_tables|]. split; [destruct DeadChild.dead_owned; by split|discriminate].
  - fold f. rewrite Ei. assert (Hl : length DeadChild.frees = 1029%nat) by (vm_compute; reflexivity). rewrite Hl. cbv zeta. split; [reflexivity|]. split; [vm_compute; discriminate|]. split; vm_compute; discriminate.
  - constructor; [vm_compute; reflexivity|constructor].
Qed.
End SmallProgram.

Lemma exec_starts_witness :
  wp (mkfs (fun _ => true) (fun _ => true) SmallProgram.host [[109]; [105]; [95; 97]]) mk_start (fun _ s =>
    wp (exec no_devices [47; 97] [197]) (SmallProgram.boot (mk_img s)) (fun r s' => r = 0 /\ p_sz (proc_at s' 0) = 12288 /\
      p_umem (proc_at s' 0) 2 = 235 /\ p_umem (proc_at s' 0) 4 = 0 /\ exists l', free_pages s' l' /\ Forked.page ∈ l')).
Proof.
  refine (wp_mono _ _ _ _ _ (wp_mkfs (fun _ => true) (fun _ => eq_refl) (fun _ => true) SmallProgram.host [109] [105] SmallProgram.args eq_refl SmallProgram.prog_fits)).
  intros [] s Hfin. refine (wp_mono _ _ _ _ _ (exec_starts no_devices _ _ _ _ _ _ _ _ _ _ (SmallProgram.boot_executable s Hfin))).
  intros r s' (-> & d & mid & [(um & esp & Hp & Hi & _) _ _ _ _ _ (l' & Hl & _ & Ho)] & _). destruct (SmallProgram.boot_image s Hfin) as (E1 & H2 & H4). rewrite E1 in Hp, Hi. rewrite Hp. split_and!.
  - reflexivity.
  - reflexivity.
  - rewrite <- H2. apply (Hi 2). vm_compute. split; [discriminate|reflexivity].
  - rewrite <- H4. apply (Hi 4). vm_compute. split; [discriminate|reflexivity].
  - exists l'. split; [exact Hl|]. apply Ho. right. exists 0. split; [split; [discriminate|reflexivity]|].
    change (k_mem _) with Forked.fmem. change (p_pgdir _) with Forked.dir. rewrite Forked.st_pte by lia. split; reflexivity.
Defined.
