(* ===== verification/Ide.v ===== *)
(** * ioapic.c and ide.c: the interrupt controller and the disk driver

    The disk is an ATA device behind its ports ([inb], [outb], [insl], [outsl]):
    the class [Ports] has the accesses, [Ata] the documented behaviour the driver
    relies on, in terms of the command the device is at and of the contents of its
    sectors.  The device may end any command with an error; it is not busy for ever
    ([patience] bounds how often a poll finds it so).  [SmallDisk] is such a device.  The queue of requests is the list of
    buffers linked by [qnext].  A process that waits for its request sleeps on its
    buffer; [system] is the driver with the processes inside [iderw] and the
    interrupts of the device, as a step relation.

    Shown: the driver never stops the kernel and serves the
    requests in the order of the calls; each interrupt ends the oldest
    request and starts the next; every request is completed after as
    many interrupts as there are requests up to it, and its process then returns
    with the contents of the block, unless the device reported an error: the
    driver then returns in the same way, with a buffer that counts as valid. *)

From S2P Require Import Prelude.

(** ** ioapic.c *)

Definition IRQ0 : Z := 32.
Definition IRQ_DISK : Z := 14.
Definition REG_ID : Z := 0.
Definition REG_VER : Z := 1.
Definition REG_TABLE : Z := 16.
Definition INT_DISABLED : Z := 65536.

(** The registers behind [ioapic->reg] and [ioapic->data]. *)
Definition ioapic : Type := Z -> Z.
Definition ioapicread (reg : Z) (a : ioapic) : Z := a reg.
Definition ioapicwrite (reg data : Z) (a : ioapic) : ioapic := fun r => if r =? reg then data else a r.

(** [n] more turns of the loop, from [i] on. *)
Fixpoint ioapicinit_loop (n : nat) (i : Z) (a : ioapic) : ioapic :=
  match n with
  | O => a
  | S k => ioapicinit_loop k (i + 1) (ioapicwrite (REG_TABLE + 2 * i + 1) 0 (ioapicwrite (REG_TABLE + 2 * i) (Z.lor INT_DISABLED (IRQ0 + i)) a))
  end.

(** Also if it prints that the id is not the one of the table. *)
Definition ioapicinit (ioapicid : Z) (a : ioapic) : ioapic * bool :=
  let maxintr := Z.land (Z.shiftr (ioapicread REG_VER a) 16) 255 in
  let id := Z.shiftr (ioapicread REG_ID a) 24 in
  (ioapicinit_loop (S (Z.to_nat maxintr)) 0 a, negb (id =? ioapicid)).

Definition ioapicenable (irq cpunum : Z) (a : ioapic) : ioapic :=
  ioapicwrite (REG_TABLE + 2 * irq + 1) (uint32 (Z.shiftl cpunum 24)) (ioapicwrite (REG_TABLE + 2 * irq) (IRQ0 + irq) a).

(** ** The device *)

(** The accesses of x86.h; a poll of the status register says at most [patience] times that the device is not ready. *)
Class Ports (D : Type) := {
  p_inb : Z -> D -> D * Z;
  p_outb : Z -> Z -> D -> D;
  p_insl : Z -> Z -> D -> D * list Z;
  p_outsl : Z -> list Z -> D -> D;
  patience : D -> nat
}.

(** What the device is at: a read, a write that waits for its data, a write, a read whose data waits to be fetched, or nothing since its last command failed. *)
Inductive job : Type := Reading (drv sec : Z) | WriteData (drv sec : Z) | Writing (drv sec : Z) (b : list Z) | Ready (b : list Z) | Failed.

(** [settle] is the end of a command, at which the device interrupts. *)
Class View (D : Type) := { regs : D -> Z -> Z; at_job : D -> option job; media : D -> Z -> Z -> list Z; settle : D -> D }.

Definition STATUS : Z := 503. (* 0x1f7 *)
Definition DATA : Z := 496. (* 0x1f0 *)

Section Task.
  Context {D : Type} `{View D}.

(** The sector and the drive the registers name. *)
Definition task_sector (d : D) : Z := regs d 499 + 256 * regs d 500 + 65536 * regs d 501 + 16777216 * Z.land (regs d 502) 15.
Definition task_drive (d : D) : Z := Z.land (Z.shiftr (regs d 502) 4) 1.

Definition same_media (d d' : D) : Prop := forall r s, media d' r s = media d r s.

(** The device takes commands. *)
Definition resting (d : D) : Prop := at_job d = None \/ at_job d = Some Failed.

(** What the device is at when it has been polled: a read may have ended, with the data or with an error. *)
Definition polled (d d' : D) : Prop := at_job d' = at_job d \/
  exists r s, at_job d = Some (Reading r s) /\ (at_job d' = Some (Ready (media d r s)) \/ at_job d' = Some Failed).

(** The command the device is at will end with an error. *)
Definition fails (d : D) : bool := match at_job (settle d) with Some Failed => true | _ => false end.

End Task.

(** Status: bit 7 busy, bit 6 ready; bits 5 and 0 fault and error.  What a failed write leaves in its sector is not known. *)
Class Ata (D : Type) `{Ports D, View D} := {
  out_reg (d : D) p v : resting d -> 498 <= p <= 502 ->
    (forall q, regs (p_outb p v d) q = if q =? p then v else regs d q) /\ at_job (p_outb p v d) = at_job d /\ same_media d (p_outb p v d);
  out_control (d : D) v : (forall q, regs (p_outb 1014 v d) q = regs d q) /\ at_job (p_outb 1014 v d) = at_job d /\ same_media d (p_outb 1014 v d);
  out_read (d : D) : resting d -> regs d 498 = 1 ->
    at_job (p_outb STATUS 32 d) = Some (Reading (task_drive d) (task_sector d)) /\ same_media d (p_outb STATUS 32 d);
  out_write (d : D) : resting d -> regs d 498 = 1 ->
    at_job (p_outb STATUS 48 d) = Some (WriteData (task_drive d) (task_sector d)) /\ same_media d (p_outb STATUS 48 d);
  out_data (d : D) r s b : at_job d = Some (WriteData r s) -> length b = 512%nat ->
    at_job (p_outsl DATA b d) = Some (Writing r s b) /\ same_media d (p_outsl DATA b d);
  in_data (d : D) b : at_job d = Some (Ready b) ->
    (p_insl DATA 128 d).2 = b /\ at_job (p_insl DATA 128 d).1 = None /\ same_media d (p_insl DATA 128 d).1;
  in_status (d : D) : (forall r s b, at_job d <> Some (Writing r s b)) ->
    polled d (p_inb STATUS d).1 /\ same_media d (p_inb STATUS d).1 /\
    (Z.land (p_inb STATUS d).2 192 <> 64 -> (patience (p_inb STATUS d).1 < patience d)%nat) /\
    (Z.land (p_inb STATUS d).2 192 = 64 ->
      (forall r s, at_job (p_inb STATUS d).1 <> Some (Reading r s)) /\
      (forall b, at_job (p_inb STATUS d).1 = Some (Ready b) -> Z.land (p_inb STATUS d).2 33 = 0) /\
      (at_job (p_inb STATUS d).1 = Some Failed -> Z.land (p_inb STATUS d).2 33 <> 0));
  settle_read (d : D) r s : at_job d = Some (Reading r s) ->
    (at_job (settle d) = Some (Ready (media d r s)) \/ at_job (settle d) = Some Failed) /\ same_media d (settle d);
  settle_write (d : D) r s b : at_job d = Some (Writing r s b) ->
    (at_job (settle d) = None /\ media (settle d) r s = b \/ at_job (settle d) = Some Failed) /\
    forall r' s', (r', s') <> (r, s) -> media (settle d) r' s' = media d r' s'
}.

(** ** ide.c *)

Definition IDE_BSY : Z := 128.
Definition IDE_DRDY : Z := 64.
Definition IDE_DF : Z := 32.
Definition IDE_ERR : Z := 1.
Definition IDE_CMD_READ : Z := 32.
Definition IDE_CMD_WRITE : Z := 48.
Definition SECTOR_SIZE : Z := 512.
Definition BLOCK_SIZE : Z := 512.
Definition FS_BLOCKS : Z := 1000.
Definition F_VALID : Z := 2.
Definition F_DIRTY : Z := 4.
Definition NBUFS : nat := 30.

(** buf.h: [q_owner] is the process that holds the sleeplock of the buffer. *)
Record dbuf : Type := mkDbuf { q_flags : Z; q_dev : Z; q_blockno : Z; q_owner : option Z; q_next : option nat; q_data : list Z }.

(** [asleep]: the buffers on which a process sleeps. *)
Record ide (D : Type) : Type := mkIde {
  dev : D;
  bufs : nat -> dbuf;
  idequeue : option nat;
  idelock : bool;
  havedisk1 : bool;
  apic : ioapic;
  asleep : gset nat
}.
Arguments mkIde {D}.
Arguments dev {D}.
Arguments bufs {D}.
Arguments idequeue {D}.
Arguments idelock {D}.
Arguments havedisk1 {D}.
Arguments apic {D}.
Arguments asleep {D}.

Section Driver.
  Context {D : Type} `{Ports D}.

Definition set_dev (d : D) (s : ide D) : ide D := mkIde d (bufs s) (idequeue s) (idelock s) (havedisk1 s) (apic s) (asleep s).
Definition set_buf (i : nat) (b : dbuf) (s : ide D) : ide D :=
  mkIde (dev s) (<[i := b]> (bufs s)) (idequeue s) (idelock s) (havedisk1 s) (apic s) (asleep s).
Definition set_queue (q : option nat) (s : ide D) : ide D := mkIde (dev s) (bufs s) q (idelock s) (havedisk1 s) (apic s) (asleep s).
Definition set_lock (l : bool) (s : ide D) : ide D := mkIde (dev s) (bufs s) (idequeue s) l (havedisk1 s) (apic s) (asleep s).
Definition set_asleep (a : gset nat) (s : ide D) : ide D := mkIde (dev s) (bufs s) (idequeue s) (idelock s) (havedisk1 s) (apic s) a.

Definition inb (p : Z) : M (ide D) Z := fun s => Done (p_inb p (dev s)).2 (set_dev (p_inb p (dev s)).1 s).
Definition outb (p v : Z) : M (ide D) unit := modify (fun s => set_dev (p_outb p (byte8 v) (dev s)) s).
Definition insl (p n : Z) : M (ide D) (list Z) := fun s => Done (p_insl p n (dev s)).2 (set_dev (p_insl p n (dev s)).1 s).
Definition outsl (p : Z) (b : list Z) : M (ide D) unit := modify (fun s => set_dev (p_outsl p b (dev s)) s).

Definition ide_acquire : M (ide D) unit := fun s => if idelock s then Spin s else Done tt (set_lock true s).
Definition ide_release : M (ide D) unit := modify (set_lock false).

(** [sleep(b, &idelock)]: the lock is free while the process sleeps. *)
Definition ide_sleep (b : nat) : M (ide D) unit := fun s => Asleep (set_lock false (set_asleep ({[b]} ∪ asleep s) s)) ide_acquire.
Definition ide_wakeup (b : nat) : M (ide D) unit := modify (fun s => set_asleep (asleep s ∖ {[b]}) s).

Fixpoint idewait_loop (fuel : nat) (checkerr : bool) : M (ide D) Z :=
  match fuel with
  | O => fun s => Stuck s
  | S k =>
      r ← inb STATUS;
      if negb (Z.land r (Z.lor IDE_BSY IDE_DRDY) =? IDE_DRDY) then idewait_loop k checkerr
      else if checkerr && negb (Z.land r (Z.lor IDE_DF IDE_ERR) =? 0) then mret (-1)
      else mret 0
  end.
Definition idewait (checkerr : bool) : M (ide D) Z := fun s => idewait_loop (S (patience (dev s))) checkerr s.

Fixpoint find_disk1 (n : nat) : M (ide D) unit :=
  match n with
  | O => mret tt
  | S k =>
      r ← inb STATUS;
      if negb (r =? 0) then modify (fun s => mkIde (dev s) (bufs s) (idequeue s) (idelock s) true (apic s) (asleep s)) else find_disk1 k
  end.

Definition ideinit (ncpu : Z) : M (ide D) unit :=
  modify (set_lock false);;
  modify (fun s => mkIde (dev s) (bufs s) (idequeue s) (idelock s) (havedisk1 s) (ioapicenable IRQ_DISK (ncpu - 1) (apic s)) (asleep s));;
  idewait false;;
  outb 502 (Z.lor 224 (Z.shiftl 1 4));;
  find_disk1 1000;;
  outb 502 (Z.lor 224 (Z.shiftl 0 4)).

Definition sector_per_block : Z := BLOCK_SIZE / SECTOR_SIZE.

(** The caller holds [idelock]. *)
Definition idestart (b : option nat) : M (ide D) unit :=
  match b with
  | None => panic "idestart"
  | Some i =>
      b ← gets (fun s => bufs s i);
      if FS_BLOCKS <=? q_blockno b then panic "incorrect blockno"
      else
        let sector := int32 (q_blockno b * sector_per_block) in
        if 7 <? sector_per_block then panic "idestart"
        else
          idewait false;;
          outb 1014 0;;
          outb 498 sector_per_block;;
          outb 499 (Z.land sector 255);;
          outb 500 (Z.land (Z.shiftr sector 8) 255);;
          outb 501 (Z.land (Z.shiftr sector 16) 255);;
          outb 502 (Z.lor (Z.lor 224 (Z.shiftl (Z.land (q_dev b) 1) 4)) (Z.land (Z.shiftr sector 24) 15));;
          if negb (Z.land (q_flags b) F_DIRTY =? 0) then
            outb STATUS IDE_CMD_WRITE;;
            outsl DATA (q_data b)
          else outb STATUS IDE_CMD_READ
  end.

Definition ideintr : M (ide D) unit :=
  ide_acquire;;
  h ← gets idequeue;
  match h with
  | None => ide_release
  | Some i =>
      b ← gets (fun s => bufs s i);
      modify (set_queue (q_next b));;
      (if Z.land (q_flags b) F_DIRTY =? 0 then
         r ← idewait true;
         when (0 <=? r) (l ← insl DATA (BLOCK_SIZE / 4);
           modify (fun s => set_buf i (mkDbuf (q_flags (bufs s i)) (q_dev (bufs s i)) (q_blockno (bufs s i)) (q_owner (bufs s i)) (q_next (bufs s i)) l) s))
       else mret tt);;
      modify (fun s => let b := bufs s i in
        set_buf i (mkDbuf (Z.ldiff (Z.lor (q_flags b) F_VALID) F_DIRTY) (q_dev b) (q_blockno b) (q_owner b) (q_next b) (q_data b)) s);;
      ide_wakeup i;;
      q ← gets idequeue;
      match q with
      | Some _ => idestart q;; ide_release
      | None => ide_release
      end
  end.

Definition set_next (i : nat) (n : option nat) (s : ide D) : ide D :=
  let b := bufs s i in set_buf i (mkDbuf (q_flags b) (q_dev b) (q_blockno b) (q_owner b) n (q_data b)) s.

(** [for(pp = &idequeue; *pp; pp = &( *pp)->qnext)]: the buffer whose [qnext] [pp] is, none where it is [&idequeue]. *)
Fixpoint walk_queue (fuel : nat) (pp : option nat) (s : ide D) : option (option nat) :=
  match fuel with
  | O => None
  | S k =>
      match (match pp with None => idequeue s | Some i => q_next (bufs s i) end) with
      | None => Some pp
      | Some j => walk_queue k (Some j) s
      end
  end.

Definition append (i : nat) : M (ide D) unit := fun s =>
  match walk_queue (S NBUFS) None s with
  | None => Stuck s
  | Some None => Done tt (set_queue (Some i) s)
  | Some (Some j) => Done tt (set_next j (Some i) s)
  end.

Definition finished (b : dbuf) : bool := Z.land (q_flags b) (Z.lor F_VALID F_DIRTY) =? F_VALID.

(** [n] bounds how often the process is woken. *)
Fixpoint wait_loop (n : nat) (i : nat) : M (ide D) unit :=
  match n with
  | O => fun s => Stuck s
  | S k =>
      b ← gets (fun s => bufs s i);
      if negb (finished b) then ide_sleep i;; wait_loop k i else mret tt
  end.

Definition ide_rw (n : nat) (pid : Z) (i : nat) : M (ide D) unit :=
  b ← gets (fun s => bufs s i);
  if negb (bool_decide (q_owner b = Some pid)) then panic "iderw: buf not locked"
  else if finished b then panic "iderw: nothing to do"
  else
    h ← gets havedisk1;
    if negb (q_dev b =? 0) && negb h then panic "iderw: ide disk 1 not present"
    else
      ide_acquire;;
      modify (set_next i None);;
      append i;;
      q ← gets idequeue;
      (if bool_decide (q = Some i) then idestart (Some i) else mret tt);;
      wait_loop n i;;
      ide_release.

End Driver.

(** ** The driver as a system of processes and interrupts *)

Section System.
  Context {D : Type} `{Ports D, !View D}.

(** The rest of [ide_rw] in a process that sleeps. *)
Definition resume (n i : nat) : M (ide D) unit := (ide_acquire;; wait_loop n i);; ide_release.

(** What bio.c sees to before it calls [iderw]. *)
Record allowed (pid : Z) (i : nat) (s : ide D) : Prop := {
  al_range : (i < NBUFS)%nat;
  al_owner : q_owner (bufs s i) = Some pid;
  al_todo : finished (bufs s i) = false;
  al_block : 0 <= q_blockno (bufs s i) < FS_BLOCKS;
  al_dev : q_dev (bufs s i) = 0 \/ havedisk1 s = true;
  al_data : length (q_data (bufs s i)) = 512%nat
}.

(** The driver, and the processes inside [iderw], by the buffer of their request, each with the bound of its loop. *)
Record system : Type := mkSystem { drv : ide D; inside : gmap nat nat }.

(** A device at a command that it can end. *)
Definition in_progress (d : D) : Prop := match at_job d with Some (Reading _ _) | Some (Writing _ _ _) => True | _ => False end.

Inductive ide_step : system -> system -> Prop :=
| st_call pid i n s s' fl : fl !! i = None -> allowed pid i s -> ide_rw (S n) pid i s = Asleep s' (resume n i) ->
    ide_step (mkSystem s fl) (mkSystem s' (<[i := n]> fl))
| st_return i n s s' fl : fl !! i = Some n -> i ∉ asleep s -> resume n i s = Done tt s' ->
    ide_step (mkSystem s fl) (mkSystem s' (delete i fl))
| st_again i n m s s' fl : fl !! i = Some n -> i ∉ asleep s -> resume n i s = Asleep s' (resume m i) ->
    ide_step (mkSystem s fl) (mkSystem s' (<[i := m]> fl))
| st_kill i s fl : ide_step (mkSystem s fl) (mkSystem (set_asleep (asleep s ∖ {[i]}) s) fl)
| st_intr s s' fl : in_progress (dev s) -> ideintr (set_dev (settle (dev s)) s) = Done tt s' ->
    ide_step (mkSystem s fl) (mkSystem s' fl)
| st_others b s fl : (forall i, i ∈ dom fl -> b i = bufs s i) -> (forall i, q_next (b i) = q_next (bufs s i)) ->
    ide_step (mkSystem s fl) (mkSystem (mkIde (dev s) b (idequeue s) (idelock s) (havedisk1 s) (apic s) (asleep s)) fl).

(** ** The invariant *)

Fixpoint chain (b : nat -> dbuf) (h : option nat) (q : list nat) : Prop :=
  match q with
  | [] => h = None
  | i :: q => h = Some i /\ chain b (q_next (b i)) q
  end.

Definition dirty (b : dbuf) : bool := negb (Z.land (q_flags b) F_DIRTY =? 0).
Definition drive (b : dbuf) : Z := Z.land (q_dev b) 1.

(** The command for a request. *)
Definition job_of (b : dbuf) : job := if dirty b then Writing (drive b) (q_blockno b) (q_data b) else Reading (drive b) (q_blockno b).

(** A request that waits. *)
Record waits (b : dbuf) : Prop := {
  w_todo : finished b = false;
  w_block : 0 <= q_blockno b < FS_BLOCKS;
  w_data : length (q_data b) = 512%nat
}.

(** The requests [q] wait in order, the device is at the first. *)
Record queued (s : ide D) (q : list nat) : Prop := {
  qu_chain : chain (bufs s) (idequeue s) q;
  qu_nodup : NoDup q;
  qu_range : Forall (fun i => (i < NBUFS)%nat) q;
  qu_waits : Forall (fun i => waits (bufs s i)) q;
  qu_job : match q with [] => resting (dev s) | i :: _ => at_job (dev s) = Some (job_of (bufs s i)) end;
  qu_lock : idelock s = false
}.

(** The processes inside wait or have been woken. *)
Record ide_ok (g : system) (q : list nat) : Prop := {
  ok_queued : queued (drv g) q;
  ok_inside : forall i, i ∈ q -> i ∈ dom (inside g);
  ok_done : forall i, i ∈ dom (inside g) -> i ∉ q -> finished (bufs (drv g) i) = true /\ i ∉ asleep (drv g)
}.

(** ** Serving a request *)

Definition disk_t : Type := Z -> Z -> list Z.
Definition serve_disk (b : dbuf) (m : disk_t) : disk_t :=
  fun r x => if dirty b && (r =? drive b) && (x =? q_blockno b) then q_data b else m r x.

(** The disk afterwards, where the device reported an error ([e]) or not: a write that fails may spoil its own block. *)
Definition serves (b : dbuf) (e : bool) (m m' : disk_t) : Prop :=
  forall r x, e && dirty b && (r =? drive b) && (x =? q_blockno b) = false -> m' r x = serve_disk b m r x.

(** The buffer afterwards: valid and clean in any case; a read that fails leaves the data as they were. *)
Definition serve_buf (b : dbuf) (e : bool) (m : disk_t) : dbuf :=
  mkDbuf (Z.ldiff (Z.lor (q_flags b) F_VALID) F_DIRTY) (q_dev b) (q_blockno b) (q_owner b) (q_next b) (if dirty b || e then q_data b else m (drive b) (q_blockno b)).

Lemma served_finished b e m : finished (serve_buf b e m) = true.
Proof.
  unfold finished, serve_buf. cbn [q_flags]. apply Z.eqb_eq. apply Z.bits_inj'. intros k Hk. rewrite Z.land_spec, Z.ldiff_spec, !Z.lor_spec.
  assert (E : k = 1 \/ k = 2 \/ Z.testbit F_VALID k = false /\ Z.testbit F_DIRTY k = false).
  { destruct (Z.eq_dec k 1); [by left|]. destruct (Z.eq_dec k 2); [by right; left|]. right; right. unfold F_VALID, F_DIRTY.
    change 2 with (2 ^ 1). change 4 with (2 ^ 2). by rewrite !Z.pow2_bits_false by lia. }
  destruct E as [-> | [-> | [-> ->]]]; [change (Z.testbit F_VALID 1) with true|change (Z.testbit F_VALID 2) with false; change (Z.testbit F_DIRTY 2) with true|];
    rewrite ?orb_true_r, ?andb_false_r; done.
Qed.

Context `{!Ata D}.

Lemma same_media_refl (d : D) : same_media d d.
Proof. done. Qed.

Lemma same_media_trans (d d1 d2 : D) : same_media d d1 -> same_media d1 d2 -> same_media d d2.
Proof. intros H1 H2 r x. by rewrite H2. Qed.

Lemma polled_trans (d d1 d2 : D) : same_media d d1 -> polled d d1 -> polled d1 d2 -> polled d d2.
Proof.
  intros Hm [E1|(r & x & E0 & E1)] [E2|(r' & x' & E3 & E2)].
  - left. congruence.
  - right. exists r', x'. rewrite <- E1, <- Hm. done.
  - right. exists r, x. rewrite E2. done.
  - destruct E1; congruence.
Qed.

Lemma polled_resting (d d' : D) : polled d d' -> resting d -> resting d'.
Proof. intros [E|(r & x & E & _)] Hr; unfold resting in *; rewrite E in *; [done|by destruct Hr]. Qed.

Lemma resting_still (d : D) : resting d -> (forall r x b, at_job d <> Some (Writing r x b)) /\ forall r x, at_job d <> Some (Reading r x).
Proof. intros [E|E]; by rewrite E. Qed.

Lemma polled_still (d d' : D) : polled d d' -> (forall r x b, at_job d <> Some (Writing r x b)) -> forall r x b, at_job d' <> Some (Writing r x b).
Proof. intros [E|(r & x & _ & [E|E])] Hw; by rewrite E. Qed.

(** Polling until the device is ready. *)
Lemma wp_idewait c (s : ide D) (Q : Z -> ide D -> Prop) : (forall r x b, at_job (dev s) <> Some (Writing r x b)) ->
  (forall d v, same_media (dev s) d -> polled (dev s) d -> (forall b, at_job d = Some (Ready b) -> Z.land v 33 = 0) -> (at_job d = Some Failed -> Z.land v 33 <> 0) ->
    Q (if c && negb (Z.land v 33 =? 0) then -1 else 0) (set_dev d s)) ->
  wp (idewait c) s Q.
Proof.
  intros Hw HQ. unfold idewait. change (wp (idewait_loop (S (patience (dev s))) c) s Q).
  assert (Hf : (patience (dev s) < S (patience (dev s)))%nat) by lia. revert Hf. generalize (S (patience (dev s))) as fuel. intros fuel. revert s Hw HQ.
  induction fuel as [|fuel IH]; intros s Hw HQ Hf; [lia|]. cbn [idewait_loop]. apply wp_bind. unfold wp at 1, inb.
  destruct (in_status (dev s) Hw) as (Hj & Hm & Hp & He). destruct (p_inb STATUS (dev s)) as [d r]. cbn [fst snd] in *.
  change (Z.lor IDE_BSY IDE_DRDY) with 192. change (Z.lor IDE_DF IDE_ERR) with 33. change IDE_DRDY with 64.
  destruct (Z.eqb_spec (Z.land r 192) 64) as [E|E]; cbn [negb].
  - destruct (He E) as (_ & He1 & He2). specialize (HQ d r Hm Hj He1 He2). destruct (c && _); by apply wp_ret.
  - apply IH; cbn [dev set_dev]; [by eapply polled_still| |specialize (Hp E); lia].
    intros d' v Hm' Hj' H1 H2. change (set_dev d' (set_dev d s)) with (set_dev d' s). apply HQ; [by eapply same_media_trans|by eapply polled_trans|done|done].
Qed.

(** The registers of the task take what is written to them. *)
Lemma wp_out_reg {B} p v (k : unit -> M (ide D) B) (s : ide D) Q : resting (dev s) -> 498 <= p <= 502 -> byte8 v = v ->
  (forall d, resting d -> same_media (dev s) d -> (forall q, regs d q = if q =? p then v else regs (dev s) q) -> wp (k tt) (set_dev d s) Q) ->
  wp (outb p v ≫= k) s Q.
Proof.
  intros Hj Hp Hv HQ. unfold outb. apply wp_modify_bind. rewrite Hv. destruct (out_reg (dev s) p v Hj Hp) as (Hr & Hj' & Hm). apply HQ; [|done|done]. unfold resting. by rewrite Hj'.
Qed.

(** The four bytes of a sector number make it up again. *)
Lemma sector_bytes x : 0 <= x < 16777216 ->
  Z.land x 255 + 256 * Z.land (Z.shiftr x 8) 255 + 65536 * Z.land (Z.shiftr x 16) 255 = x.
Proof.
  intros Hx. change 255 with (Z.ones 8). rewrite !Z.land_ones, !Z.shiftr_div_pow2 by lia. change (2 ^ 8) with 256. change (2 ^ 16) with 65536.
  pose proof (Z.div_mod x 256 ltac:(lia)). pose proof (Z.div_mod (x / 256) 256 ltac:(lia)). assert (E : x / 65536 = x / 256 / 256) by (rewrite Z.div_div by lia; done).
  rewrite E. assert (x / 256 / 256 < 256) by (rewrite <- E; apply Z.div_lt_upper_bound; lia).
  rewrite (Z.mod_small (x / 256 / 256)) by (split; [apply Z.div_pos; [apply Z.div_pos|]; lia|done]). lia.
Qed.

Lemma land_byte x : byte8 (Z.land x 255) = Z.land x 255.
Proof. unfold byte8. change 255 with (Z.ones 8). rewrite Z.land_ones by lia. apply Z.mod_mod. done. Qed.

Lemma land_one x : Z.land x 1 = 0 \/ Z.land x 1 = 1.
Proof. assert (E : Z.land x 1 = x mod 2) by (change 1 with (Z.ones 1); by rewrite Z.land_ones by lia). pose proof (Z.mod_pos_bound x 2). lia. Qed.

Lemma wp_idestart (s : ide D) i : resting (dev s) -> waits (bufs s i) ->
  wp (idestart (Some i)) s (fun _ s' => exists d, s' = set_dev d s /\ at_job d = Some (job_of (bufs s i)) /\ same_media (dev s) d).
Proof.
  intros Hj [_ Hb Hl]. unfold idestart. apply wp_gets_bind. rewrite (proj2 (Z.leb_gt _ _)) by lia. unfold FS_BLOCKS in Hb.
  change sector_per_block with 1. rewrite Z.mul_1_r, int32_small by lia. set (x := q_blockno (bufs s i)) in *. set (dv := Z.land (q_dev (bufs s i)) 1).
  change (7 <? 1) with false. cbv iota. apply wp_bind. apply wp_idewait; [by apply resting_still|].
  intros d0 v0 Hm0 Hp0 _ _. pose proof (polled_resting _ _ Hp0 Hj) as Hj0. cbn [andb]. unfold outb at 1. apply wp_modify_bind. change (byte8 0) with 0. cbn [dev set_dev].
  destruct (out_control d0 0) as (_ & Ej1 & Hm1). set (d1 := p_outb 1014 0 d0) in *.
  assert (Hj1 : resting d1) by (unfold resting; by rewrite Ej1).
  assert (E24 : Z.land (Z.shiftr x 24) 15 = 0) by (rewrite Z.shiftr_div_pow2 by lia; by rewrite Z.div_small by (change (2 ^ 24) with 16777216; lia)).
  rewrite E24, Z.lor_0_r. assert (Hdv : dv = 0 \/ dv = 1) by apply land_one.
  apply wp_out_reg; [done|lia|done|]. intros d2 Hj2 Hm2 Hr2. apply wp_out_reg; [done|lia|apply land_byte|]. intros d3 Hj3 Hm3 Hr3.
  apply wp_out_reg; [done|lia|apply land_byte|]. intros d4 Hj4 Hm4 Hr4. apply wp_out_reg; [done|lia|apply land_byte|]. intros d5 Hj5 Hm5 Hr5.
  apply wp_out_reg; [done|lia|by destruct Hdv as [-> | ->]|]. intros d6 Hj6 Hm6 Hr6. cbn [dev set_dev] in *.
  assert (Hcount : regs d6 498 = 1) by by rewrite Hr6, Hr5, Hr4, Hr3, Hr2.
  assert (Hsec : task_sector d6 = x).
  { unfold task_sector. rewrite !Hr6, !Hr5, !Hr4, !Hr3. cbn [Z.eqb Pos.eqb]. replace (Z.land (Z.lor 224 (Z.shiftl dv 4)) 15) with 0 by by destruct Hdv as [-> | ->].
    rewrite Z.mul_0_r, Z.add_0_r. apply sector_bytes. lia. }
  assert (Hdrv : task_drive d6 = dv) by (unfold task_drive; rewrite Hr6; by destruct Hdv as [-> | ->]).
  assert (Hm : same_media (dev s) d6) by (intros r y; by rewrite Hm6, Hm5, Hm4, Hm3, Hm2, Hm1, Hm0).
  unfold job_of, dirty. destruct (Z.land (q_flags (bufs s i)) F_DIRTY =? 0) eqn:Ef; cbn [negb].
  - unfold outb. apply wp_modify. change (byte8 IDE_CMD_READ) with 32. cbn [dev set_dev]. destruct (out_read d6 Hj6 Hcount) as [Hj7 Hm7]. rewrite Hsec, Hdrv in Hj7.
    eexists. split; [reflexivity|]. split; [done|]. by eapply same_media_trans.
  - unfold outb, outsl. apply wp_modify_bind, wp_modify. change (byte8 IDE_CMD_WRITE) with 48. cbn [dev set_dev]. destruct (out_write d6 Hj6 Hcount) as [Hj7 Hm7].
    rewrite Hsec, Hdrv in Hj7. destruct (out_data _ _ _ (q_data (bufs s i)) Hj7 Hl) as [Hj8 Hm8]. eexists. split; [reflexivity|]. split; [done|].
    eapply same_media_trans; [exact Hm|]. by eapply same_media_trans.
Qed.

(** ** ideintr *)

Lemma chain_ext b b' q : forall h, (forall i, i ∈ q -> q_next (b' i) = q_next (b i)) -> chain b h q -> chain b' h q.
Proof.
  induction q as [|i q IH]; intros h He; [done|]. intros [-> Hc]. split; [done|]. rewrite He by by left. apply IH; [|done]. intros j Hj. apply He. by right.
Qed.

(** What the last part of [ideintr] and the beginning of [iderw] leave as it is. *)
Definition only_dev (s s' : ide D) : Prop := bufs s' = bufs s /\ same_media (dev s) (dev s') /\ asleep s' = asleep s /\ havedisk1 s' = havedisk1 s.

(** The device is idle and the lock held: starting the first request makes the queue go on. *)
Lemma wp_start_next (s : ide D) q : chain (bufs s) (idequeue s) q -> NoDup q -> Forall (fun i => (i < NBUFS)%nat) q -> Forall (fun i => waits (bufs s i)) q ->
  resting (dev s) ->
  wp (q ← gets idequeue; match q with Some _ => idestart q;; ide_release | None => ide_release end) s (fun _ s' => queued s' q /\ only_dev s s').
Proof.
  intros Hc Hn Hr Hw Hj. apply wp_gets_bind. destruct q as [|i q].
  - cbn in Hc. rewrite Hc. unfold ide_release. apply wp_modify. split; [|by repeat split]. by constructor.
  - pose proof Hc as [E _]. rewrite E. apply wp_bind. eapply wp_mono; [|apply wp_idestart; [done|by inversion Hw]]. intros _ s' (d & -> & Hjd & Hm).
    unfold ide_release. apply wp_modify. split; [|by repeat split]. by constructor.
Qed.

(** The state [s'] after the interrupt for the request [i], the first of the queue, in the state [s]. *)
Record after_intr (s s' : ide D) (i : nat) : Prop := {
  ai_buf : forall j, bufs s' j = if decide (j = i) then serve_buf (bufs s i) (fails (dev s)) (media (dev s)) else bufs s j;
  ai_disk : serves (bufs s i) (fails (dev s)) (media (dev s)) (media (dev s'));
  ai_asleep : asleep s' = asleep s ∖ {[i]};
  ai_disk1 : havedisk1 s' = havedisk1 s
}.

Lemma wp_intr_tail (s : ide D) i q d b1 : chain (bufs s) (q_next (bufs s i)) q -> NoDup (i :: q) -> Forall (fun i => (i < NBUFS)%nat) q -> Forall (fun i => waits (bufs s i)) q ->
  resting d -> serves (bufs s i) (fails (dev s)) (media (dev s)) (media d) ->
  (forall j, b1 j = if decide (j = i) then serve_buf (bufs s i) (fails (dev s)) (media (dev s)) else bufs s j) ->
  wp (q ← gets idequeue; match q with Some _ => idestart q;; ide_release | None => ide_release end)
    (mkIde d b1 (q_next (bufs s i)) true (havedisk1 s) (apic s) (asleep s ∖ {[i]})) (fun _ s' => queued s' q /\ after_intr s s' i).
Proof.
  intros Hc [Hni Hn]%NoDup_cons Hr Hw Hjd Hmd Hb1. assert (Hne : forall j, j ∈ q -> b1 j = bufs s j) by (intros j Hjq; rewrite Hb1; by rewrite decide_False by congruence).
  eapply wp_mono; [|apply (wp_start_next _ q); cbn [bufs idequeue dev]].
  - cbn. intros _ s' (Hq & Eb & Hm & Ea & Eh). cbn in Eb, Hm, Ea, Eh. split; [done|]. constructor; [by rewrite Eb|intros r x Hx; rewrite Hm; by apply Hmd|done|done].
  - eapply chain_ext; [|exact Hc]. intros j Hjq. by rewrite Hne.
  - done.
  - done.
  - rewrite Forall_forall in *. intros j Hjq. rewrite Hne by done. by apply Hw.
  - done.
Qed.

Lemma serves_read (b : dbuf) e (m m' : disk_t) : dirty b = false -> (forall r x, m' r x = m r x) -> serves b e m m'.
Proof. intros Hd Hm r x _. unfold serve_disk. by rewrite Hd. Qed.

Lemma wp_ideintr (s : ide D) i q : queued s (i :: q) ->
  wp ideintr (set_dev (settle (dev s)) s) (fun _ s' => queued s' q /\ after_intr s s' i).
Proof.
  intros [Hc Hn Hr Hw Hj Hlk]. destruct Hc as [Eq Hc]. apply Forall_cons in Hr as [_ Hr]. apply Forall_cons in Hw as [_ Hw].
  unfold ideintr. apply wp_bind. unfold wp at 1, ide_acquire. cbn [idelock set_dev]. rewrite Hlk.
  apply wp_gets_bind. cbn [idequeue set_lock set_dev]. rewrite Eq. apply wp_gets_bind, wp_modify_bind. cbn [bufs set_lock set_dev].
  unfold job_of in Hj. destruct (dirty (bufs s i)) eqn:Ed.
  - pose proof Ed as Ez. unfold dirty in Ez. apply negb_true_iff in Ez. rewrite Ez.
    destruct (settle_write _ _ _ _ Hj) as [Hset Hoth]. apply wp_ret_bind. unfold ide_wakeup. do 2 apply wp_modify_bind. apply (wp_intr_tail s i q); try done.
    + destruct Hset as [[? _]|?]; [by left|by right].
    + intros r x Hx. cbn [dev set_dev set_queue set_lock]. unfold serve_disk. rewrite Ed in *. cbn [andb].
      change (media (settle (dev s)) r x = if (r =? drive (bufs s i)) && (x =? q_blockno (bufs s i)) then q_data (bufs s i) else media (dev s) r x).
      destruct (Z.eqb_spec r (drive (bufs s i))) as [Er|Er]; destruct (Z.eqb_spec x (q_blockno (bufs s i))) as [Ex|Ex]; cbn [andb]; try (apply Hoth; congruence).
      rewrite Er, Ex. destruct Hset as [[_ ->]|Hf]; [done|]. unfold fails in Hx. rewrite Hf in Hx. done.
    + intros j. cbn. unfold serve_buf. rewrite Ed. cbn [orb]. destruct (decide (j = i)) as [->|]; [by rewrite !fn_lookup_insert|by rewrite !fn_lookup_insert_ne].
  - pose proof Ed as Ez. unfold dirty in Ez. apply negb_false_iff in Ez. rewrite Ez.
    destruct (settle_read _ _ _ Hj) as [Hset Hm1]. apply wp_bind, wp_bind.
    apply wp_idewait; cbn [dev set_queue set_lock set_dev]; [destruct Hset as [-> | ->]; done|].
    intros d v Hm Hp Hok Hbad. assert (Ejd : at_job d = at_job (settle (dev s))) by (destruct Hp as [?|(? & ? & E & _)]; [done|destruct Hset; congruence]).
    destruct Hset as [Hset|Hset]; rewrite Hset in Ejd.
    + rewrite (Hok _ Ejd). change (0 <=? if true && negb (0 =? 0) then -1 else 0) with true. cbn [when].
      apply wp_bind. unfold wp at 1, insl. cbn [dev set_dev]. change (BLOCK_SIZE / 4) with 128. destruct (in_data d _ Ejd) as (El & Hj2 & Hm2). rewrite El.
      apply wp_modify. unfold ide_wakeup. do 2 apply wp_modify_bind. apply (wp_intr_tail s i q); try done; [by left| |].
      * apply serves_read; [done|]. intros r x. cbn. by rewrite Hm2, Hm, Hm1.
      * intros j. cbn. unfold serve_buf, fails. rewrite Ed, Hset. cbn [orb]. destruct (decide (j = i)) as [->|]; [by rewrite !fn_lookup_insert|by rewrite !fn_lookup_insert_ne].
    + rewrite (proj2 (Z.eqb_neq _ _) (Hbad Ejd)). change (0 <=? if true && negb false then -1 else 0) with false. cbn [when].
      apply wp_ret. unfold ide_wakeup. do 2 apply wp_modify_bind. apply (wp_intr_tail s i q); try done; [by right| |].
      * apply serves_read; [done|]. intros r x. cbn. by rewrite Hm, Hm1.
      * intros j. cbn. unfold serve_buf, fails. rewrite Ed, Hset. cbn [orb]. destruct (decide (j = i)) as [->|]; [by rewrite !fn_lookup_insert|by rewrite !fn_lookup_insert_ne].
Qed.

(** ** iderw *)

(** A buffer, its link aside. *)
Definition unlinked (b : dbuf) : dbuf := mkDbuf (q_flags b) (q_dev b) (q_blockno b) (q_owner b) None (q_data b).

Lemma unlinked_same b b' : unlinked b' = unlinked b -> job_of b' = job_of b /\ finished b' = finished b /\ (waits b -> waits b').
Proof.
  destruct b, b'. unfold unlinked. cbn. intros E. injection E as -> -> -> -> ->. split_and!; [done|done|]. intros [? ? ?]. by constructor.
Qed.

Lemma walk_queue_last fuel : forall (s : ide D) pp q, chain (bufs s) (match pp with None => idequeue s | Some i => q_next (bufs s i) end) q -> (length q < fuel)%nat ->
  walk_queue fuel pp s = Some (match last q with Some j => Some j | None => pp end).
Proof.
  induction fuel as [|fuel IH]; intros s pp q Hc Hf; [lia|]. cbn [walk_queue]. destruct q as [|i q]; cbn [chain] in Hc; [by rewrite Hc|].
  destruct Hc as [-> Hc]. rewrite (IH s (Some i) q Hc) by (simpl in Hf; lia). destruct q as [|j q]; [done|]. rewrite last_cons_cons. by destruct (last (j :: q)) eqn:E; [|apply last_None in E].
Qed.

Lemma chain_snoc b i q : forall h j, chain b h q -> last q = Some j -> NoDup q -> q_next (b i) = None -> i <> j ->
  forall c, q_next c = Some i -> chain (<[j := c]> b) h (q ++ [i]).
Proof.
  induction q as [|x q IH]; intros h j Hc Hl Hn Hi Hne c Ec; [done|]. destruct Hc as [-> Hc]. apply NoDup_cons in Hn as [Hx Hn]. cbn [app chain]. split; [done|].
  destruct q as [|y q].
  - cbn in Hl. injection Hl as ->. rewrite fn_lookup_insert, Ec. cbn. split; [done|]. by rewrite fn_lookup_insert_ne.
  - rewrite last_cons_cons in Hl. assert (Hxj : j <> x). { intros ->. apply Hx. by apply last_Some_elem_of. }
    rewrite fn_lookup_insert_ne by done. by apply IH.
Qed.

Lemma short_queue q : NoDup q -> Forall (fun i => (i < NBUFS)%nat) q -> (length q <= NBUFS)%nat.
Proof.
  intros Hn Hr. transitivity (length (seq 0 NBUFS)); [|by rewrite length_seq]. apply submseteq_length, NoDup_submseteq; [done|]. intros i Hi. apply elem_of_seq.
  rewrite Forall_forall in Hr. specialize (Hr i Hi). lia.
Qed.

Lemma wp_append (s : ide D) i q : chain (bufs s) (idequeue s) q -> NoDup q -> Forall (fun j => (j < NBUFS)%nat) q -> i ∉ q -> q_next (bufs s i) = None ->
  wp (append i) s (fun _ s' => chain (bufs s') (idequeue s') (q ++ [i]) /\ (forall j, unlinked (bufs s' j) = unlinked (bufs s j)) /\
    dev s' = dev s /\ idelock s' = idelock s /\ havedisk1 s' = havedisk1 s /\ asleep s' = asleep s).
Proof.
  intros Hc Hn Hr Hi Ei. unfold wp, append. rewrite (walk_queue_last _ s None q Hc) by (pose proof (short_queue q Hn Hr); lia).
  destruct (last q) as [j|] eqn:Hl.
  - split_and!; [|intros k; cbn; destruct (decide (k = j)) as [->|]; [by rewrite fn_lookup_insert|by rewrite fn_lookup_insert_ne]|done|done|done|done].
    cbn. apply chain_snoc; [done|done|done|done| |done]. intros ->. by apply Hi, last_Some_elem_of.
  - apply last_None in Hl as ->. split_and!; [|done|done|done|done|done]. cbn. done.
Qed.

Lemma sleeps_gets_bind {S A B} (f : S -> A) (k : A -> M S B) s P : sleeps (k (f s) s) P -> sleeps ((gets f ≫= k) s) P.
Proof. done. Qed.

Lemma sleeps_modify_bind {S B} (f : S -> S) (k : unit -> M S B) s P : sleeps (k tt (f s)) P -> sleeps ((modify f ≫= k) s) P.
Proof. done. Qed.

Lemma ide_rw_queues n pid i (s : ide D) q : queued s q -> i ∉ q -> allowed pid i s ->
  sleeps (ide_rw (S n) pid i s) (fun s' k => k = resume n i /\ queued s' (q ++ [i]) /\ (forall j, unlinked (bufs s' j) = unlinked (bufs s j)) /\
    same_media (dev s) (dev s') /\ asleep s' = {[i]} ∪ asleep s /\ havedisk1 s' = havedisk1 s).
Proof.
  intros [Hc Hn Hr Hw Hj Hlk] Hi [Ar Ao At Ab Ad Al]. unfold ide_rw. apply sleeps_gets_bind. rewrite bool_decide_true, At by done. cbn [negb]. cbv iota.
  apply sleeps_gets_bind. replace (negb (q_dev (bufs s i) =? 0) && negb (havedisk1 s)) with false
    by (destruct Ad as [-> | ->]; [done|by rewrite andb_false_r]). cbv iota.
  apply sleeps_bind_wp. unfold wp at 1, ide_acquire. rewrite Hlk. apply sleeps_modify_bind, sleeps_bind_wp.
  set (s1 := set_next i None (set_lock true s)).
  assert (Eu : forall j, unlinked (bufs s1 j) = unlinked (bufs s j)).
  { intros j. cbn. destruct (decide (j = i)) as [->|]; [by rewrite fn_lookup_insert|by rewrite fn_lookup_insert_ne]. }
  eapply wp_mono; [|apply (wp_append s1 i q); [|done|done|done|cbn; by rewrite fn_lookup_insert]].
  2: { eapply chain_ext; [|exact Hc]. intros j Hjq. cbn. by rewrite fn_lookup_insert_ne by congruence. }
  intros _ s2 (Hc2 & Eu2 & Ed2 & El2 & Eh2 & Ea2). cbn in Ed2, El2, Eh2, Ea2.
  assert (Eu' : forall j, unlinked (bufs s2 j) = unlinked (bufs s j)) by (intros j; by rewrite Eu2, Eu).
  apply sleeps_gets_bind. apply sleeps_bind_wp.
  assert (Hfin : forall d, (forall r x, media d r x = media (dev s) r x) -> at_job d = Some (job_of (bufs s2 (default i (head q)))) ->
    sleeps ((wait_loop (S n) i;; ide_release) (set_dev d s2)) (fun s' k => k = resume n i /\ queued s' (q ++ [i]) /\
    (forall j, unlinked (bufs s' j) = unlinked (bufs s j)) /\ same_media (dev s) (dev s') /\ asleep s' = {[i]} ∪ asleep s /\ havedisk1 s' = havedisk1 s)).
  { intros d Hm Hjd. cbn [wait_loop]. unfold mbind at 1, M_bind at 1, mbind at 1, M_bind at 1. cbn [gets obind bufs set_dev].
    destruct (unlinked_same _ _ (Eu' i)) as (_ & -> & _). rewrite At. cbn [negb]. hnf. split_and!; [done| |done|done|cbn; by rewrite Ea2|done].
    constructor; cbn.
    - done.
    - apply NoDup_app. split_and!; [done|intros j Hjq ->%list_elem_of_singleton; done|apply NoDup_singleton].
    - apply Forall_app. split; [done|by apply Forall_singleton].
    - apply Forall_app. split; [|apply Forall_singleton; apply (unlinked_same _ _ (Eu' i)); by constructor].
      rewrite Forall_forall in *. intros j Hjq. apply (unlinked_same _ _ (Eu' j)). by apply Hw.
    - by destruct q.
    - done. }
  destruct q as [|h q].
  - cbn in Hc2. destruct Hc2 as [Eq _]. rewrite Eq, bool_decide_true by done. eapply wp_mono; [|apply wp_idestart].
    + intros _ s3 (d & -> & Hjd & Hm). apply Hfin; [|done]. intros r x. by rewrite Hm, Ed2.
    + by rewrite Ed2.
    + apply (unlinked_same _ _ (Eu' i)). by constructor.
  - pose proof Hc2 as [Eq _]. rewrite Eq, bool_decide_false by (intros [= ->]; apply Hi; by left). apply wp_ret. replace s2 with (set_dev (dev s2) s2) by by destruct s2.
    apply Hfin; [by rewrite Ed2|]. rewrite Ed2, Hj. cbn. by destruct (unlinked_same _ _ (Eu' h)) as (-> & _).
Qed.

(** ** The invariant holds *)

Lemma resume_done n i (s : ide D) : idelock s = false -> finished (bufs s i) = true -> resume (S n) i s = Done tt s.
Proof.
  intros Hl Hf. unfold resume, mbind, M_bind, ide_acquire. rewrite Hl. cbn [obind wait_loop]. unfold mbind, M_bind, gets. cbn [obind bufs set_lock]. rewrite Hf.
  cbn. destruct s. cbn in Hl. by subst.
Qed.

Lemma resume_again n i (s : ide D) : idelock s = false -> finished (bufs s i) = false ->
  resume (S n) i s = Asleep (set_asleep ({[i]} ∪ asleep s) s) (resume n i).
Proof.
  intros Hl Hf. unfold resume at 1, mbind, M_bind, ide_acquire. rewrite Hl. cbn [obind wait_loop]. unfold mbind, M_bind, gets. cbn [obind bufs set_lock]. rewrite Hf.
  cbn. destruct s. cbn in Hl. by subst.
Qed.

Lemma queue_unfinished (s : ide D) q i : queued s q -> i ∈ q -> finished (bufs s i) = false.
Proof. intros Hq Hi. pose proof (qu_waits _ _ Hq) as Hw. rewrite Forall_forall in Hw. by destruct (Hw i Hi). Qed.

Lemma queued_unchanged (s s' : ide D) q : queued s q -> dev s' = dev s -> idequeue s' = idequeue s -> idelock s' = idelock s -> (forall i, i ∈ q -> bufs s' i = bufs s i) -> queued s' q.
Proof.
  intros [Hc Hn Hr Hw Hj Hl] Ed Eq El Eb. constructor; [|done|done| |rewrite Ed; destruct q as [|j q]; [done|]; by rewrite Eb by by left|by rewrite El].
  - rewrite Eq. eapply chain_ext; [|exact Hc]. intros i Hi. by rewrite Eb.
  - rewrite Forall_forall in *. intros i Hi. rewrite Eb by done. by apply Hw.
Qed.

Lemma in_progress_head (s : ide D) q : queued s q -> in_progress (dev s) -> exists i q', q = i :: q'.
Proof.
  intros Hq Hp. destruct q as [|i q]; [|by eauto]. unfold in_progress in Hp. pose proof (qu_job _ _ Hq) as [E|E]; by rewrite E in Hp.
Qed.

Lemma intr_ok (s s' : ide D) fl q : ide_ok (mkSystem s fl) q -> in_progress (dev s) -> ideintr (set_dev (settle (dev s)) s) = Done tt s' ->
  exists i q', q = i :: q' /\ ide_ok (mkSystem s' fl) q' /\ after_intr s s' i.
Proof.
  intros [Hq Hin Hdn] Hp Hr. cbn [drv inside] in *. destruct (in_progress_head s q Hq Hp) as (i & q' & ->).
  pose proof (wp_ideintr s i q' Hq) as Hw. unfold wp in Hw. rewrite Hr in Hw. destruct Hw as (Hq' & Hai). pose proof Hai as [Hb _ Ha _]. exists i, q'. split_and!; [done| |done].
  pose proof (qu_nodup _ _ Hq) as [Hni _]%NoDup_cons. constructor; cbn [drv inside]; [done|intros j Hj; apply Hin; by right|].
  intros j Hj Hjq. rewrite Hb, Ha. destruct (decide (j = i)) as [->|Hne]; [split; [apply served_finished|set_solver]|].
  destruct (Hdn j Hj) as [Hf Hs]; [by apply not_elem_of_cons|]. split; [done|set_solver].
Qed.

Lemma ide_step_ok g g' q : ide_ok g q -> ide_step g g' -> exists q', ide_ok g' q'.
Proof.
  intros Hok Hst. pose proof Hok as [Hq Hin Hdn]. destruct Hst as [pid i n s s' fl Hfl Hal E|i n s s' fl Hfl Has E|i n m s s' fl Hfl Has E|i s fl|s s' fl Hp E|b s fl Hb Hnx]; cbn [drv inside] in *.
  - assert (Hi : i ∉ q) by (intros Hi%Hin; apply elem_of_dom in Hi; rewrite Hfl in Hi; by destruct Hi).
    pose proof (ide_rw_queues n pid i s q Hq Hi Hal) as Hw. rewrite E in Hw. destruct Hw as (_ & Hq' & Hu & _ & Ha & _). exists (q ++ [i]).
    constructor; cbn [drv inside]; [done|set_solver|]. intros j Hj Hjq. destruct (unlinked_same _ _ (Hu j)) as (_ & -> & _). rewrite Ha.
    destruct (Hdn j) as [Hf Hs]; [set_solver|set_solver|]. split; [done|set_solver].
  - exists q. destruct n as [|n]; [unfold resume, mbind, M_bind, ide_acquire in E; rewrite (qu_lock _ _ Hq) in E; done|].
    destruct (finished (bufs s i)) eqn:Hf; [|by rewrite resume_again in E by (apply Hq || done)]. rewrite resume_done in E by (apply Hq || done). injection E as <-.
    constructor; cbn [drv inside]; [done| |intros j Hj; apply Hdn; set_solver]. intros j Hj. assert (j <> i) by (intros ->; pose proof (queue_unfinished _ _ _ Hq Hj); congruence). set_solver.
  - exists q. destruct n as [|n]; [unfold resume, mbind, M_bind, ide_acquire in E; rewrite (qu_lock _ _ Hq) in E; done|].
    destruct (finished (bufs s i)) eqn:Hf; [by rewrite resume_done in E by (apply Hq || done)|]. rewrite resume_again in E by (apply Hq || done). injection E as <- _.
    constructor; cbn [drv inside]; [by apply (queued_unchanged s)|set_solver|]. intros j Hj Hjq. cbn. assert (j <> i).
    { intros ->. destruct (Hdn i) as [? _]; [by apply elem_of_dom_2 in Hfl|done|congruence]. }
    destruct (Hdn j) as [? ?]; [set_solver|done|]. split; [done|set_solver].
  - exists q. constructor; cbn [drv inside]; [by apply (queued_unchanged s)|done|]. intros j Hj Hjq. destruct (Hdn j Hj Hjq). cbn. split; [done|set_solver].
  - destruct (intr_ok s s' fl q Hok Hp E) as (i & q' & -> & Hok' & _). by exists q'.
  - exists q. constructor; cbn [drv inside]; [|done|].
    + apply (queued_unchanged s); [done|done|done|done|]. intros j Hj. by apply Hb, Hin.
    + intros j Hj Hjq. cbn. rewrite Hb by done. by apply Hdn.
Qed.

(** Nothing waits, nobody is inside. *)
Definition ide_start (g : system) : Prop := inside g = ∅ /\ idequeue (drv g) = None /\ idelock (drv g) = false /\ resting (dev (drv g)).

Lemma reachable_ok g0 g : ide_start g0 -> rtc ide_step g0 g -> exists q, ide_ok g q.
Proof.
  intros (E1 & E2 & E3 & E4) Hr. assert (Hok : exists q, ide_ok g0 q).
  { exists []. constructor; [|by intros i ?%elem_of_nil|rewrite E1; set_solver]. constructor; [done|constructor|constructor|constructor|done|done]. }
  clear E1 E2 E3 E4. induction Hr as [|g1 g2 g3 Hs _ IH]; [done|]. destruct Hok as [q Hok]. apply IH. by eapply ide_step_ok.
Qed.

(** C16: The disk driver never stops the kernel, whatever errors the device reports.
    The device is assumed not to be busy for ever: it has a bound on the polls at which it is not ready.  Then, in every
    state the processes, the signals and the interrupts can bring the driver to: a call of
    [iderw] that bio.c allows (the caller holds the buffer, which needs the disk, its
    block is one of the 1000 and its disk is there) queues its request and sleeps, without a panic; a process that is
    woken returns, or sleeps again where its request is still in the queue; and the
    handler of an interrupt at the end of a command returns. *)
Theorem driver_never_fails g0 g : ide_start g0 -> rtc ide_step g0 g ->
  (forall pid i n, inside g !! i = None -> allowed pid i (drv g) -> exists s, ide_rw (S n) pid i (drv g) = Asleep s (resume n i)) /\
  (forall i n, inside g !! i = Some (S n) ->
    resume (S n) i (drv g) = if finished (bufs (drv g) i) then Done tt (drv g) else Asleep (set_asleep ({[i]} ∪ asleep (drv g)) (drv g)) (resume n i)) /\
  (in_progress (dev (drv g)) -> exists s, ideintr (set_dev (settle (dev (drv g))) (drv g)) = Done tt s).
Proof.
  intros Hs Hr. destruct (reachable_ok g0 g Hs Hr) as [q [Hq Hin _]]. split_and!.
  - intros pid i n Hfl Hal. assert (Hi : i ∉ q) by (intros Hi%Hin; apply elem_of_dom in Hi; rewrite Hfl in Hi; by destruct Hi).
    pose proof (ide_rw_queues n pid i _ q Hq Hi Hal) as Hw. destruct (ide_rw (S n) pid i (drv g)) as [| | |s k| |]; try done. destruct Hw as [-> _]. by exists s.
  - intros i n _. pose proof (qu_lock _ _ Hq). destruct (finished _) eqn:Hf; [by apply resume_done|by apply resume_again].
  - intros Hp. destruct (in_progress_head _ q Hq Hp) as (i & q' & ->).
    destruct (proj1 (wp_Done _ _ _) (wp_ideintr _ i q' Hq)) as ([] & s' & E & _). by exists s'.
Qed.

(** ** Requests are completed in order *)

(** One interrupt, at the end of a command that fails ([e]) or not; and interrupts one after the other. *)
Definition intr (e : bool) (g g' : system) : Prop :=
  e = fails (dev (drv g)) /\ in_progress (dev (drv g)) /\ inside g' = inside g /\ ideintr (set_dev (settle (dev (drv g))) (drv g)) = Done tt (drv g').

Fixpoint intrs (es : list bool) (g g' : system) : Prop :=
  match es with
  | [] => g' = g
  | e :: es => exists g1, intr e g g1 /\ intrs es g1 g'
  end.

(** The disk after the requests [q], with and without the errors [es]. *)
Definition serve_all (b : nat -> dbuf) (q : list nat) (m : disk_t) : disk_t := foldl (fun m i => serve_disk (b i) m) m q.

Fixpoint carried (b : nat -> dbuf) (q : list nat) (es : list bool) (m m' : disk_t) : Prop :=
  match q, es with
  | [], [] => m' = m
  | i :: q, e :: es => exists m1, serves (b i) e m m1 /\ carried b q es m1 m'
  | _, _ => False
  end.

Lemma carried_ext b b' q : forall es m m', (forall i, i ∈ q -> b' i = b i) -> carried b q es m m' -> carried b' q es m m'.
Proof.
  induction q as [|i q IH]; intros [|e es] m m' Hb; try done. intros (m1 & Hs & Hc). exists m1. split; [by rewrite Hb by by left|]. apply IH; [|done]. intros j Hj. apply Hb. by right.
Qed.

Lemma carried_length b q : forall es m m', carried b q es m m' -> length es = length q.
Proof. induction q as [|i q IH]; intros [|e es] m m'; try done. intros (m1 & _ & Hc). cbn. f_equal. by eapply IH. Qed.

Lemma serve_disk_ext b (m m' : disk_t) : (forall r x, m' r x = m r x) -> forall r x, serve_disk b m' r x = serve_disk b m r x.
Proof. intros Hm r x. unfold serve_disk. by rewrite Hm. Qed.

Lemma serve_all_ext b q : forall m m', (forall r x, m' r x = m r x) -> forall r x, serve_all b q m' r x = serve_all b q m r x.
Proof. induction q as [|i q IH]; intros m m' Hm r x; [apply Hm|]. cbn. apply IH. by apply serve_disk_ext. Qed.

Lemma carried_well b q : forall es m m', carried b q es m m' -> Forall (eq false) es -> forall r x, m' r x = serve_all b q m r x.
Proof.
  induction q as [|i q IH]; intros [|e es] m m'; try done; [by intros ->|]. intros (m1 & Hs & Hc) [<- He]%Forall_cons r x. rewrite (IH _ _ _ Hc He). cbn.
  apply serve_all_ext. intros r' x'. by apply Hs.
Qed.

Lemma intr_serves g i q : ide_ok g (i :: q) -> exists e g', intr e g g' /\ ide_ok g' q /\ e = fails (dev (drv g)) /\ after_intr (drv g) (drv g') i.
Proof.
  intros Hok. destruct g as [s fl]. pose proof Hok as [Hq _ _]. cbn [drv] in Hq.
  destruct (proj1 (wp_Done _ _ _) (wp_ideintr s i q Hq)) as ([] & s' & E & _).
  assert (Hp : in_progress (dev s)) by (unfold in_progress; rewrite (qu_job _ _ Hq); unfold job_of; by destruct (dirty _)).
  destruct (intr_ok s s' fl (i :: q) Hok Hp E) as (i' & q' & [= <- <-] & Hok' & Hai). by exists (fails (dev s)), (mkSystem s' fl).
Qed.

Lemma prefix_served q1 : forall g i q2, ide_ok g (q1 ++ i :: q2) -> exists es e g' m1, intrs (es ++ [e]) g g' /\ ide_ok g' q2 /\ inside g' = inside g /\
  carried (bufs (drv g)) q1 es (media (dev (drv g))) m1 /\ serves (bufs (drv g) i) e m1 (media (dev (drv g'))) /\ bufs (drv g') i = serve_buf (bufs (drv g) i) e m1.
Proof.
  induction q1 as [|j q1 IH]; intros g i q2 Hok; cbn [app] in Hok.
  - destruct (intr_serves g i q2 Hok) as (e & g' & Hi & Hok' & -> & [Hb Hm _ _]). exists [], (fails (dev (drv g))), g', (media (dev (drv g))).
    split_and!; [by exists g'|done|by destruct Hi as (_ & _ & -> & _)|done|done|]. rewrite Hb. by rewrite decide_True.
  - pose proof (qu_nodup _ _ (ok_queued _ _ Hok)) as [Hj _]%NoDup_cons. destruct (intr_serves g j _ Hok) as (e & g1 & Hi & Hok1 & -> & [Hb Hm _ _]).
    destruct (IH g1 i q2 Hok1) as (es & e' & g' & m1 & Hns & Hok' & Hin & Hc & Hs & Hb').
    exists (fails (dev (drv g)) :: es), e', g', m1.
    assert (Hne : forall k, k ∈ q1 ++ [i] -> bufs (drv g1) k = bufs (drv g) k).
    { intros k Hk. rewrite Hb, decide_False; [done|]. intros ->. apply Hj. set_solver. }
    rewrite (Hne i) in Hs, Hb' by set_solver. split_and!; [by exists g1|done|rewrite Hin; by destruct Hi as (_ & _ & -> & _)| |done|done].
    exists (media (dev (drv g1))). split; [done|]. eapply carried_ext; [|exact Hc]. intros k Hk. symmetry. apply Hne. set_solver.
Qed.

(** C15: Every request is completed, in the order of the calls: in every state the
    system can come to, a request that waits has the requests [q] before it in the
    queue, and after one interrupt for each of these and one for itself its
    process is woken and returns.  The requests are carried out one after the other: each read gives the
    contents its block has after the requests before it, each write changes its block and no other.
    Where the device reports an error for a request ([es] and [e], one flag per
    interrupt), a read leaves the buffer's old data and a write may leave anything in its
    own block; the driver does not tell: the buffer is valid and clean, and the process returns, as without the error.
    Where it reports none, the disk and the buffer are those of the requests in order.
    (The device is assumed not to be busy for ever.) *)
Theorem request_completes g0 g i n : ide_start g0 -> rtc ide_step g0 g -> inside g !! i = Some (S n) -> finished (bufs (drv g) i) = false ->
  exists q q2 es e g' m1, chain (bufs (drv g)) (idequeue (drv g)) (q ++ i :: q2) /\ intrs (es ++ [e]) g g' /\ length es = length q /\
    (i ∉ asleep (drv g')) /\ finished (bufs (drv g') i) = true /\ resume (S n) i (drv g') = Done tt (drv g') /\
    carried (bufs (drv g)) q es (media (dev (drv g))) m1 /\ serves (bufs (drv g) i) e m1 (media (dev (drv g'))) /\
    bufs (drv g') i = serve_buf (bufs (drv g) i) e m1 /\
    (Forall (eq false) (es ++ [e]) ->
      (forall r x, media (dev (drv g')) r x = serve_all (bufs (drv g)) (q ++ [i]) (media (dev (drv g))) r x) /\
      bufs (drv g') i = serve_buf (bufs (drv g) i) false (serve_all (bufs (drv g)) q (media (dev (drv g))))).
Proof.
  intros Hs Hr Hi Hf. destruct (reachable_ok g0 g Hs Hr) as [q Hok].
  assert (Hiq : i ∈ q). { destruct (decide (i ∈ q)); [done|]. destruct (ok_done _ _ Hok i); [by apply elem_of_dom_2 in Hi|done|congruence]. }
  apply list_elem_of_split in Hiq as (q1 & q2 & ->). destruct (prefix_served q1 g i q2 Hok) as (es & e & g' & m1 & Hns & Hok' & Hin & Hc & Hsv & Hb). exists q1, q2, es, e, g', m1.
  assert (Hf' : finished (bufs (drv g') i) = true) by (rewrite Hb; apply served_finished).
  split_and!; [apply Hok|done|by eapply carried_length| |done|apply resume_done; [apply Hok'|done]|done|done|done|].
  - apply (ok_done _ _ Hok'); [rewrite Hin; by apply elem_of_dom_2 in Hi|]. intros Hin2. pose proof (queue_unfinished _ _ _ (ok_queued _ _ Hok') Hin2). congruence.
  - intros [Hes He]%Forall_app. apply Forall_singleton in He as <-. pose proof (carried_well _ _ _ _ _ Hc Hes) as Hm1. split.
    + intros r x. rewrite Hsv by done. unfold serve_all. rewrite foldl_app. cbn. by apply serve_disk_ext.
    + rewrite Hb. unfold serve_buf. by rewrite Hm1.
Qed.

End System.

(** ** A disk to run the driver on *)

Module SmallDisk.

(** A device that is busy for [d_wait] polls after each command and cannot read or write the sectors [bad]. *)
Record disk (bad : Z -> bool) : Type := mkDisk { d_regs : Z -> Z; d_job : option job; d_media : Z -> Z -> list Z; d_wait : nat }.
#[global] Arguments mkDisk {bad}.
#[global] Arguments d_regs {bad}.
#[global] Arguments d_job {bad}.
#[global] Arguments d_media {bad}.
#[global] Arguments d_wait {bad}.

Section device.
Context {bad : Z -> bool}.

Definition with_job (j : option job) (w : nat) (d : disk bad) : disk bad := mkDisk (d_regs d) j (d_media d) w.

(** The end of a read. *)
Definition read_ends (d : disk bad) (r s : Z) : job := if bad s then Failed else Ready (d_media d r s).

#[global] Instance disk_view : View (disk bad) := {
  regs := d_regs;
  at_job := d_job;
  media := d_media;
  settle d :=
    match d_job d with
    | Some (Reading r s) => with_job (Some (read_ends d r s)) 0 d
    | Some (Writing r s b) =>
        if bad s then with_job (Some Failed) 0 d
        else mkDisk (d_regs d) None (fun r' s' => if (r' =? r) && (s' =? s) then b else d_media d r' s') 0
    | _ => d
    end
}.

Definition status_of (j : option job) : Z := match j with Some Failed => Z.lor IDE_DRDY IDE_ERR | _ => IDE_DRDY end.

#[global] Instance disk_ports : Ports (disk bad) := {
  p_inb p d :=
    match d_wait d with
    | S w => (with_job (d_job d) w d, IDE_BSY)
    | O => let j := match d_job d with Some (Reading r s) => Some (read_ends d r s) | j => j end in (with_job j 0 d, status_of j)
    end;
  p_outb p v d :=
    if p =? STATUS then
      match d_job d with
      | None | Some Failed =>
          if v =? IDE_CMD_READ then with_job (Some (Reading (task_drive d) (task_sector d))) 2 d
          else with_job (Some (WriteData (task_drive d) (task_sector d))) 0 d
      | Some _ => d
      end
    else if (498 <=? p) && (p <=? 502) then mkDisk (fun q => if q =? p then v else d_regs d q) (d_job d) (d_media d) (d_wait d)
    else d;
  p_insl p n d := match d_job d with Some (Ready b) => (with_job None 0 d, b) | _ => (d, []) end;
  p_outsl p b d := match d_job d with Some (WriteData r s) => with_job (Some (Writing r s b)) 2 d | _ => d end;
  patience := d_wait
}.

#[global] Instance disk_ata : Ata (disk bad).
Proof.
  constructor.
  - intros d p v Hj Hp. cbn. rewrite (proj2 (Z.eqb_neq p STATUS)) by (unfold STATUS; lia).
    rewrite (proj2 (Z.leb_le 498 p)), (proj2 (Z.leb_le p 502)) by lia. done.
  - done.
  - intros d [Hj|Hj] _; cbn in *; by rewrite Hj.
  - intros d [Hj|Hj] _; cbn in *; by rewrite Hj.
  - intros d r s b Hj _. cbn in *. by rewrite Hj.
  - intros d b Hj. cbn in *. by rewrite Hj.
  - intros d Hw. unfold polled. cbn in *. destruct (d_wait d) as [|w]; cbn.
    + split_and!; [|done| |intros _; split_and!].
      * destruct (d_job d) as [[]|]; [right|by left..]. eexists _, _. split; [done|]. unfold read_ends. destruct (bad _); auto.
      * destruct (d_job d) as [[]|]; cbn; unfold read_ends; repeat case_match; done.
      * intros r s. destruct (d_job d) as [[]|]; cbn; unfold read_ends; repeat case_match; done.
      * intros b. destruct (d_job d) as [[]|]; cbn; unfold read_ends; repeat case_match; done.
      * destruct (d_job d) as [[]|]; cbn; unfold read_ends; repeat case_match; done.
    + split_and!; [by left|done|intros _; lia|done].
  - intros d r s Hj. cbn in *. rewrite Hj. cbn. unfold read_ends. destruct (bad s); (split; [by auto|done]).
  - intros d r s b Hj. cbn in *. rewrite Hj. destruct (bad s); cbn; [split; [by right|done]|]. split; [left; by rewrite !Z.eqb_refl|].
    intros r' s' Hne. destruct (Z.eqb_spec r' r); destruct (Z.eqb_spec s' s); cbn; congruence.
Qed.

(** Without bad sectors no read fails. *)
Lemma disk_dependable (d : disk bad) r s : (forall x, bad x = false) -> d_job d = Some (Reading r s) -> d_job (p_inb STATUS d).1 <> Some Failed.
Proof. intros Hb Hj. cbn. destruct (d_wait d); cbn; rewrite Hj; [|done]. unfold read_ends. by rewrite Hb. Qed.

End device.

(** Process 7 reads block 9, which process 8 has just asked to be written. *)
Definition block (c : Z) : list Z := replicate 512 c.
Definition reader : dbuf := mkDbuf 0 1 9 (Some 7) None (block 0).
Definition writer : dbuf := mkDbuf 4 1 9 (Some 8) None (block 65).
Definition none_bad (x : Z) : bool := false.
Definition fresh : ide (disk none_bad) := mkIde (mkDisk (fun _ => 0) None (fun _ _ => block 0) 0) (fun i => if (i =? 0)%nat then writer else reader) None false true (fun _ => 0) ∅.

Definition after {bad} (o : outcome (ide (disk bad)) unit) (s : ide (disk bad)) : ide (disk bad) := match o with Done _ s | Asleep s _ => s | _ => s end.
Definition asked1 : ide (disk none_bad) := after (ide_rw 3 8 0 fresh) fresh.
Definition asked2 : ide (disk none_bad) := after (ide_rw 3 7 1 asked1) asked1.
Definition start : system := mkSystem fresh ∅.
Definition both : system := mkSystem asked2 (<[1%nat := 2%nat]> (<[0%nat := 2%nat]> ∅)).

Lemma asked {bad} (s : ide (disk bad)) n pid i q : queued s q -> i ∉ q -> allowed pid i s ->
  ide_rw (S n) pid i s = Asleep (after (ide_rw (S n) pid i s) s) (resume n i) /\ queued (after (ide_rw (S n) pid i s) s) (q ++ [i]).
Proof.
  intros Hq Hi Hal. pose proof (ide_rw_queues n pid i s q Hq Hi Hal) as Hw. destruct (ide_rw (S n) pid i s) as [| | |s' k| |]; try done. by destruct Hw as (-> & Hq' & _).
Qed.

Lemma both_reached : rtc ide_step start both.
Proof.
  destruct (asked fresh 2 8 0 []) as [E1 Hq1]; [constructor; try done; [constructor..|by left]|by intros ?%elem_of_nil| |].
  { constructor; [vm_compute; lia|reflexivity|reflexivity|split; done|by right|reflexivity]. }
  destruct (asked asked1 2 7 1 [0%nat]) as [E2 _]; [done|by intros ?%list_elem_of_singleton| |].
  { constructor; [vm_compute; lia|vm_compute; reflexivity|vm_compute; reflexivity|vm_compute; split; done|vm_compute; by right|vm_compute; reflexivity]. }
  eapply rtc_l; [apply (st_call 8 0 2 fresh asked1); [done| |exact E1]|].
  { constructor; [vm_compute; lia|reflexivity|reflexivity|split; done|by right|reflexivity]. }
  eapply rtc_l; [apply (st_call 7 1 2 asked1 asked2); [done| |exact E2]|apply rtc_refl].
  constructor; [vm_compute; lia|vm_compute; reflexivity|vm_compute; reflexivity|vm_compute; split; done|vm_compute; by right|vm_compute; reflexivity].
Qed.

Lemma driver_never_fails_witness : exists s, ideintr (set_dev (settle (dev asked2)) asked2) = Done tt s.
Proof. destruct (driver_never_fails start both) as (_ & _ & Hi); [by repeat split; left|apply both_reached|]. apply Hi. exact I. Defined.

Lemma request_completes_witness : exists es e g', intrs (es ++ [e]) both g' /\ length es = 1%nat /\
  (Forall (eq false) (es ++ [e]) -> q_data (bufs (drv g') 1%nat) = block 65).
Proof.
  destruct (request_completes start both 1 1) as (q & q2 & es & e & g' & m1 & Hc & Hn & Hl & _ & _ & _ & _ & _ & _ & Hb); [by repeat split; left|apply both_reached|reflexivity|reflexivity|].
  assert (q = [0%nat]) as ->.
  { vm_compute in Hc. destruct q as [|a [|b q]]; [by destruct Hc|by destruct Hc as [[= <-] _]|]. destruct Hc as [[= <-] [[= <-] Hc]]. destruct q; by destruct Hc. }
  exists es, e, g'. split; [exact Hn|]. split; [exact Hl|]. intros He. destruct (Hb He) as [_ ->]. vm_compute. reflexivity.
Defined.

(** A read of a bad sector: its process returns with the buffer's old bytes, marked valid. *)
Definition all_bad (x : Z) : bool := true.
Definition broken : ide (disk all_bad) := mkIde (mkDisk (fun _ => 0) None (fun _ _ => block 1) 0) (fun _ => reader) None false true (fun _ => 0) ∅.

Lemma failed_read_returns :
  let s := after (ide_rw 3 7 0 broken) broken in
  let s' := after (ideintr (set_dev (settle (dev s)) s)) s in
  resume 2 0 s' = Done tt s' /\ q_flags (bufs s' 0%nat) = F_VALID /\ q_data (bufs s' 0%nat) = block 0 /\ media (dev s') 1 9 = block 1.
Proof. vm_compute. done. Qed.

End SmallDisk.
