(* ===== verification/Drivers.v ===== *)
(** * The two disk drivers

    bio.c calls [iderw] of memide.c (Bio.v) or of ide.c (Ide.v), according to how the
    kernel is linked.  The first copies a block at once; the second queues a request
    which the disk carries out later.

    Shown: a call of ide.c's [iderw], with the requests that wait before it and the
    interrupts up to its own, leaves the buffer and the disk that memide.c's [iderw]
    leaves on the disk those requests make, unless the device reports an error. *)

From S2P Require Import Prelude CString KState Spinlock Proc Sleeplock Bio Ide.

(** ** The same state for both *)

(** The data of a block, as memory and as the list of its bytes. *)
Definition same_block (m : mem) (l : list Z) : Prop := forall k, 0 <= k < 512 -> m k = default 0 (l !! Z.to_nat k).

Record same_buf (x : buf) (b : dbuf) : Prop := {
  sb_flags : b_flags x = q_flags b;
  sb_dev : b_dev x = q_dev b;
  sb_blockno : b_blockno x = q_blockno b;
  sb_data : same_block (b_data x) (q_data b)
}.

(** Disk 1 as memide.c and as the device have it. *)
Definition same_disk (f : fsst) (m : disk_t) : Prop := forall bn, same_block (d_blocks (fs_disk f) bn) (m 1 bn).

Lemma flags_written f : Z.lor (Z.land f (Z.lnot B_DIRTY)) B_VALID = Z.ldiff (Z.lor f F_VALID) F_DIRTY.
Proof.
  rewrite <- Z.ldiff_land. apply Z.bits_inj'. intros k Hk. rewrite Z.lor_spec, !Z.ldiff_spec, Z.lor_spec. change B_VALID with 2. change B_DIRTY with 4. change F_VALID with 2. change F_DIRTY with 4.
  destruct (Z.eq_dec k 1) as [->|Hk1]; [cbn; by rewrite !orb_true_r|]. change 2 with (2 ^ 1). rewrite !Z.pow2_bits_false by lia. by rewrite !orb_false_r.
Qed.

Lemma flags_read f : Z.testbit f 2 = false -> Z.lor f B_VALID = Z.ldiff (Z.lor f F_VALID) F_DIRTY.
Proof.
  intros Hd. apply Z.bits_inj'. intros k Hk. rewrite Z.ldiff_spec, !Z.lor_spec. change B_VALID with 2. change F_VALID with 2. change F_DIRTY with (2 ^ 2).
  destruct (Z.eq_dec k 2) as [->|Hk2]; [rewrite Hd; reflexivity|]. rewrite (Z.pow2_bits_false 2) by lia. by rewrite andb_true_r.
Qed.

Lemma same_dirty x b : same_buf x b -> Ide.dirty b = Bio.dirty x.
Proof. intros [E _ _ _]. unfold Ide.dirty. rewrite <- E. change F_DIRTY with B_DIRTY. by rewrite land_dirty, negb_involutive. Qed.

(** memide.c's [iderw] leaves the buffer and the disk of a request that is served without an error. *)
Lemma iderw_serves (cur i : nat) (s : kstate) (b : dbuf) (m : disk_t) :
  on_cpu [] (Some cur) (k_core s) -> locked_by (p_pid (proc_at s cur)) (fs_buf (k_fs s) i) -> b_dev (fs_buf (k_fs s) i) = 1 ->
  b_blockno (fs_buf (k_fs s) i) < d_size (fs_disk (k_fs s)) -> finished b = false ->
  same_buf (fs_buf (k_fs s) i) b -> same_disk (k_fs s) m ->
  wp (iderw i) s (fun _ s' => same_buf (fs_buf (k_fs s') i) (serve_buf b false m) /\ same_disk (k_fs s') (serve_disk b m)).
Proof.
  intros Hc Hl Hdev Hsz Hf Hb Hm. pose proof (same_dirty _ _ Hb) as Ed. pose proof Hb as [E1 E2 E3 E4]. set (x := fs_buf (k_fs s) i) in *.
  assert (Hdrv : drive b = 1) by (unfold drive; by rewrite <- E2, Hdev).
  destruct (Bio.dirty x) eqn:Hd.
  - apply (wp_iderw_write cur i s); try done. intros c f _ [Hat _ Hdk _ _ _]. cbn [k_fs set_fs set_core]. rewrite Hat. split.
    + split; cbn; fold x; [by rewrite flags_written, E1|done|done|by rewrite Ed, orb_true_l].
    + intros bn. rewrite Hdk. cbn. unfold serve_disk. rewrite Ed, Hdrv, Z.eqb_refl. cbn [andb]. fold x. rewrite E3. destruct (Z.eqb_spec bn (q_blockno b)) as [->|Hne].
      * by rewrite fn_lookup_insert.
      * rewrite fn_lookup_insert_ne by done. apply Hm.
  - assert (Hv : valid x = false).
    { unfold finished in Hf. change (Z.lor F_VALID F_DIRTY) with (Z.lor B_VALID B_DIRTY) in Hf. change F_VALID with B_VALID in Hf. rewrite <- E1, land_both, Hd, andb_true_r in Hf. done. }
    apply (wp_iderw_read cur i s); try done. intros c f _ [Hat _ Hdk _ _ _]. cbn [k_fs set_fs set_core]. rewrite Hat. split.
    + split; cbn; fold x; [rewrite E1; apply flags_read; by rewrite <- E1|done|done|]. rewrite Ed, Hdrv. rewrite E3. apply Hm.
    + intros bn. rewrite Hdk. unfold serve_disk. rewrite Ed. cbn [andb]. apply Hm.
Qed.

(** ** A request to ide.c *)

Section agree.
  Context {D : Type} `{Ports D, !View D, !Ata D}.

Lemma chain_unique b q : forall q' h, chain b h q -> chain b h q' -> q' = q.
Proof.
  induction q as [|i q IH]; intros [|j q'] h; cbn [chain]; [done|by intros -> [? _]|by intros [-> _] ?|]. intros [-> Hc] [[= <-] Hc']. f_equal. by eapply IH.
Qed.

Lemma serve_all_unlinked (b b' : nat -> dbuf) q : (forall j, unlinked (b' j) = unlinked (b j)) ->
  forall m m', (forall r x, m' r x = m r x) -> forall r x, serve_all b' q m' r x = serve_all b q m r x.
Proof.
  intros Hu. induction q as [|i q IH]; intros m m' Hm r x; [apply Hm|]. cbn. apply IH. intros r' x'. unfold serve_disk, Ide.dirty, drive.
  specialize (Hu i). destruct (b i), (b' i). unfold unlinked in Hu. cbn in *. injection Hu as -> -> -> -> ->. by rewrite Hm.
Qed.

(** A request that is called, with the requests [q] before it, is completed by the interrupts for [q] and itself. *)
Lemma called_completes (g0 g : system) pid j n q : ide_start g0 -> rtc ide_step g0 g -> inside g !! j = None -> allowed pid j (drv g) ->
  chain (bufs (drv g)) (idequeue (drv g)) q ->
  exists s1 es g', ide_rw (S (S n)) pid j (drv g) = Asleep s1 (resume (S n) j) /\ unlinked (bufs s1 j) = unlinked (bufs (drv g) j) /\
    intrs es (mkSystem s1 (<[j := S n]> (inside g))) g' /\ length es = S (length q) /\ resume (S n) j (drv g') = Done tt (drv g') /\
    (Forall (eq false) es -> let m := serve_all (bufs (drv g)) q (media (dev (drv g))) in
      (forall r x, media (dev (drv g')) r x = serve_disk (bufs s1 j) m r x) /\ bufs (drv g') j = serve_buf (bufs s1 j) false m).
Proof.
  intros Hs Hr Hn Hal Hq. destruct (reachable_ok g0 g Hs Hr) as [q0 Hok]. pose proof Hok as [Hq0 Hin _]. assert (q0 = q) as -> by (eapply chain_unique; [exact Hq|apply Hq0]).
  assert (Hj : j ∉ q) by (intros Hj%Hin; apply elem_of_dom in Hj; rewrite Hn in Hj; by destruct Hj).
  pose proof (ide_rw_queues (S n) pid j (drv g) q Hq0 Hj Hal) as Hw. destruct (ide_rw (S (S n)) pid j (drv g)) as [| | |s1 k| |] eqn:E; try done.
  destruct Hw as (-> & Hq1 & Hu & Hm & _). destruct g as [s fl]. cbn [drv inside] in *. set (g1 := mkSystem s1 (<[j := S n]> fl)).
  assert (Hok1 : ide_ok g1 (q ++ [j])).
  { destruct (ide_step_ok _ g1 _ Hok (st_call pid j (S n) s s1 fl Hn Hal E)) as [q1 Hok1].
    assert (q1 = q ++ [j]) as -> by (eapply chain_unique; [apply Hq1|apply Hok1]). done. }
  destruct (prefix_served q g1 j [] Hok1) as (es & e & g' & m1 & Hns & Hok' & _ & Hc & Hsv & Hb). exists s1, (es ++ [e]), g'.
  split_and!; [done|apply Hu|done|rewrite length_app, (carried_length _ _ _ _ _ Hc); simpl; lia|apply resume_done; [apply Hok'|rewrite Hb; apply served_finished]|].
  intros [Hes He]%Forall_app. apply Forall_singleton in He as <-. cbn zeta.
  assert (Em : forall r x, m1 r x = serve_all (bufs s) q (media (dev s)) r x) by (intros r x; rewrite (carried_well _ _ _ _ _ Hc Hes); by apply serve_all_unlinked).
  split; [intros r x; rewrite Hsv by done; by apply serve_disk_ext|]. rewrite Hb. unfold serve_buf. by rewrite Em.
Qed.

(** C17: The two drivers agree.  Take a buffer of disk 1 that needs the disk, for which the caller may call
    either driver, and a state of ide.c, with the requests [q] in its queue, which the processes and interrupts can bring it to.
    The call of ide.c's [iderw] queues the request and sleeps; as many
    interrupts later as there are requests up to it, the process returns.  If the device reported no error
    for these requests, the buffer and the disk are then those with which memide.c's [iderw]
    returns, called on the same buffer and on the disk as the requests [q] make it. *)
Theorem drivers_agree (cur i j n : nat) (pid : Z) (s : kstate) (g0 g : system) (q : list nat) :
  on_cpu [] (Some cur) (k_core s) -> locked_by (p_pid (proc_at s cur)) (fs_buf (k_fs s) i) -> b_dev (fs_buf (k_fs s) i) = 1 ->
  b_blockno (fs_buf (k_fs s) i) < d_size (fs_disk (k_fs s)) ->
  ide_start g0 -> rtc ide_step g0 g -> inside g !! j = None -> allowed pid j (drv g) -> chain (bufs (drv g)) (idequeue (drv g)) q ->
  same_buf (fs_buf (k_fs s) i) (bufs (drv g) j) -> same_disk (k_fs s) (serve_all (bufs (drv g)) q (media (dev (drv g)))) ->
  wp (iderw i) s (fun _ s' => exists s1 es g', ide_rw (S (S n)) pid j (drv g) = Asleep s1 (resume (S n) j) /\
    intrs es (mkSystem s1 (<[j := S n]> (inside g))) g' /\ length es = S (length q) /\ resume (S n) j (drv g') = Done tt (drv g') /\
    (Forall (eq false) es -> same_buf (fs_buf (k_fs s') i) (bufs (drv g') j) /\ same_disk (k_fs s') (media (dev (drv g'))))).
Proof.
  intros Hc Hl Hdev Hsz Hs Hr Hn Hal Hq Hb Hm. destruct (called_completes g0 g pid j n q Hs Hr Hn Hal Hq) as (s1 & es & g' & E & Hu & Hi & Hlen & Hres & Hend).
  assert (Hb1 : same_buf (fs_buf (k_fs s) i) (bufs s1 j)).
  { destruct Hb as [B1 B2 B3 B4]. destruct (bufs s1 j), (bufs (drv g) j). unfold unlinked in Hu. cbn in *. injection Hu as -> -> -> -> ->. by split. }
  assert (Hf1 : finished (bufs s1 j) = false) by (destruct (unlinked_same _ _ Hu) as (_ & -> & _); apply Hal).
  eapply wp_mono; [|apply (iderw_serves cur i s (bufs s1 j) _ Hc Hl Hdev Hsz Hf1 Hb1 Hm)]. intros _ s' [Hb' Hm']. exists s1, es, g'.
  split_and!; [done|done|done|done|]. intros He. destruct (Hend He) as [Em ->]. split; [done|]. intros bn k Hk. rewrite Em. by apply Hm'.
Qed.

End agree.

Module OneBuffer.
Import SmallDisk.

(** A process reads block 9 of a disk on which the request before its own writes the block. *)
Definition base : kstate := Empty.st (KState.mkDisk (fun bn _ => if bn =? 9 then 65 else 0) 100 []) zero_log.
Definition reading : kstate := set_fs (with_buf (<[0%nat := mkBuf 0 1 9 (mkSl true 7) 1 0 0 (fun _ => 0)]> (fs_buf (k_fs base))) (k_fs base)) base.
Definition one_waits : system := mkSystem asked1 {[0%nat := 2%nat]}.

Lemma one_waits_reached : rtc ide_step start one_waits.
Proof.
  destruct (asked fresh 2 8 0 []) as [E1 _]; [constructor; try done; [constructor..|by left]|by intros ?%elem_of_nil| |].
  { constructor; [vm_compute; lia|reflexivity|reflexivity|split; done|by right|reflexivity]. }
  eapply rtc_l; [apply (st_call 8 0 2 fresh asked1); [done| |exact E1]|apply rtc_refl].
  constructor; [vm_compute; lia|reflexivity|reflexivity|split; done|by right|reflexivity].
Qed.

Lemma asked1_serves bn : serve_all (bufs asked1) [0%nat] (media (dev asked1)) 1 bn = if bn =? 9 then block 65 else block 0.
Proof. vm_compute. reflexivity. Qed.

Lemma asked1_reader : bufs (drv one_waits) 1%nat = reader.
Proof. vm_compute. reflexivity. Qed.

Lemma block_at c (k : Z) : 0 <= k < 512 -> c = default 0 (block c !! Z.to_nat k).
Proof. intros Hk. unfold block. by rewrite lookup_replicate_2 by lia. Qed.

Lemma drivers_agree_witness : wp (iderw 0) reading (fun _ s' => exists s1 es g', ide_rw 3 7 1 (drv one_waits) = Asleep s1 (resume 2 1) /\
  intrs es (mkSystem s1 (<[1%nat := 2%nat]> (inside one_waits))) g' /\ length es = 2%nat /\
  (Forall (eq false) es -> b_data (fs_buf (k_fs s') 0%nat) 3 = default 0 (q_data (bufs (drv g') 1%nat) !! 3%nat))).
Proof.
  eapply wp_mono; [|apply (drivers_agree 0 0 1 1 7 reading start one_waits [0%nat])].
  - intros _ s' (s1 & es & g' & E & Hi & Hlen & _ & Hsame). exists s1, es, g'. split_and!; [exact E|exact Hi|exact Hlen|].
    intros He. destruct (Hsame He) as [[_ _ _ Hd] _]. rewrite Hd by lia. reflexivity.
  - apply (one_cpu_on _).
  - reflexivity.
  - reflexivity.
  - reflexivity.
  - by repeat split; left.
  - apply one_waits_reached.
  - reflexivity.
  - constructor; [vm_compute; lia|vm_compute; reflexivity|vm_compute; reflexivity|vm_compute; split; done|vm_compute; by right|vm_compute; reflexivity].
  - split; [vm_compute; reflexivity|]. vm_compute. reflexivity.
  - split; [vm_compute; reflexivity..|]. intros k Hk. rewrite asked1_reader. by apply block_at.
  - intros bn k Hk. change (d_blocks (fs_disk (k_fs reading)) bn k) with (if bn =? 9 then 65 else 0). cbn [one_waits drv]. rewrite asked1_serves. destruct (bn =? 9); by apply block_at.
Defined.

End OneBuffer.
