(* ===== verification/Boot.v ===== *)
(** * bootmain.c: loading the kernel

    The boot loader reads sectors from the first disk by polling, through the ports
    of Ide.v; memory is a function from physical addresses to bytes, and addresses
    have 32 bits, in the copies too.  The image of
    the kernel is on the disk from sector 1 on.

    Shown: a load of a piece of the image puts its bytes in place, and at most a
    sector's worth of its neighbours around it; where the segments of the image do
    not spoil one another this way, the loader leaves every segment in memory as
    its program header says and jumps to the entry point of the image. *)

From S2P Require Import Prelude CString Ide.

(** ** The loader *)

Section Loader.
  Context {D : Type} `{Ports D}.

Fixpoint waitdisk_loop (fuel : nat) (d : D) : option D :=
  match fuel with
  | O => None
  | S k => if negb (Z.land (p_inb 503 d).2 192 =? 64) then waitdisk_loop k (p_inb 503 d).1 else Some (p_inb 503 d).1
  end.
Definition waitdisk (d : D) : option D := waitdisk_loop (S (patience d)) d.

(** The bytes [l] at [a], and [cnt] bytes [data] at [addr]. *)
Fixpoint store_bytes (m : mem) (a : Z) (l : list Z) : mem :=
  match l with
  | [] => m
  | x :: l => store_bytes (upd m (uint32 a) x) (uint32 (a + 1)) l
  end.
Definition boot_stosb (m : mem) (addr data cnt : Z) : mem := store_bytes m addr (replicate (Z.to_nat cnt) (byte8 data)).

(** Memory as it is read: at an address of 32 bits. *)
Definition at32 (m : mem) : mem := fun a => m (uint32 a).

Definition port_out (p v : Z) (d : D) : D := p_outb p (byte8 v) d.

Definition readsect (m : mem) (dst offset : Z) (d : D) : option (mem * D) :=
  d ← waitdisk d;
  let d := port_out 498 1 d in
  let d := port_out 499 offset d in
  let d := port_out 500 (Z.shiftr offset 8) d in
  let d := port_out 501 (Z.shiftr offset 16) d in
  let d := port_out 502 (Z.lor (Z.shiftr offset 24) 224) d in
  let d := port_out 503 32 d in
  d ← waitdisk d;
  let '(d, l) := p_insl 496 (512 / 4) d in
  Some (store_bytes m dst l, d).

Fixpoint readseg_loop (fuel : nat) (m : mem) (pa epa offset : Z) (d : D) : option (mem * D) :=
  match fuel with
  | O => None
  | S k =>
      if pa <? epa then
        '(m, d) ← readsect m pa offset d;
        readseg_loop k m (uint32 (pa + 512)) epa (uint32 (offset + 1)) d
      else Some (m, d)
  end.

Definition readseg (m : mem) (pa count offset : Z) (d : D) : option (mem * D) :=
  let epa := uint32 (pa + count) in
  let pa := uint32 (pa - offset mod 512) in
  let offset := offset / 512 + 1 in
  readseg_loop (S (S (Z.to_nat (count / 512 + 1)))) m pa epa offset d.

Definition load16 (m : mem) (a : Z) : Z := m a + 256 * m (a + 1).

(** elf.h: the program header at [a]. *)
Record phdr : Type := mkPhdr { ph_off : Z; ph_paddr : Z; ph_filesz : Z; ph_memsz : Z }.
Definition phdr_at (m : mem) (a : Z) : phdr := mkPhdr (load32 m (a + 4)) (load32 m (a + 12)) (load32 m (a + 16)) (load32 m (a + 20)).

Definition BOOT_MAGIC : Z := 1179403647.
Definition SCRATCH : Z := 65536.

(** One turn of the loop over the program headers, each 32 bytes. *)
Definition load_segment (m : mem) (p : phdr) (d : D) : option (mem * D) :=
  '(m, d) ← readseg m (ph_paddr p) (ph_filesz p) (ph_off p) d;
  Some (if ph_filesz p <? ph_memsz p then boot_stosb m (uint32 (ph_paddr p + ph_filesz p)) 0 (ph_memsz p - ph_filesz p) else m, d).

Fixpoint segments_loop (fuel : nat) (m : mem) (ph eph : Z) (d : D) : option (mem * D) :=
  match fuel with
  | O => None
  | S k =>
      if ph <? eph then '(m, d) ← load_segment m (phdr_at (at32 m) ph) d; segments_loop k m (uint32 (ph + 32)) eph d
      else Some (m, d)
  end.

(** Where it jumps to, none where the image is not an ELF file. *)
Definition bootmain (m : mem) (d : D) : option (option Z * mem * D) :=
  '(m, d) ← readseg m SCRATCH 4096 0 d;
  if negb (load32 m SCRATCH =? BOOT_MAGIC) then Some (None, m, d)
  else
    let ph := uint32 (SCRATCH + load32 m (SCRATCH + 28)) in
    let eph := uint32 (ph + 32 * load16 m (SCRATCH + 44)) in
    '(m, d) ← segments_loop (S (Z.to_nat (load16 m (SCRATCH + 44)))) m ph eph d;
    Some (Some (load32 m (SCRATCH + 24)), m, d).

End Loader.

(** ** What is on the disk, and where it goes *)

Section Image.
  Context {D : Type} `{Ports D, !View D}.

(** Byte [k] of the first disk, and of the image, which begins at sector 1. *)
Definition disk_byte (d : D) (k : Z) : Z := default 0 (media d 0 (k / 512) !! Z.to_nat (k mod 512)).
Definition image (d : D) (k : Z) : Z := disk_byte d (512 + k).

Definition whole_sectors (d : D) : Prop := forall x, length (media d 0 x) = 512%nat.

(** The sectors a load from [lo] to [hi] reads. *)
Definition sectors (lo hi : Z) : Z := Z.max 0 ((hi - lo + 511) / 512).

(** The addresses a segment writes to, and those it is meant for. *)
Definition seg_lo (p : phdr) : Z := ph_paddr p - ph_off p mod 512.
Definition seg_hi (p : phdr) : Z := Z.max (seg_lo p + 512 * sectors (seg_lo p) (ph_paddr p + ph_filesz p)) (ph_paddr p + ph_memsz p).
Definition seg_end (p : phdr) : Z := ph_paddr p + Z.max (ph_filesz p) (ph_memsz p).
Definition seg_byte (d : D) (p : phdr) (a : Z) : Z := if a <? ph_paddr p + ph_filesz p then image d (ph_off p + (a - ph_paddr p)) else 0.

(** The loader's own code, a sector at 0x7c00, ends here; its stack is below the code. *)
Definition LOADER_END : Z := 32256.

(** Addresses and disk offsets that fit their types; the loader itself survives. *)
Record seg_fits (p : phdr) : Prop := {
  sf_off : 0 <= ph_off p;
  sf_filesz : 0 <= ph_filesz p;
  sf_lo : LOADER_END <= seg_lo p;
  sf_hi : ph_paddr p + ph_filesz p + 1024 <= W32;
  sf_mem : ph_paddr p + ph_memsz p <= W32;
  sf_disk : ph_off p + ph_filesz p + 2048 <= 8589934592
}.

Definition apart (lo hi lo' hi' : Z) : Prop := hi <= lo' \/ hi' <= lo.

(** The header page and the segments before it survive the load of a segment. *)
Fixpoint laid_out (ps : list phdr) : Prop :=
  match ps with
  | [] => True
  | p :: ps => seg_fits p /\ apart (seg_lo p) (seg_hi p) SCRATCH (SCRATCH + 4096) /\
      Forall (fun q => apart (seg_lo q) (seg_hi q) (ph_paddr p) (seg_end p)) ps /\ laid_out ps
  end.

Definition headers (d : D) : list phdr := map (fun i => phdr_at (image d) (load32 (image d) 28 + 32 * Z.of_nat i)) (seq 0 (Z.to_nat (load16 (image d) 44))).

(** The device reports no error for a read: the loader does not look for one. *)
Definition dependable : Prop := forall (d : D) r x, at_job d = Some (Reading r x) -> at_job (p_inb STATUS d).1 <> Some Failed.

Context `{!Ata D}.
Hypothesis Hdep : dependable.

Lemma waitdisk_ready (d : D) : (forall r x b, at_job d <> Some (Writing r x b)) ->
  exists d', waitdisk d = Some d' /\ same_media d d' /\ (forall r x, at_job d' <> Some (Reading r x)) /\
    (at_job d' = at_job d \/ exists r x, at_job d = Some (Reading r x) /\ at_job d' = Some (Ready (media d r x))).
Proof.
  unfold waitdisk. assert (Hf : (patience d < S (patience d))%nat) by lia. revert Hf. generalize (S (patience d)) as fuel. intros fuel. revert d.
  induction fuel as [|fuel IH]; intros d Hf Hw; [lia|]. cbn [waitdisk_loop]. destruct (in_status d Hw) as (Hj & Hm & Hp & Hr). pose proof (Hdep d) as Hd. change STATUS with 503 in *.
  assert (Hj1 : at_job (p_inb 503 d).1 = at_job d \/ exists r x, at_job d = Some (Reading r x) /\ at_job (p_inb 503 d).1 = Some (Ready (media d r x))).
  { destruct Hj as [?|(r & x & E & [E'|E'])]; [by left|right; eauto|by apply Hd in E]. }
  destruct (Z.eqb_spec (Z.land (p_inb 503 d).2 192) 64) as [E|E]; cbn [negb]; [exists (p_inb 503 d).1; split_and!; [done|done|by apply Hr|done]|].
  destruct (IH (p_inb 503 d).1) as (d' & E' & Hm' & Hn & Hj'); [specialize (Hp E); lia|by eapply polled_still|].
  exists d'. split_and!; [done|by eapply same_media_trans|done|].
  destruct Hj1 as [E1|(r1 & x1 & E0 & E1)]; destruct Hj' as [E2|(r2 & x2 & E3 & E2)]; [left; congruence| |right; exists r1, x1; split; congruence|congruence].
  right. exists r2, x2. rewrite <- E1, E2. by rewrite Hm.
Qed.

Lemma out_idle (d : D) p v : at_job d = None -> 498 <= p <= 502 ->
  (forall q, regs (p_outb p v d) q = if q =? p then v else regs d q) /\ at_job (p_outb p v d) = None /\ same_media d (p_outb p v d).
Proof. intros Hj Hp. destruct (out_reg d p v) as (? & E & ?); [by left|done|]. by rewrite E. Qed.

Lemma byte8_land x : byte8 x = Z.land x 255.
Proof. unfold byte8. change 255 with (Z.ones 8). by rewrite Z.land_ones by lia. Qed.

Lemma readsect_reads m dst x (d : D) : at_job d = None -> 0 <= x < 16777216 ->
  exists d', readsect m dst x d = Some (store_bytes m dst (media d 0 x), d') /\ at_job d' = None /\ same_media d d'.
Proof.
  intros Hj Hx. unfold readsect. destruct (waitdisk_ready d) as (d0 & -> & Hm0 & _ & Hj0); [by rewrite Hj|]. cbn [mbind option_bind].
  destruct Hj0 as [Hj0|(? & ? & E & _)]; [rewrite Hj in Hj0|congruence]. unfold port_out.
  assert (E24 : byte8 (Z.lor (Z.shiftr x 24) 224) = 224).
  { rewrite Z.shiftr_div_pow2 by lia. by rewrite Z.div_small by (change (2 ^ 24) with 16777216; lia). }
  rewrite E24. change (byte8 1) with 1. change (byte8 32) with 32.
  destruct (out_idle d0 498 1 Hj0) as (Hr1 & Hj1 & Hm1); [lia|]. set (d1 := p_outb 498 1 d0) in *.
  destruct (out_idle d1 499 (byte8 x) Hj1) as (Hr2 & Hj2 & Hm2); [lia|]. set (d2 := p_outb 499 (byte8 x) d1) in *.
  destruct (out_idle d2 500 (byte8 (Z.shiftr x 8)) Hj2) as (Hr3 & Hj3 & Hm3); [lia|]. set (d3 := p_outb 500 (byte8 (Z.shiftr x 8)) d2) in *.
  destruct (out_idle d3 501 (byte8 (Z.shiftr x 16)) Hj3) as (Hr4 & Hj4 & Hm4); [lia|]. set (d4 := p_outb 501 (byte8 (Z.shiftr x 16)) d3) in *.
  destruct (out_idle d4 502 224 Hj4) as (Hr5 & Hj5 & Hm5); [lia|]. set (d5 := p_outb 502 224 d4) in *.
  assert (Hcount : regs d5 498 = 1) by by rewrite Hr5, Hr4, Hr3, Hr2, Hr1.
  assert (Hsec : task_sector d5 = x).
  { unfold task_sector. rewrite !Hr5, !Hr4, !Hr3, !Hr2. cbn [Z.eqb Pos.eqb]. rewrite !byte8_land. change (Z.land 224 15) with 0. rewrite Z.mul_0_r, Z.add_0_r. by apply sector_bytes. }
  assert (Hdrv : task_drive d5 = 0) by (unfold task_drive; by rewrite Hr5).
  destruct (out_read d5 (or_introl Hj5) Hcount) as [Hj6 Hm6]. rewrite Hsec, Hdrv in Hj6. change STATUS with 503 in *. set (d6 := p_outb 503 32 d5) in *.
  assert (Hm : same_media d d6) by (intros r y; by rewrite Hm6, Hm5, Hm4, Hm3, Hm2, Hm1, Hm0).
  destruct (waitdisk_ready d6) as (d7 & -> & Hm7 & Hn7 & Hj7); [by rewrite Hj6|]. cbn [mbind option_bind].
  assert (Hj7' : at_job d7 = Some (Ready (media d 0 x))).
  { destruct Hj7 as [E|(r & y & E & E')]; [by rewrite Hj6 in E; apply Hn7 in E|]. rewrite E', Hj6 in *. injection E as <- <-. by rewrite Hm. }
  destruct (in_data d7 _ Hj7') as (El & Hj8 & Hm8). change DATA with 496 in *. change (512 / 4) with 128. destruct (p_insl 496 128 d7) as [d8 l]. cbn [fst snd] in *. subst l.
  exists d8. split_and!; [done|done|]. intros r y. by rewrite Hm8, Hm7, Hm.
Qed.

(** ** Loading a piece *)

Lemma disk_byte_same (d d' : D) k : same_media d d' -> disk_byte d' k = disk_byte d k.
Proof. intros Hm. unfold disk_byte. by rewrite Hm. Qed.

Lemma image_same (d d' : D) k : same_media d d' -> image d' k = image d k.
Proof. apply disk_byte_same. Qed.

Lemma whole_same (d d' : D) : same_media d d' -> whole_sectors d -> whole_sectors d'.
Proof. intros Hm Hw x. by rewrite Hm. Qed.

Lemma store_bytes_at l : forall m dst a, 0 <= dst -> dst + Z.of_nat (length l) <= W32 ->
  store_bytes m dst l a = if decide (dst <= a < dst + Z.of_nat (length l)) then default 0 (l !! Z.to_nat (a - dst)) else m a.
Proof.
  assert (HW : W32 = 4294967296) by done.
  induction l as [|x l IH]; intros m dst a H0 Hl; cbn [store_bytes length] in *; [by rewrite decide_False by lia|].
  assert (Hw : uint32 (dst + 1) = dst + 1 \/ l = []).
  { destruct l as [|y l]; [by right|left]. apply uint32_small. cbn [length] in Hl. lia. }
  rewrite (uint32_small dst) by lia. destruct Hw as [-> | ->].
  - rewrite IH by lia. unfold upd. destruct (decide (dst + 1 <= a < _)); destruct (decide (dst <= a < _)); try lia.
    + replace (Z.to_nat (a - dst)) with (S (Z.to_nat (a - (dst + 1)))) by lia. done.
    + destruct (Z.eqb_spec a dst); [|lia]. subst a. by rewrite Z.sub_diag.
    + destruct (Z.eqb_spec a dst); [lia|done].
  - cbn [store_bytes length]. unfold upd. destruct (decide _); destruct (Z.eqb_spec a dst); try lia; try done. subst a. by rewrite Z.sub_diag.
Qed.

Lemma store_sector m dst x (d : D) a : 0 <= dst -> dst + 512 <= W32 -> whole_sectors d -> store_bytes m dst (media d 0 x) a = if decide (dst <= a < dst + 512) then disk_byte d (512 * x + (a - dst)) else m a.
Proof.
  intros H0 Hd Hw. rewrite store_bytes_at by (rewrite ?Hw; done). rewrite Hw. change (Z.of_nat 512) with 512.
  destruct (decide (dst <= a < dst + 512)) as [Ha|Ha]; [|done]. unfold disk_byte.
  rewrite Z.add_comm, Z.mul_comm, Z.div_add, Z.mod_add, Z.div_small, Z.mod_small by lia. done.
Qed.

Lemma sectors_none lo hi : hi <= lo -> sectors lo hi = 0.
Proof. intros Hle. unfold sectors. pose proof (Z.div_le_mono (hi - lo + 511) 511 512). change (511 / 512) with 0 in *. lia. Qed.

Lemma sectors_more lo hi : lo < hi -> sectors lo hi = 1 + sectors (lo + 512) hi.
Proof.
  intros Hlt. unfold sectors. replace (hi - lo + 511) with (hi - (lo + 512) + 511 + 1 * 512) by lia. rewrite Z.div_add by lia.
  pose proof (Z.div_pos (hi - lo - 1) 512). replace (hi - (lo + 512) + 511) with (hi - lo - 1) by lia. lia.
Qed.

Lemma sectors_cover lo hi : lo <= hi -> hi <= lo + 512 * sectors lo hi < hi + 512.
Proof. intros Hle. unfold sectors. pose proof (Z.div_mod (hi - lo + 511) 512 ltac:(lia)). pose proof (Z.mod_pos_bound (hi - lo + 511) 512 ltac:(lia)). lia. Qed.

(** What a load of the sectors from [x] on to [pa] up to [epa] does. *)
Definition loads (m m' : mem) (d : D) (pa epa x : Z) : Prop :=
  forall a, m' a = if decide (pa <= a < pa + 512 * sectors pa epa) then disk_byte d (512 * x + (a - pa)) else m a.

Lemma readseg_loop_loads fuel : forall m pa epa x (d : D), at_job d = None -> whole_sectors d -> 0 <= pa -> epa + 512 <= W32 ->
  epa <= pa + 512 * (Z.of_nat fuel - 1) -> (0 < fuel)%nat -> 0 <= x -> x + Z.of_nat fuel <= 16777216 ->
  exists m' d', readseg_loop fuel m pa epa x d = Some (m', d') /\ at_job d' = None /\ same_media d d' /\ loads m m' d pa epa x.
Proof.
  assert (HW : W32 = 4294967296) by done.
  induction fuel as [|fuel IH]; intros m pa epa x d Hj Hw Hpa Hepa Hf H0 Hx Hxf; [lia|]. cbn [readseg_loop]. destruct (Z.ltb_spec pa epa) as [Hlt|Hge].
  - destruct (readsect_reads m pa x d Hj) as (d1 & -> & Hj1 & Hm1); [lia|]. cbn [mbind option_bind].
    rewrite !uint32_small by lia. destruct fuel as [|fuel]; [lia|].
    destruct (IH (store_bytes m pa (media d 0 x)) (pa + 512) epa (x + 1) d1) as (m' & d' & E & Hj' & Hm' & Hl); try done; try lia; [by eapply whole_same|].
    exists m', d'. split_and!; [done|done|by eapply same_media_trans|]. intros a. rewrite Hl, (store_sector m pa x d a) by (done || lia). rewrite (disk_byte_same d d1) by done.
    rewrite (sectors_more pa epa Hlt). pose proof (Z.le_max_l 0 ((epa - (pa + 512) + 511) / 512)) as Hs. fold (sectors (pa + 512) epa) in Hs.
    destruct (decide (pa + 512 <= a < _)); destruct (decide (pa <= a < pa + 512)); destruct (decide (pa <= a < _)); try lia; f_equal; lia.
  - exists m, d. split_and!; [done|done|done|]. intros a. rewrite sectors_none by lia. rewrite decide_False by lia. done.
Qed.

Lemma readseg_loads m pa n off (d : D) : at_job d = None -> whole_sectors d -> 0 <= off -> 0 <= n -> off mod 512 <= pa -> pa + n + 1024 <= W32 -> off + n + 2048 <= 8589934592 ->
  exists m' d', readseg m pa n off d = Some (m', d') /\ at_job d' = None /\ same_media d d' /\
    (forall a, pa <= a < pa + n -> m' a = image d (off + (a - pa))) /\
    (forall a, ~ (pa - off mod 512 <= a < pa - off mod 512 + 512 * sectors (pa - off mod 512) (pa + n)) -> m' a = m a).
Proof.
  intros Hj Hw Hoff Hn Hpa Hhi Hdisk. assert (HW : W32 = 4294967296) by done. unfold readseg. pose proof (Z.mod_pos_bound off 512 ltac:(lia)) as Hmod.
  pose proof (Z.div_mod off 512 ltac:(lia)) as Ediv. pose proof (Z.div_mod n 512 ltac:(lia)) as En. pose proof (Z.mod_pos_bound n 512 ltac:(lia)).
  pose proof (Z.div_pos off 512 ltac:(lia) ltac:(lia)). pose proof (Z.div_pos n 512 ltac:(lia) ltac:(lia)).
  rewrite !uint32_small by lia. set (fuel := S (S (Z.to_nat (n / 512 + 1)))). assert (Ef : Z.of_nat fuel = n / 512 + 3) by lia.
  destruct (readseg_loop_loads fuel m (pa - off mod 512) (pa + n) (off / 512 + 1) d) as (m' & d' & -> & Hj' & Hm' & Hl); try done; try lia.
  pose proof (sectors_cover (pa - off mod 512) (pa + n) ltac:(lia)). exists m', d'. split_and!; [done|done|done| |].
  - intros a Ha. rewrite Hl, decide_True by lia. unfold image. f_equal. lia.
  - intros a Ha. rewrite Hl. by rewrite decide_False.
Qed.

Lemma stosb_zero m dst n a : 0 <= n -> 0 <= dst -> dst + n <= W32 -> boot_stosb m dst 0 n a = if decide (dst <= a < dst + n) then 0 else m a.
Proof.
  intros Hn H0 Hd. unfold boot_stosb. change (byte8 0) with 0. rewrite store_bytes_at by (rewrite ?length_replicate, ?Z2Nat.id; done). rewrite length_replicate, Z2Nat.id by done.
  destruct (decide _); [|done]. by rewrite lookup_replicate_2 by lia.
Qed.

(** A segment ends up in its place; nothing outside its sectors changes. *)
Lemma load_segment_loads m p (d : D) : at_job d = None -> whole_sectors d -> seg_fits p ->
  exists m' d', load_segment m p d = Some (m', d') /\ at_job d' = None /\ same_media d d' /\
    (forall a, ph_paddr p <= a < seg_end p -> m' a = seg_byte d p a) /\ (forall a, ~ (seg_lo p <= a < seg_hi p) -> m' a = m a).
Proof.
  intros Hj Hw [Hoff Hsz Hlo Hhi Hmem Hdisk]. unfold load_segment. unfold LOADER_END in Hlo. assert (HW : W32 = 4294967296) by done. pose proof (Z.mod_pos_bound (ph_off p) 512 ltac:(lia)).
  destruct (readseg_loads m (ph_paddr p) (ph_filesz p) (ph_off p) d) as (m1 & d1 & -> & Hj1 & Hm1 & Hin & Hout); try done; [unfold seg_lo in Hlo; lia|].
  assert (Hpa : 0 <= ph_paddr p) by (unfold seg_lo in Hlo; lia). rewrite (uint32_small (_ + _)) by lia.
  cbn [mbind option_bind]. eexists _, d1. split_and!; [reflexivity|done|done| |].
  - intros a Ha. unfold seg_byte, seg_end in *. destruct (Z.ltb_spec (ph_filesz p) (ph_memsz p)) as [Hlt|Hge].
    + rewrite stosb_zero by lia. destruct (decide _) as [Hz|Hz]; destruct (Z.ltb_spec a (ph_paddr p + ph_filesz p)); try lia. apply Hin. lia.
    + rewrite (proj2 (Z.ltb_lt a _)) by lia. apply Hin. lia.
  - intros a Ha. unfold seg_hi, seg_lo in Ha. destruct (Z.ltb_spec (ph_filesz p) (ph_memsz p)) as [Hlt|Hge].
    + rewrite stosb_zero by lia. rewrite decide_False by lia. apply Hout. lia.
    + apply Hout. lia.
Qed.

(** ** The whole image *)

Lemma load32_same (m m' : mem) a : (forall i, 0 <= i < 4 -> m' (a + i) = m (a + i)) -> load32 m' a = load32 m a.
Proof. intros E. unfold load32. pose proof (E 0 ltac:(lia)) as E0. rewrite !Z.add_0_r in E0. by rewrite E0, (E 1), (E 2), (E 3) by lia. Qed.

Lemma phdr_at_ext (m m' : mem) a : (forall i, 0 <= i < 32 -> m' (a + i) = m (a + i)) -> phdr_at m' a = phdr_at m a.
Proof.
  intros E. unfold phdr_at. f_equal; (apply load32_same; intros i Hi).
  - replace (a + 4 + i) with (a + (4 + i)) by lia. apply E. lia.
  - replace (a + 12 + i) with (a + (12 + i)) by lia. apply E. lia.
  - replace (a + 16 + i) with (a + (16 + i)) by lia. apply E. lia.
  - replace (a + 20 + i) with (a + (20 + i)) by lia. apply E. lia.
Qed.

Lemma seg_byte_same (d d' : D) p a : same_media d d' -> seg_byte d' p a = seg_byte d p a.
Proof. intros Hm. unfold seg_byte. by rewrite (image_same d d'). Qed.

(** The program headers [ps] are in the header page from [ph] on. *)
Definition headers_at (m : mem) (ph : Z) (ps : list phdr) : Prop :=
  SCRATCH <= ph /\ ph + 32 * Z.of_nat (length ps) <= SCRATCH + 4096 /\ forall i p, ps !! i = Some p -> phdr_at m (ph + 32 * Z.of_nat i) = p.

Lemma phdr_at32 m a : 0 <= a -> a + 32 <= W32 -> phdr_at (at32 m) a = phdr_at m a.
Proof. intros H0 Ha. apply phdr_at_ext. intros i Hi. unfold at32. by rewrite uint32_small by lia. Qed.

Lemma segments_load ps : forall m ph (d : D), at_job d = None -> whole_sectors d -> laid_out ps -> headers_at m ph ps ->
  exists m' d', segments_loop (S (length ps)) m ph (ph + 32 * Z.of_nat (length ps)) d = Some (m', d') /\ same_media d d' /\
    Forall (fun p => forall a, ph_paddr p <= a < seg_end p -> m' a = seg_byte d p a) ps /\
    (forall a, Forall (fun p => ~ (seg_lo p <= a < seg_hi p)) ps -> m' a = m a).
Proof.
  assert (HS : SCRATCH = 65536) by done. assert (HW : W32 = 4294967296) by done.
  induction ps as [|p ps IH]; intros m ph d Hj Hw Hl (Hp1 & Hp2 & Hp3).
  { exists m, d. cbn [segments_loop length]. rewrite (proj2 (Z.ltb_ge _ _)) by lia. by split_and!; [| |constructor|]. }
  destruct Hl as (Hfit & Hap & Hoth & Hl). cbn [length] in *. cbn [segments_loop]. rewrite (proj2 (Z.ltb_lt _ _)) by lia.
  pose proof (Hp3 0%nat p eq_refl) as Ep. rewrite Z.mul_0_r, Z.add_0_r in Ep. rewrite phdr_at32, Ep, (uint32_small (ph + 32)) by lia.
  destruct (load_segment_loads m p d Hj Hw Hfit) as (m1 & d1 & -> & Hj1 & Hm1 & Hin & Hout). cbn [mbind option_bind].
  replace (ph + 32 * Z.of_nat (S (length ps))) with (ph + 32 + 32 * Z.of_nat (length ps)) by lia.
  destruct (IH m1 (ph + 32) d1) as (m' & d' & E & Hm' & Hall & Hrest); [done|by eapply whole_same|done| |].
  { split_and!; [lia|lia|]. intros i q Hq. replace (ph + 32 + 32 * Z.of_nat i) with (ph + 32 * Z.of_nat (S i)) by lia. rewrite <- (Hp3 (S i) q Hq).
    apply phdr_at_ext. intros j Hjr. apply Hout. apply lookup_lt_Some in Hq. unfold apart in Hap. lia. }
  exists m', d'. split_and!; [exact E|by eapply same_media_trans| |].
  - constructor.
    + intros a Ha. rewrite <- Hin by done. apply Hrest. rewrite Forall_forall in *. intros q Hq Ha'. specialize (Hoth q Hq). unfold apart in Hoth. lia.
    + eapply Forall_impl; [exact Hall|]. intros q Hq a Ha. cbn beta. rewrite Hq by done. by apply seg_byte_same.
  - intros a Ha. apply Forall_cons in Ha as [Ha1 Ha2]. rewrite Hrest by done. by apply Hout.
Qed.

(** C38: The boot loader loads the kernel: where the first page of the image on the
    disk has the header and the program headers of an ELF file, every segment ends below 4 GB
    (its last sectors included) and lies above the loader's own code and stack,
    and no segment's sectors spill over the header page or a segment loaded before it, the loader
    ends with a jump to the image's entry point, every segment being at its
    physical address: the bytes of the file, then zeros up to its memory size.  The disk is
    one that reports no error for a read ([dependable]) and is not busy for ever; the loader does not look for errors. *)
Theorem bootmain_loads m (d : D) : at_job d = None -> whole_sectors d -> load32 (image d) 0 = BOOT_MAGIC ->
  0 <= load32 (image d) 28 -> 0 <= load16 (image d) 44 -> load32 (image d) 28 + 32 * load16 (image d) 44 <= 4096 -> laid_out (headers d) ->
  exists m' d', bootmain m d = Some (Some (load32 (image d) 24), m', d') /\ same_media d d' /\
    Forall (fun p => forall a, ph_paddr p <= a < seg_end p -> m' a = seg_byte d p a) (headers d).
Proof.
  intros Hj Hw Hmag Hoff Hnum Hend Hl. unfold bootmain. assert (HS : SCRATCH = 65536) by done. assert (HW : W32 = 4294967296) by done.
  destruct (readseg_loads m SCRATCH 4096 0 d) as (m1 & d1 & -> & Hj1 & Hm1 & Hin & _); try done; try lia. cbn [mbind option_bind].
  assert (Hpg : forall x, 0 <= x < 4096 -> m1 (SCRATCH + x) = image d x) by (intros x Hx; rewrite Hin by lia; f_equal; lia).
  assert (H32 : forall x, 0 <= x <= 4092 -> load32 m1 (SCRATCH + x) = load32 (image d) x).
  { intros x Hx. unfold load32. rewrite <- !Z.add_assoc. by rewrite !Hpg by lia. }
  assert (E0 : load32 m1 SCRATCH = BOOT_MAGIC) by (rewrite <- Hmag, <- (H32 0) by lia; by rewrite Z.add_0_r). rewrite E0, Z.eqb_refl. cbn [negb].
  rewrite (H32 28) by lia. assert (E44 : load16 m1 (SCRATCH + 44) = load16 (image d) 44) by (unfold load16; rewrite <- Z.add_assoc; by rewrite !Hpg by lia). rewrite E44, (uint32_small (SCRATCH + _)) by lia.
  assert (Elen : length (headers d) = Z.to_nat (load16 (image d) 44)) by (unfold headers; by rewrite length_map, length_seq).
  rewrite (uint32_small (_ + 32 * _)) by lia. rewrite <- (Z2Nat.id (load16 (image d) 44)), Nat2Z.id, <- Elen by done.
  assert (Hcnt : 32 * Z.of_nat (length (headers d)) <= 4096 - load32 (image d) 28) by lia.
  destruct (segments_load (headers d) m1 (SCRATCH + load32 (image d) 28) d1) as (m2 & d2 & -> & Hm2 & Hall & Hrest); [done|by eapply whole_same|done| |].
  - split_and!; [lia|lia|]. intros i p Hp. pose proof (lookup_lt_Some _ _ _ Hp) as Hlt. unfold headers in Hp. apply list_lookup_fmap_Some in Hp as (k & -> & Hk).
    apply lookup_seq in Hk as [-> _]. cbn [Nat.add]. rewrite <- Z.add_assoc. set (x := load32 (image d) 28 + 32 * Z.of_nat i).
    unfold phdr_at. rewrite <- !Z.add_assoc. by rewrite !H32 by lia.
  - cbn [mbind option_bind]. exists m2, d2. split_and!; [|by eapply same_media_trans|].
    + do 3 f_equal. rewrite <- (H32 24) by lia. f_equal. apply load32_same. intros i Hi. apply Hrest. clear -Hl HS Hi.
      revert Hl. induction (headers d) as [|p ps IH]; intros Hl; [constructor|]. destruct Hl as (_ & Hap & _ & Hl). constructor; [unfold apart in Hap; lia|by apply IH].
    + eapply Forall_impl; [exact Hall|]. intros p Hp a Ha. cbn beta. rewrite Hp by done. by apply seg_byte_same.
Qed.

End Image.

Module SmallImage.
Import SmallDisk.

(** A kernel of one segment: 600 bytes of the file from offset 4096, to 1 MB, and 400 zeros. *)
Definition header_bytes : list Z :=
  [127; 69; 76; 70] ++ replicate 20 0 ++ [12; 0; 16; 0; 52; 0; 0; 0] ++ replicate 12 0 ++ [1; 0] ++ replicate 6 0 ++
  [1; 0; 0; 0; 0; 16; 0; 0; 0; 0; 16; 128; 0; 0; 16; 0; 88; 2; 0; 0; 232; 3; 0; 0] ++ replicate 436 0.
Definition image_disk : disk none_bad := mkDisk (fun _ => 0) None (fun _ x => if x =? 1 then header_bytes else replicate 512 (x mod 256)) 0.

Lemma image_headers : headers image_disk = [mkPhdr 4096 1048576 600 1000].
Proof. vm_compute. reflexivity. Qed.

Lemma none_bad_dependable : dependable (D := disk none_bad).
Proof. intros d r x. by apply disk_dependable. Qed.

Lemma bootmain_loads_witness : exists m' d', bootmain (fun _ => 255) image_disk = Some (Some 1048588, m', d') /\ m' 1048576 = 9 /\ m' 1049100 = 10 /\ m' 1049500 = 0.
Proof.
  destruct (bootmain_loads none_bad_dependable (fun _ => 255) image_disk) as (m' & d' & E & _ & Hall);
    [reflexivity|intros x; change (length (if x =? 1 then header_bytes else replicate 512 (x mod 256)) = 512%nat); destruct (x =? 1); [reflexivity|apply length_replicate]|vm_compute; reflexivity|vm_compute; discriminate|vm_compute; discriminate|vm_compute; discriminate| |].
  - rewrite image_headers. cbn [laid_out]. split_and!; [constructor; vm_compute; discriminate|right; vm_compute; discriminate|constructor|exact I].
  - exists m', d'. rewrite image_headers in Hall. apply Forall_inv in Hall. split; [rewrite E; reflexivity|].
    split_and!; (rewrite Hall; [vm_compute; reflexivity|split; vm_compute; done]).
Defined.

End SmallImage.
