(* ===== verification/Mp.v ===== *)
(** * mp.c: finding the processors

    The tables the BIOS leaves in memory say which processors there are.  Memory is
    a function from kernel addresses to bytes.  The loop over the table goes on
    while [p < e]; it takes fuel, and ends with [None] where the fuel is used up.

    Shown: the search finds the first structure with the signature and a checksum
    of 0; the walk over the table ends exactly where every entry has a known type,
    and then the first processors it lists are those that are started.  An entry
    of another type is not skipped: the walk never ends. *)

From S2P Require Import Prelude CString.

Definition KERN : Z := 2147483648.
Definition P2V_mp (a : Z) : Z := uint32 (a + KERN).
Definition NCPU_mp : Z := 8.

(** mp.h: the sizes of the structures, and the fields that are used. *)
Definition MP_SIZE : Z := 16.
Definition CONF_SIZE : Z := 44.
Definition PROC_SIZE : Z := 20.
Definition IOAPIC_SIZE : Z := 8.
Definition MPPROC : Z := 0.
Definition MPBUS : Z := 1.
Definition MPIOAPIC : Z := 2.
Definition MPIOINTR : Z := 3.
Definition MPLINTR : Z := 4.

Definition load16_mp (m : mem) (a : Z) : Z := m a + 256 * m (a + 1).

Fixpoint sum_loop (n : nat) (m : mem) (a s : Z) : Z :=
  match n with
  | O => s
  | S k => sum_loop k m (a + 1) (s + m a)
  end.
Definition sum (m : mem) (addr len : Z) : Z := byte8 (sum_loop (Z.to_nat len) m addr 0).

Definition MP_SIG : mem := cstr "_MP_".
Definition PCMP_SIG : mem := cstr "PCMP".

Fixpoint mpsearch1_loop (fuel : nat) (m : mem) (p e : Z) : option Z :=
  match fuel with
  | O => None
  | S k =>
      if p <? e then
        if (memcmp m p MP_SIG 0 4 =? 0) && (sum m p MP_SIZE =? 0) then Some p else mpsearch1_loop k m (p + MP_SIZE) e
      else None
  end.
Definition mpsearch1 (m : mem) (a len : Z) : option Z :=
  let addr := P2V_mp a in mpsearch1_loop (S (S (Z.to_nat (len / MP_SIZE)))) m addr (addr + len).

Definition mpsearch (m : mem) : option Z :=
  let bda := P2V_mp 1024 in
  let p := Z.shiftl (Z.lor (Z.shiftl (m (bda + 15)) 8) (m (bda + 14))) 4 in
  let found :=
    if negb (p =? 0) then mpsearch1 m p 1024
    else mpsearch1 m (uint32 (Z.lor (Z.shiftl (m (bda + 20)) 8) (m (bda + 19)) * 1024 - 1024)) 1024 in
  match found with
  | Some mp => Some mp
  | None => mpsearch1 m 983040 65536
  end.

(** The addresses of the structure and of the table. *)
Definition mpconfig (m : mem) : option (Z * Z) :=
  mp ← mpsearch m;
  if load32 m (mp + 4) =? 0 then None
  else
    let conf := P2V_mp (load32 m (mp + 4)) in
    if negb (memcmp m conf PCMP_SIG 0 4 =? 0) then None
    else if negb (m (conf + 6) =? 1) && negb (m (conf + 6) =? 4) then None
    else if negb (sum m conf (load16_mp m (conf + 4)) =? 0) then None
    else Some (mp, conf).

(** [mp_apicids]: [cpus[i].apicid] for [i < ncpu]; [mp_imcr]: the IMCR was told to mask external interrupts. *)
Record mpstate : Type := mkMp { mp_apicids : list Z; mp_ioapicid : Z; mp_lapic : Z; mp_imcr : bool }.

Definition ncpu (s : mpstate) : Z := Z.of_nat (length (mp_apicids s)).

Definition found_proc (m : mem) (p : Z) (s : mpstate) : mpstate :=
  if ncpu s <? NCPU_mp then mkMp (mp_apicids s ++ [m (p + 1)]) (mp_ioapicid s) (mp_lapic s) (mp_imcr s) else s.

(** [break] leaves the switch only. *)
Fixpoint table_loop (fuel : nat) (m : mem) (p e : Z) (ismp : bool) (s : mpstate) : option (bool * mpstate) :=
  match fuel with
  | O => None
  | S k =>
      if p <? e then
        let t := m p in
        if t =? MPPROC then table_loop k m (p + PROC_SIZE) e ismp (found_proc m p s)
        else if t =? MPIOAPIC then table_loop k m (p + IOAPIC_SIZE) e ismp (mkMp (mp_apicids s) (m (p + 1)) (mp_lapic s) (mp_imcr s))
        else if (t =? MPBUS) || (t =? MPIOINTR) || (t =? MPLINTR) then table_loop k m (p + 8) e ismp s
        else table_loop k m p e false s
      else Some (ismp, s)
  end.

Definition mpinit (m : mem) : M mpstate unit :=
  match mpconfig m with
  | None => panic "Expect to run on an SMP"
  | Some (mp, conf) =>
      modify (fun s => mkMp (mp_apicids s) (mp_ioapicid s) (load32 m (conf + 36)) (mp_imcr s));;
      s ← get;
      let len := load16_mp m (conf + 4) in
      match table_loop (S (Z.to_nat len)) m (conf + CONF_SIZE) (conf + len) true s with
      | None => fun s => Stuck s
      | Some (ismp, s) =>
          put s;;
          if negb ismp then panic "Didn't find a suitable machine"
          else when (negb (m (mp + 12) =? 0)) (modify (fun s => mkMp (mp_apicids s) (mp_ioapicid s) (mp_lapic s) true))
      end
  end.

(** ** The search *)

(** A floating pointer structure: its signature is right and its bytes add up to 0. *)
Definition mp_at (m : mem) (p : Z) : bool := (memcmp m p MP_SIG 0 4 =? 0) && (sum m p MP_SIZE =? 0).

Lemma mpsearch1_loop_spec m fuel : forall p e q, e <= p + 16 * (Z.of_nat fuel - 1) ->
  mpsearch1_loop fuel m p e = Some q <->
  exists k, q = p + 16 * Z.of_nat k /\ q < e /\ mp_at m q = true /\ forall j, (j < k)%nat -> mp_at m (p + 16 * Z.of_nat j) = false.
Proof.
  induction fuel as [|fuel IH]; intros p e q He; cbn [mpsearch1_loop].
  { split; [done|]. intros (k & -> & Hlt & _). lia. }
  fold (mp_at m p). change MP_SIZE with 16. destruct (Z.ltb_spec p e) as [Hlt|Hge].
  - destruct (mp_at m p) eqn:Ep.
    + split.
      * intros [= <-]. exists 0%nat. split_and!; [lia|done|done|lia].
      * intros (k & -> & _ & _ & Hb). f_equal. destruct k as [|k]; [lia|]. specialize (Hb 0%nat ltac:(lia)). rewrite Z.mul_0_r, Z.add_0_r in Hb. congruence.
    + rewrite IH by lia. split.
      * intros (k & -> & Hq & Hok & Hb). exists (S k). split_and!; [lia|lia|done|]. intros [|j] Hj; [by rewrite Z.mul_0_r, Z.add_0_r|].
        replace (p + 16 * Z.of_nat (S j)) with (p + 16 + 16 * Z.of_nat j) by lia. apply Hb. lia.
      * intros (k & -> & Hq & Hok & Hb). destruct k as [|k]; [rewrite Z.mul_0_r, Z.add_0_r in Hok; congruence|]. exists k. split_and!; [lia|lia|done|].
        intros j Hj. replace (p + 16 + 16 * Z.of_nat j) with (p + 16 * Z.of_nat (S j)) by lia. apply Hb. lia.
  - split; [done|]. intros (k & -> & Hlt & _). lia.
Qed.

(** The search for the floating pointer structure finds exactly the first one
    in its area: the first of the 16-byte steps at which the signature stands and
    the 16 bytes add up to 0; it finds none exactly where there is none. *)
Theorem mpsearch1_finds m a len q : 0 <= len ->
  mpsearch1 m a len = Some q <->
  exists k, q = P2V_mp a + 16 * Z.of_nat k /\ 16 * Z.of_nat k < len /\ mp_at m q = true /\ forall j, (j < k)%nat -> mp_at m (P2V_mp a + 16 * Z.of_nat j) = false.
Proof.
  intros Hlen. unfold mpsearch1. change MP_SIZE with 16. pose proof (Z.div_pos len 16 Hlen ltac:(lia)). pose proof (Z.div_mod len 16 ltac:(lia)). pose proof (Z.mod_pos_bound len 16 ltac:(lia)). rewrite mpsearch1_loop_spec by lia.
  split; intros (k & -> & Hlt & Hok & Hb); exists k; (split_and!; [done|lia|done|done]).
Qed.

(** ** The table *)

Inductive entry : Type := EProc (apicid : Z) | EIoapic (id : Z) | EOther.

(** The entries from [p] to [e], where all have known types. *)
Inductive table (m : mem) (e : Z) : Z -> list entry -> Prop :=
| t_end p : e <= p -> table m e p []
| t_proc p es : p < e -> m p = MPPROC -> table m e (p + PROC_SIZE) es -> table m e p (EProc (m (p + 1)) :: es)
| t_ioapic p es : p < e -> m p = MPIOAPIC -> table m e (p + IOAPIC_SIZE) es -> table m e p (EIoapic (m (p + 1)) :: es)
| t_other p es : p < e -> m p = MPBUS \/ m p = MPIOINTR \/ m p = MPLINTR -> table m e (p + 8) es -> table m e p (EOther :: es).

Definition note_entry (s : mpstate) (x : entry) : mpstate :=
  match x with
  | EProc a => if ncpu s <? NCPU_mp then mkMp (mp_apicids s ++ [a]) (mp_ioapicid s) (mp_lapic s) (mp_imcr s) else s
  | EIoapic i => mkMp (mp_apicids s) i (mp_lapic s) (mp_imcr s)
  | EOther => s
  end.

Lemma table_loop_walks m e p es : table m e p es -> forall fuel b s, (length es < fuel)%nat -> table_loop fuel m p e b s = Some (b, foldl note_entry s es).
Proof.
  induction 1 as [p He|p es Hp Hm _ IH|p es Hp Hm _ IH|p es Hp Hm _ IH]; intros fuel b s Hf; (destruct fuel as [|fuel]; [simpl in Hf; lia|]); cbn [table_loop length] in *.
  - by rewrite (proj2 (Z.ltb_ge p e)).
  - rewrite (proj2 (Z.ltb_lt p e)), Hm by done. cbn -[foldl]. rewrite IH by lia. done.
  - rewrite (proj2 (Z.ltb_lt p e)), Hm by done. cbn -[foldl]. rewrite IH by lia. done.
  - rewrite (proj2 (Z.ltb_lt p e)) by done. destruct Hm as [-> | [-> | ->]]; cbn -[foldl]; rewrite IH by lia; done.
Qed.

Lemma table_loop_table fuel m e : forall p b s r, table_loop fuel m p e b s = Some r -> exists es, table m e p es.
Proof.
  induction fuel as [|fuel IH]; intros p b s r Hr; [done|]. cbn [table_loop] in Hr. destruct (Z.ltb_spec p e) as [Hlt|]; [|exists []; by constructor].
  destruct (Z.eqb_spec (m p) MPPROC); [destruct (IH _ _ _ _ Hr) as [es Hes]; eexists; by apply t_proc|].
  destruct (Z.eqb_spec (m p) MPIOAPIC); [destruct (IH _ _ _ _ Hr) as [es Hes]; eexists; by apply t_ioapic|].
  destruct ((m p =? MPBUS) || (m p =? MPIOINTR) || (m p =? MPLINTR)) eqn:Eo; [|by apply IH in Hr].
  destruct (IH _ _ _ _ Hr) as [es Hes]. eexists. apply t_other; [done| |exact Hes]. apply orb_true_iff in Eo as [[Eo|Eo]%orb_true_iff|Eo]; apply Z.eqb_eq in Eo; auto.
Qed.

Lemma table_loop_more n m e : forall fuel p b s r, table_loop fuel m p e b s = Some r -> table_loop (fuel + n) m p e b s = Some r.
Proof.
  induction fuel as [|fuel IH]; intros p b s r Hr; [done|]. cbn [table_loop Nat.add] in *. repeat case_match; by auto.
Qed.

Lemma table_length m e p es : table m e p es -> 8 * Z.of_nat (length es) <= Z.max 0 (e - p + 7).
Proof. assert (HP : PROC_SIZE = 20) by done. assert (HI : IOAPIC_SIZE = 8) by done. induction 1; cbn [length]; lia. Qed.

(** What the walk returns: [ismp] as it was, since an unknown entry is never passed. *)
Lemma table_loop_some fuel m e p b s b' s' : table_loop fuel m p e b s = Some (b', s') -> b' = b /\ exists es, table m e p es /\ s' = foldl note_entry s es.
Proof.
  intros Hr. destruct (table_loop_table _ _ _ _ _ _ _ Hr) as [es Hes].
  assert (Hm : table_loop (fuel + S (length es)) m p e b s = Some (b', s')) by (by apply table_loop_more).
  rewrite (table_loop_walks _ _ _ _ Hes) in Hm by lia. injection Hm as <- <-. eauto.
Qed.

(** C39: The walk over the table of processors ends exactly where every entry up to
    the end of the table has one of the five known types; it then has noted these entries, in order,
    and the machine still counts as suitable.  At an entry of another
    type it stays for ever.  So the panic for a machine that is not suitable is never
    reached: on no memory and in no state does [mpinit] end with it. *)
Theorem table_walk_ends m p e b s :
  ((exists fuel r, table_loop fuel m p e b s = Some r) <-> exists es, table m e p es) /\
  (forall fuel b' s', table_loop fuel m p e b s = Some (b', s') -> b' = b /\ exists es, table m e p es /\ s' = foldl note_entry s es) /\
  ~ panics (mpinit m) s "Didn't find a suitable machine".
Proof.
  split_and!.
  - split; [intros (fuel & r & Hr); by eapply table_loop_table|]. intros [es Hes]. exists (S (length es)). eexists. apply (table_loop_walks _ _ _ _ Hes). lia.
  - intros fuel b' s'. apply table_loop_some.
  - unfold panics, mpinit. destruct (mpconfig m) as [[mp conf]|]; [|by intros [=]]. unfold mbind, M_bind, modify, get. cbn [obind].
    match goal with |- context [table_loop ?f m ?q ?l true ?s0] => destruct (table_loop f m q l true s0) as [[ismp s']|] eqn:E end; [|by intros [=]]. destruct (table_loop_some _ _ _ _ _ _ _ _ E) as [-> _].
    simpl. by destruct (m (mp + 12) =? 0).
Qed.

Definition procs (es : list entry) : list Z := omap (fun x => match x with EProc a => Some a | _ => None end) es.

Lemma note_entries es : forall s, let s' := foldl note_entry s es in
  (length (mp_apicids s) <= 8)%nat -> mp_apicids s' = take 8 (mp_apicids s ++ procs es) /\ mp_lapic s' = mp_lapic s /\ mp_imcr s' = mp_imcr s /\
  mp_ioapicid s' = foldl (fun i x => match x with EIoapic j => j | _ => i end) (mp_ioapicid s) es.
Proof.
  induction es as [|x es IH]; intros s; cbn zeta; intros Hl; cbn [foldl procs omap list_omap].
  - rewrite app_nil_r, take_ge by done. done.
  - destruct x as [a|i|].
    + cbn [note_entry]. unfold ncpu, NCPU_mp. destruct (Z.ltb_spec (Z.of_nat (length (mp_apicids s))) 8) as [Hlt|Hge].
      * destruct (IH (mkMp (mp_apicids s ++ [a]) (mp_ioapicid s) (mp_lapic s) (mp_imcr s))) as (E1 & E2 & E3 & E4); [cbn; rewrite length_app; simpl; lia|].
        cbn [mp_apicids mp_lapic mp_imcr mp_ioapicid] in *. split_and!; [|done|done|done]. by rewrite E1, <- app_assoc.
      * destruct (IH s Hl) as (E1 & E2 & E3 & E4). split_and!; [|done|done|done]. rewrite E1, !take_app_le by lia. done.
    + destruct (IH (mkMp (mp_apicids s) i (mp_lapic s) (mp_imcr s)) Hl) as (E1 & E2 & E3 & E4). by split_and!.
    + by apply IH.
Qed.

(** Where the table is found and its entries have known types, [mpinit] returns,
    and the processors of the kernel are the first eight the table lists, in its
    order; the addresses and the id of the interrupt controllers are the table's. *)
Theorem mpinit_finds m s mp conf es : mpconfig m = Some (mp, conf) -> mp_apicids s = [] ->
  table m (conf + load16_mp m (conf + 4)) (conf + CONF_SIZE) es ->
  wp (mpinit m) s (fun _ s' => mp_apicids s' = take 8 (procs es) /\ mp_lapic s' = load32 m (conf + 36) /\
    mp_ioapicid s' = foldl (fun i x => match x with EIoapic j => j | _ => i end) (mp_ioapicid s) es).
Proof.
  intros Hc Hs Ht. unfold mpinit. rewrite Hc. apply wp_modify_bind. apply wp_bind. unfold wp at 1, get.
  pose proof (table_length _ _ _ _ Ht) as Hlen. assert (HC : CONF_SIZE = 44) by done. rewrite (table_loop_walks _ _ _ _ Ht) by lia.
  destruct (note_entries es (mkMp (mp_apicids s) (mp_ioapicid s) (load32 m (conf + 36)) (mp_imcr s))) as (E1 & E2 & _ & E4); [cbn; rewrite Hs; simpl; lia|].
  cbn [mp_apicids mp_ioapicid mp_lapic] in *. rewrite Hs in *. apply wp_bind. unfold wp at 1, put. cbn [negb]. unfold when. destruct (negb (m (mp + 12) =? 0)).
  - apply wp_modify. by split_and!.
  - apply wp_ret. by split_and!.
Qed.

Module SmallTable.

(** The structure is in the ROM, the table at 4 KB: two processors and an I/O APIC. *)
Definition mp_bytes : list Z := [95; 77; 80; 95; 0; 16; 0; 0; 1; 4; 144; 0; 0; 0; 0; 0].
Definition conf_bytes : list Z :=
  [80; 67; 77; 80; 92; 0; 4; 124; 0; 0; 0; 0; 0; 0; 0; 0; 0; 0; 0; 0; 0; 0; 0; 0; 0; 0; 0; 0; 0; 0; 0; 0; 0; 0; 3; 0; 0; 0; 224; 254; 0; 0; 0; 0] ++
  [0; 3] ++ replicate 18 0 ++ [2; 9] ++ replicate 6 0 ++ [0; 5] ++ replicate 18 0.
Definition at_addr (a : Z) (l : list Z) (m : mem) : mem := fun x => if a <=? x then default (m x) (l !! Z.to_nat (x - a)) else m x.
Definition bios : mem := at_addr (P2V_mp 983056) mp_bytes (at_addr (P2V_mp 4096) conf_bytes (fun _ => 0)).

Lemma mpsearch1_finds_witness : mpsearch1 bios 983040 65536 = Some (P2V_mp 983056).
Proof.
  apply mpsearch1_finds; [discriminate|]. exists 1%nat. split_and!; [reflexivity|reflexivity|vm_compute; reflexivity|].
  intros j Hj. assert (j = 0%nat) as -> by lia. vm_compute. reflexivity.
Defined.

Lemma mpinit_finds_witness : wp (mpinit bios) (mkMp [] 0 0 false) (fun _ s' => mp_apicids s' = [3; 5] /\ mp_lapic s' = 4276092928 /\ mp_ioapicid s' = 9).
Proof.
  eapply wp_mono; [|apply (mpinit_finds bios _ (P2V_mp 983056) (P2V_mp 4096) [EProc 3; EIoapic 9; EProc 5])]; [|vm_compute; reflexivity|reflexivity|].
  - intros _ s' (E1 & E2 & E3). rewrite E1, E2, E3. split_and!; vm_compute; reflexivity.
  - apply (t_proc bios _ (P2V_mp 4096 + CONF_SIZE)); [reflexivity|reflexivity|]. apply (t_ioapic bios _ (P2V_mp 4096 + CONF_SIZE + PROC_SIZE)); [reflexivity|reflexivity|].
    apply (t_proc bios _ (P2V_mp 4096 + CONF_SIZE + PROC_SIZE + IOAPIC_SIZE)); [reflexivity|reflexivity|]. apply t_end. vm_compute. discriminate.
Defined.

(** A table whose first entry has type 9. *)
Example strange_table_never_ends fuel : table_loop fuel (at_addr 100 [9] (fun _ => 0)) 100 120 true (mkMp [] 0 0 false) = None.
Proof.
  destruct (table_loop _ _ _ _ _ _) as [r|] eqn:E; [|done]. exfalso. apply table_loop_table in E as [es Hes]. inversion Hes; subst; try lia;
    match goal with H : _ |- _ => vm_compute in H; (discriminate || (destruct H as [H|[H|H]]; discriminate)) end.
Qed.

End SmallTable.
