(* ===== verification/Cmos.v ===== *)
(** * lapic.c: reading the clock

    The clock of the CMOS goes on while the kernel reads it, one register at a time.
    [rtc n reg] is what register [reg] holds at the [n]-th access; the loop that
    reads until two readings agree takes fuel.

    Shown: the date [cmostime] returns is one the clock showed at one moment, though
    its fields are read one after the other, if the clock moves at most once during
    two readings; and it does return when the clock rests long enough. *)

From S2P Require Import Prelude.

(** ** date.h and lapic.c *)

Record rtcdate : Type := mkDate { second : Z; minute : Z; hour : Z; day : Z; month : Z; year : Z }.

#[export] Instance rtcdate_eq_dec : EqDecision rtcdate.
Proof. solve_decision. Defined.

Definition CMOS_STATA : Z := 10.
Definition CMOS_STATB : Z := 11.
Definition CMOS_UIP : Z := 128.
Definition SECS : Z := 0.
Definition MINS : Z := 2.
Definition HOURS : Z := 4.
Definition DAY : Z := 7.
Definition MONTH : Z := 8.
Definition YEAR : Z := 9.

Section Clock.
  Variable rtc : nat -> Z -> Z.

(** The value, and the number of the next access. *)
Definition cmos_read (reg : Z) (n : nat) : Z * nat := (rtc n reg, S n).

Definition fill_rtcdate (n : nat) : rtcdate * nat :=
  let '(s, n) := cmos_read SECS n in
  let '(mi, n) := cmos_read MINS n in
  let '(h, n) := cmos_read HOURS n in
  let '(d, n) := cmos_read DAY n in
  let '(mo, n) := cmos_read MONTH n in
  let '(y, n) := cmos_read YEAR n in
  (mkDate s mi h d mo y, n).

Fixpoint read_loop_cmos (fuel : nat) (n : nat) : option (rtcdate * nat) :=
  match fuel with
  | O => None
  | S k =>
      let '(t1, n) := fill_rtcdate n in
      let '(a, n) := cmos_read CMOS_STATA n in
      if negb (Z.land a CMOS_UIP =? 0) then read_loop_cmos k n
      else
        let '(t2, n) := fill_rtcdate n in
        if bool_decide (t1 = t2) then Some (t1, n) else read_loop_cmos k n
  end.

(** The macro CONV. *)
Definition conv (x : Z) : Z := Z.shiftr x 4 * 10 + Z.land x 15.

Definition cmostime (fuel : nat) : option rtcdate :=
  let '(sb, n) := cmos_read CMOS_STATB 0 in
  let bcd := Z.land sb 4 =? 0 in
  '(t, _) ← read_loop_cmos fuel n;
  let t := if bcd then mkDate (conv (second t)) (conv (minute t)) (conv (hour t)) (conv (day t)) (conv (month t)) (conv (year t)) else t in
  Some (mkDate (second t) (minute t) (hour t) (day t) (month t) (uint32 (year t + 2000))).

(** ** The clock *)

(** [now n] is the date at access [n], [bcd] how the registers show it; the registers of a date that is being changed are not read as such. *)
Variable now : nat -> rtcdate.
Variable bcd : bool.

Definition to_bcd (v : Z) : Z := 16 * (v / 10) + v mod 10.
Definition shown (v : Z) : Z := if bcd then to_bcd v else v.

Definition field (d : rtcdate) (reg : Z) : Z :=
  if reg =? SECS then second d else if reg =? MINS then minute d else if reg =? HOURS then hour d
  else if reg =? DAY then day d else if reg =? MONTH then month d else year d.

(** A date of this century. *)
Definition in_range (d : rtcdate) : Prop := forall reg, 0 <= field d reg < 100.

Record clock : Prop := {
  ck_shows : forall n reg, reg ∈ [SECS; MINS; HOURS; DAY; MONTH; YEAR] -> rtc n reg = shown (field (now n) reg);
  ck_mode : (Z.land (rtc 0 CMOS_STATB) 4 =? 0) = bcd;
  ck_range : forall n, in_range (now n);
  (* within the accesses of two readings it moves at most once *)
  ck_slow : forall n, exists k, (forall i, (n <= i < k)%nat -> now i = now n) /\ (forall i, (k <= i < n + 13)%nat -> now i = now k)
}.

Lemma conv_shown v : 0 <= v < 100 -> conv (to_bcd v) = v.
Proof.
  intros Hv. unfold conv, to_bcd. pose proof (Z.div_mod v 10 ltac:(lia)). pose proof (Z.mod_pos_bound v 10 ltac:(lia)).
  change 15 with (Z.ones 4). rewrite Z.land_ones, Z.shiftr_div_pow2 by lia. change (2 ^ 4) with 16.
  rewrite <- (Z.div_unique_pos (16 * (v / 10) + v mod 10) 16 (v / 10) (v mod 10)), <- (Z.mod_unique_pos (16 * (v / 10) + v mod 10) 16 (v / 10) (v mod 10)) by lia. lia.
Qed.

(** A date as the registers show it. *)
Definition shown_date (d : rtcdate) : rtcdate :=
  mkDate (shown (second d)) (shown (minute d)) (shown (hour d)) (shown (day d)) (shown (month d)) (shown (year d)).

(** The date in full, as [cmostime] gives it. *)
Definition full_date (d : rtcdate) : rtcdate := mkDate (second d) (minute d) (hour d) (day d) (month d) (year d + 2000).

Hypothesis Hclock : clock.

Lemma fill_fields n : fill_rtcdate n = (mkDate (shown (second (now n))) (shown (minute (now (S n)))) (shown (hour (now (2 + n)))) (shown (day (now (3 + n))))
  (shown (month (now (4 + n)))) (shown (year (now (5 + n)))), (6 + n)%nat).
Proof.
  unfold fill_rtcdate, cmos_read. rewrite !(ck_shows Hclock) by (repeat (left; reflexivity) || right); done.
Qed.

(** Two readings that agree are of one moment. *)
Lemma readings_agree n t : (fill_rtcdate n).1 = t -> (fill_rtcdate (7 + n)).1 = t -> exists j, (n <= j < 13 + n)%nat /\ t = shown_date (now j).
Proof.
  rewrite !fill_fields. cbn [fst]. intros H1 H2. destruct (ck_slow Hclock n) as (k & Hb & Ha). destruct (decide (6 + n <= k)%nat) as [Hk|Hk].
  - exists n. split; [lia|]. rewrite <- H1. unfold shown_date. by rewrite (Hb (S n)), (Hb (2 + n)%nat), (Hb (3 + n)%nat), (Hb (4 + n)%nat), (Hb (5 + n)%nat) by lia.
  - exists (7 + n)%nat. split; [lia|]. rewrite <- H2. unfold shown_date.
    rewrite (Ha (7 + n)%nat), (Ha (S (7 + n))), (Ha (2 + (7 + n))%nat), (Ha (3 + (7 + n))%nat), (Ha (4 + (7 + n))%nat), (Ha (5 + (7 + n))%nat) by lia. done.
Qed.

(** From access [N] on the clock stands still and shows no update for two tries. *)
Definition rests (N : nat) : Prop := forall i, (N <= i < 26 + N)%nat -> now i = now N /\ Z.land (rtc i CMOS_STATA) CMOS_UIP = 0.

Lemma read_loop_reads N : rests N -> forall fuel n, (n <= 13 + N)%nat -> (N < n + fuel)%nat -> (0 < fuel)%nat ->
  exists j t, read_loop_cmos fuel n = Some (shown_date (now j), t) /\ (j < 26 + N)%nat.
Proof.
  intros Hrest. induction fuel as [|fuel IH]; intros n Hn Hf H0; [lia|]. cbn [read_loop_cmos].
  pose proof (fill_fields n) as E1. pose proof (fill_fields (S (6 + n))) as E2. set (t1 := mkDate _ _ _ _ _ _) in E1. set (t2 := mkDate _ _ _ _ _ _) in E2.
  rewrite E1. unfold cmos_read at 1.
  destruct (Z.eqb_spec (Z.land (rtc (6 + n) CMOS_STATA) CMOS_UIP) 0) as [Eu|Eu]; cbn [negb].
  - rewrite E2. case_bool_decide as Et.
    + destruct (readings_agree n t1) as (j & Hj & ->); [by rewrite E1|by rewrite (E2 : fill_rtcdate (7 + n) = _)|]. eexists j, _. split; [done|lia].
    + destruct (decide (n < N)%nat) as [Hlt|Hge]; [apply IH; lia|]. exfalso. apply Et. unfold t1, t2.
      assert (Hc : forall i, (N <= i < 26 + N)%nat -> now i = now N) by (intros i Hi; by destruct (Hrest i Hi)).
      rewrite (Hc n), (Hc (S n)), (Hc (2 + n)%nat), (Hc (3 + n)%nat), (Hc (4 + n)%nat), (Hc (5 + n)%nat) by lia.
      by rewrite (Hc (S (6 + n))), (Hc (S (S (6 + n)))), (Hc (2 + S (6 + n))%nat), (Hc (3 + S (6 + n))%nat), (Hc (4 + S (6 + n))%nat), (Hc (5 + S (6 + n))%nat) by lia.
  - destruct (decide (n < N)%nat) as [Hlt|Hge]; [apply IH; lia|]. destruct (Hrest (6 + n)%nat) as [_ E]; [lia|congruence].
Qed.

(** The kernel reads the time right: where the clock moves at most once in the
    time of two readings, and rests for two tries from some access on, [cmostime]
    returns, and what it returns is a date the clock showed at one moment, with the
    century, in binary whatever the mode of the clock. *)
Theorem cmostime_reads N : rests N -> exists j, cmostime (S N) = Some (full_date (now j)) /\ (j < 26 + N)%nat.
Proof.
  intros Hrest. unfold cmostime, cmos_read at 1. rewrite (ck_mode Hclock). destruct (read_loop_reads N Hrest (S N) 1) as (j & t & E & Hj); [lia|lia|lia|]. rewrite E.
  cbn [mbind option_bind]. exists j. split; [|done]. f_equal. pose proof (ck_range Hclock j) as Hr.
  pose proof (Hr SECS) as R1. pose proof (Hr MINS) as R2. pose proof (Hr HOURS) as R3. pose proof (Hr DAY) as R4. pose proof (Hr MONTH) as R5. pose proof (Hr YEAR) as R6.
  cbn in R1, R2, R3, R4, R5, R6. unfold full_date, shown_date, shown. destruct bcd; cbn [second minute hour day month year]; rewrite ?conv_shown by done;
    by rewrite uint32_small by (unfold W32; lia).
Qed.

End Clock.

Module SmallClock.

(** A clock that moves at access 5 from 23:59:59 to the next day. *)
Definition late : rtcdate := mkDate 59 59 23 31 12 24.
Definition new_year : rtcdate := mkDate 0 0 0 1 1 25.
Definition date_at (n : nat) : rtcdate := if (n <? 5)%nat then late else new_year.
Definition cmos (n : nat) (reg : Z) : Z := if (reg =? CMOS_STATA) || (reg =? CMOS_STATB) then 0 else to_bcd (field (date_at n) reg).

Lemma cmos_clock : clock cmos date_at true.
Proof.
  constructor.
  - intros n reg Hr. unfold cmos, shown. replace ((reg =? CMOS_STATA) || (reg =? CMOS_STATB)) with false; [done|].
    repeat (apply elem_of_cons in Hr as [->|Hr]; [done|]). by apply elem_of_nil in Hr.
  - reflexivity.
  - intros n reg. unfold date_at, field. destruct (n <? 5)%nat; repeat (destruct (_ =? _); [cbn; lia|]); cbn; lia.
  - intros n. exists 5%nat. unfold date_at. split; intros i Hi.
    + by rewrite (proj2 (Nat.ltb_lt i 5)), (proj2 (Nat.ltb_lt n 5)) by lia.
    + by rewrite (proj2 (Nat.ltb_ge i 5)) by lia.
Qed.

Lemma cmostime_reads_witness : exists j, cmostime cmos 6 = Some (full_date (date_at j)) /\ (j < 31)%nat.
Proof.
  apply (cmostime_reads cmos date_at true cmos_clock 5). intros i Hi. split; [|reflexivity]. unfold date_at. by rewrite (proj2 (Nat.ltb_ge i 5)) by lia.
Defined.

Example cmostime_runs : cmostime cmos 6 = Some (mkDate 0 0 0 1 1 2025).
Proof. reflexivity. Qed.

End SmallClock.
