(* ===== verification/Desc.v ===== *)
(** * mmu.h, seginit of vm.c and tvinit of trap.c: segments and gates

    A descriptor is a record of the bit fields of its C structure; a value stored in
    a field keeps the bits of the field's width.  [seg_base], [seg_limit] and
    [gate_offset] put the pieces together again as the processor does.

    Shown: every descriptor has fields of their widths, so it is the eight bytes
    the processor reads; the segments cover all of memory for the kernel and for
    programs; the table of interrupts leads each to its vector, and the system call
    is the only one a program can raise itself. *)

From S2P Require Import Prelude.

(** A value stored in a bit field of [w] bits. *)
Definition bits (w v : Z) : Z := v mod 2 ^ w.

Record segdesc : Type := mkSeg {
  sd_lim_15_0 : Z; sd_base_15_0 : Z; sd_base_23_16 : Z; sd_type : Z; sd_s : Z; sd_dpl : Z; sd_p : Z;
  sd_lim_19_16 : Z; sd_avl : Z; sd_rsv1 : Z; sd_db : Z; sd_g : Z; sd_base_31_24 : Z
}.

(** The initialiser of a structure of bit fields. *)
Definition seg_of (l b0 b1 t s d p l1 a r db g b2 : Z) : segdesc :=
  mkSeg (bits 16 l) (bits 16 b0) (bits 8 b1) (bits 4 t) (bits 1 s) (bits 2 d) (bits 1 p) (bits 4 l1) (bits 1 a) (bits 1 r) (bits 1 db) (bits 1 g) (bits 8 b2).

Definition SEG (type base lim dpl : Z) : segdesc :=
  seg_of (Z.land (Z.shiftr lim 12) 65535) (Z.land (uint32 base) 65535) (Z.land (Z.shiftr (uint32 base) 16) 255) type 1 dpl 1
    (Z.shiftr (uint32 lim) 28) 0 0 1 1 (Z.shiftr (uint32 base) 24).

Definition SEG16 (type base lim dpl : Z) : segdesc :=
  seg_of (Z.land lim 65535) (Z.land (uint32 base) 65535) (Z.land (Z.shiftr (uint32 base) 16) 255) type 1 dpl 1
    (Z.shiftr (uint32 lim) 16) 0 0 1 0 (Z.shiftr (uint32 base) 24).

Record gatedesc : Type := mkGate {
  gd_off_15_0 : Z; gd_cs : Z; gd_args : Z; gd_rsv1 : Z; gd_type : Z; gd_s : Z; gd_dpl : Z; gd_p : Z; gd_off_31_16 : Z
}.

Definition STA_X : Z := 8.
Definition STA_W : Z := 2.
Definition STA_R : Z := 2.
Definition STS_IG32 : Z := 14.
Definition STS_TG32 : Z := 15.
Definition DPL_USER : Z := 3.
Definition SEG_KCODE : Z := 1.
Definition SEG_KDATA : Z := 2.
Definition SEG_UCODE : Z := 3.
Definition SEG_UDATA : Z := 4.

Definition SETGATE (istrap : bool) (sel off d : Z) : gatedesc :=
  mkGate (bits 16 (Z.land (uint32 off) 65535)) (bits 16 sel) 0 0 (bits 4 (if istrap then STS_TG32 else STS_IG32)) 0 (bits 2 d) 1 (bits 16 (Z.shiftr (uint32 off) 16)).

(** ** vm.c and trap.c *)

(** [c->gdt] of the processor. *)
Definition seginit (gdt : Z -> segdesc) : Z -> segdesc :=
  <[SEG_UDATA := SEG STA_W 0 4294967295 DPL_USER]> (<[SEG_UCODE := SEG (Z.lor STA_X STA_R) 0 4294967295 DPL_USER]>
    (<[SEG_KDATA := SEG STA_W 0 4294967295 0]> (<[SEG_KCODE := SEG (Z.lor STA_X STA_R) 0 4294967295 0]> gdt))).

Definition SYSCALL_VECTOR : Z := 64.

Fixpoint tvinit_loop (n : nat) (i : Z) (vectors : Z -> Z) (idt : Z -> gatedesc) : Z -> gatedesc :=
  match n with
  | O => idt
  | S k => tvinit_loop k (i + 1) vectors (<[i := SETGATE false (Z.shiftl SEG_KCODE 3) (vectors i) 0]> idt)
  end.

(** The lock of the ticks, which is initialised here too, is Trap.v's. *)
Definition tvinit (vectors : Z -> Z) (idt : Z -> gatedesc) : Z -> gatedesc :=
  <[SYSCALL_VECTOR := SETGATE true (Z.shiftl SEG_KCODE 3) (vectors SYSCALL_VECTOR) DPL_USER]> (tvinit_loop 256 0 vectors idt).

(** x86.h: the operand of [lgdt] and [lidt], three words. *)
Definition table_operand (p size : Z) : list Z := [uint16 (size - 1); uint16 (uint32 p); uint16 (Z.shiftr (uint32 p) 16)].

(** ** What the processor makes of them *)

Definition seg_base (d : segdesc) : Z := sd_base_15_0 d + 65536 * sd_base_23_16 d + 16777216 * sd_base_31_24 d.
Definition seg_limit (d : segdesc) : Z :=
  let l := sd_lim_15_0 d + 65536 * sd_lim_19_16 d in if sd_g d =? 1 then 4096 * l + 4095 else l.
Definition gate_offset (g : gatedesc) : Z := gd_off_15_0 g + 65536 * gd_off_31_16 g.

(** Software at privilege level [cpl] may raise the interrupt with [int]. *)
Definition may_raise (cpl : Z) (g : gatedesc) : bool := (gd_p g =? 1) && (cpl <=? gd_dpl g).

Definition fits_in (w v : Z) : Prop := 0 <= v < 2 ^ w.

Record seg_wf (d : segdesc) : Prop := {
  sw_lim0 : fits_in 16 (sd_lim_15_0 d); sw_base0 : fits_in 16 (sd_base_15_0 d); sw_base1 : fits_in 8 (sd_base_23_16 d); sw_type : fits_in 4 (sd_type d);
  sw_s : fits_in 1 (sd_s d); sw_dpl : fits_in 2 (sd_dpl d); sw_p : fits_in 1 (sd_p d); sw_lim1 : fits_in 4 (sd_lim_19_16 d); sw_avl : fits_in 1 (sd_avl d);
  sw_rsv : fits_in 1 (sd_rsv1 d); sw_db : fits_in 1 (sd_db d); sw_g : fits_in 1 (sd_g d); sw_base2 : fits_in 8 (sd_base_31_24 d)
}.

Record gate_wf (g : gatedesc) : Prop := {
  gw_off0 : fits_in 16 (gd_off_15_0 g); gw_cs : fits_in 16 (gd_cs g); gw_args : fits_in 5 (gd_args g); gw_rsv : fits_in 3 (gd_rsv1 g); gw_type : fits_in 4 (gd_type g);
  gw_s : fits_in 1 (gd_s g); gw_dpl : fits_in 2 (gd_dpl g); gw_p : fits_in 1 (gd_p g); gw_off1 : fits_in 16 (gd_off_31_16 g)
}.

Lemma bits_fit w v : 0 <= w -> fits_in w (bits w v).
Proof. intros Hw. apply Z.mod_pos_bound. by apply Z.pow_pos_nonneg. Qed.

Lemma bits_id w v : fits_in w v -> bits w v = v.
Proof. apply Z.mod_small. Qed.

Lemma seg_of_wf l b0 b1 t s d p l1 a r db g b2 : seg_wf (seg_of l b0 b1 t s d p l1 a r db g b2).
Proof. constructor; cbn; apply bits_fit; done. Qed.

Lemma setgate_wf b sel off d : gate_wf (SETGATE b sel off d).
Proof. constructor; cbn; first [apply bits_fit; done|split; done]. Qed.

(** The halves and bytes of a word. *)
Lemma halves x : 0 <= x < W32 -> bits 16 (Z.land x 65535) + 65536 * bits 16 (Z.shiftr x 16) = x.
Proof.
  intros Hx. unfold W32 in Hx. unfold bits. change 65535 with (Z.ones 16). rewrite Z.land_ones, Z.shiftr_div_pow2 by lia. change (2 ^ 16) with 65536.
  rewrite Z.mod_mod by lia. rewrite (Z.mod_small (x / 65536)) by (split; [apply Z.div_pos|apply Z.div_lt_upper_bound]; lia). pose proof (Z.div_mod x 65536). lia.
Qed.

Lemma three_parts x : 0 <= x < W32 ->
  bits 16 (Z.land x 65535) + 65536 * bits 8 (Z.land (Z.shiftr x 16) 255) + 16777216 * bits 8 (Z.shiftr x 24) = x.
Proof.
  intros Hx. unfold W32 in Hx. unfold bits. change 65535 with (Z.ones 16). change 255 with (Z.ones 8). rewrite !Z.land_ones, !Z.shiftr_div_pow2 by lia.
  change (2 ^ 16) with 65536. change (2 ^ 8) with 256. change (2 ^ 24) with 16777216. rewrite !Z.mod_mod by lia.
  assert (E : x / 16777216 = x / 65536 / 256) by (rewrite Z.div_div by lia; done). rewrite E, (Z.mod_small (x / 65536 / 256)).
  - pose proof (Z.div_mod x 65536 ltac:(lia)). pose proof (Z.div_mod (x / 65536) 256 ltac:(lia)). lia.
  - rewrite <- E. split; [apply Z.div_pos|apply Z.div_lt_upper_bound]; lia.
Qed.

(** A segment descriptor says what it was made for: its fields have their
    widths, the processor reads from them the base it was given, a limit that is
    the one given up to the 4 KB granularity, and the privilege level. *)
Theorem segment_reads_back type base lim dpl : 0 <= base < W32 -> 0 <= lim < W32 -> 0 <= dpl <= 3 ->
  seg_wf (SEG type base lim dpl) /\ seg_base (SEG type base lim dpl) = base /\ seg_limit (SEG type base lim dpl) = 4096 * (lim / 4096) + 4095 /\ sd_dpl (SEG type base lim dpl) = dpl.
Proof.
  intros Hb Hl Hd. split_and!; [apply seg_of_wf| | |cbn; by rewrite bits_id by (unfold fits_in; change (2 ^ 2) with 4; lia)].
  - unfold seg_base. cbn -[bits Z.land Z.shiftr]. rewrite !uint32_small by done. by apply three_parts.
  - unfold seg_limit. cbn -[bits Z.land Z.lor Z.shiftr Z.mul Z.add]. change (bits 1 1 =? 1) with true. cbv iota. rewrite uint32_small by done. unfold W32 in Hl. unfold bits.
    change 65535 with (Z.ones 16). rewrite !Z.land_ones, !Z.shiftr_div_pow2 by lia. change (2 ^ 16) with 65536. change (2 ^ 12) with 4096. change (2 ^ 28) with (4096 * 65536).
    change (2 ^ 4) with 16. rewrite Z.mod_mod, <- Z.div_div by lia. pose proof (Z.div_mod (lim / 4096) 65536 ltac:(lia)).
    assert (lim / 4096 / 65536 < 16) by (rewrite Z.div_div by lia; apply Z.div_lt_upper_bound; lia).
    rewrite (Z.mod_small (lim / 4096 / 65536)) by (split; [apply Z.div_pos; [apply Z.div_pos|]; lia|done]). lia.
Qed.

Lemma segment_reads_back_witness : seg_base (SEG STA_W 1048576 4294967295 3) = 1048576 /\ seg_limit (SEG STA_W 1048576 4294967295 3) = 4294967295.
Proof.
  destruct (segment_reads_back STA_W 1048576 4294967295 3) as (_ & E1 & E2 & _); [split; [discriminate|reflexivity]|split; [discriminate|reflexivity]|split; discriminate|].
  split; [exact E1|]. rewrite E2. reflexivity.
Defined.

(** The kernel's and the programs' segments cover all addresses. *)
Lemma seginit_flat gdt : forall i, i ∈ [SEG_KCODE; SEG_KDATA; SEG_UCODE; SEG_UDATA] ->
  seg_base (seginit gdt i) = 0 /\ seg_limit (seginit gdt i) = 4294967295 /\ sd_dpl (seginit gdt i) = if (i =? SEG_KCODE) || (i =? SEG_KDATA) then 0 else 3.
Proof. intros i Hi. repeat (apply elem_of_cons in Hi as [->|Hi]; [done|]). by apply elem_of_nil in Hi. Qed.

Lemma tvinit_loop_gates n vectors : forall i idt j, tvinit_loop n i vectors idt j =
  if decide (i <= j < i + Z.of_nat n) then SETGATE false (Z.shiftl SEG_KCODE 3) (vectors j) 0 else idt j.
Proof.
  induction n as [|n IH]; intros i idt j; cbn [tvinit_loop]; [by rewrite decide_False by lia|]. rewrite IH.
  destruct (decide (i + 1 <= j < i + 1 + Z.of_nat n)), (decide (i <= j < i + Z.of_nat (S n))); try lia; [done| |].
  - assert (j = i) as -> by lia. by rewrite fn_lookup_insert.
  - by rewrite fn_lookup_insert_ne by lia.
Qed.

Lemma gate_offset_back b sel off d : 0 <= off < W32 -> gate_offset (SETGATE b sel off d) = off.
Proof. intros Ho. unfold gate_offset. cbn -[bits Z.land Z.shiftr]. rewrite uint32_small by done. by apply halves. Qed.

(** C40: The interrupt table is well-formed and guards the kernel: each of its 256
    gates is a descriptor whose fields have their widths, leads to the vector of its
    number in the kernel's code segment, and can be raised by a program itself only
    if it is the system call, which alone leaves interrupts enabled. *)
Theorem tvinit_gates vectors idt i : (forall j, 0 <= vectors j < W32) -> 0 <= i < 256 ->
  let g := tvinit vectors idt i in
  gate_wf g /\ gate_offset g = vectors i /\ gd_cs g = 8 /\ may_raise 3 g = (i =? SYSCALL_VECTOR) /\ may_raise 0 g = true /\
  gd_type g = if i =? SYSCALL_VECTOR then STS_TG32 else STS_IG32.
Proof.
  intros Hv Hi. unfold tvinit. destruct (Z.eqb_spec i SYSCALL_VECTOR) as [->|Hne]; cbn zeta.
  - rewrite fn_lookup_insert. split_and!; [apply setgate_wf|by apply gate_offset_back|done|done|done|done].
  - rewrite fn_lookup_insert_ne, tvinit_loop_gates, decide_True by (done || lia). split_and!; [apply setgate_wf|by apply gate_offset_back|done|done|done|done].
Qed.

Lemma tvinit_gates_witness : may_raise 3 (tvinit (fun i => 1048576 + 16 * (i mod 256)) (fun _ => mkGate 0 0 0 0 0 0 0 0 0) 13) = false.
Proof.
  destruct (tvinit_gates (fun i => 1048576 + 16 * (i mod 256)) (fun _ => mkGate 0 0 0 0 0 0 0 0 0) 13) as (_ & _ & _ & E & _); [|split; [discriminate|reflexivity]|exact E].
  intros j. unfold W32. pose proof (Z.mod_pos_bound j 256). lia.
Defined.
