(* ===== verification/Console.v ===== *)
(** * console.c, second part: input and the console device

    [consoleintr], [consoleread], [consolewrite] and [consoleinit].  The
    characters that the device functions [kbdgetc] and [uartgetc] give are a
    list, which ends where they return a negative number.  [consoleintr] says
    whether it was asked for the process listing that [procdump] prints. *)

From S2P Require Import Prelude CString KState Spinlock Cprintf Proc Sock SysArg Kalloc Sleeplock Bio Log Fs.

Definition INPUT_BUF : Z := 128.
Definition CONSOLE : Z := 1.

(** [C(x)], Control-x, of the characters the code names. *)
Definition ctrl_D : Z := 4.
Definition ctrl_H : Z := 8.
Definition ctrl_P : Z := 16.
Definition ctrl_U : Z := 21.

Definition set_e (e : Z) (k : console) : console := cons_input (cn_buf k) (cn_r k) (cn_w k) e k.

(** The loop that kills the line. *)
Fixpoint kill_line (fuel : nat) : K unit :=
  match fuel with
  | O => fun s => Stuck s
  | S n =>
      k ← gets k_cons;
      if negb (cn_e k =? cn_w k) && negb (cn_buf k (uint32 (cn_e k - 1) mod INPUT_BUF) =? 10) then
        upd_cons (set_e (uint32 (cn_e k - 1)));;
        consputc BACKSPACE;;
        kill_line n
      else mret tt
  end.

(** The cases of the switch but [C('P')]. *)
Definition consoleintr_char (c : Z) : K unit :=
  k ← gets k_cons;
  if c =? ctrl_U then kill_line (S (Z.to_nat (uint32 (cn_e k - cn_w k))))
  else if (c =? ctrl_H) || (c =? 127) then
    when (negb (cn_e k =? cn_w k)) (
      upd_cons (set_e (uint32 (cn_e k - 1)));;
      consputc BACKSPACE)
  else
    when (negb (c =? 0) && (uint32 (cn_e k - cn_r k) <? INPUT_BUF)) (
      let c := if c =? 13 then 10 else c in
      upd_cons (fun k => cons_input (upd (cn_buf k) (cn_e k mod INPUT_BUF) (byte8 c)) (cn_r k) (cn_w k)
        (uint32 (cn_e k + 1)) k);;
      consputc c;;
      k ← gets k_cons;
      when ((c =? 10) || (c =? ctrl_D) || (cn_e k =? uint32 (cn_r k + INPUT_BUF))) (
        upd_cons (fun k => cons_input (cn_buf k) (cn_r k) (cn_e k) (cn_e k) k);;
        wakeup ChCons)).

Fixpoint consoleintr_loop (codes : list Z) (doprocdump : bool) : K bool :=
  match codes with
  | [] => mret doprocdump
  | c :: rest =>
      if c =? ctrl_P then consoleintr_loop rest true
      else
        consoleintr_char c;;
        consoleintr_loop rest doprocdump
  end.

Definition consoleintr (codes : list Z) : K bool :=
  acquire LkCons;;
  doprocdump ← consoleintr_loop codes false;
  release LkCons;;
  mret doprocdump.

(** The loops of [consoleread]: whether the process was killed, the final [n]
    and the memory with the bytes read. *)
Fixpoint consoleread_loop (fuel : nat) (md : mem) (dst n target : Z) : K (bool * Z * mem) :=
  match fuel with
  | O => fun s => Stuck s
  | S f =>
      if 0 <? n then
        k ← gets k_cons;
        if cn_r k =? cn_w k then
          '(_, cur) ← curproc;
          if p_killed cur then mret (true, n, md)
          else
            sleep ChCons LkCons;;
            consoleread_loop f md dst n target
        else
          let c := cn_buf k (cn_r k mod INPUT_BUF) in
          upd_cons (fun k => cons_input (cn_buf k) (uint32 (cn_r k + 1)) (cn_w k) (cn_e k) k);;
          if c =? ctrl_D then
            when (uint32 n <? target) (
              upd_cons (fun k => cons_input (cn_buf k) (uint32 (cn_r k - 1)) (cn_w k) (cn_e k) k));;
            mret (false, n, md)
          else
            let md := upd md dst c in
            if c =? 10 then mret (false, n - 1, md)
            else consoleread_loop f md (dst + 1) (n - 1) target
      else mret (false, n, md)
  end.

Definition consoleread (ip : nat) (md : mem) (dst n : Z) : K (Z * mem) :=
  iunlock ip;;
  let target := uint32 n in
  acquire LkCons;;
  w ← gets k_wakeups;
  '(killed, n, md) ← consoleread_loop (S (Z.to_nat n + w)) md dst n target;
  release LkCons;;
  ilock ip;;
  mret (if (killed : bool) then -1 else int32 (target - n), md).

Definition consolewrite (ip : nat) (ms : mem) (buf n : Z) : K Z :=
  iunlock ip;;
  acquire LkCons;;
  cputs (map (fun a => Z.land (ms a) 255) (seqZ buf n));;
  release LkCons;;
  ilock ip;;
  mret n.

(** The table of devices as [consoleinit] leaves it. *)
Definition console_devsw : devsw :=
  mkDevsw (fun major => if major =? CONSOLE then Some consoleread else None)
    (fun major => if major =? CONSOLE then Some consolewrite else None).

(** Enabling the interrupt at the I/O APIC is left out. *)
Definition consoleinit : K devsw :=
  initlock LkCons "console";;
  upd_cons (cons_locking true);;
  mret console_devsw.

(** ** The input as two queues

    The bytes from [r] to [w] are ready to be read; those from [w] to [e] are the
    line being edited.  The counters wrap around at 2^32. *)

Definition cells (b : mem) (from n : Z) : list Z := map (fun j => b ((from + j) mod INPUT_BUF)) (seqZ 0 n).

Lemma cells_length b from n : 0 <= n -> Z.of_nat (length (cells b from n)) = n.
Proof. intros H. unfold cells. rewrite length_map, length_seqZ. lia. Qed.

Lemma cells_app b from n m : 0 <= n -> 0 <= m -> cells b from (n + m) = cells b from n ++ cells b (from + n) m.
Proof.
  intros Hn Hm. unfold cells. rewrite seqZ_app, map_app by lia. f_equal.
  replace (0 + n) with (n + 0) by lia. rewrite <- fmap_add_seqZ. rewrite map_map. apply map_ext. intros j. f_equal. f_equal. lia.
Qed.

Lemma cells_upd b from n v : 0 <= n < INPUT_BUF ->
  cells (upd b ((from + n) mod INPUT_BUF) v) from (n + 1) = cells b from n ++ [v].
Proof.
  intros Hn. rewrite cells_app by lia. f_equal.
  - unfold cells. apply map_ext_in. intros j Hj%list_elem_of_In%elem_of_seqZ. apply upd_ne. intros E.
    pose proof (Z.mod_divide (n - j) INPUT_BUF ltac:(unfold INPUT_BUF; lia)) as [H _].
    assert (Hm : (n - j) mod INPUT_BUF = 0).
    { replace (n - j) with ((from + n) - (from + j)) by lia. rewrite Zminus_mod, E, Z.sub_diag. done. }
    rewrite Z.mod_small in Hm by lia. lia.
  - unfold cells. simpl. rewrite Z.add_0_r, upd_eq. done.
Qed.

Lemma cells_uint32 b from n : cells b (uint32 from) n = cells b from n.
Proof.
  unfold cells. apply map_ext. intros j. f_equal. unfold uint32, W32, INPUT_BUF.
  rewrite (Z.div_mod from 4294967296) at 2 by lia.
  replace (4294967296 * (from / 4294967296) + from mod 4294967296 + j)
    with (from mod 4294967296 + j + (33554432 * (from / 4294967296)) * 128) by lia.
  by rewrite Z.mod_add by lia.
Qed.

Record input_is (k : console) (rd ln : list Z) : Prop := mkInput {
  in_r : 0 <= cn_r k < W32;
  in_w : cn_w k = uint32 (cn_r k + Z.of_nat (length rd));
  in_e : cn_e k = uint32 (cn_r k + Z.of_nat (length rd + length ln));
  in_size : (length rd + length ln <= 128)%nat;
  in_bytes : cells (cn_buf k) (cn_r k) (Z.of_nat (length rd + length ln)) = rd ++ ln;
  in_line : 10 ∉ ln
}.

(** What a character does to the two queues. *)
Definition feed (c : Z) (q : list Z * list Z) : list Z * list Z :=
  let '(rd, ln) := q in
  if c =? ctrl_P then (rd, ln)
  else if c =? ctrl_U then (rd, [])
  else if (c =? ctrl_H) || (c =? 127) then (rd, removelast ln)
  else if negb (c =? 0) && (length rd + length ln <? 128)%nat then
    let c := if c =? 13 then 10 else c in
    let ln := ln ++ [c] in
    if (c =? 10) || (c =? ctrl_D) || (length rd + length ln =? 128)%nat then (rd ++ ln, []) else (rd, ln)
  else (rd, ln).

Lemma uint32_add_eq a n : 0 <= n < W32 -> uint32 (a + n) = uint32 a -> n = 0.
Proof.
  intros Hn E. unfold uint32 in E. assert (H : n mod W32 = 0).
  { replace n with (a + n - a) by lia. rewrite Zminus_mod, E, Z.sub_diag. done. }
  rewrite Z.mod_small in H; [done|unfold W32 in *; lia].
Qed.

Lemma input_line_empty k rd ln : input_is k rd ln -> (cn_e k =? cn_w k) = bool_decide (ln = []).
Proof.
  intros [Hr Hw He Hs _ _]. destruct ln as [|x ln].
  - rewrite Hw, He. simpl length. rewrite Nat.add_0_r, Z.eqb_refl. done.
  - rewrite bool_decide_false by done. apply Z.eqb_neq. rewrite Hw, He. intros E.
    rewrite Nat2Z.inj_add, Z.add_assoc in E. apply uint32_add_eq in E; simpl in *; unfold W32 in *; lia.
Qed.

(** One character off the end of the line. *)
Lemma input_pop k rd ln c : input_is k rd (ln ++ [c]) ->
  cn_buf k (uint32 (cn_e k - 1) mod INPUT_BUF) = c /\
  forall k', cn_buf k' = cn_buf k -> cn_r k' = cn_r k -> cn_w k' = cn_w k -> cn_e k' = uint32 (cn_e k - 1) ->
    input_is k' rd ln.
Proof.
  intros [Hr Hw He Hs Hb Hl]. rewrite length_app in *. simpl in *.
  assert (He1 : uint32 (cn_e k - 1) = uint32 (cn_r k + Z.of_nat (length rd + length ln))).
  { rewrite He, uint32_sub_l. f_equal. lia. }
  replace (Z.of_nat (length rd + (length ln + 1))) with (Z.of_nat (length rd + length ln) + 1) in Hb by lia.
  rewrite cells_app in Hb by lia. rewrite (assoc_L (++)) in Hb.
  apply app_inj_2 in Hb as [Hb1 Hb2]; [|done]. split.
  - rewrite He1. pose proof (cells_uint32 (cn_buf k) (cn_r k + Z.of_nat (length rd + length ln)) 1) as E.
    rewrite Hb2 in E. unfold cells in E. simpl in E. rewrite Z.add_0_r in E. by injection E.
  - intros k' E1 E2 E3 E4. split; rewrite ?E1, ?E2, ?E3, ?E4; [done|done|done|lia|done|].
    intros H. apply Hl. apply elem_of_app. by left.
Qed.

Lemma input_put l k k' rd ln : cons_put l k k' -> input_is k rd ln -> input_is k' rd ln.
Proof. intros [_ (E1 & E2 & E3 & E4) _ _ _] [H1 H2 H3 H4 H5 H6]. split; by rewrite ?E1, ?E2, ?E3, ?E4. Qed.

(** A console that may be locked by its users, and holds the two queues. *)
Definition input_ready (rd ln : list Z) (k : console) : Prop := input_is k rd ln /\ cons_ok k.

Lemma wp_kill_line n : forall s rd ln (Q : unit -> kstate -> Prop), (length ln < n)%nat ->
  input_ready rd ln (k_cons s) ->
  (forall k, input_ready rd [] k -> Q tt (set_cons k s)) -> wp (kill_line n) s Q.
Proof.
  induction n as [|n IH]; intros s rd ln Q Hn [Hin Hok] HQ; [lia|]. cbn [kill_line]. apply wp_gets_bind.
  rewrite (input_line_empty _ _ _ Hin). destruct ln as [|c ln _] using rev_ind.
  - apply wp_ret. rewrite <- (set_cons_id s). by apply HQ.
  - rewrite bool_decide_false by (by intros ?%app_nil; naive_solver).
    destruct (input_pop _ _ _ _ Hin) as [-> Hpop]. assert (Hc : c <> 10).
    { intros ->. apply (in_line _ _ _ Hin). apply elem_of_app. right. by left. }
    destruct (Z.eqb_spec c 10); [done|]. simpl. apply wp_modify_bind. wpb. apply wp_consputc; [done|].
    intros k Hk. rewrite length_app in Hn. simpl in Hn. apply (IH _ rd ln); [lia| |].
    + split; [|apply Hk]. eapply input_put; [exact Hk|]. by apply Hpop.
    + intros k' Hk'. by apply HQ.
Qed.

Lemma length_uint32_line k rd ln : input_is k rd ln ->
  uint32 (cn_e k - cn_w k) = Z.of_nat (length ln) /\ uint32 (cn_e k - cn_r k) = Z.of_nat (length rd + length ln).
Proof.
  intros [Hr Hw He Hs _ _]. rewrite Hw, He. unfold uint32, W32.
  split; [rewrite <- Zminus_mod|rewrite Zminus_mod_idemp_l]; rewrite Z.mod_small; lia.
Qed.

(** The byte [d] put at the end of the line. *)
Record input_pushed (k k' : console) (d : Z) : Prop := mkPushed {
  ip_buf : cn_buf k' = upd (cn_buf k) (cn_e k mod INPUT_BUF) d;
  ip_r : cn_r k' = cn_r k;
  ip_w : cn_w k' = cn_w k;
  ip_e : cn_e k' = uint32 (cn_e k + 1)
}.

Lemma pushed_cells k k' rd ln d : input_is k rd ln -> (length rd + length ln < 128)%nat -> input_pushed k k' d ->
  cn_e k' = uint32 (cn_r k' + Z.of_nat (S (length rd + length ln))) /\
  cells (cn_buf k') (cn_r k') (Z.of_nat (S (length rd + length ln))) = (rd ++ ln) ++ [d].
Proof.
  intros [Hr Hw He Hs Hb Hl] Hlt [B R W E]. rewrite B, R, E, He. split.
  - rewrite uint32_add_l. f_equal. lia.
  - rewrite Nat2Z.inj_succ, <- Z.add_1_r, <- Hb.
    replace (uint32 (cn_r k + Z.of_nat (length rd + length ln)) mod INPUT_BUF)
      with ((cn_r k + Z.of_nat (length rd + length ln)) mod INPUT_BUF).
    + apply cells_upd. unfold INPUT_BUF. lia.
    + pose proof (cells_uint32 (fun x => x) (cn_r k + Z.of_nat (length rd + length ln)) 1) as Ec.
      unfold cells in Ec. simpl in Ec. rewrite !Z.add_0_r in Ec. by injection Ec as ->.
Qed.

Lemma input_full k k' rd ln d : input_is k rd ln -> input_pushed k k' d -> (length rd + length ln < 128)%nat ->
  (cn_e k' =? uint32 (cn_r k' + INPUT_BUF)) = (S (length rd + length ln) =? 128)%nat.
Proof.
  intros Hin Hp Hlt. destruct (pushed_cells _ _ _ _ _ Hin Hlt Hp) as [-> _].
  destruct (Nat.eqb_spec (S (length rd + length ln)) 128) as [->|Hne]; [apply Z.eqb_refl|].
  apply Z.eqb_neq. intros E. set (n := Z.of_nat (S (length rd + length ln))) in *.
  assert (Hn : 128 - n = 0); [|lia]. apply (uint32_add_eq (cn_r k' + n)); [unfold W32; lia|].
  rewrite E. f_equal. unfold INPUT_BUF. lia.
Qed.

Lemma input_extend k k' rd ln d : input_is k rd ln -> (length rd + length ln < 128)%nat -> input_pushed k k' d ->
  d <> 10 -> input_is k' rd (ln ++ [d]).
Proof.
  intros Hin Hlt Hp Hd. destruct (pushed_cells _ _ _ _ _ Hin Hlt Hp) as [E1 E2]. destruct Hin, Hp as [B R W E].
  split; rewrite ?length_app; simpl length; rewrite ?R, ?W; rewrite ?R in E1, E2; try done; try lia.
  - rewrite E1. do 2 f_equal. lia.
  - rewrite (assoc_L (++)), <- E2. f_equal. lia.
  - rewrite elem_of_app, list_elem_of_singleton. naive_solver.
Qed.

Lemma input_commit k k' k2 rd ln d : input_is k rd ln -> (length rd + length ln < 128)%nat -> input_pushed k k' d ->
  cn_buf k2 = cn_buf k' -> cn_r k2 = cn_r k' -> cn_w k2 = cn_e k' -> cn_e k2 = cn_e k' ->
  input_is k2 ((rd ++ ln) ++ [d]) [].
Proof.
  intros Hin Hlt Hp B2 R2 W2 E2'. destruct (pushed_cells _ _ _ _ _ Hin Hlt Hp) as [E1 E2]. destruct Hin, Hp as [B R W E].
  assert (En : Z.of_nat (S (length rd + length ln)) = Z.of_nat (length ((rd ++ ln) ++ [d]) + length (@nil Z)))
    by (rewrite !length_app; simpl; lia).
  rewrite En in E1, E2. split; rewrite ?B2, ?R2, ?W2, ?E2'; try done.
  - by rewrite R.
  - rewrite E1. do 2 f_equal. simpl. lia.
  - rewrite <- (Nat2Z.id (length _ + length _)), <- En. lia.
  - by rewrite app_nil_r.
  - apply not_elem_of_nil.
Qed.

(** A line has become ready. *)
Definition longer (rd rd' : list Z) : bool := (length rd <? length rd')%nat.

Section intr.
Context (L : list lockid) (p : option nat).

Lemma wp_consoleintr_char c s rd ln (Q : unit -> kstate -> Prop) :
  on_cpu L p (k_core s) -> LkPtable ∉ L -> input_ready rd ln (k_cons s) -> 0 <= c < 256 -> c <> ctrl_P ->
  (forall co t k, on_cpu L p co -> wakes ChCons (longer rd (feed c (rd, ln)).1) (k_ptab s) t ->
    input_ready (feed c (rd, ln)).1 (feed c (rd, ln)).2 k -> Q tt (set_core co (set_ptab t (set_cons k s)))) ->
  wp (consoleintr_char c) s Q.
Proof.
  intros Hc Hni [Hin Hok] Hr HP HQ.
  assert (HQ' : forall k, (feed c (rd, ln)).1 = rd -> input_ready (feed c (rd, ln)).1 (feed c (rd, ln)).2 k -> Q tt (set_cons k s)).
  { intros k E Hk. apply (HQ (k_core s) (k_ptab s) k Hc); [|done]. rewrite E. unfold longer. by rewrite Nat.ltb_irrefl. }
  unfold consoleintr_char. apply wp_gets_bind. unfold feed in *. destruct (Z.eqb_spec c ctrl_P) as [|_]; [done|].
  destruct (length_uint32_line _ _ _ Hin) as [E1 E2]. rewrite E1, E2, (input_line_empty _ _ _ Hin).
  destruct (c =? ctrl_U).
  { apply (wp_kill_line _ _ rd ln); [lia|done|]. intros k Hk. by apply HQ'. }
  destruct ((c =? ctrl_H) || (c =? 127)).
  { destruct ln as [|x ln _] using rev_ind.
    - apply wp_ret. rewrite <- (set_cons_id s). by apply HQ'.
    - rewrite bool_decide_false by (by intros ?%app_nil; naive_solver). simpl when.
      destruct (input_pop _ _ _ _ Hin) as [_ Hpop]. apply wp_modify_bind. apply wp_consputc; [done|].
      intros k Hk. apply HQ'; [done|]. rewrite removelast_last. split; [|apply Hk]. eapply input_put; [exact Hk|]. by apply Hpop. }
  destruct (Z.ltb_spec (Z.of_nat (length rd + length ln)) INPUT_BUF) as [Hlt|Hge];
    [change INPUT_BUF with 128 in Hlt|change INPUT_BUF with 128 in Hge].
  2: { rewrite (proj2 (Nat.ltb_ge _ _)) in HQ' by lia. rewrite andb_false_r in HQ' |- *. apply wp_ret.
       rewrite <- (set_cons_id s). by apply HQ'. }
  rewrite (proj2 (Nat.ltb_lt _ _)) in HQ, HQ' by lia.
  destruct (Z.eqb_spec c 0) as [|Hc0]; simpl when.
  { apply wp_ret. rewrite <- (set_cons_id s). by apply HQ'. }
  set (d := if c =? 13 then 10 else c) in *.
  assert (Hd : byte8 d = d) by (unfold byte8; apply Z.mod_small; unfold d; destruct (c =? 13); lia).
  apply wp_modify_bind. wpb. apply wp_consputc; [done|]. intros k Hk. rewrite Hd in Hk.
  assert (Hpush : input_pushed (k_cons s) k d).
  { destruct Hk as [_ (B & R & W & E) _ _ _]. by split. }
  apply wp_gets_bind. simpl k_cons. rewrite (input_full _ _ _ _ _ Hin Hpush) by lia.
  rewrite length_app in HQ, HQ'. simpl length in HQ, HQ'.
  replace (length rd + (length ln + 1))%nat with (S (length rd + length ln)) in HQ, HQ' by lia.
  revert HQ HQ'. simpl negb. simpl andb. cbv iota.
  destruct ((d =? 10) || (d =? ctrl_D) || _) eqn:Eend; intros HQ HQ'; simpl when.
  - apply wp_modify_bind. eapply wp_wakeup; [exact Hc|done|]. intros co Hco.
    apply HQ; [done| |].
    { simpl. unfold longer. rewrite (proj2 (Nat.ltb_lt _ _)) by (rewrite !length_app; simpl; lia). done. }
    split; [|apply Hk].
    simpl. rewrite (assoc_L (++)). apply (input_commit (k_cons s) k); [done|lia|done..].
  - apply wp_ret. apply HQ'; [done|]. split; [|apply Hk]. simpl. apply (input_extend (k_cons s) k rd ln d); [done|lia|done|].
    intros E. by rewrite E in Eend.
Qed.
End intr.

Definition feed_all (codes : list Z) (q : list Z * list Z) : list Z * list Z :=
  fold_left (fun q c => feed c q) codes q.

(** What is ready stays until it is read. *)
Lemma feed_ready c q : (length q.1 <= length (feed c q).1)%nat.
Proof. destruct q as [rd ln]. unfold feed. repeat case_match; simpl; rewrite ?length_app; lia. Qed.

Lemma feed_all_ready codes : forall q, (length q.1 <= length (feed_all codes q).1)%nat.
Proof. induction codes as [|c codes IH]; intros q; [done|]. etransitivity; [apply (feed_ready c)|apply IH]. Qed.

Lemma wp_consoleintr_loop L p codes : forall s b q (Q : bool -> kstate -> Prop),
  on_cpu L p (k_core s) -> LkPtable ∉ L -> input_ready q.1 q.2 (k_cons s) -> Forall (fun c => 0 <= c < 256) codes ->
  (forall co t k, on_cpu L p co -> wakes ChCons (longer q.1 (feed_all codes q).1) (k_ptab s) t ->
    input_ready (feed_all codes q).1 (feed_all codes q).2 k ->
    Q (b || existsb (Z.eqb ctrl_P) codes) (set_core co (set_ptab t (set_cons k s)))) ->
  wp (consoleintr_loop codes b) s Q.
Proof.
  induction codes as [|c codes IH]; intros s b [rd ln] Q Hc Hni Hin Hcs HQ; simpl.
  - apply wp_ret. rewrite orb_false_r in HQ.
    specialize (HQ (k_core s) (k_ptab s) (k_cons s) Hc). destruct s. apply HQ; [|done]. unfold longer. by rewrite Nat.ltb_irrefl.
  - apply Forall_cons in Hcs as [Hr Hcs]. rewrite (Z.eqb_sym c). cbn [existsb] in HQ.
    destruct (Z.eqb_spec ctrl_P c) as [<-|Hne].
    + apply (IH s true (rd, ln)); [done|done|done|done|]. intros co t k Hco Ht Hk.
      rewrite orb_true_r in HQ. by apply HQ.
    + wpb. eapply wp_consoleintr_char; [exact Hc|done|exact Hin|done|done|]. intros co t k Hco Ht Hk.
      eapply (IH _ b (feed c (rd, ln))); [done|done|exact Hk|done|]. intros co' t' k' Hco' Ht' Hk'.
      apply (HQ co' t' k'); [done| |done]. pose proof (wakes_trans _ _ _ _ _ _ Ht Ht') as H.
      replace (longer _ _) with (longer rd (feed c (rd, ln)).1 || longer (feed c (rd, ln)).1 (feed_all codes (feed c (rd, ln))).1); [done|].
      pose proof (feed_ready c (rd, ln)). pose proof (feed_all_ready codes (feed c (rd, ln))). unfold longer. simpl in *.
      apply Bool.eq_iff_eq_true. rewrite orb_true_iff, !Nat.ltb_lt. lia.
Qed.

(** C29: The console's line discipline: the characters an interrupt delivers act,
    in order, on the bytes ready to be read and on the line being edited as
    [feed] says.  Backspace and Control-U edit the unfinished line only; a
    newline, Control-D or a full buffer makes the line ready.  If a line became ready, every process asleep on the
    console is runnable and no other process has changed; if none did, no process has changed at all.
    Nothing typed is lost while the 128 bytes are not full; the counters
    may wrap around.  The interrupt neither blocks nor panics, and changes
    nothing else of the kernel.  (Control-P asks for a listing of the processes, which is not modelled: the
    result says whether it was typed.) *)
Theorem consoleintr_edits (p : option nat) (s : kstate) (rd ln codes : list Z) :
  on_cpu [] p (k_core s) -> input_ready rd ln (k_cons s) -> Forall (fun c => 0 <= c < 256) codes ->
  let q := feed_all codes (rd, ln) in
  wp (consoleintr codes) s (fun b s' => on_cpu [] p (k_core s') /\
    input_ready q.1 q.2 (k_cons s') /\
    b = existsb (Z.eqb ctrl_P) codes /\
    (forall i, proc_at s' i = if (length rd <? length q.1)%nat then procs (wake_tab ChCons (k_ptab s)) i else proc_at s i) /\
    only_woken (k_ptab s) (k_ptab s') /\
    s' = set_core (k_core s') (set_ptab (k_ptab s') (set_cons (k_cons s') s))).
Proof.
  intros Hc Hin Hcs q. unfold consoleintr. wpb. eapply wp_acquire; [exact Hc|set_solver|]. intros c1 H1.
  wpb. eapply (wp_consoleintr_loop _ _ codes _ false (rd, ln)); [exact H1|set_solver|done|done|].
  intros co t k Hco Ht Hk. wpb. eapply wp_release; [exact Hco|done|]. intros c2 H2. apply wp_ret.
  split_and!; try done; [|by eapply wakes_only]. intros i. change (procs t i = if longer rd q.1 then procs (wake_tab ChCons (k_ptab s)) i else procs (k_ptab s) i).
  rewrite (wk_procs _ _ _ _ Ht). by destruct (longer _ _).
Qed.

Lemma console_start_ready : input_ready [] [] zero_cons.
Proof. split; [split; simpl; try lia; [unfold W32; lia|done|done|done|apply not_elem_of_nil]|unfold cons_ok; simpl; lia]. Qed.

(** Typing [a], [b], backspace, [c] and return makes the line [ac] ready and wakes the process 3, which waits for it. *)
Lemma consoleintr_edits_witness :
  wp (consoleintr [97; 98; 8; 99; 13]) (start None (<[3%nat := proc_chan (Some ChCons) (proc_state SLEEPING zero_proc)]> (fun _ => zero_proc)) empty_stab)
    (fun _ s' => input_ready [97; 99; 10] [] (k_cons s') /\ p_state (proc_at s' 3) = RUNNABLE).
Proof.
  eapply wp_mono; [|apply (consoleintr_edits None _ [] [] [97; 98; 8; 99; 13])].
  - intros b s' (_ & H & _ & Hp & _). split; [exact H|]. rewrite Hp. vm_compute. reflexivity.
  - apply one_cpu_on.
  - apply console_start_ready.
  - repeat constructor; lia.
Defined.
