(* ===== verification/Trap.v ===== *)
(** * sysproc.c, the dispatch of syscall.c, and trap.c

    What the devices deliver is an argument of [trap]: the characters that
    [kbdgetc] or [uartgetc] give, and the register cr2.  Acknowledging an
    interrupt at the local APIC ([lapiceoi]) has no effect on the kernel's
    state; [ideintr] is that of memide.c, which does nothing.  The gates
    [tvinit] fills in are in Desc; only the lock it initialises is here. *)

From S2P Require Import Prelude CString KState Spinlock Cprintf Proc Sock SysArg Kalloc Pipe Sleeplock Bio Log.
From S2P Require Import Fs Vm File SysFile ProcLife Exec Console.

(** ** sysproc.c *)

Definition sys_fork : K Z := fork.

Definition sys_exit : K Z :=
  exit;;
  mret 0.

Definition sys_wait : K Z := wait.

Definition sys_kill : K Z :=
  pid ← argint 0;
  match pid with
  | None => mret (-1)
  | Some pid => kill pid
  end.

Definition sys_getpid : K Z :=
  '(_, p) ← curproc;
  mret (p_pid p).

Definition sys_sbrk : K Z :=
  n ← argint 0;
  match n with
  | None => mret (-1)
  | Some n =>
      '(_, p) ← curproc;
      r ← growproc n;
      if r <? 0 then mret (-1) else mret (int32 (p_sz p))
  end.

(** The loop of [sys_sleep]; the comparison is of unsigned numbers. *)
Fixpoint sleep_loop (fuel : nat) (ticks0 n : Z) : K Z :=
  match fuel with
  | O => fun s => Stuck s
  | S k =>
      ticks ← gets k_ticks;
      if uint32 (ticks - ticks0) <? uint32 n then
        '(_, p) ← curproc;
        if p_killed p then
          release LkTicks;;
          mret (-1)
        else
          sleep ChTicks LkTicks;;
          sleep_loop k ticks0 n
      else
        release LkTicks;;
        mret 0
  end.

Definition sys_sleep : K Z :=
  n ← argint 0;
  match n with
  | None => mret (-1)
  | Some n =>
      acquire LkTicks;;
      ticks0 ← gets k_ticks;
      w ← gets k_wakeups;
      sleep_loop (S w) ticks0 n
  end.

Definition sys_uptime : K Z :=
  acquire LkTicks;;
  xticks ← gets k_ticks;
  release LkTicks;;
  mret (int32 xticks).

(** ** syscall.c: the dispatch *)

Definition syscalls (dv : devsw) (num : Z) : option (K Z) :=
  match num with
  | 1 => Some sys_fork
  | 2 => Some sys_exit
  | 3 => Some sys_wait
  | 4 => Some sys_pipe
  | 5 => Some (sys_read dv)
  | 6 => Some sys_kill
  | 7 => Some (sys_exec dv)
  | 8 => Some sys_fstat
  | 9 => Some (sys_chdir dv)
  | 10 => Some sys_dup
  | 11 => Some sys_getpid
  | 12 => Some sys_sbrk
  | 13 => Some sys_sleep
  | 14 => Some sys_uptime
  | 15 => Some (sys_open dv)
  | 16 => Some (sys_write dv)
  | 17 => Some (sys_mknod dv)
  | 18 => Some (sys_unlink dv)
  | 19 => Some (sys_link dv)
  | 20 => Some (sys_mkdir dv)
  | 21 => Some sys_close
  | 22 => Some sys_listen
  | 23 => Some sys_connect
  | 24 => Some sys_send
  | 25 => Some sys_recv
  | 26 => Some sys_disconnect
  | _ => None
  end.

Definition set_eax (cur : nat) (v : Z) : K unit :=
  upd_proc cur (fun r => proc_tf (tf_set_eax (uint32 v) (p_tf r)) r).

Definition syscall (dv : devsw) : K unit :=
  '(cur, p) ← curproc;
  let num := int32 (tf_eax (p_tf p)) in
  match syscalls dv num with
  | Some call =>
      r ← call;
      set_eax cur r
  | None =>
      cprintf (chars "%d %s: unknown sys call %d" ++ [10])
        [CInt (p_pid p); CStr (Some (cstring 16 (p_name p) 0)); CInt num];;
      set_eax cur (-1)
  end.

(** ** traps.h *)

Definition T_SYSCALL : Z := 64.
Definition T_IRQ0 : Z := 32.
Definition IRQ_TIMER : Z := 0.
Definition IRQ_KBD : Z := 1.
Definition IRQ_COM1 : Z := 4.
Definition IRQ_IDE : Z := 14.
Definition IRQ_SPURIOUS : Z := 31.

(** ** trap.c *)

Definition tvinit : K unit := initlock LkTicks "time".

(** [if(myproc()->killed) exit();] *)
Definition exit_if_killed : K unit :=
  '(_, p) ← curproc;
  when (p_killed p) exit.

(** [if(myproc() && myproc()->killed && (tf->cs&3) == DPL_USER) exit();] *)
Definition exit_if_killed_user (tf : trapframe) : K unit :=
  p ← myproc;
  match p with
  | None => mret tt
  | Some i =>
      killed ← gets (fun s => p_killed (proc_at s i));
      when (killed && (Z.land (tf_cs tf) 3 =? DPL_USER)) exit
  end.

Definition timer_tick : K unit :=
  acquire LkTicks;;
  modify (fun s => set_ticks (uint32 (k_ticks s + 1)) s);;
  wakeup ChTicks;;
  release LkTicks.

Definition kernel_trap (tf : trapframe) (cr2 : Z) : K unit :=
  cpu ← cpuid;
  cprintf (chars "unexpected trap %d from cpu %d eip %x (cr2=0x%x)" ++ [10])
    [CInt (tf_trapno tf); CInt (Z.of_nat cpu); CInt (tf_eip tf); CInt cr2];;
  panic "trap".

(** The [default] case: in the kernel it must be our mistake; in user space the
    process misbehaved. *)
Definition unexpected_trap (tf : trapframe) (cr2 : Z) : K unit :=
  p ← myproc;
  match p with
  | Some i =>
      if Z.land (tf_cs tf) 3 =? 0 then kernel_trap tf cr2
      else
        r ← gets (fun s => proc_at s i);
        cpu ← cpuid;
        cprintf (chars "pid %d %s: trap %d err %d on cpu %d eip 0x%x addr 0x%x--kill proc" ++ [10])
          [CInt (p_pid r); CStr (Some (cstring 16 (p_name r) 0)); CInt (tf_trapno tf); CInt (tf_err tf);
           CInt (Z.of_nat cpu); CInt (tf_eip tf); CInt cr2];;
        upd_proc i (proc_killed true)
  | None => kernel_trap tf cr2
  end.

Definition interrupt (input : list Z) (cr2 : Z) (tf : trapframe) : K unit :=
  let n := tf_trapno tf in
  if n =? T_IRQ0 + IRQ_TIMER then
    cpu ← cpuid;
    when (Nat.eqb cpu 0) timer_tick
  else if n =? T_IRQ0 + IRQ_IDE then mret tt
  else if n =? T_IRQ0 + IRQ_IDE + 1 then mret tt
  else if (n =? T_IRQ0 + IRQ_KBD) || (n =? T_IRQ0 + IRQ_COM1) then
    consoleintr input;;
    mret tt
  else if (n =? T_IRQ0 + 7) || (n =? T_IRQ0 + IRQ_SPURIOUS) then
    cpu ← cpuid;
    cprintf (chars "cpu%d: spurious interrupt at %x:%x" ++ [10])
      [CInt (Z.of_nat cpu); CInt (tf_cs tf); CInt (tf_eip tf)]
  else unexpected_trap tf cr2.

Definition trap (dv : devsw) (input : list Z) (cr2 : Z) (tf : trapframe) : K unit :=
  if tf_trapno tf =? T_SYSCALL then
    exit_if_killed;;
    '(cur, _) ← curproc;
    upd_proc cur (proc_tf tf);;
    syscall dv;;
    exit_if_killed
  else
    interrupt input cr2 tf;;
    exit_if_killed_user tf;;
    p ← myproc;
    (match p with
     | Some i =>
         st ← gets (fun s => p_state (proc_at s i));
         when (bool_decide (st = RUNNING) && (tf_trapno tf =? T_IRQ0 + IRQ_TIMER)) yield
     | None => mret tt
     end);;
    exit_if_killed_user tf.
