(* ===== verification/Grep.v ===== *)
(** * grep.c: the matcher and the loop over lines

    Texts and patterns are lists of bytes without the NUL.  The matcher is shown
    to decide the regular expressions it documents ([^], [.], [*] and [$]).  The
    loop prints exactly the matching lines where every [read] fills the buffer,
    as it does on a file; a shorter read, as from a pipe, can lose part of a
    line. *)

From S2P Require Import Prelude.

(** ** The matcher *)

Definition caret : Z := 94.
Definition star : Z := 42.
Definition dollar : Z := 36.
Definition dot : Z := 46.

(** [c] as a pattern character matches [t]. *)
Definition char_ok (c t : Z) : bool := (c =? dot) || (c =? t).

(** The loop of [matchstar], [here] being [matchhere(re, .)]. *)
Fixpoint star_loop (here : list Z -> bool) (c : Z) (text : list Z) : bool :=
  here text ||
  match text with
  | [] => false
  | t :: text' => if char_ok c t then star_loop here c text' else false
  end.

Fixpoint matchhere (re text : list Z) {struct re} : bool :=
  match re with
  | [] => true
  | c :: re1 =>
      let one :=
        match text with
        | [] => false
        | t :: text' => if char_ok c t then matchhere re1 text' else false
        end in
      match re1 with
      | d :: re2 => if d =? star then star_loop (matchhere re2) c text else one
      | [] => if c =? dollar then bool_decide (text = []) else one
      end
  end.

Definition matchstar (c : Z) (re text : list Z) : bool := star_loop (matchhere re) c text.

Fixpoint match_anywhere (re text : list Z) : bool :=
  matchhere re text ||
  match text with
  | [] => false
  | _ :: text' => match_anywhere re text'
  end.

Definition grep_match (re text : list Z) : bool :=
  match re with
  | c :: re1 => if c =? caret then matchhere re1 text else match_anywhere re text
  | [] => match_anywhere re text
  end.

(** ** What the patterns mean *)

Inductive item : Type := One (c : Z) | Star (c : Z) | End.

(** A pattern without the leading caret, as a list of items. *)
Fixpoint parse (re : list Z) : list item :=
  match re with
  | [] => []
  | c :: re1 =>
      match re1 with
      | d :: re2 => if d =? star then Star c :: parse re2 else One c :: parse re1
      | [] => if c =? dollar then [End] else [One c]
      end
  end.

(** [accepts l text]: some prefix of [text] belongs to the language of [l]; [End]
    asks that it is all of it. *)
Inductive accepts : list item -> list Z -> Prop :=
| acc_nil t : accepts [] t
| acc_one c l t text : c = dot \/ c = t -> accepts l text -> accepts (One c :: l) (t :: text)
| acc_star_none c l text : accepts l text -> accepts (Star c :: l) text
| acc_star_some c l t text : c = dot \/ c = t -> accepts (Star c :: l) text -> accepts (Star c :: l) (t :: text)
| acc_end : accepts [End] [].

Lemma char_ok_spec c t : char_ok c t = true <-> c = dot \/ c = t.
Proof. unfold char_ok. rewrite orb_true_iff, !Z.eqb_eq. done. Qed.

Lemma star_loop_accepts here c l : (forall text, here text = true <-> accepts l text) ->
  forall text, star_loop here c text = true <-> accepts (Star c :: l) text.
Proof.
  intros Hh. induction text as [|t text IH]; simpl; rewrite orb_true_iff, Hh.
  - split; [intros [H|[=]]; by constructor|]. inversion 1; subst. by left.
  - split.
    + intros [H|H]; [by constructor|]. destruct (char_ok c t) eqn:E; [|done].
      apply char_ok_spec in E. apply acc_star_some; [done|]. by apply IH.
    + inversion 1; subst; [by left|right].
      match goal with H : _ \/ _ |- _ => apply char_ok_spec in H; rewrite H end. by apply IH.
Qed.

Lemma one_accepts c l (here : list Z -> bool) text : (forall text, here text = true <-> accepts l text) ->
  match text with [] => false | t :: text' => if char_ok c t then here text' else false end = true <->
  accepts (One c :: l) text.
Proof.
  intros Hh. destruct text as [|t text]; [split; [done|inversion 1]|].
  destruct (char_ok c t) eqn:E; rewrite ?Hh.
  - apply char_ok_spec in E. split; [by constructor|]. by inversion 1.
  - split; [done|]. inversion 1; subst.
    match goal with H : _ \/ _ |- _ => apply char_ok_spec in H; congruence end.
Qed.

Lemma matchhere_accepts n : forall re text, (length re <= n)%nat ->
  matchhere re text = true <-> accepts (parse re) text.
Proof.
  induction n as [|n IH]; intros re text Hn; (destruct re as [|c re1]; [split; [constructor|done]|]);
    simpl in Hn; [lia|].
  destruct re1 as [|d re2].
  - simpl. destruct (c =? dollar).
    + rewrite bool_decide_eq_true. split; [intros ->; constructor|by inversion 1].
    + apply one_accepts. intros t. apply (IH []). simpl. lia.
  - simpl in Hn. cbn [matchhere parse]. destruct (d =? star).
    + apply star_loop_accepts. intros t. apply IH. lia.
    + apply one_accepts. intros t. apply (IH (d :: re2)). simpl. lia.
Qed.

Lemma match_anywhere_accepts re text :
  match_anywhere re text = true <-> exists pre post, text = pre ++ post /\ accepts (parse re) post.
Proof.
  induction text as [|t text IH]; simpl; rewrite orb_true_iff, (matchhere_accepts (length re)) by done.
  - split; [intros [H|[=]]; by exists [], []|]. intros (pre & post & E & H). left.
    symmetry in E. apply app_nil in E as [-> ->]. done.
  - rewrite IH. split.
    + intros [H|(pre & post & -> & H)]; [by exists [], (t :: text)|by exists (t :: pre), post].
    + intros ([|x pre] & post & E & H); simpl in E; [left; by subst|right]. injection E as <- ->. by exists pre, post.
Qed.

(** C31: The matcher of grep decides its regular expressions: [match] accepts a
    text exactly when some part of it (with a leading [^], a prefix of it) is in
    the language of the pattern, where [.] stands for any character, [c*] for
    any number of [c], and a final [$] for the end of the text. *)
Theorem match_decides (re text : list Z) :
  grep_match re text = true <->
  match re with
  | 94 :: re1 => accepts (parse re1) text
  | _ => exists pre post, text = pre ++ post /\ accepts (parse re) post
  end.
Proof.
  unfold grep_match. destruct re as [|c re1]; [apply match_anywhere_accepts|].
  destruct (Z.eqb_spec c caret) as [->|Hne]; [by apply (matchhere_accepts (length re1))|].
  rewrite match_anywhere_accepts. unfold caret in Hne.
  destruct c as [|c|c]; try done. do 7 (destruct c as [c|c|]; try done).
Qed.

(** ** The loop over lines *)

(** [strchr(p, '\n')] on the bytes of the buffer: what is before the newline and
    what is after it. *)
Fixpoint split_line (p : list Z) : option (list Z * list Z) :=
  match p with
  | [] => None
  | c :: r =>
      if c =? 0 then None
      else if c =? 10 then Some ([], r)
      else '(l, rest) ← split_line r; Some (c :: l, rest)
  end.

(** The inner loop: what it writes, and [p] at the end. *)
Fixpoint scan_lines (fuel : nat) (re p : list Z) : list Z * list Z :=
  match fuel with
  | O => ([], p)
  | S k =>
      match split_line p with
      | None => ([], p)
      | Some (l, rest) =>
          let '(out, p') := scan_lines k re rest in
          ((if grep_match re l then l ++ [10] else []) ++ out, p')
      end
  end.

(** What is kept in the buffer for the next round. *)
Definition keep (b p : list Z) : list Z := if Nat.eqb (length p) (length b) then [] else p.

Definition BUFSIZE : nat := 1024.

(** The outer loop, [buf] holding the first [m] bytes; [read] gives at most [size
    i] bytes in round [i], at most what is left of the input and of the buffer. *)
Fixpoint grep_loop (fuel : nat) (size : nat -> nat) (i : nat) (re buf input : list Z) : list Z :=
  match fuel with
  | O => []
  | S k =>
      let n := Nat.min (Nat.min (size i) (BUFSIZE - length buf - 1)) (length input) in
      match n with
      | O => []
      | _ =>
          let b := buf ++ take n input in
          let '(out, p) := scan_lines (S (length b)) re b in
          out ++ grep_loop k size (S i) re (keep b p) (drop n input)
      end
  end.

Definition grep (size : nat -> nat) (re input : list Z) : list Z :=
  grep_loop (S (length input)) size 0 re [] input.

(** ** The lines that match *)

Definition line_out (re l : list Z) : list Z := if grep_match re l then l ++ [10] else [].

(** A line that fits the buffer. *)
Definition short_line (l : list Z) : Prop := (length l + 1 < BUFSIZE)%nat /\ forall c, c ∈ l -> c <> 0 /\ c <> 10.

Definition text_of (ls : list (list Z)) : list Z := concat (map (fun l => l ++ [10]) ls).
Definition out_of (re : list Z) (ls : list (list Z)) : list Z := concat (map (line_out re) ls).

Lemma split_line_at l rest : (forall c, c ∈ l -> c <> 0 /\ c <> 10) -> split_line (l ++ 10 :: rest) = Some (l, rest).
Proof.
  induction l as [|c l IH]; intros H; [done|]. simpl.
  destruct (H c) as [H0 H1]; [by left|]. destruct (Z.eqb_spec c 0); [done|]. destruct (Z.eqb_spec c 10); [done|].
  rewrite IH; [done|]. intros d Hd. apply H. by right.
Qed.

Lemma split_line_none l : (forall c, c ∈ l -> c <> 0 /\ c <> 10) -> split_line l = None.
Proof.
  induction l as [|c l IH]; intros H; [done|]. simpl.
  destruct (H c) as [H0 H1]; [by left|]. destruct (Z.eqb_spec c 0); [done|]. destruct (Z.eqb_spec c 10); [done|].
  rewrite IH; [done|]. intros d Hd. apply H. by right.
Qed.

Lemma scan_lines_spec re ls : forall fuel l, (length ls < fuel)%nat -> Forall short_line ls ->
  (forall c, c ∈ l -> c <> 0 /\ c <> 10) ->
  scan_lines fuel re (text_of ls ++ l) = (out_of re ls, l).
Proof.
  induction ls as [|x ls IH]; intros fuel l Hf Hs Hl; (destruct fuel as [|fuel]; [simpl in Hf; lia|]); simpl.
  - by rewrite split_line_none.
  - apply Forall_cons in Hs as [[_ Hx] Hs]. unfold text_of. simpl. rewrite <- !(assoc_L (++)). simpl.
    rewrite split_line_at by done. fold (text_of ls). rewrite IH; [done| |done|done]. simpl in Hf. lia.
Qed.

(** The first [k] bytes of a text: whole lines and the beginning of the next. *)
Lemma prefix_lines ls : forall k l, exists ls1 ls2 l1, ls = ls1 ++ ls2 /\
  take k (text_of ls ++ l) = text_of ls1 ++ l1 /\ l1 `prefix_of` default l (head ls2).
Proof.
  induction ls as [|x ls IH]; intros k l.
  - exists [], [], (take k l). split_and!; [done|done|]. apply prefix_take.
  - destruct (decide (k <= length x)%nat) as [Hk|Hk].
    + exists [], (x :: ls), (take k x). split_and!; [done| |apply prefix_take].
      unfold text_of. simpl. rewrite <- !(assoc_L (++)), take_app_le by done. done.
    + destruct (IH (k - length x - 1)%nat l) as (ls1 & ls2 & l1 & -> & E & Hp).
      exists (x :: ls1), ls2, l1. split_and!; [done| |done].
      unfold text_of in *. simpl. rewrite <- !(assoc_L (++)), take_app_ge by lia.
      destruct (k - length x)%nat as [|j] eqn:Ej; [lia|]. simpl. replace (S j - 1)%nat with j in E by lia.
      by rewrite E.
Qed.

Lemma prefix_no_newline (l1 l : list Z) : l1 `prefix_of` l -> (forall c, c ∈ l -> c <> 0 /\ c <> 10) ->
  (forall c, c ∈ l1 -> c <> 0 /\ c <> 10).
Proof. intros [k ->] H c Hc. apply H. apply elem_of_app. by left. Qed.

Lemma text_of_app ls1 ls2 : text_of (ls1 ++ ls2) = text_of ls1 ++ text_of ls2.
Proof. unfold text_of. by rewrite map_app, concat_app. Qed.

Lemma out_of_app re ls1 ls2 : out_of re (ls1 ++ ls2) = out_of re ls1 ++ out_of re ls2.
Proof. unfold out_of. by rewrite map_app, concat_app. Qed.

Lemma text_of_length ls : (length ls <= length (text_of ls))%nat.
Proof. induction ls as [|x ls IH]; [done|]. unfold text_of in *. simpl. rewrite !length_app. simpl. lia. Qed.

Lemma grep_loop_spec re size l : (forall i, (BUFSIZE - 1 <= size i)%nat) -> short_line l ->
  forall fuel ls i buf input, (length input < fuel)%nat -> Forall short_line ls ->
  buf ++ input = text_of ls ++ l -> buf `prefix_of` default l (head ls) ->
  grep_loop fuel size i re buf input = out_of re ls.
Proof.
  intros Hsz Hl. induction fuel as [|fuel IH]; intros ls i buf input Hf Hs Htxt Hpre; [lia|].
  assert (Hhd : short_line (default l (head ls))) by (destruct ls; [done|by apply Forall_cons in Hs as [? _]]).
  assert (Hlb : (length buf + 1 < BUFSIZE)%nat) by (apply prefix_length in Hpre; destruct Hhd; lia).
  cbn [grep_loop]. specialize (Hsz i). set (n := Nat.min _ (length input)).
  assert (Hn : n = Nat.min (BUFSIZE - length buf - 1) (length input)) by (subst n; lia). clearbody n.
  destruct n as [|n'].
  - assert (Hin : input = []) by (apply length_zero_iff_nil; lia). subst input. rewrite app_nil_r in Htxt.
    destruct ls as [|x ls]; [done|]. exfalso. simpl in Hpre. apply prefix_length in Hpre.
    apply (f_equal length) in Htxt. unfold text_of in Htxt. simpl in Htxt. rewrite !length_app in Htxt. simpl in Htxt. lia.
  - assert (Hb : buf ++ take (S n') input = take (length buf + S n') (text_of ls ++ l)).
    { rewrite <- Htxt, take_app_ge by lia. do 2 f_equal. lia. }
    destruct (prefix_lines ls (length buf + S n') l) as (ls1 & ls2 & l1 & Els & E & Hp1).
    rewrite Hb, E. assert (Hs12 : Forall short_line ls1 /\ Forall short_line ls2) by (rewrite Els in Hs; by apply Forall_app).
    assert (Hhd2 : short_line (default l (head ls2))) by (destruct ls2; [done|by destruct Hs12 as [_ [? _]%Forall_cons]]).
    rewrite scan_lines_spec; [| |by destruct Hs12|by eapply prefix_no_newline; [exact Hp1|apply Hhd2]].
    2: { rewrite length_app. pose proof (text_of_length ls1). lia. }
    rewrite Els, out_of_app. f_equal.
    assert (Hrest : l1 ++ drop (S n') input = text_of ls2 ++ l).
    { apply (app_inv_head (text_of ls1)). rewrite !(assoc_L (++)), <- E, <- Hb, <- (assoc_L (++)), take_drop, Htxt, Els.
      by rewrite text_of_app. }
    unfold keep. rewrite length_app. destruct (Nat.eqb_spec (length l1) (length (text_of ls1) + length l1)) as [E0|E0].
    + assert (ls1 = []) as -> by (apply length_zero_iff_nil; pose proof (text_of_length ls1); lia).
      assert (Hall : drop (S n') input = []).
      { apply drop_ge. assert (length l1 = length buf + S n')%nat.
        { apply (f_equal length) in E. rewrite <- Hb, !length_app, length_take in E.
          change (length (text_of [])) with 0%nat in E. lia. }
        apply prefix_length in Hp1. destruct Hhd2. lia. }
      rewrite Hall, app_nil_r in Hrest. rewrite Hall.
      assert (ls2 = []) as ->; [|by destruct fuel; simpl; rewrite ?Nat.min_0_r].
      destruct ls2 as [|x ls2]; [done|]. exfalso. simpl in Hp1. apply prefix_length in Hp1.
      apply (f_equal length) in Hrest. unfold text_of in Hrest. simpl in Hrest. rewrite !length_app in Hrest. simpl in Hrest. lia.
    + apply IH; [|by destruct Hs12|done|done]. rewrite length_drop. lia.
Qed.

(** grep prints exactly the lines that match, in order: on an input of lines
    shorter than its buffer, which may end in an unfinished line, when every
    [read] gives all that fits the buffer or is left of the input. *)
Theorem grep_prints_matching (re : list Z) (size : nat -> nat) (ls : list (list Z)) (l : list Z) :
  (forall i, (BUFSIZE - 1 <= size i)%nat) -> Forall short_line ls -> short_line l ->
  grep size re (text_of ls ++ l) = out_of re ls.
Proof.
  intros Hsz Hs Hl. apply (grep_loop_spec re size l Hsz Hl); [lia|done|done|apply prefix_nil].
Qed.

(** A short read makes grep lose the beginning of a line: of the one line
    [ab], which contains a [b], read in two pieces of two bytes, grep prints
    nothing for the pattern [b]. *)
Theorem grep_short_read_loses :
  grep_match [98] [97; 98] = true /\ grep (fun _ => 2%nat) [98] [97; 98; 10] = [].
Proof. split; vm_compute; reflexivity. Qed.

Definition short_lineb (l : list Z) : bool :=
  (length l + 1 <? BUFSIZE)%nat && forallb (fun c => negb (c =? 0) && negb (c =? 10)) l.

Lemma short_lineb_ok l : short_lineb l = true -> short_line l.
Proof.
  unfold short_lineb. rewrite andb_true_iff, forallb_forall, Nat.ltb_lt. intros [H1 H2]. split; [done|].
  intros c Hc%list_elem_of_In. specialize (H2 c Hc). lia.
Qed.

Lemma grep_prints_matching_witness :
  grep (fun _ => 1023%nat) [94; 98] (text_of [[98; 99]; [97; 98]] ++ [98]) = [98; 99; 10].
Proof.
  rewrite grep_prints_matching.
  - reflexivity.
  - intros _. unfold BUFSIZE. lia.
  - apply Forall_cons; split; [by apply short_lineb_ok|]. apply Forall_singleton. by apply short_lineb_ok.
  - by apply short_lineb_ok.
Defined.
