(* ===== verification/Shell.v ===== *)
(** * sh.c: the shell's parser

    The line read is a NUL-terminated string in memory.  The nodes [malloc]
    returns are the entries of a heap; a pointer to a node is its index plus one,
    and [parseexec] fills in the arguments of an [execcmd] that redirections
    already point to.  [malloc] has room for a given number of nodes; the code
    does not look at its result, so a request beyond the room is undefined.

    The language of the shell is given apart from the parser, by the relation
    [lex] from text to tokens and the grammar [gline]/[gpipe]/[gexec] from tokens
    to commands.  The parser always stops; it accepts exactly the lines of the
    grammar; and the tree it returns is the command of the grammar, with every
    word terminated in place. *)

From S2P Require Import Prelude CString.

Definition MAXARGS : nat := 10.

(** The structures [execcmd], [redircmd], [pipecmd], [listcmd] and [backcmd]; the type field is the constructor. *)
Inductive node : Type :=
| EXEC (argv eargv : list Z)
| REDIR (cmd file efile mode fd : Z)
| PIPE (left right : Z)
| LIST (left right : Z)
| BACK (cmd : Z).

Record sh : Type := mkSh { sh_mem : mem; sh_heap : list node; sh_room : nat }.

Definition SH : Type -> Type := M sh.

Definition set_shmem (m : mem) (s : sh) : sh := mkSh m (sh_heap s) (sh_room s).
Definition set_heap (h : list node) (s : sh) : sh := mkSh (sh_mem s) h (sh_room s).

(** ** Constructors *)

Definition new_node (n : node) : SH Z := fun s =>
  match sh_room s with
  | O => Undef "malloc"
  | S r => Done (Z.of_nat (length (sh_heap s)) + 1) (mkSh (sh_mem s) (sh_heap s ++ [n]) r)
  end.

Definition execcmd : SH Z := new_node (EXEC (replicate MAXARGS 0) (replicate MAXARGS 0)).
Definition redircmd (subcmd file efile mode fd : Z) : SH Z := new_node (REDIR subcmd file efile mode fd).
Definition pipecmd (left right : Z) : SH Z := new_node (PIPE left right).
Definition listcmd (left right : Z) : SH Z := new_node (LIST left right).
Definition backcmd (subcmd : Z) : SH Z := new_node (BACK subcmd).

(** ** Tokens *)

Definition whitespace : list Z := [32; 9; 13; 10; 11].
Definition symbols : list Z := [60; 124; 62; 38; 59; 40; 41].

(** [strchr(l, c) != 0] for a string [l] (given without its NUL). *)
Definition strchr (l : list Z) (c : Z) : bool := existsb (Z.eqb c) l.

(** [while(s < es && P( *s)) s++;] *)
Fixpoint skip_loop (n : nat) (P : Z -> bool) (m : mem) (s : Z) : Z :=
  match n with
  | O => s
  | S k => if P (m s) then skip_loop k P m (s + 1) else s
  end.
Definition skip (P : Z -> bool) (m : mem) (s es : Z) : Z := skip_loop (Z.to_nat (es - s)) P m s.

Definition plain (c : Z) : bool := negb (strchr whitespace c) && negb (strchr symbols c).

(** Returns the token, where it begins and ends, and the new [*ps]. *)
Definition gettoken (m : mem) (s es : Z) : Z * Z * Z * Z :=
  let s := skip (strchr whitespace) m s es in
  let q := s in
  let '(ret, s) :=
    if m s =? 0 then (0, s)
    else if strchr [124; 40; 41; 59; 38; 60] (m s) then (m s, s + 1)
    else if m s =? 62 then
      let s := s + 1 in
      if m s =? 62 then (43, s + 1) else (62, s)
    else (97, skip plain m s es) in
  let eq := s in
  (ret, q, eq, skip (strchr whitespace) m s es).

Definition peek (m : mem) (s es : Z) (toks : list Z) : bool * Z :=
  let s := skip (strchr whitespace) m s es in
  (negb (m s =? 0) && strchr toks (m s), s).

Definition sh_gettoken (s es : Z) : SH (Z * Z * Z * Z) := gets (fun st => gettoken (sh_mem st) s es).
Definition sh_peek (s es : Z) (toks : list Z) : SH (bool * Z) := gets (fun st => peek (sh_mem st) s es toks).

(** ** The parser *)

Fixpoint redirs_loop (fuel : nat) (cmd s es : Z) : SH (Z * Z) :=
  match fuel with
  | O => fun st => Stuck st
  | S k =>
      '(b, s) ← sh_peek s es [60; 62];
      if (b : bool) then
        '(tok, _, _, s) ← sh_gettoken s es;
        '(a, q, eq, s) ← sh_gettoken s es;
        if negb (a =? 97) then panic "missing file for redirection"
        else
          cmd ← (if tok =? 60 then redircmd cmd q eq O_RDONLY 0
                 else if tok =? 62 then redircmd cmd q eq (Z.lor O_WRONLY O_CREATE) 1
                 else if tok =? 43 then redircmd cmd q eq (Z.lor O_WRONLY O_CREATE) 1
                 else mret cmd);
          redirs_loop k cmd s es
      else mret (cmd, s)
  end.

Definition parseredirs (cmd s es : Z) : SH (Z * Z) := redirs_loop (S (Z.to_nat (es - s))) cmd s es.

(** [cmd->argv[i] = q; cmd->eargv[i] = eq;] *)
Definition set_arg (cmd : Z) (i : nat) (q eq : Z) : SH unit := fun st =>
  match sh_heap st !! Z.to_nat (cmd - 1) with
  | Some (EXEC argv eargv) =>
      if decide (i < length argv)%nat then
        Done tt (set_heap (<[Z.to_nat (cmd - 1) := EXEC (<[i := q]> argv) (<[i := eq]> eargv)]> (sh_heap st)) st)
      else Undef "argv"
  | _ => Undef "execcmd"
  end.

(** The loop of [parseexec]: returns the command, [argc] and [*ps]. *)
Fixpoint args_loop (fuel : nat) (cmd ret : Z) (argc : nat) (s es : Z) : SH (Z * nat * Z) :=
  match fuel with
  | O => fun st => Stuck st
  | S k =>
      '(b, s) ← sh_peek s es [124; 41; 38; 59];
      if (b : bool) then mret (ret, argc, s)
      else
        '(tok, q, eq, s) ← sh_gettoken s es;
        if tok =? 0 then mret (ret, argc, s)
        else if negb (tok =? 97) then panic "syntax"
        else
          set_arg cmd argc q eq;;
          let argc := S argc in
          if (MAXARGS <=? argc)%nat then panic "too many args"
          else
            '(ret, s) ← parseredirs ret s es;
            args_loop k cmd ret argc s es
  end.

Definition parsesimple (s es : Z) : SH (Z * Z) :=
  cmd ← execcmd;
  '(ret, s) ← parseredirs cmd s es;
  '(ret, argc, s) ← args_loop (S (Z.to_nat (es - s))) cmd ret 0 s es;
  set_arg cmd argc 0 0;;
  mret (ret, s).

(** [while(peek(ps, es, "&")){ gettoken(ps, es, 0, 0); cmd = backcmd(cmd); }] *)
Fixpoint back_loop (fuel : nat) (cmd s es : Z) : SH (Z * Z) :=
  match fuel with
  | O => fun st => Stuck st
  | S k =>
      '(b, s) ← sh_peek s es [38];
      if (b : bool) then
        '(_, _, _, s) ← sh_gettoken s es;
        cmd ← backcmd cmd;
        back_loop k cmd s es
      else mret (cmd, s)
  end.

Fixpoint parseline (fuel : nat) (s es : Z) : SH (Z * Z) :=
  match fuel with
  | O => fun st => Stuck st
  | S k =>
      '(cmd, s) ← parsepipe k s es;
      '(cmd, s) ← back_loop (S (Z.to_nat (es - s))) cmd s es;
      '(b, s) ← sh_peek s es [59];
      if (b : bool) then
        '(_, _, _, s) ← sh_gettoken s es;
        '(rest, s) ← parseline k s es;
        cmd ← listcmd cmd rest;
        mret (cmd, s)
      else mret (cmd, s)
  end
with parsepipe (fuel : nat) (s es : Z) : SH (Z * Z) :=
  match fuel with
  | O => fun st => Stuck st
  | S k =>
      '(cmd, s) ← parseexec k s es;
      '(b, s) ← sh_peek s es [124];
      if (b : bool) then
        '(_, _, _, s) ← sh_gettoken s es;
        '(rest, s) ← parsepipe k s es;
        cmd ← pipecmd cmd rest;
        mret (cmd, s)
      else mret (cmd, s)
  end
with parseexec (fuel : nat) (s es : Z) : SH (Z * Z) :=
  match fuel with
  | O => fun st => Stuck st
  | S k =>
      '(b, s) ← sh_peek s es [40];
      if (b : bool) then parseblock k s es else parsesimple s es
  end
with parseblock (fuel : nat) (s es : Z) : SH (Z * Z) :=
  match fuel with
  | O => fun st => Stuck st
  | S k =>
      '(b, s) ← sh_peek s es [40];
      if negb b then panic "parseblock"
      else
        '(_, _, _, s) ← sh_gettoken s es;
        '(cmd, s) ← parseline k s es;
        '(b, s) ← sh_peek s es [41];
        if negb b then panic "syntax - missing )"
        else
          '(_, _, _, s) ← sh_gettoken s es;
          parseredirs cmd s es
  end.

Definition store_nul (e : Z) : SH unit := modify (fun st => set_shmem (upd (sh_mem st) e 0) st).

(** [for(i=0; ecmd->argv[i]; i++) *ecmd->eargv[i] = 0;] *)
Fixpoint nul_args (argv eargv : list Z) : SH unit :=
  match argv, eargv with
  | q :: argv', e :: eargv' => if q =? 0 then mret tt else store_nul e;; nul_args argv' eargv'
  | _, _ => undef "argv"
  end.

Fixpoint nulterminate (fuel : nat) (cmd : Z) : SH unit :=
  match fuel with
  | O => fun st => Stuck st
  | S k =>
      if cmd =? 0 then mret tt
      else
        n ← gets (fun st => sh_heap st !! Z.to_nat (cmd - 1));
        match n with
        | None => undef "cmd"
        | Some (EXEC argv eargv) => nul_args argv eargv
        | Some (REDIR c _ efile _ _) => nulterminate k c;; store_nul efile
        | Some (PIPE l r) => nulterminate k l;; nulterminate k r
        | Some (LIST l r) => nulterminate k l;; nulterminate k r
        | Some (BACK c) => nulterminate k c
        end
  end.

(** [nbuf] bounds the search of [strlen] for the NUL.  The message on the
    characters left over and that of [panic] are the outcome [Panic]. *)
Definition parsecmd (nbuf : nat) (s : Z) : SH Z :=
  m ← gets sh_mem;
  match strlen nbuf m s with
  | None => fun st => Stuck st
  | Some n =>
      let es := s + n in
      '(cmd, s) ← parseline (4 * Z.to_nat n + 4) s es;
      '(_, s) ← sh_peek s es [];
      if negb (s =? es) then panic "syntax"
      else
        h ← gets sh_heap;
        nulterminate (S (length h)) cmd;;
        mret cmd
  end.

(** ** The language of the shell *)

(** A symbol, [43] standing for [>>], or the word from [q] to [e]. *)
Inductive tok : Type := TSym (c : Z) | TWord (q e : Z).

(** A character of a word. *)
Definition wordc (c : Z) : Prop := c <> 0 /\ plain c = true.

Section language.
Context (m : mem) (es : Z).

(** The text from [s] to [es] is the sequence of tokens. *)
Inductive lex : Z -> list tok -> Prop :=
| lex_end : lex es []
| lex_white s T : s < es -> strchr whitespace (m s) = true -> lex (s + 1) T -> lex s T
| lex_sym s T : s < es -> strchr [124; 40; 41; 59; 38; 60] (m s) = true -> lex (s + 1) T -> lex s (TSym (m s) :: T)
| lex_gt s T : s < es -> m s = 62 -> m (s + 1) <> 62 -> lex (s + 1) T -> lex s (TSym 62 :: T)
| lex_append s T : s + 1 < es -> m s = 62 -> m (s + 1) = 62 -> lex (s + 2) T -> lex s (TSym 43 :: T)
| lex_word s e T : s < e <= es -> (forall x, s <= x < e -> wordc (m x)) -> ~ wordc (m e) -> lex e T -> lex s (TWord s e :: T).
End language.

(** A word by its extent, and a command. *)
Abbreviation word := (Z * Z)%type.

Inductive ast : Type :=
| AExec (argv : list word)
| ARedir (c : ast) (file : word) (mode fd : Z)
| APipe (c d : ast)
| AList (c d : ast)
| ABack (c : ast).

(** A redirection: its symbol and its file. *)
Abbreviation redir := (Z * word)%type.

Definition redir_sym (c : Z) : Prop := c = 60 \/ c = 62 \/ c = 43.

(** [<] opens the file as descriptor 0 for reading; [>] and [>>] as descriptor 1 for writing. *)
Definition add_redir (c : ast) (r : redir) : ast :=
  if r.1 =? 60 then ARedir c r.2 O_RDONLY 0 else ARedir c r.2 (Z.lor O_WRONLY O_CREATE) 1.

Definition wrap (rs : list redir) (c : ast) : ast := foldl add_redir c rs.

Inductive gredirs : list tok -> list redir -> Prop :=
| gr_nil : gredirs [] []
| gr_cons c q e ts rs : redir_sym c -> gredirs ts rs -> gredirs (TSym c :: TWord q e :: ts) ((c, (q, e)) :: rs).

(** Words and redirections in any order. *)
Inductive gitems : list tok -> list word -> list redir -> Prop :=
| gi_nil : gitems [] [] []
| gi_word q e ts ws rs : gitems ts ws rs -> gitems (TWord q e :: ts) ((q, e) :: ws) rs
| gi_redir c q e ts ws rs : redir_sym c -> gitems ts ws rs -> gitems (TSym c :: TWord q e :: ts) ws ((c, (q, e)) :: rs).

Fixpoint backs (n : nat) (c : ast) : ast :=
  match n with
  | O => c
  | S k => backs k (ABack c)
  end.

Inductive gline : list tok -> ast -> Prop :=
| gl_last ts c n : gpipe ts c -> gline (ts ++ replicate n (TSym 38)) (backs n c)
| gl_list ts c n ts' c' : gpipe ts c -> gline ts' c' ->
    gline (ts ++ replicate n (TSym 38) ++ TSym 59 :: ts') (AList (backs n c) c')
with gpipe : list tok -> ast -> Prop :=
| gp_last ts c : gexec ts c -> gpipe ts c
| gp_pipe ts c ts' c' : gexec ts c -> gpipe ts' c' -> gpipe (ts ++ TSym 124 :: ts') (APipe c c')
with gexec : list tok -> ast -> Prop :=
| ge_simple ts ws rs : gitems ts ws rs -> (length ws < MAXARGS)%nat -> gexec ts (wrap rs (AExec ws))
| ge_block ts c ts' rs : gline ts c -> gredirs ts' rs -> gexec (TSym 40 :: ts ++ TSym 41 :: ts') (wrap rs c).

(** ** Tokens and positions *)

Lemma strchr_In l c : strchr l c = true <-> c ∈ l.
Proof.
  unfold strchr. rewrite existsb_exists. split.
  - intros (x & Hx & ->%Z.eqb_eq). by apply list_elem_of_In.
  - intros H. exists c. split; [by apply list_elem_of_In|apply Z.eqb_refl].
Qed.

(** Takes a character that is in a list of characters through the list. *)
Ltac chars H :=
  apply strchr_In in H;
  repeat (apply elem_of_cons in H as [H|H]; [rewrite H in *; try done|]);
  try (by apply not_elem_of_nil in H).

Section positions.
Context (m : mem) (es : Z) (Hes : m es = 0).

Lemma lex_le s T : lex m es s T -> s <= es.
Proof. induction 1; lia. Qed.

Lemma skip_loop_eq P n s : skip_loop (S n) P m s = if P (m s) then skip_loop n P m (s + 1) else s.
Proof. done. Qed.

Lemma skip_step P s : s < es -> skip P m s es = if P (m s) then skip P m (s + 1) es else s.
Proof.
  intros H. unfold skip. replace (Z.to_nat (es - s)) with (S (Z.to_nat (es - (s + 1)))) by lia. done.
Qed.

Lemma skip_end P : skip P m es es = es.
Proof. unfold skip. by rewrite Z.sub_diag. Qed.

(** How the text goes on at a position that is not white space. *)
Definition head_at (s : Z) (T : list tok) : Prop :=
  match T with
  | [] => s = es
  | TSym c :: T' => s < es /\
      (m s = c /\ strchr [124; 40; 41; 59; 38; 60] c = true /\ lex m es (s + 1) T' \/
       m s = 62 /\ c = 62 /\ m (s + 1) <> 62 /\ lex m es (s + 1) T' \/
       m s = 62 /\ c = 43 /\ m (s + 1) = 62 /\ lex m es (s + 2) T')
  | TWord q e :: T' => q = s /\ s < e <= es /\ (forall x, s <= x < e -> wordc (m x)) /\ ~ wordc (m e) /\ lex m es e T'
  end.

Lemma skip_head s T : lex m es s T ->
  let s' := skip (strchr whitespace) m s es in lex m es s' T /\ s <= s' <= es /\ head_at s' T.
Proof.
  induction 1 as [|s T Hs Hw Hl IH|s T Hs Hc Hl _|s T Hs Hc Hn Hl _|s T Hs Hc Hn Hl _|s e T He Hw Hn Hl _]; cbv zeta.
  - rewrite skip_end. split; [constructor|split; [lia|done]].
  - rewrite skip_step, Hw by done. destruct IH as (? & ? & ?). split; [done|split; [lia|done]].
  - rewrite skip_step by done. replace (strchr whitespace (m s)) with false by (symmetry; by chars Hc).
    split; [by constructor|split; [lia|]]. split; [done|by left].
  - rewrite skip_step, Hc by done. simpl. split; [by apply lex_gt|split; [lia|]]. split; [done|by right; left].
  - rewrite skip_step, Hc by lia. simpl. split; [by apply lex_append|split; [lia|]]. split; [lia|by right; right].
  - rewrite skip_step by lia. destruct (Hw s ltac:(lia)) as [_ [E _]%andb_prop]. apply negb_true_iff in E. rewrite E.
    split; [by constructor|split; [lia|]]. done.
Qed.

(** The word from [s] to [e] is what the second loop of [gettoken] runs over. *)
Lemma skip_word s e : s <= e <= es -> (forall x, s <= x < e -> wordc (m x)) -> ~ wordc (m e) -> (e < es -> m e <> 0) -> skip plain m s es = e.
Proof.
  intros Hs Hw Hn Hz. remember (Z.to_nat (e - s)) as k eqn:Ek. revert s Hs Hw Ek. induction k as [|k IH]; intros s Hs Hw Ek.
  - replace s with e in * by lia. destruct (decide (e = es)) as [->|He]; [apply skip_end|]. rewrite skip_step by lia.
    destruct (plain (m e)) eqn:E; [|done]. destruct Hn. split; [apply Hz; lia|done].
  - rewrite skip_step by lia. rewrite (proj2 (Hw s ltac:(lia))). apply IH; [lia| |lia]. intros x Hx. apply Hw. lia.
Qed.

(** The text has no NUL before its end. *)
Lemma lex_nonzero s T : lex m es s T -> s < es -> m s <> 0.
Proof.
  destruct 1 as [|s T Hs Hw Hl|s T Hs Hc Hl|s T Hs Hc Hn Hl|s T Hs Hc Hn Hl|s e T He Hw Hn Hl]; intros Hlt; try lia.
  - by chars Hw.
  - by chars Hc.
  - apply Hw. lia.
Qed.

(** What [peek] looks at: the first character of the next token. *)
Definition lead (c : Z) : Z := if c =? 43 then 62 else c.
Definition starts (toks : list Z) (T : list tok) : bool :=
  match T with
  | TSym c :: _ => strchr toks (lead c)
  | _ => false
  end.

Lemma peek_spec s T toks : lex m es s T -> forallb (strchr symbols) toks = true ->
  exists s', peek m s es toks = (starts toks T, s') /\ lex m es s' T /\ s <= s' /\ (T = [] -> s' = es).
Proof.
  intros Hl Ht. destruct (skip_head s T Hl) as (H1 & H2 & H3). unfold peek. set (s' := skip _ _ _ _) in *. exists s'.
  split; [f_equal|split_and!; [done|lia|by intros ->]]. destruct T as [|[c|q e] T].
  - simpl in H3. by rewrite H3, Hes.
  - rewrite (proj2 (Z.eqb_neq (m s') 0)) by (by apply (lex_nonzero _ _ H1), H3). simpl.
    destruct H3 as [_ [(-> & Hc & _)|[(-> & -> & _)|(-> & -> & _)]]]; [|done..]. unfold lead. by replace (c =? 43) with false by (symmetry; by chars Hc).
  - destruct H3 as (-> & He & Hw & _). destruct (Hw s' ltac:(lia)) as [Hz [_ Hp]%andb_prop]. simpl.
    apply andb_false_iff. right. apply not_true_iff_false. rewrite strchr_In. intros X%list_elem_of_In.
    rewrite forallb_forall in Ht. apply Ht in X. by rewrite X in Hp.
Qed.

(** [gettoken] returns the next token. *)
Definition tok_code (t : tok) : Z := match t with TSym c => c | TWord _ _ => 97 end.
Definition extent_ok (t : tok) (q e : Z) : Prop := match t with TSym _ => True | TWord q' e' => q = q' /\ e = e' end.

Lemma gettoken_end s : lex m es s [] -> exists q e, gettoken m s es = (0, q, e, es).
Proof.
  intros Hl. destruct (skip_head s [] Hl) as (_ & _ & H). simpl in H. unfold gettoken. rewrite H, Hes. simpl. rewrite skip_end. eauto.
Qed.

Lemma gettoken_spec s t T : lex m es s (t :: T) ->
  exists q e s', gettoken m s es = (tok_code t, q, e, s') /\ extent_ok t q e /\ lex m es s' T /\ s < s'.
Proof.
  intros Hl. destruct (skip_head s _ Hl) as (H1 & H2 & H3). unfold gettoken. set (s0 := skip _ _ s _) in *.
  assert (Hz : m s0 <> 0) by (apply (lex_nonzero _ _ H1); destruct t; simpl in H3; lia). rewrite (proj2 (Z.eqb_neq (m s0) 0)) by done.
  destruct t as [c|q e]; cbn [head_at] in H3.
  - destruct H3 as [Hlt [(-> & -> & Hl')|[(-> & -> & Hn & Hl')|(-> & -> & Hn & Hl')]]]; simpl.
    + destruct (skip_head _ _ Hl') as (? & ? & _). do 3 eexists. split_and!; [done|done|done|lia].
    + rewrite (proj2 (Z.eqb_neq (m (s0 + 1)) 62)) by done. destruct (skip_head _ _ Hl') as (? & ? & _). do 3 eexists. split_and!; [done|done|done|lia].
    + rewrite Hn. simpl. replace (s0 + 1 + 1) with (s0 + 2) by lia. destruct (skip_head _ _ Hl') as (? & ? & _). do 3 eexists. split_and!; [done|done|done|lia].
  - destruct H3 as (-> & He & Hw & Hn & Hl'). destruct (Hw s0 ltac:(lia)) as [_ [_ Hp]%andb_prop]. apply negb_true_iff in Hp.
    replace (strchr [124; 40; 41; 59; 38; 60] (m s0)) with false.
    2:{ symmetry. apply not_true_iff_false. intros X. by chars X. }
    rewrite (proj2 (Z.eqb_neq (m s0) 62)) by (intros X; by rewrite X in Hp).
    rewrite (skip_word s0 e) by (lia || done || intros He'; by apply (lex_nonzero _ _ Hl')).
    destruct (skip_head _ _ Hl') as (? & ? & _). do 3 eexists. split_and!; [done|done|done|lia].
Qed.
(** Every text is a sequence of tokens. *)
Lemma word_end s : s <= es -> exists e, s <= e <= es /\ (forall x, s <= x < e -> wordc (m x)) /\ ~ wordc (m e).
Proof.
  intros Hs. remember (Z.to_nat (es - s)) as k eqn:Ek. revert s Hs Ek. induction k as [|k IH]; intros s Hs Ek.
  - replace s with es by lia. exists es. split_and!; [lia|lia|intros; lia|]. intros [X _]. by rewrite Hes in X.
  - destruct (decide (m s <> 0 /\ plain (m s) = true)) as [Hw|Hw].
    + destruct (IH (s + 1)) as (e & He & Hx & Hn); [lia|lia|]. exists e. split_and!; [lia|lia| |done]. intros x Hr.
      destruct (decide (x = s)) as [->|]; [done|]. apply Hx. lia.
    + exists s. split_and!; [lia|lia|intros; lia|done].
Qed.

Lemma lex_total s : s <= es -> (forall x, s <= x < es -> m x <> 0) -> exists T, lex m es s T.
Proof.
  intros Hs Hz. remember (Z.to_nat (es - s)) as k eqn:Ek. assert (Hk : (Z.to_nat (es - s) <= k)%nat) by lia. clear Ek.
  revert s Hs Hz Hk. induction k as [|k IH]; intros s Hs Hz Hk; [replace s with es by lia; eexists; constructor|].
  destruct (decide (s = es)) as [->|Hne]; [eexists; constructor|].
  assert (Hnext : forall s', s < s' <= es -> exists T, lex m es s' T) by (intros s' Hs'; apply IH; [lia| |lia]; intros x Hx; apply Hz; lia).
  destruct (strchr whitespace (m s)) eqn:Hw; [destruct (Hnext (s + 1)) as [T HT]; [lia|]; exists T; by apply lex_white; [lia|..]|].
  destruct (strchr [124; 40; 41; 59; 38; 60] (m s)) eqn:Hc; [destruct (Hnext (s + 1)) as [T HT]; [lia|]; eexists; by apply lex_sym; [lia|..]|].
  destruct (decide (m s = 62)) as [Hg|Hg].
  - destruct (decide (m (s + 1) = 62)) as [Hg'|Hg'].
    + assert (s + 1 <> es) by (intros X; by rewrite X, Hes in Hg'). destruct (Hnext (s + 2)) as [T HT]; [lia|]. eexists. by apply lex_append; [lia|..].
    + destruct (Hnext (s + 1)) as [T HT]; [lia|]. eexists. by apply lex_gt; [lia|..].
  - destruct (word_end s) as (e & He & Hx & Hn); [lia|]. assert (s <> e).
    { intros <-. destruct Hn. split; [apply Hz; lia|]. unfold plain. rewrite Hw. change (negb (strchr symbols (m s)) = true). apply negb_true_iff, not_true_iff_false. intros X.
      apply strchr_In in X. apply not_true_iff_false in Hc. rewrite strchr_In in Hc. unfold symbols in X. set_solver. }
    destruct (Hnext e) as [T HT]; [lia|]. exists (TWord s e :: T). by apply lex_word; [lia|..].
Qed.

(** One call of the scanner in a computation. *)
Lemma runs_peek {B} P F s T toks (k : bool * Z -> SH B) st Q : sh_mem st = m -> lex m es s T -> forallb (strchr symbols) toks = true ->
  (forall s', lex m es s' T -> s <= s' -> (T = [] -> s' = es) -> runs P F (k (starts toks T, s')) st Q) -> runs P F (sh_peek s es toks ≫= k) st Q.
Proof.
  intros Hm Hl Ht Hk. destruct (peek_spec s T toks Hl Ht) as (s' & E & H1 & H2 & H3). unfold sh_peek, runs, gets, mbind, M_bind. simpl.
  rewrite Hm, E. by apply Hk.
Qed.

Lemma runs_tok {B} P F s t T (k : Z * Z * Z * Z -> SH B) st Q : sh_mem st = m -> lex m es s (t :: T) ->
  (forall q e s', extent_ok t q e -> lex m es s' T -> s < s' -> runs P F (k (tok_code t, q, e, s')) st Q) -> runs P F (sh_gettoken s es ≫= k) st Q.
Proof.
  intros Hm Hl Hk. destruct (gettoken_spec s t T Hl) as (q & e & s' & E & H1 & H2 & H3). unfold sh_gettoken, runs, gets, mbind, M_bind. simpl.
  rewrite Hm, E. by apply Hk.
Qed.

Lemma runs_tok_end {B} P F s (k : Z * Z * Z * Z -> SH B) st Q : sh_mem st = m -> lex m es s [] ->
  (forall q e, runs P F (k (0, q, e, es)) st Q) -> runs P F (sh_gettoken s es ≫= k) st Q.
Proof.
  intros Hm Hl Hk. destruct (gettoken_end s Hl) as (q & e & E). unfold sh_gettoken, runs, gets, mbind, M_bind. simpl. rewrite Hm, E. by apply Hk.
Qed.
End positions.

Definition new_ptr (st : sh) : Z := Z.of_nat (length (sh_heap st)) + 1.

Lemma runs_new {B} (P F : Prop) n (k : Z -> SH B) st Q :
  (sh_room st = O -> F) ->
  (forall r, sh_room st = S r -> runs P F (k (new_ptr st)) (mkSh (sh_mem st) (sh_heap st ++ [n]) r) Q) -> runs P F (new_node n ≫= k) st Q.
Proof. intros H0 HS. unfold runs, new_node, mbind, M_bind. simpl. destruct (sh_room st); [by apply H0|by apply HS]. Qed.

(** ** The parser stops, and accepts only the language *)

Lemma lead_redir c : strchr [60; 62] (lead c) = true -> redir_sym c.
Proof. unfold lead, redir_sym. destruct (Z.eqb_spec c 43); [auto|]. intros H. apply strchr_In in H. set_solver. Qed.

Lemma lead_one x c : x <> 62 -> strchr [x] (lead c) = true -> c = x.
Proof. unfold lead. intros Hx H. apply strchr_In, list_elem_of_singleton in H. destruct (Z.eqb_spec c 43); congruence. Qed.

Lemma starts_inv toks T : starts toks T = true -> exists c T', T = TSym c :: T' /\ strchr toks (lead c) = true.
Proof. destruct T as [|[c|q e] T]; simpl; eauto; done. Qed.

Lemma lex_sym_range m es s c T : lex m es s (TSym c :: T) -> c ∈ [124; 40; 41; 59; 38; 60; 62; 43].
Proof.
  intros Hl. destruct (skip_head m es s _ Hl) as (_ & _ & _ & [(_ & H & _)|[(_ & -> & _)|(_ & -> & _)]]); [|set_solver..].
  apply strchr_In in H. set_solver.
Qed.

#[local] Arguments Nat.leb : simpl never.

Section sound.
Context (m : mem) (es : Z) (Hes : m es = 0).

(** The memory is that of the line, and there is room for two nodes for each character left and [k] more. *)
Definition afford (st : sh) (s k : Z) : Prop := sh_mem st = m /\ 2 * (es - s) + k <= Z.of_nat (sh_room st).

Lemma redirs_may fuel : forall cmd s T st k, (Z.to_nat (es - s) < fuel)%nat -> lex m es s T -> 0 <= k -> afford st s k ->
  runs True False (redirs_loop fuel cmd s es) st (fun r st' => exists ts rs rest, T = ts ++ rest /\ gredirs ts rs /\ lex m es r.2 rest /\
    s <= r.2 /\ afford st' r.2 k /\ sh_heap st `prefix_of` sh_heap st').
Proof.
  induction fuel as [|fuel IH]; intros cmd s T st k Hf Hl Hk [Hm Hr]; [lia|]. cbn [redirs_loop].
  apply (runs_peek m es Hes _ _ s T); [done|done|done|]. intros s1 Hl1 Hs1 _. destruct (starts [60; 62] T) eqn:E.
  2:{ exists [], [], T. split_and!; [done|apply gr_nil|done|done|split; [done|simpl; lia]|done]. }
  apply starts_inv in E as (c & T1 & -> & Hc%lead_redir). apply (runs_tok m es _ _ s1 (TSym c) T1); [done|done|]. intros _ _ s2 _ Hl2 Hs2. simpl.
  destruct T1 as [|[c'|q e] T2]; [by apply (runs_tok_end m es Hes); [done|done|intros q e]| |].
  { apply (runs_tok m es _ _ s2 (TSym c') T2); [done|done|]. intros q e s3 _ _ _. simpl.
    apply lex_sym_range in Hl2. destruct (Z.eqb_spec c' 97) as [->|]; [set_solver|done]. }
  apply (runs_tok m es _ _ s2 (TWord q e) T2); [done|done|]. intros q' e' s3 [-> ->] Hl3 Hs3. simpl.
  pose proof (lex_le m es _ _ Hl3) as Hle.
  assert (Hrest : forall n (f : Z -> Z), runs True False (cmd ← new_node n; redirs_loop fuel cmd s3 es) st (fun r st' => exists ts rs rest,
      TSym c :: TWord q e :: T2 = ts ++ rest /\ gredirs ts rs /\ lex m es r.2 rest /\ s <= r.2 /\ afford st' r.2 k /\ sh_heap st `prefix_of` sh_heap st')).
  { intros n _. apply runs_new; [lia|]. intros r Er. eapply runs_mono; [|apply (IH (new_ptr st) s3 T2 _ k); [lia|done|done|split; [done|simpl; lia]]].
    intros a st' (ts & rs & rest & -> & Hg & Hl4 & Hs4 & Ha & Hp). exists (TSym c :: TWord q e :: ts), ((c, (q, e)) :: rs), rest.
    split_and!; [done|by apply gr_cons|done|lia|done|]. etransitivity; [|exact Hp]. by apply prefix_app_r. }
  unfold redircmd. destruct Hc as [-> |[-> | ->]]; simpl; by apply Hrest.
Qed.

Lemma runs_set_arg {B} P F cmd i q e (k : unit -> SH B) st argv eargv Q : sh_heap st !! Z.to_nat (cmd - 1) = Some (EXEC argv eargv) -> (i < length argv)%nat ->
  runs P F (k tt) (set_heap (<[Z.to_nat (cmd - 1) := EXEC (<[i := q]> argv) (<[i := e]> eargv)]> (sh_heap st)) st) Q ->
  runs P F (set_arg cmd i q e ≫= k) st Q.
Proof. intros Hn Hi H. unfold runs, set_arg, mbind, M_bind. simpl. rewrite Hn. by rewrite decide_True by done. Qed.

Lemma gitems_redirs ts1 rs1 ts ws rs : gredirs ts1 rs1 -> gitems ts ws rs -> gitems (ts1 ++ ts) ws (rs1 ++ rs).
Proof. induction 1; intros Hi; simpl; [done|]. constructor; auto. Qed.

(** [cmd] is an [execcmd] with all its slots. *)
Definition is_exec (st : sh) (cmd : Z) : Prop := exists argv eargv, sh_heap st !! Z.to_nat (cmd - 1) = Some (EXEC argv eargv) /\ length argv = MAXARGS.

Lemma is_exec_prefix st st' cmd : is_exec st cmd -> sh_heap st `prefix_of` sh_heap st' -> is_exec st' cmd.
Proof. intros (a & e & H & Hn) [t Ht]. exists a, e. split; [|done]. rewrite Ht. by apply lookup_app_l_Some. Qed.

Lemma is_exec_set st cmd i q e argv eargv : sh_heap st !! Z.to_nat (cmd - 1) = Some (EXEC argv eargv) -> length argv = MAXARGS ->
  is_exec (set_heap (<[Z.to_nat (cmd - 1) := EXEC (<[i := q]> argv) (<[i := e]> eargv)]> (sh_heap st)) st) cmd.
Proof.
  intros H Hn. do 2 eexists. split; [apply list_lookup_insert_eq; by eapply lookup_lt_Some|by rewrite length_insert].
Qed.

Lemma args_may fuel : forall cmd ret argc s T st k, (Z.to_nat (es - s) < fuel)%nat -> lex m es s T -> 0 <= k -> afford st s k ->
  is_exec st cmd -> (argc < MAXARGS)%nat ->
  runs True False (args_loop fuel cmd ret argc s es) st (fun r st' => exists ts ws rs rest, T = ts ++ rest /\ gitems ts ws rs /\
    r.1.2 = (argc + length ws)%nat /\ (r.1.2 < MAXARGS)%nat /\ lex m es r.2 rest /\ s <= r.2 /\ afford st' r.2 k /\ is_exec st' cmd).
Proof.
  induction fuel as [|fuel IH]; intros cmd ret argc s T st k Hf Hl Hk [Hm Hr] Hx Ha; [lia|]. cbn [args_loop].
  assert (Hstop : forall s', lex m es s' T -> s <= s' -> exists ts ws rs rest, T = ts ++ rest /\ gitems ts ws rs /\
    argc = (argc + length ws)%nat /\ (argc < MAXARGS)%nat /\ lex m es s' rest /\ s <= s' /\ afford st s' k /\ is_exec st cmd).
  { intros s' Hl' Hs'. exists [], [], [], T. split_and!; [done|apply gi_nil|simpl; lia|done|done|done|split; [done|lia]|done]. }
  apply (runs_peek m es Hes _ _ s T); [done|done|done|]. intros s1 Hl1 Hs1 _. destruct (starts _ T) eqn:E; [by apply Hstop|].
  destruct T as [|[c|q e] T1].
  - apply (runs_tok_end m es Hes); [done|done|]. intros q e. simpl. apply Hstop; [constructor|]. by apply (lex_le _ _ _ _ Hl).
  - apply (runs_tok m es _ _ s1 (TSym c) T1); [done|done|]. intros q e s2 _ _ _. simpl. apply lex_sym_range in Hl1.
    destruct (Z.eqb_spec c 97) as [->|]; [set_solver|]. destruct (Z.eqb_spec c 0) as [->|]; [set_solver|done].
  - apply (runs_tok m es _ _ s1 (TWord q e) T1); [done|done|]. intros q' e' s2 [-> ->] Hl2 Hs2. simpl.
    destruct Hx as (argv & eargv & Hx & Hn). apply (runs_set_arg _ _ _ _ _ _ _ _ argv eargv); [done|by rewrite Hn|]. cbv zeta.
    destruct (MAXARGS <=? S argc)%nat eqn:Em; [done|]. apply Nat.leb_gt in Em. pose proof (lex_le _ _ _ _ Hl2) as Hle.
    apply runs_bind. eapply runs_mono; [|apply (redirs_may _ ret s2 T1 _ k); [lia|done|done|split; [done|simpl; lia]]].
    intros [ret' s3] st3 (ts1 & rs1 & T2 & -> & Hg & Hl3 & Hs3 & [Hm3 Hr3] & Hp). simpl in Hl3, Hs3, Hr3 |- *.
    pose proof (is_exec_prefix _ _ _ (is_exec_set st cmd argc q e argv eargv Hx Hn) Hp) as Hx3.
    eapply runs_mono; [|apply (IH cmd ret' (S argc) s3 T2 st3 k); [lia|done|done|done|done|done]].
    intros [[ret4 argc4] s4] st4 (ts & ws & rs & rest & -> & Hi & Ea & Hlt & Hl4 & Hs4 & Haf & Hx4). simpl in *.
    exists (TWord q e :: ts1 ++ ts), ((q, e) :: ws), (rs1 ++ rs), rest. split_and!; [by rewrite <- app_comm_cons, <- app_assoc| |simpl; lia|done|done|lia|done|done].
    apply gi_word. by apply gitems_redirs.
Qed.

(** What a parser of the grammar [g] does from [s] with the tokens [T]. *)
Definition sound_from (g : list tok -> ast -> Prop) (P : SH (Z * Z)) (s : Z) (T : list tok) (st : sh) (k : Z) : Prop :=
  runs True False P st (fun r st' => exists ts a rest, T = ts ++ rest /\ g ts a /\ lex m es r.2 rest /\ s <= r.2 /\ afford st' r.2 k).

Lemma simple_may s T st k : lex m es s T -> 0 <= k -> afford st s (k + 1) -> sound_from gexec (parsesimple s es) s T st k.
Proof.
  intros Hl Hk [Hm Hr]. pose proof (lex_le _ _ _ _ Hl). unfold sound_from, parsesimple, execcmd. apply runs_new; [lia|]. intros r Er.
  apply runs_bind. eapply runs_mono; [|apply (redirs_may _ _ s T _ k); [lia|done|done|split; [done|simpl; lia]]].
  intros [ret s1] st1 (ts1 & rs1 & T1 & -> & Hg & Hl1 & Hs1 & Ha1 & Hp). simpl in Hl1, Hs1, Ha1. cbv beta iota.
  assert (Hx : is_exec st1 (new_ptr st)).
  { eapply is_exec_prefix; [|exact Hp]. do 2 eexists. split; [|by apply length_replicate]. simpl. unfold new_ptr.
    rewrite Z.add_simpl_r, Nat2Z.id. by apply list_lookup_middle. }
  apply runs_bind. eapply runs_mono; [|apply (args_may _ _ ret 0 s1 T1 st1 k); [lia|done|done|done|done|unfold MAXARGS; lia]].
  intros [[ret2 argc] s2] st2 (ts & ws & rs & rest & -> & Hi & Ea & Hlt & Hl2 & Hs2 & [Hm2 Hr2] & (argv & eargv & Hx2 & Hn)). simpl in *.
  apply (runs_set_arg _ _ _ _ _ _ _ _ argv eargv); [done|by rewrite Hn|].
  exists (ts1 ++ ts), (wrap (rs1 ++ rs) (AExec ws)), rest. split_and!; [by rewrite <- app_assoc| |done|simpl; lia|by split].
  apply ge_simple; [by apply gitems_redirs|lia].
Qed.

Lemma back_may fuel : forall cmd s T st k, (Z.to_nat (es - s) < fuel)%nat -> lex m es s T -> 0 <= k -> afford st s k ->
  runs True False (back_loop fuel cmd s es) st (fun r st' => exists n rest, T = replicate n (TSym 38) ++ rest /\ lex m es r.2 rest /\ s <= r.2 /\ afford st' r.2 k).
Proof.
  induction fuel as [|fuel IH]; intros cmd s T st k Hf Hl Hk [Hm Hr]; [lia|]. cbn [back_loop].
  apply (runs_peek m es Hes _ _ s T); [done|done|done|]. intros s1 Hl1 Hs1 _. destruct (starts [38] T) eqn:E.
  2:{ exists 0%nat, T. split_and!; [done|done|done|split; [done|simpl; lia]]. }
  apply starts_inv in E as (c & T1 & -> & ->%lead_one); [|done]. apply (runs_tok m es _ _ s1 (TSym 38) T1); [done|done|]. intros q e s2 _ Hl2 Hs2. simpl.
  pose proof (lex_le _ _ _ _ Hl2). unfold backcmd. apply runs_new; [lia|]. intros r Er.
  eapply runs_mono; [|apply (IH _ s2 T1 _ k); [lia|done|done|split; [done|simpl; lia]]].
  intros [c' s3] st3 (n & rest & -> & Hl3 & Hs3 & Ha3). simpl in *. exists (S n), rest. split_and!; [done|done|lia|done].
Qed.

(** The parsers from [s]. *)
Definition line_ok (s : Z) : Prop := forall T st k fuel, lex m es s T -> 0 <= k -> afford st s (k + 1) -> 4 * (es - s) + 4 <= Z.of_nat fuel ->
  sound_from gline (parseline fuel s es) s T st k.
Definition pipe_ok (s : Z) : Prop := forall T st k fuel, lex m es s T -> 0 <= k -> afford st s (k + 1) -> 4 * (es - s) + 3 <= Z.of_nat fuel ->
  sound_from gpipe (parsepipe fuel s es) s T st k.
Definition exec_ok (s : Z) : Prop := forall T st k fuel, lex m es s T -> 0 <= k -> afford st s (k + 1) -> 4 * (es - s) + 2 <= Z.of_nat fuel ->
  sound_from gexec (parseexec fuel s es) s T st k.

Lemma block_may s T st k fuel : (forall s', s < s' -> line_ok s') -> lex m es s (TSym 40 :: T) -> 0 <= k -> afford st s (k + 1) -> 4 * (es - s) + 1 <= Z.of_nat fuel ->
  sound_from gexec (parseblock fuel s es) s (TSym 40 :: T) st k.
Proof.
  intros Hline Hl Hk [Hm Hr] Hf. pose proof (lex_le _ _ _ _ Hl). destruct fuel as [|fuel]; [lia|]. unfold sound_from. cbn [parseblock].
  apply (runs_peek m es Hes _ _ s (TSym 40 :: T)); [done|done|done|]. intros s1 Hl1 Hs1 _. simpl.
  apply (runs_tok m es _ _ s1 (TSym 40) T); [done|done|]. intros _ _ s2 _ Hl2 Hs2. simpl.
  apply runs_bind. eapply runs_mono; [|apply (Hline s2 ltac:(lia) T st k fuel); [done|done|split; [done|lia]|lia]].
  intros [p s3] st3 (ts & a & T3 & -> & Hg & Hl3 & Hs3 & [Hm3 Hr3]). simpl in Hl3, Hs3, Hr3. cbv beta iota.
  apply (runs_peek m es Hes _ _ s3 T3); [done|done|done|]. intros s4 Hl4 Hs4 _. destruct (starts [41] T3) eqn:E; [|done].
  apply starts_inv in E as (c & T4 & -> & ->%lead_one); [|done]. cbn [negb]. apply (runs_tok m es _ _ s4 (TSym 41) T4); [done|done|]. intros _ _ s5 _ Hl5 Hs5.
  cbv beta iota. eapply runs_mono; [|apply (redirs_may _ p s5 T4 st3 k); [lia|done|done|split; [done|lia]]].
  intros [p' s6] st6 (ts' & rs & rest & -> & Hg' & Hl6 & Hs6 & Ha6 & _). simpl in *.
  exists (TSym 40 :: ts ++ TSym 41 :: ts'), (wrap rs a), rest. split_and!; [by rewrite <- app_comm_cons, <- app_assoc|by apply ge_block|done|lia|done].
Qed.

Lemma exec_may s : (forall s', s < s' -> line_ok s') -> exec_ok s.
Proof.
  intros Hline T st k fuel Hl Hk [Hm Hr] Hf. pose proof (lex_le _ _ _ _ Hl). destruct fuel as [|fuel]; [lia|]. unfold sound_from. cbn [parseexec].
  apply (runs_peek m es Hes _ _ s T); [done|done|done|]. intros s1 Hl1 Hs1 _. pose proof (lex_le _ _ _ _ Hl1). destruct (starts [40] T) eqn:E.
  - apply starts_inv in E as (c & T1 & -> & ->%lead_one); [|done].
    eapply runs_mono; [|apply (block_may s1 T1 st k fuel); [intros s' Hs'; apply Hline; lia|done|done|split; [done|lia]|lia]].
    intros r st' (ts & a & rest & E & Hg & Hl2 & Hs2 & Ha). exists ts, a, rest. split_and!; [done|done|done|lia|done].
  - eapply runs_mono; [|apply (simple_may s1 T st k); [done|done|split; [done|lia]]].
    intros r st' (ts & a & rest & E' & Hg & Hl2 & Hs2 & Ha). exists ts, a, rest. split_and!; [done|done|done|lia|done].
Qed.

Lemma pipe_may s : exec_ok s -> (forall s', s < s' -> pipe_ok s') -> pipe_ok s.
Proof.
  intros Hexec Hpipe T st k fuel Hl Hk [Hm Hr] Hf. pose proof (lex_le _ _ _ _ Hl). destruct fuel as [|fuel]; [lia|]. unfold sound_from. cbn [parsepipe].
  apply runs_bind. eapply runs_mono; [|apply (Hexec T st k fuel); [done|done|by split|lia]].
  intros [p s1] st1 (ts & a & T1 & -> & Hg & Hl1 & Hs1 & [Hm1 Hr1]). simpl in Hl1, Hs1, Hr1. cbv beta iota.
  apply (runs_peek m es Hes _ _ s1 T1); [done|done|done|]. intros s2 Hl2 Hs2 _. destruct (starts [124] T1) eqn:E.
  2:{ exists ts, a, T1. split_and!; [done|by apply gp_last|done|simpl; lia|split; [done|simpl; lia]]. }
  apply starts_inv in E as (c & T2 & -> & ->%lead_one); [|done]. apply (runs_tok m es _ _ s2 (TSym 124) T2); [done|done|]. intros _ _ s3 _ Hl3 Hs3. cbv beta iota.
  apply runs_bind. eapply runs_mono; [|apply (Hpipe s3 ltac:(lia) T2 st1 (k + 1) fuel); [done|lia|split; [done|lia]|lia]].
  intros [p' s4] st4 (ts' & a' & rest & -> & Hg' & Hl4 & Hs4 & [Hm4 Hr4]). simpl in Hl4, Hs4, Hr4. cbv beta iota. pose proof (lex_le _ _ _ _ Hl4).
  unfold pipecmd. apply runs_new; [lia|]. intros r Er. exists (ts ++ TSym 124 :: ts'), (APipe a a'), rest.
  split_and!; [by rewrite <- app_assoc|by apply gp_pipe|done|simpl; lia|split; [done|simpl; lia]].
Qed.

Lemma line_may s : pipe_ok s -> (forall s', s < s' -> line_ok s') -> line_ok s.
Proof.
  intros Hpipe Hline T st k fuel Hl Hk [Hm Hr] Hf. pose proof (lex_le _ _ _ _ Hl). destruct fuel as [|fuel]; [lia|]. unfold sound_from. cbn [parseline].
  apply runs_bind. eapply runs_mono; [|apply (Hpipe T st k fuel); [done|done|by split|lia]].
  intros [p s1] st1 (ts & a & T1 & -> & Hg & Hl1 & Hs1 & Ha1). simpl in Hl1, Hs1, Ha1. cbv beta iota.
  apply runs_bind. eapply runs_mono; [|apply (back_may _ p s1 T1 st1 k); [lia|done|done|done]].
  intros [p2 s2] st2 (n & T2 & -> & Hl2 & Hs2 & [Hm2 Hr2]). simpl in Hl2, Hs2, Hr2. cbv beta iota.
  apply (runs_peek m es Hes _ _ s2 T2); [done|done|done|]. intros s3 Hl3 Hs3 _. destruct (starts [59] T2) eqn:E.
  2:{ exists (ts ++ replicate n (TSym 38)), (backs n a), T2. split_and!; [by rewrite <- app_assoc|by apply gl_last|done|simpl; lia|split; [done|simpl; lia]]. }
  apply starts_inv in E as (c & T3 & -> & ->%lead_one); [|done]. apply (runs_tok m es _ _ s3 (TSym 59) T3); [done|done|]. intros _ _ s4 _ Hl4 Hs4. cbv beta iota.
  apply runs_bind. eapply runs_mono; [|apply (Hline s4 ltac:(lia) T3 st2 (k + 1) fuel); [done|lia|split; [done|lia]|lia]].
  intros [p' s5] st5 (ts' & a' & rest & -> & Hg' & Hl5 & Hs5 & [Hm5 Hr5]). simpl in Hl5, Hs5, Hr5. cbv beta iota. pose proof (lex_le _ _ _ _ Hl5).
  unfold listcmd. apply runs_new; [lia|]. intros r Er. exists (ts ++ replicate n (TSym 38) ++ TSym 59 :: ts'), (AList (backs n a) a'), rest.
  split_and!; [by rewrite <- !app_assoc|by apply gl_list|done|simpl; lia|split; [done|simpl; lia]].
Qed.

Lemma parse_may s : line_ok s /\ pipe_ok s.
Proof.
  remember (Z.to_nat (es + 1 - s)) as n eqn:E. revert s E. induction n as [n IH] using lt_wf_ind. intros s E.
  assert (Hlt : es < s -> line_ok s /\ pipe_ok s) by (intros Hs; split; intros T st k fuel Hl; pose proof (lex_le _ _ _ _ Hl); lia).
  destruct (Z_lt_dec es s) as [Hs|Hs]; [by apply Hlt|].
  assert (Hl : forall s', s < s' -> line_ok s') by (intros s' Hs'; by apply (IH (Z.to_nat (es + 1 - s')) ltac:(lia) s' eq_refl)).
  assert (Hp : forall s', s < s' -> pipe_ok s') by (intros s' Hs'; by apply (IH (Z.to_nat (es + 1 - s')) ltac:(lia) s' eq_refl)).
  assert (Hpipe : pipe_ok s) by (apply pipe_may; [by apply exec_may|done]). split; [by apply line_may|done].
Qed.
End sound.

(** ** The parser accepts the whole language, and builds its trees *)

Definition node_at (h : list node) (p : Z) (n : node) : Prop := 0 < p /\ h !! Z.to_nat (p - 1) = Some n.

(** The [argv] and [eargv] of the words [ws]. *)
Definition pad (l : list Z) : list Z := l ++ replicate (MAXARGS - length l) 0.
Definition exec_node (ws : list word) : node := EXEC (pad (map fst ws)) (pad (map snd ws)).

(** [p] is the root of the tree of [a]; a node is allocated after its parts. *)
Fixpoint tree (h : list node) (p : Z) (a : ast) : Prop :=
  match a with
  | AExec ws => node_at h p (exec_node ws)
  | ARedir c f mode fd => exists q, node_at h p (REDIR q f.1 f.2 mode fd) /\ q < p /\ tree h q c
  | APipe c d => exists q r, node_at h p (PIPE q r) /\ q < p /\ r < p /\ tree h q c /\ tree h r d
  | AList c d => exists q r, node_at h p (LIST q r) /\ q < p /\ r < p /\ tree h q c /\ tree h r d
  | ABack c => exists q, node_at h p (BACK q) /\ q < p /\ tree h q c
  end.

Lemma node_at_prefix h h' p n : h `prefix_of` h' -> node_at h p n -> node_at h' p n.
Proof. intros [t ->] [Hp Hn]. split; [done|]. by apply lookup_app_l_Some. Qed.

Lemma tree_prefix h h' a : h `prefix_of` h' -> forall p, tree h p a -> tree h' p a.
Proof.
  intros Hh. induction a as [ws|c IH f mode fd|c IHc d IHd|c IHc d IHd|c IH]; simpl; intros p.
  - by apply node_at_prefix.
  - intros (q & ? & ? & ?). exists q. eauto using node_at_prefix.
  - intros (q & r & ? & ? & ? & ? & ?). exists q, r. split_and!; eauto using node_at_prefix.
  - intros (q & r & ? & ? & ? & ? & ?). exists q, r. split_and!; eauto using node_at_prefix.
  - intros (q & ? & ? & ?). exists q. eauto using node_at_prefix.
Qed.

Lemma node_at_le h p n : node_at h p n -> 0 < p <= Z.of_nat (length h).
Proof. intros [Hp Hn]. apply lookup_lt_Some in Hn. lia. Qed.

Lemma tree_le h p a : tree h p a -> 0 < p <= Z.of_nat (length h).
Proof. destruct a; simpl; [|intros (? & H & _)|intros (? & ? & H & _)|intros (? & ? & H & _)|intros (? & H & _)]; eauto using node_at_le. Qed.

Lemma new_node_at h n : node_at (h ++ [n]) (Z.of_nat (length h) + 1) n.
Proof. split; [lia|]. rewrite Z.add_simpl_r, Nat2Z.id. by apply list_lookup_middle. Qed.

(** The mode and descriptor of a redirection. *)
Definition redir_node (q : Z) (r : redir) : node :=
  if r.1 =? 60 then REDIR q r.2.1 r.2.2 O_RDONLY 0 else REDIR q r.2.1 r.2.2 (Z.lor O_WRONLY O_CREATE) 1.

(** [p'] points at the redirections [rs] of the command [p]. *)
Fixpoint chain (h : list node) (p : Z) (rs : list redir) (p' : Z) : Prop :=
  match rs with
  | [] => p' = p
  | r :: rs' => exists q, node_at h q (redir_node p r) /\ p < q /\ chain h q rs' p'
  end.

Lemma chain_prefix h h' rs : h `prefix_of` h' -> forall p p', chain h p rs p' -> chain h' p rs p'.
Proof. intros Hh. induction rs as [|r rs IH]; simpl; intros p p'; [done|]. intros (q & ? & ? & ?). exists q. eauto using node_at_prefix. Qed.

Lemma chain_app h rs rs' : forall p q r, chain h p rs q -> chain h q rs' r -> chain h p (rs ++ rs') r.
Proof. induction rs as [|x rs IH]; simpl; intros p q r; [by intros ->|]. intros (y & ? & ? & ?) Hr. exists y. eauto. Qed.

Lemma chain_tree h rs : forall p p' a, chain h p rs p' -> tree h p a -> tree h p' (wrap rs a).
Proof.
  induction rs as [|r rs IH]; simpl; intros p p' a; [by intros ->|]. intros (q & Hn & Hlt & Hc) Ht. apply (IH q); [done|].
  unfold redir_node in Hn. unfold add_redir. destruct (r.1 =? 60); simpl; eauto.
Qed.

Lemma chain_le h rs : forall p p', chain h p rs p' -> p <= Z.of_nat (length h) -> p' <= Z.of_nat (length h).
Proof. induction rs as [|r rs IH]; simpl; intros p p'; [by intros ->|]. intros (q & Hn & Hlt & Hc) Hp. apply (IH q); [done|]. apply node_at_le in Hn. lia. Qed.

(** Filling in the arguments of an [execcmd] leaves its redirections. *)
Lemma chain_set h i a e n rs : h !! i = Some (EXEC a e) -> forall p p', chain h p rs p' -> chain (<[i := n]> h) p rs p'.
Proof.
  intros Hi. induction rs as [|r rs IH]; simpl; intros p p'; [done|]. intros (q & [Hq Hn] & Hlt & Hc). exists q. split_and!; [split; [done|]|done|by apply IH].
  rewrite list_lookup_insert_ne; [done|]. intros ->. rewrite Hi in Hn. unfold redir_node in Hn. by destruct (r.1 =? 60).
Qed.

(** What follows: nothing, or a symbol of [l]. *)
Definition follows (l : list Z) (T : list tok) : Prop := T = [] \/ starts l T = true.

Lemma follows_not l l' T : follows l T -> forallb (fun c => negb (strchr l' c)) l = true -> starts l' T = false.
Proof.
  intros [->|H] Hl; [done|]. apply starts_inv in H as (c & T' & -> & Hc). simpl. apply strchr_In, list_elem_of_In in Hc.
  rewrite forallb_forall in Hl. by apply negb_true_iff, Hl.
Qed.

Lemma follows_weaken l l' T : follows l T -> forallb (strchr l') l = true -> follows l' T.
Proof.
  intros [->|H] Hl; [by left|right]. apply starts_inv in H as (c & T' & -> & Hc). simpl. apply strchr_In, list_elem_of_In in Hc.
  rewrite forallb_forall in Hl. by apply Hl.
Qed.

Section complete.
Context (m : mem) (es : Z) (Hes : m es = 0).

Lemma redirs_must fuel : forall p s ts rs rest st, lex m es s (ts ++ rest) -> gredirs ts rs -> starts [60; 62] rest = false -> sh_mem st = m ->
  p <= Z.of_nat (length (sh_heap st)) ->
  runs False True (redirs_loop fuel p s es) st (fun r st' => lex m es r.2 rest /\ sh_mem st' = m /\ sh_heap st `prefix_of` sh_heap st' /\
    chain (sh_heap st') p rs r.1).
Proof.
  induction fuel as [|fuel IH]; intros p s ts rs rest st Hl Hg Hst Hm Hp; [done|]. cbn [redirs_loop].
  apply (runs_peek m es Hes _ _ s (ts ++ rest)); [done|done|done|]. intros s1 Hl1 _ _. destruct Hg as [|c q e ts rs Hc Hg].
  { rewrite app_nil_l in *. rewrite Hst. by split_and!. }
  simpl in Hl1. replace (starts [60; 62] _) with true by (destruct Hc as [-> |[-> | ->]]; done).
  apply (runs_tok m es _ _ s1 (TSym c) (TWord q e :: ts ++ rest)); [done|done|]. intros _ _ s2 _ Hl2 _. cbv beta iota.
  apply (runs_tok m es _ _ s2 (TWord q e) (ts ++ rest)); [done|done|]. intros q' e' s3 [-> ->] Hl3 _. cbn [tok_code]. cbv beta iota. change (negb (97 =? 97)) with false. cbv iota.
  assert (Hrest : runs False True (cmd ← new_node (redir_node p (c, (q, e))); redirs_loop fuel cmd s3 es) st (fun r st' => lex m es r.2 rest /\ sh_mem st' = m /\
      sh_heap st `prefix_of` sh_heap st' /\ chain (sh_heap st') p ((c, (q, e)) :: rs) r.1)).
  { apply runs_new; [done|]. intros r Er. eapply runs_mono; [|apply (IH (new_ptr st) s3 ts rs rest); [done|done|done|done|simpl; unfold new_ptr; rewrite length_app; simpl; lia]].
    intros a st' (Hl4 & Hm4 & Hpre & Hch). simpl in Hpre. split_and!; [done|done|etransitivity; [|exact Hpre]; by apply prefix_app_r|].
    exists (new_ptr st). split_and!; [|unfold new_ptr; lia|done]. eapply node_at_prefix; [exact Hpre|]. apply new_node_at. }
  unfold redircmd, redir_node in *. simpl in Hrest. destruct Hc as [-> |[-> | ->]]; simpl in Hrest |- *; exact Hrest.
Qed.

(** Nothing, or a word and the items after it. *)
Definition from_word (ts : list tok) (ws : list word) (rs : list redir) : Prop :=
  (ts = [] /\ ws = [] /\ rs = []) \/ exists q e ts' ws', ts = TWord q e :: ts' /\ ws = (q, e) :: ws' /\ gitems ts' ws' rs.

Lemma gitems_split ts ws rs : gitems ts ws rs -> exists ts1 rs1 ts2 rs2, ts = ts1 ++ ts2 /\ rs = rs1 ++ rs2 /\ gredirs ts1 rs1 /\ from_word ts2 ws rs2.
Proof.
  induction 1 as [|q e ts ws rs Hi _|c q e ts ws rs Hc Hi (ts1 & rs1 & ts2 & rs2 & -> & -> & Hg & Hf)].
  - exists [], [], [], []. split_and!; [done|done|constructor|by left].
  - exists [], [], (TWord q e :: ts), rs. split_and!; [done|done|constructor|right; eauto 10].
  - exists (TSym c :: TWord q e :: ts1), ((c, (q, e)) :: rs1), ts2, rs2. split_and!; [done|done|by constructor|done].
Qed.

Lemma pad_add l q : (length l < MAXARGS)%nat -> <[length l := q]> (pad l) = pad (l ++ [q]).
Proof.
  intros Hl. unfold pad. rewrite insert_app_r_alt by done. rewrite Nat.sub_diag, length_app. cbn [length].
  replace (MAXARGS - length l)%nat with (S (MAXARGS - (length l + 1))) by lia. simpl. by rewrite <- app_assoc.
Qed.

Lemma pad_end n l : n = length l -> (n < MAXARGS)%nat -> <[n := 0]> (pad l) = pad l.
Proof.
  intros -> Hl. unfold pad. rewrite insert_app_r_alt by done. rewrite Nat.sub_diag. by replace (MAXARGS - length l)%nat with (S (MAXARGS - (length l + 1))) by lia.
Qed.

Lemma length_pad l : (length l <= MAXARGS)%nat -> length (pad l) = MAXARGS.
Proof. intros Hl. unfold pad. rewrite length_app, length_replicate. lia. Qed.

Lemma prefix_set (h0 h : list node) i n : h0 `prefix_of` h -> (length h0 <= i)%nat -> h0 `prefix_of` <[i := n]> h.
Proof. intros [t ->] Hi. rewrite insert_app_r_alt by done. by apply prefix_app_r. Qed.

Lemma follows_word l q e T : ~ follows l (TWord q e :: T).
Proof. by intros [?|?]. Qed.

(** The state of [parseexec]: the words so far are in [cmd], and [ret] points at the redirections so far. *)
Record parsing (h0 : list node) (cmd : Z) (ws : list word) (rs : list redir) (ret : Z) (st : sh) : Prop := mkParsing {
  pg_mem : sh_mem st = m;
  pg_node : node_at (sh_heap st) cmd (exec_node ws);
  pg_chain : chain (sh_heap st) cmd rs ret;
  pg_new : Z.of_nat (length h0) < cmd;
  pg_old : h0 `prefix_of` sh_heap st
}.

Lemma parsing_redirs fuel h0 cmd ws rs ret st s ts rs' rest : parsing h0 cmd ws rs ret st -> lex m es s (ts ++ rest) -> gredirs ts rs' -> starts [60; 62] rest = false ->
  runs False True (redirs_loop fuel ret s es) st (fun r st' => lex m es r.2 rest /\ parsing h0 cmd ws (rs ++ rs') r.1 st').
Proof.
  intros [P1 P2 P3 P4 P5] Hl Hg Hst. pose proof (node_at_le _ _ _ P2) as Hle.
  eapply runs_mono; [|apply (redirs_must fuel ret s ts rs' rest st Hl Hg Hst P1); eapply chain_le; [exact P3|lia]].
  intros r st' (H1 & H2 & H3 & H4). split; [done|]. split; [done|by eapply node_at_prefix|eapply chain_app; [by eapply chain_prefix|done]|done|by etransitivity].
Qed.

Lemma parsing_set {B} h0 cmd ws rs ret st w (k : unit -> SH B) Q : parsing h0 cmd ws rs ret st -> (length ws < MAXARGS)%nat ->
  (forall st', parsing h0 cmd (ws ++ [w]) rs ret st' -> runs False True (k tt) st' Q) -> runs False True (set_arg cmd (length ws) w.1 w.2 ≫= k) st Q.
Proof.
  intros [P1 P2 P3 P4 P5] Hw Hk. destruct P2 as [Hc Hn].
  apply (runs_set_arg _ _ _ _ _ _ _ _ (pad (map fst ws)) (pad (map snd ws))); [done|rewrite length_pad; rewrite ?length_map; lia|].
  apply Hk. split; simpl; [done| |by eapply chain_set|done|apply prefix_set; [done|lia]]. split; [done|].
  rewrite list_lookup_insert_eq by (by eapply lookup_lt_Some). unfold exec_node. rewrite !map_app. cbn [map].
  rewrite <- !pad_add by (rewrite length_map; lia). by rewrite !length_map.
Qed.

Lemma args_must fuel : forall h0 cmd ws0 rs0 ret st s ts ws rs rest, parsing h0 cmd ws0 rs0 ret st -> lex m es s (ts ++ rest) -> from_word ts ws rs ->
  follows [124; 41; 38; 59] rest -> (length (ws0 ++ ws) < MAXARGS)%nat ->
  runs False True (args_loop fuel cmd ret (length ws0) s es) st (fun r st' => lex m es r.2 rest /\ r.1.2 = length (ws0 ++ ws) /\
    parsing h0 cmd (ws0 ++ ws) (rs0 ++ rs) r.1.1 st').
Proof.
  induction fuel as [|fuel IH]; intros h0 cmd ws0 rs0 ret st s ts ws rs rest Hp Hl Hf Hfo Hn; [done|]. cbn [args_loop]. pose proof (pg_mem _ _ _ _ _ _ Hp) as Hm.
  apply (runs_peek m es Hes _ _ s (ts ++ rest)); [done|done|done|]. intros s1 Hl1 _ _. destruct Hf as [(-> & -> & ->)|(q & e & ts' & ws' & -> & -> & Hi)].
  - rewrite !app_nil_r in *. rewrite app_nil_l in Hl1 |- *. destruct Hfo as [-> | Hst]; [|rewrite Hst; by split_and!].
    apply (runs_tok_end m es Hes _ _ s1); [done|done|]. intros q e. simpl. split_and!; [constructor|done|done].
  - simpl. apply (runs_tok m es _ _ s1 (TWord q e) (ts' ++ rest)); [done|done|]. intros q' e' s2 [-> ->] Hl2 _. cbn [tok_code]. cbv beta iota.
    change (97 =? 0) with false. change (negb (97 =? 97)) with false. cbv iota. rewrite length_app in Hn. cbn [length] in Hn.
    apply (parsing_set h0 cmd ws0 rs0 ret st (q, e)); [done|lia|]. intros st' Hp'. cbv zeta.
    replace (MAXARGS <=? S (length ws0))%nat with false by (symmetry; apply Nat.leb_gt; lia).
    destruct (gitems_split _ _ _ Hi) as (ts1 & rs1 & ts2 & rs2 & -> & -> & Hg & Hf2). rewrite <- app_assoc in Hl2.
    apply runs_bind. eapply runs_mono; [|apply (parsing_redirs _ h0 cmd (ws0 ++ [(q, e)]) rs0 ret st' s2 ts1 rs1 (ts2 ++ rest)); [done|done|done|]].
    2:{ destruct Hf2 as [(-> & _ & _)|(q2 & e2 & ts3 & ws3 & -> & _ & _)]; [by eapply follows_not|done]. }
    intros [ret3 s3] st3 [Hl3 Hp3]. simpl in Hl3, Hp3. cbv beta iota. replace (S (length ws0)) with (length (ws0 ++ [(q, e)])) by (rewrite length_app; simpl; lia).
    eapply runs_mono; [|apply (IH h0 cmd (ws0 ++ [(q, e)]) (rs0 ++ rs1) ret3 st3 s3 ts2 ws' rs2 rest); [done|done|done|done|rewrite !length_app; simpl; lia]].
    intros r st4 (Hl4 & Ha4 & Hp4). rewrite <- app_assoc in Ha4, Hp4. simpl in Ha4, Hp4. by rewrite <- app_assoc in Hp4.
Qed.

(** The parser [P] builds the tree of [a] and goes on at [rest]. *)
Definition builds (P : SH (Z * Z)) (a : ast) (rest : list tok) (st : sh) : Prop :=
  runs False True P st (fun r st' => lex m es r.2 rest /\ sh_mem st' = m /\ sh_heap st `prefix_of` sh_heap st' /\ tree (sh_heap st') r.1 a).

Lemma simple_must s ts ws rs rest st : lex m es s (ts ++ rest) -> gitems ts ws rs -> (length ws < MAXARGS)%nat -> follows [124; 41; 38; 59] rest ->
  sh_mem st = m -> builds (parsesimple s es) (wrap rs (AExec ws)) rest st.
Proof.
  intros Hl Hi Hn Hfo Hm. unfold builds, parsesimple, execcmd. apply runs_new; [done|]. intros r Er. set (cmd := new_ptr st).
  assert (Hp : parsing (sh_heap st) cmd [] [] cmd (mkSh (sh_mem st) (sh_heap st ++ [EXEC (replicate MAXARGS 0) (replicate MAXARGS 0)]) r)).
  { split; [done|apply new_node_at|done|unfold cmd, new_ptr; lia|by apply prefix_app_r]. }
  destruct (gitems_split _ _ _ Hi) as (ts1 & rs1 & ts2 & rs2 & -> & -> & Hg & Hf). rewrite <- app_assoc in Hl.
  apply runs_bind. eapply runs_mono; [|apply (parsing_redirs _ _ _ _ _ _ _ s ts1 rs1 (ts2 ++ rest) Hp); [done|done|]].
  2:{ destruct Hf as [(-> & _ & _)|(q2 & e2 & ts3 & ws3 & -> & _ & _)]; [by eapply follows_not|done]. }
  intros [ret s1] st1 [Hl1 Hp1]. simpl in Hl1, Hp1. cbv beta iota.
  apply runs_bind. eapply runs_mono; [|apply (args_must _ _ _ [] _ _ _ s1 ts2 ws rs2 rest Hp1); done].
  intros [[ret2 argc] s2] st2 (Hl2 & Ha & [P1 [Hc P2] P3 P4 P5]). simpl in Hl2, Ha, P2, P3. subst argc. cbv beta iota.
  apply (runs_set_arg _ _ _ _ _ _ _ _ _ _ _ P2); [rewrite length_pad; rewrite ?length_map; lia|].
  split_and!; [done|done|apply prefix_set; [done|unfold cmd, new_ptr; lia]|]. eapply chain_tree; [by eapply chain_set|]. split; [done|].
  simpl. rewrite list_lookup_insert_eq by (by eapply lookup_lt_Some). unfold exec_node.
  by rewrite !pad_end by (rewrite ?length_map; done).
Qed.

Lemma new_tree st n r : sh_heap st `prefix_of` sh_heap (mkSh (sh_mem st) (sh_heap st ++ [n]) r).
Proof. by apply prefix_app_r. Qed.

Lemma back_must fuel : forall p s n a rest st, lex m es s (replicate n (TSym 38) ++ rest) -> starts [38] rest = false -> sh_mem st = m -> tree (sh_heap st) p a ->
  builds (back_loop fuel p s es) (backs n a) rest st.
Proof.
  induction fuel as [|fuel IH]; intros p s n a rest st Hl Hst Hm Ht; [done|]. unfold builds. cbn [back_loop].
  apply (runs_peek m es Hes _ _ s (replicate n (TSym 38) ++ rest)); [done|done|done|]. intros s1 Hl1 _ _. destruct n as [|n].
  - simpl in Hl1 |- *. rewrite Hst. by split_and!.
  - simpl in Hl1. change (starts [38] _) with true. cbv beta iota. apply (runs_tok m es _ _ s1 (TSym 38) (replicate n (TSym 38) ++ rest)); [done|done|]. intros _ _ s2 _ Hl2 _. cbv beta iota.
    unfold backcmd. apply runs_new; [done|]. intros r Er. pose proof (tree_le _ _ _ Ht).
    eapply runs_mono; [|apply (IH (new_ptr st) s2 n (ABack a) rest); [done|done|done|]].
    + intros x st' (H1 & H2 & H3 & H4). split_and!; [done|done|etransitivity; [apply new_tree|exact H3]|done].
    + simpl. exists p. split_and!; [apply new_node_at|unfold new_ptr; lia|]. eapply tree_prefix; [by apply prefix_app_r|done].
Qed.

(** The sequel of a command that is the second part of [c]. *)
Lemma builds_pair fuel (P : nat -> Z -> Z -> SH (Z * Z)) (mk : Z -> Z -> node) (amk : ast -> ast -> ast) p s a b rest st :
  (forall h x, tree h x (amk a b) <-> exists q r, node_at h x (mk q r) /\ q < x /\ r < x /\ tree h q a /\ tree h r b) ->
  tree (sh_heap st) p a -> builds (P fuel s es) b rest st -> builds ('(r, s') ← P fuel s es; c ← new_node (mk p r); mret (c, s')) (amk a b) rest st.
Proof.
  intros Hamk Ht Hb. unfold builds. apply runs_bind. eapply runs_mono; [|exact Hb]. intros [r s'] st' (H1 & H2 & H3 & H4). simpl in H1, H4. cbv beta iota.
  apply runs_new; [done|]. intros r0 Er. split_and!; [done|done|etransitivity; [exact H3|apply new_tree]|].
  apply Hamk. exists p, r. pose proof (tree_le _ _ _ (tree_prefix _ _ _ H3 _ Ht)). pose proof (tree_le _ _ _ H4).
  split_and!; [apply new_node_at|simpl; unfold new_ptr; lia..| |]; eapply tree_prefix; [|by eapply tree_prefix| |done]; by apply prefix_app_r.
Qed.

Definition line_full (fuel : nat) : Prop := forall s ts a rest st, lex m es s (ts ++ rest) -> gline ts a -> follows [41] rest -> sh_mem st = m ->
  builds (parseline fuel s es) a rest st.
Definition pipe_full (fuel : nat) : Prop := forall s ts a rest st, lex m es s (ts ++ rest) -> gpipe ts a -> follows [38; 59; 41] rest -> sh_mem st = m ->
  builds (parsepipe fuel s es) a rest st.
Definition exec_full (fuel : nat) : Prop := forall s ts a rest st, lex m es s (ts ++ rest) -> gexec ts a -> follows [124; 41; 38; 59] rest -> sh_mem st = m ->
  builds (parseexec fuel s es) a rest st.

Lemma block_must fuel s ts a ts' rs rest st : (forall k, (k < fuel)%nat -> line_full k) -> lex m es s (TSym 40 :: ts ++ TSym 41 :: ts' ++ rest) -> gline ts a -> gredirs ts' rs ->
  starts [60; 62] rest = false -> sh_mem st = m -> builds (parseblock fuel s es) (wrap rs a) rest st.
Proof.
  intros Hline Hl Hg Hr Hst Hm. destruct fuel as [|fuel]; [done|]. unfold builds. cbn [parseblock].
  apply (runs_peek m es Hes _ _ s (TSym 40 :: ts ++ TSym 41 :: ts' ++ rest)); [done|done|done|]. intros s1 Hl1 _ _. simpl.
  apply (runs_tok m es _ _ s1 (TSym 40) (ts ++ TSym 41 :: ts' ++ rest)); [done|done|]. intros _ _ s2 _ Hl2 _. cbv beta iota.
  apply runs_bind. eapply runs_mono; [|apply (Hline fuel ltac:(lia) s2 ts a (TSym 41 :: ts' ++ rest) st); [done|done|by right|done]].
  intros [p s3] st3 (Hl3 & Hm3 & Hp3 & Ht3). simpl in Hl3, Ht3. cbv beta iota.
  apply (runs_peek m es Hes _ _ s3 (TSym 41 :: ts' ++ rest)); [done|done|done|]. intros s4 Hl4 _ _. simpl.
  apply (runs_tok m es _ _ s4 (TSym 41) (ts' ++ rest)); [done|done|]. intros _ _ s5 _ Hl5 _. cbv beta iota.
  eapply runs_mono; [|apply (redirs_must _ p s5 ts' rs rest st3); [done|done|done|done|apply (tree_le _ _ _ Ht3)]].
  intros r st6 (H1 & H2 & H3 & H4). split_and!; [done|done|by etransitivity|]. eapply chain_tree; [exact H4|]. by eapply tree_prefix.
Qed.

Lemma exec_must fuel : (forall k, (k < fuel)%nat -> line_full k) -> exec_full fuel.
Proof.
  intros Hline s ts a rest st Hl Hg Hfo Hm. destruct fuel as [|fuel]; [done|]. unfold builds. cbn [parseexec].
  apply (runs_peek m es Hes _ _ s (ts ++ rest)); [done|done|done|]. intros s1 Hl1 _ _. destruct Hg as [ts ws rs Hi Hn|ts c ts' rs Hg Hr].
  - replace (starts [40] (ts ++ rest)) with false; [by apply (simple_must s1 ts)|]. symmetry. destruct Hi as [| |c q e ts ws rs Hc Hi]; [by eapply follows_not|done|].
    by destruct Hc as [-> |[-> | ->]].
  - simpl in Hl1 |- *. rewrite <- app_assoc in Hl1. simpl in Hl1.
    apply (block_must fuel s1 ts c ts' rs rest); [intros k Hk; apply Hline; lia|done|done|done|by eapply follows_not|done].
Qed.

Lemma pipe_must fuel : (forall k, (k < fuel)%nat -> exec_full k) -> (forall k, (k < fuel)%nat -> pipe_full k) -> pipe_full fuel.
Proof.
  intros Hexec Hpipe s ts a rest st Hl Hg Hfo Hm. destruct fuel as [|fuel]; [done|]. unfold builds. cbn [parsepipe].
  destruct Hg as [ts c Hg|ts c ts' c' Hg Hg'].
  - apply runs_bind. eapply runs_mono; [|apply (Hexec fuel ltac:(lia) s ts c rest st); [done|done|by eapply follows_weaken|done]].
    intros [p s1] st1 (Hl1 & Hm1 & Hp1 & Ht1). simpl in Hl1, Ht1. cbv beta iota.
    apply (runs_peek m es Hes _ _ s1 rest); [done|done|done|]. intros s2 Hl2 _ _. rewrite (follows_not _ [124] _ Hfo) by done. by split_and!.
  - rewrite <- app_assoc in Hl. apply runs_bind.
    eapply runs_mono; [|apply (Hexec fuel ltac:(lia) s ts c (TSym 124 :: ts' ++ rest) st); [done|done|by right|done]].
    intros [p s1] st1 (Hl1 & Hm1 & Hp1 & Ht1). simpl in Hl1, Ht1. cbv beta iota.
    apply (runs_peek m es Hes _ _ s1 (TSym 124 :: ts' ++ rest)); [done|done|done|]. intros s2 Hl2 _ _. simpl.
    apply (runs_tok m es _ _ s2 (TSym 124) (ts' ++ rest)); [done|done|]. intros _ _ s3 _ Hl3 _. cbv beta iota.
    eapply runs_mono; [|apply (builds_pair fuel parsepipe PIPE APipe p s3 c c' rest st1); [done|done|by apply (Hpipe fuel ltac:(lia) s3 ts')]].
    intros r st4 (H1 & H2 & H3 & H4). split_and!; [done|done|by etransitivity|done].
Qed.

Lemma line_must fuel : (forall k, (k < fuel)%nat -> pipe_full k) -> (forall k, (k < fuel)%nat -> line_full k) -> line_full fuel.
Proof.
  intros Hpipe Hline s ts a rest st Hl Hg Hfo Hm. destruct fuel as [|fuel]; [done|]. unfold builds. cbn [parseline].
  assert (Hback : forall n T, follows [59; 41] T -> follows [38; 59; 41] (replicate n (TSym 38) ++ T)).
  { intros [|n] T HT; [by eapply follows_weaken|by right]. }
  assert (Hfirst : forall ts1 c n T (k : Z * Z -> SH (Z * Z)) Q, lex m es s (ts1 ++ replicate n (TSym 38) ++ T) -> gpipe ts1 c -> follows [59; 41] T ->
    (forall p s1 st1, lex m es s1 T -> sh_mem st1 = m -> sh_heap st `prefix_of` sh_heap st1 -> tree (sh_heap st1) p (backs n c) -> runs False True (k (p, s1)) st1 Q) ->
    runs False True ('(cmd, s) ← parsepipe fuel s es; '(cmd, s) ← back_loop (S (Z.to_nat (es - s))) cmd s es; k (cmd, s)) st Q).
  { intros ts1 c n T k Q Hl' Hg' HT Hk. apply runs_bind.
    eapply runs_mono; [|apply (Hpipe fuel ltac:(lia) s ts1 c (replicate n (TSym 38) ++ T) st); [done|done|by apply Hback|done]].
    intros [p s1] st1 (Hl1 & Hm1 & Hp1 & Ht1). simpl in Hl1, Ht1. cbv beta iota. apply runs_bind.
    eapply runs_mono; [|apply (back_must _ p s1 n c T st1); [done|by eapply follows_not|done|done]].
    intros [p2 s2] st2 (Hl2 & Hm2 & Hp2 & Ht2). simpl in Hl2, Ht2. cbv beta iota. apply Hk; [done|done|by etransitivity|done]. }
  destruct Hg as [ts c n Hg|ts c n ts' c' Hg Hg'].
  - rewrite <- app_assoc in Hl. eapply (Hfirst ts c n rest (fun '(cmd, s) => _)); [done|done|by eapply follows_weaken|]. intros p s1 st1 Hl1 Hm1 Hp1 Ht1. cbv beta iota.
    apply (runs_peek m es Hes _ _ s1 rest); [done|done|done|]. intros s2 Hl2 _ _. rewrite (follows_not _ [59] _ Hfo) by done. by split_and!.
  - rewrite <- !app_assoc in Hl. eapply (Hfirst ts c n (TSym 59 :: ts' ++ rest) (fun '(cmd, s) => _)); [done|done|by right|]. intros p s1 st1 Hl1 Hm1 Hp1 Ht1. cbv beta iota.
    apply (runs_peek m es Hes _ _ s1 (TSym 59 :: ts' ++ rest)); [done|done|done|]. intros s2 Hl2 _ _. simpl.
    apply (runs_tok m es _ _ s2 (TSym 59) (ts' ++ rest)); [done|done|]. intros _ _ s3 _ Hl3 _. cbv beta iota.
    eapply runs_mono; [|apply (builds_pair fuel parseline LIST AList p s3 (backs n c) c' rest st1); [done|done|by apply (Hline fuel ltac:(lia) s3 ts')]].
    intros r st4 (H1 & H2 & H3 & H4). split_and!; [done|done|by etransitivity|done].
Qed.

Lemma parse_must fuel : line_full fuel /\ pipe_full fuel /\ exec_full fuel.
Proof.
  induction fuel as [fuel IH] using lt_wf_ind.
  assert (Hl : forall k, (k < fuel)%nat -> line_full k) by (intros k Hk; by apply IH).
  assert (Hp : forall k, (k < fuel)%nat -> pipe_full k) by (intros k Hk; by apply IH).
  assert (He : forall k, (k < fuel)%nat -> exec_full k) by (intros k Hk; by apply IH).
  split_and!; [by apply line_must|by apply pipe_must|by apply exec_must].
Qed.
End complete.

(** ** Termination of the words *)

Fixpoint words (a : ast) : list word :=
  match a with
  | AExec ws => ws
  | ARedir c f _ _ => f :: words c
  | APipe c d => words c ++ words d
  | AList c d => words c ++ words d
  | ABack c => words c
  end.

(** No command has more arguments than [execcmd] has slots, one of which ends the list. *)
Fixpoint few_args (a : ast) : Prop :=
  match a with
  | AExec ws => (length ws < MAXARGS)%nat
  | ARedir c _ _ _ => few_args c
  | APipe c d => few_args c /\ few_args d
  | AList c d => few_args c /\ few_args d
  | ABack c => few_args c
  end.

(** The words of [a] are words of [ts], and [a] has few arguments. *)
Definition fits (ts : list tok) (a : ast) : Prop := few_args a /\ forall q e, (q, e) ∈ words a -> TWord q e ∈ ts.

Lemma fits_wrap ts ts' rs a : fits ts a -> (forall c q e, (c, (q, e)) ∈ rs -> TWord q e ∈ ts') -> fits (ts ++ ts') (wrap rs a).
Proof.
  revert ts a. induction rs as [|[c [q e]] rs IH]; intros ts a [Hf Hw] Hrs; simpl.
  - split; [done|]. intros q e H. apply elem_of_app. auto.
  - assert (Hx : fits (ts ++ ts') (add_redir a (c, (q, e)))).
    { split; [unfold add_redir; by destruct (_ =? _)|]. intros q' e' Hin.
      assert ((q', e') = (q, e) \/ (q', e') ∈ words a) as [[= -> ->]|Ha] by (unfold add_redir in Hin; destruct (_ =? _); by apply elem_of_cons in Hin).
      - apply elem_of_app. right. eapply Hrs. apply elem_of_cons. by left.
      - apply elem_of_app. left. by apply Hw. }
    destruct (IH (ts ++ ts') _ Hx) as [H1 H2]; [intros; eapply Hrs; apply elem_of_cons; by right|]. split; [done|].
    intros q' e' H. apply H2 in H. rewrite !elem_of_app in *. tauto.
Qed.

Lemma gredirs_words ts rs : gredirs ts rs -> forall c q e, (c, (q, e)) ∈ rs -> TWord q e ∈ ts.
Proof. induction 1 as [|c q e ts rs Hc Hg IH]; set_solver. Qed.

Lemma gitems_words ts ws rs : gitems ts ws rs -> (forall q e, (q, e) ∈ ws -> TWord q e ∈ ts) /\ (forall c q e, (c, (q, e)) ∈ rs -> TWord q e ∈ ts).
Proof. induction 1 as [|q e ts ws rs Hi [IH1 IH2]|c q e ts ws rs Hc Hi [IH1 IH2]]; set_solver. Qed.

Lemma fits_backs n : forall ts a, fits ts a -> fits ts (backs n a).
Proof. induction n as [|n IH]; simpl; intros ts a H; [done|]. by apply IH. Qed.

Scheme gline_rec := Minimality for gline Sort Prop
  with gpipe_rec := Minimality for gpipe Sort Prop
  with gexec_rec := Minimality for gexec Sort Prop.

Lemma gline_fits ts a : gline ts a -> fits ts a.
Proof.
  apply (gline_rec fits fits fits).
  - intros ts' c n _ [H1 H2]%(fits_backs n). split; [done|]. set_solver.
  - intros ts1 c n ts2 c' _ [H1 H2]%(fits_backs n) _ [H3 H4]. split; [done|]. simpl. set_solver.
  - done.
  - intros ts1 c ts2 c' _ [H1 H2] _ [H3 H4]. split; [done|]. simpl. set_solver.
  - intros ts1 ws rs Hi Hn. destruct (gitems_words _ _ _ Hi) as [H1 H2].
    destruct (fits_wrap ts1 ts1 rs (AExec ws)) as [H3 H4]; [by split|done|]. split; [done|]. intros q e H. apply H4, elem_of_app in H. tauto.
  - intros ts1 c ts2 rs _ Hc Hr. destruct (fits_wrap ts1 ts2 rs c Hc (gredirs_words _ _ Hr)) as [H3 H4]. split; [done|]. set_solver.
Qed.

Lemma lex_words m es s T : lex m es s T -> forall q e, TWord q e ∈ T -> s <= q < e /\ e <= es /\ (forall x, q <= x < e -> wordc (m x)) /\ ~ wordc (m e).
Proof.
  induction 1 as [|s T Hs Hw Hl IH|s T Hs Hc Hl IH|s T Hs Hc Hn Hl IH|s T Hs Hc Hn Hl IH|s e T He Hw Hn Hl IH]; intros q' e' Hin.
  - by apply not_elem_of_nil in Hin.
  - destruct (IH q' e' Hin) as (? & ? & ?). split_and!; lia || tauto.
  - apply elem_of_cons in Hin as [?|Hin]; [done|]. destruct (IH q' e' Hin) as (? & ? & ?). split_and!; lia || tauto.
  - apply elem_of_cons in Hin as [?|Hin]; [done|]. destruct (IH q' e' Hin) as (? & ? & ?). split_and!; lia || tauto.
  - apply elem_of_cons in Hin as [?|Hin]; [done|]. destruct (IH q' e' Hin) as (? & ? & ?). split_and!; lia || tauto.
  - apply elem_of_cons in Hin as [[= -> ->]|Hin]; [split_and!; lia || done|]. destruct (IH q' e' Hin) as (? & ? & ?). split_and!; lia || tauto.
Qed.

(** The memory with a NUL at the end of each of the words. *)
Definition nuls (ws : list word) (m : mem) : mem := fun x => if existsb (fun w => w.2 =? x) ws then 0 else m x.

(** [st'] is [st] with the words [ws] terminated. *)
Definition ended (ws : list word) (st st' : sh) : Prop := sh_heap st' = sh_heap st /\ forall x, sh_mem st' x = nuls ws (sh_mem st) x.

Lemma ended_app ws ws' st st1 st2 : ended ws st st1 -> ended ws' st1 st2 -> ended (ws ++ ws') st st2.
Proof.
  intros [H1 M1] [H2 M2]. split; [congruence|]. intros x. rewrite M2. unfold nuls. rewrite existsb_app, M1. unfold nuls.
  by destruct (existsb _ ws), (existsb _ ws').
Qed.

Lemma ended_store w st : ended [w] st (set_shmem (upd (sh_mem st) w.2 0) st).
Proof. split; [done|]. intros x. simpl. unfold nuls, upd. simpl. rewrite orb_false_r, (Z.eqb_sym x). by destruct (_ =? _). Qed.

Lemma nul_args_ends ws r r' : forall st, (forall q e, (q, e) ∈ ws -> q <> 0) ->
  wp (nul_args (map fst ws ++ 0 :: r) (map snd ws ++ 0 :: r')) st (fun _ st' => ended ws st st').
Proof.
  induction ws as [|[q e] ws IH]; intros st Hq; simpl; [by split|].
  rewrite (proj2 (Z.eqb_neq q 0)) by (eapply (Hq q e), elem_of_cons; by left). unfold store_nul. apply wp_modify_bind.
  eapply wp_mono; [|apply IH; intros q' e' H; eapply (Hq q' e'), elem_of_cons; by right].
  intros [] st' H. apply (ended_app [(q, e)] ws _ _ _ (ended_store (q, e) st) H).
Qed.

Lemma pad_split l : (length l < MAXARGS)%nat -> exists r, pad l = l ++ 0 :: r.
Proof. intros H. unfold pad. replace (MAXARGS - length l)%nat with (S (MAXARGS - length l - 1)) by lia. simpl. eauto. Qed.

Lemma nulterminate_ends a : forall fuel p st, tree (sh_heap st) p a -> few_args a -> (forall q e, (q, e) ∈ words a -> q <> 0) -> p < Z.of_nat fuel ->
  wp (nulterminate fuel p) st (fun _ st' => sh_heap st' = sh_heap st /\ forall x, sh_mem st' x = nuls (words a) (sh_mem st) x).
Proof.
  assert (Htwo : forall c d fuel q r st, (forall st, tree (sh_heap st) q c -> wp (nulterminate fuel q) st (fun _ st' => ended (words c) st st')) ->
    (forall st, tree (sh_heap st) r d -> wp (nulterminate fuel r) st (fun _ st' => ended (words d) st st')) -> tree (sh_heap st) q c -> tree (sh_heap st) r d ->
    wp (nulterminate fuel q;; nulterminate fuel r) st (fun _ st' => ended (words c ++ words d) st st')).
  { intros c d fuel q r st Hc Hd Tc Td. apply wp_bind. eapply wp_mono; [|by apply Hc]. intros [] st1 E1.
    eapply wp_mono; [|apply Hd; by rewrite (proj1 E1)]. intros [] st2 E2. by eapply ended_app. }
  induction a as [ws|c IH f mode fd|c IHc d IHd|c IHc d IHd|c IH]; intros fuel p st Ht Hf Hq Hp; pose proof (tree_le _ _ _ Ht) as Hr;
    (destruct fuel as [|fuel]; [lia|]); cbn [nulterminate]; rewrite (proj2 (Z.eqb_neq p 0)) by lia; apply wp_gets_bind; cbn [tree] in Ht.
  - destruct Ht as [_ ->]. simpl in Hf. destruct (pad_split (map fst ws)) as [r Er]; [by rewrite length_map|].
    destruct (pad_split (map snd ws)) as [r' Er']; [by rewrite length_map|]. unfold exec_node. rewrite Er, Er'. by apply nul_args_ends.
  - destruct Ht as (q & [_ ->] & Hlt & Ht). apply wp_bind. simpl in Hq.
    eapply wp_mono; [|apply (IH fuel q st Ht Hf); [intros; eapply Hq, elem_of_cons; by right|lia]]. intros [] st1 E1.
    apply wp_modify. destruct (ended_app _ _ _ _ _ E1 (ended_store f st1)) as [H1 H2]. split; [done|]. intros x. rewrite H2.
    unfold nuls. rewrite existsb_app. cbn [existsb words]. by destruct (existsb _ (words c)), (_ =? x).
  - destruct Ht as (q & r & [_ ->] & ? & ? & Tc & Td). destruct Hf. simpl in Hq.
    apply Htwo; [intros st' T'; apply IHc; [done|done| |lia]|intros st' T'; apply IHd; [done|done| |lia]|done|done]; intros; eapply Hq, elem_of_app; eauto.
  - destruct Ht as (q & r & [_ ->] & ? & ? & Tc & Td). destruct Hf. simpl in Hq.
    apply Htwo; [intros st' T'; apply IHc; [done|done| |lia]|intros st' T'; apply IHd; [done|done| |lia]|done|done]; intros; eapply Hq, elem_of_app; eauto.
  - destruct Ht as (q & [_ ->] & Hlt & Ht). apply IH; [done|done|done|lia].
Qed.

(** ** The theorems *)

(** The string of length [n] at [s], where there is room for its nodes. *)
Record line_at (m : mem) (s n : Z) (room : nat) : Prop := mkLine {
  la_pos : 0 < s;
  la_len : 0 <= n;
  la_text : forall x, s <= x < s + n -> m x <> 0;
  la_end : m (s + n) = 0;
  la_room : 2 * n + 1 <= Z.of_nat room
}.

(** The characters of a word, and a NUL-terminated string. *)
Definition word_text (m : mem) (w : word) : list Z := map m (seqZ w.1 (w.2 - w.1)).
Definition string_at (m : mem) (q : Z) (l : list Z) : Prop := (forall i c, l !! i = Some c -> c <> 0 /\ m (q + Z.of_nat i) = c) /\ m (q + Z.of_nat (length l)) = 0.

Lemma strlen_line fuel m s n : (forall x, s <= x < s + n -> m x <> 0) -> m (s + n) = 0 -> 0 <= n -> n < Z.of_nat fuel -> strlen fuel m s = Some n.
Proof.
  intros Ht He Hn Hf. unfold strlen. assert (H : forall k i, 0 <= i <= n -> n - i < Z.of_nat k -> strlen_loop k m s i = Some n).
  { induction k as [|k IH]; intros i Hi Hk; [lia|]. simpl. destruct (Z.eqb_spec (m (s + i)) 0) as [E|E].
    - f_equal. destruct (decide (i = n)); [done|]. exfalso. apply (Ht (s + i)); [lia|done].
    - apply IH; [|lia]. destruct (decide (i = n)) as [->|]; [done|lia]. }
  apply H; lia.
Qed.

Lemma nuls_string m es T ws s w : lex m es s T -> (forall q e, (q, e) ∈ ws -> TWord q e ∈ T) -> w ∈ ws -> string_at (nuls ws m) w.1 (word_text m w).
Proof.
  intros Hl Hw Hin. destruct w as [q e]. destruct (lex_words _ _ _ _ Hl q e (Hw _ _ Hin)) as (Hq & He & Hc & Hn). unfold string_at, word_text. simpl. split.
  - intros i c Hi. rewrite list_lookup_fmap in Hi. apply fmap_Some in Hi as (x & Hx & ->). apply lookup_seqZ in Hx as [-> Hi].
    destruct (Hc (q + Z.of_nat i)) as [Hz Hp]; [lia|]. split; [done|]. unfold nuls. destruct (existsb _ ws) eqn:E; [|done]. exfalso.
    apply existsb_exists in E as ([q' e'] & Hin' & Ee%Z.eqb_eq). apply list_elem_of_In in Hin'.
    destruct (lex_words _ _ _ _ Hl q' e' (Hw _ _ Hin')) as (_ & _ & _ & Hn'). apply Hn'. simpl in Ee. rewrite Ee. by split.
  - rewrite length_map, length_seqZ, Z2Nat.id by lia. unfold nuls. replace (q + (e - q)) with e by lia. replace (existsb _ ws) with true; [done|].
    symmetry. apply existsb_exists. exists (q, e). split; [by apply list_elem_of_In|apply Z.eqb_refl].
Qed.

(** A line of the language is parsed. *)
Lemma parsecmd_accepts nbuf s n st T a : line_at (sh_mem st) s n (sh_room st) -> n < Z.of_nat nbuf ->
  lex (sh_mem st) (s + n) s T -> gline T a ->
  wp (parsecmd nbuf s) st (fun p st' => tree (sh_heap st') p a /\ forall w, w ∈ words a -> string_at (sh_mem st') w.1 (word_text (sh_mem st) w)).
Proof.
  intros [L1 L2 L3 L4 L5] Hb Hl Hg. unfold parsecmd. apply wp_gets_bind. rewrite (strlen_line nbuf _ s n) by done. cbv zeta.
  set (m := sh_mem st) in *. set (es := s + n) in *. wpb.
  pose proof (proj1 (parse_may m es L4 s) T st 0 (4 * Z.to_nat n + 4)%nat Hl ltac:(lia) ltac:(split; [done|lia]) ltac:(lia)) as H1.
  pose proof (proj1 (parse_must m es L4 (4 * Z.to_nat n + 4)) s T a [] st ltac:(by rewrite app_nil_r) Hg ltac:(by left) eq_refl) as H2.
  eapply wp_mono; [|exact (runs_wp True False False True _ _ _ _ ltac:(tauto) ltac:(tauto) H1 H2)]. clear H1 H2.
  intros [p s1] st1 [_ (Hl1 & Hm1 & _ & Ht)]. simpl in Hl1, Ht. unfold sh_peek. apply wp_gets_bind. rewrite Hm1.
  destruct (peek_spec m es L4 s1 [] [] Hl1 eq_refl) as (s2 & -> & _ & _ & ->); [|done]. rewrite Z.eqb_refl. cbn [negb]. apply wp_gets_bind.
  destruct (gline_fits _ _ Hg) as [Hf Hw]. pose proof (tree_le _ _ _ Ht). wpb.
  eapply wp_mono; [|apply (nulterminate_ends a); [done|done| |lia]].
  - intros [] st2 [Hh Hm2]. apply wp_ret. rewrite Hh. split; [done|]. intros w Hin. rewrite Hm1 in Hm2.
    destruct (nuls_string m es T (words a) s w Hl Hw Hin) as [N1 N2]. split; [intros i c Hi; rewrite Hm2; by apply N1|by rewrite Hm2].
  - intros q e Hin. destruct (lex_words _ _ _ _ Hl q e (Hw _ _ Hin)). lia.
Qed.

(** A line outside the language stops the parser with a message. *)
Lemma parsecmd_refuses nbuf s n st T : line_at (sh_mem st) s n (sh_room st) -> n < Z.of_nat nbuf ->
  lex (sh_mem st) (s + n) s T -> (forall a, ~ gline T a) -> exists msg, parsecmd nbuf s st = Panic msg.
Proof.
  intros [L1 L2 L3 L4 L5] Hb Hl Hno. cut (runs True False (parsecmd nbuf s) st (fun _ _ => False)).
  { unfold runs. destruct (parsecmd nbuf s st); eauto; done. }
  unfold parsecmd. apply runs_bind. change (runs True False (gets sh_mem) st) with (fun Q : mem -> sh -> Prop => Q (sh_mem st) st). cbv beta.
  rewrite (strlen_line nbuf _ s n) by done. cbv zeta. set (m := sh_mem st) in *. set (es := s + n) in *.
  apply runs_bind.
  eapply runs_mono; [|exact (proj1 (parse_may m es L4 s) T st 0 (4 * Z.to_nat n + 4)%nat Hl ltac:(lia) ltac:(split; [done|lia]) ltac:(lia))].
  intros [p s1] st1 (ts & a & rest & -> & Hg & Hl1 & _ & [Hm1 _]). simpl in Hl1. cbv beta iota.
  apply (runs_peek m es L4 _ _ s1 rest); [done|done|done|]. intros s2 Hl2 _ Hend. destruct (Z.eqb_spec s2 es) as [->|]; [|done]. exfalso.
  destruct rest as [|t rest]; [apply (Hno a); by rewrite app_nil_r|]. destruct (skip_head m es es _ Hl2) as (_ & Hs & Hh).
  replace (skip _ m es es) with es in * by (symmetry; apply skip_end). destruct t; simpl in Hh; lia.
Qed.

(** C35: [parsecmd] decides the language of the shell.  Every line is a sequence of tokens.  Where they form a command of the grammar the
    parser returns (it neither panics, runs on nor leaves the memory it was given) the tree of that command, and every argument and
    file name is in place as a NUL-terminated string, although the terminators overwrite the text; on every other line it stops with a message. *)
Theorem parsecmd_decides nbuf s n st : line_at (sh_mem st) s n (sh_room st) -> n < Z.of_nat nbuf ->
  exists T, lex (sh_mem st) (s + n) s T /\
  (forall a, gline T a -> wp (parsecmd nbuf s) st (fun p st' => tree (sh_heap st') p a /\
     forall w, w ∈ words a -> string_at (sh_mem st') w.1 (word_text (sh_mem st) w))) /\
  ((forall a, ~ gline T a) -> exists msg, parsecmd nbuf s st = Panic msg).
Proof.
  intros L Hb. destruct (lex_total (sh_mem st) (s + n) (la_end _ _ _ _ L) s) as [T Hl]; [pose proof (la_len _ _ _ _ L); lia|exact (la_text _ _ _ _ L)|].
  exists T. split; [done|]. split; [intros a Hg; by eapply parsecmd_accepts|by eapply parsecmd_refuses].
Qed.

(** ** Example: the line [a|b] *)
Module Lines.
Definition state (l : string) : sh := mkSh (fun x => cstr l (x - 1)) [] 20.

Lemma at_line l n : n = Z.of_nat (String.length l) -> n <= 9 -> forallb (fun x => negb (cstr l x =? 0)) (seqZ 0 n) = true -> cstr l n = 0 ->
  line_at (sh_mem (state l)) 1 n (sh_room (state l)).
Proof.
  intros Hn Hm Hf He. split; simpl; [lia|lia| |by replace (1 + n - 1) with n by lia|lia]. intros x Hx E.
  rewrite forallb_forall in Hf. specialize (Hf (x - 1)). rewrite E in Hf. cut (negb (0 =? 0) = true); [done|]. apply Hf, list_elem_of_In, elem_of_seqZ. lia.
Qed.

Lemma ab_lex : lex (sh_mem (state "a|b")) 4 1 [TWord 1 2; TSym 124; TWord 3 4].
Proof.
  apply lex_word; [lia|intros x Hx; replace x with 1 by lia; split; [discriminate|reflexivity]|intros [_ X]; discriminate X|].
  change (TSym 124) with (TSym (sh_mem (state "a|b") 2)). apply lex_sym; [lia|reflexivity|].
  apply lex_word; [lia|intros x Hx; replace x with 3 by lia; split; [discriminate|reflexivity]|intros [X _]; apply X; reflexivity|]. apply lex_end.
Qed.

Lemma ab_gline : gline [TWord 1 2; TSym 124; TWord 3 4] (APipe (AExec [(1, 2)]) (AExec [(3, 4)])).
Proof.
  apply (gl_last [TWord 1 2; TSym 124; TWord 3 4] (APipe (AExec [(1, 2)]) (AExec [(3, 4)])) 0).
  apply (gp_pipe [TWord 1 2] _ [TWord 3 4]); [|apply gp_last]; (apply (ge_simple _ _ []); [apply gi_word, gi_nil|unfold MAXARGS; simpl; lia]).
Qed.
End Lines.

Lemma parsecmd_decides_witness : exists T, lex (sh_mem (Lines.state "a|b")) 4 1 T /\
  (forall a, gline T a -> wp (parsecmd 100 1) (Lines.state "a|b") (fun p st' => tree (sh_heap st') p a)).
Proof.
  destruct (parsecmd_decides 100 1 3 (Lines.state "a|b")) as (T & Hl & Hacc & _); [apply Lines.at_line; reflexivity || lia|lia|].
  exists T. split; [exact Hl|]. intros a Hg. apply (wp_mono _ _ _ _ (fun p st' H => proj1 H) (Hacc a Hg)).
Defined.
