(* ===== verification/ShellRun.v ===== *)
(** * sh.c: running a command

    [runcmd] is the program of system calls the shell's child runs for a tree.
    [Fork] takes its continuation at 0 in the child and at the child's pid in the
    parent, as [fork] returns twice; a process is a table of descriptors.  The
    processes of one command share no state but the files, so a run lists the
    programs that are executed, each with its descriptors.

    Shown: each program of a command runs with exactly the descriptors 0, 1 and 2,
    the ends of its pipes and its redirections in their places; the other ends are
    closed, as they must be for a reader to see the end of its input. *)

From S2P Require Import Prelude CString KState Shell.

(** ** Programs of system calls *)

Inductive prog : Type :=
| Exit
| Exec (argv : list Z) (k : prog)
| Open (path mode : Z) (k : Z -> prog)
| Close (fd : Z) (k : prog)
| Dup (fd : Z) (k : Z -> prog)
| Pipe (k : option (Z * Z) -> prog)
| Fork (k : Z -> prog)
| Wait (k : prog)
| Print (msg : string) (k : prog).

(** [panic] of sh.c. *)
Definition sh_panic (msg : string) : prog := Print msg Exit.

Definition fork1 (k : Z -> prog) : prog := Fork (fun pid => if pid =? -1 then sh_panic "fork" else k pid).

(** The arguments up to the null pointer. *)
Fixpoint until_null (argv : list Z) : list Z :=
  match argv with
  | [] => []
  | q :: r => if q =? 0 then [] else q :: until_null r
  end.

(** [runcmd] does not return: where the code goes on after [if(fork1() == 0) runcmd(..);] it is the parent. *)
Fixpoint runcmd (fuel : nat) (h : list node) (cmd : Z) : option prog :=
  match fuel with
  | O => None
  | S k =>
      if cmd =? 0 then Some Exit
      else
        match h !! Z.to_nat (cmd - 1) with
        | None => None
        | Some (EXEC argv _) =>
            if default 0 (argv !! 0%nat) =? 0 then Some Exit
            else Some (Exec (until_null argv) (Print "exec %s failed" Exit))
        | Some (REDIR c file _ mode fd) =>
            sub ← runcmd k h c;
            Some (Close fd (Open file mode (fun r => if r <? 0 then Print "open %s failed" Exit else sub)))
        | Some (LIST l r) =>
            left ← runcmd k h l;
            rest ← runcmd k h r;
            Some (fork1 (fun pid => if pid =? 0 then left else Wait rest))
        | Some (PIPE l r) =>
            left ← runcmd k h l;
            rest ← runcmd k h r;
            Some (Pipe (fun p =>
              match p with
              | None => sh_panic "pipe"
              | Some (p0, p1) =>
                  fork1 (fun pid =>
                    if pid =? 0 then Close 1 (Dup p1 (fun _ => Close p0 (Close p1 left)))
                    else fork1 (fun pid =>
                      if pid =? 0 then Close 0 (Dup p0 (fun _ => Close p0 (Close p1 rest)))
                      else Close p0 (Close p1 (Wait (Wait Exit)))))
              end))
        | Some (BACK c) =>
            sub ← runcmd k h c;
            Some (fork1 (fun pid => if pid =? 0 then sub else Exit))
        end
  end.

(** ** Running a program *)

Inductive obj : Type := OFile (path mode : Z) | PipeR (id : nat) | PipeW (id : nat) | Inherited (n : nat).

(** The open files of a process by descriptor ([ofile] of its [struct proc]). *)
Abbreviation table := (list (option obj)).

(** The descriptor [fdalloc] finds. *)
Definition lowest (t : table) : option nat := find_idx (fun i => match t !! i with Some None => true | _ => false end) (length t).

(** [ok] says of each fallible call, in the order they are made, if it succeeds;
    [n] calls and [k] pipes have been made.  The result lists the programs
    executed, with the counters after them. *)
Fixpoint run (ok : nat -> bool) (n k : nat) (t : table) (p : prog) : list (list Z * table) * nat * nat :=
  match p with
  | Exit => ([], n, k)
  | Exec argv q => if ok n then ([(argv, t)], S n, k) else run ok (S n) k t q
  | Open path mode q =>
      match lowest t with
      | Some d => if ok n then run ok (S n) k (<[d := Some (OFile path mode)]> t) (q (Z.of_nat d)) else run ok (S n) k t (q (-1))
      | None => run ok (S n) k t (q (-1))
      end
  | Close fd q => run ok n k (<[Z.to_nat fd := None]> t) q
  | Dup fd q =>
      match t !! Z.to_nat fd, lowest t with
      | Some (Some o), Some d => run ok n k (<[d := Some o]> t) (q (Z.of_nat d))
      | _, _ => run ok n k t (q (-1))
      end
  | Pipe q =>
      match lowest t with
      | Some d0 =>
          let t0 := <[d0 := Some (PipeR k)]> t in
          match lowest t0 with
          | Some d1 => if ok n then run ok (S n) (S k) (<[d1 := Some (PipeW k)]> t0) (q (Some (Z.of_nat d0, Z.of_nat d1))) else run ok (S n) k t (q None)
          | None => run ok (S n) k t (q None)
          end
      | None => run ok (S n) k t (q None)
      end
  | Fork q =>
      if ok n then
        let '(l, n1, k1) := run ok (S n) k t (q 0) in
        let '(l', n2, k2) := run ok n1 k1 t (q 1) in
        (l ++ l', n2, k2)
      else run ok (S n) k t (q (-1))
  | Wait q => run ok n k t q
  | Print _ q => run ok n k t q
  end.

(** ** What a command means *)

(** A process with its three standard descriptors, and no other. *)
Definition std (i o e : obj) : table := [Some i; Some o; Some e] ++ replicate (NOFILE - 3) None.

(** The programs of a command whose input, output and error output are [i], [o] and [e], and the number of pipes after it. *)
Fixpoint plumb (k : nat) (i o e : obj) (a : ast) : list (list Z * table) * nat :=
  match a with
  | AExec [] => ([], k)
  | AExec ws => ([(map fst ws, std i o e)], k)
  | ARedir c f mode fd =>
      let ob := OFile f.1 mode in
      if fd =? 0 then plumb k ob o e c else plumb k i ob e c
  | APipe c d =>
      let '(l, k1) := plumb (S k) i (PipeW k) e c in
      let '(l', k2) := plumb k1 (PipeR k) o e d in
      (l ++ l', k2)
  | AList c d =>
      let '(l, k1) := plumb k i o e c in
      let '(l', k2) := plumb k1 i o e d in
      (l ++ l', k2)
  | ABack c => plumb k i o e c
  end.

(** The redirections of a command are of descriptors 0 and 1, and its words are not at the null pointer. *)
Fixpoint runnable (a : ast) : Prop :=
  match a with
  | AExec ws => (length ws < MAXARGS)%nat /\ Forall (fun w => w.1 <> 0) ws
  | ARedir c _ _ fd => (fd = 0 \/ fd = 1) /\ runnable c
  | APipe c d => runnable c /\ runnable d
  | AList c d => runnable c /\ runnable d
  | ABack c => runnable c
  end.

Lemma until_null_args ws r : Forall (fun w : word => w.1 <> 0) ws -> until_null (map fst ws ++ 0 :: r) = map fst ws.
Proof. induction 1 as [|w ws Hw _ IH]; simpl; [done|]. by rewrite (proj2 (Z.eqb_neq w.1 0)), IH. Qed.

(** What [run] gives for a program, whatever the state of its counters. *)
Definition runs_to (ok : nat -> bool) (k : nat) (t : table) (p : prog) (r : list (list Z * table) * nat) : Prop :=
  forall n, exists n', run ok n k t p = (r.1, n', r.2).

Section steps.
Context (ok : nat -> bool) (Hok : forall n, ok n = true).

Lemma run_exec k t argv p : runs_to ok k t (Exec argv p) ([(argv, t)], k).
Proof. intros n. simpl. rewrite Hok. eauto. Qed.

Lemma run_fork k t q r r' : runs_to ok k t (q 0) r -> runs_to ok r.2 t (q 1) r' -> runs_to ok k t (fork1 q) (r.1 ++ r'.1, r'.2).
Proof.
  intros H1 H2 n. unfold fork1. cbn [run]. rewrite Hok. change (0 =? -1) with false. change (1 =? -1) with false. cbv iota.
  destruct (H1 (S n)) as [n1 ->]. destruct (H2 n1) as [n2 ->]. eauto.
Qed.

Lemma run_redir k i o e fd path mode q r : fd = 0 \/ fd = 1 ->
  runs_to ok k (if fd =? 0 then std (OFile path mode) o e else std i (OFile path mode) e) (q fd) r -> runs_to ok k (std i o e) (Close fd (Open path mode q)) r.
Proof. intros [-> | ->] H n; simpl in H |- *; rewrite Hok; apply (H (S n)). Qed.

(** The two children of a pipeline and their parent. *)
Lemma run_pipe_left k i o e (q : Z * Z -> prog) r : runs_to ok (S k) (<[4%nat := Some (PipeW k)]> (<[3%nat := Some (PipeR k)]> (std i o e))) (q (3, 4)) r ->
  runs_to ok k (std i o e) (Pipe (fun p => match p with None => sh_panic "pipe" | Some p => q p end)) r.
Proof. intros H n. cbn [run]. change (lowest (std i o e)) with (Some 3%nat). cbv zeta iota. change (lowest _) with (Some 4%nat). cbv iota. rewrite Hok. apply (H (S n)). Qed.

Definition piped (k : nat) (i o e : obj) : table := <[4%nat := Some (PipeW k)]> (<[3%nat := Some (PipeR k)]> (std i o e)).

Lemma run_writer k k' i o e p r : runs_to ok k' (std i (PipeW k) e) p r -> runs_to ok k' (piped k i o e) (Close 1 (Dup 4 (fun _ => Close 3 (Close 4 p)))) r.
Proof. intros H n. exact (H n). Qed.

Lemma run_reader k k' i o e p r : runs_to ok k' (std (PipeR k) o e) p r -> runs_to ok k' (piped k i o e) (Close 0 (Dup 3 (fun _ => Close 3 (Close 4 p)))) r.
Proof. intros H n. exact (H n). Qed.
End steps.

Lemma runcmd_plumb a : forall fuel h p, tree h p a -> runnable a -> p < Z.of_nat fuel ->
  exists pr, runcmd fuel h p = Some pr /\ forall ok k i o e, (forall n, ok n = true) -> runs_to ok k (std i o e) pr (plumb k i o e a).
Proof.
  induction a as [ws|c IH f mode fd|c IHc d IHd|c IHc d IHd|c IH]; intros fuel h p Ht Hr Hp; pose proof (tree_le _ _ _ Ht) as Hle;
    (destruct fuel as [|fuel]; [lia|]); cbn [runcmd]; rewrite (proj2 (Z.eqb_neq p 0)) by lia; cbn [tree] in Ht.
  - destruct Ht as [_ ->]. destruct Hr as [Hn Hw]. unfold exec_node. destruct (pad_split (map fst ws)) as [r ->]; [by rewrite length_map|].
    destruct ws as [|w ws]; [eexists; split; [done|]; intros ok k i o e Hok n; eexists; done|].
    rewrite until_null_args by done. inversion_clear Hw as [|? ? Hw1 _]. simpl. rewrite (proj2 (Z.eqb_neq w.1 0)) by done.
    eexists. split; [done|]. intros ok k i o e Hok. by apply run_exec.
  - destruct Ht as (q & [_ ->] & Hlt & Ht). destruct Hr as [Hfd Hr]. destruct (IH fuel h q) as (pr & -> & Hrun); [done|done|lia|].
    eexists. split; [done|]. intros ok k i o e Hok. apply run_redir; [done|done|]. cbn [plumb].
    replace (fd <? 0) with false by (by destruct Hfd as [-> | ->]). destruct Hfd as [-> | ->]; by apply Hrun.
  - destruct Ht as (q & r & [_ ->] & ? & ? & Tc & Td). destruct Hr as [Hc Hd].
    destruct (IHc fuel h q) as (pc & -> & Rc); [done|done|lia|]. destruct (IHd fuel h r) as (pd & -> & Rd); [done|done|lia|].
    eexists. split; [done|]. intros ok k i o e Hok. apply (run_pipe_left ok Hok k i o e (fun '(p0, p1) => _)). cbv beta iota. cbn [plumb].
    specialize (Rc ok (S k) i (PipeW k) e Hok). destruct (plumb (S k) i (PipeW k) e c) as [l k1]. specialize (Rd ok k1 (PipeR k) o e Hok).
    destruct (plumb k1 (PipeR k) o e d) as [l' k2]. apply (run_fork ok Hok (S k) _ _ (l, k1) (l', k2)); [by apply run_writer|].
    rewrite <- (app_nil_r l'). apply (run_fork ok Hok k1 _ _ (l', k2) ([], k2)); [by apply run_reader|]. intros n. by exists n.
  - destruct Ht as (q & r & [_ ->] & ? & ? & Tc & Td). destruct Hr as [Hc Hd].
    destruct (IHc fuel h q) as (pc & -> & Rc); [done|done|lia|]. destruct (IHd fuel h r) as (pd & -> & Rd); [done|done|lia|].
    eexists. split; [done|]. intros ok k i o e Hok. cbn [plumb]. specialize (Rc ok k i o e Hok). destruct (plumb k i o e c) as [l k1].
    specialize (Rd ok k1 i o e Hok). destruct (plumb k1 i o e d) as [l' k2]. by apply (run_fork ok Hok k _ _ (l, k1) (l', k2)).
  - destruct Ht as (q & [_ ->] & Hlt & Ht). destruct (IH fuel h q) as (pr & -> & Hrun); [done|done|lia|]. eexists. split; [done|]. intros ok k i o e Hok.
    cbn [plumb]. specialize (Hrun ok k i o e Hok). destruct (plumb k i o e c) as [l k1]. rewrite <- (app_nil_r l).
    apply (run_fork ok Hok k _ _ (l, k1) ([], k1)); [done|]. intros n. by exists n.
Qed.

(** ** Whatever fails, no descriptor leaks *)

Definition standard (x : list Z * table) : Prop := exists i o e, x.2 = std i o e.

Definition clean (ok : nat -> bool) (t : table) (p : prog) : Prop := forall n k, Forall standard (run ok n k t p).1.1.

Lemma clean_fork ok t q : clean ok t (q 0) -> clean ok t (q 1) -> clean ok t (fork1 q).
Proof.
  intros H0 H1 n k. unfold fork1. cbn [run]. destruct (ok n); [|apply Forall_nil_2]. change (0 =? -1) with false. change (1 =? -1) with false. cbv iota.
  specialize (H0 (S n) k). destruct (run ok (S n) k t (q 0)) as [[l n1] k1]. specialize (H1 n1 k1). destruct (run ok n1 k1 t (q 1)) as [[l' n2] k2].
  by apply Forall_app_2.
Qed.

Lemma clean_exit ok t : clean ok t Exit.
Proof. intros n k. constructor. Qed.

Lemma runcmd_clean a : forall fuel h p, tree h p a -> runnable a -> forall pr ok i o e, runcmd fuel h p = Some pr -> clean ok (std i o e) pr.
Proof.
  induction a as [ws|c IH f mode fd|c IHc d IHd|c IHc d IHd|c IH]; intros fuel h p Ht Hr pr ok i o e; pose proof (tree_le _ _ _ Ht) as Hle;
    (destruct fuel as [|fuel]; [done|]); cbn [runcmd]; rewrite (proj2 (Z.eqb_neq p 0)) by lia; cbn [tree] in Ht.
  - destruct Ht as [_ ->]. unfold exec_node. destruct (default 0 _ =? 0); intros [= <-] n k; [constructor|]. cbn [run].
    destruct (ok n); repeat constructor. by exists i, o, e.
  - destruct Ht as (q & [_ ->] & Hlt & Ht). destruct Hr as [Hfd Hr]. destruct (runcmd fuel h q) as [sub|] eqn:E; [|done]. intros [= <-] n k.
    destruct Hfd as [-> | ->]; cbn [run]; (destruct (ok n); [|constructor]); [exact (IH _ _ _ Ht Hr _ ok (OFile f.1 mode) o e E _ _)|exact (IH _ _ _ Ht Hr _ ok i (OFile f.1 mode) e E _ _)].
  - destruct Ht as (q & r & [_ ->] & ? & ? & Tc & Td). destruct Hr as [Hc Hd].
    destruct (runcmd fuel h q) as [pc|] eqn:Ec; [|done]. destruct (runcmd fuel h r) as [pd|] eqn:Ed; [|done]. intros [= <-] n k. cbn [run].
    change (lowest (std i o e)) with (Some 3%nat). cbv zeta iota. change (lowest _) with (Some 4%nat). cbv iota. destruct (ok n); [|constructor].
    apply clean_fork; [exact (IHc _ _ _ Tc Hc _ ok i (PipeW k) e Ec)|]. apply clean_fork; [exact (IHd _ _ _ Td Hd _ ok (PipeR k) o e Ed)|].
    intros n' k'. constructor.
  - destruct Ht as (q & r & [_ ->] & ? & ? & Tc & Td). destruct Hr as [Hc Hd].
    destruct (runcmd fuel h q) as [pc|] eqn:Ec; [|done]. destruct (runcmd fuel h r) as [pd|] eqn:Ed; [|done]. intros [= <-].
    apply clean_fork; [exact (IHc _ _ _ Tc Hc _ ok i o e Ec)|]. exact (IHd _ _ _ Td Hd _ ok i o e Ed).
  - destruct Ht as (q & [_ ->] & Hlt & Ht). destruct (runcmd fuel h q) as [sub|] eqn:E; [|done]. intros [= <-].
    apply clean_fork; [exact (IH _ _ _ Ht Hr _ ok i o e E)|]. apply clean_exit.
Qed.

(** ** The commands of the grammar are runnable *)

Fixpoint std_redirs (a : ast) : Prop :=
  match a with
  | AExec _ => True
  | ARedir c _ _ fd => (fd = 0 \/ fd = 1) /\ std_redirs c
  | APipe c d => std_redirs c /\ std_redirs d
  | AList c d => std_redirs c /\ std_redirs d
  | ABack c => std_redirs c
  end.

Lemma std_wrap rs : forall a, std_redirs a -> std_redirs (wrap rs a).
Proof. induction rs as [|r rs IH]; intros a Ha; simpl; [done|]. apply IH. unfold add_redir. destruct (r.1 =? 60); simpl; auto. Qed.

Lemma std_backs n : forall a, std_redirs a -> std_redirs (backs n a).
Proof. induction n as [|n IH]; intros a Ha; simpl; [done|]. by apply IH. Qed.

Lemma gline_redirs ts a : gline ts a -> std_redirs a.
Proof.
  apply (gline_rec (fun _ => std_redirs) (fun _ => std_redirs) (fun _ => std_redirs)); intros; simpl; auto using std_wrap, std_backs. by apply std_wrap.
Qed.

Lemma runnable_intro a : few_args a -> std_redirs a -> (forall q e, (q, e) ∈ words a -> q <> 0) -> runnable a.
Proof.
  induction a as [ws|c IH f mode fd|c IHc d IHd|c IHc d IHd|c IH]; simpl; intros Hf Hs Hw.
  - split; [done|]. apply Forall_forall. intros [q e] Hin. by eapply Hw.
  - split; [apply Hs|]. apply IH; [done|apply Hs|]. intros q e Hin. eapply Hw, elem_of_cons. eauto.
  - destruct Hf, Hs. split; [apply IHc|apply IHd]; try done; intros; eapply Hw, elem_of_app; eauto.
  - destruct Hf, Hs. split; [apply IHc|apply IHd]; try done; intros; eapply Hw, elem_of_app; eauto.
  - by apply IH.
Qed.

(** C36: a line of the shell's language, parsed and run in a process with the standard descriptors [i], [o] and [e]: where no call fails, the programs
    executed, with their arguments and descriptors, are those the command means: each redirection in its place, each pipeline joined by one
    pipe, and nothing else open.  Whatever calls fail, no program is ever executed with a descriptor other than 0, 1 and 2. *)
Theorem shell_runs_line nbuf s n st T a i o e : line_at (sh_mem st) s n (sh_room st) -> n < Z.of_nat nbuf -> lex (sh_mem st) (s + n) s T -> gline T a ->
  wp (parsecmd nbuf s) st (fun p st' => exists pr, runcmd (S (length (sh_heap st'))) (sh_heap st') p = Some pr /\
    (forall w, w ∈ words a -> string_at (sh_mem st') w.1 (word_text (sh_mem st) w)) /\
    (forall ok, (forall n, ok n = true) -> (run ok 0 0 (std i o e) pr).1.1 = (plumb 0 i o e a).1) /\
    (forall ok x, x ∈ (run ok 0 0 (std i o e) pr).1.1 -> exists i' o' e', x.2 = std i' o' e')).
Proof.
  intros L Hb Hl Hg. eapply wp_mono; [|by eapply parsecmd_accepts]. intros p st' [Ht Hw].
  destruct (gline_fits _ _ Hg) as [Hf Hin]. assert (Hr : runnable a).
  { apply runnable_intro; [done|by eapply gline_redirs|]. intros q x Hq. destruct (lex_words _ _ _ _ Hl q x (Hin _ _ Hq)). pose proof (la_pos _ _ _ _ L). lia. }
  pose proof (tree_le _ _ _ Ht). destruct (runcmd_plumb a (S (length (sh_heap st'))) (sh_heap st') p Ht Hr) as (pr & E & Hrun); [lia|].
  exists pr. split_and!; [done|done| |].
  - intros ok Hok. destruct (Hrun ok 0%nat i o e Hok 0%nat) as [n' ->]. done.
  - intros ok x Hx. pose proof (runcmd_clean a _ _ _ Ht Hr pr ok i o e E 0%nat 0%nat) as Hc. rewrite Forall_forall in Hc. by apply Hc.
Qed.

Lemma shell_runs_line_witness :
  wp (parsecmd 100 1) (Lines.state "a|b") (fun p st' => exists pr, runcmd (S (length (sh_heap st'))) (sh_heap st') p = Some pr /\
    (run (fun _ => true) 0 0 (std (Inherited 0) (Inherited 1) (Inherited 2)) pr).1.1 =
      [([1], std (Inherited 0) (PipeW 0) (Inherited 2)); ([3], std (PipeR 0) (Inherited 1) (Inherited 2))]).
Proof.
  refine (wp_mono _ _ _ _ _ (shell_runs_line 100 1 3 (Lines.state "a|b") _ _ (Inherited 0) (Inherited 1) (Inherited 2) _ _ Lines.ab_lex Lines.ab_gline)).
  - intros p st' (pr & E & _ & Hrun & _). exists pr. split; [exact E|]. exact (Hrun (fun _ => true) (fun _ => eq_refl)).
  - apply Lines.at_line; reflexivity || lia.
  - lia.
Defined.
