(* ===== verification/Umalloc.v ===== *)
(** * umalloc.c: the allocator of user programs

    A header is a record at its address; sizes are in units of one header, and a
    block is its header and the units after it.  [freep] is null until the first
    call; then the free blocks are a circular list through [base], in the order
    of their addresses.  The break is moved by [sbrk], which the kernel grants up
    to a limit.

    Shown: the list stays sorted, with no two free blocks adjacent; [malloc]
    returns a block of the size asked for that overlaps no other, or null when
    neither the list nor the kernel has the room; [free] gives back exactly the
    block; [malloc] and [free] restore the list. *)

From Stdlib Require Import Sorted.
From S2P Require Import Prelude CString KState.

Definition sizeof_Header : Z := 8.

Record header : Type := mkHeader { h_ptr : Z; h_size : Z }.

Record um : Type := mkUm { um_hd : Z -> header; um_base : Z; um_freep : Z; um_brk : Z; um_limit : Z }.

Definition UM : Type -> Type := M um.

Definition set_hd (f : (Z -> header) -> Z -> header) : UM unit :=
  modify (fun s => mkUm (f (um_hd s)) (um_base s) (um_freep s) (um_brk s) (um_limit s)).
Definition set_freep (p : Z) : UM unit :=
  modify (fun s => mkUm (um_hd s) (um_base s) p (um_brk s) (um_limit s)).
Definition get_ptr (a : Z) : UM Z := gets (fun s => h_ptr (um_hd s a)).
Definition get_size (a : Z) : UM Z := gets (fun s => h_size (um_hd s a)).
Definition set_ptr (a v : Z) : UM unit := set_hd (fun h => <[a := mkHeader v (h_size (h a))]> h).
Definition set_size (a v : Z) : UM unit := set_hd (fun h => <[a := mkHeader (h_ptr (h a)) v]> h).

(** ** sys_sbrk and growproc, as the program sees them *)

Definition sbrk (n : Z) : UM Z := fun s =>
  let n := int32 n in
  let set b := mkUm (um_hd s) (um_base s) (um_freep s) b (um_limit s) in
  if 0 <? n then
    if um_brk s + n <=? um_limit s then Done (um_brk s) (set (um_brk s + n)) else Done (-1) s
  else if n <? 0 then
    let newsz := uint32 (um_brk s + n) in
    let sz := if newsz >=? um_brk s then um_brk s else newsz in
    if sz =? 0 then Done (-1) s else Done (um_brk s) (set sz)
  else Done (um_brk s) s.

(** ** The allocator *)

(** Where the loop of [free] stops: [bp] belongs after [p]. *)
Definition free_stop (h : Z -> header) (bp p : Z) : bool :=
  let q := h_ptr (h p) in
  ((bp >? p) && (bp <? q)) || ((p >=? q) && ((bp >? p) || (bp <? q))).

Fixpoint free_loop (fuel : nat) (bp p : Z) : UM Z :=
  match fuel with
  | O => fun s => Stuck s
  | S k =>
      h ← gets um_hd;
      if free_stop h bp p then mret p
      else p ← get_ptr p; free_loop k bp p
  end.

Definition free (fuel : nat) (ap : Z) : UM unit :=
  let bp := ap - sizeof_Header in
  p ← gets um_freep;
  p ← free_loop fuel bp p;
  q ← get_ptr p;
  n ← get_size bp;
  (if uint32 (bp + sizeof_Header * n) =? q then
     nq ← get_size q;
     set_size bp (uint32 (n + nq));;
     r ← get_ptr q;
     set_ptr bp r
   else set_ptr bp q);;
  np ← get_size p;
  (if uint32 (p + sizeof_Header * np) =? bp then
     n ← get_size bp;
     set_size p (uint32 (np + n));;
     r ← get_ptr bp;
     set_ptr p r
   else set_ptr p bp);;
  set_freep p.

Definition morecore (fuel : nat) (nu : Z) : UM Z :=
  let nu := if nu <? 4096 then 4096 else nu in
  p ← sbrk (uint32 (nu * sizeof_Header));
  if p =? -1 then mret 0
  else
    set_size p nu;;
    free fuel (p + sizeof_Header);;
    gets um_freep.

(** [ff] is the fuel of [free] inside [morecore]. *)
Fixpoint malloc_loop (ff fuel : nat) (nunits prevp p : Z) : UM Z :=
  match fuel with
  | O => fun s => Stuck s
  | S k =>
      n ← get_size p;
      if n >=? nunits then
        p ← (if n =? nunits then
               r ← get_ptr p;
               set_ptr prevp r;;
               mret p
             else
               set_size p (n - nunits);;
               let p := uint32 (p + sizeof_Header * (n - nunits)) in
               set_size p nunits;;
               mret p);
        set_freep prevp;;
        mret (p + sizeof_Header)
      else
        freep ← gets um_freep;
        if p =? freep then
          p ← morecore ff nunits;
          if p =? 0 then mret 0
          else r ← get_ptr p; malloc_loop ff k nunits p r
        else r ← get_ptr p; malloc_loop ff k nunits p r
  end.

Definition malloc (fuel : nat) (nbytes : Z) : UM Z :=
  let nunits := uint32 (nbytes + sizeof_Header - 1) / sizeof_Header + 1 in
  freep ← gets um_freep;
  prevp ← (if freep =? 0 then
             base ← gets um_base;
             set_freep base;;
             set_ptr base base;;
             set_size base 0;;
             mret base
           else mret freep);
  p ← get_ptr prevp;
  malloc_loop fuel fuel nunits prevp p.

(** ** The free list *)

(** Free blocks by address and size; a block ends before the next begins, with a gap. *)
Abbreviation block := (Z * Z)%type.

Definition fin (b : block) : Z := b.1 + 8 * b.2.
Definition before (a b : block) : Prop := fin a < b.1.

Definition first (L : list block) (e : Z) : Z := match L with [] => e | b :: _ => b.1 end.

(** The headers of [L] are linked in its order, the last to [e]. *)
Fixpoint seg (h : Z -> header) (L : list block) (e : Z) : Prop :=
  match L with
  | [] => True
  | b :: L' => h b.1 = mkHeader (first L' e) b.2 /\ seg h L' e
  end.

Lemma first_app L L' e : first (L ++ L') e = first L (first L' e).
Proof. by destruct L. Qed.

Lemma useg_app h L L' e : seg h (L ++ L') e <-> seg h L (first L' e) /\ seg h L' e.
Proof. induction L as [|b L IH]; simpl; [tauto|]. rewrite IH, first_app. tauto. Qed.

Lemma useg_ext h h' L e : (forall b, b ∈ L -> h' b.1 = h b.1) -> seg h L e -> seg h' L e.
Proof.
  induction L as [|b L IH]; simpl; [done|]. intros Hx [Hb Hs]. split; [rewrite Hx; [done|apply elem_of_cons; by left]|].
  apply IH; [|done]. intros b' Hb'. apply Hx, elem_of_cons. by right.
Qed.

(** [b] joined to the list, as [free] joins it. *)
Definition join_right (b : block) (L : list block) : list block :=
  match L with
  | c :: L' => if fin b =? c.1 then (b.1, b.2 + c.2) :: L' else b :: L
  | [] => [b]
  end.

Fixpoint insert_block (b : block) (L : list block) : list block :=
  match L with
  | [] => [b]
  | c :: L' =>
      if b.1 <? c.1 then join_right b L
      else if fin c =? b.1 then join_right (c.1, c.2 + b.2) L'
      else c :: insert_block b L'
  end.

(** Two blocks that do not overlap. *)
Definition apart (a b : block) : Prop := fin a <= b.1 \/ fin b <= a.1.

Lemma sorted_split (L : list block) (b : block) c : StronglySorted before L -> (forall x, x ∈ L -> 0 <= x.2) -> first L b.1 = c -> c < b.1 ->
  exists L1 p L2, L = L1 ++ p :: L2 /\ p.1 < b.1 /\ (forall x, x ∈ L2 -> b.1 <= x.1).
Proof.
  intros Hs Hz <- Hc. destruct L as [|x L]; [simpl in Hc; lia|]. simpl in Hc. revert x Hs Hz Hc. induction L as [|y L IH]; intros x Hs Hz Hc.
  - exists [], x, []. split_and!; [done|done|]. by intros z ?%not_elem_of_nil.
  - apply StronglySorted_inv in Hs as [Hs Hf]. destruct (Z_lt_dec y.1 b.1) as [Hy|Hy].
    + destruct (IH y Hs) as (L1 & p & L2 & E & H1 & H2); [intros z Hz'; apply Hz, elem_of_cons; by right|done|].
      exists (x :: L1), p, L2. by rewrite E.
    + exists [], x, (y :: L). split_and!; [done|done|]. intros z [->|Hz']%elem_of_cons; [lia|].
      apply StronglySorted_inv in Hs as [_ Hf2]. rewrite Forall_forall in Hf2. specialize (Hf2 z Hz'). unfold before, fin in Hf2.
      specialize (Hz y ltac:(set_solver)). lia.
Qed.

(** The list is the base, of size 0, and the free blocks by address. *)
Record ring (st : um) (F : list block) : Prop := mkRing {
  rg_seg : seg (um_hd st) ((um_base st, 0) :: F) (um_base st);
  rg_sorted : StronglySorted before ((um_base st, 0) :: F);
  rg_sizes : forall b, b ∈ F -> 0 < b.2;
  rg_freep : um_freep st ∈ map fst ((um_base st, 0) :: F)
}.

Lemma sorted_mid L1 (c : block) L2 : StronglySorted before (L1 ++ c :: L2) ->
  (forall x, x ∈ L1 -> before x c) /\ (forall x, x ∈ L2 -> before c x) /\ (forall x y, x ∈ L1 -> y ∈ L2 -> before x y).
Proof.
  induction L1 as [|x L1 IH]; simpl; intros Hs; apply StronglySorted_inv in Hs as [Hs Hf]; rewrite Forall_forall in Hf.
  - split_and!; [by intros ? ?%not_elem_of_nil|done|by intros ? ? ?%not_elem_of_nil].
  - destruct (IH Hs) as (H1 & H2 & H3). split_and!; [intros y [->|Hy]%elem_of_cons; [apply Hf; set_solver|by apply H1]|done|].
    intros y z [->|Hy]%elem_of_cons Hz; [apply Hf; set_solver|by apply H3].
Qed.

Lemma sorted_first (L : list block) e x : StronglySorted before L -> (forall x, x ∈ L -> 0 <= x.2) -> x ∈ L -> first L e <= x.1.
Proof.
  intros Hs Hz Hx. destruct L as [|c L]; [by apply not_elem_of_nil in Hx|]. simpl. apply elem_of_cons in Hx as [->|Hx]; [done|].
  apply StronglySorted_inv in Hs as [_ Hf]. rewrite Forall_forall in Hf. specialize (Hf x Hx). specialize (Hz c ltac:(set_solver)). unfold before, fin in Hf. lia.
Qed.

Lemma list_case {A} (l : list A) : l = [] \/ exists x l', l = x :: l'.
Proof. destruct l; eauto. Qed.

Section walk.
Context (st : um) (L1 : list block) (p : block) (L2 : list block) (b : Z).
Let L := L1 ++ p :: L2.
Context (Hseg : seg (um_hd st) L (um_base st)) (Hsort : StronglySorted before L) (Hsz : forall x, x ∈ L -> 0 <= x.2)
  (Hbase : first L 0 = um_base st) (Hp : p.1 < b) (HL2 : forall x, x ∈ L2 -> b < x.1).

Lemma in_lt x y : x ∈ L -> before x y -> x.1 < y.1.
Proof. intros Hx Hb. apply Hsz in Hx. unfold before, fin in Hb. lia. Qed.

Lemma base_low : um_base st <= p.1.
Proof. rewrite <- Hbase. apply sorted_first; [done|done|]. unfold L. set_solver. Qed.

Lemma walk_here fuel : (0 < fuel)%nat -> free_loop fuel b p.1 st = Done p.1 st.
Proof.
  intros Hf. destruct fuel as [|fuel]; [lia|]. cbn [free_loop]. unfold mbind, M_bind, gets. cbn [obind].
  pose proof (proj2 (proj1 (useg_app _ _ _ _) Hseg)) as [Hn _]. pose proof base_low as Hbl.
  replace (free_stop (um_hd st) b p.1) with true; [done|]. symmetry. unfold free_stop. rewrite Hn. simpl.
  destruct (list_case L2) as [E|(y & M & E)]; rewrite E; simpl.
  - apply orb_true_iff. right. apply andb_true_iff. split; [lia|]. apply orb_true_iff. left. lia.
  - pose proof (HL2 y ltac:(rewrite E; set_solver)). apply orb_true_iff. left. apply andb_true_iff. lia.
Qed.

(** One step from a node that is not [p]. *)
Lemma hwalk_step fuel c q n : um_hd st c = mkHeader q n -> (c < q < b \/ b < c /\ (c < q \/ q < b)) ->
  free_loop (S fuel) b c st = free_loop fuel b q st.
Proof.
  intros Hn Hq. cbn [free_loop]. unfold mbind, M_bind, gets, get_ptr. cbn [obind].
  replace (free_stop (um_hd st) b c) with false; [unfold gets; cbn [obind]; by rewrite Hn|]. symmetry. unfold free_stop. rewrite Hn. simpl.
  apply orb_false_iff. split; [apply andb_false_iff; lia|]. destruct (Z_lt_dec c q); [apply andb_false_iff; lia|].
  apply andb_false_iff. right. apply orb_false_iff. lia.
Qed.

Lemma walk_low N1 c N2 fuel : L1 = N1 ++ c :: N2 -> (length N2 + 1 < fuel)%nat -> free_loop fuel b c.1 st = Done p.1 st.
Proof.
  revert N1 c fuel. induction N2 as [|d N2 IH]; intros N1 c fuel E Hf; (destruct fuel as [|fuel]; [simpl in Hf; lia|]).
  - assert (EL : L = N1 ++ c :: p :: L2) by (unfold L; rewrite E, <- app_assoc; done). pose proof Hseg as Hs. rewrite EL in Hs.
    apply useg_app in Hs as [_ [Hn _]]. simpl in Hn. rewrite (hwalk_step fuel c.1 p.1 c.2 Hn); [apply walk_here; simpl in Hf; lia|].
    left. split; [|done]. pose proof Hsort as Hs. rewrite EL in Hs. destruct (sorted_mid _ _ _ Hs) as (_ & H & _).
    apply in_lt; [rewrite EL; set_solver|apply H; set_solver].
  - assert (EL : L = N1 ++ c :: d :: N2 ++ p :: L2) by (unfold L; rewrite E, <- app_assoc; done). pose proof Hseg as Hs. rewrite EL in Hs.
    apply useg_app in Hs as [_ [Hn _]]. simpl in Hn. pose proof Hsort as Hs. rewrite EL in Hs. destruct (sorted_mid _ _ _ Hs) as (_ & H & _).
    rewrite (hwalk_step fuel c.1 d.1 c.2 Hn); [apply (IH (N1 ++ [c]) d); [by rewrite <- app_assoc|simpl in Hf; lia]|]. left.
    split; [apply in_lt; [rewrite EL; set_solver|apply H; set_solver]|]. destruct (sorted_mid L1 p L2 Hsort) as (H1 & _).
    enough (d.1 < p.1) by lia. apply in_lt; [rewrite EL; set_solver|]. apply H1. rewrite E. set_solver.
Qed.

Lemma walk_base fuel : (length L1 + 1 < fuel)%nat -> free_loop fuel b (um_base st) st = Done p.1 st.
Proof.
  intros Hf. rewrite <- Hbase. unfold L. destruct (list_case L1) as [E|(c & M & E)]; rewrite E; simpl; [apply walk_here; lia|].
  apply (walk_low [] c M); [done|rewrite E in Hf; simpl in Hf; lia].
Qed.

Lemma walk_high N1 c N2 fuel : L2 = N1 ++ c :: N2 -> (length N2 + length L1 + 2 < fuel)%nat -> free_loop fuel b c.1 st = Done p.1 st.
Proof.
  revert N1 c fuel. induction N2 as [|d N2 IH]; intros N1 c fuel E Hf; (destruct fuel as [|fuel]; [simpl in Hf; lia|]);
    (assert (Hc : b < c.1) by (apply HL2; rewrite E; set_solver)).
  - assert (EL : L = (L1 ++ p :: N1) ++ c :: []) by (unfold L; rewrite E, <- app_assoc; done). pose proof Hseg as Hs. rewrite EL in Hs.
    apply useg_app in Hs as [_ [Hn _]]. simpl in Hn. rewrite (hwalk_step fuel c.1 (um_base st) c.2 Hn); [apply walk_base; simpl in Hf; lia|].
    right. split; [done|]. right. pose proof base_low. lia.
  - assert (EL : L = (L1 ++ p :: N1) ++ c :: d :: N2) by (unfold L; rewrite E, <- app_assoc; done). pose proof Hseg as Hs. rewrite EL in Hs.
    apply useg_app in Hs as [_ [Hn _]]. simpl in Hn. pose proof Hsort as Hs. rewrite EL in Hs. destruct (sorted_mid _ _ _ Hs) as (_ & H & _).
    rewrite (hwalk_step fuel c.1 d.1 c.2 Hn); [apply (IH (N1 ++ [c]) d); [by rewrite <- app_assoc|simpl in Hf; lia]|].
    right. split; [done|]. left. apply in_lt; [rewrite EL; set_solver|apply H; set_solver].
Qed.

Lemma walk_found fuel c : c ∈ map fst L -> (length L + 2 < fuel)%nat -> free_loop fuel b c st = Done p.1 st.
Proof.
  intros (x & -> & Hx)%list_elem_of_fmap Hf. unfold L in Hf. rewrite length_app in Hf. simpl in Hf. unfold L in Hx.
  apply elem_of_app in Hx as [Hx|[->|Hx]%elem_of_cons].
  - apply list_elem_of_split in Hx as (N1 & N2 & E). apply (walk_low N1 x N2); [done|]. rewrite E, length_app in Hf. simpl in Hf. lia.
  - apply walk_here. lia.
  - apply list_elem_of_split in Hx as (N1 & N2 & E). apply (walk_high N1 x N2); [done|]. rewrite E, length_app in Hf. simpl in Hf. lia.
Qed.
End walk.

(** ** free *)

(** [p] joined to the block after it, where that block follows it in memory. *)
Definition join_left (p : block) (at_ : Z) (L : list block) : list block :=
  match L with
  | c :: L' => if fin p =? at_ then (p.1, p.2 + c.2) :: L' else p :: L
  | [] => [p]
  end.

Lemma insert_split b L1 p L2 : StronglySorted before (L1 ++ p :: L2) -> (forall x, x ∈ L1 ++ p :: L2 -> 0 <= x.2) -> p.1 < b.1 -> (forall x, x ∈ L2 -> b.1 < x.1) ->
  insert_block b (L1 ++ p :: L2) = L1 ++ join_left p b.1 (join_right b L2).
Proof.
  intros Hs Hz Hp HL. induction L1 as [|c L1 IH]; simpl.
  - rewrite (proj2 (Z.ltb_ge b.1 p.1)) by lia. destruct (Z.eqb_spec (fin p) b.1) as [E|E].
    + unfold join_left, join_right. assert (Ef : fin (p.1, p.2 + b.2) = fin b) by (unfold fin in *; simpl; lia).
      destruct L2 as [|c L2]; [by rewrite E, Z.eqb_refl|]. rewrite Ef. destruct (fin b =? c.1); simpl; rewrite E, Z.eqb_refl; [|done]. do 2 f_equal. lia.
    + destruct L2 as [|c L2]; simpl; [by rewrite (proj2 (Z.eqb_neq (fin p) b.1))|]. rewrite (proj2 (Z.ltb_lt b.1 c.1)) by (apply HL; set_solver).
      destruct (fin b =? c.1); simpl; by rewrite (proj2 (Z.eqb_neq (fin p) b.1)).
  - destruct (sorted_mid (c :: L1) p L2 Hs) as (H1 & _). specialize (H1 c ltac:(set_solver)). specialize (Hz c ltac:(set_solver)) as Hc. unfold before, fin in H1.
    rewrite (proj2 (Z.ltb_ge b.1 c.1)), (proj2 (Z.eqb_neq (fin c) b.1)) by (unfold fin; lia). f_equal.
    apply IH; [by apply StronglySorted_inv in Hs as [Hs _]|]. intros x Hx. apply Hz. set_solver.
Qed.

(** The state with the header of [a] replaced. *)
Definition header_set (st st' : um) (a : Z) (v : header) : Prop :=
  um_hd st' a = v /\ (forall x, x <> a -> um_hd st' x = um_hd st x) /\
  um_base st' = um_base st /\ um_freep st' = um_freep st /\ um_brk st' = um_brk st /\ um_limit st' = um_limit st.

Lemma wp_set_ptr a v st (Q : unit -> um -> Prop) : (forall st', header_set st st' a (mkHeader v (h_size (um_hd st a))) -> Q tt st') -> wp (set_ptr a v) st Q.
Proof. intros H. apply wp_modify, H. split_and!; simpl; [by rewrite fn_insert_eq| |done..]. intros x Hx. by rewrite fn_insert_ne. Qed.

Lemma wp_set_size a v st (Q : unit -> um -> Prop) : (forall st', header_set st st' a (mkHeader (h_ptr (um_hd st a)) v) -> Q tt st') -> wp (set_size a v) st Q.
Proof. intros H. apply wp_modify, H. split_and!; simpl; [by rewrite fn_insert_eq| |done..]. intros x Hx. by rewrite fn_insert_ne. Qed.

Lemma header_set_trans st st1 st2 a v w : header_set st st1 a v -> header_set st1 st2 a w -> header_set st st2 a w.
Proof. intros (A1 & A2 & A3 & A4 & A5 & A6) (B1 & B2 & B3 & B4 & B5 & B6). split_and!; [done| |congruence..]. intros x Hx. by rewrite B2, A2. Qed.

(** [a->s.size += c->s.size; a->s.ptr = c->s.ptr], or [a->s.ptr = x]. *)
Lemma wp_absorb a c n m r st (Q : unit -> um -> Prop) : um_hd st c = mkHeader r m -> a <> c -> 0 <= n + m < W32 ->
  (forall st', header_set st st' a (mkHeader r (n + m)) -> Q tt st') ->
  wp (nq ← get_size c; set_size a (uint32 (n + nq));; r ← get_ptr c; set_ptr a r) st Q.
Proof.
  intros Hc Hne Hb HQ. unfold get_size, get_ptr. wp1. rewrite Hc. simpl. rewrite uint32_small by done. wpb. apply wp_set_size. intros st1 H1. wp1.
  apply wp_set_ptr. intros st2 H2. apply HQ. pose proof H1 as (A1 & A2 & _). rewrite A1, A2, Hc in H2 by done. exact (header_set_trans _ _ _ _ _ _ H1 H2).
Qed.

Lemma sorted_app (L L' : list block) : StronglySorted before L -> StronglySorted before L' -> (forall x y, x ∈ L -> y ∈ L' -> before x y) -> StronglySorted before (L ++ L').
Proof.
  intros HL HL' H. induction L as [|x L IH]; simpl; [done|]. apply StronglySorted_inv in HL as [HL Hf]. constructor.
  - apply IH; [done|]. intros y z Hy Hz. apply H; set_solver.
  - apply Forall_app_2; [done|]. apply Forall_forall. intros y Hy. apply H; set_solver.
Qed.

Lemma sorted_tail L1 (L2 : list block) : StronglySorted before (L1 ++ L2) -> StronglySorted before L1 /\ StronglySorted before L2.
Proof.
  induction L1 as [|x L1 IH]; simpl; intros Hs; [split; [constructor|done]|]. apply StronglySorted_inv in Hs as [Hs Hf]. destruct (IH Hs). split; [|done].
  constructor; [done|]. by apply Forall_app in Hf as [Hf _].
Qed.

(** Joining keeps the order. *)
Lemma sorted_join b L : StronglySorted before L -> (forall x, x ∈ L -> fin b <= x.1 /\ 0 < x.2) -> 0 < b.2 ->
  StronglySorted before (join_right b L) /\ (forall x, x ∈ join_right b L -> b.1 <= x.1 /\ 0 < x.2) /\ exists n M, join_right b L = (b.1, n) :: M.
Proof.
  intros Hs HL Hb. unfold join_right. destruct L as [|c L].
  - split_and!; [repeat constructor|intros x ->%list_elem_of_singleton; split; [lia|done]|exists b.2, []; by destruct b].
  - apply StronglySorted_inv in Hs as [Hs Hf]. pose proof (HL c ltac:(set_solver)) as [Hc1 Hc2]. rewrite Forall_forall in Hf.
    assert (Hge : forall x, x ∈ L -> b.1 <= x.1 /\ 0 < x.2) by (intros x Hx; destruct (HL x ltac:(set_solver)); unfold fin in *; lia).
    destruct (Z.eqb_spec (fin b) c.1) as [E|E].
    + split_and!; [| |by eauto].
      * constructor; [done|]. apply Forall_forall. intros x Hx. specialize (Hf x Hx). unfold before, fin in *. simpl. lia.
      * intros x [->|Hx]%elem_of_cons; [simpl; lia|by apply Hge].
    + split_and!; [| |exists b.2, (c :: L); by destruct b].
      * constructor; [constructor; [done|by apply Forall_forall]|]. constructor; [unfold before; lia|]. apply Forall_forall. intros x Hx.
        specialize (Hf x Hx). unfold before, fin in *. lia.
      * intros x [->|[->|Hx]%elem_of_cons]%elem_of_cons; [lia|unfold fin in *; lia|by apply Hge].
Qed.

Lemma sorted_join_left p a n M : StronglySorted before ((a, n) :: M) -> (forall x, x ∈ (a, n) :: M -> a <= x.1 /\ 0 < x.2) -> fin p <= a -> 0 <= p.2 ->
  StronglySorted before (join_left p a ((a, n) :: M)) /\ forall x, x ∈ join_left p a ((a, n) :: M) -> p.1 <= x.1.
Proof.
  intros Hs Hge Hp Hz. pose proof Hs as Hs0. apply StronglySorted_inv in Hs as [Hs Hf]. rewrite Forall_forall in Hf.
  assert (HM : forall x, x ∈ M -> a + 8 * n < x.1) by (intros x Hx; apply (Hf x Hx)). unfold join_left. destruct (Z.eqb_spec (fin p) a) as [E|E].
  - split.
    + constructor; [done|]. apply Forall_forall. intros x Hx. specialize (HM x Hx). unfold before, fin in *. simpl. lia.
    + intros x [->|Hx]%elem_of_cons; [simpl; lia|]. destruct (Hge x ltac:(set_solver)). unfold fin in *. lia.
  - split.
    + constructor; [done|]. apply Forall_forall. intros x Hx. destruct (Hge x Hx). unfold before. lia.
    + intros x [->|Hx]%elem_of_cons; [lia|]. destruct (Hge x Hx). unfold fin in *. lia.
Qed.

Lemma join_right_sizes b L x : (forall x, x ∈ L -> 0 < x.2) -> 0 < b.2 -> x ∈ join_right b L -> 0 < x.2.
Proof.
  unfold join_right. intros HL Hb. destruct L as [|c L]; [by intros ->%list_elem_of_singleton|]. pose proof (HL c ltac:(set_solver)).
  destruct (_ =? _); intros [->|Hx]%elem_of_cons; [simpl; lia|apply HL; set_solver|done|by apply HL].
Qed.

Lemma insert_sizes b L : (forall x, x ∈ L -> 0 < x.2) -> 0 < b.2 -> forall x, x ∈ insert_block b L -> 0 < x.2.
Proof.
  intros HL Hb. induction L as [|c L IH]; cbn [insert_block]; [by intros x ->%list_elem_of_singleton|]. intros x. pose proof (HL c ltac:(set_solver)).
  destruct (_ <? _); [by apply join_right_sizes|]. destruct (_ =? _); [apply join_right_sizes; [intros; apply HL; set_solver|simpl; lia]|].
  intros [->|Hx]%elem_of_cons; [done|]. apply IH; [intros; apply HL; set_solver|done].
Qed.

Lemma in_segment h L e x : seg h L e -> x ∈ L -> h_size (h x.1) = x.2.
Proof. induction L as [|b L IH]; simpl; [by intros _ ?%not_elem_of_nil|]. intros [Hb Hs] [->|Hx]%elem_of_cons; [by rewrite Hb|by apply IH]. Qed.

(** The two joins of [free], as the code makes them: the headers of [b] and of [p]. *)
Section joins.
Context (st : um) (L1 : list block) (p : block) (L2 : list block) (b : block).
Context (Hseg : seg (um_hd st) (L1 ++ p :: L2) (um_base st)) (Hsort : StronglySorted before (L1 ++ p :: L2))
  (Hsz : forall x, x ∈ L1 ++ p :: L2 -> 0 <= x.2 /\ 0 <= x.1 /\ fin x < W32) (Hb : 0 < b.2) (Hbs : h_size (um_hd st b.1) = b.2) (Hfin : fin b < W32)
  (Hp : fin p <= b.1) (Hp1 : p.1 < b.1) (HL2 : forall x, x ∈ L2 -> fin b <= x.1 /\ 0 < x.2) (Hbase : um_base st < b.1) (Hb0 : 0 <= um_base st).

Lemma wp_join_right (Q : unit -> um -> Prop) : (forall st' n M, join_right b L2 = (b.1, n) :: M -> header_set st st' b.1 (mkHeader (first M (um_base st)) n) -> Q tt st') ->
  wp (n ← get_size b.1;
      if uint32 (b.1 + sizeof_Header * n) =? first L2 (um_base st) then
        nq ← get_size (first L2 (um_base st)); set_size b.1 (uint32 (n + nq));; r ← get_ptr (first L2 (um_base st)); set_ptr b.1 r
      else set_ptr b.1 (first L2 (um_base st))) st Q.
Proof.
  intros HQ. unfold get_size at 1. wp1. rewrite Hbs. change (b.1 + sizeof_Header * b.2) with (fin b). rewrite uint32_small by (unfold fin in *; lia).
  apply useg_app in Hseg as [_ [_ Hs2]]. destruct L2 as [|c L2'] eqn:E; simpl.
  - rewrite (proj2 (Z.eqb_neq (fin b) (um_base st))) by (unfold fin; lia). apply wp_set_ptr. intros st' H. rewrite Hbs in H. apply (HQ st' b.2 []); [by destruct b|done].
  - destruct (HL2 c ltac:(set_solver)) as [Hc1 Hc2]. destruct (Hsz c ltac:(set_solver)) as (_ & _ & Hc3). destruct Hs2 as [Hc _]. unfold join_right in HQ.
    destruct (Z.eqb_spec (fin b) c.1) as [Ee|Ee].
    + eapply wp_absorb; [exact Hc|unfold fin in *; lia|unfold fin in *; lia|]. intros st' H. by apply (HQ st' (b.2 + c.2) L2').
    + apply wp_set_ptr. intros st' H. rewrite Hbs in H. apply (HQ st' b.2 (c :: L2')); [by destruct b|done].
Qed.

Lemma wp_join_left st1 n M (Q : unit -> um -> Prop) : join_right b L2 = (b.1, n) :: M -> header_set st st1 b.1 (mkHeader (first M (um_base st)) n) -> b.1 + 8 * n < W32 -> 0 < n ->
  (forall st', header_set st1 st' p.1 (mkHeader (first (tl (join_left p b.1 ((b.1, n) :: M))) (um_base st)) (default p (head (join_left p b.1 ((b.1, n) :: M)))).2) -> Q tt st') ->
  wp (np ← get_size p.1;
      if uint32 (p.1 + sizeof_Header * np) =? b.1 then
        n ← get_size b.1; set_size p.1 (uint32 (np + n));; r ← get_ptr b.1; set_ptr p.1 r
      else set_ptr p.1 b.1) st1 Q.
Proof.
  intros EM (H1 & H2 & H3 & _) Hn Hn0 HQ. pose proof (proj2 (proj1 (useg_app _ _ _ _) Hseg)) as [Hhp _]. destruct (Hsz p ltac:(set_solver)) as (Hp2 & Hp3 & Hp4).
  unfold get_size at 1. wp1. rewrite H2, Hhp by lia. simpl. change (p.1 + sizeof_Header * p.2) with (fin p). rewrite uint32_small by (unfold fin in *; lia).
  unfold join_left in HQ. destruct (Z.eqb_spec (fin p) b.1) as [E|E]; simpl in HQ.
  - eapply wp_absorb; [exact H1|lia|unfold fin in *; lia|]. exact HQ.
  - apply wp_set_ptr. intros st' H. apply HQ. rewrite H2, Hhp in H by lia. exact H.
Qed.
End joins.

Lemma wp_assoc {S A B C} (m : M S A) (f : A -> M S B) (g : B -> M S C) s Q : wp ((m ≫= f) ≫= g) s Q -> wp (m ≫= (fun a => f a ≫= g)) s Q.
Proof. unfold wp, mbind, M_bind. by destruct (m s). Qed.

(** The blocks are inside the 32-bit addresses, above [base]. *)
Definition block_ok (st : um) (b : block) : Prop := um_base st + 8 <= b.1 /\ 0 < b.2 /\ fin b < W32.

(** What [free] leaves alone. *)
Definition kept_env (st st' : um) : Prop := um_base st' = um_base st /\ um_brk st' = um_brk st /\ um_limit st' = um_limit st.

Lemma seg_relink st st1 st2 L1 p L2 b n M : seg (um_hd st) (L1 ++ p :: L2) (um_base st) -> StronglySorted before (L1 ++ p :: L2) ->
  (forall x, x ∈ L1 ++ p :: L2 -> 0 <= x.2) -> p.1 < b.1 -> (forall x, x ∈ L2 -> b.1 < x.1) -> join_right b L2 = (b.1, n) :: M ->
  header_set st st1 b.1 (mkHeader (first M (um_base st)) n) ->
  header_set st1 st2 p.1 (mkHeader (first (tl (join_left p b.1 ((b.1, n) :: M))) (um_base st)) (default p (head (join_left p b.1 ((b.1, n) :: M)))).2) ->
  seg (um_hd st2) (L1 ++ join_left p b.1 ((b.1, n) :: M)) (um_base st).
Proof.
  intros Hseg Hs Hz Hp HL EM (A1 & A2 & _) (B1 & B2 & _). destruct (sorted_mid _ _ _ Hs) as (S1 & S2 & _). apply useg_app in Hseg as [Hs1 [Hhp Hs2]].
  assert (Hlow : forall x, x ∈ L1 -> x.1 < p.1) by (intros x Hx; specialize (S1 x Hx); specialize (Hz x ltac:(set_solver)); unfold before, fin in S1; lia).
  assert (HsM : seg (um_hd st2) M (um_base st)).
  { assert (Hsub : seg (um_hd st) M (um_base st) /\ forall x, x ∈ M -> b.1 < x.1).
    { unfold join_right in EM. destruct L2 as [|c L2']; [by injection EM as _ <-|]. destruct (fin b =? c.1); injection EM as _ <-; [split; [by destruct Hs2|intros; apply HL; set_solver]|done]. }
    eapply useg_ext; [|apply Hsub]. intros x Hx. pose proof (proj2 Hsub x Hx). rewrite B2, A2 by lia. done. }
  apply useg_app. assert (Hp1 : first (join_left p b.1 ((b.1, n) :: M)) (um_base st) = p.1) by (simpl; by destruct (fin p =? b.1)). rewrite Hp1. split.
  - eapply useg_ext; [|exact Hs1]. intros x Hx. specialize (Hlow x Hx). rewrite B2, A2 by lia. done.
  - simpl in B1 |- *. destruct (fin p =? b.1); simpl in B1 |- *; [done|]. split; [done|]. split; [by rewrite B2, A1 by lia|done].
Qed.

(** Where [free] puts the block [b]: after [p], in the list with the base. *)
Record placed (st : um) (F : list block) (b : block) (L1 : list block) (p : block) (L2 : list block) : Prop := mkPlaced {
  pl_list : (um_base st, 0) :: F = L1 ++ p :: L2;
  pl_low : p.1 < b.1;
  pl_left : fin p <= b.1;
  pl_right : forall x, x ∈ L2 -> fin b <= x.1 /\ 0 < x.2;
  pl_range : forall x, x ∈ L1 ++ p :: L2 -> 0 <= x.2 /\ 0 <= x.1 /\ fin x < W32;
  pl_insert : (um_base st, 0) :: insert_block b F = L1 ++ join_left p b.1 (join_right b L2)
}.

Lemma free_place st F b : ring st F -> 0 <= um_base st -> block_ok st b -> (forall x, x ∈ F -> block_ok st x /\ apart x b) ->
  exists L1 p L2, placed st F b L1 p L2.
Proof.
  intros [Rseg Rsort Rsz Rfree] H0 (Hb1 & Hb2 & Hb3) HF. set (base := um_base st) in *.
  assert (Hz : forall x, x ∈ (base, 0) :: F -> 0 <= x.2) by (intros x [->|Hx]%elem_of_cons; [done|apply Rsz in Hx; lia]).
  destruct (sorted_split ((base, 0) :: F) b base Rsort Hz eq_refl ltac:(lia)) as (L1 & p & L2 & E & Hp & HL2).
  assert (HinF : forall x, x ∈ L1 ++ p :: L2 -> x = (base, 0) \/ x ∈ F) by (intros x Hx; rewrite <- E in Hx; by apply elem_of_cons in Hx).
  assert (HL : forall x, x ∈ L2 -> fin b <= x.1 /\ 0 < x.2).
  { intros x Hx. specialize (HL2 x Hx). destruct (HinF x ltac:(set_solver)) as [->|HxF]; [simpl in HL2; lia|]. destruct (HF x HxF) as [(? & ? & ?) [Ha|Ha]]; unfold fin in *; lia. }
  exists L1, p, L2. split; [done|done| |done| |].
  - destruct (HinF p ltac:(set_solver)) as [->|HxF]; [unfold fin; simpl; lia|]. destruct (HF p HxF) as [(? & ? & ?) [Ha|Ha]]; unfold fin in *; lia.
  - intros x Hx. destruct (HinF x Hx) as [->|HxF]; [unfold fin in *; simpl; lia|]. destruct (HF x HxF) as [(? & ? & ?) _]. lia.
  - rewrite E in Rsort, Hz. rewrite <- (insert_split b L1 p L2 Rsort Hz Hp); [|intros x Hx; destruct (HL x Hx); unfold fin in *; lia].
    rewrite <- E. fold base. simpl. by rewrite (proj2 (Z.ltb_ge b.1 base)), (proj2 (Z.eqb_neq (fin (base, 0)) b.1)) by (unfold fin; simpl; lia).
Qed.

(** The new list is in order. *)
Lemma placed_sorted st F b L1 p L2 : placed st F b L1 p L2 -> 0 < b.2 -> StronglySorted before ((um_base st, 0) :: F) ->
  StronglySorted before ((um_base st, 0) :: insert_block b F) /\ p.1 ∈ map fst ((um_base st, 0) :: insert_block b F) /\
  exists n M, join_right b L2 = (b.1, n) :: M /\ 0 < n /\ (b.1 + 8 * n = fin b \/ exists x, x ∈ L2 /\ b.1 + 8 * n = fin x).
Proof.
  intros [E Hlow Hleft Hright Hrange Eins] Hb Hs. rewrite E in Hs. pose proof (sorted_mid _ _ _ Hs) as (S1 & _).
  destruct (sorted_tail _ _ Hs) as [Hs1 Hs2]. apply StronglySorted_inv in Hs2 as [Hs2 _].
  destruct (sorted_join b L2 Hs2 Hright Hb) as (J1 & J2 & n & M & EM). rewrite EM in *. destruct (Hrange p ltac:(set_solver)) as (Hp2 & _).
  destruct (sorted_join_left p b.1 n M J1 J2 Hleft Hp2) as [K1 K2]. rewrite Eins. split_and!.
  - apply sorted_app; [done|done|]. intros x y Hx Hy. specialize (S1 x Hx). specialize (K2 y Hy). unfold before in *. lia.
  - rewrite map_app. apply elem_of_app. right. simpl. destruct (fin p =? b.1); simpl; set_solver.
  - exists n, M. split_and!; [done|apply (J2 (b.1, n)); set_solver|]. unfold join_right in EM. destruct L2 as [|c L2'].
    + left. injection EM as Eb _. unfold fin. by rewrite Eb.
    + destruct (Z.eqb_spec (fin b) c.1) as [Ee|Ee]; [right; exists c; split; [set_solver|]|left].
      * injection EM as En _. unfold fin in *. lia.
      * injection EM as Eb _. unfold fin. by rewrite Eb.
Qed.

Lemma wp_free fuel st F b : ring st F -> 0 <= um_base st -> block_ok st b -> (forall x, x ∈ F -> block_ok st x /\ apart x b) ->
  h_size (um_hd st b.1) = b.2 -> (length F + 3 < fuel)%nat ->
  wp (free fuel (b.1 + 8)) st (fun _ st' => ring st' (insert_block b F) /\ kept_env st st' /\
    forall a, a <> um_base st -> a ∉ map fst F -> a <> b.1 -> um_hd st' a = um_hd st a).
Proof.
  intros R H0 Hok HF Hbs Hf. destruct (free_place st F b R H0 Hok HF) as (L1 & p & L2 & P). pose proof P as [E Hlow Hleft Hright Hrange Eins].
  destruct R as [Rseg Rsort Rsz Rfree], Hok as (Hb1 & Hb2 & Hb3). destruct (placed_sorted _ _ _ _ _ _ P Hb2 Rsort) as (Hs' & Hp' & n & M & EM & Hn & Hnb).
  rewrite E in Rseg, Rsort, Rfree. assert (Hz : forall x, x ∈ L1 ++ p :: L2 -> 0 <= x.2) by (intros x Hx; apply (Hrange x Hx)).
  assert (HL2 : forall x, x ∈ L2 -> b.1 < x.1) by (intros x Hx; destruct (Hright x Hx); unfold fin in *; lia).
  unfold free. replace (b.1 + 8 - sizeof_Header) with b.1 by (unfold sizeof_Header; lia). wp1. wpb. apply wp_Done. exists p.1, st. split.
  { apply (walk_found st L1 p L2 b.1 Rseg Rsort Hz); [by rewrite <- E|done|done|done|rewrite <- E; simpl; lia]. }
  unfold get_ptr at 1. wp1. pose proof (proj2 (proj1 (useg_app _ _ _ _) Rseg)) as [Hhp _]. rewrite Hhp. cbn [h_ptr].
  apply wp_assoc. wpb. apply (wp_join_right st L1 p L2 b); [done..|lia|done|]. intros st1 n' M' EM' H1. rewrite EM in EM'. injection EM' as <- <-.
  apply wp_assoc. wpb. apply (wp_join_left st L1 p L2 b) with (st1 := st1) (n := n) (M := M); [done|done|done|done|done|done|done|done|done|lia|done|done|done| |done|].
  { destruct Hnb as [-> |(x & Hx & ->)]; [done|]. apply Hrange. set_solver. }
  intros st2 H2. apply wp_modify. pose proof H1 as (A1 & A2 & A3 & A4 & A5 & A6). pose proof H2 as (B1 & B2 & B3 & B4 & B5 & B6).
  split; [|split; [unfold kept_env; simpl; split_and!; congruence|]].
  - split; cbn [um_hd um_base um_freep]; rewrite ?B3, ?A3; [|done|by apply insert_sizes|done]. rewrite Eins, EM. by apply (seg_relink st st1 st2 L1 p L2 b n M).
  - intros a Ha1 Ha2 Ha3. simpl. rewrite B2; [by apply A2|]. intros ->. assert (Hp : p.1 ∈ map fst ((um_base st, 0) :: F)) by (rewrite E, map_app; set_solver).
    simpl in Hp. apply elem_of_cons in Hp as [?|?]; done.
Qed.

(** ** The heap *)

(** An address inside a block. *)
Definition covers (b : block) (a : Z) : Prop := b.1 <= a < fin b.

Lemma apart_covers x y : 0 < x.2 -> 0 < y.2 -> (forall a, covers x a -> covers y a -> False) -> apart x y.
Proof.
  intros Hx Hy H. destruct (Z_le_dec (fin x) y.1); [by left|]. destruct (Z_le_dec (fin y) x.1); [by right|]. exfalso.
  apply (H (Z.max x.1 y.1)); unfold covers, fin in *; lia.
Qed.

Lemma covers_apart x y a : apart x y -> covers x a -> covers y a -> False.
Proof. unfold apart, covers. lia. Qed.

Lemma apart_sym x y : apart x y -> apart y x.
Proof. unfold apart. tauto. Qed.

Lemma join_covers b L x a : x ∈ join_right b L -> covers x a -> covers b a \/ exists y, y ∈ L /\ covers y a.
Proof.
  unfold join_right. destruct L as [|c L]; [intros ->%list_elem_of_singleton; by left|]. destruct (Z.eqb_spec (fin b) c.1) as [E|E].
  - intros [->|Hx]%elem_of_cons Ha; [|right; exists x; split; [set_solver|done]]. unfold covers, fin in *. simpl in Ha.
    destruct (Z_lt_dec a (b.1 + 8 * b.2)); [left; lia|right; exists c; split; [set_solver|lia]].
  - intros [->|Hx]%elem_of_cons Ha; [by left|right; eauto].
Qed.

(** The free bytes after [free] are those before and those of the block. *)
Lemma insert_covers b L x a : x ∈ insert_block b L -> covers x a -> covers b a \/ exists y, y ∈ L /\ covers y a.
Proof.
  induction L as [|c L IH]; cbn [insert_block]; [intros ->%list_elem_of_singleton; by left|]. destruct (_ <? _); [apply join_covers|].
  destruct (Z.eqb_spec (fin c) b.1) as [E|E].
  - intros Hx Ha. destruct (join_covers _ _ _ _ Hx Ha) as [Hc|(y & Hy & Hc)]; [|right; exists y; split; [set_solver|done]].
    unfold covers, fin in *. simpl in Hc. destruct (Z_lt_dec a (c.1 + 8 * c.2)); [right; exists c; split; [set_solver|lia]|left; lia].
  - intros [->|Hx]%elem_of_cons Ha; [right; exists c; split; [set_solver|done]|]. destruct (IH Hx Ha) as [?|(y & Hy & ?)]; [by left|right; exists y; split; [set_solver|done]].
Qed.

Lemma join_covers_back b L y a : 0 <= b.2 -> (forall x, x ∈ L -> 0 <= x.2) -> y = b \/ y ∈ L -> covers y a -> exists x, x ∈ join_right b L /\ covers x a.
Proof.
  unfold join_right. intros Hb Hz Hy Ha. destruct L as [|c L]; [destruct Hy as [->|Hy]; [exists b; set_solver|by apply not_elem_of_nil in Hy]|].
  pose proof (Hz c ltac:(set_solver)). destruct (Z.eqb_spec (fin b) c.1) as [E|E]; [|exists y; set_solver].
  destruct Hy as [->|[->|Hy]%elem_of_cons]; [| |exists y; set_solver]; exists (b.1, b.2 + c.2); (split; [set_solver|]); unfold covers, fin in *; simpl; lia.
Qed.

Lemma insert_covers_back b L y a : 0 <= b.2 -> (forall x, x ∈ L -> 0 <= x.2) -> y = b \/ y ∈ L -> covers y a -> exists x, x ∈ insert_block b L /\ covers x a.
Proof.
  intros Hb. induction L as [|c L IH]; cbn [insert_block]; intros Hz Hy Ha; [destruct Hy as [->|Hy]; [exists b; set_solver|by apply not_elem_of_nil in Hy]|].
  pose proof (Hz c ltac:(set_solver)). destruct (_ <? _); [by apply (join_covers_back b (c :: L) y)|]. destruct (Z.eqb_spec (fin c) b.1) as [E|E].
  - assert (Hin : y ∈ L \/ covers (c.1, c.2 + b.2) a).
    { destruct Hy as [->|[->|Hy]%elem_of_cons]; [right|right|by left]; unfold covers, fin in *; simpl; lia. }
    destruct Hin as [Hin|Hc]; [apply (join_covers_back _ L y)|apply (join_covers_back _ L (c.1, c.2 + b.2))]; try done; [simpl; lia|intros; apply Hz; set_solver|by right|simpl; lia|intros; apply Hz; set_solver|by left].
  - destruct Hy as [->|[->|Hy]%elem_of_cons]; [|exists c; set_solver|].
    + destruct IH as (x & Hx & Hc); [intros; apply Hz; set_solver|by left|done|]. exists x. set_solver.
    + destruct IH as (x & Hx & Hc); [intros; apply Hz; set_solver|by right|done|]. exists x. set_solver.
Qed.

Record heap_ok (st : um) (F A : list block) : Prop := mkHeap {
  hk_ring : ring st F;
  hk_base : 0 < um_base st;
  hk_free : forall x, x ∈ F -> um_base st + 8 <= x.1 /\ fin x <= um_brk st;
  hk_used : forall x, x ∈ A -> um_base st + 8 <= x.1 /\ 0 < x.2 /\ fin x <= um_brk st /\ h_size (um_hd st x.1) = x.2;
  hk_apart : forall x y, x ∈ F -> y ∈ A -> apart x y;
  hk_pairs : ForallOrdPairs apart A;
  hk_brk : um_base st + 8 <= um_brk st <= um_limit st /\ um_limit st <= KERNBASE
}.

Lemma heap_block_free st F A x : heap_ok st F A -> x ∈ F -> block_ok st x.
Proof.
  intros H Hx. destruct (hk_free _ _ _ H x Hx). pose proof (hk_brk _ _ _ H). split_and!; [done|by apply (rg_sizes _ _ (hk_ring _ _ _ H))|unfold KERNBASE, W32 in *; lia].
Qed.

Lemma pairs_perm (A A' : list block) : A ≡ₚ A' -> ForallOrdPairs apart A -> ForallOrdPairs apart A'.
Proof.
  induction 1 as [|x A A' Hp IH|x y A|A1 A2 A3 _ IH1 _ IH2]; intros H; [done| | |by apply IH2, IH1].
  - inversion_clear H. constructor; [by rewrite <- Hp|by apply IH].
  - inversion_clear H as [|? ? Hy H']. inversion_clear H' as [|? ? Hx H'']. inversion_clear Hy as [|? ? Hxy Hy']. constructor; [constructor; [by apply apart_sym|done]|]. by constructor.
Qed.

Lemma heap_perm st F A A' : A ≡ₚ A' -> heap_ok st F A -> heap_ok st F A'.
Proof.
  intros Hp [H1 H2 H3 H4 H5 H6 H7]. split; [done|done|done|intros x Hx; apply H4; by rewrite Hp|intros x y Hx Hy; apply H5; [done|by rewrite Hp]|by eapply pairs_perm|done].
Qed.

(** [free] of a block that belongs to no one: the block of [free]'s caller, or what [sbrk] gave. *)
Lemma wp_free_heap fuel st F A b : heap_ok st F A -> um_base st + 8 <= b.1 -> 0 < b.2 -> fin b <= um_brk st -> h_size (um_hd st b.1) = b.2 ->
  (forall x, x ∈ F -> apart x b) -> (forall y, y ∈ A -> apart b y) -> (length F + 3 < fuel)%nat ->
  wp (free fuel (b.1 + 8)) st (fun _ st' => heap_ok st' (insert_block b F) A /\ kept_env st st').
Proof.
  intros H Hb1 Hb2 Hb3 Hbs HF HA Hf. pose proof (hk_brk _ _ _ H) as Hbrk. pose proof (hk_base _ _ _ H) as H0. pose proof (hk_ring _ _ _ H) as R.
  assert (Hok : block_ok st b) by (split_and!; [done|done|unfold KERNBASE, W32 in *; lia]).
  eapply wp_mono; [|apply (wp_free fuel st F b R); [lia|done|intros x Hx; split; [by eapply heap_block_free|by apply HF]|done|done]].
  intros [] st' (R' & (E1 & E2 & E3) & Hh). split; [|done].
  assert (Hin : forall x a, x ∈ insert_block b F -> covers x a -> um_base st + 8 <= a < um_brk st /\ forall y, y ∈ A -> ~ covers y a).
  { intros x a Hx Ha. destruct (insert_covers _ _ _ _ Hx Ha) as [Hc|(z & Hz & Hc)].
    - split; [unfold covers in Hc; lia|]. intros y Hy Hc'. exact (covers_apart _ _ _ (HA y Hy) Hc Hc').
    - destruct (hk_free _ _ _ H z Hz). split; [unfold covers in Hc; lia|]. intros y Hy Hc'. exact (covers_apart _ _ _ (hk_apart _ _ _ H z y Hz Hy) Hc Hc'). }
  assert (Hpos : forall x, x ∈ insert_block b F -> 0 < x.2) by (apply insert_sizes; [apply (rg_sizes _ _ R)|done]).
  destruct H as [_ _ G1 G2 G3 G4 G5]. split; rewrite ?E1, ?E2, ?E3; [done|done| | | |done|done].
  - intros x Hx. specialize (Hpos x Hx). destruct (Hin x x.1 Hx) as [? _]; [unfold covers, fin; lia|].
    destruct (Hin x (fin x - 1) Hx) as [? _]; [unfold covers, fin; lia|]. lia.
  - intros x Hx. destruct (G2 x Hx) as (U1 & U2 & U3 & U4). split_and!; [done|done|done|]. rewrite Hh; [done|lia| |].
    + intros (y & Ey & Hy)%list_elem_of_fmap. pose proof (rg_sizes _ _ R y Hy). apply (covers_apart _ _ x.1 (G3 y x Hy Hx)); unfold covers, fin; lia.
    + intros Ex. apply (covers_apart _ _ x.1 (HA x Hx)); unfold covers, fin; lia.
  - intros x y Hx Hy. destruct (G2 y Hy) as (_ & U2 & _). apply apart_covers; [by apply Hpos|done|]. intros a Ha Hc. by apply (proj2 (Hin x a Hx Ha) y Hy).
Qed.

(** ** malloc: the scan of the list *)

(** [v] comes after [u] in the circular list. *)
Definition adj (L : list block) (u v : block) : Prop :=
  (exists N1 N2, L = N1 ++ u :: v :: N2) \/ (exists N1 N2, L = N1 ++ [u] /\ L = v :: N2).

Fixpoint path (L : list block) (u : block) (V : list block) : Prop :=
  match V with
  | [] => True
  | v :: V' => adj L u v /\ path L v V'
  end.

Lemma path_inside L N2 : forall N1 u W, L = N1 ++ u :: W ++ N2 -> path L u W.
Proof.
  intros N1 u W. revert N1 u. induction W as [|w W IH]; intros N1 u E; simpl; [done|]. split; [left; by exists N1, (W ++ N2)|].
  apply (IH (N1 ++ [u])). by rewrite <- app_assoc.
Qed.

Lemma last_shift (V : list block) : forall v u, List.last (v :: V) u = List.last V v.
Proof. induction V as [|x V IH]; intros v u; [done|]. change (List.last (v :: x :: V) u) with (List.last (x :: V) u). rewrite (IH x u), (IH x v). done. Qed.

Lemma path_app L : forall u V W, path L u V -> path L (List.last V u) W -> path L u (V ++ W).
Proof.
  intros u V W. revert u. induction V as [|v V IH]; intros u; simpl; [done|]. intros [Ha Hp] HW. split; [done|]. apply IH; [done|]. by rewrite <- (last_shift V v u).
Qed.

Lemma path_around M1 f M2 : path (M1 ++ f :: M2) f (M2 ++ M1 ++ [f]).
Proof.
  apply path_app; [apply (path_inside _ [] M1); by rewrite app_nil_r|]. assert (Hlast : exists N, f :: M2 = N ++ [List.last M2 f]).
  { destruct (list_case M2) as [->|(y & M & ->)]; [by exists []|]. exists (f :: List.removelast (y :: M)). rewrite <- app_comm_cons. f_equal. by apply app_removelast_last. }
  destruct Hlast as [N EN]. destruct M1 as [|x M1]; simpl.
  - split; [|done]. right. exists N, M2. by rewrite <- EN.
  - split; [right; exists (x :: M1 ++ N), (M1 ++ f :: M2); split; [rewrite EN; simpl; by rewrite <- app_assoc|done]|]. apply (path_inside _ M2 []). simpl. by rewrite <- app_assoc.
Qed.

Lemma adj_ptr h L u v e : seg h L e -> (first L e = e) -> adj L u v -> h_ptr (h u.1) = v.1.
Proof.
  intros Hs He [(N1 & N2 & E)|(N1 & N2 & E & E')].
  - rewrite E in Hs. apply useg_app in Hs as [_ [Hu _]]. by rewrite Hu.
  - pose proof Hs as Hs'. rewrite E in Hs'. apply useg_app in Hs' as [_ [Hu _]]. rewrite Hu. simpl. rewrite <- He, E'. done.
Qed.

(** The branches of the loop of [malloc]. *)
Definition found (nunits prevp p n : Z) : UM Z :=
  p ← (if n =? nunits then r ← get_ptr p; set_ptr prevp r;; mret p
       else
         set_size p (n - nunits);;
         let p := uint32 (p + sizeof_Header * (n - nunits)) in
         set_size p nunits;;
         mret p);
  set_freep prevp;;
  mret (p + sizeof_Header).

Definition grow (ff k : nat) (nunits : Z) : UM Z :=
  p ← morecore ff nunits;
  if p =? 0 then mret 0
  else r ← get_ptr p; malloc_loop ff k nunits p r.

Lemma malloc_loop_eq ff k nunits u p st : malloc_loop ff (S k) nunits u p st =
  if h_size (um_hd st p) >=? nunits then found nunits u p (h_size (um_hd st p)) st
  else if p =? um_freep st then grow ff k nunits st else malloc_loop ff k nunits p (h_ptr (um_hd st p)) st.
Proof.
  cbn [malloc_loop]. unfold grow, found, get_size, get_ptr, gets, mbind, M_bind. cbn [obind]. destruct (_ >=? _); [done|]. by destruct (p =? um_freep st).
Qed.

(** The loop from [u] over [V], whose last block [freep] points at: it stops at the first block that is large enough, or asks for more at the end. *)
Lemma scan ff nunits st L V : forall fuel u, seg (um_hd st) L (um_base st) -> first L (um_base st) = um_base st -> path L u V -> (forall v, v ∈ V -> v ∈ L) ->
  V <> [] -> (forall V1 v V2, V = V1 ++ v :: V2 -> v.1 = um_freep st <-> V2 = []) -> (length V < fuel)%nat ->
  (exists u' v, adj L u' v /\ v ∈ L /\ nunits <= v.2 /\ malloc_loop ff fuel nunits u.1 (first V 0) st = found nunits u'.1 v.1 v.2 st) \/
  ((forall v, v ∈ V -> v.2 < nunits) /\ exists k, (k + length V = fuel)%nat /\ malloc_loop ff fuel nunits u.1 (first V 0) st = grow ff k nunits st).
Proof.
  induction V as [|v V IH]; intros fuel u Hs He Hp Hin Hne Hlast Hf; [done|]. destruct fuel as [|fuel]; [lia|]. simpl in Hp, Hf. destruct Hp as [Ha Hp].
  assert (Hv : h_size (um_hd st v.1) = v.2) by (eapply in_segment; [exact Hs|apply Hin; set_solver]). cbn [first]. rewrite malloc_loop_eq, Hv.
  destruct (Z.geb_spec v.2 nunits) as [Hge|Hlt].
  - left. exists u, v. split_and!; [done|apply Hin; set_solver|lia|done].
  - destruct (Z.eqb_spec v.1 (um_freep st)) as [E|E].
    + apply (Hlast [] v V eq_refl) in E as E'. subst V. right. split; [by intros w ->%list_elem_of_singleton|]. exists fuel. split; [simpl; lia|done].
    + assert (HV : V <> []) by (intros EV; apply E, (Hlast [] v V eq_refl); done).
      assert (Hptr : h_ptr (um_hd st v.1) = first V 0).
      { destruct (list_case V) as [->|(w' & V' & ->)]; [done|]. destruct Hp. by rewrite (adj_ptr _ _ v w' _ Hs He). }
      rewrite Hptr.
      destruct (IH fuel v Hs He Hp) as [(u' & w & H1 & H2 & H3 & H4)|[H1 (k & H2 & H3)]]; [intros w Hw; apply Hin; set_solver|done| |lia| |].
      * intros V1 w V2 EV. apply (Hlast (v :: V1) w V2). by rewrite EV.
      * left. exists u', w. split_and!; [done|done|done|]. done.
      * right. split; [intros w [->|Hw]%elem_of_cons; [lia|by apply H1]|]. exists k. split; [simpl; lia|]. done.
Qed.

(** ** malloc: taking a block *)

Lemma insert_gap v F1 F2 : StronglySorted before (F1 ++ v :: F2) -> (forall x, x ∈ F1 ++ v :: F2 -> 0 < x.2) -> insert_block v (F1 ++ F2) = F1 ++ v :: F2.
Proof.
  intros Hs Hz. induction F1 as [|c F1 IH]; simpl.
  - apply StronglySorted_inv in Hs as [_ Hf]. destruct F2 as [|c F2]; [done|]. inversion_clear Hf as [|? ? Hc _]. unfold before in Hc. pose proof (Hz v ltac:(set_solver)).
    simpl. rewrite (proj2 (Z.ltb_lt v.1 c.1)), (proj2 (Z.eqb_neq (fin v) c.1)) by (unfold fin in *; lia). done.
  - destruct (sorted_mid (c :: F1) v F2 Hs) as (H1 & _). specialize (H1 c ltac:(set_solver)). pose proof (Hz c ltac:(set_solver)). unfold before in H1.
    rewrite (proj2 (Z.ltb_ge v.1 c.1)), (proj2 (Z.eqb_neq (fin c) v.1)) by (unfold fin in *; lia). f_equal.
    apply IH; [by apply StronglySorted_inv in Hs as [Hs _]|]. intros x Hx. apply Hz. set_solver.
Qed.

Lemma insert_part v k F1 F2 : StronglySorted before (F1 ++ v :: F2) -> (forall x, x ∈ F1 ++ v :: F2 -> 0 < x.2) -> 0 < k < v.2 ->
  insert_block (v.1 + 8 * (v.2 - k), k) (F1 ++ (v.1, v.2 - k) :: F2) = F1 ++ v :: F2.
Proof.
  intros Hs Hz Hk. induction F1 as [|c F1 IH]; simpl.
  - apply StronglySorted_inv in Hs as [_ Hf]. rewrite (proj2 (Z.ltb_ge _ v.1)) by lia. change (fin (v.1, v.2 - k)) with (v.1 + 8 * (v.2 - k)). rewrite Z.eqb_refl.
    replace (v.1, v.2 - k + k) with v by (destruct v; simpl; f_equal; lia). unfold join_right. destruct F2 as [|c F2]; [done|]. inversion_clear Hf as [|? ? Hc _].
    unfold before in Hc. by rewrite (proj2 (Z.eqb_neq (fin v) c.1)) by lia.
  - destruct (sorted_mid (c :: F1) v F2 Hs) as (H1 & _). specialize (H1 c ltac:(set_solver)). pose proof (Hz c ltac:(set_solver)). unfold before in H1.
    rewrite (proj2 (Z.ltb_ge _ c.1)), (proj2 (Z.eqb_neq (fin c) _)) by (unfold fin in *; lia). f_equal.
    apply IH; [by apply StronglySorted_inv in Hs as [Hs _]|]. intros x Hx. apply Hz. set_solver.
Qed.

Lemma sorted_replace (L1 : list block) v L2 L' : StronglySorted before (L1 ++ v :: L2) -> (L' = [] \/ exists w, L' = [w] /\ v.1 <= w.1 /\ fin w <= fin v) ->
  StronglySorted before (L1 ++ L' ++ L2).
Proof.
  intros Hs HL. destruct (sorted_mid _ _ _ Hs) as (H1 & H2 & H3). destruct (sorted_tail _ _ Hs) as [Hs1 Hs2]. apply StronglySorted_inv in Hs2 as [Hs2 _].
  destruct HL as [-> |(w & -> & Hw1 & Hw2)]; simpl; [by apply sorted_app|]. apply sorted_app; [done| |].
  - constructor; [done|]. apply Forall_forall. intros x Hx. specialize (H2 x Hx). unfold before in *. lia.
  - intros x y Hx [->|Hy]%elem_of_cons; [|by apply H3]. specialize (H1 x Hx). unfold before in *. lia.
Qed.

Section take.
Context (st : um) (F A : list block) (HH : heap_ok st F A) (F1 : list block) (v : block) (F2 : list block) (EF : F = F1 ++ v :: F2).

Lemma free_not_used u y : u ∈ (um_base st, 0) :: F -> y ∈ A -> u.1 <> y.1.
Proof.
  intros Hu Hy E. destruct (hk_used _ _ _ HH y Hy) as (U1 & U2 & _). apply elem_of_cons in Hu as [->|Hu]; [simpl in E; lia|].
  pose proof (rg_sizes _ _ (hk_ring _ _ _ HH) u Hu). apply (covers_apart _ _ y.1 (hk_apart _ _ _ HH u y Hu Hy)); unfold covers, fin; lia.
Qed.

(** The heap with a part [nb] of the free block [v] in use and the rest [L'], if any, free. *)
Lemma heap_take st' nb L' : kept_env st st' -> ring st' (F1 ++ L' ++ F2) ->
  (L' = [] \/ exists w, L' = [w] /\ 0 < w.2 /\ v.1 <= w.1 /\ fin w <= fin v /\ fin w <= nb.1) ->
  v.1 <= nb.1 -> fin nb <= fin v -> 0 < nb.2 -> h_size (um_hd st' nb.1) = nb.2 ->
  (forall y, y ∈ A -> um_hd st' y.1 = um_hd st y.1) -> heap_ok st' (F1 ++ L' ++ F2) (nb :: A).
Proof.
  intros (K1 & K2 & K3) R HL Hn1 Hn2 Hn3 Hns HA. pose proof HH as [G0 G1 G2 G3 G4 G5 G6]. assert (Hv : v ∈ F) by (rewrite EF; set_solver).
  assert (Hold : forall x, x ∈ F1 ++ L' ++ F2 -> (x ∈ F /\ apart x v) \/ (v.1 <= x.1 /\ fin x <= fin v /\ fin x <= nb.1 /\ 0 < x.2)).
  { intros x Hx. pose proof (rg_sorted _ _ G0) as Hs. rewrite EF in Hs. apply StronglySorted_inv in Hs as [Hs _]. destruct (sorted_mid _ _ _ Hs) as (S1 & S2 & _).
    apply elem_of_app in Hx as [Hx|Hx]; [left; split; [rewrite EF; set_solver|left; specialize (S1 x Hx); unfold before in S1; lia]|].
    apply elem_of_app in Hx as [Hx|Hx]; [|left; split; [rewrite EF; set_solver|right; specialize (S2 x Hx); unfold before in S2; lia]].
    right. destruct HL as [-> |(w & -> & ? & ? & ? & ?)]; [by apply not_elem_of_nil in Hx|]. apply list_elem_of_singleton in Hx as ->. lia. }
  assert (Hpart : forall x y, v.1 <= x.1 -> fin x <= fin v -> y ∈ A -> apart x y) by (intros x y ? ? Hy; destruct (G4 v y Hv Hy); [left|right]; lia).
  destruct (G2 v Hv) as [Hvb Hvk]. split; rewrite ?K1, ?K2, ?K3; [done|done| | | | |done].
  - intros x Hx. destruct (Hold x Hx) as [[Hx' _]|?]; [by apply G2|lia].
  - intros x [->|Hx]%elem_of_cons; [split_and!; [lia|done|lia|done]|]. destruct (G3 x Hx) as (? & ? & ? & ?). rewrite HA by done. done.
  - intros x y Hx Hy. apply elem_of_cons in Hy as [->|Hy].
    + destruct (Hold x Hx) as [[_ [?|?]]|?]; [left; lia|right; lia|left; lia].
    + destruct (Hold x Hx) as [[Hx' _]|(? & ? & _)]; [by apply G4|by apply Hpart].
  - constructor; [|done]. apply Forall_forall. intros y Hy. by apply Hpart.
Qed.
End take.

Lemma adj_split base F u v : adj ((base, 0) :: F) u v -> 0 < v.2 -> exists N1 F1 F2, (base, 0) :: F1 = N1 ++ [u] /\ F = F1 ++ v :: F2.
Proof.
  intros [(N1 & N2 & E)|(N1 & N2 & _ & E)] Hv; [|injection E as <- _; simpl in Hv; lia]. destruct N1 as [|x N1]; simpl in E.
  - injection E as <- ->. by exists [], [], N2.
  - injection E as <- ->. exists ((base, 0) :: N1), (N1 ++ [u]), N2. by rewrite <- app_assoc.
Qed.

(** What [malloc] returns for the part [nb] of a free block. *)
Definition taken (st : um) (F A : list block) (nunits r : Z) (st' : um) : Prop :=
  exists F', heap_ok st' F' ((r - 8, nunits) :: A) /\ insert_block (r - 8, nunits) F' = F /\ um_base st < r /\ kept_env st st' /\ (length F' <= length F)%nat.

Lemma ring_sizes0 st F x : ring st F -> x ∈ (um_base st, 0) :: F -> 0 <= x.2.
Proof. intros R [->|Hx]%elem_of_cons; [done|]. apply (rg_sizes _ _ R) in Hx. lia. Qed.

(** The addresses of a list are different. *)
Lemma sorted_addr (L1 : list block) u L2 x : StronglySorted before (L1 ++ u :: L2) -> (forall y, y ∈ L1 ++ u :: L2 -> 0 <= y.2) -> x ∈ L1 \/ x ∈ L2 -> x.1 <> u.1.
Proof.
  intros Hs Hz Hx. destruct (sorted_mid _ _ _ Hs) as (S1 & S2 & _). pose proof (Hz u ltac:(set_solver)). destruct Hx as [Hx|Hx].
  - specialize (S1 x Hx). pose proof (Hz x ltac:(set_solver)). unfold before, fin in S1. lia.
  - specialize (S2 x Hx). unfold before, fin in S2. lia.
Qed.

Lemma ring_unlink st st' F1 v F2 u N1 : ring st (F1 ++ v :: F2) -> (um_base st, 0) :: F1 = N1 ++ [u] ->
  header_set st st' u.1 (mkHeader (first F2 (um_base st)) u.2) -> ring (mkUm (um_hd st') (um_base st') u.1 (um_brk st') (um_limit st')) (F1 ++ F2).
Proof.
  intros R EN (A1 & A2 & A3 & _). pose proof (fun x => ring_sizes0 st _ x R) as Hz. destruct R as [R1 R2 R3 _].
  assert (EL : (um_base st, 0) :: F1 ++ v :: F2 = N1 ++ u :: v :: F2) by (rewrite app_comm_cons, EN, <- app_assoc; done).
  assert (EL' : (um_base st, 0) :: F1 ++ F2 = N1 ++ u :: F2) by (rewrite app_comm_cons, EN, <- app_assoc; done).
  rewrite EL in R1, R2. apply useg_app in R1 as [Hs1 [_ [_ Hs2]]]. assert (Hz' : forall y, y ∈ N1 ++ u :: v :: F2 -> 0 <= y.2) by (intros y Hy; apply Hz; by rewrite EL).
  split; cbn [um_hd um_base um_freep]; rewrite ?A3, ?EL'.
  - apply useg_app. split; [|split; [done|]]; (eapply useg_ext; [|done]); intros x Hx; rewrite A2; [done| |done|]; apply (sorted_addr _ _ _ _ R2 Hz'); set_solver.
  - rewrite (app_assoc N1 [u] F2 : N1 ++ u :: F2 = _). apply (sorted_replace (N1 ++ [u]) v F2 []); [by rewrite <- app_assoc|by left].
  - intros x Hx. apply R3. set_solver.
  - rewrite map_app. set_solver.
Qed.

Lemma wp_found_exact st F A u v : heap_ok st F A -> adj ((um_base st, 0) :: F) u v -> 0 < v.2 ->
  wp (found v.2 u.1 v.1 v.2) st (taken st F A v.2).
Proof.
  intros H Ha Hv. pose proof (hk_ring _ _ _ H) as R. destruct (adj_split _ _ _ _ Ha Hv) as (N1 & F1 & F2 & EN & EF).
  assert (EL : (um_base st, 0) :: F = N1 ++ u :: v :: F2) by (rewrite EF, app_comm_cons, EN, <- app_assoc; done).
  pose proof (rg_seg _ _ R) as Hs. rewrite EL in Hs. apply useg_app in Hs as [_ [Hu [Hhv _]]].
  pose proof (rg_sorted _ _ R) as Hsort. assert (HuL : u ∈ (um_base st, 0) :: F) by (rewrite EL; set_solver). assert (HvF : v ∈ F) by (rewrite EF; set_solver).
  assert (Hne : v.1 <> u.1).
  { rewrite EL in Hsort. apply (sorted_addr _ _ _ _ Hsort); [intros y Hy; apply (ring_sizes0 _ _ y R); by rewrite EL|set_solver]. }
  unfold found. rewrite Z.eqb_refl. wpb. unfold get_ptr. wp1. rewrite Hhv. cbn [h_ptr]. wpb.
  apply wp_set_ptr. intros st1 HS. rewrite Hu in HS. cbn [h_size] in HS. pose proof HS as (A1 & A2 & A3 & A4 & A5 & A6). apply wp_ret. wpb. apply wp_modify, wp_ret. unfold taken.
  replace (v.1 + sizeof_Header - 8) with v.1 by (unfold sizeof_Header; lia). exists (F1 ++ F2). assert (Hvb : (v.1, v.2) = v) by by destruct v. rewrite Hvb.
  destruct (hk_free _ _ _ H v HvF) as [Hb1 Hb2]. apply StronglySorted_inv in Hsort as [Hsort _]. pose proof (rg_sizes _ _ R) as Hsz.
  split_and!; [|rewrite EF; rewrite EF in Hsort, Hsz; by apply insert_gap|unfold sizeof_Header; lia|by split_and!|rewrite EF, !length_app; simpl; lia].
  apply (heap_take st F A H F1 v F2 EF _ v []); [by split_and!| |by left|lia|lia|done|simpl; by rewrite A2, Hhv|].
  - rewrite EF in R. by apply (ring_unlink st st1 F1 v F2 u N1).
  - intros y Hy. simpl. rewrite A2; [done|]. pose proof (free_not_used st F A H u y HuL Hy). congruence.
Qed.

Lemma ring_shrink st st' F1 v F2 u N1 k a : ring st (F1 ++ v :: F2) -> (um_base st, 0) :: F1 = N1 ++ [u] -> 0 < k < v.2 ->
  um_hd st' v.1 = mkHeader (first F2 (um_base st)) (v.2 - k) -> (forall x, x <> v.1 -> x <> a -> um_hd st' x = um_hd st x) -> v.1 < a < fin v -> um_base st' = um_base st ->
  ring (mkUm (um_hd st') (um_base st') u.1 (um_brk st') (um_limit st')) (F1 ++ (v.1, v.2 - k) :: F2).
Proof.
  intros R EN Hk A1 A2 Ha A3. pose proof (fun x => ring_sizes0 st _ x R) as Hz. destruct R as [R1 R2 R3 _]. rewrite app_comm_cons in R1, R2, Hz.
  pose proof (sorted_mid _ _ _ R2) as (S1 & S2 & _). apply useg_app in R1 as [Hs1 [_ Hs2]].
  assert (Hout : forall x, x ∈ (um_base st, 0) :: F1 \/ x ∈ F2 -> x.1 <> v.1 /\ x.1 <> a).
  { intros x Hx. split; [by apply (sorted_addr _ _ _ _ R2 Hz)|]. pose proof (Hz x) as Hx0. destruct Hx as [Hx|Hx].
    - specialize (S1 x Hx). specialize (Hx0 ltac:(set_solver)). unfold before, fin in *. lia.
    - specialize (S2 x Hx). unfold before, fin in *. lia. }
  split; cbn [um_hd um_base um_freep]; rewrite ?A3.
  - rewrite app_comm_cons. apply useg_app. split; [|split; [done|]]; (eapply useg_ext; [|done]); intros x Hx; destruct (Hout x); auto.
  - rewrite app_comm_cons. apply (sorted_replace _ v F2 [(v.1, v.2 - k)]); [done|]. right. eexists. split_and!; [done|done|unfold fin; simpl; lia].
  - intros x Hx. apply elem_of_app in Hx as [Hx|[->|Hx]%elem_of_cons]; [apply R3; set_solver|simpl; lia|apply R3; set_solver].
  - rewrite app_comm_cons, EN, !map_app. set_solver.
Qed.

Lemma wp_found_part st F A u v k : heap_ok st F A -> adj ((um_base st, 0) :: F) u v -> 0 < k < v.2 ->
  wp (found k u.1 v.1 v.2) st (taken st F A k).
Proof.
  intros H Ha Hk. pose proof (hk_ring _ _ _ H) as R. destruct (adj_split _ _ _ _ Ha ltac:(lia)) as (N1 & F1 & F2 & EN & EF).
  pose proof (rg_seg _ _ R) as Hs. rewrite EF, app_comm_cons in Hs. apply useg_app in Hs as [_ [Hhv _]]. assert (HvF : v ∈ F) by (rewrite EF; set_solver).
  pose proof (rg_sorted _ _ R) as Hsort. apply StronglySorted_inv in Hsort as [Hsort _]. pose proof (rg_sizes _ _ R) as Hsz.
  destruct (hk_free _ _ _ H v HvF) as [Hb1 Hb2]. pose proof (hk_brk _ _ _ H) as Hbrk. pose proof (hk_base _ _ _ H) as Hb0. pose proof (heap_block_free _ _ _ _ H HvF) as (_ & _ & Hw).
  unfold found. rewrite (proj2 (Z.eqb_neq v.2 k)) by lia. wpb. wpb. apply wp_set_size. intros st1 (A1 & A2 & A3 & A4 & A5 & A6). rewrite Hhv in A1. cbn [h_ptr] in A1. cbv zeta.
  change (sizeof_Header * (v.2 - k)) with (8 * (v.2 - k)). rewrite uint32_small by (unfold fin in *; lia). set (a := v.1 + 8 * (v.2 - k)). wpb.
  apply wp_set_size. intros st2 (B1 & B2 & B3 & B4 & B5 & B6). apply wp_ret. wpb. apply wp_modify, wp_ret. unfold taken. assert (Hav : v.1 < a < fin v) by (unfold a, fin; lia).
  replace (a + sizeof_Header - 8) with a by (unfold sizeof_Header; lia). exists (F1 ++ (v.1, v.2 - k) :: F2).
  split_and!; [|rewrite EF; rewrite EF in Hsort, Hsz; by apply insert_part|unfold sizeof_Header; lia|unfold kept_env; simpl; split_and!; congruence|rewrite EF, !length_app; simpl; lia].
  apply (heap_take st F A H F1 v F2 EF _ (a, k) [(v.1, v.2 - k)]); [unfold kept_env; simpl; split_and!; congruence| | |simpl; lia|unfold fin, a; simpl; lia|simpl; lia|simpl; by rewrite B1|].
  - rewrite EF in R. apply (ring_shrink st st2 F1 v F2 u N1 k a); [done|done|done| | |done|congruence]; [by rewrite B2, A1 by lia|]. intros x Hx1 Hx2. by rewrite B2, A2.
  - right. eexists. split_and!; [done|unfold fin, a; simpl; lia..].
  - intros y Hy. pose proof (free_not_used st F A H v y ltac:(set_solver) Hy). simpl. rewrite B2, A2; [done|congruence|]. intros E. destruct (hk_used _ _ _ H y Hy) as (U1 & U2 & _).
    apply (covers_apart _ _ y.1 (hk_apart _ _ _ H v y HvF Hy)); unfold covers, fin in *; lia.
Qed.

(** ** malloc: more memory from the kernel *)

Lemma join_big b L : (forall x, x ∈ L -> 0 <= x.2) -> exists x, x ∈ join_right b L /\ b.2 <= x.2.
Proof.
  intros Hz. unfold join_right. destruct L as [|c L]; [exists b; set_solver|]. specialize (Hz c ltac:(set_solver)).
  destruct (_ =? _); [exists (b.1, b.2 + c.2); simpl; split; [set_solver|lia]|exists b; set_solver].
Qed.

Lemma insert_big b L : (forall x, x ∈ L -> 0 <= x.2) -> exists x, x ∈ insert_block b L /\ b.2 <= x.2.
Proof.
  intros Hz. induction L as [|c L IH]; cbn [insert_block]; [exists b; set_solver|]. destruct (_ <? _); [by apply join_big|]. destruct (_ =? _).
  - destruct (join_big (c.1, c.2 + b.2) L) as (x & Hx & Hb); [intros; apply Hz; set_solver|]. specialize (Hz c ltac:(set_solver)). simpl in Hb. exists x. split; [done|lia].
  - destruct IH as (x & Hx & Hb); [intros; apply Hz; set_solver|]. exists x. set_solver.
Qed.

Lemma insert_length b L : (length (insert_block b L) <= S (length L))%nat.
Proof.
  induction L as [|c L IH]; cbn [insert_block]; [simpl; lia|]. unfold join_right. destruct (_ <? _); [destruct (_ =? _); simpl; lia|].
  destruct (_ =? _); [destruct L as [|d L]; [simpl; lia|destruct (_ =? _); simpl; lia]|simpl; lia].
Qed.

(** What the kernel is asked for. *)
Definition core_units (nunits : Z) : Z := Z.max nunits 4096.

Lemma heap_extend st F A n : heap_ok st F A -> 0 <= n -> um_brk st + n <= um_limit st ->
  heap_ok (mkUm (um_hd st) (um_base st) (um_freep st) (um_brk st + n) (um_limit st)) F A.
Proof.
  intros [[R1 R2 R3 R4] G1 G2 G3 G4 G5 G6] Hn Hl. split; simpl; [by split|done| | |done|done|lia].
  - intros x Hx. destruct (G2 x Hx). lia.
  - intros x Hx. destruct (G3 x Hx) as (? & ? & ? & ?). split_and!; [done|done|lia|done].
Qed.

Lemma wp_morecore ff st F A nu : heap_ok st F A -> 0 < nu -> 8 * core_units nu < 2147483648 -> (length F + 3 < ff)%nat ->
  wp (morecore ff nu) st (fun r st' =>
    if um_brk st + 8 * core_units nu <=? um_limit st then
      r = um_freep st' /\ r <> 0 /\ heap_ok st' (insert_block (um_brk st, core_units nu) F) A /\ um_base st' = um_base st
    else r = 0 /\ st' = st).
Proof.
  intros H Hnu Hmax Hf. pose proof (hk_base _ _ _ H) as Hb0. pose proof (hk_brk _ _ _ H) as Hbrk. unfold morecore. set (n := core_units nu) in *.
  replace (if nu <? 4096 then 4096 else nu) with n by (unfold n, core_units; destruct (Z.ltb_spec nu 4096); lia). assert (Hn : 4096 <= n) by (unfold n, core_units; lia).
  wpb. unfold sbrk, wp at 1. change (n * sizeof_Header) with (n * 8). rewrite uint32_small by (unfold W32; lia). rewrite int32_small by lia.
  rewrite (proj2 (Z.ltb_lt 0 (n * 8))) by lia. replace (n * 8) with (8 * n) by lia. destruct (Z.leb_spec (um_brk st + 8 * n) (um_limit st)) as [Hl|Hl]; [|by split].
  rewrite (proj2 (Z.eqb_neq (um_brk st) (-1))) by lia. pose proof (heap_extend st F A (8 * n) H ltac:(lia) Hl) as H1. set (st1 := mkUm _ _ _ _ _) in *. wpb.
  apply wp_set_size. intros st2 (A1 & A2 & A3 & A4 & A5 & A6).
  assert (Hfar : forall x, x ∈ F \/ x ∈ A -> fin x <= um_brk st /\ x.1 <> um_brk st).
  { intros x [Hx|Hx]; [destruct (hk_free _ _ _ H x Hx); pose proof (rg_sizes _ _ (hk_ring _ _ _ H) x Hx)|destruct (hk_used _ _ _ H x Hx) as (? & ? & ? & ?)]; unfold fin in *; lia. }
  assert (H2 : heap_ok st2 F A).
  { destruct H1 as [[R1 R2 R3 R4] G1 G2 G3 G4 G5 G6]. split; rewrite ?A3, ?A5, ?A6; [|done|done| |done|done|done].
    - split; rewrite ?A3, ?A4; [|done|done|done]. eapply useg_ext; [|exact R1]. intros x [->|Hx]%elem_of_cons; apply A2; [simpl; lia|]. apply Hfar. by left.
    - intros x Hx. rewrite A2; [by apply G3|]. apply Hfar. by right. }
  wpb. change (um_brk st + sizeof_Header) with ((um_brk st, n).1 + 8).
  eapply wp_mono; [|apply (wp_free_heap ff st2 F A (um_brk st, n) H2); rewrite ?A3, ?A5; simpl; [lia|lia|unfold fin; simpl; lia|by rewrite A1| | |done]].
  - intros [] st3 [H3 (K1 & _)]. unfold wp, gets. split_and!; [done| |done|by rewrite K1, A3]. pose proof (rg_freep _ _ (hk_ring _ _ _ H3)) as Hfr. pose proof (hk_base _ _ _ H3).
    apply list_elem_of_fmap in Hfr as (x & -> & Hx). apply elem_of_cons in Hx as [->|Hx]; [simpl; lia|]. destruct (hk_free _ _ _ H3 x Hx). lia.
  - intros x Hx. left. simpl. by apply Hfar; left.
  - intros y Hy. right. simpl. by apply Hfar; right.
Qed.

(** One tour of the list from [freep]. *)
Lemma scan_once ff fuel st F A nunits : heap_ok st F A -> 0 < nunits -> (length F + 1 < fuel)%nat ->
  wp (p ← get_ptr (um_freep st); malloc_loop ff fuel nunits (um_freep st) p) st (taken st F A nunits) \/
  ((forall x, x ∈ F -> x.2 < nunits) /\ exists k, (k + (length F + 1) = fuel)%nat /\
    (p ← get_ptr (um_freep st); malloc_loop ff fuel nunits (um_freep st) p) st = grow ff k nunits st).
Proof.
  intros H Hn Hf. pose proof (hk_ring _ _ _ H) as R. pose proof (fun x => ring_sizes0 st F x R) as Hz. destruct R as [R1 R2 R3 R4].
  apply list_elem_of_fmap in R4 as (f & Ef & Hf'). apply list_elem_of_split in Hf' as (M1 & M2 & EL). set (V := M2 ++ M1 ++ [f]).
  assert (Hp : path ((um_base st, 0) :: F) f V) by (rewrite EL; apply path_around). assert (HV : V <> []) by (unfold V; destruct M2, M1; done).
  assert (Hlen : length V = (length F + 1)%nat) by (unfold V; rewrite !length_app; apply (f_equal length) in EL; rewrite length_app in EL; simpl in *; lia).
  assert (Hinv : forall v, v ∈ V <-> v ∈ (um_base st, 0) :: F) by (intros v; rewrite EL; unfold V; set_solver).
  assert (Hptr : h_ptr (um_hd st f.1) = first V 0).
  { destruct (list_case V) as [E|(w & V' & E)]; [done|]. rewrite E in Hp |- *. destruct Hp as [Ha _]. by apply (adj_ptr _ _ _ _ _ R1). }
  assert (Hlast : forall V1 v V2, V = V1 ++ v :: V2 -> v.1 = um_freep st <-> V2 = []).
  { intros V1 v V2 E. rewrite Ef. split.
    - intros Ev. destruct V2 as [|w V2 _] using rev_ind; [done|]. exfalso. rewrite EL in R2, Hz. apply (sorted_addr _ _ _ v R2 Hz); [|done].
      unfold V in E. rewrite app_comm_cons, !app_assoc in E. apply app_inj_tail in E as [E _]. assert (v ∈ M2 ++ M1) by (rewrite E; set_solver). set_solver.
    - intros ->. unfold V in E. rewrite app_assoc in E. by apply app_inj_tail in E as [_ ->]. }
  destruct (scan ff nunits st _ V fuel f R1 eq_refl Hp (fun v Hv => proj1 (Hinv v) Hv) HV Hlast) as [(u & v & Ha & Hv & Hge & E)|[Hall (k & Hk & E)]]; [lia| |].
  - left. apply wp_gets_bind. rewrite Ef, Hptr. unfold wp. rewrite E. fold (wp (found nunits u.1 v.1 v.2) st (taken st F A nunits)).
    destruct (decide (nunits = v.2)) as [->|Hne]; [by apply wp_found_exact|]. apply wp_found_part; [done|done|lia].
  - right. split; [intros x Hx; apply Hall, Hinv; set_solver|]. exists k. split; [lia|]. unfold get_ptr, mbind, M_bind, gets. cbn [obind]. by rewrite Ef, Hptr.
Qed.

(** ** The theorems *)

(** Before the first call [freep] is null. *)
Definition ready (st : um) (F A : list block) : Prop :=
  heap_ok st F A \/ (um_freep st = 0 /\ F = [] /\ A = [] /\ 0 < um_base st /\ um_base st + 8 <= um_brk st <= um_limit st /\ um_limit st <= KERNBASE).

(** The units of a block for [nbytes] bytes, its header included. *)
Definition units (nbytes : Z) : Z := (nbytes + 7) / 8 + 1.

Lemma units_enough nbytes : 0 <= nbytes -> nbytes <= 8 * (units nbytes - 1) < nbytes + 8.
Proof. intros H. unfold units. pose proof (Z.div_mod (nbytes + 7) 8 ltac:(done)). pose proof (Z.mod_pos_bound (nbytes + 7) 8 ltac:(done)). lia. Qed.

Definition malloc_result (st : um) (F A : list block) (nu r : Z) (st' : um) : Prop :=
  (r = 0 /\ heap_ok st' F A /\ (forall x, x ∈ F -> x.2 < nu) /\ um_limit st < um_brk st + 8 * core_units nu) \/
  (r <> 0 /\ exists F', heap_ok st' F' ((r - 8, nu) :: A) /\ (length F' <= S (length F))%nat /\
     (insert_block (r - 8, nu) F' = F \/ insert_block (r - 8, nu) F' = insert_block (um_brk st, core_units nu) F)).

Lemma wp_malloc_tour fuel st F A nu : heap_ok st F A -> 0 < nu -> 8 * core_units nu < 2147483648 -> (2 * length F + 6 < fuel)%nat ->
  wp (p ← get_ptr (um_freep st); malloc_loop fuel fuel nu (um_freep st) p) st (malloc_result st F A nu).
Proof.
  intros H Hnu Hmax Hf. pose proof (hk_base _ _ _ H) as Hb. destruct (scan_once fuel fuel st F A nu H Hnu ltac:(lia)) as [Ht|[Hsmall (k & Hk & E)]].
  - eapply wp_mono; [|exact Ht]. intros r st' (F' & H1 & H2 & H3 & _ & H5). right. split; [lia|]. exists F'. split_and!; [done|lia|by left].
  - unfold wp at 1. rewrite E. fold (wp (grow fuel k nu) st (malloc_result st F A nu)). unfold grow. wpb.
    eapply wp_mono; [|apply (wp_morecore fuel st F A nu); [done|done|done|lia]]. intros r st1.
    destruct (Z.leb_spec (um_brk st + 8 * core_units nu) (um_limit st)) as [Hl|Hl].
    + intros (-> & Hr & H1 & Eb). rewrite (proj2 (Z.eqb_neq _ 0)) by done. set (F1 := insert_block _ F) in *. pose proof (insert_length (um_brk st, core_units nu) F) as Hlen. fold F1 in Hlen.
      destruct (scan_once fuel k st1 F1 A nu H1 Hnu ltac:(lia)) as [Ht|[Hsmall1 _]].
      * eapply wp_mono; [|exact Ht]. intros r st' (F' & G1 & G2 & G3 & _ & G5). right. split; [lia|]. exists F'. split_and!; [done|lia|by right].
      * exfalso. destruct (insert_big (um_brk st, core_units nu) F) as (x & Hx & Hge); [intros y Hy; apply (rg_sizes _ _ (hk_ring _ _ _ H)) in Hy; lia|].
        specialize (Hsmall1 x Hx). unfold core_units in *. simpl in Hge. lia.
    + intros [-> ->]. apply wp_ret. left. split_and!; [done|done|done|lia].
Qed.

Lemma wp_malloc fuel st F A nbytes : ready st F A -> 0 <= nbytes < 2147483632 -> (2 * length F + 6 < fuel)%nat ->
  wp (malloc fuel nbytes) st (malloc_result st F A (units nbytes)).
Proof.
  intros Hr Hn Hf. unfold malloc. replace (uint32 (nbytes + sizeof_Header - 1) / sizeof_Header + 1) with (units nbytes)
    by (unfold sizeof_Header; rewrite uint32_small by (unfold W32; lia); unfold units; do 2 f_equal; lia).
  pose proof (units_enough nbytes ltac:(lia)) as Hu. assert (Hmax : 0 < units nbytes /\ 8 * core_units (units nbytes) < 2147483648) by (unfold core_units; lia).
  wp1. destruct Hr as [H|(E0 & -> & -> & Hb & Hbrk & Hl)].
  - assert (Hfp : um_freep st <> 0).
    { pose proof (rg_freep _ _ (hk_ring _ _ _ H)) as Hfr. pose proof (hk_base _ _ _ H). apply list_elem_of_fmap in Hfr as (x & -> & Hx).
      apply elem_of_cons in Hx as [->|Hx]; [simpl; lia|]. destruct (hk_free _ _ _ H x Hx). lia. }
    rewrite (proj2 (Z.eqb_neq _ 0)) by done. wp1. apply wp_malloc_tour; [done|lia|lia|done].
  - rewrite E0. cbn [Z.eqb]. wpb. wp1. wpb. apply wp_modify. wpb. apply wp_set_ptr. intros st1 HS1. wpb. apply wp_set_size. intros st2 HS2. apply wp_ret.
    pose proof HS1 as (A1 & A2 & A3 & A4 & A5 & A6). pose proof HS2 as (B1 & B2 & B3 & B4 & B5 & B6). simpl in *. rewrite A1 in B1. simpl in B1.
    assert (H : heap_ok st2 [] []).
    { split; rewrite ?B3, ?A3, ?B5, ?A5, ?B6, ?A6; [|done|by intros x ?%not_elem_of_nil|by intros x ?%not_elem_of_nil|by intros x y ?%not_elem_of_nil|constructor|done].
      split; rewrite ?B3, ?A3, ?B4, ?A4; [done|repeat constructor|by intros x ?%not_elem_of_nil|set_solver]. }
    replace (um_base st) with (um_freep st2) by congruence.
    eapply wp_mono; [|apply (wp_malloc_tour fuel st2 [] [] (units nbytes) H); [lia|lia|done]]. unfold malloc_result. by rewrite B5, A5, B6, A6.
Qed.

(** A request of almost 4 Gbytes wraps to a block of one unit, which has no room for a single byte. *)
Lemma malloc_wraps fuel st F A nbytes : ready st F A -> 4294967289 <= nbytes < W32 -> (2 * length F + 6 < fuel)%nat ->
  wp (malloc fuel nbytes) st (malloc_result st F A 1).
Proof.
  intros Hr Hn Hf. replace (malloc fuel nbytes) with (malloc fuel 0); [exact (wp_malloc fuel st F A 0 Hr ltac:(lia) Hf)|]. unfold malloc. f_equal.
  replace (uint32 (nbytes + sizeof_Header - 1)) with (nbytes + 7 - W32); [|unfold sizeof_Header, uint32; apply (Z.mod_unique _ _ 1); unfold W32 in *; lia].
  by rewrite (Z.div_small (nbytes + 7 - W32)) by (unfold sizeof_Header, W32 in *; lia).
Qed.

(** C37: [malloc] of fewer than 2147483632 bytes, on a heap with free blocks [F] and blocks in use [A], either returns null, when no free block is large enough and the kernel has not the
    memory, and changes neither list; or it returns a block with room for the bytes asked for, which overlaps no block in use, and the heap stays well formed:
    the list sorted, circular and without adjacent blocks, the headers of the blocks in use as they were.  (Of a block the model has the header; the bytes of the program are not modelled.)
    A request of 4294967289 bytes or more wraps around when it is rounded up: it is answered with null or with a block of one unit, the header alone.
    Sizes in between, which [sbrk] takes for negative numbers, are not covered. *)
Theorem malloc_allocates fuel st F A nbytes : ready st F A -> 0 <= nbytes < 2147483632 -> (2 * length F + 6 < fuel)%nat ->
  wp (malloc fuel nbytes) st (fun r st' =>
    (r = 0 /\ heap_ok st' F A /\ (forall x, x ∈ F -> x.2 < units nbytes) /\ um_limit st < um_brk st + 8 * core_units (units nbytes)) \/
    (r <> 0 /\ exists F' n, nbytes <= 8 * n /\ heap_ok st' F' ((r - 8, n + 1) :: A) /\ forall y, y ∈ A -> fin y <= r - 8 \/ r + 8 * n <= y.1)) /\
  (forall big, 4294967289 <= big < W32 ->
    wp (malloc fuel big) st (fun r st' => (r = 0 /\ heap_ok st' F A) \/ (r <> 0 /\ exists F', heap_ok st' F' ((r - 8, 1) :: A)))).
Proof.
  intros Hr Hn Hf. split.
  - eapply wp_mono; [|by apply (wp_malloc fuel st F A nbytes)]. intros r st' [?|(Hr0 & F' & H & _)]; [by left|right]. split; [done|].
    exists F', (units nbytes - 1). rewrite Z.sub_add. split_and!; [apply units_enough; lia|done|]. intros y Hy. pose proof (hk_pairs _ _ _ H) as Hp. inversion_clear Hp as [|? ? Hall _].
    rewrite Forall_forall in Hall. destruct (Hall y Hy) as [Ha|Ha]; unfold fin in *; simpl in *; lia.
  - intros big Hb. eapply wp_mono; [|by apply (malloc_wraps fuel st F A big)]. intros r st' [(-> & H & _)|(Hr0 & F' & H & _)]; [by left|right; by eauto].
Qed.

(** [free] of a block in use gives back exactly that block: the free bytes are the old ones and those of the block, the heap stays well formed and the other
    blocks in use keep their headers. *)
Theorem free_releases fuel st F A A' ap n : heap_ok st F A -> A ≡ₚ (ap - 8, n) :: A' -> (length F + 3 < fuel)%nat ->
  wp (free fuel ap) st (fun _ st' => exists F', heap_ok st' F' A' /\
    forall a, (exists x, x ∈ F' /\ covers x a) <-> (covers (ap - 8, n) a \/ exists x, x ∈ F /\ covers x a)).
Proof.
  intros H Hp Hf. apply (heap_perm _ _ _ _ Hp) in H. set (b := (ap - 8, n)). destruct (hk_used _ _ _ H b ltac:(set_solver)) as (U1 & U2 & U3 & U4).
  pose proof (hk_pairs _ _ _ H) as Hpairs. inversion_clear Hpairs as [|? ? Hall Hrest]. rewrite Forall_forall in Hall.
  assert (H' : heap_ok st F A') by (destruct H as [? ? ? G3 G4 ? ?]; split; [done|done|done|intros; apply G3; set_solver|intros; apply G4; set_solver|done|done]).
  replace ap with (b.1 + 8) by (simpl; lia).
  eapply wp_mono; [|apply (wp_free_heap fuel st F A' b H'); [done|done|done|done|intros x Hx; apply (hk_apart _ _ _ H); set_solver|intros y Hy; by apply Hall|done]].
  intros [] st' [H1 _]. exists (insert_block b F). split; [done|]. pose proof (rg_sizes _ _ (hk_ring _ _ _ H)) as Hsz.
  assert (Hz : forall x, x ∈ F -> 0 <= x.2) by (intros x Hx; specialize (Hsz x Hx); lia). intros a. split.
  - intros (x & Hx & Hc). destruct (insert_covers _ _ _ _ Hx Hc) as [?|?]; [left|by right]. by simpl in *; replace (ap - 8 + 8 - 8) with (ap - 8) in * by lia.
  - intros [Hc|(x & Hx & Hc)]; [apply (insert_covers_back b F b a); [lia|done|by left|done]|apply (insert_covers_back b F x a); [lia|done|by right|done]].
Qed.

(** a block that is allocated and freed again leaves the free list as it was, every split undone by the joins of [free]; only where the kernel
    had to be asked, the list has that memory more. *)
Theorem malloc_free_restores fuel st F A nbytes : ready st F A -> 0 <= nbytes < 2147483632 -> (2 * length F + 6 < fuel)%nat ->
  wp (r ← malloc fuel nbytes; if r =? 0 then mret tt else free fuel r) st (fun _ st' =>
    heap_ok st' F A \/ heap_ok st' (insert_block (um_brk st, core_units (units nbytes)) F) A).
Proof.
  intros Hr Hn Hf. apply (wp_bind (S := um)). eapply wp_mono; [|by apply (wp_malloc fuel st F A nbytes)].
  intros r st' [(-> & H & _)|(Hr0 & F' & H & Hlen & Hins)]; [apply wp_ret; by left|]. rewrite (proj2 (Z.eqb_neq r 0)) by done. set (b := (r - 8, units nbytes)) in *.
  destruct (hk_used _ _ _ H b ltac:(set_solver)) as (U1 & U2 & U3 & U4). pose proof (hk_pairs _ _ _ H) as Hpairs. inversion_clear Hpairs as [|? ? Hall Hrest]. rewrite Forall_forall in Hall.
  assert (H' : heap_ok st' F' A) by (destruct H as [? ? ? G3 G4 ? ?]; split; [done|done|done|intros; apply G3; set_solver|intros; apply G4; set_solver|done|done]).
  replace r with (b.1 + 8) by (simpl; lia).
  eapply wp_mono; [|apply (wp_free_heap fuel st' F' A b H'); [done|done|done|done|intros x Hx; apply (hk_apart _ _ _ H); set_solver|intros y Hy; by apply Hall|lia]].
  intros [] st2 [H2 _]. destruct Hins as [E|E]; rewrite E in H2; auto.
Qed.

(** ** Example: a program with its break at 16384 that may grow to 1 Mbyte *)
Module Small.
Definition state : um := mkUm (fun _ => mkHeader 0 0) 4096 0 16384 1048576.

Lemma state_ready : ready state [] [].
Proof. right. split_and!; vm_compute; reflexivity || discriminate. Qed.

(** The heap after the first [malloc] of 20 bytes: four of the 4096 units are in use. *)
Definition after : um := match malloc 20 20 state with Done _ s => s | _ => state end.

Lemma after_ok : heap_ok after [(16384, 4092)] [(49120, 4)].
Proof.
  split.
  - split; [vm_compute; done| | |].
    + repeat constructor.
    + intros b ->%list_elem_of_singleton. done.
    + apply list_elem_of_In. vm_compute. auto.
  - done.
  - intros x ->%list_elem_of_singleton. vm_compute. split; discriminate.
  - intros x ->%list_elem_of_singleton. vm_compute. split_and!; done || discriminate.
  - intros x y ->%list_elem_of_singleton ->%list_elem_of_singleton. left. vm_compute. discriminate.
  - repeat constructor.
  - vm_compute. split_and!; discriminate.
Qed.
End Small.

(** Asked for 2 Gbytes, [sbrk] is called with a negative number that it ignores: [malloc] returns the break, where there is no memory. *)
Example malloc_of_2G : exists st', malloc 20 2147483648 Small.state = Done 16392 st' /\ um_brk st' = 16384.
Proof. eexists. split; vm_compute; reflexivity. Qed.

Lemma malloc_allocates_witness :
  wp (malloc 20 20) Small.state (fun r st' => r <> 0 /\ exists F' n, 20 <= 8 * n /\ heap_ok st' F' ((r - 8, n + 1) :: [])).
Proof.
  refine (wp_mono _ _ _ _ _ (proj1 (malloc_allocates 20 Small.state [] [] 20 Small.state_ready _ _))); [|lia|simpl; lia].
  intros r st' [(_ & _ & _ & H)|(Hr & F' & n & Hn & H & _)]; [exfalso; revert H; vm_compute; discriminate|]. split; [exact Hr|]. exists F', n. split; [exact Hn|exact H].
Defined.

Lemma free_releases_witness : wp (free 20 49128) Small.after (fun _ st' => exists F', heap_ok st' F' []).
Proof.
  refine (wp_mono _ _ _ _ _ (free_releases 20 Small.after [(16384, 4092)] [(49120, 4)] [] 49128 4 Small.after_ok (Permutation_refl _) _)); [|simpl; lia].
  intros r st' (F' & H & _). exists F'. exact H.
Defined.

Lemma malloc_free_restores_witness :
  wp (r ← malloc 20 100; if r =? 0 then mret tt else free 20 r) Small.after (fun _ st' => heap_ok st' [(16384, 4092)] [(49120, 4)] \/
    heap_ok st' (insert_block (um_brk Small.after, core_units (units 100)) [(16384, 4092)]) [(49120, 4)]).
Proof.
  exact (malloc_free_restores 20 Small.after [(16384, 4092)] [(49120, 4)] 100 (or_introl Small.after_ok) ltac:(lia) ltac:(simpl; lia)).
Defined.
