(* ===== verification/User.v ===== *)
(** * ulib.c, printf.c, and what wc.c and ls.c do to their input

    Strings are NUL-terminated bytes in memory, or the list of their bytes where
    the code only walks along them; what is printed is the list of bytes.  The
    system calls the programs make are in Programs.v.

    Shown: [strcmp] decides equality; [gets] returns the next line; [atoi] reads
    what [printf] prints; the counters of wc count lines, words and bytes. *)

From S2P Require Import Prelude CString Shell.

(** ** ulib.c *)

Fixpoint strcpy_loop (fuel : nat) (m : mem) (s : Z) (mt : mem) (t : Z) : option mem :=
  match fuel with
  | O => None
  | S k =>
      let m := upd m s (mt t) in
      if mt t =? 0 then Some m else strcpy_loop k m (s + 1) mt (t + 1)
  end.
Definition strcpy (fuel : nat) (m : mem) (s : Z) (mt : mem) (t : Z) : option mem := strcpy_loop fuel m s mt t.

Fixpoint strcmp (fuel : nat) (mp : mem) (p : Z) (mq : mem) (q : Z) : option Z :=
  match fuel with
  | O => None
  | S k =>
      if negb (mp p =? 0) && (mp p =? mq q) then strcmp k mp (p + 1) mq (q + 1)
      else Some (byte8 (mp p) - byte8 (mq q))
  end.

(** Null where the character is not in the string. *)
Fixpoint strchr_mem (fuel : nat) (m : mem) (s c : Z) : option Z :=
  match fuel with
  | O => None
  | S k => if m s =? 0 then Some 0 else if m s =? c then Some s else strchr_mem k m (s + 1) c
  end.

(** [i] characters are in [buf] (newest first); [input] is what standard input still holds. *)
Fixpoint gets_loop (fuel : nat) (max : Z) (input buf : list Z) : option (list Z * list Z) :=
  match fuel with
  | O => None
  | S k =>
      if Z.of_nat (length buf) + 1 <? max then
        match input with
        | [] => Some (rev buf, [])
        | c :: input =>
            if (c =? 10) || (c =? 13) then Some (rev (c :: buf), input) else gets_loop k max input (c :: buf)
        end
      else Some (rev buf, input)
  end.

(** The string left in the buffer, and the input left. *)
Definition gets_line (max : Z) (input : list Z) : option (list Z * list Z) := gets_loop (S (length input)) max input [].

Fixpoint atoi_loop (s : list Z) (n : Z) : Z :=
  match s with
  | c :: s' => if (48 <=? c) && (c <=? 57) then atoi_loop s' (int32 (n * 10 + c - 48)) else n
  | [] => n
  end.
Definition atoi (s : list Z) : Z := atoi_loop s 0.

(** The copy goes up, whatever the overlap. *)
Definition umemmove (m : mem) (dst src n : Z) : mem := copy_up (Z.to_nat n) m dst src.

Definition umemset (m : mem) (dst c n : Z) : mem := stosb m dst c n.

(** ** printf.c *)

Definition udigit (d : Z) : Z := if d <? 10 then 48 + d else 55 + d.

(** [buf], from the least significant digit on. *)
Fixpoint udigits (fuel : nat) (x base : Z) : list Z :=
  match fuel with
  | O => []
  | S k => udigit (x mod base) :: (if x / base =? 0 then [] else udigits k (x / base) base)
  end.

Definition uprintint (xx base : Z) (sgn : bool) : list Z :=
  let neg := sgn && (xx <? 0) in
  let x := if neg then uint32 (- xx) else uint32 xx in
  let buf := udigits 32 x base in
  rev (if neg then buf ++ [45] else buf).

Inductive uarg : Type := UInt (z : Z) | UStr (s : option (list Z)).

Definition null_text : list Z := [40; 110; 117; 108; 108; 41].

(** [pct] is the state after a percent sign; an argument that is missing or of another type is undefined. *)
Fixpoint printf_loop (pct : bool) (fmt : list Z) (args : list uarg) : option (list Z) :=
  match fmt with
  | [] => Some []
  | c :: fmt =>
      if negb pct then
        if c =? 37 then printf_loop true fmt args else r ← printf_loop false fmt args; Some (c :: r)
      else if c =? 100 then
        match args with
        | UInt z :: args => r ← printf_loop false fmt args; Some (uprintint (int32 z) 10 true ++ r)
        | _ => None
        end
      else if (c =? 120) || (c =? 112) then
        match args with
        | UInt z :: args => r ← printf_loop false fmt args; Some (uprintint (int32 z) 16 false ++ r)
        | _ => None
        end
      else if c =? 115 then
        match args with
        | UStr s :: args => r ← printf_loop false fmt args; Some (default null_text s ++ r)
        | _ => None
        end
      else if c =? 99 then
        match args with
        | UInt z :: args => r ← printf_loop false fmt args; Some (byte8 z :: r)
        | _ => None
        end
      else if c =? 37 then r ← printf_loop false fmt args; Some (c :: r)
      else r ← printf_loop false fmt args; Some (37 :: c :: r)
  end.

Definition uprintf (fmt : list Z) (args : list uarg) : option (list Z) := printf_loop false fmt args.

(** ** wc.c *)

Record counts : Type := mkCounts { wc_l : Z; wc_w : Z; wc_c : Z; wc_inword : bool }.

Definition wc_space : list Z := [32; 13; 9; 10; 11].

Definition wc_char (s : counts) (b : Z) : counts :=
  let c := wc_c s + 1 in
  let l := if b =? 10 then wc_l s + 1 else wc_l s in
  if strchr wc_space b then mkCounts l (wc_w s) c false
  else if negb (wc_inword s) then mkCounts l (wc_w s + 1) c true
  else mkCounts l (wc_w s) c (wc_inword s).

(** ** ls.c *)

Definition DIRSIZ_ls : nat := 14.

(** The loop back from the end of the path, which is given in reverse: the text after the last slash. *)
Fixpoint name_loop (path acc : list Z) : list Z :=
  match path with
  | [] => acc
  | c :: path => if c =? 47 then acc else name_loop path (c :: acc)
  end.

Definition fmtname (path : list Z) : list Z :=
  let p := name_loop (rev path) [] in
  if (DIRSIZ_ls <=? length p)%nat then p else p ++ replicate (DIRSIZ_ls - length p) 32.

(** ** Strings *)

Lemma string_cons m p c l : string_at m p (c :: l) <-> c <> 0 /\ m p = c /\ string_at m (p + 1) l.
Proof.
  unfold string_at. split.
  - intros [H1 H2]. destruct (H1 0%nat c eq_refl) as [Hc Hm]. rewrite Z.add_0_r in Hm. split_and!; [done|done| |].
    + intros i x Hi. replace (p + 1 + Z.of_nat i) with (p + Z.of_nat (S i)) by lia. by apply H1.
    + rewrite <- H2. f_equal. simpl. lia.
  - intros (Hc & Hm & H1 & H2). split.
    + intros [|i] x; simpl; [intros [= <-]; split; [done|]; by rewrite Z.add_0_r|]. intros Hi. destruct (H1 i x Hi) as [Hx Hy]. split; [done|]. rewrite <- Hy. f_equal. lia.
    + rewrite <- H2. f_equal. simpl. lia.
Qed.

Lemma string_nil m p : string_at m p [] -> m p = 0.
Proof. intros [_ H]. by rewrite Z.add_0_r in H. Qed.

(** The difference of the first bytes that differ, the end of a string counting as 0. *)
Fixpoint first_diff (l l' : list Z) : Z :=
  match l, l' with
  | a :: r, b :: r' => if a =? b then first_diff r r' else a - b
  | a :: _, [] => a
  | [], b :: _ => - b
  | [], [] => 0
  end.

Definition text (l : list Z) : Prop := Forall (fun c => 0 < c < 256) l.

Lemma first_diff_eq l : forall l', text l -> text l' -> first_diff l l' = 0 <-> l = l'.
Proof.
  induction l as [|a l IH]; intros [|b l'] Hl Hl'; simpl; [done| | |].
  - inversion_clear Hl'. split; [lia|done].
  - inversion_clear Hl. split; [lia|done].
  - inversion_clear Hl. inversion_clear Hl'. destruct (Z.eqb_spec a b) as [->|Hne].
    + rewrite IH by done. split; [by intros ->|by intros [= ->]].
    + split; [lia|by intros [= ? _]].
Qed.

(** [strcmp] of two strings returns the difference of the first bytes that differ, which is 0 exactly when the strings are equal. *)
Theorem strcmp_decides l : forall fuel mp p mq q l', string_at mp p l -> string_at mq q l' -> text l -> text l' -> (length l < fuel)%nat ->
  strcmp fuel mp p mq q = Some (first_diff l l') /\ (first_diff l l' = 0 <-> l = l').
Proof.
  intros fuel mp p mq q l' Hl Hl' Fl Fl' Hf. split; [|by apply first_diff_eq]. revert fuel p q l' Hl Hl' Fl Fl' Hf.
  induction l as [|a l IH]; intros [|fuel] p q l' Hl Hl' Fl Fl' Hf; simpl in Hf; try lia; cbn [strcmp].
  - apply string_nil in Hl as ->. simpl. destruct l' as [|b l']; [by apply string_nil in Hl' as ->|]. apply string_cons in Hl' as (_ & -> & _).
    inversion_clear Fl'. by rewrite (byte8_small b) by lia.
  - apply string_cons in Hl as (Ha & -> & Hl). inversion_clear Fl as [|? ? Fa Fl0]. rewrite (proj2 (Z.eqb_neq a 0)) by done. destruct l' as [|b l']; simpl.
    + apply string_nil in Hl' as ->. rewrite (proj2 (Z.eqb_neq a 0)), byte8_small by lia. change (byte8 0) with 0. f_equal. lia.
    + apply string_cons in Hl' as (_ & -> & Hl'). inversion_clear Fl'. destruct (Z.eqb_spec a b) as [->|Hne]; [apply IH; [done..|lia]|]. by rewrite !byte8_small by lia.
Qed.

Lemma strcmp_decides_witness : strcmp 5 (cstr "ls") 0 (cstr "lt") 0 = Some (-1) /\ (first_diff [108; 115] [108; 116] = 0 <-> [108; 115] = [108; 116]).
Proof.
  apply (strcmp_decides [108; 115] 5 (cstr "ls") 0 (cstr "lt") 0 [108; 116]).
  - split; [|reflexivity]. intros [|[|i]] c [= <-]; split; discriminate || reflexivity.
  - split; [|reflexivity]. intros [|[|i]] c [= <-]; split; discriminate || reflexivity.
  - repeat constructor; discriminate || reflexivity.
  - repeat constructor; discriminate || reflexivity.
  - simpl. lia.
Defined.

(** ** Input *)

Lemma gets_loop_line max c rest line : forall buf fuel, (c = 10 \/ c = 13) -> Forall (fun x => x <> 10 /\ x <> 13) line ->
  Z.of_nat (length buf) + Z.of_nat (length line) + 1 < max -> (length line < fuel)%nat ->
  gets_loop fuel max (line ++ c :: rest) buf = Some (rev buf ++ line ++ [c], rest).
Proof.
  induction line as [|x line IH]; intros buf [|fuel] Hc Hl Hm Hf; simpl in Hf; try lia; cbn [gets_loop app].
  - rewrite (proj2 (Z.ltb_lt _ _)) by (simpl in Hm; lia). replace ((c =? 10) || (c =? 13)) with true by (by destruct Hc as [-> | ->]). done.
  - rewrite (proj2 (Z.ltb_lt _ _)) by (simpl in Hm; lia). inversion_clear Hl as [|? ? [H1 H2] Hl']. rewrite (proj2 (Z.eqb_neq x 10)), (proj2 (Z.eqb_neq x 13)) by done. simpl orb. cbv iota.
    rewrite IH; [simpl; by rewrite <- app_assoc|done|done|simpl in *; lia|lia].
Qed.

(** [gets] returns the next line of the input, its end included, and leaves what follows, as long as the line fits the buffer. *)
Theorem gets_returns_line max line c rest : c = 10 \/ c = 13 -> Forall (fun x => x <> 10 /\ x <> 13) line -> Z.of_nat (length line) + 1 < max ->
  gets_line max (line ++ c :: rest) = Some (line ++ [c], rest).
Proof. intros Hc Hl Hm. unfold gets_line. rewrite (gets_loop_line max c rest line []); [done|done|done|simpl; lia|rewrite length_app; simpl; lia]. Qed.

Lemma gets_returns_line_witness : gets_line 100 [108; 115; 10; 99] = Some ([108; 115; 10], [99]).
Proof. apply (gets_returns_line 100 [108; 115] 10 [99]); [by left|repeat constructor; discriminate|simpl; lia]. Defined.

(** ** Numbers *)

Lemma atoi_app l : forall n d, Forall (fun c => 48 <= c <= 57) l ->
  atoi_loop (l ++ [d]) n = if (48 <=? d) && (d <=? 57) then int32 (atoi_loop l n * 10 + d - 48) else atoi_loop l n.
Proof.
  induction l as [|c l IH]; intros n d Hl; simpl; [done|]. inversion_clear Hl as [|? ? Hc Hl']. rewrite (proj2 (Z.leb_le 48 c)), (proj2 (Z.leb_le c 57)) by lia. simpl. by apply IH.
Qed.

Lemma udigits_atoi fuel : forall x, 0 <= x < 2147483648 -> x < 10 ^ Z.of_nat fuel -> (0 < fuel)%nat ->
  Forall (fun c => 48 <= c <= 57) (rev (udigits fuel x 10)) /\ atoi (rev (udigits fuel x 10)) = x.
Proof.
  induction fuel as [|fuel IH]; intros x Hx Hp Hf; [lia|]. cbn [udigits rev]. pose proof (Z.mod_pos_bound x 10 ltac:(lia)) as Hm. pose proof (Z.div_mod x 10 ltac:(lia)) as Hd.
  assert (Hq : 0 <= x / 10) by (apply Z.div_pos; lia). assert (Hdig : udigit (x mod 10) = 48 + x mod 10) by (unfold udigit; by rewrite (proj2 (Z.ltb_lt _ 10)) by lia). rewrite Hdig.
  assert (Hrec : Forall (fun c => 48 <= c <= 57) (rev (if x / 10 =? 0 then [] else udigits fuel (x / 10) 10)) /\ atoi (rev (if x / 10 =? 0 then [] else udigits fuel (x / 10) 10)) = x / 10).
  { destruct (Z.eqb_spec (x / 10) 0) as [E|E]; [rewrite E; split; [constructor|done]|]. rewrite Nat2Z.inj_succ, Z.pow_succ_r in Hp by lia.
    apply IH; [lia|lia|]. destruct fuel; [simpl in Hp; lia|lia]. }
  destruct Hrec as [HF HA]. split; [apply Forall_app_2; [done|]; constructor; [lia|constructor]|]. unfold atoi in *. rewrite atoi_app, HA by done.
  rewrite (proj2 (Z.leb_le 48 _)), (proj2 (Z.leb_le _ 57)) by lia. simpl. rewrite int32_small by lia. lia.
Qed.

(** what [printf] prints for [%d] of a number that is not negative, [atoi] reads back. *)
Theorem atoi_reads_printf n : 0 <= n < 2147483648 -> exists l, uprintf [37; 100] [UInt n] = Some l /\ atoi l = n.
Proof.
  intros Hn. eexists. split; [reflexivity|]. rewrite app_nil_r. unfold uprintint. rewrite int32_small by lia. rewrite (proj2 (Z.ltb_ge n 0)) by lia. cbn [andb]. cbv iota. rewrite uint32_small by (unfold W32; lia).
  apply udigits_atoi; [lia| |lia]. change (10 ^ Z.of_nat 32) with 100000000000000000000000000000000. lia.
Qed.

Lemma atoi_reads_printf_witness : exists l, uprintf [37; 100] [UInt 4071] = Some l /\ atoi l = 4071.
Proof. apply (atoi_reads_printf 4071). split; [discriminate|reflexivity]. Defined.

(** ** wc *)

(** The words of a text: its longest runs without white space. *)
Inductive splits : list Z -> list (list Z) -> Prop :=
| sp_nil : splits [] []
| sp_space c t ws : strchr wc_space c = true -> splits t ws -> splits (c :: t) ws
| sp_word w t ws : w <> [] -> Forall (fun c => strchr wc_space c = false) w -> (t = [] \/ exists c t', t = c :: t' /\ strchr wc_space c = true) ->
    splits t ws -> splits (w ++ t) (w :: ws).

Definition newlines (t : list Z) : Z := Z.of_nat (length (List.filter (Z.eqb 10) t)).

Lemma newlines_cons c t : newlines (c :: t) = (if c =? 10 then 1 else 0) + newlines t.
Proof. unfold newlines. cbn [List.filter]. rewrite (Z.eqb_sym 10 c). destruct (c =? 10); simpl; lia. Qed.

Lemma newlines_app t t' : newlines (t ++ t') = newlines t + newlines t'.
Proof. unfold newlines. rewrite List.filter_app, length_app. lia. Qed.

(** The state after some text: the counts, and if it ends inside a word. *)
Lemma wc_word w : forall s, Forall (fun c => strchr wc_space c = false) w -> w <> [] ->
  foldl wc_char s w = mkCounts (wc_l s + newlines w) (if wc_inword s then wc_w s else wc_w s + 1) (wc_c s + Z.of_nat (length w)) true.
Proof.
  induction w as [|c w IH]; intros s Hw Hne; [done|]. inversion_clear Hw as [|? ? Hc Hw']. cbn [foldl].
  assert (H1 : wc_char s c = mkCounts (wc_l s) (if wc_inword s then wc_w s else wc_w s + 1) (wc_c s + 1) true).
  { unfold wc_char. rewrite Hc. replace (c =? 10) with false by (destruct (Z.eqb_spec c 10) as [->|]; done). by destruct s as [l w' c' []]. }
  assert (H2 : newlines (c :: w) = newlines w) by (rewrite newlines_cons; destruct (Z.eqb_spec c 10) as [->|]; done).
  rewrite H1, H2. destruct (decide (w = [])) as [->|Hn]; [simpl; f_equal; unfold newlines; simpl; lia|]. rewrite IH by done. cbn [wc_l wc_w wc_c wc_inword length]. f_equal. lia.
Qed.

Lemma splits_nil ws : splits [] ws -> ws = [].
Proof. remember [] as t eqn:E. destruct 1 as [|c t ws Hc Hs|w t ws Hne Hw Ht Hs]; [done|done|]. by destruct w. Qed.

Lemma wc_splits t ws : splits t ws -> forall s, wc_inword s = false ->
  let s' := foldl wc_char s t in wc_l s' = wc_l s + newlines t /\ wc_w s' = wc_w s + Z.of_nat (length ws) /\ wc_c s' = wc_c s + Z.of_nat (length t).
Proof.
  assert (Hsp : forall c s, strchr wc_space c = true -> wc_char s c = mkCounts (wc_l s + if c =? 10 then 1 else 0) (wc_w s) (wc_c s + 1) false).
  { intros c s Hc. unfold wc_char. rewrite Hc. destruct (c =? 10); f_equal; lia. }
  induction 1 as [|c t ws Hc _ IH|w t ws Hne Hw Ht Hs IH]; intros s Hs0; cbv zeta in *.
  - simpl. unfold newlines. simpl. lia.
  - cbn [foldl]. rewrite Hsp by done. destruct (IH (mkCounts (wc_l s + if c =? 10 then 1 else 0) (wc_w s) (wc_c s + 1) false) eq_refl) as (E1 & E2 & E3). rewrite E1, E2, E3.
    rewrite newlines_cons. cbn [wc_l wc_w wc_c length]. lia.
  - rewrite foldl_app, (wc_word w s Hw Hne), Hs0, newlines_app, length_app. set (s1 := mkCounts _ _ _ _).
    destruct Ht as [->|(c & t' & -> & Hc)]; [apply splits_nil in Hs as ->; unfold s1, newlines; simpl; lia|].
    assert (E : foldl wc_char s1 (c :: t') = foldl wc_char (mkCounts (wc_l s1) (wc_w s1) (wc_c s1) false) (c :: t')) by (cbn [foldl]; by rewrite !Hsp).
    rewrite E. destruct (IH (mkCounts (wc_l s1) (wc_w s1) (wc_c s1) false) eq_refl) as (E1 & E2 & E3). rewrite E1, E2, E3. unfold s1. cbn [wc_l wc_w wc_c length]. lia.
Qed.

(** The words, as a function. *)
Fixpoint words (t : list Z) : list (list Z) :=
  match t with
  | [] => []
  | c :: t' =>
      let r := words t' in
      if strchr wc_space c then r
      else
        match t', r with
        | d :: _, w :: ws => if strchr wc_space d then [c] :: w :: ws else (c :: w) :: ws
        | _, _ => [[c]]
        end
  end.

Lemma words_splits t : splits t (words t).
Proof.
  induction t as [|c t IH]; [constructor|]. cbn [words]. cbv zeta. destruct (strchr wc_space c) eqn:Hc; [by constructor|].
  assert (Hone : forall t' ws, splits t' ws -> (t' = [] \/ exists d t'', t' = d :: t'' /\ strchr wc_space d = true) -> splits (c :: t') ([c] :: ws)).
  { intros t' ws Hs Ht. apply (sp_word [c] t'); [done|by repeat constructor|done|done]. }
  destruct t as [|d t']; [apply Hone; [constructor|by left]|]. destruct (strchr wc_space d) eqn:Hd.
  - destruct (words (d :: t')); (apply Hone; [done|right; by exists d, t']).
  - remember (d :: t') as t eqn:Et. destruct IH as [|x t ws Hx _|w t ws Hne Hw Ht Hs]; [done|simplify_eq; congruence|].
    apply (sp_word (c :: w) t); [done|by constructor|done|done].
Qed.

(** ** ls *)

(** [fmtname] is the last component of the path, padded with blanks to the width of a name. *)
Theorem fmtname_last dir name : Forall (fun c => c <> 47) name -> (dir = [] \/ exists d, dir = d ++ [47]) ->
  fmtname (dir ++ name) = name ++ replicate (DIRSIZ_ls - length name) 32.
Proof.
  intros Hn Hd. unfold fmtname. rewrite rev_app_distr. assert (H : forall l acc, Forall (fun c => c <> 47) l -> name_loop (l ++ rev dir) acc = rev l ++ acc).
  { induction l as [|c l IH]; intros acc Hl; simpl.
    - destruct Hd as [->|(d & ->)]; [done|]. by rewrite rev_app_distr.
    - inversion_clear Hl as [|? ? Hc Hl']. rewrite (proj2 (Z.eqb_neq c 47)), IH by done. by rewrite <- app_assoc. }
  rewrite H by (apply Forall_rev in Hn; exact Hn). rewrite rev_involutive, app_nil_r. destruct (Nat.leb_spec DIRSIZ_ls (length name)); [|done].
  replace (DIRSIZ_ls - length name)%nat with 0%nat by lia. by rewrite app_nil_r.
Qed.

Lemma fmtname_last_witness : fmtname [47; 97; 47; 98] = 98 :: replicate 13 32.
Proof. apply (fmtname_last [47; 97; 47] [98]); [repeat constructor; discriminate|right; by exists [47; 97]]. Defined.
