(* ===== verification/ShellMain.v ===== *)
(** * sh.c: the loop that reads and runs commands

    The input is the list of bytes standard input still holds; the loop is the list
    of what it does with each line.  Shown: the shell opens its three descriptors,
    and takes its input line by line, a line that begins with [cd ] in the shell
    itself and every other one in a child. *)

From S2P Require Import Prelude CString KState Shell ShellRun User.

(** [while((fd = open("console", O_RDWR)) >= 0){ if(fd >= 3){ close(fd); break; } }] *)
Fixpoint open_three (fuel : nat) (console : obj) (t : table) : option table :=
  match fuel with
  | O => None
  | S k =>
      match lowest t with
      | None => Some t
      | Some fd => if (3 <=? fd)%nat then Some t else open_three k console (<[fd := Some console]> t)
      end
  end.

Definition nbuf : Z := 100.

(** The string a buffer holds: its bytes up to the first NUL. *)
Fixpoint up_to_nul (l : list Z) : list Z :=
  match l with
  | [] => []
  | c :: l => if c =? 0 then [] else c :: up_to_nul l
  end.

(** The line in the buffer, and the input left; nothing at the end of the input. *)
Definition getcmd (input : list Z) : option (list Z * list Z) :=
  '(line, rest) ← gets_line nbuf input;
  let buf := up_to_nul line in
  match buf with
  | [] => None
  | _ => Some (buf, rest)
  end.

Inductive event : Type := Chdir (path : list Z) | Child (line : list Z).

Definition is_cd (buf : list Z) : bool :=
  match buf with
  | 99 :: 100 :: 32 :: _ => true
  | _ => false
  end.

(** [buf[strlen(buf)-1] = 0;] *)
Definition chop (buf : list Z) : list Z := List.removelast buf.

Fixpoint main_loop (fuel : nat) (input : list Z) : option (list event) :=
  match fuel with
  | O => None
  | S k =>
      match getcmd input with
      | None => Some []
      | Some (buf, rest) =>
          events ← main_loop k rest;
          Some ((if is_cd buf then Chdir (drop 3 (chop buf)) else Child buf) :: events)
      end
  end.

Definition main (input : list Z) : option (list event) := main_loop (S (length input)) input.

(** ** The theorems *)

(** A line as it is typed: no end of line inside, no NUL, and short enough for the buffer. *)
Definition typed (line : list Z) : Prop := Forall (fun c => c <> 10 /\ c <> 13 /\ c <> 0) line /\ Z.of_nat (length line) + 1 < nbuf.

Definition event_of (line : list Z) : event := if is_cd line then Chdir (drop 3 line) else Child (line ++ [10]).

Lemma up_to_nul_id l : Forall (fun c => c <> 0) l -> up_to_nul l = l.
Proof. induction 1 as [|c l Hc _ IH]; simpl; [done|]. by rewrite (proj2 (Z.eqb_neq c 0)), IH. Qed.

Lemma is_cd_line line : is_cd (line ++ [10]) = is_cd line.
Proof.
  destruct line as [|a [|b [|c line]]]; try done; simpl; repeat (match goal with |- context [match ?x with _ => _ end] => destruct x; try done end).
Qed.

Lemma getcmd_line line rest : typed line -> getcmd (line ++ 10 :: rest) = Some (line ++ [10], rest).
Proof.
  intros [Hl Hn]. unfold getcmd, gets_line.
  rewrite (gets_loop_line nbuf 10 rest line []); [|by left|by eapply Forall_impl; [exact Hl|]; intros c (? & ? & ?)|simpl; lia|rewrite length_app; simpl; lia]. simpl.
  rewrite up_to_nul_id by (apply Forall_app_2; [by eapply Forall_impl; [exact Hl|]; intros c (? & ? & ?)|by repeat constructor]). by destruct line.
Qed.

Lemma main_loop_lines lines : forall fuel, Forall typed lines -> (length lines < fuel)%nat ->
  main_loop fuel (concat (map (fun l => l ++ [10]) lines)) = Some (map event_of lines).
Proof.
  induction lines as [|l lines IH]; intros [|fuel] Hl Hf; simpl in Hf; try lia; [done|]. inversion_clear Hl as [|? ? Ht Hl'].
  cbn [map concat main_loop]. rewrite <- app_assoc. simpl app at 2. rewrite getcmd_line by done. rewrite IH by (done || lia). simpl. do 2 f_equal.
  unfold event_of. rewrite is_cd_line. destruct (is_cd l); [|done]. unfold chop. by rewrite removelast_last.
Qed.

(** the shell takes its input line by line, in order, each once: a line [cd path] changes the directory of the shell to exactly [path], and every other line is
    handed whole to a child that parses and runs it. *)
Theorem main_takes_lines lines : Forall typed lines -> main (concat (map (fun l => l ++ [10]) lines)) = Some (map event_of lines).
Proof.
  intros Hl. unfold main. apply main_loop_lines; [done|]. induction lines as [|l lines IH]; simpl; [lia|]. inversion_clear Hl as [|? ? _ Hl']. specialize (IH Hl').
  rewrite !length_app. simpl. lia.
Qed.

Lemma main_takes_lines_witness : main [108; 115; 10; 99; 100; 32; 47; 10] = Some [Child [108; 115; 10]; Chdir [47]].
Proof.
  apply (main_takes_lines [[108; 115]; [99; 100; 32; 47]]). repeat constructor; vm_compute; discriminate || reflexivity.
Defined.

(** On a last line without its newline the shell cuts off the last character of the path. *)
Lemma cd_without_newline : main [99; 100; 32; 97; 98] = Some [Chdir [97]].
Proof. done. Qed.

(** whatever descriptors the shell is started with, it goes on with 0, 1 and 2 open, those it was given unchanged and the others on the console. *)
Theorem open_three_opens a b c console : exists t, open_three 4 console ([a; b; c] ++ replicate (NOFILE - 3) None) = Some t /\
  t = std (default console a) (default console b) (default console c).
Proof. by destruct a, b, c; eexists. Qed.
