(* ===== verification/Programs.v ===== *)
(** * The user programs: cat, wc, grep, echo, ls, kill, ln, mkdir, rm, zombie and init

    A program is an interaction tree whose events are the system calls of user.h:
    what a call answers is up to the system, and the program goes on with the
    answer.  [printf] writes its bytes one at a time, as [putc] does.  [argv] is
    given without the name of the program.  [run] carries a tree out in a world
    that answers the calls; the laws the programs rely on (what [open], [read],
    [write], [close], [fork] and [wait] do) are classes, with an instance in which
    the programs are run.

    Shown: cat copies its files to its output, and wc prints the counts of each of
    its files, up to the first that cannot be opened, however the reads cut them;
    grep prints the matching lines of its files; ls prints a line for each entry
    of a directory; init starts a shell again and again, and ends where it cannot fork. *)

From S2P Require Import Prelude CString Shell User Grep.
From ITree Require Import ITree.


(** ** System calls (user.h) *)

(** stat.h *)
Definition T_DIR_st : Z := 1.
Definition T_FILE_st : Z := 2.
Record ustat : Type := mkUstat { us_type : Z; us_dev : Z; us_ino : Z; us_nlink : Z; us_size : Z }.

(** A call that fills a buffer or a structure of the program answers with its contents. *)
Variant callE : Type -> Type :=
| Open (path : list Z) (mode : Z) : callE Z
| Close (fd : Z) : callE Z
| Read (fd n : Z) : callE (Z * list Z)
| Write (fd : Z) (b : list Z) : callE Z
| Fstat (fd : Z) : callE (Z * ustat)
| Dup (fd : Z) : callE Z
| Link (old new : list Z) : callE Z
| Unlink (path : list Z) : callE Z
| Mkdir (path : list Z) : callE Z
| Mknod (path : list Z) (major minor : Z) : callE Z
| Kill (pid : Z) : callE Z
| Fork : callE Z
| Exec (path : list Z) (argv : list (list Z)) : callE Z
| Wait : callE Z
| Sleep (n : Z) : callE Z.

Variant sysE : Type -> Type :=
| Call {R} (c : callE R) : sysE R
| Exit : sysE void.

Definition prog : Type -> Type := itree sysE.

#[export] Instance prog_bind : MBind prog := fun A B k t => ITree.bind t k.

Definition call {R} (c : callE R) : prog R := Vis (Call c) (fun r => Ret r).
Definition exit {R} : prog R := Vis Exit (fun v : void => match v with end).

(** The bytes of a string literal. *)
Definition lit (s : string) : list Z := map (fun c => Z.of_N (Ascii.N_of_ascii c)) (String.list_ascii_of_string s).
Definition nl : list Z := [10].

(** [putc] for each byte. *)
Fixpoint putchars (fd : Z) (l : list Z) : prog unit :=
  match l with
  | [] => Ret tt
  | c :: l => _ ← call (Write fd [c]); putchars fd l
  end.

(** The formats of the programs have the arguments they ask for. *)
Definition printf (fd : Z) (fmt : list Z) (args : list uarg) : prog unit := putchars fd (default [] (uprintf fmt args)).

(** ulib.c *)
Definition stat (n : list Z) : prog (Z * ustat) :=
  fd ← call (Open n O_RDONLY);
  if fd <? 0 then Ret (-1, mkUstat 0 0 0 0 0)
  else r ← call (Fstat fd); _ ← call (Close fd); Ret r.

(** ** The programs *)

(** The loop over the arguments that cat, wc and grep share. *)
Fixpoint over_files (who : string) (body : Z -> list Z -> prog unit) (names : list (list Z)) : prog unit :=
  match names with
  | [] => exit
  | a :: names =>
      fd ← call (Open a 0);
      if fd <? 0 then
        _ ← printf 1 (lit who ++ lit ": cannot open %s" ++ nl) [UStr (Some a)];
        exit
      else
        _ ← body fd a;
        _ ← call (Close fd);
        over_files who body names
  end.

(** cat.c *)
Definition cat_round (fd : Z) (_ : unit) : prog (unit + unit) :=
  r ← call (Read fd 512);
  if 0 <? r.1 then
    w ← call (Write 1 (take (Z.to_nat r.1) r.2));
    if negb (w =? r.1) then _ ← printf 1 (lit "cat: write error" ++ nl) []; exit
    else Ret (inl tt)
  else if r.1 <? 0 then _ ← printf 1 (lit "cat: read error" ++ nl) []; exit
  else Ret (inr tt).

Definition cat (fd : Z) : prog unit := ITree.iter (cat_round fd) tt.

Definition cat_main (argv : list (list Z)) : prog unit :=
  match argv with
  | [] => _ ← cat 0; exit
  | _ => over_files "cat" (fun fd _ => cat fd) argv
  end.

(** wc.c *)
Definition wc_round (fd : Z) (s : counts) : prog (counts + counts) :=
  r ← call (Read fd 512);
  if 0 <? r.1 then Ret (inl (foldl wc_char s (take (Z.to_nat r.1) r.2)))
  else if r.1 <? 0 then _ ← printf 1 (lit "wc: read error" ++ nl) []; exit
  else Ret (inr s).

Definition wc (fd : Z) (name : list Z) : prog unit :=
  s ← ITree.iter (wc_round fd) (mkCounts 0 0 0 false);
  printf 1 (lit "%d %d %d %s" ++ nl) [UInt (wc_l s); UInt (wc_w s); UInt (wc_c s); UStr (Some name)].

Definition wc_main (argv : list (list Z)) : prog unit :=
  match argv with
  | [] => _ ← wc 0 []; exit
  | _ => over_files "wc" wc argv
  end.

(** grep.c: the inner loop ([p] at its end), a round of the outer one ([buf] holds [m] bytes). *)
Fixpoint grep_lines (fuel : nat) (re p : list Z) : prog (list Z) :=
  match fuel with
  | O => Ret p
  | S k =>
      match split_line p with
      | None => Ret p
      | Some (l, rest) =>
          _ ← (if grep_match re l then call (Write 1 (l ++ [10])) else Ret 0);
          grep_lines k re rest
      end
  end.

Definition grep_round (re : list Z) (fd : Z) (buf : list Z) : prog (list Z + unit) :=
  r ← call (Read fd (Z.of_nat (BUFSIZE - length buf - 1)));
  if 0 <? r.1 then
    let b := buf ++ take (Z.to_nat r.1) r.2 in
    p ← grep_lines (S (length b)) re b;
    Ret (inl (keep b p))
  else Ret (inr tt).

Definition grep_fd (re : list Z) (fd : Z) : prog unit := ITree.iter (grep_round re fd) [].

Definition grep_main (argv : list (list Z)) : prog unit :=
  match argv with
  | [] => _ ← printf 2 (lit "usage: grep pattern [file ...]" ++ nl) []; exit
  | [re] => _ ← grep_fd re 0; exit
  | re :: names => over_files "grep" (fun fd _ => grep_fd re fd) names
  end.

(** echo.c *)
Fixpoint echo_loop (argv : list (list Z)) : prog unit :=
  match argv with
  | [] => exit
  | a :: argv =>
      _ ← printf 1 (lit "%s%s") [UStr (Some a); UStr (Some (match argv with [] => nl | _ => lit " " end))];
      echo_loop argv
  end.
Definition echo_main (argv : list (list Z)) : prog unit := echo_loop argv.

(** kill.c, ln.c, mkdir.c, rm.c, zombie.c *)
Fixpoint kill_loop (argv : list (list Z)) : prog unit :=
  match argv with
  | [] => exit
  | a :: argv => _ ← call (Kill (atoi a)); kill_loop argv
  end.
Definition kill_main (argv : list (list Z)) : prog unit :=
  match argv with
  | [] => _ ← printf 2 (lit "usage: kill pid..." ++ nl) []; exit
  | _ => kill_loop argv
  end.

Definition ln_main (argv : list (list Z)) : prog unit :=
  match argv with
  | [old; new] =>
      r ← call (Link old new);
      _ ← (if r <? 0 then printf 2 (lit "link %s %s: failed" ++ nl) [UStr (Some old); UStr (Some new)] else Ret tt);
      exit
  | _ => _ ← printf 2 (lit "Usage: ln old new" ++ nl) []; exit
  end.

(** The loop of mkdir and rm: one call for each name, up to the first that fails. *)
Fixpoint each_name (op : list Z -> callE Z) (msg : list Z) (names : list (list Z)) : prog unit :=
  match names with
  | [] => exit
  | a :: names =>
      r ← call (op a);
      if r <? 0 then _ ← printf 2 msg [UStr (Some a)]; exit else each_name op msg names
  end.
Definition mkdir_main (argv : list (list Z)) : prog unit :=
  match argv with
  | [] => _ ← printf 2 (lit "Usage: mkdir files..." ++ nl) []; exit
  | _ => each_name Mkdir (lit "mkdir: %s failed to create" ++ nl) argv
  end.
Definition rm_main (argv : list (list Z)) : prog unit :=
  match argv with
  | [] => _ ← printf 2 (lit "Usage: rm files..." ++ nl) []; exit
  | _ => each_name Unlink (lit "rm: %s failed to delete" ++ nl) argv
  end.

Definition zombie_main : prog unit :=
  pid ← call Fork;
  _ ← (if 0 <? pid then call (Sleep 5) else Ret 0);
  exit.

(** ls.c *)

(** The bytes up to the NUL. *)
Fixpoint upto_nul (l : list Z) : list Z :=
  match l with
  | [] => []
  | c :: l => if c =? 0 then [] else c :: upto_nul l
  end.

Definition ls_line (path : list Z) (st : ustat) : prog unit :=
  printf 1 (lit "%s %d %d %d" ++ nl) [UStr (Some (fmtname path)); UInt (us_type st); UInt (us_ino st); UInt (us_size st)].

(** [buf] is [path], a slash and the name of the entry, cut at [DIRSIZ] bytes. *)
Definition ls_round (path : list Z) (fd : Z) (_ : unit) : prog (unit + unit) :=
  r ← call (Read fd 16);
  if r.1 =? 16 then
    if default 0 (r.2 !! 0%nat) + 256 * default 0 (r.2 !! 1%nat) =? 0 then Ret (inl tt)
    else
      let buf := path ++ 47 :: upto_nul (take DIRSIZ_ls (drop 2 r.2)) in
      s ← stat buf;
      if s.1 <? 0 then _ ← printf 1 (lit "ls: cannot stat %s" ++ nl) [UStr (Some buf)]; Ret (inl tt)
      else _ ← ls_line buf s.2; Ret (inl tt)
  else Ret (inr tt).

Definition ls (path : list Z) : prog unit :=
  fd ← call (Open path 0);
  if fd <? 0 then printf 2 (lit "ls: cannot open %s" ++ nl) [UStr (Some path)]
  else
    r ← call (Fstat fd);
    if r.1 <? 0 then
      _ ← printf 2 (lit "ls: cannot stat %s" ++ nl) [UStr (Some path)];
      _ ← call (Close fd); Ret tt
    else
      _ ← (if us_type r.2 =? T_FILE_st then ls_line path r.2
            else if us_type r.2 =? T_DIR_st then
              if (512 <? length path + 1 + DIRSIZ_ls + 1)%nat then printf 1 (lit "ls: path too long" ++ nl) []
              else ITree.iter (ls_round path fd) tt
            else Ret tt);
      _ ← call (Close fd); Ret tt.

Fixpoint ls_loop (argv : list (list Z)) : prog unit :=
  match argv with
  | [] => exit
  | a :: argv => _ ← ls a; ls_loop argv
  end.
Definition ls_main (argv : list (list Z)) : prog unit :=
  match argv with
  | [] => _ ← ls (lit "."); exit
  | _ => ls_loop argv
  end.

(** init.c *)
Definition wait_round (pid : Z) (_ : unit) : prog (unit + unit) :=
  wpid ← call Wait;
  if (0 <=? wpid) && negb (wpid =? pid) then _ ← printf 1 (lit "zombie!" ++ nl) []; Ret (inl tt)
  else Ret (inr tt).

Definition init_round (_ : unit) : prog (unit + unit) :=
  _ ← printf 1 (lit "init: starting sh" ++ nl) [];
  pid ← call Fork;
  if pid <? 0 then _ ← printf 1 (lit "init: fork failed" ++ nl) []; exit
  else if pid =? 0 then
    _ ← call (Exec (lit "sh") [lit "sh"]);
    _ ← printf 1 (lit "init: exec sh failed" ++ nl) [];
    exit
  else _ ← ITree.iter (wait_round pid) tt; Ret (inl tt).


(** ** Running a program *)

(** A world answers the calls. *)
Class World (W : Type) := sys : forall {R}, callE R -> W -> W * R.

Section Run.
  Context {W : Type} `{World W}.

(** After at most [fuel] steps: the world, and the value returned ([None] after [exit]). *)
Fixpoint run {R} (fuel : nat) (t : prog R) (w : W) : option (W * option R) :=
  match fuel with
  | O => None
  | S k =>
      match observe t with
      | RetF r => Some (w, Some r)
      | TauF t => run k t w
      | @VisF _ _ _ X e g =>
          match e in sysE X return (X -> prog R) -> option (W * option R) with
          | Call c => fun g => run k (g (sys c w).2) (sys c w).1
          | Exit => fun _ => Some (w, None)
          end g
      end
  end.

(** The program comes to its end. *)
Definition comes {R} (t : prog R) (w w' : W) (o : option R) : Prop := exists n, run n t w = Some (w', o).

Lemma run_observe {R} n (t t' : prog R) w : observe t = observe t' -> run n t w = run n t' w.
Proof. intros E. destruct n; [done|]. simpl. by rewrite E. Qed.

Lemma run_more {R} n : forall m (t : prog R) w x, run n t w = Some x -> (n <= m)%nat -> run m t w = Some x.
Proof.
  induction n as [|n IH]; intros m t w x Hr Hm; [done|]. destruct m as [|m]; [lia|]. cbn [run] in *.
  destruct (observe t) as [r|t'|X e g]; [done|apply IH; [done|lia]|]. destruct e; [|done]. apply IH; [done|lia].
Qed.

Lemma run_agree {R} (t : prog R) w w1 o1 w2 o2 : comes t w w1 o1 -> comes t w w2 o2 -> w1 = w2 /\ o1 = o2.
Proof.
  intros [n H1] [m H2]. apply (run_more n (Nat.max n m)) in H1; [|lia]. apply (run_more m (Nat.max n m)) in H2; [|lia]. by simplify_eq.
Qed.

Lemma observe_bind {A B} (t : prog A) (k : A -> prog B) : observe (t ≫= k) =
  match observe t with RetF r => observe (k r) | TauF t => TauF (t ≫= k) | VisF e g => VisF e (fun x => g x ≫= k) end.
Proof. unfold mbind, prog_bind. unfold observe at 1, ITree.bind. cbn. destruct (observe t); reflexivity. Qed.

Lemma comes_ret {R} (r : R) w : comes (Ret r) w w (Some r).
Proof. by exists 1%nat. Qed.

Lemma comes_exit {R} w : comes (@exit R) w w None.
Proof. by exists 1%nat. Qed.

Lemma comes_call {R} (c : callE R) w : comes (call c) w (sys c w).1 (Some (sys c w).2).
Proof. by exists 2%nat. Qed.


Lemma comes_bind {A B} (t : prog A) (k : A -> prog B) w w1 a w2 o : comes t w w1 (Some a) -> comes (k a) w1 w2 o -> comes (t ≫= k) w w2 o.
Proof.
  intros [n Hn] [m Hm]. exists (n + m)%nat. revert t w Hn. induction n as [|n IH]; intros t w Hn; [done|]. change (S n + m)%nat with (S (n + m)). cbn [run] in *.
  rewrite observe_bind. destruct (observe t) as [r|t'|X e g]; [|by apply IH|].
  - simplify_eq. apply (run_more m (S (n + m))) in Hm; [exact Hm|lia].
  - destruct e; [by apply IH|done].
Qed.

Lemma comes_call_bind {A B} (c : callE A) (k : A -> prog B) w w2 o : comes (k (sys c w).2) (sys c w).1 w2 o -> comes (call c ≫= k) w w2 o.
Proof. apply comes_bind, comes_call. Qed.

Lemma comes_ret_bind {A B} (a : A) (k : A -> prog B) w w2 o : comes (k a) w w2 o -> comes (Ret a ≫= k) w w2 o.
Proof. apply comes_bind, comes_ret. Qed.

Lemma observe_iter {I R} (f : I -> prog (I + R)) i : observe (ITree.iter f i : prog R) =
  observe (f i ≫= (fun x => match x with inl j => Tau (ITree.iter f j) | inr r => Ret r end) : prog R).
Proof. done. Qed.

(** A round of a loop that goes on, the last one, and one that exits. *)
Lemma comes_iter_next {I R} (f : I -> prog (I + R)) i j w w1 w2 o :
  comes (f i) w w1 (Some (inl j)) -> comes (ITree.iter f j : prog R) w1 w2 o -> comes (ITree.iter f i : prog R) w w2 o.
Proof.
  intros H1 [n H2]. assert (H3 : comes (Tau (ITree.iter f j) : prog R) w1 w2 o) by by exists (S n).
  destruct (comes_bind _ (fun x => match x with inl j => Tau (ITree.iter f j) | inr r => Ret r end) _ _ _ _ _ H1 H3) as [m Hm].
  exists m. by rewrite (run_observe _ _ _ _ (observe_iter f i)).
Qed.

Lemma comes_iter_last {I R} (f : I -> prog (I + R)) i r w w1 : comes (f i) w w1 (Some (inr r)) -> comes (ITree.iter f i : prog R) w w1 (Some r).
Proof.
  intros H1. destruct (comes_bind _ (fun x => match x with inl j => Tau (ITree.iter f j) | inr r => Ret r end) _ _ _ _ _ H1 (comes_ret r w1)) as [m Hm].
  exists m. by rewrite (run_observe _ _ _ _ (observe_iter f i)).
Qed.

End Run.

(** ** What the programs rely on *)

(** A descriptor to read from (with what is left) or to write to (with what was written); the files, by path. *)
Inductive desc : Type := Input (st : ustat) (l : list Z) | Output (o : list Z).

Class Held (W : Type) := { stored : W -> list Z -> option (ustat * list Z); fds : W -> gmap Z desc }.

(** From [w] to [w'] the descriptors become [m] and the files stay. *)
Definition after {W} `{Held W} (w w' : W) (m : gmap Z desc) : Prop := fds w' = m /\ forall p, stored w' p = stored w p.

Definition NOFILE_u : Z := 16.

(** A read gives some bytes where some are left; the output is the console or a pipe, which takes all that is written. *)
Class Files (W : Type) `{World W, Held W} := {
  open_found (w : W) p st l fd0 : stored w p = Some (st, l) -> 0 <= fd0 < NOFILE_u -> fds w !! fd0 = None ->
    0 <= (sys (Open p 0) w).2 /\ fds w !! (sys (Open p 0) w).2 = None /\
    after w (sys (Open p 0) w).1 (<[(sys (Open p 0) w).2 := Input st l]> (fds w));
  open_missing (w : W) p : stored w p = None ->
    (sys (Open p 0) w).2 < 0 /\ after w (sys (Open p 0) w).1 (fds w);
  close_open (w : W) fd d : fds w !! fd = Some d -> after w (sys (Close fd) w).1 (delete fd (fds w));
  read_some (w : W) fd st l n : fds w !! fd = Some (Input st l) -> 0 < n ->
    exists b l', l = b ++ l' /\ (b = [] -> l = []) /\ Z.of_nat (length b) <= n /\
      (sys (Read fd n) w).2 = (Z.of_nat (length b), b) /\ after w (sys (Read fd n) w).1 (<[fd := Input st l']> (fds w));
  write_all (w : W) fd o b : fds w !! fd = Some (Output o) ->
    (sys (Write fd b) w).2 = Z.of_nat (length b) /\ after w (sys (Write fd b) w).1 (<[fd := Output (o ++ b)]> (fds w));
  fstat_gives (w : W) fd st l : fds w !! fd = Some (Input st l) ->
    (sys (Fstat fd) w).2 = (0, st) /\ after w (sys (Fstat fd) w).1 (fds w)
}.

(** On a file a read gives all that is asked for or left. *)
Class FullReads (W : Type) `{Files W} := {
  read_full (w : W) fd st l n : fds w !! fd = Some (Input st l) -> 0 < n -> (sys (Read fd n) w).2.2 = take (Z.to_nat n) l
}.

Section Laws.
  Context {W : Type} `{Files W}.

Lemma after_refl (w : W) : after w w (fds w).
Proof. done. Qed.

Lemma after_trans (w w1 w2 : W) m m' : after w w1 m' -> after w1 w2 m -> after w w2 m.
Proof. intros [_ H1'] [H2 H3]. split; [done|]. intros p. by rewrite H3. Qed.

Lemma putchars_prints l : forall (w : W) fd o, fds w !! fd = Some (Output o) ->
  exists w', comes (putchars fd l) w w' (Some tt) /\ after w w' (<[fd := Output (o ++ l)]> (fds w)).
Proof.
  induction l as [|c l IH]; intros w fd o Hfd.
  - exists w. split; [apply comes_ret|]. rewrite app_nil_r, insert_id by done. apply after_refl.
  - destruct (write_all w fd o [c] Hfd) as (_ & Ha). destruct (IH (sys (Write fd [c]) w).1 fd (o ++ [c])) as (w' & Hc & Ha').
    { destruct Ha as [-> _]. apply lookup_insert_eq. }
    exists w'. split; [by apply comes_call_bind|]. eapply after_trans; [exact Ha|]. destruct Ha as [E _].
    by rewrite E, insert_insert_eq, <- app_assoc in Ha'.
Qed.

(** [body] reads its file to the end and prints [say] of its name and contents, where these satisfy [P]. *)
Definition speaks (P : list Z -> Prop) (body : Z -> list Z -> prog unit) (say : list Z -> list Z -> list Z) : Prop :=
  forall (w : W) fd a st l o, fd <> 1 -> fds w !! fd = Some (Input st l) -> fds w !! 1 = Some (Output o) -> P l ->
  exists w', comes (body fd a) w w' (Some tt) /\ after w w' (<[1 := Output (o ++ say a l)]> (<[fd := Input st []]> (fds w))).

(** What is printed for a list of names: up to the first file that is missing. *)
Fixpoint texts (who : string) (say : list Z -> list Z -> list Z) (st : list Z -> option (ustat * list Z)) (names : list (list Z)) : list Z :=
  match names with
  | [] => []
  | a :: names =>
      match st a with
      | None => lit who ++ lit ": cannot open " ++ a ++ nl
      | Some (_, l) => say a l ++ texts who say st names
      end
  end.

(** No percent sign in the name of a program. *)
Definition plain_text (s : string) : Prop := Forall (fun c => c <> 37) (lit s).

Lemma printf_plain l : forall fmt args, Forall (fun c => c <> 37) l ->
  uprintf (l ++ fmt) args = (r ← uprintf fmt args; Some (l ++ r)).
Proof.
  induction l as [|c l IH]; intros fmt args Hl; [simpl; by destruct (uprintf fmt args)|]. inversion_clear Hl as [|? ? Hc Hl'].
  unfold uprintf in *. simpl. rewrite (proj2 (Z.eqb_neq c 37)), IH by done. by destruct (printf_loop false fmt args).
Qed.

Lemma texts_ext who say names : forall st st', (forall p, st p = st' p) -> texts who say st names = texts who say st' names.
Proof. induction names as [|a names IH]; intros st st' E; [done|]. simpl. rewrite E. destruct (st' a) as [[? ?]|]; [|done]. by rewrite (IH st st' E). Qed.

(** Closing the descriptor that was opened. *)
Lemma delete_above (m : gmap Z desc) i j a b : j <> i -> m !! j = None -> delete j (<[i := a]> (<[j := b]> m)) = <[i := a]> m.
Proof. intros Hne Hm. rewrite delete_insert_ne by done. by rewrite delete_insert_id. Qed.

Lemma over_files_texts P who body say : plain_text who -> speaks P body say -> forall names (w : W) o fd0,
  (forall a st l, a ∈ names -> stored w a = Some (st, l) -> P l) ->
  fds w !! 1 = Some (Output o) -> 0 <= fd0 < NOFILE_u -> fds w !! fd0 = None ->
  exists w', comes (over_files who body names) w w' None /\ after w w' (<[1 := Output (o ++ texts who say (stored w) names)]> (fds w)).
Proof.
  intros Hwho Hbody. induction names as [|a names IH]; intros w o fd0 HP H1' Hr Hfd0; cbn [over_files texts].
  { exists w. split; [apply comes_exit|]. rewrite app_nil_r, insert_id by done. apply after_refl. }
  destruct (stored w a) as [[st l]|] eqn:Ea.
  - destruct (open_found w a st l fd0 Ea Hr Hfd0) as (Hp & Hnew & Ha). set (w1 := (sys (Open a 0) w).1) in *. set (fd := (sys (Open a 0) w).2) in *.
    assert (Hne : fd <> 1) by congruence. pose proof Ha as [E1 Es1].
    destruct (Hbody w1 fd a st l o) as (w2 & Hc2 & Ha2); [done|rewrite E1; apply lookup_insert_eq|by rewrite E1, lookup_insert_ne|by eapply HP; [left|]|].
    pose proof Ha2 as [E2 Es2]. rewrite E1 in E2.
    pose proof (close_open w2 fd (Input st [])) as Ha3. rewrite E2 in Ha3. specialize (Ha3 ltac:(by rewrite lookup_insert_ne, lookup_insert_eq)).
    set (w3 := (sys (Close fd) w2).1) in *. pose proof Ha3 as [E3 Es3].
    assert (E : fds w3 = <[1 := Output (o ++ say a l)]> (fds w)).
    { by rewrite E3, insert_insert_eq, delete_above. }
    assert (Es : forall p, stored w3 p = stored w p) by (intros p; by rewrite Es3, Es2, Es1).
    destruct (IH w3 (o ++ say a l) (if decide (fd0 = 1) then 1 else fd0)) as (w' & Hc & Ha').
    + intros b st' l' Hb Eb. eapply HP; [by right|by rewrite <- Es].
    + rewrite E. apply lookup_insert_eq.
    + by destruct (decide _).
    + rewrite E. destruct (decide (fd0 = 1)) as [->|]; [congruence|]. by rewrite lookup_insert_ne.
    + exists w'. split.
      * apply comes_call_bind. fold w1 fd. rewrite (proj2 (Z.ltb_ge fd 0)) by done. eapply comes_bind; [exact Hc2|]. by apply comes_call_bind.
      * eapply after_trans; [split; [exact E|exact Es]|]. by rewrite E, insert_insert_eq, <- app_assoc, (texts_ext _ _ _ _ _ Es) in Ha'.
  - destruct (open_missing w a Ea) as (Hp & Ha). set (w1 := (sys (Open a 0) w).1) in *. set (fd := (sys (Open a 0) w).2) in *. pose proof Ha as [E1 Es1].
    destruct (putchars_prints (lit who ++ lit ": cannot open " ++ a ++ nl) w1 1 o) as (w2 & Hc2 & Ha2); [by rewrite E1|].
    exists w2. split; [|rewrite E1 in Ha2; by eapply after_trans].
    apply comes_call_bind. fold w1 fd. rewrite (proj2 (Z.ltb_lt fd 0)) by done. eapply comes_bind; [|apply comes_exit].
    unfold printf. rewrite printf_plain by done. exact Hc2.
Qed.

(** ** cat and wc *)

(** A read at the end of the file, and one before it. *)
Lemma read_cases (w : W) fd st l n : fds w !! fd = Some (Input st l) -> 0 < n ->
  (l = [] /\ (sys (Read fd n) w).2 = (0, []) /\ after w (sys (Read fd n) w).1 (fds w)) \/
  (exists b l', l = b ++ l' /\ b <> [] /\ (sys (Read fd n) w).2 = (Z.of_nat (length b), b) /\ after w (sys (Read fd n) w).1 (<[fd := Input st l']> (fds w))).
Proof.
  intros Hfd Hn. destruct (read_some w fd st l n Hfd Hn) as (b & l' & -> & Hb & _ & Er & Ha). destruct (decide (b = [])) as [->|Hne].
  - left. specialize (Hb eq_refl). simpl in Hb. subst l'. rewrite insert_id in Ha by done. done.
  - right. by exists b, l'.
Qed.

Lemma insert_twice (m : gmap Z desc) i j (a b c d : desc) : <[i := a]> (<[j := b]> (<[i := c]> (<[j := d]> m))) = <[i := a]> (<[j := b]> m).
Proof. apply map_eq. intros k. destruct (decide (k = i)), (decide (k = j)); by simplify_map_eq. Qed.

(** What a round or a loop over [fd] leaves: [out] printed, [l'] left to read. *)
Definition turned (w w' : W) (fd : Z) (st : ustat) (l' o out : list Z) : Prop :=
  after w w' (<[1 := Output (o ++ out)]> (<[fd := Input st l']> (fds w))).

(** A loop that reads [fd] to its end: [Q i l out r] says that from the state [i] with [l] left it prints [out] and returns [r]; [Inv] holds of the
    world throughout. *)
Lemma read_loop {I R} (Inv : W -> Prop) (Q : I -> list Z -> list Z -> R -> Prop) (round : I -> prog (I + R)) fd st : fd <> 1 ->
  (forall w w' l' o out, Inv w -> turned w w' fd st l' o out -> Inv w') ->
  (forall (w : W) i l o out r, Inv w -> Q i l out r -> fds w !! fd = Some (Input st l) -> fds w !! 1 = Some (Output o) ->
    (exists w', comes (round i) w w' (Some (inr r)) /\ turned w w' fd st [] o out) \/
    (exists j l' w' out1 out2, (length l' < length l)%nat /\ out = out1 ++ out2 /\ Q j l' out2 r /\
      comes (round i) w w' (Some (inl j)) /\ turned w w' fd st l' o out1)) ->
  forall l (w : W) i o out r, Inv w -> Q i l out r -> fds w !! fd = Some (Input st l) -> fds w !! 1 = Some (Output o) ->
  exists w', comes (ITree.iter round i : prog R) w w' (Some r) /\ turned w w' fd st [] o out.
Proof.
  intros Hne Hinv Hround l. remember (length l) as n eqn:Hn. revert l Hn. induction (lt_wf n) as [n _ IH]. intros l -> w i o out r HI HQ Hfd H1'.
  destruct (Hround w i l o out r HI HQ Hfd H1') as [(w' & Hc & Ha)|(j & l' & w1 & out1 & out2 & Hl & -> & HQ' & Hc & Ha)].
  { exists w'. split; [by apply comes_iter_last|done]. }
  pose proof Ha as [E Es]. destruct (IH (length l') Hl l' eq_refl w1 j (o ++ out1) out2 r (Hinv _ _ _ _ _ HI Ha) HQ') as (w' & Hc' & Ha').
  - by rewrite E, lookup_insert_ne, lookup_insert_eq.
  - by rewrite E, lookup_insert_eq.
  - exists w'. split; [by eapply comes_iter_next|]. unfold turned in *. eapply after_trans; [exact Ha|]. rewrite E in Ha'.
    by rewrite insert_twice, <- app_assoc in Ha'.
Qed.

(** Printing nothing. *)
Lemma turned_quiet (w w' : W) fd st l' o : fd <> 1 -> fds w !! 1 = Some (Output o) -> after w w' (<[fd := Input st l']> (fds w)) -> turned w w' fd st l' o [].
Proof. intros Hne H1' Ha. unfold turned. rewrite app_nil_r, insert_id; [done|]. by rewrite lookup_insert_ne. Qed.

Lemma turned_end (w w' : W) fd st o : fd <> 1 -> fds w !! fd = Some (Input st []) -> fds w !! 1 = Some (Output o) -> after w w' (fds w) -> turned w w' fd st [] o [].
Proof. intros Hne Hfd H1' Ha. apply turned_quiet; [done|done|]. by rewrite insert_id. Qed.

(** Printing after a read. *)
Lemma turned_print (w w1 w2 : W) fd st l' o out : after w w1 (<[fd := Input st l']> (fds w)) -> after w1 w2 (<[1 := Output (o ++ out)]> (fds w1)) -> turned w w2 fd st l' o out.
Proof. intros Ha1 Ha2. unfold turned. eapply after_trans; [exact Ha1|]. destruct Ha1 as [<- _]. done. Qed.

Lemma cat_speaks : speaks (fun _ => True) (fun fd _ => cat fd) (fun _ l => l).
Proof.
  intros w fd a st l o Hne Hfd H1' _. apply (read_loop (fun _ => True) (fun _ l out _ => out = l)) with (l := l); [done|done| |done|done|done|done].
  clear w l o Hfd H1'. intros w [] l o out [] _ -> Hfd H1'. destruct (read_cases w fd st l 512 Hfd) as [(-> & Er & Ha)|(b & l' & -> & Hb & Er & Ha)]; [lia|left|right].
  - eexists. split; [|by apply turned_end; [congruence|..]]. unfold cat_round. apply comes_call_bind. rewrite Er. apply comes_ret.
  - set (w1 := (sys (Read fd 512) w).1) in *. pose proof Ha as [E _].
    destruct (write_all w1 1 o b) as (Ew & Ha'); [rewrite E, lookup_insert_ne by congruence; done|].
    exists tt, l', (sys (Write 1 b) w1).1, b, l'. split_and!; [|done|done| |by eapply turned_print].
    { rewrite length_app. destruct b; [done|simpl; lia]. }
    unfold cat_round. apply comes_call_bind. fold w1. rewrite Er. cbn [fst snd]. rewrite Nat2Z.id, firstn_all.
    rewrite (proj2 (Z.ltb_lt 0 _)) by (destruct b; [done|simpl; lia]). apply comes_call_bind. rewrite Ew, Z.eqb_refl. apply comes_ret.
Qed.

(** The line wc prints for a file. *)
Definition wc_text (name l : list Z) : list Z :=
  default [] (uprintf (lit "%d %d %d %s" ++ nl) [UInt (newlines l); UInt (Z.of_nat (length (words l))); UInt (Z.of_nat (length l)); UStr (Some name)]).

Lemma wc_speaks : speaks (fun _ => True) wc wc_text.
Proof.
  intros w fd a st l o Hne Hfd H1' _.
  destruct (read_loop (fun _ => True) (fun s l out r => out = [] /\ r = foldl wc_char s l) (wc_round fd) fd st Hne) with (l := l) (w := w) (o := o)
    (i := mkCounts 0 0 0 false) (out := @nil Z) (r := foldl wc_char (mkCounts 0 0 0 false) l) as (w1 & Hc & Ha); [done| |done|done|done|done|].
  - clear w l o Hfd H1'. intros w s l o out r _ [-> ->] Hfd H1'. destruct (read_cases w fd st l 512 Hfd) as [(-> & Er & Ha)|(b & l' & -> & Hb & Er & Ha)]; [lia|left|right].
    + eexists. split; [|by apply turned_end]. unfold wc_round. apply comes_call_bind. rewrite Er. apply comes_ret.
    + exists (foldl wc_char s b), l', (sys (Read fd 512) w).1, [], []. split_and!; [|done|done|by rewrite foldl_app| |by apply turned_quiet].
      { rewrite length_app. destruct b; [done|simpl; lia]. }
      unfold wc_round. apply comes_call_bind. rewrite Er. cbn [fst snd]. rewrite Nat2Z.id, firstn_all.
      rewrite (proj2 (Z.ltb_lt 0 _)) by (destruct b; [done|simpl; lia]). apply comes_ret.
  - unfold turned in Ha. rewrite app_nil_r in Ha. pose proof Ha as [E _].
    destruct (putchars_prints (wc_text a l) w1 1 o) as (w2 & Hc2 & Ha2); [by rewrite E, lookup_insert_eq|].
    exists w2. split.
    + unfold wc. eapply comes_bind; [exact Hc|]. destruct (wc_splits _ _ (words_splits l) (mkCounts 0 0 0 false) eq_refl) as (-> & -> & ->). exact Hc2.
    + eapply after_trans; [exact Ha|]. by rewrite E, insert_insert_eq in Ha2.
Qed.

(** ** grep *)

Lemma grep_lines_prints re fuel : forall p (w : W) o, fds w !! 1 = Some (Output o) ->
  exists w', comes (grep_lines fuel re p) w w' (Some (scan_lines fuel re p).2) /\ after w w' (<[1 := Output (o ++ (scan_lines fuel re p).1)]> (fds w)).
Proof.
  induction fuel as [|fuel IH]; intros p w o H1'; cbn [grep_lines scan_lines].
  { exists w. split; [apply comes_ret|]. cbn [fst]. rewrite app_nil_r, insert_id by done. apply after_refl. }
  destruct (split_line p) as [[l rest]|]; [|exists w; split; [apply comes_ret|]; cbn [fst]; rewrite app_nil_r, insert_id by done; apply after_refl].
  specialize (IH rest). destruct (scan_lines fuel re rest) as [out p'] eqn:Es. cbn [fst snd] in *. destruct (grep_match re l).
  - destruct (write_all w 1 o (l ++ [10]) H1') as (_ & Ha). set (w1 := (sys (Write 1 (l ++ [10])) w).1) in *. pose proof Ha as [E _].
    destruct (IH w1 (o ++ l ++ [10])) as (w' & Hc & Ha'); [by rewrite E, lookup_insert_eq|].
    exists w'. split; [by apply comes_call_bind|]. eapply after_trans; [exact Ha|]. rewrite E, insert_insert_eq in Ha'. by rewrite (app_assoc o).
  - destruct (IH w o H1') as (w' & Hc & Ha'). exists w'. split; [by apply comes_ret_bind|done].
Qed.

(** The complete lines of a text, and the unfinished one. *)
Fixpoint cut_lines (l : list Z) : list (list Z) * list Z :=
  match l with
  | [] => ([], [])
  | c :: l =>
      let '(ls, r) := cut_lines l in
      if c =? 10 then ([] :: ls, r) else match ls with x :: ls => ((c :: x) :: ls, r) | [] => ([], c :: r) end
  end.

Lemma cut_lines_text l : l = text_of (cut_lines l).1 ++ (cut_lines l).2.
Proof.
  induction l as [|c l IH]; [done|]. simpl. destruct (cut_lines l) as [ls r]. simpl in IH. destruct (Z.eqb_spec c 10) as [->|]; [by rewrite IH at 1|].
  destruct ls as [|x ls]; simpl; [by rewrite IH at 1|]. by rewrite IH at 1.
Qed.

(** Texts that grep reads right: lines that fit its buffer. *)
Definition short_lines (l : list Z) : Prop := Forall short_line (cut_lines l).1 /\ short_line (cut_lines l).2.

(** One round reads what fits the buffer, as a round of [grep_loop] does. *)
Lemma keep_short b p : (length b < BUFSIZE)%nat -> (length p <= length b)%nat -> (length (keep b p) + 1 < BUFSIZE)%nat.
Proof. intros Hb Hp. unfold keep. destruct (Nat.eqb_spec (length p) (length b)); [simpl; unfold BUFSIZE; lia|lia]. Qed.

Lemma split_line_shorter p : forall l rest, split_line p = Some (l, rest) -> (length rest < length p)%nat.
Proof.
  induction p as [|c p IH]; intros l rest E; [done|]. cbn [split_line] in E. destruct (c =? 0); [done|]. destruct (c =? 10); [simplify_eq; simpl; lia|].
  destruct (split_line p) as [[l' rest']|]; [|done]. cbn in E. simplify_eq. specialize (IH l' rest eq_refl). simpl. lia.
Qed.

Lemma scan_lines_shorter fuel re : forall p, (length (scan_lines fuel re p).2 <= length p)%nat.
Proof.
  induction fuel as [|fuel IH]; intros p; cbn [scan_lines]; [done|]. destruct (split_line p) as [[l rest]|] eqn:E; [|done].
  apply split_line_shorter in E. specialize (IH rest). destruct (scan_lines fuel re rest). cbn [snd] in *. lia.
Qed.

Context `{!FullReads W}.

Lemma read_whole (w : W) fd st l n : fds w !! fd = Some (Input st l) -> 0 < n ->
  (sys (Read fd n) w).2 = (Z.of_nat (Nat.min (Z.to_nat n) (length l)), take (Z.to_nat n) l) /\ after w (sys (Read fd n) w).1 (<[fd := Input st (drop (Z.to_nat n) l)]> (fds w)).
Proof.
  intros Hfd Hn. pose proof (read_full w fd st l n Hfd Hn) as Ef. destruct (read_some w fd st l n Hfd Hn) as (b & l' & El & _ & _ & Er & Ha).
  rewrite Er in Ef. cbn [snd] in Ef. assert (El' : l' = drop (Z.to_nat n) l).
  { apply (app_inv_head b). rewrite <- El, Ef. by rewrite take_drop. }
  subst l'. split; [|done]. by rewrite Er, Ef, length_take.
Qed.

Lemma take_min (n : nat) (l : list Z) : take (Nat.min n (length l)) l = take n l.
Proof. destruct (Nat.min_spec n (length l)) as [[? ->]|[? ->]]; [done|]. by rewrite !take_ge by lia. Qed.

Lemma drop_min (n : nat) (l : list Z) : drop (Nat.min n (length l)) l = drop n l.
Proof. destruct (Nat.min_spec n (length l)) as [[? ->]|[? ->]]; [done|]. by rewrite !drop_ge by lia. Qed.

Lemma grep_speaks re : speaks (fun _ => True) (fun fd _ => grep_fd re fd) (fun _ l => grep (fun _ => BUFSIZE) re l).
Proof.
  intros w fd a st l o Hne Hfd H1' _.
  apply (read_loop (fun _ => True) (fun buf l out _ => (length buf + 1 < BUFSIZE)%nat /\ exists fuel i, (length l < fuel)%nat /\ out = grep_loop fuel (fun _ => BUFSIZE) i re buf l))
    with (l := l); [done|done| |done| |done|done]; [|split; [unfold BUFSIZE; simpl; lia|by exists (S (length l)), 0%nat; split; [lia|]]].
  clear w l o Hfd H1'. intros w buf l o out [] _ (Hbuf & fuel & i & Hf & ->) Hfd H1'. destruct fuel as [|fuel]; [lia|].
  destruct (read_whole w fd st l (Z.of_nat (BUFSIZE - length buf - 1)) Hfd) as (Er & Ha); [lia|]. rewrite Nat2Z.id in Er, Ha.
  cbn [grep_loop]. set (n := (BUFSIZE - length buf - 1)%nat) in *. replace (Nat.min BUFSIZE n) with n by lia.
  set (w1 := (sys (Read fd (Z.of_nat n)) w).1) in *. pose proof Ha as [E1 _]. destruct (Nat.min n (length l)) as [|k] eqn:Ek; [left|right].
  - exists w1. destruct l; [|simpl in Ek; lia]. rewrite drop_nil in Ha. split; [|by apply turned_quiet].
    unfold grep_round. apply comes_call_bind. fold n w1. rewrite Er. apply comes_ret.
  - rewrite <- Ek. replace (take (Nat.min n (length l)) l) with (take n l) by apply eq_sym, take_min.
    set (b := buf ++ take n l). destruct (grep_lines_prints re (S (length b)) b w1 o) as (w2 & Hc & Ha2); [by rewrite E1, lookup_insert_ne|].
    pose proof (scan_lines_shorter (S (length b)) re b) as Hsh. destruct (scan_lines (S (length b)) re b) as [out p'] eqn:Es. cbn [fst snd] in *.
    assert (Hb : (length b < BUFSIZE)%nat) by (unfold b; rewrite length_app, length_take; lia).
    exists (keep b p'), (drop n l), w2, out, (grep_loop fuel (fun _ => BUFSIZE) (S i) re (keep b p') (drop n l)). split_and!.
    + rewrite length_drop. lia.
    + by rewrite drop_min.
    + by apply keep_short.
    + exists fuel, (S i). split; [rewrite length_drop; lia|done].
    + unfold grep_round. apply comes_call_bind. fold n w1. rewrite Er. cbn [fst snd]. rewrite (proj2 (Z.ltb_lt 0 _)) by lia. rewrite Nat2Z.id.
      rewrite (take_ge (take n l) (S k)) by (rewrite length_take; lia).
      fold b. eapply comes_bind; [exact Hc|apply comes_ret].
    + by eapply turned_print.
Qed.

(** ** ls *)

Lemma stat_found (w : W) p st l fd0 : stored w p = Some (st, l) -> 0 <= fd0 < NOFILE_u -> fds w !! fd0 = None ->
  exists w', comes (stat p) w w' (Some (0, st)) /\ after w w' (fds w).
Proof.
  intros Hp Hr Hfd0. destruct (open_found w p st l fd0 Hp Hr Hfd0) as (Hpos & Hnew & Ha). set (w1 := (sys (Open p 0) w).1) in *. set (fd := (sys (Open p 0) w).2) in *.
  pose proof Ha as [E1 Es1]. destruct (fstat_gives w1 fd st l) as (Er & Ha2); [rewrite E1; apply lookup_insert_eq|]. set (w2 := (sys (Fstat fd) w1).1) in *.
  pose proof Ha2 as [E2 Es2]. rewrite E1 in E2. pose proof (close_open w2 fd (Input st l)) as Ha3. rewrite E2 in Ha3. specialize (Ha3 (lookup_insert_eq _ _ _)).
  rewrite delete_insert_id in Ha3 by done. exists (sys (Close fd) w2).1. split.
  - unfold stat. apply comes_call_bind. change O_RDONLY with 0. fold w1 fd. rewrite (proj2 (Z.ltb_ge fd 0)) by done.
    apply comes_call_bind. fold w2. rewrite Er. apply comes_call_bind. apply comes_ret.
  - eapply after_trans; [|exact Ha3]. eapply after_trans; [exact Ha|exact Ha2].
Qed.

Lemma stat_missing (w : W) p : stored w p = None -> exists w' st, comes (stat p) w w' (Some (-1, st)) /\ after w w' (fds w).
Proof.
  intros Hp. destruct (open_missing w p Hp) as (Hneg & Ha). exists (sys (Open p 0) w).1. eexists. split; [|exact Ha].
  unfold stat. apply comes_call_bind. change O_RDONLY with 0. rewrite (proj2 (Z.ltb_lt _ 0)) by done. apply comes_ret.
Qed.

(** The line of a file, and of an entry of a directory (none for a free one). *)
Definition ls_text (path : list Z) (st : ustat) : list Z :=
  default [] (uprintf (lit "%s %d %d %d" ++ nl) [UStr (Some (fmtname path)); UInt (us_type st); UInt (us_ino st); UInt (us_size st)]).

Definition entry_path (path e : list Z) : list Z := path ++ 47 :: upto_nul (take DIRSIZ_ls (drop 2 e)).

Definition entry_text (files : list Z -> option (ustat * list Z)) (path e : list Z) : list Z :=
  if default 0 (e !! 0%nat) + 256 * default 0 (e !! 1%nat) =? 0 then []
  else
    match files (entry_path path e) with
    | Some (st, _) => ls_text (entry_path path e) st
    | None => lit "ls: cannot stat " ++ entry_path path e ++ nl
    end.

Lemma ls_round_prints files path fd st fd0 (w : W) e l o : fd <> 1 -> (forall p, stored w p = files p) -> 0 <= fd0 < NOFILE_u -> fd0 <> 1 -> fds w !! fd0 = None ->
  length e = 16%nat -> fds w !! fd = Some (Input st (e ++ l)) -> fds w !! 1 = Some (Output o) ->
  exists w', comes (ls_round path fd tt) w w' (Some (inl tt)) /\ turned w w' fd st l o (entry_text files path e).
Proof.
  intros Hne Hst Hr Hn1 Hfd0 He Hfd H1'. destruct (read_whole w fd st _ 16 Hfd) as (Er & Ha); [lia|].
  change (Z.to_nat 16) with 16%nat in *. rewrite take_app_length' in Er by done. rewrite drop_app_length' in Ha by done.
  rewrite length_app, He in Er. replace (Nat.min 16 (16 + length l)) with 16%nat in Er by lia. set (w1 := (sys (Read fd 16) w).1) in *. pose proof Ha as [E1 Es1].
  assert (H1w : fds w1 !! 1 = Some (Output o)) by by rewrite E1, lookup_insert_ne.
  assert (H0w : fds w1 !! fd0 = None) by (rewrite E1, lookup_insert_ne; [done|congruence]).
  unfold entry_text. fold (entry_path path e). destruct (_ =? 0) eqn:Ei.
  { exists w1. split; [|by apply turned_quiet]. unfold ls_round. apply comes_call_bind. fold w1. rewrite Er. cbn [fst snd]. rewrite Ei. apply comes_ret. }
  assert (Hround : forall w2 w3 text s, comes (stat (entry_path path e)) w1 w2 (Some s) -> after w1 w2 (fds w1) ->
    comes (if s.1 <? 0 then printf 1 (lit "ls: cannot stat %s" ++ nl) [UStr (Some (entry_path path e))] else ls_line (entry_path path e) s.2) w2 w3 (Some tt) ->
    after w2 w3 (<[1 := Output (o ++ text)]> (fds w2)) -> comes (ls_round path fd tt) w w3 (Some (inl tt)) /\ turned w w3 fd st l o text).
  { intros w2 w3 text s Hc2 Ha2 Hc3 Ha3. split.
    - unfold ls_round. apply comes_call_bind. fold w1. rewrite Er. cbn [fst snd]. rewrite Ei. cbv zeta. fold (entry_path path e). eapply comes_bind; [exact Hc2|].
      destruct (s.1 <? 0); (eapply comes_bind; [exact Hc3|apply comes_ret]).
    - eapply turned_print; [exact Ha|]. eapply after_trans; [exact Ha2|]. by destruct Ha2 as [<- _]. }
  destruct (files (entry_path path e)) as [[s l']|] eqn:Ef.
  - destruct (stat_found w1 (entry_path path e) s l' fd0) as (w2 & Hc2 & Ha2); [by rewrite Es1, Hst|done|done|].
    destruct (putchars_prints (ls_text (entry_path path e) s) w2 1 o) as (w3 & Hc3 & Ha3); [by destruct Ha2 as [-> _]|]. exists w3. by apply (Hround w2 w3 _ (0, s)).
  - destruct (stat_missing w1 (entry_path path e)) as (w2 & s & Hc2 & Ha2); [by rewrite Es1, Hst|].
    destruct (putchars_prints (lit "ls: cannot stat " ++ entry_path path e ++ nl) w2 1 o) as (w3 & Hc3 & Ha3); [by destruct Ha2 as [-> _]|]. exists w3.
    by apply (Hround w2 w3 _ (-1, s)).
Qed.

Lemma ls_loop_prints files path fd st fd0 (w : W) es o : fd <> 1 -> (forall p, stored w p = files p) -> 0 <= fd0 < NOFILE_u -> fd0 <> 1 -> fd0 <> fd -> fds w !! fd0 = None ->
  Forall (fun e => length e = 16%nat) es -> fds w !! fd = Some (Input st (concat es)) -> fds w !! 1 = Some (Output o) ->
  exists w', comes (ITree.iter (ls_round path fd) tt : prog unit) w w' (Some tt) /\ turned w w' fd st [] o (concat (map (entry_text files path) es)).
Proof.
  intros Hne Hst Hr Hn1 Hnf Hfd0 Hes Hfd H1'.
  apply (read_loop (fun w => (forall p, stored w p = files p) /\ fds w !! fd0 = None)
    (fun _ l out _ => exists es, Forall (fun e => length e = 16%nat) es /\ l = concat es /\ out = concat (map (entry_text files path) es))) with (l := concat es);
    [done| | |done|by exists es|done|done].
  { intros w1 w2 l' o' out [Hs Hf] [E Es]. split; [intros p; by rewrite Es|]. by rewrite E, !lookup_insert_ne by congruence. }
  clear w es o Hst Hfd0 Hes Hfd H1'. intros w [] l o out [] [Hst Hfd0] (es & Hes & -> & ->) Hfd H1'. destruct es as [|e es]; [left|right].
  - destruct (read_cases w fd st [] 16 Hfd) as [(_ & Er & Ha)|(b & l' & E & Hb & _)]; [lia| |by destruct b].
    eexists. split; [|by apply turned_end]. unfold ls_round. apply comes_call_bind. rewrite Er. apply comes_ret.
  - inversion_clear Hes as [|? ? He Hes']. destruct (ls_round_prints files path fd st fd0 w e (concat es) o) as (w' & Hc & Ha); try done.
    exists tt, (concat es), w', (entry_text files path e), (concat (map (entry_text files path) es)). split_and!; [|done|by exists es|done|done].
    cbn [concat]. rewrite length_app, He. lia.
Qed.

(** ** The programs *)

(** cat copies its files to its output one after the other, however the reads
    cut them; the first that cannot be opened ends it with a message.  Nothing else
    changes: the descriptors it opened are closed again. *)
Theorem cat_copies (w : W) argv o fd0 : argv <> [] -> fds w !! 1 = Some (Output o) -> 0 <= fd0 < NOFILE_u -> fds w !! fd0 = None ->
  exists w', comes (cat_main argv) w w' None /\ after w w' (<[1 := Output (o ++ texts "cat" (fun _ l => l) (stored w) argv)]> (fds w)).
Proof.
  intros Ha H1' Hr Hfd0. destruct argv as [|a argv]; [done|]. unfold cat_main.
  apply (over_files_texts (fun _ => True) "cat" _ _ ltac:(by repeat constructor) cat_speaks) with (fd0 := fd0); done.
Qed.

(** wc prints, for each of its files, the number of its newlines, of its words
    and of its bytes and its name, however the reads cut the file: a word that goes
    over the end of a piece is counted once. *)
Theorem wc_counts_files (w : W) argv o fd0 : argv <> [] -> fds w !! 1 = Some (Output o) -> 0 <= fd0 < NOFILE_u -> fds w !! fd0 = None ->
  exists w', comes (wc_main argv) w w' None /\ after w w' (<[1 := Output (o ++ texts "wc" wc_text (stored w) argv)]> (fds w)).
Proof.
  intros Ha H1' Hr Hfd0. destruct argv as [|a argv]; [done|]. unfold wc_main.
  apply (over_files_texts (fun _ => True) "wc" _ _ ltac:(by repeat constructor) wc_speaks) with (fd0 := fd0); done.
Qed.

(** C32: grep prints the matching lines of its files in order, where the files
    consist of lines that fit its buffer and every read gives all that is asked
    for or left; a last line without a newline is not looked at. *)
Theorem grep_searches (w : W) re argv o fd0 : argv <> [] -> fds w !! 1 = Some (Output o) -> 0 <= fd0 < NOFILE_u -> fds w !! fd0 = None ->
  (forall a st l, a ∈ argv -> stored w a = Some (st, l) -> short_lines l) ->
  exists w', comes (grep_main (re :: argv)) w w' None /\
    after w w' (<[1 := Output (o ++ texts "grep" (fun _ l => out_of re (cut_lines l).1) (stored w) argv)]> (fds w)).
Proof.
  intros Ha H1' Hr Hfd0 Hs. destruct argv as [|a argv]; [done|]. unfold grep_main.
  apply (over_files_texts short_lines "grep") with (fd0 := fd0); [by repeat constructor| |done..].
  intros w1 fd b st l o1 Hne Hfd H1w [Hl1 Hl2]. destruct (grep_speaks re w1 fd b st l o1 Hne Hfd H1w I) as (w2 & Hc & Ha2). exists w2. split; [exact Hc|].
  replace (out_of re (cut_lines l).1) with (grep (fun _ => BUFSIZE) re l); [done|].
  apply (grep_loop_spec re (fun _ => BUFSIZE) (cut_lines l).2); [intros; lia|done|lia|done|apply cut_lines_text|apply prefix_nil].
Qed.

(** ls on a directory prints a line for each of its entries that is in use, in
    order, with the name, type, inode number and size of the file at the path
    [dir/name]; nothing else changes. *)
Theorem ls_lists (w : W) path st es o fd0 fd1 : us_type st = T_DIR_st -> (length path <= 496)%nat -> Forall (fun e => length e = 16%nat) es ->
  stored w path = Some (st, concat es) -> fds w !! 1 = Some (Output o) ->
  0 <= fd0 < NOFILE_u -> 0 <= fd1 < NOFILE_u -> fd0 <> fd1 -> fds w !! fd0 = None -> fds w !! fd1 = None ->
  exists w', comes (ls path) w w' (Some tt) /\ after w w' (<[1 := Output (o ++ concat (map (entry_text (stored w) path) es))]> (fds w)).
Proof.
  intros Ht Hlen Hes Hp H1' Hr0 Hr1 Hn Hfd0 Hfd1.
  destruct (open_found w path st _ fd0 Hp Hr0 Hfd0) as (Hpos & Hnew & Ha). set (w1 := (sys (Open path 0) w).1) in *. set (fd := (sys (Open path 0) w).2) in *.
  pose proof Ha as [E1 Es1]. destruct (fstat_gives w1 fd st (concat es)) as (Er & Ha2); [rewrite E1; apply lookup_insert_eq|]. set (w2 := (sys (Fstat fd) w1).1) in *.
  pose proof Ha2 as [E2 Es2]. rewrite E1 in E2. assert (Hne : fd <> 1) by congruence.
  set (fd2 := if decide (fd0 = fd) then fd1 else fd0). assert (H2 : 0 <= fd2 < NOFILE_u /\ fd2 <> 1 /\ fd2 <> fd /\ fds w !! fd2 = None).
  { assert (fd0 <> 1) by (intros ->; congruence). assert (fd1 <> 1) by (intros ->; congruence). unfold fd2. destruct (decide (fd0 = fd)); (split; [done|split_and!; congruence]). }
  destruct H2 as (Hr2 & Hn2 & Hn2' & Hfd2).
  destruct (ls_loop_prints (stored w) path fd st fd2 w2 es o) as (w3 & Hc3 & Ha3); try done.
  { intros p. by rewrite Es2, Es1. } { by rewrite E2, lookup_insert_ne. } { rewrite E2. apply lookup_insert_eq. } { by rewrite E2, lookup_insert_ne. }
  pose proof Ha3 as [E3 Es3]. rewrite E2 in E3. pose proof (close_open w3 fd (Input st [])) as Ha4. rewrite E3 in Ha4.
  specialize (Ha4 ltac:(by rewrite lookup_insert_ne, lookup_insert_eq)). exists (sys (Close fd) w3).1. split.
  - unfold ls. apply comes_call_bind. fold w1 fd. rewrite (proj2 (Z.ltb_ge fd 0)) by done. apply comes_call_bind. fold w2. rewrite Er. cbn [fst snd]. rewrite Ht.
    cbn [Z.ltb Z.compare]. cbv iota. eapply comes_bind; [|apply comes_call_bind, comes_ret].
    change (T_DIR_st =? T_FILE_st) with false. change (T_DIR_st =? T_DIR_st) with true. cbv iota.
    rewrite (proj2 (Nat.ltb_ge 512 (length path + 1 + DIRSIZ_ls + 1))) by (unfold DIRSIZ_ls; lia). exact Hc3.
  - rewrite insert_insert_eq, delete_above in Ha4 by done. eapply after_trans; [|exact Ha4]. eapply after_trans; [|exact Ha3]. eapply after_trans; [exact Ha|exact Ha2].
Qed.

End Laws.

(** ** init *)

Section Reach.
  Context {W : Type} `{World W}.

(** The program [t] in [w] comes to be at [t'] in [w']. *)
Inductive reaches {R} : prog R -> W -> prog R -> W -> Prop :=
| r_here t t' w : observe t = observe t' -> reaches t w t' w
| r_tau t t1 t' w w' : observe t = TauF t1 -> reaches t1 w t' w' -> reaches t w t' w'
| r_call {X} t (c : callE X) g t' w w' : observe t = VisF (Call c) g -> reaches (g (sys c w).2) (sys c w).1 t' w' -> reaches t w t' w'.

Lemma reaches_trans {R} (t1 t2 t3 : prog R) w1 w2 w3 : reaches t1 w1 t2 w2 -> reaches t2 w2 t3 w3 -> reaches t1 w1 t3 w3.
Proof.
  induction 1 as [t t' w E|t t1 t' w w' E _ IH|X t c g t' w w' E _ IH]; intros H2; [|eapply r_tau; [exact E|by apply IH]|eapply r_call; [exact E|by apply IH]].
  destruct H2 as [? ? ? E'|? ? ? ? ? E'|? ? ? ? ? ? ? E']; [apply r_here; congruence|eapply r_tau; [by rewrite E|done]|eapply r_call; [by rewrite E|done]].
Qed.

Lemma reaches_bind {A B} (t : prog A) (k : A -> prog B) w w1 a : comes t w w1 (Some a) -> reaches (t ≫= k) w (k a) w1.
Proof.
  intros [n Hn]. revert t w Hn. induction n as [|n IH]; intros t w Hn; [done|]. cbn [run] in Hn. pose proof (observe_bind t k) as E.
  destruct (observe t) as [r|t'|X e g]; [simplify_eq; by apply r_here|eapply r_tau; [exact E|by apply IH]|].
  destruct e as [X c|]; [|done]. eapply r_call; [exact E|]. by apply IH.
Qed.



Lemma reaches_iter {I R} (f : I -> prog (I + R)) i j w w1 : comes (f i) w w1 (Some (inl j)) ->
  reaches (ITree.iter f i : prog R) w (ITree.iter f j : prog R) w1.
Proof.
  intros Hc. set (k := fun x : I + R => match x with inl j => Tau (ITree.iter f j) | inr r => Ret r end : prog R).
  eapply reaches_trans; [apply r_here, (observe_iter f i)|]. eapply reaches_trans; [exact (reaches_bind _ k _ _ _ Hc)|].
  eapply (r_tau _ (ITree.iter f j)); [reflexivity|by apply r_here].
Qed.

End Reach.

(** What init relies on.  [fork] may fail.  [children] are its children in the order in which they end; those of other processes may join them at any [wait]. *)
Class Procs (W : Type) `{Files W} := {
  children : W -> list Z;
  console : W -> bool;
  children_pos (w : W) p : p ∈ children w -> 0 < p;
  fork_child (w : W) : after w (sys Fork w).1 (fds w) /\ ((sys Fork w).2 < 0 \/
    exists l1 l2, children w = l1 ++ l2 /\ children (sys Fork w).1 = l1 ++ (sys Fork w).2 :: l2 /\ ~ (sys Fork w).2 ∈ children w);
  wait_first (w : W) p l : children w = p :: l -> (sys Wait w).2 = p /\ (exists more, children (sys Wait w).1 = l ++ more) /\ after w (sys Wait w).1 (fds w);
  write_keeps (w : W) fd b : children (sys (Write fd b) w).1 = children w;
  open_console (w : W) : fds w = ∅ ->
    if console w then (sys (Open (lit "console") O_RDWR) w).2 = 0 /\ fds (sys (Open (lit "console") O_RDWR) w).1 = {[0 := Output []]}
    else (sys (Open (lit "console") O_RDWR) w).2 < 0 /\ fds (sys (Open (lit "console") O_RDWR) w).1 = ∅;
  mknod_console (w : W) : console (sys (Mknod (lit "console") 1 1) w).1 = true /\ fds (sys (Mknod (lit "console") 1 1) w).1 = fds w;
  dup_lowest (w : W) fd d n : fds w !! fd = Some d -> 0 <= n < NOFILE_u -> fds w !! n = None -> (forall i, 0 <= i < n -> fds w !! i <> None) ->
    fds (sys (Dup fd) w).1 = <[n := d]> (fds w)
}.

Section Init.
  Context {W : Type} `{Procs W}.

(** The console is the output. *)
Definition going (w : W) : Prop := exists o, fds w !! 1 = Some (Output o).




(** The loop of init, from the top of a round. *)
Definition init_loop : prog unit := ITree.iter init_round tt.

(** A program that becomes the shell; if [exec] returns, it ends. *)
Definition becomes_sh (c : prog unit) : Prop :=
  exists g, observe c = VisF (Call (Exec (lit "sh") [lit "sh"])) g /\ forall r w, going w -> exists w', comes (g r) w w' None.

(** A round: at the [fork] the child goes on with [g 0], the parent with [g] of the child's number; the parent comes to the next round when it has
    waited for the child and for those of its children that ended before. *)
Definition round (w w' : W) : Prop := exists t w1 g l1 l2 more, let pid := (sys Fork w1).2 in
  reaches init_loop w t w1 /\ observe t = VisF (Call Fork) g /\ 0 < pid /\ becomes_sh (g 0) /\
  reaches (g pid) (sys Fork w1).1 init_loop w' /\ children (sys Fork w1).1 = l1 ++ pid :: l2 /\ children w' = l2 ++ more.









End Init.

(** ** A machine to run the programs on *)

Module Machine.

(** The children are those init has forked, in the order of their pids. *)
Record machine : Type := mkMachine {
  m_files : gmap (list Z) (ustat * list Z);
  m_fds : gmap Z desc;
  m_console : bool;
  m_children : list positive
}.

Definition set_fds (w : machine) (m : gmap Z desc) : machine := mkMachine (m_files w) m (m_console w) (m_children w).

Definition first_free (m : gmap Z desc) : option Z := snd <$> list_find (fun i => m !! i = None) (seqZ 0 NOFILE_u).

Definition new_desc (w : machine) (d : desc) : machine * Z :=
  match first_free (m_fds w) with
  | Some fd => (set_fds w (<[fd := d]> (m_fds w)), fd)
  | None => (w, -1)
  end.

Definition next_pid (l : list positive) : positive := Pos.succ (foldr Pos.max 1%positive l).

#[export] Instance machine_world : World machine := fun R c w =>
  match c in callE R return machine * R with
  | Open p mode =>
      if mode =? O_RDWR then if bool_decide (p = lit "console") && m_console w then new_desc w (Output []) else (w, -1)
      else match m_files w !! p with Some (st, l) => new_desc w (Input st l) | None => (w, -1) end
  | Close fd => (set_fds w (delete fd (m_fds w)), 0)
  | Read fd n =>
      match m_fds w !! fd with
      | Some (Input st l) => (set_fds w (<[fd := Input st (drop (Z.to_nat n) l)]> (m_fds w)), (Z.of_nat (length (take (Z.to_nat n) l)), take (Z.to_nat n) l))
      | _ => (w, (-1, []))
      end
  | Write fd b =>
      match m_fds w !! fd with
      | Some (Output o) => (set_fds w (<[fd := Output (o ++ b)]> (m_fds w)), Z.of_nat (length b))
      | _ => (w, -1)
      end
  | Fstat fd => match m_fds w !! fd with Some (Input st _) => (w, (0, st)) | _ => (w, (-1, mkUstat 0 0 0 0 0)) end
  | Dup fd => match m_fds w !! fd with Some d => new_desc w d | None => (w, -1) end
  | Mknod p _ _ => (mkMachine (m_files w) (m_fds w) (m_console w || bool_decide (p = lit "console")) (m_children w), 0)
  | Fork => let p := next_pid (m_children w) in (mkMachine (m_files w) (m_fds w) (m_console w) (m_children w ++ [p]), Z.pos p)
  | Wait =>
      match m_children w with
      | p :: l => (mkMachine (m_files w) (m_fds w) (m_console w) l, Z.pos p)
      | [] => (w, -1)
      end
  | Link _ _ | Unlink _ | Mkdir _ | Kill _ | Exec _ _ | Sleep _ => (w, -1)
  end.

#[export] Instance machine_held : Held machine := { stored w p := m_files w !! p; fds := m_fds }.

Lemma first_free_least m n : 0 <= n < NOFILE_u -> m !! n = None -> exists i, first_free m = Some i /\ m !! i = None /\ 0 <= i <= n /\ (forall j, 0 <= j < i -> m !! j <> None).
Proof.
  intros Hn Hm. unfold first_free. destruct (list_find_elem_of (fun i => m !! i = None) (seqZ 0 NOFILE_u) n) as [[k i] Ef]; [apply elem_of_seqZ; lia|done|].
  rewrite Ef. exists i. apply list_find_Some in Ef as (Hk & Hi & Hb). apply lookup_seqZ in Hk as [-> Hk]. split_and!; [done|done|lia| |].
  - destruct (decide (0 + Z.of_nat k <= n)) as [|Hgt]; [done|]. exfalso. apply (Hb (Z.to_nat n) n); [apply lookup_seqZ; lia|lia|done].
  - intros j Hj Hmj. apply (Hb (Z.to_nat j) j); [apply lookup_seqZ; lia|lia|done].
Qed.

Lemma next_pid_fresh l : next_pid l ∉ l.
Proof.
  unfold next_pid. assert (Hle : forall p, p ∈ l -> (p <= foldr Pos.max 1 l)%positive).
  { induction l as [|q l IH]; intros p Hp; [by apply elem_of_nil in Hp|]. simpl. apply elem_of_cons in Hp as [->|Hp]; [lia|]. specialize (IH p Hp). lia. }
  intros Hin%Hle. lia.
Qed.

#[export] Instance machine_files : Files machine.
Proof.
  constructor.
  - intros w p st l fd0 Hp Hr Hfd0. destruct (first_free_least (m_fds w) fd0 Hr Hfd0) as (i & Ei & Hi & Hle & _).
    assert (E : sys (Open p 0) w = (set_fds w (<[i := Input st l]> (m_fds w)), i)).
    { cbn in Hp. unfold sys, machine_world. cbn [Z.eqb O_RDWR]. rewrite Hp. unfold new_desc. by rewrite Ei. }
    rewrite E. cbn [fst snd]. split_and!; [lia|done|]. by split.
  - intros w p Hp. assert (E : sys (Open p 0) w = (w, -1)) by (cbn in Hp; unfold sys, machine_world; cbn [Z.eqb O_RDWR]; by rewrite Hp).
    rewrite E. split; [done|]. by split.
  - intros w fd d Hd. by split.
  - intros w fd st l n Hfd Hn. exists (take (Z.to_nat n) l), (drop (Z.to_nat n) l). split_and!; [by rewrite take_drop| | | |].
    + intros Ht. destruct l; [done|]. destruct (Z.to_nat n) eqn:En; [lia|done].
    + rewrite length_take. lia.
    + cbn in Hfd. unfold sys, machine_world. by rewrite Hfd.
    + cbn in Hfd. unfold sys, machine_world. rewrite Hfd. by split.
  - intros w fd o b Hfd. cbn in Hfd. unfold sys, machine_world. rewrite Hfd. split; [done|]. by split.
  - intros w fd st l Hfd. cbn in Hfd. unfold sys, machine_world. rewrite Hfd. split; [done|]. by split.
Qed.

#[export] Instance machine_full : FullReads machine.
Proof. constructor. intros w fd st l n Hfd Hn. cbn in Hfd. unfold sys, machine_world. by rewrite Hfd. Qed.

#[export] Program Instance machine_procs : Procs machine := { children w := Z.pos <$> m_children w; console := m_console }.
Next Obligation. intros w p Hp. apply list_elem_of_fmap in Hp as (q & -> & _). lia. Qed.
Next Obligation.
  intros w. split; [by split|]. right. exists (Z.pos <$> m_children w), []. unfold sys, machine_world. cbn [fst snd m_children]. split_and!; [by rewrite app_nil_r|by rewrite fmap_app|].
  intros (q & Eq & Hq)%list_elem_of_fmap. injection Eq as <-. by apply (next_pid_fresh (m_children w)).
Qed.
Next Obligation.
  intros w p l E. unfold sys, machine_world. destruct (m_children w) as [|q r] eqn:Eq; cbn in E; rewrite ?Eq in E; [done|]. cbn in E. injection E as <- <-. split_and!; [done|exists []; by rewrite app_nil_r|by split].
Qed.
Next Obligation. intros w fd b. unfold sys, machine_world. by destruct (m_fds w !! fd) as [[]|]. Qed.
Next Obligation.
  intros w E. cbn in E. unfold sys, machine_world. rewrite bool_decide_true by done. cbn [Z.eqb O_RDWR Pos.eqb andb]. destruct (m_console w) eqn:Ec; [|done].
  unfold new_desc. rewrite E. done.
Qed.
Next Obligation. intros w. unfold sys, machine_world. cbn [fst m_console]. rewrite bool_decide_true by done. by rewrite orb_true_r. Qed.
Next Obligation.
  intros w fd d n Hfd Hr Hn Hleast. cbn in Hfd, Hn. destruct (first_free_least (m_fds w) n Hr Hn) as (i & Ei & Hi & Hle & _).
  assert (i = n) as ->. { destruct (decide (i = n)); [done|]. exfalso. apply (Hleast i); [lia|done]. }
  unfold sys, machine_world. rewrite Hfd. unfold new_desc. by rewrite Ei.
Qed.

End Machine.

Module SmallMachine.
Import Machine.

Definition plain_st (ino size : Z) : ustat := mkUstat T_FILE_st 1 ino 1 size.

(** Two files, a directory with one of them and a free entry, and the output on descriptor 1. *)
Definition dir_entries : list (list Z) := [[2; 0; 97] ++ replicate 13 0; replicate 16 0].
Definition world : machine := mkMachine
  {[ lit "a" := (plain_st 2 6, lit "ab c" ++ nl ++ lit "d"); lit "b" := (plain_st 3 3, lit "xy" ++ nl);
     lit "d" := (mkUstat T_DIR_st 1 1 1 32, concat dir_entries); lit "d/a" := (plain_st 2 6, []) ]}
  {[ 1 := Output [] ]} false [].

Lemma cat_copies_witness : exists w', comes (cat_main [lit "a"; lit "b"; lit "z"; lit "a"]) world w' None /\
  fds w' = {[ 1 := Output (lit "ab c" ++ nl ++ lit "d" ++ lit "xy" ++ nl ++ lit "cat: cannot open z" ++ nl) ]}.
Proof.
  destruct (cat_copies world [lit "a"; lit "b"; lit "z"; lit "a"] [] 3) as (w' & Hc & E & _); [done|reflexivity|done|reflexivity|].
  exists w'. split; [exact Hc|]. rewrite E. vm_compute. reflexivity.
Defined.

Lemma wc_counts_files_witness : exists w', comes (wc_main [lit "a"; lit "b"]) world w' None /\
  fds w' = {[ 1 := Output (lit "1 3 6 a" ++ nl ++ lit "1 1 3 b" ++ nl) ]}.
Proof.
  destruct (wc_counts_files world [lit "a"; lit "b"] [] 3) as (w' & Hc & E & _); [done|reflexivity|done|reflexivity|].
  exists w'. split; [exact Hc|]. rewrite E. vm_compute. reflexivity.
Defined.

Lemma short_linesb_ok l : forallb short_lineb (cut_lines l).1 && short_lineb (cut_lines l).2 = true -> short_lines l.
Proof.
  intros [H1 H2]%andb_true_iff. split; [|by apply short_lineb_ok]. rewrite forallb_forall in H1. apply Forall_forall. intros x Hx%list_elem_of_In. by apply short_lineb_ok, H1.
Qed.

Lemma grep_searches_witness : exists w', comes (grep_main [lit "b"; lit "a"; lit "b"]) world w' None /\
  fds w' = {[ 1 := Output (lit "ab c" ++ nl) ]}.
Proof.
  destruct (grep_searches world (lit "b") [lit "a"; lit "b"] [] 3) as (w' & Hc & E & _); [done|reflexivity|done|reflexivity| |].
  - intros a st l Ha Hs. apply elem_of_cons in Ha as [->|Ha]; [|apply elem_of_cons in Ha as [->|Ha]; [|by apply elem_of_nil in Ha]];
      vm_compute in Hs; injection Hs as <- <-; apply short_linesb_ok; reflexivity.
  - exists w'. split; [exact Hc|]. rewrite E. vm_compute. reflexivity.
Defined.

Lemma ls_lists_witness : exists w', comes (ls (lit "d")) world w' (Some tt) /\
  fds w' = {[ 1 := Output (lit "a              2 2 6" ++ nl) ]}.
Proof.
  destruct (ls_lists world (lit "d") (mkUstat T_DIR_st 1 1 1 32) dir_entries [] 3 4) as (w' & Hc & E & _);
    [done|vm_compute; lia|repeat constructor|reflexivity|reflexivity|done|done|done|reflexivity|reflexivity|].
  exists w'. split; [exact Hc|]. rewrite E. vm_compute. reflexivity.
Defined.


(** The same by running the program. *)
Example cat_runs : (fun r : machine * option unit => m_fds r.1) <$> run 100 (cat_main [lit "b"; lit "z"]) world =
  Some {[ 1 := Output (lit "xy" ++ nl ++ lit "cat: cannot open z" ++ nl) ]}.
Proof. vm_compute. reflexivity. Qed.

End SmallMachine.
